(* ===== verification/_CoqProject ===== *)
-Q . S2P
Prelude.v
Types.v
Positions.v
Wallet.v
Serde.v
Fixtures.v
Delta.v
BalanceOps.v
ApprovalOps.v
PositionOps.v
Replay.v
TokenEffect.v
AmmTypes.v
AmmMath.v
AmmSwap.v
AmmLiquidity.v
AmmIntent.v
Derived.v
LendingTypes.v
LendingMath.v
LendingLedger.v
LendingEffect.v
StaticDomains.v
Airdrop.v
Launchpad.v
Hyperliquid.v
PerpMath.v
PerpEffect.v
Apply.v
Float64.v
ScamTypes.v
ScamSeries.v
ScamGenerators.v
ScamRules.v
SyncTopo.v
SyncLive.v
SyncRefresh.v
Bytes.v
SyncPending.v
PolicyEngine.v
PackedPayloads.v
AbiDecode.v
PolicyRpc.v
BundleFormat.v
BundleTrust.v
SnapshotStore.v
ActionViews.v
PolicyRuntime.v
SessionInput.v
SessionReport.v
Session.v
SessionRun.v
MapperText.v
MapperFn.v
MapperBuild.v
DecodeDerive.v
DecodeStream.v
DecodeRoute.v
DecodeTyped.v
DecoderSnapshot.v
