(* ===== verification/Prelude.v ===== *)
(** * DAMBI: a verification development

    Dambi decodes what a wallet is about to sign into a semantic action, predicts the
    wallet state the action leads to, and evaluates the action against a Cedar policy set.
    This library models the Rust crates that carry that logic and proves the properties
    they are relied on for.

    ** The program and the files that model it

    The paths are under [src/crates/]. Each file has one Section or Module per component,
    keeps the names of the source and opens with a comment on what it holds.

    - Shared: [Prelude] (outcomes of fallible code, integers of machine width, tactics, list
      and map lemmas), [Serde] and [Bytes] (JSON values, byte strings and big-endian words),
      [Float64] (64-bit floats as the specification floats of the Standard Library).
    - Wallet state (asset-model/state, asset-model/action): [Types], [Positions], [Wallet]
      hold the records and enums; [Fixtures] the demonstration wallet of the witnesses;
      the actions are in the file of their domain.
    - Deltas (asset-model/transition/src/helpers): [Delta] is delta.rs ([apply_delta],
      [merge_delta]); [BalanceOps], [ApprovalOps], [PositionOps], [Derived] are the helpers
      of the same names; [Replay] is the notion "this delta can be applied" shared by all
      reducers.
    - Reducers (asset-model/transition/src/effect): [TokenEffect]; [AmmTypes], [AmmMath],
      [AmmSwap], [AmmLiquidity], [AmmIntent]; [LendingTypes], [LendingMath],
      [LendingLedger], [LendingEffect]; [PerpMath], [PerpEffect]; [Airdrop], [Launchpad],
      [Hyperliquid]; [StaticDomains] for the domains that change no wallet state.
      [Apply] is apply.rs: the dispatch over an action body and the multicall loop.
    - Scam filter (scam-filter): [ScamTypes], [ScamSeries], [ScamGenerators], [ScamRules].
    - Synchronisation (policy-server/sync): [SyncTopo] (live/topo.rs), [SyncLive] (walker,
      batcher, resolver and the application of values), [SyncRefresh] (the refresh loop of
      runtime/orchestrator.rs), [SyncPending] (permit and venue-order reconciliation).
    - Policy engine (policy-engine): [PolicyEngine] (policy/: building, evaluation, verdicts)
      and [PolicyRpc] (policy_rpc/: manifests, triggers, selectors, planning of calls,
      materialization of results).
    - ABI resolver (adapters/abi-resolver): [PackedPayloads] (multiSend payloads and V3
      paths) and [AbiDecode] (decoding, opcode streams, nested calls, indices, resolver,
      splitter, registries).
    - Signed bundles and sessions (dambi-core): [BundleFormat] (bundle/structure.rs and the
      Base64 of signature.rs), [BundleTrust] (role-scoped keys, semantics.rs with the scan of
      the custom fields a policy reads, policy_content.rs), [SnapshotStore]
      (snapshot/store.rs: stores, refresh attempts, disposal), [PolicyRuntime] (runtime/),
      [SessionInput] (session/config.rs, request.rs and the shape of facts), [SessionReport]
      (reports, fact validation, evaluation of a node), [Session] (session/mod.rs: the whole
      of plan, evaluate, refresh and dispose), [SessionRun] (the runs of many sessions as a
      step relation with a log of what was issued and judged). [ActionViews] is the
      projection of an action on what triggers read (asset-model/action/src/view.rs).
    - Declarative mappers (adapters/mappers/src/declarative): [MapperText] (text operations and
      args_json.rs), [MapperFn] (builtin_fn.rs: every function a manifest can call),
      [MapperBuild] (action_builder.rs: placeholders, templates, live inputs, multicalls).
    - Decoding (dambi-core/src/decode): [DecodeDerive] (the address tables, hashed pool and
      market ids, CREATE2 addresses), [DecodeStream] (opcode streams with nested streams,
      tagged and parallel tagged batches), [DecodeRoute] (the registry of manifests and the
      routing of a transaction through its inner calls, the traversal as a state and error
      monad), [DecodeTyped] (typed_data_validation.rs, both typed-data routes, and the
      instance of the request decoder that sessions are stated against).
    - Decoder snapshots (dambi-core/src/snapshot/decoder.rs, bundle/decoder_signature.rs):
      [DecoderSnapshot], the gate between an artifact and the registry of a store; it is the
      preparation that [SnapshotStore] leaves as a parameter.

    ** How the code is rendered

    A function returning [Result] is a function into [result], whose third constructor
    [Panic] is an abort: unchecked arithmetic, an out-of-range slice, an operator of
    [rust_decimal]. Loops over collections are folds ([foldM] stops at the first error).
    256-bit and machine integers are [Z] with their checks, saturation or wrap-around
    written out; types carry no range, so ranges are hypotheses or part of the invariant.
    A [BTreeMap] or [HashMap] is a [gmap]; where the order of iteration is observable it is
    the sorted order, or a parameter when the source leaves it unspecified. A JSON object is
    an association list. The text of an error message is its format string, since no code
    depends on the interpolated values. Recursion follows the source: a bounded loop has
    the bound of the code (255 Newton steps); Kahn's loop has the number of names as fuel and
    the multiSend loop the number of bytes plus one; the scan of a policy the size of the
    policy, nested opcode streams the size of their table, the check of declared types the
    size of the declarations, and the routing of a transaction five rounds, one more than
    the greatest depth; all of them are proved never to run out.

    Code outside the repository is a parameter: the decimal arithmetic ([RustDecimal]), the
    parsing of integers, the debug rendering of an address, the Cedar evaluator ([Cedar] with
    [CedarLaws], [PolicyTools]), the ABI codec ([Alloy]) and its text
    functions ([AlloyText] with [AlloyTextLaws]), the derived serialization of actions
    ([ActionSerde] with [PermitSerdeLaws]), the derived deserializers of requests and
    manifests ([DecodeSerde], [TypedSerde]), fetchers and the RPC router of the
    synchronisation, strict JSON parsing, Ed25519 ([Crypto]), SHA-256 and canonical JSON
    ([SnapshotTools]). Parts of the
    repository that a component only calls are parameters of it too: the lowering of actions
    ([Lowering] with [LoweringLaws]), the scam analysis, which reads the clock through a tree
    of reads, the preparation of a decoder in [SnapshotStore], which [DecoderSnapshot]
    instantiates, and the request decoder of the sessions, which [DecodeTyped] instantiates
    with the modelled registry. Laws of a parameter are named classes or hypotheses, and each
    has an instance used by a witness.

    ** What the theorems show

    - Reducers. A multicall is the sequence of its children; every wallet reached by
      submitted actions is well formed; deltas conserve balances; merging is sequencing when
      no gas is charged first; the approval maps refine a functional specification; debit
      accepts exactly what can be paid of a held token; swaps, borrows, liquidations and
      perpetual trades settle the stated amounts; collateral, debt and commitments round-trip;
      quotes are bounded.
    - Scam filter. The monotonic queue equals a direct scan, the interval sweep computes the
      observed share, and a rule is cleared only on complete observation.
    - Synchronisation. The dependency sort terminates and is correct, a refresh settles
      every field whose source answers and touches nothing else, and the reconciliations
      retire exactly what is expired, used or no longer listed.
    - Policies. The verdict of a request and of a transaction is characterised by the
      satisfied forbids; a plan is exactly the calls of the applicable manifests; missing
      facts fail closed.
    - Decoding. Packed payloads round-trip, router calls split into one sub-call per
      command, and the resolver takes the first source that decodes.
    - Sessions. A bundle passes exactly the stated checks; a store never rolls back, hands
      out genuine policies only and obeys the latest refresh attempt; bundles do not
      interfere and missing facts fail closed; a plan is judged at most once, what sessions
      retain is bounded, every run of sessions is a run of their stores, and a check allows
      exactly when nothing was left out.
    - Mappers. The meaning of a template is given by rules and computed by the substitution, a
      placeholder is a path into the decoded call, arguments survive the conversion to JSON, a
      multicall has one child per element or known opcode, and a top-level field the action
      would ignore is refused; names inside a field are not checked.
    - Routing. A stream is read command by command and hides none; a transaction is followed
      within 256 calls and depth five; each inner call is read as its own actions or as one
      Unknown call that stands for it, and the decoding status and
      the partial mark of a session say exactly whether something was left uninterpreted;
      manifests are bound to addresses; the check of declared types terminates and is exact;
      an accepted permit is built from the signed message.
    - Decoder snapshots. Every decoder a store holds is pinned or signed, its registry routes
      exactly what its manifests declare and none takes over a route of another, within the
      stated limits; the scan of templates terminates and is exact.
    - Errors. Theorems on behaviour the comments of the code deny: a vested allocation paid
      twice, a cancellation that misses its order, a Permit2 revocation without effect, an
      NFT transfer that never applies, call ids that collide, a merge that defers gas, a
      second margin that closing a perpetual loses, nested fields that are not checked.

    ** Not modelled

    The lowering of actions to Cedar contexts is one JSON-building function per action, with
    no state and no branching beyond the optional fields; the schema composer rewrites the
    text of Cedar schemas; the tokenizer of the strict JSON parser and the scam analysis of
    dambi-core are parameters of the components that call them. The
    WASM exports are JSON envelopes; the server, the database stores, the network clients
    and the scheduler are input and output around the modelled parts; formatting for
    display, the per-protocol ABI tables and the SQLite index are data or storage.
*)
From Stdlib Require Import ZArith Lia.
From stdpp Require Import base tactics numbers list strings gmap pretty.

#[global] Open Scope Z_scope.

(** ** Outcomes of fallible code

    A Rust function returning [Result<T, E>] becomes a function into
    [result E T]. [Panic] is a third outcome: the arithmetic the code leaves
    unchecked (a division by zero, an overflowing [rust_decimal] operation)
    aborts instead of returning an error. *)
Inductive result (E A : Type) : Type :=
| Ok (a : A)
| Err (e : E)
| Panic.
Arguments Ok {E A} a.
Arguments Err {E A} e.
Arguments Panic {E A}.

#[global] Instance result_ret {E} : MRet (result E) := fun A a => Ok a.
#[global] Instance result_bind {E} : MBind (result E) := fun A B f m =>
  match m with Ok a => f a | Err e => Err e | Panic => Panic end.

(** [ok_or e o] is [o.ok_or_else(|| e)]. *)
Definition ok_or {E A} (e : E) (o : option A) : result E A :=
  match o with Some a => Ok a | None => Err e end.

(** [ensure b e] is the early return [if !b { return Err(e) }]. *)
Definition ensure {E} (b : bool) (e : E) : result E () :=
  if b then Ok () else Err e.

(** [or_panic o] is an operation whose [None] is a Rust panic. *)
Definition or_panic {E A} (o : option A) : result E A :=
  match o with Some a => Ok a | None => Panic end.

Definition is_ok {E A} (r : result E A) : bool :=
  match r with Ok _ => true | _ => false end.

(** [foldM f l acc] runs [f] over [l], stopping at the first failure: the
    [for] loops whose body uses [?]. *)
Fixpoint foldM {E A B} (f : B -> A -> result E B) (l : list A) (acc : B)
    : result E B :=
  match l with
  | [] => Ok acc
  | x :: l' => acc' ← f acc x; foldM f l' acc'
  end.

(** ** Machine integers

    U256, I256, U128, u64, u32 and u8 are [Z] with their bounds written out.
    The bounds are literals so that [lia] and [vm_compute] see them. *)
Definition U256_MAX : Z := Eval vm_compute in 2 ^ 256 - 1.
Definition I256_MAX : Z := Eval vm_compute in 2 ^ 255 - 1.
Definition I256_MIN : Z := Eval vm_compute in - 2 ^ 255.
Definition U128_MAX : Z := Eval vm_compute in 2 ^ 128 - 1.
Definition U64_MAX : Z := Eval vm_compute in 2 ^ 64 - 1.

Definition u256 (z : Z) : Prop := 0 <= z <= U256_MAX.
Definition i256 (z : Z) : Prop := I256_MIN <= z <= I256_MAX.

(** [U256::checked_add], [checked_sub], [checked_mul], [checked_div]. *)
Definition checked_add (a b : Z) : option Z :=
  if a + b <=? U256_MAX then Some (a + b) else None.
Definition checked_sub (a b : Z) : option Z :=
  if b <=? a then Some (a - b) else None.
Definition checked_mul (a b : Z) : option Z :=
  if a * b <=? U256_MAX then Some (a * b) else None.
Definition checked_div (a b : Z) : option Z :=
  if b =? 0 then None else Some (a / b).

(** [U256::saturating_add], [saturating_sub], [saturating_mul]. *)
Definition saturating_add (a b : Z) : Z := Z.min (a + b) U256_MAX.
Definition saturating_sub (a b : Z) : Z := Z.max (a - b) 0.
Definition saturating_mul (a b : Z) : Z := Z.min (a * b) U256_MAX.

(** The same on [u64] ([Time], [Duration]). *)
Definition u64_saturating_add (a b : Z) : Z := Z.min (a + b) U64_MAX.
Definition u64_saturating_sub (a b : Z) : Z := Z.max (a - b) 0.

(** [I256::saturating_add]: clamps at both ends. *)
Definition i256_saturating_add (a b : Z) : Z :=
  Z.max I256_MIN (Z.min (a + b) I256_MAX).

(** [I256::try_from(v).unwrap_or(I256::MAX)] and
    [U256::try_from(v).unwrap_or(U256::ZERO)]. *)
Definition u256_to_signed_saturating (v : Z) : Z :=
  if v <=? I256_MAX then v else I256_MAX.
Definition signed_to_u256_saturating (v : Z) : Z :=
  if v <? 0 then 0 else v.

(** Wrapping operators: alloy's [+] on U256 wraps. *)
Definition wrap256 (z : Z) : Z := z mod (U256_MAX + 1).

(** ** Vectors *)

(** Replace the first element satisfying [p] by the result of [f]:
    [iter_mut().find(p)] followed by an in-place fallible update. [None] when
    no element satisfies [p]. *)
Fixpoint update_first {E A} (p : A -> bool) (f : A -> result E A) (l : list A)
    : option (result E (list A)) :=
  match l with
  | [] => None
  | x :: l' =>
      if p x then Some (x' ← f x; Ok (x' :: l'))
      else match update_first p f l' with
           | None => None
           | Some r => Some (l'' ← r; Ok (x :: l''))
           end
  end.

(** [iter().find(p)] *)
Fixpoint find_first {A} (p : A -> bool) (l : list A) : option A :=
  match l with
  | [] => None
  | x :: l' => if p x then Some x else find_first p l'
  end.

(** [iter().position(p)] *)
Fixpoint position_first {A} (p : A -> bool) (l : list A) : option nat :=
  match l with
  | [] => None
  | x :: l' => if p x then Some 0%nat else S <$> position_first p l'
  end.

(** [Vec::retain(p)] *)
Fixpoint retain {A} (p : A -> bool) (l : list A) : list A :=
  match l with
  | [] => []
  | x :: l' => if p x then x :: retain p l' else retain p l'
  end.

(** ** Formatting *)

(** [{}] of an unsigned integer. *)
Definition fmt_dec (z : Z) : string := pretty z.

Definition hex_digit (d : Z) : string :=
  match d with
  | 0 => "0" | 1 => "1" | 2 => "2" | 3 => "3" | 4 => "4" | 5 => "5"
  | 6 => "6" | 7 => "7" | 8 => "8" | 9 => "9" | 10 => "a" | 11 => "b"
  | 12 => "c" | 13 => "d" | 14 => "e" | _ => "f"
  end%string.

(** The low [n] hexadecimal digits of [z], most significant first. *)
Fixpoint hex_digits (n : nat) (z : Z) : string :=
  match n with
  | O => EmptyString
  | S n' => (hex_digits n' (z / 16) +:+ hex_digit (z mod 16))%string
  end.

(** [{:#x}] of an [Address]: "0x" and forty lowercase digits. *)
Definition lowercase_hex (addr : Z) : string := ("0x" +:+ hex_digits 40 addr)%string.

(** ** Automation *)
Create HintDb dambi.

(** How the bounds relate; the proofs never unfold them. *)
Lemma int_bounds :
  U256_MAX = 2 * I256_MAX + 1 /\ I256_MIN = - I256_MAX - 1 /\
  U128_MAX < I256_MAX /\ U64_MAX < U128_MAX /\ 1000000000000000000 < U64_MAX.
Proof. by vm_compute. Qed.

(** Unfold the integer vocabulary and let [lia] finish, splitting the
    comparisons the saturating and checked operations are made of. *)
Ltac unfold_int :=
  unfold u256, i256, checked_add, checked_sub, checked_mul, checked_div,
    saturating_add, saturating_sub, saturating_mul, i256_saturating_add,
    u256_to_signed_saturating, signed_to_u256_saturating,
    u64_saturating_add, u64_saturating_sub in *.

Ltac split_cmp :=
  repeat match goal with
  | H : context [if (?a <=? ?b) then _ else _] |- _ => destruct (Z.leb_spec a b)
  | H : context [if (?a <? ?b) then _ else _] |- _ => destruct (Z.ltb_spec a b)
  | H : context [if (?a =? ?b) then _ else _] |- _ => destruct (Z.eqb_spec a b)
  | |- context [if (?a <=? ?b) then _ else _] => destruct (Z.leb_spec a b)
  | |- context [if (?a <? ?b) then _ else _] => destruct (Z.ltb_spec a b)
  | |- context [if (?a =? ?b) then _ else _] => destruct (Z.eqb_spec a b)
  end.

Ltac int_solve := pose proof int_bounds; unfold_int; split_cmp; try lia.

(** ** Lemmas on outcomes *)
Lemma bind_Ok_inv {E A B} (f : A -> result E B) (m : result E A) (b : B) :
  m ≫= f = Ok b -> exists a, m = Ok a /\ f a = Ok b.
Proof. destruct m; naive_solver. Qed.

Lemma bind_Ok {E A B} (f : A -> result E B) (m : result E A) (a : A) :
  m = Ok a -> m ≫= f = f a.
Proof. by intros ->. Qed.

Lemma bind_Err {E A B} (f : A -> result E B) (m : result E A) (e : E) :
  m = Err e -> m ≫= f = Err e.
Proof. by intros ->. Qed.

Lemma ok_or_Ok_inv {E A} (e : E) (o : option A) (a : A) :
  ok_or e o = Ok a -> o = Some a.
Proof. destruct o; naive_solver. Qed.

Lemma or_panic_Ok_inv {E A} (o : option A) (a : A) :
  or_panic (E := E) o = Ok a -> o = Some a.
Proof. destruct o; naive_solver. Qed.

Lemma ensure_Ok_inv {E} (b : bool) (e : E) (u : ()) :
  ensure b e = Ok u -> b = true.
Proof. destruct b; naive_solver. Qed.

(** Invert a successful computation into its steps. *)
Ltac inv_ok :=
  repeat match goal with
  | H : Ok _ = Ok _ |- _ => injection H as H; try subst
  | H : Ok _ = Err _ |- _ => discriminate H
  | H : Err _ = Ok _ |- _ => discriminate H
  | H : Panic = Ok _ |- _ => discriminate H
  | H : Err _ = Err _ |- _ => injection H as H; try subst
  | H : Panic = Err _ |- _ => discriminate H
  | H : (_ ≫= _) = Ok _ |- _ => apply bind_Ok_inv in H as (? & ? & ?)
  | H : ok_or _ _ = Ok _ |- _ => apply ok_or_Ok_inv in H
  | H : or_panic _ = Ok _ |- _ => apply or_panic_Ok_inv in H
  | H : ensure _ _ = Ok _ |- _ => apply ensure_Ok_inv in H
  end.

(** Rewrite the goal with the recorded results of the steps. *)
Ltac replay :=
  repeat match goal with
  | H : ?x = Some _ |- context [ ?x ] => rewrite H; simpl
  | H : ?x = None |- context [ ?x ] => rewrite H; simpl
  | H : ?x = Ok _ |- context [ ?x ] => rewrite H; simpl
  | H : ?x = true |- context [ ?x ] => rewrite H; simpl
  | H : ?x = false |- context [ ?x ] => rewrite H; simpl
  end.

(** Turn boolean comparisons in the context into propositions. *)
Ltac to_prop :=
  repeat match goal with
  | H : (_ <? _) = true |- _ => apply Z.ltb_lt in H
  | H : (_ <? _) = false |- _ => apply Z.ltb_ge in H
  | H : (_ <=? _) = true |- _ => apply Z.leb_le in H
  | H : (_ <=? _) = false |- _ => apply Z.leb_gt in H
  | H : (_ =? _) = true |- _ => apply Z.eqb_eq in H
  | H : (_ =? _) = false |- _ => apply Z.eqb_neq in H
  | H : bool_decide _ = true |- _ => apply bool_decide_eq_true in H
  | H : bool_decide _ = false |- _ => apply bool_decide_eq_false in H
  | H : negb _ = true |- _ => apply negb_true_iff in H
  | H : negb _ = false |- _ => apply negb_false_iff in H
  | H : (_ && _) = true |- _ => apply andb_true_iff in H as [? H]
  | H : (_ || _) = false |- _ => apply orb_false_iff in H as [? H]
  end.

(** Run a successful computation to its end, splitting every branch. *)
Ltac split_hyp :=
  match goal with
  | H : context [match ?x with _ => _ end] |- _ =>
      lazymatch type of H with _ = Ok _ => destruct x eqn:? end
  end.
Ltac run_ok := repeat (progress inv_ok || (split_hyp; simpl in *)); simpl in *.

(** Discharge a decidable hypothesis on a concrete input by evaluation. *)
Ltac decide_now := apply (bool_decide_unpack _); vm_compute; exact I.

Lemma bind_assoc {E A B C} (m : result E A) (f : A -> result E B)
    (g : B -> result E C) :
  (m ≫= f) ≫= g = m ≫= (fun a => f a ≫= g).
Proof. by destruct m. Qed.

Lemma bind_Ok_r {E A} (m : result E A) : m ≫= (fun a => Ok a) = m.
Proof. by destruct m. Qed.

Lemma foldM_app {E A B} (f : B -> A -> result E B) l1 l2 acc :
  foldM f (l1 ++ l2) acc = foldM f l1 acc ≫= foldM f l2.
Proof.
  revert acc; induction l1 as [|x l1 IH]; intros acc; simpl; [done|].
  destruct (f acc x); simpl; [apply IH|done..].
Qed.

(** An invariant kept by every step is kept by the loop. *)
Lemma foldM_inv {E A B} (P : B -> Prop) (Q : A -> Prop)
    (f : B -> A -> result E B) l acc acc' :
  (forall b x b', P b -> Q x -> f b x = Ok b' -> P b') ->
  Forall Q l -> P acc -> foldM f l acc = Ok acc' -> P acc'.
Proof.
  intros Hstep Hl; revert acc; induction Hl as [|x l Hx Hl IH]; simpl; intros acc HP Heq;
    inv_ok; eauto.
Qed.

(** ** Lemmas on integers *)
Lemma u256_to_signed_small v : v <= I256_MAX -> u256_to_signed_saturating v = v.
Proof. int_solve. Qed.

Lemma u256_to_signed_range v : 0 <= v -> 0 <= u256_to_signed_saturating v <= I256_MAX.
Proof. int_solve. Qed.

Lemma u256_of_signed v : 0 <= v <= I256_MAX -> u256 v.
Proof. int_solve. Qed.

Lemma signed_to_u256_nonneg v : 0 <= v -> signed_to_u256_saturating v = v.
Proof. int_solve. Qed.

Lemma i256_saturating_add_exact a b :
  I256_MIN <= a + b <= I256_MAX -> i256_saturating_add a b = a + b.
Proof. int_solve. Qed.

Lemma checked_add_Some a b c :
  checked_add a b = Some c <-> c = a + b /\ a + b <= U256_MAX.
Proof. unfold checked_add; case_match eqn:H; [apply Z.leb_le in H|apply Z.leb_gt in H];
  naive_solver lia. Qed.

Lemma checked_sub_Some a b c : checked_sub a b = Some c <-> c = a - b /\ b <= a.
Proof. unfold checked_sub; case_match eqn:H; [apply Z.leb_le in H|apply Z.leb_gt in H];
  naive_solver lia. Qed.

Lemma checked_mul_Some a b c :
  checked_mul a b = Some c <-> c = a * b /\ a * b <= U256_MAX.
Proof. unfold checked_mul; case_match eqn:H; [apply Z.leb_le in H|apply Z.leb_gt in H];
  naive_solver lia. Qed.

Lemma checked_div_Some a b c : checked_div a b = Some c <-> c = a / b /\ b <> 0.
Proof. unfold checked_div; case_match eqn:H; [apply Z.eqb_eq in H|apply Z.eqb_neq in H];
  naive_solver. Qed.

Lemma checked_mul_ok a b : a * b <= U256_MAX -> checked_mul a b = Some (a * b).
Proof. intros. by apply checked_mul_Some. Qed.
Lemma checked_add_ok a b : a + b <= U256_MAX -> checked_add a b = Some (a + b).
Proof. intros. by apply checked_add_Some. Qed.
Lemma checked_sub_ok a b : b <= a -> checked_sub a b = Some (a - b).
Proof. intros. by apply checked_sub_Some. Qed.

(** Replace the results of checked operations by their values. *)
Ltac checked_values :=
  repeat match goal with
  | H : checked_mul _ _ = Some _ |- _ => apply checked_mul_Some in H as [-> ?]
  | H : checked_add _ _ = Some _ |- _ => apply checked_add_Some in H as [-> ?]
  | H : checked_sub _ _ = Some _ |- _ => apply checked_sub_Some in H as [-> ?]
  end.

#[export] Hint Resolve u256_to_signed_small u256_to_signed_range
  signed_to_u256_nonneg : dambi.

(** ** Lemmas on vectors *)
Lemma find_first_Some {A} (p : A -> bool) l x :
  find_first p l = Some x -> x ∈ l /\ p x = true.
Proof.
  induction l as [|y l IH]; simpl; [done|].
  destruct (p y) eqn:Hy; intros; simplify_eq; [|naive_solver set_solver].
  split; [left|done].
Qed.

Lemma find_first_None {A} (p : A -> bool) l :
  find_first p l = None <-> Forall (fun x => p x = false) l.
Proof.
  induction l as [|y l IH]; simpl; [split; auto|].
  rewrite Forall_cons. destruct (p y); naive_solver.
Qed.

Lemma find_first_app {A} (p : A -> bool) l1 l2 :
  find_first p (l1 ++ l2) =
  match find_first p l1 with Some x => Some x | None => find_first p l2 end.
Proof. induction l1 as [|y l1 IH]; simpl; [done|]. by destruct (p y). Qed.

Lemma update_first_None {E A} (p : A -> bool) (f : A -> result E A) l :
  update_first p f l = None <-> find_first p l = None.
Proof.
  induction l as [|y l IH]; simpl; [done|].
  destruct (p y); [done|]. destruct (update_first p f l); naive_solver.
Qed.

Lemma update_first_Ok {E A} (p : A -> bool) (f : A -> result E A) l l' :
  update_first p f l = Some (Ok l') ->
  exists l1 x x' l2, l = l1 ++ x :: l2 /\ l' = l1 ++ x' :: l2 /\
    Forall (fun y => p y = false) l1 /\ p x = true /\ f x = Ok x' /\
    find_first p l = Some x.
Proof.
  revert l'; induction l as [|y l IH]; simpl; intros l' H; [done|].
  destruct (p y) eqn:Hy.
  - injection H as H. inv_ok. exists [], y. naive_solver.
  - destruct (update_first p f l) as [r|]; [|done]. injection H as H. inv_ok.
    destruct (IH _ eq_refl) as (l1 & z & z' & l2 & -> & -> & ? & ? & ? & ?).
    exists (y :: l1), z, z', l2. naive_solver.
Qed.

Lemma retain_elem_of {A} (p : A -> bool) l x :
  x ∈ retain p l <-> x ∈ l /\ p x = true.
Proof.
  induction l as [|y l IH]; simpl; [set_solver|].
  destruct (p y) eqn:Hy; rewrite ?elem_of_cons, IH.
  - split; [intros [->|[]]|intros [[->|] ?]]; auto.
  - split; [intros []|intros [[->|] ?]]; auto; congruence.
Qed.

Lemma retain_length {A} (p : A -> bool) l : (length (retain p l) <= length l)%nat.
Proof. induction l as [|y l IH]; simpl; [lia|]. destruct (p y); simpl; lia. Qed.

(** [retain] keeps the length exactly when it removes nothing. *)
Lemma retain_same_length {A} (p : A -> bool) l :
  length (retain p l) = length l <-> Forall (fun x => p x = true) l.
Proof.
  induction l as [|y l IH]; simpl; [split; auto|].
  rewrite Forall_cons. pose proof (retain_length p l).
  destruct (p y); simpl; [|split; [lia|naive_solver]].
  rewrite <- IH. split; [intros [=]|intros [_ ->]]; auto.
Qed.

Lemma retain_app {A} (p : A -> bool) l1 l2 : retain p (l1 ++ l2) = retain p l1 ++ retain p l2.
Proof. induction l1 as [|x l1 IH]; simpl; [done|]. rewrite IH. by destruct (p x). Qed.

Lemma retain_all {A} (p : A -> bool) l : Forall (fun x => p x = true) l -> retain p l = l.
Proof. induction 1 as [|x l Hx _ IH]; simpl; [done|]. by rewrite Hx, IH. Qed.

(** ** Commuting loops

    [steps_commute f g]: an [f] step followed by a [g] step can be run in the
    other order with the same result. Successful loops of such steps can then
    be exchanged as a whole. *)
Definition steps_commute {E S A B} (f : S -> A -> result E S) (g : S -> B -> result E S) : Prop :=
  forall s x y s1 s2, f s x = Ok s1 -> g s1 y = Ok s2 ->
    exists s1', g s y = Ok s1' /\ f s1' x = Ok s2.

Lemma foldM_commute_step {E S A B} (f : S -> A -> result E S) (g : S -> B -> result E S)
    x ly s s1 s2 :
  steps_commute f g -> f s x = Ok s1 -> foldM g ly s1 = Ok s2 ->
  exists s1', foldM g ly s = Ok s1' /\ f s1' x = Ok s2.
Proof.
  intros Hc. revert s s1; induction ly as [|y ly IH]; simpl; intros s s1 Hf Hg.
  - inv_ok. eauto.
  - inv_ok. edestruct Hc as (s' & Hg' & Hf'); [eauto..|]. rewrite Hg'. simpl. eauto.
Qed.

Lemma foldM_commute {E S A B} (f : S -> A -> result E S) (g : S -> B -> result E S)
    lx ly s s1 s2 :
  steps_commute f g -> foldM f lx s = Ok s1 -> foldM g ly s1 = Ok s2 ->
  exists s1', foldM g ly s = Ok s1' /\ foldM f lx s1' = Ok s2.
Proof.
  intros Hc. revert s; induction lx as [|x lx IH]; simpl; intros s Hf Hg.
  - inv_ok. eauto.
  - inv_ok. edestruct IH as (s' & Hg' & Hf'); [eauto..|].
    edestruct (foldM_commute_step f g) as (s'' & Hg'' & Hf''); [eauto..|].
    rewrite Hg''. eexists; split; [done|]. by rewrite Hf''.
Qed.

(** ** Injectivity of the identifiers built from strings *)
Lemma string_length_app s1 s2 :
  String.length (s1 +:+ s2)%string = (String.length s1 + String.length s2)%nat.
Proof. induction s1 as [|c s1 IH]; simpl; [done|]. by rewrite IH. Qed.

(** Prefixes of equal length can be compared and dropped. *)
Lemma string_app_inj a b x y :
  String.length a = String.length b -> (a +:+ x = b +:+ y)%string -> a = b /\ x = y.
Proof.
  revert b; induction a as [|c a IH]; intros [|c' b]; simpl; intros [=] [=]; [done|].
  destruct (IH b) as [-> ->]; [done..|]. by subst.
Qed.

Lemma hex_digit_length d : String.length (hex_digit d) = 1%nat.
Proof. unfold hex_digit. repeat case_match; done. Qed.

Lemma hex_digit_inj d e : 0 <= d < 16 -> 0 <= e < 16 -> hex_digit d = hex_digit e -> d = e.
Proof.
  intros Hd He Heq.
  assert (forallb (fun d => forallb (fun e => implb (String.eqb (hex_digit d) (hex_digit e)) (d =? e))
    (seqZ 0 16)) (seqZ 0 16) = true) as Hall by (vm_compute; reflexivity).
  rewrite forallb_forall in Hall. specialize (Hall d). rewrite forallb_forall in Hall.
  specialize (Hall ltac:(apply list_elem_of_In, elem_of_seqZ; lia) e
    ltac:(apply list_elem_of_In, elem_of_seqZ; lia)).
  rewrite Heq, String.eqb_refl in Hall. by apply Z.eqb_eq.
Qed.

Lemma hex_digits_length n z : String.length (hex_digits n z) = n.
Proof.
  revert z; induction n as [|n IH]; intros z; simpl; [done|].
  rewrite string_length_app, IH, hex_digit_length. lia.
Qed.

Lemma hex_digits_inj n x y :
  0 <= x < 16 ^ Z.of_nat n -> 0 <= y < 16 ^ Z.of_nat n -> hex_digits n x = hex_digits n y -> x = y.
Proof.
  revert x y; induction n as [|n IH]; intros x y Hx Hy; simpl.
  - simpl in *. lia.
  - rewrite Nat2Z.inj_succ, Z.pow_succ_r in Hx, Hy by lia. intros Heq.
    apply string_app_inj in Heq as [H1 H2]; [|by rewrite !hex_digits_length].
    apply hex_digit_inj in H2; [|apply Z.mod_pos_bound; lia..].
    apply IH in H1; [|split; [apply Z.div_pos; lia|apply Z.div_lt_upper_bound; lia]..].
    rewrite (Z.div_mod x 16), (Z.div_mod y 16) by lia. lia.
Qed.

Definition addr160 (a : Z) : Prop := 0 <= a < 2 ^ 160.

Lemma lowercase_hex_inj a b : addr160 a -> addr160 b -> lowercase_hex a = lowercase_hex b -> a = b.
Proof.
  unfold addr160. replace (2 ^ 160) with (16 ^ Z.of_nat 40) by (vm_compute; reflexivity).
  intros Ha Hb Heq. apply (string_app_inj "0x" "0x") in Heq as [_ Heq]; [|reflexivity].
  by apply hex_digits_inj in Heq.
Qed.

Lemma lowercase_hex_length a : String.length (lowercase_hex a) = 42%nat.
Proof. unfold lowercase_hex. rewrite string_length_app, hex_digits_length. done. Qed.
