(* ===== verification/Types.v ===== *)
(** * The data model of the wallet snapshot

    crates/asset-model/state/src: primitives, live fields, tokens, approvals,
    positions, pending entries, deltas and the wallet itself, one Rocq type per
    Rust type. Conventions: a field [f] of a struct is the projection
    [<prefix>_f] (the prefix is the struct's initials), an enum's constructors
    keep their Rust names unless another enum of the crate uses the same name,
    in which case they carry a prefix too. [ChainId], [Decimal], [PendingId],
    [PositionId] and [B256] are newtypes or aliases of strings; [Address] is a
    160-bit [Z], [Time] and [Duration] are 64-bit [Z] seconds, [U256], [I256],
    [U128], [u32] and [u8] are [Z]. [BTreeMap] is [gmap], [BTreeSet] is [gset];
    a [Vec] is a [list]. *)
From stdpp Require Import base tactics numbers list strings gmap.
From S2P Require Import Prelude.

(** ** Primitives (primitives/*.rs) *)
Notation ChainId := string (only parsing).
Notation Address := Z (only parsing).
Notation Spender := Z (only parsing).
Notation Time := Z (only parsing).
Notation Duration := Z (only parsing).
Notation DecimalStr := string (only parsing).
Notation Price := string (only parsing).
Notation U256 := Z (only parsing).
Notation SignedI256 := Z (only parsing).

(** [Time::saturating_add], [Time::saturating_sub], [Time::since]. *)
Definition time_saturating_add (t : Time) (d : Duration) : Time := u64_saturating_add t d.
Definition time_saturating_sub (t : Time) (d : Duration) : Time := u64_saturating_sub t d.
Definition time_since (t earlier : Time) : Duration := u64_saturating_sub t earlier.

Record BlockHeight := mkBlockHeight { bh_number : Z; bh_time : Z }.

Record ProtocolRef := mkProtocolRef {
  pr_name : string;
  pr_version : option string;
  pr_chain : option ChainId;
  pr_market : option string;
}.
Definition ProtocolRef_new (name : string) : ProtocolRef :=
  mkProtocolRef name None None None.
Definition ProtocolRef_with_version (p : ProtocolRef) (v : string) : ProtocolRef :=
  mkProtocolRef (pr_name p) (Some v) (pr_chain p) (pr_market p).
Definition ProtocolRef_with_chain (p : ProtocolRef) (c : ChainId) : ProtocolRef :=
  mkProtocolRef (pr_name p) (pr_version p) (Some c) (pr_market p).

Record PoolRef := mkPoolRef {
  pl_protocol : ProtocolRef;
  pl_pool_addr : option Address;
  pl_pool_id : option string;
  pl_fee_tier : option Z;
}.

Record VenueRef := mkVenueRef { vr_name : string; vr_chain : option ChainId }.
Definition VenueRef_new (name : string) : VenueRef := mkVenueRef name None.

Record MarketRef := mkMarketRef { mr_symbol : string; mr_venue : VenueRef }.

(** [serde_json::Value]. The numbers of the crate's own values are integers;
    decimals and 256-bit integers travel as strings. An object is an
    association list. *)
Inductive JSON : Type :=
| JNull
| JBool (b : bool)
| JNumber (n : Z)
| JString (s : string)
| JArray (l : list JSON)
| JObject (fields : list (string * JSON)).

(** ** Live fields (live_field/*.rs) *)
Inductive OracleProvider := Pyth | Chainlink | RedStone | OracleOther (name : string).

Inductive AuthSpec :=
| AuthNone
| Bearer (token_env : string)
| HmacSig (key_env : string)
| AuthCustom (scheme : string).

Inductive RegistryResource :=
| TokenMeta (chain : ChainId) (address : Address)
| ProtocolMap (chain : ChainId) (address : Address)
| PoolMeta (chain : ChainId) (pool_addr : Address)
| DecoderRegistry.

Inductive TokenFieldName := PriceUsd.

Inductive PositionFieldName :=
| HealthFactor | Ltv | LiquidationThreshold | MarkPrice | LiqPrice
| UnrealizedPnl | FundingOwed | Leverage.

Inductive PendingFieldName := FieldStatus | FillRatio.

Inductive FieldRef :=
| TokenField (token_key_json : string) (field : TokenFieldName)
| PositionField (position_id : string) (field : PositionFieldName)
| PendingField (pending_id : string) (field : PendingFieldName)
| Global (name : string).

Inductive DataSource :=
| OnchainView (chain : ChainId) (contract : Address) (function decoder_id : string)
| OracleFeed (provider : OracleProvider) (feed_id : string)
| VenueApi (endpoint parser_id : string) (auth : option AuthSpec)
| DerivedFrom (inputs : list FieldRef) (calc_id : string)
| RegistryApi (endpoint : string) (resource : RegistryResource) (version : option string)
| UserSupplied.

Record Confidence := mkConfidence { cf_deviation_bp : Z; cf_is_stale : bool }.

Record LiveField (T : Type) := mkLiveField {
  lf_value : T;
  lf_source : DataSource;
  lf_synced_at : Time;
  lf_ttl : option Duration;
  lf_confidence : option Confidence;
}.
Arguments mkLiveField {T}.
Arguments lf_value {T}.
Arguments lf_source {T}.
Arguments lf_synced_at {T}.
Arguments lf_ttl {T}.
Arguments lf_confidence {T}.

Definition LiveField_new {T} (value : T) (source : DataSource) (synced_at : Time) : LiveField T :=
  mkLiveField value source synced_at None None.

(** Overwrite the value in place, keeping provenance and freshness. *)
Definition lf_set_value {T} (f : LiveField T) (v : T) : LiveField T :=
  mkLiveField v (lf_source f) (lf_synced_at f) (lf_ttl f) (lf_confidence f).

(** [LiveField::fresh_within] *)
Definition lf_fresh_within {T} (f : LiveField T) (now : Time) (window : Duration) : bool :=
  time_since now (lf_synced_at f) <=? window.

(** [LiveField::is_stale] *)
Definition lf_is_stale {T} (f : LiveField T) (now : Time) : bool :=
  match lf_ttl f with
  | Some ttl => ttl <? time_since now (lf_synced_at f)
  | None => match lf_confidence f with Some c => cf_is_stale c | None => false end
  end.

(** ** Tokens (token/*.rs) *)
Inductive TokenKey :=
| Native (chain : ChainId)
| Erc20 (chain : ChainId) (address : Address)
| Erc721 (chain : ChainId) (contract : Address) (token_id : U256)
| Erc1155 (chain : ChainId) (contract : Address) (token_id : U256).

#[global] Instance TokenKey_eq_dec : EqDecision TokenKey.
Proof. solve_decision. Defined.

#[global] Instance TokenKey_countable : Countable TokenKey.
Proof.
  refine (inj_countable'
    (fun k => match k with
     | Native c => inl c
     | Erc20 c a => inr (inl (c, a))
     | Erc721 c a i => inr (inr (inl (c, a, i)))
     | Erc1155 c a i => inr (inr (inr (c, a, i)))
     end)
    (fun s => match s with
     | inl c => Native c
     | inr (inl (c, a)) => Erc20 c a
     | inr (inr (inl (c, a, i))) => Erc721 c a i
     | inr (inr (inr (c, a, i))) => Erc1155 c a i
     end) _); by intros [].
Defined.

(** [TokenKey::chain], [contract], [token_id], [is_native], [is_nft]. *)
Definition key_chain (k : TokenKey) : ChainId :=
  match k with Native c | Erc20 c _ | Erc721 c _ _ | Erc1155 c _ _ => c end.
Definition key_contract (k : TokenKey) : option Address :=
  match k with
  | Native _ => None
  | Erc20 _ a => Some a
  | Erc721 _ a _ | Erc1155 _ a _ => Some a
  end.
Definition key_token_id (k : TokenKey) : option U256 :=
  match k with Erc721 _ _ i | Erc1155 _ _ i => Some i | _ => None end.
Definition key_is_native (k : TokenKey) : bool :=
  match k with Native _ => true | _ => false end.
Definition key_is_nft (k : TokenKey) : bool :=
  match k with Erc721 _ _ _ => true | _ => false end.
Definition key_is_erc20 (k : TokenKey) : bool :=
  match k with Erc20 _ _ => true | _ => false end.

Record TokenRef := mkTokenRef { tr_key : TokenKey }.
#[global] Instance TokenRef_eq_dec : EqDecision TokenRef.
Proof. solve_decision. Defined.

(** token/lp.rs *)
Inductive ShareForm := ShareFungible | ShareNonFungible.

Inductive RangeSpec :=
| Tick (lower upper : Z) (liquidity : Z)
| Bin (active_id : Z) (distribution : list (Z * Z))
| RangeCustom (protocol : string) (raw : JSON).

Inductive LpShape :=
| Pooled (weights : option (list Z))
| Concentrated (range : RangeSpec) (fees_owed : list (TokenRef * U256))
| LpCustom (protocol : string) (raw : JSON).

(** token/kind.rs *)
Inductive FiatCurrency := Usd | Eur | Krw | Jpy | Gbp.
Inductive PegTarget := PegFiat (c : FiatCurrency) | PegToken (t : TokenRef).
Inductive BaseCategory := Stable | Volatile | NativeWrap | Governance (protocol : ProtocolRef).
Inductive PegKind := HardPeg | SoftPeg | PegRebasing | ExchangeRate.
Inductive RebaseForm := Rebasing | Index.
Inductive RateMode := RateVariable | RateStable | RateFixed.
#[global] Instance RateMode_eq_dec : EqDecision RateMode.
Proof. solve_decision. Defined.
Inductive UnlockSchedule :=
| Cliff (unlock_at : Time)
| UnlockLinear (start end_ : Time)
| Cooldown (cooldown_secs : Z).
Inductive NoteKind := Principal | NoteYield.

Inductive TokenKind :=
| Base (category : BaseCategory) (peg_to : option PegTarget)
| NativeGas
| Wrapped (underlying : TokenRef) (peg_kind : PegKind)
| LpShare (pool : PoolRef) (underlyings : list TokenRef) (share_form : ShareForm) (shape : LpShape)
| YieldReceipt (protocol : ProtocolRef) (underlying : TokenRef) (rebase_form : RebaseForm)
| DebtReceipt (protocol : ProtocolRef) (underlying : TokenRef) (rate_mode : RateMode)
| StakeReceipt (protocol : ProtocolRef) (underlying : TokenRef)
    (unlock : option UnlockSchedule) (voting_power : option U256)
| PointsToken (source : ProtocolRef)
| MaturityNote (protocol : ProtocolRef) (underlying : TokenRef) (maturity : Time) (note_kind : NoteKind)
| UnknownKind.

(** token/holding.rs *)
Inductive Balance := Fungible (amount : U256) | Owned.

Definition zero_fungible : Balance := Fungible 0.
Definition as_fungible (b : Balance) : option U256 :=
  match b with Fungible a => Some a | Owned => None end.
Definition balance_is_zero (b : Balance) : bool :=
  match b with Fungible a => a =? 0 | Owned => false end.

Record TokenMetadata := mkTokenMetadata {
  tm_logo_url : option string;
  tm_website_url : option string;
  tm_description : option string;
  tm_coingecko_id : option string;
}.

Record TokenHolding := mkTokenHolding {
  th_key : TokenKey;
  th_kind : TokenKind;
  th_symbol : string;
  th_decimals : Z;
  th_balance : Balance;
  th_committed : Balance;
  th_approved_to : option Address;
  th_price_usd : option (LiveField Price);
  th_metadata : option TokenMetadata;
  th_value_usd : option Price;
  th_last_synced_at : Time;
  th_primitives_source : DataSource;
}.

(** [holding.balance = b] and [holding.approved_to = o]. *)
Definition th_set_balance (h : TokenHolding) (b : Balance) : TokenHolding :=
  mkTokenHolding (th_key h) (th_kind h) (th_symbol h) (th_decimals h) b
    (th_committed h) (th_approved_to h) (th_price_usd h) (th_metadata h)
    (th_value_usd h) (th_last_synced_at h) (th_primitives_source h).
Definition th_set_approved_to (h : TokenHolding) (o : option Address) : TokenHolding :=
  mkTokenHolding (th_key h) (th_kind h) (th_symbol h) (th_decimals h) (th_balance h)
    (th_committed h) o (th_price_usd h) (th_metadata h)
    (th_value_usd h) (th_last_synced_at h) (th_primitives_source h).

(** [TokenHolding::available]: balance minus committed, saturating. *)
Definition th_available (h : TokenHolding) : option U256 :=
  match th_balance h, th_committed h with
  | Fungible bal, Fungible cmt => Some (saturating_sub bal cmt)
  | _, _ => None
  end.

(** ** Approvals (approval/*.rs) *)
Record AllowanceSpec := mkAllowanceSpec {
  al_amount : U256;
  al_is_unlimited : bool;
  al_last_set_at : Time;
}.
#[global] Instance AllowanceSpec_eq_dec : EqDecision AllowanceSpec.
Proof. solve_decision. Defined.
Definition AllowanceSpec_new (amount : U256) (last_set_at : Time) : AllowanceSpec :=
  mkAllowanceSpec amount (amount =? U256_MAX) last_set_at.
Definition AllowanceSpec_unlimited (last_set_at : Time) : AllowanceSpec :=
  mkAllowanceSpec U256_MAX true last_set_at.

Record Permit2Allowance := mkPermit2Allowance {
  p2_amount : U256;
  p2_expiration : Time;
  p2_nonce : Z;
}.

Notation ContractAddrKey := (string * Z)%type (only parsing).
Notation SpenderKey := (string * Z * Z)%type (only parsing).

Record ApprovalSet := mkApprovalSet {
  ap_erc20 : gmap ContractAddrKey (gmap Spender AllowanceSpec);
  ap_set_for_all : gmap ContractAddrKey (gset Spender);
  ap_permit2 : gmap SpenderKey Permit2Allowance;
}.
Definition ApprovalSet_new : ApprovalSet := mkApprovalSet ∅ ∅ ∅.

(** [ApprovalSet::allowance], [has_set_for_all], [permit2_of]. *)
Definition allowance (a : ApprovalSet) (key : ContractAddrKey) (spender : Spender)
    : option AllowanceSpec :=
  m ← ap_erc20 a !! key; m !! spender.
Definition has_set_for_all (a : ApprovalSet) (key : ContractAddrKey) (spender : Spender) : bool :=
  match ap_set_for_all a !! key with
  | Some s => bool_decide (spender ∈ s)
  | None => false
  end.
Definition permit2_of (a : ApprovalSet) (key : SpenderKey) : option Permit2Allowance :=
  ap_permit2 a !! key.
