(* ===== verification/Positions.v ===== *)
(** * Positions

    crates/asset-model/state/src/position: the rights a wallet holds that are
    not tokens. *)
From stdpp Require Import base tactics numbers list strings gmap.
From S2P Require Import Prelude Types.

Notation PositionId := string (only parsing).
Notation EModeCategory := Z (only parsing).

(** position/airdrop.rs *)
Record MerkleProof := mkMerkleProof { mp_leaf_index : Z; mp_siblings : list string }.
Inductive ClaimStatus := Eligible | Claimable | Claimed | ClaimExpired.
Record AirdropClaim := mkAirdropClaim {
  ac_source : ProtocolRef;
  ac_claimable : TokenRef;
  ac_amount : U256;
  ac_proof : option MerkleProof;
  ac_claim_window : option (Time * Time);
  ac_status : ClaimStatus;
}.

(** position/vesting.rs *)
Inductive VestCurve :=
| CurveLinear
| Stepped (points : list (Time * U256))
| CurveCustom (description : string).
Record VestSchedule := mkVestSchedule {
  vs_start : Time;
  vs_cliff : option Time;
  vs_end : option Time;
  vs_curve : VestCurve;
  vs_total : U256;
}.
Record VestingSchedule := mkVestingSchedule {
  vg_granter : ProtocolRef;
  vg_token : TokenRef;
  vg_schedule : VestSchedule;
  vg_claimed : U256;
  vg_claimable_now : U256;
}.

(** position/launchpad.rs *)
Record LaunchpadAllocation := mkLaunchpadAllocation {
  la_platform : ProtocolRef;
  la_sale_id : string;
  la_paid : list (TokenRef * U256);
  la_allocated : TokenRef * U256;
  la_vest : VestSchedule;
  la_claimed : U256;
  la_claimable_now : U256;
}.

(** position/lending.rs *)
Record LendingAccount := mkLendingAccount {
  ln_market : MarketRef;
  ln_collaterals : list (TokenRef * U256);
  ln_debts : list (TokenRef * U256 * RateMode);
  ln_emode : option EModeCategory;
  ln_is_isolated : bool;
  ln_health_factor : LiveField DecimalStr;
  ln_ltv : LiveField DecimalStr;
  ln_liquidation_threshold : LiveField DecimalStr;
}.

(** position/perp.rs *)
Inductive PerpSide := Long | Short.
#[global] Instance PerpSide_eq_dec : EqDecision PerpSide.
Proof. solve_decision. Defined.
Inductive MarginMode := Isolated | Cross.
#[global] Instance MarginMode_eq_dec : EqDecision MarginMode.
Proof. solve_decision. Defined.
Record PerpPosition := mkPerpPosition {
  pp_venue : VenueRef;
  pp_market : MarketRef;
  pp_side : PerpSide;
  pp_size_base : U256;
  pp_notional_usd : U256;
  pp_collateral : list (TokenRef * U256);
  pp_entry_price : Price;
  pp_margin_mode : MarginMode;
  pp_mark_price : LiveField Price;
  pp_liq_price : LiveField (option Price);
  pp_unrealized_pnl : LiveField SignedI256;
  pp_funding_owed : LiveField SignedI256;
  pp_leverage : LiveField DecimalStr;
}.

(** position/hyperliquid.rs *)
Record HlFillSummary := mkHlFillSummary {
  hf_tid : Z;
  hf_time : Z;
  hf_coin : string;
  hf_closed_pnl : DecimalStr;
  hf_px : DecimalStr;
  hf_sz : DecimalStr;
}.
Record EquityAnchor := mkEquityAnchor {
  ea_value : DecimalStr;
  ea_anchored_at : Time;
  ea_trusted : bool;
}.
Record HlPosition := mkHlPosition {
  hp_asset_index : Z;
  hp_symbol : option string;
  hp_is_long : bool;
  hp_size : DecimalStr;
  hp_entry_price : DecimalStr;
}.
Record HlOpenOrder := mkHlOpenOrder {
  ho_asset_index : Z;
  ho_symbol : option string;
  ho_is_buy : bool;
  ho_price : DecimalStr;
  ho_size : DecimalStr;
  ho_reduce_only : bool;
  ho_tif : string;
  ho_oid : option Z;
  ho_order_type : option string;
  ho_is_trigger : option bool;
  ho_trigger_price : option DecimalStr;
  ho_trigger_condition : option string;
  ho_is_position_tpsl : option bool;
}.
Record HlSpotBalance := mkHlSpotBalance {
  hs_coin : string;
  hs_token : Z;
  hs_total : DecimalStr;
  hs_hold : DecimalStr;
  hs_entry_ntl : DecimalStr;
  hs_available_after_maintenance : option DecimalStr;
}.
Record HlStakingDelegation := mkHlStakingDelegation {
  hd_validator : Address;
  hd_amount : DecimalStr;
  hd_locked_until_timestamp : option Z;
}.
Record HlStakingAccount := mkHlStakingAccount {
  hk_delegated : DecimalStr;
  hk_undelegated : DecimalStr;
  hk_total_pending_withdrawal : DecimalStr;
  hk_n_pending_withdrawals : Z;
  hk_delegations : list HlStakingDelegation;
}.
Record HlVaultEquity := mkHlVaultEquity {
  hv_vault_address : Address;
  hv_equity : DecimalStr;
  hv_locked_until_timestamp : option Z;
}.
Record HlBorrowLendBalance := mkHlBorrowLendBalance {
  hb_basis : DecimalStr;
  hb_value : DecimalStr;
}.
Record HlBorrowLendTokenState := mkHlBorrowLendTokenState {
  ht_token : Z;
  ht_borrow : HlBorrowLendBalance;
  ht_supply : HlBorrowLendBalance;
}.
Record HlBorrowLendAccount := mkHlBorrowLendAccount {
  hbl_token_states : list HlBorrowLendTokenState;
  hbl_health : option string;
  hbl_health_factor : option DecimalStr;
}.
Record HlLeverageSetting := mkHlLeverageSetting {
  hl_asset_index : Z;
  hl_is_cross : bool;
  hl_leverage : Z;
}.
Record HlAgentApproval := mkHlAgentApproval {
  hg_agent_address : Address;
  hg_agent_name : option string;
}.
Record HlAccount := mkHlAccount {
  hla_perp_usdc : option DecimalStr;
  hla_perp_account_value_usd : option DecimalStr;
  hla_pending_outflow : DecimalStr;
  hla_positions : list HlPosition;
  hla_open_orders : list HlOpenOrder;
  hla_spot_balances : list HlSpotBalance;
  hla_staking : option HlStakingAccount;
  hla_vault_equities : list HlVaultEquity;
  hla_borrow_lend : option HlBorrowLendAccount;
  hla_leverage_settings : list HlLeverageSetting;
  hla_agents : list HlAgentApproval;
  hla_equity_baseline : option EquityAnchor;
  hla_equity_hwm : option DecimalStr;
  hla_fill_window : list HlFillSummary;
  hla_cumulative_net_flow : DecimalStr;
  hla_ledger_cursor_ms : Z;
}.
(** [HlAccount::default] *)
Definition HlAccount_default : HlAccount :=
  mkHlAccount None None "0" [] [] [] None [] None [] [] None None [] "0" 0.

(** position/mod.rs *)
Inductive PositionKind :=
| PkLendingAccount (a : LendingAccount)
| PkPerpPosition (p : PerpPosition)
| PkAirdropClaim (c : AirdropClaim)
| PkLaunchpadAllocation (a : LaunchpadAllocation)
| PkVestingSchedule (v : VestingSchedule)
| PkHyperliquidAccount (a : HlAccount).

Record Position := mkPosition {
  po_id : PositionId;
  po_protocol : ProtocolRef;
  po_chain : option ChainId;
  po_kind : PositionKind;
  po_primitives_synced_at : Time;
  po_primitives_source : DataSource;
}.

(** [p.kind = k] *)
Definition po_set_kind (p : Position) (k : PositionKind) : Position :=
  mkPosition (po_id p) (po_protocol p) (po_chain p) k
    (po_primitives_synced_at p) (po_primitives_source p).

Definition po_has_id (id : PositionId) (p : Position) : bool :=
  bool_decide (po_id p = id).
