(* ===== verification/Wallet.v ===== *)
(** * Pending entries, deltas and the wallet

    crates/asset-model/state/src/{pending,delta}, eval_context.rs, wallet.rs,
    and the reducer error of crates/asset-model/transition/src/error.rs. A
    [PendingTx] carries the [StateDelta] of its fill, and a [StateDelta] may add
    [PendingTx]s, so the two types are tied through parametrised records. *)
From stdpp Require Import base tactics numbers list strings gmap.
From S2P Require Import Prelude Types Positions.

(** ** Errors (transition/src/error.rs)

    A formatted message is kept as its format template: "pending id {id} not
    found for remove"; the interpolated values are dropped. *)
Inductive ReducerError :=
| UnknownAction (msg : string)
| MissingField (name : string)
| TokenNotFound (key : TokenKey)
| PositionNotFound (id : string)
| Invariant (msg : string)
| UnsupportedProtocol (action protocol : string).

Notation ReducerResult := (result ReducerError) (only parsing).

(** [o.ok_or_else(|| ReducerError::Invariant(msg))]. *)
Notation inv msg o := (ok_or (Invariant msg) o) (only parsing).

(** ** Pending entries (pending/*.rs) *)
Notation PendingId := string (only parsing).
Notation B256 := string (only parsing).

Inductive NonceKey :=
| NoncePermit2 (word : U256) (bit : Z)
| NonceEip2612 (token : Address) (nonce : U256)
| OrderHash (hash : B256).

Inductive OrderKind := Dutch | OrderLimit | Rfq.
Inductive PerpOrderKind := PerpLimit | StopMarket | StopLimit | TakeProfit.

Inductive PendingKind :=
| OffchainLimitOrder (venue : VenueRef) (sell buy : TokenRef) (sell_max buy_min : U256)
    (order_kind : OrderKind)
| PerpVenueOrder (venue : VenueRef) (market : MarketRef) (side : PerpSide) (size_base : U256)
    (price : Price) (order_kind : PerpOrderKind) (reduce_only : bool)
| SignedPermit2 (token : TokenRef) (spender : Address) (amount : U256) (expires_at : Time)
    (nonce : U256 * Z)
| SignedPermit2Transfer (token : TokenRef) (owner spender : Address) (amount : U256)
    (expires_at : Time) (nonce : U256 * Z) (witness_type : option string)
| SignedEIP2612 (token : TokenRef) (spender : Address) (amount : U256) (expires_at : Time)
    (nonce : U256).

Inductive AssetCommitment :=
| SpendCap (token : TokenRef) (max_out : U256)
| HardLock (token : TokenRef) (locked : U256)
| PermitCap (token : TokenRef) (spender : Address) (max_out : U256)
| NoCommitment.

(** [AssetCommitment::cap_for] *)
Definition cap_for (c : AssetCommitment) (key : TokenKey) : U256 :=
  match c with
  | SpendCap token max_out => if bool_decide (tr_key token = key) then max_out else 0
  | PermitCap token _ max_out => if bool_decide (tr_key token = key) then max_out else 0
  | _ => 0
  end.

Inductive PendingStatus :=
| Active | PartiallyFilled | Filled | Cancelled | Expired | Failed | StatusUnknown.

Record PendingLifecycle := mkPendingLifecycle {
  lc_status : PendingStatus;
  lc_valid_until : option Time;
  lc_nonce : option NonceKey;
  lc_on_chain_tx : option B256;
  lc_raw_status : option string;
}.

(** [PendingLifecycle { status, ..lifecycle }] *)
Definition lc_set_status (l : PendingLifecycle) (s : PendingStatus) : PendingLifecycle :=
  mkPendingLifecycle s (lc_valid_until l) (lc_nonce l) (lc_on_chain_tx l) (lc_raw_status l).

(** [PendingLifecycle::is_active_or_partial] *)
Definition is_active_or_partial (l : PendingLifecycle) : bool :=
  match lc_status l with Active | PartiallyFilled => true | _ => false end.

(** [PendingTx], over the type of its boxed [fill_effect]. *)
Record PendingTxOf (Delta : Type) := mkPendingTx {
  pt_id : PendingId;
  pt_kind : PendingKind;
  pt_commitment : AssetCommitment;
  pt_fill_effect : Delta;
  pt_lifecycle : PendingLifecycle;
  pt_sync : DataSource;
  pt_signed_at : Time;
  pt_signature_payload : list Z;
}.
Arguments mkPendingTx {Delta}.
Arguments pt_id {Delta}.
Arguments pt_kind {Delta}.
Arguments pt_commitment {Delta}.
Arguments pt_fill_effect {Delta}.
Arguments pt_lifecycle {Delta}.
Arguments pt_sync {Delta}.
Arguments pt_signed_at {Delta}.
Arguments pt_signature_payload {Delta}.

(** ** Deltas (delta/*.rs) *)
Inductive ApprovalScope := ScopeErc20 | ScopeSetForAll | ScopePermit2 | ScopeErc721Token.

Inductive TokenChange :=
| BalanceDelta (key : TokenKey) (delta : SignedI256)
| TcApprovalSet (key : TokenKey) (spender : Spender) (allowance : AllowanceSpec)
| ApprovalRevoke (key : TokenKey) (spender : Spender) (scope : ApprovalScope)
| Erc721ApprovedTo (key : TokenKey) (spender : option Address)
| Mint (key : TokenKey) (kind_hint : TokenKind).

Record PositionPatch := mkPositionPatch { patch_fields : JSON }.

Inductive PositionChange :=
| Open (position : Position)
| Update (id : PositionId) (patch : PositionPatch)
| Close (id : PositionId).

Inductive PendingRemoveReason :=
| ReasonFilled | ReasonCancelled | ReasonExpired | ReasonReplaced | SuperSeded.

Inductive PendingChangeOf (Pending : Type) :=
| PendingAdd (pending : Pending)
| PendingUpdate (id : PendingId) (status : PendingStatus) (partial_fill : option DecimalStr)
| PendingRemove (id : PendingId) (reason : PendingRemoveReason).
Arguments PendingAdd {Pending}.
Arguments PendingUpdate {Pending}.
Arguments PendingRemove {Pending}.

Inductive StateDelta := mkStateDelta {
  sd_token_changes : list TokenChange;
  sd_position_changes : list PositionChange;
  sd_pending_changes : list (PendingChangeOf (PendingTxOf StateDelta));
  sd_gas_paid : option (TokenRef * U256);
}.

Notation PendingTx := (PendingTxOf StateDelta).
Notation PendingChange := (PendingChangeOf (PendingTxOf StateDelta)).

(** [StateDelta::default] and [StateDelta::is_empty]. *)
Definition StateDelta_default : StateDelta := mkStateDelta [] [] [] None.
Definition StateDelta_is_empty (d : StateDelta) : bool :=
  match d with mkStateDelta [] [] [] None => true | _ => false end.

(** [delta.token_changes.push(c)] and its siblings. *)
Definition push_token (d : StateDelta) (c : TokenChange) : StateDelta :=
  mkStateDelta (sd_token_changes d ++ [c]) (sd_position_changes d)
    (sd_pending_changes d) (sd_gas_paid d).
Definition push_position (d : StateDelta) (c : PositionChange) : StateDelta :=
  mkStateDelta (sd_token_changes d) (sd_position_changes d ++ [c])
    (sd_pending_changes d) (sd_gas_paid d).
Definition push_pending (d : StateDelta) (c : PendingChange) : StateDelta :=
  mkStateDelta (sd_token_changes d) (sd_position_changes d)
    (sd_pending_changes d ++ [c]) (sd_gas_paid d).

(** [target.lifecycle = l] *)
Definition pt_set_lifecycle (p : PendingTx) (l : PendingLifecycle) : PendingTx :=
  mkPendingTx (pt_id p) (pt_kind p) (pt_commitment p) (pt_fill_effect p) l
    (pt_sync p) (pt_signed_at p) (pt_signature_payload p).

Definition pt_has_id (id : PendingId) (p : PendingTx) : bool :=
  bool_decide (pt_id p = id).

(** ** The wallet (wallet.rs) *)
Record WalletId := mkWalletId { wi_address : Address; wi_chains : gset ChainId }.

Record WalletState := mkWalletState {
  ws_wallet_id : WalletId;
  ws_tokens : gmap TokenKey TokenHolding;
  ws_approvals : ApprovalSet;
  ws_positions : list Position;
  ws_pending : list PendingTx;
  ws_block_heights : gmap ChainId BlockHeight;
  ws_portfolio_value_usd : option Price;
}.

(** [WalletState::new] *)
Definition WalletState_new (id : WalletId) : WalletState :=
  mkWalletState id ∅ ApprovalSet_new [] [] ∅ None.

Definition ws_set_tokens (s : WalletState) (t : gmap TokenKey TokenHolding) : WalletState :=
  mkWalletState (ws_wallet_id s) t (ws_approvals s) (ws_positions s) (ws_pending s)
    (ws_block_heights s) (ws_portfolio_value_usd s).
Definition ws_set_approvals (s : WalletState) (a : ApprovalSet) : WalletState :=
  mkWalletState (ws_wallet_id s) (ws_tokens s) a (ws_positions s) (ws_pending s)
    (ws_block_heights s) (ws_portfolio_value_usd s).
Definition ws_set_positions (s : WalletState) (p : list Position) : WalletState :=
  mkWalletState (ws_wallet_id s) (ws_tokens s) (ws_approvals s) p (ws_pending s)
    (ws_block_heights s) (ws_portfolio_value_usd s).
Definition ws_set_pending (s : WalletState) (p : list PendingTx) : WalletState :=
  mkWalletState (ws_wallet_id s) (ws_tokens s) (ws_approvals s) (ws_positions s) p
    (ws_block_heights s) (ws_portfolio_value_usd s).

(** [WalletState::available_balance] *)
Definition available_balance (s : WalletState) (key : TokenKey) : option U256 :=
  h ← ws_tokens s !! key; th_available h.

Inductive ApprovalEntry :=
| EntryErc20 (contract : ContractAddrKey) (spec : AllowanceSpec)
| EntrySetForAll (contract : ContractAddrKey)
| EntryPermit2 (key : SpenderKey) (allowance : Permit2Allowance).

(** [WalletState::all_approvals_to]; the order of the entries of one map is
    that of [map_to_list], not [BTreeMap]'s. *)
Definition all_approvals_to (s : WalletState) (spender : Spender) : list ApprovalEntry :=
  (kv ← map_to_list (ap_erc20 (ws_approvals s));
   match kv.2 !! spender with Some spec => [EntryErc20 kv.1 spec] | None => [] end) ++
  (kv ← (map_to_list (ap_set_for_all (ws_approvals s)) : list (ContractAddrKey * gset Spender));
   if bool_decide (spender ∈ kv.2) then [EntrySetForAll kv.1] else []) ++
  (kv ← map_to_list (ap_permit2 (ws_approvals s));
   if bool_decide (kv.1.2 = spender) then [EntryPermit2 kv.1 kv.2] else []).

(** ** Evaluation context (eval_context.rs) *)
Inductive RequestKind := Transaction | Signature | UserOperation.
Inductive SimulationMode := Preview | CommitMode.
Record EvalContext := mkEvalContext {
  cx_chain : ChainId;
  cx_now : Time;
  cx_action_index : nat;
  cx_request_kind : RequestKind;
  cx_simulation : SimulationMode;
}.
Definition EvalContext_new (chain : ChainId) (now : Time) (rk : RequestKind) : EvalContext :=
  mkEvalContext chain now 0 rk Preview.
Definition with_action_index (c : EvalContext) (i : nat) : EvalContext :=
  mkEvalContext (cx_chain c) (cx_now c) i (cx_request_kind c) (cx_simulation c).

(** ** Lemmas *)

(** The walker finds exactly the approvals the three maps hold for a spender. *)
Lemma elem_of_all_approvals_to s spender e :
  e ∈ all_approvals_to s spender <->
  match e with
  | EntryErc20 k spec => allowance (ws_approvals s) k spender = Some spec
  | EntrySetForAll k => has_set_for_all (ws_approvals s) k spender = true
  | EntryPermit2 k a => permit2_of (ws_approvals s) k = Some a /\ k.2 = spender
  end.
Proof.
  unfold all_approvals_to, allowance, has_set_for_all, permit2_of.
  rewrite !elem_of_app, !list_elem_of_bind. split.
  - intros [(kv & Hin & Hkv)|[(kv & Hin & Hkv)|(kv & Hin & Hkv)]];
      destruct kv as [k v]; apply elem_of_map_to_list in Hkv; simpl in *;
      case_match eqn:Hc; try (by apply not_elem_of_nil in Hin);
      apply list_elem_of_singleton in Hin; rewrite Hin; simpl; rewrite Hkv; simpl;
      rewrite ?bool_decide_eq_true in *; eauto.
  - destruct e as [k spec|k|k a].
    + intros H. left. apply bind_Some in H as (m & Hm & Hs).
      exists (k, m). rewrite elem_of_map_to_list. simpl. rewrite Hs. set_solver.
    + intros H. right; left. case_match eqn:Hk; [|done].
      eexists (k, _). rewrite elem_of_map_to_list. split; [|exact Hk].
      simpl. rewrite H. set_solver.
    + intros [H Hs]. right; right. exists (k, a). rewrite elem_of_map_to_list.
      simpl. rewrite bool_decide_true by done. set_solver.
Qed.
