(* ===== verification/Serde.v ===== *)
(** * serde_json, as the reducers use it

    [serde_json::to_value] and [from_value] at type [Position] are third-party
    code (the derive macro's output), so they are the operations of a class.
    The only documented behaviour the reducers rely on is the round trip. The
    operations of [serde_json::Value] used by the code ([get], [as_object],
    [Map::insert]) are defined on [JSON]. The second half builds a concrete
    instance of the class, which shows that the law can hold. *)
From stdpp Require Import base tactics numbers list strings gmap.
From S2P Require Import Prelude Types Positions.

(** ** The interface *)
Class PositionSerde := {
  to_value : Position -> option JSON;
  from_value : JSON -> option Position;
}.

(** What a snapshot patch relies on: serialising a position succeeds and
    deserialising the result gives the position back. *)
Class PositionSerdeLaws (S : PositionSerde) : Prop :=
  serde_round_trip : forall p : Position, exists v, to_value p = Some v /\ from_value v = Some p.

(** ** Operations of [serde_json::Value] *)

Fixpoint assoc_get {A} (k : string) (l : list (string * A)) : option A :=
  match l with
  | [] => None
  | (k', v) :: l' => if String.eqb k k' then Some v else assoc_get k l'
  end.

(** [Map::insert]: replace the value of a present key, add an absent one. *)
Fixpoint assoc_insert {A} (k : string) (v : A) (l : list (string * A)) : list (string * A) :=
  match l with
  | [] => [(k, v)]
  | (k', v') :: l' =>
      if String.eqb k k' then (k, v) :: l' else (k', v') :: assoc_insert k v l'
  end.

(** [Value::get(key)]: [None] unless the value is an object with that key. *)
Definition json_get (v : JSON) (k : string) : option JSON :=
  match v with JObject o => assoc_get k o | _ => None end.

Definition json_as_object (v : JSON) : option (list (string * JSON)) :=
  match v with JObject o => Some o | _ => None end.

Lemma assoc_get_insert {A} k k' (v : A) l :
  assoc_get k (assoc_insert k' v l) =
  if String.eqb k k' then Some v else assoc_get k l.
Proof.
  induction l as [|[k1 v1] l IH]; simpl; [done|].
  destruct (String.eqb_spec k' k1) as [->|]; simpl; [by destruct (String.eqb k k1)|].
  destruct (String.eqb_spec k k1) as [->|]; [|done].
  by rewrite (proj2 (String.eqb_neq _ _)).
Qed.

(** ** A concrete instance

    A position is written as the sequence of its components, integers as
    numbers, lists and strings prefixed by their length, sums by a tag. *)
Class Codec (A : Type) := {
  enc : A -> list Z;
  dec : list Z -> option (A * list Z);
  dec_enc : forall a k, dec (enc a ++ k) = Some (a, k);
}.

#[refine] Instance codec_Z : Codec Z := {|
  enc z := [z];
  dec l := match l with z :: k => Some (z, k) | [] => None end;
|}.
Proof. done. Defined.

#[refine] Instance codec_unit : Codec () := {| enc _ := []; dec l := Some (tt, l) |}.
Proof. by intros []. Defined.

#[refine] Instance codec_prod {A B} `{Codec A} `{Codec B} : Codec (A * B) := {|
  enc p := enc p.1 ++ enc p.2;
  dec l := '(a, l) ← dec l; '(b, l) ← dec l; Some ((a, b), l);
|}.
Proof. intros [a b] k. simpl. rewrite <- app_assoc, !dec_enc. simpl. by rewrite dec_enc. Defined.

#[refine] Instance codec_sum {A B} `{Codec A} `{Codec B} : Codec (A + B) := {|
  enc s := match s with inl a => 0 :: enc a | inr b => 1 :: enc b end;
  dec l := match l with
           | 0 :: l => '(a, l) ← dec l; Some (inl a, l)
           | _ :: l => '(b, l) ← dec l; Some (inr b, l)
           | [] => None
           end;
|}.
Proof. intros [a|b] k; simpl; by rewrite dec_enc. Defined.

(** A type that embeds into a codable one is codable. *)
Definition codec_iso {A B} `{Codec B} (f : A -> B) (g : B -> A) (Hgf : forall a, g (f a) = a)
    : Codec A.
Proof.
  refine {| enc a := enc (f a); dec l := '(b, l) ← dec l; Some (g b, l) |}.
  intros a k. rewrite dec_enc. simpl. by rewrite Hgf.
Defined.

#[global] Instance codec_bool : Codec bool :=
  codec_iso (fun b : bool => if b then inl tt else inr tt)
    (fun s : () + () => match s with inl _ => true | inr _ => false end)
    (fun b => match b with true => eq_refl | false => eq_refl end).

#[global] Instance codec_option {A} `{Codec A} : Codec (option A).
Proof.
  refine (codec_iso (fun o => match o with Some a => inl a | None => inr tt end)
    (fun s : A + () => match s with inl a => Some a | inr _ => None end) _).
  by intros [].
Defined.

Fixpoint dec_list {A} `{Codec A} (n : nat) (l : list Z) : option (list A * list Z) :=
  match n with
  | O => Some ([], l)
  | S n => '(a, l) ← dec l; '(r, l) ← dec_list n l; Some (a :: r, l)
  end.

Lemma dec_list_enc {A} `{Codec A} (xs : list A) k :
  dec_list (length xs) ((xs ≫= enc) ++ k) = Some (xs, k).
Proof.
  induction xs as [|x xs IH]; [done|].
  rewrite bind_cons, <- app_assoc. cbn [length dec_list]. rewrite dec_enc.
  change (mbind ?f (Some ?x)) with (f x). cbv beta iota. by rewrite IH.
Qed.

#[refine] Instance codec_list {A} `{Codec A} : Codec (list A) := {|
  enc xs := Z.of_nat (length xs) :: (xs ≫= enc);
  dec l := match l with z :: l => dec_list (Z.to_nat z) l | [] => None end;
|}.
Proof. intros xs k. simpl. rewrite Nat2Z.id. apply dec_list_enc. Defined.

#[global] Instance codec_ascii : Codec Ascii.ascii.
Proof.
  refine (codec_iso (fun c => Z.of_N (Ascii.N_of_ascii c))
    (fun z => Ascii.ascii_of_N (Z.to_N z)) _).
  intros a. by rewrite N2Z.id, Ascii.ascii_N_embedding.
Defined.

#[global] Instance codec_string : Codec string.
Proof.
  refine (codec_iso String.list_ascii_of_string String.string_of_list_ascii _).
  apply String.string_of_list_ascii_of_string.
Defined.

(** [codec_by f g]: an instance from a record's components and back. *)
Tactic Notation "codec_by" uconstr(f) uconstr(g) := refine (codec_iso f g _); by intros [].

#[global] Instance codec_TokenKey : Codec TokenKey.
Proof.
  codec_by
    (fun v => match v with
     | Native x0 => inl x0
     | Erc20 x0 x1 => inr (inl (x0, x1))
     | Erc721 x0 x1 x2 => inr (inr (inl (x0, x1, x2)))
     | Erc1155 x0 x1 x2 => inr (inr (inr ((x0, x1, x2))))
     end)
    (fun s => match s with
     | inl x0 => Native x0
     | inr (inl (x0, x1)) => Erc20 x0 x1
     | inr (inr (inl (x0, x1, x2))) => Erc721 x0 x1 x2
     | inr (inr (inr ((x0, x1, x2)))) => Erc1155 x0 x1 x2
     end).
Defined.
#[global] Instance codec_TokenRef : Codec TokenRef.
Proof.
  codec_by (fun r => (tr_key r))
    (fun '(x0) => mkTokenRef x0).
Defined.
#[global] Instance codec_ProtocolRef : Codec ProtocolRef.
Proof.
  codec_by (fun r => (pr_name r, pr_version r, pr_chain r, pr_market r))
    (fun '(x0, x1, x2, x3) => mkProtocolRef x0 x1 x2 x3).
Defined.
#[global] Instance codec_VenueRef : Codec VenueRef.
Proof.
  codec_by (fun r => (vr_name r, vr_chain r))
    (fun '(x0, x1) => mkVenueRef x0 x1).
Defined.
#[global] Instance codec_MarketRef : Codec MarketRef.
Proof.
  codec_by (fun r => (mr_symbol r, mr_venue r))
    (fun '(x0, x1) => mkMarketRef x0 x1).
Defined.
#[global] Instance codec_OracleProvider : Codec OracleProvider.
Proof.
  codec_by
    (fun v => match v with
     | Pyth  => inl tt
     | Chainlink  => inr (inl tt)
     | RedStone  => inr (inr (inl tt))
     | OracleOther x0 => inr (inr (inr (x0)))
     end)
    (fun s => match s with
     | inl tt => Pyth 
     | inr (inl tt) => Chainlink 
     | inr (inr (inl tt)) => RedStone 
     | inr (inr (inr (x0))) => OracleOther x0
     end).
Defined.
#[global] Instance codec_AuthSpec : Codec AuthSpec.
Proof.
  codec_by
    (fun v => match v with
     | AuthNone  => inl tt
     | Bearer x0 => inr (inl x0)
     | HmacSig x0 => inr (inr (inl x0))
     | AuthCustom x0 => inr (inr (inr (x0)))
     end)
    (fun s => match s with
     | inl tt => AuthNone 
     | inr (inl x0) => Bearer x0
     | inr (inr (inl x0)) => HmacSig x0
     | inr (inr (inr (x0))) => AuthCustom x0
     end).
Defined.
#[global] Instance codec_RegistryResource : Codec RegistryResource.
Proof.
  codec_by
    (fun v => match v with
     | TokenMeta x0 x1 => inl (x0, x1)
     | ProtocolMap x0 x1 => inr (inl (x0, x1))
     | PoolMeta x0 x1 => inr (inr (inl (x0, x1)))
     | DecoderRegistry  => inr (inr (inr (tt)))
     end)
    (fun s => match s with
     | inl (x0, x1) => TokenMeta x0 x1
     | inr (inl (x0, x1)) => ProtocolMap x0 x1
     | inr (inr (inl (x0, x1))) => PoolMeta x0 x1
     | inr (inr (inr (tt))) => DecoderRegistry 
     end).
Defined.
#[global] Instance codec_TokenFieldName : Codec TokenFieldName.
Proof.
  codec_by
    (fun v => match v with
     | PriceUsd  => tt
     end)
    (fun s => match s with
     | tt => PriceUsd 
     end).
Defined.
#[global] Instance codec_PositionFieldName : Codec PositionFieldName.
Proof.
  codec_by
    (fun v => match v with
     | HealthFactor  => inl tt
     | Ltv  => inr (inl tt)
     | LiquidationThreshold  => inr (inr (inl tt))
     | MarkPrice  => inr (inr (inr (inl tt)))
     | LiqPrice  => inr (inr (inr (inr (inl tt))))
     | UnrealizedPnl  => inr (inr (inr (inr (inr (inl tt)))))
     | FundingOwed  => inr (inr (inr (inr (inr (inr (inl tt))))))
     | Leverage  => inr (inr (inr (inr (inr (inr (inr (tt)))))))
     end)
    (fun s => match s with
     | inl tt => HealthFactor 
     | inr (inl tt) => Ltv 
     | inr (inr (inl tt)) => LiquidationThreshold 
     | inr (inr (inr (inl tt))) => MarkPrice 
     | inr (inr (inr (inr (inl tt)))) => LiqPrice 
     | inr (inr (inr (inr (inr (inl tt))))) => UnrealizedPnl 
     | inr (inr (inr (inr (inr (inr (inl tt)))))) => FundingOwed 
     | inr (inr (inr (inr (inr (inr (inr (tt))))))) => Leverage 
     end).
Defined.
#[global] Instance codec_PendingFieldName : Codec PendingFieldName.
Proof.
  codec_by
    (fun v => match v with
     | FieldStatus  => inl tt
     | FillRatio  => inr (tt)
     end)
    (fun s => match s with
     | inl tt => FieldStatus 
     | inr (tt) => FillRatio 
     end).
Defined.
#[global] Instance codec_FieldRef : Codec FieldRef.
Proof.
  codec_by
    (fun v => match v with
     | TokenField x0 x1 => inl (x0, x1)
     | PositionField x0 x1 => inr (inl (x0, x1))
     | PendingField x0 x1 => inr (inr (inl (x0, x1)))
     | Global x0 => inr (inr (inr (x0)))
     end)
    (fun s => match s with
     | inl (x0, x1) => TokenField x0 x1
     | inr (inl (x0, x1)) => PositionField x0 x1
     | inr (inr (inl (x0, x1))) => PendingField x0 x1
     | inr (inr (inr (x0))) => Global x0
     end).
Defined.
#[global] Instance codec_DataSource : Codec DataSource.
Proof.
  codec_by
    (fun v => match v with
     | OnchainView x0 x1 x2 x3 => inl (x0, x1, x2, x3)
     | OracleFeed x0 x1 => inr (inl (x0, x1))
     | VenueApi x0 x1 x2 => inr (inr (inl (x0, x1, x2)))
     | DerivedFrom x0 x1 => inr (inr (inr (inl (x0, x1))))
     | RegistryApi x0 x1 x2 => inr (inr (inr (inr (inl (x0, x1, x2)))))
     | UserSupplied  => inr (inr (inr (inr (inr (tt)))))
     end)
    (fun s => match s with
     | inl (x0, x1, x2, x3) => OnchainView x0 x1 x2 x3
     | inr (inl (x0, x1)) => OracleFeed x0 x1
     | inr (inr (inl (x0, x1, x2))) => VenueApi x0 x1 x2
     | inr (inr (inr (inl (x0, x1)))) => DerivedFrom x0 x1
     | inr (inr (inr (inr (inl (x0, x1, x2))))) => RegistryApi x0 x1 x2
     | inr (inr (inr (inr (inr (tt))))) => UserSupplied 
     end).
Defined.
#[global] Instance codec_Confidence : Codec Confidence.
Proof.
  codec_by (fun r => (cf_deviation_bp r, cf_is_stale r))
    (fun '(x0, x1) => mkConfidence x0 x1).
Defined.
#[global] Instance codec_LiveField {T} `{Codec T} : Codec (LiveField T).
Proof.
  codec_by (fun r => (lf_value r, lf_source r, lf_synced_at r, lf_ttl r, lf_confidence r))
    (fun '(x0, x1, x2, x3, x4) => mkLiveField x0 x1 x2 x3 x4).
Defined.
#[global] Instance codec_RateMode : Codec RateMode.
Proof.
  codec_by
    (fun v => match v with
     | RateVariable  => inl tt
     | RateStable  => inr (inl tt)
     | RateFixed  => inr (inr (tt))
     end)
    (fun s => match s with
     | inl tt => RateVariable 
     | inr (inl tt) => RateStable 
     | inr (inr (tt)) => RateFixed 
     end).
Defined.
#[global] Instance codec_MerkleProof : Codec MerkleProof.
Proof.
  codec_by (fun r => (mp_leaf_index r, mp_siblings r))
    (fun '(x0, x1) => mkMerkleProof x0 x1).
Defined.
#[global] Instance codec_ClaimStatus : Codec ClaimStatus.
Proof.
  codec_by
    (fun v => match v with
     | Eligible  => inl tt
     | Claimable  => inr (inl tt)
     | Claimed  => inr (inr (inl tt))
     | ClaimExpired  => inr (inr (inr (tt)))
     end)
    (fun s => match s with
     | inl tt => Eligible 
     | inr (inl tt) => Claimable 
     | inr (inr (inl tt)) => Claimed 
     | inr (inr (inr (tt))) => ClaimExpired 
     end).
Defined.
#[global] Instance codec_AirdropClaim : Codec AirdropClaim.
Proof.
  codec_by (fun r => (ac_source r, ac_claimable r, ac_amount r, ac_proof r, ac_claim_window r, ac_status r))
    (fun '(x0, x1, x2, x3, x4, x5) => mkAirdropClaim x0 x1 x2 x3 x4 x5).
Defined.
#[global] Instance codec_VestCurve : Codec VestCurve.
Proof.
  codec_by
    (fun v => match v with
     | CurveLinear  => inl tt
     | Stepped x0 => inr (inl x0)
     | CurveCustom x0 => inr (inr (x0))
     end)
    (fun s => match s with
     | inl tt => CurveLinear 
     | inr (inl x0) => Stepped x0
     | inr (inr (x0)) => CurveCustom x0
     end).
Defined.
#[global] Instance codec_VestSchedule : Codec VestSchedule.
Proof.
  codec_by (fun r => (vs_start r, vs_cliff r, vs_end r, vs_curve r, vs_total r))
    (fun '(x0, x1, x2, x3, x4) => mkVestSchedule x0 x1 x2 x3 x4).
Defined.
#[global] Instance codec_VestingSchedule : Codec VestingSchedule.
Proof.
  codec_by (fun r => (vg_granter r, vg_token r, vg_schedule r, vg_claimed r, vg_claimable_now r))
    (fun '(x0, x1, x2, x3, x4) => mkVestingSchedule x0 x1 x2 x3 x4).
Defined.
#[global] Instance codec_LaunchpadAllocation : Codec LaunchpadAllocation.
Proof.
  codec_by (fun r => (la_platform r, la_sale_id r, la_paid r, la_allocated r, la_vest r, la_claimed r, la_claimable_now r))
    (fun '(x0, x1, x2, x3, x4, x5, x6) => mkLaunchpadAllocation x0 x1 x2 x3 x4 x5 x6).
Defined.
#[global] Instance codec_LendingAccount : Codec LendingAccount.
Proof.
  codec_by (fun r => (ln_market r, ln_collaterals r, ln_debts r, ln_emode r, ln_is_isolated r, ln_health_factor r, ln_ltv r, ln_liquidation_threshold r))
    (fun '(x0, x1, x2, x3, x4, x5, x6, x7) => mkLendingAccount x0 x1 x2 x3 x4 x5 x6 x7).
Defined.
#[global] Instance codec_PerpSide : Codec PerpSide.
Proof.
  codec_by
    (fun v => match v with
     | Long  => inl tt
     | Short  => inr (tt)
     end)
    (fun s => match s with
     | inl tt => Long 
     | inr (tt) => Short 
     end).
Defined.
#[global] Instance codec_MarginMode : Codec MarginMode.
Proof.
  codec_by
    (fun v => match v with
     | Isolated  => inl tt
     | Cross  => inr (tt)
     end)
    (fun s => match s with
     | inl tt => Isolated 
     | inr (tt) => Cross 
     end).
Defined.
#[global] Instance codec_PerpPosition : Codec PerpPosition.
Proof.
  codec_by (fun r => (pp_venue r, pp_market r, pp_side r, pp_size_base r, pp_notional_usd r, pp_collateral r, pp_entry_price r, pp_margin_mode r, pp_mark_price r, pp_liq_price r, pp_unrealized_pnl r, pp_funding_owed r, pp_leverage r))
    (fun '(x0, x1, x2, x3, x4, x5, x6, x7, x8, x9, x10, x11, x12) => mkPerpPosition x0 x1 x2 x3 x4 x5 x6 x7 x8 x9 x10 x11 x12).
Defined.
#[global] Instance codec_HlFillSummary : Codec HlFillSummary.
Proof.
  codec_by (fun r => (hf_tid r, hf_time r, hf_coin r, hf_closed_pnl r, hf_px r, hf_sz r))
    (fun '(x0, x1, x2, x3, x4, x5) => mkHlFillSummary x0 x1 x2 x3 x4 x5).
Defined.
#[global] Instance codec_EquityAnchor : Codec EquityAnchor.
Proof.
  codec_by (fun r => (ea_value r, ea_anchored_at r, ea_trusted r))
    (fun '(x0, x1, x2) => mkEquityAnchor x0 x1 x2).
Defined.
#[global] Instance codec_HlPosition : Codec HlPosition.
Proof.
  codec_by (fun r => (hp_asset_index r, hp_symbol r, hp_is_long r, hp_size r, hp_entry_price r))
    (fun '(x0, x1, x2, x3, x4) => mkHlPosition x0 x1 x2 x3 x4).
Defined.
#[global] Instance codec_HlOpenOrder : Codec HlOpenOrder.
Proof.
  codec_by (fun r => (ho_asset_index r, ho_symbol r, ho_is_buy r, ho_price r, ho_size r, ho_reduce_only r, ho_tif r, ho_oid r, ho_order_type r, ho_is_trigger r, ho_trigger_price r, ho_trigger_condition r, ho_is_position_tpsl r))
    (fun '(x0, x1, x2, x3, x4, x5, x6, x7, x8, x9, x10, x11, x12) => mkHlOpenOrder x0 x1 x2 x3 x4 x5 x6 x7 x8 x9 x10 x11 x12).
Defined.
#[global] Instance codec_HlSpotBalance : Codec HlSpotBalance.
Proof.
  codec_by (fun r => (hs_coin r, hs_token r, hs_total r, hs_hold r, hs_entry_ntl r, hs_available_after_maintenance r))
    (fun '(x0, x1, x2, x3, x4, x5) => mkHlSpotBalance x0 x1 x2 x3 x4 x5).
Defined.
#[global] Instance codec_HlStakingDelegation : Codec HlStakingDelegation.
Proof.
  codec_by (fun r => (hd_validator r, hd_amount r, hd_locked_until_timestamp r))
    (fun '(x0, x1, x2) => mkHlStakingDelegation x0 x1 x2).
Defined.
#[global] Instance codec_HlStakingAccount : Codec HlStakingAccount.
Proof.
  codec_by (fun r => (hk_delegated r, hk_undelegated r, hk_total_pending_withdrawal r, hk_n_pending_withdrawals r, hk_delegations r))
    (fun '(x0, x1, x2, x3, x4) => mkHlStakingAccount x0 x1 x2 x3 x4).
Defined.
#[global] Instance codec_HlVaultEquity : Codec HlVaultEquity.
Proof.
  codec_by (fun r => (hv_vault_address r, hv_equity r, hv_locked_until_timestamp r))
    (fun '(x0, x1, x2) => mkHlVaultEquity x0 x1 x2).
Defined.
#[global] Instance codec_HlBorrowLendBalance : Codec HlBorrowLendBalance.
Proof.
  codec_by (fun r => (hb_basis r, hb_value r))
    (fun '(x0, x1) => mkHlBorrowLendBalance x0 x1).
Defined.
#[global] Instance codec_HlBorrowLendTokenState : Codec HlBorrowLendTokenState.
Proof.
  codec_by (fun r => (ht_token r, ht_borrow r, ht_supply r))
    (fun '(x0, x1, x2) => mkHlBorrowLendTokenState x0 x1 x2).
Defined.
#[global] Instance codec_HlBorrowLendAccount : Codec HlBorrowLendAccount.
Proof.
  codec_by (fun r => (hbl_token_states r, hbl_health r, hbl_health_factor r))
    (fun '(x0, x1, x2) => mkHlBorrowLendAccount x0 x1 x2).
Defined.
#[global] Instance codec_HlLeverageSetting : Codec HlLeverageSetting.
Proof.
  codec_by (fun r => (hl_asset_index r, hl_is_cross r, hl_leverage r))
    (fun '(x0, x1, x2) => mkHlLeverageSetting x0 x1 x2).
Defined.
#[global] Instance codec_HlAgentApproval : Codec HlAgentApproval.
Proof.
  codec_by (fun r => (hg_agent_address r, hg_agent_name r))
    (fun '(x0, x1) => mkHlAgentApproval x0 x1).
Defined.
#[global] Instance codec_HlAccount : Codec HlAccount.
Proof.
  codec_by (fun r => (hla_perp_usdc r, hla_perp_account_value_usd r, hla_pending_outflow r, hla_positions r, hla_open_orders r, hla_spot_balances r, hla_staking r, hla_vault_equities r, hla_borrow_lend r, hla_leverage_settings r, hla_agents r, hla_equity_baseline r, hla_equity_hwm r, hla_fill_window r, hla_cumulative_net_flow r, hla_ledger_cursor_ms r))
    (fun '(x0, x1, x2, x3, x4, x5, x6, x7, x8, x9, x10, x11, x12, x13, x14, x15) => mkHlAccount x0 x1 x2 x3 x4 x5 x6 x7 x8 x9 x10 x11 x12 x13 x14 x15).
Defined.
#[global] Instance codec_PositionKind : Codec PositionKind.
Proof.
  codec_by
    (fun v => match v with
     | PkLendingAccount x0 => inl x0
     | PkPerpPosition x0 => inr (inl x0)
     | PkAirdropClaim x0 => inr (inr (inl x0))
     | PkLaunchpadAllocation x0 => inr (inr (inr (inl x0)))
     | PkVestingSchedule x0 => inr (inr (inr (inr (inl x0))))
     | PkHyperliquidAccount x0 => inr (inr (inr (inr (inr (x0)))))
     end)
    (fun s => match s with
     | inl x0 => PkLendingAccount x0
     | inr (inl x0) => PkPerpPosition x0
     | inr (inr (inl x0)) => PkAirdropClaim x0
     | inr (inr (inr (inl x0))) => PkLaunchpadAllocation x0
     | inr (inr (inr (inr (inl x0)))) => PkVestingSchedule x0
     | inr (inr (inr (inr (inr (x0))))) => PkHyperliquidAccount x0
     end).
Defined.
#[global] Instance codec_Position : Codec Position.
Proof.
  codec_by (fun r => (po_id r, po_protocol r, po_chain r, po_kind r, po_primitives_synced_at r, po_primitives_source r))
    (fun '(x0, x1, x2, x3, x4, x5) => mkPosition x0 x1 x2 x3 x4 x5).
Defined.

Fixpoint json_numbers (l : list JSON) : option (list Z) :=
  match l with
  | [] => Some []
  | JNumber n :: l => r ← json_numbers l; Some (n :: r)
  | _ => None
  end.

Lemma json_numbers_map l : json_numbers (map JNumber l) = Some l.
Proof. induction l as [|n l IH]; simpl; [done|]. by rewrite IH. Qed.

(** One object field holds the number sequence of a value. *)
Definition codec_to_json {A} `{Codec A} (a : A) : JSON :=
  JObject [("data", JArray (map JNumber (enc a)))].
Definition codec_from_json {A} `{Codec A} (v : JSON) : option A :=
  match json_get v "data" with
  | Some (JArray l) =>
      r ← json_numbers l;
      match dec r with Some (a, []) => Some a | _ => None end
  | _ => None
  end.

Lemma codec_json_round_trip {A} `{Codec A} (a : A) :
  codec_from_json (codec_to_json a) = Some a.
Proof.
  unfold codec_from_json, codec_to_json. simpl. rewrite json_numbers_map. simpl.
  pose proof (dec_enc a []) as Ha. rewrite app_nil_r in Ha. by rewrite Ha.
Qed.

(** The concrete instance, and its law. *)
Definition demo_serde : PositionSerde := {|
  to_value p := Some (codec_to_json p);
  from_value v := codec_from_json v;
|}.

#[global] Instance demo_serde_laws : PositionSerdeLaws demo_serde.
Proof. intros p. exists (codec_to_json p). split; [done|]. apply codec_json_round_trip. Qed.
