(* ===== verification/Fixtures.v ===== *)
(** * A concrete wallet

    The wallet the witnesses evaluate on: five ether, a thousand USDC, an NFT
    and a fungible LP share on mainnet, with one allowance and one operator
    approval. *)
From stdpp Require Import base tactics numbers list strings gmap.
From S2P Require Import Prelude Types Positions Wallet.

Definition demo_chain : ChainId := "eip155:1".
Definition demo_addr : Address := 0x1111111111111111111111111111111111111111.
Definition demo_spender : Address := 0x2222222222222222222222222222222222222222.
Definition demo_contract : Address := 0x3333333333333333333333333333333333333333.

Definition eth_key : TokenKey := Native demo_chain.
Definition usdc_key : TokenKey := Erc20 demo_chain 0xa0b86991c6218b36c1d19d4a2e9eb0ce3606eb48.
Definition weth_key : TokenKey := Erc20 demo_chain 0xc02aaa39b223fe8d0a0e5c4f27ead9083c756cc2.
Definition lp_key : TokenKey := Erc20 demo_chain demo_contract.
Definition nft_key : TokenKey := Erc721 demo_chain demo_contract 7.
Definition item_key : TokenKey := Erc1155 demo_chain demo_contract 9.

Definition demo_source : DataSource := UserSupplied.

Definition demo_holding (k : TokenKey) (symbol : string) (decimals : Z) (b : Balance) : TokenHolding :=
  mkTokenHolding k UnknownKind symbol decimals b (Fungible 0) None None None None 0 demo_source.

Definition demo_tokens : gmap TokenKey TokenHolding :=
  {[ eth_key := demo_holding eth_key "ETH" 18 (Fungible 5000000000000000000);
     usdc_key := demo_holding usdc_key "USDC" 6 (Fungible 1000000000);
     weth_key := demo_holding weth_key "WETH" 18 (Fungible 0);
     lp_key := demo_holding lp_key "LP" 18 (Fungible 4000);
     nft_key := demo_holding nft_key "NFT" 0 Owned;
     item_key := demo_holding item_key "ITEM" 0 (Fungible 3) ]}.

Definition demo_wallet : WalletState :=
  mkWalletState (mkWalletId demo_addr {[demo_chain]}) demo_tokens ApprovalSet_new [] [] ∅ None.

Definition demo_ctx : EvalContext := EvalContext_new demo_chain 1700000000 Transaction.

(** Sell 500 USDC for 0.2 WETH. *)
Definition demo_delta : StateDelta :=
  mkStateDelta [BalanceDelta usdc_key (-500000000); BalanceDelta weth_key 200000000000000000]
    [] [] None.
(** The same, paying 0.001 ether of gas. *)
Definition demo_gas_delta : StateDelta :=
  mkStateDelta (sd_token_changes demo_delta) [] []
    (Some (mkTokenRef eth_key, 1000000000000000)).
(** A mint, an allowance and an operator approval. *)
Definition demo_mint_delta : StateDelta :=
  mkStateDelta
    [Mint (Erc20 demo_chain 5) UnknownKind; BalanceDelta (Erc20 demo_chain 5) 42;
     TcApprovalSet usdc_key demo_spender (AllowanceSpec_new 7 1700000000);
     TcApprovalSet nft_key demo_spender (AllowanceSpec_unlimited 1700000000)]
    [] [] None.

(** A wallet with one lending account. *)
Definition demo_live {T} (v : T) : LiveField T := LiveField_new v demo_source 1700000000.
Definition demo_account (emode : option Z) : LendingAccount :=
  mkLendingAccount (mkMarketRef "pool" (VenueRef_new "aave_v3"))
    [(mkTokenRef weth_key, 2000)] [(mkTokenRef usdc_key, 700, RateVariable)] emode false
    (demo_live "1.5") (demo_live "0.4") (demo_live "0.8").
Definition demo_position (emode : option Z) : Position :=
  mkPosition "lend:1" (ProtocolRef_new "aave_v3") (Some demo_chain)
    (PkLendingAccount (demo_account emode)) 1700000000 demo_source.
Definition demo_lending_wallet : WalletState :=
  ws_set_positions demo_wallet [demo_position None].
