(* ===== verification/Delta.v ===== *)
(** * Advancing a wallet by a delta

    crates/asset-model/transition/src/helpers/delta.rs: [apply_delta] runs the
    token, position and pending changes of a [StateDelta] in order and charges
    the gas last; [merge_delta] composes two deltas. A [&mut WalletState]
    argument is a state passed in and returned. *)
From stdpp Require Import base tactics numbers list strings gmap.
From S2P Require Import Prelude Types Positions Wallet Serde Fixtures.

(** ** Operations *)

(** [approval_scope_for_set] *)
Definition approval_scope_for_set (key : TokenKey) : ApprovalScope :=
  match key with
  | Native _ | Erc20 _ _ => ScopeErc20
  | Erc721 _ _ _ | Erc1155 _ _ _ => ScopeSetForAll
  end.

(** [contract_addr_key] *)
Definition contract_addr_key (key : TokenKey) : ReducerResult ContractAddrKey :=
  addr ← ok_or (Invariant "token key {key:?} has no contract address") (key_contract key);
  Ok (key_chain key, addr).

(** [mint_stub_holding] *)
Definition mint_stub_holding (key : TokenKey) (kind_hint : TokenKind) : TokenHolding :=
  {| th_key := key;
     th_kind := kind_hint;
     th_symbol := "";
     th_decimals := 0;
     th_balance := zero_fungible;
     th_committed := zero_fungible;
     th_approved_to := None;
     th_price_usd := None;
     th_metadata := None;
     th_value_usd := None;
     th_last_synced_at := 0;
     th_primitives_source :=
       OnchainView (key_chain key) (default 0 (key_contract key))
         "balanceOf(address)" "erc20_balance" |}.

(** [next.tokens.get_mut(key)] followed by an update of the holding. *)
Definition put_holding (next : WalletState) (key : TokenKey) (h : TokenHolding) : WalletState :=
  ws_set_tokens next (<[key := h]> (ws_tokens next)).

(** [apply_balance_delta] *)
Definition apply_balance_delta (next : WalletState) (key : TokenKey) (d : SignedI256)
    : ReducerResult WalletState :=
  holding ← ok_or (TokenNotFound key) (ws_tokens next !! key);
  current ← ok_or (Invariant "BalanceDelta on non-fungible holding {key:?}")
              (as_fungible (th_balance holding));
  let signed := i256_saturating_add (u256_to_signed_saturating current) d in
  if signed <? 0 then
    Err (Invariant "balance underflow applying delta to {key:?}: current {current}, delta {d}")
  else
    Ok (put_holding next key
          (th_set_balance holding (Fungible (signed_to_u256_saturating signed)))).

(** [apply_approval_set] *)
Definition apply_approval_set (next : WalletState) (key : TokenKey) (spender : Address)
    (allowance : AllowanceSpec) : ReducerResult WalletState :=
  let ap := ws_approvals next in
  match approval_scope_for_set key with
  | ScopeErc20 =>
      addr_key ← contract_addr_key key;
      let m := default ∅ (ap_erc20 ap !! addr_key) in
      Ok (ws_set_approvals next
            (mkApprovalSet (<[addr_key := <[spender := allowance]> m]> (ap_erc20 ap))
               (ap_set_for_all ap) (ap_permit2 ap)))
  | ScopeSetForAll =>
      addr_key ← contract_addr_key key;
      let m := default ∅ (ap_set_for_all ap !! addr_key) in
      Ok (ws_set_approvals next
            (mkApprovalSet (ap_erc20 ap)
               (<[addr_key := {[spender]} ∪ m]> (ap_set_for_all ap)) (ap_permit2 ap)))
  | ScopePermit2 | ScopeErc721Token =>
      Err (Invariant "ApprovalSet scope {scope:?} cannot be inferred from key {key:?}; add an explicit scope field on TokenChange::ApprovalSet to route Permit2 / Erc721Token")
  end.

(** [apply_approval_revoke] *)
Definition apply_approval_revoke (next : WalletState) (key : TokenKey) (spender : Address)
    (scope : ApprovalScope) : ReducerResult WalletState :=
  let ap := ws_approvals next in
  match scope with
  | ScopeErc20 =>
      addr_key ← contract_addr_key key;
      match ap_erc20 ap !! addr_key with
      | Some m =>
          let m' := delete spender m in
          let erc20 := if bool_decide (m' = ∅) then delete addr_key (ap_erc20 ap)
                       else <[addr_key := m']> (ap_erc20 ap) in
          Ok (ws_set_approvals next (mkApprovalSet erc20 (ap_set_for_all ap) (ap_permit2 ap)))
      | None => Ok next
      end
  | ScopeSetForAll =>
      addr_key ← contract_addr_key key;
      match ap_set_for_all ap !! addr_key with
      | Some m =>
          let m' := m ∖ {[spender]} in
          let sfa := if bool_decide (m' = ∅) then delete addr_key (ap_set_for_all ap)
                     else <[addr_key := m']> (ap_set_for_all ap) in
          Ok (ws_set_approvals next (mkApprovalSet (ap_erc20 ap) sfa (ap_permit2 ap)))
      | None => Ok next
      end
  | ScopePermit2 =>
      '(chain, addr) ← contract_addr_key key;
      Ok (ws_set_approvals next
            (mkApprovalSet (ap_erc20 ap) (ap_set_for_all ap)
               (delete (chain, addr, spender) (ap_permit2 ap))))
  | ScopeErc721Token =>
      holding ← ok_or (TokenNotFound key) (ws_tokens next !! key);
      Ok (put_holding next key (th_set_approved_to holding None))
  end.

(** [apply_token_change] *)
Definition apply_token_change (next : WalletState) (tc : TokenChange) : ReducerResult WalletState :=
  match tc with
  | BalanceDelta key d => apply_balance_delta next key d
  | TcApprovalSet key spender allowance => apply_approval_set next key spender allowance
  | ApprovalRevoke key spender scope => apply_approval_revoke next key spender scope
  | Erc721ApprovedTo key spender =>
      holding ← ok_or (TokenNotFound key) (ws_tokens next !! key);
      Ok (put_holding next key (th_set_approved_to holding spender))
  | Mint key kind_hint =>
      match ws_tokens next !! key with
      | Some _ => Ok next
      | None => Ok (put_holding next key (mint_stub_holding key kind_hint))
      end
  end.

(** [apply_pending_change] *)
Definition apply_pending_change (next : WalletState) (pc : PendingChange)
    : ReducerResult WalletState :=
  match pc with
  | PendingAdd p => Ok (ws_set_pending next (ws_pending next ++ [p]))
  | PendingUpdate id status _ =>
      match update_first (pt_has_id id)
              (fun p => Ok (pt_set_lifecycle p (lc_set_status (pt_lifecycle p) status)))
              (ws_pending next) with
      | None => Err (Invariant "pending id {id} not found for update")
      | Some r => l ← r; Ok (ws_set_pending next l)
      end
  | PendingRemove id _ =>
      let l := retain (fun p => negb (pt_has_id id p)) (ws_pending next) in
      if (length l =? length (ws_pending next))%nat
      then Err (Invariant "pending id {id} not found for remove")
      else Ok (ws_set_pending next l)
  end.

(** [apply_gas_paid] *)
Definition apply_gas_paid (next : WalletState) (token : TokenRef) (amount : U256)
    : ReducerResult WalletState :=
  let key := tr_key token in
  holding ← ok_or (TokenNotFound key) (ws_tokens next !! key);
  current ← ok_or (Invariant "gas charged against non-fungible holding {key:?}")
              (as_fungible (th_balance holding));
  next_amount ← ok_or (Invariant "gas underflow on {key:?}: current {current}, gas {amount}")
                  (checked_sub current amount);
  Ok (put_holding next key (th_set_balance holding (Fungible next_amount))).

(** [merge_delta] *)
Definition merge_delta (a b : StateDelta) : ReducerResult StateDelta :=
  gas_paid ←
    match sd_gas_paid a, sd_gas_paid b with
    | None, None => Ok None
    | Some g, None | None, Some g => Ok (Some g)
    | Some (tok_a, amt_a), Some (tok_b, amt_b) =>
        if bool_decide (tr_key tok_a = tr_key tok_b)
        then Ok (Some (tok_a, saturating_add amt_a amt_b))
        else Err (Invariant "merge_delta: incompatible gas tokens {:?} vs {:?}")
    end;
  Ok (mkStateDelta (sd_token_changes a ++ sd_token_changes b)
        (sd_position_changes a ++ sd_position_changes b)
        (sd_pending_changes a ++ sd_pending_changes b) gas_paid).

Section ApplyDelta.
Context `{PositionSerde}.

(** [apply_position_patch] *)
Definition apply_position_patch (target : Position) (patch : PositionPatch)
    : ReducerResult Position :=
  let fields := patch_fields patch in
  match json_get fields "after" with
  | Some after =>
      ok_or (Invariant "PositionPatch.after did not deserialise as Position: {e}")
        (from_value after)
  | None =>
      as_json ← ok_or (Invariant "Position serialise failed: {e}") (to_value target);
      target_obj ← ok_or (Invariant "Position did not serialise as JSON object")
                     (json_as_object as_json);
      patch_obj ← ok_or (Invariant "PositionPatch.fields must be a JSON object, got {fields}")
                    (json_as_object fields);
      let merged := foldl (fun o kv => assoc_insert kv.1 kv.2 o) target_obj patch_obj in
      ok_or (Invariant "Position re-deserialise failed: {e}") (from_value (JObject merged))
  end.

(** [apply_position_change] *)
Definition apply_position_change (next : WalletState) (pc : PositionChange)
    : ReducerResult WalletState :=
  match pc with
  | Open position => Ok (ws_set_positions next (ws_positions next ++ [position]))
  | Update id patch =>
      match update_first (po_has_id id) (fun p => apply_position_patch p patch)
              (ws_positions next) with
      | None => Err (PositionNotFound id)
      | Some r => l ← r; Ok (ws_set_positions next l)
      end
  | Close id =>
      let l := retain (fun p => negb (po_has_id id p)) (ws_positions next) in
      if (length l =? length (ws_positions next))%nat
      then Err (PositionNotFound id)
      else Ok (ws_set_positions next l)
  end.

Definition apply_gas_option (next : WalletState) (g : option (TokenRef * U256))
    : ReducerResult WalletState :=
  match g with
  | Some (token, amount) => apply_gas_paid next token amount
  | None => Ok next
  end.

(** [apply_delta] *)
Definition apply_delta (state : WalletState) (delta : StateDelta) : ReducerResult WalletState :=
  next ← foldM apply_token_change (sd_token_changes delta) state;
  next ← foldM apply_position_change (sd_position_changes delta) next;
  next ← foldM apply_pending_change (sd_pending_changes delta) next;
  apply_gas_option next (sd_gas_paid delta).

End ApplyDelta.

(** ** Each phase works on its own part of the wallet *)

Definition ws_set_ta (s : WalletState) (t : gmap TokenKey TokenHolding) (a : ApprovalSet)
    : WalletState := ws_set_approvals (ws_set_tokens s t) a.

Lemma put_holding_ta s k h :
  put_holding s k h = ws_set_ta s (<[k := h]> (ws_tokens s)) (ws_approvals s).
Proof. done. Qed.

(** A token change reads and writes only tokens and approvals. *)
Lemma apply_token_change_local s tc s' :
  apply_token_change s tc = Ok s' ->
  exists t a, s' = ws_set_ta s t a /\
    forall u, ws_tokens u = ws_tokens s -> ws_approvals u = ws_approvals s ->
      apply_token_change u tc = Ok (ws_set_ta u t a).
Proof.
  destruct s as [wid tk ap pos pend bh pv].
  destruct tc as [k d|k sp al|k sp sc|k sp|k kh]; simpl;
    unfold apply_balance_delta, apply_approval_set, apply_approval_revoke; simpl; intros Hs;
    run_ok;
    (do 2 eexists; split; [unfold ws_set_ta, ws_set_approvals, ws_set_tokens; simpl; reflexivity|]);
    intros [] ? ?; simpl in *; subst; replay; done.
Qed.

(** A position change reads and writes only the positions. *)
Lemma apply_position_change_local `{PositionSerde} s pc s' :
  apply_position_change s pc = Ok s' ->
  exists l, s' = ws_set_positions s l /\
    forall u, ws_positions u = ws_positions s ->
      apply_position_change u pc = Ok (ws_set_positions u l).
Proof.
  destruct pc; simpl; intros Hs; run_ok; (eexists; split; [reflexivity|]);
    intros u ->; replay; done.
Qed.

(** A pending change reads and writes only the pending entries. *)
Lemma apply_pending_change_local s pc s' :
  apply_pending_change s pc = Ok s' ->
  exists l, s' = ws_set_pending s l /\
    forall u, ws_pending u = ws_pending s ->
      apply_pending_change u pc = Ok (ws_set_pending u l).
Proof.
  destruct pc; simpl; intros Hs; run_ok; (eexists; split; [reflexivity|]);
    intros u ->; replay; done.
Qed.

(** The gas charge reads and writes only the tokens. *)
Lemma apply_gas_option_local s g s' :
  apply_gas_option s g = Ok s' ->
  exists t, s' = ws_set_tokens s t /\
    forall u, ws_tokens u = ws_tokens s -> apply_gas_option u g = Ok (ws_set_tokens u t).
Proof.
  destruct g as [[tok amt]|]; simpl; [unfold apply_gas_paid|]; intros Hs; run_ok.
  - eexists; split; [reflexivity|]. intros u Hu; simpl; rewrite Hu; replay. unfold put_holding. by rewrite Hu.
  - exists (ws_tokens s'). split; [by destruct s'|]. intros u <-. by destruct u.
Qed.

(** Hence the phases commute. *)
Ltac commute_by l1 l2 :=
  intros ? ? ? ? ? H1 H2; apply l1 in H1; apply l2 in H2;
  repeat match goal with
  | H : exists _, _ |- _ => destruct H as [? H]
  | H : _ = _ /\ _ |- _ => destruct H as [-> H]
  end;
  eexists; split; [by eauto | match goal with H : _ |- _ => by rewrite H end].

Lemma pending_token_commute : steps_commute apply_pending_change apply_token_change.
Proof. commute_by apply_pending_change_local apply_token_change_local. Qed.
Lemma token_pending_commute : steps_commute apply_token_change apply_pending_change.
Proof. commute_by apply_token_change_local apply_pending_change_local. Qed.

Section Phases.
Context `{PositionSerde}.

Lemma position_token_commute : steps_commute apply_position_change apply_token_change.
Proof. commute_by apply_position_change_local apply_token_change_local. Qed.
Lemma token_position_commute : steps_commute apply_token_change apply_position_change.
Proof. commute_by apply_token_change_local apply_position_change_local. Qed.
Lemma pending_position_commute : steps_commute apply_pending_change apply_position_change.
Proof. commute_by apply_pending_change_local apply_position_change_local. Qed.
Lemma position_pending_commute : steps_commute apply_position_change apply_pending_change.
Proof. commute_by apply_position_change_local apply_pending_change_local. Qed.

(** The gas charge as a step, so that it commutes with the later phases. *)
Definition gas_step (s : WalletState) (g : option (TokenRef * U256)) : ReducerResult WalletState :=
  apply_gas_option s g.
Lemma gas_position_commute : steps_commute gas_step apply_position_change.
Proof. commute_by apply_gas_option_local apply_position_change_local. Qed.
Lemma gas_pending_commute : steps_commute gas_step apply_pending_change.
Proof. commute_by apply_gas_option_local apply_pending_change_local. Qed.

Lemma apply_delta_phases s d s' :
  apply_delta s d = Ok s' <->
  exists s1 s2 s3,
    foldM apply_token_change (sd_token_changes d) s = Ok s1 /\
    foldM apply_position_change (sd_position_changes d) s1 = Ok s2 /\
    foldM apply_pending_change (sd_pending_changes d) s2 = Ok s3 /\
    apply_gas_option s3 (sd_gas_paid d) = Ok s'.
Proof.
  unfold apply_delta. split.
  - intros Hd; inv_ok. eauto 10.
  - intros (s1 & s2 & s3 & H1 & H2 & H3 & H4). by rewrite H1; simpl; rewrite H2; simpl; rewrite H3.
Qed.

Lemma merge_delta_no_gas_l a b :
  sd_gas_paid a = None ->
  merge_delta a b = Ok (mkStateDelta (sd_token_changes a ++ sd_token_changes b)
    (sd_position_changes a ++ sd_position_changes b)
    (sd_pending_changes a ++ sd_pending_changes b) (sd_gas_paid b)).
Proof. unfold merge_delta. intros ->. by destruct (sd_gas_paid b). Qed.

(** The merged delta of a gas-free first delta runs exactly as the two in
    sequence. *)
Lemma merge_delta_sequential a b s s' :
  sd_gas_paid a = None ->
  (exists m, merge_delta a b = Ok m /\ apply_delta s m = Ok s') <->
  (s1 ← apply_delta s a; apply_delta s1 b) = Ok s'.
Proof.
  intros Hg. rewrite (merge_delta_no_gas_l _ _ Hg). split.
  - intros (m & [= <-] & Hm). apply apply_delta_phases in Hm as (s1 & s2 & s3 & H1 & H2 & H3 & H4).
    cbn [sd_token_changes sd_position_changes sd_pending_changes sd_gas_paid] in *.
    rewrite foldM_app in H1. rewrite foldM_app in H2. rewrite foldM_app in H3.
    apply bind_Ok_inv in H1 as (t1 & HTa & HTb), H2 as (p1 & HPa & HPb), H3 as (n1 & HNa & HNb).
    destruct (foldM_commute _ _ _ _ _ _ _ token_position_commute HTb HPa) as (u & HPa' & HTb').
    destruct (foldM_commute _ _ _ _ _ _ _ position_pending_commute HPb HNa) as (v & HNa' & HPb').
    destruct (foldM_commute _ _ _ _ _ _ _ token_pending_commute HTb' HNa') as (w & HNa'' & HTb'').
    rewrite (bind_Ok _ _ w); apply apply_delta_phases; [eauto 10|].
    rewrite Hg. eauto 10.
  - intros Hseq. apply bind_Ok_inv in Hseq as (w & Ha & Hb). eexists; split; [done|].
    apply apply_delta_phases in Ha as (t1 & u & w' & HTa & HPa & HNa & Hga).
    rewrite Hg in Hga. injection Hga as ->.
    apply apply_delta_phases in Hb as (v & n1 & s3 & HTb & HPb & HNb & Hgb).
    destruct (foldM_commute _ _ _ _ _ _ _ pending_token_commute HNa HTb) as (p1 & HTb' & HNa').
    destruct (foldM_commute _ _ _ _ _ _ _ position_token_commute HPa HTb') as (s1 & HTb'' & HPa').
    destruct (foldM_commute _ _ _ _ _ _ _ pending_position_commute HNa' HPb) as (s2 & HPb' & HNa'').
    apply apply_delta_phases. exists s1, s2, s3; simpl.
    rewrite !foldM_app, (bind_Ok _ _ _ HTa), (bind_Ok _ _ _ HPa'), (bind_Ok _ _ _ HNa''). done.
Qed.
(** Advancing by a delta extended by one change is advancing by the delta, then
    making the change. *)
Lemma apply_delta_extend s d e m s2 :
  sd_gas_paid d = None -> merge_delta d e = Ok m ->
  apply_delta s m = Ok s2 <-> exists s1, apply_delta s d = Ok s1 /\ apply_delta s1 e = Ok s2.
Proof.
  intros Hg Hm. pose proof (merge_delta_sequential d e s s2 Hg) as [Hl Hr]. split.
  - intros Ha. by apply bind_Ok_inv, Hl; eauto.
  - intros (s1 & Ha & He). rewrite (bind_Ok _ _ _ Ha) in Hr.
    destruct (Hr He) as (m' & Hm' & ?). rewrite Hm in Hm'. by simplify_eq.
Qed.

Lemma apply_delta_push_token s d tc s2 :
  sd_gas_paid d = None ->
  apply_delta s (push_token d tc) = Ok s2 <->
  exists s1, apply_delta s d = Ok s1 /\ apply_token_change s1 tc = Ok s2.
Proof.
  intros Hg. rewrite (apply_delta_extend s d (mkStateDelta [tc] [] [] None)); [|done|].
  - unfold apply_delta at 2. simpl. by repeat setoid_rewrite bind_Ok_r.
  - rewrite merge_delta_no_gas_l by done. unfold push_token. simpl. by rewrite !app_nil_r, Hg.
Qed.

Lemma apply_delta_push_position s d pc s2 :
  sd_gas_paid d = None ->
  apply_delta s (push_position d pc) = Ok s2 <->
  exists s1, apply_delta s d = Ok s1 /\ apply_position_change s1 pc = Ok s2.
Proof.
  intros Hg. rewrite (apply_delta_extend s d (mkStateDelta [] [pc] [] None)); [|done|].
  - unfold apply_delta at 2. simpl. by repeat setoid_rewrite bind_Ok_r.
  - rewrite merge_delta_no_gas_l by done. unfold push_position. simpl. by rewrite !app_nil_r, Hg.
Qed.

Lemma apply_delta_push_pending s d pc s2 :
  sd_gas_paid d = None ->
  apply_delta s (push_pending d pc) = Ok s2 <->
  exists s1, apply_delta s d = Ok s1 /\ apply_pending_change s1 pc = Ok s2.
Proof.
  intros Hg. rewrite (apply_delta_extend s d (mkStateDelta [] [] [pc] None)); [|done|].
  - unfold apply_delta at 2. simpl. by repeat setoid_rewrite bind_Ok_r.
  - rewrite merge_delta_no_gas_l by done. unfold push_pending. simpl. by rewrite !app_nil_r, Hg.
Qed.
End Phases.

(** ** Well-formed wallets *)

Definition wf_holding (k : TokenKey) (h : TokenHolding) : Prop :=
  th_key h = k /\ match th_balance h with Fungible a => u256 a | Owned => True end.

(** No approval map keeps an empty entry, and every allowance is a U256. *)
Definition wf_approvals (ap : ApprovalSet) : Prop :=
  map_Forall (fun _ m => m <> ∅ /\ map_Forall (fun _ al => u256 (al_amount al)) m) (ap_erc20 ap) /\
  map_Forall (fun _ m => m <> (∅ : gset Spender)) (ap_set_for_all ap).

Definition wf_state (s : WalletState) : Prop :=
  map_Forall wf_holding (ws_tokens s) /\ wf_approvals (ws_approvals s).

Definition wf_token_change (tc : TokenChange) : Prop :=
  match tc with TcApprovalSet _ _ al => u256 (al_amount al) | _ => True end.

#[global] Instance wf_holding_dec k h : Decision (wf_holding k h).
Proof. unfold wf_holding, u256. destruct (th_balance h); apply _. Defined.
#[global] Instance wf_state_dec s : Decision (wf_state s).
Proof. unfold wf_state, wf_approvals, u256. apply _. Defined.

Lemma wf_put_holding s k h : wf_state s -> wf_holding k h -> wf_state (put_holding s k h).
Proof. intros [Ht Ha] Hh. split; [by apply map_Forall_insert_2|done]. Qed.

Lemma wf_set_balance k h a : wf_holding k h -> u256 a -> wf_holding k (th_set_balance h (Fungible a)).
Proof. intros [? ?] ?; done. Qed.

Lemma wf_set_approved_to k h o : wf_holding k h -> wf_holding k (th_set_approved_to h o).
Proof. intros [? ?]; done. Qed.

#[local] Hint Resolve wf_put_holding wf_set_balance wf_set_approved_to : dambi.

Lemma wf_lookup s k h : wf_state s -> ws_tokens s !! k = Some h -> wf_holding k h.
Proof. intros [Ht _] Hk. by apply Ht. Qed.
#[local] Hint Resolve wf_lookup : dambi.

Lemma apply_balance_delta_wf s k d s' :
  wf_state s -> apply_balance_delta s k d = Ok s' -> wf_state s'.
Proof.
  intros Hs Hb. unfold apply_balance_delta in Hb. run_ok.
  apply wf_put_holding, wf_set_balance; [done|eauto with dambi|].
  to_prop. rewrite signed_to_u256_nonneg by done. int_solve.
Qed.

Lemma wf_erc20_insert ap k sp al :
  wf_approvals ap -> u256 (al_amount al) ->
  wf_approvals (mkApprovalSet
    (<[k := <[sp := al]> (default ∅ (ap_erc20 ap !! k))]> (ap_erc20 ap))
    (ap_set_for_all ap) (ap_permit2 ap)).
Proof.
  intros [He Hs] Hal. split; [|done]. simpl. apply map_Forall_insert_2; [|done].
  split; [apply insert_non_empty|]. apply map_Forall_insert_2; [done|].
  destruct (ap_erc20 ap !! k) eqn:Hk; simpl; [by apply (He k)|apply map_Forall_empty].
Qed.

Lemma apply_approval_set_wf s k sp al s' :
  wf_state s -> u256 (al_amount al) -> apply_approval_set s k sp al = Ok s' -> wf_state s'.
Proof.
  intros [Ht Ha] Hal Hb. unfold apply_approval_set in Hb. run_ok; (split; [done|]).
  - by apply wf_erc20_insert.
  - destruct Ha as [He Hs]. split; [done|]. simpl. apply map_Forall_insert_2; [set_solver|done].
Qed.

Lemma apply_approval_revoke_wf s k sp sc s' :
  wf_state s -> apply_approval_revoke s k sp sc = Ok s' -> wf_state s'.
Proof.
  intros Hs Hb. pose proof Hs as [Ht [He Hsf]]. unfold apply_approval_revoke in Hb.
  destruct sc; run_ok; to_prop; try done; try (split; [done|]; split; simpl; try done);
    try case_bool_decide; try by apply map_Forall_delete.
  - apply map_Forall_insert_2; [|done]. split; [done|]. apply map_Forall_delete. by eapply He.
  - by apply map_Forall_insert_2.
  - eauto with dambi.
Qed.

Lemma apply_token_change_wf s tc s' :
  wf_state s -> wf_token_change tc -> apply_token_change s tc = Ok s' -> wf_state s'.
Proof.
  intros Hs Htc Hb. destruct tc; simpl in *;
    eauto using apply_balance_delta_wf, apply_approval_set_wf, apply_approval_revoke_wf.
  - run_ok. eauto with dambi.
  - run_ok; [done|]. apply wf_put_holding; [done|]. split; [done|]. simpl. int_solve.
Qed.

Lemma apply_gas_option_wf s g s' :
  wf_state s -> (forall tok amt, g = Some (tok, amt) -> u256 amt) ->
  apply_gas_option s g = Ok s' -> wf_state s'.
Proof.
  intros Hs Hg Hb. destruct g as [[tok amt]|]; simpl in Hb; [|by run_ok].
  specialize (Hg _ _ eq_refl). unfold apply_gas_paid in Hb. run_ok.
  destruct (wf_lookup _ _ _ Hs H) as [Hk Hr].
  destruct (th_balance x) eqn:Hx; simplify_eq/=.
  apply checked_sub_Some in H1 as [-> ?].
  apply wf_put_holding; [done|]. apply wf_set_balance; [by eauto with dambi|].
  int_solve.
Qed.

(** ** What a delta touches *)

(** The holdings a token change may alter. *)
Definition touches_token (k : TokenKey) (tc : TokenChange) : bool :=
  match tc with
  | BalanceDelta k' _ | Erc721ApprovedTo k' _ | Mint k' _
  | ApprovalRevoke k' _ ScopeErc721Token => bool_decide (k' = k)
  | _ => false
  end.

Lemma put_holding_ne s k k' h :
  k' <> k -> ws_tokens (put_holding s k' h) !! k = ws_tokens s !! k.
Proof. intros. simpl. by rewrite lookup_insert_ne. Qed.

Lemma apply_token_change_frame s tc s' k :
  apply_token_change s tc = Ok s' -> touches_token k tc = false ->
  ws_tokens s' !! k = ws_tokens s !! k.
Proof.
  destruct tc as [k' d|k' sp al|k' sp sc|k' sp|k' kh]; simpl;
    unfold apply_balance_delta, apply_approval_set, apply_approval_revoke; intros Hs Hk;
    run_ok; to_prop; try done; by apply put_holding_ne.
Qed.

(** ** Balances *)

(** The fungible amount held of [k]; zero when there is none. *)
Definition fungible_balance (s : WalletState) (k : TokenKey) : Z :=
  match ws_tokens s !! k with
  | Some h => default 0 (as_fungible (th_balance h))
  | None => 0
  end.

Definition inflow (k : TokenKey) (tc : TokenChange) : Z :=
  match tc with BalanceDelta k' d => if bool_decide (k' = k) then Z.max 0 d else 0 | _ => 0 end.
Definition outflow (k : TokenKey) (tc : TokenChange) : Z :=
  match tc with BalanceDelta k' d => if bool_decide (k' = k) then Z.max 0 (- d) else 0 | _ => 0 end.
Definition sum_over (f : TokenChange -> Z) (l : list TokenChange) : Z :=
  foldr (fun tc acc => f tc + acc) 0 l.
Definition gas_on (k : TokenKey) (g : option (TokenRef * U256)) : Z :=
  match g with Some (tok, amt) => if bool_decide (tr_key tok = k) then amt else 0 | None => 0 end.

Lemma fungible_balance_put s k k' h :
  fungible_balance (put_holding s k' h) k =
  if bool_decide (k' = k) then default 0 (as_fungible (th_balance h)) else fungible_balance s k.
Proof.
  unfold fungible_balance. simpl. case_bool_decide as Hk.
  - subst. by rewrite lookup_insert_eq.
  - by rewrite lookup_insert_ne.
Qed.

(** Rewriting a holding without touching its balance. *)
Lemma put_holding_same_balance s k k' h o :
  ws_tokens s !! k' = Some h ->
  fungible_balance (put_holding s k' (th_set_approved_to h o)) k = fungible_balance s k.
Proof.
  intros Hk. rewrite fungible_balance_put. case_bool_decide; [subst|done].
  unfold fungible_balance. by rewrite Hk.
Qed.

Lemma inflow_nonneg k l : 0 <= sum_over (inflow k) l.
Proof.
  induction l as [|tc l IH]; simpl; [lia|].
  assert (0 <= inflow k tc) by (destruct tc; simpl; try case_bool_decide; lia). lia.
Qed.

Lemma apply_token_change_balance s tc s' k :
  apply_token_change s tc = Ok s' -> fungible_balance s k + inflow k tc <= I256_MAX ->
  fungible_balance s' k = fungible_balance s k + inflow k tc - outflow k tc.
Proof.
  destruct tc as [k' d|k' sp al|k' sp sc|k' sp|k' kh]; simpl; intros Hs Hb.
  - unfold apply_balance_delta in Hs. run_ok. rewrite fungible_balance_put.
    case_bool_decide; simpl; [|lia]. subst k'.
    assert (fungible_balance s k = x0) as Hx by (unfold fungible_balance; by replay).
    rewrite Hx in *. to_prop. int_solve.
  - unfold apply_approval_set in Hs. run_ok; unfold fungible_balance; simpl; lia.
  - unfold apply_approval_revoke in Hs. destruct sc; run_ok;
      rewrite ?put_holding_same_balance by done; unfold fungible_balance; simpl; lia.
  - run_ok. rewrite put_holding_same_balance by done. lia.
  - run_ok; [lia|]. rewrite fungible_balance_put. case_bool_decide; subst; simpl; [|lia].
    unfold fungible_balance. replay. lia.
Qed.

Lemma apply_token_changes_balance l s s' k :
  foldM apply_token_change l s = Ok s' ->
  fungible_balance s k + sum_over (inflow k) l <= I256_MAX ->
  0 <= sum_over (outflow k) l /\
  fungible_balance s' k =
    fungible_balance s k + sum_over (inflow k) l - sum_over (outflow k) l.
Proof.
  revert s; induction l as [|tc l IH]; simpl; intros s Hs Hb.
  - inv_ok. lia.
  - inv_ok. pose proof (inflow_nonneg k l).
    assert (0 <= outflow k tc) by (destruct tc; simpl; try case_bool_decide; lia).
    pose proof (apply_token_change_balance _ _ _ k H ltac:(lia)) as Hx.
    destruct (IH x) as [? ?]; [done|lia|]. lia.
Qed.

(** The gas amount of a delta is a U256. *)
Definition gas_u256 (d : StateDelta) : Prop :=
  match sd_gas_paid d with Some (_, amt) => u256 amt | None => True end.

Lemma saturating_add_assoc x y z :
  u256 x -> u256 y -> u256 z ->
  saturating_add (saturating_add x y) z = saturating_add x (saturating_add y z).
Proof. int_solve. Qed.

Lemma merge_delta_assoc_gas a b c :
  gas_u256 a -> gas_u256 b -> gas_u256 c ->
  (ab ← merge_delta a b; merge_delta ab c) = (bc ← merge_delta b c; merge_delta a bc).
Proof.
  destruct a as [ta pa na [[ka ga]|]], b as [tb pb nb [[kb gb]|]], c as [tc pc nc [[kc gc]|]];
    unfold gas_u256, merge_delta; simpl; intros;
    repeat (case_bool_decide; simpl); rewrite ?app_assoc; try congruence.
  by rewrite saturating_add_assoc.
Qed.

Section Properties.
Context `{PositionSerde}.

Lemma position_phase_only l s s' :
  foldM apply_position_change l s = Ok s' -> exists ps, s' = ws_set_positions s ps.
Proof.
  intros Hf. eapply (foldM_inv (fun u => exists ps, u = ws_set_positions s ps) (fun _ => True) _ l s s');
    [|by apply Forall_true|exists (ws_positions s); by destruct s|exact Hf].
  intros b x b' [ps ->] _ Hb. apply apply_position_change_local in Hb as (l' & -> & _). by exists l'.
Qed.

Lemma pending_phase_only l s s' :
  foldM apply_pending_change l s = Ok s' -> exists ps, s' = ws_set_pending s ps.
Proof.
  intros Hf. eapply (foldM_inv (fun u => exists ps, u = ws_set_pending s ps) (fun _ => True) _ l s s');
    [|by apply Forall_true|exists (ws_pending s); by destruct s|exact Hf].
  intros b x b' [ps ->] _ Hb. apply apply_pending_change_local in Hb as (l' & -> & _). by exists l'.
Qed.

(** The tokens and approvals a delta leaves are those its token changes and
    its gas charge leave. *)
Lemma apply_delta_tokens s d s' :
  apply_delta s d = Ok s' ->
  exists s1 s2, foldM apply_token_change (sd_token_changes d) s = Ok s1 /\
    apply_gas_option s1 (sd_gas_paid d) = Ok s2 /\
    ws_tokens s' = ws_tokens s2 /\ ws_approvals s' = ws_approvals s2.
Proof.
  intros Hd. apply apply_delta_phases in Hd as (s1 & s2 & s3 & H1 & H2 & H3 & H4).
  apply position_phase_only in H2 as [ps ->]. apply pending_phase_only in H3 as [qs ->].
  apply apply_gas_option_local in H4 as (t & -> & H4).
  exists s1, (ws_set_tokens s1 t). auto.
Qed.

Lemma gas_option_frame s g s' k :
  apply_gas_option s g = Ok s' -> (forall tok amt, g = Some (tok, amt) -> tr_key tok <> k) ->
  ws_tokens s' !! k = ws_tokens s !! k.
Proof.
  destruct g as [[tok amt]|]; simpl; intros Hg Hk; [|by run_ok].
  unfold apply_gas_paid in Hg. run_ok. apply put_holding_ne. by eapply Hk.
Qed.

Lemma gas_option_balance s g s' k :
  apply_gas_option s g = Ok s' -> fungible_balance s' k = fungible_balance s k - gas_on k g.
Proof.
  destruct g as [[tok amt]|]; simpl; intros Hg; [|run_ok; lia].
  unfold apply_gas_paid in Hg. run_ok. rewrite fungible_balance_put.
  case_bool_decide; subst; simpl; [|lia].
  unfold fungible_balance. replay. apply checked_sub_Some in H2 as [-> _]. lia.
Qed.

Lemma fungible_balance_tokens s s' k :
  ws_tokens s = ws_tokens s' -> fungible_balance s k = fungible_balance s' k.
Proof. unfold fungible_balance. by intros ->. Qed.

(** What [apply_delta] keeps of the invariant, for the reducers' proofs. *)
Lemma apply_delta_wf s d s' :
  wf_state s -> Forall wf_token_change (sd_token_changes d) ->
  (forall tok amt, sd_gas_paid d = Some (tok, amt) -> u256 amt) ->
  apply_delta s d = Ok s' -> wf_state s'.
Proof.
  intros Hs Hd Hg Ha. apply apply_delta_tokens in Ha as (s1 & s2 & H1 & H2 & Ht & Hap).
  assert (wf_state s1) as Hs1.
  { eapply foldM_inv; [|exact Hd|exact Hs|exact H1]. eauto using apply_token_change_wf. }
  pose proof (apply_gas_option_wf _ _ _ Hs1 Hg H2) as Hs2.
  unfold wf_state. by rewrite Ht, Hap.
Qed.

(** A delta keeps the wallet well formed: holdings stay filed under their own key with
    256-bit balances, allowances stay 256-bit, and no approval map keeps an empty entry. *)
Theorem apply_delta_preserves_wf s d s' :
  wf_state s -> Forall wf_token_change (sd_token_changes d) ->
  (forall tok amt, sd_gas_paid d = Some (tok, amt) -> u256 amt) ->
  apply_delta s d = Ok s' -> wf_state s'.
Proof. apply apply_delta_wf. Qed.

Lemma apply_delta_untouched s d s' k :
  apply_delta s d = Ok s' ->
  Forall (fun tc => touches_token k tc = false) (sd_token_changes d) ->
  (forall tok amt, sd_gas_paid d = Some (tok, amt) -> tr_key tok <> k) ->
  ws_tokens s' !! k = ws_tokens s !! k.
Proof.
  intros Ha Hd Hg. apply apply_delta_tokens in Ha as (s1 & s2 & H1 & H2 & -> & _).
  rewrite (gas_option_frame _ _ _ _ H2 Hg).
  eapply (foldM_inv (fun u => ws_tokens u !! k = ws_tokens s !! k)); [|exact Hd|done|exact H1].
  intros b tc b' <- Htc Hb. by eapply apply_token_change_frame.
Qed.

(** A holding no change of the delta names, and which does not pay its gas, comes out of
    [apply_delta] exactly as it went in. *)
Theorem apply_delta_frame s d s' k :
  apply_delta s d = Ok s' ->
  Forall (fun tc => touches_token k tc = false) (sd_token_changes d) ->
  (forall tok amt, sd_gas_paid d = Some (tok, amt) -> tr_key tok <> k) ->
  ws_tokens s' !! k = ws_tokens s !! k.
Proof. apply apply_delta_untouched. Qed.

Lemma apply_delta_balance s d s' k :
  apply_delta s d = Ok s' ->
  fungible_balance s k + sum_over (inflow k) (sd_token_changes d) <= I256_MAX ->
  fungible_balance s' k =
    fungible_balance s k + sum_over (inflow k) (sd_token_changes d)
    - sum_over (outflow k) (sd_token_changes d) - gas_on k (sd_gas_paid d).
Proof.
  intros Ha Hb. apply apply_delta_tokens in Ha as (s1 & s2 & H1 & H2 & Ht & _).
  rewrite (fungible_balance_tokens s' s2 k Ht), (gas_option_balance _ _ _ k H2).
  apply apply_token_changes_balance with (k := k) in H1; lia.
Qed.

(** C4: Conservation: as long as the incoming amounts fit the signed range, the balance after
    a delta is the balance before, plus what it credits, minus what it debits, minus its gas. *)
Theorem apply_delta_conservation s d s' k :
  apply_delta s d = Ok s' ->
  fungible_balance s k + sum_over (inflow k) (sd_token_changes d) <= I256_MAX ->
  fungible_balance s' k =
    fungible_balance s k + sum_over (inflow k) (sd_token_changes d)
    - sum_over (outflow k) (sd_token_changes d) - gas_on k (sd_gas_paid d).
Proof. apply apply_delta_balance. Qed.

(** C6: [merge_delta] is sequential composition: when the first delta charges no gas, the
    merged delta takes a wallet to [s'] exactly when the two deltas in sequence do. *)
Theorem merge_delta_is_sequencing a b s s' :
  sd_gas_paid a = None ->
  (exists m, merge_delta a b = Ok m /\ apply_delta s m = Ok s') <->
  (s1 ← apply_delta s a; apply_delta s1 b) = Ok s'.
Proof. apply merge_delta_sequential. Qed.
(** Deltas form a monoid under [merge_delta]: the empty delta is neutral on both sides and
    merging is associative, refusals of incompatible gas tokens included. *)
Theorem merge_delta_monoid a b c :
  gas_u256 a -> gas_u256 b -> gas_u256 c ->
  merge_delta StateDelta_default a = Ok a /\ merge_delta a StateDelta_default = Ok a /\
  (ab ← merge_delta a b; merge_delta ab c) = (bc ← merge_delta b c; merge_delta a bc).
Proof.
  intros Ha Hb Hc. split; [|split].
  - unfold merge_delta. simpl. by destruct a as [? ? ? [[]|]].
  - unfold merge_delta. destruct a as [? ? ? [[]|]]; simpl; by rewrite !app_nil_r.
  - apply merge_delta_assoc_gas; done.
Qed.

(** With gas in the first delta the two sides differ: the merged delta charges that gas
    after the second delta's credits, so it can succeed where the sequence underflows. *)
Theorem merge_delta_defers_gas :
  exists a b m,
    merge_delta a b = Ok m /\
    apply_delta demo_wallet a =
      Err (Invariant "gas underflow on {key:?}: current {current}, gas {amount}") /\
    is_ok (apply_delta demo_wallet m) = true.
Proof.
  exists (mkStateDelta [] [] [] (Some (mkTokenRef eth_key, 5000000000000000001))),
    (mkStateDelta [BalanceDelta eth_key 1] [] [] None).
  eexists; split; [reflexivity|]. split; vm_compute; reflexivity.
Qed.
End Properties.

(** ** Witnesses *)
(** The state a demonstration run ends in. *)
Definition demo_after (s : WalletState) (d : StateDelta) : WalletState :=
  match apply_delta (H := demo_serde) s d with Ok s' => s' | _ => s end.
Lemma demo_after_ok s d :
  is_ok (apply_delta (H := demo_serde) s d) = true ->
  apply_delta (H := demo_serde) s d = Ok (demo_after s d).
Proof. unfold demo_after. by destruct (apply_delta s d). Qed.
Ltac runs_ok := apply demo_after_ok; vm_compute; reflexivity.

Lemma merge_delta_monoid_witness :
  (ab ← merge_delta demo_gas_delta demo_gas_delta; merge_delta ab demo_delta) =
  (bc ← merge_delta demo_gas_delta demo_delta; merge_delta demo_gas_delta bc).
Proof. apply merge_delta_monoid; vm_compute; split; discriminate || exact I. Defined.

(** A witness shows that the run succeeds and applies the theorem to its
    result, whatever it is. *)
Lemma apply_delta_preserves_wf_witness :
  is_ok (apply_delta (H := demo_serde) demo_wallet demo_mint_delta) = true /\
  forall s', apply_delta (H := demo_serde) demo_wallet demo_mint_delta = Ok s' -> wf_state s'.
Proof.
  split; [vm_compute; reflexivity|]. intros s' Hs'.
  apply (apply_delta_preserves_wf (H := demo_serde) demo_wallet demo_mint_delta); [| | |exact Hs'].
  - decide_now.
  - repeat constructor; vm_compute; discriminate.
  - discriminate.
Defined.

Lemma apply_delta_frame_witness :
  is_ok (apply_delta (H := demo_serde) demo_wallet demo_gas_delta) = true /\
  forall s', apply_delta (H := demo_serde) demo_wallet demo_gas_delta = Ok s' ->
    ws_tokens s' !! nft_key = ws_tokens demo_wallet !! nft_key.
Proof.
  split; [vm_compute; reflexivity|]. intros s' Hs'.
  apply (apply_delta_frame (H := demo_serde) demo_wallet demo_gas_delta); [exact Hs'| |].
  - repeat constructor.
  - intros tok amt [= <- _]. discriminate.
Defined.

Lemma apply_delta_conservation_witness :
  is_ok (apply_delta (H := demo_serde) demo_wallet demo_gas_delta) = true /\
  forall s', apply_delta (H := demo_serde) demo_wallet demo_gas_delta = Ok s' ->
    fungible_balance s' usdc_key = 500000000 /\
    fungible_balance s' eth_key = 4999000000000000000.
Proof.
  split; [vm_compute; reflexivity|]. intros s' Hs'. split.
  - rewrite (apply_delta_conservation (H := demo_serde) _ _ _ usdc_key Hs');
      vm_compute; [reflexivity|discriminate].
  - rewrite (apply_delta_conservation (H := demo_serde) _ _ _ eth_key Hs');
      vm_compute; [reflexivity|discriminate].
Defined.

Lemma merge_delta_is_sequencing_witness :
  is_ok (s1 ← apply_delta (H := demo_serde) demo_wallet demo_delta;
         apply_delta (H := demo_serde) s1 demo_gas_delta) = true /\
  forall s', (s1 ← apply_delta (H := demo_serde) demo_wallet demo_delta;
              apply_delta (H := demo_serde) s1 demo_gas_delta) = Ok s' ->
    exists m, merge_delta demo_delta demo_gas_delta = Ok m /\
      apply_delta (H := demo_serde) demo_wallet m = Ok s'.
Proof.
  split; [vm_compute; reflexivity|]. intros s' Hs'.
  apply (merge_delta_is_sequencing (H := demo_serde)); [reflexivity|exact Hs'].
Defined.
