(* ===== verification/BalanceOps.v ===== *)
(** * Balance primitives

    crates/asset-model/transition/src/helpers/balance.rs: [debit], [credit],
    [transfer] and [transfer_nft], the only way reducers move balances. Each
    reads the wallet and the delta accumulated so far and pushes one
    [BalanceDelta]. The theorems tie them to [apply_delta]: a debit is accepted
    exactly when the wallet advanced by the delta so far can pay it, and the
    longer delta still applies. *)
From stdpp Require Import base tactics numbers list strings gmap.
From S2P Require Import Prelude Types Positions Wallet Serde Fixtures Delta.

(** ** Operations *)

(** One step of the accumulation loop of [effective_signed_balance]. *)
Definition accumulate (key : TokenKey) (acc : Z) (tc : TokenChange) : Z :=
  match tc with
  | BalanceDelta k d => if bool_decide (k = key) then i256_saturating_add acc d else acc
  | _ => acc
  end.

(** [effective_signed_balance] *)
Definition effective_signed_balance (state : WalletState) (delta : StateDelta) (key : TokenKey)
    : ReducerResult SignedI256 :=
  holding ← ok_or (TokenNotFound key) (ws_tokens state !! key);
  base ← ok_or (Invariant "expected fungible balance for {key:?}, found non-fungible (Owned)")
           (as_fungible (th_balance holding));
  Ok (foldl (accumulate key) (u256_to_signed_saturating base) (sd_token_changes delta)).

(** [debit] *)
Definition debit (state : WalletState) (delta : StateDelta) (key : TokenKey) (amount : U256)
    : ReducerResult StateDelta :=
  effective ← effective_signed_balance state delta key;
  let amount_signed := u256_to_signed_saturating amount in
  if effective <? amount_signed then
    Err (Invariant "balance underflow for {key:?}: effective {effective}, debit {amount}")
  else Ok (push_token delta (BalanceDelta key (- amount_signed))).

(** [credit] *)
Definition credit (state : WalletState) (delta : StateDelta) (key : TokenKey) (amount : U256)
    : ReducerResult StateDelta :=
  holding ← ok_or (TokenNotFound key) (ws_tokens state !! key);
  match th_balance holding with
  | Owned =>
      Err (Invariant "expected fungible balance for {key:?}, found non-fungible (Owned)")
  | Fungible _ =>
      Ok (push_token delta (BalanceDelta key (u256_to_signed_saturating amount)))
  end.

(** [transfer]; the recipient is not recorded. *)
Definition transfer (state : WalletState) (delta : StateDelta) (key : TokenKey)
    (recipient : Address) (amount : U256) : ReducerResult StateDelta :=
  debit state delta key amount.

(** [transfer_nft] *)
Definition transfer_nft (state : WalletState) (delta : StateDelta) (key : TokenKey)
    (recipient : Address) (amount : option U256) : ReducerResult StateDelta :=
  match key with
  | Erc1155 _ _ _ =>
      amt ← ok_or (Invariant "transfer_nft on ERC1155 {key:?} requires an explicit amount") amount;
      debit state delta key amt
  | Erc721 _ _ _ =>
      _ ← ok_or (TokenNotFound key) (ws_tokens state !! key);
      Ok (push_token delta (BalanceDelta key (- 1)))
  | Native _ | Erc20 _ _ =>
      Err (Invariant "transfer_nft requires Erc721 or Erc1155 key, got {key:?}")
  end.

(** ** Lemmas *)

(** The signed balance of a holding, as [apply_balance_delta] reads it. *)
Definition signed_balance (s : WalletState) (k : TokenKey) : option Z :=
  h ← ws_tokens s !! k; b ← as_fungible (th_balance h); Some (u256_to_signed_saturating b).

Lemma effective_signed_balance_Ok s d k e :
  effective_signed_balance s d k = Ok e <->
  exists b, signed_balance s k = Some b /\ e = foldl (accumulate k) b (sd_token_changes d).
Proof.
  unfold effective_signed_balance, signed_balance.
  destruct (ws_tokens s !! k) as [h|]; simpl; [|naive_solver].
  destruct (as_fungible (th_balance h)); simpl; naive_solver.
Qed.

Lemma signed_balance_ne s k k' h :
  k' <> k -> signed_balance (put_holding s k' h) k = signed_balance s k.
Proof. intros. unfold signed_balance. by rewrite put_holding_ne. Qed.

Lemma signed_balance_eq s k h :
  signed_balance (put_holding s k h) k =
  u256_to_signed_saturating <$> as_fungible (th_balance h).
Proof.
  unfold signed_balance. simpl. rewrite lookup_insert_eq. simpl.
  by destruct (as_fungible (th_balance h)).
Qed.

Lemma signed_after_delta c d :
  0 <= i256_saturating_add c d ->
  u256_to_signed_saturating (signed_to_u256_saturating (i256_saturating_add c d)) =
  i256_saturating_add c d.
Proof. int_solve. Qed.

(** A successful token change moves the signed balance as the accumulation
    loop does. *)
Lemma apply_token_change_signed s tc s' k b :
  apply_token_change s tc = Ok s' -> signed_balance s k = Some b ->
  signed_balance s' k = Some (accumulate k b tc).
Proof.
  intros Hs Hb. destruct tc as [k' d|k' sp al|k' sp sc|k' sp|k' kh]; simpl in *.
  - unfold apply_balance_delta in Hs. run_ok. case_bool_decide as Hk.
    + subst k'. rewrite signed_balance_eq. simpl. to_prop.
      rewrite signed_after_delta by done.
      unfold signed_balance in Hb. rewrite H in Hb; simpl in Hb. rewrite H0 in Hb; simpl in Hb.
      by simplify_eq.
    + by rewrite signed_balance_ne.
  - unfold apply_approval_set in Hs. run_ok; done.
  - unfold apply_approval_revoke in Hs. destruct sc; run_ok; try done.
    destruct (decide (k' = k)) as [->|]; [|by rewrite signed_balance_ne].
    rewrite signed_balance_eq. unfold signed_balance in Hb. rewrite H in Hb. simpl in *.
    by destruct (as_fungible (th_balance x)).
  - run_ok. destruct (decide (k' = k)) as [->|]; [|by rewrite signed_balance_ne].
    rewrite signed_balance_eq. unfold signed_balance in Hb. rewrite H in Hb. simpl in *.
    by destruct (as_fungible (th_balance x)).
  - run_ok; [done|]. rewrite signed_balance_ne; [done|].
    intros ->. unfold signed_balance in Hb. by rewrite Heqo in Hb.
Qed.

Lemma apply_token_changes_signed l s s' k b :
  foldM apply_token_change l s = Ok s' -> signed_balance s k = Some b ->
  signed_balance s' k = Some (foldl (accumulate k) b l).
Proof.
  revert s b; induction l as [|tc l IH]; simpl; intros s b Hs Hb; inv_ok; [done|].
  eauto using apply_token_change_signed.
Qed.

Lemma signed_balance_tokens s s' k :
  ws_tokens s = ws_tokens s' -> signed_balance s k = signed_balance s' k.
Proof. unfold signed_balance. by intros ->. Qed.

Section Sound.
Context `{PositionSerde}.

Lemma effective_is_applied s d s1 k e :
  sd_gas_paid d = None -> apply_delta s d = Ok s1 ->
  effective_signed_balance s d k = Ok e -> signed_balance s1 k = Some e.
Proof.
  intros Hg Ha He. apply effective_signed_balance_Ok in He as (b & Hb & ->).
  apply apply_delta_tokens in Ha as (t1 & t2 & H1 & H2 & Ht & _).
  rewrite Hg in H2. injection H2 as ->.
  rewrite (signed_balance_tokens s1 t2 k Ht). by eapply apply_token_changes_signed.
Qed.

Lemma apply_balance_delta_signed s k d c :
  signed_balance s k = Some c -> 0 <= i256_saturating_add c d ->
  exists s', apply_balance_delta s k d = Ok s' /\
    fungible_balance s' k = i256_saturating_add c d /\
    forall k', k' <> k -> ws_tokens s' !! k' = ws_tokens s !! k'.
Proof.
  unfold signed_balance, apply_balance_delta. intros Hc Hd.
  destruct (ws_tokens s !! k) as [h|] eqn:Hk; [|done]. simpl in *.
  destruct (as_fungible (th_balance h)) as [b|] eqn:Hb; [|done]. simpl in *. simplify_eq.
  rewrite (proj2 (Z.ltb_ge _ _) Hd). eexists; split; [done|]. split.
  - rewrite fungible_balance_put, bool_decide_true by done. simpl. by apply signed_to_u256_nonneg.
  - intros k' ?. by apply put_holding_ne.
Qed.

Lemma debit_Ok s d k amt d' :
  debit s d k amt = Ok d' <->
  exists e, effective_signed_balance s d k = Ok e /\ u256_to_signed_saturating amt <= e /\
    d' = push_token d (BalanceDelta k (- u256_to_signed_saturating amt)).
Proof.
  unfold debit. split.
  - intros Hd. run_ok. to_prop. eauto.
  - intros (e & -> & Hle & ->). simpl. by rewrite (proj2 (Z.ltb_ge _ _) Hle).
Qed.

Lemma credit_Ok s d k amt d' :
  credit s d k amt = Ok d' <->
  (exists b, signed_balance s k = Some b) /\
  d' = push_token d (BalanceDelta k (u256_to_signed_saturating amt)).
Proof.
  unfold credit, signed_balance. destruct (ws_tokens s !! k) as [h|]; simpl; [|naive_solver].
  destruct (th_balance h); simpl; naive_solver.
Qed.

Lemma effective_exists_iff s d k b :
  signed_balance s k = Some b ->
  effective_signed_balance s d k = Ok (foldl (accumulate k) b (sd_token_changes d)).
Proof. intros Hb. apply effective_signed_balance_Ok. eauto. Qed.

Lemma debit_gas s d k amt d' : debit s d k amt = Ok d' -> sd_gas_paid d' = sd_gas_paid d.
Proof. rewrite debit_Ok. by intros (e & _ & _ & ->). Qed.
Lemma credit_gas s d k amt d' : credit s d k amt = Ok d' -> sd_gas_paid d' = sd_gas_paid d.
Proof. rewrite credit_Ok. by intros (_ & ->). Qed.

(** A debit that was accepted can be applied, and takes exactly its amount. *)
Lemma debit_applies s d k amt d' s1 :
  sd_gas_paid d = None -> u256 amt -> apply_delta s d = Ok s1 -> debit s d k amt = Ok d' ->
  exists s2, apply_delta s d' = Ok s2 /\
    signed_balance s1 k = Some (fungible_balance s2 k + u256_to_signed_saturating amt) /\
    0 <= fungible_balance s2 k /\
    forall k', k' <> k -> ws_tokens s2 !! k' = ws_tokens s1 !! k'.
Proof.
  intros Hg Hamt Ha Hd. apply debit_Ok in Hd as (e & He & Hle & ->).
  pose proof (effective_is_applied _ _ _ _ _ Hg Ha He) as Hs.
  assert (e <= I256_MAX).
  { unfold signed_balance in Hs. destruct (ws_tokens s1 !! k); [|done]. simpl in Hs.
    destruct (as_fungible (th_balance t)); [|done]. simpl in Hs. simplify_eq. int_solve. }
  pose proof (u256_to_signed_range amt ltac:(destruct Hamt; lia)).
  assert (i256_saturating_add e (- u256_to_signed_saturating amt)
          = e - u256_to_signed_saturating amt) as Hx.
  { rewrite i256_saturating_add_exact; [lia|]. pose proof int_bounds. lia. }
  destruct (apply_balance_delta_signed s1 k (- u256_to_signed_saturating amt) e Hs)
    as (s2 & H2 & Hb & Hf); [lia|].
  exists s2. rewrite apply_delta_push_token by done. split; [by eauto|].
  rewrite Hb, Hx. split; [rewrite Hs; f_equal; lia|]. split; [lia|done].
Qed.
End Sound.

Section Properties.
Context `{PositionSerde}.

(** A credit on a held fungible token always applies; past the signed range
    the balance saturates. *)
Lemma credit_applies s d k amt d' s1 b :
  sd_gas_paid d = None -> apply_delta s d = Ok s1 -> signed_balance s1 k = Some b -> 0 <= b ->
  0 <= amt -> credit s d k amt = Ok d' ->
  exists s2, apply_delta s d' = Ok s2 /\
    fungible_balance s2 k = i256_saturating_add b (u256_to_signed_saturating amt) /\
    forall k', k' <> k -> ws_tokens s2 !! k' = ws_tokens s1 !! k'.
Proof.
  intros Hg Ha Hs Hb0 Hamt Hc. apply credit_Ok in Hc as [_ ->].
  destruct (apply_balance_delta_signed s1 k (u256_to_signed_saturating amt) _ Hs)
    as (s2 & H2 & Hb2 & Hf); [int_solve|].
  exists s2. rewrite apply_delta_push_token by done. eauto.
Qed.

Lemma wf_fungible s k : wf_state s -> 0 <= fungible_balance s k.
Proof.
  unfold fungible_balance. intros [Hw _]. destruct (ws_tokens s !! k) as [h|] eqn:Hk; [|done].
  specialize (Hw k h Hk) as [_ Hu]. simpl. destruct (th_balance h); simpl; [|done]. by destruct Hu.
Qed.

Lemma wf_signed s k b : wf_state s -> signed_balance s k = Some b -> 0 <= b.
Proof.
  unfold signed_balance. intros [Hw _] Hb. destruct (ws_tokens s !! k) as [h|] eqn:Hk; [|done].
  specialize (Hw k h Hk) as [_ Hu]. simpl in Hb.
  destruct (th_balance h); simpl in Hb; [|done]. simplify_eq.
  destruct Hu. apply u256_to_signed_range; lia.
Qed.

Lemma signed_fungible s k b :
  signed_balance s k = Some b -> fungible_balance s k <= I256_MAX -> b = fungible_balance s k.
Proof.
  unfold signed_balance, fungible_balance. destruct (ws_tokens s !! k) as [h|]; [|done].
  simpl. destruct (as_fungible (th_balance h)); simpl; [|done].
  intros [= <-] ?. by apply u256_to_signed_small.
Qed.

Lemma fungible_balance_lookup s s' k :
  ws_tokens s !! k = ws_tokens s' !! k -> fungible_balance s k = fungible_balance s' k.
Proof. unfold fungible_balance. by intros ->. Qed.

(** A balance change writes the holdings and nothing else. *)
Lemma balance_change_frame s d s1 k x s2 :
  sd_gas_paid d = None -> apply_delta s d = Ok s1 ->
  apply_delta s (push_token d (BalanceDelta k x)) = Ok s2 ->
  s2 = ws_set_tokens s1 (ws_tokens s2).
Proof.
  intros Hg Ha H2. apply apply_delta_push_token in H2 as (u & Hu & H2); [|done].
  rewrite Ha in Hu. simplify_eq. simpl in H2. unfold apply_balance_delta in H2. run_ok. done.
Qed.

(** So a debit followed by a credit keeps the approvals, the positions and the rest. *)
Lemma exchange_frame s d s1 kin kout ain aout d1 d2 s2 :
  sd_gas_paid d = None -> apply_delta s d = Ok s1 ->
  debit s d kin ain = Ok d1 -> credit s d1 kout aout = Ok d2 ->
  apply_delta s d2 = Ok s2 -> s2 = ws_set_tokens s1 (ws_tokens s2).
Proof.
  intros Hg Ha Hd Hc H2. pose proof (debit_gas _ _ _ _ _ Hd) as Hg1. rewrite Hg in Hg1.
  apply debit_Ok in Hd as (e & _ & _ & ->). apply credit_Ok in Hc as [_ ->].
  pose proof H2 as (u & Hu & _)%apply_delta_push_token; [|done].
  rewrite (balance_change_frame _ _ _ _ _ _ Hg1 Hu H2).
  by rewrite (balance_change_frame _ _ _ _ _ _ Hg Ha Hu).
Qed.

(** A debit of one token followed by the credit of another. *)
Lemma exchange_applies s d s1 kin kout ain aout d1 d2 :
  sd_gas_paid d = None -> apply_delta s d = Ok s1 -> kin <> kout ->
  0 <= ain <= I256_MAX -> fungible_balance s1 kin <= I256_MAX ->
  0 <= aout -> 0 <= fungible_balance s1 kout -> fungible_balance s1 kout + aout <= I256_MAX ->
  debit s d kin ain = Ok d1 -> credit s d1 kout aout = Ok d2 ->
  exists s2, apply_delta s d2 = Ok s2 /\
    fungible_balance s2 kin = fungible_balance s1 kin - ain /\
    fungible_balance s2 kout = fungible_balance s1 kout + aout /\
    forall k, k <> kin -> k <> kout -> ws_tokens s2 !! k = ws_tokens s1 !! k.
Proof.
  intros Hg Ha Hne Hain Hle Haout Hpos Hsum Hd Hc.
  destruct (debit_applies _ _ _ _ _ _ Hg (u256_of_signed _ Hain) Ha Hd) as (s2 & H2 & Hs & _ & Hf).
  pose proof (signed_fungible _ _ _ Hs Hle) as Hin. rewrite u256_to_signed_small in Hin by lia.
  pose proof (debit_gas _ _ _ _ _ Hd) as Hg1. rewrite Hg in Hg1.
  pose proof (Hf kout ltac:(done)) as Hkout. apply fungible_balance_lookup in Hkout as Hfb.
  pose proof Hc as [[b Hb] _]%credit_Ok.
  pose proof (effective_is_applied _ _ _ _ _ Hg1 H2 (effective_exists_iff s d1 kout b Hb)) as Hsb.
  pose proof (signed_fungible _ _ _ Hsb ltac:(lia)) as Hb2. rewrite Hb2, Hfb in Hsb.
  destruct (credit_applies _ _ _ _ _ _ _ Hg1 H2 Hsb Hpos Haout Hc) as (s3 & H3 & Hout & Hf3).
  exists s3. split; [done|]. split; [|split].
  - rewrite (fungible_balance_lookup s3 s2 kin) by auto. lia.
  - rewrite Hout, u256_to_signed_small by lia. apply i256_saturating_add_exact.
    pose proof int_bounds. lia.
  - intros k ? ?. by rewrite Hf3, Hf.
Qed.

Lemma effective_needs_balance s d k e :
  effective_signed_balance s d k = Ok e -> is_Some (signed_balance s k).
Proof. intros (b & Hb & _)%effective_signed_balance_Ok. eauto. Qed.

(** C3: [debit] is exact. Take a delta without gas that leads from one wallet to an advanced
    one. A debit on top of it is accepted if and only if the key is a fungible holding of the
    first wallet and the advanced balance covers the amount; a key the first wallet does not
    list is refused as not found, even if the delta adds it. The delta of an accepted debit
    applies, lowers the advanced balance by the amount and leaves every other holding alone. *)
Theorem debit_exact s d s1 k amt :
  sd_gas_paid d = None -> apply_delta s d = Ok s1 ->
  0 <= amt <= I256_MAX -> fungible_balance s1 k <= I256_MAX ->
  ((exists d', debit s d k amt = Ok d') <-> is_Some (signed_balance s k) /\ amt <= fungible_balance s1 k) /\
  (ws_tokens s !! k = None -> debit s d k amt = Err (TokenNotFound k)) /\
  (forall d', debit s d k amt = Ok d' ->
    exists s2, apply_delta s d' = Ok s2 /\
      fungible_balance s2 k = fungible_balance s1 k - amt /\
      forall k', k' <> k -> ws_tokens s2 !! k' = ws_tokens s1 !! k').
Proof.
  intros Hg Ha Hamt Hle. pose proof (u256_to_signed_small amt ltac:(lia)) as Hsmall.
  assert (forall b, signed_balance s k = Some b -> exists e, effective_signed_balance s d k = Ok e /\
    signed_balance s1 k = Some e /\ fungible_balance s1 k = e) as Heff.
  { intros b Hb. pose proof (effective_exists_iff s d k b Hb) as He.
    pose proof (effective_is_applied _ _ _ _ _ Hg Ha He) as Hs.
    pose proof (signed_fungible _ _ _ Hs Hle) as Hfb. eauto. }
  split_and!.
  - split.
    + intros [d' Hd]. apply debit_Ok in Hd as (e & He' & Hle' & _).
      destruct (signed_balance s k) as [b|] eqn:Hb; [|by apply effective_needs_balance in He'; rewrite Hb in He'; destruct He'].
      destruct (Heff b eq_refl) as (e' & He & _ & Hfb). split; [by eexists|]. rewrite He in He'. simplify_eq. lia.
    + intros [[b Hb] Hc]. destruct (Heff b Hb) as (e & He & _ & Hfb).
      eexists. apply debit_Ok. eexists; split; [exact He|]. split; [lia|done].
  - intros Hn. unfold debit, effective_signed_balance. by rewrite Hn.
  - intros d' Hd. destruct (debit_applies _ _ _ _ _ _ Hg (u256_of_signed _ Hamt) Ha Hd)
      as (s2 & H2 & Hs1 & _ & Hf).
    exists s2. split; [done|]. split; [|done]. apply debit_Ok in Hd as (e' & He' & _).
    destruct (effective_needs_balance _ _ _ _ He') as [b Hb]. destruct (Heff b Hb) as (e & He & Hsb & Hfb).
    rewrite Hsb in Hs1. simplify_eq. lia.
Qed.

(** [credit] is exact as long as the sum stays in the signed range: the delta it returns
    applies, raises the balance by the amount and leaves every other holding alone. *)
Theorem credit_exact s d s1 k amt d' :
  sd_gas_paid d = None -> apply_delta s d = Ok s1 -> 0 <= amt -> 0 <= fungible_balance s1 k ->
  fungible_balance s1 k + amt <= I256_MAX -> credit s d k amt = Ok d' ->
  exists s2, apply_delta s d' = Ok s2 /\
    fungible_balance s2 k = fungible_balance s1 k + amt /\
    forall k', k' <> k -> ws_tokens s2 !! k' = ws_tokens s1 !! k'.
Proof.
  intros Hg Ha Hamt Hpos Hle Hc. pose proof Hc as [[b Hb] _]%credit_Ok.
  pose proof (effective_is_applied _ _ _ _ _ Hg Ha (effective_exists_iff s d k b Hb)) as Hs.
  pose proof (signed_fungible _ _ _ Hs ltac:(lia)) as Hfb. rewrite Hfb in Hs.
  destruct (credit_applies _ _ _ _ _ _ _ Hg Ha Hs Hpos Hamt Hc) as (s2 & H2 & Hb2 & Hf).
  exists s2. split; [done|]. split; [|done]. rewrite Hb2, u256_to_signed_small by lia.
  apply i256_saturating_add_exact. pose proof int_bounds. lia.
Qed.

(** The delta of an ERC-721 transfer never applies: [transfer_nft] accepts the transfer of
    an owned NFT, and [apply_delta] refuses the balance change it emits. *)
Theorem transfer_nft_never_applies s key recipient amount h :
  key_is_nft key = true -> ws_tokens s !! key = Some h -> th_balance h = Owned ->
  exists d, transfer_nft s StateDelta_default key recipient amount = Ok d /\
    apply_delta s d = Err (Invariant "BalanceDelta on non-fungible holding {key:?}").
Proof.
  intros Hn Hk Hb. destruct key; try done. simpl. rewrite Hk. simpl.
  eexists; split; [done|]. unfold apply_delta. simpl. unfold apply_balance_delta.
  rewrite Hk. simpl. by rewrite Hb.
Qed.
End Properties.

(** ** Witnesses *)
Lemma debit_exact_witness :
  let s1 := demo_after demo_wallet demo_delta in
  (exists d', debit demo_wallet demo_delta usdc_key 100 = Ok d') <->
  is_Some (signed_balance demo_wallet usdc_key) /\ 100 <= fungible_balance s1 usdc_key.
Proof.
  apply (debit_exact (H := demo_serde) demo_wallet demo_delta
           (demo_after demo_wallet demo_delta) usdc_key 100);
    [reflexivity|runs_ok|vm_compute; split; discriminate|vm_compute; discriminate].
Defined.

Lemma credit_exact_witness :
  exists d' s2, credit demo_wallet demo_delta eth_key 100 = Ok d' /\
    apply_delta (H := demo_serde) demo_wallet d' = Ok s2 /\
    fungible_balance s2 eth_key = 5000000000000000100.
Proof.
  eexists. destruct (credit_exact (H := demo_serde) demo_wallet demo_delta
    (demo_after demo_wallet demo_delta) eth_key 100
    (push_token demo_delta (BalanceDelta eth_key 100))) as (s2 & H2 & Hb & _);
    [reflexivity|runs_ok|lia|vm_compute; discriminate|vm_compute; discriminate
    |vm_compute; reflexivity|].
  exists s2. split; [|split; [exact H2|rewrite Hb]]; vm_compute; reflexivity.
Defined.

Lemma transfer_nft_never_applies_witness :
  exists d, transfer_nft demo_wallet StateDelta_default nft_key demo_spender None = Ok d /\
    apply_delta (H := demo_serde) demo_wallet d =
      Err (Invariant "BalanceDelta on non-fungible holding {key:?}").
Proof.
  apply (transfer_nft_never_applies (H := demo_serde) demo_wallet nft_key demo_spender None
           (demo_holding nft_key "NFT" 0 Owned)); vm_compute; reflexivity.
Defined.
