(* ===== verification/ApprovalOps.v ===== *)
(** * Approval primitives

    crates/asset-model/transition/src/helpers/approval.rs: each helper checks
    the token standard and pushes one approval change. The theorems say what
    the lookups of [ApprovalSet] return once the delta is applied. *)
From stdpp Require Import base tactics numbers list strings gmap.
From S2P Require Import Prelude Types Positions Wallet Serde Fixtures Delta BalanceOps.

(** ** Operations *)

(** [set_erc20_allowance] *)
Definition set_erc20_allowance (state : WalletState) (delta : StateDelta) (set_at : Time)
    (token : TokenRef) (spender : Address) (amount : U256) : ReducerResult StateDelta :=
  if negb (key_is_erc20 (tr_key token)) then
    Err (Invariant "set_erc20_allowance on non-Erc20 token")
  else
    let allowance := if amount =? U256_MAX then AllowanceSpec_unlimited set_at
                     else AllowanceSpec_new amount set_at in
    Ok (push_token delta (TcApprovalSet (tr_key token) spender allowance)).

(** [revoke_erc20_allowance] *)
Definition revoke_erc20_allowance (state : WalletState) (delta : StateDelta)
    (token : TokenRef) (spender : Address) : ReducerResult StateDelta :=
  if negb (key_is_erc20 (tr_key token)) then
    Err (Invariant "revoke_erc20_allowance on non-Erc20 token")
  else Ok (push_token delta (ApprovalRevoke (tr_key token) spender ScopeErc20)).

(** [set_for_all] *)
Definition set_for_all (state : WalletState) (delta : StateDelta) (set_at : Time)
    (chain : ChainId) (contract spender : Address) (approved : bool)
    : ReducerResult StateDelta :=
  let placeholder_key := Erc721 chain contract 0 in
  Ok (push_token delta
        (if approved
         then TcApprovalSet placeholder_key spender (AllowanceSpec_unlimited set_at)
         else ApprovalRevoke placeholder_key spender ScopeSetForAll)).

(** [set_nft_approve] *)
Definition set_nft_approve (state : WalletState) (delta : StateDelta) (set_at : Time)
    (nft_key : TokenKey) (spender : Address) : ReducerResult StateDelta :=
  if negb (key_is_nft nft_key) then
    Err (Invariant "set_nft_approve requires TokenKey::Erc721")
  else
    let mapped := if spender =? 0 then None else Some spender in
    Ok (push_token delta (Erc721ApprovedTo nft_key mapped)).

(** [revoke_permit2_allowance] *)
Definition revoke_permit2_allowance (state : WalletState) (delta : StateDelta)
    (token : TokenRef) (spender : Address) : ReducerResult StateDelta :=
  if negb (key_is_erc20 (tr_key token)) then
    Err (Invariant "revoke_permit2_allowance on non-Erc20 token")
  else Ok (push_token delta (ApprovalRevoke (tr_key token) spender ScopePermit2)).

(** [upsert_permit2_allowance] *)
Definition upsert_permit2_allowance (state : WalletState) (delta : StateDelta)
    (token : TokenRef) (spender : Spender) (amount : U256) (expires_at : Time)
    : ReducerResult StateDelta :=
  if negb (key_is_erc20 (tr_key token)) then
    Err (Invariant "upsert_permit2_allowance on non-Erc20 token")
  else
    Ok (push_token delta
          (TcApprovalSet (tr_key token) spender
             (mkAllowanceSpec amount (amount =? U256_MAX) expires_at))).

(** ** What the lookups return after a change *)

(** The approval state as its lookups see it. *)
Record ApprovalView := mkApprovalView {
  view_erc20 : ContractAddrKey -> Spender -> option AllowanceSpec;
  view_for_all : ContractAddrKey -> Spender -> bool;
  view_permit2 : SpenderKey -> option Permit2Allowance;
}.
Definition view_of (s : WalletState) : ApprovalView :=
  mkApprovalView (allowance (ws_approvals s)) (has_set_for_all (ws_approvals s))
    (permit2_of (ws_approvals s)).

(** Two wallets whose approvals answer every lookup alike. *)
Definition same_view (v w : ApprovalView) : Prop :=
  (forall k sp, view_erc20 v k sp = view_erc20 w k sp) /\
  (forall k sp, view_for_all v k sp = view_for_all w k sp) /\
  (forall k, view_permit2 v k = view_permit2 w k).

#[global] Instance same_view_equiv : Equivalence same_view.
Proof.
  split.
  - intros v. by repeat split.
  - intros v w (? & ? & ?). by repeat split.
  - intros u v w (H1 & H2 & H3) (H4 & H5 & H6).
    repeat split; intros; by rewrite ?H1, ?H2, ?H3, ?H4, ?H5, ?H6.
Qed.

(** The abstract effect of an approval change on the lookups. *)
Definition view_set_erc20 (v : ApprovalView) (k : ContractAddrKey) (sp : Spender)
    (o : option AllowanceSpec) : ApprovalView :=
  mkApprovalView
    (fun k' sp' => if bool_decide (k' = k /\ sp' = sp) then o else view_erc20 v k' sp')
    (view_for_all v) (view_permit2 v).
Definition view_set_for_all (v : ApprovalView) (k : ContractAddrKey) (sp : Spender) (b : bool)
    : ApprovalView :=
  mkApprovalView (view_erc20 v)
    (fun k' sp' => if bool_decide (k' = k /\ sp' = sp) then b else view_for_all v k' sp')
    (view_permit2 v).
Definition view_drop_permit2 (v : ApprovalView) (k : SpenderKey) : ApprovalView :=
  mkApprovalView (view_erc20 v) (view_for_all v)
    (fun k' => if bool_decide (k' = k) then None else view_permit2 v k').

#[global] Instance view_set_erc20_proper :
  Proper (same_view ==> (=) ==> (=) ==> (=) ==> same_view) view_set_erc20.
Proof.
  intros v w (He & Hf & Hp) k _ <- sp _ <- o _ <-.
  repeat split; intros; simpl; [case_bool_decide; [done|apply He]|apply Hf|apply Hp].
Qed.
#[global] Instance view_set_for_all_proper :
  Proper (same_view ==> (=) ==> (=) ==> (=) ==> same_view) view_set_for_all.
Proof.
  intros v w (He & Hf & Hp) k _ <- sp _ <- o _ <-.
  repeat split; intros; simpl; [apply He|case_bool_decide; [done|apply Hf]|apply Hp].
Qed.

Lemma allowance_insert ap k sp al k' sp' :
  allowance (mkApprovalSet (<[k := <[sp := al]> (default ∅ (ap_erc20 ap !! k))]> (ap_erc20 ap))
    (ap_set_for_all ap) (ap_permit2 ap)) k' sp' =
  if bool_decide (k' = k /\ sp' = sp) then Some al else allowance ap k' sp'.
Proof.
  unfold allowance. simpl. destruct (decide (k' = k)) as [->|Hk].
  - rewrite lookup_insert_eq. simpl. destruct (decide (sp' = sp)) as [->|Hs].
    + by rewrite bool_decide_true, lookup_insert_eq.
    + rewrite bool_decide_false, lookup_insert_ne by naive_solver.
      by destruct (ap_erc20 ap !! k).
  - by rewrite bool_decide_false, lookup_insert_ne by naive_solver.
Qed.

Lemma allowance_remove ap k sp m k' sp' :
  ap_erc20 ap !! k = Some m ->
  allowance (mkApprovalSet
    (if bool_decide (delete sp m = ∅) then delete k (ap_erc20 ap)
     else <[k := delete sp m]> (ap_erc20 ap)) (ap_set_for_all ap) (ap_permit2 ap)) k' sp' =
  if bool_decide (k' = k /\ sp' = sp) then None else allowance ap k' sp'.
Proof.
  intros Hm. unfold allowance. simpl. destruct (decide (k' = k)) as [->|Hk].
  - assert ((if bool_decide (delete sp m = ∅) then delete k (ap_erc20 ap)
       else <[k := delete sp m]> (ap_erc20 ap)) !! k ≫= (fun m => m !! sp') = delete sp m !! sp')
      as ->.
    { case_bool_decide as Hd; [|by rewrite lookup_insert_eq].
      rewrite lookup_delete_eq, Hd. by rewrite lookup_empty. }
    rewrite Hm. simpl. destruct (decide (sp' = sp)) as [->|Hs].
    + by rewrite bool_decide_true, lookup_delete_eq.
    + by rewrite bool_decide_false, lookup_delete_ne by naive_solver.
  - rewrite (bool_decide_false (k' = k /\ _)) by naive_solver.
    case_bool_decide; [by rewrite lookup_delete_ne|by rewrite lookup_insert_ne].
Qed.

Lemma has_set_for_all_insert ap k sp k' sp' :
  has_set_for_all (mkApprovalSet (ap_erc20 ap)
    (<[k := {[sp]} ∪ default ∅ (ap_set_for_all ap !! k)]> (ap_set_for_all ap))
    (ap_permit2 ap)) k' sp' =
  if bool_decide (k' = k /\ sp' = sp) then true else has_set_for_all ap k' sp'.
Proof.
  unfold has_set_for_all. simpl. destruct (decide (k' = k)) as [->|Hk].
  - rewrite lookup_insert_eq. destruct (decide (sp' = sp)) as [->|Hs].
    + rewrite bool_decide_true by set_solver. by rewrite bool_decide_true.
    + rewrite (bool_decide_false (k = k /\ _)) by naive_solver.
      destruct (ap_set_for_all ap !! k); simpl.
      * apply bool_decide_ext. rewrite elem_of_union, elem_of_singleton. naive_solver.
      * apply bool_decide_false. rewrite elem_of_union, elem_of_singleton, elem_of_empty.
        naive_solver.
  - by rewrite bool_decide_false, lookup_insert_ne by naive_solver.
Qed.

Lemma has_set_for_all_remove ap k sp m k' sp' :
  ap_set_for_all ap !! k = Some m ->
  has_set_for_all (mkApprovalSet (ap_erc20 ap)
    (if bool_decide (m ∖ {[sp]} = ∅) then delete k (ap_set_for_all ap)
     else <[k := m ∖ {[sp]}]> (ap_set_for_all ap)) (ap_permit2 ap)) k' sp' =
  if bool_decide (k' = k /\ sp' = sp) then false else has_set_for_all ap k' sp'.
Proof.
  intros Hm. unfold has_set_for_all. simpl. destruct (decide (k' = k)) as [->|Hk].
  - rewrite Hm.
    assert (match (if bool_decide (m ∖ {[sp]} = ∅) then delete k (ap_set_for_all ap)
       else <[k := m ∖ {[sp]}]> (ap_set_for_all ap)) !! k with
      | Some s => bool_decide (sp' ∈ s) | None => false end
      = bool_decide (sp' ∈ m ∖ {[sp]})) as ->.
    { case_bool_decide as Hd; [|by rewrite lookup_insert_eq].
      rewrite lookup_delete_eq, Hd. by rewrite bool_decide_false by set_solver. }
    destruct (decide (sp' = sp)) as [->|Hs].
    + rewrite (bool_decide_true (k = k /\ _)) by done. apply bool_decide_false. set_solver.
    + rewrite (bool_decide_false (k = k /\ _)) by naive_solver. apply bool_decide_ext. set_solver.
  - rewrite (bool_decide_false (k' = k /\ _)) by naive_solver.
    case_bool_decide; [by rewrite lookup_delete_ne|by rewrite lookup_insert_ne].
Qed.

(** ** Token changes refine the view *)

(** The abstract effect of one token change; [None] where the concrete one
    fails. *)
Definition view_step (v : ApprovalView) (tc : TokenChange) : option ApprovalView :=
  match tc with
  | TcApprovalSet (Erc20 c a) sp al => Some (view_set_erc20 v (c, a) sp (Some al))
  | TcApprovalSet (Erc721 c a _) sp _ | TcApprovalSet (Erc1155 c a _) sp _ =>
      Some (view_set_for_all v (c, a) sp true)
  | TcApprovalSet (Native _) _ _ => None
  | ApprovalRevoke key sp scope =>
      match scope, key_contract key with
      | ScopeErc20, Some a => Some (view_set_erc20 v (key_chain key, a) sp None)
      | ScopeSetForAll, Some a => Some (view_set_for_all v (key_chain key, a) sp false)
      | ScopePermit2, Some a => Some (view_drop_permit2 v (key_chain key, a, sp))
      | ScopeErc721Token, _ => Some v
      | _, None => None
      end
  | _ => Some v
  end.

#[global] Instance view_drop_permit2_proper :
  Proper (same_view ==> (=) ==> same_view) view_drop_permit2.
Proof.
  intros v w (He & Hf & Hp) k _ <-.
  repeat split; intros; simpl; [apply He|apply Hf|case_bool_decide; [done|apply Hp]].
Qed.

(** The abstract step respects the equivalence of views. *)
Lemma view_step_same v w tc v' :
  same_view v w -> view_step v tc = Some v' ->
  exists w', view_step w tc = Some w' /\ same_view v' w'.
Proof.
  intros Hvw. destruct tc as [k d|[] sp al|k sp [] |k sp|k kh]; simpl; intros Hs;
    repeat case_match; simplify_eq; (eexists; split; [done|]); by rewrite ?Hvw.
Qed.

Lemma contract_addr_key_Ok key x :
  contract_addr_key key = Ok x -> exists a, key_contract key = Some a /\ x = (key_chain key, a).
Proof. unfold contract_addr_key. intros Hk. run_ok. eauto. Qed.

Ltac view_refl := by repeat split.

Lemma apply_approval_set_view s key sp al s' :
  apply_approval_set s key sp al = Ok s' ->
  exists v, view_step (view_of s) (TcApprovalSet key sp al) = Some v /\ same_view (view_of s') v.
Proof.
  unfold apply_approval_set. destruct key as [c|c a|c a i|c a i]; simpl; intros Hs; run_ok;
    (eexists; split; [done|]); unfold view_of; simpl; repeat split; intros; simpl; try done;
    auto using allowance_insert, has_set_for_all_insert.
Qed.

Lemma apply_approval_revoke_view s key sp sc s' :
  apply_approval_revoke s key sp sc = Ok s' ->
  exists v, view_step (view_of s) (ApprovalRevoke key sp sc) = Some v /\ same_view (view_of s') v.
Proof.
  unfold apply_approval_revoke. intros Hs. destruct sc; run_ok;
    try (apply contract_addr_key_Ok in H as (a & Ha & ->); rewrite Ha);
    try (eexists; split; [done|]; unfold view_of; simpl; repeat split; intros; simpl; try done);
    auto using allowance_remove, has_set_for_all_remove.
  - unfold allowance. case_bool_decide as Hk; [|done]. destruct Hk as [-> ->]. by rewrite Heqo.
  - unfold has_set_for_all. case_bool_decide as Hk; [|done]. destruct Hk as [-> ->]. by rewrite Heqo.
  - unfold permit2_of. simpl. case_bool_decide as Hk; [subst|]; simplify_eq.
    + by rewrite lookup_delete_eq.
    + by rewrite lookup_delete_ne.
Qed.

(** Every successful token change acts on the lookups as its abstract step. *)
Lemma apply_token_change_view s tc s' :
  apply_token_change s tc = Ok s' ->
  exists v, view_step (view_of s) tc = Some v /\ same_view (view_of s') v.
Proof.
  destruct tc as [k d|k sp al|k sp sc|k sp|k kh]; simpl; intros Hs;
    eauto using apply_approval_set_view, apply_approval_revoke_view.
  - unfold apply_balance_delta in Hs. run_ok. eexists; split; [done|]. view_refl.
  - run_ok. eexists; split; [done|]. view_refl.
  - run_ok; (eexists; split; [done|]); view_refl.
Qed.

(** Approval changes on a key with a contract always apply. *)
Lemma apply_approval_set_total s key sp al :
  key_contract key <> None -> exists s', apply_approval_set s key sp al = Ok s'.
Proof. intros Hk. unfold apply_approval_set. destruct key; simpl; eauto; done. Qed.

Lemma apply_approval_revoke_total s key sp sc :
  key_contract key <> None -> sc <> ScopeErc721Token ->
  exists s', apply_approval_revoke s key sp sc = Ok s'.
Proof.
  intros Hk Hsc. unfold apply_approval_revoke, contract_addr_key.
  destruct (key_contract key) as [a|] eqn:Ha; [|done].
  destruct sc; simpl; try done; try case_match; eauto.
Qed.

Lemma approval_set_tokens s key sp al s' :
  apply_approval_set s key sp al = Ok s' -> ws_tokens s' = ws_tokens s.
Proof. unfold apply_approval_set. intros Hs. run_ok; done. Qed.

Lemma approval_revoke_tokens s key sp sc s' :
  sc <> ScopeErc721Token -> apply_approval_revoke s key sp sc = Ok s' -> ws_tokens s' = ws_tokens s.
Proof. unfold apply_approval_revoke. intros ? Hs. destruct sc; run_ok; done. Qed.

Lemma AllowanceSpec_choice amount set_at :
  (if amount =? U256_MAX then AllowanceSpec_unlimited set_at else AllowanceSpec_new amount set_at)
  = AllowanceSpec_new amount set_at.
Proof. unfold AllowanceSpec_unlimited, AllowanceSpec_new. by destruct (Z.eqb_spec amount U256_MAX) as [->|]. Qed.

Section Properties.
Context `{PositionSerde}.

(** A helper that pushes one approval change: the delta it returns applies and
    changes the lookups by the abstract step, and no balance. *)
Lemma push_approval_set_applies s d s1 key sp al :
  sd_gas_paid d = None -> apply_delta s d = Ok s1 -> key_contract key <> None ->
  exists s2 v, apply_delta s (push_token d (TcApprovalSet key sp al)) = Ok s2 /\
    view_step (view_of s1) (TcApprovalSet key sp al) = Some v /\ same_view (view_of s2) v /\
    ws_tokens s2 = ws_tokens s1.
Proof.
  intros Hg Ha Hk. destruct (apply_approval_set_total s1 key sp al Hk) as [s2 H2].
  destruct (apply_approval_set_view _ _ _ _ _ H2) as (v & Hv & Hs).
  exists s2, v. rewrite apply_delta_push_token by done. eauto 10 using approval_set_tokens.
Qed.

Lemma push_approval_revoke_applies s d s1 key sp sc :
  sd_gas_paid d = None -> apply_delta s d = Ok s1 -> key_contract key <> None ->
  sc <> ScopeErc721Token ->
  exists s2 v, apply_delta s (push_token d (ApprovalRevoke key sp sc)) = Ok s2 /\
    view_step (view_of s1) (ApprovalRevoke key sp sc) = Some v /\ same_view (view_of s2) v /\
    ws_tokens s2 = ws_tokens s1.
Proof.
  intros Hg Ha Hk Hsc. destruct (apply_approval_revoke_total s1 key sp sc Hk Hsc) as [s2 H2].
  destruct (apply_approval_revoke_view _ _ _ _ _ H2) as (v & Hv & Hs).
  exists s2, v. rewrite apply_delta_push_token by done. eauto 10 using approval_revoke_tokens.
Qed.

(** C7: Approval bookkeeping refines its lookups: whatever token changes a delta makes,
    [allowance], [has_set_for_all] and [permit2_of] afterwards answer as if each change had
    updated a plain function from contract and spender to grant. *)
Theorem apply_delta_refines_view s d s' :
  apply_delta s d = Ok s' ->
  exists v, foldl (fun o tc => o ≫= fun v => view_step v tc) (Some (view_of s))
              (sd_token_changes d) = Some v /\ same_view (view_of s') v.
Proof.
  intros Ha. apply apply_delta_tokens in Ha as (s1 & s2 & H1 & H2 & _ & Hap).
  assert (same_view (view_of s') (view_of s1)) as Hs'.
  { apply apply_gas_option_local in H2 as (t & -> & _). unfold view_of.
    rewrite Hap. view_refl. }
  assert (forall l u v w, foldM apply_token_change l u = Ok w -> same_view (view_of u) v ->
    exists v', foldl (fun o tc => o ≫= fun v => view_step v tc) (Some v) l = Some v' /\
      same_view (view_of w) v') as Hind.
  { intros l. induction l as [|tc l IH]; simpl; intros u v w Hf Huv; inv_ok; [eauto|].
    destruct (apply_token_change_view _ _ _ H0) as (v1 & Hv1 & Hx).
    destruct (view_step_same _ _ _ _ Huv Hv1) as (v2 & Hv2 & H12).
    rewrite Hv2. eapply IH; [done|]. by rewrite Hx. }
  destruct (Hind _ _ _ _ H1 (reflexivity _)) as (v & Hv & Hw).
  exists v. split; [done|]. by rewrite Hs'.
Qed.

(** [set_erc20_allowance] grants exactly what it is asked to: once its delta is applied
    the spender's allowance on that token is the given amount (unlimited iff it is the
    largest U256), and every other grant and every balance is as before. *)
Theorem set_erc20_allowance_exact s d s1 set_at c a sp amt :
  sd_gas_paid d = None -> apply_delta s d = Ok s1 ->
  exists d' s2,
    set_erc20_allowance s d set_at (mkTokenRef (Erc20 c a)) sp amt = Ok d' /\
    apply_delta s d' = Ok s2 /\
    same_view (view_of s2)
      (view_set_erc20 (view_of s1) (c, a) sp
         (Some (mkAllowanceSpec amt (amt =? U256_MAX) set_at))) /\
    ws_tokens s2 = ws_tokens s1.
Proof.
  intros Hg Ha. unfold set_erc20_allowance. simpl. rewrite AllowanceSpec_choice.
  destruct (push_approval_set_applies s d s1 (Erc20 c a) sp (AllowanceSpec_new amt set_at)
    Hg Ha) as (s2 & v & H2 & [= <-] & Hv & Ht); [done|].
  eexists _, s2. split; [done|]. done.
Qed.

(** Granting and then revoking in the same request leaves the spender without allowance
    and restores every other lookup. *)
Theorem approve_revoke_round_trip s d s1 set_at c a sp amt d1 d2 :
  sd_gas_paid d = None -> apply_delta s d = Ok s1 ->
  set_erc20_allowance s d set_at (mkTokenRef (Erc20 c a)) sp amt = Ok d1 ->
  revoke_erc20_allowance s d1 (mkTokenRef (Erc20 c a)) sp = Ok d2 ->
  exists s2, apply_delta s d2 = Ok s2 /\
    same_view (view_of s2) (view_set_erc20 (view_of s1) (c, a) sp None) /\
    ws_tokens s2 = ws_tokens s1.
Proof.
  intros Hg Ha Hset Hrev. unfold set_erc20_allowance in Hset. simpl in Hset.
  rewrite AllowanceSpec_choice in Hset. injection Hset as <-. injection Hrev as <-.
  destruct (push_approval_set_applies s d s1 (Erc20 c a) sp (AllowanceSpec_new amt set_at)
    Hg Ha) as (s2 & v & H2 & [= <-] & Hv & Ht); [done|].
  destruct (push_approval_revoke_applies s (push_token d (TcApprovalSet (Erc20 c a) sp
    (AllowanceSpec_new amt set_at))) s2 (Erc20 c a) sp ScopeErc20 Hg H2)
    as (s3 & w & H3 & [= <-] & Hw & Ht'); [done..|].
  exists s3. split; [done|]. split; [|by rewrite Ht'].
  rewrite Hw, Hv. repeat split; intros; simpl; try done. repeat case_bool_decide; done.
Qed.

(** A Permit2 grant survives its own revocation: [upsert_permit2_allowance] is applied to
    the ERC-20 allowances, [revoke_permit2_allowance] only ever removes Permit2 entries, so
    the spender keeps the granted amount and [permit2_of] never shows it. *)
Theorem permit2_revoke_leaves_grant s d s1 c a sp amt expires d1 d2 :
  sd_gas_paid d = None -> apply_delta s d = Ok s1 ->
  upsert_permit2_allowance s d (mkTokenRef (Erc20 c a)) sp amt expires = Ok d1 ->
  revoke_permit2_allowance s d1 (mkTokenRef (Erc20 c a)) sp = Ok d2 ->
  exists s2, apply_delta s d2 = Ok s2 /\
    allowance (ws_approvals s2) (c, a) sp =
      Some (mkAllowanceSpec amt (amt =? U256_MAX) expires) /\
    permit2_of (ws_approvals s2) (c, a, sp) = None.
Proof.
  intros Hg Ha Hset Hrev. injection Hset as <-. injection Hrev as <-.
  destruct (push_approval_set_applies s d s1 (Erc20 c a) sp
    (mkAllowanceSpec amt (amt =? U256_MAX) expires) Hg Ha) as (s2 & v & H2 & [= <-] & Hv & _); [done|].
  destruct (push_approval_revoke_applies s (push_token d (TcApprovalSet (Erc20 c a) sp
    (mkAllowanceSpec amt (amt =? U256_MAX) expires))) s2 (Erc20 c a) sp ScopePermit2 Hg H2)
    as (s3 & w & H3 & [= <-] & Hw & _); [done..|].
  exists s3. split; [done|]. destruct Hw as (He & _ & Hp), Hv as (He' & _ & _). split.
  - etransitivity; [apply (He (c, a) sp)|]. etransitivity; [apply (He' (c, a) sp)|].
    simpl. by rewrite bool_decide_true.
  - etransitivity; [apply (Hp (c, a, sp))|]. simpl. by rewrite bool_decide_true.
Qed.

(** [set_for_all] toggles one operator on one collection: afterwards the operator is
    approved exactly if [approved], and no other lookup and no balance changes. *)
Theorem set_for_all_exact s d s1 set_at chain contract sp approved :
  sd_gas_paid d = None -> apply_delta s d = Ok s1 ->
  exists d' s2, set_for_all s d set_at chain contract sp approved = Ok d' /\
    apply_delta s d' = Ok s2 /\
    same_view (view_of s2) (view_set_for_all (view_of s1) (chain, contract) sp approved) /\
    ws_tokens s2 = ws_tokens s1.
Proof.
  intros Hg Ha. unfold set_for_all. destruct approved.
  - destruct (push_approval_set_applies s d s1 (Erc721 chain contract 0) sp
      (AllowanceSpec_unlimited set_at) Hg Ha) as (s2 & v & H2 & [= <-] & Hv & Ht); [done|].
    by exists (push_token d (TcApprovalSet (Erc721 chain contract 0) sp
      (AllowanceSpec_unlimited set_at))), s2.
  - destruct (push_approval_revoke_applies s d s1 (Erc721 chain contract 0) sp ScopeSetForAll Hg Ha)
      as (s2 & v & H2 & [= <-] & Hv & Ht); [done..|].
    by exists (push_token d (ApprovalRevoke (Erc721 chain contract 0) sp ScopeSetForAll)), s2.
Qed.
End Properties.

(** ** Witnesses *)
Definition usdc_ref : TokenRef := mkTokenRef usdc_key.
Definition usdc_addr : Address := 0xa0b86991c6218b36c1d19d4a2e9eb0ce3606eb48.

Lemma apply_delta_refines_view_witness :
  is_ok (apply_delta (H := demo_serde) demo_wallet demo_mint_delta) = true /\
  forall s', apply_delta (H := demo_serde) demo_wallet demo_mint_delta = Ok s' ->
    exists v, foldl (fun o tc => o ≫= fun v => view_step v tc) (Some (view_of demo_wallet))
                (sd_token_changes demo_mint_delta) = Some v /\ same_view (view_of s') v.
Proof.
  split; [vm_compute; reflexivity|]. intros s' Hs'.
  apply (apply_delta_refines_view (H := demo_serde) _ _ _ Hs').
Defined.

Lemma set_erc20_allowance_exact_witness :
  exists d' s2,
    set_erc20_allowance demo_wallet StateDelta_default 17 usdc_ref demo_spender 100 = Ok d' /\
    apply_delta (H := demo_serde) demo_wallet d' = Ok s2 /\
    allowance (ws_approvals s2) (demo_chain, usdc_addr) demo_spender =
      Some (mkAllowanceSpec 100 false 17).
Proof.
  destruct (set_erc20_allowance_exact (H := demo_serde) demo_wallet StateDelta_default demo_wallet
    17 demo_chain usdc_addr demo_spender 100 ltac:(reflexivity) ltac:(reflexivity))
    as (d' & s2 & Hd & Hs & (He & _) & _).
  exists d', s2. split; [exact Hd|]. split; [exact Hs|].
  etransitivity; [apply (He (demo_chain, usdc_addr) demo_spender)|]. vm_compute; reflexivity.
Defined.

Lemma approve_revoke_round_trip_witness :
  exists d1 d2 s2,
    set_erc20_allowance demo_wallet StateDelta_default 17 usdc_ref demo_spender 100 = Ok d1 /\
    revoke_erc20_allowance demo_wallet d1 usdc_ref demo_spender = Ok d2 /\
    apply_delta (H := demo_serde) demo_wallet d2 = Ok s2 /\
    ws_tokens s2 = ws_tokens demo_wallet.
Proof.
  eexists _, _.
  destruct (approve_revoke_round_trip (H := demo_serde) demo_wallet StateDelta_default demo_wallet
    17 demo_chain usdc_addr demo_spender 100 _ _ ltac:(reflexivity) ltac:(reflexivity)
    ltac:(reflexivity) ltac:(reflexivity)) as (s2 & Hs & _ & Ht).
  exists s2. split; [reflexivity|]. split; [reflexivity|]. split; [exact Hs|exact Ht].
Defined.

Lemma permit2_revoke_leaves_grant_witness :
  exists d1 d2 s2,
    upsert_permit2_allowance demo_wallet StateDelta_default usdc_ref demo_spender 100 99 = Ok d1 /\
    revoke_permit2_allowance demo_wallet d1 usdc_ref demo_spender = Ok d2 /\
    apply_delta (H := demo_serde) demo_wallet d2 = Ok s2 /\
    allowance (ws_approvals s2) (demo_chain, usdc_addr) demo_spender =
      Some (mkAllowanceSpec 100 false 99).
Proof.
  eexists _, _.
  destruct (permit2_revoke_leaves_grant (H := demo_serde) demo_wallet StateDelta_default demo_wallet
    demo_chain usdc_addr demo_spender 100 99 _ _ ltac:(reflexivity) ltac:(reflexivity)
    ltac:(reflexivity) ltac:(reflexivity)) as (s2 & Hs & Ht & _).
  exists s2. split; [reflexivity|]. split; [reflexivity|]. split; [exact Hs|exact Ht].
Defined.

Lemma set_for_all_exact_witness :
  exists d' s2, set_for_all demo_wallet StateDelta_default 17 demo_chain demo_contract demo_spender
      true = Ok d' /\
    apply_delta (H := demo_serde) demo_wallet d' = Ok s2 /\ ws_tokens s2 = ws_tokens demo_wallet.
Proof.
  destruct (set_for_all_exact (H := demo_serde) demo_wallet StateDelta_default demo_wallet 17
    demo_chain demo_contract demo_spender true ltac:(reflexivity) ltac:(reflexivity))
    as (d' & s2 & ? & ? & _ & ?).
  exists d', s2. split; [assumption|]. split; assumption.
Defined.
