(* ===== verification/PositionOps.v ===== *)
(** * Position primitives

    crates/asset-model/transition/src/helpers/position.rs: open, mutate and
    close positions of the effective state (the wallet overlaid with the delta
    so far). A mutation is recorded as a snapshot patch, which [apply_delta]
    turns back into the mutated position. *)
From stdpp Require Import base tactics numbers list strings gmap.
From S2P Require Import Prelude Types Positions Wallet Serde Fixtures Delta.

(** ** Operations *)

(** The loop body of [effective_exists]. *)
Definition exists_step (id : PositionId) (exists_ : bool) (change : PositionChange) : bool :=
  match change with
  | Open position => if po_has_id id position then true else exists_
  | Close closed_id => if bool_decide (closed_id = id) then false else exists_
  | Update _ _ => exists_
  end.

(** [effective_exists] *)
Definition effective_exists (state : WalletState) (delta : StateDelta) (id : PositionId) : bool :=
  let in_state := existsb (po_has_id id) (ws_positions state) in
  foldl (exists_step id) in_state (sd_position_changes delta).

(** The reverse search of [effective_position]: the last [Open] or [Close] of
    [id] decides; [None] when there is none. *)
Fixpoint last_decision (id : PositionId) (rev_changes : list PositionChange)
    : option (option Position) :=
  match rev_changes with
  | [] => None
  | Open position :: l => if po_has_id id position then Some (Some position) else last_decision id l
  | Close closed_id :: l => if bool_decide (closed_id = id) then Some None else last_decision id l
  | Update _ _ :: l => last_decision id l
  end.

(** [effective_position] *)
Definition effective_position (state : WalletState) (delta : StateDelta) (id : PositionId)
    : option Position :=
  match last_decision id (rev (sd_position_changes delta)) with
  | Some o => o
  | None => find_first (po_has_id id) (ws_positions state)
  end.

(** [open_position] *)
Definition open_position (state : WalletState) (delta : StateDelta) (position : Position)
    : ReducerResult StateDelta :=
  if effective_exists state delta (po_id position) then
    Err (Invariant "position {} already exists")
  else Ok (push_position delta (Open position)).

(** [close_position] *)
Definition close_position (state : WalletState) (delta : StateDelta) (position_id : PositionId)
    : ReducerResult StateDelta :=
  if negb (effective_exists state delta position_id) then Err (PositionNotFound position_id)
  else Ok (push_position delta (Close position_id)).

Definition is_lending (k : PositionKind) : bool :=
  match k with PkLendingAccount _ => true | _ => false end.
Definition is_perp (k : PositionKind) : bool :=
  match k with PkPerpPosition _ => true | _ => false end.
Definition is_hl (k : PositionKind) : bool :=
  match k with PkHyperliquidAccount _ => true | _ => false end.

Section Upsert.
Context `{PositionSerde}.

(** [snapshot_patch] *)
Definition snapshot_patch (new_position : Position) : PositionPatch :=
  let after := default JNull (to_value new_position) in
  mkPositionPatch (JObject [("after", after)]).

(** The shape the three [upsert_*] functions share; they differ in the kind
    they insist on and in the messages. *)
Definition upsert_kind (is_kind : PositionKind -> bool) (not_kind changed_kind : string)
    (state : WalletState) (delta : StateDelta) (position_id : PositionId)
    (mutate : Position -> Position) : ReducerResult StateDelta :=
  existing ← ok_or (PositionNotFound position_id) (effective_position state delta position_id);
  if negb (is_kind (po_kind existing)) then Err (Invariant not_kind)
  else
    let new_position := mutate existing in
    if negb (is_kind (po_kind new_position)) then Err (Invariant changed_kind)
    else Ok (push_position delta (Update position_id (snapshot_patch new_position))).

(** [upsert_lending_account] *)
Definition upsert_lending_account :=
  upsert_kind is_lending
    "position {position_id} exists but is not a LendingAccount"
    "position {position_id} mutate changed kind away from LendingAccount".

(** [upsert_perp_position] *)
Definition upsert_perp_position :=
  upsert_kind is_perp
    "position {position_id} exists but is not a PerpPosition"
    "position {position_id} mutate changed kind away from PerpPosition".

(** [upsert_hl_account] *)
Definition upsert_hl_account :=
  upsert_kind is_hl
    "position {position_id} exists but is not a HyperliquidAccount"
    "position {position_id} mutate changed kind away from HyperliquidAccount".

(** ** Lemmas *)

Lemma last_decision_app id l1 l2 :
  last_decision id (l1 ++ l2) =
  match last_decision id l1 with Some o => Some o | None => last_decision id l2 end.
Proof.
  induction l1 as [|[p|i pt|i] l1 IH]; simpl; [done|..]; [by destruct (po_has_id id p)|done|].
  by case_bool_decide.
Qed.

(** The forward loop and the reverse search decide existence alike. *)
Lemma exists_last_decision id l b :
  foldl (exists_step id) b l =
  match last_decision id (rev l) with Some o => bool_decide (is_Some o) | None => b end.
Proof.
  revert b. induction l as [|c l IH]; intros b; simpl; [done|].
  rewrite IH, last_decision_app. destruct (last_decision id (rev l)); [done|].
  destruct c as [p|i pt|i]; simpl; [by destruct (po_has_id id p)|done|].
  by case_bool_decide.
Qed.

Lemma existsb_find_first {A} (p : A -> bool) l :
  existsb p l = bool_decide (is_Some (find_first p l)).
Proof. induction l as [|x l IH]; simpl; [done|]. by destruct (p x). Qed.

Lemma effective_exists_position s d id :
  effective_exists s d id = bool_decide (is_Some (effective_position s d id)).
Proof.
  unfold effective_exists, effective_position. rewrite exists_last_decision.
  destruct (last_decision id (rev (sd_position_changes d))); [done|]. apply existsb_find_first.
Qed.

Lemma existsb_app_id id l p :
  existsb (po_has_id id) (l ++ [p]) = (existsb (po_has_id id) l || po_has_id id p).
Proof. by rewrite existsb_app; simpl; rewrite orb_false_r. Qed.

Lemma existsb_false_Forall {A} (p : A -> bool) l :
  existsb p l = false <-> Forall (fun x => p x = false) l.
Proof. induction l; simpl; [split; auto|]. rewrite orb_false_iff, Forall_cons. naive_solver. Qed.

Lemma existsb_retain_id id id' l :
  existsb (po_has_id id) (retain (fun p => negb (po_has_id id' p)) l) =
  if bool_decide (id' = id) then false else existsb (po_has_id id) l.
Proof.
  induction l as [|p l IH]; simpl; [by case_bool_decide|].
  unfold po_has_id in *. repeat (case_bool_decide; simpl); rewrite ?IH; try done; congruence.
Qed.

(** An update whose patch keeps the identifier. *)
Definition keeps_id (c : PositionChange) : Prop :=
  match c with
  | Update id patch =>
      forall p p', po_id p = id -> apply_position_patch p patch = Ok p' -> po_id p' = id
  | _ => True
  end.

Lemma apply_position_change_exists s c s' id :
  keeps_id c -> apply_position_change s c = Ok s' ->
  existsb (po_has_id id) (ws_positions s') = exists_step id (existsb (po_has_id id) (ws_positions s)) c.
Proof.
  destruct c as [p|i pt|i]; simpl; intros Hk Hs.
  - inv_ok. simpl. rewrite existsb_app_id. destruct (po_has_id id p); [by rewrite orb_true_r|].
    by rewrite orb_false_r.
  - destruct (update_first _ _ _) as [r|] eqn:Hu; [|done]. inv_ok. simpl.
    apply update_first_Ok in Hu as (l1 & y & y' & l2 & -> & -> & _ & Hx & Hp & _).
    rewrite !existsb_app. simpl. apply bool_decide_eq_true in Hx.
    unfold po_has_id. by rewrite (Hk _ _ Hx Hp), Hx.
  - destruct (_ =? _)%nat; [done|]. inv_ok. simpl. apply existsb_retain_id.
Qed.

Lemma position_phase_exists l s s' id :
  Forall keeps_id l -> foldM apply_position_change l s = Ok s' ->
  existsb (po_has_id id) (ws_positions s') =
  foldl (exists_step id) (existsb (po_has_id id) (ws_positions s)) l.
Proof.
  intros Hl. revert s. induction Hl as [|c l Hc Hl IH]; simpl; intros s Hs; inv_ok; [done|].
  rewrite (IH _ H1). f_equal. by eapply apply_position_change_exists.
Qed.

Lemma apply_delta_positions s d s' :
  apply_delta s d = Ok s' ->
  exists s1 s2, ws_positions s1 = ws_positions s /\
    foldM apply_position_change (sd_position_changes d) s1 = Ok s2 /\
    ws_positions s' = ws_positions s2.
Proof.
  intros Ha. apply apply_delta_phases in Ha as (s1 & s2 & s3 & H1 & H2 & H3 & H4).
  apply pending_phase_only in H3 as [q ->]. apply apply_gas_option_local in H4 as (t & -> & _).
  exists s1, s2. split; [|done].
  eapply (foldM_inv (fun u => ws_positions u = ws_positions s) (fun _ => True) _ _ s s1);
    [|by apply Forall_true|done|exact H1].
  intros b x b' <- _ Hb. apply apply_token_change_local in Hb as (t' & a & -> & _). done.
Qed.

(** [effective_exists] is existence in the wallet the delta produces. *)
Lemma effective_exists_applied s d s1 id :
  Forall keeps_id (sd_position_changes d) -> apply_delta s d = Ok s1 ->
  effective_exists s d id = existsb (po_has_id id) (ws_positions s1).
Proof.
  intros Hk Ha. apply apply_delta_positions in Ha as (t1 & t2 & Ht & Hp & ->).
  rewrite (position_phase_exists _ _ _ id Hk Hp), Ht. done.
Qed.

Lemma snapshot_patch_applies `{!PositionSerdeLaws H} p p' :
  apply_position_patch p (snapshot_patch p') = Ok p'.
Proof.
  unfold apply_position_patch, snapshot_patch. simpl.
  destruct (serde_round_trip p') as (v & -> & Hv). simpl. by rewrite Hv.
Qed.

Lemma snapshot_keeps_id `{!PositionSerdeLaws H} id p :
  po_id p = id -> keeps_id (Update id (snapshot_patch p)).
Proof. intros Hid q q' _ Hq. rewrite snapshot_patch_applies in Hq. by simplify_eq. Qed.

Lemma upsert_kind_Ok f m1 m2 s d id mutate d' :
  upsert_kind f m1 m2 s d id mutate = Ok d' <->
  exists p, effective_position s d id = Some p /\ f (po_kind p) = true /\
    f (po_kind (mutate p)) = true /\
    d' = push_position d (Update id (snapshot_patch (mutate p))).
Proof.
  unfold upsert_kind. split.
  - intros Hu. destruct (effective_position s d id) as [p|]; [|done]. simpl in Hu.
    destruct (f (po_kind p)) eqn:H1; [|done]. simpl in Hu.
    destruct (f (po_kind (mutate p))) eqn:H2; [|done]. simpl in Hu. inv_ok. eauto.
  - intros (p & -> & H1 & H2 & ->). simpl. by rewrite H1, H2.
Qed.
End Upsert.

Section Properties.
Context `{PositionSerde} `{!PositionSerdeLaws H}.

(** A change that is not about [id]. *)
Definition avoids_id (id : PositionId) (c : PositionChange) : Prop :=
  match c with
  | Open p => po_id p <> id
  | Update id' _ | Close id' => id' <> id
  end.

Lemma find_first_replace_ne id l1 y y' l2 :
  po_id y <> id -> po_id y' <> id ->
  find_first (po_has_id id) (l1 ++ y' :: l2) = find_first (po_has_id id) (l1 ++ y :: l2).
Proof.
  intros Hy Hy'. rewrite !find_first_app. simpl. unfold po_has_id.
  by rewrite !(bool_decide_false (_ = id)).
Qed.

Lemma find_first_retain_ne id id' l :
  id' <> id ->
  find_first (po_has_id id) (retain (fun p => negb (po_has_id id' p)) l) =
  find_first (po_has_id id) l.
Proof.
  intros Hne. induction l as [|p l IH]; simpl; [done|].
  unfold po_has_id in *. repeat (case_bool_decide; simpl); try done; congruence.
Qed.

Lemma apply_position_change_avoids s c s' id :
  keeps_id c -> avoids_id id c -> apply_position_change s c = Ok s' ->
  find_first (po_has_id id) (ws_positions s') = find_first (po_has_id id) (ws_positions s).
Proof.
  destruct c as [p|i pt|i]; simpl; intros Hk Ha Hs.
  - inv_ok. simpl. rewrite find_first_app. simpl. unfold po_has_id at 2.
    rewrite bool_decide_false by done. by destruct (find_first _ _).
  - destruct (update_first _ _ _) as [r|] eqn:Hu; [|done]. inv_ok. simpl.
    apply update_first_Ok in Hu as (l1 & y & y' & l2 & -> & -> & _ & Hy & Hp & _).
    apply bool_decide_eq_true in Hy. subst i.
    apply find_first_replace_ne; [done|]. by rewrite (Hk _ _ eq_refl Hp).
  - destruct (_ =? _)%nat; [done|]. inv_ok. simpl. by apply find_first_retain_ne.
Qed.

Lemma apply_delta_avoids s d s1 id :
  Forall keeps_id (sd_position_changes d) -> Forall (avoids_id id) (sd_position_changes d) ->
  apply_delta s d = Ok s1 ->
  find_first (po_has_id id) (ws_positions s1) = find_first (po_has_id id) (ws_positions s).
Proof.
  intros Hk Hav Ha. apply apply_delta_positions in Ha as (t1 & t2 & Ht & Hp & ->). rewrite <- Ht.
  eapply (foldM_inv (fun u => find_first (po_has_id id) (ws_positions u) =
    find_first (po_has_id id) (ws_positions t1)) (fun c => keeps_id c /\ avoids_id id c) _ _ t1 t2);
    [|by apply Forall_and|done|exact Hp].
  intros b x b' <- [? ?] Hb. by eapply apply_position_change_avoids.
Qed.

Lemma last_decision_avoids id l :
  Forall (avoids_id id) l -> last_decision id l = None.
Proof.
  induction 1 as [|[p|i pt|i] l Hc Hl IH]; simpl in *; [done|..]; try done;
    unfold po_has_id; by rewrite bool_decide_false.
Qed.

Lemma effective_position_avoids s d id :
  Forall (avoids_id id) (sd_position_changes d) ->
  effective_position s d id = find_first (po_has_id id) (ws_positions s).
Proof.
  intros Hav. unfold effective_position.
  by rewrite last_decision_avoids by (apply Forall_rev; done).
Qed.

(** Applying a snapshot of [p'] under [id] makes it the position found there. *)
Lemma apply_snapshot_update s id p p' :
  find_first (po_has_id id) (ws_positions s) = Some p -> po_id p' = id ->
  exists s', apply_position_change s (Update id (snapshot_patch p')) = Ok s' /\
    find_first (po_has_id id) (ws_positions s') = Some p' /\
    length (ws_positions s') = length (ws_positions s) /\
    forall id', id' <> id ->
      find_first (po_has_id id') (ws_positions s') = find_first (po_has_id id') (ws_positions s).
Proof.
  intros Hf Hid. simpl.
  destruct (update_first (po_has_id id) (fun p => apply_position_patch p (snapshot_patch p'))
    (ws_positions s)) as [r|] eqn:Hu; [|apply update_first_None in Hu; congruence].
  assert (exists l, r = Ok l) as [l ->].
  { clear Hf. revert r Hu. induction (ws_positions s) as [|q l IH]; simpl; intros r Hu; [done|].
    destruct (po_has_id id q); [rewrite snapshot_patch_applies in Hu; naive_solver|].
    destruct (update_first _ _ l) as [r'|]; [|done]. destruct (IH _ eq_refl) as [l' ->]. naive_solver. }
  simpl. apply update_first_Ok in Hu as (l1 & y & y' & l2 & Hl & -> & Hl1 & Hy & Hp & _).
  rewrite snapshot_patch_applies in Hp. injection Hp as <-. rewrite Hl.
  eexists; split; [done|]. simpl. split; [|split].
  - rewrite find_first_app, (proj2 (find_first_None _ _) Hl1). simpl.
    unfold po_has_id. by rewrite bool_decide_true.
  - by rewrite !length_app.
  - intros id' Hne. apply bool_decide_eq_true in Hy. apply find_first_replace_ne; congruence.
Qed.

(** [open_position] admits a position exactly when the advanced wallet has none with its
    identifier; the delta applies, appends the position, and identifiers stay unique. *)
Theorem open_position_exact s d s1 p :
  sd_gas_paid d = None -> Forall keeps_id (sd_position_changes d) ->
  apply_delta s d = Ok s1 -> NoDup (po_id <$> ws_positions s1) ->
  ((exists d', open_position s d p = Ok d') <-> po_id p ∉ po_id <$> ws_positions s1) /\
  (forall d', open_position s d p = Ok d' ->
    exists s2, apply_delta s d' = Ok s2 /\ ws_positions s2 = ws_positions s1 ++ [p] /\
      NoDup (po_id <$> ws_positions s2)).
Proof.
  intros Hg Hk Ha Hnd.
  assert (effective_exists s d (po_id p) = false <-> po_id p ∉ po_id <$> ws_positions s1) as Hex.
  { rewrite (effective_exists_applied _ _ _ _ Hk Ha), existsb_false_Forall, Forall_forall.
    rewrite list_elem_of_fmap. unfold po_has_id. setoid_rewrite bool_decide_eq_false. naive_solver. }
  unfold open_position. split.
  - rewrite <- Hex. destruct (effective_exists s d (po_id p)); naive_solver.
  - intros d' Hd. destruct (effective_exists s d (po_id p)); [done|]. injection Hd as <-.
    exists (ws_set_positions s1 (ws_positions s1 ++ [p])).
    rewrite apply_delta_push_position by done. split; [by eauto|]. split; [done|].
    simpl. rewrite fmap_app. apply NoDup_app. split; [done|]. split; [|apply NoDup_singleton].
    simpl. intros x Hx ->%list_elem_of_singleton. by apply Hex in Hx.
Qed.

(** [close_position] accepts exactly the identifiers the advanced wallet has, and its delta
    removes all positions with that identifier and no other. *)
Theorem close_position_exact s d s1 id :
  sd_gas_paid d = None -> Forall keeps_id (sd_position_changes d) -> apply_delta s d = Ok s1 ->
  ((exists d', close_position s d id = Ok d') <-> id ∈ po_id <$> ws_positions s1) /\
  (forall d', close_position s d id = Ok d' ->
    exists s2, apply_delta s d' = Ok s2 /\ id ∉ po_id <$> ws_positions s2 /\
      forall p, po_id p <> id -> p ∈ ws_positions s2 <-> p ∈ ws_positions s1).
Proof.
  intros Hg Hk Ha.
  assert (effective_exists s d id = true <-> id ∈ po_id <$> ws_positions s1) as Hex.
  { rewrite (effective_exists_applied _ _ _ _ Hk Ha), existsb_exists, list_elem_of_fmap.
    unfold po_has_id. setoid_rewrite bool_decide_eq_true. setoid_rewrite <- list_elem_of_In.
    naive_solver. }
  unfold close_position. split.
  - rewrite <- Hex. destruct (effective_exists s d id); naive_solver.
  - intros d' Hd. destruct (effective_exists s d id); [|done]. injection Hd as <-.
    pose proof (proj1 Hex eq_refl) as (p0 & Hp0 & Hin)%list_elem_of_fmap.
    set (l := retain (fun p => negb (po_has_id id p)) (ws_positions s1)).
    assert (length l <> length (ws_positions s1)) as Hlen.
    { intros Hl. apply retain_same_length in Hl. rewrite Forall_forall in Hl.
      specialize (Hl p0 Hin). unfold po_has_id in Hl. by rewrite bool_decide_true in Hl. }
    exists (ws_set_positions s1 l). split; [|split].
    + apply apply_delta_push_position; [done|]. exists s1. split; [done|]. simpl. fold l.
      by rewrite (proj2 (Nat.eqb_neq _ _) Hlen).
    + simpl. intros (q & -> & Hq)%list_elem_of_fmap. apply retain_elem_of in Hq as [_ Hq].
      unfold po_has_id in Hq. by rewrite bool_decide_true in Hq.
    + intros p Hp. simpl. unfold l. rewrite retain_elem_of. unfold po_has_id.
      rewrite bool_decide_false by done. naive_solver.
Qed.

(** An [upsert] round trip: when the delta so far says nothing about a position, applying
    the patch an [upsert] records makes the position exactly the mutated one, and leaves
    every other identifier and the number of positions as they were. *)
Theorem upsert_applies f m1 m2 s d s1 id mutate p :
  sd_gas_paid d = None -> Forall keeps_id (sd_position_changes d) ->
  Forall (avoids_id id) (sd_position_changes d) -> apply_delta s d = Ok s1 ->
  find_first (po_has_id id) (ws_positions s) = Some p ->
  f (po_kind p) = true -> f (po_kind (mutate p)) = true -> po_id (mutate p) = id ->
  exists d' s2, upsert_kind f m1 m2 s d id mutate = Ok d' /\ apply_delta s d' = Ok s2 /\
    find_first (po_has_id id) (ws_positions s2) = Some (mutate p) /\
    length (ws_positions s2) = length (ws_positions s1) /\
    forall id', id' <> id ->
      find_first (po_has_id id') (ws_positions s2) = find_first (po_has_id id') (ws_positions s1).
Proof.
  intros Hg Hk Hav Ha Hp Hf Hf' Hid.
  destruct (apply_snapshot_update s1 id p (mutate p)) as (s2 & H2 & Hr);
    [by rewrite (apply_delta_avoids _ _ _ _ Hk Hav Ha)|done|].
  eexists _, s2. split; [apply upsert_kind_Ok; exists p; split; [by rewrite effective_position_avoids|eauto]|].
  split; [|done]. apply apply_delta_push_position; eauto.
Qed.

(** Two mutations of one position in the same delta do not compose: the second starts from
    the position as it was before the first, so applying the delta keeps only the second. *)
Theorem second_upsert_discards_first f m1 m2 s id mutate1 mutate2 p :
  find_first (po_has_id id) (ws_positions s) = Some p ->
  f (po_kind p) = true -> f (po_kind (mutate1 p)) = true -> f (po_kind (mutate2 p)) = true ->
  po_id (mutate1 p) = id -> po_id (mutate2 p) = id ->
  exists d1 d2 s2, upsert_kind f m1 m2 s StateDelta_default id mutate1 = Ok d1 /\
    upsert_kind f m1 m2 s d1 id mutate2 = Ok d2 /\ apply_delta s d2 = Ok s2 /\
    find_first (po_has_id id) (ws_positions s2) = Some (mutate2 p).
Proof.
  intros Hp Hf Hf1 Hf2 Hid1 Hid2.
  destruct (apply_snapshot_update s id p (mutate1 p) Hp Hid1) as (s1 & H1 & Hs1 & _).
  destruct (apply_snapshot_update s1 id (mutate1 p) (mutate2 p) Hs1 Hid2) as (s2 & H2 & Hs2 & _).
  eexists _, _, s2. split; [apply upsert_kind_Ok; exists p; eauto|].
  split; [apply upsert_kind_Ok; exists p; eauto|]. split; [|done].
  apply apply_delta_push_position; [done|]. exists s1. split; [|done].
  apply apply_delta_push_position; [done|]. eauto.
Qed.
End Properties.

(** ** Witnesses *)
Lemma open_position_exact_witness :
  (exists d', open_position demo_wallet demo_delta (demo_position None) = Ok d') /\
  is_ok (apply_delta (H := demo_serde) demo_wallet demo_delta) = true /\
  forall s1, apply_delta (H := demo_serde) demo_wallet demo_delta = Ok s1 ->
    ws_positions s1 = [] ->
    po_id (demo_position None) ∉ po_id <$> ws_positions s1.
Proof.
  split; [eexists; vm_compute; reflexivity|]. split; [vm_compute; reflexivity|].
  intros s1 H1 Hp.
  apply (open_position_exact (H := demo_serde) demo_wallet demo_delta s1 (demo_position None));
    [reflexivity|constructor|exact H1|rewrite Hp; constructor|].
  eexists; vm_compute; reflexivity.
Defined.

Lemma close_position_exact_witness :
  exists d' s2, close_position demo_lending_wallet StateDelta_default "lend:1" = Ok d' /\
    apply_delta (H := demo_serde) demo_lending_wallet d' = Ok s2 /\
    "lend:1" ∉ po_id <$> ws_positions s2.
Proof.
  eexists.
  destruct (close_position_exact (H := demo_serde) demo_lending_wallet StateDelta_default
    demo_lending_wallet "lend:1" ltac:(reflexivity) ltac:(constructor) ltac:(reflexivity)) as [_ Hc].
  destruct (Hc _ ltac:(reflexivity)) as (s2 & Hs & Hn & _).
  exists s2. split; [reflexivity|]. split; [exact Hs|exact Hn].
Defined.

Lemma upsert_applies_witness :
  exists d' s2,
    upsert_lending_account (H := demo_serde) demo_lending_wallet StateDelta_default "lend:1"
      (fun _ => demo_position (Some 1)) = Ok d' /\
    apply_delta (H := demo_serde) demo_lending_wallet d' = Ok s2 /\
    find_first (po_has_id "lend:1") (ws_positions s2) = Some (demo_position (Some 1)).
Proof.
  destruct (upsert_applies (H := demo_serde) is_lending
    "position {position_id} exists but is not a LendingAccount"
    "position {position_id} mutate changed kind away from LendingAccount"
    demo_lending_wallet StateDelta_default demo_lending_wallet "lend:1"
    (fun _ => demo_position (Some 1)) (demo_position None)
    ltac:(reflexivity) ltac:(constructor) ltac:(constructor) ltac:(reflexivity)
    ltac:(reflexivity) ltac:(reflexivity) ltac:(reflexivity) ltac:(reflexivity))
    as (d' & s2 & Hd & Hs & Hf & _).
  exists d', s2. split; [exact Hd|]. split; [exact Hs|exact Hf].
Defined.

Lemma second_upsert_discards_first_witness :
  exists d1 d2 s2,
    upsert_lending_account (H := demo_serde) demo_lending_wallet StateDelta_default "lend:1"
      (fun _ => demo_position (Some 1)) = Ok d1 /\
    upsert_lending_account (H := demo_serde) demo_lending_wallet d1 "lend:1"
      (fun p => p) = Ok d2 /\
    apply_delta (H := demo_serde) demo_lending_wallet d2 = Ok s2 /\
    find_first (po_has_id "lend:1") (ws_positions s2) = Some (demo_position None).
Proof.
  apply (second_upsert_discards_first (H := demo_serde) is_lending
    "position {position_id} exists but is not a LendingAccount"
    "position {position_id} mutate changed kind away from LendingAccount"
    demo_lending_wallet "lend:1" (fun _ => demo_position (Some 1)) (fun p => p)
    (demo_position None)); reflexivity.
Defined.
