(* ===== verification/Replay.v ===== *)
(** * Deltas that replay

    A reducer computes its delta against the wallet it is given; the caller
    later feeds that delta to [apply_delta]. [replayable s d] says the second
    step cannot fail, and this file shows that each primitive a reducer is built
    from (debit, credit, mint stub, approval, open, upsert, pending) keeps it. *)
From stdpp Require Import base tactics numbers list strings gmap.
From S2P Require Import Prelude Types Positions Wallet Serde Fixtures Delta BalanceOps ApprovalOps PositionOps.

Section Replay.
Context `{L : PositionSerdeLaws}.

Record replayable (s : WalletState) (d : StateDelta) : Prop := {
  rp_gas : sd_gas_paid d = None;
  rp_tokens : Forall wf_token_change (sd_token_changes d);
  rp_ids : Forall keeps_id (sd_position_changes d);
  rp_runs : exists s', apply_delta s d = Ok s';
}.

Lemma replayable_default s : replayable s StateDelta_default.
Proof. split; try done; [constructor..|]. by exists s. Qed.

(** A token change that applies to the advanced state extends the delta. *)
Lemma replayable_push_token s d tc :
  replayable s d -> wf_token_change tc ->
  (forall s1, apply_delta s d = Ok s1 -> exists s2, apply_token_change s1 tc = Ok s2) ->
  replayable s (push_token d tc).
Proof.
  intros [Hg Ht Hi [s1 H1]] Hw Hs. destruct (Hs s1 H1) as [s2 H2]. split; try done.
  - simpl. apply Forall_app. by auto.
  - exists s2. apply apply_delta_push_token; eauto.
Qed.

Lemma replayable_debit s d k amt d' :
  replayable s d -> u256 amt -> debit s d k amt = Ok d' -> replayable s d'.
Proof.
  intros [Hg Ht Hi [s1 H1]] Hu Hd. pose proof (debit_gas _ _ _ _ _ Hd) as Hg'.
  destruct (debit_applies _ _ _ _ _ _ Hg Hu H1 Hd) as (s2 & H2 & _).
  apply debit_Ok in Hd as (e & _ & _ & ->). split; [by rewrite Hg'| |done|eauto].
  simpl. apply Forall_app. split; [done|by repeat constructor].
Qed.

Lemma replayable_wf s d s1 : wf_state s -> replayable s d -> apply_delta s d = Ok s1 -> wf_state s1.
Proof.
  intros Hw [Hg Ht _ _] H1. eapply apply_delta_wf; [done|done| |done]. by rewrite Hg.
Qed.

Lemma replayable_credit s d k amt d' :
  wf_state s -> replayable s d -> 0 <= amt -> credit s d k amt = Ok d' -> replayable s d'.
Proof.
  intros Hw Hr Ha Hc. pose proof Hr as [Hg Ht Hi [s1 H1]]. pose proof (credit_gas _ _ _ _ _ Hc) as Hg'.
  pose proof Hc as [[b Hb] ->]%credit_Ok.
  pose proof (effective_is_applied _ _ _ _ _ Hg H1 (effective_exists_iff s d k b Hb)) as Hs.
  pose proof (wf_signed _ _ _ (replayable_wf _ _ _ Hw Hr H1) Hs) as Hpos.
  destruct (credit_applies _ _ _ _ _ _ _ Hg H1 Hs Hpos Ha Hc) as (s2 & H2 & _).
  split; [by rewrite Hg'| |done|eauto]. simpl. apply Forall_app. split; [done|by repeat constructor].
Qed.

(** Balance changes leave positions alone. *)
Lemma push_token_positions s d tc s1 s2 :
  sd_gas_paid d = None -> apply_delta s d = Ok s1 -> apply_delta s (push_token d tc) = Ok s2 ->
  ws_positions s2 = ws_positions s1.
Proof.
  intros Hg H1 H2. apply apply_delta_push_token in H2 as (s1' & H1' & H2); [|done].
  rewrite H1 in H1'. injection H1' as <-. apply apply_token_change_local in H2 as (t & a & -> & _). done.
Qed.

Lemma credit_positions s d k amt d' :
  credit s d k amt = Ok d' -> sd_position_changes d' = sd_position_changes d.
Proof. by intros [_ ->]%credit_Ok. Qed.
Lemma debit_positions s d k amt d' :
  debit s d k amt = Ok d' -> sd_position_changes d' = sd_position_changes d.
Proof. by intros (e & _ & _ & ->)%debit_Ok. Qed.

(** The whole effect of one more credit, and of one more debit. *)
Lemma credit_settles s d s1 k amt d' :
  wf_state s -> replayable s d -> apply_delta s d = Ok s1 -> 0 <= amt -> credit s d k amt = Ok d' ->
  exists s2, apply_delta s d' = Ok s2 /\
    (fungible_balance s1 k + amt <= I256_MAX -> fungible_balance s2 k = fungible_balance s1 k + amt) /\
    (forall k', k' <> k -> ws_tokens s2 !! k' = ws_tokens s1 !! k') /\
    ws_positions s2 = ws_positions s1.
Proof.
  intros Hw Hr H1 Ha Hc. pose proof Hr as [Hg _ _ _]. pose proof Hc as [[b Hb] Hpush]%credit_Ok.
  pose proof (effective_is_applied _ _ _ _ _ Hg H1 (effective_exists_iff s d k b Hb)) as Hs.
  pose proof (wf_signed _ _ _ (replayable_wf _ _ _ Hw Hr H1) Hs) as Hpos.
  destruct (credit_applies _ _ _ _ _ _ _ Hg H1 Hs Hpos Ha Hc) as (s2 & H2 & Hbal & Hf).
  exists s2. split; [done|]. split; [|split; [done|]].
  - intros Hle. rewrite (signed_fungible _ _ _ Hs) in Hbal by lia.
    rewrite Hbal, u256_to_signed_small by (pose proof (wf_fungible s1 k (replayable_wf _ _ _ Hw Hr H1)); lia).
    apply i256_saturating_add_exact. pose proof (wf_fungible s1 k (replayable_wf _ _ _ Hw Hr H1)).
    pose proof int_bounds. lia.
  - rewrite Hpush in H2. by apply (push_token_positions _ _ _ _ _ Hg H1) in H2.
Qed.

Lemma debit_settles s d s1 k amt d' :
  replayable s d -> apply_delta s d = Ok s1 -> 0 <= amt <= I256_MAX -> debit s d k amt = Ok d' ->
  exists s2, apply_delta s d' = Ok s2 /\
    (fungible_balance s1 k <= I256_MAX -> fungible_balance s2 k = fungible_balance s1 k - amt) /\
    (forall k', k' <> k -> ws_tokens s2 !! k' = ws_tokens s1 !! k') /\
    ws_positions s2 = ws_positions s1.
Proof.
  intros Hr H1 Ha Hd. pose proof Hr as [Hg _ _ _].
  destruct (debit_applies _ _ _ _ _ _ Hg (u256_of_signed _ Ha) H1 Hd) as (s2 & H2 & Hs & _ & Hf).
  exists s2. split; [done|]. split; [|split; [done|]].
  - intros Hle. apply signed_fungible in Hs; [|done]. rewrite u256_to_signed_small in Hs by lia. lia.
  - apply debit_Ok in Hd as (e & _ & _ & ->). by apply (push_token_positions _ _ _ _ _ Hg H1) in H2.
Qed.

(** The loops over lists of token amounts. *)
Lemma replayable_debits s l d d' :
  Forall (fun p => u256 (p.2)) l ->
  foldM (fun d '(t, a) => debit s d (tr_key t) a) l d = Ok d' -> replayable s d -> replayable s d'.
Proof.
  intros Hl. revert d. induction Hl as [|[t a] l Ha _ IH]; simpl; intros d Hf Hr; inv_ok; [done|].
  eapply IH; [done|]. by eapply replayable_debit.
Qed.

Lemma replayable_credits s l d d' :
  wf_state s -> Forall (fun p => 0 <= p.2) l ->
  foldM (fun d '(t, a) => credit s d (tr_key t) a) l d = Ok d' -> replayable s d -> replayable s d'.
Proof.
  intros Hw Hl. revert d. induction Hl as [|[t a] l Ha _ IH]; simpl; intros d Hf Hr; inv_ok; [done|].
  eapply IH; [done|]. by eapply replayable_credit.
Qed.

(** Approval changes on a token with a contract always apply. *)
Lemma replayable_approval_set s d key sp al :
  replayable s d -> key_contract key <> None -> u256 (al_amount al) ->
  replayable s (push_token d (TcApprovalSet key sp al)).
Proof.
  intros Hr Hk Hu. apply replayable_push_token; [done|done|]. intros s1 _.
  by apply apply_approval_set_total.
Qed.

Lemma replayable_approval_revoke s d key sp sc :
  replayable s d -> key_contract key <> None -> sc <> ScopeErc721Token ->
  replayable s (push_token d (ApprovalRevoke key sp sc)).
Proof.
  intros Hr Hk Hsc. apply replayable_push_token; [done|done|]. intros s1 _.
  by apply apply_approval_revoke_total.
Qed.

Lemma replayable_pending_add s d p : replayable s d -> replayable s (push_pending d (PendingAdd p)).
Proof.
  intros [Hg Ht Hi [s1 H1]]. split; try done. eexists. apply apply_delta_push_pending; [done|].
  exists s1. split; [done|reflexivity].
Qed.

(** Removing a pending transaction that is there. *)
Lemma replayable_pending_remove s id r :
  existsb (pt_has_id id) (ws_pending s) = true ->
  replayable s (push_pending StateDelta_default (PendingRemove id r)).
Proof.
  intros Hex. split; try done; [constructor..|]. unfold apply_delta. simpl.
  destruct (Nat.eqb_spec (length (retain (fun p => negb (pt_has_id id p)) (ws_pending s)))
    (length (ws_pending s))) as [Hl|]; [|by eexists].
  exfalso. apply existsb_exists in Hex as (p & Hin%list_elem_of_In & Hp).
  apply retain_same_length in Hl. rewrite Forall_forall in Hl. specialize (Hl p Hin).
  by rewrite Hp in Hl.
Qed.

(** Positions: a new identifier opens, a snapshot of an existing one applies. *)
Lemma replayable_push_open s d p : replayable s d -> replayable s (push_position d (Open p)).
Proof.
  intros [Hg Ht Hi [s1 H1]]. split; try done.
  - simpl. apply Forall_app. split; [done|by repeat constructor].
  - eexists. apply apply_delta_push_position; [done|]. exists s1. split; [done|reflexivity].
Qed.

Lemma replayable_open s d p d' :
  replayable s d -> open_position s d p = Ok d' -> replayable s d'.
Proof. intros Hr Ho. unfold open_position in Ho. run_ok. by apply replayable_push_open. Qed.

Lemma last_decision_id id l p : last_decision id l = Some (Some p) -> po_id p = id.
Proof.
  induction l as [|[q|i pt|i] l IH]; simpl; [done|..]; intros Hl; [|by auto|].
  - destruct (po_has_id id q) eqn:Hq; [|by auto]. simplify_eq. by apply bool_decide_eq_true in Hq.
  - case_bool_decide; [done|by auto].
Qed.

Lemma effective_position_id s d id p : effective_position s d id = Some p -> po_id p = id.
Proof.
  unfold effective_position. destruct (last_decision _ _) as [o|] eqn:Hl; intros Hp.
  - subst o. by eapply last_decision_id.
  - apply find_first_Some in Hp as [_ Hp]. by apply bool_decide_eq_true in Hp.
Qed.

Lemma replayable_upsert f m1 m2 s d id mutate d' :
  replayable s d -> (forall p, po_id (mutate p) = po_id p) ->
  upsert_kind f m1 m2 s d id mutate = Ok d' -> replayable s d'.
Proof.
  intros [Hg Ht Hi [s1 H1]] Hm Hu. apply upsert_kind_Ok in Hu as (p & Hp & _ & _ & ->).
  assert (po_id (mutate p) = id) as Hid by (rewrite Hm; by eapply effective_position_id).
  assert (is_Some (find_first (po_has_id id) (ws_positions s1))) as [q Hq].
  { apply (bool_decide_eq_true _). rewrite <- existsb_find_first.
    rewrite <- (effective_exists_applied s d s1 id Hi H1), effective_exists_position, Hp.
    by apply bool_decide_eq_true. }
  destruct (apply_snapshot_update s1 id q (mutate p) Hq Hid) as (s2 & H2 & _).
  split; try done.
  - simpl. apply Forall_app. split; [done|]. repeat constructor. by apply snapshot_keeps_id.
  - exists s2. apply apply_delta_push_position; eauto.
Qed.

(** A snapshot written over a position that is there, and a close of one. *)
Lemma update_settles s d s1 p p' :
  sd_gas_paid d = None -> apply_delta s d = Ok s1 ->
  find_first (po_has_id (po_id p')) (ws_positions s1) = Some p ->
  exists s2, apply_delta s (push_position d (Update (po_id p') (snapshot_patch p'))) = Ok s2 /\
    find_first (po_has_id (po_id p')) (ws_positions s2) = Some p' /\ ws_tokens s2 = ws_tokens s1 /\
    ws_wallet_id s2 = ws_wallet_id s1.
Proof.
  intros Hg H1 Hp. destruct (apply_snapshot_update s1 _ p p' Hp eq_refl) as (s2 & H2 & Hf & _).
  exists s2. split; [apply apply_delta_push_position; eauto|]. split; [done|].
  by apply apply_position_change_local in H2 as (l & -> & _).
Qed.

Lemma close_settles s d s1 id :
  sd_gas_paid d = None -> apply_delta s d = Ok s1 ->
  is_Some (find_first (po_has_id id) (ws_positions s1)) ->
  exists s2, apply_delta s (push_position d (Close id)) = Ok s2 /\
    ws_positions s2 = retain (fun p => negb (po_has_id id p)) (ws_positions s1) /\
    ws_tokens s2 = ws_tokens s1.
Proof.
  intros Hg H1 [p Hp]. apply find_first_Some in Hp as [Hin Hp].
  exists (ws_set_positions s1 (retain (fun p => negb (po_has_id id p)) (ws_positions s1))).
  split; [|done]. apply apply_delta_push_position; [done|]. exists s1. split; [done|]. simpl.
  destruct (Nat.eqb_spec (length (retain (fun p => negb (po_has_id id p)) (ws_positions s1)))
    (length (ws_positions s1))) as [Hl|]; [|done].
  apply retain_same_length in Hl. rewrite Forall_forall in Hl. specialize (Hl p Hin).
  by rewrite Hp in Hl.
Qed.

(** A delta does not change whose wallet it is. *)
Lemma wallet_id_kept s d s' : apply_delta s d = Ok s' -> ws_wallet_id s' = ws_wallet_id s.
Proof.
  intros (s1 & s2 & s3 & H1 & H2 & H3 & H4)%apply_delta_phases.
  apply apply_gas_option_local in H4 as (t & -> & _). simpl.
  assert (forall {A} (f : WalletState -> A -> ReducerResult WalletState) l u u',
    (forall v x v', f v x = Ok v' -> ws_wallet_id v' = ws_wallet_id v) ->
    foldM f l u = Ok u' -> ws_wallet_id u' = ws_wallet_id u) as Hfold.
  { intros A f l u u' Hf. revert u. induction l as [|x l IH]; simpl; intros u Hu; inv_ok; [done|].
    etrans; [by eapply IH|by eapply Hf]. }
  apply Hfold in H1; [|by intros v x v' (? & ? & -> & _)%apply_token_change_local].
  apply Hfold in H2; [|by intros v x v' (? & -> & _)%apply_position_change_local].
  apply Hfold in H3; [|by intros v x v' (? & -> & _)%apply_pending_change_local]. congruence.
Qed.

(** A delta without position changes leaves the positions as they are. *)
Lemma same_positions s d s1 :
  apply_delta s d = Ok s1 -> sd_position_changes d = [] -> ws_positions s1 = ws_positions s.
Proof. intros (t1 & t2 & Ht & Hp & ->)%apply_delta_positions Hno. rewrite Hno in Hp. by injection Hp as <-. Qed.

Lemma effective_same s d id :
  sd_position_changes d = [] -> effective_position s d id = find_first (po_has_id id) (ws_positions s).
Proof. intros Hno. unfold effective_position. by rewrite Hno. Qed.

Lemma replayable_update s d p p' :
  replayable s d -> sd_position_changes d = [] ->
  find_first (po_has_id (po_id p')) (ws_positions s) = Some p ->
  replayable s (push_position d (Update (po_id p') (snapshot_patch p'))).
Proof.
  intros [Hg Ht Hi [s1 H1]] Hno Hp.
  destruct (update_settles s d s1 p p' Hg H1) as (s2 & H2 & _);
    [by rewrite (same_positions _ _ _ H1 Hno)|].
  split; try done; [|by eauto]. simpl. apply Forall_app. split; [done|]. repeat constructor.
  by apply snapshot_keeps_id.
Qed.

Lemma replayable_close s d id :
  replayable s d -> sd_position_changes d = [] ->
  is_Some (find_first (po_has_id id) (ws_positions s)) -> replayable s (push_position d (Close id)).
Proof.
  intros [Hg Ht Hi [s1 H1]] Hno Hp.
  destruct (close_settles s d s1 id Hg H1) as (s2 & H2 & _);
    [by rewrite (same_positions _ _ _ H1 Hno)|].
  split; try done; [|by eauto]. simpl. apply Forall_app. split; [done|]. by repeat constructor.
Qed.
End Replay.

#[export] Hint Resolve replayable_default replayable_debit replayable_credit replayable_open
  replayable_pending_add : dambi.
