(* ===== verification/TokenEffect.v ===== *)
(** * Token actions

    crates/asset-model/action/src/token (the actions) and
    crates/asset-model/transition/src/effect/token.rs (their reducers):
    allowances, EIP-2612 and Permit2 signatures, ERC-20 and NFT transfers,
    revocations. An off-chain signature becomes a pending entry that caps what
    the spender may pull. *)
From Stdlib Require Import Ascii.
From stdpp Require Import base tactics numbers list strings gmap pretty.
From S2P Require Import Prelude Types Positions Wallet Serde Fixtures Delta BalanceOps ApprovalOps.

(** ** Actions *)
Record Erc20ApproveAction := mkErc20ApproveAction {
  ea_token : TokenRef; ea_spender : Address; ea_amount : U256 }.
Record Erc20PermitAction := mkErc20PermitAction {
  ep_token : TokenRef; ep_spender : Address; ep_amount : U256; ep_deadline : Time;
  ep_nonce : LiveField U256 }.
Record Permit2ApproveAction := mkPermit2ApproveAction {
  pa_token : TokenRef; pa_spender : Address; pa_amount : U256; pa_expires_at : Time }.
Record Permit2SignAction := mkPermit2SignAction {
  ps_token : TokenRef; ps_spender : Address; ps_amount : U256; ps_expires_at : Time;
  ps_sig_deadline : Time; ps_nonce : LiveField (U256 * Z) }.
Record Permit2SignTransferAction := mkPermit2SignTransferAction {
  pst_token : TokenRef; pst_owner : Address; pst_spender : Address; pst_amount : U256;
  pst_nonce : LiveField (U256 * Z); pst_sig_deadline : Time; pst_witness_type : option string }.
Record Permit2TransferFromAction := mkPermit2TransferFromAction {
  ptf_token : TokenRef; ptf_owner : Address; ptf_spender : Address; ptf_recipient : Address;
  ptf_amount : U256; ptf_permitted_amount : U256; ptf_nonce : LiveField (U256 * Z);
  ptf_sig_deadline : Time; ptf_witness_type : option string }.
Record Erc20TransferAction := mkErc20TransferAction {
  et_token : TokenRef; et_recipient : Address; et_amount : U256; et_is_router_egress : bool }.
Record NftApproveAction := mkNftApproveAction { na_nft_key : TokenKey; na_spender : Address }.
Record NftSetForAllAction := mkNftSetForAllAction {
  ns_chain : ChainId; ns_contract : Address; ns_spender : Address; ns_approved : bool }.
Record NftTransferAction := mkNftTransferAction {
  nt_nft_key : TokenKey; nt_amount : option U256; nt_recipient : Address }.
Inductive RevokeScope :=
| RevokeErc20 (token : TokenRef) (spender : Address)
| NftSingleToken (nft_key : TokenKey)
| NftSetForAll (chain : ChainId) (contract spender : Address)
| Permit2Lockdown (token : TokenRef) (spender : Address)
| Permit2UnorderedNonce (chain : ChainId) (word_pos mask : U256).
Record RevokeApprovalAction := mkRevokeApprovalAction { ra_scope : RevokeScope }.
Record RefundNativeAction := mkRefundNativeAction { rn_token : TokenRef; rn_recipient : Address }.
Record WrapNativeAction := mkWrapNativeAction { wn_token : TokenRef; wn_amount : U256 }.
Record UnwrapNativeAction := mkUnwrapNativeAction { un_token : TokenRef; un_amount : U256 }.

Inductive TokenAction :=
| TaErc20Approve (a : Erc20ApproveAction)
| TaErc20Permit (a : Erc20PermitAction)
| TaPermit2Approve (a : Permit2ApproveAction)
| TaPermit2SignAllowance (a : Permit2SignAction)
| TaPermit2SignTransfer (a : Permit2SignTransferAction)
| TaPermit2TransferFrom (a : Permit2TransferFromAction)
| TaErc20Transfer (a : Erc20TransferAction)
| TaNftApprove (a : NftApproveAction)
| TaNftSetApprovalForAll (a : NftSetForAllAction)
| TaNftTransfer (a : NftTransferAction)
| TaRevokeApproval (a : RevokeApprovalAction)
| TaRefundNative (a : RefundNativeAction)
| TaWrapNative (a : WrapNativeAction)
| TaUnwrapNative (a : UnwrapNativeAction).

(** [TokenAction::action_tag] *)
Definition token_action_tag (a : TokenAction) : string :=
  match a with
  | TaErc20Approve _ => "erc20_approve"
  | TaErc20Permit _ => "erc20_permit"
  | TaPermit2Approve _ => "permit2_approve"
  | TaPermit2SignAllowance _ => "permit2_sign_allowance"
  | TaPermit2SignTransfer _ => "permit2_sign_transfer"
  | TaPermit2TransferFrom _ => "permit2_transfer_from"
  | TaErc20Transfer _ => "erc20_transfer"
  | TaNftApprove _ => "nft_approve"
  | TaNftSetApprovalForAll _ => "nft_set_approval_for_all"
  | TaNftTransfer _ => "nft_transfer"
  | TaRevokeApproval _ => "revoke_approval"
  | TaRefundNative _ => "refund_native"
  | TaWrapNative _ => "wrap_native"
  | TaUnwrapNative _ => "unwrap_native"
  end.

(** ** Reducers *)

(** [pending_id_for_eip2612] *)
Definition pending_id_for_eip2612 (token_addr_hex spender_hex nonce : string) : string :=
  ("eip2612:" +:+ token_addr_hex +:+ ":" +:+ spender_hex +:+ ":" +:+ nonce)%string.
(** [pending_id_for_permit2] *)
Definition pending_id_for_permit2 (token_addr_hex spender_hex word : string) (bit : Z) : string :=
  ("permit2:" +:+ token_addr_hex +:+ ":" +:+ spender_hex +:+ ":" +:+ word +:+ ":" +:+ fmt_dec bit)%string.
(** [pending_id_for_permit2_transfer] *)
Definition pending_id_for_permit2_transfer (token_addr_hex owner_hex spender_hex word : string)
    (bit : Z) : string :=
  ("permit2-transfer:" +:+ token_addr_hex +:+ ":" +:+ owner_hex +:+ ":" +:+ spender_hex +:+ ":"
     +:+ word +:+ ":" +:+ fmt_dec bit)%string.

Definition apply_erc20_approve (a : Erc20ApproveAction) (state : WalletState) (ctx : EvalContext)
    : ReducerResult StateDelta :=
  set_erc20_allowance state StateDelta_default (cx_now ctx) (ea_token a) (ea_spender a) (ea_amount a).

Definition apply_erc20_permit (a : Erc20PermitAction) (state : WalletState) (ctx : EvalContext)
    : ReducerResult StateDelta :=
  match tr_key (ep_token a) with
  | Erc20 _ token_addr =>
      let nonce_value := lf_value (ep_nonce a) in
      let pending := {|
        pt_id := pending_id_for_eip2612 (lowercase_hex token_addr) (lowercase_hex (ep_spender a))
                   (fmt_dec nonce_value);
        pt_kind := SignedEIP2612 (ep_token a) (ep_spender a) (ep_amount a) (ep_deadline a) nonce_value;
        pt_commitment := PermitCap (ep_token a) (ep_spender a) (ep_amount a);
        pt_fill_effect := StateDelta_default;
        pt_lifecycle := mkPendingLifecycle Active (Some (ep_deadline a))
                          (Some (NonceEip2612 token_addr nonce_value)) None None;
        pt_sync := UserSupplied;
        pt_signed_at := cx_now ctx;
        pt_signature_payload := [] |} in
      Ok (push_pending StateDelta_default (PendingAdd pending))
  | _ => Err (Invariant "Erc20PermitAction.token must be Erc20")
  end.

Definition apply_permit2_approve (a : Permit2ApproveAction) (state : WalletState)
    (ctx : EvalContext) : ReducerResult StateDelta :=
  upsert_permit2_allowance state StateDelta_default (pa_token a) (pa_spender a) (pa_amount a)
    (pa_expires_at a).

Definition apply_permit2_sign (a : Permit2SignAction) (state : WalletState) (ctx : EvalContext)
    : ReducerResult StateDelta :=
  match tr_key (ps_token a) with
  | Erc20 _ token_addr =>
      let '(word, bit) := lf_value (ps_nonce a) in
      let pending := {|
        pt_id := pending_id_for_permit2 (lowercase_hex token_addr) (lowercase_hex (ps_spender a))
                   (fmt_dec word) bit;
        pt_kind := SignedPermit2 (ps_token a) (ps_spender a) (ps_amount a) (ps_expires_at a) (word, bit);
        pt_commitment := PermitCap (ps_token a) (ps_spender a) (ps_amount a);
        pt_fill_effect := StateDelta_default;
        pt_lifecycle := mkPendingLifecycle Active (Some (ps_expires_at a))
                          (Some (NoncePermit2 word bit)) None None;
        pt_sync := UserSupplied;
        pt_signed_at := cx_now ctx;
        pt_signature_payload := [] |} in
      Ok (push_pending StateDelta_default (PendingAdd pending))
  | _ => Err (Invariant "Permit2SignAction.token must be Erc20")
  end.

Definition apply_permit2_sign_transfer (a : Permit2SignTransferAction) (state : WalletState)
    (ctx : EvalContext) : ReducerResult StateDelta :=
  if negb (pst_owner a =? wi_address (ws_wallet_id state)) then Ok StateDelta_default
  else
    match tr_key (pst_token a) with
    | Erc20 _ token_addr =>
        let '(word, bit) := lf_value (pst_nonce a) in
        let pending := {|
          pt_id := pending_id_for_permit2_transfer (lowercase_hex token_addr)
                     (lowercase_hex (pst_owner a)) (lowercase_hex (pst_spender a))
                     (fmt_dec word) bit;
          pt_kind := SignedPermit2Transfer (pst_token a) (pst_owner a) (pst_spender a)
                       (pst_amount a) (pst_sig_deadline a) (word, bit) (pst_witness_type a);
          pt_commitment := PermitCap (pst_token a) (pst_spender a) (pst_amount a);
          pt_fill_effect := StateDelta_default;
          pt_lifecycle := mkPendingLifecycle Active (Some (pst_sig_deadline a))
                            (Some (NoncePermit2 word bit)) None None;
          pt_sync := UserSupplied;
          pt_signed_at := cx_now ctx;
          pt_signature_payload := [] |} in
        Ok (push_pending StateDelta_default (PendingAdd pending))
    | _ => Err (Invariant "Permit2SignTransferAction.token must be Erc20")
    end.

Definition apply_permit2_transfer_from (a : Permit2TransferFromAction) (state : WalletState)
    (ctx : EvalContext) : ReducerResult StateDelta :=
  if negb (ptf_owner a =? wi_address (ws_wallet_id state)) then Ok StateDelta_default
  else if negb (key_is_erc20 (tr_key (ptf_token a))) then
    Err (Invariant "Permit2TransferFromAction.token must be Erc20")
  else transfer state StateDelta_default (tr_key (ptf_token a)) (ptf_recipient a) (ptf_amount a).

Definition apply_erc20_transfer (a : Erc20TransferAction) (state : WalletState) (ctx : EvalContext)
    : ReducerResult StateDelta :=
  transfer state StateDelta_default (tr_key (et_token a)) (et_recipient a) (et_amount a).

Definition apply_nft_approve (a : NftApproveAction) (state : WalletState) (ctx : EvalContext)
    : ReducerResult StateDelta :=
  set_nft_approve state StateDelta_default (cx_now ctx) (na_nft_key a) (na_spender a).

Definition apply_nft_set_for_all (a : NftSetForAllAction) (state : WalletState) (ctx : EvalContext)
    : ReducerResult StateDelta :=
  set_for_all state StateDelta_default (cx_now ctx) (ns_chain a) (ns_contract a) (ns_spender a)
    (ns_approved a).

Definition apply_nft_transfer (a : NftTransferAction) (state : WalletState) (ctx : EvalContext)
    : ReducerResult StateDelta :=
  transfer_nft state StateDelta_default (nt_nft_key a) (nt_recipient a) (nt_amount a).

Definition apply_revoke_approval (a : RevokeApprovalAction) (state : WalletState)
    (ctx : EvalContext) : ReducerResult StateDelta :=
  match ra_scope a with
  | RevokeErc20 token spender => revoke_erc20_allowance state StateDelta_default token spender
  | NftSingleToken nft_key => set_nft_approve state StateDelta_default 0 nft_key 0
  | NftSetForAll chain contract spender =>
      set_for_all state StateDelta_default 0 chain contract spender false
  | Permit2Lockdown token spender => revoke_permit2_allowance state StateDelta_default token spender
  | Permit2UnorderedNonce _ _ _ => Ok StateDelta_default
  end.

(** [impl Reducer for TokenAction] *)
Definition apply_token_action (a : TokenAction) (state : WalletState) (ctx : EvalContext)
    : ReducerResult StateDelta :=
  match a with
  | TaErc20Approve a => apply_erc20_approve a state ctx
  | TaErc20Permit a => apply_erc20_permit a state ctx
  | TaPermit2Approve a => apply_permit2_approve a state ctx
  | TaPermit2SignAllowance a => apply_permit2_sign a state ctx
  | TaPermit2SignTransfer a => apply_permit2_sign_transfer a state ctx
  | TaPermit2TransferFrom a => apply_permit2_transfer_from a state ctx
  | TaErc20Transfer a => apply_erc20_transfer a state ctx
  | TaNftApprove a => apply_nft_approve a state ctx
  | TaNftSetApprovalForAll a => apply_nft_set_for_all a state ctx
  | TaNftTransfer a => apply_nft_transfer a state ctx
  | TaRevokeApproval a => apply_revoke_approval a state ctx
  | TaRefundNative _ | TaWrapNative _ | TaUnwrapNative _ => Ok StateDelta_default
  end.

(** ** Lemmas *)

(** Strings without the separator of the identifiers. *)
Fixpoint no_colon (s : string) : bool :=
  match s with
  | EmptyString => true
  | String c s => negb (Ascii.eqb c ":"%char) && no_colon s
  end.

Lemma no_colon_split a b x y :
  no_colon a = true -> no_colon b = true ->
  (a +:+ ":" +:+ x = b +:+ ":" +:+ y)%string -> a = b /\ x = y.
Proof.
  revert b; induction a as [|c a IH]; intros [|c' b] Ha Hb Heq; simpl in *; to_prop.
  - injection Heq as Heq. done.
  - injection Heq as Hc _. subst c'. done.
  - injection Heq as Hc _. subst c. done.
  - injection Heq as Hc Heq. subst c'. destruct (IH b) as [-> ->]; done.
Qed.

Lemma pretty_N_char_no_colon x : Ascii.eqb (pretty_N_char x) ":"%char = false.
Proof. unfold pretty_N_char. by repeat case_match. Qed.

Lemma pretty_N_go_no_colon x s : no_colon s = true -> no_colon (pretty_N_go x s) = true.
Proof.
  revert s. induction (N.lt_wf_0 x) as [x _ IH]; intros s Hs.
  destruct (decide (x = 0%N)) as [->|]; [done|].
  rewrite pretty_N_go_step by lia. apply IH; [apply N.div_lt; lia|].
  simpl. by rewrite pretty_N_char_no_colon.
Qed.

Lemma fmt_dec_no_colon z : no_colon (fmt_dec z) = true.
Proof.
  unfold fmt_dec, pretty, pretty_Z. destruct z as [|p|p]; [done|..];
    unfold pretty, pretty_positive, pretty, pretty_N; case_decide; try done; simpl;
    by apply pretty_N_go_no_colon.
Qed.

Lemma pending_id_eip2612_inj t1 s1 n1 t2 s2 n2 :
  addr160 t1 -> addr160 t2 -> addr160 s1 -> addr160 s2 ->
  pending_id_for_eip2612 (lowercase_hex t1) (lowercase_hex s1) (fmt_dec n1) =
  pending_id_for_eip2612 (lowercase_hex t2) (lowercase_hex s2) (fmt_dec n2) ->
  t1 = t2 /\ s1 = s2 /\ n1 = n2.
Proof.
  intros Ht1 Ht2 Hs1 Hs2 Heq. unfold pending_id_for_eip2612 in Heq.
  apply (string_app_inj "eip2612:" "eip2612:") in Heq as [_ Heq]; [|reflexivity].
  apply string_app_inj in Heq as [Ht Heq]; [|by rewrite !lowercase_hex_length].
  apply (string_app_inj ":" ":") in Heq as [_ Heq]; [|reflexivity].
  apply string_app_inj in Heq as [Hs Heq]; [|by rewrite !lowercase_hex_length].
  apply (string_app_inj ":" ":") in Heq as [_ Heq]; [|reflexivity].
  split; [by apply lowercase_hex_inj|]. split; [by apply lowercase_hex_inj|].
  by apply (inj pretty) in Heq.
Qed.

Lemma pending_id_permit2_inj t1 s1 w1 b1 t2 s2 w2 b2 :
  addr160 t1 -> addr160 t2 -> addr160 s1 -> addr160 s2 ->
  pending_id_for_permit2 (lowercase_hex t1) (lowercase_hex s1) (fmt_dec w1) b1 =
  pending_id_for_permit2 (lowercase_hex t2) (lowercase_hex s2) (fmt_dec w2) b2 ->
  t1 = t2 /\ s1 = s2 /\ w1 = w2 /\ b1 = b2.
Proof.
  intros Ht1 Ht2 Hs1 Hs2 Heq. unfold pending_id_for_permit2 in Heq.
  apply (string_app_inj "permit2:" "permit2:") in Heq as [_ Heq]; [|reflexivity].
  apply string_app_inj in Heq as [Ht Heq]; [|by rewrite !lowercase_hex_length].
  apply (string_app_inj ":" ":") in Heq as [_ Heq]; [|reflexivity].
  apply string_app_inj in Heq as [Hs Heq]; [|by rewrite !lowercase_hex_length].
  apply (string_app_inj ":" ":") in Heq as [_ Heq]; [|reflexivity].
  apply no_colon_split in Heq as [Hw Hb]; [|apply fmt_dec_no_colon..].
  split; [by apply lowercase_hex_inj|]. split; [by apply lowercase_hex_inj|].
  split; by apply (inj pretty).
Qed.

(** No token reducer charges gas. *)
Lemma token_action_gas a s ctx d : apply_token_action a s ctx = Ok d -> sd_gas_paid d = None.
Proof.
  destruct a as [a|a|a|a|a|a|a|a|a|a|a|a|a|a]; simpl;
    unfold apply_erc20_approve, apply_erc20_permit, apply_permit2_approve, apply_permit2_sign,
      apply_permit2_sign_transfer, apply_permit2_transfer_from, apply_erc20_transfer,
      apply_nft_approve, apply_nft_set_for_all, apply_nft_transfer, apply_revoke_approval,
      set_erc20_allowance, upsert_permit2_allowance, revoke_erc20_allowance,
      revoke_permit2_allowance, set_for_all, set_nft_approve, transfer, transfer_nft;
    intros Ha; run_ok; try done; match goal with H : debit _ _ _ _ = _ |- _ =>
      apply debit_gas in H; done end.
Qed.

(** The amount a token action moves is a U256. *)
Definition wf_token_action (a : TokenAction) : Prop :=
  match a with
  | TaErc20Transfer a => u256 (et_amount a)
  | TaPermit2TransferFrom a => u256 (ptf_amount a)
  | TaNftTransfer a => match nt_amount a with Some x => u256 x | None => True end
  | _ => True
  end.

(** What the reducers leave unchecked: an NFT approval names a held NFT, and
    only fungible (ERC-1155) items are transferred. *)
Definition token_action_supported (s : WalletState) (a : TokenAction) : Prop :=
  match a with
  | TaNftApprove a => is_Some (ws_tokens s !! na_nft_key a)
  | TaNftTransfer a => key_is_nft (nt_nft_key a) = false
  | TaRevokeApproval a =>
      match ra_scope a with NftSingleToken k => is_Some (ws_tokens s !! k) | _ => True end
  | _ => True
  end.

Section Properties.
Context `{PositionSerde}.

Lemma apply_delta_default s : apply_delta s StateDelta_default = Ok s.
Proof. done. Qed.

Lemma erc20_has_contract k : key_is_erc20 k = true -> key_contract k <> None.
Proof. by destruct k. Qed.

Lemma push_approval_set_ok s key sp al :
  key_contract key <> None ->
  exists s', apply_delta s (push_token StateDelta_default (TcApprovalSet key sp al)) = Ok s'.
Proof.
  intros Hk. destruct (push_approval_set_applies s StateDelta_default s key sp al)
    as (s2 & v & ? & _); eauto.
Qed.

Lemma push_approval_revoke_ok s key sp sc :
  key_contract key <> None -> sc <> ScopeErc721Token ->
  exists s', apply_delta s (push_token StateDelta_default (ApprovalRevoke key sp sc)) = Ok s'.
Proof.
  intros Hk Hsc. destruct (push_approval_revoke_applies s StateDelta_default s key sp sc)
    as (s2 & v & ? & _); eauto.
Qed.

Lemma push_nft_approve_ok s key o :
  is_Some (ws_tokens s !! key) ->
  exists s', apply_delta s (push_token StateDelta_default (Erc721ApprovedTo key o)) = Ok s'.
Proof. intros [h Hh]. unfold apply_delta. simpl. rewrite Hh. simpl. eauto. Qed.

Lemma debit_default_ok s k amt d :
  u256 amt -> debit s StateDelta_default k amt = Ok d -> exists s', apply_delta s d = Ok s'.
Proof.
  intros Hamt Hd. destruct (debit_applies s StateDelta_default k amt d s) as (s2 & ? & _); eauto.
Qed.

(** Token reducers are sound for [apply_delta]: the delta of any well-formed token action
    that moves no ERC-721 and approves only NFTs the wallet holds can be applied. *)
Lemma token_action_delta_applies a s ctx d :
  wf_token_action a -> token_action_supported s a ->
  apply_token_action a s ctx = Ok d -> exists s', apply_delta s d = Ok s'.
Proof.
  intros Hwf Hsup Ha.
  destruct a as [a|a|a|a|a|a|a|a|a|a|[scope]|a|a|a]; simpl in *;
    unfold apply_erc20_approve, apply_erc20_permit, apply_permit2_approve, apply_permit2_sign,
      apply_permit2_sign_transfer, apply_permit2_transfer_from, apply_erc20_transfer,
      apply_nft_approve, apply_nft_set_for_all, apply_nft_transfer, apply_revoke_approval,
      set_erc20_allowance, upsert_permit2_allowance, revoke_erc20_allowance,
      revoke_permit2_allowance, set_for_all, set_nft_approve, transfer, transfer_nft in Ha;
    simpl in *; try destruct scope; run_ok; to_prop; try done;
    first [ by eauto
          | apply push_approval_set_ok; simpl; auto using erc20_has_contract
          | apply push_approval_revoke_ok; simpl; auto using erc20_has_contract
          | apply push_nft_approve_ok; done
          | eapply debit_default_ok; [|eassumption]; done
          | destruct (ns_approved a);
            [apply push_approval_set_ok|apply push_approval_revoke_ok]; done
          | rewrite H0 in Hwf; by eapply debit_default_ok ].
Qed.

(** Pending identifiers identify signatures: two EIP-2612 permits (token, spender, nonce)
    or two Permit2 allowances (token, spender, bitmap word and bit) get the same identifier
    only if they agree on all of them, and the two families never collide. *)
Theorem pending_ids_identify_signatures t1 s1 n1 w1 b1 t2 s2 n2 w2 b2 :
  addr160 t1 -> addr160 t2 -> addr160 s1 -> addr160 s2 ->
  (pending_id_for_eip2612 (lowercase_hex t1) (lowercase_hex s1) (fmt_dec n1) =
   pending_id_for_eip2612 (lowercase_hex t2) (lowercase_hex s2) (fmt_dec n2) <->
   t1 = t2 /\ s1 = s2 /\ n1 = n2) /\
  (pending_id_for_permit2 (lowercase_hex t1) (lowercase_hex s1) (fmt_dec w1) b1 =
   pending_id_for_permit2 (lowercase_hex t2) (lowercase_hex s2) (fmt_dec w2) b2 <->
   t1 = t2 /\ s1 = s2 /\ w1 = w2 /\ b1 = b2) /\
  pending_id_for_eip2612 (lowercase_hex t1) (lowercase_hex s1) (fmt_dec n1) <>
  pending_id_for_permit2 (lowercase_hex t2) (lowercase_hex s2) (fmt_dec w2) b2.
Proof.
  intros Ht1 Ht2 Hs1 Hs2. split; [|split].
  - split; [by apply pending_id_eip2612_inj|by intros (-> & -> & ->)].
  - split; [by apply pending_id_permit2_inj|by intros (-> & -> & -> & ->)].
  - by intros [=].
Qed.

(** Signing an ERC-20 permit changes nothing on chain and commits exactly the signed
    amount: applying the delta appends one active pending entry whose cap on the token is the
    amount (and zero on any other token) and leaves tokens, approvals and positions alone. *)
Theorem erc20_permit_commits a s ctx c addr :
  tr_key (ep_token a) = Erc20 c addr ->
  exists d p, apply_erc20_permit a s ctx = Ok d /\
    apply_delta s d = Ok (ws_set_pending s (ws_pending s ++ [p])) /\
    is_active_or_partial (pt_lifecycle p) = true /\
    forall k, cap_for (pt_commitment p) k = if bool_decide (k = Erc20 c addr) then ep_amount a else 0.
Proof.
  intros Hk. unfold apply_erc20_permit. rewrite Hk. eexists _, _. split; [done|].
  split; [done|]. split; [done|]. intros k. simpl. rewrite Hk.
  repeat case_bool_decide; congruence.
Qed.
End Properties.

(** ** Witnesses *)
Definition demo_transfer : Erc20TransferAction :=
  mkErc20TransferAction (mkTokenRef usdc_key) demo_spender 250000000 false.
Definition demo_permit : Erc20PermitAction :=
  mkErc20PermitAction (mkTokenRef usdc_key) demo_spender 77 1800000000 (demo_live 3).

Lemma pending_ids_identify_signatures_witness :
  pending_id_for_eip2612 (lowercase_hex usdc_addr) (lowercase_hex demo_spender) (fmt_dec 3) <>
  pending_id_for_permit2 (lowercase_hex usdc_addr) (lowercase_hex demo_spender) (fmt_dec 0) 3.
Proof.
  apply (pending_ids_identify_signatures usdc_addr demo_spender 3 0 3 usdc_addr demo_spender 3 0 3);
    vm_compute; split; congruence.
Defined.

Lemma erc20_permit_commits_witness :
  exists d p, apply_erc20_permit demo_permit demo_wallet demo_ctx = Ok d /\
    apply_delta (H := demo_serde) demo_wallet d =
      Ok (ws_set_pending demo_wallet (ws_pending demo_wallet ++ [p])) /\
    is_active_or_partial (pt_lifecycle p) = true /\
    forall k, cap_for (pt_commitment p) k =
      if bool_decide (k = Erc20 demo_chain usdc_addr) then ep_amount demo_permit else 0.
Proof.
  apply (erc20_permit_commits (H := demo_serde) demo_permit demo_wallet demo_ctx demo_chain usdc_addr).
  reflexivity.
Defined.
