(* ===== verification/AmmTypes.v ===== *)
(** * AMM actions

    crates/asset-model/action/src/amm: venues, pool snapshots, routes, and the
    actions of the AMM domain. *)
From stdpp Require Import base tactics numbers list strings gmap.
From S2P Require Import Prelude Types Positions Wallet.

(** ** Venues and pools (amm/mod.rs) *)
Inductive BalancerPoolType :=
| PoolWeighted | PoolStable | ComposableStable | MetaStable | LiquidityBootstrapping | PoolLinear.

Inductive AmmVenue :=
| UniswapV2 (chain : ChainId) (pool factory : Address)
| UniswapV3 (chain : ChainId) (pool : Address) (fee_tier_bp : Z)
| UniswapV4 (chain : ChainId) (pool_id : string) (pool_manager hooks : Address)
| SushiV2 (chain : ChainId) (pool : Address)
| CurveV1 (chain : ChainId) (pool : Address) (n_coins : Z) (is_meta : bool)
| CurveV2 (chain : ChainId) (pool : Address)
| BalancerV2 (chain : ChainId) (vault : Address) (pool_id : string) (pool_type : BalancerPoolType)
| BalancerV3 (chain : ChainId) (pool_id : string) (pool_type : BalancerPoolType)
| TraderJoeLB (chain : ChainId) (pair : Address) (bin_step : Z)
| MaverickV2 (chain : ChainId) (pool : Address)
| AaveGsm (chain : ChainId) (gsm : Address)
| AggregatorRoute (chain : ChainId) (router : Address) (route_hash : string) (executor : option Address).

(** [AmmVenue::name] *)
Definition amm_venue_name (v : AmmVenue) : string :=
  match v with
  | UniswapV2 _ _ _ => "uniswap_v2"
  | UniswapV3 _ _ _ => "uniswap_v3"
  | UniswapV4 _ _ _ _ => "uniswap_v4"
  | SushiV2 _ _ => "sushi_v2"
  | CurveV1 _ _ _ _ => "curve_v1"
  | CurveV2 _ _ => "curve_v2"
  | BalancerV2 _ _ _ _ => "balancer_v2"
  | BalancerV3 _ _ _ => "balancer_v3"
  | TraderJoeLB _ _ _ => "trader_joe_l_b"
  | MaverickV2 _ _ => "maverick_v2"
  | AaveGsm _ _ => "aave_gsm"
  | AggregatorRoute _ _ _ _ => "aggregator_route"
  end.

Record TickSnapshot := mkTickSnapshot { ts_tick : Z; ts_liquidity_net : string }.
Record BinState := mkBinState { bs_id : Z; bs_reserve_in : U256; bs_reserve_out : U256 }.

Inductive PoolState :=
| XyConstant (reserve_in reserve_out : U256) (fee_bp : Z)
| PsConcentrated (sqrt_price_x96 : U256) (tick : Z) (liquidity : Z) (ticks : list TickSnapshot)
| StableV1 (balances : list U256) (a : Z) (fee_bp : Z)
| Cryptoswap (balances price_scale : list U256) (a_gamma : U256) (fee_bp : Z)
| PsWeighted (balances : list U256) (weights : list Z) (fee_bp : Z)
| PsStable (balances : list U256) (amp : Z) (fee_bp : Z)
| LiquidityBook (active_bin_id : Z) (bins : list BinState) (variable_fee_bp : Z)
| Maverick (mode : string) (raw : JSON)
| PsCustom (protocol : string) (raw : JSON).

(** ** Swaps (amm/swap.rs) *)
Inductive AggregatorKind :=
| OneInchV5 | OneInchV6 | ZeroExV2 | ParaswapV5 | ParaswapV6 | KyberswapV2 | Odos
| OkxAggregator | UniswapUniversalRouter | CowSwapSolver | AggCustom (name : string).

Record AggregatorMeta := mkAggregatorMeta {
  am_aggregator : AggregatorKind;
  am_router : Address;
  am_executor : option Address;
  am_raw_calldata_hash : string;
  am_permit_bundled : bool;
  am_referrer : option Address;
  am_referrer_fee_bp : Z;
}.

Record RouteHop := mkRouteHop {
  rh_token_in : TokenRef;
  rh_token_out : TokenRef;
  rh_venue : AmmVenue;
  rh_pool_state : PoolState;
  rh_effective_fee_bp : Z;
  rh_estimated_out : U256;
}.
Record RoutePath := mkRoutePath {
  rp_share_bp : Z;
  rp_hops : list RouteHop;
  rp_estimated_out : U256;
}.
Record SwapRoute := mkSwapRoute {
  sr_paths : list RoutePath;
  sr_aggregator : option AggregatorMeta;
}.
Record SwapLiveInputs := mkSwapLiveInputs {
  sl_route : LiveField SwapRoute;
  sl_expected_amount_out : LiveField U256;
  sl_price_impact_bp : LiveField Z;
  sl_gas_estimate : LiveField U256;
}.
Inductive SwapDirection :=
| ExactInput (amount_in min_amount_out : U256)
| ExactOutput (max_amount_in amount_out : U256).
Record SwapParams := mkSwapParams {
  sp_token_in : TokenRef;
  sp_token_out : option TokenRef;
  sp_direction : SwapDirection;
  sp_recipient : Address;
  sp_slippage_bp : Z;
}.
Record SwapAction := mkSwapAction {
  sw_venue : AmmVenue;
  sw_params : SwapParams;
  sw_live_inputs : SwapLiveInputs;
}.

(** ** Liquidity (amm/add_liquidity.rs, remove_liquidity.rs, collect_fees.rs) *)
Inductive AddLiquidityParams :=
| AddPooled (tokens : list (TokenRef * U256)) (min_lp_out : U256) (recipient : Address)
| ConcentratedMint (pool_pair : TokenRef * TokenRef) (amount_desired amount_min : U256 * U256)
    (range : RangeSpec) (recipient : Address)
| ConcentratedIncrease (nft_key : TokenKey) (amount_desired amount_min : U256 * U256).
Record AddLiquidityLiveInputs := mkAddLiquidityLiveInputs {
  alli_pool_state : LiveField PoolState;
  alli_current_price : LiveField Price;
}.
Record AddLiquidityAction := mkAddLiquidityAction {
  al_venue : AmmVenue;
  al_params : AddLiquidityParams;
  al_live_inputs : AddLiquidityLiveInputs;
}.

Inductive RemoveLiquidityParams :=
| PooledBurn (lp_token : TokenRef) (lp_amount : U256) (min_out : list (TokenRef * U256))
    (recipient : Address)
| ConcentratedDecrease (nft_key : TokenKey) (liquidity_burn : Z) (amount_min : U256 * U256)
| ConcentratedBurn (nft_key : TokenKey)
| PooledBurnOneCoin (lp_token : TokenRef) (lp_amount : U256) (token_out : TokenRef) (min_out : U256)
    (recipient : Address)
| PooledBurnImbalance (lp_token : TokenRef) (max_lp_burn : U256)
    (amounts_out : list (TokenRef * U256)) (recipient : Address).
Record RemoveLiquidityLiveInputs := mkRemoveLiquidityLiveInputs {
  rlli_pool_state : LiveField PoolState;
  rlli_fees_owed : LiveField (list (TokenRef * U256));
}.
Record RemoveLiquidityAction := mkRemoveLiquidityAction {
  rl_venue : AmmVenue;
  rl_params : RemoveLiquidityParams;
  rl_live_inputs : RemoveLiquidityLiveInputs;
}.

Record CollectFeesLiveInputs := mkCollectFeesLiveInputs {
  cfli_fees_owed : LiveField (list (TokenRef * U256));
}.
Record CollectFeesAction := mkCollectFeesAction {
  cf_venue : AmmVenue;
  cf_nft_key : TokenKey;
  cf_recipient : Address;
  cf_live_inputs : CollectFeesLiveInputs;
}.

(** ** GSM swaps (amm/gsm_swap.rs) *)
Inductive GsmSwapSide := BuyAsset | SellAsset.
Record GsmSwapAction := mkGsmSwapAction {
  gs_venue : AmmVenue;
  gs_asset : TokenRef;
  gs_gho : TokenRef;
  gs_side : GsmSwapSide;
  gs_amount : U256;
  gs_recipient : Address;
}.

(** ** Intent orders (amm/intent.rs) *)
Inductive IntentVenue :=
| UniswapX (chain : ChainId) (reactor : Address)
| CowSwap (chain : ChainId) (settlement : Address)
| OneInchFusion (chain : ChainId)
| Bebop (chain : ChainId)
| OneInchLimitOrder (chain : ChainId) (verifying_contract : Address).

(** [IntentVenue::name] *)
Definition intent_venue_name (v : IntentVenue) : string :=
  match v with
  | UniswapX _ _ => "uniswap_x"
  | CowSwap _ _ => "cow_swap"
  | OneInchFusion _ => "one_inch_fusion"
  | Bebop _ => "bebop"
  | OneInchLimitOrder _ _ => "one_inch_limit_order"
  end.

Inductive IntentOrderKind := IntentDutch | IntentLimit | IntentRfq.
Record SignIntentOrderLiveInputs := mkSignIntentOrderLiveInputs {
  sioli_expected_fill_price : LiveField Price;
  sioli_competing_orders : LiveField Z;
}.
Record SignIntentOrderAction := mkSignIntentOrderAction {
  si_venue : IntentVenue;
  si_sell : TokenRef;
  si_buy : TokenRef;
  si_sell_amount : U256;
  si_buy_min : U256;
  si_order_kind : IntentOrderKind;
  si_recipient : Address;
  si_valid_until : Time;
  si_live_inputs : SignIntentOrderLiveInputs;
}.
Record SettleIntentOrderAction := mkSettleIntentOrderAction {
  se_venue : IntentVenue;
  se_swapper : Address;
  se_sell : TokenRef;
  se_buy : TokenRef;
  se_sell_amount : U256;
  se_buy_min : U256;
  se_order_kind : IntentOrderKind;
  se_recipient : Address;
  se_valid_until : Time;
  se_order_nonce : U256;
  se_signature : option string;
}.
Record CancelIntentOrderAction := mkCancelIntentOrderAction {
  ci_venue : IntentVenue;
  ci_order_hash : string;
  ci_signature : option string;
}.
Record PreSignIntentOrderAction := mkPreSignIntentOrderAction {
  pi_venue : IntentVenue;
  pi_order_hash : string;
  pi_signed : bool;
}.

(** ** The domain's action (amm/mod.rs) *)
Inductive AmmAction :=
| Swap (a : SwapAction)
| GsmSwap (a : GsmSwapAction)
| AddLiquidity (a : AddLiquidityAction)
| RemoveLiquidity (a : RemoveLiquidityAction)
| CollectFees (a : CollectFeesAction)
| SignIntentOrder (a : SignIntentOrderAction)
| SettleIntentOrder (a : SettleIntentOrderAction)
| CancelIntentOrder (a : CancelIntentOrderAction)
| PreSignIntentOrder (a : PreSignIntentOrderAction).

(** [AmmAction::action_tag] *)
Definition amm_action_tag (a : AmmAction) : string :=
  match a with
  | Swap _ => "swap"
  | GsmSwap _ => "gsm_swap"
  | AddLiquidity _ => "add_liquidity"
  | RemoveLiquidity _ => "remove_liquidity"
  | CollectFees _ => "collect_fees"
  | SignIntentOrder _ => "sign_intent_order"
  | SettleIntentOrder _ => "settle_intent_order"
  | CancelIntentOrder _ => "cancel_intent_order"
  | PreSignIntentOrder _ => "pre_sign_intent_order"
  end.

(** [AmmAction::venue_name] *)
Definition amm_action_venue_name (a : AmmAction) : option string :=
  match a with
  | Swap a => Some (amm_venue_name (sw_venue a))
  | GsmSwap a => Some (amm_venue_name (gs_venue a))
  | AddLiquidity a => Some (amm_venue_name (al_venue a))
  | RemoveLiquidity a => Some (amm_venue_name (rl_venue a))
  | CollectFees a => Some (amm_venue_name (cf_venue a))
  | SignIntentOrder a => Some (intent_venue_name (si_venue a))
  | SettleIntentOrder a => Some (intent_venue_name (se_venue a))
  | CancelIntentOrder a => Some (intent_venue_name (ci_venue a))
  | PreSignIntentOrder a => Some (intent_venue_name (pi_venue a))
  end.
