(* ===== verification/AmmMath.v ===== *)
(** * Swap quotes

    crates/asset-model/transition/src/effect/amm: the per-venue quote
    functions. All arithmetic is checked 256-bit arithmetic; an overflow is an
    [Invariant] error, a division is by a number the code has shown non-zero.
    The unused arguments of the Rust signatures (state, context, action) are
    dropped. *)
From stdpp Require Import base tactics numbers list strings gmap.
From S2P Require Import Prelude Types Positions Wallet Serde AmmTypes.

(** ** Uniswap V2 and SushiSwap (uniswap_v2.rs, sushi_v2.rs) *)
Definition uniswap_v2_quote (pool_state : PoolState) (amount_in : U256) : ReducerResult U256 :=
  match pool_state with
  | XyConstant reserve_in reserve_out fee_bp =>
      if 10000 <=? fee_bp then
        Err (Invariant "uniswap_v2 fee_bp {fee_bp} out of range (must be < 10000)")
      else
        let fee_multiplier := 10000 - fee_bp in
        amount_in_with_fee ← inv "uniswap_v2 amount_in_with_fee overflow"
                               (checked_mul amount_in fee_multiplier);
        numerator ← inv "uniswap_v2 numerator overflow" (checked_mul reserve_out amount_in_with_fee);
        denom_base ← inv "uniswap_v2 denominator base overflow" (checked_mul reserve_in 10000);
        denominator ← inv "uniswap_v2 denominator overflow"
                        (checked_add denom_base amount_in_with_fee);
        if denominator =? 0 then Err (Invariant "uniswap_v2 zero denominator (empty pool)")
        else Ok (numerator / denominator)
  | _ => Err (Invariant "non-XyConstant pool_state for uniswap_v2 swap")
  end.

Definition sushi_v2_quote (pool_state : PoolState) (amount_in : U256) : ReducerResult U256 :=
  uniswap_v2_quote pool_state amount_in.

(** ** Uniswap V3 and V4 (uniswap_v3.rs, uniswap_v4.rs) *)
Definition q96 : Z := Z.shiftl 1 96.

(** The messages carry the caller's [protocol_tag] in Rust; it selects no
    behaviour, and stays a placeholder here. *)
Definition concentrated_swap_math (pool_state : PoolState) (amount_in : U256)
    (protocol_tag : string) : ReducerResult U256 :=
  match pool_state with
  | PsConcentrated sqrt_price_x96 _ liquidity _ =>
      if liquidity =? 0 then Err (Invariant "{protocol_tag} quote: zero active liquidity")
      else if sqrt_price_x96 =? 0 then Err (Invariant "{protocol_tag} quote: zero sqrt_price_x96")
      else
        let l := liquidity in
        let sp := sqrt_price_x96 in
        if amount_in =? 0 then Ok 0
        else
          num_l_sp ← inv "{protocol_tag} quote: L*sp overflow" (checked_mul l sp);
          numerator ← inv "{protocol_tag} quote: L*sp*Q96 overflow" (checked_mul num_l_sp q96);
          denom_l_q96 ← inv "{protocol_tag} quote: L*Q96 overflow" (checked_mul l q96);
          denom_in_sp ← inv "{protocol_tag} quote: amount_in*sp overflow" (checked_mul amount_in sp);
          denominator ← inv "{protocol_tag} quote: denominator overflow"
                          (checked_add denom_l_q96 denom_in_sp);
          let sqrt_price_next := numerator / denominator in
          sp_drop ← inv "{protocol_tag} quote: sqrt_price_next > sp (direction violation)"
                      (checked_sub sp sqrt_price_next);
          out_num ← inv "{protocol_tag} quote: L*(sp-sp_next) overflow" (checked_mul l sp_drop);
          Ok (out_num / q96)
  | _ => Err (Invariant "non-Concentrated pool_state for {protocol_tag} swap")
  end.

Definition uniswap_v3_quote (pool_state : PoolState) (amount_in : U256) : ReducerResult U256 :=
  concentrated_swap_math pool_state amount_in "uniswap_v3".
Definition uniswap_v4_quote (pool_state : PoolState) (amount_in : U256) : ReducerResult U256 :=
  concentrated_swap_math pool_state amount_in "uniswap_v4".

(** ** Curve V1 stableswap (curve_v1.rs) *)
Definition U32_MAX : Z := 4294967295.
Definition MAX_ITER : nat := 255.

(** [n^n], by repeated checked multiplication. *)
Fixpoint checked_pow_loop (msg : string) (k : nat) (n acc : Z) : ReducerResult Z :=
  match k with
  | O => Ok acc
  | S k => acc ← inv msg (checked_mul acc n); checked_pow_loop msg k n acc
  end.

Definition abs_diff (x y : Z) : Z := if y <? x then x - y else y - x.

(** [D_P = D * Π (D / (n * xp[i]))], truncating after each factor. *)
Definition d_p_step (n d : Z) (d_p x : Z) : ReducerResult Z :=
  if x =? 0 then Err (Invariant "curve_v1 D: zero balance")
  else
    denom ← inv "curve_v1 D: x*n overflow" (checked_mul x n);
    num ← inv "curve_v1 D: D_P*D overflow" (checked_mul d_p d);
    Ok (num / denom).

(** One round of the [D] iteration. *)
Definition d_round (balances : list Z) (n ann s d : Z) : ReducerResult Z :=
  d_p ← foldM (d_p_step n d) balances d;
  ann_s ← inv "curve_v1 D: Ann*S overflow" (checked_mul ann s);
  n_dp ← inv "curve_v1 D: n*D_P overflow" (checked_mul n d_p);
  num_pre ← inv "curve_v1 D: num_pre overflow" (checked_add ann_s n_dp);
  num ← inv "curve_v1 D: numerator overflow" (checked_mul num_pre d);
  ann_minus_one ← inv "curve_v1 D: (Ann-1) underflow" (checked_sub ann 1);
  term_a ← inv "curve_v1 D: (Ann-1)*D overflow" (checked_mul ann_minus_one d);
  n1 ← inv "curve_v1 D: (n+1) overflow" (checked_add n 1);
  term_b ← inv "curve_v1 D: (n+1)*D_P overflow" (checked_mul n1 d_p);
  denom ← inv "curve_v1 D: denominator overflow" (checked_add term_a term_b);
  if denom =? 0 then Err (Invariant "curve_v1 D: zero denominator") else Ok (num / denom).

(** [for _ in 0..MAX_ITER]: stop when two rounds differ by at most one. *)
Fixpoint newton (round : Z -> ReducerResult Z) (diverged : string) (k : nat) (x : Z)
    : ReducerResult Z :=
  match k with
  | O => Err (Invariant diverged)
  | S k => x' ← round x; if abs_diff x' x <=? 1 then Ok x' else newton round diverged k x'
  end.

Definition sum_checked (msg : string) (l : list Z) : ReducerResult Z :=
  foldM (fun s b => inv msg (checked_add s b)) l 0.

(** [compute_d] *)
Definition compute_d (balances : list U256) (a : Z) : ReducerResult U256 :=
  let n := Z.of_nat (length balances) in
  if U32_MAX <? n then Err (Invariant "curve_v1 D: too many coins")
  else if n =? 0 then Err (Invariant "curve_v1 D: empty balances")
  else
    s ← sum_checked "curve_v1 D: S overflow" balances;
    if s =? 0 then Ok 0
    else
      n_pow_n ← checked_pow_loop "curve_v1 D: n^n overflow" (length balances) n 1;
      ann ← inv "curve_v1 D: Ann overflow" (checked_mul a n_pow_n);
      newton (d_round balances n ann s) "curve_v1 D: newton diverged" MAX_ITER s.

(** The accumulation over [k != j] of [compute_y]: the running [S'] and [c]. *)
Definition y_acc_step (n d : Z) (acc : Z * Z) (x_k : Z) : ReducerResult (Z * Z) :=
  if x_k =? 0 then Err (Invariant "curve_v1 y: zero x_k")
  else
    s_prime ← inv "curve_v1 y: S' overflow" (checked_add acc.1 x_k);
    denom ← inv "curve_v1 y: x_k*n overflow" (checked_mul x_k n);
    num ← inv "curve_v1 y: c*D overflow" (checked_mul acc.2 d);
    Ok (s_prime, num / denom).

(** The balances the loop visits: coin [i] replaced by its new amount, coin [j]
    skipped. *)
Definition y_inputs (balances : list Z) (i j : nat) (new_x_i : Z) : list Z :=
  omap (fun kb => if (kb.1 =? j)%nat then None
                  else Some (if (kb.1 =? i)%nat then new_x_i else kb.2))
    (imap pair balances).

(** One round of the [y] iteration. *)
Definition y_round (b c d : Z) (y : Z) : ReducerResult Z :=
  y_sq ← inv "curve_v1 y: y² overflow" (checked_mul y y);
  num ← inv "curve_v1 y: num overflow" (checked_add y_sq c);
  two_y ← inv "curve_v1 y: 2y overflow" (checked_mul y 2);
  two_y_plus_b ← inv "curve_v1 y: 2y+b overflow" (checked_add two_y b);
  denom ← inv "curve_v1 y: 2y+b-D underflow" (checked_sub two_y_plus_b d);
  if denom =? 0 then Err (Invariant "curve_v1 y: zero denominator") else Ok (num / denom).

(** [compute_y] *)
Definition compute_y (balances : list U256) (i j : nat) (new_x_i : U256) (a : Z) (d : U256)
    : ReducerResult U256 :=
  let n := Z.of_nat (length balances) in
  if U32_MAX <? n then Err (Invariant "curve_v1 y: too many coins")
  else if (length balances <=? i)%nat || (length balances <=? j)%nat || (i =? j)%nat then
    Err (Invariant "curve_v1 y: bad indices (i={i}, j={j}, n={n_u32})")
  else
    n_pow_n ← checked_pow_loop "curve_v1 y: n^n overflow" (length balances) n 1;
    ann ← inv "curve_v1 y: Ann overflow" (checked_mul a n_pow_n);
    if ann =? 0 then Err (Invariant "curve_v1 y: zero Ann")
    else
      '(s_prime, c) ← foldM (y_acc_step n d) (y_inputs balances i j new_x_i) (0, d);
      denom_final ← inv "curve_v1 y: Ann*n overflow" (checked_mul ann n);
      num ← inv "curve_v1 y: c*D overflow" (checked_mul c d);
      let c := num / denom_final in
      b ← inv "curve_v1 y: b overflow" (checked_add s_prime (d / ann));
      newton (y_round b c d) "curve_v1 y: newton diverged" MAX_ITER d.

(** [curve_v1::quote_swap_hop] *)
Definition curve_v1_quote (pool_state : PoolState) (amount_in : U256) : ReducerResult U256 :=
  match pool_state with
  | StableV1 balances a fee_bp =>
      match balances with
      | b0 :: b1 :: _ =>
          if 10000 <=? fee_bp then
            Err (Invariant "curve_v1 fee_bp {fee_bp} out of range (must be < 10000)")
          else if amount_in =? 0 then Ok 0
          else
            d ← compute_d balances a;
            new_x_i ← inv "curve_v1: x_i + amount_in overflow" (checked_add b0 amount_in);
            new_y ← compute_y balances 0 1 new_x_i a d;
            new_y_minus_one ← inv "curve_v1: new_y < 1 (underflow)" (checked_sub new_y 1);
            dy_pre_fee ← inv "curve_v1: balance[j] < new_y (no out)"
                           (checked_sub b1 new_y_minus_one);
            fee_num ← inv "curve_v1: fee numerator overflow" (checked_mul dy_pre_fee fee_bp);
            inv "curve_v1: dy - fee underflow" (checked_sub dy_pre_fee (fee_num / 10000))
      | _ => Err (Invariant "curve_v1 needs >= 2 coins, got {}")
      end
  | _ => Err (Invariant "non-StableV1 pool_state for curve_v1 swap")
  end.

(** ** Curve V2 (curve_v2.rs) *)
Definition price_precision : Z := 10 ^ 18.

Definition curve_v2_quote (pool_state : PoolState) (amount_in : U256) : ReducerResult U256 :=
  match pool_state with
  | Cryptoswap balances price_scale _ fee_bp =>
      match balances with
      | [xp0; b1] =>
          match price_scale with
          | [] => Err (Invariant "curve_v2: empty price_scale")
          | price :: _ =>
              if price =? 0 then Err (Invariant "curve_v2: zero price_scale[0]")
              else if 10000 <=? fee_bp then
                Err (Invariant "curve_v2 fee_bp {fee_bp} out of range (must be < 10000)")
              else if amount_in =? 0 then Ok 0
              else
                xp1_num ← inv "curve_v2: xp1 mul overflow" (checked_mul b1 price);
                let xp1 := xp1_num / price_precision in
                if (xp0 =? 0) || (xp1 =? 0) then Err (Invariant "curve_v2: zero scaled balance")
                else
                  numerator ← inv "curve_v2: numerator overflow" (checked_mul xp1 amount_in);
                  denominator ← inv "curve_v2: denominator overflow" (checked_add xp0 amount_in);
                  if denominator =? 0 then Err (Invariant "curve_v2: zero denominator")
                  else
                    let dy_scaled := numerator / denominator in
                    dy_num ← inv "curve_v2: dy descale overflow"
                               (checked_mul dy_scaled price_precision);
                    let dy_pre_fee := dy_num / price in
                    fee_num ← inv "curve_v2: fee numerator overflow"
                                (checked_mul dy_pre_fee fee_bp);
                    inv "curve_v2: dy - fee underflow" (checked_sub dy_pre_fee (fee_num / 10000))
          end
      | _ => Err (Invariant "curve_v2 twocrypto simplification needs 2 coins, got {}")
      end
  | _ => Err (Invariant "non-Cryptoswap pool_state for curve_v2 swap")
  end.

(** ** Balancer (balancer_v2.rs, balancer_v3.rs) *)
Definition quote_weighted (balances : list U256) (weights : list Z) (fee_bp : Z) (amount_in : U256)
    : ReducerResult U256 :=
  if (length balances <? 2)%nat || (length weights <? 2)%nat then
    Err (Invariant "balancer_v2 weighted: needs >= 2 coins/weights, got {}/{}")
  else if negb (length balances =? length weights)%nat then
    Err (Invariant "balancer_v2 weighted: balances/weights length mismatch ({} != {})")
  else if 10000 <=? fee_bp then
    Err (Invariant "balancer_v2 weighted fee_bp {fee_bp} out of range (must be < 10000)")
  else
    let bal_in := nth 0 balances 0 in
    let bal_out := nth 1 balances 0 in
    if (bal_in =? 0) || (bal_out =? 0) then
      Err (Invariant "balancer_v2 weighted: zero pool balance")
    else
      let w_in := nth 0 weights 0 in
      let w_out := nth 1 weights 0 in
      if (w_in =? 0) || (w_out =? 0) then Err (Invariant "balancer_v2 weighted: zero weight")
      else
        in_num ← inv "balancer_v2 weighted: in-fee overflow" (checked_mul amount_in (10000 - fee_bp));
        let amount_in_after_fee := in_num / 10000 in
        numer_inner ← inv "balancer_v2 weighted: numer_inner overflow"
                        (checked_mul amount_in_after_fee w_in);
        numerator ← inv "balancer_v2 weighted: numerator overflow" (checked_mul bal_out numer_inner);
        denom_a ← inv "balancer_v2 weighted: denom_a overflow" (checked_mul bal_in w_out);
        denominator ← inv "balancer_v2 weighted: denominator overflow"
                        (checked_add denom_a numer_inner);
        if denominator =? 0 then Err (Invariant "balancer_v2 weighted: zero denominator")
        else Ok (numerator / denominator).

Definition quote_stable (balances : list U256) (amp fee_bp : Z) (amount_in : U256)
    : ReducerResult U256 :=
  if (length balances <? 2)%nat then
    Err (Invariant "balancer_v2 stable: needs >= 2 coins, got {}")
  else if 10000 <=? fee_bp then
    Err (Invariant "balancer_v2 stable fee_bp {fee_bp} out of range (must be < 10000)")
  else
    in_num ← inv "balancer_v2 stable: in-fee overflow" (checked_mul amount_in (10000 - fee_bp));
    let amount_in_after_fee := in_num / 10000 in
    d ← compute_d balances amp;
    new_x_i ← inv "balancer_v2 stable: x_i + in overflow"
                (checked_add (nth 0 balances 0) amount_in_after_fee);
    new_y ← compute_y balances 0 1 new_x_i amp d;
    new_y_minus_one ← inv "balancer_v2 stable: new_y < 1 underflow" (checked_sub new_y 1);
    inv "balancer_v2 stable: bal[j] < new_y" (checked_sub (nth 1 balances 0) new_y_minus_one).

Definition balancer_v2_quote (pool_state : PoolState) (amount_in : U256) : ReducerResult U256 :=
  if amount_in =? 0 then Ok 0
  else
    match pool_state with
    | PsWeighted balances weights fee_bp => quote_weighted balances weights fee_bp amount_in
    | PsStable balances amp fee_bp => quote_stable balances amp fee_bp amount_in
    | _ => Err (Invariant "balancer_v2: only Weighted / Stable PoolState are wired today")
    end.

Definition balancer_v3_quote (pool_state : PoolState) (amount_in : U256) : ReducerResult U256 :=
  balancer_v2_quote pool_state amount_in.

(** ** Trader Joe liquidity book (trader_joe_lb.rs) *)
Definition trader_joe_lb_quote (pool_state : PoolState) (amount_in : U256) : ReducerResult U256 :=
  match pool_state with
  | LiquidityBook active_bin_id bins variable_fee_bp =>
      if bool_decide (bins = nil) then Err (Invariant "trader_joe_lb: empty bins")
      else if 10000 <=? variable_fee_bp then
        Err (Invariant "trader_joe_lb variable_fee_bp {variable_fee_bp} out of range (must be < 10000)")
      else if amount_in =? 0 then Ok 0
      else
        active ← inv "trader_joe_lb: active_bin_id {active_bin_id} not in bins"
                   (find_first (fun b => bs_id b =? active_bin_id) bins);
        if (bs_reserve_in active =? 0) || (bs_reserve_out active =? 0) then
          Err (Invariant "trader_joe_lb: zero active-bin reserve")
        else
          in_num ← inv "trader_joe_lb: in-fee overflow"
                     (checked_mul amount_in (10000 - variable_fee_bp));
          let amount_in_after_fee := in_num / 10000 in
          numerator ← inv "trader_joe_lb: numerator overflow"
                        (checked_mul (bs_reserve_out active) amount_in_after_fee);
          denominator ← inv "trader_joe_lb: denominator overflow"
                          (checked_add (bs_reserve_in active) amount_in_after_fee);
          if denominator =? 0 then Err (Invariant "trader_joe_lb: zero denominator")
          else Ok (numerator / denominator)
  | _ => Err (Invariant "non-LiquidityBook pool_state for trader_joe_lb swap")
  end.

(** ** Maverick V2 (maverick_v2.rs)

    [str::parse::<U256>] is the big-integer library's parser. *)
Class U256Parse := { parse_u256 : string -> option Z }.

(** What it is relied on for: a parsed value is a U256. *)
Class U256ParseLaws (P : U256Parse) : Prop :=
  parse_u256_range : forall s z, parse_u256 s = Some z -> u256 z.

(** The decimal case of [U256::from_str], for the examples. *)
Definition decimal_value (s : string) : option Z :=
  foldl (fun acc c => z ← acc; let n := Z.of_N (Ascii.N_of_ascii c) - 48 in
           if (0 <=? n) && (n <=? 9) then Some (10 * z + n) else None)
    (Some 0) (String.list_ascii_of_string s).
Definition demo_parse : U256Parse :=
  {| parse_u256 := fun s => z ← decimal_value s;
                     if (0 <=? z) && (z <=? U256_MAX) then Some z else None |}.
Lemma demo_parse_laws : U256ParseLaws demo_parse.
Proof.
  intros s z. simpl. destruct (decimal_value s) as [v|]; simpl; [|done].
  destruct (Z.leb_spec 0 v), (Z.leb_spec v U256_MAX); simpl; try done.
  intros [= <-]. by split.
Qed.

Section MaverickV2.
Context `{U256Parse}.

(** [pull_u256] *)
Definition pull_u256 (raw : JSON) (key : string) : ReducerResult U256 :=
  s ← inv "maverick_v2 raw payload: missing or non-string `{key}`"
        (v ← json_get raw key; match v with JString s => Some s | _ => None end);
  inv "maverick_v2 raw payload: bad `{key}` U256: {e}" (parse_u256 s).

(** [pull_u32]; [Value::as_u64] of an integer is [None] outside u64. *)
Definition pull_u32 (raw : JSON) (key : string) : ReducerResult Z :=
  n ← inv "maverick_v2 raw payload: missing or non-number `{key}`"
        (v ← json_get raw key;
         match v with
         | JNumber n => if (0 <=? n) && (n <=? U64_MAX) then Some n else None
         | _ => None
         end);
  if n <=? U32_MAX then Ok n
  else Err (Invariant "maverick_v2 raw payload: `{key}` overflows u32").

Definition maverick_v2_quote (pool_state : PoolState) (amount_in : U256) : ReducerResult U256 :=
  match pool_state with
  | Maverick _ raw =>
      if amount_in =? 0 then Ok 0
      else
        reserve_in ← pull_u256 raw "reserve_in";
        reserve_out ← pull_u256 raw "reserve_out";
        fee_bp ← pull_u32 raw "fee_bp";
        if 10000 <=? fee_bp then
          Err (Invariant "maverick_v2 fee_bp {fee_bp} out of range (must be < 10000)")
        else if (reserve_in =? 0) || (reserve_out =? 0) then
          Err (Invariant "maverick_v2: zero active-bin reserve")
        else
          in_num ← inv "maverick_v2: in-fee overflow" (checked_mul amount_in (10000 - fee_bp));
          let amount_in_after_fee := in_num / 10000 in
          numerator ← inv "maverick_v2: numerator overflow" (checked_mul reserve_out amount_in_after_fee);
          denominator ← inv "maverick_v2: denominator overflow"
                          (checked_add reserve_in amount_in_after_fee);
          if denominator =? 0 then Err (Invariant "maverick_v2: zero denominator")
          else Ok (numerator / denominator)
  | _ => Err (Invariant "non-Maverick pool_state for maverick_v2 swap")
  end.
End MaverickV2.

(** ** Constant-product quotes *)

(** [rout * a / (rin + a)], the shape of every non-stable quote. *)
Definition cp_out (rin rout a : Z) : Z := rout * a / (rin + a).

Lemma cp_out_spec rin rout a :
  0 < rin -> 0 <= rout -> 0 <= a ->
  0 <= cp_out rin rout a /\ rin * rout <= (rin + a) * (rout - cp_out rin rout a) /\
  cp_out rin rout a <= rout /\ (0 < rout -> cp_out rin rout a < rout).
Proof.
  intros Hin Hout Ha. unfold cp_out.
  assert (0 <= rout * a) as Hp by nia.
  assert (0 <= rout * a / (rin + a)) by (apply Z.div_pos; lia).
  pose proof (Z.mul_div_le (rout * a) (rin + a) ltac:(lia)).
  split; [done|]. split; [nia|]. split.
  - apply Z.div_le_upper_bound; nia.
  - intros Hpos. pose proof (Z.mul_pos_pos rin rout Hin Hpos).
    apply Z.div_lt_upper_bound; lia.
Qed.

(** Selling more never buys less. *)
Lemma cp_out_mono rin rout a a' :
  0 < rin -> 0 <= rout -> 0 <= a <= a' -> cp_out rin rout a <= cp_out rin rout a'.
Proof.
  intros Hin Hout Ha. unfold cp_out. apply Z.div_le_lower_bound; [lia|].
  pose proof (Z.mul_div_le (rout * a) (rin + a) ltac:(lia)) as Hle.
  set (q := rout * a / (rin + a)) in *.
  apply (Zmult_le_reg_r _ _ (rin + a)); [lia|].
  transitivity (rout * a * (rin + a')).
  - replace ((rin + a') * q * (rin + a)) with ((rin + a) * q * (rin + a')) by ring.
    apply Z.mul_le_mono_nonneg_r; lia.
  - assert (0 <= rout * rin * (a' - a)) by (apply Z.mul_nonneg_nonneg; nia). lia.
Qed.

(** The V2 quote is the constant-product quote with the fee taken from the
    input, both scaled by ten thousand. *)
Lemma uniswap_v2_quote_Ok rin rout fee a out :
  uniswap_v2_quote (XyConstant rin rout fee) a = Ok out ->
  fee < 10000 /\ rin * 10000 + a * (10000 - fee) <> 0 /\
  out = cp_out (rin * 10000) rout (a * (10000 - fee)).
Proof.
  unfold uniswap_v2_quote. intros Hq. run_ok. to_prop. checked_values. done.
Qed.

(** The fee only lowers the input side. *)
Lemma cp_out_fee rin rout fee a :
  0 < rin -> 0 <= rout -> 0 <= fee <= 10000 -> 0 <= a ->
  rin * rout <= (rin + a) * (rout - cp_out (rin * 10000) rout (a * (10000 - fee))).
Proof.
  intros Hin Hout Hfee Ha.
  destruct (cp_out_spec (rin * 10000) rout (a * (10000 - fee))) as (H0 & Hk & Hle & _); [nia..|].
  set (out := cp_out _ _ _) in *.
  assert (0 <= a * fee * (rout - out)) by (repeat apply Z.mul_nonneg_nonneg; lia). lia.
Qed.

(** ** Concentrated liquidity *)

Lemma q96_pos : 0 < q96.
Proof. by vm_compute. Qed.

(** The next price never exceeds the current one, so the direction guard of the
    code never fires. *)
Lemma sqrt_price_next_le l sp a :
  0 < l -> 0 < sp -> 0 <= a -> 0 <= l * sp * q96 / (l * q96 + a * sp) <= sp.
Proof.
  intros Hl Hsp Ha. pose proof q96_pos. split.
  - apply Z.div_pos; nia.
  - apply Z.div_le_upper_bound; nia.
Qed.

(** ** Newton iterations *)

(** A loop that returns, returns a value one round away from its predecessor. *)
Lemma newton_Ok round msg k x y :
  newton round msg k x = Ok y ->
  exists x', round x' = Ok y /\ Z.abs (y - x') <= 1.
Proof.
  revert x; induction k as [|k IH]; simpl; intros x Hn; [done|].
  apply bind_Ok_inv in Hn as (x' & Hr & Hn).
  destruct (abs_diff x' x <=? 1) eqn:Hd; [|by eauto].
  injection Hn as <-. exists x. split; [done|]. to_prop. unfold abs_diff in Hd.
  split_cmp; lia.
Qed.

Arguments newton : simpl never.

(** Both solvers return a value their own round map moves by at most one. *)
Lemma compute_y_converged balances i j x a d y :
  compute_y balances i j x a d = Ok y ->
  exists b c y', y_round b c d y' = Ok y /\ Z.abs (y - y') <= 1.
Proof.
  unfold compute_y. intros Hy. run_ok.
  match goal with H : newton _ _ _ _ = Ok _ |- _ => apply newton_Ok in H as (y' & ? & ?) end. eauto.
Qed.

Lemma compute_d_converged balances a d :
  compute_d balances a = Ok d -> d <> 0 ->
  exists n ann s d', d_round balances n ann s d' = Ok d /\ Z.abs (d - d') <= 1.
Proof.
  unfold compute_d. intros Hd Hne. run_ok; [done|].
  match goal with H : newton _ _ _ _ = Ok _ |- _ => apply newton_Ok in H as (d' & ? & ?) end. eauto 10.
Qed.

Arguments compute_d : simpl never.
Arguments compute_y : simpl never.
Arguments y_round : simpl never.

(** ** Properties *)

(** A V2 quote never drains or weakens the pool: the output is below the reserve it is
    paid from and the product of the reserves does not fall. *)
Theorem uniswap_v2_quote_keeps_product rin rout fee a out :
  0 < rin -> 0 < rout -> 0 <= fee -> 0 <= a ->
  uniswap_v2_quote (XyConstant rin rout fee) a = Ok out ->
  0 <= out < rout /\ rin * rout <= (rin + a) * (rout - out).
Proof.
  intros Hin Hout Hfee Ha Hq. apply uniswap_v2_quote_Ok in Hq as (Hf & _ & ->).
  split; [|apply cp_out_fee; lia].
  destruct (cp_out_spec (rin * 10000) rout (a * (10000 - fee))) as (H0 & _ & _ & Hlt); [nia..|].
  split; [done|]. by apply Hlt.
Qed.

(** On the reserves a V2 pair can hold (112 bits) a V2 quote never overflows, and it is
    monotone: a larger input never buys less. *)
Theorem uniswap_v2_quote_total_monotone rin rout fee a a' :
  0 < rin < 2 ^ 112 -> 0 <= rout < 2 ^ 112 -> 0 <= fee < 10000 -> 0 <= a <= a' -> a' < 2 ^ 112 ->
  exists out out',
    uniswap_v2_quote (XyConstant rin rout fee) a = Ok out /\
    uniswap_v2_quote (XyConstant rin rout fee) a' = Ok out' /\ out <= out'.
Proof.
  intros Hin Hout Hfee Ha Ha'.
  assert (forall x, 0 <= x < 2 ^ 112 ->
    uniswap_v2_quote (XyConstant rin rout fee) x =
    Ok (cp_out (rin * 10000) rout (x * (10000 - fee)))) as Hq.
  { intros x Hx. assert (2 ^ 240 <= U256_MAX) as Hbig by (vm_compute; discriminate).
    assert (0 <= x * (10000 - fee) < 2 ^ 126) as Hf.
    { split; [nia|]. replace (2 ^ 126) with (2 ^ 112 * 2 ^ 14) by reflexivity. nia. }
    assert (0 <= rout * (x * (10000 - fee)) < 2 ^ 240).
    { split; [nia|]. replace (2 ^ 240) with (2 ^ 112 * 2 ^ 128) by reflexivity. nia. }
    assert (0 < rin * 10000 < 2 ^ 126).
    { split; [lia|]. replace (2 ^ 126) with (2 ^ 112 * 2 ^ 14) by reflexivity. lia. }
    assert (2 ^ 126 + 2 ^ 126 <= 2 ^ 240) by (vm_compute; discriminate).
    unfold uniswap_v2_quote. rewrite (proj2 (Z.leb_gt _ _)) by lia.
    rewrite !checked_mul_ok by lia. simpl. rewrite checked_mul_ok by lia. simpl.
    rewrite checked_add_ok by lia. simpl. rewrite (proj2 (Z.eqb_neq _ _)) by lia. done. }
  do 2 eexists. rewrite !Hq by lia. split; [done|]. split; [done|].
  apply cp_out_mono; nia.
Qed.

(** The exact domain of the concentrated-liquidity quote: for a live pool and a positive
    input it succeeds if and only if L*sp*Q96 and L*Q96 + amount*sp fit in 256 bits, and then
    returns the closed form; the price never moves up, so the direction guard never fires. *)
Theorem concentrated_quote_domain sp tick l ticks a tag out :
  0 < l -> 0 < sp -> 0 < a ->
  concentrated_swap_math (PsConcentrated sp tick l ticks) a tag = Ok out <->
  l * sp * q96 <= U256_MAX /\ l * q96 + a * sp <= U256_MAX /\
  out = l * (sp - l * sp * q96 / (l * q96 + a * sp)) / q96.
Proof.
  intros Hl Hsp Ha. pose proof q96_pos as Hq.
  pose proof (sqrt_price_next_le l sp a Hl Hsp ltac:(lia)) as Hnext.
  unfold concentrated_swap_math.
  rewrite !(proj2 (Z.eqb_neq _ 0)) by lia. split.
  - intros Hm. run_ok. checked_values. done.
  - intros (H1 & H2 & ->).
    assert (0 < l * sp) by nia. assert (0 < a * sp) by nia. assert (0 < l * q96) by nia.
    assert (l * sp <= l * sp * q96) by nia.
    rewrite checked_mul_ok by lia. simpl. rewrite checked_mul_ok by lia. simpl.
    rewrite checked_mul_ok by lia. simpl. rewrite checked_mul_ok by lia. simpl.
    rewrite checked_add_ok by lia. simpl. rewrite checked_sub_ok by lia. simpl.
    rewrite checked_mul_ok; [done|]. transitivity (l * sp); [|lia].
    apply Z.mul_le_mono_nonneg_l; lia.
Qed.

(** The weighted-pool approximation is exact where its documentation says so: with equal
    weights it is the constant-product quote on the fee-reduced input. *)
Theorem quote_weighted_equal_weights bin bout w fee a out :
  0 < bin -> 0 < bout -> 0 < w -> 0 <= fee -> 0 <= a ->
  quote_weighted [bin; bout] [w; w] fee a = Ok out ->
  out = cp_out bin bout (a * (10000 - fee) / 10000) /\
  0 <= out < bout /\ bin * bout <= (bin + a) * (bout - out).
Proof.
  intros Hin Hout Hw Hfee Ha Hq. unfold quote_weighted in Hq. run_ok. to_prop. checked_values.
  set (af := a * (10000 - fee) / 10000) in *.
  assert (0 <= af) as Haf by (apply Z.div_pos; nia).
  assert (af <= a) as Hle by (apply Z.div_le_upper_bound; nia).
  assert (bout * (af * w) / (bin * w + af * w) = cp_out bin bout af) as ->.
  { unfold cp_out. replace (bout * (af * w)) with (bout * af * w) by ring.
    replace (bin * w + af * w) with ((bin + af) * w) by ring.
    apply Z.div_mul_cancel_r; lia. }
  destruct (cp_out_spec bin bout af) as (H0' & Hk & _ & Hlt); [lia..|].
  split; [done|]. split; [split; [done|by apply Hlt]|].
  set (o := cp_out bin bout af) in *. specialize (Hlt Hout). nia.
Qed.

(** A stableswap quote is bounded by the pool: a quote that succeeds pays at most the
    balance of the bought coin, and the new balance it is computed from is a point the
    quadratic's Newton map moves by at most one unit. *)
Theorem curve_v1_quote_bounded b0 b1 rest amp fee a dy :
  0 <= fee -> a <> 0 ->
  curve_v1_quote (StableV1 (b0 :: b1 :: rest) amp fee) a = Ok dy ->
  0 <= dy <= b1 /\
  exists d new_y b c y', compute_d (b0 :: b1 :: rest) amp = Ok d /\
    compute_y (b0 :: b1 :: rest) 0 1 (b0 + a) amp d = Ok new_y /\
    y_round b c d y' = Ok new_y /\ Z.abs (new_y - y') <= 1 /\ dy <= b1 - new_y + 1.
Proof.
  intros Hfee Ha Hq. unfold curve_v1_quote in Hq. run_ok; to_prop; [done|]. checked_values.
  match goal with H : compute_d _ _ = Ok ?d, H' : compute_y _ _ _ _ _ _ = Ok ?y |- _ =>
    rename H into Hd, H' into Hy; set (new_y := y) in * end.
  destruct (compute_y_converged _ _ _ _ _ _ _ Hy) as (b & c & y' & Hr & Hy').
  set (pre := b1 - (new_y - 1)) in *.
  assert (0 <= pre * fee / 10000 <= pre).
  { split; [apply Z.div_pos; nia|apply Z.div_le_upper_bound; nia]. }
  split; [lia|]. do 5 eexists. repeat (split; [done|]). lia.
Qed.

(** The stableswap quote pays two units more than the contract it follows: the template
    pays the balance minus the new balance minus one, the code adds that one instead. In a
    balanced pool without fee, selling one unit buys two. *)
Theorem curve_v1_quote_exceeds_template b0 b1 rest amp a dy :
  a <> 0 -> curve_v1_quote (StableV1 (b0 :: b1 :: rest) amp 0) a = Ok dy ->
  exists d new_y, compute_d (b0 :: b1 :: rest) amp = Ok d /\
    compute_y (b0 :: b1 :: rest) 0 1 (b0 + a) amp d = Ok new_y /\
    dy = (b1 - new_y - 1) + 2.
Proof.
  intros Ha Hq. unfold curve_v1_quote in Hq. run_ok; to_prop; [done|]. checked_values.
  do 2 eexists. repeat (split; [done|]). rewrite Z.mul_0_r, Z.div_0_l by lia. lia.
Qed.

(** ** Witnesses *)
Lemma uniswap_v2_quote_keeps_product_witness :
  exists out, uniswap_v2_quote (XyConstant 1000000 2000000 30) 5000 = Ok out /\
    0 <= out < 2000000 /\ 1000000 * 2000000 <= (1000000 + 5000) * (2000000 - out).
Proof.
  eexists; split; [vm_compute; reflexivity|].
  apply (uniswap_v2_quote_keeps_product 1000000 2000000 30 5000); try lia.
  vm_compute; reflexivity.
Defined.

Lemma uniswap_v2_quote_total_monotone_witness :
  exists out out',
    uniswap_v2_quote (XyConstant 1000000 2000000 30) 5000 = Ok out /\
    uniswap_v2_quote (XyConstant 1000000 2000000 30) 6000 = Ok out' /\ out <= out'.
Proof. apply uniswap_v2_quote_total_monotone; lia. Defined.

Lemma concentrated_quote_domain_witness :
  concentrated_swap_math (PsConcentrated (2 ^ 96) 0 1000000 []) 1000 "uniswap_v3" = Ok 999.
Proof.
  apply (concentrated_quote_domain (2 ^ 96) 0 1000000 [] 1000); [lia..|].
  split; [vm_compute; discriminate|]. split; [vm_compute; discriminate|]. vm_compute; reflexivity.
Defined.

Lemma quote_weighted_equal_weights_witness :
  exists out, quote_weighted [1000000; 2000000] [50; 50] 30 5000 = Ok out /\ 0 <= out < 2000000.
Proof.
  eexists; split; [vm_compute; reflexivity|].
  apply (quote_weighted_equal_weights 1000000 2000000 50 30 5000); try lia.
  vm_compute; reflexivity.
Defined.

Lemma curve_v1_quote_bounded_witness :
  exists dy, curve_v1_quote (StableV1 [1000000; 1000000] 100 4) 1000 = Ok dy /\ 0 <= dy <= 1000000.
Proof.
  eexists; split; [vm_compute; reflexivity|].
  apply (curve_v1_quote_bounded 1000000 1000000 [] 100 4 1000); try lia.
  vm_compute; reflexivity.
Defined.

Lemma curve_v1_quote_exceeds_template_witness :
  curve_v1_quote (StableV1 [1000000; 1000000] 100 0) 1 = Ok 2 /\
  exists d new_y, compute_d [1000000; 1000000] 100 = Ok d /\
    compute_y [1000000; 1000000] 0 1 (1000000 + 1) 100 d = Ok new_y /\
    2 = (1000000 - new_y - 1) + 2.
Proof.
  split; [vm_compute; reflexivity|].
  apply (curve_v1_quote_exceeds_template 1000000 1000000 [] 100 1 2); [lia|].
  vm_compute; reflexivity.
Defined.
