(* ===== verification/AmmSwap.v ===== *)
(** * The swap reducer

    crates/asset-model/transition/src/effect/amm/{swap,aggregator}.rs: walk the
    route, quote each hop by its venue, check the slippage floor, run the
    aggregator's guards, then debit the input and credit the output. *)
From stdpp Require Import base tactics numbers list strings gmap.
From S2P Require Import Prelude Types Positions Wallet Serde Fixtures Delta BalanceOps ApprovalOps.
From S2P Require Import AmmTypes AmmMath.

(** ** Aggregator guards (aggregator.rs) *)

Definition ONE_INCH_V6_ROUTER : Address := 0x111111125421ca6dc452d289314280a0f8842a65.

(** [known_safe_executors] *)
Definition known_safe_executors (key : string) : option (list Address) :=
  if String.eqb key "one_inch_v6" then Some [ONE_INCH_V6_ROUTER] else None.

(** [discriminator] *)
Definition discriminator (kind : AggregatorKind) : option string :=
  match kind with OneInchV6 => Some "one_inch_v6"%string | _ => None end.

Definition PERMIT_BUNDLE_DEFAULT_TTL : Duration := 3600.

(** [verify_executor] *)
Definition verify_executor (meta : AggregatorMeta) : ReducerResult () :=
  match am_executor meta with
  | None => Ok ()
  | Some executor =>
      match am_aggregator meta with
      | AggCustom _ =>
          Err (Invariant "custom aggregator executor verification not supported (executor {executor:?})")
      | kind =>
          match discriminator kind with
          | None => Err (Invariant "unknown executor {executor:?} for aggregator {:?}")
          | Some key =>
              match known_safe_executors key with
              | None => Err (Invariant "no executor allow-list entry for aggregator {:?}")
              | Some allowed =>
                  if bool_decide (executor ∈ allowed) then Ok ()
                  else Err (Invariant "unknown executor {executor:?} for aggregator {:?}")
              end
          end
      end
  end.

(** [char::is_ascii_hexdigit] *)
Definition is_ascii_hexdigit (c : Ascii.ascii) : bool :=
  let n := Ascii.N_of_ascii c in
  ((48 <=? n) && (n <=? 57) || (65 <=? n) && (n <=? 70) || (97 <=? n) && (n <=? 102))%N.

(** [verify_calldata_hash] *)
Definition verify_calldata_hash (meta : AggregatorMeta) : ReducerResult () :=
  let h := am_raw_calldata_hash meta in
  if negb (String.prefix "0x" h) || negb (String.length h =? 66)%nat then
    Err (Invariant "invalid raw_calldata_hash format: expected 0x + 64 hex chars, got {h:?}")
  else if negb (forallb is_ascii_hexdigit
                  (String.list_ascii_of_string (String.substring 2 64 h))) then
    Err (Invariant "invalid raw_calldata_hash format: non-hex digit in {h:?}")
  else Ok ().

(** The amount a swap spends at most. *)
Definition swap_total_in (d : SwapDirection) : U256 :=
  match d with ExactInput amount_in _ => amount_in | ExactOutput max_amount_in _ => max_amount_in end.

(** [apply_permit_bundle] *)
Definition apply_permit_bundle (state : WalletState) (delta : StateDelta) (ctx : EvalContext)
    (meta : AggregatorMeta) (swap_action : SwapAction) : ReducerResult StateDelta :=
  if negb (am_permit_bundled meta) then Ok delta
  else
    let token := sp_token_in (sw_params swap_action) in
    let spender_addr := default (am_router meta) (am_executor meta) in
    let amount := swap_total_in (sp_direction (sw_params swap_action)) in
    let expires_at := time_saturating_add (cx_now ctx) PERMIT_BUNDLE_DEFAULT_TTL in
    upsert_permit2_allowance state delta token spender_addr amount expires_at.

(** ** The route walk (swap.rs) *)
Section Swap.
Context `{U256Parse}.

(** The venue dispatch of one hop. *)
Definition quote_hop (hop : RouteHop) (hop_in : U256) : ReducerResult U256 :=
  let ps := rh_pool_state hop in
  match rh_venue hop with
  | UniswapV2 _ _ _ => uniswap_v2_quote ps hop_in
  | SushiV2 _ _ => sushi_v2_quote ps hop_in
  | UniswapV3 _ _ _ => uniswap_v3_quote ps hop_in
  | UniswapV4 _ _ _ hooks =>
      if negb (hooks =? 0) then Err (UnsupportedProtocol "swap" "uniswap_v4_with_hooks")
      else uniswap_v4_quote ps hop_in
  | CurveV1 _ _ _ _ => curve_v1_quote ps hop_in
  | CurveV2 _ _ => curve_v2_quote ps hop_in
  | BalancerV2 _ _ _ _ => balancer_v2_quote ps hop_in
  | BalancerV3 _ _ _ => balancer_v3_quote ps hop_in
  | TraderJoeLB _ _ _ => trader_joe_lb_quote ps hop_in
  | MaverickV2 _ _ => maverick_v2_quote ps hop_in
  | AggregatorRoute _ _ _ _ => Err (UnsupportedProtocol "swap" "aggregator_route")
  | AaveGsm _ _ => Err (UnsupportedProtocol "swap" "aave_gsm")
  end.

(** One path: its share of the input, through its hops, added to the total. *)
Definition walk_path (total_amount_in : U256) (total_out : U256) (path : RoutePath)
    : ReducerResult U256 :=
  num ← inv "swap: path_amount_in numerator overflow"
          (checked_mul total_amount_in (rp_share_bp path));
  let path_amount_in := num / 10000 in
  out ← foldM (fun hop_in hop => quote_hop hop hop_in) (rp_hops path) path_amount_in;
  Ok (saturating_add total_out out).

(** The outer aggregator guards, run only on an [AggregatorRoute] venue. *)
Definition aggregator_hooks (state : WalletState) (ctx : EvalContext) (a : SwapAction)
    (delta : StateDelta) : ReducerResult StateDelta :=
  match sw_venue a with
  | AggregatorRoute _ _ _ _ =>
      match sr_aggregator (lf_value (sl_route (sw_live_inputs a))) with
      | Some agg_meta =>
          _ ← verify_executor agg_meta;
          _ ← verify_calldata_hash agg_meta;
          if am_permit_bundled agg_meta then apply_permit_bundle state delta ctx agg_meta a
          else Ok delta
      | None => Ok delta
      end
  | _ => Ok delta
  end.

(** The slippage floor of an exact-input swap. *)
Definition check_slippage (d : SwapDirection) (total_out : U256) : ReducerResult () :=
  match d with
  | ExactInput _ min_amount_out =>
      if total_out <? min_amount_out then
        Err (Invariant "swap slippage: out {total_out} < min {min_amount_out}")
      else Ok ()
  | ExactOutput _ _ => Ok ()
  end.

(** The output of the whole route: every path's share of [total_amount_in]. *)
Definition route_output (a : SwapAction) : ReducerResult U256 :=
  foldM (walk_path (swap_total_in (sp_direction (sw_params a))))
    (sr_paths (lf_value (sl_route (sw_live_inputs a)))) 0.

(** [impl Reducer for SwapAction] *)
Definition apply_swap (a : SwapAction) (state : WalletState) (ctx : EvalContext)
    : ReducerResult StateDelta :=
  let total_amount_in := swap_total_in (sp_direction (sw_params a)) in
  total_out ← route_output a;
  _ ← check_slippage (sp_direction (sw_params a)) total_out;
  delta ← aggregator_hooks state ctx a StateDelta_default;
  delta ← debit state delta (tr_key (sp_token_in (sw_params a))) total_amount_in;
  match sp_token_out (sw_params a) with
  | Some token_out => credit state delta (tr_key token_out) total_out
  | None => Ok delta
  end.

(** ** Lemmas *)

(** The hops a route walk accepts: no V4 hooks, no nested aggregator, no GSM. *)
Definition hop_supported (hop : RouteHop) : Prop :=
  match rh_venue hop with
  | UniswapV4 _ _ _ hooks => hooks = 0
  | AggregatorRoute _ _ _ _ | AaveGsm _ _ => False
  | _ => True
  end.

Lemma quote_hop_supported hop x y : quote_hop hop x = Ok y -> hop_supported hop.
Proof.
  unfold quote_hop, hop_supported. destruct (rh_venue hop); try done.
  destruct (Z.eqb_spec hooks 0); done.
Qed.

Lemma walk_hops_supported hops x y :
  foldM (fun hop_in hop => quote_hop hop hop_in) hops x = Ok y -> Forall hop_supported hops.
Proof.
  revert x; induction hops as [|hop hops IH]; simpl; intros x Hf; [done|].
  inv_ok. eauto using quote_hop_supported.
Qed.

Lemma walk_paths_supported paths total acc out :
  foldM (walk_path total) paths acc = Ok out ->
  Forall (fun p => Forall hop_supported (rp_hops p)) paths.
Proof.
  revert acc; induction paths as [|p paths IH]; simpl; intros acc Hf; [done|].
  inv_ok. constructor; [|by eauto].
  match goal with Hp : walk_path _ _ _ = Ok _ |- _ => unfold walk_path in Hp end. inv_ok.
  eauto using walk_hops_supported.
Qed.


(** The quantities of a pool snapshot are unsigned. *)
Definition wf_pool (ps : PoolState) : Prop :=
  match ps with
  | XyConstant rin rout fee => 0 <= rin /\ 0 <= rout
  | PsConcentrated sp _ l _ => 0 <= sp /\ 0 <= l
  | PsWeighted balances weights _ => Forall (Z.le 0) balances /\ Forall (Z.le 0) weights
  | LiquidityBook _ bins _ => Forall (fun b => 0 <= bs_reserve_in b /\ 0 <= bs_reserve_out b) bins
  | _ => True
  end.

Lemma nth_nonneg l n : Forall (Z.le 0) l -> 0 <= nth n l 0.
Proof.
  intros Hl. destruct (nth_in_or_default n l 0) as [Hin| ->]; [|lia].
  rewrite Forall_forall in Hl. by apply Hl, list_elem_of_In.
Qed.

Lemma div_fee_nonneg a fee : 0 <= a -> fee < 10000 -> 0 <= a * (10000 - fee) / 10000.
Proof. intros. apply Z.div_pos; nia. Qed.

(** The fee-reduced constant-product quotes. *)
Lemma cp_div_nonneg rin rout a : 0 <= rin -> 0 <= rout -> 0 <= a -> 0 <= rout * a / (rin + a).
Proof.
  intros. destruct (decide (rin + a = 0)) as [->|]; [by rewrite Zdiv_0_r|].
  apply Z.div_pos; nia.
Qed.

Lemma weighted_div_nonneg bin bout win wout a :
  0 <= bin -> 0 <= bout -> 0 <= win -> 0 <= wout -> 0 <= a ->
  0 <= bout * (a * win) / (bin * wout + a * win).
Proof.
  intros. assert (0 <= a * win) by nia. assert (0 <= bin * wout) by nia.
  by apply cp_div_nonneg.
Qed.

Lemma concentrated_nonneg ps a tag out :
  wf_pool ps -> 0 <= a -> concentrated_swap_math ps a tag = Ok out -> 0 <= out.
Proof.
  intros Hwf Ha Hq. unfold concentrated_swap_math in Hq. destruct ps; try done.
  destruct Hwf as [Hsp Hl]. run_ok; to_prop; [lia|]. checked_values. pose proof q96_pos.
  apply Z.div_pos; [|done]. nia.
Qed.

Lemma balancer_nonneg ps a out :
  wf_pool ps -> 0 <= a -> balancer_v2_quote ps a = Ok out -> 0 <= out.
Proof.
  intros Hwf Ha Hq. unfold balancer_v2_quote in Hq. run_ok; [lia|..]; to_prop; try done.
  - destruct Hwf as [Hb Hw]. unfold quote_weighted in Hq. run_ok. to_prop. checked_values.
    apply weighted_div_nonneg; auto using nth_nonneg, div_fee_nonneg.
  - unfold quote_stable in Hq. run_ok. checked_values. lia.
Qed.

Lemma maverick_nonneg {L : U256ParseLaws H} ps a out :
  0 <= a -> maverick_v2_quote ps a = Ok out -> 0 <= out.
Proof.
  intros Ha Hq. unfold maverick_v2_quote in Hq. destruct ps; try done.
  run_ok; to_prop; [lia|]. checked_values. unfold pull_u256 in *. inv_ok.
  repeat match goal with H : parse_u256 _ = Some _ |- _ => apply L in H as [? _] end.
  apply cp_div_nonneg; auto using div_fee_nonneg.
Qed.

Lemma uniswap_v3_nonneg ps a out :
  wf_pool ps -> 0 <= a -> uniswap_v3_quote ps a = Ok out -> 0 <= out.
Proof. apply concentrated_nonneg. Qed.

Lemma uniswap_v4_nonneg ps a out :
  wf_pool ps -> 0 <= a -> uniswap_v4_quote ps a = Ok out -> 0 <= out.
Proof. apply concentrated_nonneg. Qed.

Lemma uniswap_v2_nonneg ps a out :
  wf_pool ps -> 0 <= a -> uniswap_v2_quote ps a = Ok out -> 0 <= out.
Proof.
  intros Hwf Ha Hq. unfold uniswap_v2_quote in Hq. destruct ps; try done. destruct Hwf.
  run_ok; to_prop. checked_values. apply cp_div_nonneg; nia.
Qed.

Lemma trader_joe_nonneg ps a out :
  wf_pool ps -> 0 <= a -> trader_joe_lb_quote ps a = Ok out -> 0 <= out.
Proof.
  intros Hwf Ha Hq. unfold trader_joe_lb_quote in Hq. destruct ps; try done.
  run_ok; to_prop; [lia|]. checked_values.
  match goal with H : find_first _ _ = Some _ |- _ => apply find_first_Some in H as [Hin _] end.
  simpl in Hwf. rewrite Forall_forall in Hwf. destruct (Hwf _ Hin).
  apply cp_div_nonneg; auto using div_fee_nonneg.
Qed.

Lemma curve_v1_nonneg ps a out : curve_v1_quote ps a = Ok out -> 0 <= out.
Proof.
  intros Hq. unfold curve_v1_quote in Hq. destruct ps; try done.
  run_ok; [lia|]. checked_values. lia.
Qed.

Lemma curve_v2_nonneg ps a out : curve_v2_quote ps a = Ok out -> 0 <= out.
Proof.
  intros Hq. unfold curve_v2_quote in Hq. destruct ps; try done.
  run_ok; [lia|]. checked_values. lia.
Qed.

Lemma quote_hop_nonneg {L : U256ParseLaws H} hop x y :
  wf_pool (rh_pool_state hop) -> 0 <= x -> quote_hop hop x = Ok y -> 0 <= y.
Proof.
  intros Hwf Hx Hq. unfold quote_hop in Hq.
  destruct (rh_venue hop); try done; run_ok;
    eauto using uniswap_v2_nonneg, uniswap_v3_nonneg, uniswap_v4_nonneg, curve_v1_nonneg, curve_v2_nonneg,
      balancer_nonneg, trader_joe_nonneg, maverick_nonneg.
Qed.

(** The snapshots of a route's pools are unsigned. *)
Definition wf_route (a : SwapAction) : Prop :=
  Forall (fun p => 0 <= rp_share_bp p /\ Forall (fun hop => wf_pool (rh_pool_state hop)) (rp_hops p))
    (sr_paths (lf_value (sl_route (sw_live_inputs a)))).

Lemma walk_hops_nonneg {L : U256ParseLaws H} hops x y :
  Forall (fun hop => wf_pool (rh_pool_state hop)) hops -> 0 <= x ->
  foldM (fun hop_in hop => quote_hop hop hop_in) hops x = Ok y -> 0 <= y.
Proof.
  intros Hwf. revert x. induction Hwf as [|hop hops Hh _ IH]; simpl; intros x Hx Hf; inv_ok; [done|].
  eapply IH; [|done]. eauto using quote_hop_nonneg.
Qed.

Lemma route_output_u256 {L : U256ParseLaws H} a out :
  wf_route a -> 0 <= swap_total_in (sp_direction (sw_params a)) ->
  route_output a = Ok out -> u256 out.
Proof.
  unfold wf_route, route_output. intros Hwf Hin.
  assert (u256 0) as H0 by (pose proof int_bounds; unfold u256; lia). revert H0. generalize 0.
  induction Hwf as [|p paths [Hs Hh] _ IH]; simpl; intros acc Hacc Hf; inv_ok; [done|].
  eapply IH; [|done].
  match goal with Hp : walk_path _ _ _ = Ok _ |- _ => unfold walk_path in Hp end. inv_ok.
  checked_values. 
  match goal with Hf : foldM _ (rp_hops p) _ = Ok _ |- _ =>
    apply (walk_hops_nonneg (L := L)) in Hf; [|done|apply Z.div_pos; nia] end.
  unfold u256 in *. int_solve.
Qed.

(** The permit an aggregator route bundles, if it bundles one. *)
Definition bundled_permit (a : SwapAction) : option AggregatorMeta :=
  match sw_venue a, sr_aggregator (lf_value (sl_route (sw_live_inputs a))) with
  | AggregatorRoute _ _ _ _, Some meta => if am_permit_bundled meta then Some meta else None
  | _, _ => None
  end.

(** The grant of a bundled permit: the swap's whole input, for an hour. *)
Definition permit_grant (a : SwapAction) (ctx : EvalContext) : AllowanceSpec :=
  let amount := swap_total_in (sp_direction (sw_params a)) in
  mkAllowanceSpec amount (amount =? U256_MAX)
    (time_saturating_add (cx_now ctx) PERMIT_BUNDLE_DEFAULT_TTL).

(** What an aggregated swap does to the approvals: nothing without a bundled permit,
    otherwise the permit's ERC-20 grant to the executor, or to the router if there is none. *)
Definition permit_settled (a : SwapAction) (ctx : EvalContext) (s s' : WalletState) : Prop :=
  match bundled_permit a with
  | None => ws_approvals s' = ws_approvals s
  | Some meta => exists c t, tr_key (sp_token_in (sw_params a)) = Erc20 c t /\
      same_view (view_of s') (view_set_erc20 (view_of s) (c, t)
        (default (am_router meta) (am_executor meta)) (Some (permit_grant a ctx)))
  end.

(** The aggregator guards queue at most an approval: nothing else moves. *)
Lemma aggregator_hooks_applies `{PositionSerde} s ctx a d :
  aggregator_hooks s ctx a StateDelta_default = Ok d ->
  sd_gas_paid d = None /\ exists s1, apply_delta s d = Ok s1 /\
    s1 = ws_set_approvals s (ws_approvals s1) /\ permit_settled a ctx s s1.
Proof.
  unfold aggregator_hooks, permit_settled, bundled_permit. intros Hd.
  destruct (sw_venue a); try (simplify_eq; split; [done|]; exists s; by destruct s).
  destruct (sr_aggregator _) as [meta|];
    [|simplify_eq; split; [done|]; exists s; by destruct s].
  unfold apply_permit_bundle, upsert_permit2_allowance in Hd.
  destruct (am_permit_bundled meta); simpl in Hd; inv_ok;
    [|split; [done|]; exists s; by destruct s].
  run_ok. split; [done|]. destruct (tr_key (sp_token_in (sw_params a))) as [|c t| |]; try done.
  destruct (push_approval_set_applies s StateDelta_default s (Erc20 c t)
    (default (am_router meta) (am_executor meta)) (permit_grant a ctx))
    as (s1 & v & H3 & [= <-] & Hv & _); [done..|].
  exists s1. split; [done|]. split; [|by eauto].
  apply apply_delta_push_token in H3 as (u & [= <-] & H3); [|done].
  simpl in H3. unfold apply_approval_set in H3. run_ok; done.
Qed.

Lemma verify_executor_Ok meta u :
  verify_executor meta = Ok u ->
  am_executor meta = None \/
  (am_executor meta = Some ONE_INCH_V6_ROUTER /\ am_aggregator meta = OneInchV6).
Proof.
  unfold verify_executor. destruct (am_executor meta) as [e|]; [|auto]. intros Hv. right.
  destruct (am_aggregator meta); simpl in Hv; try done. case_bool_decide as He; [|done].
  set_unfold in He. by destruct He as [->|[]].
Qed.

Lemma verify_calldata_hash_Ok meta u :
  verify_calldata_hash meta = Ok u -> String.length (am_raw_calldata_hash meta) = 66%nat.
Proof.
  unfold verify_calldata_hash. destruct (Nat.eqb_spec (String.length (am_raw_calldata_hash meta)) 66);
    [done|]. by rewrite orb_true_r.
Qed.

Lemma apply_swap_gas a s ctx d : apply_swap a s ctx = Ok d -> sd_gas_paid d = None.
Proof.
  unfold apply_swap, aggregator_hooks, apply_permit_bundle, upsert_permit2_allowance.
  intros Hd. run_ok;
    repeat match goal with
    | Hc : credit _ _ _ _ = Ok _ |- _ => apply credit_gas in Hc; rewrite Hc
    | Hc : debit _ _ _ _ = Ok _ |- _ => apply debit_gas in Hc; rewrite Hc
    end; done.
Qed.

(** ** Properties *)

Section Properties.
Context `{PositionSerde} {L : U256ParseLaws H}.


(** What an accepted swap guarantees about its route: every hop is one the reducer can
    price (no Uniswap V4 hooks, no nested aggregator, no Aave GSM), and on an aggregator venue
    an executor that is not the aggregator's own router is refused: only the 1inch V6 router
    is allowed, with a well-formed calldata hash. *)
Theorem swap_guards a s ctx d :
  apply_swap a s ctx = Ok d ->
  Forall (fun p => Forall hop_supported (rp_hops p)) (sr_paths (lf_value (sl_route (sw_live_inputs a)))) /\
  forall c r h e meta, sw_venue a = AggregatorRoute c r h e ->
    sr_aggregator (lf_value (sl_route (sw_live_inputs a))) = Some meta ->
    (am_executor meta = None \/
     (am_executor meta = Some ONE_INCH_V6_ROUTER /\ am_aggregator meta = OneInchV6)) /\
    String.length (am_raw_calldata_hash meta) = 66%nat.
Proof.
  unfold apply_swap, route_output. intros Hd. inv_ok.
  split; [by eapply walk_paths_supported|]. intros c r h e meta Hv Hm.
  match goal with Hh : aggregator_hooks _ _ _ _ = Ok _ |- _ =>
    unfold aggregator_hooks in Hh; rewrite Hv, Hm in Hh; inv_ok end.
  split; [by eauto using verify_executor_Ok|by eauto using verify_calldata_hash_Ok].
Qed.

(** Slippage is the only way an exact-input route that prices and a held balance can
    fail: on a plain venue, with the input covered and both tokens held, the reducer accepts
    the swap exactly when the route's output reaches [min_amount_out], and otherwise returns
    the slippage error. *)
Theorem swap_slippage_exact a s ctx amount_in min_out token_out out bout :
  (forall c r h e, sw_venue a <> AggregatorRoute c r h e) ->
  sp_direction (sw_params a) = ExactInput amount_in min_out ->
  sp_token_out (sw_params a) = Some token_out ->
  (exists bin, signed_balance s (tr_key (sp_token_in (sw_params a))) = Some bin /\
    u256_to_signed_saturating amount_in <= bin) ->
  signed_balance s (tr_key token_out) = Some bout ->
  route_output a = Ok out ->
  (min_out <= out -> exists d, apply_swap a s ctx = Ok d) /\
  (out < min_out -> apply_swap a s ctx =
     Err (Invariant "swap slippage: out {total_out} < min {min_amount_out}")).
Proof.
  intros Hv Hdir Htok (bin & Hbin & Hle) Hbout Hout. unfold apply_swap.
  rewrite Hdir, Htok, Hout. simpl. split; intros Hmin.
  - rewrite (proj2 (Z.ltb_ge _ _)) by done. simpl.
    assert (aggregator_hooks s ctx a StateDelta_default = Ok StateDelta_default) as ->
      by (unfold aggregator_hooks; destruct (sw_venue a); naive_solver). simpl.
    rewrite (proj2 (debit_Ok _ _ _ _ _)) by (eexists; split;
      [by apply effective_exists_iff|split; [done|reflexivity]]). simpl.
    eexists. apply credit_Ok. eauto.
  - by rewrite (proj2 (Z.ltb_lt _ _)).
Qed.
End Properties.
End Swap.

(** ** Witnesses *)

(** 100 USDC, split over two constant-product pools at 30 basis points and a
    Maverick bin. *)
Definition demo_hop : RouteHop :=
  mkRouteHop (mkTokenRef usdc_key) (mkTokenRef weth_key)
    (UniswapV2 demo_chain demo_contract demo_contract)
    (XyConstant 1000000000000 1000000000000000000000 30) 30 0.
Definition demo_bin_hop : RouteHop :=
  mkRouteHop (mkTokenRef usdc_key) (mkTokenRef weth_key) (MaverickV2 demo_chain demo_contract)
    (Maverick "both" (JObject [("reserve_in", JString "5000000000");
                               ("reserve_out", JString "4000000000000000000");
                               ("fee_bp", JNumber 5)])) 5 0.
Definition demo_route (m : option AggregatorMeta) : SwapRoute :=
  mkSwapRoute [mkRoutePath 4000 [demo_hop] 0; mkRoutePath 6000 [demo_bin_hop] 0] m.
Definition demo_swap (v : AmmVenue) (m : option AggregatorMeta) (min_out : U256) : SwapAction :=
  mkSwapAction v
    (mkSwapParams (mkTokenRef usdc_key) (Some (mkTokenRef weth_key))
       (ExactInput 100000000 min_out) demo_addr 50)
    (mkSwapLiveInputs (demo_live (demo_route m)) (demo_live 0) (demo_live 0) (demo_live 0)).
Definition demo_plain : SwapAction :=
  demo_swap (UniswapV2 demo_chain demo_contract demo_contract) None 1000.
Definition demo_meta : AggregatorMeta :=
  mkAggregatorMeta OneInchV6 ONE_INCH_V6_ROUTER (Some ONE_INCH_V6_ROUTER)
    "0x00000000000000000000000000000000000000000000000000000000000000ab" true None 0.
Definition demo_aggregated : SwapAction :=
  demo_swap (AggregatorRoute demo_chain ONE_INCH_V6_ROUTER "0x01" None) (Some demo_meta) 1000.
Definition demo_swap_out : U256 :=
  match route_output (H := demo_parse) demo_plain with Ok o => o | _ => 0 end.

Lemma swap_slippage_exact_witness :
  exists d, apply_swap (H := demo_parse) demo_plain demo_wallet demo_ctx = Ok d.
Proof.
  apply (swap_slippage_exact (H := demo_parse) demo_plain demo_wallet demo_ctx 100000000 1000
           (mkTokenRef weth_key) demo_swap_out 0).
  - discriminate.
  - reflexivity.
  - reflexivity.
  - exists 1000000000. vm_compute. split; [reflexivity|discriminate].
  - vm_compute. reflexivity.
  - vm_compute. reflexivity.
  - vm_compute. discriminate.
Defined.

(** The aggregated swap, its bundled permit included. *)
Definition demo_aggregated_delta : StateDelta :=
  match apply_swap (H := demo_parse) demo_aggregated demo_wallet demo_ctx with
  | Ok d => d | _ => StateDelta_default end.


(** The aggregated demo does bundle a permit. *)
Example demo_permit_bundled : bundled_permit demo_aggregated = Some demo_meta.
Proof. reflexivity. Qed.

Lemma swap_guards_witness :
  Forall (fun p => Forall hop_supported (rp_hops p)) (sr_paths (demo_route (Some demo_meta))) /\
  (am_executor demo_meta = None \/
     (am_executor demo_meta = Some ONE_INCH_V6_ROUTER /\ am_aggregator demo_meta = OneInchV6)).
Proof.
  destruct (swap_guards (H := demo_parse) demo_aggregated demo_wallet demo_ctx
    demo_aggregated_delta) as [Hh Hm]; [vm_compute; reflexivity|].
  split; [exact Hh|]. apply (Hm demo_chain ONE_INCH_V6_ROUTER "0x01" None); reflexivity.
Defined.
