(* ===== verification/AmmLiquidity.v ===== *)
(** * Liquidity reducers

    crates/asset-model/transition/src/effect/amm/{add_liquidity,
    remove_liquidity,collect_fees,gsm_swap}.rs: pool deposits debit the desired
    amounts and credit the signed floor of the receipt, burns debit the receipt
    and credit the floors and the fees owed. *)
From stdpp Require Import base tactics numbers list strings gmap.
From S2P Require Import Prelude Types Positions Wallet Serde Fixtures Delta BalanceOps ApprovalOps.
From S2P Require Import PositionOps Replay AmmTypes.

(** ** The LP receipt of a pool (add_liquidity.rs) *)

(** [pooled_venue_tag]; remove_liquidity.rs and collect_fees.rs repeat it as
    [venue_tag]. *)
Definition pooled_venue_tag (venue : AmmVenue) : string :=
  match venue with
  | UniswapV2 _ _ _ => "uniswap_v2"
  | UniswapV3 _ _ _ => "uniswap_v3"
  | UniswapV4 _ _ _ _ => "uniswap_v4"
  | SushiV2 _ _ => "sushi_v2"
  | CurveV1 _ _ _ _ => "curve_v1"
  | CurveV2 _ _ => "curve_v2"
  | BalancerV2 _ _ _ _ => "balancer_v2"
  | BalancerV3 _ _ _ => "balancer_v3"
  | TraderJoeLB _ _ _ => "trader_joe_lb"
  | MaverickV2 _ _ => "maverick_v2"
  | AaveGsm _ _ => "aave_gsm"
  | AggregatorRoute _ _ _ _ => "aggregator_route"
  end.

(** [hex_nibble] *)
Definition hex_nibble (c : Ascii.ascii) : ReducerResult Z :=
  let n := Z.of_N (Ascii.N_of_ascii c) in
  if (48 <=? n) && (n <=? 57) then Ok (n - 48)
  else if (97 <=? n) && (n <=? 102) then Ok (n - 97 + 10)
  else if (65 <=? n) && (n <=? 70) then Ok (n - 65 + 10)
  else Err (Invariant "balancer pool_id contains non-hex byte: 0x{other:02x}").

(** The byte loop of [pool_id_to_address]: [n] bytes, each from two digits,
    appended to the big-endian value [acc]. *)
Fixpoint pool_id_bytes (n : nat) (bytes : list Ascii.ascii) (acc : Z) : ReducerResult Z :=
  match n with
  | O => Ok acc
  | S n' =>
      match bytes with
      | c0 :: c1 :: rest =>
          hi ← hex_nibble c0;
          lo ← hex_nibble c1;
          pool_id_bytes n' rest (256 * acc + Z.lor (Z.shiftl hi 4) lo)
      | _ => Panic
      end
  end.

(** [pool_id_to_address] *)
Definition pool_id_to_address (pool_id : string) : ReducerResult Address :=
  let stripped := if String.prefix "0x" pool_id
                  then String.substring 2 (String.length pool_id - 2) pool_id else pool_id in
  if (String.length stripped <? 40)%nat then
    Err (Invariant "balancer pool_id too short to extract LP address: {pool_id}")
  else pool_id_bytes 20 (String.list_ascii_of_string stripped) 0.

(** [pooled_lp_key] *)
Definition pooled_lp_key (venue : AmmVenue) : ReducerResult TokenKey :=
  match venue with
  | UniswapV2 chain pool _ | SushiV2 chain pool | CurveV1 chain pool _ _ | CurveV2 chain pool
  | MaverickV2 chain pool => Ok (Erc20 chain pool)
  | BalancerV2 chain _ pool_id _ | BalancerV3 chain pool_id _ =>
      address ← pool_id_to_address pool_id; Ok (Erc20 chain address)
  | UniswapV3 _ _ _ | UniswapV4 _ _ _ _ | TraderJoeLB _ _ _ | AaveGsm _ _
  | AggregatorRoute _ _ _ _ =>
      Err (UnsupportedProtocol "add_liquidity" (pooled_venue_tag venue))
  end.

(** [require_concentrated_venue] *)
Definition require_concentrated_venue (venue : AmmVenue) (action : string) : ReducerResult () :=
  match venue with
  | UniswapV3 _ _ _ | UniswapV4 _ _ _ _ | TraderJoeLB _ _ _ => Ok ()
  | _ => Err (UnsupportedProtocol action (pooled_venue_tag venue))
  end.

(** [concentrated_underlyings] *)
Definition concentrated_underlyings (state : WalletState) (nft_key : TokenKey)
    : ReducerResult (TokenRef * TokenRef) :=
  holding ← ok_or (TokenNotFound nft_key) (ws_tokens state !! nft_key);
  match th_kind holding with
  | LpShare _ underlyings _ (Concentrated _ _) =>
      match underlyings with
      | [a; b] => Ok (a, b)
      | _ => Err (Invariant "concentrated LP {nft_key:?} has {len} underlyings, expected 2")
      end
  | _ => Err (Invariant "concentrated lifecycle action targeted {nft_key:?} but holding is not LpShare(Concentrated)")
  end.

(** [ensure_mint_stub] *)
Definition ensure_mint_stub (state : WalletState) (delta : StateDelta) (key : TokenKey)
    (kind_hint : TokenKind) : StateDelta :=
  match ws_tokens state !! key with
  | Some _ => delta
  | None => push_token delta (Mint key kind_hint)
  end.

(** [raw_credit] *)
Definition raw_credit (delta : StateDelta) (key : TokenKey) (amount : U256) : StateDelta :=
  push_token delta (BalanceDelta key (u256_to_signed_saturating amount)).

(** [pooled_lp_kind_hint] *)
Definition pooled_lp_kind_hint (underlyings : list TokenRef) : TokenKind :=
  LpShare (mkPoolRef (ProtocolRef_new "unknown") None None None) underlyings ShareFungible
    (Pooled None).

(** [venue_chain] *)
Definition venue_chain (venue : AmmVenue) : ChainId :=
  match venue with
  | UniswapV2 chain _ _ | UniswapV3 chain _ _ | UniswapV4 chain _ _ _ | SushiV2 chain _
  | CurveV1 chain _ _ _ | CurveV2 chain _ | BalancerV2 chain _ _ _ | BalancerV3 chain _ _
  | TraderJoeLB chain _ _ | MaverickV2 chain _ | AaveGsm chain _
  | AggregatorRoute chain _ _ _ => chain
  end.

(** ** Reducers *)

(** The credit of the LP receipt: a held receipt is credited, a new one is
    minted as a stub first. *)
Definition credit_lp (state : WalletState) (delta : StateDelta) (lp_key : TokenKey)
    (tokens : list (TokenRef * U256)) (min_lp_out : U256) : ReducerResult StateDelta :=
  match ws_tokens state !! lp_key with
  | Some _ => credit state delta lp_key min_lp_out
  | None =>
      Ok (raw_credit (ensure_mint_stub state delta lp_key (pooled_lp_kind_hint tokens.*1))
            lp_key min_lp_out)
  end.

(** [impl Reducer for AddLiquidityAction] *)
Definition apply_add_liquidity (a : AddLiquidityAction) (state : WalletState) (ctx : EvalContext)
    : ReducerResult StateDelta :=
  match al_params a with
  | AddPooled tokens min_lp_out _ =>
      if bool_decide (tokens = []) then
        Err (Invariant "add_liquidity pooled: tokens list is empty")
      else
        delta ← foldM (fun d '(t, amount) => debit state d (tr_key t) amount) tokens StateDelta_default;
        lp_key ← pooled_lp_key (al_venue a);
        credit_lp state delta lp_key tokens min_lp_out
  | ConcentratedMint (token0, token1) (desired0, desired1) _ _ _ =>
      _ ← require_concentrated_venue (al_venue a) "add_liquidity";
      if negb (bool_decide (key_chain (tr_key token0) = venue_chain (al_venue a)))
         || negb (bool_decide (key_chain (tr_key token1) = venue_chain (al_venue a))) then
        Err (Invariant "concentrated mint pool_pair token {:?} chain mismatch vs venue chain {chain:?}")
      else
        delta ← debit state StateDelta_default (tr_key token0) desired0;
        debit state delta (tr_key token1) desired1
  | ConcentratedIncrease nft_key (desired0, desired1) _ =>
      _ ← require_concentrated_venue (al_venue a) "add_liquidity";
      '(token_a, token_b) ← concentrated_underlyings state nft_key;
      delta ← debit state StateDelta_default (tr_key token_a) desired0;
      debit state delta (tr_key token_b) desired1
  end.

(** [require_pooled_venue] (remove_liquidity.rs) *)
Definition require_pooled_venue (venue : AmmVenue) (action : string) : ReducerResult () :=
  match venue with
  | UniswapV2 _ _ _ | SushiV2 _ _ | CurveV1 _ _ _ _ | CurveV2 _ _ | BalancerV2 _ _ _ _
  | BalancerV3 _ _ _ | MaverickV2 _ _ => Ok ()
  | _ => Err (UnsupportedProtocol action (pooled_venue_tag venue))
  end.

(** [concentrated_liquidity_is_zero] *)
Definition concentrated_liquidity_is_zero (range : RangeSpec) : bool :=
  match range with Tick _ _ liquidity => liquidity =? 0 | Bin _ _ | RangeCustom _ _ => false end.

(** The loop over [fees_owed]: zero entries are skipped. *)
Definition credit_fees (state : WalletState) (fees : list (TokenRef * U256)) (delta : StateDelta)
    : ReducerResult StateDelta :=
  foldM (fun d '(t, amount) => if negb (amount =? 0) then credit state d (tr_key t) amount else Ok d)
    fees delta.

(** [impl Reducer for RemoveLiquidityAction] *)
Definition apply_remove_liquidity (a : RemoveLiquidityAction) (state : WalletState)
    (ctx : EvalContext) : ReducerResult StateDelta :=
  let fees := lf_value (rlli_fees_owed (rl_live_inputs a)) in
  match rl_params a with
  | PooledBurn lp_token lp_amount min_out _ =>
      _ ← require_pooled_venue (rl_venue a) "remove_liquidity";
      delta ← debit state StateDelta_default (tr_key lp_token) lp_amount;
      delta ← foldM (fun d '(t, amount) => credit state d (tr_key t) amount) min_out delta;
      credit_fees state fees delta
  | PooledBurnOneCoin lp_token lp_amount token_out min_out _ =>
      _ ← require_pooled_venue (rl_venue a) "remove_liquidity";
      delta ← debit state StateDelta_default (tr_key lp_token) lp_amount;
      delta ← credit state delta (tr_key token_out) min_out;
      credit_fees state fees delta
  | PooledBurnImbalance lp_token max_lp_burn amounts_out _ =>
      _ ← require_pooled_venue (rl_venue a) "remove_liquidity";
      delta ← debit state StateDelta_default (tr_key lp_token) max_lp_burn;
      delta ← foldM (fun d '(t, amount) => credit state d (tr_key t) amount) amounts_out delta;
      credit_fees state fees delta
  | ConcentratedDecrease nft_key liquidity_burn _ =>
      _ ← require_concentrated_venue (rl_venue a) "remove_liquidity";
      _ ← concentrated_underlyings state nft_key;
      if liquidity_burn =? 0 then
        Err (Invariant "remove_liquidity concentrated_decrease: liquidity_burn is zero")
      else Ok StateDelta_default
  | ConcentratedBurn nft_key =>
      _ ← require_concentrated_venue (rl_venue a) "remove_liquidity";
      holding ← ok_or (TokenNotFound nft_key) (ws_tokens state !! nft_key);
      match th_kind holding with
      | LpShare _ _ _ (Concentrated range _) =>
          if negb (concentrated_liquidity_is_zero range) then
            Err (Invariant "remove_liquidity concentrated_burn: NFT {nft_key:?} has non-zero liquidity — call decrease+collect first")
          else transfer_nft state StateDelta_default nft_key 0 None
      | _ => Err (Invariant "concentrated_burn targeted {nft_key:?} but holding is not LpShare(Concentrated)")
      end
  end.

(** [impl Reducer for CollectFeesAction] *)
Definition apply_collect_fees (a : CollectFeesAction) (state : WalletState) (ctx : EvalContext)
    : ReducerResult StateDelta :=
  _ ← require_concentrated_venue (cf_venue a) "collect_fees";
  _ ← concentrated_underlyings state (cf_nft_key a);
  credit_fees state (lf_value (cfli_fees_owed (cf_live_inputs a))) StateDelta_default.

(** [impl Reducer for GsmSwapAction] *)
Definition apply_gsm_swap (a : GsmSwapAction) (state : WalletState) (ctx : EvalContext)
    : ReducerResult StateDelta := Ok StateDelta_default.

(** ** What a list of amounts moves *)

(** The sum of the amounts a list names for one token. *)
Definition amounts_of (k : TokenKey) (l : list (TokenRef * U256)) : Z :=
  foldr (fun '(t, a) acc => (if bool_decide (tr_key t = k) then a else 0) + acc) 0 l.

Definition small_amounts (l : list (TokenRef * U256)) : Prop :=
  Forall (fun p => 0 <= p.2 <= I256_MAX) l.

(** The changes a delta makes to one balance. *)
Definition net_in (k : TokenKey) (d : StateDelta) : Z := sum_over (inflow k) (sd_token_changes d).
Definition net_out (k : TokenKey) (d : StateDelta) : Z := sum_over (outflow k) (sd_token_changes d).

Lemma sum_over_app f l1 l2 : sum_over f (l1 ++ l2) = sum_over f l1 + sum_over f l2.
Proof. induction l1; simpl; lia. Qed.

Lemma amounts_of_nonneg k l : small_amounts l -> 0 <= amounts_of k l.
Proof. induction 1 as [|[t a] l Ha _ IH]; simpl in *; [lia|]. case_bool_decide; lia. Qed.

Lemma net_debit s d key amt d' k :
  debit s d key amt = Ok d' -> 0 <= amt <= I256_MAX ->
  net_in k d' = net_in k d /\
  net_out k d' = net_out k d + (if bool_decide (key = k) then amt else 0).
Proof.
  intros (e & _ & _ & ->)%debit_Ok Ha. unfold net_in, net_out. simpl.
  rewrite !sum_over_app, u256_to_signed_small by lia. simpl. case_bool_decide; lia.
Qed.

Lemma net_credit s d key amt d' k :
  credit s d key amt = Ok d' -> 0 <= amt <= I256_MAX ->
  net_in k d' = net_in k d + (if bool_decide (key = k) then amt else 0) /\
  net_out k d' = net_out k d.
Proof.
  intros [_ ->]%credit_Ok Ha. unfold net_in, net_out. simpl.
  rewrite !sum_over_app, u256_to_signed_small by lia. simpl. case_bool_decide; lia.
Qed.

Lemma net_debits s l d d' k :
  small_amounts l -> foldM (fun d '(t, a) => debit s d (tr_key t) a) l d = Ok d' ->
  net_in k d' = net_in k d /\ net_out k d' = net_out k d + amounts_of k l.
Proof.
  intros Hl. revert d. induction Hl as [|[t a] l Ha _ IH]; simpl; intros d Hf; inv_ok; [lia|].
  match goal with Hd : debit _ _ _ _ = Ok _ |- _ => destruct (net_debit _ _ _ _ _ k Hd Ha) end.
  destruct (IH x) as [? ?]; [done|]. lia.
Qed.

Lemma net_credits s l d d' k :
  small_amounts l -> foldM (fun d '(t, a) => credit s d (tr_key t) a) l d = Ok d' ->
  net_in k d' = net_in k d + amounts_of k l /\ net_out k d' = net_out k d.
Proof.
  intros Hl. revert d. induction Hl as [|[t a] l Ha _ IH]; simpl; intros d Hf; inv_ok; [lia|].
  match goal with Hd : credit _ _ _ _ = Ok _ |- _ => destruct (net_credit _ _ _ _ _ k Hd Ha) end.
  destruct (IH x) as [? ?]; [done|]. lia.
Qed.

(** Crediting the fees is crediting the non-zero ones. *)
Lemma credit_fees_filter s fees d :
  credit_fees s fees d =
  foldM (fun d '(t, a) => credit s d (tr_key t) a) (retain (fun p => negb (p.2 =? 0)) fees) d.
Proof.
  unfold credit_fees. revert d. induction fees as [|[t a] l IH]; intros d; simpl; [done|].
  destruct (a =? 0) eqn:Ha; simpl; [apply IH|]. destruct (credit s d (tr_key t) a); simpl; auto.
Qed.

Lemma amounts_of_retain k l : amounts_of k (retain (fun p => negb (p.2 =? 0)) l) = amounts_of k l.
Proof.
  induction l as [|[t a] l IH]; simpl; [done|]. destruct (Z.eqb_spec a 0) as [->|]; simpl; rewrite IH;
    case_bool_decide; lia.
Qed.

Lemma small_retain p l : small_amounts l -> small_amounts (retain p l).
Proof. induction 1; simpl; [constructor|]. destruct (p x); [by constructor|done]. Qed.

Lemma net_fees s fees d d' k :
  small_amounts fees -> credit_fees s fees d = Ok d' ->
  net_in k d' = net_in k d + amounts_of k fees /\ net_out k d' = net_out k d.
Proof.
  rewrite credit_fees_filter. intros Hs Hf.
  apply (net_credits _ _ _ _ k (small_retain _ _ Hs)) in Hf. by rewrite amounts_of_retain in Hf.
Qed.

(** ** Reading the pool address back *)

Lemma list_ascii_app s1 s2 :
  String.list_ascii_of_string (s1 +:+ s2) =
  String.list_ascii_of_string s1 ++ String.list_ascii_of_string s2.
Proof. induction s1 as [|c s1 IH]; [done|]. simpl. by f_equal. Qed.

Lemma list_ascii_length s : length (String.list_ascii_of_string s) = String.length s.
Proof. induction s as [|c s IH]; [done|]. simpl. by rewrite IH. Qed.

Lemma hex_digit_nibble d :
  0 <= d < 16 ->
  exists c, String.list_ascii_of_string (hex_digit d) = [c] /\ hex_nibble c = Ok d.
Proof.
  intros Hd.
  assert (d = 0 \/ d = 1 \/ d = 2 \/ d = 3 \/ d = 4 \/ d = 5 \/ d = 6 \/ d = 7 \/ d = 8 \/ d = 9 \/
    d = 10 \/ d = 11 \/ d = 12 \/ d = 13 \/ d = 14 \/ d = 15) as Hc by lia.
  repeat destruct Hc as [->|Hc]; try subst d; eexists; split; reflexivity.
Qed.

Lemma nibbles_byte hi lo :
  0 <= hi < 16 -> 0 <= lo < 16 -> Z.lor (Z.shiftl hi 4) lo = 16 * hi + lo.
Proof.
  intros Hh Hl.
  assert (forallb (fun h => forallb (fun l => Z.lor (Z.shiftl h 4) l =? 16 * h + l) (seqZ 0 16))
    (seqZ 0 16) = true) as Hf by (vm_compute; reflexivity).
  rewrite forallb_forall in Hf. specialize (Hf hi (proj1 (list_elem_of_In _ _) (proj2 (elem_of_seqZ 0 16 hi) ltac:(lia)))).
  rewrite forallb_forall in Hf. specialize (Hf lo (proj1 (list_elem_of_In _ _) (proj2 (elem_of_seqZ 0 16 lo) ltac:(lia)))).
  by apply Z.eqb_eq.
Qed.

(** One more byte at the end of the digits read. *)
Lemma pool_id_bytes_snoc n cs acc v c0 c1 hi lo rest :
  length cs = (2 * n)%nat -> (forall r, pool_id_bytes n (cs ++ r) acc = Ok v) ->
  hex_nibble c0 = Ok hi -> hex_nibble c1 = Ok lo ->
  pool_id_bytes (S n) (cs ++ c0 :: c1 :: rest) acc = Ok (256 * v + Z.lor (Z.shiftl hi 4) lo).
Proof.
  revert cs acc. induction n as [|n IH]; intros cs acc Hl Hr H0 H1.
  - destruct cs; [|done]. specialize (Hr []). simpl in Hr. simplify_eq.
    simpl. rewrite H0. simpl. by rewrite H1.
  - destruct cs as [|x [|y cs]]; try (simpl in Hl; lia).
    change (pool_id_bytes (S (S n)) ((x :: y :: cs) ++ c0 :: c1 :: rest) acc) with
      (h ← hex_nibble x; l ← hex_nibble y;
       pool_id_bytes (S n) (cs ++ c0 :: c1 :: rest) (256 * acc + Z.lor (Z.shiftl h 4) l)).
    simpl in Hr. destruct (hex_nibble x) as [h| |]; try by specialize (Hr []). simpl in Hr |- *.
    destruct (hex_nibble y) as [l| |]; try by specialize (Hr []). simpl in Hr |- *.
    apply IH; try done. simpl in Hl. lia.
Qed.

Lemma pool_id_bytes_hex n z rest :
  0 <= z < 256 ^ Z.of_nat n ->
  pool_id_bytes n (String.list_ascii_of_string (hex_digits (2 * n) z) ++ rest) 0 = Ok z.
Proof.
  revert z rest. induction n as [|n IH]; intros z rest Hz.
  - simpl in *. f_equal. lia.
  - assert (256 ^ Z.of_nat (S n) = 256 * 256 ^ Z.of_nat n) as Hpow
      by (rewrite Nat2Z.inj_succ, Z.pow_succ_r by lia; done).
    replace (2 * S n)%nat with (S (S (2 * n))) by lia.
    change (hex_digits (S (S (2 * n))) z) with
      ((hex_digits (2 * n) (z / 16 / 16) +:+ hex_digit (z / 16 mod 16)) +:+ hex_digit (z mod 16))%string.
    assert (0 <= z / 16 mod 16 < 16) as Hh by (apply Z.mod_pos_bound; lia).
    assert (0 <= z mod 16 < 16) as Hlo by (apply Z.mod_pos_bound; lia).
    destruct (hex_digit_nibble _ Hh) as (c0 & E0 & N0), (hex_digit_nibble _ Hlo) as (c1 & E1 & N1).
    rewrite !list_ascii_app, E0, E1, <- !app_assoc. cbn [app].
    assert (0 <= z / 16 / 16 < 256 ^ Z.of_nat n) as Hq.
    { rewrite Z.div_div by lia. split; [apply Z.div_pos; lia|apply Z.div_lt_upper_bound; lia]. }
    rewrite (pool_id_bytes_snoc n _ 0 (z / 16 / 16) c0 c1 (z / 16 mod 16) (z mod 16) rest); try done.
    + rewrite nibbles_byte by done. f_equal. pose proof (Z.div_mod z 16). pose proof (Z.div_mod (z / 16) 16). lia.
    + by rewrite list_ascii_length, hex_digits_length.
    + intros r. by apply IH.
Qed.

Lemma string_prefix_app p s : String.prefix p (p +:+ s) = true.
Proof. induction p as [|c p IH]; [by destruct s|]. simpl. by destruct (Ascii.ascii_dec c c). Qed.

Lemma substring_all s : String.substring 0 (String.length s) s = s.
Proof. induction s as [|c s IH]; [done|]. simpl. by rewrite IH. Qed.

(** The LP receipt of a Balancer pool is found: a pool identifier that starts with the
    pool's address, as printed by the wallet, names that address, whatever follows it. *)
Theorem pool_id_round_trip addr suffix :
  addr160 addr -> pool_id_to_address (lowercase_hex addr +:+ suffix) = Ok addr.
Proof.
  intros Ha. unfold pool_id_to_address, lowercase_hex.
  change (("0x" +:+ hex_digits 40 addr) +:+ suffix)%string with ("0x" +:+ (hex_digits 40 addr +:+ suffix))%string.
  rewrite string_prefix_app.
  change (String.substring 2 (String.length ("0x" +:+ (hex_digits 40 addr +:+ suffix)) - 2)
    ("0x" +:+ (hex_digits 40 addr +:+ suffix))) with
    (String.substring 0 (String.length (hex_digits 40 addr +:+ suffix) - 0) (hex_digits 40 addr +:+ suffix)).
  rewrite Nat.sub_0_r, substring_all, string_length_app, hex_digits_length.
  replace (40 + String.length suffix <? 40)%nat with false by (symmetry; apply Nat.ltb_ge; lia).
  rewrite list_ascii_app. by apply (pool_id_bytes_hex 20).
Qed.

Section Replayable.
Context `{L : PositionSerdeLaws}.

Lemma small_u256 l : small_amounts l -> Forall (fun p => u256 (p.2)) l.
Proof. intros Hl. eapply Forall_impl; [exact Hl|]. intros p Hp. by apply u256_of_signed. Qed.

Lemma small_nonneg l : small_amounts l -> Forall (fun p => 0 <= p.2) l.
Proof. intros Hl. eapply Forall_impl; [exact Hl|]. simpl. lia. Qed.

Lemma replayable_fees s fees d d' :
  wf_state s -> small_amounts fees -> credit_fees s fees d = Ok d' -> replayable s d -> replayable s d'.
Proof.
  rewrite credit_fees_filter. intros Hw Hs Hf.
  eapply replayable_credits; [done|by apply small_nonneg, small_retain|done].
Qed.

(** Debits name only held tokens. *)
Lemma debits_untouched s key l d d' :
  ws_tokens s !! key = None ->
  foldM (fun d '(t, a) => debit s d (tr_key t) a) l d = Ok d' ->
  Forall (fun tc => touches_token key tc = false) (sd_token_changes d) ->
  Forall (fun tc => touches_token key tc = false) (sd_token_changes d').
Proof.
  intros Hk. revert d. induction l as [|[t a] l IH]; simpl; intros d Hf Hd; inv_ok; [done|].
  eapply IH; [done|].
  match goal with Hx : debit _ _ _ _ = Ok _ |- _ => apply debit_Ok in Hx as (e & He & _ & ->) end.
  simpl. apply Forall_app. split; [done|]. repeat constructor. simpl.
  apply bool_decide_eq_false. intros Hkey. apply effective_signed_balance_Ok in He as (b & Hb & _).
  unfold signed_balance in Hb. rewrite Hkey, Hk in Hb. done.
Qed.

(** A first receipt: the stub is minted with balance zero, then credited. *)
Lemma replayable_first_receipt s d key hint amt :
  replayable s d -> ws_tokens s !! key = None ->
  Forall (fun tc => touches_token key tc = false) (sd_token_changes d) -> 0 <= amt ->
  replayable s (raw_credit (push_token d (Mint key hint)) key amt).
Proof.
  intros Hr Hk Hd Ha.
  assert (replayable s (push_token d (Mint key hint))) as Hm.
  { apply replayable_push_token; [done|done|]. intros s1 _. simpl. destruct (ws_tokens s1 !! key); eauto. }
  apply replayable_push_token; [done|done|]. intros s2 H2.
  destruct Hr as [Hg _ _ [s1 H1]]. apply apply_delta_push_token in H2 as (s1' & H1' & H2); [|done].
  assert (ws_tokens s1' !! key = None) as Hk1.
  { rewrite (apply_delta_untouched _ _ _ _ H1' Hd); [done|]. by rewrite Hg. }
  simpl in H2. rewrite Hk1 in H2. injection H2 as <-.
  destruct (apply_balance_delta_signed (put_holding s1' key (mint_stub_holding key hint)) key
    (u256_to_signed_saturating amt) 0) as (s3 & H3 & _); [| |by exists s3].
  - by rewrite signed_balance_eq.
  - int_solve.
Qed.

Lemma replayable_credit_lp s d d' lp tokens min_lp l :
  wf_state s -> replayable s d -> 0 <= min_lp ->
  foldM (fun d '(t, a) => debit s d (tr_key t) a) l StateDelta_default = Ok d ->
  credit_lp s d lp tokens min_lp = Ok d' -> replayable s d'.
Proof.
  intros Hw Hr Hm Hf Hc. unfold credit_lp, ensure_mint_stub in Hc.
  destruct (ws_tokens s !! lp) eqn:Hlp; [by eapply replayable_credit|]. inv_ok.
  apply replayable_first_receipt; try done. by eapply debits_untouched.
Qed.

Lemma net_credit_lp s d d' lp tokens min_lp k :
  0 <= min_lp <= I256_MAX -> credit_lp s d lp tokens min_lp = Ok d' ->
  net_in k d' = net_in k d + (if bool_decide (lp = k) then min_lp else 0) /\
  net_out k d' = net_out k d.
Proof.
  intros Hm Hc. unfold credit_lp, ensure_mint_stub in Hc.
  destruct (ws_tokens s !! lp) eqn:Hlp; [by eapply net_credit|]. inv_ok.
  unfold raw_credit, net_in, net_out. simpl. rewrite !sum_over_app, u256_to_signed_small by lia.
  simpl. case_bool_decide; lia.
Qed.

(** From the flows of a replayable delta to the balances it leaves. *)
Lemma replayable_balances s d :
  replayable s d ->
  exists s', apply_delta s d = Ok s' /\ forall k,
    fungible_balance s k + net_in k d <= I256_MAX ->
    fungible_balance s' k = fungible_balance s k + net_in k d - net_out k d.
Proof.
  intros [Hg _ _ [s' H']]. exists s'. split; [done|]. intros k Hk.
  rewrite (apply_delta_balance _ _ _ k H' Hk), Hg. simpl. unfold net_in, net_out. lia.
Qed.

(** ** Properties *)

(** A pooled deposit settles at its worst case: the delta of an accepted deposit applies,
    every balance falls by exactly the amounts listed for it, and the receipt of the venue's
    pool, minted first when the wallet never held it, rises by exactly [min_lp_out]. *)
Theorem add_liquidity_pooled_settles a s ctx d tokens min_lp recipient :
  wf_state s -> al_params a = AddPooled tokens min_lp recipient ->
  small_amounts tokens -> 0 <= min_lp <= I256_MAX ->
  apply_add_liquidity a s ctx = Ok d ->
  exists lp s', pooled_lp_key (al_venue a) = Ok lp /\ apply_delta s d = Ok s' /\ forall k,
    let receipt := if bool_decide (lp = k) then min_lp else 0 in
    fungible_balance s k + receipt <= I256_MAX ->
    fungible_balance s' k = fungible_balance s k - amounts_of k tokens + receipt.
Proof.
  intros Hw Hp Hs Hm Ha. unfold apply_add_liquidity in Ha. rewrite Hp in Ha. run_ok.
  match goal with Hd : foldM _ tokens _ = Ok _ |- _ => rename Hd into Hf end.
  assert (replayable s d) as Hr.
  { eapply replayable_credit_lp; [exact Hw| |apply Hm|exact Hf|done].
    eapply replayable_debits; [by apply small_u256|exact Hf|apply replayable_default]. }
  destruct (replayable_balances _ _ Hr) as (s' & Hs' & Hb). do 2 eexists. split; [done|].
  split; [done|]. intros k Hk. specialize (Hb k).
  destruct (net_debits _ _ _ _ k Hs Hf) as [Hi Ho].
  match goal with Hc : credit_lp _ _ _ _ _ = Ok _ |- _ =>
    destruct (net_credit_lp _ _ _ _ _ _ k Hm Hc) as [Hi' Ho'] end.
  change (net_in k StateDelta_default) with 0 in Hi.
  change (net_out k StateDelta_default) with 0 in Ho. lia.
Qed.

(** What the three pooled burns burn and pay out. *)
Definition burn_terms (p : RemoveLiquidityParams) : option (TokenRef * U256 * list (TokenRef * U256)) :=
  match p with
  | PooledBurn lp amount outs _ => Some (lp, amount, outs)
  | PooledBurnOneCoin lp amount t out _ => Some (lp, amount, [(t, out)])
  | PooledBurnImbalance lp amount outs _ => Some (lp, amount, outs)
  | _ => None
  end.

(** The three burns share one shape. *)
Lemma apply_burn a s ctx lp amount outs :
  burn_terms (rl_params a) = Some (lp, amount, outs) ->
  apply_remove_liquidity a s ctx =
    (_ ← require_pooled_venue (rl_venue a) "remove_liquidity";
     delta ← debit s StateDelta_default (tr_key lp) amount;
     delta ← foldM (fun d '(t, amount) => credit s d (tr_key t) amount) outs delta;
     credit_fees s (lf_value (rlli_fees_owed (rl_live_inputs a))) delta).
Proof.
  unfold apply_remove_liquidity. destruct (rl_params a); simpl; intros [= <- <- <-]; try done.
  destruct (require_pooled_venue _ _); simpl; try done. destruct (debit _ _ _ _); simpl; try done.
  by rewrite bind_Ok_r.
Qed.

(** A pooled burn, in any of its three forms, settles: the delta of an accepted burn
    applies, the receipt falls by exactly the amount burnt, and every balance rises by exactly
    the floors and the fees listed for it. *)
Theorem remove_liquidity_pooled_settles a s ctx d lp amount outs :
  wf_state s -> burn_terms (rl_params a) = Some (lp, amount, outs) ->
  let fees := lf_value (rlli_fees_owed (rl_live_inputs a)) in
  0 <= amount <= I256_MAX -> small_amounts outs -> small_amounts fees ->
  apply_remove_liquidity a s ctx = Ok d ->
  exists s', apply_delta s d = Ok s' /\ forall k,
    fungible_balance s k + amounts_of k outs + amounts_of k fees <= I256_MAX ->
    fungible_balance s' k =
      fungible_balance s k - (if bool_decide (tr_key lp = k) then amount else 0)
      + amounts_of k outs + amounts_of k fees.
Proof.
  intros Hw Hp fees Ham Hos Hfs Ha. rewrite (apply_burn _ _ _ _ _ _ Hp) in Ha. inv_ok.
  match goal with
  | H1 : debit _ _ _ _ = Ok ?x, H2 : foldM _ outs ?x = Ok ?y |- _ =>
      rename H1 into Hd, H2 into Hc, x into d1, y into d2
  end.
  assert (replayable s d1) as Hr1
    by (eapply replayable_debit; [apply replayable_default|by apply u256_of_signed|exact Hd]).
  assert (replayable s d2) as Hr2
    by (apply (replayable_credits s outs d1 d2 Hw); [by apply small_nonneg|exact Hc|exact Hr1]).
  destruct (replayable_balances s d) as (s' & Hs' & Hb); [by eapply replayable_fees|].
  exists s'. split; [done|]. intros k Hk. specialize (Hb k).
  destruct (net_debit _ _ _ _ _ k Hd Ham) as [Hi1 Ho1].
  destruct (net_credits _ _ _ _ k Hos Hc) as [Hi2 Ho2].
  match goal with Hf : credit_fees _ _ _ = Ok d |- _ =>
    destruct (net_fees _ _ _ _ k Hfs Hf) as [Hi3 Ho3] end.
  change (net_in k StateDelta_default) with 0 in Hi1.
  change (net_out k StateDelta_default) with 0 in Ho1. unfold fees in *. lia.
Qed.

(** Burning an emptied position NFT is accepted and then cannot be applied: the reducer
    records the loss of an ERC-721 as a balance change of minus one, which [apply_delta]
    refuses on an owned holding. *)
Theorem concentrated_burn_never_applies a s ctx chain contract id h pool us sf lo up fees :
  let nft := Erc721 chain contract id in
  rl_params a = ConcentratedBurn nft ->
  require_concentrated_venue (rl_venue a) "remove_liquidity" = Ok () ->
  ws_tokens s !! nft = Some h -> th_balance h = Owned ->
  th_kind h = LpShare pool us sf (Concentrated (Tick lo up 0) fees) ->
  exists d, apply_remove_liquidity a s ctx = Ok d /\
    apply_delta s d = Err (Invariant "BalanceDelta on non-fungible holding {key:?}").
Proof.
  intros nft Hp Hv Hk Hb Hkind. unfold apply_remove_liquidity. rewrite Hp, Hv, Hk. simpl.
  rewrite Hkind. simpl. rewrite Hk. simpl. eexists; split; [done|].
  unfold apply_delta. simpl. unfold apply_balance_delta. rewrite Hk. simpl. by rewrite Hb.
Qed.
End Replayable.

(** ** Witnesses *)
Definition demo_amounts : list (TokenRef * U256) :=
  [(mkTokenRef usdc_key, 100000000); (mkTokenRef eth_key, 50); (mkTokenRef usdc_key, 7)].
(** A pool the wallet has no receipt of, and the one it has ([lp_key]). *)
Definition demo_deposit : AddLiquidityAction :=
  mkAddLiquidityAction
    (BalancerV2 demo_chain demo_contract
       "0x5c6ee304399dbdb9c8ef030ab642b10820db8f56000200000000000000000014" PoolWeighted)
    (AddPooled demo_amounts 33 demo_addr)
    (mkAddLiquidityLiveInputs (demo_live (XyConstant 1 1 0)) (demo_live "1")).
Definition demo_burn : RemoveLiquidityAction :=
  mkRemoveLiquidityAction (CurveV1 demo_chain demo_contract 2 false)
    (PooledBurnOneCoin (mkTokenRef lp_key) 4000 (mkTokenRef usdc_key) 25 demo_addr)
    (mkRemoveLiquidityLiveInputs (demo_live (StableV1 [1; 1] 100 4))
       (demo_live [(mkTokenRef eth_key, 0); (mkTokenRef usdc_key, 3)])).
Definition demo_result (r : ReducerResult StateDelta) : StateDelta :=
  match r with Ok d => d | _ => StateDelta_default end.

Lemma add_liquidity_pooled_settles_witness :
  exists lp s', pooled_lp_key (al_venue demo_deposit) = Ok lp /\
    apply_delta (H := demo_serde) demo_wallet
      (demo_result (apply_add_liquidity demo_deposit demo_wallet demo_ctx)) = Ok s' /\
    fungible_balance s' usdc_key = 899999993.
Proof.
  destruct (add_liquidity_pooled_settles (S0 := demo_serde) demo_deposit demo_wallet demo_ctx
    (demo_result (apply_add_liquidity demo_deposit demo_wallet demo_ctx)) demo_amounts 33 demo_addr)
    as (lp & s' & Hlp & Hs & Hb).
  - decide_now.
  - reflexivity.
  - repeat constructor; vm_compute; discriminate.
  - vm_compute. split; discriminate.
  - vm_compute. reflexivity.
  - exists lp, s'. split; [exact Hlp|]. split; [exact Hs|].
    vm_compute in Hlp. injection Hlp as <-. rewrite Hb; [vm_compute; reflexivity|].
    vm_compute. discriminate.
Defined.

Lemma remove_liquidity_pooled_settles_witness :
  exists s', apply_delta (H := demo_serde) demo_wallet
      (demo_result (apply_remove_liquidity demo_burn demo_wallet demo_ctx)) = Ok s' /\
    fungible_balance s' usdc_key = 1000000028 /\ fungible_balance s' lp_key = 0.
Proof.
  destruct (remove_liquidity_pooled_settles (S0 := demo_serde) demo_burn demo_wallet demo_ctx
    (demo_result (apply_remove_liquidity demo_burn demo_wallet demo_ctx)) (mkTokenRef lp_key) 4000
    [(mkTokenRef usdc_key, 25)]) as (s' & Hs & Hb).
  - decide_now.
  - reflexivity.
  - vm_compute. split; discriminate.
  - repeat constructor; vm_compute; discriminate.
  - repeat constructor; vm_compute; discriminate.
  - vm_compute. reflexivity.
  - exists s'. split; [exact Hs|]. split; (rewrite Hb; [vm_compute; reflexivity|vm_compute; discriminate]).
Defined.

Lemma pool_id_round_trip_witness :
  pool_id_to_address (lowercase_hex demo_contract +:+ "000200000000000000000014") = Ok demo_contract.
Proof. apply pool_id_round_trip. vm_compute. split; [discriminate|reflexivity]. Defined.

(** A wallet whose NFT is an emptied concentrated position. *)
Definition demo_lp_nft : TokenHolding :=
  mkTokenHolding nft_key
    (LpShare (mkPoolRef (ProtocolRef_new "uniswap_v3") None None None)
       [mkTokenRef usdc_key; mkTokenRef weth_key] ShareNonFungible
       (Concentrated (Tick (-10) 10 0) []))
    "POS" 0 Owned Owned None None None None 1700000000 demo_source.
Definition demo_lp_wallet : WalletState :=
  ws_set_tokens demo_wallet (<[nft_key := demo_lp_nft]> (ws_tokens demo_wallet)).
Definition demo_nft_burn : RemoveLiquidityAction :=
  mkRemoveLiquidityAction (UniswapV3 demo_chain demo_contract 30) (ConcentratedBurn nft_key)
    (mkRemoveLiquidityLiveInputs (demo_live (XyConstant 1 1 0)) (demo_live [])).

Lemma concentrated_burn_never_applies_witness :
  exists d, apply_remove_liquidity demo_nft_burn demo_lp_wallet demo_ctx = Ok d /\
    apply_delta (H := demo_serde) demo_lp_wallet d =
      Err (Invariant "BalanceDelta on non-fungible holding {key:?}").
Proof.
  eapply (concentrated_burn_never_applies (S0 := demo_serde) demo_nft_burn demo_lp_wallet demo_ctx
    demo_chain demo_contract 7 demo_lp_nft); vm_compute; reflexivity.
Defined.
