(* ===== verification/AmmIntent.v ===== *)
(** * Intent orders and the AMM dispatch

    crates/asset-model/transition/src/effect/amm/intent_order.rs: signing an
    intent records a pending transaction with a spend cap, cancelling one removes
    a pending transaction by the order's hash; effect/amm/mod.rs dispatches the
    domain. *)
From stdpp Require Import base tactics numbers list strings gmap.
From S2P Require Import Prelude Types Positions Wallet Serde Fixtures Delta BalanceOps ApprovalOps.
From S2P Require Import PositionOps Replay AmmTypes AmmMath AmmSwap AmmLiquidity.

(** [map_order_kind] *)
Definition map_order_kind (kind : IntentOrderKind) : OrderKind :=
  match kind with IntentDutch => Dutch | IntentLimit => OrderLimit | IntentRfq => Rfq end.

(** [project_venue] *)
Definition project_venue (venue : IntentVenue) : VenueRef * Address :=
  match venue with
  | UniswapX chain reactor => (mkVenueRef "uniswap_x" (Some chain), reactor)
  | CowSwap chain settlement => (mkVenueRef "cow_swap" (Some chain), settlement)
  | OneInchFusion chain => (mkVenueRef "one_inch_fusion" (Some chain), 0)
  | Bebop chain => (mkVenueRef "bebop" (Some chain), 0)
  | OneInchLimitOrder chain verifying_contract =>
      (mkVenueRef "one_inch_limit_order" (Some chain), verifying_contract)
  end.

(** [pending_id_for_intent] *)
Definition pending_id_for_intent (venue_name sell_hex buy_hex sell_amount : string)
    (valid_until_unix : Z) : string :=
  ("intent:" +:+ venue_name +:+ ":" +:+ sell_hex +:+ ":" +:+ buy_hex +:+ ":" +:+ sell_amount
     +:+ ":" +:+ fmt_dec valid_until_unix)%string.

(** [key.contract().map_or_else(|| "native", |addr| format!("{addr:#x}"))] *)
Definition contract_hex (key : TokenKey) : string :=
  match key_contract key with None => "native" | Some addr => lowercase_hex addr end.

(** The pending transaction [SignIntentOrderAction] records. *)
Definition intent_pending (a : SignIntentOrderAction) (ctx : EvalContext) : PendingTx :=
  let '(venue_ref, spender) := project_venue (si_venue a) in
  {| pt_id := pending_id_for_intent (vr_name venue_ref) (contract_hex (tr_key (si_sell a)))
                (contract_hex (tr_key (si_buy a))) (fmt_dec (si_sell_amount a)) (si_valid_until a);
     pt_kind := OffchainLimitOrder venue_ref (si_sell a) (si_buy a) (si_sell_amount a)
                  (si_buy_min a) (map_order_kind (si_order_kind a));
     pt_commitment := PermitCap (si_sell a) spender (si_sell_amount a);
     pt_fill_effect := StateDelta_default;
     pt_lifecycle := mkPendingLifecycle Active (Some (si_valid_until a)) None None None;
     pt_sync := UserSupplied;
     pt_signed_at := cx_now ctx;
     pt_signature_payload := [] |}.

(** [impl Reducer for SignIntentOrderAction] *)
Definition apply_sign_intent (a : SignIntentOrderAction) (state : WalletState) (ctx : EvalContext)
    : ReducerResult StateDelta :=
  Ok (push_pending StateDelta_default (PendingAdd (intent_pending a ctx))).

(** [impl Reducer for SettleIntentOrderAction] *)
Definition apply_settle_intent (a : SettleIntentOrderAction) (state : WalletState)
    (ctx : EvalContext) : ReducerResult StateDelta := Ok StateDelta_default.

(** [impl Reducer for CancelIntentOrderAction] *)
Definition apply_cancel_intent (a : CancelIntentOrderAction) (state : WalletState)
    (ctx : EvalContext) : ReducerResult StateDelta :=
  Ok (push_pending StateDelta_default (PendingRemove (ci_order_hash a) ReasonCancelled)).

(** [impl Reducer for PreSignIntentOrderAction] *)
Definition apply_pre_sign_intent (a : PreSignIntentOrderAction) (state : WalletState)
    (ctx : EvalContext) : ReducerResult StateDelta :=
  if negb (pi_signed a)
  then Ok (push_pending StateDelta_default (PendingRemove (pi_order_hash a) ReasonCancelled))
  else Ok StateDelta_default.

(** [impl Reducer for AmmAction] *)
Definition apply_amm_action `{U256Parse} (a : AmmAction) (state : WalletState) (ctx : EvalContext)
    : ReducerResult StateDelta :=
  match a with
  | Swap a => apply_swap a state ctx
  | GsmSwap a => apply_gsm_swap a state ctx
  | AddLiquidity a => apply_add_liquidity a state ctx
  | RemoveLiquidity a => apply_remove_liquidity a state ctx
  | CollectFees a => apply_collect_fees a state ctx
  | SignIntentOrder a => apply_sign_intent a state ctx
  | SettleIntentOrder a => apply_settle_intent a state ctx
  | CancelIntentOrder a => apply_cancel_intent a state ctx
  | PreSignIntentOrder a => apply_pre_sign_intent a state ctx
  end.

(** ** Properties *)
Section Properties.
Context `{U256Parse}.

Lemma credit_fees_gas s fees d d' : credit_fees s fees d = Ok d' -> sd_gas_paid d' = sd_gas_paid d.
Proof.
  unfold credit_fees. revert d. induction fees as [|[t a] l IH]; simpl; intros d Hf; inv_ok; [done|].
  run_ok; rewrite (IH _ ltac:(eassumption)); eauto using credit_gas.
Qed.

Lemma credits_gas s l d d' :
  foldM (fun d '(t, a) => credit s d (tr_key t) a) l d = Ok d' -> sd_gas_paid d' = sd_gas_paid d.
Proof.
  revert d. induction l as [|[t a] l IH]; simpl; intros d Hf; inv_ok; [done|].
  rewrite (IH _ ltac:(eassumption)). eauto using credit_gas.
Qed.

Lemma debits_gas s l d d' :
  foldM (fun d '(t, a) => debit s d (tr_key t) a) l d = Ok d' -> sd_gas_paid d' = sd_gas_paid d.
Proof.
  revert d. induction l as [|[t a] l IH]; simpl; intros d Hf; inv_ok; [done|].
  rewrite (IH _ ltac:(eassumption)). eauto using debit_gas.
Qed.

(** Every AMM delta leaves gas to the caller. *)
Ltac no_gas :=
  repeat match goal with
  | Hc : credit _ _ _ _ = Ok ?d |- sd_gas_paid ?d = _ => rewrite (credit_gas _ _ _ _ _ Hc)
  | Hc : debit _ _ _ _ = Ok ?d |- sd_gas_paid ?d = _ => rewrite (debit_gas _ _ _ _ _ Hc)
  | Hc : credit_fees _ _ _ = Ok ?d |- sd_gas_paid ?d = _ => rewrite (credit_fees_gas _ _ _ _ Hc)
  | Hc : foldM (fun d '(t, a) => credit _ d _ a) _ _ = Ok ?d |- sd_gas_paid ?d = _ =>
      rewrite (credits_gas _ _ _ _ Hc)
  | Hc : foldM (fun d '(t, a) => debit _ d _ a) _ _ = Ok ?d |- sd_gas_paid ?d = _ =>
      rewrite (debits_gas _ _ _ _ Hc)
  end; try done.

Lemma amm_action_gas a s ctx d : apply_amm_action a s ctx = Ok d -> sd_gas_paid d = None.
Proof.
  destruct a; simpl; intros Hd.
  - by eapply apply_swap_gas.
  - unfold apply_gsm_swap in Hd. by inv_ok.
  - unfold apply_add_liquidity, credit_lp, ensure_mint_stub in Hd. destruct (al_params a); run_ok; no_gas; simpl; no_gas.
  - unfold apply_remove_liquidity, transfer_nft in Hd. destruct (rl_params a); run_ok; no_gas.
  - unfold apply_collect_fees in Hd. run_ok; no_gas.
  - unfold apply_sign_intent in Hd. by inv_ok.
  - unfold apply_settle_intent in Hd. by inv_ok.
  - unfold apply_cancel_intent in Hd. by inv_ok.
  - unfold apply_pre_sign_intent in Hd. run_ok; done.
Qed.

(** The amounts of an AMM action are words. *)
Definition u256_amounts (l : list (TokenRef * U256)) : Prop := Forall (fun p => u256 (p.2)) l.
Definition wf_amm_action (a : AmmAction) : Prop :=
  match a with
  | Swap a => wf_route a /\ u256 (swap_total_in (sp_direction (sw_params a)))
  | AddLiquidity a =>
      match al_params a with
      | AddPooled tokens min_lp _ => u256_amounts tokens /\ u256 min_lp
      | ConcentratedMint _ (x, y) _ _ _ | ConcentratedIncrease _ (x, y) _ => u256 x /\ u256 y
      end
  | RemoveLiquidity a =>
      u256_amounts (lf_value (rlli_fees_owed (rl_live_inputs a))) /\
      match burn_terms (rl_params a) with
      | Some (_, amount, outs) => u256 amount /\ u256_amounts outs
      | None => True
      end
  | CollectFees a => u256_amounts (lf_value (cfli_fees_owed (cf_live_inputs a)))
  | _ => True
  end.

(** What the AMM reducers leave unchecked: whether a cancelled order is pending,
    and that an owned NFT has no balance to debit. *)
Definition amm_action_supported (s : WalletState) (a : AmmAction) : Prop :=
  match a with
  | RemoveLiquidity a => match rl_params a with ConcentratedBurn _ => False | _ => True end
  | CancelIntentOrder a => existsb (pt_has_id (ci_order_hash a)) (ws_pending s) = true
  | PreSignIntentOrder a =>
      pi_signed a = true \/ existsb (pt_has_id (pi_order_hash a)) (ws_pending s) = true
  | _ => True
  end.

Context `{PositionSerde}.

Lemma u256_amounts_nonneg l : u256_amounts l -> Forall (fun p => 0 <= p.2) l.
Proof. intros Hl. eapply Forall_impl; [exact Hl|]. by intros p [? _]. Qed.

Lemma u256_amounts_retain p l : u256_amounts l -> u256_amounts (retain p l).
Proof. induction 1; simpl; [constructor|]. destruct (p x); [by constructor|done]. Qed.

Lemma replayable_fees_u256 s fees d d' :
  wf_state s -> u256_amounts fees -> credit_fees s fees d = Ok d' -> replayable s d -> replayable s d'.
Proof.
  rewrite credit_fees_filter. intros Hw Hs Hf.
  eapply replayable_credits; [done|by apply u256_amounts_nonneg, u256_amounts_retain|done].
Qed.

Lemma aggregator_hooks_replayable s ctx a d :
  u256 (swap_total_in (sp_direction (sw_params a))) ->
  aggregator_hooks s ctx a StateDelta_default = Ok d -> replayable s d.
Proof.
  intros Hu Hd. unfold aggregator_hooks, apply_permit_bundle, upsert_permit2_allowance in Hd.
  run_ok; try apply replayable_default. apply replayable_approval_set; [apply replayable_default| |done].
  by destruct (tr_key (sp_token_in (sw_params a))).
Qed.

Lemma swap_replayable {L : U256ParseLaws H} a s ctx d :
  wf_state s -> wf_route a -> u256 (swap_total_in (sp_direction (sw_params a))) ->
  apply_swap a s ctx = Ok d -> replayable s d.
Proof.
  intros Hw Hr Hu Hd. unfold apply_swap in Hd. inv_ok.
  match goal with Ho : route_output a = Ok ?out |- _ =>
    assert (u256 out) as [Hout _] by (apply (route_output_u256 (L := L) a); [done|apply Hu|done]) end.
  match goal with Hh : aggregator_hooks _ _ _ _ = Ok _, Hdb : debit _ _ _ _ = Ok _ |- _ =>
    apply aggregator_hooks_replayable in Hh; [|done];
    pose proof (replayable_debit _ _ _ _ _ Hh Hu Hdb) end.
  run_ok; [|done]. by eapply replayable_credit.
Qed.

Lemma add_liquidity_replayable a s ctx d :
  wf_state s -> wf_amm_action (AddLiquidity a) -> apply_add_liquidity a s ctx = Ok d -> replayable s d.
Proof.
  simpl. unfold apply_add_liquidity. intros Hw Ha Hd.
  destruct (al_params a) as [tokens min_lp r|[t0 t1] [x y] m rg r|k [x y] m]; run_ok.
  - destruct Ha as [Ht [Hm _]]. eapply replayable_credit_lp; [done| |exact Hm|done|done].
    eapply replayable_debits; [exact Ht|done|apply replayable_default].
  - destruct Ha as [Hx Hy]. eapply replayable_debit; [|exact Hy|done].
    eapply replayable_debit; [apply replayable_default|exact Hx|done].
  - destruct Ha as [Hx Hy]. eapply replayable_debit; [|exact Hy|done].
    eapply replayable_debit; [apply replayable_default|exact Hx|done].
Qed.

Lemma remove_liquidity_replayable a s ctx d :
  wf_state s -> wf_amm_action (RemoveLiquidity a) -> amm_action_supported s (RemoveLiquidity a) ->
  apply_remove_liquidity a s ctx = Ok d -> replayable s d.
Proof.
  simpl. intros Hw [Hf Hb] Hs Hd.
  destruct (burn_terms (rl_params a)) as [[[lp amount] outs]|] eqn:Hp.
  - destruct Hb as [Ham Hos]. rewrite (apply_burn _ _ _ _ _ _ Hp) in Hd. inv_ok.
    eapply replayable_fees_u256; [done|exact Hf|done|].
    eapply replayable_credits; [done|by apply u256_amounts_nonneg|done|].
    eapply replayable_debit; [apply replayable_default|exact Ham|done].
  - unfold apply_remove_liquidity in Hd. destruct (rl_params a); try done. run_ok.
    apply replayable_default.
Qed.

(** AMM reducers are sound for [apply_delta]: on a well-formed wallet the delta of any AMM
    action whose amounts are words can be applied, except for the two shapes whose outcome the
    reducers do not check: burning a position NFT, and cancelling an order that is not pending. *)
Lemma amm_action_delta_applies {L : U256ParseLaws H} a s ctx d :
  wf_state s -> wf_amm_action a -> amm_action_supported s a ->
  apply_amm_action a s ctx = Ok d -> exists s', apply_delta s d = Ok s'.
Proof.
  intros Hw Ha Hs Hd. apply rp_runs. destruct a; simpl in Hd.
  - destruct Ha. by eapply swap_replayable.
  - unfold apply_gsm_swap in Hd. inv_ok. apply replayable_default.
  - by eapply add_liquidity_replayable.
  - by eapply remove_liquidity_replayable.
  - unfold apply_collect_fees in Hd. inv_ok. eapply replayable_fees_u256; [done|exact Ha|done|].
    apply replayable_default.
  - unfold apply_sign_intent in Hd. inv_ok. apply replayable_pending_add, replayable_default.
  - unfold apply_settle_intent in Hd. inv_ok. apply replayable_default.
  - unfold apply_cancel_intent in Hd. inv_ok. by apply replayable_pending_remove.
  - unfold apply_pre_sign_intent in Hd. run_ok; [|apply replayable_default].
    apply replayable_pending_remove. simpl in Hs. destruct Hs as [Hs|Hs]; [|done]. to_prop. congruence.
Qed.

(** A signed intent order cannot be cancelled: the order is filed under an identifier
    built from its terms, which starts with [intent:], and the cancellation looks for the
    order's hash. After signing, the delta of a cancellation by any hash that is not itself
    such an identifier is refused, and the spend cap stays committed. *)
Theorem cancel_misses_signed_intent a s ctx d s1 c :
  apply_sign_intent a s ctx = Ok d -> apply_delta s d = Ok s1 ->
  String.prefix "intent:" (ci_order_hash c) = false ->
  existsb (pt_has_id (ci_order_hash c)) (ws_pending s) = false ->
  (exists p, ws_pending s1 = ws_pending s ++ [p] /\ is_active_or_partial (pt_lifecycle p) = true /\
    cap_for (pt_commitment p) (tr_key (si_sell a)) = si_sell_amount a) /\
  exists dc, apply_cancel_intent c s1 ctx = Ok dc /\
    apply_delta s1 dc = Err (Invariant "pending id {id} not found for remove").
Proof.
  unfold apply_sign_intent. intros [= <-] Hs1 Hp Hno. injection Hs1 as <-. split.
  - eexists; split; [done|]. unfold intent_pending.
    destruct (si_venue a); simpl; (split; [done|]); by rewrite bool_decide_true.
  - eexists; split; [done|]. unfold apply_delta, push_pending. simpl.
    assert (Forall (fun p => negb (pt_has_id (ci_order_hash c) p) = true)
      (ws_pending s ++ [intent_pending a ctx])) as Hf.
    { apply Forall_app. split; [|repeat constructor].
      - apply Forall_forall. intros p Hin. destruct (pt_has_id (ci_order_hash c) p) eqn:Hx; [|done].
        exfalso. apply not_true_iff_false in Hno. apply Hno. apply existsb_exists.
        exists p. split; [by apply list_elem_of_In|done].
      - apply negb_true_iff. unfold pt_has_id. apply bool_decide_eq_false. intros Heq.
        revert Hp. rewrite <- Heq. unfold intent_pending. destruct (project_venue _); simpl.
        unfold pending_id_for_intent. by rewrite string_prefix_app. }
    apply retain_same_length in Hf. by rewrite Hf, Nat.eqb_refl.
Qed.
End Properties.

(** ** Witnesses *)
Definition demo_intent : SignIntentOrderAction :=
  mkSignIntentOrderAction (CowSwap demo_chain demo_contract) (mkTokenRef usdc_key)
    (mkTokenRef weth_key) 500 1 IntentLimit demo_addr 1700003600
    (mkSignIntentOrderLiveInputs (demo_live "2500") (demo_live 3)).
Definition demo_cancel : CancelIntentOrderAction :=
  mkCancelIntentOrderAction (CowSwap demo_chain demo_contract) "0x5f2c" None.

Lemma cancel_misses_signed_intent_witness :
  exists s1 dc, apply_cancel_intent demo_cancel s1 demo_ctx = Ok dc /\
    apply_delta (H := demo_serde) s1 dc = Err (Invariant "pending id {id} not found for remove").
Proof.
  exists (demo_after demo_wallet (push_pending StateDelta_default (PendingAdd (intent_pending demo_intent demo_ctx)))).
  apply (cancel_misses_signed_intent (H0 := demo_serde) demo_intent demo_wallet demo_ctx
    (push_pending StateDelta_default (PendingAdd (intent_pending demo_intent demo_ctx)))
    _ demo_cancel); [reflexivity|runs_ok|reflexivity|reflexivity].
Defined.
