(* ===== verification/Derived.v ===== *)
(** * Derived values

    crates/asset-model/transition/src/helpers/derived.rs: health factor, LTV and
    perpetual profit recomputed from amounts and prices. The arithmetic is that
    of the crate [rust_decimal], which is a parameter: its operators panic where
    their result does not fit, so they return [option]. *)
From stdpp Require Import base tactics numbers list strings gmap.
From S2P Require Import Prelude Types Positions Wallet Serde Fixtures.

(** ** The decimal library *)
Class RustDecimal := {
  dec : Type;
  (** [Decimal::from_str] *)
  dec_from_str : string -> option dec;
  (** [normalize().to_string()] *)
  dec_to_string : dec -> string;
  (** [Decimal::from(u32)] *)
  dec_of_u32 : Z -> dec;
  (** [Decimal::new(mantissa, scale)] *)
  dec_new : Z -> nat -> dec;
  (** The operators; [None] is the panic on overflow or division by zero. *)
  dec_add : dec -> dec -> option dec;
  dec_sub : dec -> dec -> option dec;
  dec_mul : dec -> dec -> option dec;
  dec_div : dec -> dec -> option dec;
  dec_round : dec -> dec;
  dec_trunc : dec -> dec;
  dec_to_u32 : dec -> option Z;
  dec_ltb : dec -> dec -> bool;
  dec_is_zero : dec -> bool;
  (** [is_sign_negative] *)
  dec_is_sign_negative : dec -> bool;
  (** [SignedI256::from_dec_str] of an integral decimal's string. *)
  dec_to_i256 : dec -> option Z;
  (** [U256::from_str_radix(.., 10)] of an integral decimal's string. *)
  dec_to_u256 : dec -> option Z;
  (** [Decimal::from_str_radix(.., 10)] of a SignedI256's string. *)
  dec_of_i256 : Z -> option dec;
}.

(** What the conversions are relied on for: a parsed integer fits its type. *)
Class RustDecimalRange (D : RustDecimal) : Prop := {
  dec_to_i256_range : forall d z, dec_to_i256 d = Some z -> i256 z;
  dec_to_u256_range : forall d z, dec_to_u256 d = Some z -> u256 z;
}.

Section Derived.
Context `{RustDecimal}.

(** [a * b], [a / b], [a + b], [a - b] *)
Definition rd_mul {E} (a b : dec) : result E dec := or_panic (dec_mul a b).
Definition rd_div {E} (a b : dec) : result E dec := or_panic (dec_div a b).
Definition rd_add {E} (a b : dec) : result E dec := or_panic (dec_add a b).
Definition rd_sub {E} (a b : dec) : result E dec := or_panic (dec_sub a b).
Definition dec_zero : dec := dec_of_u32 0.
(** [a >= b] *)
Definition dec_geb (a b : dec) : bool := negb (dec_ltb a b).

(** [parse_decimal] *)
Definition parse_decimal (d : DecimalStr) : ReducerResult dec :=
  inv "invalid Decimal string {:?}: {e}" (dec_from_str d).

(** [u256_to_decimal] *)
Definition u256_to_decimal (amount : U256) : ReducerResult dec :=
  inv "U256 {s} exceeds rust_decimal range: {e}" (dec_from_str (fmt_dec amount)).

(** [decimal_to_state] *)
Definition decimal_to_state (d : dec) : DecimalStr := dec_to_string d.

(** [lookup_price] *)
Definition lookup_price (token : TokenRef) (table : list (TokenRef * DecimalStr)) : ReducerResult dec :=
  p ← inv "missing price for token {:?}" (find_first (fun e => bool_decide (e.1 = token)) table);
  parse_decimal (p.2).

(** [lookup_lt_bp] *)
Definition lookup_lt_bp (token : TokenRef) (table : list (TokenRef * Z)) : ReducerResult Z :=
  p ← inv "missing liquidation threshold for token {:?}"
        (find_first (fun e => bool_decide (e.1 = token)) table);
  Ok (p.2).

Definition HF_INFINITY : DecimalStr := "999999999".

(** One step of the weighted-collateral loop. *)
Definition hf_collat_step (collateral_prices : list (TokenRef * DecimalStr))
    (liquidation_thresholds : list (TokenRef * Z)) (weighted_collat : dec)
    (entry : TokenRef * U256) : ReducerResult dec :=
  let '(token, amount) := entry in
  price ← lookup_price token collateral_prices;
  lt_bp ← lookup_lt_bp token liquidation_thresholds;
  amt ← u256_to_decimal amount;
  lt_factor ← rd_div (dec_of_u32 lt_bp) (dec_of_u32 10000);
  value ← rd_mul amt price;
  weighted ← rd_mul value lt_factor;
  rd_add weighted_collat weighted.

(** One step of a value loop: the amounts of collateral or debt times price. *)
Definition value_step (prices : list (TokenRef * DecimalStr)) (total : dec)
    (token : TokenRef) (amount : U256) : ReducerResult dec :=
  price ← lookup_price token prices;
  amt ← u256_to_decimal amount;
  value ← rd_mul amt price;
  rd_add total value.

(** [recompute_health_factor] *)
Definition recompute_health_factor (account : LendingAccount)
    (collateral_prices debt_prices : list (TokenRef * DecimalStr))
    (liquidation_thresholds : list (TokenRef * Z)) (now : Time) : ReducerResult DecimalStr :=
  weighted_collat ← foldM (hf_collat_step collateral_prices liquidation_thresholds)
                      (ln_collaterals account) dec_zero;
  total_debt ← foldM (fun t '(token, amount, _) => value_step debt_prices t token amount)
                 (ln_debts account) dec_zero;
  if dec_is_zero total_debt then Ok HF_INFINITY
  else
    hf ← rd_div weighted_collat total_debt;
    Ok (decimal_to_state hf).

(** [recompute_ltv] *)
Definition recompute_ltv (account : LendingAccount)
    (collateral_prices debt_prices : list (TokenRef * DecimalStr)) (now : Time)
    : ReducerResult DecimalStr :=
  total_collat ← foldM (fun t '(token, amount) => value_step collateral_prices t token amount)
                   (ln_collaterals account) dec_zero;
  total_debt ← foldM (fun t '(token, amount, _) => value_step debt_prices t token amount)
                 (ln_debts account) dec_zero;
  if dec_is_zero total_debt then Ok ("0" : DecimalStr)
  else if dec_is_zero total_collat then
    Err (Invariant "LTV undefined: debt > 0 with zero collateral")
  else
    ltv ← rd_div total_debt total_collat;
    Ok (decimal_to_state ltv).

(** [recompute_perp_pnl] *)
Definition recompute_perp_pnl (position : PerpPosition) (mark_price : Price) (now : Time)
    : ReducerResult SignedI256 :=
  mark ← parse_decimal mark_price;
  entry ← parse_decimal (pp_entry_price position);
  size ← u256_to_decimal (pp_size_base position);
  diff ← match pp_side position with Long => rd_sub mark entry | Short => rd_sub entry mark end;
  pnl ← rd_mul size diff;
  inv "PnL {s} overflows SignedI256: {e}" (dec_to_i256 (dec_trunc pnl)).

(** [recompute_liq_price] *)
Definition recompute_liq_price (position : PerpPosition) (now : Time)
    : ReducerResult (option Price) :=
  if pp_size_base position =? 0 then Ok None
  else
    entry ← parse_decimal (pp_entry_price position);
    size ← u256_to_decimal (pp_size_base position);
    free_margin ← foldM (fun m '(_, amount) => d ← u256_to_decimal amount; rd_add m d)
                    (pp_collateral position) dec_zero;
    buffer ← rd_div free_margin size;
    liq ← match pp_side position with Long => rd_sub entry buffer | Short => rd_add entry buffer end;
    let liq := if dec_ltb liq dec_zero then dec_zero else liq in
    Ok (Some (decimal_to_state liq)).
End Derived.

(** ** A fixed-point instance

    Nine fractional digits, truncating, 96-bit integral part: what the examples
    run on. *)
Definition fx_scale : Z := 10 ^ 9.
Definition fx_max : Z := 2 ^ 126.
Definition fx_check (z : Z) : option Z := if (- fx_max <=? z) && (z <=? fx_max) then Some z else None.

(** Digits before and after the point; [None] before a point was seen. *)
Fixpoint fx_digits (s : string) (acc : Z) (frac : option nat) : option (Z * option nat) :=
  match s with
  | EmptyString => Some (acc, frac)
  | String c s' =>
      let n := Z.of_N (Ascii.N_of_ascii c) - 48 in
      if (0 <=? n) && (n <=? 9) then fx_digits s' (10 * acc + n) (S <$> frac)
      else if n =? -2 then
        match frac with None => fx_digits s' acc (Some 0%nat) | Some _ => None end
      else None
  end.
Definition fx_unsigned (s : string) : option Z :=
  '(z, frac) ← fx_digits s 0 None;
  let k := Z.of_nat (default 0%nat frac) in
  fx_check (if k <=? 9 then z * 10 ^ (9 - k) else z / 10 ^ (k - 9)).
Definition fx_from_str (s : string) : option Z :=
  match s with
  | EmptyString => None
  | String c s' => if Z.of_N (Ascii.N_of_ascii c) =? 45 then Z.opp <$> fx_unsigned s' else fx_unsigned s
  end.

Fixpoint fx_pad (n : nat) (z : Z) : string :=
  match n with O => EmptyString | S n' => (fx_pad n' (z / 10) +:+ fmt_dec (z mod 10))%string end.
Definition fx_to_string (z : Z) : string :=
  let a := Z.abs z in
  let sign : string := if z <? 0 then "-" else "" in
  (sign +:+ fmt_dec (a / fx_scale) +:+ "." +:+ fx_pad 9 (a mod fx_scale))%string.

Definition fixed_decimal : RustDecimal := {|
  dec := Z;
  dec_from_str := fx_from_str;
  dec_to_string := fx_to_string;
  dec_of_u32 := fun n => n * fx_scale;
  dec_new := fun m k => m * fx_scale / 10 ^ Z.of_nat k;
  dec_add := fun a b => fx_check (a + b);
  dec_sub := fun a b => fx_check (a - b);
  dec_mul := fun a b => fx_check (Z.quot (a * b) fx_scale);
  dec_div := fun a b => if b =? 0 then None else fx_check (Z.quot (a * fx_scale) b);
  dec_round := fun a => (a + fx_scale / 2) / fx_scale * fx_scale;
  dec_trunc := fun a => Z.quot a fx_scale * fx_scale;
  dec_to_u32 := fun a => let n := Z.quot a fx_scale in
    if (0 <=? n) && (n <=? 4294967295) then Some n else None;
  dec_ltb := Z.ltb;
  dec_is_zero := fun a => a =? 0;
  dec_is_sign_negative := fun a => a <? 0;
  dec_to_i256 := fun a => let n := Z.quot a fx_scale in
    if (I256_MIN <=? n) && (n <=? I256_MAX) then Some n else None;
  dec_to_u256 := fun a => let n := Z.quot a fx_scale in
    if (0 <=? n) && (n <=? U256_MAX) then Some n else None;
  dec_of_i256 := fun n => fx_check (n * fx_scale);
|}.

#[global] Instance fixed_decimal_range : RustDecimalRange fixed_decimal.
Proof.
  split; simpl; intros d z Hz.
  - destruct (Z.leb_spec I256_MIN (Z.quot d fx_scale)), (Z.leb_spec (Z.quot d fx_scale) I256_MAX);
      simpl in Hz; try done. injection Hz as <-. by split.
  - destruct (Z.leb_spec 0 (Z.quot d fx_scale)), (Z.leb_spec (Z.quot d fx_scale) U256_MAX);
      simpl in Hz; try done. injection Hz as <-. by split.
Qed.
