(* ===== verification/LendingTypes.v ===== *)
(** * Lending actions

    crates/asset-model/action/src/lending: markets, reserve snapshots and the
    actions of the lending domain. *)
From stdpp Require Import base tactics numbers list strings gmap.
From S2P Require Import Prelude Types Positions Wallet.

Inductive LendingVenue :=
| AaveV3 (chain : ChainId) (pool : Address) (market_id : option Z)
| AaveV2 (chain : ChainId) (pool : Address)
| CompoundV3 (chain : ChainId) (comet : Address) (base_asset : TokenRef)
| CompoundV2 (chain : ChainId) (comptroller : Address)
| MorphoBlue (chain : ChainId) (market_id : string)
| MorphoOptimizer (chain : ChainId) (vault : Address)
| Spark (chain : ChainId) (pool : Address)
| Fluid (chain : ChainId) (vault : Address)
| MetaMorpho (chain : ChainId) (vault : Address)
| CrvUsd (chain : ChainId) (controller : Address) (collateral : TokenRef)
| LlamaLend (chain : ChainId) (controller : Address) (collateral : TokenRef)
| AaveV3Periphery (chain : ChainId) (adapter : Address).
Record ReserveState := mkReserveState {
  rs_total_supply : U256;
  rs_total_borrow : U256;
  rs_utilization_bp : Z;
  rs_supply_cap : option U256;
  rs_borrow_cap : option U256;
  rs_ltv_bp : Z;
  rs_liquidation_threshold_bp : Z;
  rs_liquidation_bonus_bp : Z;
  rs_reserve_factor_bp : Z;
  rs_is_frozen : bool;
  rs_is_paused : bool;
}.
Record UserLendingState := mkUserLendingState {
  us_health_factor : DecimalStr;
  us_total_collat_usd : U256;
  us_total_debt_usd : U256;
  us_available_borrow_usd : U256;
}.
Record SupplyLiveInputs := mkSupplyLiveInputs {
  sui_reserve_state : LiveField ReserveState;
  sui_supply_apy : LiveField DecimalStr;
  sui_a_token_price_usd : LiveField Price;
  sui_eligible_as_collat : LiveField bool;
  sui_user_state_before : LiveField UserLendingState;
}.
Record SupplyAction := mkSupplyAction {
  su_venue : LendingVenue;
  su_asset : TokenRef;
  su_amount : U256;
  su_on_behalf_of : option Address;
  su_live_inputs : SupplyLiveInputs;
}.
Record WithdrawLiveInputs := mkWithdrawLiveInputs {
  wdi_reserve_state : LiveField ReserveState;
  wdi_available_to_withdraw : LiveField U256;
  wdi_user_state_before : LiveField UserLendingState;
}.
Record WithdrawAction := mkWithdrawAction {
  wd_venue : LendingVenue;
  wd_asset : TokenRef;
  wd_amount : U256;
  wd_recipient : Address;
  wd_live_inputs : WithdrawLiveInputs;
}.
Record BorrowLiveInputs := mkBorrowLiveInputs {
  boi_reserve_state : LiveField ReserveState;
  boi_user_state_before : LiveField UserLendingState;
  boi_asset_price_usd : LiveField Price;
  boi_current_borrow_rate : LiveField DecimalStr;
  boi_available_liquidity : LiveField U256;
}.
Record BorrowAction := mkBorrowAction {
  bo_venue : LendingVenue;
  bo_asset : TokenRef;
  bo_amount : U256;
  bo_rate_mode : RateMode;
  bo_on_behalf_of : option Address;
  bo_live_inputs : BorrowLiveInputs;
}.
Record BuyCollateralAction := mkBuyCollateralAction {
  bc_venue : LendingVenue;
  bc_collateral_asset : TokenRef;
  bc_base_asset : TokenRef;
  bc_min_collateral_amount : U256;
  bc_base_amount : U256;
  bc_recipient : Address;
}.
Record RepayLiveInputs := mkRepayLiveInputs {
  rpi_reserve_state : LiveField ReserveState;
  rpi_current_debt : LiveField U256;
  rpi_user_state_before : LiveField UserLendingState;
}.
Record RepayAction := mkRepayAction {
  rp_venue : LendingVenue;
  rp_asset : TokenRef;
  rp_amount : U256;
  rp_rate_mode : RateMode;
  rp_on_behalf_of : option Address;
  rp_use_a_tokens : bool;
  rp_live_inputs : RepayLiveInputs;
}.
Record SwapRateModeLiveInputs := mkSwapRateModeLiveInputs {
  srmi_current_debts : LiveField (U256 * U256);
  srmi_rates : LiveField (DecimalStr * DecimalStr);
}.
Record SwapRateModeAction := mkSwapRateModeAction {
  sr_m_venue : LendingVenue;
  sr_m_asset : TokenRef;
  sr_m_new_mode : RateMode;
  sr_m_live_inputs : SwapRateModeLiveInputs;
}.
Record EModeConfig := mkEModeConfig {
  emc_ltv_bp : Z;
  emc_liquidation_threshold_bp : Z;
  emc_liquidation_bonus_bp : Z;
  emc_price_source : option Address;
  emc_assets_in_category : list TokenRef;
  emc_category : option EModeCategory;
}.
Record SetEModeLiveInputs := mkSetEModeLiveInputs {
  semi_category_config : LiveField EModeConfig;
  semi_user_state_before : LiveField UserLendingState;
}.
Record SetEModeAction := mkSetEModeAction {
  sem_venue : LendingVenue;
  sem_category_id : Z;
  sem_on_behalf_of : option Address;
  sem_live_inputs : SetEModeLiveInputs;
}.
Record SetCollateralLiveInputs := mkSetCollateralLiveInputs {
  sci_reserve_state : LiveField ReserveState;
  sci_user_state_before : LiveField UserLendingState;
}.
Record SetCollateralAction := mkSetCollateralAction {
  sc_venue : LendingVenue;
  sc_asset : TokenRef;
  sc_on_behalf_of : option Address;
  sc_live_inputs : SetCollateralLiveInputs;
}.
Record DelegateBorrowAction := mkDelegateBorrowAction {
  db_venue : LendingVenue;
  db_asset : TokenRef;
  db_delegatee : Address;
  db_amount : U256;
  db_rate_mode : RateMode;
}.
Record LiquidateLiveInputs := mkLiquidateLiveInputs {
  lqi_victim_state : LiveField UserLendingState;
  lqi_liquidation_bonus : LiveField Z;
  lqi_debt_asset_price : LiveField Price;
  lqi_collat_asset_price : LiveField Price;
}.
Record LiquidateAction := mkLiquidateAction {
  lq_venue : LendingVenue;
  lq_victim : Address;
  lq_debt_asset : TokenRef;
  lq_collat_asset : TokenRef;
  lq_debt_to_cover : U256;
  lq_receive_a_token : bool;
  lq_live_inputs : LiquidateLiveInputs;
}.
Record SetAuthorizationAction := mkSetAuthorizationAction {
  saa_chain : ChainId;
  saa_protocol : Address;
  saa_authorizer : option Address;
  saa_authorized : Address;
  saa_is_authorized : bool;
}.
Inductive LendingPeripheryKind :=
| SwapCollateral | RepayWithCollateral | DebtSwap | Migration | WithdrawSwap | PeripheryRaw.
Record PeripheryOperationAction := mkPeripheryOperationAction {
  po_op_venue : LendingVenue;
  po_op_adapter : Address;
  po_op_kind : LendingPeripheryKind;
  po_op_asset_in : option TokenRef;
  po_op_asset_out : option TokenRef;
  po_op_amount : option U256;
  po_op_limit_amount : option U256;
  po_op_user : option Address;
  po_op_recipient : option Address;
  po_op_calldata : string;
}.
Inductive LendingAction :=
| Supply (a : SupplyAction)
| Withdraw (a : WithdrawAction)
| Borrow (a : BorrowAction)
| BuyCollateral (a : BuyCollateralAction)
| Repay (a : RepayAction)
| SwapRateMode (a : SwapRateModeAction)
| SetEMode (a : SetEModeAction)
| EnableCollateral (a : SetCollateralAction)
| DisableCollateral (a : SetCollateralAction)
| DelegateBorrow (a : DelegateBorrowAction)
| Liquidate (a : LiquidateAction)
| SetAuthorization (a : SetAuthorizationAction)
| PeripheryOperation (a : PeripheryOperationAction).

(** [LendingVenue::name] (the serde tag of the venue; effect/lending/mod.rs
    repeats it as [venue_tag]). *)
Definition lending_venue_name (v : LendingVenue) : string :=
  match v with
  | AaveV3 _ _ _ => "aave_v3"
  | AaveV2 _ _ => "aave_v2"
  | CompoundV3 _ _ _ => "compound_v3"
  | CompoundV2 _ _ => "compound_v2"
  | MorphoBlue _ _ => "morpho_blue"
  | MorphoOptimizer _ _ => "morpho_optimizer"
  | Spark _ _ => "spark"
  | Fluid _ _ => "fluid"
  | MetaMorpho _ _ => "metamorpho"
  | CrvUsd _ _ _ => "crv_usd"
  | LlamaLend _ _ _ => "llama_lend"
  | AaveV3Periphery _ _ => "aave_v3_periphery"
  end.

(** [LendingAction::action_tag] *)
Definition lending_action_tag (a : LendingAction) : string :=
  match a with
  | Supply _ => "supply"
  | Withdraw _ => "withdraw"
  | Borrow _ => "borrow"
  | BuyCollateral _ => "buy_collateral"
  | Repay _ => "repay"
  | SwapRateMode _ => "swap_rate_mode"
  | SetEMode _ => "set_e_mode"
  | EnableCollateral _ => "enable_collateral"
  | DisableCollateral _ => "disable_collateral"
  | DelegateBorrow _ => "delegate_borrow"
  | Liquidate _ => "liquidate"
  | SetAuthorization _ => "set_authorization"
  | PeripheryOperation _ => "periphery_operation"
  end.

(** [LendingAction::venue_name] *)
Definition lending_action_venue_name (a : LendingAction) : option string :=
  match a with
  | Supply a => Some (lending_venue_name (su_venue a))
  | Withdraw a => Some (lending_venue_name (wd_venue a))
  | Borrow a => Some (lending_venue_name (bo_venue a))
  | BuyCollateral a => Some (lending_venue_name (bc_venue a))
  | Repay a => Some (lending_venue_name (rp_venue a))
  | SwapRateMode a => Some (lending_venue_name (sr_m_venue a))
  | SetEMode a => Some (lending_venue_name (sem_venue a))
  | EnableCollateral a | DisableCollateral a => Some (lending_venue_name (sc_venue a))
  | DelegateBorrow a => Some (lending_venue_name (db_venue a))
  | Liquidate a => Some (lending_venue_name (lq_venue a))
  | SetAuthorization _ => None
  | PeripheryOperation a => Some (lending_venue_name (po_op_venue a))
  end.
