(* ===== verification/LendingMath.v ===== *)
(** * Lending arithmetic

    crates/asset-model/transition/src/effect/lending/{shared,aave_v2,aave_v3,
    spark,compound_v2,compound_v3,fluid,morpho_blue,morpho_optimizer}.rs:
    receipt conversions and interest-rate curves. *)
From stdpp Require Import base tactics numbers list strings gmap.
From S2P Require Import Prelude Types Positions Wallet Serde Fixtures Derived LendingTypes.

(** ** Receipts (shared.rs) *)

(** [asset_to_scaled_balance] *)
Definition asset_to_scaled_balance (reserve : ReserveState) (asset_amount : U256)
    (venue_tag : string) : ReducerResult U256 :=
  if rs_total_supply reserve <? rs_total_borrow reserve then
    Err (Invariant "{venue_tag} reserve invariant: total_supply {} < total_borrow {}")
  else Ok asset_amount.

(** [scaled_balance_to_asset] *)
Definition scaled_balance_to_asset (reserve : ReserveState) (scaled_amount : U256)
    (venue_tag : string) : ReducerResult U256 :=
  if rs_total_supply reserve <? rs_total_borrow reserve then
    Err (Invariant "{venue_tag} reserve invariant: total_supply {} < total_borrow {}")
  else Ok scaled_amount.

(** [fluid::VIRTUAL_OFFSET] *)
Definition VIRTUAL_OFFSET : Z := 1.

(** [fluid::asset_to_fluid_shares] *)
Definition asset_to_fluid_shares (vault_state : ReserveState) (asset_amount : U256)
    : ReducerResult U256 :=
  let total_assets := rs_total_supply vault_state in
  let total_shares := rs_total_supply vault_state in
  numer_factor ← inv "fluid: virtual shares overflow" (checked_add total_shares VIRTUAL_OFFSET);
  denom ← inv "fluid: virtual assets overflow" (checked_add total_assets VIRTUAL_OFFSET);
  numer ← inv "fluid: asset_to_shares overflow" (checked_mul asset_amount numer_factor);
  if denom =? 0 then Err (Invariant "fluid: zero denominator (impossible with virtual offset)")
  else Ok (numer / denom).

(** [fluid::fluid_shares_to_asset] *)
Definition fluid_shares_to_asset (vault_state : ReserveState) (share_amount : U256)
    : ReducerResult U256 :=
  let total_assets := rs_total_supply vault_state in
  let total_shares := rs_total_supply vault_state in
  numer_factor ← inv "fluid: virtual assets overflow" (checked_add total_assets VIRTUAL_OFFSET);
  denom ← inv "fluid: virtual shares overflow" (checked_add total_shares VIRTUAL_OFFSET);
  numer ← inv "fluid: shares_to_asset overflow" (checked_mul share_amount numer_factor);
  if denom =? 0 then Err (Invariant "fluid: zero denominator (impossible with virtual offset)")
  else Ok (numer / denom).

(** [morpho_blue::VIRTUAL_SHARES], [morpho_blue::VIRTUAL_ASSETS] *)
Definition VIRTUAL_SHARES : Z := 1000000.
Definition VIRTUAL_ASSETS : Z := 1.

(** [morpho_blue::shares_to_assets] *)
Definition shares_to_assets (market_total_assets market_total_shares shares : U256)
    : ReducerResult U256 :=
  numer_factor ← inv "morpho_blue: virtual assets overflow"
                   (checked_add market_total_assets VIRTUAL_ASSETS);
  denom ← inv "morpho_blue: virtual shares overflow"
            (checked_add market_total_shares VIRTUAL_SHARES);
  if denom =? 0 then
    Err (Invariant "morpho_blue: zero denominator (impossible — virtual shares are 1e6)")
  else
    numer ← inv "morpho_blue: shares_to_assets multiplication overflow"
              (checked_mul shares numer_factor);
    Ok (numer / denom).

(** [morpho_blue::assets_to_shares] *)
Definition assets_to_shares (market_total_assets market_total_shares assets : U256)
    : ReducerResult U256 :=
  numer_factor ← inv "morpho_blue: virtual shares overflow"
                   (checked_add market_total_shares VIRTUAL_SHARES);
  denom ← inv "morpho_blue: virtual assets overflow"
            (checked_add market_total_assets VIRTUAL_ASSETS);
  if denom =? 0 then
    Err (Invariant "morpho_blue: zero denominator (impossible — virtual assets are 1)")
  else
    numer ← inv "morpho_blue: assets_to_shares multiplication overflow"
              (checked_mul assets numer_factor);
    Ok (numer / denom).

(** The receipt a supply earns (the venue dispatch of supply.rs). *)
Definition supply_receipt (venue : LendingVenue) (reserve : ReserveState) (amount : U256)
    : ReducerResult U256 :=
  match venue with
  | AaveV3 _ _ _ => asset_to_scaled_balance reserve amount "aave_v3"
  | AaveV2 _ _ => asset_to_scaled_balance reserve amount "aave_v2"
  | Spark _ _ => asset_to_scaled_balance reserve amount "spark"
  | CompoundV2 _ _ => asset_to_scaled_balance reserve amount "compound_v2"
  | CompoundV3 _ _ _ => asset_to_scaled_balance reserve amount "compound_v3"
  | MorphoOptimizer _ _ => asset_to_scaled_balance reserve amount "morpho_optimizer"
  | Fluid _ _ | MetaMorpho _ _ => asset_to_fluid_shares reserve amount
  | CrvUsd _ _ _ | LlamaLend _ _ _ => Ok amount
  | MorphoBlue _ _ => Err (UnsupportedProtocol "supply" "morpho_blue")
  | AaveV3Periphery _ _ => Err (UnsupportedProtocol "supply" "aave_v3_periphery")
  end.

(** ** Interest-rate curves (shared.rs) *)

(** The rate of [two_slope_borrow_apr], in basis points. *)
Definition two_slope_rate_bp (utilization_bp base_rate_bp slope1_bp slope2_bp optimal_bp : Z) : Z :=
  if utilization_bp <=? optimal_bp then
    base_rate_bp + slope1_bp * utilization_bp / optimal_bp
  else
    let excess := utilization_bp - optimal_bp in
    let span := 10000 - optimal_bp in
    base_rate_bp + slope1_bp + slope2_bp * excess / span.

(** [frac_str.pop()] while it ends with a zero, on the reversed digits. *)
Fixpoint drop_zeros (rev_digits : list Ascii.ascii) : list Ascii.ascii :=
  match rev_digits with
  | c :: l => if Ascii.eqb c (Ascii.ascii_of_nat 48) then drop_zeros l else rev_digits
  | [] => []
  end.

(** [bp_to_decimal] *)
Definition bp_to_decimal (bp : Z) : DecimalStr :=
  let int := bp / 10000 in
  let frac := bp mod 10000 in
  if frac =? 0 then fmt_dec int
  else
    let frac_str := fx_pad 4 frac in
    (fmt_dec int +:+ "." +:+
       String.string_of_list_ascii (rev (drop_zeros (rev (String.list_ascii_of_string frac_str)))))%string.

(** [two_slope_borrow_apr]; its error is a message. *)
Definition two_slope_borrow_apr (utilization_bp base_rate_bp slope1_bp slope2_bp optimal_bp : Z)
    : result string DecimalStr :=
  if 10000 <? utilization_bp then Err "utilization {utilization_bp} bp > 10000 (>100 %)"%string
  else if (optimal_bp =? 0) || (10000 <=? optimal_bp) then
    Err "optimal {optimal_bp} bp out of (0, 10000) range"%string
  else Ok (bp_to_decimal (two_slope_rate_bp utilization_bp base_rate_bp slope1_bp slope2_bp optimal_bp)).

(** [.map_err(|msg| ReducerError::Invariant(format!(tag, msg)))] *)
Definition map_err (msg : string) {A} (r : result string A) : ReducerResult A :=
  match r with Ok a => Ok a | Err _ => Err (Invariant msg) | Panic => Panic end.

(** The curves of the venues: base rate, slopes and kink. *)
Record RateCurve := mkRateCurve { rc_base : Z; rc_slope1 : Z; rc_slope2 : Z; rc_optimal : Z }.
Definition AAVE_V2_CURVE : RateCurve := mkRateCurve 0 400 7500 8000.
Definition AAVE_V3_CURVE : RateCurve := mkRateCurve 0 400 6000 8000.
Definition SPARK_CURVE : RateCurve := mkRateCurve 0 400 6000 8000.
Definition COMPOUND_V2_CURVE : RateCurve := mkRateCurve 0 500 10900 8000.
Definition COMPOUND_V3_CURVE : RateCurve := mkRateCurve 150 350 17000 9300.
Definition FLUID_CURVE : RateCurve := mkRateCurve 0 400 6000 8000.
Definition POOL_CURVE : RateCurve := mkRateCurve 0 400 6000 8000.

Definition curve_rate (c : RateCurve) (utilization_bp : Z) : Z :=
  two_slope_rate_bp utilization_bp (rc_base c) (rc_slope1 c) (rc_slope2 c) (rc_optimal c).
Definition curve_borrow_apr (c : RateCurve) (tag : string) (reserve : ReserveState)
    : ReducerResult DecimalStr :=
  map_err tag (two_slope_borrow_apr (rs_utilization_bp reserve) (rc_base c) (rc_slope1 c)
                 (rc_slope2 c) (rc_optimal c)).

(** [aave_v2::current_borrow_rate] and its siblings *)
Definition aave_v2_borrow_rate := curve_borrow_apr AAVE_V2_CURVE "aave_v2 rate: {msg}".
Definition aave_v3_borrow_rate := curve_borrow_apr AAVE_V3_CURVE "aave_v3 rate: {msg}".
Definition spark_borrow_rate := curve_borrow_apr SPARK_CURVE "spark rate: {msg}".
Definition compound_v2_borrow_rate := curve_borrow_apr COMPOUND_V2_CURVE "compound_v2 rate: {msg}".
Definition compound_v3_borrow_rate := curve_borrow_apr COMPOUND_V3_CURVE "compound_v3 rate: {msg}".
Definition fluid_borrow_rate := curve_borrow_apr FLUID_CURVE "fluid rate: {msg}".
(** [morpho_blue::current_borrow_rate] *)
Definition morpho_blue_borrow_rate (reserve : ReserveState) : ReducerResult DecimalStr :=
  Err (UnsupportedProtocol "current_borrow_rate" "morpho_blue").

Section Rates.
Context `{RustDecimal}.

(** [supply_apr_from_borrow] *)
Definition supply_apr_from_borrow (borrow_apr : DecimalStr) (utilization_bp reserve_factor_bp : Z)
    : result string DecimalStr :=
  if 10000 <? utilization_bp then Err "utilization {utilization_bp} bp > 10000"%string
  else if 10000 <? reserve_factor_bp then Err "reserve_factor {reserve_factor_bp} bp > 10000"%string
  else
    borrow_dec ← ok_or "invalid Decimal {:?}: {e}"%string (dec_from_str borrow_apr);
    x ← rd_mul borrow_dec (dec_new utilization_bp 4);
    supply_dec ← rd_mul x (dec_new (10000 - reserve_factor_bp) 4);
    Ok (dec_to_string supply_dec).

(** [compound_v2::current_supply_rate], [compound_v3::current_supply_rate] *)
Definition compound_v2_supply_rate (reserve : ReserveState) : ReducerResult DecimalStr :=
  borrow ← compound_v2_borrow_rate reserve;
  map_err "compound_v2 supply rate: {msg}"
    (supply_apr_from_borrow borrow (rs_utilization_bp reserve) (rs_reserve_factor_bp reserve)).
Definition compound_v3_supply_rate (reserve : ReserveState) : ReducerResult DecimalStr :=
  borrow ← compound_v3_borrow_rate reserve;
  map_err "compound_v3 supply rate: {msg}"
    (supply_apr_from_borrow borrow (rs_utilization_bp reserve) (rs_reserve_factor_bp reserve)).

(** [midpoint_decimal] *)
Definition midpoint_decimal (a b : DecimalStr) : ReducerResult DecimalStr :=
  a ← inv "midpoint a parse: {e}" (dec_from_str a);
  b ← inv "midpoint b parse: {e}" (dec_from_str b);
  s ← rd_add a b;
  mid ← rd_div s (dec_of_u32 2);
  Ok (dec_to_string mid).

(** [blend_decimal] *)
Definition blend_decimal (a b : DecimalStr) (weight_bp : Z) : ReducerResult DecimalStr :=
  if 10000 <? weight_bp then Err (Invariant "blend weight {weight_bp} bp > 10000")
  else
    a_dec ← inv "blend a parse: {e}" (dec_from_str a);
    b_dec ← inv "blend b parse: {e}" (dec_from_str b);
    x ← rd_mul a_dec (dec_new weight_bp 4);
    y ← rd_mul b_dec (dec_new (10000 - weight_bp) 4);
    blended ← rd_add x y;
    Ok (dec_to_string blended).

(** The pool's borrow and supply rates and their midpoint. *)
Definition pool_rates (reserve : ReserveState) : ReducerResult (DecimalStr * DecimalStr * DecimalStr) :=
  pool_borrow ← curve_borrow_apr POOL_CURVE "morpho_optimizer pool rate: {msg}" reserve;
  pool_supply ← map_err "morpho_optimizer pool supply: {msg}"
    (supply_apr_from_borrow pool_borrow (rs_utilization_bp reserve) (rs_reserve_factor_bp reserve));
  p2p_mid ← midpoint_decimal pool_supply pool_borrow;
  Ok (pool_borrow, pool_supply, p2p_mid).

(** [p2p_supply_rate] *)
Definition p2p_supply_rate (reserve : ReserveState) : ReducerResult DecimalStr :=
  '(_, pool_supply, p2p_mid) ← pool_rates reserve;
  blend_decimal p2p_mid pool_supply (10000 - Z.min (rs_utilization_bp reserve) 10000).

(** [p2p_borrow_rate] *)
Definition p2p_borrow_rate (reserve : ReserveState) : ReducerResult DecimalStr :=
  '(pool_borrow, _, p2p_mid) ← pool_rates reserve;
  blend_decimal p2p_mid pool_borrow (10000 - Z.min (rs_utilization_bp reserve) 10000).
End Rates.

(** ** Properties *)

Definition wf_curve (c : RateCurve) : Prop :=
  0 <= rc_base c /\ 0 <= rc_slope1 c /\ 0 <= rc_slope2 c /\ 0 < rc_optimal c < 10000.

Lemma venue_curves_wf :
  Forall wf_curve [AAVE_V2_CURVE; AAVE_V3_CURVE; SPARK_CURVE; COMPOUND_V2_CURVE; COMPOUND_V3_CURVE;
                   FLUID_CURVE; POOL_CURVE].
Proof. repeat constructor; simpl; lia. Qed.

(** Every interest-rate curve is a two-slope curve: the rate starts at the base rate,
    reaches base plus first slope exactly at the kink, ends at base plus both slopes at full
    utilization, and never falls as utilization rises. *)
Theorem two_slope_curve c u u' :
  wf_curve c -> 0 <= u <= u' -> u' <= 10000 ->
  curve_rate c 0 = rc_base c /\
  curve_rate c (rc_optimal c) = rc_base c + rc_slope1 c /\
  curve_rate c 10000 = rc_base c + rc_slope1 c + rc_slope2 c /\
  curve_rate c u <= curve_rate c u'.
Proof.
  intros (Hb & H1 & H2 & Ho) Hu Hu'. unfold curve_rate, two_slope_rate_bp.
  set (b := rc_base c) in *. set (s1 := rc_slope1 c) in *. set (s2 := rc_slope2 c) in *.
  set (o := rc_optimal c) in *.
  repeat match goal with |- context [?x <=? ?y] => destruct (Z.leb_spec x y); try lia end;
    rewrite ?Z.mul_0_r, ?Z.div_0_l, ?Z.div_mul by lia; (split_and!; try lia).
  - enough (s1 * u / o <= s1 * u' / o) by lia. apply Z.div_le_mono; nia.
  - assert (s1 * u / o <= s1) by (apply Z.div_le_upper_bound; nia).
    assert (0 <= s2 * (u' - o) / (10000 - o)) by (apply Z.div_pos; nia). lia.
  - enough (s2 * (u - o) / (10000 - o) <= s2 * (u' - o) / (10000 - o)) by lia.
    apply Z.div_le_mono; nia.
Qed.

(** Share conversions never pay out more than was put in: on a Morpho Blue market,
    converting assets to shares and back returns at most the assets, and on the vaults whose
    snapshot carries one total the conversion is the identity wherever it does not overflow. *)
Theorem share_conversions_round_down total_assets total_shares assets shares back reserve :
  0 <= total_assets -> 0 <= total_shares -> 0 <= assets ->
  0 <= rs_total_supply reserve ->
  assets_to_shares total_assets total_shares assets = Ok shares ->
  shares_to_assets total_assets total_shares shares = Ok back ->
  0 <= back <= assets /\
  (assets * (rs_total_supply reserve + 1) <= U256_MAX ->
   rs_total_supply reserve + 1 <= U256_MAX ->
   asset_to_fluid_shares reserve assets = Ok assets /\
   fluid_shares_to_asset reserve assets = Ok assets).
Proof.
  intros Ha Hs Hx Hr H1 H2. unfold assets_to_shares, shares_to_assets, VIRTUAL_SHARES, VIRTUAL_ASSETS in *.
  run_ok. checked_values. to_prop.
  set (A := total_assets + 1) in *. set (S := total_shares + 1000000) in *.
  assert (0 < A) by (subst A; lia). assert (0 < S) by (subst S; lia). split.
  - pose proof (Z.mul_div_le (assets * S) A ltac:(lia)).
    assert (0 <= assets * S / A) by (apply Z.div_pos; nia). split; [apply Z.div_pos; nia|].
    apply Z.div_le_upper_bound; nia.
  - intros Hm Hb. unfold asset_to_fluid_shares, fluid_shares_to_asset, VIRTUAL_OFFSET.
    rewrite !checked_add_ok by lia. simpl. rewrite checked_mul_ok by lia. simpl.
    replace (rs_total_supply reserve + 1 =? 0) with false by (symmetry; apply Z.eqb_neq; lia).
    by rewrite Z.div_mul by lia.
Qed.

(** ** Witnesses *)
Lemma two_slope_curve_witness :
  curve_rate COMPOUND_V3_CURVE 0 = 150 /\
  curve_rate COMPOUND_V3_CURVE 9300 = 500 /\
  curve_rate COMPOUND_V3_CURVE 10000 = 17500 /\
  curve_rate COMPOUND_V3_CURVE 8000 <= curve_rate COMPOUND_V3_CURVE 9500.
Proof. apply (two_slope_curve COMPOUND_V3_CURVE 8000 9500); [|lia|lia]. repeat constructor; simpl; lia. Defined.

Definition demo_reserve : ReserveState :=
  mkReserveState 1000000 400000 4000 (Some 2000000) (Some 900000) 7500 8000 500 1000 false false.

Lemma share_conversions_round_down_witness :
  exists shares back, assets_to_shares 3000 2000 17 = Ok shares /\
    shares_to_assets 3000 2000 shares = Ok back /\ 0 <= back <= 17.
Proof.
  exists 5676, 16. split; [vm_compute; reflexivity|]. split; [vm_compute; reflexivity|].
  apply (share_conversions_round_down 3000 2000 17 5676 16 demo_reserve); vm_compute; try discriminate; reflexivity.
Defined.
