(* ===== verification/LendingLedger.v ===== *)
(** * The lending account as a ledger

    crates/asset-model/transition/src/effect/lending/mod.rs: position
    identifiers, and the collateral and debt entries of a [LendingAccount].
    Collaterals are keyed by token, debts by token and rate mode; both are
    instances of one ledger interface. *)
From stdpp Require Import base tactics numbers list strings gmap.
From S2P Require Import Prelude Types Positions Wallet Serde Fixtures Delta PositionOps Derived LendingTypes.

(** ** Ledgers *)

(** An entry type with a key and an amount. *)
Class LedgerEntry (E K : Type) := {
  le_key : E -> K;
  le_amount : E -> U256;
  le_make : K -> U256 -> E;
}.
Class LedgerEntryLaws (E K : Type) {L : LedgerEntry E K} : Prop := {
  le_key_make : forall k a, le_key (le_make k a) = k;
  le_amount_make : forall k a, le_amount (le_make k a) = a;
}.

#[global] Instance collateral_entry : LedgerEntry (TokenRef * U256) TokenRef := {|
  le_key e := e.1; le_amount e := e.2; le_make k a := (k, a) |}.
#[global] Instance debt_entry : LedgerEntry (TokenRef * U256 * RateMode) (TokenRef * RateMode) := {|
  le_key e := (e.1.1, e.2); le_amount e := e.1.2; le_make k a := (k.1, a, k.2) |}.
#[global] Instance collateral_entry_laws : LedgerEntryLaws (TokenRef * U256) TokenRef.
Proof. by split. Qed.
#[global] Instance debt_entry_laws : LedgerEntryLaws (TokenRef * U256 * RateMode) (TokenRef * RateMode).
Proof. split; [by intros []|done]. Qed.

Section Ledger.
Context {E K : Type} `{!EqDecision K} {I : LedgerEntry E K}.

Definition has_key (k : K) (e : E) : bool := bool_decide (le_key e = k).

(** [iter_mut().find(..)] and [saturating_add] on the entry found. *)
Fixpoint bump (k : K) (amount : U256) (l : list E) : option (list E) :=
  match l with
  | [] => None
  | e :: l' =>
      if has_key k e then Some (le_make k (saturating_add (le_amount e) amount) :: l')
      else cons e <$> bump k amount l'
  end.

(** Merge an amount into the entry of [k], or push a new entry. *)
Definition ledger_add (k : K) (amount : U256) (l : list E) : list E :=
  match bump k amount l with Some l' => l' | None => l ++ [le_make k amount] end.

(** Reduce the entry of [k], removing it at zero; the new amount is returned. *)
Definition ledger_sub (missing insufficient : string) (k : K) (amount : U256) (l : list E)
    : ReducerResult (list E * U256) :=
  idx ← inv missing (position_first (has_key k) l);
  entry ← or_panic (l !! idx);
  let current := le_amount entry in
  if current <? amount then Err (Invariant insufficient)
  else
    let new_amount := current - amount in
    if new_amount =? 0 then Ok (delete idx l, new_amount)
    else Ok (<[idx := le_make k new_amount]> l, new_amount).

(** The amount held under a key. *)
Definition amount_at (k : K) (l : list E) : Z :=
  match find_first (has_key k) l with Some e => le_amount e | None => 0 end.
Definition keys (l : list E) : list K := le_key <$> l.
End Ledger.

(** ** The operations of mod.rs *)

Definition ln_set_collaterals (la : LendingAccount) (c : list (TokenRef * U256)) : LendingAccount :=
  mkLendingAccount (ln_market la) c (ln_debts la) (ln_emode la) (ln_is_isolated la)
    (ln_health_factor la) (ln_ltv la) (ln_liquidation_threshold la).
Definition ln_set_debts (la : LendingAccount) (d : list (TokenRef * U256 * RateMode)) : LendingAccount :=
  mkLendingAccount (ln_market la) (ln_collaterals la) d (ln_emode la) (ln_is_isolated la)
    (ln_health_factor la) (ln_ltv la) (ln_liquidation_threshold la).
Definition ln_set_emode (la : LendingAccount) (e : option EModeCategory) : LendingAccount :=
  mkLendingAccount (ln_market la) (ln_collaterals la) (ln_debts la) e (ln_is_isolated la)
    (ln_health_factor la) (ln_ltv la) (ln_liquidation_threshold la).

(** [merge_collateral] *)
Definition merge_collateral (account : LendingAccount) (asset : TokenRef) (amount : U256)
    : LendingAccount := ln_set_collaterals account (ledger_add asset amount (ln_collaterals account)).

(** [reduce_collateral]; on an error the account is left as it was. *)
Definition reduce_collateral (account : LendingAccount) (asset : TokenRef) (amount : U256)
    : ReducerResult (LendingAccount * U256) :=
  '(l, new_amount) ← ledger_sub "withdraw: asset {:?} not present in collaterals"
                       "withdraw: amount {amount} > collateral {current}" asset amount
                       (ln_collaterals account);
  Ok (ln_set_collaterals account l, new_amount).

(** [merge_debt] *)
Definition merge_debt (account : LendingAccount) (asset : TokenRef) (amount : U256)
    (rate_mode : RateMode) : LendingAccount :=
  ln_set_debts account (ledger_add (asset, rate_mode) amount (ln_debts account)).

(** [reduce_debt] *)
Definition reduce_debt (account : LendingAccount) (asset : TokenRef) (amount : U256)
    (rate_mode : RateMode) : ReducerResult (LendingAccount * U256) :=
  '(l, new_amount) ← ledger_sub "repay: asset {:?} not present in debts for rate_mode {rate_mode:?}"
                       "repay: amount {amount} > debt {current}" (asset, rate_mode) amount
                       (ln_debts account);
  Ok (ln_set_debts account l, new_amount).

(** [let _ = reduce_..(la, ..)]: the account after a reduction whose error is
    ignored. *)
Definition reduced_or_same (account : LendingAccount) (r : ReducerResult (LendingAccount * U256))
    : LendingAccount := match r with Ok (la, _) => la | _ => account end.

(** [if let PositionKind::LendingAccount(la) = &mut p.kind { .. }] *)
Definition on_lending (f : LendingAccount -> LendingAccount) (p : Position) : Position :=
  match po_kind p with
  | PkLendingAccount la => po_set_kind p (PkLendingAccount (f la))
  | _ => p
  end.

(** [venue_chain] *)
Definition lending_venue_chain (venue : LendingVenue) : ChainId :=
  match venue with
  | AaveV3 chain _ _ | AaveV2 chain _ | Spark chain _ | CompoundV3 chain _ _ | CompoundV2 chain _
  | MorphoBlue chain _ | MorphoOptimizer chain _ | Fluid chain _ | MetaMorpho chain _
  | CrvUsd chain _ _ | LlamaLend chain _ _ | AaveV3Periphery chain _ => chain
  end.

(** [position_exists] *)
Definition position_exists (state : WalletState) (delta : StateDelta) (pid : PositionId) : bool :=
  let in_state := existsb (po_has_id pid) (ws_positions state) in
  foldl (fun exists_ change =>
    match change with
    | Open position => if po_has_id pid position then true else exists_
    | Close id => if bool_decide (id = pid) then false else exists_
    | Update _ _ => exists_
    end) in_state (sd_position_changes delta).

(** [{:?}] of an [Address] prints its checksummed form, which is computed by the
    hash function of the address library. *)
Class AddressDebug := { addr_debug : Address -> string }.

Section PositionId.
Context `{AddressDebug}.

(** [position_id::for_venue] *)
Definition for_venue (venue : LendingVenue) : PositionId :=
  match venue with
  | AaveV3 chain pool market_id =>
      "aave_v3:" +:+ chain +:+ ":" +:+ addr_debug pool +:+ ":" +:+ fmt_dec (default 0 market_id)
  | AaveV2 chain pool => "aave_v2:" +:+ chain +:+ ":" +:+ addr_debug pool
  | Spark chain pool => "spark:" +:+ chain +:+ ":" +:+ addr_debug pool
  | CompoundV3 chain comet _ => "compound_v3:" +:+ chain +:+ ":" +:+ addr_debug comet
  | CompoundV2 chain comptroller => "compound_v2:" +:+ chain +:+ ":" +:+ addr_debug comptroller
  | MorphoBlue chain market_id => "morpho_blue:" +:+ chain +:+ ":" +:+ market_id
  | MorphoOptimizer chain vault => "morpho_optimizer:" +:+ chain +:+ ":" +:+ addr_debug vault
  | Fluid chain vault => "fluid:" +:+ chain +:+ ":" +:+ addr_debug vault
  | MetaMorpho chain vault => "metamorpho:" +:+ chain +:+ ":" +:+ addr_debug vault
  | CrvUsd chain controller _ => "crv_usd:" +:+ chain +:+ ":" +:+ addr_debug controller
  | LlamaLend chain controller _ => "llama_lend:" +:+ chain +:+ ":" +:+ addr_debug controller
  | AaveV3Periphery chain adapter => "aave_v3_periphery:" +:+ chain +:+ ":" +:+ addr_debug adapter
  end%string.
End PositionId.

(** [threshold_to_bp] *)
Definition threshold_to_bp `{RustDecimal} (value : DecimalStr) : ReducerResult Z :=
  match dec_from_str value with
  | None => Ok 0
  | Some d =>
      x ← rd_mul d (dec_of_u32 10000);
      Ok (default 0 (dec_to_u32 (dec_round x)))
  end.

Definition mentions {A} (t : TokenRef) (l : list (TokenRef * A)) : bool :=
  existsb (fun e => bool_decide (e.1 = t)) l.

(** [build_price_tables] *)
Definition build_price_tables `{RustDecimal} (account : LendingAccount) (asset_price : Price)
    (referenced_asset : TokenRef)
    : ReducerResult (list (TokenRef * DecimalStr) * list (TokenRef * DecimalStr) * list (TokenRef * Z)) :=
  bp ← threshold_to_bp (lf_value (ln_liquidation_threshold account));
  let collat_prices := (fun e => (e.1, asset_price)) <$> ln_collaterals account in
  let lts := (fun e => (e.1, bp)) <$> ln_collaterals account in
  let debt_prices := (fun e => (e.1.1, asset_price)) <$> ln_debts account in
  let '(collat_prices, lts) :=
    if mentions referenced_asset collat_prices then (collat_prices, lts)
    else (collat_prices ++ [(referenced_asset, asset_price)], lts ++ [(referenced_asset, bp)]) in
  let debt_prices :=
    if mentions referenced_asset debt_prices then debt_prices
    else debt_prices ++ [(referenced_asset, asset_price)] in
  Ok (collat_prices, debt_prices, lts).

(** ** Ledger laws *)

Lemma position_first_split {A} (p : A -> bool) l i :
  position_first p l = Some i ->
  exists l1 x l2, l = l1 ++ x :: l2 /\ length l1 = i /\ p x = true /\ Forall (fun y => p y = false) l1.
Proof.
  revert i. induction l as [|y l IH]; simpl; intros i Hi; [done|].
  destruct (p y) eqn:Hy; [simplify_eq; by exists [], y, l|].
  destruct (position_first p l) as [j|]; [|done]. simplify_eq.
  destruct (IH j eq_refl) as (l1 & x & l2 & -> & <- & Hx & Hl). injection Hi as <-. exists (y :: l1), x, l2. split_and!; [done|done|done|by constructor].
Qed.

Lemma position_first_None {A} (p : A -> bool) l :
  position_first p l = None <-> Forall (fun y => p y = false) l.
Proof.
  induction l as [|y l IH]; simpl; [by split|]. rewrite Forall_cons.
  destruct (p y) eqn:Hy; [naive_solver|]. rewrite <- IH. destruct (position_first p l); naive_solver.
Qed.

Section LedgerLaws.
Context {E K : Type} `{!EqDecision K} {I : LedgerEntry E K} {IL : LedgerEntryLaws E K}.

Lemma has_key_make k k' a : has_key k (le_make k' a) = bool_decide (k' = k).
Proof. unfold has_key. by rewrite le_key_make. Qed.

Lemma no_key k (l : list E) : Forall (fun e => has_key k e = false) l <-> k ∉ keys l.
Proof.
  unfold keys, has_key. rewrite Forall_forall, list_elem_of_fmap. setoid_rewrite bool_decide_eq_false.
  naive_solver.
Qed.

Lemma amount_at_app k (l1 l2 : list E) :
  amount_at k (l1 ++ l2) = if bool_decide (k ∈ keys l1) then amount_at k l1 else amount_at k l2.
Proof.
  unfold amount_at. rewrite find_first_app. case_bool_decide as Hk.
  - destruct (find_first (has_key k) l1) eqn:Hf; [done|].
    apply find_first_None in Hf. by apply no_key in Hf.
  - by rewrite (proj2 (find_first_None _ _) (proj2 (no_key k l1) Hk)).
Qed.

Lemma amount_at_cons k (e : E) l :
  amount_at k (e :: l) = if bool_decide (le_key e = k) then le_amount e else amount_at k l.
Proof. unfold amount_at, has_key. simpl. by case_bool_decide. Qed.

Lemma amount_at_none k (l : list E) : k ∉ keys l -> amount_at k l = 0.
Proof. intros Hk. unfold amount_at. by rewrite (proj2 (find_first_None _ _) (proj2 (no_key k l) Hk)). Qed.

Lemma bump_None k a (l : list E) : bump k a l = None -> k ∉ keys l.
Proof.
  intros Hb. apply no_key. revert Hb. induction l as [|e l IH]; simpl; [constructor|].
  destruct (has_key k e) eqn:He; [done|]. intros Hb. constructor; [done|]. apply IH.
  by destruct (bump k a l).
Qed.

Lemma bump_keys k a (l l' : list E) : bump k a l = Some l' -> keys l' = keys l /\ k ∈ keys l.
Proof.
  revert l'. induction l as [|e l IH]; simpl; intros l' Hb; [done|].
  destruct (has_key k e) eqn:He.
  - simplify_eq. unfold has_key in He. apply bool_decide_eq_true in He. unfold keys. rewrite !fmap_cons.
    rewrite le_key_make, He. split; [done|]. by left.
  - destruct (bump k a l) as [l0|]; [|done]. injection Hb as <-. destruct (IH l0 eq_refl) as [Hk Hin].
    unfold keys in *. rewrite !fmap_cons, Hk. split; [done|by right].
Qed.

Lemma bump_amount k a (l l' : list E) k' :
  bump k a l = Some l' ->
  amount_at k' l' = if bool_decide (k' = k) then saturating_add (amount_at k l) a else amount_at k' l.
Proof.
  revert l'. induction l as [|e l IH]; simpl; intros l' Hb; [done|].
  unfold has_key in Hb. case_bool_decide as He.
  - simplify_eq. rewrite !amount_at_cons, le_key_make, le_amount_make.
    rewrite (bool_decide_true (le_key e = le_key e)) by done.
    repeat case_bool_decide; congruence.
  - destruct (bump k a l) as [l0|]; [|done]. injection Hb as <-. rewrite !amount_at_cons, (IH l0 eq_refl).
    rewrite (bool_decide_false (le_key e = k)) by done. repeat case_bool_decide; congruence.
Qed.

Lemma ledger_add_amount k a (l : list E) k' :
  u256 a ->
  amount_at k' (ledger_add k a l) =
    if bool_decide (k' = k) then saturating_add (amount_at k l) a else amount_at k' l.
Proof.
  intros Ha. unfold ledger_add. destruct (bump k a l) as [l'|] eqn:Hb; [by apply bump_amount|].
  apply bump_None in Hb. rewrite amount_at_app, (amount_at_none k l Hb).
  rewrite amount_at_cons, le_key_make, le_amount_make. unfold u256 in Ha.
  destruct (decide (k' = k)) as [->|Hne].
  - rewrite !(bool_decide_true (k = k)), (bool_decide_false (k ∈ keys l)) by done. int_solve.
  - rewrite (bool_decide_false (k' = k)), (bool_decide_false (k = k')) by congruence.
    case_bool_decide; [done|]. by rewrite (amount_at_none k' l).
Qed.

Lemma ledger_add_nodup k a (l : list E) : NoDup (keys l) -> NoDup (keys (ledger_add k a l)).
Proof.
  intros Hn. unfold ledger_add. destruct (bump k a l) as [l'|] eqn:Hb.
  - by destruct (bump_keys _ _ _ _ Hb) as [-> _].
  - apply bump_None in Hb. unfold keys in *. rewrite fmap_app. simpl. rewrite le_key_make.
    apply NoDup_app. split; [done|]. split; [|apply NoDup_singleton].
    intros x Hx ->%list_elem_of_singleton. done.
Qed.

(** A reduction succeeds exactly when the key is there with enough under it. *)
Lemma ledger_sub_Ok m1 m2 k a (l : list E) :
  (exists r, ledger_sub m1 m2 k a l = Ok r) <-> k ∈ keys l /\ a <= amount_at k l.
Proof.
  unfold ledger_sub. destruct (position_first (has_key k) l) as [i|] eqn:Hp; simpl.
  - apply position_first_split in Hp as (l1 & x & l2 & -> & <- & Hx & Hl1).
    rewrite list_lookup_middle by done. simpl.
    assert (amount_at k (l1 ++ x :: l2) = le_amount x) as ->.
    { rewrite amount_at_app, bool_decide_false by (by apply no_key). rewrite amount_at_cons.
      unfold has_key in Hx. by rewrite Hx. }
    assert (k ∈ keys (l1 ++ x :: l2)) as Hin.
    { unfold keys. rewrite fmap_app, elem_of_app. right. simpl.
      apply bool_decide_eq_true in Hx. rewrite Hx. by left. }
    destruct (Z.ltb_spec (le_amount x) a); split.
    + intros [? ?]; done.
    + intros [_ ?]. lia.
    + intros _. split; [done|lia].
    + intros _. case_match; eauto.
  - apply position_first_None, no_key in Hp. split; [intros [? ?]; done|tauto].
Qed.

Lemma ledger_sub_amount m1 m2 k a (l l' : list E) rest k' :
  NoDup (keys l) -> ledger_sub m1 m2 k a l = Ok (l', rest) ->
  rest = amount_at k l - a /\ NoDup (keys l') /\
  amount_at k' l' = if bool_decide (k' = k) then amount_at k l - a else amount_at k' l.
Proof.
  unfold ledger_sub. intros Hn Hs.
  destruct (position_first (has_key k) l) as [i|] eqn:Hp; [|done]. simpl in Hs.
  apply position_first_split in Hp as (l1 & x & l2 & -> & <- & Hx & Hl1).
  rewrite list_lookup_middle in Hs by done. simpl in Hs. apply no_key in Hl1.
  apply bool_decide_eq_true in Hx.
  assert (amount_at k (l1 ++ x :: l2) = le_amount x) as Ha.
  { rewrite amount_at_app, bool_decide_false by done. by rewrite amount_at_cons, bool_decide_true. }
  rewrite Ha. unfold keys in Hn. rewrite fmap_app in Hn. simpl in Hn.
  pose proof Hn as (Hn1 & Hn2 & Hn3)%NoDup_app. apply NoDup_cons in Hn3 as [Hx2 Hn3].
  destruct (Z.ltb_spec (le_amount x) a); [done|].
  destruct (Z.eqb_spec (le_amount x - a) 0) as [Hz|Hz]; injection Hs as <- <-.
  - rewrite delete_middle. split; [done|]. split.
    + unfold keys. rewrite fmap_app. apply NoDup_app. split; [done|]. split; [|done].
      intros y Hy1 Hy2. by apply (Hn2 y Hy1); right.
    + rewrite !amount_at_app, amount_at_cons. destruct (decide (k' = k)) as [->|Hne].
      * rewrite (bool_decide_false (k ∈ keys l1)), (bool_decide_true (k = k)) by done.
        rewrite amount_at_none; [lia|by rewrite <- Hx].
      * rewrite (bool_decide_false (le_key x = k')), (bool_decide_false (k' = k)) by congruence. done.
  - rewrite insert_app_r_alt, Nat.sub_diag by lia. simpl. split; [done|]. split.
    + unfold keys. rewrite fmap_app, fmap_cons, le_key_make, <- Hx. done.
    + rewrite !amount_at_app, !amount_at_cons, le_key_make, le_amount_make.
      destruct (decide (k' = k)) as [->|Hne].
      * by rewrite (bool_decide_false (k ∈ keys l1)), !(bool_decide_true (k = k)) by done.
      * by rewrite (bool_decide_false (le_key x = k')), (bool_decide_false (k' = k)),
          (bool_decide_false (k = k')) by congruence.
Qed.
End LedgerLaws.

(** ** Round trips *)
Section RoundTrip.
Context {E K : Type} `{!EqDecision K} {I : LedgerEntry E K} {IL : LedgerEntryLaws E K}.

Lemma ledger_add_in k a (l : list E) : k ∈ keys (ledger_add k a l).
Proof.
  unfold ledger_add. destruct (bump k a l) as [l'|] eqn:Hb.
  - by destruct (bump_keys _ _ _ _ Hb) as [-> ?].
  - unfold keys. rewrite fmap_app, elem_of_app. right. simpl. rewrite le_key_make. by left.
Qed.

Lemma ledger_round_trip m1 m2 k a (l : list E) :
  NoDup (keys l) -> u256 a -> 0 <= amount_at k l -> amount_at k l + a <= U256_MAX ->
  exists l', ledger_sub m1 m2 k a (ledger_add k a l) = Ok (l', amount_at k l) /\
    NoDup (keys l') /\ forall k', amount_at k' l' = amount_at k' l.
Proof.
  intros Hn Ha Hpos Hle.
  assert (forall k', amount_at k' (ledger_add k a l) =
    if bool_decide (k' = k) then amount_at k l + a else amount_at k' l) as Hadd.
  { intros k'. rewrite ledger_add_amount by done. case_bool_decide; [|done]. unfold u256 in Ha. int_solve. }
  pose proof (Hadd k) as Hk. rewrite bool_decide_true in Hk by done.
  destruct (proj2 (ledger_sub_Ok m1 m2 k a (ledger_add k a l))) as [[l' r] Hs].
  { split; [apply ledger_add_in|lia]. }
  pose proof (fun k' => ledger_sub_amount _ _ _ _ _ _ _ k' (ledger_add_nodup k a l Hn) Hs) as Hsub.
  exists l'. destruct (Hsub k) as (Hr & Hn' & _). rewrite Hs, Hr, Hk.
  split; [do 2 f_equal; lia|]. split; [done|]. intros k'. destruct (Hsub k') as (_ & _ & ->).
  rewrite Hk, Hadd. case_bool_decide; [subst; lia|done].
Qed.
End RoundTrip.

(** An account lists each collateral token, and each debt of a token and rate
    mode, once. *)
Definition wf_account (la : LendingAccount) : Prop :=
  NoDup (keys (ln_collaterals la)) /\ NoDup (keys (ln_debts la)).

(** The account is a ledger: merging a collateral and reducing it by the same amount gives
    back what was held before, entry by entry, and likewise for a debt in its rate mode; both
    keep every token (and every token and rate mode) listed once. *)
Theorem account_round_trip la asset amount mode :
  let held := amount_at asset (ln_collaterals la) in
  let owed := amount_at (asset, mode) (ln_debts la) in
  wf_account la -> u256 amount -> 0 <= held -> held + amount <= U256_MAX ->
  0 <= owed -> owed + amount <= U256_MAX ->
  wf_account (merge_collateral la asset amount) /\ wf_account (merge_debt la asset amount mode) /\
  (exists la', reduce_collateral (merge_collateral la asset amount) asset amount = Ok (la', held) /\
     wf_account la' /\ ln_debts la' = ln_debts la /\
     forall t, amount_at t (ln_collaterals la') = amount_at t (ln_collaterals la)) /\
  (exists la', reduce_debt (merge_debt la asset amount mode) asset amount mode = Ok (la', owed) /\
     wf_account la' /\ ln_collaterals la' = ln_collaterals la /\
     forall k, amount_at k (ln_debts la') = amount_at k (ln_debts la)).
Proof.
  intros held owed [Hc Hd] Ha Hh Hh' Ho Ho'. unfold wf_account. simpl.
  split; [split; [by apply ledger_add_nodup|done]|]. split; [split; [done|by apply ledger_add_nodup]|].
  unfold reduce_collateral, reduce_debt. simpl. split.
  - destruct (ledger_round_trip "withdraw: asset {:?} not present in collaterals"
      "withdraw: amount {amount} > collateral {current}" asset amount _ Hc Ha Hh Hh') as (l & -> & Hn & Hl).
    simpl. eexists. split; [reflexivity|]. done.
  - destruct (ledger_round_trip "repay: asset {:?} not present in debts for rate_mode {rate_mode:?}"
      "repay: amount {amount} > debt {current}" (asset, mode) amount _ Hd Ha Ho Ho') as (l & -> & Hn & Hl).
    simpl. eexists. split; [reflexivity|]. done.
Qed.

Lemma account_round_trip_witness :
  exists la', reduce_collateral (merge_collateral (demo_account None) (mkTokenRef weth_key) 500)
    (mkTokenRef weth_key) 500 = Ok (la', 2000).
Proof.
  destruct (account_round_trip (demo_account None) (mkTokenRef weth_key) 500 RateVariable)
    as (_ & _ & (la' & Hla & _) & _).
  - split; decide_now.
  - vm_compute. split; discriminate.
  - vm_compute. discriminate.
  - vm_compute. discriminate.
  - vm_compute. discriminate.
  - vm_compute. discriminate.
  - exists la'. exact Hla.
Defined.
