(* ===== verification/LendingEffect.v ===== *)
(** * Lending reducers

    crates/asset-model/transition/src/effect/lending/*.rs: every action of the
    lending domain as a function from wallet and context to a delta. *)
From stdpp Require Import base tactics numbers list strings gmap.
From S2P Require Import Prelude Types Positions Wallet Serde Fixtures Delta BalanceOps ApprovalOps.
From S2P Require Import PositionOps Replay AmmMath Derived LendingTypes LendingMath LendingLedger.

Section Lending.
Context {S0 : PositionSerde} {D0 : RustDecimal} {A0 : AddressDebug} {P0 : U256Parse}.

(** ** Supply (supply.rs) *)

(** [derived_live_field] *)
Definition derived_live_field (value : DecimalStr) (ctx : EvalContext) : LiveField DecimalStr :=
  LiveField_new value (DerivedFrom [] "lending_supply_init") (cx_now ctx).

(** [format!("0.{:04}", bp)] *)
Definition threshold_string (bp : Z) : DecimalStr :=
  if bp <? 10000 then ("0." +:+ fx_pad 4 bp)%string else ("0." +:+ fmt_dec bp)%string.

(** [new_lending_account] *)
Definition new_lending_account (action : SupplyAction) (ctx : EvalContext) : Position :=
  let venue_tag := lending_venue_name (su_venue action) in
  let reserve := lf_value (sui_reserve_state (su_live_inputs action)) in
  let acct := {|
    ln_market := mkMarketRef venue_tag (VenueRef_new venue_tag);
    ln_collaterals := [(su_asset action, su_amount action)];
    ln_debts := [];
    ln_emode := None;
    ln_is_isolated := false;
    ln_health_factor := derived_live_field "999999999" ctx;
    ln_ltv := derived_live_field "0" ctx;
    ln_liquidation_threshold :=
      derived_live_field (threshold_string (rs_liquidation_threshold_bp reserve)) ctx |} in
  {| po_id := for_venue (su_venue action);
     po_protocol := ProtocolRef_new venue_tag;
     po_chain := Some (lending_venue_chain (su_venue action));
     po_kind := PkLendingAccount acct;
     po_primitives_synced_at := cx_now ctx;
     po_primitives_source := UserSupplied |}.

(** The reserve checks of a supply. *)
Definition supply_allowed (reserve : ReserveState) (amount : U256) : ReducerResult () :=
  if rs_is_paused reserve then Err (Invariant "supply rejected: reserve paused for venue {}")
  else if rs_is_frozen reserve then Err (Invariant "supply rejected: reserve frozen for venue {}")
  else
    match rs_supply_cap reserve with
    | Some cap =>
        if cap <? saturating_add (rs_total_supply reserve) amount then
          Err (Invariant "supply rejected: total_supply {} + amount {} > supply_cap {}")
        else Ok ()
    | None => Ok ()
    end.

(** [impl Reducer for SupplyAction] *)
Definition apply_supply (a : SupplyAction) (state : WalletState) (ctx : EvalContext)
    : ReducerResult StateDelta :=
  let reserve := lf_value (sui_reserve_state (su_live_inputs a)) in
  _ ← supply_allowed reserve (su_amount a);
  _ ← supply_receipt (su_venue a) reserve (su_amount a);
  delta ← debit state StateDelta_default (tr_key (su_asset a)) (su_amount a);
  let pid := for_venue (su_venue a) in
  if position_exists state delta pid then
    upsert_lending_account state delta pid
      (on_lending (fun la => merge_collateral la (su_asset a) (su_amount a)))
  else if lf_value (sui_eligible_as_collat (su_live_inputs a)) then
    open_position state delta (new_lending_account a ctx)
  else
    open_position state delta
      (on_lending (fun la => ln_set_collaterals la []) (new_lending_account a ctx)).

(** ** Withdraw and repay (withdraw.rs, repay.rs) *)

(** [state.positions.iter().find(|p| p.id == pid).ok_or(PositionNotFound)] *)
Definition find_position (state : WalletState) (pid : PositionId) : ReducerResult Position :=
  ok_or (PositionNotFound pid) (find_first (po_has_id pid) (ws_positions state)).

(** [impl Reducer for WithdrawAction] *)
Definition apply_withdraw (a : WithdrawAction) (state : WalletState) (ctx : EvalContext)
    : ReducerResult StateDelta :=
  let reserve := lf_value (wdi_reserve_state (wd_live_inputs a)) in
  if rs_is_paused reserve then Err (Invariant "withdraw rejected: reserve paused for venue {}")
  else
    let pid := for_venue (wd_venue a) in
    if negb (position_exists state StateDelta_default pid) then Err (PositionNotFound pid)
    else
      let intended_amount :=
        if wd_amount a =? U256_MAX then lf_value (wdi_available_to_withdraw (wd_live_inputs a))
        else wd_amount a in
      delta ← upsert_lending_account state StateDelta_default pid
                (on_lending (fun la =>
                   reduced_or_same la (reduce_collateral la (wd_asset a) intended_amount)));
      pos ← find_position state pid;
      _ ← match po_kind pos with
          | PkLendingAccount la => _ ← reduce_collateral la (wd_asset a) intended_amount; Ok ()
          | _ => Ok ()
          end;
      if wd_recipient a =? wi_address (ws_wallet_id state)
      then credit state delta (tr_key (wd_asset a)) intended_amount
      else Ok delta.

(** [impl Reducer for RepayAction] *)
Definition apply_repay (a : RepayAction) (state : WalletState) (ctx : EvalContext)
    : ReducerResult StateDelta :=
  let reserve := lf_value (rpi_reserve_state (rp_live_inputs a)) in
  if rs_is_paused reserve then Err (Invariant "repay rejected: reserve paused for venue {venue_tag}")
  else
    let pid := for_venue (rp_venue a) in
    if negb (position_exists state StateDelta_default pid) then Err (PositionNotFound pid)
    else
      let intended_amount :=
        if rp_amount a =? U256_MAX then lf_value (rpi_current_debt (rp_live_inputs a))
        else rp_amount a in
      delta ← upsert_lending_account state StateDelta_default pid
                (on_lending (fun la =>
                   reduced_or_same la (reduce_debt la (rp_asset a) intended_amount (rp_rate_mode a))));
      pos ← find_position state pid;
      _ ← match po_kind pos with
          | PkLendingAccount la =>
              _ ← reduce_debt la (rp_asset a) intended_amount (rp_rate_mode a); Ok ()
          | _ => Ok ()
          end;
      debit state delta (tr_key (rp_asset a)) intended_amount.

(** ** Borrow (borrow.rs) *)

(** [hf_is_safe] *)
Definition hf_is_safe (hf : DecimalStr) : ReducerResult bool :=
  parsed ← inv "borrow: HF Decimal parse failed: {e}" (dec_from_str hf);
  Ok (dec_geb parsed (dec_of_u32 1)).

(** The reserve checks of a borrow. *)
Definition borrow_allowed (reserve : ReserveState) (available amount : U256) : ReducerResult () :=
  if rs_is_paused reserve then Err (Invariant "borrow rejected: reserve paused for venue {venue_tag}")
  else if rs_is_frozen reserve then
    Err (Invariant "borrow rejected: reserve frozen for venue {venue_tag}")
  else if available <? amount then
    Err (Invariant "borrow rejected: available_liquidity {} < amount {}")
  else
    match rs_borrow_cap reserve with
    | Some cap =>
        if cap <? saturating_add (rs_total_borrow reserve) amount then
          Err (Invariant "borrow rejected: total_borrow {} + amount {} > borrow_cap {}")
        else Ok ()
    | None => Ok ()
    end.

(** The health factor of the account after the borrow. *)
Definition post_borrow_hf (la : LendingAccount) (a : BorrowAction) (now : Time)
    : ReducerResult DecimalStr :=
  let preview := merge_debt la (bo_asset a) (bo_amount a) (bo_rate_mode a) in
  '(collat_prices, debt_prices, lts) ←
    build_price_tables preview (lf_value (boi_asset_price_usd (bo_live_inputs a))) (bo_asset a);
  recompute_health_factor preview collat_prices debt_prices lts now.

(** [impl Reducer for BorrowAction] *)
Definition apply_borrow (a : BorrowAction) (state : WalletState) (ctx : EvalContext)
    : ReducerResult StateDelta :=
  _ ← borrow_allowed (lf_value (boi_reserve_state (bo_live_inputs a)))
        (lf_value (boi_available_liquidity (bo_live_inputs a))) (bo_amount a);
  let pid := for_venue (bo_venue a) in
  if negb (position_exists state StateDelta_default pid) then Err (PositionNotFound pid)
  else
    delta ← upsert_lending_account state StateDelta_default pid
              (on_lending (fun la => merge_debt la (bo_asset a) (bo_amount a) (bo_rate_mode a)));
    existing_pos ← find_position state pid;
    match po_kind existing_pos with
    | PkLendingAccount la =>
        hf ← post_borrow_hf la a (cx_now ctx);
        safe ← hf_is_safe hf;
        if negb safe then Err (Invariant "borrow rejected: post-borrow HF {hf:?} < 1.0")
        else credit state delta (tr_key (bo_asset a)) (bo_amount a)
    | _ => Err (Invariant "borrow: position {pid} is not a LendingAccount")
    end.

(** ** Liquidation (liquidate.rs) *)

(** The digits before the first point: [s.split('.').next()]. *)
Fixpoint before_point (s : string) : string :=
  match s with
  | EmptyString => EmptyString
  | String c s' =>
      if Ascii.eqb c (Ascii.ascii_of_nat 46) then EmptyString else String c (before_point s')
  end.

(** [parse_price_to_u256] *)
Definition parse_price_to_u256 (price : Price) : ReducerResult U256 :=
  parsed ← inv "liquidate: price parse: {e}" (dec_from_str price);
  product ← rd_mul parsed (dec_of_u32 1000000);
  let scaled := dec_round product in
  if dec_ltb scaled dec_zero then Err (Invariant "liquidate: negative price encountered")
  else inv "liquidate: price U256: {e}" (parse_u256 (before_point (dec_to_string scaled))).

(** The value of the collateral seized for the debt covered: the debt at its
    price, plus the bonus. *)
Definition seized_value (bonus_bp : Z) (debt_to_cover debt_price : U256) : ReducerResult U256 :=
  debt_value_usd ← inv "liquidate: debt value overflow" (checked_mul debt_to_cover debt_price);
  bonus_value ← inv "liquidate: bonus apply overflow" (checked_mul debt_value_usd (10000 + bonus_bp));
  Ok (bonus_value / 10000).

(** [impl Reducer for LiquidateAction]; [total_debt_usd] is parsed and
    dropped. *)
Definition apply_liquidate (a : LiquidateAction) (state : WalletState) (ctx : EvalContext)
    : ReducerResult StateDelta :=
  let victim_state := lf_value (lqi_victim_state (lq_live_inputs a)) in
  hf ← inv "liquidate: HF parse: {e}" (dec_from_str (us_health_factor victim_state));
  if dec_geb hf (dec_of_u32 1) then
    Err (Invariant "liquidate rejected: victim HF {hf} >= 1.0 (position is healthy)")
  else
    let bonus_bp := lf_value (lqi_liquidation_bonus (lq_live_inputs a)) in
    if 10000 <? bonus_bp then Err (Invariant "liquidate: bonus_bp {bonus_bp} > 10000")
    else
      debt_price ← parse_price_to_u256 (lf_value (lqi_debt_asset_price (lq_live_inputs a)));
      collat_value_usd ← seized_value bonus_bp (lq_debt_to_cover a) debt_price;
      collat_price ← parse_price_to_u256 (lf_value (lqi_collat_asset_price (lq_live_inputs a)));
      if collat_price =? 0 then Err (Invariant "liquidate: collateral price is zero")
      else
        let collat_amount := collat_value_usd / collat_price in
        delta ← debit state StateDelta_default (tr_key (lq_debt_asset a)) (lq_debt_to_cover a);
        credit state delta (tr_key (lq_collat_asset a)) collat_amount.

(** ** Account settings *)

(** [set_collateral::apply] *)
Definition apply_set_collateral (a : SetCollateralAction) (state : WalletState) (ctx : EvalContext)
    (enable : bool) : ReducerResult StateDelta :=
  let reserve := lf_value (sci_reserve_state (sc_live_inputs a)) in
  if rs_is_paused reserve then Err (Invariant "set_collateral rejected: reserve paused for venue {}")
  else
    let pid := for_venue (sc_venue a) in
    if negb (position_exists state StateDelta_default pid) then Err (PositionNotFound pid)
    else
      upsert_lending_account state StateDelta_default pid
        (on_lending (fun la =>
           if enable then
             if mentions (sc_asset a) (ln_collaterals la) then la
             else ln_set_collaterals la (ln_collaterals la ++ [(sc_asset a, 0)])
           else
             ln_set_collaterals la
               (retain (fun e => negb (bool_decide (e.1 = sc_asset a))) (ln_collaterals la)))).

(** [impl Reducer for SetEModeAction] *)
Definition apply_set_emode (a : SetEModeAction) (state : WalletState) (ctx : EvalContext)
    : ReducerResult StateDelta :=
  match sem_venue a with
  | AaveV3 _ _ _ | Spark _ _ =>
      let pid := for_venue (sem_venue a) in
      if negb (position_exists state StateDelta_default pid) then Err (PositionNotFound pid)
      else
        pos ← find_position state pid;
        match po_kind pos with
        | PkLendingAccount la =>
            let allowed := emc_assets_in_category (lf_value (semi_category_config (sem_live_inputs a))) in
            if negb (sem_category_id a =? 0)
               && negb (forallb (fun e => bool_decide (e.1 ∈ allowed)) (ln_collaterals la)) then
              Err (Invariant "set_emode rejected: collateral {:?} not in target category")
            else if negb (sem_category_id a =? 0)
               && negb (forallb (fun e => bool_decide (e.1.1 ∈ allowed)) (ln_debts la)) then
              Err (Invariant "set_emode rejected: debt {:?} not in target category")
            else
              upsert_lending_account state StateDelta_default pid
                (on_lending (fun la => ln_set_emode la
                   (if sem_category_id a =? 0 then None else Some (sem_category_id a))))
        | _ => Err (Invariant "set_emode: position {pid} is not a LendingAccount")
        end
  | _ => Err (UnsupportedProtocol "set_emode" (lending_venue_name (sem_venue a)))
  end.

(** [other_mode] *)
Definition other_mode (mode : RateMode) : RateMode :=
  match mode with RateVariable | RateFixed => RateStable | RateStable => RateVariable end.

(** [impl Reducer for SwapRateModeAction] *)
Definition apply_swap_rate_mode (a : SwapRateModeAction) (state : WalletState) (ctx : EvalContext)
    : ReducerResult StateDelta :=
  match sr_m_venue a with
  | AaveV2 _ _ | AaveV3 _ _ _ =>
      let pid := for_venue (sr_m_venue a) in
      if negb (position_exists state StateDelta_default pid) then Err (PositionNotFound pid)
      else
        pos ← find_position state pid;
        match po_kind pos with
        | PkLendingAccount la =>
            let source_mode := other_mode (sr_m_new_mode a) in
            source ← inv "swap_rate_mode: no debt entry for asset {:?} in mode {source_mode:?}"
                       (find_first (has_key (sr_m_asset a, source_mode)) (ln_debts la));
            let '(source_asset, source_amount, _) := source in
            upsert_lending_account state StateDelta_default pid
              (on_lending (fun la =>
                 merge_debt
                   (reduced_or_same la (reduce_debt la source_asset source_amount source_mode))
                   source_asset source_amount (sr_m_new_mode a)))
        | _ => Err (Invariant "swap_rate_mode: position {pid} is not a LendingAccount")
        end
  | _ => Err (UnsupportedProtocol "swap_rate_mode" (lending_venue_name (sr_m_venue a)))
  end.

(** [impl Reducer for DelegateBorrowAction] *)
Definition apply_delegate_borrow (a : DelegateBorrowAction) (state : WalletState) (ctx : EvalContext)
    : ReducerResult StateDelta :=
  match db_venue a with
  | AaveV2 _ _ | AaveV3 _ _ _ =>
      Ok (push_token StateDelta_default
            (TcApprovalSet (tr_key (db_asset a)) (db_delegatee a)
               (AllowanceSpec_new (db_amount a) (cx_now ctx))))
  | _ => Err (UnsupportedProtocol "delegate_borrow" (lending_venue_name (db_venue a)))
  end.

(** [impl Reducer for LendingAction] *)
Definition apply_lending_action (a : LendingAction) (state : WalletState) (ctx : EvalContext)
    : ReducerResult StateDelta :=
  match a with
  | Supply a => apply_supply a state ctx
  | Withdraw a => apply_withdraw a state ctx
  | Borrow a => apply_borrow a state ctx
  | BuyCollateral _ => Ok StateDelta_default
  | Repay a => apply_repay a state ctx
  | SwapRateMode a => apply_swap_rate_mode a state ctx
  | SetEMode a => apply_set_emode a state ctx
  | EnableCollateral a => apply_set_collateral a state ctx true
  | DisableCollateral a => apply_set_collateral a state ctx false
  | DelegateBorrow a => apply_delegate_borrow a state ctx
  | Liquidate a => apply_liquidate a state ctx
  | SetAuthorization _ => Ok StateDelta_default
  | PeripheryOperation _ => Ok StateDelta_default
  end.

(** ** Lemmas *)

Lemma on_lending_id f p : po_id (on_lending f p) = po_id p.
Proof. unfold on_lending. by destruct (po_kind p). Qed.

Lemma apply_delta_nil s : apply_delta s StateDelta_default = Ok s.
Proof. done. Qed.

(** An upsert after token changes only: the account found, and the account left. *)
Lemma upsert_account_applies {SL : PositionSerdeLaws S0} s d0 s0 pid g d :
  replayable s d0 -> apply_delta s d0 = Ok s0 -> sd_position_changes d0 = [] ->
  ws_positions s0 = ws_positions s ->
  upsert_lending_account s d0 pid (on_lending g) = Ok d ->
  exists p la s1, find_first (po_has_id pid) (ws_positions s) = Some p /\
    po_kind p = PkLendingAccount la /\ apply_delta s d = Ok s1 /\
    find_first (po_has_id pid) (ws_positions s1) = Some (po_set_kind p (PkLendingAccount (g la))) /\
    ws_tokens s1 = ws_tokens s0 /\ replayable s d.
Proof.
  intros Hr0 Hs0 Hno Hpos Hu. pose proof Hu as Hr. apply replayable_upsert in Hr;
    [|done|apply on_lending_id].
  unfold upsert_lending_account in Hu. apply upsert_kind_Ok in Hu as (p & Hp & Hk & _ & ->).
  destruct (po_kind p) as [la| | | | |] eqn:Hkind; try done.
  assert (find_first (po_has_id pid) (ws_positions s) = Some p) as Hf.
  { unfold effective_position in Hp. by rewrite Hno in Hp. }
  destruct (apply_snapshot_update s0 pid p (on_lending g p)) as (s1 & H1 & Hfind & _);
    [by rewrite Hpos|rewrite on_lending_id; by eapply effective_position_id|].
  exists p, la, s1. split; [done|]. split; [done|].
  split; [apply apply_delta_push_position; [apply Hr0|]; by exists s0|].
  split; [|split; [|done]].
  - rewrite Hfind. unfold on_lending. by rewrite Hkind.
  - apply apply_position_change_local in H1 as (l & -> & _). done.
Qed.

Lemma open_applies {SL : PositionSerdeLaws S0} s d0 s0 p d :
  replayable s d0 -> apply_delta s d0 = Ok s0 -> open_position s d0 p = Ok d ->
  exists s1, apply_delta s d = Ok s1 /\ ws_positions s1 = ws_positions s0 ++ [p] /\
    ws_tokens s1 = ws_tokens s0.
Proof.
  intros Hr Hs0 Ho. unfold open_position in Ho. run_ok. eexists. split.
  - apply apply_delta_push_position; [apply Hr|]. exists s0. split; [done|reflexivity].
  - done.
Qed.

(** The lending account of a position. *)
Definition account_at (s : WalletState) (pid : PositionId) : option LendingAccount :=
  p ← find_first (po_has_id pid) (ws_positions s);
  match po_kind p with PkLendingAccount la => Some la | _ => None end.

(** The shape withdraw.rs and repay.rs share: reduce the account, then run the
    reduction again for its error. *)
Lemma reduce_strictly {SL : PositionSerdeLaws S0} s pid
    (r : LendingAccount -> ReducerResult (LendingAccount * U256))
    (k : StateDelta -> ReducerResult StateDelta) d :
  (delta ← upsert_lending_account s StateDelta_default pid
             (on_lending (fun la => reduced_or_same la (r la)));
   pos ← find_position s pid;
   _ ← match po_kind pos with PkLendingAccount la => _ ← r la; Ok () | _ => Ok () end;
   k delta) = Ok d ->
  exists la la' rest d1 s1, account_at s pid = Some la /\ r la = Ok (la', rest) /\ k d1 = Ok d /\
    replayable s d1 /\ apply_delta s d1 = Ok s1 /\ account_at s1 pid = Some la' /\
    ws_tokens s1 = ws_tokens s.
Proof.
  intros Hd. inv_ok.
  match goal with Hx : upsert_lending_account _ _ _ _ = Ok ?x |- _ => rename x into d1, Hx into Hu end.
  destruct (upsert_account_applies _ _ s _ _ _ (replayable_default s) eq_refl eq_refl eq_refl Hu)
    as (p & la & s1 & Hp & Hk & Hs1 & Hf & Ht & Hr).
  match goal with Hx : find_position _ _ = Ok _ |- _ =>
    unfold find_position in Hx; rewrite Hp in Hx; simpl in Hx; injection Hx as <- end.
  match goal with Hm : match po_kind p with _ => _ end = Ok _ |- _ => rewrite Hk in Hm end. inv_ok.
  match goal with Hx : r la = Ok ?y |- _ => rename Hx into Hred; destruct y as [la' rest] end.
  exists la, la', rest, d1, s1. unfold account_at. rewrite Hp, Hf. simpl. rewrite Hk. simpl.
  split_and!; try done. by rewrite Hred.
Qed.

Lemma upsert_account_gas s d id g d' :
  upsert_lending_account s d id g = Ok d' -> sd_gas_paid d' = sd_gas_paid d.
Proof. unfold upsert_lending_account. by intros (p & _ & _ & _ & ->)%upsert_kind_Ok. Qed.
Lemma open_position_gas s d p d' : open_position s d p = Ok d' -> sd_gas_paid d' = sd_gas_paid d.
Proof. unfold open_position. intros Ho. by run_ok. Qed.

Ltac lending_gas :=
  repeat match goal with
  | H : upsert_lending_account _ _ _ _ = Ok _ |- _ => apply upsert_account_gas in H
  | H : open_position _ _ _ = Ok _ |- _ => apply open_position_gas in H
  | H : debit _ _ _ _ = Ok _ |- _ => apply debit_gas in H
  | H : credit _ _ _ _ = Ok _ |- _ => apply credit_gas in H
  end; simpl in *; congruence.

(** No lending reducer pays gas. *)
Lemma lending_action_gas a s ctx d : apply_lending_action a s ctx = Ok d -> sd_gas_paid d = None.
Proof.
  destruct a; simpl; unfold apply_supply, apply_withdraw, apply_borrow, apply_repay, apply_swap_rate_mode,
    apply_set_emode, apply_set_collateral, apply_delegate_borrow, apply_liquidate; intros Hd;
    run_ok; try done; lending_gas.
Qed.

(** ** Properties *)
Section Properties.
Context {SL : PositionSerdeLaws S0}.

(** What a withdrawal or a repayment moves when the action says "all". *)
Definition withdraw_amount (a : WithdrawAction) : U256 :=
  if wd_amount a =? U256_MAX then lf_value (wdi_available_to_withdraw (wd_live_inputs a)) else wd_amount a.
Definition repay_amount (a : RepayAction) : U256 :=
  if rp_amount a =? U256_MAX then lf_value (rpi_current_debt (rp_live_inputs a)) else rp_amount a.

(** A withdrawal takes exactly what the account holds: it is accepted only on a live
    reserve, for an asset the account holds in at least the amount asked (the live value when
    the action asks for all); its delta applies, the account afterwards is the account with
    that collateral reduced by exactly the amount, and the wallet is credited exactly when it
    is the recipient. *)
Theorem withdraw_exact a s ctx d :
  wf_state s -> 0 <= withdraw_amount a -> apply_withdraw a s ctx = Ok d ->
  let pid := for_venue (wd_venue a) in
  let key := tr_key (wd_asset a) in
  rs_is_paused (lf_value (wdi_reserve_state (wd_live_inputs a))) = false /\
  exists la la' rest s', account_at s pid = Some la /\
    reduce_collateral la (wd_asset a) (withdraw_amount a) = Ok (la', rest) /\
    apply_delta s d = Ok s' /\ account_at s' pid = Some la' /\
    (forall k, k <> key -> ws_tokens s' !! k = ws_tokens s !! k) /\
    (wd_recipient a <> wi_address (ws_wallet_id s) -> ws_tokens s' = ws_tokens s) /\
    (wd_recipient a = wi_address (ws_wallet_id s) ->
     fungible_balance s key + withdraw_amount a <= I256_MAX ->
     fungible_balance s' key = fungible_balance s key + withdraw_amount a).
Proof.
  intros Hw Hamt Hd pid key. unfold apply_withdraw in Hd. fold (withdraw_amount a) in Hd.
  destruct (rs_is_paused _); [done|]. split; [done|]. destruct (negb _); [done|].
  destruct (reduce_strictly s pid
    (fun la => reduce_collateral la (wd_asset a) (withdraw_amount a)) _ d Hd)
    as (la & la' & rest & d1 & s1 & Hla & Hred & Hc & Hr & H1 & Hla' & Ht). clear Hd.
  exists la, la', rest. destruct (Z.eqb_spec (wd_recipient a) (wi_address (ws_wallet_id s))).
  - destruct (credit_settles _ _ _ _ _ _ Hw Hr H1 Hamt Hc) as (s2 & H2 & Hbal & Hf & Hpos).
    exists s2. unfold account_at in *. rewrite Hpos. fold key in Hbal.
    rewrite (fungible_balance_tokens s1 s key Ht) in Hbal.
    split_and!; try done. intros k Hk. by rewrite Hf, Ht.
  - injection Hc as ->. exists s1. split_and!; try done. intros k _. by rewrite Ht.
Qed.

(** A repayment clears exactly what is owed: it is accepted only on a live reserve, for a
    debt of the account in that asset and rate mode of at least the amount (the live debt when
    the action repays all); its delta applies, the account afterwards is the account with that
    debt reduced by exactly the amount, and the wallet pays exactly that amount. *)
Theorem repay_exact a s ctx d :
  0 <= repay_amount a <= I256_MAX -> apply_repay a s ctx = Ok d ->
  let pid := for_venue (rp_venue a) in
  let key := tr_key (rp_asset a) in
  rs_is_paused (lf_value (rpi_reserve_state (rp_live_inputs a))) = false /\
  exists la la' rest s', account_at s pid = Some la /\
    reduce_debt la (rp_asset a) (repay_amount a) (rp_rate_mode a) = Ok (la', rest) /\
    apply_delta s d = Ok s' /\ account_at s' pid = Some la' /\
    (fungible_balance s key <= I256_MAX ->
     fungible_balance s' key = fungible_balance s key - repay_amount a) /\
    (forall k, k <> key -> ws_tokens s' !! k = ws_tokens s !! k).
Proof.
  intros Hamt Hd pid key. unfold apply_repay in Hd. fold (repay_amount a) in Hd.
  destruct (rs_is_paused _); [done|]. split; [done|]. destruct (negb _); [done|].
  destruct (reduce_strictly s pid
    (fun la => reduce_debt la (rp_asset a) (repay_amount a) (rp_rate_mode a)) _ d Hd)
    as (la & la' & rest & d1 & s1 & Hla & Hred & Hc & Hr & H1 & Hla' & Ht). clear Hd.
  exists la, la', rest.
  destruct (debit_settles _ _ _ _ _ _ Hr H1 Hamt Hc) as (s2 & H2 & Hbal & Hf & Hpos).
  exists s2. unfold account_at in *. rewrite Hpos. fold key in Hbal.
  rewrite (fungible_balance_tokens s1 s key Ht) in Hbal.
  split_and!; try done. intros k Hk. by rewrite Hf, Ht.
Qed.


(** The account a first supply opens. *)
Definition opened_account (a : SupplyAction) (ctx : EvalContext) : LendingAccount :=
  let venue_tag := lending_venue_name (su_venue a) in
  let reserve := lf_value (sui_reserve_state (su_live_inputs a)) in
  {| ln_market := mkMarketRef venue_tag (VenueRef_new venue_tag);
     ln_collaterals :=
       if lf_value (sui_eligible_as_collat (su_live_inputs a)) then [(su_asset a, su_amount a)] else [];
     ln_debts := []; ln_emode := None; ln_is_isolated := false;
     ln_health_factor := derived_live_field "999999999" ctx;
     ln_ltv := derived_live_field "0" ctx;
     ln_liquidation_threshold :=
       derived_live_field (threshold_string (rs_liquidation_threshold_bp reserve)) ctx |}.

(** A supply is accepted only on a reserve that is neither paused nor frozen and within
    its cap; its delta applies, the wallet pays exactly the amount, and the account afterwards
    is the old account with the amount merged into its collaterals, or, for a venue the wallet
    has no position at, a fresh account that holds the collateral exactly when the asset is
    eligible. An existing account is given the collateral whether the asset is eligible or not. *)
Theorem supply_exact a s ctx d :
  0 <= su_amount a <= I256_MAX -> apply_supply a s ctx = Ok d ->
  let pid := for_venue (su_venue a) in
  let key := tr_key (su_asset a) in
  let reserve := lf_value (sui_reserve_state (su_live_inputs a)) in
  rs_is_paused reserve = false /\ rs_is_frozen reserve = false /\
  (forall cap, rs_supply_cap reserve = Some cap ->
     saturating_add (rs_total_supply reserve) (su_amount a) <= cap) /\
  exists s', apply_delta s d = Ok s' /\
    account_at s' pid = Some (match account_at s pid with
                              | Some la => merge_collateral la (su_asset a) (su_amount a)
                              | None => opened_account a ctx
                              end) /\
    (fungible_balance s key <= I256_MAX ->
     fungible_balance s' key = fungible_balance s key - su_amount a) /\
    (forall k, k <> key -> ws_tokens s' !! k = ws_tokens s !! k).
Proof.
  intros Hamt Hd pid key reserve. unfold apply_supply in Hd.
  destruct (supply_allowed _ _) as [u| |] eqn:Hb; try done. simpl in Hd.
  assert (rs_is_paused reserve = false /\ rs_is_frozen reserve = false /\
    (forall cap, rs_supply_cap reserve = Some cap ->
       saturating_add (rs_total_supply reserve) (su_amount a) <= cap)) as (? & ? & ?).
  { unfold supply_allowed in Hb. fold reserve in Hb. run_ok; to_prop; split_and!; try done.
    all: intros cap' [= <-]; lia. }
  split_and!; try done. destruct (supply_receipt _ _ _); try done. simpl in Hd.
  destruct (debit s StateDelta_default _ _) as [d0| |] eqn:Hdeb; try done. simpl in Hd.
  destruct (debit_settles _ _ s _ _ _ (replayable_default s) eq_refl Hamt Hdeb)
    as (s0 & Hs0 & Hbal & Hfr & Hpos).
  pose proof (replayable_debit _ _ _ _ _ (replayable_default s) (u256_of_signed _ Hamt) Hdeb) as Hr0.
  assert (sd_position_changes d0 = []) as Hno by (by apply debit_Ok in Hdeb as (e & _ & _ & ->)).
  unfold position_exists in Hd. rewrite Hno in Hd. simpl in Hd. rewrite existsb_find_first in Hd.
  case_bool_decide as Hex.
  - destruct (upsert_account_applies _ _ s0 _ _ _ Hr0 Hs0 Hno Hpos Hd)
      as (p & la & s1 & Hp & Hk & Hs1 & Hf & Ht & Hr).
    exists s1. unfold account_at, pid. rewrite Hp, Hf. simpl. rewrite Hk. simpl.
    rewrite (fungible_balance_tokens s1 s0 key Ht). split_and!; try done.
    intros k Hk'. rewrite Ht. by apply Hfr.
  - assert (account_at s pid = None) as ->.
    { unfold account_at, pid. destruct (find_first _ _); [|done]. by destruct Hex. }
    assert (open_position s d0 (on_lending (fun _ => opened_account a ctx) (new_lending_account a ctx))
      = Ok d) as Ho by (unfold opened_account; by case_match).
    destruct (open_applies _ _ s0 _ _ Hr0 Hs0 Ho) as (s1 & Hs1 & Hps & Ht).
    exists s1. unfold account_at, pid. rewrite Hps, Hpos, find_first_app.
    destruct (find_first _ (ws_positions s)); [by destruct Hex|]. simpl. unfold po_has_id at 1.
    rewrite bool_decide_true by done. simpl.
    rewrite (fungible_balance_tokens s1 s0 key Ht). split_and!; try done.
    intros k Hk'. rewrite Ht. by apply Hfr.
Qed.

(** The amounts of an action are words. *)
Definition wf_lending_action (a : LendingAction) : Prop :=
  match a with
  | Supply a => u256 (su_amount a)
  | Withdraw a => u256 (withdraw_amount a)
  | Repay a => u256 (repay_amount a)
  | Borrow a => u256 (bo_amount a)
  | Liquidate a => u256 (lq_debt_to_cover a) /\ 0 <= lf_value (lqi_liquidation_bonus (lq_live_inputs a))
  | DelegateBorrow a => u256 (db_amount a) /\ key_contract (tr_key (db_asset a)) <> None
  | _ => True
  end.

Lemma upsert_replayable s d id g d' :
  replayable s d -> upsert_lending_account s d id (on_lending g) = Ok d' -> replayable s d'.
Proof. intros Hr. apply replayable_upsert; [done|]. intros p. apply on_lending_id. Qed.

Lemma parse_price_u256 {PL : U256ParseLaws P0} p z : parse_price_to_u256 p = Ok z -> u256 z.
Proof. unfold parse_price_to_u256. intros Hp. run_ok. by eapply parse_u256_range. Qed.

Lemma seized_value_exact bonus debt price v :
  0 <= bonus -> u256 debt -> u256 price -> seized_value bonus debt price = Ok v ->
  v = debt * price * (10000 + bonus) / 10000 /\ 0 <= v.
Proof.
  unfold seized_value. intros Hb [Hd _] [Hp _] Hv. inv_ok.
  repeat match goal with Hx : checked_mul _ _ = Some _ |- _ => apply checked_mul_Some in Hx as [-> _] end.
  split; [done|]. apply Z.div_pos; [|lia]. repeat apply Z.mul_nonneg_nonneg; lia.
Qed.

Lemma supply_replayable a s ctx d :
  u256 (su_amount a) -> apply_supply a s ctx = Ok d -> replayable s d.
Proof.
  unfold apply_supply. intros Hu Hd. inv_ok.
  match goal with Hx : debit _ _ _ _ = Ok _ |- _ =>
    apply (replayable_debit _ _ _ _ _ (replayable_default s) Hu) in Hx end.
  run_ok; [by eapply upsert_replayable|by eapply replayable_open..].
Qed.

Lemma withdraw_replayable a s ctx d :
  wf_state s -> u256 (withdraw_amount a) -> apply_withdraw a s ctx = Ok d -> replayable s d.
Proof.
  unfold apply_withdraw. fold (withdraw_amount a). intros Hw [Hu _] Hd.
  destruct (rs_is_paused _); [done|]. destruct (negb _); [done|].
  destruct (reduce_strictly s _
    (fun la => reduce_collateral la (wd_asset a) (withdraw_amount a)) _ d Hd)
    as (la & la' & rest & d1 & s1 & _ & _ & Hc & Hr & _). clear Hd.
  run_ok; [|done]. by eapply replayable_credit.
Qed.

Lemma repay_replayable a s ctx d :
  u256 (repay_amount a) -> apply_repay a s ctx = Ok d -> replayable s d.
Proof.
  unfold apply_repay. fold (repay_amount a). intros Hu Hd.
  destruct (rs_is_paused _); [done|]. destruct (negb _); [done|].
  destruct (reduce_strictly s _
    (fun la => reduce_debt la (rp_asset a) (repay_amount a) (rp_rate_mode a)) _ d Hd)
    as (la & la' & rest & d1 & s1 & _ & _ & Hc & Hr & _).
  by eapply replayable_debit.
Qed.

Lemma borrow_replayable a s ctx d :
  wf_state s -> u256 (bo_amount a) -> apply_borrow a s ctx = Ok d -> replayable s d.
Proof.
  unfold apply_borrow. intros Hw [Hu _] Hd. inv_ok. destruct (negb _); [done|]. inv_ok.
  match goal with Hx : upsert_lending_account _ _ _ _ = Ok _ |- _ =>
    apply (upsert_replayable _ _ _ _ _ (replayable_default s)) in Hx end.
  run_ok. by eapply replayable_credit.
Qed.

Lemma liquidate_replayable {PL : U256ParseLaws P0} a s ctx d :
  wf_state s -> wf_lending_action (Liquidate a) -> apply_liquidate a s ctx = Ok d -> replayable s d.
Proof.
  unfold apply_liquidate. intros Hw [Hu Hb] Hd. inv_ok. destruct (dec_geb _ _); [done|].
  destruct (10000 <? _); [done|]. inv_ok. destruct (_ =? 0) eqn:Hz; [done|]. inv_ok.
  match goal with Hv : seized_value _ _ _ = Ok _ |- _ =>
    apply seized_value_exact in Hv as [_ Hv]; [|done|done|by eapply parse_price_u256] end.
  eapply replayable_credit; [done| | |done].
  - by eapply replayable_debit; [apply replayable_default|exact Hu|].
  - apply Z.div_pos; [done|]. match goal with Hx : parse_price_to_u256 (lf_value (lqi_collat_asset_price _)) = _ |- _ =>
      apply parse_price_u256 in Hx as [? _] end. lia.
Qed.

(** Lending reducers are sound for [apply_delta]: on a well-formed wallet the delta of any
    lending action whose amounts are words can be applied. *)
Lemma lending_action_delta_applies {PL : U256ParseLaws P0} a s ctx d :
  wf_state s -> wf_lending_action a -> apply_lending_action a s ctx = Ok d ->
  exists s', apply_delta s d = Ok s'.
Proof.
  intros Hw Ha Hd. apply rp_runs. destruct a; simpl in Hd, Ha.
  - eapply supply_replayable; done.
  - eapply withdraw_replayable; done.
  - eapply borrow_replayable; done.
  - injection Hd as <-. apply replayable_default.
  - eapply repay_replayable; done.
  - unfold apply_swap_rate_mode in Hd. run_ok; by eapply upsert_replayable; [apply replayable_default|].
  - unfold apply_set_emode in Hd. run_ok; by eapply upsert_replayable; [apply replayable_default|].
  - unfold apply_set_collateral in Hd. run_ok; by eapply upsert_replayable; [apply replayable_default|].
  - unfold apply_set_collateral in Hd. run_ok; by eapply upsert_replayable; [apply replayable_default|].
  - destruct Ha. unfold apply_delegate_borrow in Hd.
    run_ok; by apply replayable_approval_set; [apply replayable_default|..].
  - eapply liquidate_replayable; done.
  - injection Hd as <-. apply replayable_default.
  - injection Hd as <-. apply replayable_default.
Qed.

Lemma floor_twice x p : 0 < p -> x / 10000 / p * p * 10000 <= x.
Proof.
  intros Hp. pose proof (Z.mul_div_le (x / 10000) p Hp). pose proof (Z.mul_div_le x 10000 ltac:(lia)). nia.
Qed.

(** A liquidation is accepted only for a position whose health factor reads below one and
    a bonus of at most one hundred percent; its delta applies, the wallet pays exactly the debt
    it covers and receives the collateral worth that debt plus the bonus, rounded down twice,
    so never more than the bonus allows. *)
Theorem liquidate_exact {PL : U256ParseLaws P0} a s ctx d :
  let kd := tr_key (lq_debt_asset a) in
  let kc := tr_key (lq_collat_asset a) in
  let li := lq_live_inputs a in
  wf_state s -> kd <> kc -> 0 <= lf_value (lqi_liquidation_bonus li) ->
  0 <= lq_debt_to_cover a <= I256_MAX -> fungible_balance s kd <= I256_MAX ->
  apply_liquidate a s ctx = Ok d ->
  (exists hf, dec_from_str (us_health_factor (lf_value (lqi_victim_state li))) = Some hf /\
     dec_geb hf (dec_of_u32 1) = false) /\
  lf_value (lqi_liquidation_bonus li) <= 10000 /\
  exists pd pc seized, parse_price_to_u256 (lf_value (lqi_debt_asset_price li)) = Ok pd /\
    parse_price_to_u256 (lf_value (lqi_collat_asset_price li)) = Ok pc /\
    seized = lq_debt_to_cover a * pd * (10000 + lf_value (lqi_liquidation_bonus li)) / 10000 / pc /\
    seized * pc * 10000 <= lq_debt_to_cover a * pd * (10000 + lf_value (lqi_liquidation_bonus li)) /\
    (fungible_balance s kc + seized <= I256_MAX ->
     exists s', apply_delta s d = Ok s' /\
       fungible_balance s' kd = fungible_balance s kd - lq_debt_to_cover a /\
       fungible_balance s' kc = fungible_balance s kc + seized /\
       forall k, k <> kd -> k <> kc -> ws_tokens s' !! k = ws_tokens s !! k).
Proof.
  intros kd kc li Hw Hne Hb Hu Hle Hd. unfold apply_liquidate in Hd. fold li in Hd.
  destruct (dec_from_str _) as [hf|]; [|done]. simpl in Hd.
  destruct (dec_geb _ _) eqn:Hhf; [done|]. split; [by exists hf|].
  destruct (Z.ltb_spec 10000 (lf_value (lqi_liquidation_bonus li))); [done|]. split; [done|].
  destruct (parse_price_to_u256 (lf_value (lqi_debt_asset_price li))) as [pd| |] eqn:Hpd; try done.
  simpl in Hd. destruct (seized_value _ _ _) as [v| |] eqn:Hv; try done. simpl in Hd.
  destruct (parse_price_to_u256 (lf_value (lqi_collat_asset_price li))) as [pc| |] eqn:Hpc; try done.
  simpl in Hd. destruct (Z.eqb_spec pc 0); [done|]. inv_ok.
  pose proof (parse_price_u256 _ _ Hpd) as Hpd'. pose proof (parse_price_u256 _ _ Hpc) as [Hpc' _].
  apply seized_value_exact in Hv as [-> Hv]; [|done|by apply u256_of_signed|done].
  exists pd, pc. eexists. split; [done|]. split; [done|]. split; [done|]. split; [by apply floor_twice; lia|].
  intros Hsum. match goal with Hx : debit _ _ _ _ = Ok ?x, Hy : credit _ ?x _ _ = Ok _ |- _ =>
    apply (exchange_applies s StateDelta_default s kd kc _ _ x d); try done end.
  - apply Z.div_pos; [done|lia].
  - by apply wf_fungible.
Qed.

(** ** What the health check sees *)

(** The weighted value of one collateral, whatever its token. *)
Definition uniform_step (price : Price) (bp : Z) (acc : dec) (amount : U256) : ReducerResult dec :=
  price ← parse_decimal price;
  amt ← u256_to_decimal amount;
  lt_factor ← rd_div (dec_of_u32 bp) (dec_of_u32 10000);
  value ← rd_mul amt price;
  weighted ← rd_mul value lt_factor;
  rd_add acc weighted.

Lemma find_uniform {A} (t : TokenRef) (v : A) table :
  Forall (fun e => e.2 = v) table -> t ∈ table.*1 ->
  exists e, find_first (fun e => bool_decide (e.1 = t)) table = Some e /\ e.2 = v.
Proof.
  intros Hall Hin. destruct (find_first _ table) as [e|] eqn:Hf.
  - exists e. split; [done|]. apply find_first_Some in Hf as [He _]. by apply (proj1 (Forall_forall _ _) Hall).
  - apply find_first_None in Hf. apply list_elem_of_fmap in Hin as (e & -> & He).
    apply (proj1 (Forall_forall _ _) Hf) in He. by apply bool_decide_eq_false in He.
Qed.

Lemma uniform_collat price bp cps lts collaterals acc :
  Forall (fun e => e.2 = price) cps -> Forall (fun e => e.2 = bp) lts ->
  (forall t, t ∈ collaterals.*1 -> t ∈ cps.*1 /\ t ∈ lts.*1) ->
  foldM (hf_collat_step cps lts) collaterals acc = foldM (uniform_step price bp) (collaterals.*2) acc.
Proof.
  intros Hp Hb. revert acc. induction collaterals as [|[t a] l IH]; intros acc Hin; [done|]. cbn.
  destruct (Hin t) as [H1 H2]; [by left|].
  destruct (find_uniform t price cps Hp H1) as (e1 & He1 & <-).
  destruct (find_uniform t bp lts Hb H2) as (e2 & He2 & <-).
  assert (hf_collat_step cps lts acc (t, a) = uniform_step (e1.2) (e2.2) acc a) as Hstep.
  { cbn. unfold lookup_price, lookup_lt_bp. by rewrite He1, He2. }
  cbn in Hstep. rewrite Hstep. destruct (uniform_step _ _ _ _); try done.
  apply IH. intros t' Ht'. apply Hin. by right.
Qed.

Lemma price_tables_uniform la price r :
  match threshold_to_bp (lf_value (ln_liquidation_threshold la)) with
  | Ok bp => exists cps dps lts, build_price_tables la price r = Ok (cps, dps, lts) /\
      dps = (let l := (fun e => (e.1.1, price)) <$> ln_debts la in
             if mentions r l then l else l ++ [(r, price)]) /\
      forall acc, foldM (hf_collat_step cps lts) (ln_collaterals la) acc =
        foldM (uniform_step price bp) ((ln_collaterals la).*2) acc
  | Err e => build_price_tables la price r = Err e
  | Panic => build_price_tables la price r = Panic
  end.
Proof.
  unfold build_price_tables. destruct (threshold_to_bp _) as [bp| |]; [|done..]. simpl.
  destruct (mentions r (_ <$> ln_collaterals la)).
  all: do 3 eexists; (split; [reflexivity|]); (split; [done|]); intros acc; apply uniform_collat.
  3,6: intros t Ht; rewrite ?fmap_app, ?elem_of_app, <- !list_fmap_compose; auto.
  3,4: apply Forall_app; split; [|by repeat constructor].
  all: apply Forall_fmap, Forall_forall; by intros [? ?] _.
Qed.

(** The health check of a borrow does not see what the collateral is: replacing the tokens
    of the account's collaterals by any others, at the same raw amounts, leaves the health
    factor of the check unchanged, because every entry is priced with the price of the asset
    being borrowed. *)
Theorem borrow_check_ignores_collateral_tokens la a now (f : TokenRef -> TokenRef) :
  post_borrow_hf (ln_set_collaterals la (prod_map f id <$> ln_collaterals la)) a now =
  post_borrow_hf la a now.
Proof.
  unfold post_borrow_hf. set (price := lf_value (boi_asset_price_usd (bo_live_inputs a))).
  set (la1 := merge_debt la _ _ _). set (la2 := merge_debt (ln_set_collaterals _ _) _ _ _).
  pose proof (price_tables_uniform la1 price (bo_asset a)) as H1.
  pose proof (price_tables_uniform la2 price (bo_asset a)) as H2. simpl in H1, H2.
  destruct (threshold_to_bp _) as [bp| |]; [|by rewrite H1, H2..].
  destruct H1 as (cps & dps & lts & -> & -> & Hf1). destruct H2 as (cps' & dps' & lts' & -> & -> & Hf2).
  unfold recompute_health_factor. simpl. rewrite Hf1, Hf2, <- list_fmap_compose. done.
Qed.
End Properties.
End Lending.

(** ** Witnesses *)

Definition demo_debug : AddressDebug := {| addr_debug := fmt_dec |}.
Definition demo_venue : LendingVenue := AaveV3 demo_chain demo_contract None.
Definition demo_lending_id : PositionId := for_venue (H := demo_debug) demo_venue.
(** One WETH supplied, nothing borrowed. *)
Definition demo_lender : WalletState :=
  ws_set_positions demo_wallet
    [mkPosition demo_lending_id (ProtocolRef_new "aave_v3") (Some demo_chain)
       (PkLendingAccount (mkLendingAccount (mkMarketRef "pool" (VenueRef_new "aave_v3"))
          [(mkTokenRef weth_key, 1000000000000000000)] [(mkTokenRef usdc_key, 700000000, RateVariable)]
          None false (demo_live "1.5") (demo_live "0.4") (demo_live "0.8")))
       1700000000 demo_source].
Definition demo_user : UserLendingState := mkUserLendingState "0.9" 1000 900 0.
Definition demo_pool : ReserveState :=
  mkReserveState 1000000 400000 4000 (Some (10 ^ 20)) (Some (10 ^ 20)) 7500 8000 500 1000 false false.
Definition demo_supply : SupplyAction :=
  mkSupplyAction demo_venue (mkTokenRef usdc_key) 1000 None
    (mkSupplyLiveInputs (demo_live demo_pool) (demo_live "0.03") (demo_live "1") (demo_live false)
       (demo_live demo_user)).
Definition demo_withdraw : WithdrawAction :=
  mkWithdrawAction demo_venue (mkTokenRef weth_key) 4000 demo_addr
    (mkWithdrawLiveInputs (demo_live demo_pool) (demo_live 5000) (demo_live demo_user)).
Definition demo_repay : RepayAction :=
  mkRepayAction demo_venue (mkTokenRef usdc_key) U256_MAX RateVariable None false
    (mkRepayLiveInputs (demo_live demo_pool) (demo_live 700000000) (demo_live demo_user)).
(** A million USDC against one WETH. *)
Definition demo_borrow : BorrowAction :=
  mkBorrowAction demo_venue (mkTokenRef usdc_key) 1000000000000 RateVariable None
    (mkBorrowLiveInputs (demo_live demo_pool) (demo_live demo_user) (demo_live "1")
       (demo_live "0.05") (demo_live (10 ^ 15))).
Definition demo_liquidate : LiquidateAction :=
  mkLiquidateAction demo_venue demo_spender (mkTokenRef usdc_key) (mkTokenRef weth_key) 1000 false
    (mkLiquidateLiveInputs (demo_live demo_user) (demo_live 500) (demo_live "1") (demo_live "2500")).

(** The delta a demonstration produces. *)
Definition demo_lending_delta (a : LendingAction) : StateDelta :=
  match apply_lending_action (S0 := demo_serde) (D0 := fixed_decimal) (A0 := demo_debug)
          (P0 := demo_parse) a demo_lender demo_ctx with
  | Ok d => d
  | _ => StateDelta_default
  end.

Lemma withdraw_exact_witness :
  exists s', apply_delta (H := demo_serde) demo_lender (demo_lending_delta (Withdraw demo_withdraw)) = Ok s'
    /\ fungible_balance s' weth_key = fungible_balance demo_lender weth_key + 4000.
Proof.
  destruct (withdraw_exact (S0 := demo_serde) (A0 := demo_debug) demo_withdraw demo_lender demo_ctx
    (demo_lending_delta (Withdraw demo_withdraw))) as (_ & la & la' & rest & s' & _ & _ & Hs & _ & _ & _ & Hb).
  - decide_now.
  - vm_compute. discriminate.
  - vm_compute. reflexivity.
  - exists s'. split; [exact Hs|]. apply Hb; [reflexivity|vm_compute; discriminate].
Defined.

Lemma repay_exact_witness :
  exists s', apply_delta (H := demo_serde) demo_lender (demo_lending_delta (Repay demo_repay)) = Ok s'
    /\ fungible_balance s' usdc_key = fungible_balance demo_lender usdc_key - 700000000.
Proof.
  destruct (repay_exact (S0 := demo_serde) (A0 := demo_debug) demo_repay demo_lender demo_ctx
    (demo_lending_delta (Repay demo_repay))) as (_ & la & la' & rest & s' & _ & _ & Hs & _ & Hb & _).
  - vm_compute. split; discriminate.
  - vm_compute. reflexivity.
  - exists s'. split; [exact Hs|]. apply Hb. vm_compute. discriminate.
Defined.


Lemma supply_exact_witness :
  exists s', apply_delta (H := demo_serde) demo_lender (demo_lending_delta (Supply demo_supply)) = Ok s'
    /\ fungible_balance s' usdc_key = fungible_balance demo_lender usdc_key - 1000.
Proof.
  destruct (supply_exact (S0 := demo_serde) (A0 := demo_debug) demo_supply demo_lender demo_ctx
    (demo_lending_delta (Supply demo_supply))) as (_ & _ & _ & s' & Hs & _ & Hb & _).
  - vm_compute. split; discriminate.
  - vm_compute. reflexivity.
  - exists s'. split; [exact Hs|]. apply Hb. vm_compute. discriminate.
Defined.

Lemma liquidate_exact_witness :
  exists s' seized, apply_delta (H := demo_serde) demo_lender
      (demo_lending_delta (Liquidate demo_liquidate)) = Ok s'
    /\ fungible_balance s' weth_key = fungible_balance demo_lender weth_key + seized.
Proof.
  destruct (liquidate_exact (S0 := demo_serde) (D0 := fixed_decimal) (P0 := demo_parse)
    (PL := demo_parse_laws) demo_liquidate demo_lender demo_ctx
    (demo_lending_delta (Liquidate demo_liquidate))) as (_ & _ & pd & pc & z & Hpd & Hpc & Hz & _ & Hs).
  - decide_now.
  - discriminate.
  - vm_compute. discriminate.
  - vm_compute. split; discriminate.
  - vm_compute. discriminate.
  - vm_compute. reflexivity.
  - destruct Hs as (s' & Hs & _ & Hb & _); [|exists s', z; by split].
    vm_compute in Hpd, Hpc. injection Hpd as <-. injection Hpc as <-. subst z.
    vm_compute. discriminate.
Defined.
