(* ===== verification/StaticDomains.v ===== *)
(** * Domains without a wallet delta

    Bridge, governance, marketplace, permission, staking, restaking, yield and
    liquid-staking actions (crates/asset-model/action/src): the transition crate
    (effect/bridge.rs, governance.rs, marketplace.rs, permission.rs, staking,
    restaking, yield_ and liquid_staking) dispatches each variant to a reducer
    that returns the empty delta. One module per domain. *)
From stdpp Require Import base tactics numbers list strings gmap.
From S2P Require Import Prelude Types Positions Wallet.

Module Bridge.
Inductive BridgeVenue :=
| AcrossSpokePool | LiFiDiamond.
Inductive BridgeRecipient :=
| RecipientEvm (address : Address)
| RecipientRaw (bytes32 : string).
Record BridgeSendAction := mkBridgeSendAction {
  bsa_venue : BridgeVenue;
  bsa_src_token : TokenRef;
  bsa_input_amount : U256;
  bsa_dst_chain_id : ChainId;
  bsa_dst_recipient : BridgeRecipient;
  bsa_dst_token : option TokenRef;
  bsa_output_amount : option U256;
  bsa_exclusive_relayer : option Address;
  bsa_has_message : bool;
}.
Inductive BridgeAction :=
| Send (a : BridgeSendAction).

(** [impl Reducer for BridgeAction] and the reducers it calls. *)
Definition apply_bridge_action (a : BridgeAction) (state : WalletState) (ctx : EvalContext)
    : ReducerResult StateDelta :=
  match a with
  | Send _ => Ok StateDelta_default
  end.
End Bridge.

Module Governance.
Record GovernanceDelegateLiveInputs := mkGovernanceDelegateLiveInputs {
  gdli_current_delegate : LiveField (option Address);
  gdli_governance_power : LiveField U256;
}.
Inductive GovernanceVenue :=
| AaveGovernanceV3 (chain : ChainId) (governance : Address)
| AaveVotingMachine (chain : ChainId) (voting_machine : Address)
| GovernanceToken (chain : ChainId) (token : TokenRef).
Inductive GovernanceDelegationKind :=
| KindAll | KindVoting | KindProposition | KindRaw.
Record GovernanceDelegateAction := mkGovernanceDelegateAction {
  gda_venue : GovernanceVenue;
  gda_token : TokenRef;
  gda_delegatee : Address;
  gda_delegation_kind : GovernanceDelegationKind;
  gda_raw_delegation_type : option Z;
  gda_live_inputs : GovernanceDelegateLiveInputs;
}.
Record GovernanceRedeemCancellationFeeAction := mkGovernanceRedeemCancellationFeeAction {
  grcfa_venue : GovernanceVenue;
  grcfa_proposal_id : U256;
}.
Record GovernanceUpdateRepresentativeAction := mkGovernanceUpdateRepresentativeAction {
  gura_venue : GovernanceVenue;
  gura_representative : Address;
  gura_representative_chain_id : U256;
}.
Record GovernanceProposalRefAction := mkGovernanceProposalRefAction {
  gpra_venue : GovernanceVenue;
  gpra_proposal_id : U256;
}.
Record GovernanceProposeAction := mkGovernanceProposeAction {
  gpa_venue : GovernanceVenue;
  gpa_payload_targets : list Address;
  gpa_payload_count : U256;
  gpa_metadata : string;
}.
Record GovernanceVoteAction := mkGovernanceVoteAction {
  gva_venue : GovernanceVenue;
  gva_proposal_id : U256;
  gva_support : bool;
  gva_reason : option string;
}.
Inductive GovernanceAction :=
| Delegate (a : GovernanceDelegateAction)
| Vote (a : GovernanceVoteAction)
| Propose (a : GovernanceProposeAction)
| Cancel (a : GovernanceProposalRefAction)
| ActivateVoting (a : GovernanceProposalRefAction)
| Queue (a : GovernanceProposalRefAction)
| Execute (a : GovernanceProposalRefAction)
| StartVote (a : GovernanceProposalRefAction)
| CloseVote (a : GovernanceProposalRefAction)
| RedeemCancellationFee (a : GovernanceRedeemCancellationFeeAction)
| UpdateRepresentative (a : GovernanceUpdateRepresentativeAction).

(** [impl Reducer for GovernanceAction] and the reducers it calls. *)
Definition apply_governance_action (a : GovernanceAction) (state : WalletState) (ctx : EvalContext)
    : ReducerResult StateDelta :=
  match a with
  | Delegate _ | Vote _ | Propose _ | Cancel _ | ActivateVoting _ | Queue _ | Execute _
  | StartVote _ | CloseVote _ | RedeemCancellationFee _ | UpdateRepresentative _ => Ok StateDelta_default
  end.
End Governance.

Module Marketplace.
Inductive MarketplaceVenue :=
| Seaport (chain : ChainId) (settlement : Address).
Record CancelOrderAction := mkCancelOrderAction {
  coa_venue : MarketplaceVenue;
  coa_scope : string;
  coa_order_count : option Z;
}.
Inductive MarketItemKind :=
| ItemNative | ItemErc20 | ItemErc721 | ItemErc1155 | ItemErc721Criteria | ItemErc1155Criteria.
Record MarketItem := mkMarketItem {
  mi_idx : Z;
  mi_kind : MarketItemKind;
  mi_token : option Address;
  mi_token_id : option U256;
  mi_criteria_root : option string;
  mi_start_amount : U256;
  mi_end_amount : U256;
  mi_recipient : option Address;
}.
Record FulfillOrderAction := mkFulfillOrderAction {
  foa_venue : MarketplaceVenue;
  foa_offer : list MarketItem;
  foa_consideration : list MarketItem;
  foa_recipient : Address;
  foa_fulfiller_conduit_key : option string;
  foa_order_count : Z;
  foa_is_batch : bool;
}.
Record SignOrderAction := mkSignOrderAction {
  soa_venue : MarketplaceVenue;
  soa_offerer : Address;
  soa_zone : option Address;
  soa_offer : list MarketItem;
  soa_consideration : list MarketItem;
  soa_order_type : string;
  soa_start_time : Time;
  soa_end_time : Time;
  soa_conduit_key : string;
  soa_counter : U256;
}.
Inductive MarketplaceAction :=
| SignOrder (a : SignOrderAction)
| FulfillOrder (a : FulfillOrderAction)
| CancelOrder (a : CancelOrderAction).

(** [impl Reducer for MarketplaceAction] and the reducers it calls. *)
Definition apply_marketplace_action (a : MarketplaceAction) (state : WalletState) (ctx : EvalContext)
    : ReducerResult StateDelta :=
  match a with
  | SignOrder _ | FulfillOrder _ | CancelOrder _ => Ok StateDelta_default
  end.
End Marketplace.

Module Permission.
Inductive ProtocolPermissionKind :=
| PermissionRelayer | PermissionManager | PermissionOperator | PermissionAgent | PermissionBuilderFee | PermissionDelegate.
Record ProtocolAuthorizationAction := mkProtocolAuthorizationAction {
  paa_chain : ChainId;
  paa_protocol : Address;
  paa_protocol_name : string;
  paa_permission : ProtocolPermissionKind;
  paa_permission_label : option string;
  paa_permission_limit : option string;
  paa_authorizer : option Address;
  paa_authorized : Address;
  paa_is_authorized : bool;
}.
Inductive PermissionAction :=
| ProtocolAuthorization (a : ProtocolAuthorizationAction).

(** [impl Reducer for PermissionAction] and the reducers it calls. *)
Definition apply_permission_action (a : PermissionAction) (state : WalletState) (ctx : EvalContext)
    : ReducerResult StateDelta :=
  match a with
  | ProtocolAuthorization _ => Ok StateDelta_default
  end.
End Permission.

Module Staking.
Inductive StakeVenue :=
| CurveVotingEscrow (chain : ChainId) (escrow : Address)
| CurveMinter (chain : ChainId) (minter : Address)
| CurveGaugeController (chain : ChainId) (controller : Address)
| CurveGauge (chain : ChainId) (gauge : Address)
| CurveFeeDistributor (chain : ChainId) (distributor : Address)
| AaveSafetyModule (chain : ChainId) (module : Address)
| AaveUmbrellaStakeToken (chain : ChainId) (stake_token : Address)
| AaveUmbrellaRewardsController (chain : ChainId) (controller : Address)
| AaveUmbrellaBatchHelper (chain : ChainId) (helper : Address)
| AaveSavingsGho (chain : ChainId) (vault : Address)
| EthenaStakedUsde (chain : ChainId) (vault : Address).
Record ClaimRewardsAction := mkClaimRewardsAction {
  cra_venue : StakeVenue;
  cra_reward_token : option TokenRef;
  cra_gauges : list Address;
  cra_on_behalf_of : option Address;
  cra_recipient : option Address;
  cra_restake : option bool;
}.
Inductive CooldownDenomination :=
| CooldownShares | CooldownAssets.
Record CooldownAction := mkCooldownAction {
  ca_venue : StakeVenue;
  ca_account : option Address;
  ca_amount : option U256;
  ca_denomination : option CooldownDenomination;
}.
Record GaugeDepositAction := mkGaugeDepositAction {
  gda_venue : StakeVenue;
  gda_amount : U256;
  gda_on_behalf_of : option Address;
}.
Record GaugeWithdrawAction := mkGaugeWithdrawAction {
  gwa_venue : StakeVenue;
  gwa_amount : U256;
}.
Record IncreaseLockAmountAction := mkIncreaseLockAmountAction {
  ilaa_venue : StakeVenue;
  ilaa_token : TokenRef;
  ilaa_amount : U256;
  ilaa_on_behalf_of : option Address;
}.
Record IncreaseLockTimeAction := mkIncreaseLockTimeAction {
  ilta_venue : StakeVenue;
  ilta_unlock_time : U256;
}.
Record LockAction := mkLockAction {
  la_venue : StakeVenue;
  la_token : TokenRef;
  la_amount : U256;
  la_unlock_time : U256;
}.
Inductive RedeemAmountDenomination :=
| RedeemShares | RedeemAssets.
Record RedeemAction := mkRedeemAction {
  ra_venue : StakeVenue;
  ra_asset : option TokenRef;
  ra_amount : U256;
  ra_amount_denomination : option RedeemAmountDenomination;
  ra_owner : option Address;
  ra_recipient : option Address;
}.
Record StakeAction := mkStakeAction {
  sa_venue : StakeVenue;
  sa_asset : option TokenRef;
  sa_amount : U256;
  sa_on_behalf_of : option Address;
  sa_recipient : option Address;
}.
Record UnlockAction := mkUnlockAction {
  ua_venue : StakeVenue;
  ua_token : TokenRef;
}.
Record VoteForGaugeAction := mkVoteForGaugeAction {
  vfga_venue : StakeVenue;
  vfga_gauge : Address;
  vfga_weight_bp : U256;
}.
Inductive StakingAction :=
| Lock (a : LockAction)
| IncreaseLockAmount (a : IncreaseLockAmountAction)
| IncreaseLockTime (a : IncreaseLockTimeAction)
| Unlock (a : UnlockAction)
| ClaimRewards (a : ClaimRewardsAction)
| VoteForGauge (a : VoteForGaugeAction)
| GaugeDeposit (a : GaugeDepositAction)
| GaugeWithdraw (a : GaugeWithdrawAction)
| Stake (a : StakeAction)
| Cooldown (a : CooldownAction)
| Redeem (a : RedeemAction).

(** [impl Reducer for StakingAction] and the reducers it calls. *)
Definition apply_staking_action (a : StakingAction) (state : WalletState) (ctx : EvalContext)
    : ReducerResult StateDelta :=
  match a with
  | Lock _ | IncreaseLockAmount _ | IncreaseLockTime _ | Unlock _ | ClaimRewards _
  | VoteForGauge _ | GaugeDeposit _ | GaugeWithdraw _ | Stake _ | Cooldown _ | Redeem _ => Ok StateDelta_default
  end.
End Staking.

Module Restaking.
Inductive RestakingVenue :=
| EigenLayer (chain : ChainId).
Record CompleteWithdrawalAction := mkCompleteWithdrawalAction {
  cwa_venue : RestakingVenue;
  cwa_staker : Address;
  cwa_withdrawer : Address;
  cwa_strategies : list Address;
  cwa_receive_as_tokens : option bool;
}.
Record DelegateToAction := mkDelegateToAction {
  dta_venue : RestakingVenue;
  dta_operator : Address;
  dta_approver_salt : string;
}.
Record DepositAction := mkDepositAction {
  da_venue : RestakingVenue;
  da_strategy : Address;
  da_token : TokenRef;
  da_amount : U256;
  da_staker : option Address;
}.
Record QueueWithdrawalAction := mkQueueWithdrawalAction {
  qwa_venue : RestakingVenue;
  qwa_strategies : list Address;
  qwa_deposit_shares : list U256;
  qwa_withdrawer : Address;
}.
Record RedelegateAction := mkRedelegateAction {
  ra_venue : RestakingVenue;
  ra_new_operator : Address;
  ra_approver_salt : string;
}.
Record RegisterOperatorAction := mkRegisterOperatorAction {
  roa_venue : RestakingVenue;
  roa_delegation_approver : Address;
  roa_allocation_delay : Z;
  roa_metadata_uri : string;
}.
Record UndelegateAction := mkUndelegateAction {
  ua_venue : RestakingVenue;
  ua_staker : Address;
}.
Inductive RestakingAction :=
| DelegateTo (a : DelegateToAction)
| Redelegate (a : RedelegateAction)
| Undelegate (a : UndelegateAction)
| Deposit (a : DepositAction)
| QueueWithdrawal (a : QueueWithdrawalAction)
| CompleteWithdrawal (a : CompleteWithdrawalAction)
| RegisterOperator (a : RegisterOperatorAction).

(** [impl Reducer for RestakingAction] and the reducers it calls. *)
Definition apply_restaking_action (a : RestakingAction) (state : WalletState) (ctx : EvalContext)
    : ReducerResult StateDelta :=
  match a with
  | DelegateTo _ | Redelegate _ | Undelegate _ | Deposit _ | QueueWithdrawal _
  | CompleteWithdrawal _ | RegisterOperator _ => Ok StateDelta_default
  end.
End Restaking.

Module Yield.
Inductive AddLiquidityKind :=
| AddDualTokenAndPt | AddDualSyAndPt | AddSinglePt | AddSingleToken | AddSingleSy | AddSingleTokenKeepYt | AddSingleSyKeepYt.
Inductive YieldVenue :=
| PendleV2 (chain : ChainId).
Record MarketTokensLiveInputs := mkMarketTokensLiveInputs {
  mtli_sy : LiveField Address;
  mtli_pt : LiveField Address;
  mtli_yt : LiveField Address;
  mtli_maturity : LiveField U256;
}.
Record AddMarketLiquidityAction := mkAddMarketLiquidityAction {
  amla_venue : YieldVenue;
  amla_market : Address;
  amla_kind : AddLiquidityKind;
  amla_external_token : option TokenRef;
  amla_net_token_in : U256;
  amla_net_pt_in : U256;
  amla_net_sy_in : U256;
  amla_min_lp_out : U256;
  amla_recipient : Address;
  amla_live_inputs : MarketTokensLiveInputs;
}.
Inductive CancelKind :=
| CancelSingle | CancelBatch.
Record CancelLimitOrderAction := mkCancelLimitOrderAction {
  cloa_venue : YieldVenue;
  cloa_kind : CancelKind;
}.
Record ClaimYieldAction := mkClaimYieldAction {
  cya_venue : YieldVenue;
  cya_user : Address;
  cya_sys : list Address;
  cya_yts : list Address;
  cya_markets : list Address;
}.
Record MintPyAction := mkMintPyAction {
  mpa_venue : YieldVenue;
  mpa_yt : Address;
  mpa_external_token : option TokenRef;
  mpa_net_input : U256;
  mpa_min_py_out : U256;
  mpa_recipient : Address;
}.
Record MintSyAction := mkMintSyAction {
  msa_venue : YieldVenue;
  msa_sy : Address;
  msa_external_token : TokenRef;
  msa_net_token_in : U256;
  msa_min_sy_out : U256;
  msa_recipient : Address;
}.
Inductive PtSwapDirection :=
| PtTokenForPt | PtSyForPt | PtPtForToken | PtPtForSy.
Record PtSwapAction := mkPtSwapAction {
  psa_venue : YieldVenue;
  psa_market : Address;
  psa_direction : PtSwapDirection;
  psa_external_token : option TokenRef;
  psa_exact_amount_in : U256;
  psa_min_amount_out : U256;
  psa_recipient : Address;
  psa_live_inputs : MarketTokensLiveInputs;
}.
Record RedeemPyAction := mkRedeemPyAction {
  rpa_venue : YieldVenue;
  rpa_yt : Address;
  rpa_external_token : option TokenRef;
  rpa_net_py_in : U256;
  rpa_min_output : U256;
  rpa_recipient : Address;
}.
Record RedeemSyAction := mkRedeemSyAction {
  rsa_venue : YieldVenue;
  rsa_sy : Address;
  rsa_external_token : TokenRef;
  rsa_net_sy_in : U256;
  rsa_min_token_out : U256;
  rsa_recipient : Address;
}.
Inductive RemoveLiquidityKind :=
| RemoveDualTokenAndPt | RemoveDualSyAndPt | RemoveSinglePt | RemoveSingleToken | RemoveSingleSy.
Record RemoveMarketLiquidityAction := mkRemoveMarketLiquidityAction {
  rmla_venue : YieldVenue;
  rmla_market : Address;
  rmla_kind : RemoveLiquidityKind;
  rmla_external_token : option TokenRef;
  rmla_net_lp_in : U256;
  rmla_min_token_out : U256;
  rmla_min_pt_out : U256;
  rmla_min_sy_out : U256;
  rmla_recipient : Address;
  rmla_live_inputs : MarketTokensLiveInputs;
}.
Inductive LimitOrderType :=
| OrderSyForPt | OrderPtForSy | OrderSyForYt | OrderYtForSy.
Record SignLimitOrderAction := mkSignLimitOrderAction {
  sloa_venue : YieldVenue;
  sloa_order_type : LimitOrderType;
  sloa_token : TokenRef;
  sloa_yt : Address;
  sloa_maker : Address;
  sloa_receiver : Address;
  sloa_making_amount : U256;
  sloa_expiry : U256;
}.
Inductive YtSwapDirection :=
| YtTokenForYt | YtSyForYt | YtYtForToken | YtYtForSy.
Record YtSwapAction := mkYtSwapAction {
  ysa_venue : YieldVenue;
  ysa_market : Address;
  ysa_direction : YtSwapDirection;
  ysa_external_token : option TokenRef;
  ysa_exact_amount_in : U256;
  ysa_min_amount_out : U256;
  ysa_recipient : Address;
  ysa_live_inputs : MarketTokensLiveInputs;
}.
Inductive YieldAction :=
| PtSwap (a : PtSwapAction)
| YtSwap (a : YtSwapAction)
| AddMarketLiquidity (a : AddMarketLiquidityAction)
| RemoveMarketLiquidity (a : RemoveMarketLiquidityAction)
| MintPy (a : MintPyAction)
| RedeemPy (a : RedeemPyAction)
| MintSy (a : MintSyAction)
| RedeemSy (a : RedeemSyAction)
| ClaimYield (a : ClaimYieldAction)
| SignLimitOrder (a : SignLimitOrderAction)
| CancelLimitOrder (a : CancelLimitOrderAction).

(** [impl Reducer for YieldAction] and the reducers it calls. *)
Definition apply_yield_action (a : YieldAction) (state : WalletState) (ctx : EvalContext)
    : ReducerResult StateDelta :=
  match a with
  | PtSwap _ | YtSwap _ | AddMarketLiquidity _ | RemoveMarketLiquidity _ | MintPy _
  | RedeemPy _ | MintSy _ | RedeemSy _ | ClaimYield _ | SignLimitOrder _ | CancelLimitOrder _ => Ok StateDelta_default
  end.
End Yield.

Module LiquidStaking.
Inductive StakingVenue :=
| Lido (chain : ChainId).
Record ClaimWithdrawalAction := mkClaimWithdrawalAction {
  cwa_venue : StakingVenue;
  cwa_request_ids : list U256;
  cwa_recipient : option Address;
}.
Record EmbeddedPermit := mkEmbeddedPermit {
  ep_value : U256;
  ep_deadline : U256;
}.
Record RequestWithdrawalAction := mkRequestWithdrawalAction {
  rwa_venue : StakingVenue;
  rwa_token : TokenRef;
  rwa_amounts : list U256;
  rwa_owner : Address;
  rwa_embedded_permit : option EmbeddedPermit;
}.
Record LiquidStakeAction := mkLiquidStakeAction {
  sa_venue : StakingVenue;
  sa_amount : U256;
  sa_referral : option Address;
}.
Record TransferSharesLiveInputs := mkTransferSharesLiveInputs {
  tsli_pooled_eth : LiveField U256;
}.
Record TransferSharesAction := mkTransferSharesAction {
  tsa_venue : StakingVenue;
  tsa_recipient : Address;
  tsa_shares : U256;
  tsa_from : option Address;
  tsa_live_inputs : TransferSharesLiveInputs;
}.
Record UnwrapLiveInputs := mkUnwrapLiveInputs {
  uli_expected_steth : LiveField U256;
}.
Record UnwrapAction := mkUnwrapAction {
  ua_venue : StakingVenue;
  ua_amount : U256;
  ua_live_inputs : UnwrapLiveInputs;
}.
Record WrapLiveInputs := mkWrapLiveInputs {
  wli_expected_wsteth : LiveField U256;
}.
Record WrapAction := mkWrapAction {
  wa_venue : StakingVenue;
  wa_amount : U256;
  wa_live_inputs : WrapLiveInputs;
}.
Inductive LiquidStakingAction :=
| Stake (a : LiquidStakeAction)
| Wrap (a : WrapAction)
| Unwrap (a : UnwrapAction)
| RequestWithdrawal (a : RequestWithdrawalAction)
| ClaimWithdrawal (a : ClaimWithdrawalAction)
| TransferShares (a : TransferSharesAction).

(** [impl Reducer for LiquidStakingAction] and the reducers it calls. *)
Definition apply_liquid_staking_action (a : LiquidStakingAction) (state : WalletState) (ctx : EvalContext)
    : ReducerResult StateDelta :=
  match a with
  | Stake _ | Wrap _ | Unwrap _ | RequestWithdrawal _ | ClaimWithdrawal _ | TransferShares _ => Ok StateDelta_default
  end.
End LiquidStaking.
