(* ===== verification/Airdrop.v ===== *)
(** * Airdrop reducers

    crates/asset-model/action/src/airdrop and
    crates/asset-model/transition/src/effect/airdrop.rs: claiming an airdrop and
    delegating voting power. *)
From stdpp Require Import base tactics numbers list strings gmap.
From S2P Require Import Prelude Types Positions Wallet Serde Fixtures Delta BalanceOps PositionOps Replay.

Module Airdrop.

(** ** Actions *)

Record ClaimDonation := mkClaimDonation {
  cdn_amount : U256;
  cdn_token : TokenRef;
  cdn_claim_amount : U256;
}.
Inductive ClaimTarget :=
| MerkleDistributor (chain : ChainId) (contract : Address) (index : Z)
| SignatureDistributor (chain : ChainId) (contract : Address)
| StakingClaim (chain : ChainId) (contract : Address).
Record ClaimAirdropLiveInputs := mkClaimAirdropLiveInputs {
  cai_is_still_claimable : LiveField bool;
  cai_actual_amount : LiveField U256;
  cai_claim_token : LiveField TokenRef;
  cai_claim_window : LiveField (option (Time * Time));
}.
Record ClaimAirdropAction := mkClaimAirdropAction {
  ca_source : ProtocolRef;
  ca_claim_target : ClaimTarget;
  ca_recipient : Address;
  ca_proof : option MerkleProof;
  ca_sig : option string;
  ca_donation : option ClaimDonation;
  ca_live_inputs : ClaimAirdropLiveInputs;
}.
Inductive GovernancePowerType :=
| PowerVotingAndProposition | PowerVoting | PowerProposition.
Record DelegateLiveInputs := mkDelegateLiveInputs {
  dgi_current_delegate : LiveField (option Address);
  dgi_voting_power : LiveField U256;
}.
Record DelegateGovernanceAction := mkDelegateGovernanceAction {
  dg_token : TokenRef;
  dg_delegatee : Address;
  dg_power_type : GovernancePowerType;
  dg_live_inputs : DelegateLiveInputs;
}.
Inductive AirdropAction :=
| Claim (a : ClaimAirdropAction)
| Delegate (a : DelegateGovernanceAction).

(** ** Reducers *)

(** [validate_claim_target] *)
Definition validate_claim_target (action : ClaimAirdropAction) : ReducerResult () :=
  match ca_claim_target action with
  | MerkleDistributor _ _ _ =>
      match ca_proof action with
      | None => Err (MissingField "ClaimAirdropAction.proof for MerkleDistributor")
      | Some _ => Ok ()
      end
  | SignatureDistributor _ _ =>
      match ca_sig action with
      | None => Err (MissingField "ClaimAirdropAction.sig for SignatureDistributor")
      | Some _ => Ok ()
      end
  | StakingClaim _ _ => Ok ()
  end.

(** [airdrop_position_id] *)
Definition airdrop_position_id (action : ClaimAirdropAction) : PositionId :=
  ("airdrop:" +:+ pr_name (ca_source action) +:+ ":" +:+ lowercase_hex (ca_recipient action))%string.

(** The position a claim opens. *)
Definition claim_position (a : ClaimAirdropAction) (ctx : EvalContext) : Position :=
  let claim_token := lf_value (cai_claim_token (ca_live_inputs a)) in
  {| po_id := airdrop_position_id a;
     po_protocol := ca_source a;
     po_chain := Some (key_chain (tr_key claim_token));
     po_kind := PkAirdropClaim
       {| ac_source := ca_source a;
          ac_claimable := claim_token;
          ac_amount := lf_value (cai_actual_amount (ca_live_inputs a));
          ac_proof := ca_proof a;
          ac_claim_window := lf_value (cai_claim_window (ca_live_inputs a));
          ac_status := Claimed |};
     po_primitives_synced_at := cx_now ctx;
     po_primitives_source := UserSupplied |}.

(** [impl Reducer for ClaimAirdropAction] *)
Definition apply_claim (a : ClaimAirdropAction) (state : WalletState) (ctx : EvalContext)
    : ReducerResult StateDelta :=
  let li := ca_live_inputs a in
  if negb (lf_value (cai_is_still_claimable li)) then
    Err (Invariant "airdrop claim from {:?} is no longer claimable")
  else
    _ ← match lf_value (cai_claim_window li) with
        | Some (start, end_) =>
            if (cx_now ctx <? start) || (end_ <? cx_now ctx) then
              Err (Invariant "airdrop claim from {} is outside its valid window ({}..={})")
            else Ok ()
        | None => Ok ()
        end;
    _ ← validate_claim_target a;
    delta ← credit state StateDelta_default (tr_key (lf_value (cai_claim_token li)))
              (lf_value (cai_actual_amount li));
    Ok (push_position delta (Open (claim_position a ctx))).

(** [impl Reducer for DelegateGovernanceAction] *)
Definition apply_delegate_governance (a : DelegateGovernanceAction) (state : WalletState)
    (ctx : EvalContext) : ReducerResult StateDelta :=
  match tr_key (dg_token a) with
  | Erc20 _ _ => Ok StateDelta_default
  | _ => Err (Invariant "DelegateGovernanceAction.token must be Erc20, got {other:?}")
  end.

(** [impl Reducer for AirdropAction] *)
Definition apply_airdrop_action (a : AirdropAction) (state : WalletState) (ctx : EvalContext)
    : ReducerResult StateDelta :=
  match a with
  | Claim a => apply_claim a state ctx
  | Delegate a => apply_delegate_governance a state ctx
  end.

(** ** Lemmas *)

Section Laws.
Context {S0 : PositionSerde} {SL : PositionSerdeLaws S0}.

Lemma airdrop_action_gas a s ctx d : apply_airdrop_action a s ctx = Ok d -> sd_gas_paid d = None.
Proof.
  destruct a as [a|a]; simpl.
  - unfold apply_claim. intros Hd. run_ok.
    all: match goal with Hc : credit _ _ _ _ = Ok ?d |- _ => by rewrite (credit_gas _ _ _ _ _ Hc) end.
  - unfold apply_delegate_governance. intros Hd. by run_ok.
Qed.

Lemma apply_claim_Ok a s ctx d :
  apply_claim a s ctx = Ok d ->
  let li := ca_live_inputs a in
  lf_value (cai_is_still_claimable li) = true /\
  (forall start end_, lf_value (cai_claim_window li) = Some (start, end_) ->
     start <= cx_now ctx <= end_) /\
  validate_claim_target a = Ok () /\
  exists d0, credit s StateDelta_default (tr_key (lf_value (cai_claim_token li)))
      (lf_value (cai_actual_amount li)) = Ok d0 /\
    d = push_position d0 (Open (claim_position a ctx)).
Proof.
  intros Hd li. unfold apply_claim in Hd. fold li in Hd. destruct (lf_value (cai_is_still_claimable li)); [|done].
  split; [done|]. simpl in Hd. inv_ok. split; [|split].
  - intros start end_ Hw. rewrite Hw in *. match goal with Hx : context [orb] |- _ => revert Hx end.
    destruct (Z.ltb_spec (cx_now ctx) start), (Z.ltb_spec end_ (cx_now ctx)); simpl; (done || lia).
  - match goal with Hv : validate_claim_target a = Ok ?u |- _ => by destruct u end.
  - eauto.
Qed.

(** Acceptance depends on the wallet only through the credit. *)
Lemma claim_accepted a s s' ctx d d0 :
  apply_claim a s ctx = Ok d ->
  credit s' StateDelta_default (tr_key (lf_value (cai_claim_token (ca_live_inputs a))))
    (lf_value (cai_actual_amount (ca_live_inputs a))) = Ok d0 ->
  apply_claim a s' ctx = Ok (push_position d0 (Open (claim_position a ctx))).
Proof.
  unfold apply_claim. intros Hd Hc. destruct (negb _); [done|].
  destruct (lf_value (cai_claim_window _)) as [[start end_]|]; simpl in *;
    [destruct (_ || _); [done|]|]; simpl in *;
    (destruct (validate_claim_target a); [|done..]); simpl in *; by rewrite Hc.
Qed.

Lemma claim_replayable a s ctx d :
  wf_state s -> 0 <= lf_value (cai_actual_amount (ca_live_inputs a)) ->
  apply_claim a s ctx = Ok d -> replayable s d.
Proof.
  intros Hw Ha Hd. destruct (apply_claim_Ok _ _ _ _ Hd) as (_ & _ & _ & d0 & Hc & ->).
  apply (replayable_credit _ _ _ _ _ Hw (replayable_default s) Ha) in Hc.
  by apply replayable_push_open.
Qed.

Lemma claim_applies a s ctx d :
  let key := tr_key (lf_value (cai_claim_token (ca_live_inputs a))) in
  let amount := lf_value (cai_actual_amount (ca_live_inputs a)) in
  wf_state s -> 0 <= amount -> apply_claim a s ctx = Ok d ->
  exists s', apply_delta s d = Ok s' /\
    (fungible_balance s key + amount <= I256_MAX ->
     fungible_balance s' key = fungible_balance s key + amount) /\
    ws_positions s' = ws_positions s ++ [claim_position a ctx].
Proof.
  intros key amount Hw Ha Hd. destruct (apply_claim_Ok _ _ _ _ Hd) as (_ & _ & _ & d0 & Hc & ->).
  destruct (credit_settles _ _ s _ _ _ Hw (replayable_default s) eq_refl Ha Hc)
    as (s1 & H1 & Hbal & _ & Hpos).
  eexists. split; [apply apply_delta_push_position|split].
  - by rewrite (credit_gas _ _ _ _ _ Hc).
  - exists s1. split; [done|reflexivity].
  - done.
  - simpl. by rewrite Hpos.
Qed.

Lemma claim_wf a s ctx d s' :
  wf_state s -> 0 <= lf_value (cai_actual_amount (ca_live_inputs a)) ->
  apply_claim a s ctx = Ok d -> apply_delta s d = Ok s' -> wf_state s'.
Proof. intros Hw Ha Hd. by apply replayable_wf; [|eapply claim_replayable]. Qed.

(** ** Properties *)

(** An airdrop claim is accepted only while it is claimable, inside its window and with the
    payload its distributor needs; its delta applies, the wallet receives exactly the claimed
    amount, and a position marked as claimed is appended. The reducer does not look for an
    earlier claim, so running it again on the new wallet is accepted once more and appends a
    second position under the same identifier. *)
Theorem airdrop_claim_exact a s ctx d :
  let li := ca_live_inputs a in
  let key := tr_key (lf_value (cai_claim_token li)) in
  let amount := lf_value (cai_actual_amount li) in
  wf_state s -> 0 <= amount -> apply_claim a s ctx = Ok d ->
  lf_value (cai_is_still_claimable li) = true /\
  (forall start end_, lf_value (cai_claim_window li) = Some (start, end_) ->
     start <= cx_now ctx <= end_) /\
  validate_claim_target a = Ok () /\
  exists s', apply_delta s d = Ok s' /\
    (fungible_balance s key + amount <= I256_MAX ->
     fungible_balance s' key = fungible_balance s key + amount) /\
    ws_positions s' = ws_positions s ++ [claim_position a ctx] /\
    exists d' s'', apply_claim a s' ctx = Ok d' /\ apply_delta s' d' = Ok s'' /\
      ws_positions s'' = ws_positions s ++ [claim_position a ctx; claim_position a ctx].
Proof.
  intros li key amount Hw Ha Hd.
  destruct (apply_claim_Ok _ _ _ _ Hd) as (H1 & H2 & H3 & d0 & Hc & ->). split_and!; try done.
  destruct (claim_applies a s ctx _ Hw Ha Hd) as (s' & Hs' & Hbal & Hpos).
  exists s'. split_and!; try done. pose proof (claim_wf _ _ _ _ _ Hw Ha Hd Hs') as Hw'.
  assert (exists d', apply_claim a s' ctx = Ok d') as [d' Hd'].
  { pose proof Hc as [[b Hb] _]%credit_Ok.
    pose proof (effective_is_applied _ _ _ _ _ (airdrop_action_gas (Claim a) _ _ _ Hd) Hs'
      (effective_exists_iff s _ _ b Hb)) as Hs.
    eexists. eapply claim_accepted; [exact Hd|]. apply credit_Ok. eauto. }
  destruct (claim_applies a s' ctx _ Hw' Ha Hd') as (s'' & Hs'' & _ & Hpos').
  exists d', s''. split_and!; try done. by rewrite Hpos', Hpos, <- app_assoc.
Qed.

(** The amount of a claim is not negative, as a U256 never is. *)
Definition wf_airdrop_action (a : AirdropAction) : Prop :=
  match a with Claim a => 0 <= lf_value (cai_actual_amount (ca_live_inputs a)) | Delegate _ => True end.

Lemma airdrop_replayable a s ctx d :
  wf_state s -> wf_airdrop_action a -> apply_airdrop_action a s ctx = Ok d -> replayable s d.
Proof.
  destruct a as [a|a]; simpl; intros Hw Ha Hd; [by eapply claim_replayable|].
  unfold apply_delegate_governance in Hd. run_ok. apply replayable_default.
Qed.
End Laws.

(** ** Witness *)
Definition demo_claim : ClaimAirdropAction :=
  mkClaimAirdropAction (ProtocolRef_new "arbitrum")
    (MerkleDistributor demo_chain demo_contract 4) demo_addr
    (Some (mkMerkleProof 4 ["0xaa"; "0xbb"])) None None
    (mkClaimAirdropLiveInputs (demo_live true) (demo_live 1250) (demo_live (mkTokenRef usdc_key))
       (demo_live (Some (1690000000, 1710000000)))).
Definition demo_claim_delta : StateDelta :=
  match apply_claim demo_claim demo_wallet demo_ctx with Ok d => d | _ => StateDelta_default end.

Lemma airdrop_claim_exact_witness :
  exists s', apply_delta (H := demo_serde) demo_wallet demo_claim_delta = Ok s' /\
    fungible_balance s' usdc_key = fungible_balance demo_wallet usdc_key + 1250.
Proof.
  destruct (airdrop_claim_exact (S0 := demo_serde) demo_claim demo_wallet demo_ctx demo_claim_delta)
    as (_ & _ & _ & s' & Hs & Hb & _).
  - decide_now.
  - vm_compute. discriminate.
  - vm_compute. reflexivity.
  - exists s'. split; [exact Hs|]. apply Hb. vm_compute. discriminate.
Defined.
End Airdrop.
