(* ===== verification/Launchpad.v ===== *)
(** * Launchpad reducers

    crates/asset-model/action/src/launchpad and
    crates/asset-model/transition/src/effect/launchpad.rs: committing to a sale,
    withdrawing the commitment, and claiming or refunding the allocation. *)
From stdpp Require Import base tactics numbers list strings gmap.
From S2P Require Import Prelude Types Positions Wallet Serde Fixtures Delta BalanceOps PositionOps Replay.
From S2P Require Import LendingLedger.

Module Launchpad.

(** ** Actions *)

Record ClaimAllocationLiveInputs := mkClaimAllocationLiveInputs {
  cli_allocated : LiveField (TokenRef * U256);
  cli_refund_due : LiveField U256;
  cli_is_claimable : LiveField bool;
}.
Record ClaimAllocationAction := mkClaimAllocationAction {
  cl_platform : ProtocolRef;
  cl_sale_id : string;
  cl_recipient : Address;
  cl_live_inputs : ClaimAllocationLiveInputs;
}.
Record ClaimVestedLiveInputs := mkClaimVestedLiveInputs {
  cvi_claimable_now : LiveField U256;
  cvi_next_unlock : LiveField (option (Time * U256));
}.
Record ClaimVestedAction := mkClaimVestedAction {
  cv_position_id : PositionId;
  cv_amount : option U256;
  cv_live_inputs : ClaimVestedLiveInputs;
}.
Record SaleState := mkSaleState {
  ss_is_active : bool;
  ss_total_committed : U256;
  ss_hard_cap : option U256;
  ss_soft_cap : option U256;
  ss_sale_window : (Time * Time);
  ss_vest_schedule : option VestSchedule;
}.
Record CommitLiveInputs := mkCommitLiveInputs {
  cmi_sale_state : LiveField SaleState;
  cmi_user_cap : LiveField U256;
  cmi_user_committed : LiveField U256;
  cmi_expected_token_price : LiveField (option Price);
}.
Record CommitAction := mkCommitAction {
  cm_platform : ProtocolRef;
  cm_sale_id : string;
  cm_pay_token : TokenRef;
  cm_amount : U256;
  cm_recipient : Address;
  cm_live_inputs : CommitLiveInputs;
}.
Record RefundLiveInputs := mkRefundLiveInputs {
  rfi_refund_amount : LiveField U256;
  rfi_refund_token : LiveField TokenRef;
}.
Record RefundAction := mkRefundAction {
  rf_platform : ProtocolRef;
  rf_sale_id : string;
  rf_recipient : Address;
  rf_live_inputs : RefundLiveInputs;
}.
Record WithdrawCommitLiveInputs := mkWithdrawCommitLiveInputs {
  wci_withdrawable : LiveField U256;
  wci_sale_state : LiveField SaleState;
}.
Record WithdrawCommitAction := mkWithdrawCommitAction {
  wc_platform : ProtocolRef;
  wc_sale_id : string;
  wc_amount : option U256;
  wc_live_inputs : WithdrawCommitLiveInputs;
}.
Inductive LaunchpadAction :=
| Commit (a : CommitAction)
| ClaimAllocation (a : ClaimAllocationAction)
| ClaimVested (a : ClaimVestedAction)
| Refund (a : RefundAction)
| WithdrawCommit (a : WithdrawCommitAction).

(** ** Helpers *)

(** [launchpad_position_id] *)
Definition launchpad_position_id (platform_name sale_id : string) (recipient : Address) : PositionId :=
  ("launchpad:" +:+ platform_name +:+ ":" +:+ sale_id +:+ ":" +:+ lowercase_hex recipient)%string.

(** [effective_launchpad_position]: the same search as the position helpers'. *)
Definition effective_launchpad_position (state : WalletState) (delta : StateDelta) (id : PositionId)
    : option Position := effective_position state delta id.

(** [p.kind = kind; p.primitives_synced_at = now] *)
Definition po_touch (p : Position) (kind : PositionKind) (now : Time) : Position :=
  mkPosition (po_id p) (po_protocol p) (po_chain p) kind now (po_primitives_source p).

Definition la_set_paid (a : LaunchpadAllocation) (paid : list (TokenRef * U256)) : LaunchpadAllocation :=
  mkLaunchpadAllocation (la_platform a) (la_sale_id a) paid (la_allocated a) (la_vest a)
    (la_claimed a) (la_claimable_now a).

(** The coalescing of a payment into [paid]: the entry of the token is raised
    with [checked_add], or a new entry is pushed. *)
Fixpoint add_paid (token : TokenRef) (amount : U256) (paid : list (TokenRef * U256))
    : ReducerResult (list (TokenRef * U256)) :=
  match paid with
  | [] => Ok [(token, amount)]
  | (t, x) :: l =>
      if bool_decide (t = token) then
        sum ← inv "paid sum overflow" (checked_add x amount);
        Ok ((t, sum) :: l)
      else l' ← add_paid token amount l; Ok ((t, x) :: l')
  end.

(** [fold(U256::ZERO, |acc, x| acc.checked_add(x).unwrap_or(U256::ZERO))] *)
Definition total_paid (paid : list (TokenRef * U256)) : U256 :=
  foldl (fun acc e => default 0 (checked_add acc (e.2))) 0 paid.

(** [alloc.vest.start < alloc.vest.end.unwrap_or(alloc.vest.start)] *)
Definition has_vest_window (v : VestSchedule) : bool := vs_start v <? default (vs_start v) (vs_end v).

Section Reducers.
Context {S0 : PositionSerde}.

(** [push_position_update] *)
Definition push_position_update (delta : StateDelta) (new_position : Position) : StateDelta :=
  push_position delta (Update (po_id new_position) (snapshot_patch new_position)).

(** ** Commit *)

(** The sale, window and cap checks. *)
Definition commit_allowed (a : CommitAction) (now : Time) : ReducerResult () :=
  let sale := lf_value (cmi_sale_state (cm_live_inputs a)) in
  if negb (ss_is_active sale) then Err (Invariant "launchpad commit rejected: sale {} is not active")
  else
    let '(start, end_) := ss_sale_window sale in
    if (now <? start) || (end_ <? now) then
      Err (Invariant "launchpad commit on sale {} outside sale_window ({}..={})")
    else
      new_user_total ← inv "launchpad commit overflow on sale {}"
        (checked_add (lf_value (cmi_user_committed (cm_live_inputs a))) (cm_amount a));
      if lf_value (cmi_user_cap (cm_live_inputs a)) <? new_user_total then
        Err (Invariant "launchpad commit on sale {} exceeds user cap ({} > {})")
      else
        match ss_hard_cap sale with
        | Some hard =>
            new_total ← inv "launchpad commit overflow on sale {} total_committed"
              (checked_add (ss_total_committed sale) (cm_amount a));
            if hard <? new_total then
              Err (Invariant "launchpad commit on sale {} exceeds hard cap ({} > {})")
            else Ok ()
        | None => Ok ()
        end.

(** The position a first commitment opens. *)
Definition commit_position (a : CommitAction) (ctx : EvalContext) : Position :=
  let sale := lf_value (cmi_sale_state (cm_live_inputs a)) in
  let default_vest := mkVestSchedule (cx_now ctx) None (Some (cx_now ctx)) CurveLinear 0 in
  {| po_id := launchpad_position_id (pr_name (cm_platform a)) (cm_sale_id a) (cm_recipient a);
     po_protocol := cm_platform a;
     po_chain := Some (key_chain (tr_key (cm_pay_token a)));
     po_kind := PkLaunchpadAllocation
       {| la_platform := cm_platform a;
          la_sale_id := cm_sale_id a;
          la_paid := [(cm_pay_token a, cm_amount a)];
          la_allocated := (cm_pay_token a, 0);
          la_vest := default default_vest (ss_vest_schedule sale);
          la_claimed := 0;
          la_claimable_now := 0 |};
     po_primitives_synced_at := cx_now ctx;
     po_primitives_source := UserSupplied |}.

(** [impl Reducer for CommitAction] *)
Definition apply_commit (a : CommitAction) (state : WalletState) (ctx : EvalContext)
    : ReducerResult StateDelta :=
  _ ← commit_allowed a (cx_now ctx);
  delta ← debit state StateDelta_default (tr_key (cm_pay_token a)) (cm_amount a);
  let id := launchpad_position_id (pr_name (cm_platform a)) (cm_sale_id a) (cm_recipient a) in
  match effective_launchpad_position state delta id with
  | Some existing =>
      match po_kind existing with
      | PkLaunchpadAllocation alloc =>
          paid ← add_paid (cm_pay_token a) (cm_amount a) (la_paid alloc);
          Ok (push_position_update delta
                (po_touch existing (PkLaunchpadAllocation (la_set_paid alloc paid)) (cx_now ctx)))
      | _ => Err (Invariant "position {id} exists but is not a LaunchpadAllocation")
      end
  | None => Ok (push_position delta (Open (commit_position a ctx)))
  end.

(** ** ClaimAllocation *)

(** The allocation after a claim. *)
Definition claimed_allocation (alloc : LaunchpadAllocation) (token : TokenRef) (amount : U256)
    : LaunchpadAllocation :=
  let v := la_vest alloc in
  if has_vest_window v then
    mkLaunchpadAllocation (la_platform alloc) (la_sale_id alloc) (la_paid alloc) (token, amount)
      (mkVestSchedule (vs_start v) (vs_cliff v) (vs_end v) (vs_curve v) amount)
      (la_claimed alloc) (la_claimable_now alloc)
  else
    mkLaunchpadAllocation (la_platform alloc) (la_sale_id alloc) (la_paid alloc) (token, amount)
      v amount 0.

(** [impl Reducer for ClaimAllocationAction] *)
Definition apply_claim_allocation (a : ClaimAllocationAction) (state : WalletState) (ctx : EvalContext)
    : ReducerResult StateDelta :=
  let li := cl_live_inputs a in
  if negb (lf_value (cli_is_claimable li)) then
    Err (Invariant "launchpad allocation on sale {} is not yet claimable")
  else
    let '(alloc_token, alloc_amount) := lf_value (cli_allocated li) in
    let refund_due := lf_value (cli_refund_due li) in
    delta ← credit state StateDelta_default (tr_key alloc_token) alloc_amount;
    let id := launchpad_position_id (pr_name (cl_platform a)) (cl_sale_id a) (cl_recipient a) in
    existing ← ok_or (PositionNotFound id) (effective_launchpad_position state delta id);
    match po_kind existing with
    | PkLaunchpadAllocation alloc =>
        delta ← if negb (refund_due =? 0) then
                  first ← inv "ClaimAllocation refund on {id} but no paid entries" (head (la_paid alloc));
                  credit state delta (tr_key (first.1)) refund_due
                else Ok delta;
        Ok (push_position_update delta
              (po_touch existing
                 (PkLaunchpadAllocation (claimed_allocation alloc alloc_token alloc_amount))
                 (cx_now ctx)))
    | _ => Err (Invariant "position {id} exists but is not a LaunchpadAllocation")
    end.

(** ** ClaimVested *)

(** [impl Reducer for ClaimVestedAction] *)
Definition apply_claim_vested (a : ClaimVestedAction) (state : WalletState) (ctx : EvalContext)
    : ReducerResult StateDelta :=
  let id := cv_position_id a in
  existing ← ok_or (PositionNotFound id) (effective_launchpad_position state StateDelta_default id);
  let claimable_now := lf_value (cvi_claimable_now (cv_live_inputs a)) in
  let requested := default claimable_now (cv_amount a) in
  if claimable_now <? requested then
    Err (Invariant "ClaimVested on {id} requests {requested} > claimable_now {claimable_now}")
  else if requested =? 0 then Ok StateDelta_default
  else
    match po_kind existing with
    | PkLaunchpadAllocation alloc =>
        delta ← credit state StateDelta_default (tr_key ((la_allocated alloc).1)) requested;
        claimed ← inv "claimed overflow" (checked_add (la_claimed alloc) requested);
        Ok (push_position_update delta
              (po_touch existing
                 (PkLaunchpadAllocation
                    (mkLaunchpadAllocation (la_platform alloc) (la_sale_id alloc) (la_paid alloc)
                       (la_allocated alloc) (la_vest alloc) claimed
                       (saturating_sub claimable_now requested)))
                 (cx_now ctx)))
    | PkVestingSchedule sch =>
        delta ← credit state StateDelta_default (tr_key (vg_token sch)) requested;
        claimed ← inv "claimed overflow" (checked_add (vg_claimed sch) requested);
        Ok (push_position_update delta
              (po_touch existing
                 (PkVestingSchedule
                    (mkVestingSchedule (vg_granter sch) (vg_token sch) (vg_schedule sch) claimed
                       (saturating_sub (vg_claimable_now sch) requested)))
                 (cx_now ctx)))
    | _ =>
        Err (Invariant "ClaimVested target {id} is not a LaunchpadAllocation or VestingSchedule (got {other:?})")
    end.

(** ** Refund *)

(** [impl Reducer for RefundAction] *)
Definition apply_refund (a : RefundAction) (state : WalletState) (ctx : EvalContext)
    : ReducerResult StateDelta :=
  let refund_amount := lf_value (rfi_refund_amount (rf_live_inputs a)) in
  let refund_token := lf_value (rfi_refund_token (rf_live_inputs a)) in
  if refund_amount =? 0 then Err (Invariant "RefundAction on sale {} has refund_amount = 0")
  else
    delta ← credit state StateDelta_default (tr_key refund_token) refund_amount;
    let id := launchpad_position_id (pr_name (rf_platform a)) (rf_sale_id a) (rf_recipient a) in
    match effective_launchpad_position state delta id with
    | Some _ => Ok (push_position delta (Close id))
    | None => Ok delta
    end.

(** ** WithdrawCommit *)

(** [if let Some(entry) = alloc.paid.first_mut() { entry.1 = saturating_sub(..) }] *)
Definition reduce_first (amount : U256) (paid : list (TokenRef * U256)) : list (TokenRef * U256) :=
  match paid with [] => [] | (t, x) :: l => (t, saturating_sub x amount) :: l end.

(** [impl Reducer for WithdrawCommitAction] *)
Definition apply_withdraw_commit (a : WithdrawCommitAction) (state : WalletState) (ctx : EvalContext)
    : ReducerResult StateDelta :=
  if negb (ss_is_active (lf_value (wci_sale_state (wc_live_inputs a)))) then
    Err (Invariant "WithdrawCommit on sale {} rejected: sale is no longer active")
  else
    let withdrawable := lf_value (wci_withdrawable (wc_live_inputs a)) in
    let requested := default withdrawable (wc_amount a) in
    if requested =? 0 then Err (Invariant "WithdrawCommit on sale {} requested zero")
    else if withdrawable <? requested then
      Err (Invariant "WithdrawCommit on sale {sale_id}: requested {requested} > withdrawable {withdrawable}")
    else
      let id := launchpad_position_id (pr_name (wc_platform a)) (wc_sale_id a)
                  (wi_address (ws_wallet_id state)) in
      existing ← ok_or (PositionNotFound id) (effective_launchpad_position state StateDelta_default id);
      match po_kind existing with
      | PkLaunchpadAllocation alloc =>
          first ← inv "WithdrawCommit on {id} but position has no paid entries" (head (la_paid alloc));
          delta ← credit state StateDelta_default (tr_key (first.1)) requested;
          if total_paid (la_paid alloc) <=? requested then Ok (push_position delta (Close id))
          else
            Ok (push_position_update delta
                  (po_touch existing
                     (PkLaunchpadAllocation (la_set_paid alloc (reduce_first requested (la_paid alloc))))
                     (cx_now ctx)))
      | _ => Err (Invariant "position {id} exists but is not a LaunchpadAllocation")
      end.

(** [impl Reducer for LaunchpadAction] *)
Definition apply_launchpad_action (a : LaunchpadAction) (state : WalletState) (ctx : EvalContext)
    : ReducerResult StateDelta :=
  match a with
  | Commit a => apply_commit a state ctx
  | ClaimAllocation a => apply_claim_allocation a state ctx
  | ClaimVested a => apply_claim_vested a state ctx
  | Refund a => apply_refund a state ctx
  | WithdrawCommit a => apply_withdraw_commit a state ctx
  end.

(** ** Lemmas *)

(** A positions update and a credit or debit leave the gas field alone. *)
Lemma launchpad_action_gas a s ctx d : apply_launchpad_action a s ctx = Ok d -> sd_gas_paid d = None.
Proof.
  destruct a; simpl; unfold apply_commit, apply_claim_allocation, apply_claim_vested, apply_refund,
    apply_withdraw_commit; intros Hd; run_ok; try done;
    repeat match goal with
    | H : debit _ _ _ _ = Ok _ |- _ => apply debit_gas in H
    | H : credit _ _ _ _ = Ok _ |- _ => apply credit_gas in H
    end; simpl in *; congruence.
Qed.

Section Laws.
Context {SL : PositionSerdeLaws S0}.

Definition wf_launchpad_action (a : LaunchpadAction) : Prop :=
  match a with
  | Commit a => u256 (cm_amount a)
  | ClaimAllocation a => 0 <= (lf_value (cli_allocated (cl_live_inputs a))).2 /\
      0 <= lf_value (cli_refund_due (cl_live_inputs a))
  | ClaimVested a => 0 <= default (lf_value (cvi_claimable_now (cv_live_inputs a))) (cv_amount a)
  | Refund a => 0 <= lf_value (rfi_refund_amount (rf_live_inputs a))
  | WithdrawCommit a => 0 <= default (lf_value (wci_withdrawable (wc_live_inputs a))) (wc_amount a)
  end.

(** The update every launchpad reducer ends with. *)
Lemma push_update_replayable s d id p k now :
  replayable s d -> sd_position_changes d = [] -> effective_launchpad_position s d id = Some p ->
  replayable s (push_position_update d (po_touch p k now)).
Proof.
  intros Hr Hno Hp. unfold effective_launchpad_position in Hp.
  pose proof (effective_position_id _ _ _ _ Hp) as Hid. rewrite effective_same in Hp by done.
  eapply replayable_update; [done|done|]. simpl. rewrite Hid. exact Hp.
Qed.

Lemma commit_replayable a s ctx d :
  u256 (cm_amount a) -> apply_commit a s ctx = Ok d -> replayable s d.
Proof.
  unfold apply_commit. intros Hu Hd. inv_ok.
  match goal with Hx : debit _ _ _ _ = Ok _ |- _ =>
    pose proof (replayable_debit _ _ _ _ _ (replayable_default s) Hu Hx);
    apply debit_positions in Hx; simpl in Hx end.
  destruct (effective_launchpad_position _ _ _) eqn:He; run_ok.
  - by eapply push_update_replayable.
  - by apply replayable_push_open.
Qed.

(** What the first credit of a reducer gives. *)
Ltac first_credit Hw Ha :=
  match goal with Hx : credit ?s StateDelta_default _ _ = Ok _ |- _ =>
    pose proof (replayable_credit _ _ _ _ _ Hw (replayable_default s) Ha Hx);
    let Hno := fresh "Hno0" in
    pose proof (credit_positions _ _ _ _ _ Hx) as Hno; simpl in Hno end.

Lemma launchpad_replayable a s ctx d :
  wf_state s -> wf_launchpad_action a -> apply_launchpad_action a s ctx = Ok d -> replayable s d.
Proof.
  destruct a; simpl; intros Hw Ha Hd.
  - by eapply commit_replayable.
  - unfold apply_claim_allocation in Hd. destruct Ha as [Ha1 Ha2]. destruct (negb _); [done|].
    destruct (lf_value (cli_allocated _)) as [token amount]. simpl in Ha1, Hd. inv_ok.
    first_credit Hw Ha1. run_ok; [|by eapply push_update_replayable].
    match goal with Hx : credit _ ?x _ _ = Ok ?y, Hp : effective_launchpad_position _ ?x _ = Some _ |- _ =>
      pose proof (replayable_credit _ _ _ _ _ Hw ltac:(eassumption) Ha2 Hx) as Hr1;
      pose proof (credit_positions _ _ _ _ _ Hx) as Hno1 end. rewrite Hno0 in Hno1.
    eapply push_update_replayable; [done|done|]. unfold effective_launchpad_position in *.
    rewrite effective_same in * by done. done.
  - unfold apply_claim_vested in Hd. run_ok; [apply replayable_default|..]; first_credit Hw Ha.
    all: eapply push_update_replayable; [done|done|]; unfold effective_launchpad_position in *;
      by rewrite effective_same in * by done.
  - unfold apply_refund in Hd. run_ok; first_credit Hw Ha; [|done].
    apply replayable_close; [done|done|]. unfold effective_launchpad_position in *.
    rewrite effective_same in * by done. by eexists.
  - unfold apply_withdraw_commit in Hd. run_ok; first_credit Hw Ha.
    + apply replayable_close; [done|done|]. by eexists.
    + eapply push_update_replayable; [done|done|]. unfold effective_launchpad_position in *.
      by rewrite effective_same in * by done.
Qed.

(** The allocation filed under an identifier. *)
Definition allocation_at (s : WalletState) (id : PositionId) : option LaunchpadAllocation :=
  p ← find_first (po_has_id id) (ws_positions s);
  match po_kind p with PkLaunchpadAllocation a => Some a | _ => None end.

Lemma add_paid_amount token amount l l' :
  add_paid token amount l = Ok l' ->
  forall t, amount_at t l' = if bool_decide (t = token) then amount_at token l + amount else amount_at t l.
Proof.
  revert l'. induction l as [|[t0 x] l IH]; simpl; intros l' Hl t.
  - inv_ok. rewrite amount_at_cons, (bool_decide_ext (le_key (token, amount) = t) (t = token)) by (simpl; split; congruence).
    by case_bool_decide.
  - case_bool_decide as Ht; [subst t0|]; inv_ok.
    + checked_values. rewrite !amount_at_cons. simpl.
      rewrite (bool_decide_true (token = token)), (bool_decide_ext (token = t) (t = token)) by (done || split; congruence).
      by case_bool_decide.
    + match goal with Hx : add_paid _ _ _ = Ok _ |- _ => specialize (IH _ Hx t) end.
      rewrite !amount_at_cons. simpl. rewrite (bool_decide_false (t0 = token)) by done.
      destruct (decide (t0 = t)) as [->|Hne].
      * by rewrite bool_decide_true, (bool_decide_false (t = token)) by done.
      * by rewrite (bool_decide_false (t0 = t)) by done.
Qed.

Lemma commit_allowed_Ok a now :
  commit_allowed a now = Ok () ->
  let sale := lf_value (cmi_sale_state (cm_live_inputs a)) in
  ss_is_active sale = true /\ (ss_sale_window sale).1 <= now <= (ss_sale_window sale).2 /\
  lf_value (cmi_user_committed (cm_live_inputs a)) + cm_amount a <= lf_value (cmi_user_cap (cm_live_inputs a)) /\
  (forall hard, ss_hard_cap sale = Some hard -> ss_total_committed sale + cm_amount a <= hard).
Proof.
  intros Hc sale. unfold commit_allowed in Hc. fold sale in Hc. destruct (ss_is_active sale); [|done].
  simpl in Hc. destruct (ss_sale_window sale) as [start end_]. simpl in *.
  destruct (Z.ltb_spec now start), (Z.ltb_spec end_ now); simpl in Hc; try done. inv_ok.
  checked_values. destruct (Z.ltb_spec (lf_value (cmi_user_cap (cm_live_inputs a)))
    (lf_value (cmi_user_committed (cm_live_inputs a)) + cm_amount a)); [done|].
  split_and!; try done. intros hard Hh. rewrite Hh in *. inv_ok. checked_values.
  match goal with Hx : (if ?c then _ else _) = _ |- _ => destruct (Z.ltb_spec hard (ss_total_committed sale + cm_amount a)) end; done.
Qed.

(** ** Properties *)

(** A commitment to a sale is accepted only while the sale is active and inside its window,
    within the user's cap and the hard cap; its delta applies, the wallet pays exactly the
    amount, and the allocation afterwards records exactly that much more paid in that token. *)
Theorem commit_exact a s ctx d :
  0 <= cm_amount a <= I256_MAX -> apply_commit a s ctx = Ok d ->
  let sale := lf_value (cmi_sale_state (cm_live_inputs a)) in
  let id := launchpad_position_id (pr_name (cm_platform a)) (cm_sale_id a) (cm_recipient a) in
  let key := tr_key (cm_pay_token a) in
  ss_is_active sale = true /\ (ss_sale_window sale).1 <= cx_now ctx <= (ss_sale_window sale).2 /\
  lf_value (cmi_user_committed (cm_live_inputs a)) + cm_amount a <= lf_value (cmi_user_cap (cm_live_inputs a)) /\
  (forall hard, ss_hard_cap sale = Some hard -> ss_total_committed sale + cm_amount a <= hard) /\
  exists s' alloc', apply_delta s d = Ok s' /\ allocation_at s' id = Some alloc' /\
    amount_at (cm_pay_token a) (la_paid alloc') =
      match allocation_at s id with Some alloc => amount_at (cm_pay_token a) (la_paid alloc) | None => 0 end
      + cm_amount a /\
    (fungible_balance s key <= I256_MAX ->
     fungible_balance s' key = fungible_balance s key - cm_amount a) /\
    (forall k, k <> key -> ws_tokens s' !! k = ws_tokens s !! k).
Proof.
  intros Hamt Hd sale id key. unfold apply_commit in Hd. fold id in Hd.
  destruct (commit_allowed a (cx_now ctx)) as [[]| |] eqn:Hc; try done. simpl in Hd.
  destruct (commit_allowed_Ok _ _ Hc) as (? & ? & ? & ?). do 4 (split; [done|]).
  destruct (debit _ _ _ _) as [d0| |] eqn:Hdeb; try done. simpl in Hd.
  destruct (debit_settles _ _ s _ _ _ (replayable_default s) eq_refl Hamt Hdeb)
    as (s0 & Hs0 & Hbal & Hfr & Hpos).
  pose proof (debit_gas _ _ _ _ _ Hdeb) as Hg. pose proof (debit_positions _ _ _ _ _ Hdeb) as Hno.
  unfold effective_launchpad_position in Hd. rewrite effective_same in Hd by done. unfold allocation_at.
  destruct (find_first _ _) as [p|] eqn:Hp; simpl.
  - destruct (po_kind p) as [| | |alloc| |] eqn:Hk; try done. inv_ok.
    match goal with Hx : add_paid _ _ _ = Ok ?l |- _ => rename l into paid; pose proof (add_paid_amount _ _ _ _ Hx (cm_pay_token a)) as Hpaid end.
    pose proof (proj2 (find_first_Some _ _ _ Hp)) as Hid. apply bool_decide_eq_true in Hid.
    set (p' := po_touch p (PkLaunchpadAllocation (la_set_paid alloc paid)) (cx_now ctx)).
    destruct (update_settles s d0 s0 p p' Hg Hs0) as (s1 & Hs1 & Hf & Ht & _).
    { simpl. by rewrite Hid, Hpos. }
    simpl in Hf. rewrite Hid in Hf. exists s1, (la_set_paid alloc paid).
    rewrite (fungible_balance_tokens s1 s0 key Ht), Hf. split_and!; try done.
    + simpl. by rewrite bool_decide_true in Hpaid by done.
    + intros k Hk'. rewrite Ht. by apply Hfr.
  - inv_ok. eexists _, _. split; [apply apply_delta_push_position; [done|]; exists s0; split; [done|reflexivity]|].
    simpl. rewrite find_first_app, Hpos, Hp. simpl. unfold po_has_id. rewrite bool_decide_true by done. simpl.
    split; [done|]. simpl. rewrite amount_at_cons, bool_decide_true by done. split; [done|]. split; [|done].
    done.
Qed.

(** A credit that the wallet can take after a delta. *)
Lemma credit_after s d s1 k b amt :
  sd_gas_paid d = None -> apply_delta s d = Ok s1 -> signed_balance s k = Some b ->
  exists d', credit s1 StateDelta_default k amt = Ok d'.
Proof.
  intros Hg Hs1 Hb.
  pose proof (effective_is_applied _ _ _ _ _ Hg Hs1 (effective_exists_iff s d k b Hb)) as Hs.
  eexists. apply credit_Ok. eauto.
Qed.

Lemma debit_signed s d k amt d' : debit s d k amt = Ok d' -> exists b, signed_balance s k = Some b.
Proof. intros (e & He & _)%debit_Ok. apply effective_signed_balance_Ok in He as (b & Hb & _). eauto. Qed.

Lemma fresh_commit a s ctx d s1 :
  let id := launchpad_position_id (pr_name (cm_platform a)) (cm_sale_id a) (cm_recipient a) in
  let key := tr_key (cm_pay_token a) in
  0 <= cm_amount a <= I256_MAX -> find_first (po_has_id id) (ws_positions s) = None ->
  apply_commit a s ctx = Ok d -> apply_delta s d = Ok s1 ->
  ws_positions s1 = ws_positions s ++ [commit_position a ctx] /\ ws_wallet_id s1 = ws_wallet_id s /\
  (exists b, signed_balance s key = Some b) /\
  (fungible_balance s key <= I256_MAX -> fungible_balance s1 key = fungible_balance s key - cm_amount a) /\
  (forall k, k <> key -> ws_tokens s1 !! k = ws_tokens s !! k).
Proof.
  intros id key Hamt Hfresh Hd Hs1. unfold apply_commit in Hd. inv_ok.
  match goal with Hx : debit _ _ _ _ = Ok ?x |- _ => rename x into d0, Hx into Hdeb end.
  pose proof (debit_positions _ _ _ _ _ Hdeb) as Hno. pose proof (debit_gas _ _ _ _ _ Hdeb) as Hg.
  unfold effective_launchpad_position in *. rewrite effective_same in * by done.
  match goal with Hm : match find_first _ _ with _ => _ end = Ok _ |- _ =>
    fold id in Hm; rewrite Hfresh in Hm end. inv_ok.
  destruct (debit_settles _ _ s _ _ _ (replayable_default s) eq_refl Hamt Hdeb)
    as (s0 & Hs0 & Hbal & Hfr & Hpos).
  apply apply_delta_push_position in Hs1 as (s0' & Hs0' & Hs1); [|done].
  rewrite Hs0 in Hs0'. injection Hs0' as <-. injection Hs1 as <-. simpl. rewrite Hpos.
  split; [done|]. split; [by apply (wallet_id_kept _ _ _ Hs0)|]. split; [by eapply debit_signed|done].
Qed.

(** Committing to a sale and withdrawing the whole commitment while the sale is active
    gives the wallet back as it was: the position the commitment opened is gone, every other
    position is kept, and every balance is what it was. *)
Theorem commit_withdraw_round_trip a w s ctx ctx' d s1 :
  let key := tr_key (cm_pay_token a) in
  let id := launchpad_position_id (pr_name (cm_platform a)) (cm_sale_id a) (cm_recipient a) in
  wf_state s -> 0 < cm_amount a <= I256_MAX -> fungible_balance s key <= I256_MAX ->
  cm_recipient a = wi_address (ws_wallet_id s) ->
  find_first (po_has_id id) (ws_positions s) = None ->
  apply_commit a s ctx = Ok d -> apply_delta s d = Ok s1 ->
  wc_platform w = cm_platform a -> wc_sale_id w = cm_sale_id a ->
  ss_is_active (lf_value (wci_sale_state (wc_live_inputs w))) = true ->
  default (lf_value (wci_withdrawable (wc_live_inputs w))) (wc_amount w) = cm_amount a ->
  cm_amount a <= lf_value (wci_withdrawable (wc_live_inputs w)) ->
  exists d' s2, apply_withdraw_commit w s1 ctx' = Ok d' /\ apply_delta s1 d' = Ok s2 /\
    ws_positions s2 = ws_positions s /\ forall k, fungible_balance s2 k = fungible_balance s k.
Proof.
  intros key id Hw Hamt Hle Hrec Hfresh Hd Hs1 Hpl Hsale Hact Hreq Hwd.
  assert (0 <= cm_amount a <= I256_MAX) as Hamt0 by lia.
  destruct (fresh_commit a s ctx d s1 Hamt0 Hfresh Hd Hs1) as (Hpos & Hwid & (b & Hb) & Hbal & Hfr).
  fold key in Hb, Hbal, Hfr. pose proof (launchpad_action_gas (Commit a) _ _ _ Hd) as Hg.
  destruct (credit_after s d s1 key b (cm_amount a) Hg Hs1 Hb) as [dc Hc].
  assert (find_first (po_has_id id) (ws_positions s1) = Some (commit_position a ctx)) as Hf.
  { rewrite Hpos, find_first_app, Hfresh. simpl. unfold po_has_id. by rewrite bool_decide_true. }
  assert (apply_withdraw_commit w s1 ctx' = Ok (push_position dc (Close id))) as Hw1.
  { unfold apply_withdraw_commit, effective_launchpad_position. rewrite Hact, Hreq, Hpl, Hsale, Hwid, <- Hrec.
    simpl. fold id. rewrite (proj2 (Z.eqb_neq (cm_amount a) 0)) by lia.
    rewrite (proj2 (Z.ltb_ge _ _) Hwd), effective_same, Hf by done. simpl. fold key. rewrite Hc. simpl.
    assert (total_paid [(cm_pay_token a, cm_amount a)] = cm_amount a) as ->.
    { unfold total_paid. simpl. rewrite checked_add_ok by (pose proof int_bounds; lia). simpl. lia. }
    by rewrite Z.leb_refl. }
  pose proof (replayable_wf _ _ _ Hw (commit_replayable a s ctx d (u256_of_signed _ Hamt0) Hd) Hs1) as Hw'.
  destruct (credit_settles _ _ s1 _ _ _ Hw' (replayable_default s1) eq_refl (proj1 Hamt0) Hc)
    as (s1' & Hs1' & Hbal' & Hfr' & Hpos').
  destruct (close_settles s1 dc s1' id) as (s2 & Hs2 & Hp2 & Ht2);
    [by rewrite (credit_gas _ _ _ _ _ Hc)|done|rewrite Hpos', Hf; by eexists|].
  exists (push_position dc (Close id)), s2. split_and!; [done|done|..].
  - rewrite Hp2, Hpos', Hpos, retain_app. simpl. unfold po_has_id at 2. rewrite bool_decide_true by done.
    simpl. rewrite app_nil_r. apply retain_all. apply find_first_None in Hfresh.
    eapply Forall_impl; [exact Hfresh|]. by intros p ->.
  - intros k. rewrite (fungible_balance_tokens s2 s1' k Ht2). destruct (decide (k = key)) as [->|Hne].
    + rewrite Hbal'; rewrite Hbal by done; lia.
    + unfold fungible_balance. by rewrite Hfr', Hfr.
Qed.

Lemma credit_signed s d k amt d' : credit s d k amt = Ok d' -> exists b, signed_balance s k = Some b.
Proof. by intros [? _]%credit_Ok. Qed.

(** What claiming an allocation does when no refund is due. *)
Lemma claim_allocation_applies a s ctx d p alloc token amount :
  let id := launchpad_position_id (pr_name (cl_platform a)) (cl_sale_id a) (cl_recipient a) in
  wf_state s -> 0 <= amount -> apply_claim_allocation a s ctx = Ok d ->
  find_first (po_has_id id) (ws_positions s) = Some p -> po_kind p = PkLaunchpadAllocation alloc ->
  lf_value (cli_allocated (cl_live_inputs a)) = (token, amount) ->
  lf_value (cli_refund_due (cl_live_inputs a)) = 0 ->
  exists s1, apply_delta s d = Ok s1 /\ wf_state s1 /\
    (exists b, signed_balance s (tr_key token) = Some b) /\
    (fungible_balance s (tr_key token) + amount <= I256_MAX ->
     fungible_balance s1 (tr_key token) = fungible_balance s (tr_key token) + amount) /\
    find_first (po_has_id id) (ws_positions s1) =
      Some (po_touch p (PkLaunchpadAllocation (claimed_allocation alloc token amount)) (cx_now ctx)).
Proof.
  intros id Hw Ha Hd Hp Hk Hal Hrf.
  assert (replayable s d) as Hr.
  { apply (launchpad_replayable (ClaimAllocation a) s ctx d Hw); [|done]. simpl. rewrite Hal, Hrf. done. }
  unfold apply_claim_allocation in Hd. rewrite Hal, Hrf in Hd. fold id in Hd. destruct (negb _); [done|].
  destruct (credit s StateDelta_default _ _) as [d0| |] eqn:Hc; try done. simpl in Hd.
  unfold effective_launchpad_position in Hd.
  rewrite effective_same, Hp in Hd by (by apply credit_positions in Hc). simpl in Hd. rewrite Hk in Hd.
  injection Hd as <-.
  destruct (credit_settles _ _ s _ _ _ Hw (replayable_default s) eq_refl Ha Hc)
    as (s0 & Hs0 & Hbal & _ & Hpos).
  pose proof (proj2 (find_first_Some _ _ _ Hp)) as Hid. apply bool_decide_eq_true in Hid.
  set (p' := po_touch p _ _) in *.
  destruct (update_settles s d0 s0 p p') as (s1 & Hs1 & Hf & Ht & _);
    [by rewrite (credit_gas _ _ _ _ _ Hc)|done|simpl; by rewrite Hid, Hpos|].
  exists s1. split; [done|]. split; [by eapply replayable_wf|]. split; [by eapply credit_signed|].
  rewrite (fungible_balance_tokens s1 s0 _ Ht). split; [done|]. simpl in Hf. by rewrite Hid in Hf.
Qed.

(** An allocation with a vesting window is paid twice: claiming it credits the whole
    allocation to the wallet at once and records nothing as claimed, and every vested claim
    afterwards credits its slice again. After one vested claim of [x] the wallet is richer by
    the allocation plus [x] while the position records [x] claimed. *)
Theorem vested_allocation_paid_twice a v s ctx ctx' d p alloc token amount x :
  let id := launchpad_position_id (pr_name (cl_platform a)) (cl_sale_id a) (cl_recipient a) in
  let key := tr_key token in
  let claimable := lf_value (cvi_claimable_now (cv_live_inputs v)) in
  wf_state s -> 0 <= amount -> apply_claim_allocation a s ctx = Ok d ->
  find_first (po_has_id id) (ws_positions s) = Some p -> po_kind p = PkLaunchpadAllocation alloc ->
  has_vest_window (la_vest alloc) = true ->
  lf_value (cli_allocated (cl_live_inputs a)) = (token, amount) ->
  lf_value (cli_refund_due (cl_live_inputs a)) = 0 ->
  cv_position_id v = id -> default claimable (cv_amount v) = x -> 0 < x <= claimable ->
  la_claimed alloc + x <= U256_MAX -> fungible_balance s key + amount + x <= I256_MAX ->
  exists s1 d' s2 alloc2, apply_delta s d = Ok s1 /\ apply_claim_vested v s1 ctx' = Ok d' /\
    apply_delta s1 d' = Ok s2 /\ fungible_balance s2 key = fungible_balance s key + amount + x /\
    allocation_at s2 id = Some alloc2 /\ la_claimed alloc2 = la_claimed alloc + x.
Proof.
  intros id key claimable Hw Ha Hd Hp Hk Hv Hal Hrf Hid Hreq Hx Hcl Hsum.
  destruct (claim_allocation_applies a s ctx d p alloc token amount Hw Ha Hd Hp Hk Hal Hrf)
    as (s1 & Hs1 & Hw1 & (b & Hb) & Hbal & Hf). fold id in Hf. fold key in Hbal.
  pose proof (launchpad_action_gas (ClaimAllocation a) _ _ _ Hd) as Hg.
  destruct (credit_after s d s1 key b x Hg Hs1 Hb) as [dc Hc].
  set (p1 := po_touch p _ _) in Hf. assert (0 <= x) as Hx0 by lia.
  pose proof (proj2 (find_first_Some _ _ _ Hf)) as Hidp. apply bool_decide_eq_true in Hidp.
  eexists s1, _. unfold apply_claim_vested, effective_launchpad_position. fold claimable.
  rewrite Hid, Hreq, effective_same, Hf by done. simpl. rewrite (proj2 (Z.ltb_ge _ _)) by lia.
  rewrite (proj2 (Z.eqb_neq x 0)) by lia. unfold claimed_allocation. rewrite Hv. simpl. fold key.
  rewrite Hc. simpl. rewrite checked_add_ok by lia. simpl. set (p2 := po_touch p1 _ _).
  destruct (credit_settles _ _ s1 _ _ _ Hw1 (replayable_default s1) eq_refl Hx0 Hc)
    as (s1' & Hs1' & Hbal' & _ & Hpos').
  destruct (update_settles s1 dc s1' p1 p2) as (s2 & Hs2 & Hf2 & Ht2 & _);
    [by rewrite (credit_gas _ _ _ _ _ Hc)|done|simpl; simpl in Hidp; by rewrite Hidp, Hpos'|].
  eexists s2, _. split; [done|]. split; [reflexivity|]. split; [exact Hs2|].
  rewrite (fungible_balance_tokens s2 s1' key Ht2). unfold allocation_at. simpl in Hf2, Hidp.
  rewrite Hidp in Hf2. rewrite Hf2. simpl. split; [|split; [reflexivity|done]].
  rewrite Hbal'; rewrite Hbal by lia; lia.
Qed.
End Laws.
End Reducers.

(** ** Witnesses *)
Definition demo_sale : SaleState :=
  mkSaleState true 5000 (Some 1000000) None (1690000000, 1710000000)
    (Some (mkVestSchedule 1700000000 None (Some 1800000000) CurveLinear 0)).
Definition demo_commit : CommitAction :=
  mkCommitAction (ProtocolRef_new "buidlpad") "sale-7" (mkTokenRef usdc_key) 2500 demo_addr
    (mkCommitLiveInputs (demo_live demo_sale) (demo_live 100000) (demo_live 0) (demo_live None)).
Definition demo_commit_delta : StateDelta :=
  match apply_commit (S0 := demo_serde) demo_commit demo_wallet demo_ctx with
  | Ok d => d | _ => StateDelta_default end.
Definition demo_committed : WalletState := demo_after demo_wallet demo_commit_delta.
Definition demo_withdraw_commit : WithdrawCommitAction :=
  mkWithdrawCommitAction (ProtocolRef_new "buidlpad") "sale-7" None
    (mkWithdrawCommitLiveInputs (demo_live 2500) (demo_live demo_sale)).
Definition demo_claim_allocation : ClaimAllocationAction :=
  mkClaimAllocationAction (ProtocolRef_new "buidlpad") "sale-7" demo_addr
    (mkClaimAllocationLiveInputs (demo_live (mkTokenRef weth_key, 900)) (demo_live 0) (demo_live true)).
Definition demo_claim_vested : ClaimVestedAction :=
  mkClaimVestedAction (launchpad_position_id "buidlpad" "sale-7" demo_addr) None
    (mkClaimVestedLiveInputs (demo_live 300) (demo_live None)).
Definition demo_allocation_delta : StateDelta :=
  match apply_claim_allocation (S0 := demo_serde) demo_claim_allocation demo_committed demo_ctx with
  | Ok d => d | _ => StateDelta_default end.

Lemma commit_exact_witness :
  exists s', apply_delta (H := demo_serde) demo_wallet demo_commit_delta = Ok s' /\
    fungible_balance s' usdc_key = fungible_balance demo_wallet usdc_key - 2500.
Proof.
  destruct (commit_exact (S0 := demo_serde) demo_commit demo_wallet demo_ctx demo_commit_delta)
    as (_ & _ & _ & _ & s' & alloc & Hs & _ & _ & Hb & _).
  - vm_compute. split; discriminate.
  - vm_compute. reflexivity.
  - exists s'. split; [exact Hs|]. apply Hb. vm_compute. discriminate.
Defined.

Lemma commit_withdraw_round_trip_witness :
  exists d' s2, apply_withdraw_commit (S0 := demo_serde) demo_withdraw_commit demo_committed demo_ctx = Ok d' /\
    apply_delta (H := demo_serde) demo_committed d' = Ok s2 /\ ws_positions s2 = ws_positions demo_wallet.
Proof.
  destruct (commit_withdraw_round_trip (S0 := demo_serde) demo_commit demo_withdraw_commit demo_wallet
    demo_ctx demo_ctx demo_commit_delta demo_committed) as (d' & s2 & H1 & H2 & H3 & _).
  - decide_now.
  - vm_compute. split; [reflexivity|discriminate].
  - vm_compute. discriminate.
  - reflexivity.
  - vm_compute. reflexivity.
  - vm_compute. reflexivity.
  - runs_ok.
  - reflexivity.
  - reflexivity.
  - reflexivity.
  - reflexivity.
  - vm_compute. discriminate.
  - exists d', s2. split; [exact H1|]. split; [exact H2|exact H3].
Defined.

Lemma vested_allocation_paid_twice_witness :
  exists s1 d' s2, apply_delta (H := demo_serde) demo_committed demo_allocation_delta = Ok s1 /\
    apply_claim_vested (S0 := demo_serde) demo_claim_vested s1 demo_ctx = Ok d' /\
    apply_delta (H := demo_serde) s1 d' = Ok s2 /\
    fungible_balance s2 weth_key = fungible_balance demo_committed weth_key + 900 + 300.
Proof.
  destruct (vested_allocation_paid_twice (S0 := demo_serde) demo_claim_allocation demo_claim_vested
    demo_committed demo_ctx demo_ctx demo_allocation_delta (commit_position demo_commit demo_ctx)
    (mkLaunchpadAllocation (ProtocolRef_new "buidlpad") "sale-7" [(mkTokenRef usdc_key, 2500)]
       (mkTokenRef usdc_key, 0) (mkVestSchedule 1700000000 None (Some 1800000000) CurveLinear 0) 0 0)
    (mkTokenRef weth_key) 900 300) as (s1 & d' & s2 & alloc2 & H1 & H2 & H3 & H4 & _).
  - decide_now.
  - discriminate.
  - vm_compute. reflexivity.
  - vm_compute. reflexivity.
  - reflexivity.
  - reflexivity.
  - reflexivity.
  - reflexivity.
  - reflexivity.
  - reflexivity.
  - vm_compute. split; [reflexivity|discriminate].
  - vm_compute. discriminate.
  - vm_compute. discriminate.
  - exists s1, d', s2. split; [exact H1|]. split; [exact H2|]. split; [exact H3|exact H4].
Defined.
End Launchpad.
