(* ===== verification/Hyperliquid.v ===== *)
(** * Hyperliquid reducers

    crates/asset-model/action/src/hyperliquid_core and
    crates/asset-model/transition/src/effect/hyperliquid_core: withdrawals and
    USDC transfers are recorded against the wallet's single off-chain account;
    the other actions carry no delta. *)
From stdpp Require Import base tactics numbers list strings gmap.
From S2P Require Import Prelude Types Positions Wallet Serde Fixtures Delta BalanceOps PositionOps Replay.
From S2P Require Import Derived.

Module Hyperliquid.

(** ** Actions *)

Record HlCoreLimitOrderAction := mkHlCoreLimitOrderAction {
  hcloa_asset : Z;
  hcloa_is_buy : bool;
  hcloa_limit_px : string;
  hcloa_sz : string;
  hcloa_reduce_only : bool;
  hcloa_encoded_tif : Z;
  hcloa_cloid : string;
}.
Record HlWithdrawAction := mkHlWithdrawAction {
  hwa_destination : Address;
  hwa_amount : DecimalStr;
}.
Record HlUsdSendAction := mkHlUsdSendAction {
  husa_destination : Address;
  husa_amount : DecimalStr;
}.
Record HlSpotSendAction := mkHlSpotSendAction {
  hssa_destination : Address;
  hssa_token : string;
  hssa_amount : DecimalStr;
}.
Record HlUsdClassTransferAction := mkHlUsdClassTransferAction {
  hucta_amount : DecimalStr;
  hucta_to_perp : bool;
}.
Record HlSendAssetAction := mkHlSendAssetAction {
  hsaa_destination : Address;
  hsaa_source_dex : string;
  hsaa_destination_dex : string;
  hsaa_token : string;
  hsaa_amount : DecimalStr;
}.
Record HlSendToEvmWithDataAction := mkHlSendToEvmWithDataAction {
  hstewda_token : string;
  hstewda_amount : DecimalStr;
  hstewda_source_dex : string;
  hstewda_destination_recipient : Address;
  hstewda_data : string;
}.
Record HlCDepositAction := mkHlCDepositAction {
  hcda_wei : DecimalStr;
}.
Record HlCWithdrawAction := mkHlCWithdrawAction {
  hcwa_wei : DecimalStr;
}.
Record HlVaultTransferAction := mkHlVaultTransferAction {
  hvta_vault_address : Address;
  hvta_is_deposit : bool;
  hvta_usd : DecimalStr;
}.
Record HlSubAccountTransferAction := mkHlSubAccountTransferAction {
  hsata_sub_account_user : Address;
  hsata_is_deposit : bool;
  hsata_usd : DecimalStr;
}.
Record HlTokenDelegateAction := mkHlTokenDelegateAction {
  htda_validator : Address;
  htda_is_undelegate : bool;
  htda_wei : DecimalStr;
}.
Record HlUnknownAction := mkHlUnknownAction {
  hua_action_type : string;
}.
Inductive HyperliquidCoreAction :=
| CoreLimitOrder (a : HlCoreLimitOrderAction)
| Withdraw (a : HlWithdrawAction)
| UsdSend (a : HlUsdSendAction)
| SpotSend (a : HlSpotSendAction)
| UsdClassTransfer (a : HlUsdClassTransferAction)
| SendAsset (a : HlSendAssetAction)
| SendToEvmWithData (a : HlSendToEvmWithDataAction)
| CDeposit (a : HlCDepositAction)
| CWithdraw (a : HlCWithdrawAction)
| VaultTransfer (a : HlVaultTransferAction)
| SubAccountTransfer (a : HlSubAccountTransferAction)
| TokenDelegate (a : HlTokenDelegateAction)
| Unknown (a : HlUnknownAction).

(** ** Helpers (common.rs) *)

Definition HL_ACCOUNT_ID : PositionId := "hyperliquid/account".

(** [hl_position] *)
Definition hl_position (acct : HlAccount) (now : Time) : Position :=
  mkPosition HL_ACCOUNT_ID (ProtocolRef_new "hyperliquid") None (PkHyperliquidAccount acct) now UserSupplied.

(** [find_hl_account] *)
Fixpoint find_hl_in (positions : list Position) : option HlAccount :=
  match positions with
  | [] => None
  | p :: l =>
      match po_kind p with
      | PkHyperliquidAccount a => if po_has_id HL_ACCOUNT_ID p then Some a else find_hl_in l
      | _ => find_hl_in l
      end
  end.
Definition find_hl_account (state : WalletState) : option HlAccount := find_hl_in (ws_positions state).

(** [a.perp_usdc = ..; a.pending_outflow = ..] *)
Definition hl_set_outflow (a : HlAccount) (usdc : option DecimalStr) (outflow : DecimalStr) : HlAccount :=
  mkHlAccount usdc (hla_perp_account_value_usd a) outflow (hla_positions a) (hla_open_orders a)
    (hla_spot_balances a) (hla_staking a) (hla_vault_equities a) (hla_borrow_lend a)
    (hla_leverage_settings a) (hla_agents a) (hla_equity_baseline a) (hla_equity_hwm a)
    (hla_fill_window a) (hla_cumulative_net_flow a) (hla_ledger_cursor_ms a).

(** [if let PositionKind::HyperliquidAccount(a) = &mut pos.kind { .. }] *)
Definition on_hl (f : HlAccount -> HlAccount) (p : Position) : Position :=
  match po_kind p with
  | PkHyperliquidAccount a => po_set_kind p (PkHyperliquidAccount (f a))
  | _ => p
  end.

Section Reducers.
Context {S0 : PositionSerde} {D0 : RustDecimal}.

(** [decimal_sub_nonneg] *)
Definition decimal_sub_nonneg (lhs rhs : DecimalStr) : ReducerResult DecimalStr :=
  l ← inv "HL decimal parse {:?}: {e}" (dec_from_str lhs);
  r ← inv "HL decimal parse {:?}: {e}" (dec_from_str rhs);
  out ← rd_sub l r;
  if dec_is_sign_negative out then Err (Invariant "HL balance underflow: {lhs} - {rhs} < 0")
  else Ok (dec_to_string out : DecimalStr).

(** [decimal_nonneg] *)
Definition decimal_nonneg (d : DecimalStr) : ReducerResult DecimalStr :=
  v ← inv "HL decimal parse {:?}: {e}" (dec_from_str d);
  if dec_is_sign_negative v then Err (Invariant "HL amount must be non-negative, got {d}")
  else Ok (dec_to_string v : DecimalStr).

(** [decimal_add] *)
Definition decimal_add (lhs rhs : DecimalStr) : ReducerResult DecimalStr :=
  l ← inv "HL decimal parse {:?}: {e}" (dec_from_str lhs);
  r ← inv "HL decimal parse {:?}: {e}" (dec_from_str rhs);
  sum ← rd_add l r;
  Ok (dec_to_string sum : DecimalStr).

(** ** Reducers (withdraw.rs, usd_send.rs, mod.rs) *)

(** The account after an outflow. *)
Definition outflow_account (base : HlAccount) (amount : DecimalStr) : ReducerResult HlAccount :=
  new_usdc ← match hla_perp_usdc base with
             | Some bal => new ← decimal_sub_nonneg bal amount; Ok (Some new)
             | None => Ok None
             end;
  new_outflow ← decimal_add (hla_pending_outflow base) amount;
  Ok (hl_set_outflow base new_usdc new_outflow).

(** [apply_outflow] *)
Definition apply_outflow (amount : DecimalStr) (state : WalletState) (ctx : EvalContext)
    : ReducerResult StateDelta :=
  amount ← decimal_nonneg amount;
  match find_hl_account state with
  | Some base =>
      updated ← outflow_account base amount;
      upsert_hl_account state StateDelta_default HL_ACCOUNT_ID
        (on_hl (fun a => hl_set_outflow a (hla_perp_usdc updated) (hla_pending_outflow updated)))
  | None =>
      open_position state StateDelta_default
        (hl_position (hl_set_outflow HlAccount_default None amount) (cx_now ctx))
  end.

(** [withdraw::apply], [usd_send::apply] *)
Definition apply_hl_withdraw (a : HlWithdrawAction) := apply_outflow (hwa_amount a).
Definition apply_hl_usd_send (a : HlUsdSendAction) := apply_outflow (husa_amount a).

(** [impl Reducer for HyperliquidCoreAction] *)
Definition apply_hyperliquid_action (a : HyperliquidCoreAction) (state : WalletState) (ctx : EvalContext)
    : ReducerResult StateDelta :=
  match a with
  | Withdraw a => apply_hl_withdraw a state ctx
  | UsdSend a => apply_hl_usd_send a state ctx
  | CoreLimitOrder _ | SpotSend _ | UsdClassTransfer _ | SendAsset _ | SendToEvmWithData _
  | CDeposit _ | CWithdraw _ | VaultTransfer _ | SubAccountTransfer _ | TokenDelegate _
  | Unknown _ => Ok StateDelta_default
  end.

(** ** Lemmas *)

Lemma on_hl_id f p : po_id (on_hl f p) = po_id p.
Proof. unfold on_hl. by destruct (po_kind p). Qed.

Lemma hyperliquid_action_gas a s ctx d : apply_hyperliquid_action a s ctx = Ok d -> sd_gas_paid d = None.
Proof.
  destruct a; simpl; try (by intros [= <-]);
    unfold apply_hl_withdraw, apply_hl_usd_send, apply_outflow, upsert_hl_account, open_position;
    intros Hd; run_ok; try done;
    match goal with Hu : upsert_kind _ _ _ _ _ _ _ = Ok _ |- _ =>
      by apply upsert_kind_Ok in Hu as (p & _ & _ & _ & ->) end.
Qed.

Section Laws.
Context {SL : PositionSerdeLaws S0}.

Lemma outflow_replayable amount s ctx d : apply_outflow amount s ctx = Ok d -> replayable s d.
Proof.
  unfold apply_outflow, upsert_hl_account. intros Hd. inv_ok. destruct (find_hl_account s); inv_ok.
  - eapply replayable_upsert; [apply replayable_default| |done]. intros p. apply on_hl_id.
  - by eapply replayable_open; [apply replayable_default|].
Qed.

Lemma hyperliquid_replayable a s ctx d : apply_hyperliquid_action a s ctx = Ok d -> replayable s d.
Proof.
  destruct a; simpl; intros Hd; try (injection Hd as <-; apply replayable_default);
    by eapply outflow_replayable.
Qed.

(** The account is the first position with its identifier, when that one is an
    account. *)
Lemma find_hl_first l p a :
  find_first (po_has_id HL_ACCOUNT_ID) l = Some p -> po_kind p = PkHyperliquidAccount a ->
  find_hl_in l = Some a.
Proof.
  induction l as [|q l IH]; simpl; [done|]. destruct (po_has_id HL_ACCOUNT_ID q).
  - by intros [= ->] ->.
  - intros Hf Hk. destruct (po_kind q); by apply IH.
Qed.

(** ** Properties *)

(** A Hyperliquid outflow (a withdrawal or a USDC transfer) is accepted only for an amount
    that reads as non-negative, and, when a synced balance is known, only when the balance
    covers it. Its delta applies, leaves every token alone, and the account afterwards carries
    the amount added to its pending outflow and subtracted from the synced balance; without an
    account, one is opened with that outflow and no balance. *)
Theorem outflow_exact amount s ctx d :
  apply_outflow amount s ctx = Ok d ->
  exists amt s', decimal_nonneg amount = Ok amt /\ apply_delta s d = Ok s' /\
    ws_tokens s' = ws_tokens s /\
    match find_hl_account s with
    | Some base => exists acct, outflow_account base amt = Ok acct /\ find_hl_account s' = Some acct
    | None => find_hl_account s' = Some (hl_set_outflow HlAccount_default None amt)
    end.
Proof.
  intros Hd. unfold apply_outflow in Hd. destruct (decimal_nonneg amount) as [amt| |]; try done.
  simpl in Hd. exists amt. destruct (find_hl_account s) as [base|] eqn:Hbase.
  - destruct (outflow_account base amt) as [acct| |] eqn:Ho; try done. simpl in Hd.
    unfold upsert_hl_account in Hd. apply upsert_kind_Ok in Hd as (p & Hp & Hk & _ & ->).
    rewrite effective_same in Hp by done. destruct (po_kind p) as [| | | | |a0] eqn:Hkind; try done.
    assert (find_hl_account s = Some a0) as Ha by (by eapply find_hl_first).
    rewrite Hbase in Ha. injection Ha as <-.
    pose proof (proj2 (find_first_Some _ _ _ Hp)) as Hid. apply bool_decide_eq_true in Hid.
    set (p' := on_hl _ p). assert (po_id p' = HL_ACCOUNT_ID) as Hid' by (unfold p'; by rewrite on_hl_id).
    destruct (update_settles s StateDelta_default s p p' eq_refl eq_refl) as (s' & Hs' & Hf & Ht & _).
    { by rewrite Hid'. }
    rewrite Hid' in Hs', Hf. exists s'. split_and!; try done. exists acct. split; [done|].
    eapply find_hl_first; [exact Hf|]. unfold p', on_hl. rewrite Hkind. simpl. f_equal.
    unfold outflow_account in Ho. by run_ok.
  - unfold open_position in Hd. destruct (effective_exists _ _ _) eqn:He; [done|]. injection Hd as <-.
    eexists. split; [done|]. split; [reflexivity|]. split; [done|]. unfold find_hl_account. simpl.
    set (q := hl_position _ _). apply (find_hl_first _ q); [|done]. rewrite find_first_app.
    unfold effective_exists in He. simpl in He. rewrite existsb_find_first in He.
    apply bool_decide_eq_false in He. destruct (find_first _ _) eqn:Hq; [by destruct He|]. simpl.
    done.
Qed.
End Laws.
End Reducers.

(** ** Witness *)
Definition demo_hl_wallet : WalletState :=
  ws_set_positions demo_wallet
    [hl_position (hl_set_outflow HlAccount_default (Some "1000.5") "20") 1700000000].
Definition demo_hl_delta : StateDelta :=
  match apply_outflow (S0 := demo_serde) (D0 := fixed_decimal) "250.25" demo_hl_wallet demo_ctx with
  | Ok d => d | _ => StateDelta_default end.

Lemma outflow_exact_witness :
  exists s', apply_delta (H := demo_serde) demo_hl_wallet demo_hl_delta = Ok s' /\
    find_hl_account s' = Some (hl_set_outflow HlAccount_default (Some "750.250000000") "270.250000000").
Proof.
  destruct (outflow_exact (S0 := demo_serde) (D0 := fixed_decimal) "250.25" demo_hl_wallet demo_ctx
    demo_hl_delta) as (amt & s' & Ha & Hs & _ & acct & Ho & Hf).
  - vm_compute. reflexivity.
  - exists s'. split; [exact Hs|]. vm_compute in Ha. injection Ha as <-. vm_compute in Ho.
    injection Ho as <-. exact Hf.
Defined.
End Hyperliquid.
