(* ===== verification/PerpMath.v ===== *)
(** * Perpetuals: actions and arithmetic

    crates/asset-model/action/src/perp, and
    crates/asset-model/transition/src/effect/perp/{common,math}.rs with the
    per-venue files that delegate to them. *)
From stdpp Require Import base tactics numbers list strings gmap.
From S2P Require Import Prelude Types Positions Wallet Derived.

Module Perp.

(** ** Actions *)

Record PerpPositionLive := mkPerpPositionLive {
  ppl_size_base : U256;
  ppl_notional_usd : U256;
  ppl_entry_price : Price;
  ppl_mark_price : Price;
  ppl_liq_price : option Price;
  ppl_unrealized_pnl : SignedI256;
}.
Record AdjustMarginLiveInputs := mkAdjustMarginLiveInputs {
  ami_position_state : LiveField PerpPositionLive;
  ami_free_margin_after : LiveField U256;
}.
Inductive PerpVenue :=
| Hyperliquid (chain : ChainId)
| GmxV2 (chain : ChainId)
| DyDxV4 (chain : ChainId)
| Vertex (chain : ChainId)
| Aevo (chain : ChainId)
| Drift (chain : ChainId)
| JupiterPerps (chain : ChainId)
| Synthetix (chain : ChainId)
| Generic (chain : ChainId) (contract : Address).
Record AdjustMarginAction := mkAdjustMarginAction {
  am_venue : PerpVenue;
  am_position_id : option PositionId;
  am_market : option MarketRef;
  am_side : option PerpSide;
  am_delta : SignedI256;
  am_live_inputs : option AdjustMarginLiveInputs;
}.
Record PerpCancelOrderAction := mkPerpCancelOrderAction {
  pco_venue : PerpVenue;
  pco_order_id : string;
}.
Record ChangeLeverageLiveInputs := mkChangeLeverageLiveInputs {
  chli_max_leverage : LiveField DecimalStr;
  chli_affected_positions : LiveField (list PositionId);
  chli_new_liq_prices : LiveField (list (PositionId * (option Price)));
}.
Record ChangeLeverageAction := mkChangeLeverageAction {
  chl_venue : PerpVenue;
  chl_market : MarketRef;
  chl_new_leverage : DecimalStr;
  chl_live_inputs : option ChangeLeverageLiveInputs;
}.
Record ChangeMarginModeLiveInputs := mkChangeMarginModeLiveInputs {
  cmmi_affected_positions : LiveField (list PositionId);
  cmmi_margin_reallocation : LiveField (list (PositionId * U256));
}.
Record ChangeMarginModeAction := mkChangeMarginModeAction {
  cmm_venue : PerpVenue;
  cmm_market : MarketRef;
  cmm_new_mode : MarginMode;
  cmm_live_inputs : ChangeMarginModeLiveInputs;
}.
Record ClaimFundingLiveInputs := mkClaimFundingLiveInputs {
  cfui_claimable : LiveField (list (TokenRef * U256));
}.
Record ClaimFundingAction := mkClaimFundingAction {
  cfu_venue : PerpVenue;
  cfu_market : option MarketRef;
  cfu_live_inputs : ClaimFundingLiveInputs;
}.
Record ClosePerpLiveInputs := mkClosePerpLiveInputs {
  cpi_mark_price : LiveField Price;
  cpi_unrealized_pnl_now : LiveField SignedI256;
  cpi_funding_accrued : LiveField SignedI256;
  cpi_fee_bp : LiveField Z;
}.
Inductive SizeSpec :=
| BaseAmount (amount : U256)
| QuoteAmount (amount_usd : U256)
| LeverageImplied (collateral : U256) (leverage : DecimalStr)
| BaseDecimal (amount : DecimalStr).
Record ClosePerpAction := mkClosePerpAction {
  cp_venue : PerpVenue;
  cp_position_id : PositionId;
  cp_size : option SizeSpec;
  cp_slippage_bp : Z;
  cp_live_inputs : ClosePerpLiveInputs;
}.
Record DecreasePerpAction := mkDecreasePerpAction {
  dp_venue : PerpVenue;
  dp_position_id : PositionId;
  dp_size : SizeSpec;
  dp_slippage_bp : Z;
  dp_live_inputs : ClosePerpLiveInputs;
}.
Record PerpAccountState := mkPerpAccountState {
  pas_total_collateral_usd : U256;
  pas_used_margin_usd : U256;
  pas_free_margin_usd : U256;
  pas_open_positions : list (MarketRef * U256);
}.
Record OpenPerpLiveInputs := mkOpenPerpLiveInputs {
  opi_mark_price : LiveField Price;
  opi_oracle_price : LiveField Price;
  opi_funding_rate : LiveField DecimalStr;
  opi_available_oi : LiveField U256;
  opi_max_leverage : LiveField DecimalStr;
  opi_initial_margin_bp : LiveField Z;
  opi_maintenance_bp : LiveField Z;
  opi_fee_taker_bp : LiveField Z;
  opi_fee_maker_bp : LiveField Z;
  opi_user_account_state : LiveField PerpAccountState;
}.
Record IncreasePerpAction := mkIncreasePerpAction {
  ip_venue : PerpVenue;
  ip_position_id : PositionId;
  ip_size : SizeSpec;
  ip_add_collateral : option (TokenRef * U256);
  ip_slippage_bp : Z;
  ip_live_inputs : OpenPerpLiveInputs;
}.
Record OpenPerpAction := mkOpenPerpAction {
  op_venue : PerpVenue;
  op_market : MarketRef;
  op_side : PerpSide;
  op_size : SizeSpec;
  op_leverage : DecimalStr;
  op_collateral : (TokenRef * U256);
  op_margin_mode : MarginMode;
  op_slippage_bp : Z;
  op_reduce_only : bool;
  op_live_inputs : OpenPerpLiveInputs;
}.
Inductive TimeInForce :=
| Gtc
| Ioc
| Fok
| PostOnly
| Gtd (until : Time).
Inductive StopOrderKind :=
| StopStopMarket | StopStopLimit | StopTakeProfit | StopTakeProfitLimit.
Inductive OrderType :=
| OrderLimit (price : Price) (time_in_force : TimeInForce)
| OrderStop (trigger_price : Price) (order_kind : StopOrderKind) (limit_price : option Price)
| OrderTwap (duration_minutes : Z) (randomize : bool).
Record PlaceOrderLiveInputs := mkPlaceOrderLiveInputs {
  ploi_mark_price : LiveField Price;
  ploi_best_bid_ask : LiveField (Price * Price);
  ploi_open_orders_count : LiveField Z;
  ploi_user_account_state : LiveField PerpAccountState;
}.
Record PlaceOrderAction := mkPlaceOrderAction {
  plo_venue : PerpVenue;
  plo_market : MarketRef;
  plo_side : PerpSide;
  plo_size : SizeSpec;
  plo_reduce_only : bool;
  plo_order_type : OrderType;
  plo_live_inputs : option PlaceOrderLiveInputs;
}.
Inductive PerpAction :=
| OpenPosition (a : OpenPerpAction)
| ClosePosition (a : ClosePerpAction)
| IncreasePosition (a : IncreasePerpAction)
| DecreasePosition (a : DecreasePerpAction)
| AdjustMargin (a : AdjustMarginAction)
| ChangeLeverage (a : ChangeLeverageAction)
| ChangeMarginMode (a : ChangeMarginModeAction)
| PlaceOrder (a : PlaceOrderAction)
| CancelOrder (a : PerpCancelOrderAction)
| ClaimFunding (a : ClaimFundingAction).

(** ** Venues (common.rs) *)

(** [venue_tag] *)
Definition perp_venue_tag (venue : PerpVenue) : string :=
  match venue with
  | Hyperliquid _ => "hyperliquid"
  | GmxV2 _ => "gmx_v2"
  | DyDxV4 _ => "dydx_v4"
  | Vertex _ => "vertex"
  | Aevo _ => "aevo"
  | Drift _ => "drift"
  | JupiterPerps _ => "jupiter_perps"
  | Synthetix _ => "synthetix"
  | Generic _ _ => "generic_perp"
  end.

(** [venue_ref] *)
Definition perp_venue_ref (venue : PerpVenue) : VenueRef :=
  let chain :=
    match venue with
    | Hyperliquid chain | GmxV2 chain | DyDxV4 chain | Vertex chain | Aevo chain | Drift chain
    | JupiterPerps chain | Synthetix chain | Generic chain _ => Some chain
    end in
  mkVenueRef (perp_venue_tag venue) chain.

(** [is_orderbook_venue] *)
Definition is_orderbook_venue (venue : PerpVenue) : bool :=
  match venue with Hyperliquid _ | Aevo _ | DyDxV4 _ => true | _ => false end.

(** [side_tag] *)
Definition side_tag (side : PerpSide) : string :=
  match side with Long => "long" | Short => "short" end.

(** [synth_position_id] *)
Definition synth_position_id (venue : PerpVenue) (market : string) (side : PerpSide) : string :=
  (perp_venue_tag venue +:+ ":" +:+ market +:+ ":" +:+ side_tag side)%string.

(** [pending_id_for_limit_order] *)
Definition pending_id_for_limit_order (venue : PerpVenue) (market : string) (side : PerpSide)
    (price : Price) : string :=
  ("limit:" +:+ perp_venue_tag venue +:+ ":" +:+ market +:+ ":" +:+ side_tag side +:+ ":" +:+ price)%string.

(** [pending_id_for_stop_order] *)
Definition pending_id_for_stop_order (venue : PerpVenue) (market : string) (side : PerpSide)
    (kind : StopOrderKind) (trigger : Price) : string :=
  let kind_s :=
    match kind with
    | StopStopMarket => "stop_market"
    | StopStopLimit => "stop_limit"
    | StopTakeProfit => "take_profit"
    | StopTakeProfitLimit => "take_profit_limit"
    end in
  (kind_s +:+ ":" +:+ perp_venue_tag venue +:+ ":" +:+ market +:+ ":" +:+ side_tag side +:+ ":" +:+ trigger)%string.

(** [pending_id_for_twap_order] *)
Definition pending_id_for_twap_order (venue : PerpVenue) (market : string) (side : PerpSide)
    (duration_minutes : Z) : string :=
  ("twap:" +:+ perp_venue_tag venue +:+ ":" +:+ market +:+ ":" +:+ side_tag side +:+ ":" +:+
   fmt_dec duration_minutes)%string.

(** [perp_order_kind_from_stop] *)
Definition perp_order_kind_from_stop (kind : StopOrderKind) : PerpOrderKind :=
  match kind with
  | StopStopMarket => StopMarket
  | StopStopLimit | StopTakeProfitLimit => StopLimit
  | StopTakeProfit => TakeProfit
  end.

(** ** Arithmetic (math.rs) *)

Section Math.
Context {D0 : RustDecimal}.

(** [decimal_trunc_to_signed] *)
Definition decimal_trunc_to_signed (d : dec) : ReducerResult SignedI256 :=
  inv "decimal {s} overflows SignedI256: {e}" (dec_to_i256 (dec_trunc d)).

(** [decimal_trunc_to_u256] *)
Definition decimal_trunc_to_u256 (d : dec) (label : string) : ReducerResult U256 :=
  if dec_is_sign_negative d then Err (Invariant (label +:+ ": expected non-negative, got {d}")%string)
  else inv (label +:+ ": U256 parse of {s} failed: {e}")%string (dec_to_u256 (dec_trunc d)).

(** [resolve_size_base] *)
Definition resolve_size_base (spec : SizeSpec) (mark : Price) : ReducerResult U256 :=
  match spec with
  | BaseAmount amount => Ok amount
  | QuoteAmount amount_usd =>
      mark_d ← parse_decimal mark;
      if dec_is_zero mark_d then Err (Invariant "resolve_size_base: mark price is zero")
      else
        usd ← u256_to_decimal amount_usd;
        q ← rd_div usd mark_d;
        decimal_trunc_to_u256 q "size_base from QuoteAmount"
  | LeverageImplied collateral leverage =>
      mark_d ← parse_decimal mark;
      if dec_is_zero mark_d then Err (Invariant "resolve_size_base: mark price is zero")
      else
        coll ← u256_to_decimal collateral;
        lev ← parse_decimal leverage;
        x ← rd_mul coll lev;
        q ← rd_div x mark_d;
        decimal_trunc_to_u256 q "size_base from LeverageImplied"
  | BaseDecimal _ =>
      Err (Invariant "resolve_size_base: BaseDecimal size is off-chain-only (no on-chain reducer support)")
  end.

(** [notional_usd] *)
Definition notional_usd (size_base : U256) (mark : Price) : ReducerResult dec :=
  mark_d ← parse_decimal mark;
  size ← u256_to_decimal size_base;
  rd_mul size mark_d.

(** [required_initial_margin_common] *)
Definition required_initial_margin_common (venue_label : string) (action : OpenPerpAction)
    (live : OpenPerpLiveInputs) : ReducerResult U256 :=
  mark ← parse_decimal (lf_value (opi_mark_price live));
  if dec_is_zero mark then Err (Invariant (venue_label +:+ ": mark price is zero")%string)
  else
    leverage ← parse_decimal (op_leverage action);
    if dec_is_zero leverage then Err (Invariant (venue_label +:+ ": leverage is zero")%string)
    else
      max_lev ← parse_decimal (lf_value (opi_max_leverage live));
      if negb (dec_is_zero max_lev) && dec_ltb max_lev leverage then
        Err (Invariant (venue_label +:+ ": leverage {leverage} exceeds venue max {max_lev}")%string)
      else
        size_base ← resolve_size_base (op_size action) (lf_value (opi_mark_price live));
        size ← u256_to_decimal size_base;
        notional ← rd_mul size mark;
        let fee_taker := dec_of_u32 (lf_value (opi_fee_taker_bp live)) in
        let bp_denom := dec_of_u32 10000 in
        base ← rd_div notional leverage;
        fees ← rd_mul fee_taker notional;
        fee ← rd_div fees bp_denom;
        margin ← rd_add base fee;
        decimal_trunc_to_u256 margin (venue_label +:+ "::required_initial_margin")%string.

(** [liquidation_price_simple] *)
Definition liquidation_price_simple (venue_label : string) (action : OpenPerpAction)
    (live : OpenPerpLiveInputs) : ReducerResult (option Price) :=
  size_base ← resolve_size_base (op_size action) (lf_value (opi_mark_price live));
  if size_base =? 0 then Ok None
  else
    mark ← parse_decimal (lf_value (opi_mark_price live));
    size ← u256_to_decimal size_base;
    notional ← rd_mul size mark;
    x ← rd_mul notional (dec_of_u32 (lf_value (opi_maintenance_bp live)));
    maintenance ← rd_div x (dec_of_u32 10000);
    free_margin ← u256_to_decimal (pas_free_margin_usd (lf_value (opi_user_account_state live)));
    if dec_is_zero size then
      Err (Invariant (venue_label +:+ ": size_base resolved to zero (post-quote-check)")%string)
    else
      y ← rd_sub free_margin maintenance;
      buffer ← rd_div y size;
      liq ← (match op_side action with Long => rd_sub mark buffer | Short => rd_add mark buffer end
             : ReducerResult dec);
      let liq := if dec_is_sign_negative liq then dec_zero else liq in
      Ok (Some (decimal_to_state liq : Price)).

(** [liquidation_price_deferred] *)
Definition liquidation_price_deferred (venue_label : string) : ReducerResult (option Price) :=
  Err (UnsupportedProtocol "open_perp.liquidation_price"
         (venue_label +:+ " — deferred (requires venue subgraph state)")%string).

(** [unrealized_pnl_common] *)
Definition unrealized_pnl_common (size_base : U256) (entry mark : Price) (is_long : bool)
    : ReducerResult SignedI256 :=
  entry_d ← parse_decimal entry;
  mark_d ← parse_decimal mark;
  size ← u256_to_decimal size_base;
  diff ← if is_long then rd_sub mark_d entry_d else rd_sub entry_d mark_d;
  pnl ← rd_mul size diff;
  decimal_trunc_to_signed pnl.

(** [funding_accrued_common] *)
Definition funding_accrued_common (size_base : U256) (funding_rate : DecimalStr) (hours_elapsed : Z)
    : ReducerResult SignedI256 :=
  rate ← parse_decimal funding_rate;
  size ← u256_to_decimal size_base;
  x ← rd_mul size rate;
  y ← rd_mul x (dec_of_u32 hours_elapsed);
  z ← rd_div y (dec_of_u32 24);
  decimal_trunc_to_signed z.

(** [dispatch_required_initial_margin]: every venue file delegates to the
    common formula under its own label. *)
Definition dispatch_required_initial_margin (action : OpenPerpAction) : ReducerResult U256 :=
  required_initial_margin_common (perp_venue_tag (op_venue action)) action (op_live_inputs action).

(** [dispatch_liquidation_price] *)
Definition dispatch_liquidation_price (action : OpenPerpAction) : ReducerResult (option Price) :=
  let label := perp_venue_tag (op_venue action) in
  match op_venue action with
  | GmxV2 _ | JupiterPerps _ | Synthetix _ => liquidation_price_deferred label
  | _ => liquidation_price_simple label action (op_live_inputs action)
  end.
End Math.
End Perp.
