(* ===== verification/PerpEffect.v ===== *)
(** * Perpetuals: reducers

    crates/asset-model/transition/src/effect/perp/*.rs: opening, resizing,
    closing and re-margining perpetual positions, and the orders placed on
    order-book venues. *)
From stdpp Require Import base tactics numbers list strings gmap.
From S2P Require Import Prelude Types Positions Wallet Serde Fixtures Delta BalanceOps PositionOps Replay.
From S2P Require Import Derived LendingLedger PerpMath.

Module PerpEffect.
Import Perp.

(** ** Helpers *)

(** [s.contains(pat)] *)
Definition str_contains (pat s : string) : bool :=
  match String.index 0 pat s with Some _ => true | None => false end.

(** [SignedI256::checked_sub], [checked_add] *)
Definition i256_check (z : Z) : option Z :=
  if (I256_MIN <=? z) && (z <=? I256_MAX) then Some z else None.
Definition i256_checked_sub (a b : Z) : option Z := i256_check (a - b).
Definition i256_checked_add (a b : Z) : option Z := i256_check (a + b).

Definition pp_resize (p : PerpPosition) (size notional : U256) (entry : Price)
    (collateral : list (TokenRef * U256)) : PerpPosition :=
  mkPerpPosition (pp_venue p) (pp_market p) (pp_side p) size notional collateral entry
    (pp_margin_mode p) (pp_mark_price p) (pp_liq_price p) (pp_unrealized_pnl p) (pp_funding_owed p)
    (pp_leverage p).
Definition pp_set_collateral (p : PerpPosition) (collateral : list (TokenRef * U256)) : PerpPosition :=
  pp_resize p (pp_size_base p) (pp_notional_usd p) (pp_entry_price p) collateral.
Definition pp_set_leverage (p : PerpPosition) (lev : LiveField DecimalStr)
    (liq : LiveField (option Price)) : PerpPosition :=
  mkPerpPosition (pp_venue p) (pp_market p) (pp_side p) (pp_size_base p) (pp_notional_usd p)
    (pp_collateral p) (pp_entry_price p) (pp_margin_mode p) (pp_mark_price p) liq
    (pp_unrealized_pnl p) (pp_funding_owed p) lev.
Definition pp_set_mode (p : PerpPosition) (mode : MarginMode)
    (collateral : list (TokenRef * U256)) : PerpPosition :=
  mkPerpPosition (pp_venue p) (pp_market p) (pp_side p) (pp_size_base p) (pp_notional_usd p)
    collateral (pp_entry_price p) mode (pp_mark_price p) (pp_liq_price p) (pp_unrealized_pnl p)
    (pp_funding_owed p) (pp_leverage p).

(** [if let PositionKind::PerpPosition(pp) = &mut p.kind { .. }] *)
Definition on_perp (f : PerpPosition -> PerpPosition) (p : Position) : Position :=
  match po_kind p with
  | PkPerpPosition pp => po_set_kind p (PkPerpPosition (f pp))
  | _ => p
  end.

(** [state.positions.iter().find(..)] and the [let .. else] on its kind. *)
Definition find_perp (state : WalletState) (id : PositionId) (not_perp : string)
    : ReducerResult PerpPosition :=
  position ← ok_or (PositionNotFound id) (find_first (po_has_id id) (ws_positions state));
  match po_kind position with
  | PkPerpPosition perp => Ok perp
  | _ => Err (Invariant not_perp)
  end.

(** The cash settlement of a close or a decrease: a credit of a gain, a debit of
    a loss. *)
Definition settle_cash (state : WalletState) (delta : StateDelta) (key : TokenKey) (cash : SignedI256)
    : ReducerResult StateDelta :=
  if 0 <? cash then credit state delta key cash
  else if cash <? 0 then debit state delta key (Z.abs cash)
  else Ok delta.

(** The pending transaction of an order. *)
Definition order_pending (id : PendingId) (kind : PendingKind) (commitment : AssetCommitment)
    (fill_effect : StateDelta) (valid_until : option Time) (now : Time) : PendingTx :=
  {| pt_id := id; pt_kind := kind; pt_commitment := commitment; pt_fill_effect := fill_effect;
     pt_lifecycle := mkPendingLifecycle Active valid_until None None None;
     pt_sync := UserSupplied; pt_signed_at := now; pt_signature_payload := [] |}.

Section Reducers.
Context {S0 : PositionSerde} {D0 : RustDecimal}.

(** ** Open (open.rs) *)

(** A price whose formula is deferred is recorded as unknown. *)
Definition open_liq_price (a : OpenPerpAction) : ReducerResult (option Price) :=
  match dispatch_liquidation_price a with
  | Ok p => Ok p
  | Err (UnsupportedProtocol action protocol) =>
      if str_contains "deferred" protocol then Ok None else Err (UnsupportedProtocol action protocol)
  | Err e => Err e
  | Panic => Panic
  end.

(** The position an open creates. *)
Definition opened_position (a : OpenPerpAction) (size_base notional : U256) (liq_price : option Price)
    (now : Time) : Position :=
  let mark := opi_mark_price (op_live_inputs a) in
  {| po_id := synth_position_id (op_venue a) (mr_symbol (op_market a)) (op_side a);
     po_protocol := ProtocolRef_new (perp_venue_tag (op_venue a));
     po_chain := None;
     po_kind := PkPerpPosition
       {| pp_venue := perp_venue_ref (op_venue a);
          pp_market := op_market a;
          pp_side := op_side a;
          pp_size_base := size_base;
          pp_notional_usd := notional;
          pp_collateral := [op_collateral a];
          pp_entry_price := lf_value mark;
          pp_margin_mode := op_margin_mode a;
          pp_mark_price := LiveField_new (lf_value mark) (lf_source mark) now;
          pp_liq_price := LiveField_new liq_price UserSupplied now;
          pp_unrealized_pnl := LiveField_new 0 UserSupplied now;
          pp_funding_owed := LiveField_new 0 UserSupplied now;
          pp_leverage := LiveField_new (op_leverage a) UserSupplied now |};
     po_primitives_synced_at := now;
     po_primitives_source := UserSupplied |}.

(** The order an open on an order-book venue records. *)
Definition open_pending (a : OpenPerpAction) (size_base required_margin : U256) (position : Position)
    (now : Time) : PendingTx :=
  order_pending (perp_venue_tag (op_venue a) +:+ ":open:" +:+ po_id position)%string
    (PerpVenueOrder (perp_venue_ref (op_venue a)) (op_market a) (op_side a) size_base
       (lf_value (opi_mark_price (op_live_inputs a))) PerpLimit (op_reduce_only a))
    (HardLock ((op_collateral a).1) required_margin)
    (push_position StateDelta_default (Open position)) None now.

(** [impl Reducer for OpenPerpAction] *)
Definition apply_open_perp (a : OpenPerpAction) (state : WalletState) (ctx : EvalContext)
    : ReducerResult StateDelta :=
  let li := op_live_inputs a in
  required_margin ← dispatch_required_initial_margin a;
  let free_margin := pas_free_margin_usd (lf_value (opi_user_account_state li)) in
  if free_margin <? required_margin then
    Err (Invariant "open_perp: free_margin_usd {free_margin} < required_margin {required_margin}")
  else
    size_base ← resolve_size_base (op_size a) (lf_value (opi_mark_price li));
    if lf_value (opi_available_oi li) <? size_base then
      Err (Invariant "open_perp: available_oi {} < size_base {size_base}")
    else
      liq_price ← open_liq_price a;
      let '(collateral_token, collateral_amount) := op_collateral a in
      delta ← if negb (is_orderbook_venue (op_venue a))
              then debit state StateDelta_default (tr_key collateral_token) collateral_amount
              else Ok StateDelta_default;
      notional_decimal ← notional_usd size_base (lf_value (opi_mark_price li));
      notional ← inv "open_perp: notional_usd U256 parse: {e}" (dec_to_u256 (dec_trunc notional_decimal));
      let position := opened_position a size_base notional liq_price (cx_now ctx) in
      if is_orderbook_venue (op_venue a) then
        Ok (push_pending delta (PendingAdd (open_pending a size_base required_margin position (cx_now ctx))))
      else open_position state delta position.

(** ** Close (close.rs) *)

(** [pnl - fee + funding] *)
Definition close_cash (li : ClosePerpLiveInputs) (size_base : U256) : ReducerResult SignedI256 :=
  notional ← notional_usd size_base (lf_value (cpi_mark_price li));
  x ← rd_mul notional (dec_of_u32 (lf_value (cpi_fee_bp li)));
  fee ← rd_div x (dec_of_u32 10000);
  fee_signed ← inv "close_perp: fee {fee_str} overflow: {e}" (dec_to_i256 (dec_trunc fee));
  y ← inv "close_perp: cash_delta subtraction overflow"
        (i256_checked_sub (lf_value (cpi_unrealized_pnl_now li)) fee_signed);
  inv "close_perp: cash_delta addition overflow" (i256_checked_add y (lf_value (cpi_funding_accrued li))).

(** [impl Reducer for ClosePerpAction] *)
Definition apply_close_perp (a : ClosePerpAction) (state : WalletState) (ctx : EvalContext)
    : ReducerResult StateDelta :=
  match cp_size a with
  | Some _ =>
      Err (Invariant "close_perp: partial close (size = Some) deferred — use DecreasePerpAction")
  | None =>
      perp ← find_perp state (cp_position_id a) "close_perp: position {} is not a PerpPosition";
      cash_delta ← close_cash (cp_live_inputs a) (pp_size_base perp);
      first ← inv "close_perp: position {} has no collateral" (head (pp_collateral perp));
      let '(collateral_token, locked_amount) := first in
      delta ← credit state StateDelta_default (tr_key collateral_token) locked_amount;
      delta ← settle_cash state delta (tr_key collateral_token) cash_delta;
      Ok (push_position delta (Close (cp_position_id a)))
  end.

(** ** Increase (increase.rs) *)

(** [impl Reducer for IncreasePerpAction] *)
Definition apply_increase_perp (a : IncreasePerpAction) (state : WalletState) (ctx : EvalContext)
    : ReducerResult StateDelta :=
  if is_orderbook_venue (ip_venue a) then
    Err (Invariant "increase_perp: orderbook venue {} requires PlaceOrderAction (with reduce_only=false), not IncreasePerpAction")
  else
    old_perp ← find_perp state (ip_position_id a) "increase_perp: position {} is not a PerpPosition";
    let mark_price := lf_value (opi_mark_price (ip_live_inputs a)) in
    delta_size ← resolve_size_base (ip_size a) mark_price;
    if delta_size =? 0 then Err (Invariant "increase_perp: resolved Δsize is zero")
    else
      old_size ← u256_to_decimal (pp_size_base old_perp);
      new_size_u256 ← inv "increase_perp: size addition overflow"
                        (checked_add (pp_size_base old_perp) delta_size);
      new_size ← u256_to_decimal new_size_u256;
      old_entry ← parse_decimal (pp_entry_price old_perp);
      mark ← parse_decimal mark_price;
      x ← rd_mul old_size old_entry;
      added ← u256_to_decimal delta_size;
      y ← rd_mul added mark;
      z ← rd_add x y;
      new_entry_d ← rd_div z new_size;
      delta ← match ip_add_collateral a with
              | Some (collateral_token, amount) =>
                  debit state StateDelta_default (tr_key collateral_token) amount
              | None => Ok StateDelta_default
              end;
      new_notional_d ← rd_mul new_size mark;
      new_notional_u256 ← inv "increase_perp: notional U256 parse: {e}"
                            (dec_to_u256 (dec_trunc new_notional_d));
      upsert_perp_position state delta (ip_position_id a)
        (on_perp (fun pp =>
           pp_resize pp new_size_u256 new_notional_u256 (decimal_to_state new_entry_d)
             (match ip_add_collateral a with
              | Some (tok, amt) => ledger_add tok amt (pp_collateral pp)
              | None => pp_collateral pp
              end))).

(** ** Decrease (decrease.rs) *)

(** The pro-rata profit less fee plus funding of closing [delta_size]. *)
Definition decrease_cash (li : ClosePerpLiveInputs) (size delta_size : U256) : ReducerResult SignedI256 :=
  old_size_d ← u256_to_decimal size;
  delta_size_d ← u256_to_decimal delta_size;
  pnl_d ← inv "decrease_perp: pnl parse: {e}" (dec_of_i256 (lf_value (cpi_unrealized_pnl_now li)));
  x ← rd_mul pnl_d delta_size_d;
  realized ← rd_div x old_size_d;
  mark ← parse_decimal (lf_value (cpi_mark_price li));
  notional ← rd_mul delta_size_d mark;
  y ← rd_mul notional (dec_of_u32 (lf_value (cpi_fee_bp li)));
  fee ← rd_div y (dec_of_u32 10000);
  funding_d ← inv "decrease_perp: funding parse: {e}" (dec_of_i256 (lf_value (cpi_funding_accrued li)));
  z ← rd_sub realized fee;
  cash_delta_d ← rd_add z funding_d;
  inv "decrease_perp: cash_delta {cash_delta_str} overflow: {e}" (dec_to_i256 (dec_trunc cash_delta_d)).

(** [impl Reducer for DecreasePerpAction] *)
Definition apply_decrease_perp (a : DecreasePerpAction) (state : WalletState) (ctx : EvalContext)
    : ReducerResult StateDelta :=
  if is_orderbook_venue (dp_venue a) then
    Err (Invariant "decrease_perp: orderbook venue {} requires PlaceOrderAction (with reduce_only=true), not DecreasePerpAction")
  else
    old_perp ← find_perp state (dp_position_id a) "decrease_perp: position {} is not a PerpPosition";
    let li := dp_live_inputs a in
    delta_size ← resolve_size_base (dp_size a) (lf_value (cpi_mark_price li));
    if delta_size =? 0 then Err (Invariant "decrease_perp: resolved Δsize is zero")
    else if pp_size_base old_perp <? delta_size then
      Err (Invariant "decrease_perp: Δsize {delta_size} > open size_base {}")
    else if delta_size =? pp_size_base old_perp then
      Err (Invariant "decrease_perp: Δsize equals open size — use ClosePerpAction for full close")
    else
      cash_delta ← decrease_cash li (pp_size_base old_perp) delta_size;
      first ← inv "decrease_perp: position {} has no collateral" (head (pp_collateral old_perp));
      delta ← settle_cash state StateDelta_default (tr_key (first.1)) cash_delta;
      new_size ← inv "decrease_perp: size subtraction underflow"
                   (checked_sub (pp_size_base old_perp) delta_size);
      new_size_d ← u256_to_decimal new_size;
      mark ← parse_decimal (lf_value (cpi_mark_price li));
      new_notional_d ← rd_mul new_size_d mark;
      new_notional_u256 ← inv "decrease_perp: notional U256 parse: {e}"
                            (dec_to_u256 (dec_trunc new_notional_d));
      upsert_perp_position state delta (dp_position_id a)
        (on_perp (fun pp =>
           pp_resize pp new_size new_notional_u256 (pp_entry_price pp) (pp_collateral pp))).

(** ** Margin and settings (adjust_margin.rs, change_leverage.rs, change_margin_mode.rs) *)

(** [if let Some(first) = pp.collateral.first_mut() { first.1 = amount }] *)
Definition set_first (amount : U256) (collateral : list (TokenRef * U256)) : list (TokenRef * U256) :=
  match collateral with [] => [] | (t, _) :: l => (t, amount) :: l end.

(** [impl Reducer for AdjustMarginAction] *)
Definition apply_adjust_margin (a : AdjustMarginAction) (state : WalletState) (ctx : EvalContext)
    : ReducerResult StateDelta :=
  li ← ok_or (MissingField "adjust_margin.live_inputs") (am_live_inputs a);
  position_id ← ok_or (MissingField "adjust_margin.position_id") (am_position_id a);
  perp ← find_perp state position_id "adjust_margin: position {position_id} is not a PerpPosition";
  first ← inv "adjust_margin: position {position_id} has no collateral" (head (pp_collateral perp));
  let '(collateral_token, current_locked) := first in
  let delta_amount := Z.abs (am_delta a) in
  '(delta, new_amount) ←
    (if 0 <? am_delta a then
       delta ← debit state StateDelta_default (tr_key collateral_token) delta_amount;
       Ok (delta, saturating_add current_locked delta_amount)
     else if am_delta a <? 0 then
       if lf_value (ami_free_margin_after li) =? 0 then
         Err (Invariant "adjust_margin: withdrawal would leave zero free margin (liquidatable)")
       else if current_locked <? delta_amount then
         Err (Invariant "adjust_margin: withdraw {delta_amount_u256} > locked {current_locked}")
       else
         delta ← credit state StateDelta_default (tr_key collateral_token) delta_amount;
         Ok (delta, current_locked - delta_amount)
     else Err (Invariant "adjust_margin: delta is zero (no-op)"));
  upsert_perp_position state delta position_id
    (on_perp (fun pp => pp_set_collateral pp (set_first new_amount (pp_collateral pp)))).

(** One affected position of a leverage change. *)
Definition change_leverage_step (a : ChangeLeverageAction) (li : ChangeLeverageLiveInputs)
    (state : WalletState) (now : Time) (delta : StateDelta) (position_id : PositionId)
    : ReducerResult StateDelta :=
  _ ← find_perp state position_id "change_leverage: position {position_id} is not a PerpPosition";
  let new_liq := snd <$> find_first (fun e => bool_decide (e.1 = position_id))
                           (lf_value (chli_new_liq_prices li)) in
  upsert_perp_position state delta position_id
    (on_perp (fun pp =>
       pp_set_leverage pp (LiveField_new (chl_new_leverage a) UserSupplied now)
         (match new_liq with
          | Some liq => LiveField_new liq UserSupplied now
          | None => pp_liq_price pp
          end))).

(** [impl Reducer for ChangeLeverageAction] *)
Definition apply_change_leverage (a : ChangeLeverageAction) (state : WalletState) (ctx : EvalContext)
    : ReducerResult StateDelta :=
  li ← ok_or (MissingField "change_leverage.live_inputs") (chl_live_inputs a);
  new_lev ← parse_decimal (chl_new_leverage a);
  max_lev ← parse_decimal (lf_value (chli_max_leverage li));
  if negb (dec_is_zero max_lev) && dec_ltb max_lev new_lev then
    Err (Invariant "change_leverage: requested {new_lev} > max {max_lev}")
  else if dec_is_zero new_lev then Err (Invariant "change_leverage: leverage must be > 0")
  else
    foldM (change_leverage_step a li state (cx_now ctx)) (lf_value (chli_affected_positions li))
      StateDelta_default.

(** One affected position of a margin-mode change. *)
Definition change_margin_mode_step (a : ChangeMarginModeAction) (state : WalletState)
    (delta : StateDelta) (position_id : PositionId) : ReducerResult StateDelta :=
  _ ← find_perp state position_id "change_margin_mode: position {position_id} is not a PerpPosition";
  let new_amount := snd <$> find_first (fun e => bool_decide (e.1 = position_id))
                              (lf_value (cmmi_margin_reallocation (cmm_live_inputs a))) in
  upsert_perp_position state delta position_id
    (on_perp (fun pp =>
       pp_set_mode pp (cmm_new_mode a)
         (match new_amount with Some amt => set_first amt (pp_collateral pp) | None => pp_collateral pp end))).

(** [impl Reducer for ChangeMarginModeAction] *)
Definition apply_change_margin_mode (a : ChangeMarginModeAction) (state : WalletState) (ctx : EvalContext)
    : ReducerResult StateDelta :=
  foldM (change_margin_mode_step a state) (lf_value (cmmi_affected_positions (cmm_live_inputs a)))
    StateDelta_default.

(** ** Orders (place_order.rs, cancel_order.rs, claim_funding.rs) *)

Definition MAX_OPEN_ORDERS_SOFT_CAP : Z := 100.

Definition venue_order (a : PlaceOrderAction) (size_base : U256) (price : Price) (kind : PerpOrderKind)
    : PendingKind :=
  PerpVenueOrder (perp_venue_ref (plo_venue a)) (plo_market a) (plo_side a) size_base price kind
    (plo_reduce_only a).

(** [limit_pending] *)
Definition limit_pending (a : PlaceOrderAction) (li : PlaceOrderLiveInputs) (price : Price)
    (time_in_force : TimeInForce) (now : Time) : ReducerResult PendingTx :=
  if MAX_OPEN_ORDERS_SOFT_CAP <=? lf_value (ploi_open_orders_count li) then
    Err (Invariant "place_order: open_orders_count {} >= soft cap {MAX_OPEN_ORDERS_SOFT_CAP}")
  else
    limit ← parse_decimal price;
    let '(best_bid, best_ask) := lf_value (ploi_best_bid_ask li) in
    bid ← parse_decimal best_bid;
    ask ← parse_decimal best_ask;
    x ← rd_add bid ask;
    mid ← rd_div x (dec_of_u32 2);
    bracket_lo ← rd_mul mid (dec_new 5 1);
    bracket_hi ← rd_mul mid (dec_new 15 1);
    if dec_ltb limit bracket_lo || dec_ltb bracket_hi limit then
      Err (Invariant "place_order: limit price {limit} outside ±50% of mid-spread bracket")
    else
      size_base ← resolve_size_base (plo_size a) (lf_value (ploi_mark_price li));
      if size_base =? 0 then Err (Invariant "place_order: resolved size_base is zero")
      else
        let valid_until := match time_in_force with Gtd until => Some until | _ => None end in
        Ok (order_pending
              (pending_id_for_limit_order (plo_venue a) (mr_symbol (plo_market a)) (plo_side a) price)
              (venue_order a size_base price PerpLimit) NoCommitment StateDelta_default valid_until now).

(** The trigger must be below the mark for a stop of a long and a take-profit of
    a short, above it otherwise. *)
Definition stop_want_below (kind : StopOrderKind) (side : PerpSide) : bool :=
  match kind, side with
  | (StopStopMarket | StopStopLimit), Long => true
  | (StopStopMarket | StopStopLimit), Short => false
  | _, Short => true
  | _, Long => false
  end.

(** [stop_pending] *)
Definition stop_pending (a : PlaceOrderAction) (li : PlaceOrderLiveInputs) (trigger_price : Price)
    (order_kind : StopOrderKind) (limit_price : option Price) (now : Time) : ReducerResult PendingTx :=
  _ ← match order_kind, limit_price with
      | (StopStopLimit | StopTakeProfitLimit), None =>
          Err (Invariant "place_order: {order_kind:?} requires limit_price")
      | _, _ => Ok ()
      end;
  trigger ← parse_decimal trigger_price;
  mark ← parse_decimal (lf_value (ploi_mark_price li));
  let valid_side :=
    if stop_want_below order_kind (plo_side a) then dec_ltb trigger mark else dec_ltb mark trigger in
  if negb valid_side then
    Err (Invariant "place_order: trigger {trigger} is on the wrong side of mark {mark} for {order_kind:?} {:?}")
  else
    size_base ← resolve_size_base (plo_size a) (lf_value (ploi_mark_price li));
    Ok (order_pending
          (pending_id_for_stop_order (plo_venue a) (mr_symbol (plo_market a)) (plo_side a) order_kind
             trigger_price)
          (venue_order a size_base trigger_price (perp_order_kind_from_stop order_kind))
          NoCommitment StateDelta_default None now).

(** [twap_pending] *)
Definition twap_pending (a : PlaceOrderAction) (li : PlaceOrderLiveInputs) (duration_minutes : Z)
    (now : Time) : ReducerResult PendingTx :=
  size_base ← resolve_size_base (plo_size a) (lf_value (ploi_mark_price li));
  if size_base =? 0 then Err (Invariant "place_order: resolved size_base is zero")
  else
    Ok (order_pending
          (pending_id_for_twap_order (plo_venue a) (mr_symbol (plo_market a)) (plo_side a) duration_minutes)
          (venue_order a size_base (lf_value (ploi_mark_price li)) PerpLimit)
          NoCommitment StateDelta_default None now).

(** [impl Reducer for PlaceOrderAction] *)
Definition apply_place_order (a : PlaceOrderAction) (state : WalletState) (ctx : EvalContext)
    : ReducerResult StateDelta :=
  li ← ok_or (MissingField "place_order.live_inputs") (plo_live_inputs a);
  pending ← match plo_order_type a with
            | OrderLimit price time_in_force => limit_pending a li price time_in_force (cx_now ctx)
            | OrderStop trigger_price order_kind limit_price =>
                stop_pending a li trigger_price order_kind limit_price (cx_now ctx)
            | OrderTwap duration_minutes _ => twap_pending a li duration_minutes (cx_now ctx)
            end;
  Ok (push_pending StateDelta_default (PendingAdd pending)).

(** [impl Reducer for CancelOrderAction] *)
Definition apply_cancel_order (a : PerpCancelOrderAction) (state : WalletState) (ctx : EvalContext)
    : ReducerResult StateDelta :=
  Ok (push_pending StateDelta_default (PendingRemove (pco_order_id a) ReasonCancelled)).

(** [impl Reducer for ClaimFundingAction] *)
Definition apply_claim_funding (a : ClaimFundingAction) (state : WalletState) (ctx : EvalContext)
    : ReducerResult StateDelta :=
  foldM (fun delta '(token, amount) =>
           if amount =? 0 then Ok delta else credit state delta (tr_key token) amount)
    (lf_value (cfui_claimable (cfu_live_inputs a))) StateDelta_default.

(** [impl Reducer for PerpAction] *)
Definition apply_perp_action (a : PerpAction) (state : WalletState) (ctx : EvalContext)
    : ReducerResult StateDelta :=
  match a with
  | OpenPosition a => apply_open_perp a state ctx
  | ClosePosition a => apply_close_perp a state ctx
  | IncreasePosition a => apply_increase_perp a state ctx
  | DecreasePosition a => apply_decrease_perp a state ctx
  | AdjustMargin a => apply_adjust_margin a state ctx
  | ChangeLeverage a => apply_change_leverage a state ctx
  | ChangeMarginMode a => apply_change_margin_mode a state ctx
  | PlaceOrder a => apply_place_order a state ctx
  | CancelOrder a => apply_cancel_order a state ctx
  | ClaimFunding a => apply_claim_funding a state ctx
  end.

(** ** Lemmas *)

Lemma on_perp_id f p : po_id (on_perp f p) = po_id p.
Proof. unfold on_perp. by destruct (po_kind p). Qed.

Lemma upsert_perp_gas s d id g d' :
  upsert_perp_position s d id g = Ok d' -> sd_gas_paid d' = sd_gas_paid d.
Proof. unfold upsert_perp_position. by intros (p & _ & _ & _ & ->)%upsert_kind_Ok. Qed.

Lemma settle_cash_gas s d k c d' : settle_cash s d k c = Ok d' -> sd_gas_paid d' = sd_gas_paid d.
Proof. unfold settle_cash. intros Hd. run_ok; eauto using credit_gas, debit_gas. Qed.

Lemma settle_cash_positions s d k c d' :
  settle_cash s d k c = Ok d' -> sd_position_changes d' = sd_position_changes d.
Proof. unfold settle_cash. intros Hd. run_ok; eauto using credit_positions, debit_positions. Qed.

(** A loop whose steps keep the gas field keeps it. *)
Lemma foldM_gas {A} (f : StateDelta -> A -> ReducerResult StateDelta) l d d' :
  (forall d x d', f d x = Ok d' -> sd_gas_paid d' = sd_gas_paid d) ->
  foldM f l d = Ok d' -> sd_gas_paid d' = sd_gas_paid d.
Proof.
  intros Hf. revert d. induction l as [|x l IH]; simpl; intros d Hd; inv_ok; [done|].
  etrans; [by eapply IH|by eapply Hf].
Qed.

Ltac perp_gas :=
  repeat match goal with
  | H : upsert_perp_position _ _ _ _ = Ok _ |- _ => apply upsert_perp_gas in H
  | H : settle_cash _ _ _ _ = Ok _ |- _ => apply settle_cash_gas in H
  | H : debit _ _ _ _ = Ok _ |- _ => apply debit_gas in H
  | H : credit _ _ _ _ = Ok _ |- _ => apply credit_gas in H
  end; simpl in *; congruence.

(** No perpetuals reducer pays gas. *)
Lemma perp_action_gas a s ctx d : apply_perp_action a s ctx = Ok d -> sd_gas_paid d = None.
Proof.
  destruct a; simpl; intros Hd.
  - unfold apply_open_perp, open_position in Hd. run_ok; perp_gas.
  - unfold apply_close_perp in Hd. run_ok; perp_gas.
  - unfold apply_increase_perp in Hd. run_ok; perp_gas.
  - unfold apply_decrease_perp in Hd. run_ok; perp_gas.
  - unfold apply_adjust_margin in Hd. run_ok; perp_gas.
  - unfold apply_change_leverage in Hd. run_ok.
    all: match goal with Hf : foldM _ _ _ = Ok _ |- _ => apply foldM_gas in Hf; [done|] end.
    all: unfold change_leverage_step; intros ? ? ? Hs; run_ok; perp_gas.
  - unfold apply_change_margin_mode in Hd. apply foldM_gas in Hd; [done|].
    unfold change_margin_mode_step; intros ? ? ? Hs; run_ok; perp_gas.
  - unfold apply_place_order in Hd. inv_ok. done.
  - unfold apply_cancel_order in Hd. by inv_ok.
  - unfold apply_claim_funding in Hd. apply foldM_gas in Hd; [done|].
    intros d0 [t x] d1 Hs. run_ok; try done; perp_gas.
Qed.

(** The amounts of an action, and of the positions it closes, are words. *)
Definition wf_perp_positions (s : WalletState) : Prop :=
  Forall (fun p => match po_kind p with
                   | PkPerpPosition pp => Forall (fun e => u256 (e.2)) (pp_collateral pp)
                   | _ => True
                   end) (ws_positions s).
Definition wf_perp_action (a : PerpAction) : Prop :=
  match a with
  | OpenPosition a => u256 ((op_collateral a).2)
  | IncreasePosition a => match ip_add_collateral a with Some (_, amt) => u256 amt | None => True end
  | AdjustMargin a => i256 (am_delta a)
  | ClaimFunding a => Forall (fun e => 0 <= e.2) (lf_value (cfui_claimable (cfu_live_inputs a)))
  | _ => True
  end.

(** Whether a cancelled order is pending is not checked by the reducer. *)
Definition perp_action_supported (s : WalletState) (a : PerpAction) : Prop :=
  match a with
  | CancelOrder a => existsb (pt_has_id (pco_order_id a)) (ws_pending s) = true
  | _ => True
  end.

Section Laws.
Context {SL : PositionSerdeLaws S0}.

Lemma find_perp_Ok s id m perp :
  find_perp s id m = Ok perp ->
  exists p, find_first (po_has_id id) (ws_positions s) = Some p /\ po_kind p = PkPerpPosition perp.
Proof. unfold find_perp. intros Hp. run_ok. eauto. Qed.

Lemma head_collateral s id m perp t x :
  wf_perp_positions s -> find_perp s id m = Ok perp -> head (pp_collateral perp) = Some (t, x) -> u256 x.
Proof.
  intros Hw (p & Hp & Hk)%find_perp_Ok Hh. apply find_first_Some in Hp as [Hin _].
  apply (proj1 (Forall_forall _ _) Hw) in Hin. rewrite Hk in Hin.
  destruct (pp_collateral perp) as [|e l]; [done|]. injection Hh as ->. by inversion Hin.
Qed.

Lemma i256_abs c : i256 c -> u256 (Z.abs c).
Proof. unfold i256, u256. pose proof int_bounds. lia. Qed.

Lemma settle_cash_replayable s d k c d' :
  wf_state s -> i256 c -> replayable s d -> settle_cash s d k c = Ok d' -> replayable s d'.
Proof.
  unfold settle_cash. intros Hw Hc Hr Hd.
  destruct (Z.ltb_spec 0 c); [eapply replayable_credit; [done|done| |done]; lia|].
  destruct (Z.ltb_spec c 0); [by eapply replayable_debit; [|apply i256_abs|]|by injection Hd as <-].
Qed.

Lemma upsert_perp_replayable s d id g d' :
  replayable s d -> upsert_perp_position s d id (on_perp g) = Ok d' -> replayable s d'.
Proof. intros Hr. apply replayable_upsert; [done|]. intros p. apply on_perp_id. Qed.

Lemma i256_check_range z r : i256_check z = Some r -> r = z /\ i256 z.
Proof.
  unfold i256_check. destruct (Z.leb_spec I256_MIN z), (Z.leb_spec z I256_MAX); simpl; try done.
  intros [= <-]. by split.
Qed.

Lemma close_cash_range li size c : close_cash li size = Ok c -> i256 c.
Proof.
  unfold close_cash. intros Hc. inv_ok.
  match goal with Hx : i256_checked_add _ _ = Some _ |- _ =>
    unfold i256_checked_add in Hx; by apply i256_check_range in Hx as [-> ?] end.
Qed.

Lemma decrease_cash_range {DR : RustDecimalRange D0} li size dsize c :
  decrease_cash li size dsize = Ok c -> i256 c.
Proof. unfold decrease_cash. intros Hc. inv_ok. by eapply dec_to_i256_range. Qed.

(** Loops of replayable steps. *)
Lemma foldM_replayable {A} (f : StateDelta -> A -> ReducerResult StateDelta) s l d d' :
  (forall d x d', x ∈ l -> replayable s d -> f d x = Ok d' -> replayable s d') ->
  replayable s d -> foldM f l d = Ok d' -> replayable s d'.
Proof.
  intros Hf. revert d. induction l as [|x l IH]; simpl; intros d Hr Hd; inv_ok; [done|].
  eapply IH; [|by eapply Hf; [left|..]|done]. intros. eapply Hf; [by right|done|done].
Qed.

Lemma open_perp_replayable a s ctx d :
  u256 ((op_collateral a).2) -> apply_open_perp a s ctx = Ok d -> replayable s d.
Proof.
  unfold apply_open_perp. intros Hu Hd. inv_ok. destruct (_ <? _); [done|]. inv_ok.
  destruct (_ <? _); [done|]. inv_ok. destruct (op_collateral a) as [tok amt]. simpl in Hu. inv_ok.
  destruct (is_orderbook_venue (op_venue a)); simpl in *; inv_ok.
  - apply replayable_pending_add, replayable_default.
  - eapply replayable_open; [|done]. by eapply replayable_debit; [apply replayable_default|..].
Qed.

Lemma close_perp_replayable a s ctx d :
  wf_state s -> wf_perp_positions s -> apply_close_perp a s ctx = Ok d -> replayable s d.
Proof.
  unfold apply_close_perp. intros Hw Hp Hd. destruct (cp_size a); [done|].
  destruct (find_perp _ _ _) as [perp| |] eqn:Hf; try done. simpl in Hd.
  destruct (close_cash _ _) as [cash| |] eqn:Hc; try done. simpl in Hd. apply close_cash_range in Hc.
  destruct (head (pp_collateral perp)) as [[t x]|] eqn:Hh; try done. simpl in Hd.
  pose proof (head_collateral _ _ _ _ _ _ Hp Hf Hh) as [Hx _].
  destruct (credit _ _ _ _) as [d0| |] eqn:Hcr; try done. simpl in Hd.
  destruct (settle_cash _ _ _ _) as [d1| |] eqn:Hs; try done. simpl in Hd. injection Hd as <-.
  apply replayable_close.
  - eapply settle_cash_replayable; [done|done| |done].
    eapply replayable_credit; [done|apply replayable_default|done|done].
  - by rewrite (settle_cash_positions _ _ _ _ _ Hs), (credit_positions _ _ _ _ _ Hcr).
  - apply find_perp_Ok in Hf as (p & Hq & _). by eexists.
Qed.

Lemma adjust_margin_replayable a s ctx d :
  wf_state s -> i256 (am_delta a) -> apply_adjust_margin a s ctx = Ok d -> replayable s d.
Proof.
  unfold apply_adjust_margin. intros Hw Hi Hd. inv_ok.
  match goal with Hm : match ?f with (_, _) => _ end = Ok _ |- _ => destruct f as [tok locked] end.
  destruct (Z.ltb_spec 0 (am_delta a)); [|destruct (Z.ltb_spec (am_delta a) 0); [|done]]; run_ok.
  all: eapply upsert_perp_replayable; [|done].
  - eapply replayable_debit; [apply replayable_default|by apply i256_abs|done].
  - eapply replayable_credit; [done|apply replayable_default| |done]. lia.
Qed.

Lemma perp_replayable {DR : RustDecimalRange D0} a s ctx d :
  wf_state s -> wf_perp_positions s -> wf_perp_action a -> perp_action_supported s a ->
  apply_perp_action a s ctx = Ok d -> replayable s d.
Proof.
  intros Hw Hp Ha Hsup Hd. destruct a; simpl in Hd, Ha, Hsup.
  - by eapply open_perp_replayable.
  - by eapply close_perp_replayable.
  - unfold apply_increase_perp in Hd. destruct (is_orderbook_venue _); [done|]. inv_ok.
    destruct (_ =? 0); [done|]. inv_ok. eapply upsert_perp_replayable; [|done].
    destruct (ip_add_collateral a) as [[tok amt]|]; inv_ok; [|apply replayable_default].
    by eapply replayable_debit; [apply replayable_default|..].
  - unfold apply_decrease_perp in Hd. destruct (is_orderbook_venue _); [done|]. inv_ok. run_ok.
    eapply upsert_perp_replayable; [|done].
    eapply settle_cash_replayable; [done|by eapply decrease_cash_range|apply replayable_default|done].
  - by eapply adjust_margin_replayable.
  - unfold apply_change_leverage in Hd. inv_ok. destruct (_ && _); [done|]. destruct (dec_is_zero _); [done|].
    eapply foldM_replayable; [|apply replayable_default|done].
    unfold change_leverage_step. intros ? ? ? _ Hr Hs. inv_ok. by eapply upsert_perp_replayable.
  - unfold apply_change_margin_mode in Hd. eapply foldM_replayable; [|apply replayable_default|done].
    unfold change_margin_mode_step. intros ? ? ? _ Hr Hs. inv_ok. by eapply upsert_perp_replayable.
  - unfold apply_place_order in Hd. inv_ok. apply replayable_pending_add, replayable_default.
  - unfold apply_cancel_order in Hd. inv_ok. by apply replayable_pending_remove.
  - unfold apply_claim_funding in Hd. eapply foldM_replayable; [|apply replayable_default|done].
    intros d0 [t x] d1 Hin Hr Hs. destruct (x =? 0); [by injection Hs as <-|].
    eapply replayable_credit; [done|done| |done]. by apply (proj1 (Forall_forall _ _) Ha (t, x)).
Qed.

(** ** Properties *)

(** The perpetual position filed under an identifier. *)
Definition perp_at (s : WalletState) (id : PositionId) : option PerpPosition :=
  p ← find_first (po_has_id id) (ws_positions s);
  match po_kind p with PkPerpPosition pp => Some pp | _ => None end.

Lemma find_perp_at s id m perp : find_perp s id m = Ok perp -> perp_at s id = Some perp.
Proof. intros (p & Hp & Hk)%find_perp_Ok. unfold perp_at. rewrite Hp. simpl. by rewrite Hk. Qed.

Lemma settle_cash_settles s d s1 k c d' :
  wf_state s -> replayable s d -> apply_delta s d = Ok s1 -> I256_MIN < c <= I256_MAX ->
  settle_cash s d k c = Ok d' ->
  exists s2, apply_delta s d' = Ok s2 /\
    (fungible_balance s1 k <= I256_MAX -> fungible_balance s1 k + c <= I256_MAX ->
     fungible_balance s2 k = fungible_balance s1 k + c) /\
    (forall k', k' <> k -> ws_tokens s2 !! k' = ws_tokens s1 !! k') /\
    ws_positions s2 = ws_positions s1.
Proof.
  intros Hw Hr H1 Hc Hd. unfold settle_cash in Hd. destruct (Z.ltb_spec 0 c).
  - destruct (credit_settles _ _ _ _ _ _ Hw Hr H1 ltac:(by apply Z.lt_le_incl) Hd) as (s2 & ? & Hb & ? & ?).
    exists s2. auto.
  - destruct (Z.ltb_spec c 0).
    + assert (0 <= Z.abs c <= I256_MAX) as Habs by (pose proof int_bounds; lia).
      destruct (debit_settles _ _ _ _ _ _ Hr H1 Habs Hd) as (s2 & ? & Hb & ? & ?).
      exists s2. split; [done|]. split; [|done]. intros Hle _. rewrite Hb by done. lia.
    + injection Hd as <-. exists s1. split; [done|]. split; [lia|done].
Qed.

(** An upsert of a position after token changes. *)
Lemma upsert_perp_settles s d0 s0 id m perp g d :
  replayable s d0 -> apply_delta s d0 = Ok s0 -> sd_position_changes d0 = [] ->
  find_perp s id m = Ok perp -> upsert_perp_position s d0 id (on_perp g) = Ok d ->
  exists s1, apply_delta s d = Ok s1 /\ perp_at s1 id = Some (g perp) /\ ws_tokens s1 = ws_tokens s0.
Proof.
  intros Hr H0 Hno (p & Hp & Hk)%find_perp_Ok Hu. unfold upsert_perp_position in Hu.
  apply upsert_kind_Ok in Hu as (q & Hq & _ & _ & ->). rewrite effective_same in Hq by done.
  rewrite Hp in Hq. injection Hq as <-. pose proof (proj2 (find_first_Some _ _ _ Hp)) as Hid.
  apply bool_decide_eq_true in Hid. set (p' := on_perp g p).
  assert (po_id p' = id) as Hid' by (unfold p'; by rewrite on_perp_id).
  destruct (update_settles s d0 s0 p p') as (s1 & Hs1 & Hf & Ht & _);
    [apply Hr|done|by rewrite Hid', (same_positions _ _ _ H0 Hno)|].
  rewrite Hid' in Hs1, Hf. exists s1. split; [done|]. split; [|done]. unfold perp_at. rewrite Hf. simpl.
  unfold p', on_perp. by rewrite Hk.
Qed.

(** Moving margin conserves it: an accepted adjustment names a position with collateral and
    a non-zero amount (a withdrawal of at most what is locked, with free margin left); its delta
    applies, the first collateral of the position grows by exactly what leaves the wallet, and
    no other holding changes. *)
Theorem adjust_margin_conserves a s ctx d :
  wf_state s -> i256 (am_delta a) -> I256_MIN < am_delta a -> apply_adjust_margin a s ctx = Ok d ->
  am_delta a <> 0 /\
  exists id perp tok locked s', am_position_id a = Some id /\ perp_at s id = Some perp /\
    head (pp_collateral perp) = Some (tok, locked) /\
    (am_delta a < 0 -> - am_delta a <= locked) /\ apply_delta s d = Ok s' /\
    (0 <= locked -> locked + am_delta a <= U256_MAX ->
     perp_at s' id = Some (pp_set_collateral perp (set_first (locked + am_delta a) (pp_collateral perp)))) /\
    (fungible_balance s (tr_key tok) <= I256_MAX -> fungible_balance s (tr_key tok) - am_delta a <= I256_MAX ->
     fungible_balance s' (tr_key tok) = fungible_balance s (tr_key tok) - am_delta a) /\
    (forall k, k <> tr_key tok -> ws_tokens s' !! k = ws_tokens s !! k).
Proof.
  intros Hw Hi Hmin Hd. unfold apply_adjust_margin in Hd.
  destruct (am_live_inputs a) as [li|]; [|done]. simpl in Hd.
  destruct (am_position_id a) as [id|]; [|done]. simpl in Hd.
  destruct (find_perp _ _ _) as [perp| |] eqn:Hf; try done. simpl in Hd.
  destruct (head (pp_collateral perp)) as [[tok locked]|] eqn:Hh; [|done]. simpl in Hd.
  pose proof (find_perp_at _ _ _ _ Hf) as Hat.
  assert (0 <= Z.abs (am_delta a) <= I256_MAX) as Habs by (unfold i256 in Hi; pose proof int_bounds; lia).
  destruct (Z.ltb_spec 0 (am_delta a)); [|destruct (Z.ltb_spec (am_delta a) 0); [|done]].
  - destruct (debit s _ _ _) as [d0| |] eqn:Hdeb; try done. simpl in Hd. split; [lia|].
    destruct (debit_settles _ _ s _ _ _ (replayable_default s) eq_refl Habs Hdeb)
      as (s0 & Hs0 & Hbal & Hfr & _).
    pose proof (replayable_debit _ _ _ _ _ (replayable_default s) (u256_of_signed _ Habs) Hdeb) as Hr0.
    destruct (upsert_perp_settles _ _ s0 _ _ _ _ _ Hr0 Hs0 (debit_positions _ _ _ _ _ Hdeb) Hf Hd)
      as (s1 & Hs1 & Hp1 & Ht).
    exists id, perp, tok, locked, s1. rewrite (fungible_balance_tokens s1 s0 _ Ht).
    split; [done|]. split; [done|]. split; [done|]. split; [lia|]. split; [done|]. split.
    + intros Hl Hsum. rewrite Hp1.
      assert (saturating_add locked (Z.abs (am_delta a)) = locked + am_delta a) as -> by int_solve. done.
    + split; [intros Hle _; rewrite Hbal by done; lia|]. intros k Hk. rewrite Ht. by apply Hfr.
  - destruct (_ =? 0); [done|]. destruct (Z.ltb_spec locked (Z.abs (am_delta a))); [done|].
    destruct (credit s _ _ _) as [d0| |] eqn:Hcr; try done. simpl in Hd. split; [lia|].
    destruct (credit_settles _ _ s _ _ _ Hw (replayable_default s) eq_refl (proj1 Habs) Hcr)
      as (s0 & Hs0 & Hbal & Hfr & _).
    pose proof (replayable_credit _ _ _ _ _ Hw (replayable_default s) (proj1 Habs) Hcr) as Hr0.
    destruct (upsert_perp_settles _ _ s0 _ _ _ _ _ Hr0 Hs0 (credit_positions _ _ _ _ _ Hcr) Hf Hd)
      as (s1 & Hs1 & Hp1 & Ht).
    exists id, perp, tok, locked, s1. rewrite (fungible_balance_tokens s1 s0 _ Ht).
    split; [done|]. split; [done|]. split; [done|]. split; [lia|]. split; [done|]. split.
    + intros Hl Hsum. rewrite Hp1.
      assert (locked - Z.abs (am_delta a) = locked + am_delta a) as -> by lia. done.
    + split; [intros Hle Hle'; rewrite Hbal by lia; lia|]. intros k Hk. rewrite Ht. by apply Hfr.
Qed.

(** Closing credits the first collateral entry and the cash result, and nothing else. *)
Lemma close_perp_applies a s ctx d :
  wf_state s -> wf_perp_positions s -> apply_close_perp a s ctx = Ok d ->
  exists perp tok locked cash, perp_at s (cp_position_id a) = Some perp /\
    head (pp_collateral perp) = Some (tok, locked) /\
    close_cash (cp_live_inputs a) (pp_size_base perp) = Ok cash /\
    (I256_MIN < cash -> fungible_balance s (tr_key tok) + locked <= I256_MAX ->
     fungible_balance s (tr_key tok) + locked + cash <= I256_MAX ->
     exists s', apply_delta s d = Ok s' /\
       fungible_balance s' (tr_key tok) = fungible_balance s (tr_key tok) + locked + cash /\
       (forall k, k <> tr_key tok -> ws_tokens s' !! k = ws_tokens s !! k) /\
       ws_positions s' = retain (fun p => negb (po_has_id (cp_position_id a) p)) (ws_positions s)).
Proof.
  intros Hw Hp Hd. unfold apply_close_perp in Hd. destruct (cp_size a); [done|].
  destruct (find_perp _ _ _) as [perp| |] eqn:Hf; try done. simpl in Hd.
  destruct (close_cash _ _) as [cash| |] eqn:Hc; try done. simpl in Hd.
  pose proof (close_cash_range _ _ _ Hc) as [_ Hcr].
  destruct (head (pp_collateral perp)) as [[tok locked]|] eqn:Hh; try done. simpl in Hd.
  pose proof (head_collateral _ _ _ _ _ _ Hp Hf Hh) as [Hl _].
  destruct (credit _ _ _ _) as [d0| |] eqn:Hcred; try done. simpl in Hd.
  destruct (settle_cash _ _ _ _) as [d1| |] eqn:Hs; try done. simpl in Hd. injection Hd as <-.
  exists perp, tok, locked, cash. split; [by eapply find_perp_at|]. split; [done|]. split; [done|].
  intros Hmin Hle1 Hle2.
  destruct (credit_settles _ _ s _ _ _ Hw (replayable_default s) eq_refl Hl Hcred)
    as (s0 & Hs0 & Hbal & Hfr & Hpos).
  pose proof (replayable_credit _ _ _ _ _ Hw (replayable_default s) Hl Hcred) as Hr0.
  destruct (settle_cash_settles _ _ s0 _ _ _ Hw Hr0 Hs0 (conj Hmin Hcr) Hs) as (s1 & Hs1 & Hbal1 & Hfr1 & Hpos1).
  destruct (close_settles s d1 s1 (cp_position_id a)) as (s2 & Hs2 & Hp2 & Ht2).
  - by rewrite (settle_cash_gas _ _ _ _ _ Hs), (credit_gas _ _ _ _ _ Hcred).
  - done.
  - rewrite Hpos1, Hpos. apply find_perp_Ok in Hf as (p & Hq & _). by eexists.
  - exists s2. rewrite (fungible_balance_tokens s2 s1 _ Ht2). split; [done|]. split; [|split].
    + rewrite Hbal1; rewrite Hbal by done; lia.
    + intros k Hk. by rewrite Ht2, Hfr1, Hfr.
    + by rewrite Hp2, Hpos1, Hpos.
Qed.

Lemma perp_at_retained s s' id :
  ws_positions s' = retain (fun p => negb (po_has_id id p)) (ws_positions s) -> perp_at s' id = None.
Proof.
  intros Hp. unfold perp_at. rewrite Hp. destruct (find_first _ _) as [p|] eqn:Hf; [|done].
  apply find_first_Some in Hf as [Hin Hid]. apply retain_elem_of in Hin as [_ Hn]. by rewrite Hid in Hn.
Qed.

(** C10: Closing a perpetual settles it on its first collateral token: the position exists and
    is closed in full; unless a balance leaves the signed range the delta applies, the wallet
    receives the locked margin of the first collateral entry plus the cash result (profit less
    fee plus funding), which is debited when it is a loss, and the position is gone. Only the
    first entry comes back: the balance of every other collateral token of the position stays
    what it was, so a second margin the position held leaves with it. *)
Theorem close_perp_settles a s ctx d :
  wf_state s -> wf_perp_positions s -> apply_close_perp a s ctx = Ok d ->
  exists perp tok locked cash, perp_at s (cp_position_id a) = Some perp /\
    head (pp_collateral perp) = Some (tok, locked) /\
    close_cash (cp_live_inputs a) (pp_size_base perp) = Ok cash /\
    (I256_MIN < cash -> fungible_balance s (tr_key tok) + locked <= I256_MAX ->
     fungible_balance s (tr_key tok) + locked + cash <= I256_MAX ->
     exists s', apply_delta s d = Ok s' /\
       fungible_balance s' (tr_key tok) = fungible_balance s (tr_key tok) + locked + cash /\
       (forall k, k <> tr_key tok -> ws_tokens s' !! k = ws_tokens s !! k) /\
       ws_positions s' = retain (fun p => negb (po_has_id (cp_position_id a) p)) (ws_positions s) /\
       perp_at s' (cp_position_id a) = None /\
       Forall (fun c => tr_key c.1 <> tr_key tok ->
         fungible_balance s' (tr_key c.1) = fungible_balance s (tr_key c.1)) (pp_collateral perp)).
Proof.
  intros Hw Hp Hd. destruct (close_perp_applies _ _ _ _ Hw Hp Hd) as (perp & tok & locked & cash & Hat & Hh & Hc & Hs).
  exists perp, tok, locked, cash. split; [done|]. split; [done|]. split; [done|]. intros Hmin Hle Hle'.
  destruct (Hs Hmin Hle Hle') as (s' & Hs' & Hb & Hf & Hpos). exists s'. split; [done|]. split; [done|].
  split; [done|]. split; [done|]. split; [by eapply perp_at_retained|].
  apply Forall_forall. intros c _ Hk. by apply fungible_balance_lookup, Hf.
Qed.

(** Opening a perpetual is accepted only when the free margin covers the venue's required
    margin and the open interest covers the size. On an on-chain venue the delta applies, takes
    exactly the collateral from the wallet and appends the position; on an order-book venue it
    takes nothing and opens nothing, but records a pending order that locks the required margin
    and whose fill opens the same position. *)
Theorem open_perp_exact a s ctx d :
  let li := op_live_inputs a in
  let key := tr_key ((op_collateral a).1) in
  let amount := (op_collateral a).2 in
  0 <= amount <= I256_MAX -> apply_open_perp a s ctx = Ok d ->
  exists margin size notional liq s', dispatch_required_initial_margin a = Ok margin /\
    margin <= pas_free_margin_usd (lf_value (opi_user_account_state li)) /\
    resolve_size_base (op_size a) (lf_value (opi_mark_price li)) = Ok size /\
    size <= lf_value (opi_available_oi li) /\ apply_delta s d = Ok s' /\
    let position := opened_position a size notional liq (cx_now ctx) in
    if is_orderbook_venue (op_venue a) then
      ws_tokens s' = ws_tokens s /\ ws_positions s' = ws_positions s /\
      ws_pending s' = ws_pending s ++ [open_pending a size margin position (cx_now ctx)]
    else
      ws_positions s' = ws_positions s ++ [position] /\
      (fungible_balance s key <= I256_MAX -> fungible_balance s' key = fungible_balance s key - amount) /\
      (forall k, k <> key -> ws_tokens s' !! k = ws_tokens s !! k).
Proof.
  intros li key amount Hamt Hd. unfold apply_open_perp in Hd. fold li in Hd.
  destruct (dispatch_required_initial_margin a) as [margin| |]; try done. simpl in Hd.
  destruct (Z.ltb_spec (pas_free_margin_usd (lf_value (opi_user_account_state li))) margin); [done|].
  destruct (resolve_size_base _ _) as [size| |]; try done. simpl in Hd.
  destruct (Z.ltb_spec (lf_value (opi_available_oi li)) size); [done|].
  destruct (open_liq_price a) as [liq| |]; try done. simpl in Hd.
  destruct (op_collateral a) as [tok amt]. simpl in key, amount, Hd.
  destruct (is_orderbook_venue (op_venue a)) eqn:Hob; simpl in Hd.
  - inv_ok. do 5 eexists. do 4 (split; [done|]). split; [reflexivity|].
    simpl. split; [reflexivity|]. split; reflexivity.
  - destruct (debit _ _ _ _) as [d0| |] eqn:Hdeb; try done. simpl in Hd. inv_ok.
    destruct (debit_settles _ _ s _ _ _ (replayable_default s) eq_refl Hamt Hdeb)
      as (s0 & Hs0 & Hbal & Hfr & Hpos).
    unfold open_position in *. run_ok.
    do 5 eexists. do 4 (split; [done|]). split; [apply apply_delta_push_position|].
    + by rewrite (debit_gas _ _ _ _ _ Hdeb).
    + exists s0. split; [done|reflexivity].
    + simpl. rewrite Hpos. split; [reflexivity|]. done.
Qed.
End Laws.
End Reducers.

(** ** Witnesses *)
Definition demo_perp : PerpPosition :=
  mkPerpPosition (perp_venue_ref (GmxV2 demo_chain)) (mkMarketRef "ETH-USD" (VenueRef_new "gmx_v2")) Long
    10 25000 [(mkTokenRef usdc_key, 6000)] "2500" Isolated (demo_live "2500") (demo_live None)
    (demo_live 0) (demo_live 0) (demo_live "5").
Definition demo_perp_wallet : WalletState :=
  ws_set_positions demo_wallet
    [mkPosition "gmx_v2:ETH-USD:long" (ProtocolRef_new "gmx_v2") None (PkPerpPosition demo_perp)
       1700000000 demo_source].
Definition demo_margin : AdjustMarginAction :=
  mkAdjustMarginAction (GmxV2 demo_chain) (Some "gmx_v2:ETH-USD:long"%string) None None (-1500)
    (Some (mkAdjustMarginLiveInputs (demo_live (mkPerpPositionLive 10 25000 "2500" "2500" None 0))
             (demo_live 900))).
Definition demo_close : ClosePerpAction :=
  mkClosePerpAction (GmxV2 demo_chain) "gmx_v2:ETH-USD:long" None 50
    (mkClosePerpLiveInputs (demo_live "2400") (demo_live (-1000)) (demo_live 12) (demo_live 10)).
Definition demo_open : OpenPerpAction :=
  mkOpenPerpAction (Vertex demo_chain) (mkMarketRef "BTC-USD" (VenueRef_new "vertex")) Short
    (BaseAmount 3) "4" (mkTokenRef usdc_key, 50000) Cross 50 false
    (mkOpenPerpLiveInputs (demo_live "40000") (demo_live "40000") (demo_live "0.0001") (demo_live 100)
       (demo_live "20") (demo_live 1000) (demo_live 500) (demo_live 10) (demo_live 5)
       (demo_live (mkPerpAccountState 90000 0 60000 []))).
Definition demo_perp_delta (a : PerpAction) (s : WalletState) : StateDelta :=
  match apply_perp_action (S0 := demo_serde) (D0 := fixed_decimal) a s demo_ctx with
  | Ok d => d | _ => StateDelta_default end.

Lemma adjust_margin_conserves_witness :
  exists s', apply_delta (H := demo_serde) demo_perp_wallet
      (demo_perp_delta (AdjustMargin demo_margin) demo_perp_wallet) = Ok s' /\
    fungible_balance s' usdc_key = fungible_balance demo_perp_wallet usdc_key + 1500.
Proof.
  destruct (adjust_margin_conserves (S0 := demo_serde) demo_margin demo_perp_wallet demo_ctx
    (demo_perp_delta (AdjustMargin demo_margin) demo_perp_wallet))
    as (_ & id & perp & tok & locked & s' & Hid & Hp & Hh & _ & Hs & _ & Hb & _).
  - decide_now.
  - vm_compute. split; discriminate.
  - vm_compute. reflexivity.
  - vm_compute. reflexivity.
  - injection Hid as <-. vm_compute in Hp. injection Hp as <-. injection Hh as <- <-.
    exists s'. split; [exact Hs|]. apply Hb; vm_compute; discriminate.
Defined.

Lemma close_perp_settles_witness :
  exists cash s', apply_delta (H := demo_serde) demo_perp_wallet
      (demo_perp_delta (ClosePosition demo_close) demo_perp_wallet) = Ok s' /\
    fungible_balance s' usdc_key = fungible_balance demo_perp_wallet usdc_key + 6000 + cash.
Proof.
  destruct (close_perp_settles (S0 := demo_serde) (D0 := fixed_decimal) demo_close demo_perp_wallet demo_ctx
    (demo_perp_delta (ClosePosition demo_close) demo_perp_wallet))
    as (perp & tok & locked & cash & Hp & Hh & Hc & Hs).
  - decide_now.
  - repeat constructor; vm_compute; discriminate.
  - vm_compute. reflexivity.
  - vm_compute in Hp. injection Hp as <-. injection Hh as <- <-. vm_compute in Hc. injection Hc as <-.
    destruct Hs as (s' & Hs & Hb & _); [vm_compute; (reflexivity || discriminate)..|].
    eexists _, s'. split; [exact Hs|exact Hb].
Defined.

(** A second margin is lost on the way: add 700 wei of ether to the position, then close it.
    The ether leaves the wallet with the increase and does not come back with the close. *)
Definition demo_increase : IncreasePerpAction :=
  mkIncreasePerpAction (GmxV2 demo_chain) "gmx_v2:ETH-USD:long" (BaseAmount 5)
    (Some (mkTokenRef eth_key, 700)) 50 (op_live_inputs demo_open).
Definition demo_perp_run (s : WalletState) (a : PerpAction) : ReducerResult WalletState :=
  d ← apply_perp_action (S0 := demo_serde) (D0 := fixed_decimal) a s demo_ctx;
  apply_delta (H := demo_serde) s d.
Definition demo_margins (w : ReducerResult WalletState) : list (Z * option (list (TokenRef * U256))) :=
  match w with
  | Ok s => [(fungible_balance s eth_key, pp_collateral <$> perp_at s "gmx_v2:ETH-USD:long")]
  | _ => []
  end.

Example close_loses_second_margin :
  let w := demo_perp_run demo_perp_wallet (IncreasePosition demo_increase) in
  demo_margins (Ok demo_perp_wallet) = [(5000000000000000000, Some [(mkTokenRef usdc_key, 6000)])] /\
  demo_margins w =
    [(4999999999999999300, Some [(mkTokenRef usdc_key, 6000); (mkTokenRef eth_key, 700)])] /\
  demo_margins (s ← w; demo_perp_run s (ClosePosition demo_close)) = [(4999999999999999300, None)].
Proof. vm_compute. repeat split. Qed.

Lemma open_perp_exact_witness :
  exists s', apply_delta (H := demo_serde) demo_wallet
      (demo_perp_delta (OpenPosition demo_open) demo_wallet) = Ok s' /\
    fungible_balance s' usdc_key = fungible_balance demo_wallet usdc_key - 50000.
Proof.
  destruct (open_perp_exact (S0 := demo_serde) (D0 := fixed_decimal) demo_open demo_wallet demo_ctx
    (demo_perp_delta (OpenPosition demo_open) demo_wallet))
    as (margin & size & notional & liq & s' & _ & _ & _ & _ & Hs & _ & Hb & _).
  - vm_compute. split; discriminate.
  - vm_compute. reflexivity.
  - exists s'. split; [exact Hs|]. apply Hb. vm_compute. discriminate.
Defined.
End PerpEffect.
