(* ===== verification/Apply.v ===== *)
(** * The top-level reducer (apply.rs, action/src/lib.rs)

    An [Action] is a body with its submission metadata; the body is one action
    of a domain, a multicall of bodies, or an unidentified call. [apply_body]
    dispatches to the domain's reducer and runs a multicall child by child. The
    domains are used through [Reducer] (the Rust trait) and [ReducerLaws] (what
    the dispatcher relies on), so that the theorems on multicalls do not look
    inside a domain. *)
From stdpp Require Import base tactics numbers list strings gmap.
From S2P Require Import Prelude Types Positions Wallet Serde Fixtures Delta BalanceOps ApprovalOps.
From S2P Require Import PositionOps Replay TokenEffect AmmTypes AmmMath AmmSwap AmmLiquidity AmmIntent.
From S2P Require Import Derived LendingTypes LendingMath LendingLedger LendingEffect StaticDomains Airdrop.
From S2P Require Import Launchpad Hyperliquid PerpMath PerpEffect.

(** ** The action tree *)
Record Eip712Domain := mkEip712Domain {
  ed_name : string;
  ed_version : option string;
  ed_chain_id : option Z;
  ed_verifying_contract : option Address;
  ed_salt : option string;
}.

Inductive ActionNature :=
| OnchainTx (chain : ChainId) (nonce : Z) (gas_limit : U256) (gas_price : LiveField U256) (value : U256)
| OffchainSig (domain : Eip712Domain) (deadline : Time) (nonce_key : option NonceKey).

Record ActionMeta := mkActionMeta {
  me_submitted_at : Time;
  me_submitter : Address;
  me_nature : ActionNature;
}.

Inductive ActionBody :=
| BodyToken (a : TokenAction)
| BodyAmm (a : AmmAction)
| BodyLending (a : LendingAction)
| BodyAirdrop (a : Airdrop.AirdropAction)
| BodyLaunchpad (a : Launchpad.LaunchpadAction)
| BodyPerp (a : Perp.PerpAction)
| BodyLiquidStaking (a : LiquidStaking.LiquidStakingAction)
| BodyPermission (a : Permission.PermissionAction)
| BodyYield (a : Yield.YieldAction)
| BodyRestaking (a : Restaking.RestakingAction)
| BodyStaking (a : Staking.StakingAction)
| BodyGovernance (a : Governance.GovernanceAction)
| BodyHyperliquidCore (a : Hyperliquid.HyperliquidCoreAction)
| BodyMarketplace (a : Marketplace.MarketplaceAction)
| BodyBridge (a : Bridge.BridgeAction)
| Multicall (actions : list ActionBody)
| UnknownCall (target : Address) (chain : ChainId) (calldata : string) (value : U256).

Record Action := mkAction {
  ac_meta : ActionMeta;
  ac_body : ActionBody;
}.

(** ** The [Reducer] trait *)
Class Reducer (A : Type) :=
  reduce : A -> WalletState -> EvalContext -> ReducerResult StateDelta.

(** What the dispatcher relies on: a reducer charges no gas, does not look at
    the position of the action in its bundle, and when the amounts the action
    grants are words ([word_grants]) so are the allowances it records. *)
Class ReducerLaws (A : Type) {R : Reducer A} := {
  word_grants : A -> Prop;
  reduce_gas a s ctx d : reduce a s ctx = Ok d -> sd_gas_paid d = None;
  reduce_index a s ctx i : reduce a s (with_action_index ctx i) = reduce a s ctx;
  reduce_tokens a s ctx d :
    word_grants a -> reduce a s ctx = Ok d -> Forall wf_token_change (sd_token_changes d);
}.

(** [apply_multicall], for a body reducer [body_apply]. *)
Section Multicall.
Context {S0 : PositionSerde} {A : Type}.
Variable body_apply : A -> WalletState -> EvalContext -> ReducerResult StateDelta.

Fixpoint multicall_loop (ctx : EvalContext) (actions : list A) (i : nat)
    (accumulated : StateDelta) (current : WalletState) : ReducerResult StateDelta :=
  match actions with
  | [] => Ok accumulated
  | body :: rest =>
      sub_delta ← body_apply body current (with_action_index ctx i);
      current' ← apply_delta current sub_delta;
      accumulated' ← merge_delta accumulated sub_delta;
      multicall_loop ctx rest (S i) accumulated' current'
  end.

Definition apply_multicall (state : WalletState) (ctx : EvalContext) (actions : list A)
    : ReducerResult StateDelta :=
  multicall_loop ctx actions 0 StateDelta_default state.
End Multicall.

Section Dispatch.
Context {S0 : PositionSerde} {D0 : RustDecimal} {A0 : AddressDebug} {P0 : U256Parse}.

#[global] Instance token_reducer : Reducer TokenAction := apply_token_action.
#[global] Instance amm_reducer : Reducer AmmAction := apply_amm_action.
#[global] Instance lending_reducer : Reducer LendingAction := apply_lending_action.
#[global] Instance airdrop_reducer : Reducer Airdrop.AirdropAction := Airdrop.apply_airdrop_action.
#[global] Instance launchpad_reducer : Reducer Launchpad.LaunchpadAction := Launchpad.apply_launchpad_action.
#[global] Instance perp_reducer : Reducer Perp.PerpAction := PerpEffect.apply_perp_action.
#[global] Instance liquid_staking_reducer : Reducer LiquidStaking.LiquidStakingAction :=
  LiquidStaking.apply_liquid_staking_action.
#[global] Instance permission_reducer : Reducer Permission.PermissionAction :=
  Permission.apply_permission_action.
#[global] Instance yield_reducer : Reducer Yield.YieldAction := Yield.apply_yield_action.
#[global] Instance restaking_reducer : Reducer Restaking.RestakingAction := Restaking.apply_restaking_action.
#[global] Instance staking_reducer : Reducer Staking.StakingAction := Staking.apply_staking_action.
#[global] Instance governance_reducer : Reducer Governance.GovernanceAction :=
  Governance.apply_governance_action.
#[global] Instance hyperliquid_reducer : Reducer Hyperliquid.HyperliquidCoreAction :=
  Hyperliquid.apply_hyperliquid_action.
#[global] Instance marketplace_reducer : Reducer Marketplace.MarketplaceAction :=
  Marketplace.apply_marketplace_action.
#[global] Instance bridge_reducer : Reducer Bridge.BridgeAction := Bridge.apply_bridge_action.

(** [ActionBody::apply] *)
Fixpoint apply_body (body : ActionBody) (state : WalletState) (ctx : EvalContext)
    : ReducerResult StateDelta :=
  match body with
  | BodyToken a => reduce a state ctx
  | BodyAmm a => reduce a state ctx
  | BodyLending a => reduce a state ctx
  | BodyAirdrop a => reduce a state ctx
  | BodyLaunchpad a => reduce a state ctx
  | BodyPerp a => reduce a state ctx
  | BodyLiquidStaking a => reduce a state ctx
  | BodyPermission a => reduce a state ctx
  | BodyYield a => reduce a state ctx
  | BodyRestaking a => reduce a state ctx
  | BodyStaking a => reduce a state ctx
  | BodyGovernance a => reduce a state ctx
  | BodyHyperliquidCore a => reduce a state ctx
  | BodyBridge a => reduce a state ctx
  | BodyMarketplace a => reduce a state ctx
  | Multicall actions => apply_multicall apply_body state ctx actions
  | UnknownCall target _ _ _ => Err (UnknownAction "unidentified call to {target:?}")
  end.

(** [apply] *)
Definition apply (state : WalletState) (action : Action) (ctx : EvalContext)
    : ReducerResult StateDelta :=
  apply_body (ac_body action) state ctx.
End Dispatch.

(** ** The laws, domain by domain *)
Definition wf_tokens (d : StateDelta) : Prop := Forall wf_token_change (sd_token_changes d).

Lemma wf_tokens_default : wf_tokens StateDelta_default.
Proof. constructor. Qed.
Lemma wf_tokens_push d tc : wf_token_change tc -> wf_tokens d -> wf_tokens (push_token d tc).
Proof. intros Ht Hd. unfold wf_tokens. simpl. apply Forall_app. by auto. Qed.
Lemma wf_tokens_credit s d k x d' : credit s d k x = Ok d' -> wf_tokens d -> wf_tokens d'.
Proof. intros [_ ->]%credit_Ok. by apply wf_tokens_push. Qed.
Lemma wf_tokens_debit s d k x d' : debit s d k x = Ok d' -> wf_tokens d -> wf_tokens d'.
Proof. intros (e & _ & _ & ->)%debit_Ok. by apply wf_tokens_push. Qed.
Lemma wf_tokens_foldM {A} (f : StateDelta -> A -> ReducerResult StateDelta) l d d' :
  foldM f l d = Ok d' -> (forall d x d', f d x = Ok d' -> wf_tokens d -> wf_tokens d') ->
  wf_tokens d -> wf_tokens d'.
Proof.
  intros Hd Hf Hw. eapply (foldM_inv wf_tokens (fun _ => True)); [|by apply Forall_true|exact Hw|exact Hd].
  eauto.
Qed.
Lemma wf_tokens_upsert `{PositionSerde} f m1 m2 s d id g d' :
  upsert_kind f m1 m2 s d id g = Ok d' -> wf_tokens d -> wf_tokens d'.
Proof. by intros (p & _ & _ & _ & ->)%upsert_kind_Ok. Qed.
Lemma wf_tokens_open s d p d' : open_position s d p = Ok d' -> wf_tokens d -> wf_tokens d'.
Proof. unfold open_position. intros Ho. by run_ok. Qed.

Ltac tokens_step :=
  match goal with
  | H : credit _ _ _ _ = Ok ?d |- wf_tokens ?d => eapply wf_tokens_credit; [exact H|]
  | H : debit _ _ _ _ = Ok ?d |- wf_tokens ?d => eapply wf_tokens_debit; [exact H|]
  | H : upsert_kind _ _ _ _ _ _ _ = Ok ?d |- wf_tokens ?d => eapply wf_tokens_upsert; [exact H|]
  | H : open_position _ _ _ = Ok ?d |- wf_tokens ?d => eapply wf_tokens_open; [exact H|]
  | H : credit_fees _ _ _ = Ok ?d |- wf_tokens ?d =>
      eapply wf_tokens_foldM; [exact H|intros ? [? ?] ? ? ?; run_ok|]
  | H : foldM _ _ _ = Ok ?d |- wf_tokens ?d =>
      eapply wf_tokens_foldM; [exact H|let y := fresh in intros ? y ? ? ?; try destruct y as [? ?]; simpl in *; run_ok|]
  | |- wf_tokens (push_token _ _) => apply wf_tokens_push
  | |- wf_tokens (push_position ?d _) => change (wf_tokens d)
  | |- wf_tokens (push_pending ?d _) => change (wf_tokens d)
  | |- wf_tokens (raw_credit _ _ _) => apply wf_tokens_push; [exact I|]
  | |- wf_tokens StateDelta_default => apply wf_tokens_default
  | |- wf_tokens (if ?b then _ else _) => destruct b
  | _ => assumption
  | _ => exact I
  end.
Ltac tokens_wf := repeat tokens_step; try done.

Section Laws.
Context {S0 : PositionSerde} {D0 : RustDecimal} {A0 : AddressDebug} {P0 : U256Parse}.

(** The amounts an action grants to a spender are words. *)
Definition token_grants (a : TokenAction) : Prop :=
  match a with
  | TaErc20Approve a => u256 (ea_amount a)
  | TaPermit2Approve a => u256 (pa_amount a)
  | _ => True
  end.
Definition amm_grants (a : AmmAction) : Prop :=
  match a with Swap a => u256 (swap_total_in (sp_direction (sw_params a))) | _ => True end.
Definition lending_grants (a : LendingAction) : Prop :=
  match a with DelegateBorrow a => u256 (db_amount a) | _ => True end.

Lemma u256_max_word : u256 U256_MAX.
Proof. int_solve. Qed.

Lemma token_tokens a s ctx d :
  token_grants a -> apply_token_action a s ctx = Ok d -> wf_tokens d.
Proof.
  destruct a as [a|a|a|a|a|a|a|a|a|a|[scope]|a|a|a]; simpl;
    unfold apply_erc20_approve, apply_erc20_permit, apply_permit2_approve, apply_permit2_sign,
      apply_permit2_sign_transfer, apply_permit2_transfer_from, apply_erc20_transfer,
      apply_nft_approve, apply_nft_set_for_all, apply_nft_transfer, apply_revoke_approval,
      set_erc20_allowance, upsert_permit2_allowance, revoke_erc20_allowance,
      revoke_permit2_allowance, set_for_all, set_nft_approve, transfer, transfer_nft;
    intros Hg Ha; try destruct scope; run_ok; tokens_wf.
  - simpl. destruct (_ =? _); [apply u256_max_word|done].
  - destruct (ns_approved a); [apply u256_max_word|done].
Qed.

Lemma amm_tokens a s ctx d : amm_grants a -> apply_amm_action a s ctx = Ok d -> wf_tokens d.
Proof.
  destruct a; simpl; intros Hg Hd.
  - unfold apply_swap, aggregator_hooks, apply_permit_bundle, upsert_permit2_allowance in Hd.
    run_ok; tokens_wf.
  - unfold apply_gsm_swap in Hd. inv_ok. tokens_wf.
  - unfold apply_add_liquidity, credit_lp, ensure_mint_stub in Hd. destruct (al_params a); run_ok; tokens_wf.
  - unfold apply_remove_liquidity, transfer_nft in Hd. destruct (rl_params a); run_ok; tokens_wf.
  - unfold apply_collect_fees in Hd. run_ok; tokens_wf.
  - unfold apply_sign_intent in Hd. inv_ok. tokens_wf.
  - unfold apply_settle_intent in Hd. inv_ok. tokens_wf.
  - unfold apply_cancel_intent in Hd. inv_ok. tokens_wf.
  - unfold apply_pre_sign_intent in Hd. run_ok; tokens_wf.
Qed.

Lemma lending_tokens a s ctx d : lending_grants a -> apply_lending_action a s ctx = Ok d -> wf_tokens d.
Proof.
  destruct a; simpl; unfold apply_supply, apply_withdraw, apply_borrow, apply_repay, apply_swap_rate_mode,
    apply_set_emode, apply_set_collateral, apply_delegate_borrow, apply_liquidate, upsert_lending_account;
    intros Hg Hd; run_ok; tokens_wf.
Qed.

Lemma airdrop_tokens a s ctx d : Airdrop.apply_airdrop_action a s ctx = Ok d -> wf_tokens d.
Proof.
  destruct a; simpl; unfold Airdrop.apply_claim, Airdrop.apply_delegate_governance; intros Hd;
    run_ok; tokens_wf.
Qed.

Lemma launchpad_tokens a s ctx d : Launchpad.apply_launchpad_action a s ctx = Ok d -> wf_tokens d.
Proof.
  destruct a; simpl; unfold Launchpad.apply_commit, Launchpad.apply_claim_allocation,
    Launchpad.apply_claim_vested, Launchpad.apply_refund, Launchpad.apply_withdraw_commit,
    Launchpad.push_position_update; intros Hd; run_ok; tokens_wf.
Qed.

Lemma hyperliquid_tokens a s ctx d : Hyperliquid.apply_hyperliquid_action a s ctx = Ok d -> wf_tokens d.
Proof.
  destruct a; simpl; try (intros [= <-]; apply wf_tokens_default);
    unfold Hyperliquid.apply_hl_withdraw, Hyperliquid.apply_hl_usd_send, Hyperliquid.apply_outflow,
      upsert_hl_account; intros Hd; run_ok; tokens_wf.
Qed.

Lemma perp_tokens a s ctx d : PerpEffect.apply_perp_action a s ctx = Ok d -> wf_tokens d.
Proof.
  destruct a; simpl; intros Hd;
    unfold PerpEffect.apply_open_perp, PerpEffect.apply_close_perp, PerpEffect.apply_increase_perp,
      PerpEffect.apply_decrease_perp, PerpEffect.apply_adjust_margin, PerpEffect.apply_change_leverage,
      PerpEffect.apply_change_margin_mode, PerpEffect.apply_place_order, PerpEffect.apply_cancel_order,
      PerpEffect.apply_claim_funding, PerpEffect.change_leverage_step, PerpEffect.change_margin_mode_step, PerpEffect.settle_cash,
      upsert_perp_position, close_position in Hd; run_ok; tokens_wf.
Qed.

(** The static domains record nothing. *)
Lemma static_laws {A} {R : Reducer A} :
  (forall a s ctx, reduce a s ctx = Ok StateDelta_default) -> ReducerLaws A.
Proof.
  intros Hr. split with (word_grants := fun _ => True).
  - intros a s ctx d. rewrite Hr. by intros [= <-].
  - intros a s ctx i. by rewrite !Hr.
  - intros a s ctx d _. rewrite Hr. intros [= <-]. apply wf_tokens_default.
Defined.

#[global] Instance token_laws : ReducerLaws TokenAction.
Proof.
  split with (word_grants := token_grants); [apply token_action_gas|by destruct a|apply token_tokens].
Defined.
#[global] Instance amm_laws : ReducerLaws AmmAction.
Proof.
  split with (word_grants := amm_grants); [apply amm_action_gas|by destruct a|apply amm_tokens].
Defined.
#[global] Instance lending_laws : ReducerLaws LendingAction.
Proof.
  split with (word_grants := lending_grants); [apply lending_action_gas|by destruct a|apply lending_tokens].
Defined.
#[global] Instance airdrop_laws : ReducerLaws Airdrop.AirdropAction.
Proof.
  split with (word_grants := fun _ => True); [apply Airdrop.airdrop_action_gas|by destruct a|intros a s ctx d _; apply airdrop_tokens].
Defined.
#[global] Instance launchpad_laws : ReducerLaws Launchpad.LaunchpadAction.
Proof.
  split with (word_grants := fun _ => True); [apply Launchpad.launchpad_action_gas|by destruct a|intros a s ctx d _; apply launchpad_tokens].
Defined.
#[global] Instance perp_laws : ReducerLaws Perp.PerpAction.
Proof.
  split with (word_grants := fun _ => True); [apply PerpEffect.perp_action_gas|by destruct a|intros a s ctx d _; apply perp_tokens].
Defined.
#[global] Instance hyperliquid_laws : ReducerLaws Hyperliquid.HyperliquidCoreAction.
Proof.
  split with (word_grants := fun _ => True); [apply Hyperliquid.hyperliquid_action_gas|by destruct a|intros a s ctx d _; apply hyperliquid_tokens].
Defined.
#[global] Instance liquid_staking_laws : ReducerLaws LiquidStaking.LiquidStakingAction.
Proof. apply static_laws. by intros []. Defined.
#[global] Instance permission_laws : ReducerLaws Permission.PermissionAction.
Proof. apply static_laws. by intros []. Defined.
#[global] Instance yield_laws : ReducerLaws Yield.YieldAction.
Proof. apply static_laws. by intros []. Defined.
#[global] Instance restaking_laws : ReducerLaws Restaking.RestakingAction.
Proof. apply static_laws. by intros []. Defined.
#[global] Instance staking_laws : ReducerLaws Staking.StakingAction.
Proof. apply static_laws. by intros []. Defined.
#[global] Instance governance_laws : ReducerLaws Governance.GovernanceAction.
Proof. apply static_laws. by intros []. Defined.
#[global] Instance marketplace_laws : ReducerLaws Marketplace.MarketplaceAction.
Proof. apply static_laws. by intros []. Defined.
#[global] Instance bridge_laws : ReducerLaws Bridge.BridgeAction.
Proof. apply static_laws. by intros []. Defined.

(** ** Bodies *)
Definition is_leaf (b : ActionBody) : bool :=
  match b with Multicall _ => false | _ => true end.

Lemma body_rect_leaves (P : ActionBody -> Prop) :
  (forall b, is_leaf b = true -> P b) -> (forall l, Forall P l -> P (Multicall l)) -> forall b, P b.
Proof.
  intros Hleaf Hm. fix IH 1. intros b. destruct b; try (by apply Hleaf).
  apply Hm. induction actions as [|b l IHl]; constructor; [apply IH|exact IHl].
Qed.

(** The calls of a body, multicalls opened. *)
Fixpoint leaves (b : ActionBody) : list ActionBody :=
  match b with Multicall l => flat_map leaves l | _ => [b] end.

Lemma leaves_leaf b : is_leaf b = true -> leaves b = [b].
Proof. by destruct b. Qed.

Lemma leaves_are_leaves b : Forall (fun x => is_leaf x = true) (leaves b).
Proof.
  induction b as [b Hb|l IH] using body_rect_leaves; [by rewrite leaves_leaf by done; repeat constructor|].
  simpl. induction IH; simpl; [constructor|by apply Forall_app].
Qed.

(** The amounts granted anywhere in a body are words. *)
Definition leaf_grants (b : ActionBody) : Prop :=
  match b with
  | BodyToken a => word_grants a
  | BodyAmm a => word_grants a
  | BodyLending a => word_grants a
  | _ => True
  end.
Definition body_grants (b : ActionBody) : Prop := Forall leaf_grants (leaves b).

Lemma body_grants_multicall l : body_grants (Multicall l) <-> Forall body_grants l.
Proof.
  unfold body_grants. simpl. induction l as [|b l IH]; simpl; [by split; constructor|].
  rewrite Forall_app, Forall_cons. by rewrite IH.
Qed.

Lemma leaf_gas b s ctx d : is_leaf b = true -> apply_body b s ctx = Ok d -> sd_gas_paid d = None.
Proof. destruct b; try done; intros _; apply reduce_gas. Qed.

Lemma leaf_index b s ctx i :
  is_leaf b = true -> apply_body b s (with_action_index ctx i) = apply_body b s ctx.
Proof. destruct b; try done; intros _; apply reduce_index. Qed.

Lemma leaf_tokens b s ctx d :
  is_leaf b = true -> leaf_grants b -> apply_body b s ctx = Ok d -> wf_tokens d.
Proof.
  destruct b; try done; intros _ Hg; apply reduce_tokens; exact Hg || exact I.
Qed.

(** A body that a reducer of the tree below has applied charges no gas. *)
Lemma loop_gas ctx l : forall i acc cur d,
  Forall (fun b => forall s ctx d, apply_body b s ctx = Ok d -> sd_gas_paid d = None) l ->
  sd_gas_paid acc = None -> multicall_loop apply_body ctx l i acc cur = Ok d -> sd_gas_paid d = None.
Proof.
  induction l as [|b l IH]; simpl; intros i acc cur d Hl Hg Hd; inv_ok; [done|].
  apply Forall_cons in Hl as [Hb Hl]. eapply IH; [done| |eassumption].
  match goal with Hm : merge_delta _ _ = Ok _ |- _ => rewrite (merge_delta_no_gas_l _ _ Hg) in Hm;
    injection Hm as <- end. simpl. by eapply Hb.
Qed.

Lemma body_gas b : forall s ctx d, apply_body b s ctx = Ok d -> sd_gas_paid d = None.
Proof.
  induction b as [b Hb|l IH] using body_rect_leaves; intros s ctx d; [by apply leaf_gas|].
  simpl. unfold apply_multicall. by apply loop_gas.
Qed.

Lemma loop_context ctx j l : forall i acc cur,
  multicall_loop apply_body (with_action_index ctx j) l i acc cur =
  multicall_loop apply_body ctx l i acc cur.
Proof.
  induction l as [|b l IH]; intros i acc cur; simpl; [done|].
  change (with_action_index (with_action_index ctx j) i) with (with_action_index ctx i).
  destruct (apply_body b _ _); [|done..]. simpl. destruct (apply_delta _ _); [|done..]. simpl.
  destruct (merge_delta _ _); [|done..]. apply IH.
Qed.

Lemma body_index b s ctx i : apply_body b s (with_action_index ctx i) = apply_body b s ctx.
Proof.
  destruct (is_leaf b) eqn:Hb; [by apply leaf_index|]. destruct b; try done. apply loop_context.
Qed.

(** The step of a caller: reduce a body, then advance the wallet. *)
Definition advance (ctx : EvalContext) (s : WalletState) (b : ActionBody) : ReducerResult WalletState :=
  d ← apply_body b s ctx; apply_delta s d.

Lemma loop_sequential ctx l : forall i s acc cur,
  sd_gas_paid acc = None -> apply_delta s acc = Ok cur ->
  (d ← multicall_loop apply_body ctx l i acc cur; apply_delta s d) = foldM (advance ctx) l cur.
Proof.
  induction l as [|b l IH]; intros i s acc cur Hg Ha; simpl; [exact Ha|].
  change (advance ctx cur b) with (apply_body b cur ctx ≫= apply_delta cur). rewrite body_index.
  destruct (apply_body b cur ctx) as [d| |] eqn:Hb; [|done..]. simpl.
  destruct (apply_delta cur d) as [cur'| |] eqn:Hd; [|done..]. simpl.
  pose proof (merge_delta_no_gas_l acc d Hg) as Hm. rewrite Hm. simpl. apply IH; [simpl; by eapply body_gas|].
  eapply apply_delta_extend; [exact Hg|exact Hm|]. by exists cur.
Qed.

Lemma loop_advances ctx l : forall i acc cur d,
  multicall_loop apply_body ctx l i acc cur = Ok d -> exists s', foldM (advance ctx) l cur = Ok s'.
Proof.
  induction l as [|b l IH]; simpl; intros i acc cur d Hd; [by eexists|].
  change (advance ctx cur b) with (apply_body b cur ctx ≫= apply_delta cur). rewrite body_index in Hd.
  destruct (apply_body b cur ctx); [|done..]. simpl in *. destruct (apply_delta cur _); [|done..].
  simpl in *. destruct (merge_delta acc _); [|done..]. by eauto.
Qed.

(** A multicall that succeeds has advanced the wallet. *)
Lemma multicall_runs l s ctx d :
  apply_body (Multicall l) s ctx = Ok d ->
  exists s', apply_delta s d = Ok s' /\ foldM (advance ctx) l s = Ok s'.
Proof.
  simpl. unfold apply_multicall. intros Hd. destruct (loop_advances _ _ _ _ _ _ Hd) as [s' Hs'].
  pose proof (loop_sequential ctx l 0 s StateDelta_default s eq_refl eq_refl) as Hs.
  rewrite Hd, Hs' in Hs. by exists s'.
Qed.

(** The accumulator only collects. *)
Lemma loop_accumulates ctx l : forall i j acc acc' m cur,
  sd_gas_paid acc = None -> sd_gas_paid acc' = None -> merge_delta acc acc' = Ok m ->
  multicall_loop apply_body ctx l i m cur =
  (d ← multicall_loop apply_body ctx l j acc' cur; merge_delta acc d).
Proof.
  induction l as [|b l IH]; intros i j acc acc' m cur Hg Hg' Hm; simpl; [done|]. rewrite !body_index.
  destruct (apply_body b cur ctx) as [d| |] eqn:Hb; [|done..]. simpl.
  destruct (apply_delta cur d) as [cur'| |]; [|done..]. simpl.
  rewrite (merge_delta_no_gas_l acc acc' Hg) in Hm. injection Hm as <-.
  rewrite !merge_delta_no_gas_l by done. apply IH; [done|simpl; by eapply body_gas|].
  rewrite merge_delta_no_gas_l by done. simpl. by rewrite !app_assoc.
Qed.

Lemma loop_app ctx l1 l2 : forall i acc cur,
  multicall_loop apply_body ctx (l1 ++ l2) i acc cur =
  (acc1 ← multicall_loop apply_body ctx l1 i acc cur; cur1 ← foldM (advance ctx) l1 cur;
   multicall_loop apply_body ctx l2 (i + length l1) acc1 cur1).
Proof.
  induction l1 as [|b l1 IH]; intros i acc cur; simpl; [by rewrite Nat.add_0_r|].
  change (advance ctx cur b) with (apply_body b cur ctx ≫= apply_delta cur). rewrite body_index. destruct (apply_body b cur ctx); [|done..]. simpl.
  destruct (apply_delta cur _) as [cur'| |]; [|done..]. simpl.
  destruct (merge_delta acc _) as [acc'| |]; [|done..]. simpl. by rewrite IH, Nat.add_succ_r.
Qed.

Lemma loop_any_index ctx l i j acc cur :
  multicall_loop apply_body ctx l i acc cur = multicall_loop apply_body ctx l j acc cur.
Proof.
  revert i j acc cur. induction l as [|b l IH]; intros i j acc cur; simpl; [done|]. rewrite !body_index.
  destruct (apply_body b _ _); [|done..]. simpl. destruct (apply_delta _ _); [|done..]. simpl.
  destruct (merge_delta _ _); [|done..]. apply IH.
Qed.

(** A nested multicall is its children, in place. *)
Lemma loop_open ctx l rest i acc cur :
  sd_gas_paid acc = None ->
  multicall_loop apply_body ctx (Multicall l :: rest) i acc cur =
  multicall_loop apply_body ctx (l ++ rest) i acc cur.
Proof.
  intros Hg. rewrite loop_app. simpl. unfold apply_multicall. rewrite loop_context.
  assert (merge_delta acc StateDelta_default = Ok acc) as Hm.
  { rewrite merge_delta_no_gas_l by done. simpl. rewrite !app_nil_r. destruct acc; simpl in *. by subst. }
  rewrite (loop_accumulates ctx l i 0 acc StateDelta_default acc cur Hg eq_refl Hm).
  rewrite <- (loop_sequential ctx l 0 cur StateDelta_default cur eq_refl eq_refl).
  destruct (multicall_loop apply_body ctx l 0 StateDelta_default cur) as [d| |]; [|done..]. simpl.
  rewrite merge_delta_no_gas_l by done. simpl.
  destruct (apply_delta cur d); [|done..]. simpl. apply loop_any_index.
Qed.

Lemma loop_cons ctx b l l' i acc cur :
  sd_gas_paid acc = None ->
  (forall j acc cur, sd_gas_paid acc = None ->
     multicall_loop apply_body ctx l j acc cur = multicall_loop apply_body ctx l' j acc cur) ->
  multicall_loop apply_body ctx (b :: l) i acc cur = multicall_loop apply_body ctx (b :: l') i acc cur.
Proof.
  intros Hg IH. simpl. destruct (apply_body b _ _) as [d| |] eqn:Hb; [|done..]. simpl.
  destruct (apply_delta _ _); [|done..]. simpl. rewrite merge_delta_no_gas_l by done. simpl.
  apply IH. simpl. by eapply body_gas.
Qed.

Lemma loop_flatten ctx b : forall rest i acc cur,
  sd_gas_paid acc = None ->
  multicall_loop apply_body ctx (b :: rest) i acc cur =
  multicall_loop apply_body ctx (leaves b ++ rest) i acc cur.
Proof.
  induction b as [b Hb|l IH] using body_rect_leaves; intros rest i acc cur Hg; [by rewrite leaves_leaf|].
  rewrite loop_open by done. simpl. revert rest i acc cur Hg.
  induction IH as [|b l Hb _ IHl]; intros rest i acc cur Hg; simpl; [done|].
  rewrite <- app_assoc, <- Hb by done. apply loop_cons; [done|]. intros. by apply IHl.
Qed.

Lemma loop_flattens ctx l : forall i acc cur,
  sd_gas_paid acc = None ->
  multicall_loop apply_body ctx l i acc cur = multicall_loop apply_body ctx (flat_map leaves l) i acc cur.
Proof.
  induction l as [|b l IH]; intros i acc cur Hg; simpl; [done|].
  rewrite <- loop_flatten by done. by apply loop_cons.
Qed.

(** ** Unidentified calls *)
Definition is_unknown (b : ActionBody) : bool :=
  match b with UnknownCall _ _ _ _ => true | _ => false end.

Lemma loop_runs_all ctx l : forall i acc cur d b,
  multicall_loop apply_body ctx l i acc cur = Ok d -> b ∈ l ->
  exists s d', apply_body b s ctx = Ok d'.
Proof.
  induction l as [|x l IH]; simpl; intros i acc cur d b Hd Hin; [by apply not_elem_of_nil in Hin|].
  inv_ok. apply elem_of_cons in Hin as [->|Hin]; [|by eauto].
  match goal with Hx : apply_body x _ _ = Ok _ |- _ => rewrite body_index in Hx end. by eauto.
Qed.

(** ** What a leaf needs for its delta to apply *)
Definition leaf_ready (s : WalletState) (b : ActionBody) : Prop :=
  match b with
  | BodyToken a => wf_token_action a /\ token_action_supported s a
  | BodyAmm a => wf_amm_action a /\ amm_action_supported s a
  | BodyLending a => wf_lending_action a
  | BodyAirdrop a => Airdrop.wf_airdrop_action a
  | BodyLaunchpad a => Launchpad.wf_launchpad_action a
  | BodyPerp a => PerpEffect.wf_perp_positions s /\ PerpEffect.wf_perp_action a /\
                  PerpEffect.perp_action_supported s a
  | _ => True
  end.

Section Wallets.
Context {SL : PositionSerdeLaws S0} {PL : U256ParseLaws P0} {DR : RustDecimalRange D0}.

Lemma leaf_applies b s ctx d :
  is_leaf b = true -> wf_state s -> leaf_ready s b -> apply_body b s ctx = Ok d ->
  exists s', apply_delta s d = Ok s'.
Proof.
  intros Hl Hw Hr Hd. destruct b; try done; simpl in Hd, Hr; unfold reduce in Hd;
    try (destruct a; injection Hd as <-; exists s; apply apply_delta_default).
  - destruct Hr. by eapply token_action_delta_applies.
  - destruct Hr. by eapply amm_action_delta_applies.
  - by eapply lending_action_delta_applies.
  - by eapply rp_runs, Airdrop.airdrop_replayable.
  - by eapply rp_runs, Launchpad.launchpad_replayable.
  - destruct Hr as (? & ? & ?). by eapply rp_runs, PerpEffect.perp_replayable.
  - by eapply rp_runs, Hyperliquid.hyperliquid_replayable.
Qed.


Lemma advance_multicall ctx s l : advance ctx s (Multicall l) = foldM (advance ctx) l s.
Proof. apply (loop_sequential ctx l 0 s StateDelta_default s eq_refl eq_refl). Qed.

Lemma advance_wf ctx b : forall s s',
  body_grants b -> wf_state s -> advance ctx s b = Ok s' -> wf_state s'.
Proof.
  induction b as [b Hb|l IH] using body_rect_leaves; intros s s' Hg Hw Ha.
  - unfold advance in Ha. inv_ok. unfold body_grants in Hg. rewrite leaves_leaf in Hg by done.
    apply Forall_cons in Hg as [Hg _]. eapply apply_delta_wf; [done| | |done].
    + by eapply leaf_tokens.
    + erewrite leaf_gas; done.
  - rewrite advance_multicall in Ha. apply body_grants_multicall in Hg.
    eapply foldM_inv; [|apply Forall_and; split; [exact IH|exact Hg]|exact Hw|exact Ha].
    intros t b t' Ht [Hb Hgb] Ht'. by eapply Hb.
Qed.
End Wallets.

(** A wallet driven through a sequence of submitted actions. *)
Inductive session : WalletState -> list (Action * EvalContext) -> WalletState -> Prop :=
| session_done s : session s [] s
| session_step s a ctx d s1 rest s2 :
    apply s a ctx = Ok d -> apply_delta s d = Ok s1 -> session s1 rest s2 ->
    session s ((a, ctx) :: rest) s2.

(** ** Properties *)

(** C1: A multicall is the sequential run of its children: reducing the bundle and then
    advancing the wallet by the one merged delta gives the same result as reducing and
    advancing child by child, for every list of bodies (nested multicalls included), and when
    a child or its delta fails both fail with the same error. *)
Theorem multicall_is_sequential l s ctx :
  (d ← apply_body (Multicall l) s ctx; apply_delta s d) = foldM (advance ctx) l s.
Proof. apply advance_multicall. Qed.

(** Nesting is transparent: a multicall has exactly the delta (or the error) of the
    multicall of its calls with every nested multicall opened in place. *)
Theorem multicall_flattens l s ctx :
  apply_body (Multicall l) s ctx = apply_body (Multicall (flat_map leaves l)) s ctx /\
  Forall (fun b => is_leaf b = true) (flat_map leaves l).
Proof. split; [by apply loop_flattens|apply (leaves_are_leaves (Multicall l))]. Qed.

(** An unidentified call anywhere in a body, however deeply bundled, keeps the whole body
    from producing a delta. *)
Theorem unknown_call_blocks b s ctx :
  existsb is_unknown (leaves b) = true -> is_ok (apply_body b s ctx) = false.
Proof.
  revert s. induction b as [b Hb|l IH] using body_rect_leaves; intros s.
  - rewrite leaves_leaf by done. simpl. by destruct b.
  - simpl. intros (u & Hin%in_flat_map & Hu)%existsb_exists. destruct Hin as (b & Hin & Hub).
    apply list_elem_of_In in Hin. destruct (apply_multicall _ _ _ _) as [d| |] eqn:Hd; [|done..].
    destruct (loop_runs_all _ _ _ _ _ _ _ Hd Hin) as (t & d' & Hb).
    rewrite Forall_forall in IH. specialize (IH b Hin t). rewrite Hb in IH. simpl in IH.
    exfalso. discriminate IH. apply existsb_exists. by exists u.
Qed.

Section Wallets.
Context {SL : PositionSerdeLaws S0} {PL : U256ParseLaws P0} {DR : RustDecimalRange D0}.

(** C5: The simulator's contract: on a well-formed wallet, the delta of any body the reducers
    accept can be applied. A multicall needs nothing more; a single call must carry word-sized
    amounts and be none of the shapes whose outcome its reducer does not check (moving or
    burning an ERC-721, approving an NFT that is not held, cancelling an order that is not
    pending). *)
Theorem body_delta_applies b s ctx d :
  wf_state s -> (is_leaf b = true -> leaf_ready s b) -> apply_body b s ctx = Ok d ->
  exists s', apply_delta s d = Ok s'.
Proof.
  intros Hw Hr Hd. destruct (is_leaf b) eqn:Hb; [by eapply leaf_applies; eauto|]. destruct b; try done.
  by apply multicall_runs in Hd as (s' & Hs' & _); exists s'.
Qed.
End Wallets.

(** C2: Every wallet a session of actions can reach is well formed (holdings filed under their
    key with 256-bit balances, 256-bit allowances, no empty approval entry) and keeps its
    identity, whatever the actions are and however they are bundled. *)
Theorem session_keeps_wallet_well_formed s l s' :
  session s l s' -> Forall (fun p => body_grants (ac_body p.1)) l -> wf_state s ->
  wf_state s' /\ ws_wallet_id s' = ws_wallet_id s.
Proof.
  induction 1 as [s|s a ctx d s1 rest s2 Hd Hs1 _ IH]; intros Hg Hw; [done|].
  apply Forall_cons in Hg as [Hg Hrest]. destruct IH as [Hw2 Hid]; [done| |].
  - apply (advance_wf ctx (ac_body a) s); [done|done|]. unfold advance. by rewrite (bind_Ok _ _ _ Hd).
  - split; [done|]. rewrite Hid. by apply wallet_id_kept in Hs1.
Qed.
End Laws.

(** ** Witnesses *)
Definition demo_meta : ActionMeta :=
  mkActionMeta 1700000000 demo_addr (OnchainTx demo_chain 7 21000 (demo_live 30) 0).
Definition demo_debug_addr : AddressDebug := {| addr_debug := fun _ => "0x00" |}.

(** A USDC transfer, then two approvals in a nested bundle. *)
Definition demo_approve : ActionBody :=
  BodyToken (TaErc20Approve (mkErc20ApproveAction (mkTokenRef usdc_key) demo_spender 250)).
Definition demo_bundle : ActionBody :=
  Multicall [BodyToken (TaErc20Transfer demo_transfer); Multicall [demo_approve; demo_approve]].
Definition demo_unknown : ActionBody := UnknownCall demo_contract demo_chain "0xdeadbeef" 0.

Definition demo_apply (s : WalletState) (b : ActionBody) : ReducerResult StateDelta :=
  apply_body (S0 := demo_serde) (D0 := fixed_decimal) (A0 := demo_debug_addr) (P0 := demo_parse) b s demo_ctx.

Lemma unknown_call_blocks_witness :
  is_ok (demo_apply demo_wallet (Multicall [demo_bundle; Multicall [demo_unknown]])) = false.
Proof. apply unknown_call_blocks. reflexivity. Defined.

Lemma body_delta_applies_witness :
  exists d s', demo_apply demo_wallet demo_bundle = Ok d /\ sd_token_changes d <> [] /\
    apply_delta (H := demo_serde) demo_wallet d = Ok s'.
Proof.
  destruct (demo_apply demo_wallet demo_bundle) as [d| |] eqn:Hd; [|vm_compute in Hd; discriminate Hd..].
  destruct (body_delta_applies (S0 := demo_serde) (D0 := fixed_decimal) (A0 := demo_debug_addr)
    (P0 := demo_parse) (PL := demo_parse_laws) demo_bundle demo_wallet demo_ctx d
    ltac:(decide_now) ltac:(discriminate) Hd) as [s' Hs'].
  exists d, s'. split; [reflexivity|]. split; [|exact Hs'].
  vm_compute in Hd. injection Hd as <-. discriminate.
Defined.

Lemma session_keeps_wallet_well_formed_witness :
  exists s', session (S0 := demo_serde) (D0 := fixed_decimal) (A0 := demo_debug_addr) (P0 := demo_parse)
      demo_wallet [(mkAction demo_meta demo_bundle, demo_ctx); (mkAction demo_meta demo_approve, demo_ctx)] s' /\
    wf_state s'.
Proof.
  assert (forall s', session (S0 := demo_serde) (D0 := fixed_decimal) (A0 := demo_debug_addr) (P0 := demo_parse)
      demo_wallet [(mkAction demo_meta demo_bundle, demo_ctx); (mkAction demo_meta demo_approve, demo_ctx)] s' ->
    wf_state s') as Hwf.
  { intros s' Hs'. apply (session_keeps_wallet_well_formed (S0 := demo_serde) (D0 := fixed_decimal)
      (A0 := demo_debug_addr) (P0 := demo_parse) demo_wallet _ s' Hs'); [|decide_now].
    repeat constructor; vm_compute; discriminate. }
  destruct (demo_apply demo_wallet demo_bundle) as [d| |] eqn:Hd; [|vm_compute in Hd; discriminate Hd..].
  destruct (demo_apply (demo_after demo_wallet d) demo_approve) as [d2| |] eqn:Hd2;
    [|vm_compute in Hd2; discriminate Hd2..].
  eexists. split; [|apply Hwf]; (eapply session_step; [exact Hd| |eapply session_step; [exact Hd2| |constructor]]).
  all: apply demo_after_ok; vm_compute in Hd; injection Hd as <-; try (vm_compute in Hd2; injection Hd2 as <-);
    vm_compute; reflexivity.
Defined.
