(* ===== verification/Float64.v ===== *)
(** * Binary64 arithmetic

    Rust's [f64] as the Standard Library's executable specification of IEEE 754
    ([SpecFloat]) at 53 bits of precision: the four operations round to nearest
    even, overflow gives an infinity, invalid operations give NaN, and the
    comparisons are false on NaN. The lemmas show that off NaN the comparisons
    are a total preorder, which is what the generators of the scam filter rely
    on. *)
From Stdlib Require Import SpecFloat.
From stdpp Require Import base tactics numbers list.
From S2P Require Import Prelude.

Notation f64 := spec_float (only parsing).

Definition f_zero : f64 := S754_zero false.
Definition f_of_Z (z : Z) : f64 := binary_normalize 53 1024 z 0 false.
Definition f_one : f64 := f_of_Z 1.
Definition f_add : f64 -> f64 -> f64 := SFadd 53 1024.
Definition f_sub : f64 -> f64 -> f64 := SFsub 53 1024.
Definition f_mul : f64 -> f64 -> f64 := SFmul 53 1024.
Definition f_div : f64 -> f64 -> f64 := SFdiv 53 1024.
Definition f_opp : f64 -> f64 := SFopp.
Definition f_le : f64 -> f64 -> bool := SFleb.
Definition f_lt : f64 -> f64 -> bool := SFltb.
Definition f_eq : f64 -> f64 -> bool := SFeqb.

Definition is_nan (x : f64) : bool := match x with S754_nan => true | _ => false end.

(** [f64::max]: a NaN argument is ignored. *)
Definition f_max (a b : f64) : f64 :=
  if is_nan a then b else if is_nan b then a else if f_lt a b then b else a.
Definition f_min (a b : f64) : f64 :=
  if is_nan a then b else if is_nan b then a else if f_lt b a then b else a.

(** ** The order off NaN *)
Notation num x := (is_nan x = false) (only parsing).

(** A number as a lexicographic key: its sign class, then exponent and mantissa
    with their sign. *)
Definition f_key (x : f64) : Z * Z * Z :=
  match x with
  | S754_zero _ => (0, 0, 0)
  | S754_infinity s => (if s then -2 else 2, 0, 0)
  | S754_nan => (0, 0, 0)
  | S754_finite s m e => if s then (-1, - e, Z.neg m) else (1, e, Z.pos m)
  end.
Definition key_le (k l : Z * Z * Z) : Prop :=
  k.1.1 < l.1.1 \/ (k.1.1 = l.1.1 /\ (k.1.2 < l.1.2 \/ (k.1.2 = l.1.2 /\ k.2 <= l.2))).
Definition key_lt (k l : Z * Z * Z) : Prop :=
  k.1.1 < l.1.1 \/ (k.1.1 = l.1.1 /\ (k.1.2 < l.1.2 \/ (k.1.2 = l.1.2 /\ k.2 < l.2))).

Lemma f_compare_key a b : num a -> num b ->
  match SFcompare a b with
  | Some Lt => key_lt (f_key a) (f_key b)
  | Some Eq => f_key a = f_key b
  | Some Gt => key_lt (f_key b) (f_key a)
  | None => False
  end.
Proof.
  unfold key_lt. destruct a as [sa|sa| |sa ma ea], b as [sb|sb| |sb mb eb]; try done; intros _ _;
    try (destruct sa; destruct sb; simpl; lia || done); try (destruct sa; simpl; lia);
    try (destruct sb; simpl; lia).
  simpl. change (Pos.compare_cont Eq ma mb) with (Pos.compare ma mb).
  destruct sa, sb; simpl; try lia;
    destruct (Z.compare_spec ea eb) as [->|?|?]; simpl; try lia;
    destruct (Pos.compare_spec ma mb) as [->|?|?]; simpl; try done; lia.
Qed.

Lemma f_le_key a b : num a -> num b -> f_le a b = true <-> key_le (f_key a) (f_key b).
Proof.
  intros Ha Hb. pose proof (f_compare_key a b Ha Hb) as Hc. unfold f_le, SFleb.
  unfold key_lt in Hc. unfold key_le. destruct (SFcompare a b) as [[]|]; [| | |done].
  - rewrite Hc. split; [lia|done].
  - split; [lia|done].
  - split; [done|lia].
Qed.

Lemma f_lt_key a b : num a -> num b -> f_lt a b = true <-> key_lt (f_key a) (f_key b).
Proof.
  intros Ha Hb. pose proof (f_compare_key a b Ha Hb) as Hc. unfold f_lt, SFltb.
  unfold key_lt in *. destruct (SFcompare a b) as [[]|]; [| | |done].
  - rewrite Hc. split; [done|lia].
  - done.
  - split; [done|lia].
Qed.

Lemma f_le_refl a : num a -> f_le a a = true.
Proof. intros Ha. apply f_le_key; [done..|]. unfold key_le. lia. Qed.

Lemma f_le_trans a b c : num a -> num b -> num c ->
  f_le a b = true -> f_le b c = true -> f_le a c = true.
Proof. intros Ha Hb Hc. rewrite !f_le_key by done. unfold key_le. lia. Qed.

Lemma f_lt_not_le a b : num a -> num b -> f_lt a b = true <-> f_le b a = false.
Proof.
  intros Ha Hb. rewrite <- not_true_iff_false, f_lt_key, f_le_key by done. unfold key_le, key_lt. lia.
Qed.

Lemma f_lt_le a b : num a -> num b -> f_lt a b = true -> f_le a b = true.
Proof. intros Ha Hb. rewrite f_lt_key, f_le_key by done. unfold key_le, key_lt. lia. Qed.

Lemma f_le_total a b : num a -> num b -> f_le a b = true \/ f_le b a = true.
Proof. intros Ha Hb. rewrite !f_le_key by done. unfold key_le. lia. Qed.

(** Distinct encodings that compare equal are the two zeros. *)
Lemma f_le_antisym a b : num a -> num b ->
  f_le a b = true -> f_le b a = true -> f_lt f_zero a = true -> a = b.
Proof.
  intros Ha Hb. rewrite !f_le_key, f_lt_key by done. unfold key_le, key_lt.
  destruct a as [sa|sa| |sa ma ea], b as [sb|sb| |sb mb eb]; try done; try destruct sa; try destruct sb;
    simpl; try lia; intros; try done.
  assert (ea = eb /\ Z.pos ma = Z.pos mb) as [-> [= ->]] by lia. done.
Qed.

Lemma f_max_num a b : num a -> num b -> num (f_max a b).
Proof. unfold f_max. intros Ha Hb. rewrite Ha, Hb. by destruct (f_lt a b). Qed.
Lemma f_max_l a b : num a -> num b -> f_le a (f_max a b) = true.
Proof.
  intros Ha Hb. unfold f_max. rewrite Ha, Hb. destruct (f_lt a b) eqn:Hl; [by apply f_lt_le|].
  by apply f_le_refl.
Qed.
Lemma f_max_r a b : num a -> num b -> f_le b (f_max a b) = true.
Proof.
  intros Ha Hb. unfold f_max. rewrite Ha, Hb. destruct (f_lt a b) eqn:Hl; [by apply f_le_refl|].
  destruct (f_le b a) eqn:Hle; [done|]. apply f_lt_not_le in Hle; [|done..]. congruence.
Qed.
Lemma f_max_cases a b : f_max a b = a \/ f_max a b = b.
Proof. unfold f_max. destruct (is_nan a), (is_nan b), (f_lt a b); auto. Qed.

(** ** Maxima of lists *)

(** [m] is a greatest value of [l]. *)
Definition is_max (m : f64) (l : list f64) : Prop := m ∈ l /\ Forall (fun v => f_le v m = true) l.

Lemma is_max_unique l m n : Forall (fun v => num v) l -> is_max m l -> is_max n l ->
  f_lt f_zero m = true -> m = n.
Proof.
  intros Hn [Hm Hmb] [Hi Hnb] Hpos. rewrite Forall_forall in Hn, Hmb, Hnb.
  apply f_le_antisym; auto.
Qed.

(** The guard [m > 0] is the same for both. *)
Lemma is_max_guard l m n : Forall (fun v => num v) l -> is_max m l -> is_max n l ->
  f_lt f_zero m = f_lt f_zero n.
Proof.
  intros Hn Hm Hm'. pose proof Hm as [Hi Hmb]. pose proof Hm' as [Hj Hnb].
  rewrite Forall_forall in Hn, Hmb, Hnb. apply eq_true_iff_eq. rewrite !f_lt_key by auto.
  specialize (Hmb n Hj). specialize (Hnb m Hi). rewrite f_le_key in Hmb, Hnb by auto.
  unfold key_le, key_lt in *. lia.
Qed.

(** A test that only looks at a positive maximum does not depend on which. *)
Lemma is_max_test l m n (p : f64 -> bool) : Forall (fun v => num v) l -> is_max m l -> is_max n l ->
  f_lt f_zero m && p m = f_lt f_zero n && p n.
Proof.
  intros Hn Hm Hm'. rewrite (is_max_guard l m n Hn Hm Hm').
  destruct (f_lt f_zero n) eqn:Hp; [|done]. simpl. f_equal. eapply is_max_unique; [done..|].
  by rewrite (is_max_guard l m n Hn Hm Hm').
Qed.

Fixpoint f_maximum (x : f64) (l : list f64) : f64 :=
  match l with [] => x | y :: l' => f_maximum (f_max x y) l' end.

Lemma f_maximum_is_max l : forall x, num x -> Forall (fun v => num v) l -> is_max (f_maximum x l) (x :: l).
Proof.
  induction l as [|y l IH]; intros x Hx Hl; simpl.
  - split; [by left|]. repeat constructor. by apply f_le_refl.
  - apply Forall_cons in Hl as [Hy Hl]. destruct (IH (f_max x y) (f_max_num _ _ Hx Hy) Hl) as [Hi Hb].
    apply Forall_cons in Hb as [Hm Hb].
    assert (num (f_maximum (f_max x y) l)) as Hnum.
    { apply elem_of_cons in Hi as [->|Hi]; [by apply f_max_num|]. by eapply Forall_forall in Hl. }
    split.
    + rewrite !elem_of_cons. apply elem_of_cons in Hi as [Heq|Hi]; [|by auto].
      destruct (f_max_cases x y) as [Hc|Hc]; rewrite Hc in Heq at 2; by auto.
    + repeat constructor; [..|done].
      * apply (f_le_trans _ (f_max x y)); [done|by apply f_max_num|done|by apply f_max_l|done].
      * apply (f_le_trans _ (f_max x y)); [done|by apply f_max_num|done|by apply f_max_r|done].
Qed.
