(* ===== verification/ScamTypes.v ===== *)
(** * Contract types of the scam filter (scam-filter/src/types.rs)

    Times are Unix milliseconds in an [i64], durations seconds in a [u64],
    thresholds basis points in a [u32]; raw reserves are decimal strings. *)
From stdpp Require Import base tactics numbers list strings.
From S2P Require Import Prelude.

Module Scam.

Inductive Metric := MetricPrice | MetricLiquidity.
Inductive Direction := DirBoth | DirUp | DirDown.
Inductive ChangeMode := ModeStep | ModeCumulative.
Inductive SwitchKind := SwitchBoth | SwitchPeak | SwitchTrough.
Inductive AdminEventKind := OwnerChanged | ProxyUpgraded | AdminChanged | Paused | Unpaused.

#[global] Instance AdminEventKind_eq_dec : EqDecision AdminEventKind.
Proof. solve_decision. Defined.
#[global] Instance Direction_eq_dec : EqDecision Direction.
Proof. solve_decision. Defined.
#[global] Instance SwitchKind_eq_dec : EqDecision SwitchKind.
Proof. solve_decision. Defined.

Inductive RuleSpec :=
| ChangeCount (id : string) (metric : Metric) (lookback_sec : Z) (min_change_bps : Z)
    (direction : Direction) (mode : ChangeMode) (min_count : Z)
| SwitchDensity (id : string) (metric : Metric) (lookback_sec : Z) (window_sec : Z)
    (reversal_bps : Z) (switch_kind : SwitchKind) (min_count : Z)
| WindowDrop (id : string) (lookback_sec : Z) (window_sec : Z) (min_drop_bps : Z)
| EventCount (id : string) (kinds : list AdminEventKind) (lookback_sec : Z) (min_count : Z).

(** [RuleSpec::id] *)
Definition rule_id (r : RuleSpec) : string :=
  match r with
  | ChangeCount id _ _ _ _ _ _ | SwitchDensity id _ _ _ _ _ _ | WindowDrop id _ _ _
  | EventCount id _ _ _ => id
  end.

(** [RuleSpec::lookback_sec] *)
Definition rule_lookback_sec (r : RuleSpec) : Z :=
  match r with
  | ChangeCount _ _ l _ _ _ _ | SwitchDensity _ _ l _ _ _ _ | WindowDrop _ l _ _
  | EventCount _ _ l _ => l
  end.

Record Subject := mkSubject {
  sj_chain_id : Z;
  sj_pool : string;
  sj_token : string;
  sj_quote : string;
  sj_venue : string;
}.
Record AsOf := mkAsOf {
  ao_block : string;
  ao_block_hash : string;
  ao_t_ms : Z;
}.
Record TimeRange := mkTimeRange {
  tr_from_ms : Z;
  tr_to_ms : Z;
}.
Record PoolPoint := mkPoolPoint {
  pp_t_ms : Z;
  pp_reserve_quote : string;
  pp_reserve_token : string;
  pp_decimals_quote : Z;
  pp_decimals_token : Z;
}.
Record Warmup := mkWarmup {
  wu_from_ms : Z;
  wu_complete : bool;
}.
Record PoolHistory := mkPoolHistory {
  ph_schema : string;
  ph_builder_version : string;
  ph_from_ms : Z;
  ph_bucket_ms : Z;
  ph_points : list PoolPoint;
  ph_missing : list TimeRange;
  ph_warmup : Warmup;
}.
Record AdminEvent := mkAdminEvent {
  ae_t_ms : Z;
  ae_kind : AdminEventKind;
}.
Record TokenProfile := mkTokenProfile {
  tp_schema : string;
  tp_pool_created_ms : option Z;
  tp_age_lower_bound_ms : option Z;
  tp_admin_events : list AdminEvent;
  tp_missing : list TimeRange;
}.
Record AnalysisRequest := mkAnalysisRequest {
  rq_subject : Subject;
  rq_as_of : AsOf;
  rq_rules : list RuleSpec;
  rq_rules_hash : string;
  rq_pool_history : PoolHistory;
  rq_token_profile : TokenProfile;
}.
Record Limits := mkLimits {
  lm_max_rules : nat;
  lm_max_points : nat;
  lm_max_admin_events : nat;
  lm_max_evidence_events : nat;
}.
(** [Limits::default] *)
Definition Limits_default : Limits :=
  mkLimits 16 (Z.to_nat 20000) (Z.to_nat 1000) 64.

Inductive AnalysisMode := ModeReal | ModeStub.
Inductive Outcome := Fired | Clear | Incomplete | NotEvaluable.
Inductive Reason :=
| PartialCoverage | WarmupIncomplete | NoUsableSegment | ResolutionTooCoarse | MetricUnavailable
| HistoryUnverified.

Record EvidenceEvent := mkEvidenceEvent {
  ee_t_ms : Z;
  ee_kind : string;
}.
Record EvidenceWindow := mkEvidenceWindow {
  ew_start_ms : Z;
  ew_end_ms : Z;
}.
Record RuleResult := mkRuleResult {
  rr_rule_id : string;
  rr_outcome : Outcome;
  rr_reason : option Reason;
  rr_observed : option Z;
  rr_threshold : Z;
  rr_window : option EvidenceWindow;
  rr_events : list EvidenceEvent;
  rr_coverage_bps : Z;
  rr_warmup_complete : bool;
}.
Record Binding := mkBinding {
  bi_chain_id : Z;
  bi_pool : string;
  bi_as_of_block : string;
  bi_as_of_block_hash : string;
  bi_rules_hash : string;
}.
Record ScamAnalysis := mkScamAnalysis {
  sa_algorithm_id : string;
  sa_algorithm_version : string;
  sa_contract_version : Z;
  sa_analysis_mode : AnalysisMode;
  sa_binding : Binding;
  sa_rules : list RuleResult;
}.
Inductive Support := Supported | Unsupported (reason : string).
Inductive AlgorithmError :=
| LimitExceeded (what : string)
| InvalidInput (msg : string)
| UnsupportedRule (rule reason : string).

End Scam.
