(* ===== verification/ScamSeries.v ===== *)
(** * Metric series and coverage (scam-filter/src/series.rs)

    [metric_series] turns pool snapshots into samples, with a break wherever
    data is missing; [coverage_bps] measures how much of a window was observed by
    sorting the gaps and sweeping over them. The main theorem compares the sweep
    with counting the unobserved milliseconds one by one. *)
From Stdlib Require Import Ascii SpecFloat.
From stdpp Require Import base tactics numbers list strings sorting.
From S2P Require Import Prelude Float64 ScamTypes.

Module ScamSeries.
Import Scam.

Definition I64_MAX : Z := Eval vm_compute in 2 ^ 63 - 1.
Definition I64_MIN : Z := Eval vm_compute in - 2 ^ 63.
Definition i64 (z : Z) : Prop := I64_MIN <= z <= I64_MAX.
Definition i64_sat (z : Z) : Z := Z.max I64_MIN (Z.min z I64_MAX).
Definition i64_saturating_sub (a b : Z) : Z := i64_sat (a - b).
Definition i64_saturating_add (a b : Z) : Z := i64_sat (a + b).
Definition i64_saturating_mul (a b : Z) : Z := i64_sat (a * b).

(** A sample: a time and a value, [None] where undefined or missing. *)
Notation Sample := (Z * option spec_float)%type (only parsing).

(** [10f64.powi(n)], whose rounding Rust leaves open. *)
Class PowI := powi10 : Z -> f64.

Definition is_digit (c : ascii) : bool :=
  let n := N_of_ascii c in (48 <=? n)%N && (n <=? 57)%N.
Definition digits_value (l : list ascii) : Z :=
  fold_left (fun acc c => acc * 10 + (Z.of_N (N_of_ascii c) - 48)) l 0.

Section Series.
Context {W : PowI}.

(** [parse_amount]: on digits, [str::parse::<f64>] is the nearest [f64]. *)
Definition parse_amount (s : string) (decimals : Z) : result AlgorithmError f64 :=
  let l := String.list_ascii_of_string s in
  if bool_decide (s = EmptyString) || negb (forallb is_digit l)
  then Err (InvalidInput "reserve is not a decimal integer: {s:?}")
  else Ok (f_div (f_of_Z (digits_value l)) (powi10 decimals)).

(** [overlaps] *)
Definition overlaps (r : TimeRange) (from_exclusive to_exclusive : Z) : bool :=
  (tr_from_ms r <? to_exclusive) && (from_exclusive <? tr_to_ms r).

(** The break before a point that follows the point at [prev]. *)
Definition gap_break (missing : list TimeRange) (prev t : Z) : list Sample :=
  match find_first (fun r => overlaps r prev t) missing with
  | Some gap => [(Z.max (tr_from_ms gap) prev, None)]
  | None => []
  end.

(** The value of a metric at a point. *)
Definition point_value (metric : Metric) (p : PoolPoint) : result AlgorithmError (option f64) :=
  quote ← parse_amount (pp_reserve_quote p) (pp_decimals_quote p);
  match metric with
  | MetricLiquidity => Ok (Some quote)
  | MetricPrice =>
      token ← parse_amount (pp_reserve_token p) (pp_decimals_token p);
      Ok (if f_lt f_zero token then Some (f_div quote token) else None)
  end.

(** One turn of the loop of [metric_series]. *)
Definition series_step (h : PoolHistory) (metric : Metric) (as_of_ms : Z)
    (st : list Sample * option Z) (p : PoolPoint) : result AlgorithmError (list Sample * option Z) :=
  let '(out, last_t) := st in
  out ← match last_t with
        | Some prev =>
            if pp_t_ms p <=? prev
            then Err (InvalidInput "pool points must have strictly increasing tMs")
            else Ok (out ++ gap_break (ph_missing h) prev (pp_t_ms p))
        | None => Ok out
        end;
  if as_of_ms <? pp_t_ms p then Err (InvalidInput "pool point after the as-of time")
  else
    value ← point_value metric p;
    Ok (out ++ [(pp_t_ms p, value)], Some (pp_t_ms p)).

(** [metric_series] *)
Definition metric_series (h : PoolHistory) (metric : Metric) (as_of_ms : Z)
    : result AlgorithmError (list Sample) :=
  st ← foldM (series_step h metric as_of_ms) (ph_points h) ([], None);
  Ok (st.1).
End Series.

(** ** Coverage *)

(** The lexicographic order on tuples that [sort_unstable] uses. *)
Definition pair_le (p q : Z * Z) : Prop := p.1 < q.1 \/ (p.1 = q.1 /\ p.2 <= q.2).
#[global] Instance pair_le_dec : RelDecision pair_le.
Proof. intros p q. unfold pair_le. apply _. Defined.

(** The unobserved ranges of a window: before the first observation, then the
    missing ranges clipped to it. *)
Definition clip_range (start end_ : Z) (r : TimeRange) : list (Z * Z) :=
  let a := Z.max (tr_from_ms r) start in
  let b := Z.min (tr_to_ms r) end_ in
  if a <? b then [(a, b)] else [].
Definition window_gaps (start end_ first : Z) (missing : list TimeRange) : list (Z * Z) :=
  (if start <? first then [(start, Z.min first end_)] else []) ++
  flat_map (clip_range start end_) missing.

(** One turn of the sweep. *)
Definition sweep_step (st : Z * option (Z * Z)) (g : Z * Z) : Z * option (Z * Z) :=
  let '(uncovered, cur) := st in
  let '(a, b) := g in
  match cur with
  | Some (ca, cb) =>
      if a <=? cb then (uncovered, Some (ca, Z.max cb b))
      else (i64_saturating_add uncovered (i64_saturating_sub cb ca), Some (a, b))
  | None => (uncovered, Some (a, b))
  end.
Definition sweep (gaps : list (Z * Z)) : Z :=
  match fold_left sweep_step gaps (0, None) with
  | (uncovered, Some (ca, cb)) => i64_saturating_add uncovered (i64_saturating_sub cb ca)
  | (uncovered, None) => uncovered
  end.

(** [coverage_bps] *)
Definition coverage_bps (start end_ : Z) (first_obs : option Z) (missing : list TimeRange) : Z :=
  let len := i64_saturating_sub end_ start in
  if len <=? 0 then 10000
  else
    match first_obs with
    | None => 0
    | Some f =>
        let uncovered := sweep (merge_sort pair_le (window_gaps start end_ f missing)) in
        let covered := Z.max (i64_saturating_sub len uncovered) 0 in
        let bps := Z.quot (covered * 10000) len in
        Z.max 0 (Z.min bps 10000)
    end.

(** ** The reference: counting milliseconds *)

(** The millisecond [[t, t + 1)] lies in some gap. *)
Definition in_gap (gaps : list (Z * Z)) (t : Z) : bool :=
  existsb (fun g => (g.1 <=? t) && (t <? g.2)) gaps.
Definition count_in (start : Z) (n : nat) (p : Z -> bool) : Z :=
  Z.of_nat (length (List.filter p (seqZ start (Z.of_nat n)))).

(** Nothing is known of a millisecond before the first observation or inside a
    missing range. *)
Definition unobserved (first : Z) (missing : list TimeRange) (t : Z) : bool :=
  (t <? first) || existsb (fun r => (tr_from_ms r <=? t) && (t <? tr_to_ms r)) missing.
Definition observed_ms (start end_ first : Z) (missing : list TimeRange) : Z :=
  count_in start (Z.to_nat (end_ - start)) (fun t => negb (unobserved first missing t)).

(** ** Counting *)
Lemma count_in_S start n p :
  count_in start (S n) p = Z.b2z (p start) + count_in (start + 1) n p.
Proof.
  unfold count_in. rewrite seqZ_cons by lia. simpl.
  replace (Z.pred (Z.of_nat (S n))) with (Z.of_nat n) by lia. replace (Z.succ start) with (start + 1) by lia.
  destruct (p start); simpl; lia.
Qed.

Lemma count_in_ext start n p q :
  (forall t, start <= t < start + Z.of_nat n -> p t = q t) -> count_in start n p = count_in start n q.
Proof.
  revert start. induction n as [|n IH]; intros start Hpq; [done|]. rewrite !count_in_S.
  rewrite (Hpq start) by lia. f_equal. apply IH. intros t Ht. apply Hpq. lia.
Qed.

Lemma count_in_add start n (p q r : Z -> bool) :
  (forall t, start <= t < start + Z.of_nat n ->
     Z.b2z (r t) = Z.b2z (p t) + Z.b2z (q t)) ->
  count_in start n r = count_in start n p + count_in start n q.
Proof.
  revert start. induction n as [|n IH]; intros start Hpq; [done|]. rewrite !count_in_S.
  rewrite (Hpq start) by lia. rewrite (IH (start + 1)); [lia|]. intros t Ht. apply Hpq. lia.
Qed.

Lemma count_in_true start n : count_in start n (fun _ => true) = Z.of_nat n.
Proof. revert start. induction n as [|n IH]; intros start; [done|]. rewrite count_in_S, IH. cbn [Z.b2z]. lia. Qed.

Lemma count_in_none start n p :
  (forall t, start <= t < start + Z.of_nat n -> p t = false) -> count_in start n p = 0.
Proof.
  revert start. induction n as [|n IH]; intros start Hp; [done|]. rewrite count_in_S, Hp by lia.
  rewrite IH; [done|]. intros t Ht. apply Hp. lia.
Qed.

Lemma count_in_range start n a b :
  start <= a -> a <= b -> b <= start + Z.of_nat n ->
  count_in start n (fun t => (a <=? t) && (t <? b)) = b - a.
Proof.
  revert start a. induction n as [|n IH]; intros start a Hs Hab Hb; [unfold count_in; simpl; lia|].
  destruct (Z.eq_dec a b) as [<-|Hne].
  { rewrite count_in_none; [lia|]. intros t Ht. destruct (Z.leb_spec a t), (Z.ltb_spec t a); [lia|done..]. }
  rewrite count_in_S. destruct (Z.leb_spec a start), (Z.ltb_spec start b); cbn [andb Z.b2z]; [|lia| |lia].
  - replace a with start by lia. rewrite (count_in_ext _ _ _ (fun t => (start + 1 <=? t) && (t <? b))).
    + rewrite IH by lia. lia.
    + intros t Ht. destruct (Z.leb_spec start t), (Z.leb_spec (start + 1) t); [done|lia..|done].
  - rewrite IH; lia.
Qed.

Lemma count_in_le start n p : 0 <= count_in start n p <= Z.of_nat n.
Proof.
  revert start. induction n as [|n IH]; intros start; [done|]. rewrite count_in_S.
  specialize (IH (start + 1)). destruct (p start); cbn [Z.b2z]; lia.
Qed.

Lemma count_in_full start n p :
  count_in start n p = Z.of_nat n <-> forall t, start <= t < start + Z.of_nat n -> p t = true.
Proof.
  revert start. induction n as [|n IH]; intros start; [by split; [lia|]|]. rewrite count_in_S.
  pose proof (count_in_le (start + 1) n p). split.
  - intros Hc t Ht. destruct (p start) eqn:Hp; cbn [Z.b2z] in Hc; [|lia].
    destruct (Z.eq_dec t start) as [->|Hne]; [done|]. apply (IH (start + 1)); lia.
  - intros Hall. rewrite Hall by lia. cbn [Z.b2z]. replace (count_in (start + 1) n p) with (Z.of_nat n); [lia|].
    symmetry. apply IH. intros t Ht. apply Hall. lia.
Qed.

(** ** The sweep counts *)
Lemma in_gap_true l t : in_gap l t = true <-> exists g, g ∈ l /\ g.1 <= t < g.2.
Proof.
  unfold in_gap. rewrite existsb_exists. setoid_rewrite <- list_elem_of_In.
  setoid_rewrite andb_true_iff. setoid_rewrite Z.leb_le. by setoid_rewrite Z.ltb_lt.
Qed.

Definition sweep_end (st : Z * option (Z * Z)) : Z :=
  match st with
  | (uncovered, Some (ca, cb)) => i64_saturating_add uncovered (i64_saturating_sub cb ca)
  | (uncovered, None) => uncovered
  end.

Definition inside (start : Z) (n : nat) (g : Z * Z) : Prop :=
  start <= g.1 /\ g.1 <= g.2 /\ g.2 <= start + Z.of_nat n.

Lemma sweep_counts start n l : i64 start -> i64 (start + Z.of_nat n) -> forall unc ca cb,
  StronglySorted (fun g h => g.1 <= h.1) l -> Forall (fun g => ca <= g.1) l ->
  Forall (inside start n) ((ca, cb) :: l) ->
  0 <= unc -> unc + count_in start n (in_gap ((ca, cb) :: l)) <= I64_MAX ->
  sweep_end (fold_left sweep_step l (unc, Some (ca, cb))) = unc + count_in start n (in_gap ((ca, cb) :: l)).
Proof.
  intros Hs He. unfold i64, I64_MIN, I64_MAX in Hs, He.
  induction l as [|[a b] l IH]; intros unc ca cb Hsort Hle Hin Hunc Hmax.
  - apply Forall_cons in Hin as [(H1 & H2 & H3) _]. simpl in *.
    rewrite (count_in_ext _ _ _ (fun t => (ca <=? t) && (t <? cb))) in * by (intros t _; simpl; by rewrite orb_false_r).
    rewrite count_in_range in * by lia.
    unfold i64_saturating_add, i64_saturating_sub, i64_sat, I64_MIN, I64_MAX in *. lia.
  - inversion Hsort as [|? ? Hsort' Hge]; subst. apply Forall_cons in Hle as [Hca Hle].
    apply Forall_cons in Hin as [(H1 & H2 & H3) Hin].
    pose proof Hin as [(Ha1 & Ha2 & Ha3) Hin']%Forall_cons. simpl in *.
    destruct (Z.leb_spec a cb) as [Hcb|Hcb].
    + assert (forall t, in_gap ((ca, cb) :: (a, b) :: l) t = in_gap ((ca, Z.max cb b) :: l) t) as Hext.
      { intros t. unfold in_gap. simpl. rewrite orb_assoc. f_equal.
        destruct (Z.leb_spec ca t), (Z.ltb_spec t (Z.max cb b)), (Z.ltb_spec t cb), (Z.leb_spec a t),
          (Z.ltb_spec t b); simpl; done || lia. }
      rewrite (count_in_ext _ _ _ _ (fun t _ => Hext t)) in *. apply IH; [done|done| |done|done].
      constructor; [|done]. repeat split; simpl; lia.
    + assert (count_in start n (in_gap ((ca, cb) :: (a, b) :: l)) =
        (cb - ca) + count_in start n (in_gap ((a, b) :: l))) as Hsplit.
      { rewrite <- (count_in_range start n ca cb) by lia. apply count_in_add. intros t _.
        change (in_gap ((ca, cb) :: (a, b) :: l) t) with ((ca <=? t) && (t <? cb) || in_gap ((a, b) :: l) t).
        destruct ((ca <=? t) && (t <? cb)) eqn:Hc; [|simpl; lia].
        destruct (in_gap ((a, b) :: l) t) eqn:Hg; [|done]. exfalso.
        apply andb_true_iff in Hc as [_ Hc%Z.ltb_lt]. apply in_gap_true in Hg as (g & Hg & Ht).
        apply elem_of_cons in Hg as [->|Hg]; simpl in *; [lia|].
        rewrite Forall_forall in Hge. specialize (Hge g Hg). simpl in Hge. lia. }
      rewrite Hsplit in *. pose proof (count_in_le start n (in_gap ((a, b) :: l))).
      assert (i64_saturating_add unc (i64_saturating_sub cb ca) = unc + (cb - ca)) as ->.
      { unfold i64_saturating_add, i64_saturating_sub, i64_sat, I64_MIN, I64_MAX in *. lia. }
      rewrite IH; [lia|done|done|done|lia|lia].
Qed.

(** Sorting keeps the gaps and orders them. *)
Lemma in_gap_perm l l' t : l ≡ₚ l' -> in_gap l t = in_gap l' t.
Proof. intros Hp. apply eq_true_iff_eq. rewrite !in_gap_true. by setoid_rewrite Hp. Qed.

#[global] Instance pair_le_total : Total pair_le.
Proof. intros [a b] [c d]. unfold pair_le. simpl. lia. Qed.
#[global] Instance pair_le_trans : Transitive pair_le.
Proof. intros [a b] [c d] [e f]. unfold pair_le. simpl. lia. Qed.

Lemma sorted_fst l : StronglySorted pair_le l -> StronglySorted (fun g h => g.1 <= h.1) l.
Proof.
  induction 1 as [|g l _ IH Hg]; constructor; [done|]. eapply Forall_impl; [exact Hg|].
  intros h. unfold pair_le. lia.
Qed.

Lemma sweep_sorted start n l :
  i64 start -> i64 (start + Z.of_nat n) -> Z.of_nat n <= I64_MAX -> Forall (inside start n) l ->
  sweep (merge_sort pair_le l) = count_in start n (in_gap l).
Proof.
  intros Hs He Hn Hl. rewrite (count_in_ext _ _ _ (in_gap (merge_sort pair_le l))).
  2: { intros t _. apply in_gap_perm. symmetry. apply merge_sort_Permutation. }
  assert (Forall (inside start n) (merge_sort pair_le l)) as Hl'.
  { by rewrite merge_sort_Permutation. }
  pose proof (StronglySorted_merge_sort pair_le l) as Hsort.
  change (sweep (merge_sort pair_le l)) with (sweep_end (fold_left sweep_step (merge_sort pair_le l) (0, None))).
  destruct (merge_sort pair_le l) as [|[a b] r].
  - symmetry. by apply (count_in_none start n (in_gap [])).
  - inversion Hsort as [|? ? Hr Hab]; subst. cbn [fold_left sweep_step].
    rewrite (sweep_counts start n); try done.
    + by apply sorted_fst.
    + eapply Forall_impl; [exact Hab|]. intros g. unfold pair_le. simpl. lia.
    + pose proof (count_in_le start n (in_gap ((a, b) :: r))). lia.
Qed.

(** The gaps of a window are its unobserved milliseconds. *)
Lemma window_gaps_unobserved start end_ first missing t :
  start <= t < end_ -> in_gap (window_gaps start end_ first missing) t = unobserved first missing t.
Proof.
  intros Ht. unfold window_gaps, unobserved, in_gap. rewrite existsb_app. f_equal.
  - destruct (Z.ltb_spec start first); simpl; [|destruct (Z.ltb_spec t first); [lia|done]].
    destruct (Z.leb_spec start t), (Z.ltb_spec t (Z.min first end_)), (Z.ltb_spec t first); simpl; done || lia.
  - induction missing as [|r l IH]; [done|]. simpl. rewrite existsb_app, IH. f_equal.
    unfold clip_range. destruct (Z.ltb_spec (Z.max (tr_from_ms r) start) (Z.min (tr_to_ms r) end_)); simpl.
    + rewrite orb_false_r. destruct (Z.leb_spec (Z.max (tr_from_ms r) start) t),
        (Z.ltb_spec t (Z.min (tr_to_ms r) end_)), (Z.leb_spec (tr_from_ms r) t), (Z.ltb_spec t (tr_to_ms r));
        simpl; done || lia.
    + destruct (Z.leb_spec (tr_from_ms r) t), (Z.ltb_spec t (tr_to_ms r)); simpl; done || lia.
Qed.

Lemma window_gaps_inside start n first missing :
  (0 < n)%nat -> Forall (inside start n) (window_gaps start (start + Z.of_nat n) first missing).
Proof.
  intros Hn. unfold window_gaps, inside. apply Forall_app. split.
  - destruct (Z.ltb_spec start first); repeat constructor; simpl; lia.
  - induction missing as [|r l IH]; [constructor|]. simpl. apply Forall_app. split; [|done].
    unfold clip_range. destruct (Z.ltb_spec (Z.max (tr_from_ms r) start) (Z.min (tr_to_ms r) (start + Z.of_nat n)));
      repeat constructor; simpl; lia.
Qed.

Lemma count_in_negb start n p : count_in start n (fun t => negb (p t)) = Z.of_nat n - count_in start n p.
Proof.
  pose proof (count_in_add start n p (fun t => negb (p t)) (fun _ => true)) as Ha.
  rewrite count_in_true in Ha. rewrite Ha; [lia|]. intros t _. by destruct (p t).
Qed.

Lemma coverage_counts start end_ first missing :
  i64 start -> i64 end_ -> start < end_ -> end_ - start <= I64_MAX ->
  coverage_bps start end_ (Some first) missing =
  observed_ms start end_ first missing * 10000 / (end_ - start).
Proof.
  intros Hs He Hlt Hlen. unfold coverage_bps, observed_ms.
  assert (i64_saturating_sub end_ start = end_ - start) as ->.
  { unfold i64_saturating_sub, i64_sat, I64_MIN, I64_MAX in *. lia. }
  destruct (Z.leb_spec (end_ - start) 0); [lia|].
  set (n := Z.to_nat (end_ - start)). assert (end_ = start + Z.of_nat n) as Hn by lia.
  assert (sweep (merge_sort pair_le (window_gaps start end_ first missing)) =
    count_in start n (in_gap (window_gaps start end_ first missing))) as ->.
  { apply sweep_sorted; [done|by rewrite <- Hn|lia|]. rewrite Hn. apply window_gaps_inside. lia. }
  rewrite (count_in_ext _ _ _ (unobserved first missing)).
  2: { intros t Ht. apply window_gaps_unobserved. lia. }
  rewrite count_in_negb. pose proof (count_in_le start n (unobserved first missing)).
  assert (i64_saturating_sub (end_ - start) (count_in start n (unobserved first missing)) =
    Z.of_nat n - count_in start n (unobserved first missing)) as ->.
  { unfold i64_saturating_sub, i64_sat, I64_MIN, I64_MAX in *. lia. }
  rewrite (Z.max_l (Z.of_nat n - _) 0) by lia. rewrite Z.quot_div_nonneg by lia.
  rewrite Z.min_l, Z.max_r; [done|apply Z.div_pos; lia|].
  apply Z.div_le_upper_bound; lia.
Qed.


Lemma bps_full c n : 0 <= c <= n -> 0 < n -> c * 10000 / n = 10000 <-> c = n.
Proof.
  intros Hc Hn. split; [|intros ->; rewrite Z.mul_comm; apply Z.div_mul; lia].
  intros Heq. pose proof (Z.mul_div_le (c * 10000) n Hn) as Hle. rewrite Heq in Hle. lia.
Qed.

Lemma observed_all start end_ first missing : start < end_ ->
  observed_ms start end_ first missing = end_ - start <->
  forall t, start <= t < end_ -> unobserved first missing t = false.
Proof.
  intros Hlt. unfold observed_ms. replace (end_ - start) with (Z.of_nat (Z.to_nat (end_ - start))) at 2 by lia.
  rewrite count_in_full. replace (start + Z.of_nat (Z.to_nat (end_ - start))) with end_ by lia.
  split; intros Ht t; [intros Hr; apply negb_true_iff|intros Hr; apply negb_true_iff]; by apply Ht.
Qed.

Lemma observed_ms_range start end_ first missing : start < end_ ->
  0 <= observed_ms start end_ first missing <= end_ - start.
Proof.
  intros Hlt. unfold observed_ms.
  pose proof (count_in_le start (Z.to_nat (end_ - start)) (fun t => negb (unobserved first missing t))). lia.
Qed.

Lemma saturating_sub_pos a b : a < b -> 0 < i64_saturating_sub b a.
Proof. intros Hlt. unfold i64_saturating_sub, i64_sat, I64_MIN, I64_MAX. lia. Qed.

Lemma coverage_none start end_ missing : start < end_ -> coverage_bps start end_ None missing = 0.
Proof.
  intros Hlt%saturating_sub_pos. unfold coverage_bps. apply Z.leb_gt in Hlt. by rewrite Hlt.
Qed.

Lemma coverage_full start end_ first missing :
  i64 start -> i64 end_ -> start < end_ -> end_ - start <= I64_MAX ->
  coverage_bps start end_ (Some first) missing = 10000 <->
  forall t, start <= t < end_ -> unobserved first missing t = false.
Proof.
  intros Hs He Hlt Hlen. rewrite coverage_counts, <- observed_all by done.
  pose proof (observed_ms_range start end_ first missing Hlt). apply bps_full; lia.
Qed.

(** ** Properties *)

(** Coverage is exact: over any window, the sweep over the sorted gaps returns the share of
    the window's milliseconds that lie after the first observation and in no missing range,
    however the ranges overlap, in basis points rounded down; it is full exactly when every
    millisecond was observed, and nothing is covered without an observation. *)
Theorem coverage_exact start end_ first missing :
  i64 start -> i64 end_ -> start < end_ -> end_ - start <= I64_MAX ->
  coverage_bps start end_ (Some first) missing =
    observed_ms start end_ first missing * 10000 / (end_ - start) /\
  (coverage_bps start end_ (Some first) missing = 10000 <->
   forall t, start <= t < end_ -> unobserved first missing t = false) /\
  coverage_bps start end_ None missing = 0.
Proof.
  intros Hs He Hlt Hlen. split; [by apply coverage_counts|].
  split; [by apply coverage_full|by apply coverage_none].
Qed.

Lemma coverage_exact_witness :
  coverage_bps 1000 5000 (Some 1500) [mkTimeRange 3000 3500; mkTimeRange 3200 4000; mkTimeRange 6000 7000]
    = observed_ms 1000 5000 1500 [mkTimeRange 3000 3500; mkTimeRange 3200 4000; mkTimeRange 6000 7000]
      * 10000 / (5000 - 1000) /\
  coverage_bps 1000 5000 (Some 1500) [mkTimeRange 3000 3500; mkTimeRange 3200 4000; mkTimeRange 6000 7000] = 6250.
Proof.
  split; [|vm_compute; reflexivity].
  apply coverage_exact; unfold i64, I64_MIN, I64_MAX; lia.
Defined.
End ScamSeries.
