(* ===== verification/ScamGenerators.v ===== *)
(** * Event generators (scam-filter/src/generators.rs)

    Four left-to-right passes over a series: changes from the previous point,
    changes from the running extremes, reversals of a zigzag, and drops inside a
    sliding window. The last keeps a monotone deque and an index into the series;
    it is compared with a reference that looks at all values in effect. *)
From Stdlib Require Import SpecFloat.
From stdpp Require Import base tactics numbers list strings sorting.
From S2P Require Import Prelude Float64 ScamTypes ScamSeries.

Module ScamGenerators.
Import Scam ScamSeries.

Definition wants_up (d : Direction) : bool := match d with DirBoth | DirUp => true | _ => false end.
Definition wants_down (d : Direction) : bool := match d with DirBoth | DirDown => true | _ => false end.

(** [step_events], from the previous defined value [prev]. *)
Fixpoint step_from (prev : option f64) (series : list Sample) (i : f64) (dir : Direction) : list Z :=
  match series with
  | [] => []
  | (_, None) :: rest => step_from None rest i dir
  | (t, Some x) :: rest =>
      match prev with
      | Some p =>
          if f_lt f_zero p then
            let r := f_sub (f_div x p) f_one in
            if (f_le i r && wants_up dir) || (f_le r (f_opp i) && wants_down dir)
            then t :: step_from (Some x) rest i dir
            else step_from (Some x) rest i dir
          else step_from (Some x) rest i dir
      | None => step_from (Some x) rest i dir
      end
  end.
Definition step_events (series : list Sample) (i : f64) (dir : Direction) : list Z :=
  step_from None series i dir.

(** [cumulative_events], from the running high and low [hl]. *)
Fixpoint cumulative_from (hl : option (f64 * f64)) (series : list Sample) (i : f64) (dir : Direction)
    : list Z :=
  match series with
  | [] => []
  | (_, None) :: rest => cumulative_from None rest i dir
  | (t, Some x) :: rest =>
      match hl with
      | None => cumulative_from (Some (x, x)) rest i dir
      | Some (hi, lo) =>
          if f_lt f_zero lo && f_le (f_mul lo (f_add f_one i)) x then
            (if wants_up dir then [t] else []) ++ cumulative_from (Some (x, x)) rest i dir
          else if f_lt f_zero hi && f_le x (f_mul hi (f_sub f_one i)) then
            (if wants_down dir then [t] else []) ++ cumulative_from (Some (x, x)) rest i dir
          else if f_eq lo f_zero && f_lt f_zero x then cumulative_from (Some (x, x)) rest i dir
          else cumulative_from (Some (f_max hi x, f_min lo x)) rest i dir
      end
  end.
Definition cumulative_events (series : list Sample) (i : f64) (dir : Direction) : list Z :=
  cumulative_from None series i dir.

Inductive Trend :=
| TrendUnknown (hi lo : f64)
| TrendUp (ext : f64)
| TrendDown (ext : f64).

(** The next trend, and the switch it confirms. *)
Inductive Switched := NoSwitch | AtPeak | AtTrough.
Definition trend_step (theta : f64) (st : option Trend) (x : f64) : Trend * Switched :=
  match st with
  | None => (TrendUnknown x x, NoSwitch)
  | Some (TrendUnknown hi lo) =>
      if f_lt f_zero lo && f_le (f_mul lo (f_add f_one theta)) x then (TrendUp x, NoSwitch)
      else if f_lt f_zero hi && f_le x (f_mul hi (f_sub f_one theta)) then (TrendDown x, NoSwitch)
      else if f_eq lo f_zero && f_lt f_zero x then (TrendUnknown x x, NoSwitch)
      else (TrendUnknown (f_max hi x) (f_min lo x), NoSwitch)
  | Some (TrendUp ext) =>
      if f_lt ext x then (TrendUp x, NoSwitch)
      else if f_le x (f_mul ext (f_sub f_one theta)) then (TrendDown x, AtPeak)
      else (TrendUp ext, NoSwitch)
  | Some (TrendDown ext) =>
      if f_eq ext f_zero then
        if f_lt f_zero x then (TrendUnknown x x, NoSwitch) else (TrendDown ext, NoSwitch)
      else if f_lt x ext then (TrendDown x, NoSwitch)
      else if f_le (f_mul ext (f_add f_one theta)) x then (TrendUp x, AtTrough)
      else (TrendDown ext, NoSwitch)
  end.

Definition counts_switch (kind : SwitchKind) (w : Switched) : bool :=
  match w, kind with
  | AtPeak, (SwitchBoth | SwitchPeak) | AtTrough, (SwitchBoth | SwitchTrough) => true
  | _, _ => false
  end.

(** [zigzag_switches], from the trend [st]. *)
Fixpoint zigzag_from (st : option Trend) (series : list Sample) (theta : f64) (kind : SwitchKind) : list Z :=
  match series with
  | [] => []
  | (_, None) :: rest => zigzag_from None rest theta kind
  | (t, Some x) :: rest =>
      let '(st', w) := trend_step theta st x in
      (if counts_switch kind w then [t] else []) ++ zigzag_from (Some st') rest theta kind
  end.
Definition zigzag_switches (series : list Sample) (theta : f64) (kind : SwitchKind) : list Z :=
  zigzag_from None series theta kind.

(** ** Drops: the deque and the index of the value in effect *)

(** [while dq.back().is_some_and(|v| v <= x) { dq.pop_back() }] *)
Fixpoint pop_back (x : f64) (dq : list (Z * f64)) : list (Z * f64) :=
  match dq with
  | [] => []
  | p :: rest =>
      match pop_back x rest with
      | [] => if f_le (p.2) x then [] else [p]
      | rest' => p :: rest'
      end
  end.

(** [while dq.front().is_some_and(|tf| tf <= left) { dq.pop_front() }] *)
Fixpoint pop_front (left : Z) (dq : list (Z * f64)) : list (Z * f64) :=
  match dq with
  | [] => []
  | p :: rest => if p.1 <=? left then pop_front left rest else dq
  end.

(** [while next < k && series[next].t <= left { eff = next; next += 1 }], for at
    most [fuel] turns; [k] turns are enough. *)
Fixpoint advance_eff (series : list Sample) (k : nat) (left : Z) (fuel next : nat) (eff : option nat)
    : option nat :=
  match fuel with
  | O => eff
  | S fuel =>
      if (next <? k)%nat && match series !! next with Some (tn, _) => tn <=? left | None => false end
      then advance_eff series k left fuel (S next) (Some next)
      else eff
  end.

(** The loop of [drop_events] from sample [k], with the deque, the start of the
    segment and the index of the value in effect at the left edge. *)
Fixpoint drop_loop (series : list Sample) (i : f64) (window_ms : Z) (rest : list Sample) (k : nat)
    (dq : list (Z * f64)) (seg : nat) (eff : option nat) : list Z :=
  match rest with
  | [] => []
  | (_, None) :: rest => drop_loop series i window_ms rest (S k) [] (S k) None
  | (t, Some x) :: rest =>
      let dq := pop_back x dq ++ [(t, x)] in
      let left := i64_saturating_sub t window_ms in
      let next := match eff with Some e => S e | None => seg end in
      let eff := advance_eff series k left k next eff in
      let dq := pop_front left dq in
      let in_effect := e ← eff; s ← series !! e; s.2 in
      let mx := match snd <$> head dq, in_effect with
                | Some a, Some b => Some (f_max a b)
                | Some a, None | None, Some a => Some a
                | None, None => None
                end in
      match mx with
      | None => drop_loop series i window_ms rest (S k) dq seg eff
      | Some mx =>
          (if f_lt f_zero mx && f_le x (f_mul (f_sub f_one i) mx) then [t] else []) ++
          drop_loop series i window_ms rest (S k) dq seg eff
      end
  end.
(** [drop_events] *)
Definition drop_events (series : list Sample) (i : f64) (window_ms : Z) : list Z :=
  drop_loop series i window_ms series 0 [] 0 None.

(** ** The reference for drops *)

(** The points of a segment in effect during [[left, now]]: the last one at or
    before [left], and every one after it. *)
Definition before_edge (left : Z) (seg : list (Z * f64)) : list (Z * f64) :=
  List.filter (fun p => p.1 <=? left) seg.
Definition after_edge (left : Z) (seg : list (Z * f64)) : list (Z * f64) :=
  List.filter (fun p => left <? p.1) seg.
Definition in_effect (left : Z) (seg : list (Z * f64)) : list f64 :=
  (match last (before_edge left seg) with Some p => [p.2] | None => [] end) ++ (after_edge left seg).*2.

(** A point [x] at the end of [seg] is a drop when it has fallen to [1 - i]
    times the greatest value in effect. *)
Definition dropped (i : f64) (left : Z) (seg : list (Z * f64)) (x : f64) : bool :=
  match in_effect left seg with
  | [] => false
  | v :: vs => let mx := f_maximum v vs in f_lt f_zero mx && f_le x (f_mul (f_sub f_one i) mx)
  end.
Fixpoint drop_reference (i : f64) (window_ms : Z) (seg : list (Z * f64)) (series : list Sample) : list Z :=
  match series with
  | [] => []
  | (_, None) :: rest => drop_reference i window_ms [] rest
  | (t, Some x) :: rest =>
      let seg := seg ++ [(t, x)] in
      (if dropped i (t - window_ms) seg x then [t] else []) ++ drop_reference i window_ms seg rest
  end.

(** ** Gaps split a series *)
Lemma step_from_app prev s1 t s2 i dir :
  step_from prev (s1 ++ (t, None) :: s2) i dir = step_from prev s1 i dir ++ step_events s2 i dir.
Proof.
  revert prev. induction s1 as [|[u [x|]] s1 IH]; intros prev; simpl; [done| |by apply IH].
  destruct prev as [p|]; [|by apply IH]. destruct (f_lt _ _); [|by apply IH].
  destruct (_ || _); [|by apply IH]. simpl. f_equal. apply IH.
Qed.

Lemma cumulative_from_app hl s1 t s2 i dir :
  cumulative_from hl (s1 ++ (t, None) :: s2) i dir = cumulative_from hl s1 i dir ++ cumulative_events s2 i dir.
Proof.
  revert hl. induction s1 as [|[u [x|]] s1 IH]; intros hl; simpl; [done| |by apply IH].
  destruct hl as [[hi lo]|]; [|by apply IH].
  repeat case_match; simpl; rewrite <- ?app_assoc; simpl; rewrite ?IH; done.
Qed.

Lemma zigzag_from_app st s1 t s2 theta kind :
  zigzag_from st (s1 ++ (t, None) :: s2) theta kind = zigzag_from st s1 theta kind ++ zigzag_switches s2 theta kind.
Proof.
  revert st. induction s1 as [|[u [x|]] s1 IH]; intros st; simpl; [done| |by apply IH].
  destruct (trend_step theta st x) as [st' w]. by rewrite IH, app_assoc.
Qed.

Lemma drop_reference_app i W seg s1 t s2 :
  drop_reference i W seg (s1 ++ (t, None) :: s2) = drop_reference i W seg s1 ++ drop_reference i W [] s2.
Proof.
  revert seg. induction s1 as [|[u [x|]] s1 IH]; intros seg; simpl; [done| |by apply IH].
  by rewrite IH, app_assoc.
Qed.

(** ** The deque holds the suffix maxima *)
Notation nums l := (Forall (fun p : Z * f64 => is_nan (p.2) = false) l).
Notation timed l := (StronglySorted (fun p q : Z * f64 => p.1 <= q.1) l).
Definition falling (l : list (Z * f64)) : Prop := StronglySorted (fun p q => f_lt (q.2) (p.2) = true) l.

Definition stack_push (D : list (Z * f64)) (p : Z * f64) : list (Z * f64) := pop_back (p.2) D ++ [p].
Definition stack (seg : list (Z * f64)) : list (Z * f64) := fold_left stack_push seg [].

Lemma stack_snoc seg p : stack (seg ++ [p]) = stack_push (stack seg) p.
Proof. unfold stack. by rewrite fold_left_app. Qed.

Lemma pop_back_split x D : falling D -> nums D -> is_nan x = false ->
  exists Q, D = pop_back x D ++ Q /\ Forall (fun p => f_le (p.2) x = true) Q /\
    Forall (fun p => f_lt x (p.2) = true) (pop_back x D).
Proof.
  intros Hf Hn Hx. induction Hf as [|p D _ IH Hp]; simpl; [by exists []|].
  apply Forall_cons in Hn as [Hpn Hn]. destruct (IH Hn) as (Q & HD & HQ & HP).
  destruct (pop_back x D) as [|q P] eqn:HB.
  - simpl in HD. subst Q. destruct (f_le (p.2) x) eqn:Hle.
    + exists (p :: D). split; [done|]. by repeat constructor.
    + exists D. split; [done|]. split; [done|]. repeat constructor. by apply f_lt_not_le.
  - exists Q. split; [by rewrite HD|]. split; [done|]. constructor; [|done].
    apply Forall_cons in HP as [Hq _]. rewrite HD in Hp. apply Forall_cons in Hp as [Hqp _].
    assert (is_nan (q.2) = false) as Hqn by (rewrite HD in Hn; by apply Forall_cons in Hn as [? _]).
    apply f_lt_not_le; [done..|]. apply not_true_iff_false. intros Hle.
    apply f_lt_not_le in Hq, Hqp; [|done..].
    assert (f_le (q.2) x = true) as Hc; [|congruence].
    eapply f_le_trans; [done|exact Hpn|done| |done]. destruct (f_le_total (p.2) (q.2)); [done..|congruence|done].
Qed.

Lemma stack_falling seg : nums seg -> falling (stack seg) /\ nums (stack seg) /\ stack seg ⊆ seg.
Proof.
  induction seg as [|p seg IH] using rev_ind; intros Hn; [split; [constructor|by split]|].
  apply Forall_app in Hn as [Hn [Hp _]%Forall_cons]. destruct (IH Hn) as (Hf & Hs & Hsub).
  rewrite stack_snoc. unfold stack_push.
  destruct (pop_back_split (p.2) (stack seg) Hf Hs Hp) as (Q & HD & _ & HP).
  rewrite HD in Hf, Hs, Hsub. split; [|split].
  - apply StronglySorted_app_2; [|by apply StronglySorted_app_1_l in Hf|by repeat constructor].
    intros a b Ha Hb. apply list_elem_of_singleton in Hb as ->. rewrite Forall_forall in HP. by apply HP.
  - apply Forall_app. split; [by apply Forall_app in Hs as [? _]|by constructor].
  - intros q Hq. apply elem_of_app in Hq as [Hq|Hq]; apply elem_of_app; [|by right].
    left. apply Hsub. apply elem_of_app. by left.
Qed.

Lemma pop_front_app left P Q : pop_front left P <> [] -> pop_front left (P ++ Q) = pop_front left P ++ Q.
Proof. induction P as [|p P IH]; simpl; [done|]. destruct (_ <=? _); [by apply IH|done]. Qed.
Lemma pop_front_nil left P Q : pop_front left P = [] -> pop_front left (P ++ Q) = pop_front left Q.
Proof. induction P as [|p P IH]; simpl; [done|]. destruct (_ <=? _); [by apply IH|done]. Qed.
Lemma pop_front_again l0 left D E : l0 <= left -> pop_front left (pop_front l0 D ++ E) = pop_front left (D ++ E).
Proof.
  intros Hl. induction D as [|p D IH]; simpl; [done|]. destruct (Z.leb_spec (p.1) l0); [|done].
  rewrite IH. destruct (Z.leb_spec (p.1) left); [done|lia].
Qed.
Lemma pop_front_sub left D : pop_front left D ⊆ D.
Proof. induction D as [|p D IH]; simpl; [done|]. destruct (_ <=? _); [|done]. intros q Hq. right. by apply IH. Qed.
Lemma pop_front_after left D p : head (pop_front left D) = Some p -> left < p.1.
Proof.
  induction D as [|q D IH]; simpl; [done|]. destruct (Z.leb_spec (q.1) left); [done|]. by intros [= ->].
Qed.
Lemma pop_front_all left D : Forall (fun p => p.1 <= left) D -> pop_front left D = [].
Proof. induction 1 as [|p D Hp _ IH]; simpl; [done|]. by destruct (Z.leb_spec (p.1) left); [|lia]. Qed.
Lemma pop_front_keep left D : Forall (fun p => left < p.1) D -> pop_front left D = D.
Proof. intros [|p l Hp _]; simpl; [done|]. by destruct (Z.leb_spec (p.1) left); [lia|]. Qed.

(** Dropping old points and dropping dominated ones commute. *)
Lemma pop_back_front x l0 D : timed D -> pop_back x (pop_front l0 D) = pop_front l0 (pop_back x D).
Proof.
  induction 1 as [|p D Ht IH Hp]; simpl; [done|]. destruct (Z.leb_spec (p.1) l0) as [Hl|Hl].
  - rewrite IH. destruct (pop_back x D) as [|q P] eqn:HB.
    + destruct (f_le (p.2) x); [done|]. simpl. by destruct (Z.leb_spec (p.1) l0); [|lia].
    + simpl. by destruct (Z.leb_spec (p.1) l0); [|lia].
  - simpl. destruct (pop_back x D) as [|q P]; [destruct (f_le (p.2) x); [done|]|]; simpl;
      by destruct (Z.leb_spec (p.1) l0); [lia|].
Qed.

(** The front of the deque is the greatest value after the left edge. *)
Lemma stack_front left seg : timed seg -> nums seg ->
  match head (pop_front left (stack seg)) with
  | Some p => p ∈ after_edge left seg /\ Forall (fun q => f_le (q.2) (p.2) = true) (after_edge left seg)
  | None => after_edge left seg = []
  end.
Proof.
  unfold after_edge. induction seg as [|p seg IH] using rev_ind; intros Ht Hn; [done|].
  apply Forall_app in Hn as [Hn [Hp _]%Forall_cons]. apply StronglySorted_app in Ht as (Hpt & Ht & _).
  specialize (IH Ht Hn). destruct (stack_falling seg Hn) as (Hf & Hs & Hsub).
  rewrite stack_snoc. unfold stack_push. rewrite List.filter_app. simpl.
  destruct (pop_back_split (p.2) (stack seg) Hf Hs Hp) as (Q & HD & HQ & HP).
  set (P := pop_back (p.2) (stack seg)) in *.
  destruct (Z.ltb_spec left (p.1)) as [Hlt|Hge].
  - destruct (pop_front left P) as [|h P'] eqn:HF.
    + rewrite pop_front_nil, pop_front_keep by (done || by repeat constructor). simpl.
      split; [apply elem_of_app; right; by left|]. apply Forall_app. split.
      2: { repeat constructor. by apply f_le_refl. }
      rewrite HD, (pop_front_nil _ _ _ HF) in IH.
      destruct (head (pop_front left Q)) as [q|] eqn:Hq; [|by rewrite IH]. destruct IH as [Hin Hall].
      assert (q ∈ Q) as HqQ.
      { apply (pop_front_sub left). destruct (pop_front left Q); [done|]. injection Hq as ->. by left. }
      rewrite Forall_forall in HQ. specialize (HQ q HqQ).
      apply Forall_forall. intros r Hr. rewrite Forall_forall in Hall, Hn.
      assert (forall z, z ∈ List.filter (fun p0 : Z * f64 => left <? p0.1) seg -> is_nan (z.2) = false) as Hnz.
      { intros z Hz. apply list_elem_of_In, List.filter_In in Hz as [Hz _]. apply Hn. by apply list_elem_of_In. }
      eapply f_le_trans; [by apply Hnz|by apply (Hnz q)|done|by apply Hall|done].
    + rewrite pop_front_app, HF by (by rewrite HF). simpl.
      rewrite HD, pop_front_app, HF in IH by (by rewrite HF). simpl in IH. destruct IH as [Hin Hall].
      split; [apply elem_of_app; by left|]. apply Forall_app. split; [done|]. repeat constructor.
      assert (h ∈ P) as Hh. { apply (pop_front_sub left). rewrite HF. by left. }
      assert (is_nan (h.2) = false) as Hhn.
      { rewrite HD in Hs. apply Forall_app in Hs as [Hs _]. rewrite Forall_forall in Hs. by apply Hs. }
      rewrite Forall_forall in HP. apply f_lt_le; [done..|]. by apply HP.
  - rewrite app_nil_r.
    assert (Forall (fun q : Z * f64 => q.1 <= left) seg) as Hold.
    { apply Forall_forall. intros q Hq. specialize (Hpt q p Hq ltac:(by left)). simpl in Hpt. lia. }
    rewrite pop_front_all.
    + simpl. clear -Hold. induction Hold as [|q l Hq _ IH]; simpl; [done|].
      destruct (Z.ltb_spec left (q.1)); [lia|done].
    + apply Forall_app. split; [|by repeat constructor]. apply Forall_forall. intros q Hq.
      rewrite Forall_forall in Hold. apply Hold, Hsub. rewrite HD. apply elem_of_app. by left.
Qed.

(** ** The value in effect at the left edge *)
Definition eff_idx (seg c : nat) : option nat := match c with O => None | S c' => Some (seg + c')%nat end.
Notation n_before left S := (length (before_edge left S)).
Definition edge (W : Z) (S : list (Z * f64)) : Z := match last S with Some p => p.1 - W | None => 0 end.
Definition samples (S : list (Z * f64)) : list Sample := (fun p => (p.1, Some (p.2))) <$> S.

Lemma before_edge_take left S : timed S -> before_edge left S = take (n_before left S) S.
Proof.
  unfold before_edge. induction 1 as [|p S _ IH Hp]; simpl; [done|].
  destruct (Z.leb_spec (p.1) left) as [Hl|Hl]; simpl; [by rewrite <- IH|].
  assert (List.filter (fun p : Z * f64 => p.1 <=? left) S = []) as ->; [|done].
  clear IH. induction Hp as [|q S Hq _ IH]; simpl; [done|]. by destruct (Z.leb_spec (q.1) left); [lia|].
Qed.

Lemma before_edge_lookup left S j p : timed S -> S !! j = Some p -> p.1 <= left <-> (j < n_before left S)%nat.
Proof.
  intros Ht. revert j. unfold before_edge. induction Ht as [|q S _ IH Hq]; simpl; [done|]. intros j Hj.
  destruct (Z.leb_spec (q.1) left) as [Hl|Hl].
  - destruct j as [|j]; simpl in *; [injection Hj as ->; lia|]. rewrite (IH j Hj). lia.
  - assert (List.filter (fun p : Z * f64 => p.1 <=? left) S = []) as ->.
    { clear IH Hj. induction Hq as [|r S Hr _ IH]; simpl; [done|]. by destruct (Z.leb_spec (r.1) left); [lia|]. }
    simpl. destruct j as [|j]; simpl in Hj; [injection Hj as ->; lia|].
    apply list_elem_of_lookup_2 in Hj. rewrite Forall_forall in Hq. specialize (Hq p Hj). simpl in Hq. lia.
Qed.

Lemma n_before_le left S : (n_before left S <= length S)%nat.
Proof. apply List.filter_length_le. Qed.

Lemma n_before_mono l0 left S : l0 <= left -> (n_before l0 S <= n_before left S)%nat.
Proof.
  intros Hl. unfold before_edge. induction S as [|p S IH]; simpl; [done|].
  destruct (Z.leb_spec (p.1) l0), (Z.leb_spec (p.1) left); simpl; lia.
Qed.

Lemma n_before_snoc left S t x : left < t -> n_before left (S ++ [(t, x)]) = n_before left S.
Proof.
  intros Hl. unfold before_edge. rewrite List.filter_app. simpl.
  destruct (Z.leb_spec t left); [lia|]. by rewrite app_nil_r.
Qed.

Lemma advance_eff_spec (series : list Sample) seg S left : timed S ->
  (forall j p, S !! j = Some p -> series !! (seg + j)%nat = Some (p.1, Some (p.2))) ->
  forall fuel c, (c <= n_before left S)%nat -> (length S <= c + fuel)%nat ->
  advance_eff series (seg + length S) left fuel (seg + c) (eff_idx seg c) = eff_idx seg (n_before left S).
Proof.
  intros Ht Hs fuel. pose proof (n_before_le left S) as Hn.
  induction fuel as [|fuel IH]; intros c Hc Hf; simpl; [f_equal; lia|].
  destruct (Nat.ltb_spec (seg + c) (seg + length S)) as [Hlt|Hge]; simpl; [|f_equal; lia].
  destruct (lookup_lt_is_Some_2 S c ltac:(lia)) as [p Hp]. rewrite (Hs c p Hp).
  pose proof (before_edge_lookup left S c p Ht Hp) as Hiff.
  destruct (Z.leb_spec (p.1) left) as [Hl|Hl].
  - replace (Datatypes.S (seg + c)) with (seg + Datatypes.S c)%nat by lia.
    change (Some (seg + c)%nat) with (eff_idx seg (Datatypes.S c)). apply IH; lia.
  - f_equal. lia.
Qed.

(** What the loop reads there is the last point at or before the edge. *)
Lemma eff_value (series : list Sample) seg S left : timed S ->
  (forall j p, S !! j = Some p -> series !! (seg + j)%nat = Some (p.1, Some (p.2))) ->
  (e ← eff_idx seg (n_before left S); s ← series !! e; s.2) = snd <$> last (before_edge left S).
Proof.
  intros Ht Hs. rewrite (before_edge_take left S Ht) at 2. pose proof (n_before_le left S) as Hn.
  destruct (n_before left S) as [|c]; simpl; [done|].
  destruct (lookup_lt_is_Some_2 S c ltac:(lia)) as [p Hp]. rewrite (Hs c p Hp). simpl.
  rewrite (take_S_r _ _ _ Hp), last_snoc. done.
Qed.

Lemma stack_timed S : timed S -> nums S -> timed (stack S).
Proof.
  induction S as [|p S IH] using rev_ind; intros Ht Hn; [constructor|].
  apply Forall_app in Hn as [Hn [Hp _]%Forall_cons]. apply StronglySorted_app in Ht as (Hpt & Ht & _).
  destruct (stack_falling S Hn) as (Hf & Hs & Hsub). rewrite stack_snoc. unfold stack_push.
  destruct (pop_back_split (p.2) (stack S) Hf Hs Hp) as (Q & HD & _ & _).
  apply StronglySorted_app_2; [|specialize (IH Ht Hn); rewrite HD in IH; by apply StronglySorted_app_1_l in IH
    |by repeat constructor].
  intros a b Ha Hb. apply Hpt; [|done]. apply Hsub. rewrite HD. apply elem_of_app. by left.
Qed.

(** The state of the loop after the points of a segment. *)
Lemma deque_step W S t x : 0 < W -> timed (S ++ [(t, x)]) -> nums (S ++ [(t, x)]) ->
  pop_front (t - W) (pop_back x (pop_front (edge W S) (stack S)) ++ [(t, x)]) =
  pop_front (t - W) (stack (S ++ [(t, x)])).
Proof.
  intros HW Ht Hn. apply Forall_app in Hn as [Hn _]. apply StronglySorted_app in Ht as (Hpt & Ht & _).
  rewrite pop_back_front by by apply stack_timed. rewrite stack_snoc. unfold stack_push. simpl.
  destruct S as [|q S] using rev_ind; [done|]. apply pop_front_again. unfold edge. rewrite last_snoc.
  specialize (Hpt q (t, x) ltac:(apply elem_of_app; right; by left) ltac:(by left)). simpl in Hpt. lia.
Qed.

Lemma edge_mono W S t x : timed (S ++ [(t, x)]) -> (n_before (edge W S) S <= n_before (t - W) S)%nat.
Proof.
  intros Ht. apply StronglySorted_app in Ht as (Hpt & _ & _).
  destruct S as [|q S] using rev_ind; [done|]. apply n_before_mono. unfold edge. rewrite last_snoc.
  specialize (Hpt q (t, x) ltac:(apply elem_of_app; right; by left) ltac:(by left)). simpl in Hpt. lia.
Qed.

(** The value the loop compares with is a greatest value in effect. *)
Lemma drop_maximum W S t x m : 0 < W -> timed (S ++ [(t, x)]) -> nums (S ++ [(t, x)]) ->
  match snd <$> head (pop_front (t - W) (stack (S ++ [(t, x)]))),
        snd <$> last (before_edge (t - W) (S ++ [(t, x)])) with
  | Some a, Some b => Some (f_max a b)
  | Some a, None | None, Some a => Some a
  | None, None => None
  end = m ->
  exists mx, m = Some mx /\ is_max mx (in_effect (t - W) (S ++ [(t, x)])).
Proof.
  intros HW Ht Hn Hm. pose proof (stack_front (t - W) _ Ht Hn) as Hfront.
  assert ((t, x) ∈ after_edge (t - W) (S ++ [(t, x)])) as Hcur.
  { unfold after_edge. apply list_elem_of_In, List.filter_In. split; [by apply list_elem_of_In, elem_of_app; right; left|].
    simpl. apply Z.ltb_lt. lia. }
  destruct (head _) as [p|]; [|rewrite Hfront in Hcur; by apply not_elem_of_nil in Hcur].
  destruct Hfront as [Hin Hall]. simpl in Hm. unfold in_effect, is_max.
  assert (forall q, q ∈ S ++ [(t, x)] -> is_nan (q.2) = false) as Hnum by (by rewrite <- Forall_forall).
  assert (forall q, q ∈ after_edge (t - W) (S ++ [(t, x)]) -> is_nan (q.2) = false) as Hnum'.
  { intros q Hq. apply list_elem_of_In, List.filter_In in Hq as [Hq _]. apply Hnum. by apply list_elem_of_In. }
  assert (p.2 ∈ (after_edge (t - W) (S ++ [(t, x)])).*2) as Hp2 by (by apply list_elem_of_fmap_2).
  assert (Forall (fun v => f_le v (p.2) = true) ((after_edge (t - W) (S ++ [(t, x)])).*2)) as Hall2
    by (by apply Forall_fmap).
  destruct (last (before_edge (t - W) (S ++ [(t, x)]))) as [q|] eqn:Hlast; simpl in Hm; eexists; (split; [done|]).
  2: done.
  assert (is_nan (q.2) = false) as Hq.
  { apply Hnum. apply last_Some in Hlast as [l Hl]. apply list_elem_of_In.
    apply (List.filter_In (fun p => p.1 <=? t - W)). apply list_elem_of_In. fold (before_edge (t - W) (S ++ [(t, x)])).
    rewrite Hl. apply elem_of_app. right. by left. }
  specialize (Hnum' p Hin) as Hp. split.
  - destruct (f_max_cases (p.2) (q.2)) as [->| ->]; [by right|by left].
  - constructor; [by apply f_max_r|]. rewrite Forall_forall in Hall2 |- *. intros v Hv.
    assert (is_nan v = false) as Hvn by (apply list_elem_of_fmap in Hv as (z & -> & Hz); by apply Hnum').
    eapply f_le_trans; [done|exact Hp|by apply f_max_num|by apply Hall2|by apply f_max_l].
Qed.

(** A series as [metric_series] builds it: times in order and within range of
    the window, values that are numbers. *)
Record wf_series (W : Z) (series : list Sample) : Prop := {
  ws_sorted : StronglySorted Z.le (series.*1);
  ws_range : Forall (fun s => I64_MIN + W <= s.1 <= I64_MAX) series;
  ws_nums : Forall (fun s => match s.2 with Some v => is_nan v = false | None => True end) series;
}.

Lemma timed_of_sorted S rest : StronglySorted Z.le ((samples S ++ rest).*1) -> timed S.
Proof.
  rewrite fmap_app. intros Hs%StronglySorted_app_1_l. induction S as [|p S IH]; [constructor|].
  simpl in Hs. apply StronglySorted_cons in Hs as [Hp Hs]. constructor; [by apply IH|].
  apply Forall_forall. intros q Hq. rewrite Forall_forall in Hp. apply Hp.
  unfold samples. rewrite <- list_fmap_compose. by apply (list_elem_of_fmap_2 (fun p : Z * f64 => p.1)).
Qed.
Lemma nums_of_samples S rest :
  Forall (fun s : Sample => match s.2 with Some v => is_nan v = false | None => True end) (samples S ++ rest) ->
  nums S.
Proof. intros [Hs _]%Forall_app. apply Forall_fmap in Hs. exact Hs. Qed.

Lemma samples_snoc S t x rest : samples S ++ (t, Some x) :: rest = samples (S ++ [(t, x)]) ++ rest.
Proof. unfold samples. rewrite fmap_app, <- app_assoc. done. Qed.

(** What the loop needs of the sample it is at. *)
Lemma series_lookup (series : list Sample) pre S rest j p :
  series = pre ++ samples S ++ rest -> S !! j = Some p ->
  series !! (length pre + j)%nat = Some (p.1, Some (p.2)).
Proof.
  intros -> Hj. rewrite lookup_app_r by lia. replace (length pre + j - length pre)%nat with j by lia.
  unfold samples. rewrite lookup_app_l by (rewrite length_fmap; by eapply lookup_lt_Some).
  by rewrite list_lookup_fmap, Hj.
Qed.

Lemma wf_series_at W series pre S t x rest :
  0 < W -> wf_series W series -> series = pre ++ samples (S ++ [(t, x)]) ++ rest ->
  timed (S ++ [(t, x)]) /\ nums (S ++ [(t, x)]) /\ i64_saturating_sub t W = t - W.
Proof.
  intros HW [Hsort Hrange Hnum] ->. split; [|split].
  - rewrite fmap_app in Hsort. apply StronglySorted_app_1_r in Hsort. by eapply timed_of_sorted.
  - apply (nums_of_samples _ rest). by apply Forall_app in Hnum as [_ ?].
  - rewrite Forall_forall in Hrange. specialize (Hrange (t, Some x)). simpl in Hrange.
    assert (I64_MIN + W <= t <= I64_MAX) as Hr.
    { apply Hrange. unfold samples. rewrite fmap_app, !elem_of_app. right. left. right. by left. }
    unfold i64_saturating_sub, i64_sat, I64_MIN, I64_MAX in *. lia.
Qed.

Lemma in_effect_nums left S : nums S -> Forall (fun v => is_nan v = false) (in_effect left S).
Proof.
  intros Hn. rewrite Forall_forall in Hn. apply Forall_forall. intros v Hv. unfold in_effect in Hv.
  apply elem_of_app in Hv as [Hv|Hv].
  - destruct (last (before_edge left S)) as [q|] eqn:Hq; [|by apply not_elem_of_nil in Hv].
    apply list_elem_of_singleton in Hv as ->. apply Hn. apply last_Some in Hq as [l Hq].
    assert (q ∈ before_edge left S) as Hin by (rewrite Hq; apply elem_of_app; right; by left).
    by apply list_elem_of_In, List.filter_In in Hin as [Hin%list_elem_of_In _].
  - apply list_elem_of_fmap in Hv as (q & -> & Hin). apply Hn.
    by apply list_elem_of_In, List.filter_In in Hin as [Hin%list_elem_of_In _].
Qed.

Lemma dropped_max i left S x mx : nums S -> is_max mx (in_effect left S) ->
  dropped i left S x = f_lt f_zero mx && f_le x (f_mul (f_sub f_one i) mx).
Proof.
  intros Hn Hmax. pose proof (in_effect_nums left S Hn) as Hnv. unfold dropped.
  destruct (in_effect left S) as [|v vs]; [destruct Hmax as [Hin _]; by apply not_elem_of_nil in Hin|].
  apply (is_max_test (v :: vs) _ _ (fun m => f_le x (f_mul (f_sub f_one i) m))); [done| |done]. apply Forall_cons in Hnv as [? ?]. by apply f_maximum_is_max.
Qed.

Lemma next_eff seg c : match eff_idx seg c with Some e => Datatypes.S e | None => seg end = (seg + c)%nat.
Proof. destruct c; simpl; lia. Qed.

Lemma before_edge_snoc left S t x : left < t -> before_edge left S = before_edge left (S ++ [(t, x)]).
Proof.
  intros Hl. unfold before_edge. rewrite List.filter_app. simpl. destruct (Z.leb_spec t left); [lia|].
  by rewrite app_nil_r.
Qed.

Lemma drop_loop_reference i W series rest : 0 < W -> wf_series W series -> forall pre S,
  series = pre ++ samples S ++ rest ->
  drop_loop series i W rest (length pre + length S) (pop_front (edge W S) (stack S)) (length pre)
    (eff_idx (length pre) (n_before (edge W S) S)) =
  drop_reference i W S rest.
Proof.
  intros HW Hwf. induction rest as [|[t [x|]] rest IH]; intros pre S Hser; [done| |].
  - pose proof (fun j p => series_lookup series pre S _ j p Hser) as Hlook.
    rewrite samples_snoc in Hser. destruct (wf_series_at W series pre S t x rest HW Hwf Hser) as (Ht & Hn & Hleft).
    assert (timed S) as HtS by (by apply StronglySorted_app_1_l in Ht).
    cbn [drop_loop drop_reference]. rewrite Hleft, next_eff.
    rewrite (advance_eff_spec series (length pre) S (t - W) HtS Hlook); [|by eapply edge_mono|lia].
    rewrite (eff_value series (length pre) S (t - W) HtS Hlook), deque_step by done.
    rewrite (before_edge_snoc (t - W) S t x) by lia.
    edestruct (drop_maximum W S t x) as (mx & Hmx & Hmax); [done..|]. rewrite Hmx.
    specialize (IH pre (S ++ [(t, x)]) Hser). unfold edge in IH at 1 2. rewrite last_snoc in IH.
    rewrite length_app, Nat.add_assoc, Nat.add_1_r in IH. simpl in IH.
    rewrite IH, (dropped_max i (t - W) _ x mx Hn Hmax). done.
  - cbn [drop_loop drop_reference]. specialize (IH (pre ++ samples S ++ [(t, None)]) []).
    rewrite <- IH; [|by rewrite Hser, <- !app_assoc].
    rewrite !length_app. unfold samples. rewrite length_fmap. simpl.
    replace (length pre + (length S + 1) + 0)%nat with (Datatypes.S (length pre + length S)) by lia.
    by replace (length pre + (length S + 1))%nat with (Datatypes.S (length pre + length S)) by lia.
Qed.

(** ** Peaks and troughs alternate *)
Definition positive_series (series : list Sample) : Prop :=
  Forall (fun s => match s.2 with Some v => f_lt f_zero v = true | None => False end) series.
Definition trend_positive (st : option Trend) : Prop :=
  match st with Some (TrendDown ext) => f_lt f_zero ext = true | _ => True end.
(** How many more peaks than troughs a run from [st] may report. *)
Definition surplus_range (st : option Trend) (d : Z) : Prop :=
  match st with
  | Some (TrendUp _) => 0 <= d <= 1
  | Some (TrendDown _) => -1 <= d <= 0
  | _ => -1 <= d <= 1
  end.

Lemma positive_not_zero v : f_lt f_zero v = true -> f_eq v f_zero = false.
Proof. unfold f_lt, SFltb, f_eq, SFeqb, f_zero. by destruct v as [[]|[]| |[] m e]. Qed.

Lemma zigzag_surplus theta series : positive_series series -> forall st, trend_positive st ->
  surplus_range st (Z.of_nat (length (zigzag_from st series theta SwitchPeak)) -
                    Z.of_nat (length (zigzag_from st series theta SwitchTrough))) /\
  length (zigzag_from st series theta SwitchBoth) =
    (length (zigzag_from st series theta SwitchPeak) + length (zigzag_from st series theta SwitchTrough))%nat.
Proof.
  induction 1 as [|[t [x|]] series Hx _ IH]; intros st Hst; simpl; [|simpl in Hx|done].
  { split; [|done]. destruct st as [[]|]; simpl; lia. }
  destruct st as [[hi lo|ext|ext]|]; simpl; simpl in Hst.
  - repeat case_match; simplify_eq; simpl;
      match goal with |- context [zigzag_from (Some ?st)] =>
        destruct (IH (Some st)) as [Hr Hl]; [done|]; simpl in Hr end; split; (lia || done).
  - repeat case_match; simplify_eq; simpl;
      match goal with |- context [zigzag_from (Some ?st)] =>
        destruct (IH (Some st)) as [Hr Hl]; [done|]; simpl in Hr end; split; (lia || done).
  - rewrite (positive_not_zero _ Hst).
    repeat case_match; simplify_eq; simpl;
      match goal with |- context [zigzag_from (Some ?st)] =>
        destruct (IH (Some st)) as [Hr Hl]; [done|]; simpl in Hr end; split; (lia || done).
  - destruct (IH (Some (TrendUnknown x x))) as [Hr Hl]; [done|]. simpl in Hr. split; [lia|done].
Qed.

Lemma drop_events_ref series i W :
  0 < W -> wf_series W series -> drop_events series i W = drop_reference i W [] series.
Proof. intros HW Hwf. apply (drop_loop_reference i W series series HW Hwf [] []). done. Qed.

(** ** Properties *)

(** C39: The sliding-window pass is exact: the monotone deque, together with the index of the
    value in effect at the left edge, reports exactly the drops of the reference that compares
    every point with the greatest value in effect during its window. *)
Theorem drop_events_exact series i W :
  0 < W -> wf_series W series -> drop_events series i W = drop_reference i W [] series.
Proof. apply drop_events_ref. Qed.

(** No event spans a gap: on a series split by an undefined point, each generator reports
    the events of the two parts, computed apart. *)
Theorem gaps_split_series s1 t s2 i dir theta kind W :
  step_events (s1 ++ (t, None) :: s2) i dir = step_events s1 i dir ++ step_events s2 i dir /\
  cumulative_events (s1 ++ (t, None) :: s2) i dir = cumulative_events s1 i dir ++ cumulative_events s2 i dir /\
  zigzag_switches (s1 ++ (t, None) :: s2) theta kind = zigzag_switches s1 theta kind ++ zigzag_switches s2 theta kind /\
  (0 < W -> wf_series W (s1 ++ (t, None) :: s2) ->
   drop_events (s1 ++ (t, None) :: s2) i W = drop_events s1 i W ++ drop_events s2 i W).
Proof.
  split; [apply step_from_app|]. split; [apply cumulative_from_app|]. split; [apply zigzag_from_app|].
  intros HW Hwf.
  assert (wf_series W s1 /\ wf_series W s2) as [Hw1 Hw2].
  { destruct Hwf as [Hs Hr Hn]. rewrite fmap_app in Hs. apply Forall_app in Hr as [? [_ ?]%Forall_cons].
    apply Forall_app in Hn as [? [_ ?]%Forall_cons]. split; split; try done.
    - by apply StronglySorted_app_1_l in Hs.
    - apply StronglySorted_app_1_r in Hs. simpl in Hs. by apply StronglySorted_cons in Hs as [_ ?]. }
  rewrite !drop_events_ref by done.
  apply drop_reference_app.
Qed.

(** Peaks and troughs alternate: over a gap-free series of positive values, asking for both
    kinds of reversal reports every peak and every trough once, and their numbers differ by at
    most one. *)
Theorem zigzag_alternates series theta : positive_series series ->
  let peaks := length (zigzag_switches series theta SwitchPeak) in
  let troughs := length (zigzag_switches series theta SwitchTrough) in
  length (zigzag_switches series theta SwitchBoth) = (peaks + troughs)%nat /\
  (peaks <= troughs + 1)%nat /\ (troughs <= peaks + 1)%nat.
Proof.
  intros Hp. destruct (zigzag_surplus theta series Hp None I) as [Hr Hl]. simpl in Hr.
  unfold zigzag_switches. split; [done|]. lia.
Qed.

(** ** Witnesses *)
Definition demo_series : list Sample :=
  [(1000, Some (f_of_Z 100)); (2000, Some (f_of_Z 150)); (3000, Some (f_of_Z 60)); (4000, Some (f_of_Z 120));
   (5000, Some (f_of_Z 40))].
Definition demo_theta : f64 := f_div (f_of_Z 2000) (f_of_Z 10000).

Lemma demo_series_wf : wf_series 2500 demo_series.
Proof. split; [decide_now| |]; repeat constructor; simpl; unfold I64_MIN, I64_MAX; lia. Qed.

Lemma drop_events_exact_witness :
  drop_events demo_series demo_theta 2500 = drop_reference demo_theta 2500 [] demo_series /\
  drop_events demo_series demo_theta 2500 = [3000; 4000; 5000].
Proof.
  split; [|vm_compute; reflexivity]. apply drop_events_exact; [lia|exact demo_series_wf].
Defined.

Lemma gaps_split_series_witness :
  drop_events ([(100, Some (f_of_Z 9))] ++ (900, None) :: demo_series) demo_theta 2500 =
  drop_events [(100, Some (f_of_Z 9))] demo_theta 2500 ++ drop_events demo_series demo_theta 2500.
Proof.
  apply (gaps_split_series [(100, Some (f_of_Z 9))] 900 demo_series demo_theta DirBoth demo_theta SwitchBoth 2500);
    [lia|]. split; [decide_now| |]; repeat constructor; simpl; unfold I64_MIN, I64_MAX; lia.
Defined.

Lemma zigzag_alternates_witness :
  length (zigzag_switches demo_series demo_theta SwitchBoth) = 3%nat /\
  (length (zigzag_switches demo_series demo_theta SwitchPeak) <=
   length (zigzag_switches demo_series demo_theta SwitchTrough) + 1)%nat.
Proof.
  split; [vm_compute; reflexivity|].
  apply (zigzag_alternates demo_series demo_theta). repeat constructor.
Defined.
End ScamGenerators.
