(* ===== verification/ScamRules.v ===== *)
(** * Window rules (scam-filter/src/rules.rs)

    A rule is evaluated on the window [(B, T]], [B] being the start of the
    lookback or the creation of the pool. [analyze] checks the request against
    the limits and the rules against their domains, then evaluates each rule to
    fired, clear, incomplete or not evaluable. *)
From Stdlib Require Import SpecFloat.
From stdpp Require Import base tactics numbers list strings sorting.
From S2P Require Import Prelude Float64 ScamTypes ScamSeries ScamGenerators.

Module ScamRules.
Import Scam ScamSeries ScamGenerators.

Definition CONTRACT_VERSION : Z := 2.
Definition MAX_LOOKBACK_SEC : Z := 86400.
Definition WARMUP_SEC : Z := 86400.

(** [frac] *)
Definition frac (bps : Z) : f64 := f_div (f_of_Z bps) (f_of_Z 10000).

(** [secs_to_ms] *)
Definition secs_to_ms (s : Z) : result AlgorithmError Z :=
  if s * 1000 <=? I64_MAX then Ok (s * 1000) else Err (InvalidInput "duration out of range").

(** [in_window]: the events in [(lo, hi]]. *)
Definition in_window (events : list Z) (lo hi : Z) : list Z :=
  List.filter (fun e => (lo <? e) && (e <=? hi)) events.

(** One turn of the loop of [r2_evidence]. *)
Definition r2_step (s : list Z) (window_ms b : Z) (best : option (Z * Z * Z)) (end_ : Z)
    : option (Z * Z * Z) :=
  let lo := Z.max b (i64_saturating_sub end_ window_ms) in
  let c := Z.of_nat (length (in_window s lo end_)) in
  match best with
  | Some (bc, _, _) => if bc <=? c then Some (c, lo, end_) else best
  | None => Some (c, lo, end_)
  end.
(** [r2_evidence] *)
Definition r2_evidence (switches : list Z) (window_ms b t : Z) : option (Z * Z * Z) :=
  let s := in_window switches b t in
  fold_left (r2_step s window_ms b) s None.

(** [resolution_ok] *)
Definition need_ok (dt_ms k len_ms : Z) : bool :=
  i64_saturating_mul (Z.max (k - 1) 0) dt_ms <? len_ms.
Definition resolution_ok (rule : RuleSpec) (dt_ms : Z) : result AlgorithmError bool :=
  match rule with
  | ChangeCount _ _ lookback_sec _ _ _ min_count => ms ← secs_to_ms lookback_sec; Ok (need_ok dt_ms min_count ms)
  | SwitchDensity _ _ _ window_sec _ _ min_count => ms ← secs_to_ms window_sec; Ok (need_ok dt_ms min_count ms)
  | WindowDrop _ _ window_sec _ => ms ← secs_to_ms window_sec; Ok (dt_ms <=? ms)
  | EventCount _ _ _ _ => Ok true
  end.

(** [evidence]: the last [cap] events. *)
Definition evidence (events : list Z) (kind : string) (cap : nat) : list EvidenceEvent :=
  (fun t => mkEvidenceEvent t kind) <$> drop (length events - cap) events.

Record Finding := mkFinding {
  fi_fired : bool;
  fi_observed : Z;
  fi_threshold : Z;
  fi_window : option EvidenceWindow;
  fi_events : list EvidenceEvent;
  fi_coverage : Z * bool;
  fi_warm : option Reason;
}.

(** The start of a window raised to the creation of the pool: [Ctx::window_floor]. *)
Definition window_floor (req : AnalysisRequest) (t : Z) : Z :=
  match tp_pool_created_ms (rq_token_profile req) with Some c => Z.max t c | None => t end.
Definition now_ms (req : AnalysisRequest) : Z := ao_t_ms (rq_as_of req).
(** [Ctx::window_start] *)
Definition window_start (req : AnalysisRequest) (lookback_ms : Z) : Z :=
  window_floor req (i64_saturating_sub (now_ms req) lookback_ms).

Definition first_time (series : list Sample) : option Z := fst <$> head series.
Definition is_undefined (s : Sample) : bool := match s.2 with None => true | Some _ => false end.

(** [Ctx::pool_coverage] *)
Definition pool_coverage (req : AnalysisRequest) (series : list Sample) (b : Z) : Z * bool :=
  (coverage_bps b (now_ms req) (first_time series) (ph_missing (rq_pool_history req)),
   existsb (fun s => is_undefined s && (b <? s.1) && (s.1 <=? now_ms req)) series).

(** [Ctx::warm] *)
Definition warm (req : AnalysisRequest) (series : list Sample) (b need_ms : Z) : option Reason :=
  if negb (wu_complete (ph_warmup (rq_pool_history req))) then Some HistoryUnverified
  else
    let start := window_floor req (i64_saturating_sub b need_ms) in
    if (0 <? need_ms) && (coverage_bps start b (first_time series) (ph_missing (rq_pool_history req)) <? 10000)
    then Some WarmupIncomplete else None.

(** [Ctx::result] *)
Definition rule_result (rule : RuleSpec) (f : Finding) : RuleResult :=
  let '(cov, undefined_inside) := fi_coverage f in
  let full := (cov =? 10000) && negb undefined_inside in
  let '(outcome, reason) :=
    if fi_fired f then (Fired, None)
    else if negb full then (Incomplete, Some PartialCoverage)
    else match fi_warm f with Some r => (Incomplete, Some r) | None => (Clear, None) end in
  mkRuleResult (rule_id rule) outcome reason (Some (fi_observed f)) (fi_threshold f) (fi_window f)
    (fi_events f) cov (match fi_warm f with None => true | Some _ => false end).

(** [Ctx::not_evaluable] *)
Definition not_evaluable (req : AnalysisRequest) (rule : RuleSpec) (threshold : Z) (reason : Reason)
    : RuleResult :=
  mkRuleResult (rule_id rule) NotEvaluable (Some reason) None threshold None [] 0
    (wu_complete (ph_warmup (rq_pool_history req))).

Definition rule_threshold (rule : RuleSpec) : Z :=
  match rule with
  | ChangeCount _ _ _ _ _ _ min_count | SwitchDensity _ _ _ _ _ _ min_count | EventCount _ _ _ min_count =>
      min_count
  | WindowDrop _ _ _ _ => 1
  end.
Definition rule_metric (rule : RuleSpec) : Metric :=
  match rule with
  | ChangeCount _ metric _ _ _ _ _ | SwitchDensity _ metric _ _ _ _ _ => metric
  | _ => MetricLiquidity
  end.

Section Eval.
Context {W : PowI}.

(** The admin-event rule, which needs no series. *)
Definition eval_event_count (req : AnalysisRequest) (limits : Limits) (rule : RuleSpec)
    (kinds : list AdminEventKind) (b : Z) (window : option EvidenceWindow) : RuleResult :=
  let t := now_ms req in
  let ev := ae_t_ms <$> List.filter (fun e => bool_decide (ae_kind e ∈ kinds) && (b <? ae_t_ms e) && (ae_t_ms e <=? t))
                          (tp_admin_events (rq_token_profile req)) in
  let n := Z.of_nat (length ev) in
  let cov := coverage_bps b t (Some b) (tp_missing (rq_token_profile req)) in
  rule_result rule
    (mkFinding (rule_threshold rule <=? n) n (rule_threshold rule) window
       (evidence ev "admin_event" (lm_max_evidence_events limits)) (cov, false) None).

(** The rules over a metric series. *)
Definition eval_series (req : AnalysisRequest) (limits : Limits) (rule : RuleSpec) (series : list Sample)
    (b : Z) (window : option EvidenceWindow) : result AlgorithmError RuleResult :=
  let t := now_ms req in
  let threshold := rule_threshold rule in
  let cap := lm_max_evidence_events limits in
  let cov := pool_coverage req series b in
  match rule with
  | ChangeCount _ _ _ min_change_bps direction mode _ =>
      need ← match mode with ModeStep => Ok 0 | ModeCumulative => secs_to_ms WARMUP_SEC end;
      let i := frac min_change_bps in
      let all := match mode with
                 | ModeStep => step_events series i direction
                 | ModeCumulative => cumulative_events series i direction
                 end in
      let ev := in_window all b t in
      let n := Z.of_nat (length ev) in
      Ok (rule_result rule (mkFinding (threshold <=? n) n threshold window (evidence ev "change" cap) cov
                              (warm req series b need)))
  | SwitchDensity _ _ _ window_sec reversal_bps switch_kind _ =>
      let all := zigzag_switches series (frac reversal_bps) switch_kind in
      x2 ← secs_to_ms window_sec;
      need ← secs_to_ms WARMUP_SEC;
      let wm := warm req series b need in
      match r2_evidence all x2 b t with
      | Some (n, lo, end_) =>
          let ev := in_window all lo end_ in
          Ok (rule_result rule (mkFinding (threshold <=? n) n threshold (Some (mkEvidenceWindow lo end_))
                                  (evidence ev "switch" cap) cov wm))
      | None => Ok (rule_result rule (mkFinding false 0 threshold window [] cov wm))
      end
  | WindowDrop _ _ window_sec min_drop_bps =>
      x2 ← secs_to_ms window_sec;
      let ev := in_window (drop_events series (frac min_drop_bps) x2) b t in
      let n := Z.of_nat (length ev) in
      let w := (fun e => mkEvidenceWindow (i64_saturating_sub e x2) e) <$> last ev in
      Ok (rule_result rule (mkFinding (1 <=? n) n threshold (match w with Some w => Some w | None => window end)
                              (evidence ev "drop" cap) cov (warm req series b x2)))
  | EventCount _ _ _ _ => Ok (not_evaluable req rule threshold MetricUnavailable)
  end.

(** [Ctx::eval] *)
Definition eval (req : AnalysisRequest) (limits : Limits) (rule : RuleSpec) : result AlgorithmError RuleResult :=
  let threshold := rule_threshold rule in
  ok ← resolution_ok rule (ph_bucket_ms (rq_pool_history req));
  if negb ok then Ok (not_evaluable req rule threshold ResolutionTooCoarse)
  else
    lookback_ms ← secs_to_ms (rule_lookback_sec rule);
    let b := window_start req lookback_ms in
    let window := Some (mkEvidenceWindow b (now_ms req)) in
    match rule with
    | EventCount _ kinds _ _ => Ok (eval_event_count req limits rule kinds b window)
    | _ =>
        series ← metric_series (rq_pool_history req) (rule_metric rule) (now_ms req);
        if negb (existsb (fun s => negb (is_undefined s) && (s.1 <=? now_ms req)) series)
        then Ok (not_evaluable req rule threshold NoUsableSegment)
        else eval_series req limits rule series b window
    end.
End Eval.

(** [check_bps] *)
Definition check_bps (v : Z) (max : option Z) (what : string) : result string () :=
  if v =? 0 then Err "{what} must be > 0"%string
  else match max with
       | Some m => if m <? v then Err "{what} must be <= {m}"%string else Ok ()
       | None => Ok ()
       end.

(** [check_rule] *)
Definition check_rule (rule : RuleSpec) : result string () :=
  let lb := rule_lookback_sec rule in
  if (lb =? 0) || (MAX_LOOKBACK_SEC <? lb) then Err "lookbackSec must be in 1..={MAX_LOOKBACK_SEC}"%string
  else
    match rule with
    | ChangeCount _ _ _ min_change_bps direction _ min_count =>
        let max := if bool_decide (direction = DirUp) then None else Some 10000 in
        _ ← check_bps min_change_bps max "minChangeBps";
        if min_count =? 0 then Err "minCount must be > 0"%string else Ok ()
    | SwitchDensity _ _ lookback_sec window_sec reversal_bps switch_kind min_count =>
        if (window_sec =? 0) || (lookback_sec <? window_sec)
        then Err "windowSec must satisfy 0 < windowSec <= lookbackSec"%string
        else
          let max := if bool_decide (switch_kind = SwitchTrough) then None else Some 10000 in
          _ ← check_bps reversal_bps max "reversalBps";
          if min_count =? 0 then Err "minCount must be > 0"%string else Ok ()
    | WindowDrop _ lookback_sec window_sec min_drop_bps =>
        if (window_sec =? 0) || (lookback_sec <? window_sec)
        then Err "windowSec must satisfy 0 < windowSec <= lookbackSec"%string
        else check_bps min_drop_bps (Some 10000) "minDropBps"
    | EventCount _ kinds _ min_count =>
        if bool_decide (kinds = []) then Err "kinds must not be empty"%string
        else if min_count =? 0 then Err "minCount must be > 0"%string else Ok ()
    end.

(** [WindowRules::supports] *)
Definition supports (rule : RuleSpec) : Support :=
  match check_rule rule with Ok _ => Supported | Err e => Unsupported e | Panic => Unsupported "" end.

Fixpoint map_result {E A B} (f : A -> result E B) (l : list A) : result E (list B) :=
  match l with [] => Ok [] | x :: l' => y ← f x; ys ← map_result f l'; Ok (y :: ys) end.

Section Analyze.
Context {W : PowI}.
(** [env!("CARGO_PKG_VERSION")] (scam-filter/Cargo.toml). *)
Definition VERSION : string := "0.2.0".

(** The check of every rule, at the first one that is refused. *)
Fixpoint check_rules (rules : list RuleSpec) : result AlgorithmError () :=
  match rules with
  | [] => Ok ()
  | rule :: rest =>
      match check_rule rule with
      | Ok _ => check_rules rest
      | Err reason => Err (UnsupportedRule (rule_id rule) reason)
      | Panic => Panic
      end
  end.

(** [WindowRules::analyze] *)
Definition analyze (req : AnalysisRequest) (limits : Limits) : result AlgorithmError ScamAnalysis :=
  let h := rq_pool_history req in
  if (lm_max_rules limits <? length (rq_rules req))%nat then Err (LimitExceeded "rules")
  else if (lm_max_points limits <? length (ph_points h))%nat then Err (LimitExceeded "points")
  else if (lm_max_admin_events limits <? length (tp_admin_events (rq_token_profile req)))%nat
  then Err (LimitExceeded "adminEvents")
  else if ph_bucket_ms h <=? 0 then Err (InvalidInput "bucketMs must be > 0")
  else
    _ ← check_rules (rq_rules req);
    rules ← map_result (eval req limits) (rq_rules req);
    Ok (mkScamAnalysis "dambi.scam.window-rules" VERSION CONTRACT_VERSION ModeReal
          (mkBinding (sj_chain_id (rq_subject req)) (sj_pool (rq_subject req)) (ao_block (rq_as_of req))
             (ao_block_hash (rq_as_of req)) (rq_rules_hash req))
          rules).
End Analyze.

(** ** The densest window *)
Lemma in_window_elem events lo hi e : e ∈ in_window events lo hi <-> e ∈ events /\ lo < e <= hi.
Proof.
  unfold in_window. rewrite !list_elem_of_In, List.filter_In, andb_true_iff, Z.ltb_lt, Z.leb_le. done.
Qed.

Lemma in_window_nested events lo hi l h : lo <= l -> h <= hi ->
  in_window (in_window events lo hi) l h = in_window events l h.
Proof.
  intros Hl Hh. unfold in_window. induction events as [|e events IH]; simpl; [done|].
  destruct (Z.ltb_spec lo e), (Z.leb_spec e hi), (Z.ltb_spec l e), (Z.leb_spec e h); simpl; try lia; rewrite ?IH; try done.
  all: destruct (Z.ltb_spec l e), (Z.leb_spec e h); simpl; try lia; rewrite ?IH; done.
Qed.

(** Shrinking a window from both ends cannot gain events. *)
Lemma in_window_count events l h l' h' :
  (forall e, e ∈ events -> l < e <= h -> l' < e <= h') ->
  (length (in_window events l h) <= length (in_window events l' h'))%nat.
Proof.
  unfold in_window. induction events as [|e events IH]; intros Hsub; simpl; [done|].
  specialize (IH (fun e' He' => Hsub e' (list_elem_of_further _ _ _ He'))).
  specialize (Hsub e (list_elem_of_here _ _)).
  destruct (Z.ltb_spec l e), (Z.leb_spec e h), (Z.ltb_spec l' e), (Z.leb_spec e h'); simpl; lia.
Qed.

Notation window_count s window_ms b e :=
  (Z.of_nat (length (in_window s (Z.max b (i64_saturating_sub e window_ms)) e))).

Lemma r2_fold s window_ms b ends best n lo e :
  fold_left (r2_step s window_ms b) ends best = Some (n, lo, e) ->
  match best with Some (bc, bl, be) => bc = window_count s window_ms b be /\ bl = Z.max b (i64_saturating_sub be window_ms)
                | None => True end ->
  n = window_count s window_ms b e /\ lo = Z.max b (i64_saturating_sub e window_ms) /\
  (e ∈ ends \/ exists bc bl, best = Some (bc, bl, e)) /\
  (forall e', e' ∈ ends -> window_count s window_ms b e' <= n) /\
  (forall bc bl be, best = Some (bc, bl, be) -> bc <= n).
Proof.
  revert best. induction ends as [|x ends IH]; intros best Hf Hb; simpl in Hf.
  - subst best. destruct Hb as [-> ->]. repeat split; [eauto|by intros e' He'%not_elem_of_nil|].
    by intros ? ? ? [= <- _ _].
  - destruct (IH _ Hf) as (Hn & Hlo & Hin & Hall & Hbest); clear IH.
    { unfold r2_step. destruct best as [[[bc bl] be]|]; [|done]. by destruct (_ <=? _). }
    assert (window_count s window_ms b x <= n /\ forall bc bl be, best = Some (bc, bl, be) -> bc <= n) as [Hx Hold].
    { unfold r2_step in Hbest. destruct best as [[[bc bl] be]|].
      - destruct (Z.leb_spec bc (window_count s window_ms b x)); specialize (Hbest _ _ _ eq_refl);
          (split; [lia|intros ? ? ? [= <- _ _]; lia]).
      - split; [by eapply Hbest|done]. }
    repeat split; try done.
    + destruct Hin as [Hin|(bc & bl & Hs)]; [left; by right|]. unfold r2_step in Hs.
      destruct best as [[[bc' bl'] be']|]; [|injection Hs as _ _ ->; left; by left].
      destruct (_ <=? _); [injection Hs as _ _ ->; left; by left|]. right. eauto.
    + intros e' He'. apply elem_of_cons in He' as [->|He']; [done|by apply Hall].
Qed.

Lemma r2_fold_none s window_ms b ends best :
  fold_left (r2_step s window_ms b) ends best = None -> ends = [] /\ best = None.
Proof.
  revert best. induction ends as [|x ends IH]; intros best Hf; simpl in Hf; [done|].
  destruct (IH _ Hf) as [_ Hs]. unfold r2_step in Hs. destruct best as [[[? ?] ?]|]; [|done].
  by destruct (_ <=? _).
Qed.

Lemma list_maximum (l : list Z) : l <> [] -> exists m, m ∈ l /\ forall x, x ∈ l -> x <= m.
Proof.
  induction l as [|x l IH]; [done|]. intros _. destruct l as [|y l].
  - exists x. split; [by left|]. intros z Hz. apply list_elem_of_singleton in Hz as ->. done.
  - destruct IH as (m & Hm & Hmax); [done|]. destruct (Z.le_ge_cases x m) as [Hle|Hle].
    + exists m. split; [by right|]. intros z Hz. apply elem_of_cons in Hz as [->|Hz]; [done|by apply Hmax].
    + exists x. split; [by left|]. intros z Hz. apply elem_of_cons in Hz as [->|Hz]; [done|].
      specialize (Hmax z Hz). lia.
Qed.

(** ** Properties *)

(** The evidence of a density rule is the densest window: the reported count is the number
    of switches in the reported window, which ends at a switch, and no window of the same width
    inside the lookback holds more; without evidence the lookback holds no switch. *)
Theorem r2_evidence_densest switches W b t :
  0 < W -> Forall (fun e => I64_MIN + W <= e <= I64_MAX) switches ->
  match r2_evidence switches W b t with
  | None => in_window switches b t = []
  | Some (n, lo, e) =>
      e ∈ in_window switches b t /\ lo = Z.max b (e - W) /\
      n = Z.of_nat (length (in_window switches lo e)) /\
      forall l h, b <= l -> h <= t -> h - l <= W -> Z.of_nat (length (in_window switches l h)) <= n
  end.
Proof.
  intros HW Hr. unfold r2_evidence. set (s := in_window switches b t).
  assert (forall e, e ∈ s -> i64_saturating_sub e W = e - W) as Hsat.
  { intros e He. apply in_window_elem in He as [He _]. rewrite Forall_forall in Hr. specialize (Hr e He).
    simpl in Hr. unfold i64_saturating_sub, i64_sat, I64_MIN, I64_MAX in *. lia. }
  destruct (fold_left (r2_step s W b) s None) as [[[n lo] e]|] eqn:Hf; [|by apply r2_fold_none in Hf as [? _]].
  destruct (r2_fold _ _ _ _ _ _ _ _ Hf I) as (Hn & Hlo & Hin & Hall & _).
  destruct Hin as [Hin|(? & ? & [=])]. rewrite (Hsat e Hin) in Hn, Hlo. split; [done|]. split; [done|].
  pose proof Hin as [_ Het]%in_window_elem. split.
  - rewrite Hn, Hlo. unfold s. by rewrite in_window_nested by lia.
  - intros l h Hl Hh Hlh. rewrite <- (in_window_nested switches b t l h) by lia. fold s.
    destruct (decide (in_window s l h = [])) as [->|Hne]; [simpl; lia|].
    destruct (list_maximum _ Hne) as (m & Hm & Hmax). pose proof Hm as [Hms Hmr]%in_window_elem.
    transitivity (window_count s W b m); [|by apply Hall]. rewrite (Hsat m Hms).
    apply inj_le. apply in_window_count. intros x Hx Hxr.
    assert (x <= m) by (apply Hmax; apply in_window_elem; done). lia.
Qed.

(** ** What a clear outcome stands on *)
Lemma map_result_lookup {E A B} (f : A -> result E B) l ys i x y :
  map_result f l = Ok ys -> l !! i = Some x -> ys !! i = Some y -> f x = Ok y.
Proof.
  revert ys i. induction l as [|z l IH]; simpl; intros ys i Hm Hx Hy; [done|]. inv_ok.
  destruct i as [|i]; simpl in *; [by simplify_eq|]. by eapply IH.
Qed.
Lemma map_result_fmap {E A B C} (f : A -> result E B) (g : B -> C) (h : A -> C) l ys :
  (forall x y, f x = Ok y -> g y = h x) -> map_result f l = Ok ys -> g <$> ys = h <$> l.
Proof.
  intros Hf. revert ys. induction l as [|z l IH]; simpl; intros ys Hm; inv_ok; [done|].
  simpl. f_equal; [by apply Hf|by apply IH].
Qed.

Lemma rule_result_clear rule f :
  rr_outcome (rule_result rule f) = Clear ->
  fi_fired f = false /\ (fi_coverage f).1 = 10000 /\ (fi_coverage f).2 = false /\ fi_warm f = None.
Proof.
  unfold rule_result. destruct (fi_coverage f) as [cov und]. simpl.
  destruct (fi_fired f); [done|]. destruct (Z.eqb_spec cov 10000), und; simpl; try done.
  by destruct (fi_warm f).
Qed.
Lemma rule_result_fired rule f :
  rr_outcome (rule_result rule f) = Fired <-> fi_fired f = true.
Proof.
  unfold rule_result. destruct (fi_coverage f) as [cov und]. destruct (fi_fired f); [done|].
  by destruct (negb _); [|destruct (fi_warm f)].
Qed.
Lemma rule_result_fields rule f :
  rr_rule_id (rule_result rule f) = rule_id rule /\ rr_observed (rule_result rule f) = Some (fi_observed f) /\
  rr_threshold (rule_result rule f) = fi_threshold f.
Proof.
  unfold rule_result. destruct (fi_coverage f) as [cov und].
  by destruct (fi_fired f); [|destruct (negb _); [|destruct (fi_warm f)]].
Qed.

Lemma warm_None req series b need :
  warm req series b need = None -> wu_complete (ph_warmup (rq_pool_history req)) = true.
Proof. unfold warm. by destruct (wu_complete _). Qed.

(** The window of a rule lies in range. *)
Definition wf_times (req : AnalysisRequest) : Prop :=
  i64 (now_ms req) /\ (forall c, tp_pool_created_ms (rq_token_profile req) = Some c -> i64 c) /\
  Forall (fun r => 0 <= rule_lookback_sec r /\ 0 <= rule_threshold r) (rq_rules req).

Lemma secs_to_ms_range s ms : 0 <= s -> secs_to_ms s = Ok ms -> 0 <= ms <= I64_MAX.
Proof. unfold secs_to_ms. intros Hs. destruct (Z.leb_spec (s * 1000) I64_MAX); [|done]. intros [= <-]. lia. Qed.

Lemma window_start_range req ms : wf_times req -> 0 <= ms <= I64_MAX ->
  i64 (window_start req ms) /\ now_ms req - window_start req ms <= I64_MAX.
Proof.
  intros (Ht & Hc & _) Hms. unfold window_start, window_floor, i64_saturating_sub, i64_sat, i64 in *.
  destruct (tp_pool_created_ms _) as [c|]; [specialize (Hc c eq_refl)|]; unfold I64_MIN, I64_MAX in *; lia.
Qed.

(** A pool-history window that is full has a first observation and no gap. *)
Lemma coverage_sees req b first missing :
  i64 b -> i64 (now_ms req) -> now_ms req - b <= I64_MAX -> b < now_ms req ->
  coverage_bps b (now_ms req) first missing = 10000 ->
  exists f, first = Some f /\ forall u, b <= u < now_ms req -> unobserved f missing u = false.
Proof.
  intros Hb Ht Hd Hlt Hc. destruct first as [f|]; [|rewrite coverage_none in Hc by done; done].
  exists f. split; [done|]. apply coverage_full; done.
Qed.

Lemma undefined_none req series b :
  (pool_coverage req series b).2 = false ->
  forall s, s ∈ series -> b < s.1 <= now_ms req -> s.2 <> None.
Proof.
  simpl. intros Hu s Hs Hr Hnone. apply not_true_iff_false in Hu. apply Hu. apply existsb_exists.
  exists s. split; [by apply list_elem_of_In|]. unfold is_undefined. rewrite Hnone. simpl.
  apply andb_true_iff. split; [apply Z.ltb_lt|apply Z.leb_le]; lia.
Qed.

Section Outcomes.
Context {W : PowI}.

Lemma check_rules_all rules : check_rules rules = Ok () -> Forall (fun r => check_rule r = Ok ()) rules.
Proof.
  induction rules as [|r rules IH]; simpl; intros Hc; constructor;
    destruct (check_rule r) as [[]| |]; try done; by apply IH.
Qed.

Lemma check_rule_threshold r : check_rule r = Ok () -> 0 <= rule_threshold r -> 0 < rule_threshold r.
Proof.
  intros Hc Hp. destruct r; simpl in *; unfold check_rule in Hc; simpl in Hc; run_ok; to_prop; lia.
Qed.

(** Every evaluated rule over a series: what is counted, and what its outcome says. *)
Lemma eval_series_outcome req limits rule series b window r :
  0 < rule_threshold rule -> (forall id k l c, rule <> EventCount id k l c) ->
  eval_series req limits rule series b window = Ok r ->
  exists n, rr_rule_id r = rule_id rule /\ rr_threshold r = rule_threshold rule /\ rr_observed r = Some n /\
    (rr_outcome r = Fired <-> rule_threshold rule <= n) /\
    (rr_outcome r = Clear -> n < rule_threshold rule /\
       (pool_coverage req series b).1 = 10000 /\ (pool_coverage req series b).2 = false /\
       wu_complete (ph_warmup (rq_pool_history req)) = true).
Proof.
  intros Hpos Hne Hr.
  assert (exists f, r = rule_result rule f /\ fi_threshold f = rule_threshold rule /\
    fi_fired f = (rule_threshold rule <=? fi_observed f) /\ fi_coverage f = pool_coverage req series b /\
    exists need, fi_warm f = warm req series b need) as (f & -> & Hth & Hfi & Hcov & need & Hw).
  { destruct rule as [| | |id k l c]; simpl in Hr; [| | |by destruct (Hne id k l c)].
    - inv_ok. eexists. repeat split; eauto.
    - inv_ok. destruct (r2_evidence _ _ _ _) as [[[n lo] e]|]; inv_ok; eexists; (split; [done|]); simpl;
        repeat split; eauto. symmetry. apply Z.leb_gt. exact Hpos.
    - inv_ok. eexists. repeat split; eauto. }
  destruct (rule_result_fields rule f) as (Hid & Hob & Ht). exists (fi_observed f).
  rewrite Hid, Ht, Hth, Hob, rule_result_fired, Hfi, Z.leb_le. repeat split; try done.
  all: match goal with Hc : rr_outcome _ = Clear |- _ => apply rule_result_clear in Hc as (Hf & H1 & H2 & H3) end.
  - rewrite Hfi in Hf. by apply Z.leb_gt in Hf.
  - by rewrite Hcov in H1.
  - by rewrite Hcov in H2.
  - rewrite Hw in H3. by apply warm_None in H3.
Qed.

Lemma event_count_outcome req limits rule kinds b window r :
  eval_event_count req limits rule kinds b window = r ->
  exists n, rr_rule_id r = rule_id rule /\ rr_threshold r = rule_threshold rule /\ rr_observed r = Some n /\
    (rr_outcome r = Fired <-> rule_threshold rule <= n) /\
    (rr_outcome r = Clear -> n < rule_threshold rule /\
       coverage_bps b (now_ms req) (Some b) (tp_missing (rq_token_profile req)) = 10000).
Proof.
  intros <-. unfold eval_event_count. match goal with |- context [rule_result rule ?f] => set (F := f) end.
  destruct (rule_result_fields rule F) as (Hid & Hob & Ht). exists (fi_observed F).
  assert (fi_fired F = (rule_threshold rule <=? fi_observed F)) as Hfi by done.
  rewrite Hid, Ht, Hob, rule_result_fired, Hfi, Z.leb_le.
  repeat split; try done.
  all: match goal with Hc : rr_outcome _ = Clear |- _ => apply rule_result_clear in Hc as (Hf & H1 & _ & _) end.
  - rewrite Hfi in Hf. by apply Z.leb_gt in Hf.
  - exact H1.
Qed.

(** What a clear outcome of a rule says of the window that starts at [b]. *)
Definition clear_window (req : AnalysisRequest) (rule : RuleSpec) (b : Z) : Prop :=
  match rule with
  | EventCount _ _ _ _ => coverage_bps b (now_ms req) (Some b) (tp_missing (rq_token_profile req)) = 10000
  | _ => wu_complete (ph_warmup (rq_pool_history req)) = true /\
         exists series, metric_series (rq_pool_history req) (rule_metric rule) (now_ms req) = Ok series /\
           (pool_coverage req series b).1 = 10000 /\ (pool_coverage req series b).2 = false
  end.

(** How [eval] ends: not evaluable, or with an outcome that follows the count. *)
Lemma eval_outcome req limits rule r :
  0 < rule_threshold rule -> eval req limits rule = Ok r ->
  rr_rule_id r = rule_id rule /\ rr_threshold r = rule_threshold rule /\
  ((rr_outcome r = NotEvaluable /\ rr_observed r = None) \/
   exists ms n, secs_to_ms (rule_lookback_sec rule) = Ok ms /\ rr_observed r = Some n /\
     (rr_outcome r = Fired <-> rule_threshold rule <= n) /\
     (rr_outcome r = Clear -> n < rule_threshold rule /\ clear_window req rule (window_start req ms))).
Proof.
  intros Hpos Hr. unfold eval in Hr. inv_ok. destruct (negb _); [inv_ok; by auto|]. inv_ok.
  match goal with Hx : secs_to_ms _ = Ok ?m |- _ => rename Hx into Hms; rename m into ms end.
  destruct (match rule with EventCount _ _ _ _ => true | _ => false end) eqn:Hk.
  - destruct rule as [| | |id kinds l k]; try done. inv_ok.
    edestruct (event_count_outcome req limits (EventCount id kinds l k) kinds (window_start req ms))
      as (n & Hid & Ht & Hob & Hf & Hc); [reflexivity|]. split; [exact Hid|]. split; [exact Ht|]. right.
    exists ms, n. done.
  - assert (exists series, metric_series (rq_pool_history req) (rule_metric rule) (now_ms req) = Ok series /\
      (r = not_evaluable req rule (rule_threshold rule) NoUsableSegment \/
       eval_series req limits rule series (window_start req ms)
         (Some (mkEvidenceWindow (window_start req ms) (now_ms req))) = Ok r)) as (series & Hs & Hcase).
    { destruct rule; try done; inv_ok; eexists; (split; [eassumption|]);
        match goal with He : (if ?c then _ else _) = Ok _ |- _ => destruct c; [inv_ok; by left|by right] end. }
    destruct Hcase as [->|He]; [by auto|].
    apply eval_series_outcome in He as (n & Hid & Ht & Hob & Hf & Hc);
      [|done|intros id k l c ->; done].
    split; [done|]. split; [done|]. right. exists ms, n. split; [done|]. split; [done|]. split; [done|].
    intros Hcl. destruct (Hc Hcl) as (Hn & Hcov & Hund & Hcomp). split; [done|].
    unfold clear_window. destruct rule; try done; (split; [done|]); by exists series.
Qed.

Lemma analyze_Ok req limits a :
  analyze req limits = Ok a ->
  check_rules (rq_rules req) = Ok () /\ map_result (eval req limits) (rq_rules req) = Ok (sa_rules a).
Proof.
  unfold analyze. intros Ha. repeat (destruct (_ <? _)%nat; [done|]). destruct (_ <=? _); [done|]. inv_ok.
  match goal with x : () |- _ => destruct x end. done.
Qed.

(** An analysis answers every rule it was asked, in order: the results carry the rules'
    identifiers and thresholds, and a rule that could be evaluated has fired exactly when the
    observed count reached its threshold. *)
Theorem analysis_answers_every_rule req limits a :
  wf_times req -> analyze req limits = Ok a ->
  (rr_rule_id <$> sa_rules a = rule_id <$> rq_rules req) /\
  (rr_threshold <$> sa_rules a = rule_threshold <$> rq_rules req) /\
  Forall (fun r => (rr_outcome r = NotEvaluable /\ rr_observed r = None) \/
                   exists n, rr_observed r = Some n /\ (rr_outcome r = Fired <-> rr_threshold r <= n)) (sa_rules a).
Proof.
  intros (_ & _ & Hth) [Hck%check_rules_all Hm]%analyze_Ok.
  assert (Forall (fun r => 0 < rule_threshold r) (rq_rules req)) as Hpos.
  { apply Forall_forall. intros r Hr. rewrite Forall_forall in Hck, Hth. apply check_rule_threshold; [by apply Hck|].
    by destruct (Hth r Hr). }
  clear Hck Hth. revert Hm. generalize (sa_rules a) as rs. induction Hpos as [|rule rules Hp _ IH]; simpl; intros rs Hm.
  - inv_ok. by repeat split.
  - inv_ok. match goal with He : eval _ _ rule = Ok ?y, Hr : map_result _ rules = Ok ?ys |- _ =>
      destruct (eval_outcome _ _ _ _ Hp He) as (Hid & Ht & Hcase); destruct (IH ys Hr) as (Hi & Htt & Hall) end.
    split; [by apply (f_equal2 cons)|]. split; [by apply (f_equal2 cons)|]. constructor; [|done].
    destruct Hcase as [?|(ms & n & _ & Hob & Hf & _)]; [by left|]. right. exists n. by rewrite Ht.
Qed.

(** C40: A clear verdict is earned: when a rule comes out clear, every millisecond of its window
    was observed (it lies after the first observation and in no missing range), the metric is
    defined at every sample in the window, the host vouches for the history, and fewer events
    than the threshold were counted. *)
Theorem clear_means_observed req limits a i rule r :
  wf_times req -> analyze req limits = Ok a ->
  rq_rules req !! i = Some rule -> sa_rules a !! i = Some r -> rr_outcome r = Clear ->
  exists ms n, secs_to_ms (rule_lookback_sec rule) = Ok ms /\ rr_observed r = Some n /\
    n < rule_threshold rule /\
    let b := window_start req ms in
    b < now_ms req ->
    match rule with
    | EventCount _ _ _ _ => forall u, b <= u < now_ms req -> unobserved b (tp_missing (rq_token_profile req)) u = false
    | _ =>
        wu_complete (ph_warmup (rq_pool_history req)) = true /\
        exists series first, metric_series (rq_pool_history req) (rule_metric rule) (now_ms req) = Ok series /\
          first_time series = Some first /\
          (forall u, b <= u < now_ms req -> unobserved first (ph_missing (rq_pool_history req)) u = false) /\
          (forall s, s ∈ series -> b < s.1 <= now_ms req -> s.2 <> None)
    end.
Proof.
  intros Hwf [Hck%check_rules_all Hm]%analyze_Ok Hr Hy Hcl. pose proof Hwf as (Hnow & _ & Hth).
  pose proof (map_result_lookup _ _ _ _ _ _ Hm Hr Hy) as He.
  apply list_elem_of_lookup_2 in Hr. rewrite Forall_forall in Hck, Hth. destruct (Hth rule Hr) as [Hlb Hp].
  destruct (eval_outcome req limits rule r) as (_ & _ & [[Hno _]|(ms & n & Hms & Hob & _ & Hc)]);
    [by apply check_rule_threshold; [apply Hck|]|done|congruence|].
  destruct (Hc Hcl) as [Hn Hw]. exists ms, n. split; [done|]. split; [done|]. split; [done|]. intros b Hlt.
  destruct (window_start_range req ms Hwf (secs_to_ms_range _ _ Hlb Hms)) as [Hb Hd].
  unfold clear_window in Hw. fold b in Hw, Hb, Hd. destruct rule.
  1-3: destruct Hw as (Hcomp & series & Hs & Hcov & Hund); (split; [done|]);
    destruct (coverage_sees req b _ _ Hb Hnow Hd Hlt Hcov) as (first & Hfirst & Hobs);
    exists series, first; (split; [done|]); (split; [done|]); (split; [done|]); by apply undefined_none.
  destruct (coverage_sees req b _ _ Hb Hnow Hd Hlt Hw) as (first & [= <-] & Hobs). done.
Qed.
End Outcomes.

(** ** Witnesses *)
#[local] Instance exact_powi : PowI := fun n => f_of_Z (10 ^ n).
Definition demo_point (t : Z) (quote : string) : PoolPoint := mkPoolPoint t quote "5000000" 6 6.
Definition demo_rules : list RuleSpec :=
  [ChangeCount "calm" MetricLiquidity 10 5000 DirBoth ModeStep 1;
   WindowDrop "rug" 10 5 3000;
   EventCount "owner" [OwnerChanged; Paused] 10 1].
Definition demo_request : AnalysisRequest :=
  mkAnalysisRequest (mkSubject 1 "0xpool" "0xtoken" "0xquote" "uniswap_v2") (mkAsOf "19000000" "0xhash" 100000)
    demo_rules "0xrules"
    (mkPoolHistory "v1" "1" 80000 1000
       [demo_point 80000 "2000000"; demo_point 95000 "2100000"; demo_point 98000 "1200000"] []
       (mkWarmup 80000 true))
    (mkTokenProfile "v1" None None [mkAdminEvent 50000 Paused] []).
Definition demo_outcomes (a : ScamAnalysis) : list Outcome := rr_outcome <$> sa_rules a.

Lemma demo_request_wf : wf_times demo_request.
Proof.
  repeat split; try done; unfold i64, I64_MIN, I64_MAX; simpl; try lia. repeat constructor; simpl; lia.
Qed.

Definition demo_limits : Limits := mkLimits 16 100 100 64.
Lemma demo_check_ok :
  match analyze demo_request demo_limits with Ok a => demo_outcomes a = [Clear; Fired; Clear] | _ => False end.
Proof. vm_compute. reflexivity. Qed.
Lemma demo_analysis : exists a, analyze demo_request demo_limits = Ok a /\ demo_outcomes a = [Clear; Fired; Clear].
Proof.
  pose proof demo_check_ok as H. destruct (analyze demo_request demo_limits) as [a| |] eqn:E; [|by destruct H..].
  exists a. split; [reflexivity|exact H].
Qed.

Lemma analysis_answers_every_rule_witness :
  exists a, analyze demo_request demo_limits = Ok a /\ demo_outcomes a = [Clear; Fired; Clear] /\
    (rr_rule_id <$> sa_rules a) = (rule_id <$> demo_rules).
Proof.
  destruct demo_analysis as (a & Ha & Ho).
  destruct (analysis_answers_every_rule demo_request demo_limits a demo_request_wf Ha) as (Hid & _ & _).
  exists a. split; [exact Ha|]. split; [exact Ho|exact Hid].
Defined.

Lemma clear_means_observed_witness :
  exists a r ms n, analyze demo_request demo_limits = Ok a /\ sa_rules a !! 0%nat = Some r /\
    rr_outcome r = Clear /\ secs_to_ms 10 = Ok ms /\ rr_observed r = Some n /\ n < 1.
Proof.
  destruct demo_analysis as (a & Ha & Ho).
  assert (exists r, sa_rules a !! 0%nat = Some r /\ rr_outcome r = Clear) as (r & Hr & Hc).
  { unfold demo_outcomes in Ho. destruct (sa_rules a) as [|r l]; [discriminate Ho|]. injection Ho as Hc _.
    exists r. by split. }
  destruct (clear_means_observed demo_request demo_limits a 0
      (ChangeCount "calm" MetricLiquidity 10 5000 DirBoth ModeStep 1) r demo_request_wf Ha eq_refl Hr Hc)
    as (ms & n & Hms & Hob & Hn & _).
  exists a, r, ms, n. repeat (split; [assumption|]). exact Hn.
Defined.

Definition demo_switches : list Z := [1000; 4000; 4500; 5200; 9000].

Lemma r2_evidence_densest_witness :
  r2_evidence demo_switches 2000 500 10000 = Some (3, 3200, 5200) /\
  (forall l h, 500 <= l -> h <= 10000 -> h - l <= 2000 ->
     Z.of_nat (length (in_window demo_switches l h)) <= 3).
Proof.
  assert (r2_evidence demo_switches 2000 500 10000 = Some (3, 3200, 5200)) as He by (vm_compute; reflexivity).
  split; [exact He|].
  assert (Forall (fun e => I64_MIN + 2000 <= e <= I64_MAX) demo_switches) as Hf
    by (repeat constructor; unfold I64_MIN, I64_MAX; lia).
  pose proof (r2_evidence_densest demo_switches 2000 500 10000 ltac:(lia) Hf) as Hd.
  rewrite He in Hd. destruct Hd as (_ & _ & _ & Hd). exact Hd.
Defined.
End ScamRules.
