(* ===== verification/SyncTopo.v ===== *)
(** * Dependency order of derived fields (policy-server/sync/src/live/topo.rs)

    Kahn's algorithm over nodes named by strings. The iteration order of the
    [HashSet] of names is not specified by the language: it is the parameter
    [iter] of the model. Counters are [usize]: a decrement of zero panics with
    overflow checks ([ck]) and wraps without. *)
From stdpp Require Import base tactics numbers list strings gmap fin_sets.
From S2P Require Import Prelude.

Module SyncTopo.

Record DepNode := mkDepNode { dn_id : string; dn_depends_on : list string }.

(** The variants of [SyncError] the live-field pipeline raises. *)
Inductive SyncError :=
| FetchFailed (source_id reason : string)
| DeriveFailed (calc_id reason : string)
| CyclicDeps (calc_id : string)
| UnknownCalcId (calc_id : string)
| UnknownDecoder (decoder_id : string).

(** [adj.entry(dep).or_default().push(id)] *)
Definition push_edge (id : string) (adj : gmap string (list string)) (dep : string) : gmap string (list string) :=
  <[dep := default [] (adj !! dep) ++ [id]]> adj.

(** The first loop: names, zero counters and edges. *)
Definition init_node (st : gmap string (list string) * gmap string Z * gset string) (n : DepNode) :=
  let '(adj, in_degree, all_ids) := st in
  (fold_left (push_edge (dn_id n)) (dn_depends_on n) adj,
   match in_degree !! dn_id n with Some _ => in_degree | None => <[dn_id n := 0]> in_degree end,
   all_ids ∪ {[dn_id n]} ∪ list_to_set (dn_depends_on n)).
Definition init (nodes : list DepNode) := fold_left init_node nodes (∅, ∅, ∅).

(** The second loop: the counter of a node is the number of its dependencies. *)
Definition set_degree (in_degree : gmap string Z) (n : DepNode) : gmap string Z :=
  <[dn_id n := Z.of_nat (length (dn_depends_on n))]> in_degree.

(** [*d -= 1] on [usize]. *)
Definition usize_dec (ck : bool) (d : Z) : result SyncError Z :=
  if d =? 0 then if ck then Panic else Ok U64_MAX else Ok (d - 1).

(** One edge of the popped node: decrement the counter, queue the node at zero. *)
Definition relax (ck : bool) (st : gmap string Z * list string) (nxt : string)
    : result SyncError (gmap string Z * list string) :=
  let '(in_degree, queue) := st in
  match in_degree !! nxt with
  | Some d =>
      d' ← usize_dec ck d;
      Ok (<[nxt := d']> in_degree, if d' =? 0 then queue ++ [nxt] else queue)
  | None => Ok st
  end.

(** The main loop; [None] when the fuel runs out with names still queued. *)
Fixpoint topo_loop (ck : bool) (adj : gmap string (list string)) (fuel : nat)
    (in_degree : gmap string Z) (queue sorted : list string) : option (result SyncError (list string)) :=
  match queue with
  | [] => Some (Ok sorted)
  | id :: queue' =>
      match fuel with
      | O => None
      | S fuel' =>
          match foldM (relax ck) (default [] (adj !! id)) (in_degree, queue') with
          | Ok (in_degree', queue'') => topo_loop ck adj fuel' in_degree' queue'' (sorted ++ [id])
          | Err e => Some (Err e)
          | Panic => Some Panic
          end
      end
  end.

Section Sort.
Context (iter : gset string -> list string) (ck : bool).

Definition start_queue (in_degree : gmap string Z) (all_ids : gset string) : list string :=
  filter (fun id => default 0 (in_degree !! id) = 0) (iter all_ids).

Definition topological_sort (nodes : list DepNode) : option (result SyncError (list string)) :=
  let '(adj, in_degree0, all_ids) := init nodes in
  let in_degree := fold_left set_degree nodes in_degree0 in
  match topo_loop ck adj (size all_ids) in_degree (start_queue in_degree all_ids) [] with
  | Some (Ok sorted) =>
      if bool_decide (length sorted = size all_ids) then Some (Ok sorted)
      else Some (Err (CyclicDeps (default "<unknown>" (last sorted))))
  | r => r
  end.
End Sort.

(** ** Specification *)

(** The names a graph is_named, and the dependencies of a name. *)
Definition is_named (nodes : list DepNode) (x : string) : Prop :=
  exists n, n ∈ nodes /\ (x = dn_id n \/ x ∈ dn_depends_on n).
Definition deps (nodes : list DepNode) (x : string) : list string :=
  match find_first (fun n => bool_decide (dn_id n = x)) nodes with Some n => dn_depends_on n | None => [] end.

(** [l] lists every name once, each after all its dependencies. *)
Record topological_order (nodes : list DepNode) (l : list string) : Prop := {
  to_nodup : NoDup l;
  to_names : forall x, x ∈ l <-> is_named nodes x;
  to_order : forall n d, n ∈ nodes -> d ∈ dn_depends_on n ->
    exists i j, (i < j)%nat /\ l !! i = Some d /\ l !! j = Some (dn_id n);
}.

(** ** Lemmas on counting *)
Definition cnt (x : string) (l : list string) : nat := length (filter (x =.) l).

Lemma cnt_app x l1 l2 : cnt x (l1 ++ l2) = (cnt x l1 + cnt x l2)%nat.
Proof. unfold cnt. by rewrite filter_app, length_app. Qed.
Lemma cnt_cons x y l : cnt x (y :: l) = ((if decide (x = y) then 1 else 0) + cnt x l)%nat.
Proof. unfold cnt. rewrite filter_cons. by case_decide. Qed.
Lemma cnt_elem x l : x ∈ l <-> (0 < cnt x l)%nat.
Proof.
  induction l as [|y l IH]; [rewrite elem_of_nil; cbn; lia|]. rewrite elem_of_cons, cnt_cons, IH.
  case_decide; intuition (auto with lia).
Qed.

Definition missing (sorted l : list string) : list string := filter (fun d => d ∉ sorted) l.

Lemma missing_snoc sorted x l : x ∉ sorted ->
  (length (missing (sorted ++ [x]) l) + cnt x l)%nat = length (missing sorted l).
Proof.
  intros Hx. unfold missing. induction l as [|y l IH]; [done|]. rewrite cnt_cons, !filter_cons.
  repeat case_decide; subst; simpl; try lia; set_solver.
Qed.
Lemma missing_nil sorted l : length (missing sorted l) = 0%nat <-> forall d, d ∈ l -> d ∈ sorted.
Proof.
  unfold missing. rewrite length_zero_iff_nil. split.
  - intros H d Hd. destruct (decide (d ∈ sorted)); [done|].
    assert (d ∈ filter (fun d => d ∉ sorted) l) as He by (by apply list_elem_of_filter). by rewrite H in He; apply elem_of_nil in He.
  - intros H. destruct (filter _ l) as [|d l'] eqn:E; [done|].
    assert (d ∈ filter (fun d => d ∉ sorted) l) as [Hn Hd]%list_elem_of_filter by (rewrite E; left). by destruct Hn; apply H.
Qed.

(** ** The three tables after the two loops *)
Definition ids (nodes : list DepNode) : list string := dn_id <$> nodes.
Definition edges (nodes : list DepNode) (x y : string) : nat :=
  sum_list ((fun n => if decide (y = dn_id n) then cnt x (dn_depends_on n) else 0%nat) <$> nodes).

Lemma deps_cons n nodes x :
  deps (n :: nodes) x = if decide (dn_id n = x) then dn_depends_on n else deps nodes x.
Proof.
  unfold deps. simpl. destruct (decide (dn_id n = x)) as [H|H];
    [by rewrite bool_decide_eq_true_2|by rewrite bool_decide_eq_false_2].
Qed.
Lemma deps_none nodes x : x ∉ ids nodes -> deps nodes x = [].
Proof.
  unfold ids. induction nodes as [|n nodes IH]; [done|]. rewrite fmap_cons, not_elem_of_cons, deps_cons. intros [Hn Hx].
  rewrite decide_False by congruence. by apply IH.
Qed.
Lemma deps_node nodes n : NoDup (ids nodes) -> n ∈ nodes -> deps nodes (dn_id n) = dn_depends_on n.
Proof.
  induction nodes as [|m nodes IH]; [by rewrite elem_of_nil|]. unfold ids. rewrite fmap_cons, NoDup_cons, elem_of_cons, deps_cons.
  intros [Hm Hnd] [->|Hn]; [by rewrite decide_True|].
  rewrite decide_False; [by apply IH|]. intros He. apply Hm. rewrite He. by apply list_elem_of_fmap_2.
Qed.
Lemma deps_elem nodes x d : NoDup (ids nodes) -> d ∈ deps nodes x -> exists n, n ∈ nodes /\ dn_id n = x /\ d ∈ dn_depends_on n.
Proof.
  intros Hnd Hd. destruct (decide (x ∈ ids nodes)) as [Hx|Hx]; [|rewrite deps_none in Hd by done; by apply elem_of_nil in Hd].
  apply list_elem_of_fmap in Hx as (n & -> & Hn). exists n. by rewrite deps_node in Hd by done.
Qed.
Lemma edges_cons n nodes x y :
  edges (n :: nodes) x y = ((if decide (y = dn_id n) then cnt x (dn_depends_on n) else 0) + edges nodes x y)%nat.
Proof. done. Qed.
Lemma edges_deps nodes x y : NoDup (ids nodes) -> edges nodes x y = cnt x (deps nodes y).
Proof.
  induction nodes as [|n nodes IH]; [done|]. unfold ids. rewrite fmap_cons, NoDup_cons. intros [Hn Hnd].
  rewrite deps_cons, edges_cons, IH by done.
  destruct (decide (y = dn_id n)) as [->|Hy]; [|rewrite decide_False by congruence; lia].
  rewrite decide_True, (deps_none nodes (dn_id n)) by done. cbn. lia.
Qed.

Lemma push_edges id l adj x y :
  cnt y (default [] (fold_left (push_edge id) l adj !! x)) =
  (cnt y (default [] (adj !! x)) + if decide (y = id) then cnt x l else 0)%nat.
Proof.
  revert adj. induction l as [|d l IH]; intros adj; simpl; [by destruct decide; cbn; lia|].
  rewrite IH. unfold push_edge. rewrite (cnt_cons x d). destruct (decide (x = d)) as [->|Hd].
  - rewrite lookup_insert_eq. simpl. rewrite cnt_app, cnt_cons. change (cnt y []) with 0%nat. destruct (decide (y = id)); lia.
  - rewrite lookup_insert_ne by done. destruct (decide (y = id)); lia.
Qed.

Lemma init_adj nodes st x y :
  cnt y (default [] ((fold_left init_node nodes st).1.1 !! x)) = (cnt y (default [] (st.1.1 !! x)) + edges nodes x y)%nat.
Proof.
  revert st. induction nodes as [|n nodes IH]; intros st; [simpl; unfold edges; simpl; lia|]. rewrite edges_cons. simpl. rewrite IH.
  destruct st as [[adj D] A]. simpl. rewrite push_edges. lia.
Qed.
Lemma init_ids nodes st x :
  x ∈ (fold_left init_node nodes st).2 <-> x ∈ st.2 \/ is_named nodes x.
Proof.
  revert st. induction nodes as [|n nodes IH]; intros st; simpl.
  { split; [by left|]. intros [?|(n & Hn & _)]; [done|]. by apply elem_of_nil in Hn. }
  rewrite IH. destruct st as [[adj D] A]. simpl. rewrite !elem_of_union, elem_of_singleton, elem_of_list_to_set. unfold is_named.
  setoid_rewrite elem_of_cons. naive_solver.
Qed.
Lemma init_degree nodes st x :
  is_Some ((fold_left init_node nodes st).1.2 !! x) <-> is_Some (st.1.2 !! x) \/ x ∈ ids nodes.
Proof.
  unfold ids. revert st. induction nodes as [|n nodes IH]; intros st; simpl; [rewrite elem_of_nil; tauto|].
  rewrite IH, elem_of_cons. destruct st as [[adj D] A]. simpl. destruct (D !! dn_id n) eqn:E.
  - split; [tauto|]. intros [?|[->|?]]; [by left|left; by rewrite E|by right].
  - destruct (decide (x = dn_id n)) as [->|Hx]; [rewrite lookup_insert_eq; naive_solver|].
    rewrite lookup_insert_ne by done. naive_solver.
Qed.
Lemma set_degrees nodes D x : NoDup (ids nodes) ->
  fold_left set_degree nodes D !! x =
  if decide (x ∈ ids nodes) then Some (Z.of_nat (length (deps nodes x))) else D !! x.
Proof.
  revert D. unfold ids. induction nodes as [|n nodes IH]; intros D.
  { intros _. rewrite decide_False; [done|apply not_elem_of_nil]. }
  rewrite fmap_cons, NoDup_cons. cbn [fold_left]. intros [Hn Hnd]. rewrite IH by done. rewrite deps_cons. unfold set_degree.
  destruct (decide (dn_id n = x)) as [<-|Hx].
  - rewrite decide_False, lookup_insert_eq, decide_True by (done || left). done.
  - rewrite lookup_insert_ne by done. apply decide_ext. rewrite elem_of_cons. naive_solver.
Qed.

(** ** The loop *)

(** Relaxing all edges of a name subtracts them, and queues the names that reach zero. *)
Lemma relax_all ck ns D queue :
  (forall y d, D !! y = Some d -> Z.of_nat (cnt y ns) <= d) ->
  exists D' pushed, foldM (relax ck) ns (D, queue) = Ok (D', queue ++ pushed) /\
    (forall y, D' !! y = (fun d => d - Z.of_nat (cnt y ns)) <$> D !! y) /\ NoDup pushed /\
    (forall y, y ∈ pushed <-> y ∈ ns /\ D !! y = Some (Z.of_nat (cnt y ns))).
Proof.
  revert D queue. induction ns as [|x ns IH]; intros D queue Hle; simpl.
  { exists D, []. rewrite app_nil_r. split; [done|]. split; [intros y; destruct (D !! y); simpl; f_equal; cbn; lia|].
    split; [constructor|]. intros y. rewrite !elem_of_nil. tauto. }
  destruct (D !! x) as [d|] eqn:Hd.
  - pose proof (Hle x d Hd) as Hx. rewrite cnt_cons, decide_True in Hx by done.
    unfold usize_dec. rewrite (proj2 (Z.eqb_neq d 0)) by lia. simpl.
    destruct (IH (<[x := d - 1]> D) (if d - 1 =? 0 then queue ++ [x] else queue)) as (D' & pushed & Hr & HD & Hnd & Hp).
    { intros y e. destruct (decide (y = x)) as [->|Hy].
      - rewrite lookup_insert_eq. intros [= <-]. lia.
      - rewrite lookup_insert_ne by done. intros He. apply Hle in He. rewrite cnt_cons, decide_False in He by done. lia. }
    exists D', ((if d - 1 =? 0 then [x] else []) ++ pushed). split.
    { rewrite Hr. by destruct (d - 1 =? 0); [rewrite <- app_assoc|]. }
    split.
    { intros y. rewrite HD, cnt_cons. destruct (decide (y = x)) as [->|Hy].
      - rewrite lookup_insert_eq, Hd. simpl. f_equal. lia.
      - rewrite lookup_insert_ne by done. destruct (D !! y); simpl; f_equal; lia. }
    assert (forall y, y ∈ pushed <-> y ∈ ns /\ D !! y = Some (Z.of_nat (cnt y (x :: ns)))) as Hp'.
    { intros y. rewrite Hp, cnt_cons. destruct (decide (y = x)) as [->|Hy].
      - rewrite lookup_insert_eq, Hd. split; intros [? [= ?]]; (split; [done|f_equal; lia]).
      - by rewrite lookup_insert_ne by done. }
    split.
    + destruct (Z.eqb_spec (d - 1) 0) as [Hz|Hz]; [|done]. apply NoDup_cons. split; [|done]. rewrite Hp'. intros [Hin%cnt_elem _]. lia.
    + intros y. rewrite elem_of_app, Hp', elem_of_cons. destruct (Z.eqb_spec (d - 1) 0) as [Hz|Hz].
      * rewrite list_elem_of_singleton. split; [|naive_solver]. intros [->|?]; [|naive_solver].
        split; [by left|]. rewrite Hd, cnt_cons, decide_True by done. f_equal. lia.
      * rewrite elem_of_nil. split; [naive_solver|]. intros [[->|?] Hy]; [|naive_solver]. right. split; [|done].
        apply cnt_elem. rewrite Hd, cnt_cons, decide_True in Hy by done. injection Hy. lia.
  - destruct (IH D queue) as (D' & pushed & Hr & HD & Hnd & Hp).
    { intros y e He. specialize (Hle y e He). rewrite cnt_cons in Hle. lia. }
    exists D', pushed. split; [done|]. split.
    { intros y. rewrite HD, cnt_cons. destruct (decide (y = x)) as [->|Hy]; [by rewrite Hd|done]. }
    split; [done|]. intros y. rewrite Hp, elem_of_cons, cnt_cons. destruct (decide (y = x)) as [->|Hy]; [rewrite Hd; naive_solver|naive_solver].
Qed.

Section Loop.
Context (nodes : list DepNode) (adj : gmap string (list string)) (all_ids : gset string) (ck : bool).
Context (Hids : NoDup (ids nodes)).
Context (Hadj : forall x y, cnt y (default [] (adj !! x)) = cnt x (deps nodes y)).
Context (Hall : forall x, x ∈ all_ids <-> is_named nodes x).

(** A counter is the number of dependencies not yet sorted; the names sorted or queued are
    those with none left. *)
Record topo_inv (D : gmap string Z) (queue sorted : list string) : Prop := {
  ti_degree : forall x, D !! x =
    if decide (x ∈ ids nodes) then Some (Z.of_nat (length (missing sorted (deps nodes x)))) else None;
  ti_nodup : NoDup (sorted ++ queue);
  ti_ready : forall x, x ∈ sorted ++ queue <-> is_named nodes x /\ length (missing sorted (deps nodes x)) = 0%nat;
  ti_order : forall i x d, sorted !! i = Some x -> d ∈ deps nodes x -> d ∈ take i sorted;
}.

Lemma deps_mentions x d : d ∈ deps nodes x -> x ∈ ids nodes /\ is_named nodes x.
Proof.
  intros Hd. destruct (deps_elem nodes x d Hids Hd) as (n & Hn & <- & Hin).
  split; [by apply list_elem_of_fmap_2|]. exists n. auto.
Qed.

Lemma topo_inv_step D id queue sorted :
  topo_inv D (id :: queue) sorted ->
  exists D' pushed, foldM (relax ck) (default [] (adj !! id)) (D, queue) = Ok (D', queue ++ pushed) /\
    topo_inv D' (queue ++ pushed) (sorted ++ [id]).
Proof.
  intros [Hdeg Hnd Hready Hord]. set (ns := default [] (adj !! id)).
  assert (id ∉ sorted) as Hid by (apply NoDup_app in Hnd as (_ & Hdis & _); intros ?; eapply Hdis; [done|left]).
  assert (forall x, (length (missing (sorted ++ [id]) (deps nodes x)) + cnt x ns)%nat = length (missing sorted (deps nodes x))) as Hm.
  { intros x. unfold ns. rewrite Hadj. by apply missing_snoc. }
  destruct (relax_all ck ns D queue) as (D' & pushed & Hr & HD & Hndp & Hp).
  { intros y d. rewrite Hdeg. case_decide; [|done]. intros [= <-]. specialize (Hm y). lia. }
  assert (forall x, x ∈ pushed <-> (0 < cnt x ns)%nat /\ length (missing (sorted ++ [id]) (deps nodes x)) = 0%nat) as Hp'.
  { intros x. rewrite Hp, Hdeg, cnt_elem. specialize (Hm x). split.
    - intros [Hc He]. case_decide; [|done]. injection He. lia.
    - intros [Hc He]. split; [done|]. rewrite decide_True; [f_equal; lia|].
      unfold ns in Hc. rewrite Hadj in Hc. apply cnt_elem in Hc. by apply deps_mentions in Hc as [? _]. }
  exists D', pushed. split; [done|]. split.
  - intros x. rewrite HD, Hdeg. case_decide; [|done]. simpl. f_equal. specialize (Hm x). lia.
  - rewrite <- app_assoc. simpl. replace (sorted ++ id :: queue ++ pushed) with ((sorted ++ id :: queue) ++ pushed)
      by by rewrite <- app_assoc. apply NoDup_app. split; [done|]. split; [|done].
    intros x Hx [Hc _]%Hp'. apply Hready in Hx as [_ Hx]. specialize (Hm x). lia.
  - intros x. transitivity (x ∈ (sorted ++ id :: queue) \/ x ∈ pushed); [rewrite !elem_of_app, !elem_of_cons, elem_of_nil; tauto|].
    rewrite Hready, Hp'. specialize (Hm x). split; [|intros [? ?]; destruct (decide (cnt x ns = 0%nat)); [left|right]; split; lia || done].
    intros [[? ?]|[Hc ?]]; (split; [|lia]); [done|]. unfold ns in Hc. rewrite Hadj in Hc. apply cnt_elem in Hc. by apply deps_mentions in Hc as [_ ?].
  - intros i x d. rewrite lookup_app_Some. intros [Hi|[Hl Hi]] Hd.
    + rewrite take_app_le by (apply lookup_lt_Some in Hi; lia). by apply (Hord i x d).
    + apply list_lookup_singleton_Some in Hi as [Hz <-]. rewrite take_app_length' by lia.
      assert (id ∈ sorted ++ id :: queue) as [_ H0]%Hready by (rewrite elem_of_app; right; left).
      by apply (proj1 (missing_nil sorted (deps nodes id)) H0).
Qed.

Lemma topo_inv_bound D queue sorted : topo_inv D queue sorted -> (length sorted + length queue <= size all_ids)%nat.
Proof.
  intros [_ Hnd Hready _]. rewrite <- length_app, <- (size_list_to_set (C := gset string) _ Hnd). apply subseteq_size.
  intros x. rewrite elem_of_list_to_set, Hready, Hall. tauto.
Qed.

Lemma topo_loop_runs fuel : forall D queue sorted,
  topo_inv D queue sorted -> (size all_ids <= length sorted + fuel)%nat ->
  exists D' sorted', topo_loop ck adj fuel D queue sorted = Some (Ok sorted') /\ topo_inv D' [] sorted'.
Proof.
  induction fuel as [|fuel IH]; intros D [|id queue] sorted Hinv Hf; simpl; try (by exists D, sorted).
  - apply topo_inv_bound in Hinv. simpl in Hinv. lia.
  - destruct (topo_inv_step _ _ _ _ Hinv) as (D' & pushed & -> & Hinv').
    apply (IH _ _ _ Hinv'). rewrite length_app. simpl. lia.
Qed.

(** When the loop ends, it sorted every name or the graph has no order. *)
Lemma topo_done D sorted : topo_inv D [] sorted ->
  if decide (length sorted = size all_ids) then topological_order nodes sorted
  else forall l, ~ topological_order nodes l.
Proof.
  intros [_ Hnd Hready Hord]. rewrite app_nil_r in Hnd, Hready.
  assert (list_to_set (C := gset string) sorted ⊆ all_ids) as Hsub.
  { intros x. rewrite elem_of_list_to_set, Hready, Hall. tauto. }
  case_decide as Hlen.
  - assert (forall x, x ∈ sorted <-> is_named nodes x) as Hnames.
    { intros x. rewrite <- Hall, <- (set_subseteq_size_equiv _ _ Hsub), elem_of_list_to_set; [done|].
      rewrite size_list_to_set by done. lia. }
    split; [done|done|]. intros n d Hn Hd.
    assert (dn_id n ∈ sorted) as [j Hj]%list_elem_of_lookup_1 by (apply Hnames; exists n; auto).
    rewrite <- (deps_node nodes n) in Hd by done. pose proof (Hord j _ d Hj Hd) as [i Hi]%list_elem_of_lookup_1.
    exists i, j. apply lookup_take_Some in Hi as [Hi Hlt]. auto.
  - intros l [Hndl Hnames Hol]. destruct Hlen.
    assert (forall k x, l !! k = Some x -> x ∈ sorted) as Hin.
    { intros k. induction (lt_wf k) as [k _ IH]. intros x Hk. apply Hready.
      split; [by apply Hnames, list_elem_of_lookup_2 with k|]. apply missing_nil. intros d Hd.
      destruct (deps_elem nodes x d Hids Hd) as (n & Hn & <- & Hdn).
      destruct (Hol n d Hn Hdn) as (i & j & Hij & Hi & Hj). pose proof (NoDup_lookup l j k _ Hndl Hj Hk). subst j. by apply (IH i). }
    rewrite <- (size_list_to_set (C := gset string) sorted Hnd). apply Nat.le_antisymm; apply subseteq_size; [done|].
    intros x [k Hk]%Hall%Hnames%list_elem_of_lookup_1. apply elem_of_list_to_set. by apply (Hin k).
Qed.
End Loop.

(** The counters and the queue the loop starts from satisfy the invariant. *)
Lemma topo_inv_start nodes iter : NoDup (ids nodes) -> (forall s, iter s ≡ₚ elements s) ->
  let D := fold_left set_degree nodes (init nodes).1.2 in
  topo_inv nodes D (start_queue iter D (init nodes).2) [].
Proof.
  intros Hids Hit D.
  assert (forall x, (length (missing [] (deps nodes x))) = length (deps nodes x)) as Hm.
  { intros x. unfold missing. f_equal. induction (deps nodes x) as [|d l IH]; [done|].
    rewrite filter_cons, decide_True by apply not_elem_of_nil. by f_equal. }
  assert (forall x, D !! x = if decide (x ∈ ids nodes) then Some (Z.of_nat (length (deps nodes x))) else None) as HD.
  { intros x. unfold D. rewrite set_degrees by done. case_decide as Hx; [done|].
    destruct ((init nodes).1.2 !! x) eqn:E; [|done]. destruct Hx.
    assert (is_Some ((init nodes).1.2 !! x)) as [He|]%init_degree by (by rewrite E); [|done]. by destruct He. }
  split.
  - intros x. by rewrite HD, Hm.
  - simpl. apply NoDup_filter. rewrite Hit. apply NoDup_elements.
  - intros x. simpl. unfold start_queue. rewrite list_elem_of_filter, Hit, elem_of_elements, Hm. unfold init. rewrite init_ids. simpl.
    fold D. rewrite HD. split.
    + intros [H0 [Hx|Hx]]; [by apply elem_of_empty in Hx|]. split; [done|]. case_decide as Hi; simpl in H0; [lia|]. by rewrite deps_none.
    + intros [Hx H0]. split; [|by right]. case_decide; simpl; lia.
  - intros i x d. by rewrite lookup_nil.
Qed.

(** ** Property *)

(** C36: Sorting a dependency graph with distinct node names always terminates within as many
    rounds as there are names and never panics; it returns a listing of every name once with
    each after its dependencies, or reports a cycle, and then no such listing exists. *)
Theorem topological_sort_correct iter ck nodes :
  NoDup (ids nodes) -> (forall s, iter s ≡ₚ elements s) ->
  exists r, topological_sort iter ck nodes = Some r /\
  match r with
  | Ok l => topological_order nodes l
  | Err (CyclicDeps _) => forall l, ~ topological_order nodes l
  | _ => False
  end.
Proof.
  intros Hids Hit. pose proof (topo_inv_start nodes iter Hids Hit) as Hinv.
  assert (forall x y, cnt y (default [] ((init nodes).1.1 !! x)) = cnt x (deps nodes y)) as Hadj.
  { intros x y. unfold init. by rewrite init_adj, edges_deps. }
  assert (forall x, x ∈ (init nodes).2 <-> is_named nodes x) as Hall.
  { intros x. unfold init. rewrite init_ids. simpl. rewrite elem_of_empty. tauto. }
  unfold topological_sort. destruct (init nodes) as [[adj D0] all_ids]. simpl in *.
  destruct (topo_loop_runs nodes adj all_ids ck Hids Hadj Hall (size all_ids) _ _ [] Hinv ltac:(simpl; lia)) as (D' & l & -> & Hl).
  pose proof (topo_done nodes all_ids Hids Hall D' l Hl) as Hd. case_decide as Hlen.
  - rewrite bool_decide_eq_true_2 by done. eauto.
  - rewrite bool_decide_eq_false_2 by done. eexists. split; [done|exact Hd].
Qed.

(** ** Witness *)
Definition demo_diamond : list DepNode :=
  [mkDepNode "d" ["b"; "c"]; mkDepNode "b" ["a"]; mkDepNode "c" ["a"; "a"]].
Definition demo_cycle : list DepNode := [mkDepNode "a" ["b"]; mkDepNode "b" ["a"]].

Lemma topological_sort_correct_witness :
  (exists l, topological_sort elements true demo_diamond = Some (Ok l) /\ topological_order demo_diamond l) /\
  (forall l, ~ topological_order demo_cycle l).
Proof.
  split.
  - assert (NoDup (ids demo_diamond)) as Hn by decide_now.
    destruct (topological_sort_correct elements true demo_diamond Hn (fun s => reflexivity _)) as (r & Hr & Hc).
    vm_compute in Hr. injection Hr as <-. eexists. split; [vm_compute; reflexivity|exact Hc].
  - assert (NoDup (ids demo_cycle)) as Hn by decide_now.
    destruct (topological_sort_correct elements true demo_cycle Hn (fun s => reflexivity _)) as (r & Hr & Hc).
    vm_compute in Hr. injection Hr as <-. exact Hc.
Defined.
End SyncTopo.
