(* ===== verification/SyncLive.v ===== *)
(** * Refreshing live fields (policy-server/sync/src/live, runtime/orchestrator.rs)

    A wallet snapshot holds live fields: token prices, health factors, marks.
    [refresh] walks the snapshot for the stale ones, groups them by source,
    fetches each group and writes the values back where they came from. The
    network is not modelled: the fetchers are the operations of a record, each a
    function of the request it is given. *)
From stdpp Require Import base tactics numbers list strings gmap sorting pretty.
From S2P Require Import Prelude Types Positions Wallet SyncTopo.
Export SyncTopo.

Module SyncLive.

(** ** JSON values the fetchers return ([serde_json::Value])

    A number is an integer, or a float known by its rendering. *)
Inductive JsonNumber := IntNum (n : Z) | FloatNum (text : string).
Inductive Value :=
| VNull
| VBool (b : bool)
| VNumber (n : JsonNumber)
| VString (s : string)
| VArray (l : list Value)
| VObject (fields : list (string * Value)).

(** [Number::to_string], [Number::as_i64]. *)
Definition number_to_string (n : JsonNumber) : string :=
  match n with IntNum z => pretty z | FloatNum t => t end.
Definition number_as_i64 (n : JsonNumber) : option Z :=
  match n with IntNum z => if (- 2 ^ 63 <=? z) && (z <? 2 ^ 63) then Some z else None | FloatNum _ => None end.

(** Third-party text formats: the JSON form of a [TokenKey] (a derived serialiser) and
    [SignedI256::from_str]. *)
Class KeyJson := { key_to_json : TokenKey -> string; key_from_json : string -> option TokenKey }.
Class KeyJsonLaws (K : KeyJson) : Prop :=
  key_json_round_trip : forall k, key_from_json (key_to_json k) = Some k.
Class I256Parse := i256_from_str : string -> option Z.

(** ** Locations (live/walker.rs) *)
Inductive ActionSlot :=
| TokenErc20PermitNonce | TokenPermit2SignNonce | AmmSwapRoute | AmmSwapExpectedAmountOut
| AmmSwapPriceImpactBp | AmmSwapGasEstimate | AmmAddLiquidityPoolState | AmmAddLiquidityCurrentPrice
| AmmRemoveLiquidityPoolState | AmmRemoveLiquidityFeesOwed | AmmCollectFeesOwed
| AmmSignIntentExpectedFillPrice | AmmSignIntentCompetingOrders | LendingSupplyReserveState
| LendingSupplySupplyApy | LendingSupplyATokenPriceUsd | LendingSupplyEligibleAsCollat
| LendingSupplyUserState | LendingWithdrawReserveState | LendingWithdrawAvailableToWithdraw
| LendingWithdrawUserState | LendingBorrowReserveState | LendingBorrowUserState | LendingBorrowAssetPriceUsd
| LendingBorrowCurrentRate | LendingBorrowAvailableLiquidity | LendingRepayReserveState
| LendingRepayCurrentDebt | LendingRepayUserState | LendingSwapRateModeCurrentDebts
| LendingSwapRateModeRates | LendingSetEModeCategoryConfig | LendingSetEModeUserState
| LendingSetCollateralReserveState | LendingSetCollateralUserState | LendingLiquidateVictimState
| LendingLiquidateBonus | LendingLiquidateDebtAssetPrice | LendingLiquidateCollatAssetPrice
| AirdropClaimIsStillClaimable | AirdropClaimActualAmount | AirdropClaimToken | AirdropClaimWindow
| AirdropDelegateCurrentDelegate | AirdropDelegateVotingPower | LaunchpadCommitSaleState
| LaunchpadCommitUserCap | LaunchpadCommitUserCommitted | LaunchpadCommitExpectedTokenPrice
| LaunchpadClaimAllocationAllocated | LaunchpadClaimAllocationRefundDue | LaunchpadClaimAllocationIsClaimable
| LaunchpadClaimVestedClaimableNow | LaunchpadClaimVestedNextUnlock | LaunchpadRefundAmount
| LaunchpadRefundToken | LaunchpadWithdrawCommitWithdrawable | LaunchpadWithdrawCommitSaleState
| PerpOpenMarkPrice | PerpOpenOraclePrice | PerpOpenFundingRate | PerpOpenAvailableOi | PerpOpenMaxLeverage
| PerpOpenInitialMarginBp | PerpOpenMaintenanceBp | PerpOpenFeeTakerBp | PerpOpenFeeMakerBp
| PerpOpenUserAccountState | PerpCloseMarkPrice | PerpCloseUnrealizedPnl | PerpCloseFundingAccrued
| PerpCloseFeeBp | PerpIncreaseMarkPrice | PerpIncreaseOraclePrice | PerpIncreaseFundingRate
| PerpIncreaseAvailableOi | PerpIncreaseMaxLeverage | PerpIncreaseInitialMarginBp | PerpIncreaseMaintenanceBp
| PerpIncreaseFeeTakerBp | PerpIncreaseFeeMakerBp | PerpIncreaseUserAccountState | PerpDecreaseMarkPrice
| PerpDecreaseUnrealizedPnl | PerpDecreaseFundingAccrued | PerpDecreaseFeeBp | PerpAdjustMarginPositionState
| PerpAdjustMarginFreeMarginAfter | PerpChangeLeverageMaxLeverage | PerpChangeLeverageAffectedPositions
| PerpChangeLeverageNewLiqPrices | PerpChangeMarginModeAffectedPositions | PerpChangeMarginModeReallocation
| PerpPlaceLimitMarkPrice | PerpPlaceLimitBestBidAsk | PerpPlaceLimitOpenOrdersCount
| PerpPlaceLimitUserAccountState | PerpClaimFundingClaimable | LiquidStakingWrapExpectedWsteth
| LiquidStakingUnwrapExpectedSteth | LiquidStakingTransferSharesPooledEth.
#[global] Instance ActionSlot_eq_dec : EqDecision ActionSlot.
Proof. solve_decision. Defined.

Inductive FieldLocation :=
| TokenPrice (token_key_json : string)
| LendingHealthFactor (position_id : string)
| LendingLtv (position_id : string)
| LendingLiquidationThreshold (position_id : string)
| PerpMarkPrice (position_id : string)
| PerpLiqPrice (position_id : string)
| PerpUnrealizedPnl (position_id : string)
| PerpFundingOwed (position_id : string)
| PerpLeverage (position_id : string)
| LocAction (action_index : nat) (slot : ActionSlot).
#[global] Instance FieldLocation_eq_dec : EqDecision FieldLocation.
Proof. solve_decision. Defined.

Record StaleField := mkStaleField { sf_location : FieldLocation; sf_source : DataSource; sf_synced_at : Time }.
Record WalkStats := mkWalkStats { wk_total : nat; wk_stale : nat; wk_fresh : nat }.

(** The derived [Ord] of [TokenKey]: by variant, then field by field. *)
Definition key_rank (k : TokenKey) : Z :=
  match k with Native _ => 0 | Erc20 _ _ => 1 | Erc721 _ _ _ => 2 | Erc1155 _ _ _ => 3 end.
Definition key_le (a b : TokenKey) : bool :=
  if negb (key_rank a =? key_rank b) then key_rank a <? key_rank b
  else if negb (String.eqb (key_chain a) (key_chain b)) then String.ltb (key_chain a) (key_chain b)
  else if negb (default 0 (key_contract a) =? default 0 (key_contract b))
       then default 0 (key_contract a) <? default 0 (key_contract b)
  else default 0 (key_token_id a) <=? default 0 (key_token_id b).

Definition key_order (a b : TokenKey) : Prop := key_le a b = true.
Definition string_order (a b : string) : Prop := String.leb a b = true.
#[global] Instance key_order_dec : RelDecision key_order.
Proof. intros a b. unfold key_order. apply _. Defined.
#[global] Instance string_order_dec : RelDecision string_order.
Proof. intros a b. unfold string_order. apply _. Defined.

(** Iteration over a [BTreeMap] keyed by tokens, and by strings. *)
Definition tokens_in_order (m : gmap TokenKey TokenHolding) : list (TokenKey * TokenHolding) :=
  omap (fun k => (fun h => (k, h)) <$> m !! k) (merge_sort key_order (elements (dom m))).
Definition strings_in_order {A} (m : gmap string A) : list (string * A) :=
  omap (fun k => (fun v => (k, v)) <$> m !! k) (merge_sort string_order (elements (dom m))).

(** [check_and_push], which the inlined token loop repeats. *)
Definition check_and_push {T} (st : list StaleField * WalkStats) (field : LiveField T) (now : Time)
    (location : FieldLocation) : list StaleField * WalkStats :=
  let '(stale, stats) := st in
  if lf_is_stale field now then
    (stale ++ [mkStaleField location (lf_source field) (lf_synced_at field)],
     mkWalkStats (S (wk_total stats)) (S (wk_stale stats)) (wk_fresh stats))
  else (stale, mkWalkStats (S (wk_total stats)) (wk_stale stats) (S (wk_fresh stats))).

Section Walk.
Context `{K0 : KeyJson}.

Definition walk_token (now : Time) (st : list StaleField * WalkStats) (kh : TokenKey * TokenHolding) :=
  match th_price_usd kh.2 with
  | Some price => check_and_push st price now (TokenPrice (key_to_json kh.1))
  | None => st
  end.
Definition walk_position (now : Time) (st : list StaleField * WalkStats) (pos : Position) :=
  let id := po_id pos in
  match po_kind pos with
  | PkLendingAccount la =>
      let st := check_and_push st (ln_health_factor la) now (LendingHealthFactor id) in
      let st := check_and_push st (ln_ltv la) now (LendingLtv id) in
      check_and_push st (ln_liquidation_threshold la) now (LendingLiquidationThreshold id)
  | PkPerpPosition p =>
      let st := check_and_push st (pp_mark_price p) now (PerpMarkPrice id) in
      let st := check_and_push st (pp_liq_price p) now (PerpLiqPrice id) in
      let st := check_and_push st (pp_unrealized_pnl p) now (PerpUnrealizedPnl id) in
      let st := check_and_push st (pp_funding_owed p) now (PerpFundingOwed id) in
      check_and_push st (pp_leverage p) now (PerpLeverage id)
  | _ => st
  end.
Definition walk_stale (state : WalletState) (now : Time) : list StaleField * WalkStats :=
  let st := fold_left (walk_token now) (tokens_in_order (ws_tokens state)) ([], mkWalkStats 0 0 0) in
  fold_left (walk_position now) (ws_positions state) st.
End Walk.

(** ** Grouping by source (live/batcher.rs) *)
Inductive BatchKind :=
| BatchOnchain (chain : ChainId) | BatchOracle | BatchVenue (endpoint : string)
| BatchRegistry (endpoint : string) | BatchDerived | BatchUserSupplied.
#[global] Instance BatchKind_eq_dec : EqDecision BatchKind.
Proof. solve_decision. Defined.
Record FetchBatch := mkFetchBatch { fb_kind : BatchKind; fb_items : list StaleField }.

(** The accumulators of [batch_by_source]. *)
Record Grouped := mkGrouped {
  gr_onchain : gmap string (list StaleField); gr_oracle : list StaleField;
  gr_venue : gmap string (list StaleField); gr_registry : gmap string (list StaleField);
  gr_derived : list StaleField }.
(** [map.entry(k).or_default().push(f)] *)
Definition push_entry (m : gmap string (list StaleField)) (k : string) (f : StaleField) :=
  <[k := default [] (m !! k) ++ [f]]> m.
Definition group_step (g : Grouped) (f : StaleField) : Grouped :=
  match sf_source f with
  | OnchainView chain _ _ _ =>
      mkGrouped (push_entry (gr_onchain g) chain f) (gr_oracle g) (gr_venue g) (gr_registry g) (gr_derived g)
  | OracleFeed _ _ => mkGrouped (gr_onchain g) (gr_oracle g ++ [f]) (gr_venue g) (gr_registry g) (gr_derived g)
  | VenueApi endpoint _ _ =>
      mkGrouped (gr_onchain g) (gr_oracle g) (push_entry (gr_venue g) endpoint f) (gr_registry g) (gr_derived g)
  | RegistryApi endpoint _ _ =>
      mkGrouped (gr_onchain g) (gr_oracle g) (gr_venue g) (push_entry (gr_registry g) endpoint f) (gr_derived g)
  | DerivedFrom _ _ => mkGrouped (gr_onchain g) (gr_oracle g) (gr_venue g) (gr_registry g) (gr_derived g ++ [f])
  | UserSupplied => g
  end.
Definition group (stale : list StaleField) : Grouped := fold_left group_step stale (mkGrouped ∅ [] ∅ ∅ []).
Definition batches_of (kind : string -> BatchKind) (m : gmap string (list StaleField)) : list FetchBatch :=
  (fun kv => mkFetchBatch (kind kv.1) kv.2) <$> strings_in_order m.
Definition batch_if (kind : BatchKind) (items : list StaleField) : list FetchBatch :=
  match items with [] => [] | _ => [mkFetchBatch kind items] end.
Definition batch_by_source (stale : list StaleField) : list FetchBatch :=
  let g := group stale in
  batches_of BatchOnchain (gr_onchain g) ++ batch_if BatchOracle (gr_oracle g) ++
  batches_of BatchVenue (gr_venue g) ++ batches_of BatchRegistry (gr_registry g) ++ batch_if BatchDerived (gr_derived g).

(** ** Writing back (runtime/orchestrator.rs: [apply_value] and its helpers) *)
Definition Confidence_fresh : Confidence := mkConfidence 0 false.

Definition value_to_price (v : Value) : option Price :=
  match v with
  | VString s => Some s
  | VNumber n => Some (number_to_string n)
  | _ => None
  end.

(** Overwrite value, time and confidence in place; source and ttl stay. *)
Definition lf_sync {T} (f : LiveField T) (v : T) (now : Time) : LiveField T :=
  mkLiveField v (lf_source f) now (lf_ttl f) (Some Confidence_fresh).
Definition lf_sync_opt {T} (f : LiveField T) (v : option T) (now : Time) : LiveField T :=
  match v with Some v => lf_sync f v now | None => f end.
Definition set_decimal (field : LiveField DecimalStr) (v : Value) (now : Time) : LiveField DecimalStr :=
  lf_sync_opt field (value_to_price v) now.

Inductive LendingMetric := Hf | LtvMetric | LiqThr.

Definition th_set_price (h : TokenHolding) (p : option (LiveField Price)) : TokenHolding :=
  mkTokenHolding (th_key h) (th_kind h) (th_symbol h) (th_decimals h) (th_balance h) (th_committed h)
    (th_approved_to h) p (th_metadata h) (th_value_usd h) (th_last_synced_at h) (th_primitives_source h).
Definition ln_set_live (la : LendingAccount) (hf ltv thr : LiveField DecimalStr) : LendingAccount :=
  mkLendingAccount (ln_market la) (ln_collaterals la) (ln_debts la) (ln_emode la) (ln_is_isolated la) hf ltv thr.
Definition pp_set_live (p : PerpPosition) (mark : LiveField Price) (liq : LiveField (option Price))
    (pnl owed : LiveField SignedI256) (lev : LiveField DecimalStr) : PerpPosition :=
  mkPerpPosition (pp_venue p) (pp_market p) (pp_side p) (pp_size_base p) (pp_notional_usd p) (pp_collateral p)
    (pp_entry_price p) (pp_margin_mode p) mark liq pnl owed lev.

(** Mutate the kind of the first position with the given id: [iter_mut().find(..)]. *)
Fixpoint modify_position (id : string) (f : PositionKind -> PositionKind) (l : list Position) : list Position :=
  match l with
  | [] => []
  | p :: l' => if po_has_id id p then po_set_kind p (f (po_kind p)) :: l' else p :: modify_position id f l'
  end.

(** [lending_field_mut] and [perp_position_mut], with the update to make there. *)
Definition lending_field_mut (metric : LendingMetric) (f : LiveField DecimalStr -> LiveField DecimalStr)
    (k : PositionKind) : PositionKind :=
  match k with
  | PkLendingAccount la => PkLendingAccount
      match metric with
      | Hf => ln_set_live la (f (ln_health_factor la)) (ln_ltv la) (ln_liquidation_threshold la)
      | LtvMetric => ln_set_live la (ln_health_factor la) (f (ln_ltv la)) (ln_liquidation_threshold la)
      | LiqThr => ln_set_live la (ln_health_factor la) (ln_ltv la) (f (ln_liquidation_threshold la))
      end
  | _ => k
  end.
Definition perp_position_mut (f : PerpPosition -> PerpPosition) (k : PositionKind) : PositionKind :=
  match k with PkPerpPosition p => PkPerpPosition (f p) | _ => k end.

Section Apply.
Context `{K0 : KeyJson} `{I0 : I256Parse}.

Definition value_to_i256 (v : Value) : option SignedI256 :=
  match v with
  | VString s => i256_from_str s
  | VNumber n => number_as_i64 n
  | _ => None
  end.
(** The value a liquidation price takes: JSON null clears it. *)
Definition value_to_liq_price (v : Value) : option (option Price) :=
  match v with VNull => Some None | _ => Some <$> value_to_price v end.

Definition apply_value (state : WalletState) (loc : FieldLocation) (value : Value) (now : Time) : WalletState :=
  let on_position id f := ws_set_positions state (modify_position id f (ws_positions state)) in
  let mark p := lf_sync_opt (pp_mark_price p) (value_to_price value) now in
  let liq p := lf_sync_opt (pp_liq_price p) (value_to_liq_price value) now in
  let pnl p := lf_sync_opt (pp_unrealized_pnl p) (value_to_i256 value) now in
  let owed p := lf_sync_opt (pp_funding_owed p) (value_to_i256 value) now in
  let lev p := set_decimal (pp_leverage p) value now in
  match loc with
  | TokenPrice token_key_json =>
      match key_from_json token_key_json with
      | Some key =>
          match ws_tokens state !! key with
          | Some holding =>
              match th_price_usd holding with
              | Some price =>
                  ws_set_tokens state
                    (<[key := th_set_price holding (Some (lf_sync_opt price (value_to_price value) now))]> (ws_tokens state))
              | None => state
              end
          | None => state
          end
      | None => state
      end
  | LendingHealthFactor id => on_position id (lending_field_mut Hf (fun f => set_decimal f value now))
  | LendingLtv id => on_position id (lending_field_mut LtvMetric (fun f => set_decimal f value now))
  | LendingLiquidationThreshold id => on_position id (lending_field_mut LiqThr (fun f => set_decimal f value now))
  | PerpMarkPrice id => on_position id (perp_position_mut (fun p =>
      pp_set_live p (mark p) (pp_liq_price p) (pp_unrealized_pnl p) (pp_funding_owed p) (pp_leverage p)))
  | PerpLiqPrice id => on_position id (perp_position_mut (fun p =>
      pp_set_live p (pp_mark_price p) (liq p) (pp_unrealized_pnl p) (pp_funding_owed p) (pp_leverage p)))
  | PerpUnrealizedPnl id => on_position id (perp_position_mut (fun p =>
      pp_set_live p (pp_mark_price p) (pp_liq_price p) (pnl p) (pp_funding_owed p) (pp_leverage p)))
  | PerpFundingOwed id => on_position id (perp_position_mut (fun p =>
      pp_set_live p (pp_mark_price p) (pp_liq_price p) (pp_unrealized_pnl p) (owed p) (pp_leverage p)))
  | PerpLeverage id => on_position id (perp_position_mut (fun p =>
      pp_set_live p (pp_mark_price p) (pp_liq_price p) (pp_unrealized_pnl p) (pp_funding_owed p) (lev p)))
  | LocAction _ _ => state
  end.

(** ** Inputs of derived fields (live/resolver.rs) *)
Definition status_debug (s : PendingStatus) : string :=
  match s with
  | Active => "Active" | PartiallyFilled => "PartiallyFilled" | Filled => "Filled" | Cancelled => "Cancelled"
  | Expired => "Expired" | Failed => "Failed" | StatusUnknown => "Unknown"
  end.

Definition resolve_position_field (kind : PositionKind) (field : PositionFieldName) : option Value :=
  match kind, field with
  | PkLendingAccount la, HealthFactor => Some (VString (lf_value (ln_health_factor la)))
  | PkLendingAccount la, Ltv => Some (VString (lf_value (ln_ltv la)))
  | PkLendingAccount la, LiquidationThreshold => Some (VString (lf_value (ln_liquidation_threshold la)))
  | PkPerpPosition p, MarkPrice => Some (VString (lf_value (pp_mark_price p)))
  | PkPerpPosition p, LiqPrice => VString <$> lf_value (pp_liq_price p)
  | PkPerpPosition p, UnrealizedPnl => Some (VString (pretty (lf_value (pp_unrealized_pnl p))))
  | PkPerpPosition p, FundingOwed => Some (VString (pretty (lf_value (pp_funding_owed p))))
  | PkPerpPosition p, Leverage => Some (VString (lf_value (pp_leverage p)))
  | _, _ => None
  end.

Definition resolve_field (state : WalletState) (globals : gmap string Value) (field_ref : FieldRef) : option Value :=
  match field_ref with
  | TokenField token_key_json PriceUsd =>
      key ← key_from_json token_key_json;
      holding ← ws_tokens state !! key;
      (fun p => VString (lf_value p)) <$> th_price_usd holding
  | PositionField position_id field =>
      pos ← find_first (po_has_id position_id) (ws_positions state);
      resolve_position_field (po_kind pos) field
  | PendingField pending_id _ =>
      pending ← find_first (fun p => bool_decide (pt_id p = pending_id)) (ws_pending state);
      Some (VString (status_debug (lc_status (pt_lifecycle pending))))
  | Global name => globals !! name
  end.
Definition resolve_inputs (state : WalletState) (globals : gmap string Value) (inputs : list FieldRef) : list Value :=
  (fun fr => default VNull (resolve_field state globals fr)) <$> inputs.

(** ** Fetching and the refresh loop *)
Record OnchainOutcome := mkOnchainOutcome { oo_success : bool; oo_value : option Value; oo_error : option string }.

(** The methods of [HyperliquidFetcher] the loop calls. *)
Record HlFetcher := mkHlFetcher {
  hl_fetch_state_value : DataSource -> FieldLocation -> string -> Address -> result SyncError Value;
  hl_fetch : DataSource -> result SyncError Value;
}.

(** [OnchainCall] of fetchers/onchain.rs. *)
Record OnchainCall := mkOnchainCall {
  oc_chain : ChainId; oc_contract : Address; oc_calldata : list Z; oc_decoder_id : string }.

(** [or_selector] is [function_selector], the first four bytes of the Keccak hash. *)
Record Orchestrator := mkOrchestrator {
  or_selector : string -> list Z;
  or_onchain : ChainId -> list OnchainCall -> result SyncError (list OnchainOutcome);
  or_price_fetchers : gmap string (DataSource -> result SyncError Price);
  or_registry : option (DataSource -> result SyncError Value);
  or_hyperliquid : option HlFetcher;
  or_calc : gmap string (WalletState -> list Value -> result SyncError Value);
  or_globals : gmap string Value;
}.

Definition provider_key (p : OracleProvider) : string :=
  match p with Chainlink => "chainlink" | Pyth => "pyth" | RedStone => "redstone" | OracleOther s => s end.
Definition price_fetcher_for (o : Orchestrator) (source : DataSource) : option (DataSource -> result SyncError Price) :=
  match source with OracleFeed provider _ => or_price_fetchers o !! provider_key provider | _ => None end.

(** [CalcRegistry::run] *)
Definition calc_run (o : Orchestrator) (calc_id : string) (state : WalletState) (inputs : list Value)
    : result SyncError Value :=
  match or_calc o !! calc_id with
  | Some f => f state inputs
  | None => Err (UnknownCalcId calc_id)
  end.

Definition contains (pat s : string) : bool := match String.index 0 pat s with Some _ => true | None => false end.
Definition is_hyperliquid_endpoint (endpoint : string) : bool :=
  String.eqb endpoint "" || contains "hyperliquid" endpoint || String.eqb endpoint "https://api.hyperliquid.xyz/info".

Definition state_market_symbol (state : WalletState) (loc : FieldLocation) : option string :=
  match loc with
  | PerpMarkPrice id | PerpLiqPrice id | PerpUnrealizedPnl id | PerpFundingOwed id | PerpLeverage id =>
      p ← find_first (po_has_id id) (ws_positions state);
      match po_kind p with PkPerpPosition perp => Some (mr_symbol (pp_market perp)) | _ => None end
  | _ => None
  end.

Definition to_option {E A} (r : result E A) : option A := match r with Ok a => Some a | _ => None end.

(** The loops of [process_batch]: fetch, write back, count. *)
Definition item_step (now : Time) (fetch : WalletState -> StaleField -> option Value)
    (st : WalletState * nat * nat) (item : StaleField) : WalletState * nat * nat :=
  let '(state, ok, fail) := st in
  match fetch state item with
  | Some value => (apply_value state (sf_location item) value now, S ok, fail)
  | None => (state, ok, S fail)
  end.
Definition run_items (now : Time) (fetch : WalletState -> StaleField -> option Value) (items : list StaleField)
    (state : WalletState) : WalletState * nat * nat :=
  fold_left (item_step now fetch) items (state, 0%nat, 0%nat).
Definition outcome_step (now : Time) (st : WalletState * nat * nat) (io : StaleField * OnchainOutcome) :=
  item_step now (fun _ _ => if oo_success io.2 then oo_value io.2 else None) st io.1.

(** [OnchainCall::from_source] refuses any other source. *)
Definition onchain_call (o : Orchestrator) (source : DataSource) (args_encoded : list Z) : result SyncError OnchainCall :=
  match source with
  | OnchainView chain contract function decoder_id =>
      Ok (mkOnchainCall chain contract (or_selector o function ++ args_encoded) decoder_id)
  | _ => Err (FetchFailed "onchain_fetcher" "expected OnchainView, got {other:?}")
  end.
Fixpoint onchain_calls (o : Orchestrator) (items : list StaleField) : result SyncError (list OnchainCall) :=
  match items with
  | [] => Ok []
  | i :: rest => c ← onchain_call o (sf_source i) []; cs ← onchain_calls o rest; Ok (c :: cs)
  end.

Definition fetch_oracle (o : Orchestrator) (_ : WalletState) (item : StaleField) : option Value :=
  fetcher ← price_fetcher_for o (sf_source item); VString <$> to_option (fetcher (sf_source item)).
Definition fetch_derived (o : Orchestrator) (state : WalletState) (item : StaleField) : option Value :=
  match sf_source item with
  | DerivedFrom inputs calc_id =>
      to_option (calc_run o calc_id state (resolve_inputs state (or_globals o) inputs))
  | _ => None
  end.
Definition fetch_venue (hl : HlFetcher) (state : WalletState) (item : StaleField) : option Value :=
  match state_market_symbol state (sf_location item) with
  | Some symbol => to_option (hl_fetch_state_value hl (sf_source item) (sf_location item) symbol (wi_address (ws_wallet_id state)))
  | None => to_option (hl_fetch hl (sf_source item))
  end.

Definition process_batch (o : Orchestrator) (batch : FetchBatch) (state : WalletState) (now : Time)
    : result SyncError (WalletState * nat * nat) :=
  let items := fb_items batch in
  match fb_kind batch with
  | BatchOnchain chain =>
      calls ← onchain_calls o items;
      outcomes ← or_onchain o chain calls;
      Ok (fold_left (outcome_step now) (zip items outcomes) (state, 0%nat, 0%nat))
  | BatchOracle => Ok (run_items now (fetch_oracle o) items state)
  | BatchRegistry _ =>
      match or_registry o with
      | Some registry => Ok (run_items now (fun _ item => to_option (registry (sf_source item))) items state)
      | None => Ok (state, 0%nat, length items)
      end
  | BatchDerived => Ok (run_items now (fetch_derived o) items state)
  | BatchVenue endpoint =>
      match (if is_hyperliquid_endpoint endpoint then or_hyperliquid o else None) with
      | Some hl => Ok (run_items now (fetch_venue hl) items state)
      | None => Ok (state, 0%nat, length items)
      end
  | BatchUserSupplied => Ok (state, 0%nat, 0%nat)
  end.

Record RefreshReport := mkRefreshReport {
  rr_walked : WalkStats; rr_batches_processed : nat; rr_fields_updated : nat; rr_fields_failed : nat;
  rr_errors : list SyncError }.

Definition refresh_step (o : Orchestrator) (now : Time) (st : WalletState * RefreshReport) (batch : FetchBatch) :=
  let '(state, r) := st in
  match process_batch o batch state now with
  | Ok (state', ok, fail) =>
      (state', mkRefreshReport (rr_walked r) (S (rr_batches_processed r)) (rr_fields_updated r + ok)
                 (rr_fields_failed r + fail) (rr_errors r))
  | Err e => (state, mkRefreshReport (rr_walked r) (S (rr_batches_processed r)) (rr_fields_updated r)
                 (rr_fields_failed r) (rr_errors r ++ [e]))
  | Panic => st
  end.
Definition refresh (o : Orchestrator) (state : WalletState) (now : Time) : WalletState * RefreshReport :=
  let '(stale, walked) := walk_stale state now in
  let report := mkRefreshReport walked 0 0 0 [] in
  match stale with
  | [] => (state, report)
  | _ => fold_left (refresh_step o now) (batch_by_source stale) (state, report)
  end.
End Apply.
End SyncLive.
