(* ===== verification/SyncRefresh.v ===== *)
(** * Refreshing live fields: what a refresh does

    The stale fields the walk finds, the batches they are grouped in and the
    write-back are related to one list, the live entries of the snapshot in walk
    order: a refresh marks some of them as synced now and changes nothing else. *)
From stdpp Require Import base tactics numbers list strings gmap sorting pretty.
From S2P Require Import Prelude Types Positions Wallet SyncLive.

Module SyncRefresh.
Import SyncLive.

(** ** Specification: the live fields of a snapshot *)
Record LiveEntry := mkLiveEntry {
  le_location : FieldLocation; le_source : DataSource; le_synced_at : Time;
  le_ttl : option Duration; le_confidence : option Confidence }.
Definition entry {T} (loc : FieldLocation) (f : LiveField T) : LiveEntry :=
  mkLiveEntry loc (lf_source f) (lf_synced_at f) (lf_ttl f) (lf_confidence f).
Definition entry_stale (now : Time) (e : LiveEntry) : bool :=
  match le_ttl e with
  | Some ttl => ttl <? time_since now (le_synced_at e)
  | None => match le_confidence e with Some c => cf_is_stale c | None => false end
  end.
Definition to_stale (e : LiveEntry) : StaleField := mkStaleField (le_location e) (le_source e) (le_synced_at e).

Definition position_entries (pos : Position) : list LiveEntry :=
  let id := po_id pos in
  match po_kind pos with
  | PkLendingAccount la =>
      [entry (LendingHealthFactor id) (ln_health_factor la); entry (LendingLtv id) (ln_ltv la);
       entry (LendingLiquidationThreshold id) (ln_liquidation_threshold la)]
  | PkPerpPosition p =>
      [entry (PerpMarkPrice id) (pp_mark_price p); entry (PerpLiqPrice id) (pp_liq_price p);
       entry (PerpUnrealizedPnl id) (pp_unrealized_pnl p); entry (PerpFundingOwed id) (pp_funding_owed p);
       entry (PerpLeverage id) (pp_leverage p)]
  | _ => []
  end.

(** The snapshot without the parts a refresh may change. *)
Definition strip_field {T} (d : T) (f : LiveField T) : LiveField T := mkLiveField d (lf_source f) 0 (lf_ttl f) None.
Definition strip_holding (h : TokenHolding) : TokenHolding := th_set_price h (strip_field "" <$> th_price_usd h).
Definition strip_kind (k : PositionKind) : PositionKind :=
  match k with
  | PkLendingAccount la => PkLendingAccount (ln_set_live la (strip_field "" (ln_health_factor la))
      (strip_field "" (ln_ltv la)) (strip_field "" (ln_liquidation_threshold la)))
  | PkPerpPosition p => PkPerpPosition (pp_set_live p (strip_field "" (pp_mark_price p)) (strip_field None (pp_liq_price p))
      (strip_field 0 (pp_unrealized_pnl p)) (strip_field 0 (pp_funding_owed p)) (strip_field "" (pp_leverage p)))
  | _ => k
  end.
Definition strip_position (p : Position) : Position := po_set_kind p (strip_kind (po_kind p)).
Definition strip (s : WalletState) : WalletState :=
  ws_set_positions (ws_set_tokens s (strip_holding <$> ws_tokens s)) (strip_position <$> ws_positions s).

Definition position_ids (s : WalletState) : list string := po_id <$> ws_positions s.

(** Marking the entries at the locations [P] as synced now. *)
Definition freshen (now : Time) (P : FieldLocation -> bool) (e : LiveEntry) : LiveEntry :=
  if P (le_location e) then mkLiveEntry (le_location e) (le_source e) now (le_ttl e) (Some Confidence_fresh) else e.

Lemma freshen_location now P e : le_location (freshen now P e) = le_location e.
Proof. unfold freshen. by destruct (P _). Qed.
Lemma freshen_noop now P (l : list LiveEntry) : Forall (fun e => P (le_location e) = false) l -> freshen now P <$> l = l.
Proof.
  induction 1 as [|e l He _ IH]; [done|]. rewrite fmap_cons, IH. f_equal. unfold freshen. by rewrite He.
Qed.
Lemma freshen_compose now P Q (l : list LiveEntry) :
  freshen now Q <$> (freshen now P <$> l) = freshen now (fun loc => Q loc || P loc) <$> l.
Proof.
  rewrite <- list_fmap_compose. apply list_fmap_ext. intros _ e _. unfold freshen, compose. simpl.
  destruct (P (le_location e)) eqn:HP; simpl; destruct (Q (le_location e)); done.
Qed.
Lemma freshen_false now (l : list LiveEntry) : freshen now (fun _ => false) <$> l = l.
Proof. apply freshen_noop. by apply Forall_forall. Qed.
Lemma freshen_not_stale now P e : Forall (fun ttl => 0 <= ttl) (option_list (le_ttl e)) ->
  P (le_location e) = true -> entry_stale now (freshen now P e) = false.
Proof.
  intros Ht HP. unfold freshen, entry_stale. rewrite HP. simpl. destruct (le_ttl e) as [ttl|]; [|done].
  simpl in Ht. apply Forall_cons in Ht as [Ht _]. unfold time_since. apply Z.ltb_ge. int_solve.
Qed.

Section Live.
Context `{K0 : KeyJson} {L0 : KeyJsonLaws K0} `{I0 : I256Parse}.

Definition token_entries (kh : TokenKey * TokenHolding) : list LiveEntry :=
  match th_price_usd kh.2 with Some p => [entry (TokenPrice (key_to_json kh.1)) p] | None => [] end.
Definition live_entries (s : WalletState) : list LiveEntry :=
  (tokens_in_order (ws_tokens s) ≫= token_entries) ++ (ws_positions s ≫= position_entries).
Definition locations (s : WalletState) : list FieldLocation := le_location <$> live_entries s.

(** *** The walk lists the stale entries *)
Definition push_stale (now : Time) (st : list StaleField * WalkStats) (e : LiveEntry) : list StaleField * WalkStats :=
  let '(stale, stats) := st in
  if entry_stale now e then (stale ++ [to_stale e], mkWalkStats (S (wk_total stats)) (S (wk_stale stats)) (wk_fresh stats))
  else (stale, mkWalkStats (S (wk_total stats)) (wk_stale stats) (S (wk_fresh stats))).

Lemma fold_bind {A B C} (f : A -> list B) (g : C -> B -> C) (h : C -> A -> C) l c :
  (forall c a, h c a = fold_left g (f a) c) -> fold_left h l c = fold_left g (l ≫= f) c.
Proof.
  intros Hh. revert c. induction l as [|a l IH]; intros c; [done|]. cbn [fold_left]. rewrite bind_cons, fold_left_app, IH, Hh. done.
Qed.
Lemma walk_entries s now : walk_stale s now = fold_left (push_stale now) (live_entries s) ([], mkWalkStats 0 0 0).
Proof.
  unfold walk_stale, live_entries. rewrite fold_left_app.
  rewrite (fold_bind token_entries (push_stale now) (walk_token now)).
  - apply fold_bind. intros c p. unfold walk_position, position_entries. by destruct (po_kind p).
  - intros c [k h]. unfold walk_token, token_entries. simpl. by destruct (th_price_usd h).
Qed.
Lemma push_stale_all now l st :
  fold_left (push_stale now) l st =
  (st.1 ++ (to_stale <$> filter (fun e => entry_stale now e = true) l),
   mkWalkStats (wk_total st.2 + length l) (wk_stale st.2 + length (filter (fun e => entry_stale now e = true) l))
     (wk_fresh st.2 + length (filter (fun e => entry_stale now e = false) l))).
Proof.
  revert st. induction l as [|e l IH]; intros [stale [n a b]]; simpl.
  { rewrite app_nil_r. f_equal. f_equal; lia. }
  rewrite IH. rewrite !filter_cons. destruct (entry_stale now e) eqn:He; simpl.
  - rewrite <- app_assoc. f_equal. f_equal; lia.
  - f_equal. f_equal; lia.
Qed.
Lemma walk_stale_eq s now :
  walk_stale s now =
  (to_stale <$> filter (fun e => entry_stale now e = true) (live_entries s),
   mkWalkStats (length (live_entries s)) (length (filter (fun e => entry_stale now e = true) (live_entries s)))
     (length (filter (fun e => entry_stale now e = false) (live_entries s)))).
Proof. by rewrite walk_entries, push_stale_all. Qed.

(** *** Writing a value back refreshes exactly the entry at its location *)
Definition accepts (loc : FieldLocation) (v : Value) : bool :=
  match loc with
  | PerpLiqPrice _ => bool_decide (is_Some (value_to_liq_price v))
  | PerpUnrealizedPnl _ | PerpFundingOwed _ => bool_decide (is_Some (value_to_i256 v))
  | LocAction _ _ => false
  | _ => bool_decide (is_Some (value_to_price v))
  end.
Definition at_location (loc : FieldLocation) (v : Value) (loc' : FieldLocation) : bool :=
  bool_decide (loc' = loc) && accepts loc v.

Lemma entry_sync {T} now loc (f : LiveField T) v P : P loc = bool_decide (is_Some v) ->
  entry loc (lf_sync_opt f v now) = freshen now P (entry loc f).
Proof. intros HP. unfold freshen. simpl. rewrite HP. by destruct v. Qed.

Lemma key_json_inj k k' : key_to_json k = key_to_json k' -> k = k'.
Proof.
  intros H. pose proof (key_json_round_trip k) as H1. rewrite H, key_json_round_trip in H1. by injection H1.
Qed.

Lemma elem_of_token_entries m e : e ∈ tokens_in_order m ≫= token_entries ->
  exists k h p, m !! k = Some h /\ th_price_usd h = Some p /\ e = entry (TokenPrice (key_to_json k)) p.
Proof.
  rewrite list_elem_of_bind. intros ([k h] & He & Hkh). unfold tokens_in_order in Hkh.
  apply list_elem_of_omap in Hkh as (k' & _ & Hk). destruct (m !! k') as [h'|] eqn:Hm; [|done]. injection Hk as -> ->.
  unfold token_entries in He. simpl in He. destruct (th_price_usd h) as [p|] eqn:Hp; [|by apply elem_of_nil in He].
  apply list_elem_of_singleton in He. eauto 10.
Qed.
Lemma elem_of_position_entries pos e : e ∈ position_entries pos ->
  le_location e ∈ (fun c => c (po_id pos)) <$> [LendingHealthFactor; LendingLtv; LendingLiquidationThreshold;
    PerpMarkPrice; PerpLiqPrice; PerpUnrealizedPnl; PerpFundingOwed; PerpLeverage].
Proof.
  unfold position_entries. destruct (po_kind pos); cbn; rewrite ?elem_of_cons, ?elem_of_nil; intros H; intuition subst; simpl; tauto.
Qed.

Lemma entries_cons (m : gmap TokenKey TokenHolding) k ks :
  omap (fun k => (fun h => (k, h)) <$> m !! k) (k :: ks) ≫= token_entries =
  match m !! k with Some h => token_entries (k, h) | None => [] end ++
  (omap (fun k => (fun h => (k, h)) <$> m !! k) ks ≫= token_entries).
Proof. simpl. by destruct (m !! k). Qed.

Lemma token_sync m k h p v now :
  m !! k = Some h -> th_price_usd h = Some p ->
  tokens_in_order (<[k := th_set_price h (Some (lf_sync_opt p (value_to_price v) now))]> m) ≫= token_entries =
  freshen now (at_location (TokenPrice (key_to_json k)) v) <$> (tokens_in_order m ≫= token_entries).
Proof.
  intros Hk Hp. unfold tokens_in_order. rewrite dom_insert_lookup_L by (by eexists).
  induction (merge_sort key_order (elements (dom m))) as [|k' ks IH]; [done|]. rewrite !entries_cons, fmap_app, IH. f_equal.
  destruct (decide (k' = k)) as [->|Hne].
  - rewrite lookup_insert_eq, Hk. unfold token_entries. simpl. rewrite Hp. simpl.
    f_equal. apply entry_sync. unfold at_location. by rewrite bool_decide_eq_true_2.
  - rewrite lookup_insert_ne by done. destruct (m !! k') as [h'|]; [|done].
    symmetry. apply freshen_noop, Forall_forall. intros e. unfold token_entries. simpl. destruct (th_price_usd h'); [|by intros ?%elem_of_nil].
    intros ->%list_elem_of_singleton. unfold at_location. simpl. rewrite bool_decide_eq_false_2; [done|]. intros [= He]. by apply key_json_inj in He.
Qed.

Lemma position_sync now P id f l :
  NoDup (po_id <$> l) ->
  (forall p, po_id p = id -> position_entries (po_set_kind p (f (po_kind p))) = freshen now P <$> position_entries p) ->
  (forall p, po_id p <> id -> freshen now P <$> position_entries p = position_entries p) ->
  modify_position id f l ≫= position_entries = freshen now P <$> (l ≫= position_entries).
Proof.
  intros Hnd Hf Hout. induction l as [|p l IH]; [done|]. rewrite fmap_cons, NoDup_cons in Hnd. destruct Hnd as [Hp Hnd].
  cbn [modify_position]. unfold po_has_id. destruct (decide (po_id p = id)) as [He|He].
  - rewrite bool_decide_eq_true_2 by done. rewrite !bind_cons, fmap_app, Hf by done. f_equal. symmetry.
    clear IH Hnd. induction l as [|q l IH]; [done|]. rewrite fmap_cons, not_elem_of_cons in Hp. destruct Hp as [Hq Hp].
    rewrite bind_cons, fmap_app, IH by done. f_equal. apply Hout. congruence.
  - rewrite bool_decide_eq_false_2 by done. rewrite !bind_cons, fmap_app, IH by done. f_equal. by rewrite Hout.
Qed.
Lemma modify_position_ids id f l : po_id <$> modify_position id f l = po_id <$> l.
Proof.
  induction l as [|p l IH]; [done|]. cbn [modify_position]. destruct (po_has_id id p); [done|]. by rewrite !fmap_cons, IH.
Qed.
Lemma modify_position_strip id f l : (forall k, strip_kind (f k) = strip_kind k) ->
  strip_position <$> modify_position id f l = strip_position <$> l.
Proof.
  intros Hf. induction l as [|p l IH]; [done|]. cbn [modify_position]. destruct (po_has_id id p); rewrite !fmap_cons; [|by rewrite IH].
  f_equal. unfold strip_position. simpl. by rewrite Hf.
Qed.
Lemma strip_sync {T} (d : T) f v now : strip_field d (lf_sync_opt f v now) = strip_field d f.
Proof. by destruct v. Qed.

(** The entry of a live field of the position [id], at the location [loc]. *)
Ltac position_cases :=
  repeat match goal with
  | |- context [bool_decide (?a = ?b)] =>
      first [rewrite (bool_decide_eq_true_2 (a = b)) by congruence | rewrite (bool_decide_eq_false_2 (a = b)) by congruence]
  end; simpl.

(** [s'] is [s] with the entries at [P] marked as synced now, and nothing else changed. *)
Record refreshed (now : Time) (P : FieldLocation -> bool) (s s' : WalletState) : Prop := {
  rf_entries : live_entries s' = freshen now P <$> live_entries s;
  rf_ids : position_ids s' = position_ids s;
  rf_strip : strip s' = strip s;
}.

Lemma refreshed_refl now s : refreshed now (fun _ => false) s s.
Proof. split; [by rewrite freshen_false|done..]. Qed.
Lemma refreshed_trans now P Q s1 s2 s3 :
  refreshed now P s1 s2 -> refreshed now Q s2 s3 -> refreshed now (fun loc => Q loc || P loc) s1 s3.
Proof.
  intros [H1 H2 H3] [H4 H5 H6]. split; [by rewrite H4, H1, freshen_compose|congruence..].
Qed.
Lemma refreshed_locations now P s s' : refreshed now P s s' -> locations s' = locations s.
Proof.
  intros [He _ _]. unfold locations. rewrite He, <- list_fmap_compose. apply list_fmap_ext. intros _ e _. apply freshen_location.
Qed.

Lemma position_refreshes s id f loc v now :
  NoDup (position_ids s) -> (forall j, TokenPrice j <> loc) ->
  (forall p, po_id p = id -> position_entries (po_set_kind p (f (po_kind p))) = freshen now (at_location loc v) <$> position_entries p) ->
  (forall id', id' <> id -> loc ∉ (fun c => c id') <$> [LendingHealthFactor; LendingLtv; LendingLiquidationThreshold;
    PerpMarkPrice; PerpLiqPrice; PerpUnrealizedPnl; PerpFundingOwed; PerpLeverage]) ->
  (forall k, strip_kind (f k) = strip_kind k) ->
  refreshed now (at_location loc v) s (ws_set_positions s (modify_position id f (ws_positions s))).
Proof.
  intros Hnd Htok Hf Hout Hst. split.
  - unfold live_entries. simpl. rewrite fmap_app. f_equal.
    + symmetry. apply freshen_noop, Forall_forall. intros e (k & h & p & _ & _ & ->)%elem_of_token_entries.
      unfold at_location. simpl. by rewrite bool_decide_eq_false_2.
    + apply position_sync; [done|done|]. intros p Hp. apply freshen_noop, Forall_forall. intros e He%elem_of_position_entries.
      unfold at_location. rewrite bool_decide_eq_false_2; [done|]. intros Heq. rewrite Heq in He. by apply (Hout (po_id p)).
  - apply modify_position_ids.
  - unfold strip, ws_set_positions, ws_set_tokens. simpl. by rewrite modify_position_strip.
Qed.

(** Closes the side conditions of [position_refreshes] for one location. *)
Ltac position_location :=
  apply position_refreshes;
  [done|done
  |let p := fresh "p" in let Hp := fresh "Hp" in intros p Hp;
   unfold position_entries; destruct (po_kind p); simpl; rewrite ?Hp; try done;
   unfold freshen, at_location, accepts; simpl; position_cases; rewrite ?andb_false_r; try done; unfold set_decimal;
   repeat f_equal; try done;
   match goal with |- context [bool_decide (is_Some ?o)] => destruct o end; done
  |let Hl := fresh "Hl" in intros ? ?; rewrite list_elem_of_fmap; intros (? & ? & Hl);
   rewrite !elem_of_cons, elem_of_nil in Hl; naive_solver
  |intros []; simpl; try done; unfold set_decimal; f_equal; unfold ln_set_live, pp_set_live; simpl; by rewrite ?strip_sync].

Lemma apply_value_refreshes s loc v now :
  NoDup (position_ids s) -> loc ∈ locations s -> refreshed now (at_location loc v) s (apply_value s loc v now).
Proof.
  intros Hnd Hin. destruct loc as [j|id|id|id|id|id|id|id|id|i sl]; simpl.
  2-9: position_location.
  - unfold locations, live_entries in Hin. rewrite fmap_app, elem_of_app in Hin. destruct Hin as [Hin|Hin].
    + apply list_elem_of_fmap in Hin as (e & Hj & (k & h & p & Hk & Hp & ->)%elem_of_token_entries). injection Hj as ->.
      rewrite key_json_round_trip, Hk, Hp. split; [|done|].
      * unfold live_entries. simpl. rewrite fmap_app. f_equal; [by apply token_sync|]. symmetry. apply freshen_noop, Forall_forall.
        intros e (pos & He & _)%list_elem_of_bind. apply elem_of_position_entries in He. unfold at_location.
        rewrite bool_decide_eq_false_2; [done|]. intros Heq. rewrite Heq, list_elem_of_fmap in He. destruct He as (c & Hc & Hin).
        rewrite !elem_of_cons, elem_of_nil in Hin. naive_solver.
      * unfold strip. simpl. f_equal. unfold ws_set_tokens. simpl. f_equal. rewrite fmap_insert. apply insert_id.
        rewrite lookup_fmap, Hk. simpl. f_equal. unfold strip_holding. simpl. rewrite Hp. simpl. by rewrite strip_sync.
    + apply list_elem_of_fmap in Hin as (e & Hj & (pos & He & _)%list_elem_of_bind). apply elem_of_position_entries in He.
      rewrite <- Hj, list_elem_of_fmap in He. destruct He as (c & Hc & Hin). rewrite !elem_of_cons, elem_of_nil in Hin. naive_solver.
  - split; [|done|done]. unfold at_location. simpl. rewrite <- (freshen_false now (live_entries s)) at 1.
    apply list_fmap_ext. intros _ e _. unfold freshen. by rewrite andb_false_r.
Qed.

(** *** The loops over the items of a batch *)
Notation Fetch := (WalletState -> StaleField -> option Value) (only parsing).
Definition pair_step (now : Time) (st : WalletState * nat * nat) (x : Fetch * StaleField) := item_step now x.1 st x.2.

(** Whatever the fetchers answer, only the locations of the items change. *)
Lemma pairs_refresh now (l : list (Fetch * StaleField)) s ok fail :
  NoDup (position_ids s) -> Forall (fun x => sf_location x.2 ∈ locations s) l ->
  exists P s' ok' fail', fold_left (pair_step now) l (s, ok, fail) = (s', ok', fail') /\ refreshed now P s s' /\
    (forall loc, P loc = true -> loc ∈ (fun x => sf_location x.2) <$> l) /\
    (Forall (fun x => forall s, exists v, x.1 s x.2 = Some v /\ accepts (sf_location x.2) v = true) l ->
     Forall (fun x => P (sf_location x.2) = true) l /\ (ok' = ok + length l)%nat /\ fail' = fail).
Proof.
  revert s ok fail. induction l as [|[f i] l IH]; intros s ok fail Hnd Hloc; cbn [fold_left].
  { exists (fun _ => false), s, ok, fail. split; [done|]. split; [apply refreshed_refl|]. split; [done|]. intros _. split; [done|]. simpl. lia. }
  apply Forall_cons in Hloc as [Hi Hloc]. simpl in Hi.
  change (pair_step now (s, ok, fail) (f, i)) with
    (match f s i with Some v => (apply_value s (sf_location i) v now, S ok, fail) | None => (s, ok, S fail) end).
  set (s1 := match f s i with Some v => apply_value s (sf_location i) v now | None => s end).
  set (Q := match f s i with Some v => at_location (sf_location i) v | None => fun _ => false end).
  assert (refreshed now Q s s1) as HQ.
  { unfold Q, s1. destruct (f s i) as [v|]; [by apply apply_value_refreshes|apply refreshed_refl]. }
  assert (exists ok1 fail1, match f s i with Some v => (apply_value s (sf_location i) v now, S ok, fail) | None => (s, ok, S fail) end
      = (s1, ok1, fail1) /\ (is_Some (f s i) -> ok1 = S ok /\ fail1 = fail)) as (ok1 & fail1 & -> & Hc).
  { unfold s1. destruct (f s i); do 2 eexists; (split; [done|]); [done|]. by intros [? ?]. }
  destruct (IH s1 ok1 fail1) as (P & s' & ok' & fail' & -> & HP & Hsub & Hall).
  { by rewrite (rf_ids _ _ _ _ HQ). }
  { by rewrite (refreshed_locations _ _ _ _ HQ). }
  exists (fun loc => P loc || Q loc), s', ok', fail'. split; [done|]. split; [by apply (refreshed_trans now Q P s s1 s')|]. split.
  - intros loc. rewrite fmap_cons, elem_of_cons. intros [Hl|Hl]%orb_prop; [right; by apply Hsub|]. left. unfold Q in Hl. destruct (f s i); [|done].
    unfold at_location in Hl. apply andb_prop in Hl as [Hl _]. by apply bool_decide_eq_true_1 in Hl.
  - intros [Hfi Hr]%Forall_cons. destruct (Hfi s) as (v & Hv & Ha). simpl in Hv, Ha. destruct Hc as [-> ->]; [by exists v|].
    destruct (Hall Hr) as (HPl & Hok & Hfail). split; [|split; [simpl; lia|done]]. constructor; simpl.
    + unfold Q. rewrite Hv. unfold at_location. rewrite Ha, bool_decide_eq_true_2 by done. by rewrite orb_true_r.
    + apply (Forall_impl _ _ _ HPl). intros x ->. done.
Qed.

Lemma run_items_pairs now f items s :
  run_items now f items s = fold_left (pair_step now) ((fun i => (f, i)) <$> items) (s, 0%nat, 0%nat).
Proof.
  unfold run_items. generalize (s, 0%nat, 0%nat). induction items as [|i items IH]; intros st; [done|]. rewrite fmap_cons. simpl. apply IH.
Qed.
Definition outcome_pair (io : StaleField * OnchainOutcome) : Fetch * StaleField :=
  (fun _ _ => if oo_success io.2 then oo_value io.2 else None, io.1).
Lemma outcome_pairs now ios st :
  fold_left (outcome_step now) ios st = fold_left (pair_step now) (outcome_pair <$> ios) st.
Proof. revert st. induction ios as [|i ios IH]; intros st; [done|]. rewrite fmap_cons. simpl. apply IH. Qed.

(** *** What the fetchers owe a batch *)
Definition kind_of (source : DataSource) : option BatchKind :=
  match source with
  | OnchainView chain _ _ _ => Some (BatchOnchain chain)
  | OracleFeed _ _ => Some BatchOracle
  | VenueApi endpoint _ _ => Some (BatchVenue endpoint)
  | RegistryApi endpoint _ _ => Some (BatchRegistry endpoint)
  | DerivedFrom _ _ => Some BatchDerived
  | UserSupplied => None
  end.

Definition success (v : Value) : OnchainOutcome := mkOnchainOutcome true (Some v) None.
(** Every request about the fields [items] is answered with a value their location accepts. *)
Definition answered (f : Fetch) (i : StaleField) : Prop :=
  forall s, exists v, f s i = Some v /\ accepts (sf_location i) v = true.
Definition responsive (o : Orchestrator) (b : FetchBatch) : Prop :=
  let items := fb_items b in
  match fb_kind b with
  | BatchOnchain chain =>
      exists calls vs, onchain_calls o items = Ok calls /\ or_onchain o chain calls = Ok (success <$> vs) /\
        Forall2 (fun i v => accepts (sf_location i) v = true) items vs
  | BatchOracle => Forall (answered (fetch_oracle o)) items
  | BatchRegistry _ => exists registry, or_registry o = Some registry /\
      Forall (answered (fun _ i => to_option (registry (sf_source i)))) items
  | BatchVenue endpoint => is_hyperliquid_endpoint endpoint = true /\
      exists hl, or_hyperliquid o = Some hl /\ Forall (answered (fetch_venue hl)) items
  | BatchDerived => Forall (answered (fetch_derived o)) items
  | BatchUserSupplied => items = []
  end.

Lemma onchain_calls_Ok o chain items : Forall (fun i => kind_of (sf_source i) = Some (BatchOnchain chain)) items ->
  exists calls, onchain_calls o items = Ok calls.
Proof.
  induction 1 as [|i items Hi _ [calls IH]]; [by exists []|]. simpl. destruct (sf_source i) as [c a f d| | | | |]; try done.
  simpl. rewrite IH. by eexists.
Qed.

(** What a batch may do, and what it does when every request is answered. *)
Definition batch_frame (now : Time) (s : WalletState) (items : list StaleField) (r : result SyncError (WalletState * nat * nat)) : Prop :=
  forall s' ok fail, r = Ok (s', ok, fail) ->
  exists P, refreshed now P s s' /\ forall loc, P loc = true -> loc ∈ sf_location <$> items.
Definition batch_full (now : Time) (s : WalletState) (items : list StaleField) (r : result SyncError (WalletState * nat * nat)) : Prop :=
  exists s' P, r = Ok (s', length items, 0%nat) /\ refreshed now P s s' /\
    (forall loc, P loc = true -> loc ∈ sf_location <$> items) /\ Forall (fun i => P (sf_location i) = true) items.

Section Batch.
Context (now : Time) (s : WalletState) (items : list StaleField).
Context (Hnd : NoDup (position_ids s)) (Hloc : Forall (fun i => sf_location i ∈ locations s) items).

Lemma skipped_frame n : batch_frame now s items (Ok (s, 0%nat, n)).
Proof. intros s' ok fail [= <- <- <-]. exists (fun _ => false). split; [apply refreshed_refl|done]. Qed.

Lemma run_items_effect f :
  batch_frame now s items (Ok (run_items now f items s)) /\
  (Forall (answered f) items -> batch_full now s items (Ok (run_items now f items s))).
Proof.
  rewrite run_items_pairs.
  destruct (pairs_refresh now ((fun i => (f, i)) <$> items) s 0 0 Hnd) as (P & s' & ok & fail & -> & HP & Hsub & Hall).
  { apply Forall_fmap. exact Hloc. }
  rewrite <- list_fmap_compose in Hsub. split.
  - intros ? ? ? [= <- <- <-]. exists P. split; [done|exact Hsub].
  - intros Ha. destruct (Hall ltac:(apply Forall_fmap; exact Ha)) as (H1 & -> & ->). rewrite Forall_fmap, length_fmap in *.
    exists s', P. split; [done|]. split; [done|]. split; [exact Hsub|exact H1].
Qed.

Lemma zip_locations (outs : list OnchainOutcome) :
  Forall (fun x : Fetch * StaleField => sf_location x.2 ∈ locations s) (outcome_pair <$> zip items outs).
Proof.
  apply Forall_fmap, Forall_forall. intros [i oo] Hi%elem_of_zip_l. simpl. by apply (proj1 (Forall_forall _ _) Hloc).
Qed.
Lemma onchain_frame outs : batch_frame now s items (Ok (fold_left (outcome_step now) (zip items outs) (s, 0%nat, 0%nat))).
Proof.
  intros s' ok fail. rewrite outcome_pairs.
  destruct (pairs_refresh now _ s 0 0 Hnd (zip_locations outs)) as (P & s1 & ok1 & fail1 & -> & HP & Hsub & _).
  intros [= <- <- <-]. exists P. split; [done|]. intros loc Hl%Hsub. rewrite <- list_fmap_compose in Hl.
  apply list_elem_of_fmap in Hl as ([i oo] & -> & Hi%elem_of_zip_l). by apply (list_elem_of_fmap_2 sf_location).
Qed.
Lemma zip_success l vs : length l = length vs -> snd <$> (outcome_pair <$> zip l (success <$> vs)) = l.
Proof. revert vs. induction l as [|i l IH]; intros [|v vs] H; try done. simpl. f_equal. apply IH. by injection H. Qed.
Lemma onchain_full vs :
  Forall2 (fun i v => accepts (sf_location i) v = true) items vs ->
  batch_full now s items (Ok (fold_left (outcome_step now) (zip items (success <$> vs)) (s, 0%nat, 0%nat))).
Proof.
  intros Hacc. rewrite outcome_pairs. pose proof (zip_success items vs (Forall2_length _ _ _ Hacc)) as Hzip.
  destruct (pairs_refresh now _ s 0 0 Hnd (zip_locations (success <$> vs))) as (P & s1 & ok1 & fail1 & -> & HP & Hsub & Hall).
  destruct Hall as (H1 & -> & ->).
  { clear Hzip Hsub. induction Hacc as [|i v its vs' Ha _ IH]; [constructor|]. simpl. apply Forall_cons in Hloc as [_ Hl].
    constructor; [|exact (IH Hl)]. intros s0. by exists v. }
  exists s1, P. split; [by rewrite <- (length_fmap snd (outcome_pair <$> zip items (success <$> vs))), Hzip|]. split; [done|]. split.
  - intros loc Hl%Hsub. rewrite <- Hzip, <- list_fmap_compose. exact Hl.
  - rewrite <- Hzip, Forall_fmap. exact H1.
Qed.
End Batch.

(** One batch changes only the locations of its items; answered in full, it refreshes them all. *)
Lemma process_batch_refreshes o b s now :
  NoDup (position_ids s) -> Forall (fun i => sf_location i ∈ locations s) (fb_items b) ->
  Forall (fun i => kind_of (sf_source i) = Some (fb_kind b)) (fb_items b) ->
  batch_frame now s (fb_items b) (process_batch o b s now) /\
  (responsive o b -> batch_full now s (fb_items b) (process_batch o b s now)).
Proof.
  intros Hnd Hloc Hkind. destruct b as [kind items]. simpl in *.
  pose proof (run_items_effect now s items Hnd Hloc) as Hrun. pose proof (skipped_frame now s items) as Hskip.
  unfold process_batch, responsive. destruct kind as [chain| |endpoint|endpoint| |]; simpl.
  - destruct (onchain_calls_Ok o chain items Hkind) as [calls ->]. simpl. split.
    + destruct (or_onchain o chain _) as [outs| |]; simpl; [by apply onchain_frame|done..].
    + intros (calls' & vs & [= <-] & -> & Hacc). by apply onchain_full.
  - apply Hrun.
  - destruct (is_hyperliquid_endpoint endpoint); simpl; [|split; [apply Hskip|by intros [? _]]].
    destruct (or_hyperliquid o) as [hl|]; [|split; [apply Hskip|by intros (_ & ? & ? & _)]].
    destruct (Hrun (fetch_venue hl)) as [H1 H2]. split; [exact H1|]. intros (_ & hl' & [= <-] & Ha). auto.
  - destruct (or_registry o) as [registry|]; [|split; [apply Hskip|by intros (? & ? & _)]].
    destruct (Hrun (fun _ item => to_option (registry (sf_source item)))) as [H1 H2]. split; [exact H1|]. intros (r & [= <-] & Ha). auto.
  - apply Hrun.
  - split; [apply Hskip|]. intros ->. exists s, (fun _ => false). split; [done|]. split; [apply refreshed_refl|]. split; [done|constructor].
Qed.

(** *** Grouping *)
Definition sel (kind : BatchKind) (stale : list StaleField) : list StaleField :=
  filter (fun f => kind_of (sf_source f) = Some kind) stale.
Definition nonempty (l : list StaleField) : option (list StaleField) := match l with [] => None | _ => Some l end.

Lemma sel_snoc kind l f :
  sel kind (l ++ [f]) = sel kind l ++ if decide (kind_of (sf_source f) = Some kind) then [f] else [].
Proof. unfold sel. rewrite filter_app, filter_cons, filter_nil. done. Qed.
Lemma push_entry_lookup m k f kind l :
  (forall k', m !! k' = nonempty (sel (kind k') l)) -> (forall a b, kind a = kind b -> a = b) ->
  kind_of (sf_source f) = Some (kind k) -> forall k', push_entry m k f !! k' = nonempty (sel (kind k') (l ++ [f])).
Proof.
  intros Hm Hinj Hk k'. rewrite sel_snoc. unfold push_entry. destruct (decide (k' = k)) as [->|Hne].
  - rewrite lookup_insert_eq, Hm, decide_True by done. by destruct (sel (kind k) l).
  - rewrite lookup_insert_ne, Hm, decide_False, app_nil_r by (done || congruence || (intros He; rewrite Hk in He; injection He; intros ?%Hinj; congruence)). done.
Qed.
Record grouped (stale : list StaleField) (g : Grouped) : Prop := {
  gp_onchain : forall k, gr_onchain g !! k = nonempty (sel (BatchOnchain k) stale);
  gp_oracle : gr_oracle g = sel BatchOracle stale;
  gp_venue : forall k, gr_venue g !! k = nonempty (sel (BatchVenue k) stale);
  gp_registry : forall k, gr_registry g !! k = nonempty (sel (BatchRegistry k) stale);
  gp_derived : gr_derived g = sel BatchDerived stale;
}.
Lemma group_grouped stale : grouped stale (group stale).
Proof.
  induction stale as [|f l IH] using rev_ind; [by split|]. unfold group. rewrite fold_left_app. simpl. fold (group l).
  destruct IH as [H1 H2 H3 H4 H5]. unfold group_step. destruct (sf_source f) eqn:Hs; split; intros; simpl;
    try (rewrite sel_snoc, decide_False, app_nil_r by (rewrite Hs; simpl; congruence); done);
    try (rewrite sel_snoc, decide_True by (by rewrite Hs); by f_equal);
    apply push_entry_lookup; try done; rewrite ?Hs; try done; congruence.
Qed.

Lemma strings_in_order_elem {A} (m : gmap string A) k v : (k, v) ∈ strings_in_order m <-> m !! k = Some v.
Proof.
  unfold strings_in_order. rewrite list_elem_of_omap. setoid_rewrite (merge_sort_Permutation string_order (elements (dom m))).
  setoid_rewrite elem_of_elements. split.
  - intros (k' & _ & Hk). destruct (m !! k') eqn:E; [|done]. simpl in Hk. congruence.
  - intros Hk. exists k. rewrite Hk. split; [|done]. by eapply elem_of_dom_2.
Qed.
Lemma strings_in_order_keys {A} (m : gmap string A) : NoDup (fst <$> strings_in_order m).
Proof.
  unfold strings_in_order. assert (NoDup (merge_sort string_order (elements (dom m)))) as Hnd
    by (rewrite merge_sort_Permutation; apply NoDup_elements).
  induction Hnd as [|k ks Hk _ IH]; [constructor|]. simpl. destruct (m !! k); [|done]. apply NoDup_cons. split; [|done].
  intros Hin. apply Hk. apply list_elem_of_fmap in Hin as ([k' v] & He' & Hin). simpl in He'. subst k'. apply list_elem_of_omap in Hin as (k'' & Hin & He).
  destruct (m !! k''); simpl in He; naive_solver.
Qed.
Lemma batches_of_spec kind m b : b ∈ batches_of kind m <-> exists k, fb_kind b = kind k /\ m !! k = Some (fb_items b).
Proof.
  unfold batches_of. rewrite list_elem_of_fmap. split.
  - intros ([k v] & -> & Hk%strings_in_order_elem). by exists k.
  - intros (k & Hk & Hm). exists (k, fb_items b). rewrite strings_in_order_elem. destruct b. simpl in *. by subst.
Qed.
Lemma batch_if_spec kind l b : b ∈ batch_if kind l <-> b = mkFetchBatch kind l /\ l <> [].
Proof. destruct l; simpl; rewrite ?elem_of_nil, ?list_elem_of_singleton; naive_solver. Qed.
Lemma batches_of_nodup kind m : (forall a b : string, kind a = kind b -> a = b) -> NoDup (fb_kind <$> batches_of kind m).
Proof.
  intros Hinj. unfold batches_of. rewrite <- list_fmap_compose. change (NoDup (kind ∘ fst <$> strings_in_order m)).
  rewrite list_fmap_compose.
  apply (NoDup_fmap_2 (A := string)); [intros a b; apply Hinj|apply strings_in_order_keys].
Qed.
Lemma batches_of_kinds kind m k : k ∈ fb_kind <$> batches_of kind m -> exists s, k = kind s.
Proof. intros (b & -> & (s & Hs & _)%batches_of_spec)%list_elem_of_fmap. by exists s. Qed.
Lemma batch_if_kinds kind l k : k ∈ fb_kind <$> batch_if kind l -> k = kind.
Proof. intros (b & -> & [-> _]%batch_if_spec)%list_elem_of_fmap. done. Qed.
Lemma batch_if_nodup kind l : NoDup (fb_kind <$> batch_if kind l).
Proof. destruct l; [constructor|]. apply NoDup_singleton. Qed.

(** A batch is the stale fields of its kind, in the order of the walk. *)
Lemma batch_spec stale b : b ∈ batch_by_source stale <-> fb_items b = sel (fb_kind b) stale /\ fb_items b <> [].
Proof.
  destruct (group_grouped stale) as [H1 H2 H3 H4 H5]. unfold batch_by_source.
  rewrite !elem_of_app, !batches_of_spec, !batch_if_spec. setoid_rewrite H1. setoid_rewrite H3. setoid_rewrite H4. rewrite H2, H5.
  assert (forall k, nonempty (sel k stale) = Some (fb_items b) <-> fb_items b = sel k stale /\ fb_items b <> []) as Hne.
  { intros k. unfold nonempty. destruct (sel k stale); (split; [by intros [= <-]|by intros [-> ?]]). }
  setoid_rewrite Hne. clear H1 H2 H3 H4 H5 Hne. destruct b as [[] items]; simpl; try naive_solver.
  split; [naive_solver|]. intros [-> Hn]. exfalso. apply Hn. unfold sel. clear. induction stale as [|f l IH]; [done|].
  rewrite filter_cons, decide_False; [done|]. by destruct (sf_source f).
Qed.
Lemma batch_kinds_nodup stale : NoDup (fb_kind <$> batch_by_source stale).
Proof.
  unfold batch_by_source. rewrite !fmap_app. repeat (apply NoDup_app; split; [|split]);
    try (apply batches_of_nodup; congruence); try apply batch_if_nodup;
    intros x Hx; rewrite ?elem_of_app; repeat match goal with
    | H : _ ∈ fb_kind <$> batches_of _ _ |- _ => apply batches_of_kinds in H as [? ->]
    | H : _ ∈ fb_kind <$> batch_if _ _ |- _ => apply batch_if_kinds in H as ->
    | |- ~ _ => intros ? | H : _ \/ _ |- _ => destruct H
    | H : exists _, _ |- _ => destruct H end; try done;
    repeat match goal with
    | H : _ ∈ fb_kind <$> batches_of _ _ |- _ => apply batches_of_kinds in H as [? ?]
    | H : _ ∈ fb_kind <$> batch_if _ _ |- _ => apply batch_if_kinds in H end; congruence.
Qed.
Lemma derived_last stale bs1 b bs2 : batch_by_source stale = bs1 ++ b :: bs2 -> fb_kind b = BatchDerived -> bs2 = [].
Proof.
  unfold batch_by_source. rewrite !app_assoc. set (pre := _ ++ batches_of BatchRegistry _). intros He Hb.
  assert (BatchDerived ∉ fb_kind <$> pre) as Hpre.
  { unfold pre. rewrite !fmap_app, !elem_of_app. intros H. repeat match goal with H : _ \/ _ |- _ => destruct H as [H|H] end;
      first [apply batches_of_kinds in H as [? ?]|apply batch_if_kinds in H]; congruence. }
  assert (b ∉ pre) as Hn by (intros Hin; apply Hpre; rewrite <- Hb; by apply list_elem_of_fmap_2).
  destruct (gr_derived (group stale)) as [|d l]; simpl in He.
  - rewrite app_nil_r in He. destruct Hn. rewrite He, elem_of_app. right. left.
  - destruct bs2 as [|b2 bs2 _] using rev_ind; [done|]. exfalso. rewrite app_comm_cons, app_assoc in He. apply app_inj_2 in He as [He _]; [|done].
    destruct Hn. rewrite He, elem_of_app. right. left.
Qed.

Definition fetchable (ks : list BatchKind) (f : StaleField) : bool :=
  match kind_of (sf_source f) with Some k => bool_decide (k ∈ ks) | None => false end.
Lemma fetchable_cons k ks f : fetchable (k :: ks) f = bool_decide (kind_of (sf_source f) = Some k) || fetchable ks f.
Proof.
  unfold fetchable. destruct (kind_of (sf_source f)) as [k'|]; [|done]. destruct (decide (k' = k)) as [->|Hne].
  - by rewrite !bool_decide_eq_true_2 by (done || left).
  - rewrite (bool_decide_eq_false_2 (Some k' = Some k)) by congruence. apply bool_decide_ext. rewrite elem_of_cons. naive_solver.
Qed.
Lemma fetchable_nil stale : filter (fun f => fetchable [] f = true) stale = [].
Proof.
  induction stale as [|f l IH]; [done|]. rewrite filter_cons, decide_False; [done|]. unfold fetchable. destruct (kind_of _); [|done].
  rewrite bool_decide_eq_false_2; [done|apply not_elem_of_nil].
Qed.
Lemma sel_split k ks stale : k ∉ ks ->
  filter (fun f => fetchable (k :: ks) f = true) stale ≡ₚ sel k stale ++ filter (fun f => fetchable ks f = true) stale.
Proof.
  intros Hk. unfold sel. induction stale as [|f l IH]; [done|]. rewrite !filter_cons.
  destruct (decide (kind_of (sf_source f) = Some k)) as [He|He].
  - assert (fetchable ks f = false) as Hf by (unfold fetchable; rewrite He; by apply bool_decide_eq_false_2).
    rewrite decide_True, decide_False, IH by (rewrite ?fetchable_cons, ?Hf, ?bool_decide_eq_true_2 by done; done). done.
  - assert (fetchable (k :: ks) f = fetchable ks f) as Hf by (rewrite fetchable_cons, bool_decide_eq_false_2 by done; done).
    destruct (decide (fetchable ks f = true)) as [Ht|Ht].
    + rewrite decide_True, IH by congruence. apply Permutation_middle.
    + rewrite decide_False, IH by congruence. done.
Qed.
Lemma filter_ext_elem {A} (P Q : A -> Prop) `{!forall x, Decision (P x), !forall x, Decision (Q x)} (l : list A) :
  (forall x, x ∈ l -> P x <-> Q x) -> filter P l = filter Q l.
Proof.
  intros Hpq. induction l as [|x l IH]; [done|]. rewrite !filter_cons, IH by (intros; apply Hpq; by right).
  apply decide_ext, Hpq. left.
Qed.
Lemma batches_partition stale :
  concat (fb_items <$> batch_by_source stale) ≡ₚ filter (fun f => kind_of (sf_source f) <> None) stale.
Proof.
  transitivity (filter (fun f => fetchable (fb_kind <$> batch_by_source stale) f = true) stale).
  - pose proof (batch_kinds_nodup stale) as Hnd. assert (forall b, b ∈ batch_by_source stale -> fb_items b = sel (fb_kind b) stale) as Hb
      by (intros b [? _]%batch_spec; done).
    induction (batch_by_source stale) as [|b bs IH].
    { by rewrite fetchable_nil. }
    rewrite fmap_cons, NoDup_cons in Hnd. destruct Hnd as [Hn Hnd]. rewrite fmap_cons, (fmap_cons fb_kind). cbn [concat].
    rewrite sel_split by done. rewrite Hb by left. f_equiv. apply IH; [done|]. intros b' Hb'. apply Hb. by right.
  - rewrite (filter_ext_elem _ (fun f => kind_of (sf_source f) <> None)); [done|]. intros f Hf. unfold fetchable.
    destruct (kind_of (sf_source f)) as [k|] eqn:Hk; [|done]. rewrite bool_decide_eq_true_2; [done|].
    apply list_elem_of_fmap. exists (mkFetchBatch k (sel k stale)). split; [done|]. apply batch_spec. simpl. split; [done|].
    intros Hn. apply (filter_nil_not_elem_of _ _ f Hn); done.
Qed.

(** *** The refresh *)
Definition batch_ok (s : WalletState) (b : FetchBatch) : Prop :=
  Forall (fun i => sf_location i ∈ locations s) (fb_items b) /\
  Forall (fun i => kind_of (sf_source i) = Some (fb_kind b)) (fb_items b).
Definition items_of (bs : list FetchBatch) : list StaleField := concat (fb_items <$> bs).

Lemma batch_ok_refreshed now P s s' bs : refreshed now P s s' -> Forall (batch_ok s) bs -> Forall (batch_ok s') bs.
Proof. intros H. unfold batch_ok. by rewrite (refreshed_locations _ _ _ _ H). Qed.
Lemma items_cons b bs : items_of (b :: bs) = fb_items b ++ items_of bs.
Proof. done. Qed.

(** Any run of the loop only refreshes locations of the batches' items. *)
Lemma refresh_loop_frame o now bs : forall s r, NoDup (position_ids s) -> Forall (batch_ok s) bs ->
  exists P s' r', fold_left (refresh_step o now) bs (s, r) = (s', r') /\ refreshed now P s s' /\
    (forall loc, P loc = true -> loc ∈ sf_location <$> items_of bs) /\ rr_walked r' = rr_walked r.
Proof.
  induction bs as [|b bs IH]; intros s r Hnd Hbs.
  { exists (fun _ => false), s, r. split; [done|]. split; [apply refreshed_refl|done]. }
  apply Forall_cons in Hbs as [[Hl Hk] Hbs]. destruct (process_batch_refreshes o b s now Hnd Hl Hk) as [Hframe _]. cbn [fold_left].
  assert (exists Q s1 r1, refresh_step o now (s, r) b = (s1, r1) /\ refreshed now Q s s1 /\
    (forall loc, Q loc = true -> loc ∈ sf_location <$> fb_items b) /\ rr_walked r1 = rr_walked r) as (Q & s1 & r1 & -> & HQ & Hq & Hw).
  { unfold refresh_step. destruct (process_batch o b s now) as [[[s1 ok] fail]|e|].
    - destruct (Hframe s1 ok fail eq_refl) as (Q & HQ & Hq). exists Q, s1. eauto.
    - exists (fun _ => false), s. eexists. split; [done|]. split; [apply refreshed_refl|done].
    - exists (fun _ => false), s, r. split; [done|]. split; [apply refreshed_refl|done]. }
  destruct (IH s1 r1) as (P & s' & r' & -> & HP & Hp & Hw').
  { by rewrite (rf_ids _ _ _ _ HQ). } { by apply (batch_ok_refreshed now Q s). }
  exists (fun loc => P loc || Q loc), s', r'. split; [done|]. split; [by apply (refreshed_trans now Q P s s1 s')|].
  split; [|congruence]. intros loc. rewrite items_cons, fmap_app, elem_of_app. intros [?|?]%orb_prop; [right|left]; auto.
Qed.

(** When every batch is answered, all items are refreshed and counted, with no failure. *)
Lemma refresh_loop_full o now bs : forall s r, NoDup (position_ids s) -> Forall (batch_ok s) bs -> Forall (responsive o) bs ->
  exists P s' r', fold_left (refresh_step o now) bs (s, r) = (s', r') /\ refreshed now P s s' /\
    Forall (fun i => P (sf_location i) = true) (items_of bs) /\
    rr_fields_updated r' = (rr_fields_updated r + length (items_of bs))%nat /\
    rr_fields_failed r' = rr_fields_failed r /\ rr_errors r' = rr_errors r.
Proof.
  induction bs as [|b bs IH]; intros s r Hnd Hbs Hr.
  { exists (fun _ => false), s, r. split; [done|]. split; [apply refreshed_refl|]. split; [constructor|]. split; [simpl; lia|done]. }
  apply Forall_cons in Hbs as [[Hl Hk] Hbs]. apply Forall_cons in Hr as [Hb Hr].
  destruct (process_batch_refreshes o b s now Hnd Hl Hk) as [_ Hfull]. destruct (Hfull Hb) as (s1 & Q & Hp & HQ & _ & HQall).
  cbn [fold_left]. unfold refresh_step at 2. rewrite Hp.
  match goal with |- context [fold_left _ bs (s1, ?r1)] =>
    destruct (IH s1 r1 ltac:(by rewrite (rf_ids _ _ _ _ HQ)) (batch_ok_refreshed now Q s s1 bs HQ Hbs) Hr) as (P & s' & r' & -> & HP & HPall & Hu & Hf & He)
  end.
  exists (fun loc => P loc || Q loc), s', r'. split; [done|]. split; [by apply (refreshed_trans now Q P s s1 s')|]. split.
  - rewrite items_cons. apply Forall_app. split; [apply (Forall_impl _ _ _ HQall)|apply (Forall_impl _ _ _ HPall)]; intros i ->; [apply orb_true_r|done].
  - rewrite Hu, Hf, He, items_cons, length_app. simpl. split; [lia|done].
Qed.

Lemma stale_batches_ok s now : Forall (batch_ok s) (batch_by_source (walk_stale s now).1).
Proof.
  apply Forall_forall. intros b [Hb _]%batch_spec. unfold batch_ok. rewrite Hb. split; apply Forall_forall; intros f [Hk Hf]%list_elem_of_filter; [|done].
  rewrite walk_stale_eq in Hf. simpl in Hf. apply list_elem_of_fmap in Hf as (e & -> & [_ He]%list_elem_of_filter). by apply (list_elem_of_fmap_2 le_location).
Qed.

Definition wf_ttls (s : WalletState) : Prop :=
  Forall (fun e => Forall (fun ttl => 0 <= ttl) (option_list (le_ttl e))) (live_entries s).

Lemma stale_after now P l :
  Forall (fun e => Forall (fun ttl => 0 <= ttl) (option_list (le_ttl e))) l ->
  filter (fun e => entry_stale now e = true) (freshen now P <$> l) =
  filter (fun e => P (le_location e) = false) (filter (fun e => entry_stale now e = true) l).
Proof.
  induction 1 as [|e l He _ IH]; [done|]. rewrite fmap_cons, !(filter_cons (fun e => entry_stale now e = true)), IH.
  destruct (P (le_location e)) eqn:HP.
  - rewrite decide_False by (rewrite freshen_not_stale by done; done).
    destruct (decide (entry_stale now e = true)); [|done]. by rewrite filter_cons, decide_False by congruence.
  - assert (freshen now P e = e) as -> by (unfold freshen; by rewrite HP).
    destruct (decide (entry_stale now e = true)); [|done]. by rewrite filter_cons, decide_True.
Qed.
Lemma filter_to_stale (P : FieldLocation -> bool) (l : list LiveEntry) :
  filter (fun f => P (sf_location f) = false) (to_stale <$> l) = to_stale <$> filter (fun e => P (le_location e) = false) l.
Proof.
  induction l as [|e l IH]; [done|]. rewrite fmap_cons, !filter_cons, IH.
  destruct (decide (P (le_location e) = false)) as [H|H]; [by rewrite decide_True|by rewrite decide_False].
Qed.
Lemma walk_after now P s s' : wf_ttls s -> refreshed now P s s' ->
  (walk_stale s' now).1 = filter (fun f => P (sf_location f) = false) (walk_stale s now).1.
Proof.
  intros Hw [He _ _]. rewrite !walk_stale_eq. simpl. rewrite He, stale_after by done. by rewrite filter_to_stale.
Qed.
Lemma refresh_unfold o s now :
  refresh o s now = fold_left (refresh_step o now) (batch_by_source (walk_stale s now).1)
    (s, mkRefreshReport (walk_stale s now).2 0 0 0 []).
Proof. unfold refresh. destruct (walk_stale s now) as [[|f l] w]; done. Qed.
Definition user_supplied (source : DataSource) : bool := match source with UserSupplied => true | _ => false end.
Lemma kind_of_None source : kind_of source <> None <-> user_supplied source = false.
Proof. by destruct source. Qed.

(** ** Properties *)

(** The batches partition the stale fields that have a source: no two batches have the same
    kind, a batch holds exactly the fields of its kind in walk order, user-supplied fields are
    in none, and derived fields come in the last batch, after everything they may depend on. *)
Theorem batch_by_source_exact stale :
  NoDup (fb_kind <$> batch_by_source stale) /\
  (forall b, b ∈ batch_by_source stale <-> fb_items b = sel (fb_kind b) stale /\ fb_items b <> []) /\
  concat (fb_items <$> batch_by_source stale) ≡ₚ filter (fun f => user_supplied (sf_source f) = false) stale /\
  (forall bs1 b bs2, batch_by_source stale = bs1 ++ b :: bs2 -> fb_kind b = BatchDerived -> bs2 = []).
Proof.
  split; [apply batch_kinds_nodup|]. split; [apply batch_spec|]. split; [|apply derived_last].
  rewrite batches_partition. rewrite (filter_ext_elem _ (fun f => user_supplied (sf_source f) = false)); [done|].
  intros f _. by rewrite kind_of_None.
Qed.

(** Whatever the fetchers answer, a refresh changes nothing but the values and sync marks of
    stale live fields: the rest of the snapshot, the sources and the intervals stay, fresh and
    user-supplied fields are not touched, and no field becomes stale. *)
Theorem refresh_frame o s now : NoDup (position_ids s) -> wf_ttls s ->
  let s' := (refresh o s now).1 in
  strip s' = strip s /\ (refresh o s now).2.(rr_walked) = (walk_stale s now).2 /\
  exists P, live_entries s' = freshen now P <$> live_entries s /\
    (forall loc, P loc = true -> exists f, f ∈ (walk_stale s now).1 /\ sf_location f = loc /\ user_supplied (sf_source f) = false) /\
    (walk_stale s' now).1 = filter (fun f => P (sf_location f) = false) (walk_stale s now).1.
Proof.
  intros Hnd Hw. rewrite refresh_unfold.
  destruct (refresh_loop_frame o now _ s (mkRefreshReport (walk_stale s now).2 0 0 0 []) Hnd (stale_batches_ok s now))
    as (P & s' & r' & -> & HP & Hp & Hr).
  simpl. split; [apply HP|]. split; [done|]. exists P. split; [apply HP|]. split; [|by apply walk_after].
  intros loc (f & -> & Hf)%Hp%list_elem_of_fmap. exists f. unfold items_of in Hf. rewrite batches_partition in Hf.
  apply list_elem_of_filter in Hf as [Hk Hf]. split; [done|]. split; [done|]. by rewrite kind_of_None in Hk.
Qed.

(** C37: When the fetchers answer every request with a value of the right form, a refresh settles:
    afterwards only user-supplied fields are stale, and the report counts every other stale
    field as updated, with no failure and no error. *)
Theorem refresh_settles o s now : NoDup (position_ids s) -> wf_ttls s ->
  Forall (responsive o) (batch_by_source (walk_stale s now).1) ->
  let '(s', r) := refresh o s now in
  Forall (fun f => user_supplied (sf_source f) = true) (walk_stale s' now).1 /\
  rr_fields_updated r = length (filter (fun f => user_supplied (sf_source f) = false) (walk_stale s now).1) /\
  rr_fields_failed r = 0%nat /\ rr_errors r = [].
Proof.
  intros Hnd Hw Hr. rewrite refresh_unfold.
  destruct (refresh_loop_full o now _ s (mkRefreshReport (walk_stale s now).2 0 0 0 []) Hnd (stale_batches_ok s now) Hr)
    as (P & s' & r' & -> & HP & Hall & Hu & Hf & He).
  unfold items_of in Hall, Hu. rewrite batches_partition in Hall, Hu. split; [|split; [|by split]].
  - rewrite (walk_after now P s s') by done. apply Forall_forall. intros f [HPf Hin]%list_elem_of_filter.
    destruct (user_supplied (sf_source f)) eqn:Hne; [done|]. rewrite Forall_forall in Hall.
    rewrite (Hall f) in HPf; [done|]. apply list_elem_of_filter. by rewrite kind_of_None.
  - rewrite Hu. simpl. f_equal. apply filter_ext_elem. intros f _. by rewrite kind_of_None.
Qed.
End Live.

(** ** Witnesses *)

(** A concrete JSON form of keys: the bits of their encoding. *)
Fixpoint bits_of (p : positive) : string :=
  match p with xH => "" | xO p => String Ascii.zero (bits_of p) | xI p => String Ascii.one (bits_of p) end.
Fixpoint of_bits (s : string) : positive :=
  match s with "" => xH | String c s => if Ascii.eqb c Ascii.one then xI (of_bits s) else xO (of_bits s) end.
Lemma of_bits_of p : of_bits (bits_of p) = p.
Proof. induction p as [p IH|p IH|]; simpl; [by rewrite IH..|done]. Qed.
#[local] Instance bits_json : KeyJson := {| key_to_json k := bits_of (encode k); key_from_json s := decode (of_bits s) |}.
#[local] Instance bits_json_laws : KeyJsonLaws bits_json.
Proof. intros k. simpl. rewrite of_bits_of. apply decode_encode. Qed.
#[local] Instance no_i256 : I256Parse := fun _ => Some 0.

Definition demo_key : TokenKey := Erc20 "eip155:1" 7.
Definition demo_live {T} (v : T) (source : DataSource) : LiveField T := mkLiveField v source 1000 (Some 60) None.
Definition demo_holding : TokenHolding :=
  mkTokenHolding demo_key UnknownKind "USDC" 6 (Fungible 5) (Fungible 0) None
    (Some (demo_live "1.0" (OracleFeed Chainlink "USDC/USD"))) None None 1000 UserSupplied.
Definition demo_perp : PerpPosition :=
  mkPerpPosition (VenueRef_new "hyperliquid") (mkMarketRef "ETH" (VenueRef_new "hyperliquid")) Long 10 30000 []
    "3000" Isolated (demo_live "3000" (VenueApi "https://api.hyperliquid.xyz/info" "hl" None))
    (demo_live None (OnchainView "eip155:1" 9 "liq()" "u256")) (demo_live 0 (DerivedFrom [] "perp_pnl"))
    (demo_live 0 (RegistryApi "r" DecoderRegistry None)) (demo_live "5" UserSupplied).
Definition demo_wallet : WalletState :=
  mkWalletState (mkWalletId 1 ∅) {[demo_key := demo_holding]} ApprovalSet_new
    [mkPosition "perp/1" (ProtocolRef_new "hyperliquid") None (PkPerpPosition demo_perp) 1000 UserSupplied] [] ∅ None.
Definition demo_orchestrator : Orchestrator :=
  mkOrchestrator (fun _ => [0xab; 0xcd; 0xef; 0x01]) (fun _ calls => Ok ((fun _ => mkOnchainOutcome true (Some (VString "2500")) None) <$> calls))
    {["chainlink" := fun _ => Ok "1.01"]} (Some (fun _ => Ok (VNumber (IntNum 4))))
    (Some (mkHlFetcher (fun _ _ _ _ => Ok (VString "3100")) (fun _ => Ok (VString "3100"))))
    {["perp_pnl" := fun _ _ => Ok (VString "7")]} ∅.

Lemma demo_ids : NoDup (position_ids demo_wallet).
Proof. apply NoDup_singleton. Qed.
Lemma demo_ttls : wf_ttls demo_wallet.
Proof. unfold wf_ttls. vm_compute live_entries. repeat constructor; simpl; lia. Qed.
Lemma demo_responsive : Forall (responsive demo_orchestrator) (batch_by_source (walk_stale demo_wallet 5000).1).
Proof.
  let b := eval vm_compute in (batch_by_source (walk_stale demo_wallet 5000).1) in
    replace (batch_by_source (walk_stale demo_wallet 5000).1) with b by (vm_compute; reflexivity).
  repeat match goal with |- Forall (responsive _) (_ :: _) => apply Forall_cons; split end; [..|constructor]; unfold responsive; cbn [fb_kind fb_items].
  - eexists _, [VString "2500"]. split; [done|]. split; [done|]. repeat constructor.
  - repeat constructor. intros s. eexists. split; reflexivity.
  - split; [done|]. eexists. split; [done|]. repeat constructor. intros s. unfold fetch_venue.
    destruct (state_market_symbol s _); eexists; split; reflexivity.
  - eexists. split; [done|]. repeat constructor. intros s. eexists. split; reflexivity.
  - repeat constructor. intros s. eexists. split; reflexivity.
Qed.

Lemma refresh_frame_witness :
  strip (refresh demo_orchestrator demo_wallet 5000).1 = strip demo_wallet /\ (length (walk_stale demo_wallet 5000).1 = 6)%nat.
Proof.
  destruct (refresh_frame demo_orchestrator demo_wallet 5000 demo_ids demo_ttls) as (Hs & _ & _).
  split; [exact Hs|vm_compute; reflexivity].
Defined.

Lemma refresh_settles_witness :
  rr_fields_updated (refresh demo_orchestrator demo_wallet 5000).2 = 5%nat /\
  Forall (fun f => user_supplied (sf_source f) = true) (walk_stale (refresh demo_orchestrator demo_wallet 5000).1 5000).1.
Proof.
  pose proof (refresh_settles demo_orchestrator demo_wallet 5000 demo_ids demo_ttls demo_responsive) as H.
  destruct (refresh demo_orchestrator demo_wallet 5000) as [s' r]. destruct H as (Ha & Hb & _).
  split; [cbn [snd]; rewrite Hb; vm_compute; reflexivity|exact Ha].
Defined.
End SyncRefresh.
