(* ===== verification/Bytes.v ===== *)
(** * Byte strings

    [Vec<u8>] and [&[u8]] as lists of bytes in [Z], with the big-endian
    conversions of alloy's integers and addresses. *)
From stdpp Require Import base tactics numbers list.
From S2P Require Import Prelude.

Notation bytes := (list Z) (only parsing).
Definition byte_ok (b : Z) : Prop := 0 <= b < 256.

(** [to_be_bytes::<n>()] and [from_be_slice]. *)
Fixpoint to_be (n : nat) (z : Z) : bytes :=
  match n with O => [] | S n' => to_be n' (z / 256) ++ [z mod 256] end.
Definition from_be (l : bytes) : Z := fold_left (fun acc b => acc * 256 + b) l 0.

(** The subslice [bytes[a..a+n]] of a slice long enough. *)
Definition slice (a n : nat) (l : bytes) : bytes := take n (drop a l).

Lemma to_be_length n z : length (to_be n z) = n.
Proof. revert z. induction n as [|n IH]; intros z; [done|]. simpl. rewrite length_app, IH. simpl. lia. Qed.
Lemma to_be_ok n z : Forall byte_ok (to_be n z).
Proof.
  revert z. induction n as [|n IH]; intros z; [constructor|]. simpl. apply Forall_app. split; [done|].
  constructor; [|constructor]. unfold byte_ok. apply Z.mod_pos_bound. lia.
Qed.
Lemma from_be_snoc l b : from_be (l ++ [b]) = from_be l * 256 + b.
Proof. unfold from_be. by rewrite fold_left_app. Qed.
Lemma from_to_be n z : 0 <= z < 256 ^ Z.of_nat n -> from_be (to_be n z) = z.
Proof.
  revert z. induction n as [|n IH]; intros z Hz; [change (256 ^ Z.of_nat 0) with 1 in Hz; simpl; unfold from_be; simpl; lia|].
  simpl. rewrite from_be_snoc, IH.
  - rewrite (Z.mul_comm (z / 256)). symmetry. apply Z.div_mod. lia.
  - rewrite Nat2Z.inj_succ, Z.pow_succ_r in Hz by lia. split; [apply Z.div_pos; lia|]. apply Z.div_lt_upper_bound; lia.
Qed.
Lemma to_from_be l : Forall byte_ok l -> to_be (length l) (from_be l) = l.
Proof.
  induction l as [|b l IH] using rev_ind; [done|]. rewrite Forall_app, Forall_singleton. intros [Hl Hb]. unfold byte_ok in Hb.
  rewrite length_app, Nat.add_comm, from_be_snoc. cbn [length Nat.add to_be].
  assert ((from_be l * 256 + b) / 256 = from_be l) as -> by (rewrite Z.add_comm, Z.div_add, Z.div_small by lia; lia).
  assert ((from_be l * 256 + b) mod 256 = b) as -> by (rewrite Z.add_comm, Z.mod_add, Z.mod_small by lia; lia).
  by rewrite IH.
Qed.
Lemma from_be_range l : Forall byte_ok l -> 0 <= from_be l < 256 ^ Z.of_nat (length l).
Proof.
  induction l as [|b l IH] using rev_ind; [done|]. rewrite Forall_app, Forall_singleton. intros [Hl Hb]. unfold byte_ok in Hb.
  specialize (IH Hl). rewrite length_app, from_be_snoc. simpl. rewrite Nat.add_1_r, Nat2Z.inj_succ, Z.pow_succ_r by lia. lia.
Qed.
(** Bit [k] of the integer is bit [k mod 8] of the byte [k / 8] from the right. *)
Lemma to_be_testbit n z k : (k < n)%nat -> 0 <= z ->
  to_be n z !! (n - 1 - k)%nat = Some ((z / 256 ^ Z.of_nat k) mod 256).
Proof.
  revert z k. induction n as [|n IH]; intros z k Hk Hz; [lia|]. simpl. destruct k as [|k].
  - rewrite lookup_app_r by (rewrite to_be_length; lia). rewrite to_be_length. replace (n - 0 - 0 - n)%nat with 0%nat by lia.
    change (256 ^ Z.of_nat 0) with 1. by rewrite Z.div_1_r.
  - rewrite lookup_app_l by (rewrite to_be_length; lia). replace (n - 0 - S k)%nat with (n - 1 - k)%nat by lia.
    rewrite IH by (lia || apply Z.div_pos; lia). rewrite Nat2Z.inj_succ, Z.pow_succ_r, Z.div_div by lia. done.
Qed.
