(* ===== verification/SyncPending.v ===== *)
(** * Pending entries under reconciliation (policy-server/sync/src/runtime/orchestrator.rs)

    Signed permits and venue orders share the [pending] list of a snapshot. Venue
    orders are synchronised from their fetchers; permits are retired when they
    expire or when the chain shows their nonce as used. The RPC router and the
    venue fetchers are not modelled: they are functions given to the operations. *)
From stdpp Require Import base tactics numbers list strings gmap.
From S2P Require Import Prelude Types Positions Wallet SyncLive Bytes.

Module SyncPending.

(** ** Venue orders *)

(** An [IntentFetcher]: [fetch_orders] for the swapper, and the id prefix its listing is
    authoritative for. *)
Record IntentFetcher := mkIntentFetcher {
  if_fetch_orders : Address -> Time -> result SyncError (list PendingTx);
  if_authoritative_prefix : option string;
}.
Record IntentOrdersReport := mkIntentOrdersReport {
  io_orders_updated : nat; io_orders_pruned : nat; io_errors : list SyncError }.

Definition is_terminal (s : PendingStatus) : bool :=
  match s with Filled | Cancelled | Expired | Failed => true | _ => false end.
Definition has_pending_id (id : string) (p : PendingTx) : bool := bool_decide (pt_id p = id).

(** Overwrite the first entry with the id of [o]; [None] when there is none. *)
Fixpoint replace_pending (o : PendingTx) (l : list PendingTx) : option (list PendingTx) :=
  match l with
  | [] => None
  | p :: l' => if has_pending_id (pt_id o) p then Some (o :: l') else (p ::.) <$> replace_pending o l'
  end.
Definition upsert_order (pending : list PendingTx) (o : PendingTx) : list PendingTx :=
  if is_terminal (lc_status (pt_lifecycle o)) then retain (fun p => negb (has_pending_id (pt_id o) p)) pending
  else match replace_pending o pending with Some pending' => pending' | None => pending ++ [o] end.
Definition upsert_intent_orders (state : WalletState) (orders : list PendingTx) : WalletState :=
  ws_set_pending state (fold_left upsert_order orders (ws_pending state)).

Definition starts_with (prefix s : string) : bool := String.prefix prefix s.
Definition apply_intent_orders (state : WalletState) (orders : list PendingTx) (authoritative_prefix : option string)
    : WalletState * nat :=
  let state := upsert_intent_orders state orders in
  match authoritative_prefix with
  | None => (state, 0%nat)
  | Some prefix =>
      let pending := retain (fun p => negb (starts_with prefix (pt_id p)) ||
                                      bool_decide (pt_id p ∈ pt_id <$> orders)) (ws_pending state) in
      (ws_set_pending state pending, (length (ws_pending state) - length pending)%nat)
  end.

Definition intent_step (swapper : Address) (now : Time) (st : WalletState * IntentOrdersReport) (f : IntentFetcher) :=
  let '(state, r) := st in
  match if_fetch_orders f swapper now with
  | Ok orders =>
      let '(state', pruned) := apply_intent_orders state orders (if_authoritative_prefix f) in
      (state', mkIntentOrdersReport (io_orders_updated r + length orders) (io_orders_pruned r + pruned) (io_errors r))
  | Err e => (state, mkIntentOrdersReport (io_orders_updated r) (io_orders_pruned r) (io_errors r ++ [e]))
  | Panic => st
  end.
Definition run_intent_sync (fetchers : list IntentFetcher) (state : WalletState) (swapper : Address) (now : Time)
    : WalletState * IntentOrdersReport :=
  fold_left (intent_step swapper now) fetchers (state, mkIntentOrdersReport 0 0 []).

(** ** The Hyperliquid account position *)
Definition HL_ACCOUNT_ID : string := "hyperliquid/account".

(** Replace the first position with the reserved id. *)
Fixpoint replace_position (pos : Position) (l : list Position) : list Position :=
  match l with
  | [] => []
  | p :: l' => if po_has_id (po_id pos) p then pos :: l' else p :: replace_position pos l'
  end.
Definition upsert_hyperliquid_account (state : WalletState) (account : HlAccount) (source : DataSource) (now : Time)
    : result SyncError WalletState :=
  let position := mkPosition HL_ACCOUNT_ID (ProtocolRef_new "hyperliquid") None (PkHyperliquidAccount account) now source in
  match find_first (po_has_id HL_ACCOUNT_ID) (ws_positions state) with
  | Some existing =>
      match po_kind existing with
      | PkHyperliquidAccount _ => Ok (ws_set_positions state (replace_position position (ws_positions state)))
      | _ => Err (FetchFailed "hyperliquid" "{HL_ACCOUNT_ID} exists but is not a HyperliquidAccount")
      end
  | None => Ok (ws_set_positions state (ws_positions state ++ [position]))
  end.
Definition upsert_hyperliquid_merge (state : WalletState) (f : HlAccount -> HlAccount) (now : Time) : WalletState :=
  match find_first (po_has_id HL_ACCOUNT_ID) (ws_positions state) with
  | Some pos =>
      match po_kind pos with
      | PkHyperliquidAccount acct =>
          let pos' := mkPosition (po_id pos) (po_protocol pos) (po_chain pos) (PkHyperliquidAccount (f acct)) now
                        (po_primitives_source pos) in
          ws_set_positions state (replace_position pos' (ws_positions state))
      | _ => state
      end
  | None =>
      ws_set_positions state (ws_positions state ++
        [mkPosition HL_ACCOUNT_ID (ProtocolRef_new "hyperliquid") None (PkHyperliquidAccount (f HlAccount_default)) now
           (VenueApi "https://api.hyperliquid.xyz/info" "hl_account" None)])
  end.

(** ** Permits *)

(** [RpcRouter::eth_call(chain, to, calldata)]; [None] when no router is configured. *)
Notation Router := (option (ChainId -> Address -> bytes -> result SyncError bytes)) (only parsing).

Definition PERMIT2_ADDRESS : Address := 0x000000000022d473030f116ddee9f6b43ac78ba3.
Definition NONCE_BITMAP_SELECTOR : bytes := [0x4f; 0xe0; 0x2b; 0x44].
Definition NONCES_SELECTOR : bytes := [0x7e; 0xce; 0xbe; 0x00].
Definition encode_nonce_bitmap (owner : Address) (word : U256) : bytes :=
  NONCE_BITMAP_SELECTOR ++ replicate 12 0 ++ to_be 20 owner ++ to_be 32 word.
Definition encode_nonces (owner : Address) : bytes := NONCES_SELECTOR ++ replicate 12 0 ++ to_be 20 owner.
Definition decode_u256_be (return_data : bytes) : option U256 :=
  if (length return_data <? 32)%nat then None else Some (from_be (take 32 return_data)).

Definition bitmap_bit_is_set (bitmap : U256) (bit : Z) : bool :=
  let bytes := to_be 32 bitmap in
  let byte_index := Z.to_nat (Z.max 0 (31 - bit / 8)) in
  let bit_index := bit mod 8 in
  negb (Z.land (default 0 (bytes !! byte_index)) (Z.shiftl 1 bit_index) =? 0).
Definition eip2612_nonce_is_consumed (onchain signed : U256) : bool := signed <? onchain.
Definition is_signed_permit_kind (k : PendingKind) : bool :=
  match k with SignedEIP2612 _ _ _ _ _ | SignedPermit2 _ _ _ _ _ | SignedPermit2Transfer _ _ _ _ _ _ _ => true | _ => false end.
Definition permit_is_expired (valid_until : option Time) (now : Time) : bool :=
  match valid_until with Some until => until <? now | None => false end.

Definition permit2_nonce_consumed (router : Router) (chain : ChainId) (owner : Address) (word : U256) (bit : Z)
    : result SyncError bool :=
  eth_call ← ok_or (FetchFailed "permit2_nonce_bitmap" "no RpcRouter configured") router;
  return_data ← eth_call chain PERMIT2_ADDRESS (encode_nonce_bitmap owner word);
  bitmap ← ok_or (FetchFailed "permit2_nonce_bitmap" "short nonceBitmap return ({} bytes)") (decode_u256_be return_data);
  Ok (bitmap_bit_is_set bitmap bit).
Definition eip2612_nonce_consumed (router : Router) (chain : ChainId) (token owner : Address) (signed_nonce : U256)
    : result SyncError bool :=
  eth_call ← ok_or (FetchFailed "eip2612_nonces" "no RpcRouter configured") router;
  return_data ← eth_call chain token (encode_nonces owner);
  onchain ← ok_or (FetchFailed "eip2612_nonces" "short nonces return ({} bytes)") (decode_u256_be return_data);
  Ok (eip2612_nonce_is_consumed onchain signed_nonce).

Record PermitReconcileReport := mkPermitReconcileReport { pr_permits_retired : nat; pr_errors : list (string * SyncError) }.

(** The decision for one entry: [None] when no nonce is read for it. *)
Definition permit_check (router : Router) (owner : Address) (pending : PendingTx) : option (result SyncError bool) :=
  match pt_kind pending with
  | SignedPermit2Transfer token _ _ _ _ (word, bit) _ =>
      Some (permit2_nonce_consumed router (key_chain (tr_key token)) owner word bit)
  | SignedEIP2612 token _ _ _ nonce =>
      match tr_key token with
      | Erc20 chain address => Some (eip2612_nonce_consumed router chain address owner nonce)
      | _ => None
      end
  | _ => None
  end.
Definition permit_step (router : Router) (owner : Address) (now : Time)
    (st : list string * PermitReconcileReport) (pending : PendingTx) : list string * PermitReconcileReport :=
  let '(to_prune, r) := st in
  let retire := (to_prune ++ [pt_id pending], mkPermitReconcileReport (S (pr_permits_retired r)) (pr_errors r)) in
  if negb (is_signed_permit_kind (pt_kind pending)) then st
  else if permit_is_expired (lc_valid_until (pt_lifecycle pending)) now then retire
  else match permit_check router owner pending with
       | Some (Ok true) => retire
       | Some (Err e) => (to_prune, mkPermitReconcileReport (pr_permits_retired r) (pr_errors r ++ [(pt_id pending, e)]))
       | _ => st
       end.
Definition reconcile_permits (router : Router) (state : WalletState) (now : Time) : WalletState * PermitReconcileReport :=
  let owner := wi_address (ws_wallet_id state) in
  let '(to_prune, r) := fold_left (permit_step router owner now) (ws_pending state) ([], mkPermitReconcileReport 0 []) in
  (match to_prune with
   | [] => state
   | _ => ws_set_pending state (retain (fun p => negb (bool_decide (pt_id p ∈ to_prune))) (ws_pending state))
   end, r).

(** ** Lemmas *)
Lemma retain_nodup {A B} (f : A -> B) (p : A -> bool) (l : list A) : NoDup (f <$> l) -> NoDup (f <$> retain p l).
Proof.
  induction l as [|x l IH]; [done|]. rewrite fmap_cons, NoDup_cons. intros [Hx Hl]. simpl. destruct (p x); [|by apply IH].
  rewrite fmap_cons, NoDup_cons. split; [|by apply IH]. intros (y & Hy & [Hin _]%retain_elem_of)%list_elem_of_fmap.
  apply Hx. rewrite Hy. by apply list_elem_of_fmap_2.
Qed.

Lemma replace_pending_ids o l l' : replace_pending o l = Some l' -> pt_id <$> l' = pt_id <$> l.
Proof.
  revert l'. induction l as [|p l IH]; intros l'; [done|]. simpl. unfold has_pending_id. case_bool_decide as Hp.
  - intros [= <-]. by rewrite !fmap_cons, Hp.
  - destruct (replace_pending o l) as [l1|]; [|done]. intros [= <-]. rewrite !fmap_cons. f_equal. by apply IH.
Qed.
Lemma replace_pending_None o l : replace_pending o l = None <-> pt_id o ∉ pt_id <$> l.
Proof.
  induction l as [|p l IH]; [split; [intros _; apply not_elem_of_nil|done]|]. rewrite fmap_cons, not_elem_of_cons. simpl.
  unfold has_pending_id. case_bool_decide as Hp; [naive_solver|]. rewrite <- IH. destruct (replace_pending o l); naive_solver.
Qed.
Lemma replace_pending_elem o l l' x : NoDup (pt_id <$> l) -> replace_pending o l = Some l' ->
  x ∈ l' <-> x = o \/ (x ∈ l /\ pt_id x <> pt_id o).
Proof.
  revert l'. induction l as [|p l IH]; intros l'; [done|]. rewrite fmap_cons, NoDup_cons. intros [Hn Hnd]. simpl.
  unfold has_pending_id. case_bool_decide as Hp.
  - intros [= <-]. rewrite !elem_of_cons. split; [|naive_solver]. intros [->|Hx]; [by left|]. right. split; [by right|].
    intros He. apply Hn. rewrite Hp, <- He. by apply list_elem_of_fmap_2.
  - destruct (replace_pending o l) as [l1|]; [|done]. intros [= <-]. rewrite !elem_of_cons, (IH l1) by done. naive_solver.
Qed.

Lemma upsert_order_nodup l o : NoDup (pt_id <$> l) -> NoDup (pt_id <$> upsert_order l o).
Proof.
  intros Hnd. unfold upsert_order. destruct (is_terminal _); [by apply retain_nodup|].
  destruct (replace_pending o l) as [l'|] eqn:Hr; [by rewrite (replace_pending_ids _ _ _ Hr)|].
  apply replace_pending_None in Hr. rewrite fmap_app. apply NoDup_app. split; [done|]. split; [|apply NoDup_singleton].
  intros x Hx ->%list_elem_of_singleton. done.
Qed.
Lemma upsert_order_elem l o x : NoDup (pt_id <$> l) ->
  x ∈ upsert_order l o <->
  (x = o /\ is_terminal (lc_status (pt_lifecycle o)) = false) \/ (x ∈ l /\ pt_id x <> pt_id o).
Proof.
  intros Hnd. unfold upsert_order. destruct (is_terminal _).
  - rewrite retain_elem_of. unfold has_pending_id. rewrite negb_true_iff, bool_decide_eq_false. naive_solver.
  - destruct (replace_pending o l) as [l'|] eqn:Hr; [rewrite (replace_pending_elem o l l') by done; naive_solver|].
    apply replace_pending_None in Hr. rewrite elem_of_app, list_elem_of_singleton. split; [|naive_solver].
    intros [Hx| ->]; [|by left]. right. split; [done|]. intros He. apply Hr. rewrite <- He. by apply list_elem_of_fmap_2.
Qed.
Lemma upsert_orders_spec orders l : NoDup (pt_id <$> l) -> NoDup (pt_id <$> orders) ->
  NoDup (pt_id <$> fold_left upsert_order orders l) /\
  forall x, x ∈ fold_left upsert_order orders l <->
    (x ∈ orders /\ is_terminal (lc_status (pt_lifecycle x)) = false) \/ (x ∈ l /\ pt_id x ∉ pt_id <$> orders).
Proof.
  intros Hl. revert l Hl. induction orders as [|o orders IH]; intros l Hl.
  { intros _. split; [done|]. intros x. simpl. rewrite !elem_of_nil. tauto. }
  rewrite fmap_cons, NoDup_cons. intros [Ho Hnd]. cbn [fold_left].
  destruct (IH (upsert_order l o) (upsert_order_nodup l o Hl) Hnd) as [H1 H2]. split; [done|]. intros x.
  rewrite H2, upsert_order_elem, elem_of_cons, not_elem_of_cons by done. split; [naive_solver|].
  intros [[[->|?] ?]|(? & ? & ?)]; [right; split; [by left|done]|by left|right; split; [by right|done]].
Qed.

(** An entry no order names is kept. *)
Lemma upsert_orders_keep orders l x : x ∈ l -> pt_id x ∉ pt_id <$> orders -> x ∈ fold_left upsert_order orders l.
Proof.
  revert l. induction orders as [|o orders IH]; intros l Hx; [done|]. rewrite fmap_cons, not_elem_of_cons. intros [Ho Hn].
  cbn [fold_left]. apply IH; [|done]. unfold upsert_order. destruct (is_terminal _).
  - apply retain_elem_of. split; [done|]. unfold has_pending_id. by rewrite bool_decide_eq_false_2.
  - destruct (replace_pending o l) as [l'|] eqn:Hr; [|rewrite elem_of_app; by left].
    revert l' Hr. clear IH. induction l as [|p l IH]; intros l'; [by apply elem_of_nil in Hx|]. simpl. unfold has_pending_id.
    apply elem_of_cons in Hx as [->|Hx]; case_bool_decide; try done.
    + destruct (replace_pending o l); [|done]. intros [= <-]. left.
    + intros [= <-]. by right.
    + destruct (replace_pending o l) as [l1|]; [|done]. intros [= <-]. right. by apply IH.
Qed.

(** *** Bits of big-endian words *)
Lemma land_shift_testbit a k : 0 <= k -> negb (Z.land a (Z.shiftl 1 k) =? 0) = Z.testbit a k.
Proof.
  intros Hk. rewrite Z.shiftl_1_l. destruct (Z.testbit a k) eqn:Ht.
  - apply negb_true_iff, Z.eqb_neq. intros H0. apply (f_equal (fun z => Z.testbit z k)) in H0.
    rewrite Z.land_spec, Ht, Z.pow2_bits_true, Z.bits_0 in H0 by done. done.
  - apply negb_false_iff, Z.eqb_eq. apply Z.bits_inj'. intros n Hn. rewrite Z.land_spec, Z.pow2_bits_eqb, Z.bits_0 by done.
    destruct (Z.eqb_spec k n) as [<-|]; [by rewrite Ht|apply andb_false_r].
Qed.
Lemma bitmap_testbit bitmap bit : 0 <= bitmap -> 0 <= bit < 256 -> bitmap_bit_is_set bitmap bit = Z.testbit bitmap bit.
Proof.
  intros Hm Hb. unfold bitmap_bit_is_set. rewrite land_shift_testbit by (apply Z.mod_pos_bound; lia).
  assert (0 <= bit / 8 < 32) as Hq by (split; [apply Z.div_pos; lia|apply Z.div_lt_upper_bound; lia]).
  replace (Z.to_nat (Z.max 0 (31 - bit / 8))) with (32 - 1 - Z.to_nat (bit / 8))%nat by lia.
  rewrite to_be_testbit by lia. simpl. rewrite Z2Nat.id by lia. change 256 with (2 ^ 8) at 2.
  pose proof (Z.mod_pos_bound bit 8 ltac:(lia)) as Hr. rewrite Z.mod_pow2_bits_low by lia.
  replace (256 ^ (bit / 8)) with (2 ^ (8 * (bit / 8))) by (rewrite Z.pow_mul_r by lia; done).
  rewrite Z.div_pow2_bits by lia. f_equal. pose proof (Z.div_mod bit 8 ltac:(lia)). lia.
Qed.

(** ** Specification of the permit rules *)
Section Permits.
Context (router : Router) (owner : Address) (now : Time).

(** The chain answered a read with the word [w]. *)
Definition word_read (chain : ChainId) (to : Address) (calldata : bytes) (w : U256) : Prop :=
  exists call data, router = Some call /\ call chain to calldata = Ok data /\ (32 <= length data)%nat /\ w = from_be (take 32 data).

(** The chain shows the nonce of a signed permit as used: the bit of an unordered nonce is
    set, or a sequential nonce has been passed. *)
Definition nonce_used (p : PendingTx) : Prop :=
  match pt_kind p with
  | SignedPermit2Transfer token _ _ _ _ (word, bit) _ =>
      exists w, word_read (key_chain (tr_key token)) PERMIT2_ADDRESS (encode_nonce_bitmap owner word) w /\ Z.testbit w bit = true
  | SignedEIP2612 token _ _ _ nonce =>
      exists chain address w, tr_key token = Erc20 chain address /\ word_read chain address (encode_nonces owner) w /\ nonce < w
  | _ => False
  end.
Definition permit_settled (p : PendingTx) : Prop :=
  is_signed_permit_kind (pt_kind p) = true /\
  ((exists until, lc_valid_until (pt_lifecycle p) = Some until /\ until < now) \/ nonce_used p).

Definition router_bytes : Prop :=
  forall call chain to calldata data, router = Some call -> call chain to calldata = Ok data -> Forall byte_ok data.
Definition nonce_bit_ok (p : PendingTx) : Prop :=
  match pt_kind p with SignedPermit2Transfer _ _ _ _ _ (_, bit) _ => 0 <= bit < 256 | _ => True end.

(** The decision the code takes. *)
Definition retires (p : PendingTx) : bool :=
  is_signed_permit_kind (pt_kind p) &&
  (permit_is_expired (lc_valid_until (pt_lifecycle p)) now ||
   match permit_check router owner p with Some (Ok b) => b | _ => false end).

Lemma decode_u256_Some data w : decode_u256_be data = Some w <-> (32 <= length data)%nat /\ w = from_be (take 32 data).
Proof. unfold decode_u256_be. destruct (Nat.ltb_spec (length data) 32); naive_solver lia. Qed.
Lemma read_Ok source_id r1 r2 chain to calldata (f : U256 -> bool) b :
  (call ← ok_or (FetchFailed source_id r1) router;
   data ← call chain to calldata;
   w ← ok_or (FetchFailed source_id r2) (decode_u256_be data); Ok (f w)) = Ok b <->
  exists w, word_read chain to calldata w /\ f w = b.
Proof.
  unfold word_read. destruct router as [call|]; simpl; [|split; [done|by intros (? & (? & ? & ? & _) & _)]].
  destruct (call chain to calldata) as [data| |] eqn:Hc; simpl;
    [|split; [done|intros (? & (? & ? & [= <-] & ? & _) & _); congruence]..].
  destruct (decode_u256_be data) as [w|] eqn:Hd; simpl.
  - apply decode_u256_Some in Hd as [Hl ->]. split.
    + intros [= <-]. exists (from_be (take 32 data)). split; [by exists call, data|done].
    + intros (w & (call' & data' & [= <-] & Hc' & _ & ->) & <-). congruence.
  - split; [done|]. intros (w & (call' & data' & [= <-] & Hc' & Hl & ->) & _). exfalso. assert (data' = data) as -> by congruence.
    assert (decode_u256_be data = Some (from_be (take 32 data))) as He by (by apply decode_u256_Some). congruence.
Qed.

Lemma retires_spec p : router_bytes -> nonce_bit_ok p -> retires p = true <-> permit_settled p.
Proof.
  intros Hbytes Hbit. unfold retires, permit_settled. rewrite andb_true_iff, orb_true_iff.
  assert (permit_is_expired (lc_valid_until (pt_lifecycle p)) now = true <->
    exists until, lc_valid_until (pt_lifecycle p) = Some until /\ until < now) as ->.
  { unfold permit_is_expired. destruct (lc_valid_until _) as [t|]; [rewrite Z.ltb_lt|]; naive_solver. }
  assert (match permit_check router owner p with Some (Ok b) => b | _ => false end = true <-> nonce_used p) as ->; [|done].
  transitivity (permit_check router owner p = Some (Ok true)); [destruct (permit_check router owner p) as [[[]| |]|]; naive_solver|].
  unfold permit_check, nonce_used, nonce_bit_ok in *. destruct (pt_kind p) as [| | |token o sp am ex [word bit] wt|token sp am ex nonce]; try done.
  - rewrite (inj_iff Some). unfold permit2_nonce_consumed. rewrite read_Ok. split; intros (w & Hw & Hb); exists w; (split; [done|]);
      rewrite bitmap_testbit in *; try done; destruct Hw as (call & data & Hr & Hc & Hl & ->); apply from_be_range;
      apply Forall_take; by eapply Hbytes.
  - destruct (tr_key token) as [c|c a|c a i|c a i]; try naive_solver. rewrite (inj_iff Some). unfold eip2612_nonce_consumed. rewrite read_Ok.
    unfold eip2612_nonce_is_consumed. setoid_rewrite Z.ltb_lt. naive_solver.
Qed.

Lemma permit_step_eq st p :
  exists errs, permit_step router owner now st p =
  if retires p then (st.1 ++ [pt_id p], mkPermitReconcileReport (S (pr_permits_retired st.2)) (pr_errors st.2))
  else (st.1, mkPermitReconcileReport (pr_permits_retired st.2) errs).
Proof.
  destruct st as [l r]. unfold permit_step, retires. destruct (is_signed_permit_kind _); simpl; [|exists (pr_errors r); by destruct r].
  destruct (permit_is_expired _ _); simpl; [by exists []|].
  destruct (permit_check router owner p) as [[[]|e|]|]; try (by exists []); try (exists (pr_errors r); by destruct r). by eexists.
Qed.
Lemma permit_fold l st :
  (fold_left (permit_step router owner now) l st).1 = st.1 ++ (pt_id <$> retain retires l) /\
  pr_permits_retired (fold_left (permit_step router owner now) l st).2 = (pr_permits_retired st.2 + length (retain retires l))%nat.
Proof.
  revert st. induction l as [|p l IH]; intros st; [simpl; rewrite app_nil_r; split; [done|lia]|]. cbn [fold_left].
  destruct (permit_step_eq st p) as [errs ->]. destruct (IH (if retires p
    then (st.1 ++ [pt_id p], mkPermitReconcileReport (S (pr_permits_retired st.2)) (pr_errors st.2))
    else (st.1, mkPermitReconcileReport (pr_permits_retired st.2) errs))) as [-> ->].
  simpl. destruct (retires p); simpl; [rewrite <- app_assoc; split; [done|lia]|done].
Qed.
End Permits.

Lemma nodup_id_eq (l : list PendingTx) p q : NoDup (pt_id <$> l) -> p ∈ l -> q ∈ l -> pt_id p = pt_id q -> p = q.
Proof.
  intros Hnd [i Hi]%list_elem_of_lookup_1 [j Hj]%list_elem_of_lookup_1 He.
  assert (i = j) as ->; [|congruence]. apply (NoDup_lookup (pt_id <$> l) i j (pt_id p)); [done|..];
    rewrite list_lookup_fmap; [by rewrite Hi|rewrite Hj; simpl; by rewrite He].
Qed.

(** ** Properties *)

(** Reconciling permits removes exactly the signed permits that are settled: past their
    deadline, or with a nonce the chain shows as used. Every other entry stays, venue orders
    and permits whose nonce could not be read among them, the report counts the removals, and
    the rest of the snapshot is unchanged. *)
Theorem reconcile_permits_exact router s now :
  NoDup (pt_id <$> ws_pending s) -> router_bytes router -> Forall nonce_bit_ok (ws_pending s) ->
  let '(s', r) := reconcile_permits router s now in
  s' = ws_set_pending s (ws_pending s') /\ sublist (ws_pending s') (ws_pending s) /\
  (forall p, p ∈ ws_pending s' <-> p ∈ ws_pending s /\ ~ permit_settled router (wi_address (ws_wallet_id s)) now p) /\
  (length (ws_pending s') + pr_permits_retired r)%nat = length (ws_pending s).
Proof.
  intros Hnd Hb Hbits. set (owner := wi_address (ws_wallet_id s)). unfold reconcile_permits. fold owner.
  destruct (permit_fold router owner now (ws_pending s) ([], mkPermitReconcileReport 0 [])) as [H1 H2].
  destruct (fold_left (permit_step router owner now) (ws_pending s) _) as [to_prune r]. simpl in H1, H2.
  assert (forall p, p ∈ ws_pending s -> negb (bool_decide (pt_id p ∈ to_prune)) = negb (retires router owner now p)) as Hp.
  { intros p Hp. f_equal. apply eq_bool_prop_intro. rewrite bool_decide_spec, H1, list_elem_of_fmap. split.
    - intros (q & He & [Hq Hr]%retain_elem_of). rewrite (nodup_id_eq (ws_pending s) p q) by done. by apply Is_true_true_2.
    - intros Hr%Is_true_true_1. exists p. by rewrite retain_elem_of. }
  assert (match to_prune with [] => s | _ => ws_set_pending s (retain (fun p => negb (bool_decide (pt_id p ∈ to_prune))) (ws_pending s)) end
    = ws_set_pending s (retain (fun p => negb (retires router owner now p)) (ws_pending s))) as ->.
  { assert (retain (fun p => negb (bool_decide (pt_id p ∈ to_prune))) (ws_pending s) = retain (fun p => negb (retires router owner now p)) (ws_pending s)) as <-.
    { clear -Hp. induction (ws_pending s) as [|p l IH]; [done|]. simpl. rewrite Hp by left. rewrite IH; [done|]. intros q Hq. apply Hp. by right. }
    destruct to_prune; [|done]. destruct s as [w t a po pe bh pv]. unfold ws_set_pending. simpl. f_equal. clear. induction pe as [|p l IH]; [done|].
    simpl. by f_equal. }
  simpl. split; [done|]. split; [|split].
  - clear. induction (ws_pending s) as [|p l IH]; [done|]. simpl. destruct (retires _ _ _ p); [by constructor|by constructor].
  - intros p. rewrite retain_elem_of, negb_true_iff. split; intros [Hin Hr]; (split; [done|]);
      rewrite Forall_forall in Hbits; pose proof (retires_spec router owner now p Hb (Hbits p Hin)) as Hs;
      destruct (retires router owner now p); naive_solver.
  - rewrite H2. clear. induction (ws_pending s) as [|p l IH]; [done|]. simpl. destruct (retires _ _ _ p); simpl in *; lia.
Qed.

(** Whether a successful listing under [prefix] speaks for an entry. *)
Definition under_prefix (prefix : option string) (p : PendingTx) : Prop :=
  match prefix with Some pre => starts_with pre (pt_id p) = true | None => False end.

Lemma apply_orders_pending s orders prefix p :
  p ∈ ws_pending (apply_intent_orders s orders prefix).1 <->
  p ∈ fold_left upsert_order orders (ws_pending s) /\ (under_prefix prefix p -> pt_id p ∈ pt_id <$> orders).
Proof.
  unfold apply_intent_orders, under_prefix. destruct prefix as [pre|]; simpl; [|tauto].
  rewrite retain_elem_of, orb_true_iff, negb_true_iff, bool_decide_eq_true. split; intros [Hin H]; (split; [done|]).
  - intros He. destruct H as [H|H]; [congruence|done].
  - destruct (starts_with pre (pt_id p)); [right; by apply H|by left].
Qed.

(** After a successful venue fetch the tracked entries are exactly the returned orders that
    are still open and the entries the fetch does not speak for: neither listed nor under the
    prefix the venue is authoritative for. Identifiers stay unique and nothing else changes. *)
Theorem apply_intent_orders_exact s orders prefix :
  NoDup (pt_id <$> ws_pending s) -> NoDup (pt_id <$> orders) ->
  let s' := (apply_intent_orders s orders prefix).1 in
  s' = ws_set_pending s (ws_pending s') /\ NoDup (pt_id <$> ws_pending s') /\
  forall p, p ∈ ws_pending s' <->
    (p ∈ orders /\ is_terminal (lc_status (pt_lifecycle p)) = false) \/
    (p ∈ ws_pending s /\ pt_id p ∉ pt_id <$> orders /\ ~ under_prefix prefix p).
Proof.
  intros Hs Ho s'. destruct (upsert_orders_spec orders (ws_pending s) Hs Ho) as [Hnd Hspec]. split; [|split].
  - unfold s', apply_intent_orders. by destruct prefix.
  - unfold s', apply_intent_orders. destruct prefix; simpl; [by apply retain_nodup|done].
  - intros p. unfold s'. rewrite apply_orders_pending, Hspec. split.
    + intros [[[Hin Ht]|[Hin Hn]] Hp]; [by left|right]. split; [done|]. split; [done|]. tauto.
    + intros [[Hin Ht]|(Hin & Hn & Hp)].
      * split; [by left|]. intros _. by apply list_elem_of_fmap_2.
      * split; [by right|]. tauto.
Qed.

(** No venue error drops a tracked entry: an entry survives an order sync unless some
    fetcher succeeded with a listing that names it or is authoritative for its prefix. *)
Theorem intent_sync_keeps fetchers s swapper now p :
  p ∈ ws_pending s ->
  Forall (fun f => forall orders, if_fetch_orders f swapper now = Ok orders ->
    pt_id p ∉ pt_id <$> orders /\ ~ under_prefix (if_authoritative_prefix f) p) fetchers ->
  p ∈ ws_pending (run_intent_sync fetchers s swapper now).1.
Proof.
  unfold run_intent_sync. generalize (mkIntentOrdersReport 0 0 []). intros r Hp Hf. revert s r Hp.
  induction Hf as [|f fetchers Hf _ IH]; intros s r Hp; [done|]. cbn [fold_left]. unfold intent_step at 2.
  destruct (if_fetch_orders f swapper now) as [orders|e|]; [|by apply IH..]. destruct (Hf orders eq_refl) as [Hn Hpre].
  pose proof (proj2 (apply_orders_pending s orders (if_authoritative_prefix f) p)) as Hk.
  destruct (apply_intent_orders s orders (if_authoritative_prefix f)) as [s' pruned]. apply IH, Hk.
  split; [by apply upsert_orders_keep|]. by intros ?%Hpre.
Qed.

(** ** Witnesses *)
Definition demo_pending (id : string) (k : PendingKind) (status : PendingStatus) (until : option Time) : PendingTx :=
  mkPendingTx id k NoCommitment StateDelta_default (mkPendingLifecycle status until None None None) UserSupplied 0 [].
Definition demo_token : TokenRef := mkTokenRef (Erc20 "eip155:1" 7).
Definition demo_order (id : string) (status : PendingStatus) : PendingTx :=
  demo_pending id (OffchainLimitOrder (VenueRef_new "cow") demo_token demo_token 1 1 OrderLimit) status None.
Definition demo_permits : list PendingTx :=
  [demo_order "cow:1" Active; demo_pending "p1" (SignedEIP2612 demo_token 3 5 900 4) Active (Some 900);
   demo_pending "p2" (SignedPermit2Transfer demo_token 1 3 5 9000 (0, 9) None) Active (Some 9000);
   demo_pending "p3" (SignedEIP2612 demo_token 3 5 9000 4) Active (Some 9000)].
Definition demo_pending_wallet : WalletState := ws_set_pending (WalletState_new (mkWalletId 1 ∅)) demo_permits.
(** A chain whose every word is 512: bit nine of the bitmap is set, the nonce counter is past four. *)
Definition demo_word : bytes := Eval vm_compute in to_be 32 512.
Definition demo_router : Router := Some (fun _ to _ => if to =? 7 then Err (FetchFailed "rpc" "timeout") else Ok demo_word).
Lemma demo_word_ok : Forall byte_ok demo_word.
Proof. unfold demo_word, byte_ok. repeat constructor; lia. Qed.

Lemma reconcile_permits_exact_witness :
  let s' := (reconcile_permits demo_router demo_pending_wallet 1000).1 in
  pt_id <$> ws_pending s' = ["cow:1"; "p3"] /\ sublist (ws_pending s') demo_permits.
Proof.
  assert (NoDup (pt_id <$> ws_pending demo_pending_wallet)) as Hn by decide_now.
  assert (router_bytes demo_router) as Hr.
  { intros call chain to calldata data [= <-]. destruct (to =? 7); [done|]. intros Hd. injection Hd as <-. exact demo_word_ok. }
  assert (Forall nonce_bit_ok (ws_pending demo_pending_wallet)) as Hb by (repeat constructor; simpl; lia).
  pose proof (reconcile_permits_exact demo_router demo_pending_wallet 1000 Hn Hr Hb) as H.
  split; [vm_compute; reflexivity|]. destruct (reconcile_permits demo_router demo_pending_wallet 1000) as [s' r]. apply H.
Defined.

Lemma apply_intent_orders_exact_witness :
  NoDup (pt_id <$> ws_pending (apply_intent_orders demo_pending_wallet [demo_order "cow:2" Active] (Some "cow:")).1) /\
  pt_id <$> ws_pending (apply_intent_orders demo_pending_wallet [demo_order "cow:2" Active] (Some "cow:")).1 = ["p1"; "p2"; "p3"; "cow:2"].
Proof.
  assert (NoDup (pt_id <$> ws_pending demo_pending_wallet)) as Hn by decide_now.
  assert (NoDup (pt_id <$> [demo_order "cow:2" Active])) as Ho by decide_now.
  destruct (apply_intent_orders_exact demo_pending_wallet [demo_order "cow:2" Active] (Some "cow:") Hn Ho) as (_ & Hd & _).
  split; [exact Hd|vm_compute; reflexivity].
Defined.

Lemma intent_sync_keeps_witness :
  demo_order "cow:1" Active ∈
  ws_pending (run_intent_sync [mkIntentFetcher (fun _ _ => Err (FetchFailed "cow" "503")) (Some "cow:")] demo_pending_wallet 1 1000).1.
Proof.
  apply (intent_sync_keeps _ demo_pending_wallet 1 1000 (demo_order "cow:1" Active)); [left|].
  constructor; [|constructor]. intros orders H. discriminate H.
Defined.
End SyncPending.
