(* ===== verification/PolicyEngine.v ===== *)
(** * The policy engine (policy-engine/src/policy: verdict.rs, engine.rs, builder.rs)

    A set of Cedar policies under an automatic baseline permit, evaluated per
    request into a three-valued verdict, and the deny-overrides combination of the
    verdicts of a transaction. Cedar itself is third-party code: its types and
    operations form the class [Cedar], and what its documentation says of parsing,
    policy sets and authorization is the class [CedarLaws]. *)
From stdpp Require Import base tactics numbers list strings gmap pretty.
From S2P Require Import Prelude Types SyncLive.
Import SyncLive.

Module PolicyEngine.

(** ** Verdicts (verdict.rs) *)
Inductive Severity := Deny | Warn.
#[global] Instance Severity_eq_dec : EqDecision Severity.
Proof. solve_decision. Defined.
Inductive PolicyRequestOrigin := OriginAction | OriginTx.
Record MatchedPolicy := mkMatchedPolicy {
  mp_policy_id : string; mp_reason : option string; mp_severity : Severity; mp_origin : PolicyRequestOrigin }.
Inductive Verdict := VPass | VWarn (matches : list MatchedPolicy) | VFail (matches : list MatchedPolicy).

Definition is_failure (v : Verdict) : bool := match v with VFail _ => true | _ => false end.
Definition matched (v : Verdict) : list MatchedPolicy := match v with VPass => [] | VWarn m | VFail m => m end.
Definition is_warn (m : MatchedPolicy) : bool := bool_decide (mp_severity m = Warn).
Definition has_warnings (v : Verdict) : bool := existsb is_warn (matched v).

(** The loop state of [Verdict::aggregate]: matches, any deny, any warn. *)
Definition aggregate_step (st : list MatchedPolicy * bool * bool) (v : Verdict) : list MatchedPolicy * bool * bool :=
  let '(m, any_deny, any_warn) := st in
  match v with
  | VPass => st
  | VWarn l => (m ++ l, any_deny, true)
  | VFail l => (m ++ l, true, any_warn || existsb is_warn l)
  end.
Definition aggregate (verdicts : list Verdict) : Verdict :=
  let '(m, any_deny, any_warn) := fold_left aggregate_step verdicts ([], false, false) in
  if any_deny then VFail m else if any_warn then VWarn m else VPass.

(** ** Cedar *)
Inductive CedarDecision := Allow | CedarDeny.
Record Response := mkResponse { rs_decision : CedarDecision; rs_reason : list string; rs_errors : list string }.

Record ValidationResult := mkValidationResult { vr_passed : bool; vr_errors : list string }.

Class Cedar := {
  Policy : Type; PolicySet : Type; Schema : Type;
  EntityUid : Type; Entities : Type; Context_ : Type; Request : Type;
  pol_id : Policy -> string;
  pol_annotation : Policy -> string -> option string;
  pol_new_id : string -> Policy -> Policy;
  ps_new : PolicySet;
  ps_add : PolicySet -> Policy -> result string PolicySet;
  ps_policies : PolicySet -> list Policy;
  ps_from_str : string -> result string PolicySet;
  schema_from_str : string -> result string Schema;
  validate : PolicySet -> Schema -> ValidationResult;
  uid_parse : string -> result string EntityUid;
  entities_from_json : Value -> option Schema -> result string Entities;
  context_from_json : Value -> option (Schema * EntityUid) -> result string Context_;
  request_new : EntityUid -> EntityUid -> EntityUid -> Context_ -> option Schema -> result string Request;
  is_authorized : Request -> PolicySet -> Entities -> Response;
}.

Definition map_err {E F A} (f : E -> F) (r : result E A) : result F A :=
  match r with Ok a => Ok a | Err e => Err (f e) | Panic => Panic end.

Inductive PolicyError :=
| EParse (m : string) | ESchema (m : string) | EValidation (m : string) | ERequest (m : string)
| EContext (m : string) | EEntities (m : string) | EEntityUid (m : string) | ELowering (m : string).

Definition newline : string := String (Ascii.ascii_of_nat 10) "".
Definition quote : string := String (Ascii.ascii_of_nat 34) "".
Definition BASELINE_PERMIT : string :=
  ("@id(" +:+ quote +:+ "engine/baseline-allow" +:+ quote +:+ ")" +:+ newline +:+
   "permit(principal, action, resource);" +:+ newline)%string.
Definition BASELINE_ID : string := "engine/baseline-allow".
Definition SCHEMALESS_EVAL_ERROR_ID : string := "__schemaless_eval_error__".

Section Engine.
Context {C0 : Cedar}.
(** The order in which a [HashSet] of policy ids is walked. *)
Context (iter : gset string -> list string).

Record PolicyEngine := mkPolicyEngine {
  en_policy_set : PolicySet; en_schema : option Schema;
  en_severities : gmap string Severity; en_reasons : gmap string string }.

Definition validation_errors_message (r : ValidationResult) : string :=
  match vr_errors r with [] => "unknown validation error" | messages => String.concat "; " messages end.
Definition validate_policy_set (ps : PolicySet) (schema : Schema) : result PolicyError () :=
  let r := validate ps schema in
  if vr_passed r then Ok () else Err (EValidation (validation_errors_message r)).

Definition parse_severity (s : string) : option Severity :=
  if String.eqb s "deny" then Some Deny else if String.eqb s "warn" then Some Warn else None.

(** [ingest_policy] over the set and the two annotation tables. *)
Definition ingest_policy (st : PolicySet * gmap string Severity * gmap string string) (p : Policy)
    : result PolicyError (PolicySet * gmap string Severity * gmap string string) :=
  let '(ps, sevs, rsns) := st in
  let user_id := default (pol_id p) (pol_annotation p "id") in
  let new_policy := pol_new_id user_id p in
  sevs ← match pol_annotation p "severity" with
         | Some s =>
             match parse_severity s with
             | Some sev => Ok (<[user_id := sev]> sevs)
             | None => Err (EParse "policy {user_id_str}: unknown @severity({other:?}); expected deny or warn")
             end
         | None => Ok sevs
         end;
  let rsns := match pol_annotation p "reason" with Some r => <[user_id := r]> rsns | None => rsns end in
  ps ← map_err EParse (ps_add ps new_policy);
  Ok (ps, sevs, rsns).
Definition ingest_all (initial : PolicySet) : result PolicyError (PolicySet * gmap string Severity * gmap string string) :=
  foldM ingest_policy (ps_policies initial) (ps_new, ∅, ∅).

Definition build_from (text_combined : string) (schema : Schema) : result PolicyError PolicyEngine :=
  initial ← map_err EParse (ps_from_str text_combined);
  st ← ingest_all initial;
  let '(ps, sevs, rsns) := st in
  _ ← validate_policy_set ps schema;
  Ok (mkPolicyEngine ps (Some schema) sevs rsns).

(** The messages of the two parse errors carry the bundle's index. *)
Definition at_bundle (index : nat) (e : string) : string := ("bundle #" +:+ pretty.pretty index +:+ ": " +:+ e)%string.
Definition validate_bundle (index : nat) (bundle : string * string) : result PolicyError () :=
  schema ← map_err (fun e => ESchema (at_bundle index e)) (schema_from_str bundle.2);
  pset ← map_err (fun e => EParse (at_bundle index e)) (ps_from_str bundle.1);
  validate_policy_set pset schema.
Definition build_from_per_policy (bundles : list (string * string)) : result PolicyError PolicyEngine :=
  _ ← foldM (fun index b => _ ← validate_bundle index b; Ok (S index)) bundles 0%nat;
  let combined := fold_left (fun acc b => acc +:+ b.1 +:+ newline)%string bundles BASELINE_PERMIT in
  initial ← map_err EParse (ps_from_str combined);
  st ← ingest_all initial;
  let '(ps, sevs, rsns) := st in
  Ok (mkPolicyEngine ps None sevs rsns).

(** The matches of a response: annotated determining policies, the baseline apart. *)
Definition matched_policy (e : PolicyEngine) (pid : string) : option MatchedPolicy :=
  if String.eqb pid BASELINE_ID then None
  else sev ← en_severities e !! pid; Some (mkMatchedPolicy pid (en_reasons e !! pid) sev OriginAction).
Definition verdict_of (e : PolicyEngine) (response : Response) : Verdict :=
  match en_schema e, rs_errors response with
  | None, err :: _ =>
      VFail [mkMatchedPolicy SCHEMALESS_EVAL_ERROR_ID (Some ("schema-less evaluation error: " +:+ err)%string) Deny OriginAction]
  | _, _ =>
      let m := omap (matched_policy e) (iter (list_to_set (rs_reason response))) in
      let any_deny := existsb (fun x => bool_decide (mp_severity x = Deny)) m in
      match rs_decision response with
      | Allow => VPass
      | CedarDeny => if any_deny then VFail m else match m with [] => VFail [] | _ => VWarn m end
      end
  end.

(** Cedar's inputs for one request, built in the order the code builds them. *)
Definition prepare (e : PolicyEngine) (principal action resource : string) (entities_json context_json : Value)
    : result PolicyError (Request * Entities) :=
  p ← map_err EEntityUid (uid_parse principal);
  a ← map_err EEntityUid (uid_parse action);
  r ← map_err EEntityUid (uid_parse resource);
  entities ← map_err EEntities (entities_from_json entities_json (en_schema e));
  context ← map_err EContext (context_from_json context_json ((fun s => (s, a)) <$> en_schema e));
  request ← map_err ERequest (request_new p a r context (en_schema e));
  Ok (request, entities).
Definition evaluate (e : PolicyEngine) (principal action resource : string) (entities_json context_json : Value)
    : result PolicyError Verdict :=
  re ← prepare e principal action resource entities_json context_json;
  Ok (verdict_of e (is_authorized re.1 (en_policy_set e) re.2)).

Record PolicyRequest := mkPolicyRequest {
  pq_principal : string; pq_action : string; pq_resource : string; pq_entities : Value; pq_context : Value }.

Definition set_origin (o : PolicyRequestOrigin) (m : MatchedPolicy) : MatchedPolicy :=
  mkMatchedPolicy (mp_policy_id m) (mp_reason m) (mp_severity m) o.
Definition evaluate_request_with_origin (e : PolicyEngine) (req : PolicyRequest) (o : PolicyRequestOrigin)
    : result PolicyError Verdict :=
  verdict ← evaluate e (pq_principal req) (pq_action req) (pq_resource req) (pq_entities req) (pq_context req);
  Ok match verdict with
     | VPass => VPass
     | VWarn m => VWarn (set_origin o <$> m)
     | VFail m => VFail (set_origin o <$> m)
     end.
Fixpoint evaluate_each (e : PolicyEngine) (reqs : list (PolicyRequest * PolicyRequestOrigin))
    : result PolicyError (list Verdict) :=
  match reqs with
  | [] => Ok []
  | (req, o) :: rest =>
      v ← evaluate_request_with_origin e req o; vs ← evaluate_each e rest; Ok (v :: vs)
  end.
Definition evaluate_request (e : PolicyEngine) (req : PolicyRequest) : result PolicyError Verdict :=
  evaluate_request_with_origin e req OriginAction.
Definition evaluate_requests (e : PolicyEngine) (reqs : list (PolicyRequest * PolicyRequestOrigin))
    : result PolicyError Verdict :=
  vs ← evaluate_each e reqs; Ok (aggregate vs).

(** [PolicyEngineBuilder]: the sources it collects, and [build]. *)
Record PolicyEngineBuilder := mkPolicyEngineBuilder { pb_text_sources : list string; pb_schema_sources : list string }.
Definition with_schema_text (schema_text : string) : PolicyEngineBuilder := mkPolicyEngineBuilder [] [schema_text].
Definition add_text (b : PolicyEngineBuilder) (src : string) : PolicyEngineBuilder :=
  mkPolicyEngineBuilder (pb_text_sources b ++ [src]) (pb_schema_sources b).
Definition add_schema_text (b : PolicyEngineBuilder) (src : string) : PolicyEngineBuilder :=
  mkPolicyEngineBuilder (pb_text_sources b) (pb_schema_sources b ++ [src]).
Definition build (b : PolicyEngineBuilder) : result PolicyError PolicyEngine :=
  let combined_schema := fold_left (fun acc src => acc +:+ src +:+ newline)%string (pb_schema_sources b) ""%string in
  schema ← map_err ESchema (schema_from_str combined_schema);
  let combined := fold_left (fun acc src => acc +:+ src +:+ newline)%string (pb_text_sources b) BASELINE_PERMIT in
  build_from combined schema.
End Engine.

(** ** What Cedar documents *)
Class CedarLaws (C : Cedar) := {
  (** The outcome of one policy on a request: satisfied, not, or an evaluation error. *)
  pol_eval : Policy -> Request -> Entities -> option bool;
  pol_is_forbid : Policy -> bool;
  ps_new_empty : ps_policies ps_new = [];
  ps_add_spec : forall ps p,
    match ps_add ps p with
    | Ok ps' => pol_id p ∉ pol_id <$> ps_policies ps /\ ps_policies ps' ≡ₚ p :: ps_policies ps
    | Err _ => pol_id p ∈ pol_id <$> ps_policies ps
    | Panic => False
    end;
  pol_new_id_spec : forall i p, pol_id (pol_new_id i p) = i /\ pol_annotation (pol_new_id i p) = pol_annotation p /\
    pol_eval (pol_new_id i p) = pol_eval p /\ pol_is_forbid (pol_new_id i p) = pol_is_forbid p;
  (** A text that starts with the baseline permit parses to a set that holds it. *)
  baseline_parses : forall rest ps, ps_from_str (BASELINE_PERMIT +:+ rest)%string = Ok ps ->
    exists p, p ∈ ps_policies ps /\ pol_annotation p "id" = Some BASELINE_ID /\ pol_is_forbid p = false /\
      forall rq es, pol_eval p rq es = Some true;
  (** Deny unless some permit and no forbid is satisfied; the reasons are the satisfied
      policies of the deciding effect; errors are those of the policies. *)
  authorize_decision : forall rq ps es,
    rs_decision (is_authorized rq ps es) = Allow <->
    (exists p, p ∈ ps_policies ps /\ pol_is_forbid p = false /\ pol_eval p rq es = Some true) /\
    ~ (exists p, p ∈ ps_policies ps /\ pol_is_forbid p = true /\ pol_eval p rq es = Some true);
  authorize_reason : forall rq ps es id, rs_decision (is_authorized rq ps es) = CedarDeny ->
    id ∈ rs_reason (is_authorized rq ps es) <->
    exists p, p ∈ ps_policies ps /\ pol_is_forbid p = true /\ pol_eval p rq es = Some true /\ pol_id p = id;
  authorize_errors : forall rq ps es,
    rs_errors (is_authorized rq ps es) = [] <-> forall p, p ∈ ps_policies ps -> pol_eval p rq es <> None;
}.

(** ** Aggregation *)
Definition warns (v : Verdict) : bool := match v with VPass => false | VWarn _ => true | VFail l => existsb is_warn l end.
Definition passes (v : Verdict) : bool := match v with VPass => true | _ => false end.
Lemma aggregate_fold vs m d w :
  fold_left aggregate_step vs (m, d, w) = (m ++ concat (matched <$> vs), d || existsb is_failure vs, w || existsb warns vs).
Proof.
  revert m d w. induction vs as [|v vs IH]; intros m d w; simpl; [by rewrite app_nil_r, !orb_false_r|].
  destruct v as [|l|l]; rewrite IH; simpl; rewrite ?orb_assoc, <- ?app_assoc, ?orb_true_r, ?orb_false_r; done.
Qed.
Lemma warns_passes vs : existsb is_failure vs = false -> existsb warns vs = negb (forallb passes vs).
Proof. induction vs as [|[|l|l] vs IH]; simpl; try done. Qed.
Lemma aggregate_eq vs :
  aggregate vs =
  if existsb is_failure vs then VFail (concat (matched <$> vs))
  else if forallb passes vs then VPass else VWarn (concat (matched <$> vs)).
Proof.
  unfold aggregate. rewrite aggregate_fold. simpl. destruct (existsb is_failure vs) eqn:Hf; [done|].
  rewrite (warns_passes vs Hf). by destruct (forallb passes vs).
Qed.
Lemma passes_matched vs : forallb passes vs = true -> concat (matched <$> vs) = [].
Proof. induction vs as [|[|l|l] vs IH]; simpl; done. Qed.
Lemma aggregate_failure vs : is_failure (aggregate vs) = existsb is_failure vs.
Proof. rewrite aggregate_eq. destruct (existsb _ vs); [done|]. by destruct (forallb _ vs). Qed.
Lemma failing_not_passing vs : existsb is_failure vs = true -> forallb passes vs = false.
Proof. induction vs as [|[|l|l] vs IH]; simpl; done. Qed.
Lemma aggregate_passes vs : passes (aggregate vs) = forallb passes vs.
Proof.
  rewrite aggregate_eq. destruct (existsb is_failure vs) eqn:Hf; [by rewrite failing_not_passing|]. by destruct (forallb _ vs).
Qed.
Lemma aggregate_matched vs : matched (aggregate vs) = concat (matched <$> vs).
Proof.
  rewrite aggregate_eq. destruct (existsb _ vs); [done|]. destruct (forallb _ vs) eqn:Hp; [by rewrite passes_matched|done].
Qed.

Section Facts.
Context {C0 : Cedar} {L0 : CedarLaws C0} (iter : gset string -> list string) (Hiter : forall s, iter s ≡ₚ elements s).

Definition severity_of (p : Policy) : option Severity := pol_annotation p "severity" ≫= parse_severity.

(** The policies of the set have distinct ids, and the tables hold their annotations. *)
Record tables_ok (st : PolicySet * gmap string Severity * gmap string string) : Prop := {
  tb_nodup : NoDup (pol_id <$> ps_policies st.1.1);
  tb_severity : forall p, p ∈ ps_policies st.1.1 -> st.1.2 !! pol_id p = severity_of p;
  tb_reason : forall p, p ∈ ps_policies st.1.1 -> st.2 !! pol_id p = pol_annotation p "reason";
  tb_dom : forall id, id ∉ pol_id <$> ps_policies st.1.1 -> st.1.2 !! id = None /\ st.2 !! id = None;
}.

Lemma ingest_tables st p st' : tables_ok st -> ingest_policy st p = Ok st' ->
  tables_ok st' /\ ps_policies st'.1.1 ≡ₚ pol_new_id (default (pol_id p) (pol_annotation p "id")) p :: ps_policies st.1.1.
Proof.
  destruct st as [[ps sevs] rsns]. intros [Hnd Hs Hr Hd]. simpl in *. unfold ingest_policy.
  set (uid := default (pol_id p) (pol_annotation p "id")). set (q := pol_new_id uid p).
  destruct (pol_new_id_spec uid p) as (Hid & Hann & _ & _). fold q in Hid, Hann. intros H.
  apply bind_Ok_inv in H as (sevs' & Hsev & H). apply bind_Ok_inv in H as (ps' & Hadd & H). injection H as <-.
  pose proof (ps_add_spec ps q) as Ha. destruct (ps_add ps q) as [ps1|e|]; simpl in Hadd; [injection Hadd as <-|done..].
  rewrite Hid in Ha. destruct Ha as [Hfresh Hperm]. destruct (Hd uid Hfresh) as [Hs0 Hr0].
  assert (forall id, sevs' !! id = if decide (id = uid) then severity_of q else sevs !! id) as Hsevs.
  { intros id. unfold severity_of. rewrite Hann. destruct (pol_annotation p "severity") as [s|]; simpl.
    - destruct (parse_severity s); [|done]. injection Hsev as <-. case_decide as Hi; [subst id; apply lookup_insert_eq|by apply lookup_insert_ne].
    - injection Hsev as <-. case_decide as Hi; [by subst id|done]. }
  set (rsns' := match pol_annotation p "reason" with Some r => _ | None => _ end).
  assert (forall id, rsns' !! id = if decide (id = uid) then pol_annotation q "reason" else rsns !! id) as Hrs.
  { intros id. unfold rsns'. rewrite Hann. destruct (pol_annotation p "reason") as [r|].
    - case_decide as Hi; [subst id; apply lookup_insert_eq|by apply lookup_insert_ne].
    - case_decide as Hi; [by subst id|done]. }
  assert (forall x, x ∈ ps_policies ps -> pol_id x <> uid) as Hne by (intros x Hx He; apply Hfresh; rewrite <- He; by apply list_elem_of_fmap_2).
  split; [split; simpl|done].
  - rewrite Hperm, fmap_cons, Hid. by apply NoDup_cons.
  - intros x. rewrite Hperm, elem_of_cons, Hsevs. intros [->|Hx]; [by rewrite decide_True|]. rewrite decide_False by (by apply Hne). by apply Hs.
  - intros x. rewrite Hperm, elem_of_cons, Hrs. intros [->|Hx]; [by rewrite decide_True|]. rewrite decide_False by (by apply Hne). by apply Hr.
  - intros id. rewrite Hperm, fmap_cons, not_elem_of_cons, Hid, Hsevs, Hrs. intros [Hi Hin]. rewrite !decide_False by done. by apply Hd.
Qed.
Lemma ingest_fold l st st' : tables_ok st -> foldM ingest_policy l st = Ok st' ->
  tables_ok st' /\ (forall p, p ∈ ps_policies st.1.1 -> p ∈ ps_policies st'.1.1) /\
  (forall p, p ∈ l -> pol_new_id (default (pol_id p) (pol_annotation p "id")) p ∈ ps_policies st'.1.1).
Proof.
  revert st. induction l as [|p l IH]; intros st Hok; simpl.
  { intros [= <-]. split; [done|]. split; [done|]. by intros p ?%elem_of_nil. }
  intros (st1 & H1 & H2)%bind_Ok_inv. destruct (ingest_tables st p st1 Hok H1) as [Hok1 Hperm].
  destruct (IH st1 Hok1 H2) as (Hok' & Hmono & Hl). split; [done|]. split.
  - intros q Hq. apply Hmono. rewrite Hperm. by right.
  - intros q [->|Hq]%elem_of_cons; [|by apply Hl]. apply Hmono. rewrite Hperm. left.
Qed.

(** What a built engine knows of its policies. *)
Record built (e : PolicyEngine) : Prop := {
  bu_tables : tables_ok (en_policy_set e, en_severities e, en_reasons e);
  bu_baseline : exists p, p ∈ ps_policies (en_policy_set e) /\ pol_id p = BASELINE_ID /\ pol_is_forbid p = false /\
    forall rq es, pol_eval p rq es = Some true;
}.
Lemma ingest_all_built initial ps sevs rsns schema : ingest_all initial = Ok (ps, sevs, rsns) ->
  (exists p, p ∈ ps_policies initial /\ pol_annotation p "id" = Some BASELINE_ID /\ pol_is_forbid p = false /\
     forall rq es, pol_eval p rq es = Some true) ->
  built (mkPolicyEngine ps schema sevs rsns).
Proof.
  intros H (p & Hp & Hid & Hf & He). destruct (ingest_fold _ (ps_new, ∅, ∅) _ ltac:(split; simpl; rewrite ?ps_new_empty; try done;
    [constructor|by intros q ?%elem_of_nil..]) H) as (Hok & _ & Hl).
  split; [exact Hok|]. exists (pol_new_id BASELINE_ID p). specialize (Hl p Hp). rewrite Hid in Hl. simpl in Hl. split; [exact Hl|].
  destruct (pol_new_id_spec BASELINE_ID p) as (-> & _ & -> & ->). done.
Qed.

(** ** Requests against a built engine *)
Definition fires (e : PolicyEngine) (re : Request * Entities) (p : Policy) : Prop :=
  p ∈ ps_policies (en_policy_set e) /\ pol_is_forbid p = true /\ pol_eval p re.1 re.2 = Some true.
Definition errs (e : PolicyEngine) (re : Request * Entities) : Prop :=
  exists p, p ∈ ps_policies (en_policy_set e) /\ pol_eval p re.1 re.2 = None.
(** The requests the engine must refuse: an evaluation error, a satisfied [forbid] of
    severity deny, or satisfied [forbid]s none of which has a severity. *)
Definition blocked (e : PolicyEngine) (re : Request * Entities) : Prop :=
  errs e re \/ (exists p, fires e re p /\ severity_of p = Some Deny) \/
  ((exists p, fires e re p) /\ forall p, fires e re p -> severity_of p = None).
Definition quiet (e : PolicyEngine) (re : Request * Entities) : Prop := ~ errs e re /\ forall p, ~ fires e re p.
(** What the engine reports of a satisfied, annotated [forbid]. *)
Definition match_of (p : Policy) (sev : Severity) : MatchedPolicy :=
  mkMatchedPolicy (pol_id p) (pol_annotation p "reason") sev OriginAction.

Lemma append_cons x (a b : string) : (String x a +:+ b = String x (a +:+ b))%string.
Proof. reflexivity. Qed.
Lemma append_assoc (a b c : string) : ((a +:+ b) +:+ c = a +:+ (b +:+ c))%string.
Proof. induction a as [|x a IH]; [done|]. by rewrite !append_cons, IH. Qed.
Lemma combined_baseline {A} (f : A -> string) l acc : exists rest,
  fold_left (fun a b => a +:+ f b +:+ newline)%string l acc = (acc +:+ rest)%string.
Proof.
  revert acc. induction l as [|x l IH]; intros acc; simpl.
  { exists ""%string. induction acc as [|c acc IHa]; [done|]. by rewrite append_cons, <- IHa. }
  destruct (IH (acc +:+ f x +:+ newline)%string) as [rest ->]. exists ((f x +:+ newline) +:+ rest)%string. by rewrite append_assoc.
Qed.
Lemma map_err_Ok {E F A} (f : E -> F) (r : result E A) a : map_err f r = Ok a -> r = Ok a.
Proof. by destruct r; simpl; intros [= <-]. Qed.
Lemma per_policy_built bundles e : build_from_per_policy bundles = Ok e -> built e /\ en_schema e = None.
Proof.
  unfold build_from_per_policy. intros (n & _ & H)%bind_Ok_inv.
  destruct (combined_baseline fst bundles BASELINE_PERMIT) as [rest Hc]. rewrite Hc in H.
  apply bind_Ok_inv in H as (initial & Hp & H). apply map_err_Ok in Hp.
  apply bind_Ok_inv in H as ([[ps sevs] rsns] & Hi & H). injection H as <-.
  split; [|done]. by eapply ingest_all_built, baseline_parses.
Qed.

Section Built.
Context (e : PolicyEngine) (Hb : built e) (re : Request * Entities).
Let response := is_authorized re.1 (en_policy_set e) re.2.

Lemma nodup_ids {A B} (f : A -> B) (l : list A) x y : NoDup (f <$> l) -> x ∈ l -> y ∈ l -> f x = f y -> x = y.
Proof.
  induction l as [|z l IH]; intros Hn; [by intros ?%elem_of_nil|]. rewrite fmap_cons in Hn. apply NoDup_cons in Hn as [Hz Hn].
  rewrite !elem_of_cons. intros [->|Hx] [->|Hy] He; [done| | |by apply IH].
  - exfalso. apply Hz. rewrite He. by apply list_elem_of_fmap_2.
  - exfalso. apply Hz. rewrite <- He. by apply list_elem_of_fmap_2.
Qed.
Lemma fires_not_baseline p : fires e re p -> pol_id p <> BASELINE_ID.
Proof.
  intros (Hin & Hf & _) Hid. destruct (bu_baseline e Hb) as (q & Hq & Hqi & Hqf & _).
  assert (p = q) as ->; [|congruence]. eapply nodup_ids; [apply (tb_nodup _ (bu_tables e Hb))|done|done|congruence].
Qed.
Lemma decision_allow : rs_decision response = Allow <-> forall p, ~ fires e re p.
Proof.
  unfold response. rewrite authorize_decision. split.
  - intros [_ Hn] p (Hin & Hf & He). apply Hn. by exists p.
  - intros Hn. split; [destruct (bu_baseline e Hb) as (q & Hq & _ & Hf & He); by exists q|].
    intros (p & Hin & Hf & He). by apply (Hn p).
Qed.
Lemma matched_policy_fires p : fires e re p -> matched_policy e (pol_id p) = match_of p <$> severity_of p.
Proof.
  intros Hf. unfold matched_policy, match_of. destruct (String.eqb_spec (pol_id p) BASELINE_ID) as [He|_]; [by apply fires_not_baseline in He|].
  destruct Hf as (Hin & _ & _). pose proof (tb_severity _ (bu_tables e Hb) p Hin) as Hs. pose proof (tb_reason _ (bu_tables e Hb) p Hin) as Hr.
  simpl in Hs, Hr. rewrite Hs, Hr. by destruct (severity_of p).
Qed.
Lemma matched_policies m : rs_decision response = CedarDeny ->
  m ∈ omap (matched_policy e) (iter (list_to_set (rs_reason response))) <->
  exists p sev, fires e re p /\ severity_of p = Some sev /\ m = match_of p sev.
Proof.
  intros Hd. rewrite list_elem_of_omap. setoid_rewrite Hiter. setoid_rewrite elem_of_elements. setoid_rewrite elem_of_list_to_set.
  unfold response in *. split.
  - intros (pid & Hin & Hm). apply authorize_reason in Hin as (p & Hp & Hf & He & Hpid); [|done]. subst pid.
    assert (fires e re p) as Hfi by done. rewrite matched_policy_fires in Hm by done.
    destruct (severity_of p) as [sev|] eqn:Hs; [|done]. injection Hm as <-. by exists p, sev.
  - intros (p & sev & Hfi & Hs & ->). exists (pol_id p). split; [|by rewrite matched_policy_fires, Hs].
    apply authorize_reason; [done|]. destruct Hfi as (? & ? & ?). by exists p.
Qed.
End Built.

(** The schema-less verdict, branch by branch. *)
Lemma verdict_error e re : errs e re -> en_schema e = None ->
  exists reason, verdict_of iter e (is_authorized re.1 (en_policy_set e) re.2) =
    VFail [mkMatchedPolicy SCHEMALESS_EVAL_ERROR_ID (Some reason) Deny OriginAction].
Proof.
  intros (p & Hp & He) Hs. unfold verdict_of. rewrite Hs.
  destruct (rs_errors _) as [|err l] eqn:Herr; [|by eexists]. exfalso. by apply (proj1 (authorize_errors _ _ _) Herr p).
Qed.
Lemma verdict_plain e re : ~ errs e re ->
  verdict_of iter e (is_authorized re.1 (en_policy_set e) re.2) =
  let m := omap (matched_policy e) (iter (list_to_set (rs_reason (is_authorized re.1 (en_policy_set e) re.2)))) in
  match rs_decision (is_authorized re.1 (en_policy_set e) re.2) with
  | Allow => VPass
  | CedarDeny => if existsb (fun x => bool_decide (mp_severity x = Deny)) m then VFail m
                 else match m with [] => VFail [] | _ => VWarn m end
  end.
Proof.
  intros Hn. unfold verdict_of.
  assert (rs_errors (is_authorized re.1 (en_policy_set e) re.2) = []) as ->; [|by destruct (en_schema e)].
  apply authorize_errors. intros p Hp He. apply Hn. by exists p.
Qed.
Lemma errs_dec e re : errs e re \/ ~ errs e re.
Proof.
  destruct (rs_errors (is_authorized re.1 (en_policy_set e) re.2)) as [|err l] eqn:Herr.
  - right. intros (p & Hp & He). by apply (proj1 (authorize_errors _ _ _) Herr p).
  - left. destruct (decide (Exists (fun p => pol_eval p re.1 re.2 = None) (ps_policies (en_policy_set e)))) as [Hx|Hx].
    + apply Exists_exists in Hx as (p & Hp & He). by exists p.
    + exfalso. enough (rs_errors (is_authorized re.1 (en_policy_set e) re.2) = []) by congruence.
      apply authorize_errors. intros p Hp He. apply Hx, Exists_exists. by exists p.
Qed.

(** What one request gets from a built, schema-less engine. *)
Record verdict_spec (e : PolicyEngine) (re : Request * Entities) (v : Verdict) : Prop := {
  vs_pass : v = VPass <-> quiet e re;
  vs_fail : is_failure v = true <-> blocked e re;
  vs_matched : ~ errs e re -> forall m, m ∈ matched v <-> exists p sev, fires e re p /\ severity_of p = Some sev /\ m = match_of p sev;
}.
Lemma verdict_of_spec e re : built e -> en_schema e = None ->
  verdict_spec e re (verdict_of iter e (is_authorized re.1 (en_policy_set e) re.2)).
Proof.
  intros Hb Hs. destruct (errs_dec e re) as [He|He].
  { destruct (verdict_error e re He Hs) as [r ->]. split; [by split; [|intros []]|split; [by left|done]|done]. }
  rewrite (verdict_plain e re He). simpl. pose proof (decision_allow e Hb re) as Hallow. pose proof (fun m => matched_policies e Hb re m) as Hm.
  simpl in Hallow, Hm. destruct (rs_decision _) eqn:Hd.
  { destruct Hallow as [Hq _]. specialize (Hq eq_refl). split.
    - split; [|done]. intros _. by split.
    - split; [done|]. intros [Hx|[(p & Hp & _)|[[p Hp] _]]]; [done|by apply Hq in Hp..].
    - intros _ m. split; [by intros ?%elem_of_nil|]. intros (p & sev & Hp & _). by apply Hq in Hp. }
  specialize (fun m => Hm m eq_refl). set (l := omap _ _) in *.
  assert (exists p, fires e re p) as [p0 Hp0].
  { destruct (decide (Exists (fun p => pol_is_forbid p = true /\ pol_eval p re.1 re.2 = Some true) (ps_policies (en_policy_set e)))) as [Hx|Hx].
    - apply Exists_exists in Hx as (p & Hp & Hx). by exists p.
    - enough (CedarDeny = Allow) by done. apply Hallow. intros p (Hp & Hx'). apply Hx, Exists_exists. by exists p. }
  split.
  - split; [|intros [_ Hq]; by apply Hq in Hp0]. destruct (existsb _ l); [done|]. by destruct l.
  - destruct (existsb _ l) eqn:Hx.
    + split; [|done]. intros _. right. left. apply existsb_exists in Hx as (m & Hin & Hsev%bool_decide_eq_true).
      apply list_elem_of_In, Hm in Hin as (p & sev & Hp & Hps & ->). simpl in Hsev. subst sev. by exists p.
    + assert (forall p, fires e re p -> severity_of p <> Some Deny) as Hnd.
      { intros p Hp Hps. enough (existsb (fun x => bool_decide (mp_severity x = Deny)) l = true) by congruence.
        apply existsb_exists. exists (match_of p Deny). split; [|done]. apply list_elem_of_In, Hm. by exists p, Deny. }
      destruct l as [|m l'] eqn:Hl; simpl.
      * split; [|done]. intros _. right. right. split; [by exists p0|]. intros p Hp. destruct (severity_of p) as [sev|] eqn:Hps; [|done].
        exfalso. apply (elem_of_nil (match_of p sev)), Hm. by exists p, sev.
      * split; [done|]. intros [?|[(p & Hp & Hps)|[_ Hall]]]; [done|by apply Hnd in Hps|].
        exfalso. destruct (proj1 (Hm m)) as (p & sev & Hp & Hps & _); [left|]. by rewrite Hall in Hps.
  - intros _ m. rewrite <- Hm. destruct (existsb _ l); [done|]. by destruct l.
Qed.
Lemma evaluate_spec e p a r ej cj v : built e -> en_schema e = None -> evaluate iter e p a r ej cj = Ok v ->
  exists re, prepare e p a r ej cj = Ok re /\ verdict_spec e re v.
Proof. intros Hb Hs (re & Hp & [= <-])%bind_Ok_inv. exists re. split; [done|]. by apply verdict_of_spec. Qed.

Definition prepare_request (e : PolicyEngine) (req : PolicyRequest) : result PolicyError (Request * Entities) :=
  prepare e (pq_principal req) (pq_action req) (pq_resource req) (pq_entities req) (pq_context req).
Lemma origin_spec e req o v : built e -> en_schema e = None -> evaluate_request_with_origin iter e req o = Ok v ->
  exists re v0, prepare_request e req = Ok re /\ verdict_spec e re v0 /\ passes v = passes v0 /\ is_failure v = is_failure v0 /\
    matched v = set_origin o <$> matched v0.
Proof.
  intros Hb Hs (v0 & H & [= <-])%bind_Ok_inv. destruct (evaluate_spec _ _ _ _ _ _ _ Hb Hs H) as (re & Hp & Hv).
  exists re, v0. split; [done|]. split; [done|]. by destruct v0.
Qed.
Lemma passes_iff v : passes v = true <-> v = VPass.
Proof. by destruct v. Qed.
Lemma evaluate_each_spec e reqs vs : built e -> en_schema e = None -> evaluate_each iter e reqs = Ok vs ->
  Forall2 (fun q v => evaluate_request_with_origin iter e q.1 q.2 = Ok v) reqs vs.
Proof.
  intros Hb Hs. revert vs. induction reqs as [|[q o] reqs IH]; intros vs; simpl; [by intros [= <-]|].
  intros (v & Hv & (vs' & Hvs & [= <-])%bind_Ok_inv)%bind_Ok_inv. constructor; [done|]. by apply IH.
Qed.

(** a schema-less engine answers a request exactly as its policies say. Pass: no
    policy errs and no [forbid] is satisfied. Fail: some policy errs, or a [forbid]
    annotated deny is satisfied, or [forbid]s are satisfied and none is annotated. And
    when no policy errs the reported matches are the satisfied annotated [forbid]s, each
    with its own id, reason and severity. *)
Theorem evaluate_exact bundles e principal action resource ej cj v :
  build_from_per_policy bundles = Ok e -> evaluate iter e principal action resource ej cj = Ok v ->
  exists re, prepare e principal action resource ej cj = Ok re /\
    (v = VPass <-> quiet e re) /\ (is_failure v = true <-> blocked e re) /\
    (~ errs e re -> forall m, m ∈ matched v <-> exists p sev, fires e re p /\ severity_of p = Some sev /\ m = match_of p sev).
Proof.
  intros Hbuild H. destruct (per_policy_built _ _ Hbuild) as [Hb Hs].
  destruct (evaluate_spec _ _ _ _ _ _ _ Hb Hs H) as (re & Hp & []). by exists re.
Qed.

(** C34: the verdict on a transaction fails exactly when one of its requests is blocked,
    and passes exactly when every request is quiet: no policy errs and no [forbid] is
    satisfied on any of them. *)
Theorem transaction_verdict_exact bundles e reqs v :
  build_from_per_policy bundles = Ok e -> evaluate_requests iter e reqs = Ok v ->
  (is_failure v = true <-> exists q re, q ∈ reqs /\ prepare_request e q.1 = Ok re /\ blocked e re) /\
  (v = VPass <-> forall q, q ∈ reqs -> exists re, prepare_request e q.1 = Ok re /\ quiet e re).
Proof.
  intros Hbuild (vs & Hvs & [= <-])%bind_Ok_inv. destruct (per_policy_built _ _ Hbuild) as [Hb Hs].
  rewrite <- passes_iff, aggregate_failure, aggregate_passes. apply evaluate_each_spec in Hvs; [|done..].
  induction Hvs as [|q v0 reqs vs Hq _ [IHf IHp]]; simpl.
  { split; split; try done; [by intros (q & re & ?%elem_of_nil & _)|by intros _ q ?%elem_of_nil]. }
  destruct (origin_spec _ _ _ _ Hb Hs Hq) as (re & w & Hre & [Hpass Hfail _] & Hp & Hf & _).
  rewrite <- passes_iff, <- Hp in Hpass. rewrite <- Hf in Hfail. split.
  - rewrite orb_true_iff, Hfail, IHf. split.
    + intros [Hbl|(q' & re' & Hin & Hx)]; [exists q, re|exists q', re']; split; [left|done|by right|done].
    + intros (q' & re' & [->|Hin]%elem_of_cons & Hx & Hbl); [left|right; by exists q', re'].
      rewrite Hx in Hre. by injection Hre as ->.
  - rewrite andb_true_iff, Hpass, IHp. split.
    + intros [Hqt Hall] q' [->|Hin]%elem_of_cons; [by exists re|by apply Hall].
    + intros Hall. split; [|intros q' Hin; apply Hall; by right].
      destruct (Hall q) as (re' & Hx & Hqt); [left|]. rewrite Hx in Hre. by injection Hre as <-.
Qed.
End Facts.

(** combining verdicts is associative up to one level: the verdict of two batches is
    the combination of the batches' verdicts; a combined verdict fails exactly when one
    of the parts fails, and reports all matches of all parts, in order. *)
Theorem aggregate_deny_overrides (a b : list Verdict) :
  aggregate (a ++ b) = aggregate [aggregate a; aggregate b] /\
  is_failure (aggregate a) = existsb is_failure a /\
  (aggregate a = VPass <-> Forall (eq VPass) a) /\
  matched (aggregate a) = concat (matched <$> a).
Proof.
  split; [|split; [apply aggregate_failure|split; [|apply aggregate_matched]]].
  - rewrite (aggregate_eq (a ++ b)), (aggregate_eq [_; _]). simpl.
    rewrite !aggregate_failure, !aggregate_passes, !aggregate_matched, existsb_app, forallb_app, fmap_app, concat_app.
    by rewrite orb_false_r, andb_true_r, app_nil_r.
  - rewrite <- passes_iff, aggregate_passes, forallb_forall, Forall_forall. setoid_rewrite passes_iff.
    setoid_rewrite list_elem_of_In. split; intros H v Hv; symmetry; by apply H.
Qed.

(** ** A small Cedar
    One character per policy after the baseline: [d], [w] and [u] are satisfied [forbid]s
    of severity deny, warn and none, [n] is a [forbid] that is not satisfied, [e] errs. *)
Module MiniCedar.
Record Pol := mkPol { po_id : string; po_ann : string -> option string; po_forbid : bool; po_eval : option bool }.
Definition ann (k v : string) : string -> option string := fun x => if String.eqb x k then Some v else None.
Definition baseline : Pol := mkPol "policy0" (ann "id" BASELINE_ID) false (Some true).
Definition pol_of (n : nat) (c : Ascii.ascii) : option Pol :=
  let mk a ev := Some (mkPol ("policy" +:+ pretty n) a true ev) in
  match String c "" with
  | "d"%string => mk (ann "severity" "deny") (Some true)
  | "w"%string => mk (ann "severity" "warn") (Some true)
  | "u"%string => mk (fun _ => None) (Some true)
  | "n"%string => mk (ann "severity" "deny") (Some false)
  | "e"%string => mk (ann "severity" "warn") None
  | _ => None
  end.
Fixpoint parse (n : nat) (s : string) : result string (list Pol) :=
  match s with
  | EmptyString => Ok []
  | String c rest =>
      if Ascii.eqb c (Ascii.ascii_of_nat 10) then parse n rest
      else match pol_of n c with
           | Some p => ps ← parse (S n) rest; Ok (p :: ps)
           | None => Err "unexpected token"%string
           end
  end.
Definition from_str (s : string) : result string (list Pol) :=
  if String.prefix BASELINE_PERMIT s
  then ps ← parse 1 (String.substring (String.length BASELINE_PERMIT) (String.length s) s); Ok (baseline :: ps)
  else parse 0 s.
Definition add (ps : list Pol) (p : Pol) : result string (list Pol) :=
  if decide (po_id p ∈ po_id <$> ps) then Err "duplicate policy id"%string else Ok (p :: ps).
Definition satisfied (forbid : bool) (p : Pol) : bool :=
  Bool.eqb (po_forbid p) forbid && bool_decide (po_eval p = Some true).
Definition authorize (ps : list Pol) : Response :=
  mkResponse (if existsb (satisfied false) ps && negb (existsb (satisfied true) ps) then Allow else CedarDeny)
    (po_id <$> List.filter (satisfied (existsb (satisfied true) ps)) ps)
    (omap (fun p => match po_eval p with None => Some ("error in " +:+ po_id p)%string | _ => None end) ps).
#[global] Instance cedar : Cedar := {|
  Policy := Pol; PolicySet := list Pol; Schema := (); EntityUid := (); Entities := (); Context_ := (); Request := ();
  pol_id := po_id; pol_annotation := po_ann;
  pol_new_id i p := mkPol i (po_ann p) (po_forbid p) (po_eval p);
  ps_new := []; ps_add := add; ps_policies ps := ps; ps_from_str := from_str;
  schema_from_str _ := Ok (); validate _ _ := mkValidationResult true [];
  uid_parse _ := Ok (); entities_from_json _ _ := Ok (); context_from_json _ _ := Ok ();
  request_new _ _ _ _ _ := Ok (); is_authorized _ ps _ := authorize ps |}.
Lemma satisfied_iff f p : satisfied f p = true <-> po_forbid p = f /\ po_eval p = Some true.
Proof. unfold satisfied. by rewrite andb_true_iff, eqb_true_iff, bool_decide_eq_true. Qed.
Lemma some_satisfied f ps : existsb (satisfied f) ps = true <-> exists p, p ∈ ps /\ po_forbid p = f /\ po_eval p = Some true.
Proof. rewrite existsb_exists. setoid_rewrite satisfied_iff. by setoid_rewrite list_elem_of_In. Qed.
Lemma prefix_append a b : String.prefix a (a +:+ b)%string = true.
Proof. induction a as [|c a IH]; [by destruct b|]. rewrite append_cons. simpl. by destruct (Ascii.ascii_dec c c). Qed.
#[global] Instance laws : CedarLaws cedar.
Proof.
  refine {| pol_eval (p : @Policy cedar) _ _ := po_eval p; pol_is_forbid (p : @Policy cedar) := po_forbid p |}; simpl.
  - done.
  - intros ps p. unfold add. by case_decide.
  - done.
  - intros rest ps. unfold from_str. rewrite prefix_append. intros (l & _ & [= <-])%bind_Ok_inv. exists baseline. by split; [left|].
  - intros _ ps _. rewrite <- !some_satisfied. destruct (existsb (satisfied false) ps), (existsb (satisfied true) ps); simpl; split; intuition done.
  - intros _ ps _ id Hd. destruct (existsb (satisfied true) ps) eqn:Ht.
    + rewrite list_elem_of_fmap. setoid_rewrite list_elem_of_In at 1. setoid_rewrite filter_In. setoid_rewrite satisfied_iff.
      setoid_rewrite <- list_elem_of_In. naive_solver.
    + split; [|intros (p & Hp & Hf & He & _); assert (existsb (satisfied true) ps = true) by (apply some_satisfied; by exists p); congruence].
      intros Hin. destruct (existsb (satisfied false) ps) eqn:Hf; [done|]. apply list_elem_of_fmap in Hin as (p & _ & [Hp Hs]%list_elem_of_In%filter_In).
      assert (existsb (satisfied false) ps = true) by (apply existsb_exists; by exists p). congruence.
  - intros _ ps _. induction ps as [|p ps IH]; simpl; [split; [by intros _ p ?%elem_of_nil|done]|].
    destruct (po_eval p) eqn:He; simpl; [|split; [done|intros H; exfalso; apply (H p); [left|done]]].
    rewrite IH. split; [intros H q [->|Hq]%elem_of_cons; [congruence|by apply H]|intros H q Hq; apply H; by right].
Defined.
End MiniCedar.

(** Bundles: a warn and a deny [forbid] that are satisfied, then one that is not. *)
Definition demo_bundles : list (string * string) := [("w", ""); ("d", ""); ("n", "")]%string.
Definition demo_request : PolicyRequest := mkPolicyRequest "Wallet::me" "Action::swap" "Protocol::amm" VNull VNull.

Lemma evaluate_exact_witness : exists e v re,
  build_from_per_policy (C0 := MiniCedar.cedar) demo_bundles = Ok e /\ is_failure v = true /\ length (matched v) = 2%nat /\
  blocked (L0 := MiniCedar.laws) e re.
Proof.
  destruct (build_from_per_policy (C0 := MiniCedar.cedar) demo_bundles) as [e|x|] eqn:He; [|by vm_compute in He..].
  destruct (evaluate (C0 := MiniCedar.cedar) elements e "Wallet::me" "Action::swap" "Protocol::amm" VNull VNull) as [v|x|] eqn:Hv; [|done..].
  destruct (evaluate_exact (L0 := MiniCedar.laws) elements (fun s => reflexivity _) _ _ _ _ _ _ _ _ He Hv) as (re & Hre & _ & Hf & _).
  exists e, v, re. vm_compute in He. injection He as <-. vm_compute in Hv. injection Hv as <-.
  split; [done|]. split; [done|]. split; [done|]. by apply Hf.
Defined.
Lemma transaction_verdict_exact_witness : exists e v,
  build_from_per_policy (C0 := MiniCedar.cedar) demo_bundles = Ok e /\
  evaluate_requests (C0 := MiniCedar.cedar) elements e [(demo_request, OriginAction); (demo_request, OriginTx)] = Ok v /\
  exists q re, q ∈ [(demo_request, OriginAction); (demo_request, OriginTx)] /\
    prepare_request (C0 := MiniCedar.cedar) e q.1 = Ok re /\ blocked (L0 := MiniCedar.laws) e re.
Proof.
  destruct (build_from_per_policy (C0 := MiniCedar.cedar) demo_bundles) as [e|x|] eqn:He; [|by vm_compute in He..].
  destruct (evaluate_requests (C0 := MiniCedar.cedar) elements e [(demo_request, OriginAction); (demo_request, OriginTx)]) as [v|x|] eqn:Hv; [|done..].
  exists e, v. split; [done|]. split; [done|].
  apply (transaction_verdict_exact (L0 := MiniCedar.laws) elements (fun s => reflexivity _) _ _ _ _ He Hv).
  vm_compute in He. injection He as <-. vm_compute in Hv. by injection Hv as <-.
Defined.
End PolicyEngine.
