(* ===== verification/PackedPayloads.v ===== *)
(** * Packed payloads (adapters/abi-resolver/src/subdecode/protocols)

    Two formats that are not ABI encoded: the transactions of a Safe [multiSend]
    (safe_multisend.rs) and the path of a Uniswap V3 swap (uniswap_v3.rs). Indices
    are [usize] of [w] bits: an overflowing sum panics with overflow checks ([ck])
    and wraps without, and a slice out of range panics. *)
From stdpp Require Import base tactics numbers list strings.
From S2P Require Import Prelude Types Bytes.

Module PackedPayloads.

(** ** Slices and machine indices *)
Definition usize_add (w : Z) (ck : bool) (a b : Z) : result Empty_set Z :=
  if a + b <? 2 ^ w then Ok (a + b) else if ck then Panic else Ok ((a + b) mod 2 ^ w).
(** [bytes[a..b]] and [bytes[a]] *)
Definition slice_range (l : bytes) (a b : Z) : result Empty_set bytes :=
  if (a <=? b) && (b <=? Z.of_nat (length l)) then Ok (slice (Z.to_nat a) (Z.to_nat (b - a)) l) else Panic.
Definition byte_at (l : bytes) (a : Z) : result Empty_set Z :=
  match l !! Z.to_nat a with Some b => Ok b | None => Panic end.

(** ** Safe multiSend *)
Record MultisendTx := mkMultisendTx { mt_operation : Z; mt_to : Address; mt_value : U256; mt_data : bytes }.
Definition HEADER_SIZE : Z := 1 + 20 + 32 + 32.

Section Machine.
Context (w : Z) (ck : bool).

(** The fields before the data, and the cursor after them. *)
Definition read_header (l : bytes) (cursor : Z) : result Empty_set (Z * Address * U256 * U256 * Z) :=
  operation ← byte_at l cursor;
  cursor ← usize_add w ck cursor 1;
  e ← usize_add w ck cursor 20; to ← slice_range l cursor e;
  cursor ← usize_add w ck cursor 20;
  e ← usize_add w ck cursor 32; value ← slice_range l cursor e;
  cursor ← usize_add w ck cursor 32;
  e ← usize_add w ck cursor 32; data_length ← slice_range l cursor e;
  cursor ← usize_add w ck cursor 32;
  Ok (operation, from_be to, from_be value, from_be data_length, cursor).

(** The [while] loop; [None] when the fuel runs out before it ends. *)
Fixpoint multisend_loop (fuel : nat) (l : bytes) (cursor : Z) (out : list MultisendTx)
    : option (result Empty_set (list MultisendTx)) :=
  match usize_add w ck cursor HEADER_SIZE with
  | Ok e =>
      if e <=? Z.of_nat (length l) then
        match fuel with
        | O => None
        | S fuel' =>
            match read_header l cursor with
            | Ok (operation, to, value, data_length, cursor) =>
                if data_length <? 2 ^ w then
                  match usize_add w ck cursor data_length with
                  | Ok stop =>
                      if Z.of_nat (length l) <? stop then Some (Ok out)
                      else match slice_range l cursor stop with
                           | Ok data => multisend_loop fuel' l stop (out ++ [mkMultisendTx operation to value data])
                           | Err e => Some (Err e)
                           | Panic => Some Panic
                           end
                  | Err e => Some (Err e)
                  | Panic => Some Panic
                  end
                else Some (Ok out)
            | Err e => Some (Err e)
            | Panic => Some Panic
            end
        end
      else Some (Ok out)
  | Err e => Some (Err e)
  | Panic => Some Panic
  end.
(** Every turn but the last consumes a header: one turn more than there are bytes is enough. *)
Definition parse_multisend_transactions (l : bytes) : option (result Empty_set (list MultisendTx)) :=
  multisend_loop (S (length l)) l 0 [].
End Machine.

(** ** Uniswap V3 paths *)
Inductive PathDecodeError := InvalidLength (got : Z).

Fixpoint path_loop (hops : nat) (l : bytes) (cursor : Z) (tokens : list Address) (fees : list Z)
    : result PathDecodeError (Z * list Address * list Z) :=
  match hops with
  | O => Ok (cursor, tokens, fees)
  | S hops' =>
      match slice_range l cursor (cursor + 20), byte_at l (cursor + 20), byte_at l (cursor + 20 + 1), byte_at l (cursor + 20 + 2) with
      | Ok token, Ok b0, Ok b1, Ok b2 =>
          let fee := Z.lor (Z.lor (Z.shiftl b0 16) (Z.shiftl b1 8)) b2 in
          path_loop hops' l (cursor + 20 + 3) (tokens ++ [from_be token]) (fees ++ [fee])
      | _, _, _, _ => Panic
      end
  end.
Definition decode_v3_path (path : bytes) : result PathDecodeError (list Address * list Z) :=
  let n := Z.of_nat (length path) in
  if (n <? 20 + 23) || negb ((n - 20) mod 23 =? 0) then Err (InvalidLength n)
  else
    let hops := (n - 20) / 23 in
    r ← path_loop (Z.to_nat hops) path 0 [] [];
    let '(cursor, tokens, fees) := r in
    match slice_range path cursor (cursor + 20) with
    | Ok token => Ok (tokens ++ [from_be token], fees)
    | _ => Panic
    end.

(** ** The formats, as the contracts lay them out *)
Definition pack_tx (t : MultisendTx) : bytes :=
  [mt_operation t] ++ to_be 20 (mt_to t) ++ to_be 32 (mt_value t) ++ to_be 32 (Z.of_nat (length (mt_data t))) ++ mt_data t.
Definition tx_ok (t : MultisendTx) : Prop :=
  byte_ok (mt_operation t) /\ 0 <= mt_to t < 256 ^ 20 /\ 0 <= mt_value t < 256 ^ 32 /\ Forall byte_ok (mt_data t).
Fixpoint pack_path (first : Address) (hops : list (Z * Address)) : bytes :=
  match hops with
  | [] => to_be 20 first
  | (fee, token) :: rest => to_be 20 first ++ to_be 3 fee ++ pack_path token rest
  end.

(** ** Multisend *)
Lemma slice_range_Ok l a b : 0 <= a <= b -> b <= Z.of_nat (length l) -> slice_range l a b = Ok (slice (Z.to_nat a) (Z.to_nat (b - a)) l).
Proof. intros Ha Hb. unfold slice_range. by rewrite (proj2 (Z.leb_le a b)), (proj2 (Z.leb_le _ _)) by lia. Qed.
Lemma slice_length a n l : (a + n <= length l)%nat -> length (slice a n l) = n.
Proof. intros H. unfold slice. rewrite length_take, length_drop. lia. Qed.
Lemma slice_bytes a n l : Forall byte_ok l -> Forall byte_ok (slice a n l).
Proof. intros H. by apply Forall_take, Forall_drop. Qed.
Lemma slice_app l a n m : slice a (n + m) l = slice a n l ++ slice (a + n) m l.
Proof. unfold slice. rewrite <- drop_drop. by rewrite take_take_drop. Qed.
(** A slice that lies inside the middle part of an append. *)
Lemma slice_middle p x q a n : a = length p -> n = length x -> slice a n (p ++ x ++ q) = x.
Proof. intros -> ->. unfold slice. by rewrite drop_app_length, take_app_length. Qed.

Section Multisend.
Context (w : Z) (ck : bool) (Hw : w = 32 \/ w = 64).
(** The length of a slice is at most [isize::MAX]. *)
Definition slice_len_ok (l : bytes) : Prop := Z.of_nat (length l) < 2 ^ (w - 1).

Lemma usize_add_small l a b : slice_len_ok l -> 0 <= a <= Z.of_nat (length l) -> 0 <= b <= 85 -> usize_add w ck a b = Ok (a + b).
Proof.
  unfold slice_len_ok, usize_add. intros Hl Ha Hb. rewrite (proj2 (Z.ltb_lt _ _)); [done|].
  assert (2 ^ (w - 1) + 85 < 2 ^ w) by (destruct Hw as [-> | ->]; vm_compute; done). lia.
Qed.
Lemma read_header_Ok l c : slice_len_ok l -> 0 <= c -> c + 85 <= Z.of_nat (length l) ->
  exists op, l !! Z.to_nat c = Some op /\
  read_header w ck l c = Ok (op, from_be (slice (Z.to_nat c + 1) 20 l), from_be (slice (Z.to_nat c + 21) 32 l),
                             from_be (slice (Z.to_nat c + 53) 32 l), c + 85).
Proof.
  intros Hl Hc He. destruct (lookup_lt_is_Some_2 l (Z.to_nat c)) as [op Hop]; [lia|]. exists op. split; [done|].
  unfold read_header, byte_at. rewrite Hop.
  repeat (simpl; first [rewrite (usize_add_small l) by (done || lia) | rewrite slice_range_Ok by lia]). simpl.
  replace (Z.to_nat (c + 1)) with (Z.to_nat c + 1)%nat by lia. replace (Z.to_nat (c + 1 + 20)) with (Z.to_nat c + 21)%nat by lia.
  replace (Z.to_nat (c + 1 + 20 + 32)) with (Z.to_nat c + 53)%nat by lia.
  replace (Z.to_nat (c + 1 + 20 - (c + 1))) with 20%nat by lia. replace (Z.to_nat (c + 1 + 20 + 32 - (c + 1 + 20))) with 32%nat by lia.
  replace (Z.to_nat (c + 1 + 20 + 32 + 32 - (c + 1 + 20 + 32))) with 32%nat by lia. by replace (c + 1 + 20 + 32 + 32) with (c + 85) by lia.
Qed.


(** The declared length of the data of the transaction at the head of [t], and that transaction. *)
Definition declared (t : bytes) : Z := from_be (slice 53 32 t).
Definition first_tx (t : bytes) : MultisendTx :=
  mkMultisendTx (default 0 (t !! 0%nat)) (from_be (slice 1 20 t)) (from_be (slice 21 32 t)) (slice 85 (Z.to_nat (declared t)) t).

Lemma slice_shift p t a n c : c = (length p + a)%nat -> slice c n (p ++ t) = slice a n t.
Proof. intros ->. unfold slice. by rewrite <- drop_drop, drop_app_length. Qed.

Lemma loop_step fuel pre t out : slice_len_ok (pre ++ t) -> Forall byte_ok t ->
  let n := Z.of_nat (length pre) in
  multisend_loop w ck (S fuel) (pre ++ t) n out =
  if Z.of_nat (length t) <? 85 then Some (Ok out)
  else if 2 ^ w <=? declared t then Some (Ok out)
  else if 2 ^ w <=? n + 85 + declared t then Some Panic
  else if Z.of_nat (length t) <? 85 + declared t then Some (Ok out)
  else multisend_loop w ck fuel (pre ++ t) (n + 85 + declared t) (out ++ [first_tx t]).
Proof.
  intros Hl Hb n. assert (Z.of_nat (length (pre ++ t)) = n + Z.of_nat (length t)) as Hlen by (rewrite length_app; lia).
  assert (0 <= declared t) as Hd0 by (apply from_be_range, slice_bytes; done).
  cbn [multisend_loop]. change HEADER_SIZE with 85. rewrite (usize_add_small (pre ++ t)) by (done || lia).
  rewrite Hlen. destruct (Z.ltb_spec (Z.of_nat (length t)) 85) as [Hs|Hs].
  { by rewrite (proj2 (Z.leb_gt _ _)) by lia. }
  rewrite (proj2 (Z.leb_le _ _)) by lia. destruct (read_header_Ok (pre ++ t) n Hl) as (op & Hop & ->); [lia..|].
  rewrite (slice_shift pre t 53 32 (Z.to_nat n + 53)), (slice_shift pre t 21 32 (Z.to_nat n + 21)), (slice_shift pre t 1 20 (Z.to_nat n + 1)) by lia. fold (declared t).
  assert (default 0 (t !! 0%nat) = op) as Hop'.
  { rewrite lookup_app_r in Hop by lia. replace (Z.to_nat n - length pre)%nat with 0%nat in Hop by lia. by rewrite Hop. }
  destruct (Z.leb_spec (2 ^ w) (declared t)) as [Hd|Hd]; [by rewrite (proj2 (Z.ltb_ge _ _))|]. rewrite (proj2 (Z.ltb_lt (declared t) _)) by lia.
  unfold usize_add at 1. destruct (Z.leb_spec (2 ^ w) (n + 85 + declared t)) as [Ho|Ho].
  { rewrite (proj2 (Z.ltb_ge _ _)) by lia. destruct ck; [done|].
    assert (2 ^ (w - 1) + 85 < 2 ^ w) as Hw85 by (destruct Hw as [-> | ->]; vm_compute; done).
    assert ((n + 85 + declared t) mod 2 ^ w = n + 85 + declared t - 2 ^ w) as ->.
    { symmetry. apply (Z.mod_unique_pos _ _ 1); [|lia]. unfold slice_len_ok in Hl. lia. }
    rewrite (proj2 (Z.ltb_ge _ _)) by lia. unfold slice_range. by rewrite (proj2 (Z.leb_gt _ _)) by lia. }
  rewrite (proj2 (Z.ltb_lt _ _)) by lia. destruct (Z.ltb_spec (Z.of_nat (length t)) (85 + declared t)) as [Ht|Ht].
  { by rewrite (proj2 (Z.ltb_lt _ _)) by lia. }
  rewrite (proj2 (Z.ltb_ge _ _)), slice_range_Ok by lia. rewrite (slice_shift pre t 85) by lia.
  replace (n + 85 + declared t - (n + 85)) with (declared t) by lia. unfold first_tx. by rewrite Hop'.
Qed.

Lemma first_tx_pack t : Forall byte_ok t -> 85 + declared t <= Z.of_nat (length t) ->
  tx_ok (first_tx t) /\ t = pack_tx (first_tx t) ++ drop (Z.to_nat (85 + declared t)) t.
Proof.
  intros Hb Hlen. assert (0 <= declared t) as Hd0 by (apply from_be_range, slice_bytes; done).
  assert (forall a n, (a + n <= length t)%nat -> to_be n (from_be (slice a n t)) = slice a n t) as Hbe.
  { intros a n Han. rewrite <- (slice_length a n t Han) at 1. by apply to_from_be, slice_bytes. }
  assert (forall a n, (a + n <= length t)%nat -> 0 <= from_be (slice a n t) < 256 ^ Z.of_nat n) as Hrg.
  { intros a n Han. rewrite <- (slice_length a n t Han) at 3. by apply from_be_range, slice_bytes. }
  destruct t as [|op t'] eqn:Ht; [simpl in Hlen; lia|]. rewrite <- Ht in *. split.
  - unfold tx_ok, first_tx. cbn [mt_operation mt_to mt_value mt_data]. rewrite Ht at 1. cbn [lookup list_lookup default].
    split; [by rewrite Ht in Hb; apply Forall_cons in Hb as [? _]|]. split; [apply (Hrg 1%nat 20%nat); lia|].
    split; [apply (Hrg 21%nat 32%nat); lia|]. by apply slice_bytes.
  - unfold pack_tx, first_tx. cbn [mt_operation mt_to mt_value mt_data]. rewrite slice_length, Z2Nat.id by lia.
    rewrite !Hbe by lia. unfold declared at 1. rewrite Hbe by lia.
    assert ([default 0 (t !! 0%nat)] = slice 0 1 t) as -> by (by rewrite Ht).
    rewrite <- (slice_app t 53 32 _), <- (slice_app t 21 32 _), <- (slice_app t 1 20 _), <- (slice_app t 0 1 _).
    unfold slice. rewrite drop_0.
    replace (1 + (20 + (32 + (32 + Z.to_nat (declared t)))))%nat with (Z.to_nat (85 + declared t)) by lia. by rewrite take_drop.
Qed.
Lemma pack_tx_length t : length (pack_tx t) = (85 + length (mt_data t))%nat.
Proof. unfold pack_tx. rewrite !length_app, !to_be_length. simpl. lia. Qed.
Lemma pack_tx_first t rest : tx_ok t -> slice_len_ok (pack_tx t) ->
  declared (pack_tx t ++ rest) = Z.of_nat (length (mt_data t)) /\ first_tx (pack_tx t ++ rest) = t.
Proof.
  intros (Ho & Ht & Hv & Hd) Hl. unfold slice_len_ok in Hl. rewrite pack_tx_length in Hl.
  assert (Z.of_nat (length (mt_data t)) < 256 ^ Z.of_nat 32) as Hn.
  { assert (2 ^ (w - 1) < 256 ^ Z.of_nat 32) by (destruct Hw as [-> | ->]; vm_compute; done). lia. }
  set (x1 := to_be 20 (mt_to t)). set (x2 := to_be 32 (mt_value t)). set (x3 := to_be 32 (Z.of_nat (length (mt_data t)))).
  assert (pack_tx t ++ rest = [mt_operation t] ++ x1 ++ x2 ++ x3 ++ mt_data t ++ rest) as Hp by (unfold pack_tx; by rewrite !(assoc_L (++))).
  assert (length x1 = 20 /\ length x2 = 32 /\ length x3 = 32)%nat as (L1 & L2 & L3) by (unfold x1, x2, x3; by rewrite !to_be_length).
  assert (slice 1 20 (pack_tx t ++ rest) = x1) as E1 by (rewrite Hp; by apply slice_middle).
  assert (slice 21 32 (pack_tx t ++ rest) = x2) as E2.
  { rewrite Hp, (assoc_L (++) [_] x1). apply slice_middle; [|done]. rewrite length_app, L1. done. }
  assert (slice 53 32 (pack_tx t ++ rest) = x3) as E3.
  { rewrite Hp, (assoc_L (++) [_] x1), (assoc_L (++) (_ ++ x1) x2). apply slice_middle; [|done]. rewrite !length_app, L1, L2. done. }
  assert (slice 85 (length (mt_data t)) (pack_tx t ++ rest) = mt_data t) as E4.
  { rewrite Hp, (assoc_L (++) [_] x1), (assoc_L (++) (_ ++ x1) x2), (assoc_L (++) (_ ++ x2) x3). apply slice_middle; [|done].
    rewrite !length_app, L1, L2, L3. done. }
  assert (declared (pack_tx t ++ rest) = Z.of_nat (length (mt_data t))) as Hdec by (unfold declared; rewrite E3; apply from_to_be; lia).
  split; [done|]. unfold first_tx. rewrite Hdec, Nat2Z.id, E1, E2, E4. unfold x1, x2. rewrite !from_to_be by done.
  rewrite Hp. by destruct t.
Qed.

(** Where the parser stops, [n] bytes into the payload: too few bytes for a header, a
    declared length that no index can hold, or data cut short. *)
Definition stops (n : Z) (tail : bytes) : Prop :=
  Z.of_nat (length tail) < 85 \/ 2 ^ w <= declared tail \/
  (n + 85 + declared tail < 2 ^ w /\ Z.of_nat (length tail) < 85 + declared tail).
(** A declared length that an index can hold and whose end it cannot. *)
Definition overflows (n : Z) (tail : bytes) : Prop :=
  85 <= Z.of_nat (length tail) /\ declared tail < 2 ^ w /\ 2 ^ w <= n + 85 + declared tail.
Definition packed (txs : list MultisendTx) : bytes := concat (pack_tx <$> txs).

Lemma loop_ends fuel pre tail out : slice_len_ok (pre ++ tail) -> Forall byte_ok tail ->
  (stops (Z.of_nat (length pre)) tail -> multisend_loop w ck (S fuel) (pre ++ tail) (Z.of_nat (length pre)) out = Some (Ok out)) /\
  (overflows (Z.of_nat (length pre)) tail -> multisend_loop w ck (S fuel) (pre ++ tail) (Z.of_nat (length pre)) out = Some Panic).
Proof.
  intros Hl Hb. unfold stops, overflows. rewrite loop_step by done.
  destruct (Z.ltb_spec (Z.of_nat (length tail)) 85); [split; [done|lia]|]. destruct (Z.leb_spec (2 ^ w) (declared tail)); [split; [done|lia]|].
  destruct (Z.leb_spec (2 ^ w) (Z.of_nat (length pre) + 85 + declared tail)); [split; [lia|done]|].
  destruct (Z.ltb_spec (Z.of_nat (length tail)) (85 + declared tail)); split; (done || lia).
Qed.
Lemma loop_parses fuel txs : forall pre tail out, (length (packed txs) < fuel)%nat ->
  slice_len_ok (pre ++ packed txs ++ tail) -> Forall tx_ok txs -> Forall byte_ok tail ->
  exists fuel', multisend_loop w ck fuel (pre ++ packed txs ++ tail) (Z.of_nat (length pre)) out =
    multisend_loop w ck (S fuel') (pre ++ packed txs ++ tail) (Z.of_nat (length (pre ++ packed txs))) (out ++ txs).
Proof.
  revert fuel. induction txs as [|t txs IH]; intros fuel pre tail out Hf Hl Hok Hb.
  { destruct fuel as [|fuel]; [simpl in Hf; lia|]. exists fuel. unfold packed. simpl. by rewrite !app_nil_r. }
  apply Forall_cons in Hok as [Ht Hok]. unfold packed in *. rewrite fmap_cons in *. cbn [concat] in *. rewrite <- (assoc_L (++)) in *.
  rewrite length_app, pack_tx_length in Hf. destruct fuel as [|fuel]; [lia|].
  set (rest := concat (pack_tx <$> txs) ++ tail) in *.
  assert (Forall byte_ok (pack_tx t ++ rest)) as Hbytes.
  { clear -Ht Hok Hb. assert (forall t, tx_ok t -> Forall byte_ok (pack_tx t)) as Hp.
    { intros x (Ho & _ & _ & Hd). unfold pack_tx. rewrite !Forall_app. repeat split; try apply to_be_ok; [by constructor|done]. }
    apply Forall_app. split; [by apply Hp|]. apply Forall_app. split; [|done]. induction Hok as [|x l Hx _ IH]; [constructor|].
    rewrite fmap_cons. cbn [concat]. apply Forall_app. split; [by apply Hp|done]. }
  assert (slice_len_ok (pack_tx t)) as Hlt by (unfold slice_len_ok in *; rewrite !length_app in Hl; lia).
  destruct (pack_tx_first t rest Ht Hlt) as [Hdec Hfirst]. rewrite loop_step, Hdec, Hfirst by done.
  pose proof (pack_tx_length t) as Hpl. unfold slice_len_ok in Hl. rewrite !length_app in Hl.
  assert (2 ^ (w - 1) + 85 < 2 ^ w) as Hw85 by (destruct Hw as [-> | ->]; vm_compute; done).
  rewrite (proj2 (Z.ltb_ge _ _)) by (rewrite length_app; lia). rewrite !(proj2 (Z.leb_gt _ _)) by lia.
  rewrite (proj2 (Z.ltb_ge _ _)) by (rewrite length_app; lia).
  destruct (IH fuel (pre ++ pack_tx t) tail (out ++ [t])) as [fuel' Heq]; [lia|unfold slice_len_ok; rewrite <- (assoc_L (++)); fold rest; rewrite !length_app; lia|done..|].
  exists fuel'. rewrite <- !(assoc_L (++)) in Heq. fold rest in Heq. change ([t] ++ txs) with (t :: txs) in Heq. rewrite <- Heq. f_equal.
  rewrite length_app, Hpl. lia.
Qed.
Lemma parse_packed txs tail : Forall tx_ok txs -> Forall byte_ok tail -> slice_len_ok (packed txs ++ tail) ->
  (stops (Z.of_nat (length (packed txs))) tail -> parse_multisend_transactions w ck (packed txs ++ tail) = Some (Ok txs)) /\
  (overflows (Z.of_nat (length (packed txs))) tail -> parse_multisend_transactions w ck (packed txs ++ tail) = Some Panic).
Proof.
  intros Hok Hb Hl. unfold parse_multisend_transactions.
  destruct (loop_parses (S (length (packed txs ++ tail))) txs [] tail []) as [fuel' Heq]; [rewrite length_app; lia|done..|].
  change (Z.of_nat (length [])) with 0 in Heq. rewrite !app_nil_l in Heq. rewrite Heq. by apply loop_ends.
Qed.

Lemma split_payload fuel : forall pre l, (length l < fuel)%nat -> slice_len_ok (pre ++ l) -> Forall byte_ok l ->
  exists txs tail, l = packed txs ++ tail /\ Forall tx_ok txs /\ Forall byte_ok tail /\
    let n := Z.of_nat (length (pre ++ packed txs)) in stops n tail \/ overflows n tail.
Proof.
  induction fuel as [|fuel IH]; intros pre l Hf Hl Hb; [lia|].
  assert (0 <= declared l) as Hd0 by (apply from_be_range, slice_bytes; done).
  destruct (decide (stops (Z.of_nat (length pre)) l \/ overflows (Z.of_nat (length pre)) l)) as [He|Hne].
  { exists [], l. unfold packed. rewrite fmap_nil, app_nil_r. by split_and!. }
  assert (85 + declared l <= Z.of_nat (length l)) as Hfit.
  { destruct (Z.le_gt_cases (85 + declared l) (Z.of_nat (length l))) as [|Hgt]; [done|]. exfalso. apply Hne. unfold stops, overflows. lia. }
  destruct (first_tx_pack l Hb Hfit) as [Hok Heq]. set (t := first_tx l) in *. set (l' := drop _ l) in *.
  assert (slice_len_ok ((pre ++ pack_tx t) ++ l')) as Hl' by (by rewrite <- (assoc_L (++)), <- Heq).
  destruct (IH (pre ++ pack_tx t) l') as (txs & tail & Hl2 & Htx & Hbt & Hend).
  { rewrite Heq, length_app, pack_tx_length in Hf. lia. }
  { done. }
  { by apply Forall_drop. }
  exists (t :: txs), tail. unfold packed in *. rewrite fmap_cons. cbn [concat]. split; [by rewrite Heq, Hl2, (assoc_L (++))|].
  split; [by constructor|]. split; [done|]. by rewrite (assoc_L (++) pre).
Qed.
End Multisend.

(** C38: The multiSend parser inverts the packing. A payload made of well-formed transactions
    and a tail that holds no complete one parses to those transactions, every payload has
    that shape, and parsing always ends. The one other outcome is a panic, exactly when the
    declared length of the first transaction of the tail fits an index and its end does not. *)
Theorem multisend_round_trip (w : Z) (ck : bool) : w = 32 \/ w = 64 ->
  (forall txs tail, Forall tx_ok txs -> Forall byte_ok tail -> slice_len_ok w (packed txs ++ tail) ->
     (stops w (Z.of_nat (length (packed txs))) tail ->
        parse_multisend_transactions w ck (packed txs ++ tail) = Some (Ok txs)) /\
     (overflows w (Z.of_nat (length (packed txs))) tail ->
        parse_multisend_transactions w ck (packed txs ++ tail) = Some Panic)) /\
  (forall l, Forall byte_ok l -> slice_len_ok w l ->
     exists txs tail, l = packed txs ++ tail /\ Forall tx_ok txs /\ Forall byte_ok tail /\
       (stops w (Z.of_nat (length (packed txs))) tail \/ overflows w (Z.of_nat (length (packed txs))) tail)).
Proof.
  intros Hw. split.
  - intros txs tail Hok Hb Hl. by apply parse_packed.
  - intros l Hb Hl. destruct (split_payload w (S (length l)) [] l) as (txs & tail & Heq & Hok & Hbt & Hend); [lia|done..|].
    by exists txs, tail.
Qed.

Definition demo_tx (op : Z) (data : bytes) : MultisendTx := mkMultisendTx op (from_be (replicate 20 17)) 1000 data.
Definition demo_header (len : U256) : bytes := [0] ++ replicate 52 0 ++ to_be 32 len.
Lemma demo_tx_ok op data : byte_ok op -> Forall byte_ok data -> tx_ok (demo_tx op data).
Proof. intros Ho Hd. split; [done|]. split; [vm_compute; split; congruence|]. split; [vm_compute; split; congruence|done]. Qed.
Lemma multisend_round_trip_witness :
  parse_multisend_transactions 64 true (packed [demo_tx 0 [9; 94; 167; 179]; demo_tx 1 []] ++ [0; 0]) =
    Some (Ok [demo_tx 0 [9; 94; 167; 179]; demo_tx 1 []]) /\
  parse_multisend_transactions 64 false (packed [] ++ demo_header (2 ^ 64 - 1)) = Some Panic.
Proof.
  split.
  - apply (multisend_round_trip 64 true); [by right|..].
    + apply Forall_cons; split; [|apply Forall_singleton]; apply demo_tx_ok; repeat constructor; unfold byte_ok; lia.
    + repeat constructor; unfold byte_ok; lia.
    + unfold slice_len_ok. vm_compute. done.
    + left. simpl. lia.
  - apply (multisend_round_trip 64 false); [by right|constructor|..].
    + unfold demo_header. apply Forall_app. split; [repeat constructor; unfold byte_ok; lia|]. apply Forall_app.
      split; [|apply to_be_ok]. apply Forall_replicate. unfold byte_ok. lia.
    + unfold slice_len_ok. vm_compute. done.
    + vm_compute. split; [congruence|]. split; [done|congruence].
Defined.

(** ** Paths *)
Lemma lor_shift x b k : 0 <= k -> 0 <= b < 2 ^ k -> Z.lor (Z.shiftl x k) b = x * 2 ^ k + b.
Proof.
  intros Hk Hb. assert (Z.land (Z.shiftl x k) b = 0) as Hz.
  { apply Z.bits_inj'. intros i Hi. rewrite Z.land_spec, Z.bits_0. destruct (Z.lt_ge_cases i k) as [Hlt|Hge].
    - by rewrite Z.shiftl_spec_low.
    - destruct (decide (b = 0)) as [->|]; [by rewrite Z.bits_0, andb_false_r|].
      rewrite (Z.bits_above_log2 b i), andb_false_r; [done|lia|]. apply Z.lt_le_trans with k; [apply Z.log2_lt_pow2; lia|done]. }
  pose proof (Z.add_lor_land (Z.shiftl x k) b) as H. rewrite Hz in H. rewrite Z.shiftl_mul_pow2 in * by done. lia.
Qed.
Lemma fee_bytes b0 b1 b2 : byte_ok b1 -> byte_ok b2 -> Z.lor (Z.lor (Z.shiftl b0 16) (Z.shiftl b1 8)) b2 = from_be [b0; b1; b2].
Proof.
  unfold byte_ok. intros H1 H2. replace (Z.shiftl b0 16) with (Z.shiftl (Z.shiftl b0 8) 8) by (by rewrite Z.shiftl_shiftl).
  rewrite <- Z.shiftl_lor, !lor_shift by lia. unfold from_be. simpl. lia.
Qed.

Definition path_range (first : Address) (hops : list (Z * Address)) : Prop :=
  0 <= first < 256 ^ 20 /\ Forall (fun h => 0 <= h.1 < 256 ^ 3 /\ 0 <= h.2 < 256 ^ 20) hops.
Definition path_finish (path : bytes) (r : result PathDecodeError (Z * list Address * list Z)) : result PathDecodeError (list Address * list Z) :=
  r ← r;
  let '(cursor, tokens, fees) := r in
  match slice_range path cursor (cursor + 20) with
  | Ok token => Ok (tokens ++ [from_be token], fees)
  | _ => Panic
  end.

Lemma path_finish_Ok path c tokens fees : path_finish path (Ok (c, tokens, fees)) =
  match slice_range path c (c + 20) with Ok token => Ok (tokens ++ [from_be token], fees) | _ => Panic end.
Proof. reflexivity. Qed.
Lemma pack_path_length first hops : length (pack_path first hops) = (20 + 23 * length hops)%nat.
Proof. revert first. induction hops as [|[fee token] hops IH]; intros first; simpl; rewrite !length_app || idtac; rewrite ?to_be_length, ?IH; simpl; lia. Qed.
Lemma slice_at (pre x rest : bytes) n : n = Z.of_nat (length x) -> slice_range (pre ++ x ++ rest) (Z.of_nat (length pre)) (Z.of_nat (length pre) + n) = Ok x.
Proof.
  intros ->. rewrite slice_range_Ok by (rewrite ?length_app; lia). f_equal. apply slice_middle; [lia|]. lia.
Qed.
Lemma byte_at_app (pre rest : bytes) b c : c = Z.of_nat (length pre) -> byte_at (pre ++ b :: rest) c = Ok b.
Proof. intros ->. unfold byte_at. by rewrite Nat2Z.id, list_lookup_middle. Qed.
Lemma path_loop_pack hops : forall pre first tokens fees, path_range first hops ->
  path_finish (pre ++ pack_path first hops)
    (path_loop (length hops) (pre ++ pack_path first hops) (Z.of_nat (length pre)) tokens fees) =
  Ok (tokens ++ first :: (snd <$> hops), fees ++ (fst <$> hops)).
Proof.
  induction hops as [|[fee token] hops IH]; intros pre first tokens fees [Hf Hh].
  { cbn [length path_loop pack_path]. rewrite path_finish_Ok.
    pose proof (slice_at pre (to_be 20 first) [] 20) as Hs. rewrite app_nil_r in Hs. rewrite Hs by (by rewrite to_be_length).
    rewrite from_to_be by done. by rewrite app_nil_r. }
  apply Forall_cons in Hh as [[Hfee Htok] Hh]. cbn [length path_loop pack_path fst snd] in *.
  rewrite (slice_at pre (to_be 20 first) _ 20) by (by rewrite to_be_length).
  set (f2 := (fee / 256 / 256) mod 256). set (f1 := (fee / 256) mod 256). set (f0 := fee mod 256).
  assert (to_be 3 fee = [f2; f1; f0]) as H3 by reflexivity. rewrite H3.
  set (x := to_be 20 first). assert (length x = 20%nat) as Hx by apply to_be_length. set (rest := pack_path token hops).
  assert (forall p b q c, pre ++ x ++ [f2; f1; f0] ++ rest = (pre ++ x ++ p) ++ b :: q -> c = Z.of_nat (length pre) + 20 + Z.of_nat (length p) ->
    byte_at (pre ++ x ++ [f2; f1; f0] ++ rest) c = Ok b) as Hbyte.
  { intros p b q c -> ->. apply byte_at_app. rewrite !length_app. lia. }
  rewrite (Hbyte [] f2 ([f1; f0] ++ rest)), (Hbyte [f2] f1 ([f0] ++ rest)), (Hbyte [f2; f1] f0 rest)
    by (rewrite <- ?(assoc_L (++)); simpl; (done || lia)).
  rewrite fee_bytes by (unfold byte_ok, f1, f0; apply Z.mod_pos_bound; lia). rewrite <- H3, !from_to_be by done.
  replace (pre ++ x ++ to_be 3 fee ++ rest) with ((pre ++ x ++ to_be 3 fee) ++ rest) by (by rewrite <- !(assoc_L (++))).
  replace (Z.of_nat (length pre) + 20 + 3) with (Z.of_nat (length (pre ++ x ++ to_be 3 fee))) by (rewrite !length_app, Hx, to_be_length; lia).
  unfold rest. rewrite IH by done. rewrite !fmap_cons, <- !(assoc_L (++)). unfold x. by rewrite from_to_be by done.
Qed.
Lemma decode_pack first hops : hops <> [] -> path_range first hops ->
  decode_v3_path (pack_path first hops) = Ok (first :: (snd <$> hops), fst <$> hops).
Proof.
  intros Hne Hr. unfold decode_v3_path. rewrite pack_path_length.
  assert (1 <= length hops)%nat as Hlen by (destruct hops; [done|simpl; lia]).
  replace (Z.of_nat (20 + 23 * length hops) - 20) with (Z.of_nat (length hops) * 23) by lia.
  rewrite (proj2 (Z.ltb_ge _ _)), Z.mod_mul, Z.div_mul, Nat2Z.id by lia. cbn [orb negb Z.eqb].
  apply (path_loop_pack hops [] first [] [] Hr).
Qed.
Lemma path_is_packed k : forall l, Forall byte_ok l -> length l = (20 + 23 * k)%nat ->
  exists first hops, l = pack_path first hops /\ path_range first hops /\ length hops = k.
Proof.
  induction k as [|k IH]; intros l Hb Hl.
  { exists (from_be l), []. cbn [pack_path]. assert (length l = 20%nat) as H20 by lia. rewrite <- H20 at 1. rewrite to_from_be by done.
    split; [done|]. split; [|done]. split; [|constructor]. change 20 with (Z.of_nat 20). rewrite <- H20. by apply from_be_range. }
  set (a := take 20 l). set (b := take 3 (drop 20 l)). set (c := drop 23 l).
  assert (l = a ++ b ++ c) as Habc by (unfold a, b, c; change 23%nat with (20 + 3)%nat; by rewrite <- drop_drop, !take_drop).
  assert (length a = 20%nat /\ length b = 3%nat) as [La Lb] by (unfold a, b; rewrite !length_take, length_drop; lia).
  assert (Forall byte_ok a /\ Forall byte_ok b /\ Forall byte_ok c) as (Ba & Bb & Bc) by (rewrite Habc, !Forall_app in Hb; tauto).
  destruct (IH c Bc) as (first & hops & Hc & [Hr1 Hr2] & Hk); [unfold c; rewrite length_drop; lia|].
  exists (from_be a), ((from_be b, first) :: hops). cbn [pack_path length]. rewrite <- La at 1. rewrite <- Lb at 1. rewrite !to_from_be, <- Hc by done.
  split; [exact Habc|]. split; [|by rewrite Hk]. split; [change 20 with (Z.of_nat 20); rewrite <- La; by apply from_be_range|].
  constructor; [|done]. simpl. split; [change 3 with (Z.of_nat 3); rewrite <- Lb; by apply from_be_range|done].
Qed.

(** Decoding a V3 path inverts its packing: packed paths decode to their tokens and fees, a
    decoded path is the packing of what was read, and the error is raised exactly for the
    lengths that are not [20 + 23 * hops] with at least one hop. No byte string panics. *)
Theorem v3_path_round_trip path : Forall byte_ok path ->
  (forall first hops, hops <> [] -> path_range first hops ->
     decode_v3_path (pack_path first hops) = Ok (first :: (snd <$> hops), fst <$> hops)) /\
  match decode_v3_path path with
  | Ok (tokens, fees) => exists first hops, hops <> [] /\ path_range first hops /\ path = pack_path first hops /\
      tokens = first :: (snd <$> hops) /\ fees = fst <$> hops
  | Err (InvalidLength got) => got = Z.of_nat (length path) /\ forall hops, (1 <= hops)%nat -> length path <> (20 + 23 * hops)%nat
  | Panic => False
  end.
Proof.
  intros Hb. split; [by apply decode_pack|].
  destruct ((Z.of_nat (length path) <? 20 + 23) || negb ((Z.of_nat (length path) - 20) mod 23 =? 0)) eqn:Hc.
  - unfold decode_v3_path. rewrite Hc. split; [done|]. intros k Hk Hlen. apply orb_true_iff in Hc as [H1%Z.ltb_lt|H2]; [lia|].
    replace (Z.of_nat (length path) - 20) with (Z.of_nat k * 23) in H2 by lia. by rewrite Z.mod_mul in H2.
  - apply orb_false_iff in Hc as [H1%Z.ltb_ge H2%negb_false_iff%Z.eqb_eq]. apply Z.mod_divide in H2 as [q Hq]; [|done].
    destruct (path_is_packed (Z.to_nat q) path Hb) as (first & hops & -> & Hr & Hl); [lia|].
    assert (hops <> []) as Hne by (intros ->; simpl in Hl; lia). rewrite decode_pack by done. by exists first, hops.
Qed.

Definition demo_path : bytes := Eval vm_compute in pack_path 7 [(500, 8); (3000, 9)].
Lemma v3_path_round_trip_witness : decode_v3_path demo_path = Ok ([7; 8; 9], [500; 3000]) /\
  exists first hops, demo_path = pack_path first hops /\ [500; 3000] = fst <$> hops.
Proof.
  assert (Forall byte_ok demo_path) as Hb by (repeat constructor; unfold byte_ok; lia).
  destruct (v3_path_round_trip demo_path Hb) as [_ H].
  assert (decode_v3_path demo_path = Ok ([7; 8; 9], [500; 3000])) as Hd by (vm_compute; reflexivity).
  split; [done|]. rewrite Hd in H. destruct H as (first & hops & _ & _ & He & _ & Hf). by exists first, hops.
Defined.
End PackedPayloads.
