(* ===== verification/AbiDecode.v ===== *)
(** * Calldata decoding (adapters/abi-resolver/src)

    Standard-ABI decoding against a signature (decode.rs), the opcode streams of
    router calls (subdecode/opcode_stream.rs), tagged payloads (enum_tagged.rs),
    nested calls (recurse.rs), the signature indexes and the tiered resolver
    (sourcify.rs, openchain.rs, resolver.rs), the bridge to the mappers' values
    (bridge.rs) and the splitters (splitter/). The ABI codec itself is alloy's: its
    functions form the class [Alloy]. *)
From stdpp Require Import base tactics numbers list strings gmap pretty.
From S2P Require Import Prelude Types Bytes.

Module AbiDecode.

(** ** alloy's values, types and descriptors *)
Inductive DynSolValue :=
| SvBool (b : bool) | SvInt (i size : Z) | SvUint (u size : Z) | SvFixedBytes (word : bytes) (size : nat)
| SvAddress (a : Address) | SvFunction (f : bytes) | SvBytes (b : bytes) | SvString (s : string)
| SvArray (items : list DynSolValue) | SvFixedArray (items : list DynSolValue) | SvTuple (items : list DynSolValue).
Inductive DynSolType :=
| StBool | StInt (size : Z) | StUint (size : Z) | StFixedBytes (size : Z) | StAddress | StFunction | StBytes | StString
| StArray (inner : DynSolType) | StFixedArray (inner : DynSolType) (size : Z) | StTuple (elements : list DynSolType).
Inductive Param := mkParam { pa_name : string; pa_ty : string; pa_components : list Param }.
Record AbiFunction := mkAbiFunction { fn_name : string; fn_inputs : list Param }.

Class Alloy := {
  fn_selector : AbiFunction -> bytes;
  fn_signature : AbiFunction -> string;
  fn_parse : string -> string + AbiFunction;
  (** [abi_decode_input(data, validate)] *)
  abi_decode_input : AbiFunction -> bytes -> bool -> string + list DynSolValue;
  params_from_json : string -> string + list Param;
  type_from_str : string -> option DynSolType;
  minimum_words : DynSolType -> Z;
  selector_type : Param -> string;
  (** The outer [execute] payloads, by the [sol!] macro. *)
  execute_decode_raw : bytes -> string + (bytes * list bytes);
  execute_deadline_decode_raw : bytes -> string + (bytes * list bytes);
  sel_hex : bytes -> string;
}.

(** ** decode.rs *)
Record DecodedArg := mkDecodedArg { da_name : string; da_sol_type : string; da_value : DynSolValue; da_components : list Param }.
Record DecodedCall := mkDecodedCall { dc_function_name : string; dc_signature : string; dc_args : list DecodedArg }.
Inductive DecodeError :=
| TooShort (n : nat) | SelectorMismatch (got expected : string) | AbiDecodeFailed (e : string)
| BadSignature (signature e : string) | ArgCountMismatch (expected got : nat) | LengthMismatch (expected_bytes got_bytes : Z).

(** [map_err] on what alloy returns. *)
Definition lift_err {E F A} (f : E -> F) (r : E + A) : result F A :=
  match r with inr a => Ok a | inl e => Err (f e) end.
Definition sum_ok {E A} (r : E + A) : option A := match r with inr a => Some a | inl _ => None end.
Definition arg_of (idx : nat) (p : Param) (value : DynSolValue) : DecodedArg :=
  mkDecodedArg (if String.eqb (pa_name p) "" then ("arg" +:+ pretty idx)%string else pa_name p) (pa_ty p) value (pa_components p).
Definition build_decoded_args (f : AbiFunction) (values : list DynSolValue) : list DecodedArg :=
  imap (fun idx pv => arg_of idx pv.1 pv.2) (zip (fn_inputs f) values).

Section Decode.
Context {A0 : Alloy}.
Definition selector_from_calldata (calldata : bytes) : option bytes :=
  if (length calldata <? 4)%nat then None else Some (take 4 calldata).
Definition decode_with_function (f : AbiFunction) (calldata : bytes) : result DecodeError DecodedCall :=
  if (length calldata <? 4)%nat then Err (TooShort (length calldata))
  else if negb (bool_decide (take 4 calldata = fn_selector f))
  then Err (SelectorMismatch (sel_hex (take 4 calldata)) (sel_hex (fn_selector f)))
  else
    values ← lift_err AbiDecodeFailed (abi_decode_input f (drop 4 calldata) false);
    if negb (length values =? length (fn_inputs f))%nat
    then Err (ArgCountMismatch (length (fn_inputs f)) (length values))
    else Ok (mkDecodedCall (fn_name f) (fn_signature f) (build_decoded_args f values)).
Definition decode_with_signature (signature : string) (calldata : bytes) : result DecodeError DecodedCall :=
  f ← lift_err (BadSignature signature) (fn_parse signature);
  decode_with_function f calldata.

Fixpoint is_dynamic_type (ty : DynSolType) : bool :=
  match ty with
  | StBytes | StString | StArray _ => true
  | StFixedArray inner _ => is_dynamic_type inner
  | StTuple elements => existsb is_dynamic_type elements
  | _ => false
  end.
(** [checked_add] and [checked_mul] of [usize]. *)
Definition usize_checked (n : Z) : option Z := if n <=? U64_MAX then Some n else None.
Definition static_words (words : option Z) (p : Param) : option Z :=
  words ← words;
  ty ← type_from_str (pa_ty p);
  if is_dynamic_type ty then None else usize_checked (words + minimum_words ty).
Definition expected_static_args_len (f : AbiFunction) : option Z :=
  words ← fold_left static_words (fn_inputs f) (Some 0);
  usize_checked (words * 32).
Definition validate_calldata_length (f : AbiFunction) (calldata : bytes) : result DecodeError () :=
  if (length calldata <? 4)%nat then Err (TooShort (length calldata))
  else match expected_static_args_len f with
       | None => Ok ()
       | Some expected =>
           let got := Z.of_nat (length calldata) - 4 in
           if negb (got =? expected) then Err (LengthMismatch expected got) else Ok ()
       end.
Definition decode_with_function_strict (f : AbiFunction) (calldata : bytes) : result DecodeError DecodedCall :=
  _ ← validate_calldata_length f calldata; decode_with_function f calldata.
Definition decode_with_signature_strict (signature : string) (calldata : bytes) : result DecodeError DecodedCall :=
  f ← lift_err (BadSignature signature) (fn_parse signature);
  decode_with_function_strict f calldata.

(** ** opcode_stream.rs *)
Record OpcodeEntry := mkOpcodeEntry {
  oe_opcode : Z; oe_name : string; oe_input_signatures : list string; oe_input_json_abi : option string }.
Record OpcodeTable := mkOpcodeTable { ot_mask : Z; ot_allow_revert_bit : Z; ot_entries : list OpcodeEntry }.
Inductive StepDecodeError := UnknownOpcode | StepBadSignature (e : string) | StepAbiDecode (e : string) | NoSchema.
Record DecodedStep := mkDecodedStep {
  ds_index : nat; ds_raw_byte : Z; ds_opcode : Z; ds_allow_revert : bool; ds_name : string;
  ds_args : option (list DecodedArg); ds_error : option StepDecodeError; ds_raw_input : bytes }.

Definition opcode_lookup (t : OpcodeTable) (opcode : Z) : option OpcodeEntry :=
  find_first (fun e => oe_opcode e =? opcode) (ot_entries t).
Definition function_from_json_inputs (json entry_name : string) : string + AbiFunction :=
  match params_from_json json with
  | inr inputs => inr (mkAbiFunction entry_name inputs)
  | inl e => inl ("invalid Param JSON: " +:+ e)%string
  end.

(** The loop over the Solidity signatures; [last_error] is the error so far. *)
Fixpoint try_signatures (sigs : list string) (input : bytes) (last_error : option StepDecodeError)
    : option (list DecodedArg) * option StepDecodeError :=
  match sigs with
  | [] => (None, last_error)
  | sig :: rest =>
      match fn_parse ("step" +:+ sig)%string with
      | inr f =>
          match abi_decode_input f input true with
          | inr values => (Some (build_decoded_args f values), None)
          | inl _ => try_signatures rest input (Some (StepAbiDecode ("input did not match candidate `" +:+ sig +:+ "`")%string))
          end
      | inl e => try_signatures rest input (Some (StepBadSignature e))
      end
  end.
Definition decode_step_input (e : OpcodeEntry) (input : bytes) : option (list DecodedArg) * option StepDecodeError :=
  match oe_input_signatures e, oe_input_json_abi e with
  | [], None => (None, Some NoSchema)
  | sigs, Some json =>
      match function_from_json_inputs json (oe_name e) with
      | inr f =>
          match abi_decode_input f input true with
          | inr values => (Some (build_decoded_args f values), None)
          | inl x => try_signatures sigs input (Some (StepAbiDecode ("JSON ABI decode failed: " +:+ x)%string))
          end
      | inl x => try_signatures sigs input
                   (Some (StepBadSignature ("could not parse JSON ABI for `" +:+ oe_name e +:+ "`: " +:+ x)%string))
      end
  | sigs, None => try_signatures sigs input None
  end.
Definition dispatch_step (inputs : list bytes) (t : OpcodeTable) (index : nat) (raw_byte : Z) : DecodedStep :=
  let opcode := Z.land raw_byte (ot_mask t) in
  let allow_revert := negb (Z.land raw_byte (ot_allow_revert_bit t) =? 0) in
  let raw_input := default [] (inputs !! index) in
  match opcode_lookup t opcode with
  | None => mkDecodedStep index raw_byte opcode allow_revert "UNKNOWN" None (Some UnknownOpcode) raw_input
  | Some e =>
      let '(args, error) := decode_step_input e raw_input in
      mkDecodedStep index raw_byte opcode allow_revert (oe_name e) args error raw_input
  end.
Definition dispatch (commands : bytes) (inputs : list bytes) (t : OpcodeTable) : list DecodedStep :=
  imap (dispatch_step inputs t) commands.

(** ** enum_tagged.rs *)
Record EnumEntry := mkEnumEntry { ee_kind : Z; ee_name : string; ee_payload_json_abi : string }.
Record EnumTable := mkEnumTable { et_name : string; et_entries : list EnumEntry }.
Record DecodedEnum := mkDecodedEnum { de_kind : Z; de_kind_name : string; de_table_name : string; de_args : list DecodedArg }.
Definition res_ok {E A} (r : result E A) : option A := match r with Ok a => Some a | _ => None end.
Definition enum_dispatch (input : bytes) (t : EnumTable) : option DecodedEnum :=
  if (length input <? 32)%nat then None
  else
    let kind := from_be (slice 28 4 input) in
    if existsb (fun b => negb (b =? 0)) (take 28 input) then None
    else
      e ← find_first (fun e => ee_kind e =? kind) (et_entries t);
      inputs ← sum_ok (params_from_json (ee_payload_json_abi e));
      let f := mkAbiFunction (ee_name e) inputs in
      values ← sum_ok (abi_decode_input f input true);
      Some (mkDecodedEnum kind (ee_name e) (et_name t) (build_decoded_args f values)).
Fixpoint try_dispatch (input : bytes) (tables : list EnumTable) : option DecodedEnum :=
  match tables with
  | [] => None
  | t :: rest => match enum_dispatch input t with Some d => Some d | None => try_dispatch input rest end
  end.
End Decode.

(** ** recurse.rs *)
Definition MULTICALL_BYTES_ARRAY : bytes := [0xac; 0x96; 0x50; 0xd8].
Definition MULTICALL_UINT256_BYTES_ARRAY : bytes := [0x5a; 0xe4; 0x01; 0xdc].
Definition MULTICALL_BYTES32_BYTES_ARRAY : bytes := [0x1f; 0x04; 0x64; 0xd1].
Definition SUSHI_SNWAP_SELECTOR : bytes := [0x5f; 0x3b; 0xd1; 0xc8].
Definition MORPHO_BUNDLER_MULTICALL_SELECTOR : bytes := [0x37; 0x4f; 0x43; 0x5d].
Definition ONEINCH_V5_SWAP_SELECTOR : bytes := [0x12; 0xaa; 0x3c; 0xaf].
Definition COW_SETTLEMENT_SETTLE_SELECTOR : bytes := [0x13; 0xd7; 0x9a; 0x0b].

Definition is_self_multicall (selector : bytes) : bool :=
  bool_decide (selector = MULTICALL_BYTES_ARRAY) || bool_decide (selector = MULTICALL_UINT256_BYTES_ARRAY)
  || bool_decide (selector = MULTICALL_BYTES32_BYTES_ARRAY).
Definition as_bytes (v : DynSolValue) : option bytes := match v with SvBytes b => Some b | _ => None end.
Definition as_address (v : DynSolValue) : option Address := match v with SvAddress a => Some a | _ => None end.
(** Collecting with an early [return None]. *)
Fixpoint collect {A B} (f : A -> option B) (l : list A) : option (list B) :=
  match l with
  | [] => Some []
  | x :: rest => y ← f x; ys ← collect f rest; Some (y :: ys)
  end.
Definition extract_subcalls (d : DecodedCall) : option (list bytes) :=
  arg ← last (dc_args d);
  match da_value arg with SvArray items => collect as_bytes items | _ => None end.

Record ChildCall := mkChildCall { cc_target : Address; cc_calldata : bytes }.
(** [None] for [array_arg] is the [usize::MAX] marker: the last argument. *)
Inductive RecurseRule :=
| SelfArrayBytes (array_arg : option nat)
| NamedTarget (target_arg payload_arg : nat)
| AddressBytesTuples (array_arg target_field payload_field : nat)
| NestedAddressBytesTuples (array_arg target_field payload_field : nat).
Definition lookup_recurse_rule (selector : bytes) : option RecurseRule :=
  if is_self_multicall selector then Some (SelfArrayBytes None)
  else if bool_decide (selector = SUSHI_SNWAP_SELECTOR) then Some (NamedTarget 5 6)
  else if bool_decide (selector = ONEINCH_V5_SWAP_SELECTOR) then Some (NamedTarget 0 3)
  else if bool_decide (selector = MORPHO_BUNDLER_MULTICALL_SELECTOR) then Some (AddressBytesTuples 0 0 1)
  else if bool_decide (selector = COW_SETTLEMENT_SETTLE_SELECTOR) then Some (NestedAddressBytesTuples 3 0 2)
  else None.
Definition tuple_child (target_field payload_field : nat) (item : DynSolValue) : option ChildCall :=
  match item with
  | SvTuple fields =>
      target ← fields !! target_field; target ← as_address target;
      payload ← fields !! payload_field; payload ← as_bytes payload;
      Some (mkChildCall target payload)
  | _ => None
  end.
Definition group_children (target_field payload_field : nat) (group : DynSolValue) : option (list ChildCall) :=
  match group with SvArray items => collect (tuple_child target_field payload_field) items | _ => None end.
Definition extract_children (d : DecodedCall) (rule : RecurseRule) (parent_target : Address) : option (list ChildCall) :=
  match rule with
  | SelfArrayBytes array_arg =>
      arg ← match array_arg with None => last (dc_args d) | Some i => dc_args d !! i end;
      match da_value arg with
      | SvArray items => collect (fun v => mkChildCall parent_target <$> as_bytes v) items
      | _ => None
      end
  | NamedTarget target_arg payload_arg =>
      target ← dc_args d !! target_arg; target ← as_address (da_value target);
      payload ← dc_args d !! payload_arg; payload ← as_bytes (da_value payload);
      Some [mkChildCall target payload]
  | AddressBytesTuples array_arg target_field payload_field =>
      arg ← dc_args d !! array_arg;
      group_children target_field payload_field (da_value arg)
  | NestedAddressBytesTuples array_arg target_field payload_field =>
      arg ← dc_args d !! array_arg;
      match da_value arg with
      | SvFixedArray groups | SvArray groups => (@concat _) <$> collect (group_children target_field payload_field) groups
      | _ => None
      end
  end.

(** ** The resolver's indexes and tiers (sourcify.rs, openchain.rs, resolver.rs) *)
Record FunctionInfo := mkFunctionInfo { fi_name : string; fi_signature : string; fi_arg_names : list string; fi_function : AbiFunction }.
Record SignatureCandidate := mkSignatureCandidate { sc_signature : string; sc_verified : bool }.
Notation SourcifyIndex := (gmap (Z * Address * bytes) FunctionInfo).
Notation OpenchainIndex := (gmap bytes (list SignatureCandidate)).
Inductive Source := Sourcify | SourcifyDb | Openchain.
Record Resolved := mkResolved { re_source : Source; re_decoded : DecodedCall }.
Inductive ResolveOutcome := ResolvedAs (r : Resolved) | NotFound.

(** [sort_by_key(|c| !c.verified)] is stable: verified candidates first. *)
Definition verified_first (l : list SignatureCandidate) : list SignatureCandidate :=
  List.filter sc_verified l ++ List.filter (fun c => negb (sc_verified c)) l.
Definition openchain_insert (idx : OpenchainIndex) (selector : bytes) (c : SignatureCandidate) : OpenchainIndex :=
  <[selector := verified_first (default [] (idx !! selector) ++ [c])]> idx.
Definition openchain_lookup (idx : OpenchainIndex) (selector : bytes) : list SignatureCandidate := default [] (idx !! selector).
Definition openchain_best (idx : OpenchainIndex) (selector : bytes) : option SignatureCandidate := head (openchain_lookup idx selector).

Section Resolve.
Context {A0 : Alloy}.
Definition insert_function (chain_id : Z) (address : Address) (idx : SourcifyIndex) (f : AbiFunction) : SourcifyIndex :=
  <[(chain_id, address, fn_selector f) := mkFunctionInfo (fn_name f) (fn_signature f) (pa_name <$> fn_inputs f) f]> idx.
Definition insert_contract (idx : SourcifyIndex) (chain_id : Z) (address : Address) (abi : list AbiFunction) : SourcifyIndex :=
  fold_left (insert_function chain_id address) abi idx.
Definition sourcify_lookup (idx : SourcifyIndex) (chain_id : Z) (address : Address) (selector : bytes) : option FunctionInfo :=
  idx !! (chain_id, address, selector).

(** The SQLite tier is a database query; its errors count as a miss. *)
Record Resolver := mkResolver {
  rv_sourcify : SourcifyIndex;
  rv_sqlite : option (Z -> Address -> bytes -> string + option FunctionInfo);
  rv_openchain : OpenchainIndex }.
Definition try_function (calldata : bytes) (info : option FunctionInfo) : option DecodedCall :=
  info ← info; res_ok (decode_with_function (fi_function info) calldata).
Fixpoint try_candidates (calldata : bytes) (l : list SignatureCandidate) : option DecodedCall :=
  match l with
  | [] => None
  | c :: rest =>
      match res_ok (decode_with_signature (sc_signature c) calldata) with
      | Some d => Some d
      | None => try_candidates calldata rest
      end
  end.
Definition resolve (r : Resolver) (chain_id : Z) (address : Address) (calldata : bytes) : ResolveOutcome :=
  match selector_from_calldata calldata with
  | None => NotFound
  | Some selector =>
      match try_function calldata (sourcify_lookup (rv_sourcify r) chain_id address selector) with
      | Some decoded => ResolvedAs (mkResolved Sourcify decoded)
      | None =>
          match try_function calldata (db ← rv_sqlite r; info ← sum_ok (db chain_id address selector); info) with
          | Some decoded => ResolvedAs (mkResolved SourcifyDb decoded)
          | None =>
              match try_candidates calldata (openchain_lookup (rv_openchain r) selector) with
              | Some decoded => ResolvedAs (mkResolved Openchain decoded)
              | None => NotFound
              end
          end
      end
  end.
End Resolve.

(** ** The mappers' values (decoder.rs, bridge.rs) *)
Inductive DecodedValue :=
| DvAddress (a : Address) | DvUint (u : Z) | DvInt (i : Z) | DvBool (b : bool) | DvBytes (b : bytes) | DvString (s : string)
| DvArray (items : list DecodedValue) | DvTuple (items : list DecodedValue).
Record MappedArg := mkMappedArg { ma_name : string; ma_abi_type : string; ma_value : DecodedValue }.
Inductive MappedCall := mkMappedCall {
  mc_decoder_id : string; mc_function_signature : string; mc_args : list MappedArg; mc_nested : list MappedCall }.
Inductive BridgeError := AddressFormat (e : string) | UnsupportedValue (e : string).

(** [convert_value]; an address keeps its bytes through its hexadecimal form. *)
Fixpoint convert_value (value : DynSolValue) : result BridgeError DecodedValue :=
  let fix convert_values (items : list DynSolValue) : result BridgeError (list DecodedValue) :=
    match items with
    | [] => Ok []
    | v :: rest => x ← convert_value v; xs ← convert_values rest; Ok (x :: xs)
    end in
  match value with
  | SvAddress a => Ok (DvAddress a)
  | SvUint u _ => Ok (DvUint u)
  | SvInt i _ => Ok (DvInt i)
  | SvBool b => Ok (DvBool b)
  | SvBytes b => Ok (DvBytes b)
  | SvFixedBytes word len => if (len <=? length word)%nat then Ok (DvBytes (take len word)) else Panic
  | SvString s => Ok (DvString s)
  | SvArray items | SvFixedArray items => xs ← convert_values items; Ok (DvArray xs)
  | SvTuple items => xs ← convert_values items; Ok (DvTuple xs)
  | SvFunction _ => Err (UnsupportedValue "function")
  end.
(** [dyn_to_decoded] of the splitter: total, a function value becomes empty bytes. *)
Fixpoint dyn_to_decoded (value : DynSolValue) : result Empty_set DecodedValue :=
  let fix map_values (items : list DynSolValue) : result Empty_set (list DecodedValue) :=
    match items with
    | [] => Ok []
    | v :: rest => x ← dyn_to_decoded v; xs ← map_values rest; Ok (x :: xs)
    end in
  match value with
  | SvAddress a => Ok (DvAddress a)
  | SvUint u _ => Ok (DvUint u)
  | SvInt i _ => Ok (DvInt i)
  | SvBool b => Ok (DvBool b)
  | SvBytes b => Ok (DvBytes b)
  | SvFixedBytes word len => if (len <=? length word)%nat then Ok (DvBytes (take len word)) else Panic
  | SvString s => Ok (DvString s)
  | SvArray items | SvFixedArray items => xs ← map_values items; Ok (DvArray xs)
  | SvTuple items => xs ← map_values items; Ok (DvTuple xs)
  | SvFunction _ => Ok (DvBytes [])
  end.

Fixpoint collectM {E A B} (f : A -> result E B) (l : list A) : result E (list B) :=
  match l with
  | [] => Ok []
  | x :: rest => y ← f x; ys ← collectM f rest; Ok (y :: ys)
  end.

(** The selectors of [decoder_id_for_selector], with the identifiers of ids.rs. *)
Definition decoder_ids : list (bytes * string) :=
  [([0x09; 0x5e; 0xa7; 0xb3], "erc20/approve");
   ([0xa9; 0x05; 0x9c; 0xbb], "erc20/transfer");
   ([0x23; 0xb8; 0x72; 0xdd], "erc20/transferFrom");
   ([0xa2; 0x2c; 0xb4; 0x65], "erc/setApprovalForAll");
   ([0x38; 0xed; 0x17; 0x39], "uniswap-v2/swapExactTokensForTokens");
   ([0x88; 0x03; 0xdb; 0xee], "uniswap-v2/swapTokensForExactTokens");
   ([0x7f; 0xf3; 0x6a; 0xb5], "uniswap-v2/swapExactETHForTokens");
   ([0x4a; 0x25; 0xd9; 0x4a], "uniswap-v2/swapTokensForExactETH");
   ([0x18; 0xcb; 0xaf; 0xe5], "uniswap-v2/swapExactTokensForETH");
   ([0xfb; 0x3b; 0xdb; 0x41], "uniswap-v2/swapETHForExactTokens");
   ([0x5c; 0x11; 0xd7; 0x95], "uniswap-v2/swapExactTokensForTokensSupportingFeeOnTransferTokens");
   ([0xb6; 0xf9; 0xde; 0x95], "uniswap-v2/swapExactETHForTokensSupportingFeeOnTransferTokens");
   ([0x79; 0x1a; 0xc9; 0x47], "uniswap-v2/swapExactTokensForETHSupportingFeeOnTransferTokens");
   ([0x41; 0x4b; 0xf3; 0x89], "uniswap_v3");
   ([0xc0; 0x4b; 0x8d; 0x59], "uniswap_v3");
   ([0xdb; 0x3e; 0x21; 0x98], "uniswap-v3/exactOutputSingle");
   ([0xf2; 0x8c; 0x04; 0x98], "uniswap-v3/exactOutput");
   ([0x04; 0xe4; 0x5a; 0xaf], "swap-router-02/exactInputSingle");
   ([0xb8; 0x58; 0x18; 0x3f], "swap-router-02/exactInput");
   ([0x50; 0x23; 0xb4; 0xdf], "swap-router-02/exactOutputSingle");
   ([0x09; 0xb8; 0x13; 0x46], "swap-router-02/exactOutput");
   ([0xd0; 0xe3; 0x0d; 0xb0], "weth/deposit");
   ([0x2e; 0x1a; 0x7d; 0x4d], "weth/withdraw")]%string.
Definition decoder_id_for_selector (selector : bytes) : option string :=
  snd <$> find_first (fun e => bool_decide (e.1 = selector)) decoder_ids.

Section Bridge.
Context {A0 : Alloy}.
Definition canonical_abi_type (ty : string) (components : list Param) : string :=
  match components with [] => ty | _ => selector_type (mkParam "" ty components) end.
Definition convert_arg (arg : DecodedArg) : result BridgeError MappedArg :=
  value ← convert_value (da_value arg);
  Ok (mkMappedArg (da_name arg) (canonical_abi_type (da_sol_type arg) (da_components arg)) value).
Definition flatten_field (iv : nat * (DynSolValue * Param)) : result BridgeError MappedArg :=
  let '(i, (value, c)) := iv in
  value ← convert_value value;
  Ok (mkMappedArg (if String.eqb (pa_name c) "" then ("arg" +:+ pretty i)%string else pa_name c)
        (canonical_abi_type (pa_ty c) (pa_components c)) value).
Definition flatten_tuple_arg (arg : DecodedArg) : result BridgeError (list MappedArg) :=
  match da_value arg with
  | SvTuple items =>
      if negb (length items =? length (da_components arg))%nat then
        value ← convert_value (SvTuple items);
        Ok [mkMappedArg (da_name arg) (canonical_abi_type (da_sol_type arg) (da_components arg)) value]
      else collectM flatten_field (imap (fun i vc => (i, vc)) (zip items (da_components arg)))
  | _ => Err (UnsupportedValue "flatten_tuple_arg called on non-tuple")
  end.
Definition convert_legacy_call (legacy : DecodedCall) (selector : bytes)
    : result BridgeError MappedCall :=
  let decoder_id := match decoder_id_for_selector selector with Some id => id | None => ("fallback/0x" +:+ sel_hex selector)%string end in
  args ← match dc_args legacy with
         | [mkDecodedArg n ty (SvTuple items) (c :: cs)] => flatten_tuple_arg (mkDecodedArg n ty (SvTuple items) (c :: cs))
         | args => collectM convert_arg args
         end;
  Ok (mkMappedCall decoder_id (dc_signature legacy) args []).

(** ** Splitters (splitter/) *)
Record CallMatchKey := mkCallMatchKey { ck_chain_id : Z; ck_to : Address; ck_selector : bytes }.
Record SplitContext := mkSplitContext { sx_chain_id : Z; sx_from : Address; sx_to : Address; sx_value_wei : string; sx_block_timestamp : option Z }.
Record SubCall := mkSubCall { su_to : Address; su_value_wei : string; su_calldata : bytes; su_decoded : option MappedCall }.
Inductive SplitError := CalldataTooShort (n : nat) | OuterDecode (e : string).

Definition identity_split (ctx : SplitContext) (calldata : bytes) : result SplitError (list SubCall) :=
  if (length calldata <? 4)%nat then Err (CalldataTooShort (length calldata))
  else Ok [mkSubCall (sx_to ctx) (sx_value_wei ctx) calldata None].

Definition EXECUTE_DEADLINE_SELECTOR : bytes := [0x35; 0x93; 0x56; 0x4c].
Definition EXECUTE_SELECTOR : bytes := [0x24; 0x85; 0x6b; 0xc3].
Definition decode_outer_call (calldata : bytes) : result SplitError (bytes * list bytes) :=
  if (length calldata <? 4)%nat then Err (CalldataTooShort (length calldata))
  else
    let selector := take 4 calldata in
    let payload := drop 4 calldata in
    if bool_decide (selector = EXECUTE_SELECTOR)
    then lift_err (fun e => OuterDecode ("execute: " +:+ e)%string) (execute_decode_raw payload)
    else if bool_decide (selector = EXECUTE_DEADLINE_SELECTOR)
    then lift_err (fun e => OuterDecode ("executeWithDeadline: " +:+ e)%string) (execute_deadline_decode_raw payload)
    else Err (OuterDecode ("unrecognised UR selector 0x" +:+ sel_hex selector)%string).

(** The opcodes decoded by the splitter itself, and the identifier of their mapper. *)
Definition ur_decoder_id (opcode : Z) : option string :=
  if opcode =? 0x00 then Some "uniswap-ur/V3_SWAP_EXACT_IN"%string
  else if opcode =? 0x01 then Some "uniswap-ur/V3_SWAP_EXACT_OUT"%string
  else if opcode =? 0x04 then Some "uniswap-ur/SWEEP"%string
  else if opcode =? 0x05 then Some "uniswap-ur/TRANSFER"%string
  else if opcode =? 0x08 then Some "uniswap-ur/V2_SWAP_EXACT_IN"%string
  else if opcode =? 0x09 then Some "uniswap-ur/V2_SWAP_EXACT_OUT"%string
  else if opcode =? 0x0b then Some "uniswap-ur/WRAP_ETH"%string
  else if opcode =? 0x0c then Some "uniswap-ur/UNWRAP_WETH"%string
  else if opcode =? 0x10 then Some "uniswap-ur/V4_SWAP"%string
  else None.
Definition mapped_arg (a : DecodedArg) : result Empty_set MappedArg :=
  v ← dyn_to_decoded (da_value a); Ok (mkMappedArg (da_name a) (da_sol_type a) v).
Definition pre_decode_for_opcode (step : DecodedStep) : result Empty_set (option MappedCall) :=
  match ur_decoder_id (ds_opcode step), ds_args step with
  | Some id, Some args =>
      args ← collectM mapped_arg args;
      Ok (Some (mkMappedCall id (ds_name step +:+ "(...)")%string args []))
  | _, _ => Ok None
  end.
Definition step_to_subcall (ctx : SplitContext) (step : DecodedStep) : result Empty_set SubCall :=
  decoded ← pre_decode_for_opcode step;
  Ok (mkSubCall (sx_to ctx) (sx_value_wei ctx) (ds_opcode step :: ds_raw_input step) decoded).
Definition widen_err {E A} (r : result Empty_set A) : result E A :=
  match r with Ok a => Ok a | Err e => match e with end | Panic => Panic end.
Definition ur_split (t : OpcodeTable) (ctx : SplitContext) (calldata : bytes) : result SplitError (list SubCall) :=
  ci ← decode_outer_call calldata;
  widen_err (collectM (step_to_subcall ctx) (dispatch ci.1 ci.2 t)).
Definition ur_match_keys (deployments : list (Z * Address)) : list CallMatchKey :=
  d ← deployments; (fun s => mkCallMatchKey d.1 d.2 s) <$> [EXECUTE_SELECTOR; EXECUTE_DEADLINE_SELECTOR].
End Bridge.

(** [InMemorySplitterRegistry] and [InMemoryDecoderRegistry]: building panics on a key that
    is registered twice; decoders also answer for the wildcard address. *)
#[global] Instance CallMatchKey_eq_dec : EqDecision CallMatchKey.
Proof. solve_decision. Defined.
#[global] Program Instance CallMatchKey_countable : Countable CallMatchKey :=
  inj_countable' (fun k => (ck_chain_id k, ck_to k, ck_selector k)) (fun '(c, t, s) => mkCallMatchKey c t s) _.
Next Obligation. by intros [c t s]. Qed.
Section Registry.
Context {V : Type}.
Definition register_key (v : V) (reg : gmap CallMatchKey V) (k : CallMatchKey) : result Empty_set (gmap CallMatchKey V) :=
  match reg !! k with Some _ => Panic | None => Ok (<[k := v]> reg) end.
Definition registry_build (entries : list (list CallMatchKey * V)) : result Empty_set (gmap CallMatchKey V) :=
  foldM (fun reg e => foldM (register_key e.2) e.1 reg) entries ∅.
Definition WILDCARD_TO : Address := 0.
Definition decoder_resolve (reg : gmap CallMatchKey V) (key : CallMatchKey) : option V :=
  match reg !! key with
  | Some v => Some v
  | None => reg !! mkCallMatchKey (ck_chain_id key) WILDCARD_TO (ck_selector key)
  end.

(** *** Building a registry *)
Definition pairs (entries : list (list CallMatchKey * V)) : list (CallMatchKey * V) :=
  e ← entries; (fun k => (k, e.2)) <$> e.1.
Lemma register_keys v ks : forall reg,
  foldM (register_key v) ks reg = foldM (fun r (kv : CallMatchKey * V) => register_key kv.2 r kv.1) ((fun k => (k, v)) <$> ks) reg.
Proof.
  induction ks as [|k ks IH]; intros reg; [done|]. rewrite fmap_cons. cbn [foldM fst snd].
  destruct (register_key v reg k); simpl; [apply IH|done..].
Qed.
Lemma registry_build_pairs entries reg :
  foldM (fun reg e => foldM (register_key e.2) e.1 reg) entries reg =
  foldM (fun r (kv : CallMatchKey * V) => register_key kv.2 r kv.1) (pairs entries) reg.
Proof.
  revert reg. induction entries as [|e entries IH]; intros reg; [done|]. unfold pairs. rewrite bind_cons, foldM_app.
  cbn [foldM]. rewrite register_keys. destruct (foldM _ _ reg); simpl; [apply IH|done..].
Qed.
Lemma register_pairs l : forall (reg : gmap CallMatchKey V),
  (NoDup l.*1 /\ (forall k, k ∈ l.*1 -> reg !! k = None) /\
     exists reg', foldM (fun r (kv : CallMatchKey * V) => register_key kv.2 r kv.1) l reg = Ok reg' /\ reg' = list_to_map l ∪ reg) \/
  (~ (NoDup l.*1 /\ forall k, k ∈ l.*1 -> reg !! k = None) /\
     foldM (fun r (kv : CallMatchKey * V) => register_key kv.2 r kv.1) l reg = Panic).
Proof.
  induction l as [|[k v] l IH]; intros reg.
  { left. split; [constructor|]. split; [by intros k ?%elem_of_nil|]. exists reg. by rewrite list_to_map_nil, (left_id_L ∅ (∪)). }
  rewrite fmap_cons. cbn [foldM fst snd]. destruct (reg !! k) as [w|] eqn:Hk.
  { right. split; [|assert (register_key v reg k = Panic) as -> by (unfold register_key; by rewrite Hk); done]. intros [_ Hn]. specialize (Hn k (list_elem_of_here _ _)). congruence. }
  assert (register_key v reg k = Ok (<[k := v]> reg)) as -> by (unfold register_key; by rewrite Hk).
  simpl. destruct (IH (<[k := v]> reg)) as [(Hnd & Hfresh & reg' & Heq & ->)|[Hn Heq]].
  - left. assert (k ∉ l.*1) as Hkl by (intros Hin; specialize (Hfresh k Hin); by rewrite lookup_insert_eq in Hfresh).
    split; [by constructor|]. split.
    + intros k' [->|Hin]%elem_of_cons; [done|]. specialize (Hfresh k' Hin). by apply lookup_insert_None in Hfresh as [? _].
    + eexists. split; [exact Heq|]. rewrite <- insert_union_r by (by apply not_elem_of_list_to_map_1). by rewrite insert_union_l.
  - right. split; [|done]. intros [Hnd Hfresh]. apply NoDup_cons in Hnd as [Hkl Hnd]. apply Hn. split; [done|].
    intros k' Hin. rewrite lookup_insert_ne by (intros ->; done). apply Hfresh. by right.
Qed.
(** A registry is built exactly when no key is claimed twice, and then answers every claimed
    key with its claimant and no other key. *)
Lemma registry_build_exact entries :
  match registry_build entries with
  | Ok reg => NoDup (pairs entries).*1 /\ forall k v, reg !! k = Some v <-> (k, v) ∈ pairs entries
  | Err _ => False
  | Panic => ~ NoDup (pairs entries).*1
  end.
Proof.
  unfold registry_build. rewrite registry_build_pairs.
  destruct (register_pairs (pairs entries) ∅) as [(Hnd & _ & reg & -> & ->)|[Hn ->]].
  - split; [done|]. intros k v. rewrite (right_id_L ∅ (∪)). symmetry. by apply elem_of_list_to_map.
  - intros Hnd. apply Hn. split; [done|]. intros k _. apply lookup_empty.
Qed.
End Registry.

(** ** Opcode streams *)
Section Steps.
Context {A0 : Alloy}.

(** The schemas of an entry in the order they are tried, each with what it gives on an input. *)
Definition json_outcome (name json : string) (input : bytes) : StepDecodeError + list DecodedArg :=
  match function_from_json_inputs json name with
  | inl x => inl (StepBadSignature ("could not parse JSON ABI for `" +:+ name +:+ "`: " +:+ x)%string)
  | inr f => match abi_decode_input f input true with
             | inr values => inr (build_decoded_args f values)
             | inl x => inl (StepAbiDecode ("JSON ABI decode failed: " +:+ x)%string)
             end
  end.
Definition signature_outcome (input : bytes) (sig : string) : StepDecodeError + list DecodedArg :=
  match fn_parse ("step" +:+ sig)%string with
  | inl x => inl (StepBadSignature x)
  | inr f => match abi_decode_input f input true with
             | inr values => inr (build_decoded_args f values)
             | inl _ => inl (StepAbiDecode ("input did not match candidate `" +:+ sig +:+ "`")%string)
             end
  end.
Definition outcomes (e : OpcodeEntry) (input : bytes) : list (StepDecodeError + list DecodedArg) :=
  match oe_input_json_abi e with Some json => [json_outcome (oe_name e) json input] | None => [] end
  ++ (signature_outcome input <$> oe_input_signatures e).

(** First success, or the last error. *)
Fixpoint pick {A E} (os : list (E + A)) (last_error : option E) : option A * option E :=
  match os with
  | [] => (None, last_error)
  | inr a :: _ => (Some a, None)
  | inl e :: rest => pick rest (Some e)
  end.
Lemma try_signatures_pick sigs input : forall err,
  try_signatures sigs input err = pick (signature_outcome input <$> sigs) err.
Proof.
  induction sigs as [|sig sigs IH]; intros err; [done|]. rewrite fmap_cons. cbn [try_signatures pick].
  unfold signature_outcome at 1. destruct (fn_parse _) as [x|f]; [apply IH|].
  destruct (abi_decode_input f input true); [apply IH|done].
Qed.
Lemma decode_step_pick e input :
  decode_step_input e input = match outcomes e input with [] => (None, Some NoSchema) | os => pick os None end.
Proof.
  destruct e as [op name sigs json]. unfold decode_step_input, outcomes. cbn [oe_input_signatures oe_input_json_abi oe_name].
  destruct json as [json|].
  - cbn [app pick].
    replace (match sigs with [] | _ => _ end) with
      (match function_from_json_inputs json name with
       | inr f => match abi_decode_input f input true with
                  | inr values => (Some (build_decoded_args f values), None)
                  | inl x => try_signatures sigs input (Some (StepAbiDecode ("JSON ABI decode failed: " +:+ x)%string))
                  end
       | inl x => try_signatures sigs input
                    (Some (StepBadSignature ("could not parse JSON ABI for `" +:+ name +:+ "`: " +:+ x)%string))
       end) by (by destruct sigs).
    unfold json_outcome. destruct (function_from_json_inputs json name) as [x|f]; [apply try_signatures_pick|].
    destruct (abi_decode_input f input true); [apply try_signatures_pick|done].
  - destruct sigs as [|sig sigs]; [done|]. rewrite try_signatures_pick. by rewrite fmap_cons.
Qed.
Lemma pick_spec {A E} (os : list (E + A)) : forall err,
  (exists l1 a l2, os = l1 ++ inr a :: l2 /\ Forall (fun o => exists e, o = inl e) l1 /\ pick os err = (Some a, None)) \/
  (Forall (fun o => exists e, o = inl e) os /\ pick os err = (None, match last os with Some (inl e) => Some e | _ => err end)).
Proof.
  induction os as [|[e|a] os IH]; intros err; simpl.
  - right. split; [constructor|done].
  - destruct (IH (Some e)) as [(l1 & a & l2 & -> & Hl & Hp)|[Hl Hp]].
    + left. exists (inl e :: l1), a, l2. split; [done|]. split; [constructor; [by exists e|done]|done].
    + right. split; [constructor; [by exists e|done]|]. rewrite Hp. destruct os as [|o os]; [done|]. cbn [last].
      destruct (last (o :: os)) as [[e'|a]|] eqn:Hlast; [done| |].
      * exfalso. apply last_Some in Hlast as [l' Hl']. rewrite Hl' in Hl. apply Forall_app in Hl as [_ [[? ?] _]%Forall_cons]. done.
      * by apply last_None in Hlast.
  - left. exists [], a, os. split; [done|]. split; [constructor|done].
Qed.

(** What one command becomes. *)
Record step_spec (t : OpcodeTable) (inputs : list bytes) (i : nat) (raw : Z) (s : DecodedStep) : Prop := {
  sp_index : ds_index s = i;
  sp_raw : ds_raw_byte s = raw;
  sp_opcode : ds_opcode s = Z.land raw (ot_mask t);
  sp_revert : ds_allow_revert s = negb (Z.land raw (ot_allow_revert_bit t) =? 0);
  sp_input : ds_raw_input s = default [] (inputs !! i);
  sp_total : is_Some (ds_args s) <-> ds_error s = None;
  sp_unknown : opcode_lookup t (ds_opcode s) = None ->
    ds_name s = "UNKNOWN"%string /\ ds_args s = None /\ ds_error s = Some UnknownOpcode;
  sp_known : forall e, opcode_lookup t (ds_opcode s) = Some e -> ds_name s = oe_name e /\
    forall args, ds_args s = Some args <->
      exists l1 l2, outcomes e (ds_raw_input s) = l1 ++ inr args :: l2 /\ Forall (fun o => exists x, o = inl x) l1;
}.
Lemma first_inr_unique {A E} (l1 l1' l2 l2' : list (E + A)) a b :
  l1 ++ inr a :: l2 = l1' ++ inr b :: l2' -> Forall (fun o => exists e, o = inl e) l1 -> Forall (fun o => exists e, o = inl e) l1' -> a = b.
Proof.
  revert l1'. induction l1 as [|x l1 IH]; intros [|y l1'] Heq H1 H2; simpl in Heq.
  - by injection Heq.
  - injection Heq as <- _. apply Forall_cons in H2 as [[? ?] _]. done.
  - injection Heq as -> _. apply Forall_cons in H1 as [[? ?] _]. done.
  - injection Heq as -> Heq. apply Forall_cons in H1 as [_ H1]. apply Forall_cons in H2 as [_ H2]. by apply (IH l1').
Qed.
Lemma dispatch_step_spec t inputs i raw : step_spec t inputs i raw (dispatch_step inputs t i raw).
Proof.
  unfold dispatch_step. destruct (opcode_lookup t (Z.land raw (ot_mask t))) as [e|] eqn:Hl.
  - destruct (decode_step_input e (default [] (inputs !! i))) as [args err] eqn:Hd. rewrite decode_step_pick in Hd.
    assert ((is_Some args <-> err = None) /\ forall a, args = Some a <->
      exists l1 l2, outcomes e (default [] (inputs !! i)) = l1 ++ inr a :: l2 /\ Forall (fun o => exists x, o = inl x) l1) as [Ht Ha].
    { destruct (outcomes e _) as [|o os] eqn:Ho.
      { injection Hd as <- <-. split; [by split; [intros []|]|]. intros a. split; [done|]. intros (l1 & l2 & Heq & _). by destruct l1. }
      destruct (pick_spec (o :: os) None) as [(l1 & a0 & l2 & Heq & Hl1 & Hp)|[Hall Hp]]; rewrite Hp in Hd; injection Hd as <- <-.
      - split; [by split|]. intros a. split; [intros [= <-]; by exists l1, l2|]. intros (l1' & l2' & Heq' & Hl1').
        rewrite Heq in Heq'. f_equal. eapply first_inr_unique; eauto.
      - split.
        + destruct (last (o :: os)) as [[x|x]|] eqn:Hlast.
          * split; [by intros []|done].
          * exfalso. apply last_Some in Hlast as [l' Hl']. rewrite Hl' in Hall. apply Forall_app in Hall as [_ [[? ?] _]%Forall_cons]. done.
          * by apply last_None in Hlast.
        + intros a. split; [done|]. intros (l1 & l2 & Heq & _). rewrite Heq in Hall. apply Forall_app in Hall as [_ [[? ?] _]%Forall_cons]. done. }
    split; simpl; try done; rewrite Hl; try done; intros e' [= <-]; done.
  - split; simpl; try done; rewrite ?Hl; done.
Qed.

(** Dispatching an opcode stream gives one step per command, in order, each with the input
    at the command's index. A step has arguments exactly when it has no error; the arguments
    are those of the first schema of the opcode's entry that decodes the input; an opcode
    without an entry is reported as unknown with its raw input. *)
Theorem dispatch_exact (t : OpcodeTable) (commands : bytes) (inputs : list bytes) :
  length (dispatch commands inputs t) = length commands /\
  forall i raw, commands !! i = Some raw -> exists s, dispatch commands inputs t !! i = Some s /\ step_spec t inputs i raw s.
Proof.
  unfold dispatch. split; [apply length_imap|]. intros i raw Hi. exists (dispatch_step inputs t i raw).
  rewrite list_lookup_imap, Hi. split; [done|]. apply dispatch_step_spec.
Qed.
End Steps.

Section Resolution.
Context {A0 : Alloy}.

(** *** Splitting *)
Lemma collectM_lookup {E A B} (f : A -> result E B) l l' : collectM f l = Ok l' -> Forall2 (fun x y => f x = Ok y) l l'.
Proof.
  revert l'. induction l as [|x l IH]; intros l'; simpl; [by intros [= <-]|].
  intros (y & Hy & (ys & Hys & [= <-])%bind_Ok_inv)%bind_Ok_inv. constructor; [done|]. by apply IH.
Qed.
Lemma widen_err_Ok {E A} (r : result Empty_set A) a : widen_err (E := E) r = Ok a -> r = Ok a.
Proof. destruct r as [x|e|]; simpl; [by intros [= <-]|destruct e|done]. Qed.

(** A split router call has one sub-call per command, in order: it goes to the router with
    the transaction's value, carries the masked opcode followed by the command's own input,
    and is decoded exactly when the opcode is one the splitter knows and its input matched
    one of the opcode's schemas. *)
Theorem ur_split_exact (t : OpcodeTable) (ctx : SplitContext) (calldata : bytes) subs :
  ur_split t ctx calldata = Ok subs ->
  exists commands inputs, decode_outer_call calldata = Ok (commands, inputs) /\ length subs = length commands /\
  forall i raw, commands !! i = Some raw -> exists s, subs !! i = Some s /\
    su_to s = sx_to ctx /\ su_value_wei s = sx_value_wei ctx /\
    su_calldata s = Z.land raw (ot_mask t) :: default [] (inputs !! i) /\
    (is_Some (su_decoded s) <->
       is_Some (ur_decoder_id (Z.land raw (ot_mask t))) /\
       exists e args, opcode_lookup t (Z.land raw (ot_mask t)) = Some e /\ inr args ∈ outcomes e (default [] (inputs !! i))).
Proof.
  intros ([commands inputs] & Ho & Hs)%bind_Ok_inv. apply widen_err_Ok, collectM_lookup in Hs. exists commands, inputs. split; [done|].
  split; [rewrite <- (Forall2_length _ _ _ Hs); unfold dispatch; apply length_imap|]. intros i raw Hi.
  assert (dispatch commands inputs t !! i = Some (dispatch_step inputs t i raw)) as Hd by (unfold dispatch; by rewrite list_lookup_imap, Hi).
  destruct (Forall2_lookup_l _ _ _ _ _ Hs Hd) as (s & Hsub & Hstep). exists s. split; [exact Hsub|].
  pose proof (dispatch_step_spec t inputs i raw) as [_ _ Hop _ Hin _ Hunk Hkn]. set (d := dispatch_step inputs t i raw) in *.
  unfold step_to_subcall in Hstep. apply bind_Ok_inv in Hstep as (dec & Hdec & [= <-]). cbn [su_to su_value_wei su_calldata su_decoded].
  rewrite Hop, Hin. do 3 (split; [done|]). unfold pre_decode_for_opcode in Hdec. rewrite Hop in *. rewrite Hin in Hkn.
  destruct (ur_decoder_id (Z.land raw (ot_mask t))) as [id|]; [|injection Hdec as <-; split; [by intros []|by intros [[] _]]].
  destruct (ds_args d) as [args|] eqn:Hargs.
  - apply bind_Ok_inv in Hdec as (margs & _ & [= <-]). split; [|done]. intros _. split; [done|].
    destruct (opcode_lookup t _) as [e|] eqn:He; [|destruct (Hunk eq_refl) as (_ & ? & _); congruence].
    destruct (Hkn e eq_refl) as [_ Ha]. destruct (proj1 (Ha args) eq_refl) as (l1 & l2 & Heq & _). exists e, args. split; [done|].
    rewrite Heq. apply elem_of_app. right. left.
  - injection Hdec as <-. split; [by intros []|]. intros [_ (e & args & He & Hin')]. exfalso. destruct (Hkn e He) as [_ Ha].
    destruct (pick_spec (outcomes e (default [] (inputs !! i))) None) as [(l1 & a & l2 & Heq & Hl & _)|[Hall _]].
    + assert (None = Some a) by (apply Ha; by exists l1, l2). done.
    + rewrite Forall_forall in Hall. destruct (Hall _ Hin') as [x Hx]. done.
Qed.

(** *** Resolving *)
(** Every attempt of the resolver, in order. *)
Definition tiers (r : Resolver) (chain_id : Z) (address : Address) (calldata : bytes) : list (Source * option DecodedCall) :=
  let selector := take 4 calldata in
  [(Sourcify, try_function calldata (sourcify_lookup (rv_sourcify r) chain_id address selector));
   (SourcifyDb, try_function calldata (db ← rv_sqlite r; info ← sum_ok (db chain_id address selector); info))]
  ++ ((fun c => (Openchain, res_ok (decode_with_signature (sc_signature c) calldata))) <$> openchain_lookup (rv_openchain r) selector).
Fixpoint first_hit (l : list (Source * option DecodedCall)) : ResolveOutcome :=
  match l with
  | [] => NotFound
  | (src, Some d) :: _ => ResolvedAs (mkResolved src d)
  | (_, None) :: rest => first_hit rest
  end.
Lemma candidates_first_hit calldata l :
  first_hit ((fun c => (Openchain, res_ok (decode_with_signature (sc_signature c) calldata))) <$> l) =
  match try_candidates calldata l with Some d => ResolvedAs (mkResolved Openchain d) | None => NotFound end.
Proof.
  induction l as [|c l IH]; [done|]. rewrite fmap_cons. cbn [first_hit try_candidates].
  by destruct (res_ok (decode_with_signature (sc_signature c) calldata)).
Qed.
Lemma resolve_first_hit r chain_id address calldata :
  resolve r chain_id address calldata = if (length calldata <? 4)%nat then NotFound else first_hit (tiers r chain_id address calldata).
Proof.
  unfold resolve, selector_from_calldata. destruct (length calldata <? 4)%nat; [done|]. unfold tiers. cbn [app first_hit].
  destruct (try_function calldata (sourcify_lookup _ _ _ _)); [done|]. destruct (try_function calldata (_ ≫= _)); [done|].
  by rewrite candidates_first_hit.
Qed.
Lemma first_hit_spec l src d :
  first_hit l = ResolvedAs (mkResolved src d) <-> exists l1 l2, l = l1 ++ (src, Some d) :: l2 /\ Forall (fun a => a.2 = None) l1.
Proof.
  induction l as [|[s [d0|]] l IH]; simpl.
  - split; [done|]. intros ([] & l2 & ? & _); done.
  - split.
    + intros [= -> ->]. exists [], l. split; [done|constructor].
    + intros ([|a l1] & l2 & Heq & Hl); simpl in Heq; [by injection Heq as -> -> _|].
      apply Forall_cons in Hl as [Hn _]. injection Heq as Ha _. rewrite <- Ha in Hn. done.
  - rewrite IH. split.
    + intros (l1 & l2 & -> & Hl). exists ((s, None) :: l1), l2. split; [done|]. by constructor.
    + intros ([|a l1] & l2 & Heq & Hl); simpl in Heq; [done|]. injection Heq as _ ->. apply Forall_cons in Hl as [_ Hl]. by exists l1, l2.
Qed.
Lemma verified_first_app l c : verified_first (verified_first l ++ [c]) = verified_first (l ++ [c]).
Proof.
  unfold verified_first. rewrite !List.filter_app. 
  assert (forall (l : list SignatureCandidate), List.filter sc_verified (List.filter sc_verified l) = List.filter sc_verified l /\
    List.filter (fun c => negb (sc_verified c)) (List.filter (fun c => negb (sc_verified c)) l) = List.filter (fun c => negb (sc_verified c)) l /\
    List.filter sc_verified (List.filter (fun c => negb (sc_verified c)) l) = [] /\
    List.filter (fun c => negb (sc_verified c)) (List.filter sc_verified l) = []) as Hf.
  { induction l0 as [|x l0 (IH1 & IH2 & IH3 & IH4)]; simpl; [done|]. destruct (sc_verified x) eqn:Hx; simpl; rewrite ?Hx; simpl; by rewrite ?IH1, ?IH2, ?IH3, ?IH4. }
  destruct (Hf l) as (-> & -> & -> & ->). by rewrite app_nil_r.
Qed.
(** Inserting one by one keeps the candidates in the order of one stable sort. *)
Lemma openchain_inserts selector cs : forall idx l0, openchain_lookup idx selector = verified_first l0 ->
  openchain_lookup (fold_left (fun i c => openchain_insert i selector c) cs idx) selector = verified_first (l0 ++ cs).
Proof.
  induction cs as [|c cs IH]; intros idx l0 H; [by rewrite app_nil_r|]. cbn [fold_left].
  rewrite (IH _ (l0 ++ [c])); [by rewrite <- (assoc_L (++))|]. unfold openchain_lookup, openchain_insert in *.
  rewrite lookup_insert_eq. simpl. rewrite H. apply verified_first_app.
Qed.

(** The resolver answers with the first attempt that decodes, in the order curated index,
    database, then the selector's public signatures with the verified ones first, and finds
    nothing exactly when the calldata has no selector or every attempt fails. *)
Theorem resolve_first_match (r : Resolver) chain_id address calldata cs :
  openchain_lookup (rv_openchain r) (take 4 calldata) =
    openchain_lookup (fold_left (fun i c => openchain_insert i (take 4 calldata) c) cs ∅) (take 4 calldata) ->
  openchain_lookup (rv_openchain r) (take 4 calldata) = List.filter sc_verified cs ++ List.filter (fun c => negb (sc_verified c)) cs /\
  (forall src d, resolve r chain_id address calldata = ResolvedAs (mkResolved src d) <->
     (4 <= length calldata)%nat /\ exists l1 l2, tiers r chain_id address calldata = l1 ++ (src, Some d) :: l2 /\ Forall (fun a => a.2 = None) l1) /\
  (resolve r chain_id address calldata = NotFound <->
     (length calldata < 4)%nat \/ Forall (fun a => a.2 = None) (tiers r chain_id address calldata)).
Proof.
  intros Hcs. split; [rewrite Hcs; apply (openchain_inserts (take 4 calldata) cs ∅ []); done|]. rewrite !resolve_first_hit.
  destruct (Nat.ltb_spec (length calldata) 4) as [Hlt|Hge].
  - split; [intros src d; split; [done|intros [? _]; lia]|]. split; [by left|done].
  - split; [intros src d; rewrite first_hit_spec; split; [done|by intros [_ ?]]|]. split.
    + intros Hn. right. induction (tiers r chain_id address calldata) as [|[s [d|]] l IH]; [constructor|done|]. constructor; [done|]. by apply IH.
    + intros [?|Hall]; [lia|]. induction Hall as [|[s o] l Ho _ IH]; [done|]. simpl in Ho. by rewrite Ho.
Qed.
End Resolution.

(** *** Nested calls *)
Lemma collect_fmap {A B C} (f : A -> option B) (g : B -> C) l : collect (fun x => option_map g (f x)) l = option_map (map g) (collect f l).
Proof. induction l as [|x l IH]; [done|]. cbn [collect]. rewrite IH. destruct (f x); [|done]. simpl. by destruct (collect f l). Qed.
(** The children of a recognised self-multicall are its sub-calls, all sent back to the
    parent: the rule table and the older extractor agree on every decoded call. *)
Theorem self_multicall_children selector d parent :
  (lookup_recurse_rule selector = Some (SelfArrayBytes None) <-> is_self_multicall selector = true) /\
  extract_children d (SelfArrayBytes None) parent = option_map (map (mkChildCall parent)) (extract_subcalls d).
Proof.
  split.
  - unfold lookup_recurse_rule. destruct (is_self_multicall selector); [done|]. repeat case_bool_decide; by split.
  - unfold extract_children, extract_subcalls. destruct (last (dc_args d)) as [arg|]; [|done]. simpl.
    destruct (da_value arg); try done. apply collect_fmap.
Qed.

(** ** A small codec for the witnesses: any non-empty input is one [bytes] argument. *)
Module MiniAlloy.
#[global] Instance alloy : Alloy := {|
  fn_selector _ := [1; 2; 3; 4];
  fn_signature f := fn_name f;
  fn_parse s := if String.eqb s "" then inl "empty signature"%string else inr (mkAbiFunction s [mkParam "data" "bytes" []]);
  abi_decode_input _ input _ := match input with [] => inl "empty input"%string | _ => inr [SvBytes input] end;
  params_from_json _ := inl "not json"%string;
  type_from_str _ := Some StBytes;
  minimum_words _ := 1;
  selector_type p := pa_ty p;
  execute_decode_raw payload := match payload with [] => inl "empty payload"%string | _ => inr ([0x80; 0x3f], [payload]) end;
  execute_deadline_decode_raw _ := inl "deadline"%string;
  sel_hex _ := "selector"%string |}.
Definition table : OpcodeTable := mkOpcodeTable 0x7f 0x80 [mkOpcodeEntry 0x00 "V3_SWAP_EXACT_IN" ["(bytes)"]%string None].
Definition context : SplitContext := mkSplitContext 1 10 20 "0" None.
Definition calldata : bytes := EXECUTE_SELECTOR ++ [7; 7].
Definition candidates : list SignatureCandidate := [mkSignatureCandidate "" false; mkSignatureCandidate "swap(bytes)" true]%string.
Definition resolver : Resolver := mkResolver ∅ None (fold_left (fun i c => openchain_insert i [1; 2; 3; 4] c) candidates ∅).
End MiniAlloy.

Lemma dispatch_exact_witness : exists s, dispatch (A0 := MiniAlloy.alloy) [0x80; 0x3f] [[7; 7]] MiniAlloy.table !! 0%nat = Some s /\
  step_spec (A0 := MiniAlloy.alloy) MiniAlloy.table [[7; 7]] 0 0x80 s /\ ds_allow_revert s = true /\ is_Some (ds_args s).
Proof.
  destruct (dispatch_exact (A0 := MiniAlloy.alloy) MiniAlloy.table [0x80; 0x3f] [[7; 7]]) as [_ H].
  destruct (H 0%nat 0x80 eq_refl) as (s & Hs & Hspec). exists s. split; [exact Hs|]. split; [exact Hspec|].
  injection Hs as <-. split; [done|]. by eexists.
Defined.
Lemma ur_split_exact_witness : exists subs commands inputs,
  ur_split (A0 := MiniAlloy.alloy) MiniAlloy.table MiniAlloy.context MiniAlloy.calldata = Ok subs /\
  decode_outer_call (A0 := MiniAlloy.alloy) MiniAlloy.calldata = Ok (commands, inputs) /\ length subs = length commands /\
  length commands = 2%nat /\ (su_calldata <$> subs) = [[0x00; 7; 7]; [0x3f]].
Proof.
  destruct (ur_split (A0 := MiniAlloy.alloy) MiniAlloy.table MiniAlloy.context MiniAlloy.calldata) as [subs|e|] eqn:Hs; [|by vm_compute in Hs..].
  destruct (ur_split_exact (A0 := MiniAlloy.alloy) _ _ _ _ Hs) as (commands & inputs & Ho & Hl & _).
  exists subs, commands, inputs. split; [done|]. split; [exact Ho|]. split; [exact Hl|].
  vm_compute in Ho. injection Ho as <- <-. vm_compute in Hs. injection Hs as <-. done.
Defined.
Lemma resolve_first_match_witness : exists d,
  resolve (A0 := MiniAlloy.alloy) MiniAlloy.resolver 1 20 [1; 2; 3; 4; 5] = ResolvedAs (mkResolved Openchain d) /\
  (exists l1 l2, tiers (A0 := MiniAlloy.alloy) MiniAlloy.resolver 1 20 [1; 2; 3; 4; 5] = l1 ++ (Openchain, Some d) :: l2).
Proof.
  destruct (resolve_first_match (A0 := MiniAlloy.alloy) MiniAlloy.resolver 1 20 [1; 2; 3; 4; 5] MiniAlloy.candidates eq_refl) as (_ & H & _).
  eexists. assert (resolve (A0 := MiniAlloy.alloy) MiniAlloy.resolver 1 20 [1; 2; 3; 4; 5] = ResolvedAs (mkResolved Openchain _)) as Hr
    by (vm_compute; reflexivity).
  split; [exact Hr|]. apply H in Hr as (_ & l1 & l2 & Ht & _). by exists l1, l2.
Defined.
End AbiDecode.
