(* ===== verification/PolicyRpc.v ===== *)
(** * Policy RPC (policy-engine/src/policy_rpc)

    Per-policy manifests: their validation (manifest_v2.rs), the triggers that
    decide when one applies (trigger.rs), selectors into JSON (selector.rs), the
    planning of enrichment calls (planning_v2.rs) and the writing of their results
    into the action's context (materialize_v2.rs, materialize.rs). *)
From Stdlib Require Import Ascii.
From stdpp Require Import base tactics numbers list strings gmap pretty.
From S2P Require Import Prelude SyncLive PolicyEngine.
Import SyncLive.

Module PolicyRpc.
Import PolicyEngine.

(** ** Data *)
Inductive PolicyRpcError :=
| InvalidManifest (m : string) | SelectorError (m : string) | RpcResult (m : string) | SchemaError (m : string)
| SystemFail (call_id reason : string).
Inductive ProjectionType := PtString | PtLong | PtBool | PtDecimal | PtUsdValuation | PtWindowStats | PtSetString.
Record ContextProjection := mkContextProjection {
  cp_kind : string; cp_field : string; cp_type_name : ProjectionType; cp_from : string; cp_required : bool }.
Inductive TriggerScope := Inner | Outer.
Inductive TriggerField := ActionDomain | ActionTag | ActionVenue | TxChainId | TxFrom | TxTo.
Inductive TriggerConstraint := CEq (v : string) | CNe (v : string) | CIn (l : list string) | CNin (l : list string).
(** The [where] map, as the list of its entries. *)
Record Trigger := mkTrigger { tg_scope : TriggerScope; tg_where : list (TriggerField * TriggerConstraint) }.
Record PolicyRpcCallSpec := mkPolicyRpcCallSpec {
  cs_id : string; cs_method : string; cs_params : gmap string Value; cs_outputs : list ContextProjection; cs_optional : bool }.
Record ManifestV2 := mkManifestV2 {
  mf_id : string; mf_schema_version : Z; mf_trigger : Trigger; mf_policy_rpc : list PolicyRpcCallSpec;
  mf_custom_context : gmap string string }.
Record ActionView := mkActionView { av_domain : string; av_action_tag : option string; av_venue_name : option string }.
Record TxView := mkTxView { tv_chain_id : string; tv_from : string; tv_to : string }.
Record PlannedCallV2 := mkPlannedCallV2 {
  pc_manifest_id : string; pc_call_id : string; pc_method : string; pc_params : Value;
  pc_outputs : list ContextProjection; pc_optional : bool }.

Definition MANIFEST_V2_SCHEMA_VERSION : Z := 2.
Definition MAX_POLICY_RPC_V2_MANIFESTS : nat := 128.
Definition MAX_POLICY_RPC_V2_CALL_SPECS : nat := 64.
Definition MAX_POLICY_RPC_V2_PLANNED_CALLS : nat := 64.
Definition MAX_POLICY_RPC_V2_OUTPUTS_PER_CALL : nat := 64.
Definition MAX_POLICY_RPC_V2_CUSTOM_CONTEXT_FIELDS : nat := 64.
Definition MAX_POLICY_RPC_V2_SET_STRING_ENTRIES : nat := 256.

(** ** Validation (manifest_v2.rs) *)
Definition produce_field (produced : gset string) (o : ContextProjection) : result PolicyRpcError (gset string) :=
  if decide (cp_field o ∈ produced) then Err (InvalidManifest "manifest `{}` produces custom_context field `{}` more than once")
  else Ok ({[cp_field o]} ∪ produced).
Definition validate_call (st : gset string * gset string) (c : PolicyRpcCallSpec) : result PolicyRpcError (gset string * gset string) :=
  let '(call_ids, produced) := st in
  if decide (cs_id c ∈ call_ids) then Err (InvalidManifest "manifest `{}` has duplicate policy_rpc id `{}`")
  else if (MAX_POLICY_RPC_V2_OUTPUTS_PER_CALL <? length (cs_outputs c))%nat
  then Err (InvalidManifest "manifest `{}` call `{}` declares {} outputs (max {})")
  else
    produced ← foldM produce_field (cs_outputs c) produced;
    Ok ({[cs_id c]} ∪ call_ids, produced).
Definition validate_manifest (m : ManifestV2) : result PolicyRpcError () :=
  if negb (mf_schema_version m =? MANIFEST_V2_SCHEMA_VERSION)
  then Err (InvalidManifest "manifest `{}` has schema_version {} (expected {})")
  else if (MAX_POLICY_RPC_V2_CALL_SPECS <? length (mf_policy_rpc m))%nat
  then Err (InvalidManifest "manifest `{}` declares {} policy_rpc call specs (max {})")
  else if (MAX_POLICY_RPC_V2_CUSTOM_CONTEXT_FIELDS <? size (mf_custom_context m))%nat
  then Err (InvalidManifest "manifest `{}` declares {} custom_context fields (max {})")
  else
    st ← foldM validate_call (mf_policy_rpc m) (∅, ∅);
    let produced := st.2 in
    if negb (bool_decide (dom (mf_custom_context m) ⊆ produced))
    then Err (InvalidManifest "manifest `{}` declares custom_context field `{field}` with no producing policy_rpc output")
    else if negb (bool_decide (produced ⊆ dom (mf_custom_context m)))
    then Err (InvalidManifest "manifest `{}` policy_rpc output field `{field}` is not declared in custom_context")
    else Ok ().

(** ** Triggers (trigger.rs) *)
Definition matches_present_values (primary : string) (alias : option string) (c : TriggerConstraint) : bool :=
  let any_eq want := String.eqb primary want || bool_decide (alias = Some want) in
  match c with
  | CEq want => any_eq want
  | CNe want => negb (any_eq want)
  | CIn set => existsb any_eq set
  | CNin set => negb (existsb any_eq set)
  end.
Definition matches_field (field : TriggerField) (c : TriggerConstraint) (action : ActionView) (tx : TxView) : bool :=
  let compare (lhs : option string) :=
    match lhs with
    | None => match c with CNe _ | CNin _ => true | _ => false end
    | Some have =>
        match c with
        | CEq want => String.eqb have want
        | CNe want => negb (String.eqb have want)
        | CIn set => existsb (fun v => String.eqb v have) set
        | CNin set => negb (existsb (fun v => String.eqb v have) set)
        end
    end in
  match field with
  | ActionDomain =>
      let alias := if String.eqb (av_domain action) "hyperliquid_core" && bool_decide (av_action_tag action = Some "hl_unknown"%string)
                   then Some "unknown"%string else None in
      matches_present_values (av_domain action) alias c
  | ActionTag => compare (av_action_tag action)
  | ActionVenue => compare (av_venue_name action)
  | TxChainId => compare (Some (tv_chain_id tx))
  | TxFrom => compare (Some (tv_from tx))
  | TxTo => compare (Some (tv_to tx))
  end.
Definition evaluate_trigger (t : Trigger) (action : ActionView) (tx : TxView) : bool :=
  forallb (fun fc => matches_field fc.1 fc.2 action tx) (tg_where t).
Definition scope_matches_position (scope : TriggerScope) (action : ActionView) : bool :=
  let is_multicall := String.eqb (av_domain action) "multicall" in
  match scope with Inner => negb is_multicall | Outer => is_multicall end.

(** ** Selectors (selector.rs) *)
Fixpoint split_dot (s : string) : list string :=
  match s with
  | EmptyString => [""%string]
  | String c rest =>
      if Ascii.eqb c "."%char then ""%string :: split_dot rest
      else match split_dot rest with
           | [] => [String c ""]
           | p :: ps => String c p :: ps
           end
  end.
Fixpoint has_unsupported (s : string) : bool :=
  match s with
  | EmptyString => false
  | String c rest =>
      Ascii.eqb c "["%char || Ascii.eqb c "]"%char || Ascii.eqb c "*"%char || Ascii.eqb c "("%char || Ascii.eqb c ")"%char
      || has_unsupported rest
  end.
(** [Map::get] and [Map::insert] on the entries of an object. *)
Fixpoint obj_get (fs : list (string * Value)) (k : string) : option Value :=
  match fs with
  | [] => None
  | (k', v) :: rest => if String.eqb k' k then Some v else obj_get rest k
  end.
Fixpoint obj_insert (fs : list (string * Value)) (k : string) (v : Value) : list (string * Value) :=
  match fs with
  | [] => [(k, v)]
  | (k', v') :: rest => if String.eqb k' k then (k, v) :: rest else (k', v') :: obj_insert rest k v
  end.
Definition value_get (v : Value) (k : string) : option Value :=
  match v with VObject fs => obj_get fs k | _ => None end.
Definition strip_root (selector : string) : option string :=
  if String.prefix "$." selector then Some (String.substring 2 (String.length selector - 2) selector) else None.
Fixpoint walk_fields (current : Value) (fields : list string) : result PolicyRpcError Value :=
  match fields with
  | [] => Ok current
  | field :: rest =>
      if String.eqb field "" then Err (SelectorError "empty selector segment in {selector}")
      else
        next ← ok_or (SelectorError "selector field `{field}` not found in {selector}") (value_get current field);
        walk_fields next rest
  end.
Definition resolve_selector (selector : string) (root action context result_ params : Value) : result PolicyRpcError Value :=
  match strip_root selector with
  | None => Err (SelectorError "selector must start with `$.`: {selector}")
  | Some rest =>
      if has_unsupported selector then Err (SelectorError "selector uses unsupported syntax: {selector}")
      else match split_dot rest with
           | [] => Err (SelectorError "selector is empty")
           | root_name :: fields =>
               if String.eqb root_name "root" then walk_fields root fields
               else if String.eqb root_name "action" then walk_fields action fields
               else if String.eqb root_name "context" then walk_fields context fields
               else if String.eqb root_name "result" then walk_fields result_ fields
               else if String.eqb root_name "params" then walk_fields params fields
               else Err (SelectorError "unknown selector root `{other}`")
           end
  end.

(** ** Planning (planning_v2.rs) *)
Definition policy_rpc_call_id_v2 (manifest_id spec_id : string) : string := (manifest_id +:+ "::" +:+ spec_id)%string.
Definition root_selector_json (tx : TxView) : Value :=
  VObject [("chain_id", VString (tv_chain_id tx)); ("from", VString (tv_from tx)); ("to", VString (tv_to tx))]%string.
Definition empty_object : Value := VObject [].
Definition resolve_template (tx : TxView) (lowered_context template : Value) : result PolicyRpcError Value :=
  match template with
  | VString selector =>
      if String.prefix "$." selector
      then resolve_selector selector (root_selector_json tx) lowered_context empty_object empty_object empty_object
      else Ok template
  | literal => Ok literal
  end.
Fixpoint resolve_params (tx : TxView) (lowered_context : Value) (params : list (string * Value))
    : result PolicyRpcError (list (string * Value)) :=
  match params with
  | [] => Ok []
  | (key, template) :: rest =>
      value ← resolve_template tx lowered_context template;
      values ← resolve_params tx lowered_context rest;
      Ok ((key, value) :: values)
  end.
Definition planned_call (m : ManifestV2) (spec : PolicyRpcCallSpec) (params : list (string * Value)) : PlannedCallV2 :=
  mkPlannedCallV2 (mf_id m) (policy_rpc_call_id_v2 (mf_id m) (cs_id spec)) (cs_method spec) (VObject params)
    (cs_outputs spec) (cs_optional spec).
Definition plan_spec (tx : TxView) (lowered_context : Value) (m : ManifestV2) (calls : list PlannedCallV2)
    (spec : PolicyRpcCallSpec) : result PolicyRpcError (list PlannedCallV2) :=
  match resolve_params tx lowered_context (strings_in_order (cs_params spec)) with
  | Ok params =>
      if (MAX_POLICY_RPC_V2_PLANNED_CALLS <=? length calls)%nat
      then Err (InvalidManifest "planned policy-rpc call count exceeds {}")
      else Ok (calls ++ [planned_call m spec params])
  | Err e => if cs_optional spec then Ok calls else Err e
  | Panic => Panic
  end.
Definition plan_manifest (action_view : ActionView) (lowered_context : Value) (tx : TxView)
    (calls : list PlannedCallV2) (m : ManifestV2) : result PolicyRpcError (list PlannedCallV2) :=
  if negb (scope_matches_position (tg_scope (mf_trigger m)) action_view) then Ok calls
  else if negb (evaluate_trigger (mf_trigger m) action_view tx) then Ok calls
  else
    _ ← validate_manifest m;
    foldM (plan_spec tx lowered_context m) (mf_policy_rpc m) calls.
Definition plan_policy_rpc_v2 (manifests : list ManifestV2) (action_view : ActionView) (lowered_context : Value) (tx : TxView)
    : result PolicyRpcError (list PlannedCallV2) :=
  if (MAX_POLICY_RPC_V2_MANIFESTS <? length manifests)%nat
  then Err (InvalidManifest "policy-rpc manifest count {} exceeds {}")
  else foldM (plan_manifest action_view lowered_context tx) manifests [].

(** ** Materialization (materialize_v2.rs, materialize.rs, cedar_json.rs) *)
Definition decimal_json (s : string) : Value :=
  VObject [("__extn", VObject [("fn", VString "decimal"); ("arg", VString s)])]%string.
Fixpoint string_entries (l : list Value) : result PolicyRpcError (list Value) :=
  match l with
  | [] => Ok []
  | VString s :: rest => out ← string_entries rest; Ok (VString s :: out)
  | _ :: _ => Err (RpcResult "expected Set<String> entry string")
  end.
Definition materialize_value (value : Value) (type_name : ProjectionType) : result PolicyRpcError Value :=
  match type_name with
  | PtString => match value with VString s => Ok (VString s) | _ => Err (RpcResult "expected String") end
  | PtLong =>
      match value with
      | VNumber n => match number_as_i64 n with Some i => Ok (VNumber (IntNum i)) | None => Err (RpcResult "expected Long") end
      | _ => Err (RpcResult "expected Long")
      end
  | PtBool => match value with VBool b => Ok (VBool b) | _ => Err (RpcResult "expected Bool") end
  | PtDecimal => match value with VString s => Ok (decimal_json s) | _ => Err (RpcResult "expected Decimal string") end
  | PtSetString =>
      match value with
      | VArray array =>
          if (MAX_POLICY_RPC_V2_SET_STRING_ENTRIES <? length array)%nat
          then Err (RpcResult "expected Set<String> array length <= {}")
          else out ← string_entries array; Ok (VArray out)
      | _ => Err (RpcResult "expected Set<String> array")
      end
  | PtUsdValuation | PtWindowStats => Err (RpcResult "projection type `{}` is not supported in v2 materialization")
  end.
Definition insert_custom_field (context : Value) (field : string) (value : Value) : result PolicyRpcError Value :=
  match context with
  | VObject object =>
      match default (VObject []) (obj_get object "custom") with
      | VObject custom =>
          match obj_get custom field with
          | Some _ => Err (InvalidManifest "context projection `custom.{field}` would overwrite an existing context field")
          | None => Ok (VObject (obj_insert object "custom" (VObject (obj_insert custom field value))))
          end
      | _ => Err (RpcResult "context.custom is not an object")
      end
  | _ => Err (RpcResult "lowered action context is not an object")
  end.
Definition project (payload : Value) (output : ContextProjection) : result PolicyRpcError Value :=
  selected ← resolve_selector (cp_from output) empty_object empty_object empty_object payload empty_object;
  materialize_value selected (cp_type_name output).
Definition apply_output (call : PlannedCallV2) (payload : Value) (context : Value) (output : ContextProjection)
    : result PolicyRpcError Value :=
  if negb (String.eqb (cp_kind output) "context") then Err (InvalidManifest "unsupported projection kind `{}`")
  else match project payload output with
       | Ok value => insert_custom_field context (cp_field output) value
       | Err _ => if pc_optional call then Ok context else Err (SystemFail (pc_call_id call) "{error}")
       | Panic => Panic
       end.
Definition materialize_call (results : gmap string Value) (context : Value) (call : PlannedCallV2) : result PolicyRpcError Value :=
  match results !! pc_call_id call with
  | Some payload => foldM (apply_output call payload) (pc_outputs call) context
  | None => if pc_optional call then Ok context else Err (SystemFail (pc_call_id call) "missing rpc result")
  end.
Definition materialize_v2 (context : Value) (planned : list PlannedCallV2) (results : gmap string Value) : result PolicyRpcError Value :=
  foldM (materialize_call results) planned context.

Definition SYSTEM_POLICY_ID : string := "__system__".
Definition system_fail_verdict (error : PolicyRpcError) : option Verdict :=
  match error with
  | SystemFail call_id _ =>
      Some (VFail [mkMatchedPolicy SYSTEM_POLICY_ID (Some ("rpc-unavailable: " +:+ call_id)%string) Deny OriginAction])
  | _ => None
  end.

(** ** Valid manifests *)
Definition produced_fields (m : ManifestV2) : list string := c ← mf_policy_rpc m; cp_field <$> cs_outputs c.
Record valid_manifest (m : ManifestV2) : Prop := {
  va_version : mf_schema_version m = 2;
  va_specs : (length (mf_policy_rpc m) <= 64)%nat;
  va_fields : (size (mf_custom_context m) <= 64)%nat;
  va_ids : NoDup (cs_id <$> mf_policy_rpc m);
  va_outputs : Forall (fun c => length (cs_outputs c) <= 64)%nat (mf_policy_rpc m);
  va_produced : NoDup (produced_fields m);
  va_declared : list_to_set (produced_fields m) = dom (mf_custom_context m);
}.
Definition invalid (e : PolicyRpcError) : Prop := exists msg, e = InvalidManifest msg.

Lemma produce_fields_spec outputs : forall produced,
  let l := cp_field <$> outputs in
  match foldM produce_field outputs produced with
  | Ok p => NoDup l /\ (forall x, x ∈ l -> x ∉ produced) /\ p = list_to_set l ∪ produced
  | Err e => invalid e /\ ~ (NoDup l /\ forall x, x ∈ l -> x ∉ produced)
  | Panic => False
  end.
Proof.
  induction outputs as [|o outputs IH]; intros produced; simpl.
  { split; [constructor|]. split; [by intros x ?%elem_of_nil|]. by rewrite (left_id_L ∅ (∪)). }
  destruct (produce_field produced o) as [p0|e0|] eqn:Hs; unfold produce_field in Hs; destruct (decide (cp_field o ∈ produced)) as [Hin|Hin]; try done;
    injection Hs as <-; simpl; [|by split; [eexists|intros [_ Hx]; apply (Hx (cp_field o)); [left|done]]].
  specialize (IH ({[cp_field o]} ∪ produced)). simpl in IH. destruct (foldM produce_field outputs _) as [p|e|]; [| |done].
  - destruct IH as (Hnd & Hd & ->). split; [constructor; [|done]|split].
    + intros Hx. apply Hd in Hx. set_solver.
    + intros x [->|Hx]%elem_of_cons; [done|]. apply Hd in Hx. set_solver.
    + set_solver.
  - destruct IH as [He Hn]. split; [done|]. intros [Hnd Hd]. apply NoDup_cons in Hnd as [Ho Hnd]. apply Hn. split; [done|].
    intros x Hx. apply not_elem_of_union. split; [|by apply Hd; right]. intros ->%elem_of_singleton. done.
Qed.
Lemma validate_calls_spec calls : forall ids produced,
  let l := c ← calls; cp_field <$> cs_outputs c in
  let good := NoDup (cs_id <$> calls) /\ (forall c, c ∈ calls -> cs_id c ∉ ids) /\
              Forall (fun c => length (cs_outputs c) <= 64)%nat calls /\ NoDup l /\ (forall x, x ∈ l -> x ∉ produced) in
  match foldM validate_call calls (ids, produced) with
  | Ok st => good /\ st.2 = list_to_set l ∪ produced
  | Err e => invalid e /\ ~ good
  | Panic => False
  end.
Proof.
  induction calls as [|c calls IH]; intros ids produced; cbn [foldM].
  { split; [|simpl; by rewrite (left_id_L ∅ (∪))]. split; [constructor|]. split; [by intros c ?%elem_of_nil|]. split; [constructor|].
    split; [constructor|by intros x ?%elem_of_nil]. }
  assert (validate_call (ids, produced) c =
    if decide (cs_id c ∈ ids) then Err (InvalidManifest "manifest `{}` has duplicate policy_rpc id `{}`")
    else if (MAX_POLICY_RPC_V2_OUTPUTS_PER_CALL <? length (cs_outputs c))%nat
    then Err (InvalidManifest "manifest `{}` call `{}` declares {} outputs (max {})")
    else produced ← foldM produce_field (cs_outputs c) produced; Ok ({[cs_id c]} ∪ ids, produced)) as -> by reflexivity.
  destruct (decide (cs_id c ∈ ids)) as [Hin|Hin].
  { simpl. split; [by eexists|]. intros (_ & Hx & _). apply (Hx c); [left|done]. }
  destruct (Nat.ltb_spec MAX_POLICY_RPC_V2_OUTPUTS_PER_CALL (length (cs_outputs c))) as [Hlen|Hlen]; unfold MAX_POLICY_RPC_V2_OUTPUTS_PER_CALL in Hlen.
  { simpl. split; [by eexists|]. intros (_ & _ & [Hx _]%Forall_cons & _). lia. }
  pose proof (produce_fields_spec (cs_outputs c) produced) as Hp. simpl in Hp.
  destruct (foldM produce_field (cs_outputs c) produced) as [p|e|]; [| |done]; simpl.
  - destruct Hp as (Hnd & Hd & ->). specialize (IH ({[cs_id c]} ∪ ids) (list_to_set (cp_field <$> cs_outputs c) ∪ produced)). simpl in IH.
    destruct (foldM validate_call calls _) as [st|e|]; [| |done].
    + destruct IH as [(Hids & Hf & Ho & Hl & Hfr) ->]. rewrite list_to_set_app_L. split; [|set_solver].
      split; [constructor; [|done]|split; [|split; [by constructor|split]]].
      * intros (c' & Heq & Hc')%list_elem_of_fmap. apply Hf in Hc'. set_solver.
      * intros c' [->|Hc']%elem_of_cons; [done|]. apply Hf in Hc'. set_solver.
      * apply NoDup_app. split; [done|]. split; [|done]. intros x Hx Hy. apply Hfr in Hy. set_solver.
      * intros x [Hx|Hx]%elem_of_app; [by apply Hd|]. apply Hfr in Hx. set_solver.
    + destruct IH as [He Hn]. split; [done|]. intros (Hids & Hf & Ho & Hl & Hfr). apply Hn.
      apply NoDup_cons in Hids as [Hc Hids]. apply Forall_cons in Ho as [_ Ho]. apply NoDup_app in Hl as (_ & Hdis & Hl).
      split; [done|]. split; [|split; [done|split; [done|]]].
      * intros c' Hc'. apply not_elem_of_union. split; [|apply Hf; by right]. intros Heq%elem_of_singleton. apply Hc. rewrite <- Heq. by apply list_elem_of_fmap_2.
      * intros x Hx. apply not_elem_of_union. split; [|apply Hfr; set_solver]. intros Hy%elem_of_list_to_set. by apply (Hdis x).
  - destruct Hp as [He Hn]. split; [done|]. intros (_ & _ & _ & Hl & Hfr). apply Hn. apply NoDup_app in Hl as (Hl & _ & _).
    split; [done|]. intros x Hx. apply Hfr, elem_of_app. by left.
Qed.

Lemma validate_manifest_spec m :
  match validate_manifest m with
  | Ok _ => valid_manifest m
  | Err e => invalid e /\ ~ valid_manifest m
  | Panic => False
  end.
Proof.
  unfold validate_manifest. destruct (Z.eqb_spec (mf_schema_version m) MANIFEST_V2_SCHEMA_VERSION) as [Hv|Hv]; simpl;
    [|split; [by eexists|by intros []]].
  destruct (Nat.ltb_spec MAX_POLICY_RPC_V2_CALL_SPECS (length (mf_policy_rpc m))) as [Hs|Hs]; unfold MAX_POLICY_RPC_V2_CALL_SPECS in Hs;
    [split; [by eexists|intros []; lia]|].
  destruct (Nat.ltb_spec MAX_POLICY_RPC_V2_CUSTOM_CONTEXT_FIELDS (size (mf_custom_context m))) as [Hf|Hf];
    unfold MAX_POLICY_RPC_V2_CUSTOM_CONTEXT_FIELDS in Hf; [split; [by eexists|intros []; lia]|].
  pose proof (validate_calls_spec (mf_policy_rpc m) ∅ ∅) as Hc. cbv zeta in Hc.
  destruct (foldM validate_call (mf_policy_rpc m) (∅, ∅)) as [st|e|]; simpl; [| |done].
  - destruct Hc as [(Hids & _ & Ho & Hp & _) Heq]. rewrite (right_id_L ∅ (∪)) in Heq. rewrite Heq. fold (produced_fields m) in *.
    destruct (bool_decide_reflect (dom (mf_custom_context m) ⊆ list_to_set (produced_fields m))) as [H1|H1]; simpl;
      [|split; [by eexists|intros []; set_solver]].
    destruct (bool_decide_reflect (list_to_set (produced_fields m) ⊆ dom (mf_custom_context m))) as [H2|H2]; simpl;
      [|split; [by eexists|intros []; set_solver]].
    split; try done. set_solver.
  - destruct Hc as [He Hn]. split; [done|]. intros []. apply Hn. split; [done|]. split; [set_solver|]. split; [done|]. split; [done|set_solver].
Qed.

(** ** Planned calls *)
Lemma walk_fields_total v fields : walk_fields v fields <> Panic.
Proof.
  revert v. induction fields as [|f fields IH]; intros v; simpl; [done|]. destruct (String.eqb f ""); [done|].
  destruct (value_get v f) as [x|]; simpl; [apply IH|done].
Qed.
Lemma resolve_selector_total s a b c d e : resolve_selector s a b c d e <> Panic.
Proof.
  unfold resolve_selector. destruct (strip_root s); [|done]. destruct (has_unsupported s); [done|].
  destruct (split_dot _); [done|]. repeat (case_match; [apply walk_fields_total|]). done.
Qed.
Lemma resolve_params_total tx ctx params : resolve_params tx ctx params <> Panic.
Proof.
  induction params as [|[k t] params IH]; simpl; [done|].
  assert (resolve_template tx ctx t <> Panic) as Ht.
  { unfold resolve_template. destruct t; try done. case_match; [apply resolve_selector_total|done]. }
  destruct (resolve_template tx ctx t); simpl; [|done|done]. destruct (resolve_params tx ctx params); done.
Qed.

Section Plan.
Context (action_view : ActionView) (ctx : Value) (tx : TxView).
Definition applies (m : ManifestV2) : bool :=
  scope_matches_position (tg_scope (mf_trigger m)) action_view && evaluate_trigger (mf_trigger m) action_view tx.
Definition resolved (s : PolicyRpcCallSpec) : option (list (string * Value)) :=
  match resolve_params tx ctx (strings_in_order (cs_params s)) with Ok ps => Some ps | _ => None end.
Definition calls_of (m : ManifestV2) : list PlannedCallV2 := omap (fun s => planned_call m s <$> resolved s) (mf_policy_rpc m).
(** Every call of the manifest can be made, or is optional. *)
Definition plannable (m : ManifestV2) : Prop :=
  valid_manifest m /\ Forall (fun s => cs_optional s = true \/ is_Some (resolved s)) (mf_policy_rpc m).

Lemma plan_specs m specs : forall calls calls', (length calls <= 64)%nat ->
  foldM (plan_spec tx ctx m) specs calls = Ok calls' <->
  Forall (fun s => cs_optional s = true \/ is_Some (resolved s)) specs /\
  calls' = calls ++ omap (fun s => planned_call m s <$> resolved s) specs /\ (length calls' <= 64)%nat.
Proof.
  induction specs as [|s specs IH]; intros calls calls' Hlen; cbn [foldM].
  { rewrite app_nil_r. split; [intros [= <-]; by split_and!|]. by intros (_ & -> & _). }
  assert (plan_spec tx ctx m calls s =
    match resolved s with
    | Some ps => if (64 <=? length calls)%nat then Err (InvalidManifest "planned policy-rpc call count exceeds {}")
                 else Ok (calls ++ [planned_call m s ps])
    | None => match resolve_params tx ctx (strings_in_order (cs_params s)) with
              | Err e => if cs_optional s then Ok calls else Err e | _ => Panic end
    end) as ->.
  { unfold plan_spec, resolved. by destruct (resolve_params _ _ _). }
  cbn [omap list_omap]. rewrite Forall_cons. destruct (resolved s) as [ps|] eqn:Hr; cbn [fmap option_fmap option_map].
  - destruct (Nat.leb_spec 64 (length calls)) as [Hge|Hlt]; simpl.
    + split; [done|]. intros (_ & -> & Hl). rewrite length_app in Hl. simpl in Hl. lia.
    + rewrite IH by (rewrite length_app; simpl; lia). rewrite <- (assoc_L (++)). simpl. naive_solver.
  - unfold resolved in Hr. pose proof (resolve_params_total tx ctx (strings_in_order (cs_params s))) as Hp.
    destruct (resolve_params tx ctx (strings_in_order (cs_params s))) as [ps|e|]; [done| |done].
    destruct (cs_optional s); simpl; [rewrite IH by done; naive_solver|]. split; [done|]. intros ([[?|[? ?]] _] & _); done.
Qed.
Lemma plan_manifests ms : forall calls calls', (length calls <= 64)%nat ->
  foldM (plan_manifest action_view ctx tx) ms calls = Ok calls' <->
  Forall (fun m => applies m = true -> plannable m) ms /\
  calls' = calls ++ (m ← List.filter applies ms; calls_of m) /\ (length calls' <= 64)%nat.
Proof.
  induction ms as [|m ms IH]; intros calls calls' Hlen; cbn [foldM].
  { simpl. rewrite app_nil_r. split; [intros [= <-]; by split_and!|]. by intros (_ & -> & _). }
  assert (plan_manifest action_view ctx tx calls m =
    if applies m then _ ← validate_manifest m; foldM (plan_spec tx ctx m) (mf_policy_rpc m) calls else Ok calls) as ->.
  { unfold plan_manifest, applies. destruct (scope_matches_position _ _); [|done]. by destruct (evaluate_trigger _ _ _). }
  cbn [List.filter]. rewrite Forall_cons. destruct (applies m) eqn:Ha; simpl; [|rewrite IH by done; naive_solver].
  pose proof (validate_manifest_spec m) as Hv. destruct (validate_manifest m) as [[]|e|]; simpl; [| |done].
  - destruct (foldM (plan_spec tx ctx m) (mf_policy_rpc m) calls) as [c1|e|] eqn:Hs; simpl.
    + apply plan_specs in Hs as (Hf & -> & Hl); [|done]. rewrite IH by done. fold (calls_of m). rewrite <- (assoc_L (++)).
      split; [intros (Hms & -> & Hl'); split; [by split|done]|]. intros ((_ & Hms) & -> & Hl'). done.
    + split; [done|]. intros ((Hp & _) & -> & Hl). destruct (Hp eq_refl) as [_ Hf].
      assert (foldM (plan_spec tx ctx m) (mf_policy_rpc m) calls = Ok (calls ++ calls_of m)); [|congruence].
      apply plan_specs; [done|]. split; [done|]. split; [done|]. rewrite length_app in *. rewrite !length_app in Hl. lia.
    + split; [done|]. intros ((Hp & _) & -> & Hl). destruct (Hp eq_refl) as [_ Hf].
      assert (foldM (plan_spec tx ctx m) (mf_policy_rpc m) calls = Ok (calls ++ calls_of m)); [|congruence].
      apply plan_specs; [done|]. split; [done|]. split; [done|]. rewrite length_app in *. rewrite !length_app in Hl. lia.
  - destruct Hv as [_ Hn]. split; [done|]. intros ((Hp & _) & _). destruct (Hp eq_refl) as [? _]. done.
Qed.
End Plan.

(** Planning succeeds exactly when there are at most 128 manifests, every manifest that
    applies to the action is valid with its required parameters resolvable, and at most 64
    calls result; the plan is then the resolvable calls of the applying manifests, in order. *)
Theorem plan_exact manifests action_view ctx tx calls :
  plan_policy_rpc_v2 manifests action_view ctx tx = Ok calls <->
  (length manifests <= 128)%nat /\ (length calls <= 64)%nat /\
  Forall (fun m => applies action_view tx m = true -> plannable ctx tx m) manifests /\
  calls = (m ← List.filter (applies action_view tx) manifests; calls_of ctx tx m).
Proof.
  unfold plan_policy_rpc_v2. destruct (Nat.ltb_spec MAX_POLICY_RPC_V2_MANIFESTS (length manifests)) as [H|H]; unfold MAX_POLICY_RPC_V2_MANIFESTS in H.
  { split; [done|]. intros (? & _). lia. }
  rewrite plan_manifests by (simpl; lia). simpl. naive_solver.
Qed.

(** *** Call identifiers *)
Fixpoint colon_free (s : string) : bool :=
  match s with EmptyString => true | String c rest => negb (Ascii.eqb c ":"%char) && colon_free rest end.
Lemma call_id_inj m m' s s' : colon_free m = true -> colon_free m' = true ->
  policy_rpc_call_id_v2 m s = policy_rpc_call_id_v2 m' s' -> m = m' /\ s = s'.
Proof.
  unfold policy_rpc_call_id_v2. revert m'. induction m as [|c m IH]; intros [|c' m'] H H' Heq; cbn [colon_free] in *.
  - split; [done|]. by injection Heq.
  - rewrite append_cons in Heq. injection Heq as <- _. done.
  - rewrite append_cons in Heq. injection Heq as -> _. done.
  - apply andb_true_iff in H as [_ H]. apply andb_true_iff in H' as [_ H']. rewrite !append_cons in Heq. injection Heq as -> Heq.
    by destruct (IH m' H H' Heq) as [-> ->].
Qed.
Lemma calls_of_ids ctx tx m c : c ∈ calls_of ctx tx m -> exists s, s ∈ mf_policy_rpc m /\ pc_manifest_id c = mf_id m /\
  pc_call_id c = policy_rpc_call_id_v2 (mf_id m) (cs_id s) /\ pc_outputs c = cs_outputs s /\ pc_optional c = cs_optional s.
Proof.
  unfold calls_of. rewrite list_elem_of_omap. intros (s & Hs & Hc). destruct (resolved ctx tx s) as [ps|]; [|done].
  injection Hc as <-. by exists s.
Qed.
Lemma calls_of_nodup ctx tx m : colon_free (mf_id m) = true -> NoDup (cs_id <$> mf_policy_rpc m) ->
  NoDup (pc_call_id <$> calls_of ctx tx m).
Proof.
  intros Hc Hnd. unfold calls_of. induction (mf_policy_rpc m) as [|s specs IH]; [constructor|]. rewrite fmap_cons in Hnd.
  apply NoDup_cons in Hnd as [Hs Hnd]. cbn [omap list_omap]. destruct (resolved ctx tx s) as [ps|]; [|by apply IH].
  cbn [fmap option_fmap option_map]. rewrite fmap_cons. constructor; [|by apply IH].
  intros (c & Heq & Hin)%list_elem_of_fmap. apply list_elem_of_omap in Hin as (s' & Hs' & Hc'). destruct (resolved ctx tx s'); [|done].
  injection Hc' as <-. cbn [planned_call pc_call_id] in Heq. apply call_id_inj in Heq as [_ Heq]; [|done..].
  apply Hs. rewrite Heq. by apply list_elem_of_fmap_2.
Qed.
(** With distinct manifest ids that contain no colon, no two planned calls share an id. *)
Theorem call_ids_unique manifests action_view ctx tx calls :
  NoDup (mf_id <$> manifests) -> Forall (fun m => colon_free (mf_id m) = true) manifests ->
  plan_policy_rpc_v2 manifests action_view ctx tx = Ok calls -> NoDup (pc_call_id <$> calls).
Proof.
  intros Hnd Hcf H. unfold plan_policy_rpc_v2 in H. destruct (_ <? _)%nat; [done|].
  apply plan_manifests in H as (Hall & -> & _); [|simpl; lia]. rewrite app_nil_l.
  induction manifests as [|m ms IH]; [constructor|]. rewrite fmap_cons in Hnd. apply NoDup_cons in Hnd as [Hm Hnd].
  apply Forall_cons in Hcf as [Hc Hcf]. apply Forall_cons in Hall as [Hp Hall]. cbn [List.filter].
  destruct (applies action_view tx m) eqn:Ha; [|by apply IH]. rewrite bind_cons, fmap_app. apply NoDup_app. split; [|split].
  - apply calls_of_nodup; [done|]. apply (Hp eq_refl).
  - intros id (c & -> & Hin)%list_elem_of_fmap (c' & Heq & Hin')%list_elem_of_fmap. apply list_elem_of_bind in Hin' as (m' & Hin' & Hm').
    apply calls_of_ids in Hin as (s & _ & _ & Hid & _). apply calls_of_ids in Hin' as (s' & _ & _ & Hid' & _).
    assert (m' ∈ ms) as Hms by (apply list_elem_of_In in Hm'; apply filter_In in Hm' as [Hm' _]; by apply list_elem_of_In).
    rewrite Hid, Hid' in Heq. apply call_id_inj in Heq as [Heq _]; [|done|by apply (proj1 (Forall_forall _ _) Hcf)].
    apply Hm. rewrite Heq. by apply list_elem_of_fmap_2.
  - by apply IH.
Qed.

(** ** Materialized contexts *)
Lemma obj_get_insert fs k v k' : obj_get (obj_insert fs k v) k' = if String.eqb k k' then Some v else obj_get fs k'.
Proof.
  induction fs as [|[k0 v0] fs IH]; simpl; [done|]. destruct (String.eqb_spec k0 k) as [->|Hne]; simpl.
  - by destruct (String.eqb k k').
  - rewrite IH. destruct (String.eqb_spec k0 k') as [->|]; [|done]. by destruct (String.eqb_spec k k') as [->|].
Qed.
(** The field [k] of [context.custom]. *)
Definition custom_field (context : Value) (k : string) : option Value :=
  c ← value_get context "custom"; value_get c k.
Lemma insert_custom_spec context field value context' : insert_custom_field context field value = Ok context' ->
  custom_field context field = None /\ custom_field context' field = Some value /\
  (forall k, k <> field -> custom_field context' k = custom_field context k) /\
  (forall k, k <> "custom"%string -> value_get context' k = value_get context k).
Proof.
  unfold insert_custom_field, custom_field. destruct context as [| | | | |object]; try done. cbn [value_get].
  destruct (obj_get object "custom") as [c|] eqn:Hc; simpl.
  - destruct c as [| | | | |custom]; try done. destruct (obj_get custom field) eqn:Hf; [done|]. intros [= <-]. cbn [value_get].
    rewrite obj_get_insert. simpl. rewrite obj_get_insert, String.eqb_refl. split; [done|]. split; [done|]. split.
    + intros k Hk. rewrite obj_get_insert. by destruct (String.eqb_spec field k) as [->|].
    + intros k Hk. rewrite obj_get_insert. by destruct (String.eqb_spec "custom" k) as [<-|].
  - intros [= <-]. cbn [value_get]. rewrite obj_get_insert. simpl. rewrite String.eqb_refl. split; [done|]. split; [done|]. split.
    + intros k Hk. by destruct (String.eqb_spec field k) as [->|].
    + intros k Hk. rewrite obj_get_insert. by destruct (String.eqb_spec "custom" k) as [<-|].
Qed.

(** A projection that was written: the output of a call with a result that fits its type. *)
Definition writes (results : gmap string Value) (planned : list PlannedCallV2) (k : string) (v : Value) : Prop :=
  exists call payload output, call ∈ planned /\ results !! pc_call_id call = Some payload /\ output ∈ pc_outputs call /\
    cp_field output = k /\ project payload output = Ok v.
(** What a materialized call guarantees. *)
Definition call_done (results : gmap string Value) (context : Value) (call : PlannedCallV2) : Prop :=
  match results !! pc_call_id call with
  | None => pc_optional call = true
  | Some payload => Forall (fun o => cp_kind o = "context"%string /\
      match project payload o with Ok v => custom_field context (cp_field o) = Some v | _ => pc_optional call = true end) (pc_outputs call)
  end.
(** [b] extends [a]: nothing outside [custom] changed, and no field of [custom] was lost. *)
Definition extends (a b : Value) : Prop :=
  (forall k, k <> "custom"%string -> value_get b k = value_get a k) /\
  (forall k v, custom_field a k = Some v -> custom_field b k = Some v).
#[local] Instance extends_preorder : PreOrder extends.
Proof.
  split; [by split|]. intros a b c [H1 H2] [H3 H4]. split; [intros k Hk; by rewrite H3, H1|]. intros k v Hk. by apply H4, H2.
Qed.

Lemma outputs_spec call payload outputs : forall context context',
  foldM (apply_output call payload) outputs context = Ok context' ->
  extends context context' /\
  Forall (fun o => cp_kind o = "context"%string /\
    match project payload o with Ok v => custom_field context' (cp_field o) = Some v | _ => pc_optional call = true end) outputs /\
  (forall k v, custom_field context' k = Some v ->
     custom_field context k = Some v \/ exists o, o ∈ outputs /\ cp_field o = k /\ project payload o = Ok v).
Proof.
  induction outputs as [|o outputs IH]; intros context context'; cbn [foldM].
  { intros [= <-]. split; [done|]. split; [constructor|]. by left. }
  intros (c1 & H1 & H2)%bind_Ok_inv. destruct (IH c1 context' H2) as (He & Hf & Hw). unfold apply_output in H1.
  destruct (String.eqb_spec (cp_kind o) "context") as [Hk|]; [|done]. simpl in H1. destruct (project payload o) as [v|e|] eqn:Hp.
  - apply insert_custom_spec in H1 as (Hn & Hs & Ho & Hb).
    assert (extends context c1) as Hext.
    { split; [done|]. intros k w Hkw. rewrite Ho; [done|]. intros ->. congruence. }
    split; [by etransitivity|]. split; [constructor; [|done]; split; [done|]; rewrite Hp; by apply He|].
    intros k w Hkw. destruct (Hw k w Hkw) as [Hc|(o' & Ho' & Hf' & Hp')]; [|right; exists o'; split; [by right|done]].
    destruct (String.eqb_spec k (cp_field o)) as [->|Hne]; [|left; by rewrite <- Ho].
    right. exists o. split; [left|]. split; [done|]. congruence.
  - destruct (pc_optional call) eqn:Hopt; [|done]. injection H1 as <-. split; [done|]. split; [constructor; [by rewrite Hp|done]|].
    intros k w Hkw. destruct (Hw k w Hkw) as [Hc|(o' & Ho' & Hf' & Hp')]; [by left|right; exists o'; split; [by right|done]].
  - done.
Qed.
Lemma materialize_spec results planned : forall context context',
  materialize_v2 context planned results = Ok context' ->
  extends context context' /\ Forall (call_done results context') planned /\
  (forall k v, custom_field context' k = Some v -> custom_field context k = Some v \/ writes results planned k v).
Proof.
  unfold materialize_v2. induction planned as [|call planned IH]; intros context context'; cbn [foldM].
  { intros [= <-]. split; [done|]. split; [constructor|]. by left. }
  intros (c1 & H1 & H2)%bind_Ok_inv. destruct (IH c1 context' H2) as (He & Hd & Hw).
  assert (forall k v, writes results planned k v -> writes results (call :: planned) k v) as Hmono.
  { intros k v (c & p & o & Hc & Hx). exists c, p, o. split; [by right|done]. }
  unfold materialize_call in H1. destruct (results !! pc_call_id call) as [payload|] eqn:Hr.
  - apply outputs_spec in H1 as (He1 & Hf & Hw1). split; [by etransitivity|]. split.
    + constructor; [|done]. unfold call_done. rewrite Hr. eapply Forall_impl; [exact Hf|]. intros o [Hk Hp]. split; [done|].
      destruct (project payload o); [by apply He|done..].
    + intros k v Hkv. destruct (Hw k v Hkv) as [Hc|Hc]; [|right; by apply Hmono].
      destruct (Hw1 k v Hc) as [|(o & Ho & Hf' & Hp)]; [by left|]. right. exists call, payload, o. split; [left|done].
  - destruct (pc_optional call) eqn:Hopt; [|done]. injection H1 as <-. split; [done|]. split.
    + constructor; [|done]. unfold call_done. by rewrite Hr.
    + intros k v Hkv. destruct (Hw k v Hkv) as [|Hc]; [by left|right; by apply Hmono].
Qed.

(** C35: A successful materialization fails closed: every required call had a result, and each
    of its outputs was selected, coerced to its declared type and written under
    [context.custom]; the rest of the context is untouched, nothing in [custom] was
    overwritten, and nothing was written there but such outputs. *)
Theorem materialize_fails_closed context planned results context' :
  materialize_v2 context planned results = Ok context' ->
  (forall k, k <> "custom"%string -> value_get context' k = value_get context k) /\
  (forall k v, custom_field context k = Some v -> custom_field context' k = Some v) /\
  (forall k v, custom_field context' k = Some v -> custom_field context k = Some v \/ writes results planned k v) /\
  (forall call, call ∈ planned -> pc_optional call = false -> exists payload, results !! pc_call_id call = Some payload /\
     Forall (fun o => exists v, project payload o = Ok v /\ custom_field context' (cp_field o) = Some v) (pc_outputs call)).
Proof.
  intros H. apply materialize_spec in H as ((Hb & Hc) & Hd & Hw). split; [done|]. split; [done|]. split; [done|].
  intros call Hin Hopt. rewrite Forall_forall in Hd. specialize (Hd call Hin). unfold call_done in Hd.
  destruct (results !! pc_call_id call) as [payload|]; [|congruence]. exists payload. split; [done|].
  eapply Forall_impl; [exact Hd|]. intros o [_ Ho]. destruct (project payload o) as [v|e|]; [by exists v|congruence..].
Qed.

Lemma declared_present manifests action_view context tx calls results context' m field :
  plan_policy_rpc_v2 manifests action_view context tx = Ok calls ->
  materialize_v2 context calls results = Ok context' ->
  m ∈ manifests -> applies action_view tx m = true -> Forall (fun s => cs_optional s = false) (mf_policy_rpc m) ->
  field ∈ dom (mf_custom_context m) -> is_Some (custom_field context' field).
Proof.
  intros Hplan Hmat Hm Ha Hopt Hfield. unfold plan_policy_rpc_v2 in Hplan. destruct (_ <? _)%nat; [done|].
  apply plan_manifests in Hplan as (Hall & -> & _); [|simpl; lia]. rewrite app_nil_l in Hmat.
  apply materialize_spec in Hmat as (_ & Hd & _). rewrite Forall_forall in Hd. rewrite Forall_forall in Hall. rewrite Forall_forall in Hopt. destruct (Hall m Hm Ha) as [Hv Hres].
  rewrite <- (va_declared m Hv), elem_of_list_to_set in Hfield. apply list_elem_of_bind in Hfield as (s & Hin & Hs).
  apply list_elem_of_fmap in Hin as (o & -> & Ho). rewrite Forall_forall in Hres. destruct (Hres s Hs) as [Hx|[ps Hps]]; [by rewrite Hopt in Hx|].
  assert (planned_call m s ps ∈ (m ← List.filter (applies action_view tx) manifests; calls_of context tx m)) as Hc.
  { apply list_elem_of_bind. exists m. split.
    - unfold calls_of. apply list_elem_of_omap. exists s. split; [done|]. by rewrite Hps.
    - apply list_elem_of_In, filter_In. split; [by apply list_elem_of_In|done]. }
  specialize (Hd _ Hc). unfold call_done in Hd. cbn [planned_call pc_optional pc_outputs pc_call_id] in Hd.
  destruct (results !! _) as [payload|]; [|by rewrite Hopt in Hd]. rewrite Forall_forall in Hd. destruct (Hd o Ho) as [_ Hp].
  destruct (project payload o) as [v|e|]; [by eexists|by rewrite Hopt in Hp..].
Qed.

(** From manifest to context: when a manifest applies to an action and none of its calls is
    optional, planning and then materializing leave every context field the manifest
    declares for its policy present in [context.custom]. *)
Theorem declared_fields_present manifests action_view context tx calls results context' m field :
  plan_policy_rpc_v2 manifests action_view context tx = Ok calls ->
  materialize_v2 context calls results = Ok context' ->
  m ∈ manifests -> applies action_view tx m = true -> Forall (fun s => cs_optional s = false) (mf_policy_rpc m) ->
  field ∈ dom (mf_custom_context m) -> is_Some (custom_field context' field).
Proof. apply declared_present. Qed.

(** ** Colliding call identifiers *)
Lemma valid_by_check m : validate_manifest m = Ok () -> valid_manifest m.
Proof. intros H. pose proof (validate_manifest_spec m) as Hv. by rewrite H in Hv. Qed.
Definition demo_output (field : string) : ContextProjection := mkContextProjection "context" field PtString "$.result.value" true.
Definition demo_spec (id method field : string) : PolicyRpcCallSpec :=
  mkPolicyRpcCallSpec id method {["chain" := VString "$.root.chain_id"]}%string [demo_output field] false.
Definition demo_manifest (id spec method field : string) : ManifestV2 :=
  mkManifestV2 id 2 (mkTrigger Inner [(ActionTag, CEq "swap")]) [demo_spec spec method field] {[field := "String"]}%string.
Definition demo_view : ActionView := mkActionView "amm" (Some "swap"%string) (Some "uniswap_v3"%string).
Definition demo_tx_view : TxView := mkTxView "eip155:1" "0x11" "0x22".
Definition demo_manifests : list ManifestV2 :=
  [demo_manifest "acme" "oracle::price" "oracle.price" "price"; demo_manifest "acme::oracle" "price" "oracle.age" "age"]%string.
(** Call ids are not unique across manifests: two valid manifests with different ids can plan
    two different calls under one id, and one result then feeds the contexts of both. *)
Theorem call_ids_collide : exists calls context',
  NoDup (mf_id <$> demo_manifests) /\ Forall valid_manifest demo_manifests /\
  plan_policy_rpc_v2 demo_manifests demo_view (VObject []) demo_tx_view = Ok calls /\
  pc_method <$> calls = ["oracle.price"; "oracle.age"]%string /\ ~ NoDup (pc_call_id <$> calls) /\
  materialize_v2 (VObject []) calls {["acme::oracle::price" := VObject [("value", VString "42")]]}%string = Ok context' /\
  custom_field context' "price" = custom_field context' "age".
Proof.
  destruct (plan_policy_rpc_v2 demo_manifests demo_view (VObject []) demo_tx_view) as [calls|e|] eqn:Hp; [|by vm_compute in Hp..].
  eexists calls, _. split; [apply (bool_decide_unpack _); vm_compute; done|]. split.
  { apply Forall_cons; split; [|apply Forall_singleton]; apply valid_by_check; vm_compute; reflexivity. }
  vm_compute in Hp. injection Hp as <-. split; [done|]. split; [done|]. split; [intros Hn; apply NoDup_cons in Hn as [Hn _]; apply Hn; left|].
  split; [vm_compute; reflexivity|]. done.
Qed.

Definition demo_one : list ManifestV2 := [demo_manifest "acme" "price" "oracle.price" "price"]%string.
Definition demo_results : gmap string Value := {["acme::price" := VObject [("value", VString "42")]]}%string.
Lemma materialize_fails_closed_witness : exists calls context',
  plan_policy_rpc_v2 demo_one demo_view (VObject [("slippageBp", VNumber (IntNum 50))])%string demo_tx_view = Ok calls /\
  value_get context' "slippageBp" = Some (VNumber (IntNum 50)) /\ custom_field context' "price" = Some (VString "42").
Proof.
  destruct (plan_policy_rpc_v2 demo_one demo_view (VObject [("slippageBp", VNumber (IntNum 50))])%string demo_tx_view) as [calls|e|] eqn:Hp; [|by vm_compute in Hp..].
  destruct (materialize_v2 (VObject [("slippageBp", VNumber (IntNum 50))])%string calls demo_results) as [context'|e|] eqn:Hm;
    [|by vm_compute in Hp; injection Hp as <-; vm_compute in Hm..].
  destruct (materialize_fails_closed _ _ _ _ Hm) as (Hb & _ & _ & _). exists calls, context'. split; [done|]. split; [by rewrite Hb|].
  vm_compute in Hp. injection Hp as <-. vm_compute in Hm. by injection Hm as <-.
Defined.
Lemma declared_fields_present_witness : exists context', is_Some (custom_field context' "price").
Proof.
  destruct (plan_policy_rpc_v2 demo_one demo_view (VObject []) demo_tx_view) as [calls|e|] eqn:Hp; [|by vm_compute in Hp..].
  destruct (materialize_v2 (VObject []) calls demo_results) as [context'|e|] eqn:Hm; [|by vm_compute in Hp; injection Hp as <-; vm_compute in Hm..].
  exists context'. apply (declared_fields_present demo_one demo_view (VObject []) demo_tx_view calls demo_results context'
    (demo_manifest "acme" "price" "oracle.price" "price")%string "price"%string Hp Hm).
  - left.
  - reflexivity.
  - repeat constructor.
  - apply elem_of_dom. by eexists.
Defined.
Lemma call_ids_unique_witness : exists calls,
  plan_policy_rpc_v2 demo_one demo_view (VObject []) demo_tx_view = Ok calls /\ NoDup (pc_call_id <$> calls) /\ length calls = 1%nat.
Proof.
  destruct (plan_policy_rpc_v2 demo_one demo_view (VObject []) demo_tx_view) as [calls|e|] eqn:Hp; [|by vm_compute in Hp..].
  exists calls. split; [done|]. split; [|by vm_compute in Hp; injection Hp as <-].
  apply (call_ids_unique demo_one demo_view (VObject []) demo_tx_view calls); [apply NoDup_singleton|by repeat constructor|exact Hp].
Defined.
End PolicyRpc.
