(* ===== verification/BundleFormat.v ===== *)
(** * Policy bundles: wire format (dambi-core/src/bundle: mod.rs, structure.rs)

    The closed structure of a signed policy payload, the canonical Base64 of its
    64-byte signature, and the parsing of a bundle and of its HTTP envelope. The
    tokenizer of strict_json.rs is the class [StrictJson]: what it returns for a
    text, and for the members of an envelope, is a parameter here. *)
From Stdlib Require Import Ascii.
From stdpp Require Import base tactics numbers list strings gmap pretty.
From S2P Require Import Prelude Bytes SyncLive PolicyEngine PolicyRpc.
Import SyncLive.

Module BundleFormat.
Import PolicyEngine PolicyRpc.

(** ** Errors and parsed bundles (mod.rs) *)
Inductive PolicyParseErrorKind :=
| PeInvalidConfig | InputTooLarge | InvalidUtf8 | InvalidJson | DuplicateKey | InvalidNumber | InvalidStructure
| InvalidSignatureEncoding | DepthLimit.
#[global] Instance PolicyParseErrorKind_eq_dec : EqDecision PolicyParseErrorKind.
Proof. solve_decision. Defined.
Record PolicyParseError := mkPolicyParseError { pe_kind : PolicyParseErrorKind; pe_path : string; pe_message : string }.
Record ParsedPolicyBundle := mkParsedPolicyBundle {
  pb_payload_bytes : bytes; pb_payload : Value; pb_signature : bytes; pb_key_id : option string }.

Definition MAX_SAFE_INTEGER : Z := 9007199254740991.
Definition PAYLOAD_KEYS : list string :=
  ["policies"; "sequence"; "issued_at"; "expires_at"; "env"; "profile"; "registry_ref"]%string.
Definition POLICY_KEYS : list string := ["id"; "policy"; "manifest"]%string.
Definition MANIFEST_KEYS : list string := ["id"; "schema_version"; "trigger"; "policy_rpc"; "custom_context"]%string.

(** ** Operations of [serde_json::Value] *)
Definition as_str (v : Value) : option string := match v with VString s => Some s | _ => None end.
Definition as_array (v : Value) : option (list Value) := match v with VArray l => Some l | _ => None end.
Definition as_object (v : Value) : option (list (string * Value)) := match v with VObject fs => Some fs | _ => None end.
Definition is_null (v : Value) : bool := match v with VNull => true | _ => false end.
Definition as_u64 (v : Value) : option Z :=
  match v with
  | VNumber (IntNum z) => if (0 <=? z) && (z <=? U64_MAX) then Some z else None
  | _ => None
  end.
(** [value["key"]]: [Null] where there is no such member. *)
Definition value_index (v : Value) (k : string) : Value := default VNull (value_get v k).
(** [map["key"]]: panics where there is no such member. *)
Definition map_index {E} (fs : list (string * Value)) (k : string) : result E Value := or_panic (obj_get fs k).

(** ** Structure (structure.rs) *)
(** [key.replace('~', "~0").replace('/', "~1")] *)
Fixpoint escape_pointer (s : string) : string :=
  match s with
  | EmptyString => EmptyString
  | String c rest =>
      ((if Ascii.eqb c "~" then "~0" else if Ascii.eqb c "/" then "~1" else String c "") +:+ escape_pointer rest)%string
  end.
Definition child_path (path key : string) : string := (path +:+ "/" +:+ escape_pointer key)%string.
Definition structure_error (path message : string) : PolicyParseError :=
  mkPolicyParseError InvalidStructure path message.
Definition object_of (v : Value) (path : string) : result PolicyParseError (list (string * Value)) :=
  ok_or (structure_error path "expected an object") (as_object v).
Fixpoint require_fields (fields : list (string * Value)) (path : string) (required : list string) : result PolicyParseError () :=
  match required with
  | [] => Ok ()
  | key :: rest =>
      match obj_get fields key with
      | Some _ => require_fields fields path rest
      | None => Err (structure_error (child_path path key) "required field is missing")
      end
  end.
Fixpoint refuse_unknown (fields : list (string * Value)) (path : string) (allowed : list string) : result PolicyParseError () :=
  match fields with
  | [] => Ok ()
  | (key, _) :: rest =>
      if bool_decide (key ∈ allowed) then refuse_unknown rest path allowed
      else Err (structure_error (child_path path key) "unsupported field")
  end.
Definition closed_object (v : Value) (path : string) (required allowed : list string)
    : result PolicyParseError (list (string * Value)) :=
  fields ← object_of v path;
  _ ← require_fields fields path required;
  _ ← refuse_unknown fields path allowed;
  Ok fields.
Definition non_empty_string (v : Value) (path : string) : result PolicyParseError () :=
  match as_str v with
  | Some text => if String.eqb text "" then Err (structure_error path "expected a non-empty string") else Ok ()
  | None => Err (structure_error path "expected a non-empty string")
  end.
Definition safe_integer (v : Value) (path : string) (minimum : Z) : result PolicyParseError () :=
  match as_u64 v with
  | Some number =>
      if (minimum <=? number) && (number <=? MAX_SAFE_INTEGER) then Ok ()
      else Err (structure_error path "expected an integer in {minimum}..={MAX_SAFE_INTEGER}")
  | None => Err (structure_error path "expected an integer in {minimum}..={MAX_SAFE_INTEGER}")
  end.
(** A loop over [iter().enumerate()]. *)
Fixpoint each_indexed {E} (f : nat -> Value -> result E ()) (i : nat) (l : list Value) : result E () :=
  match l with
  | [] => Ok ()
  | v :: rest => _ ← f i v; each_indexed f (S i) rest
  end.
Definition at_index (path : string) (i : nat) : string := (path +:+ "/" +:+ pretty i)%string.

Definition optional_object (manifest : list (string * Value)) (path field : string) : result PolicyParseError () :=
  match obj_get manifest field with
  | Some v => _ ← object_of v (path +:+ "/" +:+ field)%string; Ok ()
  | None => Ok ()
  end.
Definition optional_calls (manifest : list (string * Value)) (path : string) : result PolicyParseError () :=
  match obj_get manifest "policy_rpc" with
  | Some v =>
      let path := (path +:+ "/policy_rpc")%string in
      calls ← ok_or (structure_error path "policy_rpc must be an array of objects") (as_array v);
      each_indexed (fun i call => _ ← object_of call (at_index path i); Ok ()) 0 calls
  | None => Ok ()
  end.
Definition validate_policy (v : Value) (path : string) : result PolicyParseError () :=
  policy ← closed_object v path POLICY_KEYS POLICY_KEYS;
  id ← map_index policy "id"; _ ← non_empty_string id (path +:+ "/id")%string;
  text ← map_index policy "policy"; _ ← non_empty_string text (path +:+ "/policy")%string;
  let path := (path +:+ "/manifest")%string in
  manifest_value ← map_index policy "manifest";
  manifest ← closed_object manifest_value path ["id"; "schema_version"]%string MANIFEST_KEYS;
  mid ← map_index manifest "id"; _ ← non_empty_string mid (path +:+ "/id")%string;
  version ← map_index manifest "schema_version";
  _ ← ensure (bool_decide (as_u64 version = Some 2))
        (structure_error (path +:+ "/schema_version")%string "manifest schema_version must be 2");
  _ ← optional_object manifest path "trigger";
  _ ← optional_object manifest path "custom_context";
  optional_calls manifest path.
Definition is_env (v : Value) : bool :=
  match as_str v with Some s => String.eqb s "staging" || String.eqb s "production" | None => false end.
Definition validate_payload (v : Value) : result PolicyParseError () :=
  payload ← closed_object v "$" PAYLOAD_KEYS PAYLOAD_KEYS;
  policies_value ← map_index payload "policies";
  policies ← ok_or (structure_error "$/policies" "policies must be a non-empty array") (as_array policies_value);
  _ ← ensure (negb (bool_decide (policies = []))) (structure_error "$/policies" "policies must be a non-empty array");
  _ ← each_indexed (fun i p => validate_policy p (at_index "$/policies" i)) 0 policies;
  sequence ← map_index payload "sequence"; _ ← safe_integer sequence "$/sequence" 1;
  issued ← map_index payload "issued_at"; _ ← safe_integer issued "$/issued_at" 0;
  expires ← map_index payload "expires_at";
  _ ← (if is_null expires then Ok () else safe_integer expires "$/expires_at" 0);
  env ← map_index payload "env";
  _ ← ensure (is_env env) (structure_error "$/env" "env must be staging or production");
  profile ← map_index payload "profile"; _ ← non_empty_string profile "$/profile";
  registry ← map_index payload "registry_ref";
  ensure (is_null registry || bool_decide (is_Some (as_str registry))) (structure_error "$/registry_ref" "registry_ref must be a string or null").

(** ** The signature's encoding *)
Definition signature_error : PolicyParseError :=
  mkPolicyParseError InvalidSignatureEncoding "$/signature" "signature must be canonical standard Base64 encoding of exactly 64 bytes".
Definition in_range (lo hi b : Z) : bool := (lo <=? b) && (b <=? hi).
(** One character: [b'A'..=b'Z'], [b'a'..=b'z'], [b'0'..=b'9'], [b'+'], [b'/']. *)
Definition sextet (byte : Z) : option Z :=
  if in_range 65 90 byte then Some (byte - 65)
  else if in_range 97 122 byte then Some (byte - 97 + 26)
  else if in_range 48 57 byte then Some (byte - 48 + 52)
  else if byte =? 43 then Some 62
  else if byte =? 47 then Some 63
  else None.
(** A left shift of a [u8] drops the bits above the eighth. *)
Definition shl8 (b n : Z) : Z := Z.land (Z.shiftl b n) 255.
Fixpoint decode_quads (l : list Z) : bytes :=
  match l with
  | a :: b :: c :: d :: rest =>
      Z.lor (shl8 a 2) (Z.shiftr b 4) :: Z.lor (shl8 (Z.land b 15) 4) (Z.shiftr c 2) ::
      Z.lor (shl8 (Z.land c 3) 6) d :: decode_quads rest
  | _ => []
  end.
Definition bytes_of_string (s : string) : bytes := (fun c => Z.of_nat (Ascii.nat_of_ascii c)) <$> String.list_ascii_of_string s.
Definition decode_signature (signature : string) : result PolicyParseError bytes :=
  let encoded := bytes_of_string signature in
  if negb (length encoded =? 88)%nat || negb (bool_decide (drop 86 encoded = [61; 61])) then Err signature_error
  else
    match mapM sextet (take 86 encoded) with
    | None => Err signature_error
    | Some sextets =>
        match drop 84 sextets with
        | [y; z] =>
            if negb (Z.land z 15 =? 0) then Err signature_error
            else Ok (decode_quads (take 84 sextets) ++ [Z.lor (shl8 y 2) (Z.shiftr z 4)])
        | _ => Panic
        end
    end.

(** ** Parsing (mod.rs) *)
Class StrictJson := {
  RawValue : Type;
  raw_len : RawValue -> Z;
  object_members : string -> string -> result PolicyParseError (list (string * RawValue));
  raw_string : RawValue -> string -> result PolicyParseError string;
  strict_parse : string -> result PolicyParseError Value;
}.

(** [std::str::from_utf8]: the well-formed byte sequences of the Unicode standard. *)
Definition utf8_tail (b : Z) : bool := in_range 128 191 b.
Definition utf8_pair (b c : Z) : bool :=
  (b =? 224) && in_range 160 191 c || in_range 225 236 b && utf8_tail c || (b =? 237) && in_range 128 159 c ||
  in_range 238 239 b && utf8_tail c.
Definition utf8_lead4 (b c : Z) : bool :=
  (b =? 240) && in_range 144 191 c || in_range 241 243 b && utf8_tail c || (b =? 244) && in_range 128 143 c.
Fixpoint utf8_valid (l : bytes) : bool :=
  match l with
  | [] => true
  | b :: r =>
      if b <? 128 then utf8_valid r
      else match r with
           | c1 :: r1 =>
               if in_range 194 223 b then utf8_tail c1 && utf8_valid r1
               else match r1 with
                    | c2 :: r2 =>
                        if utf8_pair b c1 then utf8_tail c2 && utf8_valid r2
                        else match r2 with
                             | c3 :: r3 => utf8_lead4 b c1 && utf8_tail c2 && utf8_tail c3 && utf8_valid r3
                             | [] => false
                             end
                    | [] => false
                    end
           | [] => false
           end
  end.
Definition string_of_bytes (l : bytes) : string :=
  String.string_of_list_ascii ((fun b => Ascii.ascii_of_nat (Z.to_nat b)) <$> l).
Definition utf8 (l : bytes) : result PolicyParseError string :=
  if utf8_valid l then Ok (string_of_bytes l) else Err (mkPolicyParseError InvalidUtf8 "$" "input is not valid UTF-8").
Definition check_limit (max_policy_bytes : Z) : result PolicyParseError () :=
  ensure (negb (max_policy_bytes =? 0)) (mkPolicyParseError PeInvalidConfig "$" "maxPolicyBytes must be positive").
Definition too_large : PolicyParseError := mkPolicyParseError InputTooLarge "$" "policy B exceeds maxPolicyBytes".

Section Parse.
Context {J : StrictJson}.
(** The width of [usize]. *)
Context (w : Z).

Definition parse_policy_bundle (payload : bytes) (signature : string) (key_id : option string) (max_policy_bytes : Z)
    : result PolicyParseError ParsedPolicyBundle :=
  _ ← check_limit max_policy_bytes;
  if max_policy_bytes <? Z.of_nat (length payload) then Err too_large
  else
    text ← utf8 payload;
    value ← strict_parse text;
    _ ← validate_payload value;
    signature ← decode_signature signature;
    Ok (mkParsedPolicyBundle payload value signature key_id).

Definition usize_saturate (z : Z) : Z := Z.min z (2 ^ w - 1).
(** One member of the envelope, over the three fields found so far. *)
Definition envelope_member (max_policy_bytes : Z) (st : option string * option string * option string)
    (member : string * RawValue) : result PolicyParseError (option string * option string * option string) :=
  let '(payload, signature, key_id) := st in
  let '(key, value) := member in
  let path := child_path "$" key in
  if String.eqb key "payload" then
    if usize_saturate (usize_saturate (max_policy_bytes * 6) + 2) <? raw_len value then Err too_large
    else
      text ← raw_string value path;
      if String.eqb text "" then Err (mkPolicyParseError InvalidStructure path "payload must be a non-empty string")
      else Ok (Some text, signature, key_id)
  else if String.eqb key "signature" then s ← raw_string value path; Ok (payload, Some s, key_id)
  else if String.eqb key "key_id" then s ← raw_string value path; Ok (payload, signature, Some s)
  else Err (mkPolicyParseError InvalidStructure path "unknown envelope field").
Definition missing_field (name : string) : PolicyParseError :=
  mkPolicyParseError InvalidStructure ("$/" +:+ name)%string "missing required field".
Definition parse_policy_envelope (envelope : bytes) (max_policy_bytes : Z) : result PolicyParseError ParsedPolicyBundle :=
  _ ← check_limit max_policy_bytes;
  text ← utf8 envelope;
  members ← object_members text "$";
  st ← foldM (envelope_member max_policy_bytes) members (None, None, None);
  let '(payload, signature, key_id) := st in
  payload ← ok_or (missing_field "payload") payload;
  signature ← ok_or (missing_field "signature") signature;
  parse_policy_bundle (bytes_of_string payload) signature key_id max_policy_bytes.
End Parse.

(** ** The wire structure, declaratively *)
Definition is_object (v : Value) : Prop := exists fs, v = VObject fs.
Definition closed (fs : list (string * Value)) (required allowed : list string) : Prop :=
  (forall k, k ∈ required -> is_Some (obj_get fs k)) /\ (forall k, k ∈ fs.*1 -> k ∈ allowed).
Definition text_field (fs : list (string * Value)) (k : string) : Prop := exists s, obj_get fs k = Some (VString s) /\ s <> ""%string.
Definition int_field (fs : list (string * Value)) (k : string) (lo : Z) : Prop :=
  exists n, obj_get fs k = Some (VNumber (IntNum n)) /\ lo <= n <= MAX_SAFE_INTEGER.
Definition optional_field (fs : list (string * Value)) (k : string) (P : Value -> Prop) : Prop :=
  forall v, obj_get fs k = Some v -> P v.
Definition wire_manifest (fs : list (string * Value)) : Prop :=
  closed fs ["id"; "schema_version"]%string MANIFEST_KEYS /\ text_field fs "id" /\
  obj_get fs "schema_version" = Some (VNumber (IntNum 2)) /\
  optional_field fs "trigger" is_object /\ optional_field fs "custom_context" is_object /\
  optional_field fs "policy_rpc" (fun v => exists calls, v = VArray calls /\ Forall is_object calls).
Definition wire_policy (v : Value) : Prop :=
  exists fs mfs, v = VObject fs /\ closed fs POLICY_KEYS POLICY_KEYS /\ text_field fs "id" /\ text_field fs "policy" /\
    obj_get fs "manifest" = Some (VObject mfs) /\ wire_manifest mfs.
Definition wire_payload (v : Value) : Prop :=
  exists fs policies, v = VObject fs /\ closed fs PAYLOAD_KEYS PAYLOAD_KEYS /\
    obj_get fs "policies" = Some (VArray policies) /\ policies <> [] /\ Forall wire_policy policies /\
    int_field fs "sequence" 1 /\ int_field fs "issued_at" 0 /\
    (obj_get fs "expires_at" = Some VNull \/ int_field fs "expires_at" 0) /\
    (obj_get fs "env" = Some (VString "staging") \/ obj_get fs "env" = Some (VString "production")) /\
    text_field fs "profile" /\
    (obj_get fs "registry_ref" = Some VNull \/ exists s, obj_get fs "registry_ref" = Some (VString s)).

(** ** The checks decide the structure *)
(** A check that accepts exactly [P] and otherwise returns an error. *)
Definition decides {E} (r : result E ()) (P : Prop) : Prop := (r = Ok () <-> P) /\ r <> Panic.
Lemma decides_and {E} (r1 r2 : result E ()) P Q : decides r1 P -> (P -> decides r2 Q) -> decides (_ ← r1; r2) (P /\ Q).
Proof.
  intros [H1 N1] H2. destruct r1 as [[]|e|]; [|split; [split; [done|]|done]; intros [HP _]; by apply H1 in HP|done].
  assert P as HP by by apply H1. destruct (H2 HP) as [H N]. split; [|done]. simpl. rewrite H. tauto.
Qed.
Lemma decides_get {E A} (m : result E A) (f : A -> result E ()) (R : A -> Prop) P :
  m <> Panic -> (forall a, m = Ok a <-> R a) -> (forall a, R a -> decides (f a) (P a)) ->
  decides (m ≫= f) (exists a, R a /\ P a).
Proof.
  intros Hn Hm Hf. destruct m as [a|e|]; [|split; [split; [done|]|done]; intros (a & Ha & _); by apply Hm in Ha|done].
  assert (R a) as Ha by by apply Hm. destruct (Hf a Ha) as [H N]. split; [|done]. simpl. rewrite H. split; [by exists a|].
  intros (b & Hb%Hm & HP). by injection Hb as ->.
Qed.
Lemma decides_index {E} fs k (f : Value -> result E ()) (P : Value -> Prop) :
  is_Some (obj_get fs k) -> (forall v, obj_get fs k = Some v -> decides (f v) (P v)) ->
  decides (map_index fs k ≫= f) (exists v, obj_get fs k = Some v /\ P v).
Proof.
  intros [v Hv] Hf. unfold map_index. rewrite Hv. destruct (Hf v Hv) as [H N]. simpl. split; [|done]. rewrite H.
  split; [by exists v|]. intros (v' & [= <-] & ?). done.
Qed.
Lemma decides_iff {E} (r : result E ()) P Q : decides r P -> (P <-> Q) -> decides r Q.
Proof. intros [H N] HPQ. split; [by rewrite H|done]. Qed.
#[global] Instance decides_proper {E} : Proper ((=) ==> iff ==> iff) (@decides E).
Proof. intros r ? <- P Q HPQ. split; intros H; eapply decides_iff; [exact H|done|exact H|done]. Qed.
Lemma decides_ensure {E} (b : bool) (e : E) P : (b = true <-> P) -> decides (ensure b e) P.
Proof. intros H. unfold ensure. split; [|by destruct b]. rewrite <- H. by destruct b. Qed.
Lemma decides_each {E} (f : nat -> Value -> result E ()) P l : (forall i v, decides (f i v) (P v)) ->
  forall i, decides (each_indexed f i l) (Forall P l).
Proof.
  intros Hf. induction l as [|v l IH]; intros i; [split; [|done]; split; [constructor|done]|]. simpl.
  eapply decides_iff; [apply decides_and; [apply Hf|intros _; apply IH]|]. by rewrite Forall_cons.
Qed.

Lemma object_of_spec v path fs : object_of v path = Ok fs <-> v = VObject fs.
Proof. unfold object_of. destruct v; simpl; split; try done; intros [= ->]; done. Qed.
Lemma object_of_no_panic v path : object_of v path <> Panic.
Proof. by destruct v. Qed.
Lemma require_fields_spec fs path required :
  decides (require_fields fs path required) (forall k, k ∈ required -> is_Some (obj_get fs k)).
Proof.
  induction required as [|k l IH]; [split; [|done]; split; [intros _ k Hk; by apply not_elem_of_nil in Hk|done]|]. simpl.
  destruct (obj_get fs k) as [v|] eqn:Hk.
  - eapply decides_iff; [apply IH|]. split; [intros H k' [->|?]%elem_of_cons; [by rewrite Hk|by apply H]|]. intros H k' ?. apply H. by right.
  - split; [|done]. split; [done|]. intros H. destruct (H k) as [v Hv]; [left|congruence].
Qed.
Lemma refuse_unknown_spec fs path allowed : decides (refuse_unknown fs path allowed) (forall k, k ∈ fs.*1 -> k ∈ allowed).
Proof.
  induction fs as [|[k v] fs IH]; [split; [|done]; split; [intros _ k Hk; by apply not_elem_of_nil in Hk|done]|]. simpl.
  case_bool_decide as Hk.
  - eapply decides_iff; [apply IH|]. split; [intros H k' [->|?]%elem_of_cons; [done|by apply H]|]. intros H k' ?. apply H. by right.
  - split; [|done]. split; [done|]. intros H. destruct Hk. apply H. left.
Qed.
Lemma closed_object_spec v path required allowed fs :
  closed_object v path required allowed = Ok fs <-> v = VObject fs /\ closed fs required allowed.
Proof.
  unfold closed_object, closed. destruct v as [| | | | |o]; try (split; [done|by intros [? _]]). simpl.
  destruct (require_fields_spec o path required) as [Hr Nr], (refuse_unknown_spec o path allowed) as [Hu Nu].
  destruct (require_fields o path required) as [[]|e|], (refuse_unknown o path allowed) as [[]|e'|]; simpl; try done;
    split; try done; try (intros [= <-]; split; [done|]; split; [by apply Hr|by apply Hu]).
  - by intros [[= <-] _].
  - intros [[= <-] [_ H]]. by apply Hu in H.
  - intros [[= <-] [H _]]. by apply Hr in H.
  - intros [[= <-] [H _]]. by apply Hr in H.
Qed.
Lemma closed_object_no_panic v path required allowed : closed_object v path required allowed <> Panic.
Proof.
  unfold closed_object. destruct v as [| | | | |o]; try done. simpl.
  destruct (require_fields_spec o path required) as [_ Nr], (refuse_unknown_spec o path allowed) as [_ Nu].
  by destruct (require_fields o path required), (refuse_unknown o path allowed).
Qed.
Lemma non_empty_string_spec v path : decides (non_empty_string v path) (exists s, v = VString s /\ s <> ""%string).
Proof.
  unfold non_empty_string. destruct v as [| | |s| |]; try (split; [|done]; split; [done|]; by intros (? & ? & _)). simpl.
  destruct (String.eqb_spec s "") as [->|Hs]; (split; [|done]); split; try done; [by intros (? & [= <-] & ?)|]. by exists s.
Qed.
Lemma as_u64_spec v n : as_u64 v = Some n <-> v = VNumber (IntNum n) /\ 0 <= n <= U64_MAX.
Proof.
  destruct v as [| |[z|t]| | |]; simpl; try (split; [done|by intros [? _]]).
  destruct ((0 <=? z) && (z <=? U64_MAX)) eqn:H; split; try done.
  - intros [= <-]. apply andb_true_iff in H as [?%Z.leb_le ?%Z.leb_le]. done.
  - by intros [[= ->] _].
  - intros [[= ->] [? ?]]. apply andb_false_iff in H as [?%Z.leb_gt|?%Z.leb_gt]; lia.
Qed.
Lemma safe_integer_spec v path lo : 0 <= lo ->
  decides (safe_integer v path lo) (exists n, v = VNumber (IntNum n) /\ lo <= n <= MAX_SAFE_INTEGER).
Proof.
  intros Hlo. assert (MAX_SAFE_INTEGER <= U64_MAX) by (vm_compute; congruence).
  unfold safe_integer. destruct (as_u64 v) as [n|] eqn:Hv.
  - apply as_u64_spec in Hv as [-> ?]. destruct ((lo <=? n) && (n <=? MAX_SAFE_INTEGER)) eqn:Hb; (split; [|done]); split; try done.
    + intros _. exists n. apply andb_true_iff in Hb as [?%Z.leb_le ?%Z.leb_le]. done.
    + intros (n1 & [= <-] & ? & ?). apply andb_false_iff in Hb as [?%Z.leb_gt|?%Z.leb_gt]; lia.
  - split; [|done]. split; [done|]. intros (n & -> & ?). assert (as_u64 (VNumber (IntNum n)) = Some n) as Hn by (apply as_u64_spec; split; [done|lia]). congruence.
Qed.

Lemma decides_seq {E} fs k (f : Value -> result E ()) (r : result E ()) (Q : Value -> Prop) (R : Prop) :
  is_Some (obj_get fs k) -> (forall v, decides (f v) (Q v)) -> ((exists v, obj_get fs k = Some v /\ Q v) -> decides r R) ->
  decides (v ← map_index fs k; _ ← f v; r) ((exists v, obj_get fs k = Some v /\ Q v) /\ R).
Proof.
  intros Hk Hf Hr. eapply decides_iff.
  - apply (decides_index fs k (fun v => _ ← f v; r) (fun v => Q v /\ R)); [done|]. intros v Hv.
    apply decides_and; [apply Hf|]. intros Hq. apply Hr. by exists v.
  - naive_solver.
Qed.
Lemma optional_object_spec fs path k : decides (optional_object fs path k) (optional_field fs k is_object).
Proof.
  unfold optional_object, optional_field. destruct (obj_get fs k) as [v|]; [|split; [|done]; split; [done|done]].
  destruct v as [| | | | |o]; try (split; [|done]; split; [done|]; intros H; by destruct (H _ eq_refl)).
  split; [|done]. split; [|done]. intros _ v [= <-]. by exists o.
Qed.
Lemma optional_calls_spec fs path :
  decides (optional_calls fs path) (optional_field fs "policy_rpc" (fun v => exists calls, v = VArray calls /\ Forall is_object calls)).
Proof.
  unfold optional_calls, optional_field. destruct (obj_get fs "policy_rpc") as [v|]; [|split; [|done]; split; [done|done]].
  destruct v as [| | | |l|]; try (split; [|done]; split; [done|]; intros H; by destruct (H _ eq_refl) as (? & ? & _)). simpl.
  eapply decides_iff; [apply (decides_each _ is_object)|].
  - intros i [| | | | |o]; split; try done; split; try done; try (by intros [? ?]). by exists o.
  - split; [intros H v [= <-]; by exists l|]. intros H. destruct (H _ eq_refl) as (calls & [= <-] & ?). done.
Qed.
Lemma closed_get fs required allowed k : closed fs required allowed -> k ∈ required -> is_Some (obj_get fs k).
Proof. intros [H _]. apply H. Qed.

Ltac field_known := eapply closed_get; [eassumption|repeat (left || right)].

Lemma manifest_spec fs path : closed fs ["id"; "schema_version"]%string MANIFEST_KEYS ->
  decides (mid ← map_index fs "id"; _ ← non_empty_string mid (path +:+ "/id")%string;
           version ← map_index fs "schema_version";
           _ ← ensure (bool_decide (as_u64 version = Some 2))
                 (structure_error (path +:+ "/schema_version")%string "manifest schema_version must be 2");
           _ ← optional_object fs path "trigger"; _ ← optional_object fs path "custom_context"; optional_calls fs path)
    (wire_manifest fs).
Proof.
  intros Hc. eapply decides_iff.
  - apply decides_seq; [field_known|intros v; apply non_empty_string_spec|intros _].
    apply decides_seq; [field_known|intros v; apply decides_ensure, bool_decide_eq_true|intros _].
    apply decides_and; [apply optional_object_spec|intros _]. apply decides_and; [apply optional_object_spec|intros _]. apply optional_calls_spec.
  - unfold wire_manifest, text_field. split.
    + intros ((v & Hv & s & -> & Hs) & (v2 & Hv2 & [-> _]%as_u64_spec) & H1 & H2 & H3). split; [done|]. split; [by exists s|done].
    + intros (_ & (s & Hs & Hne) & Hv & H1 & H2 & H3). split; [by exists (VString s); split; [|exists s]|]. split; [|done].
      eexists. split; [exact Hv|]. apply as_u64_spec. split; [done|]. by vm_compute.
Qed.
(** What the checks establish for the fields of a policy entry. *)
Definition policy_fields (fs : list (string * Value)) : Prop :=
  text_field fs "id" /\ text_field fs "policy" /\ exists mfs, obj_get fs "manifest" = Some (VObject mfs) /\ wire_manifest mfs.
Lemma text_field_alt fs k : text_field fs k <-> exists v, obj_get fs k = Some v /\ exists s, v = VString s /\ s <> ""%string.
Proof. unfold text_field. naive_solver. Qed.
Lemma validate_policy_spec v path : decides (validate_policy v path) (wire_policy v).
Proof.
  unfold validate_policy. eapply decides_iff.
  - apply (decides_get _ _ (fun fs => v = VObject fs /\ closed fs POLICY_KEYS POLICY_KEYS) policy_fields); [apply closed_object_no_panic|apply closed_object_spec|].
    intros fs [-> Hc]. unfold policy_fields. rewrite !text_field_alt. apply decides_seq; [field_known|intros x; apply non_empty_string_spec|intros _].
    apply decides_seq; [field_known|intros x; apply non_empty_string_spec|intros _]. cbv zeta. eapply decides_iff.
    + apply (decides_index fs "manifest" _ (fun m => exists mfs, (m = VObject mfs /\ closed mfs ["id"; "schema_version"]%string MANIFEST_KEYS) /\ wire_manifest mfs)); [field_known|].
      intros m Hm. apply (decides_get _ _ (fun mfs => m = VObject mfs /\ closed mfs ["id"; "schema_version"]%string MANIFEST_KEYS));
        [apply closed_object_no_panic|apply closed_object_spec|]. intros mfs [-> Hmc]. by apply manifest_spec.
    + split; [intros (m & Hm & mfs & [-> ?] & ?); by exists mfs|]. intros (mfs & Hm & Hw). exists (VObject mfs). split; [done|].
      exists mfs. split; [|done]. split; [done|]. by destruct Hw.
  - unfold wire_policy, policy_fields. naive_solver.
Qed.

Definition payload_fields (fs : list (string * Value)) : Prop :=
  exists policies, obj_get fs "policies" = Some (VArray policies) /\ policies <> [] /\ Forall wire_policy policies /\
    int_field fs "sequence" 1 /\ int_field fs "issued_at" 0 /\
    (obj_get fs "expires_at" = Some VNull \/ int_field fs "expires_at" 0) /\
    (obj_get fs "env" = Some (VString "staging") \/ obj_get fs "env" = Some (VString "production")) /\
    text_field fs "profile" /\
    (obj_get fs "registry_ref" = Some VNull \/ exists s, obj_get fs "registry_ref" = Some (VString s)).
Lemma int_field_alt fs k lo : int_field fs k lo <->
  exists v, obj_get fs k = Some v /\ exists n, v = VNumber (IntNum n) /\ lo <= n <= MAX_SAFE_INTEGER.
Proof. unfold int_field. naive_solver. Qed.
Lemma is_env_spec v : is_env v = true <-> v = VString "staging" \/ v = VString "production".
Proof.
  destruct v as [| | |s| |]; try (split; [done|by intros [?|?]]). unfold is_env. simpl. rewrite orb_true_iff, !String.eqb_eq. naive_solver.
Qed.
Lemma expires_spec v : decides (if is_null v then Ok () else safe_integer v "$/expires_at" 0)
  (v = VNull \/ exists n, v = VNumber (IntNum n) /\ 0 <= n <= MAX_SAFE_INTEGER).
Proof.
  destruct v; try (eapply decides_iff; [apply safe_integer_spec; lia|]; naive_solver). split; [|done]. split; [by left|done].
Qed.
Lemma registry_spec v : is_null v || bool_decide (is_Some (as_str v)) = true <-> v = VNull \/ exists s, v = VString s.
Proof. destruct v; simpl; try (split; [done|by intros [?|[? ?]]]); split; try done; eauto. Qed.
Lemma validate_payload_decides v : decides (validate_payload v) (wire_payload v).
Proof.
  unfold validate_payload. eapply decides_iff.
  - apply (decides_get _ _ (fun fs => v = VObject fs /\ closed fs PAYLOAD_KEYS PAYLOAD_KEYS) payload_fields); [apply closed_object_no_panic|apply closed_object_spec|].
    intros fs [-> Hc]. eapply decides_iff.
    + apply (decides_index fs "policies" _ (fun v => exists l, v = VArray l /\ (l <> [] /\ Forall wire_policy l /\
        (exists v, obj_get fs "sequence" = Some v /\ exists n, v = VNumber (IntNum n) /\ 1 <= n <= MAX_SAFE_INTEGER) /\
        (exists v, obj_get fs "issued_at" = Some v /\ exists n, v = VNumber (IntNum n) /\ 0 <= n <= MAX_SAFE_INTEGER) /\
        (exists v, obj_get fs "expires_at" = Some v /\ (v = VNull \/ exists n, v = VNumber (IntNum n) /\ 0 <= n <= MAX_SAFE_INTEGER)) /\
        (exists v, obj_get fs "env" = Some v /\ (v = VString "staging" \/ v = VString "production")) /\
        (exists v, obj_get fs "profile" = Some v /\ exists s, v = VString s /\ s <> ""%string) /\
        (exists v, obj_get fs "registry_ref" = Some v /\ (v = VNull \/ exists s, v = VString s))))); [field_known|]. intros pv Hpv.
      refine (decides_get _ _ (fun l => pv = VArray l) _ _ _ _); [by destruct pv|intros l; destruct pv; simpl; split; try done; intros [= ->]; done|].
      intros l ->. apply decides_and; [apply decides_ensure; rewrite negb_true_iff, bool_decide_eq_false; done|intros _].
      apply decides_and; [apply decides_each; intros; apply validate_policy_spec|intros _].
      apply decides_seq; [field_known|intros; apply safe_integer_spec; lia|intros _].
      apply decides_seq; [field_known|intros; apply safe_integer_spec; lia|intros _].
      apply decides_seq; [field_known|intros; apply expires_spec|intros _].
      apply decides_seq; [field_known|intros; apply decides_ensure, is_env_spec|intros _].
      apply decides_seq; [field_known|intros; apply non_empty_string_spec|intros _].
      apply decides_index; [field_known|]. intros r _. apply decides_ensure, registry_spec.
    + unfold payload_fields. setoid_rewrite int_field_alt. setoid_rewrite text_field_alt. naive_solver.
  - unfold wire_payload, payload_fields. naive_solver.
Qed.

(** C20: A payload is accepted exactly when it has the closed wire structure, and checking it
    never panics: seven known fields, at least one policy whose manifest is of version 2,
    integers in the safe range, a known environment. *)
Theorem validate_payload_exact v : (validate_payload v = Ok () <-> wire_payload v) /\ validate_payload v <> Panic.
Proof. apply validate_payload_decides. Qed.

(** ** Canonical Base64 *)
Definition b64 (v : Z) : Z := if v <? 26 then 65 + v else if v <? 52 then 71 + v else if v <? 62 then v - 4 else if v =? 62 then 43 else 47.
Fixpoint sextets_of (l : bytes) : list Z :=
  match l with
  | x :: y :: z :: rest => x / 4 :: (x mod 4) * 16 + y / 16 :: (y mod 16) * 4 + z / 64 :: z mod 64 :: sextets_of rest
  | [x; y] => [x / 4; (x mod 4) * 16 + y / 16; (y mod 16) * 4]
  | [x] => [x / 4; (x mod 4) * 16]
  | [] => []
  end.
Definition padding (l : bytes) : bytes :=
  match (length l mod 3)%nat with 1%nat => [61; 61] | 2%nat => [61] | _ => [] end.
(** RFC 4648 Base64 with padding. *)
Definition base64 (l : bytes) : string := string_of_bytes ((b64 <$> sextets_of l) ++ padding l).

Definition six (v : Z) : Prop := 0 <= v < 64.
Ltac case_ifs := repeat match goal with
  | |- context [if ?b then _ else _] => destruct b eqn:?
  | H : context [if ?b then _ else _] |- _ => destruct b eqn:?
  end; rewrite ?andb_true_iff, ?andb_false_iff, ?Z.leb_le, ?Z.leb_gt, ?Z.ltb_lt, ?Z.ltb_ge, ?Z.eqb_eq, ?Z.eqb_neq in *.
Lemma sextet_b64 v : six v -> sextet (b64 v) = Some v.
Proof. unfold six, sextet, b64, in_range. intros Hv. case_ifs; try (f_equal; lia); exfalso; lia. Qed.
Lemma sextet_inv c v : sextet c = Some v -> six v /\ c = b64 v.
Proof. unfold six, sextet, b64, in_range. intros H. case_ifs; try done; injection H as <-; lia. Qed.
Lemma mapM_sextet l : Forall six l -> mapM sextet (b64 <$> l) = Some l.
Proof. induction 1 as [|v l Hv _ IH]; [done|]. cbn. rewrite sextet_b64 by done. cbn. rewrite IH. done. Qed.
Lemma mapM_sextet_inv l ss : mapM sextet l = Some ss -> Forall six ss /\ l = b64 <$> ss.
Proof.
  intros H%mapM_Some. induction H as [|c v l ss Hc _ [IH1 IH2]]; [done|]. apply sextet_inv in Hc as [Hv ->].
  split; [by constructor|]. simpl. by rewrite IH2.
Qed.

(** The shifts of the decoder as arithmetic, by evaluation on all pairs of sextets. *)
Definition sixes : list Z := Z.of_nat <$> seq 0 64.
Definition agree (f g : Z -> Z -> Z) : bool := forallb (fun a => forallb (fun b => f a b =? g a b) sixes) sixes.
Lemma agree_spec f g a b : agree f g = true -> six a -> six b -> f a b = g a b.
Proof.
  unfold agree, six. rewrite forallb_forall. intros H Ha Hb.
  assert (forall v, 0 <= v < 64 -> In v sixes) as Hin.
  { intros v Hv. apply list_elem_of_In, list_elem_of_fmap. exists (Z.to_nat v). split; [lia|]. apply elem_of_seq. lia. }
  specialize (H a (Hin a Ha)). rewrite forallb_forall in H. apply Z.eqb_eq, H, Hin, Hb.
Qed.
Lemma join1 a b : six a -> six b -> Z.lor (shl8 a 2) (Z.shiftr b 4) = a * 4 + b / 16.
Proof. apply (agree_spec (fun a b => Z.lor (shl8 a 2) (Z.shiftr b 4)) (fun a b => a * 4 + b / 16)). vm_compute. done. Qed.
Lemma join2 b c : six b -> six c -> Z.lor (shl8 (Z.land b 15) 4) (Z.shiftr c 2) = (b mod 16) * 16 + c / 4.
Proof. apply (agree_spec (fun b c => Z.lor (shl8 (Z.land b 15) 4) (Z.shiftr c 2)) (fun b c => (b mod 16) * 16 + c / 4)). vm_compute. done. Qed.
Lemma join3 c d : six c -> six d -> Z.lor (shl8 (Z.land c 3) 6) d = (c mod 4) * 64 + d.
Proof. apply (agree_spec (fun c d => Z.lor (shl8 (Z.land c 3) 6) d) (fun c d => (c mod 4) * 64 + d)). vm_compute. done. Qed.
Lemma low_bits z : six z -> Z.land z 15 = z mod 16.
Proof. intros Hz. apply (agree_spec (fun a _ => Z.land a 15) (fun a _ => a mod 16) z z); [vm_compute; done|done..]. Qed.

Ltac divmod := unfold byte_ok, six in *; Z.to_euclidean_division_equations; lia.

Lemma quads_encode n : forall ss tl, length ss = (4 * n)%nat -> Forall six ss ->
  sextets_of (decode_quads ss ++ tl) = ss ++ sextets_of tl /\ length (decode_quads ss) = (3 * n)%nat /\ Forall byte_ok (decode_quads ss).
Proof.
  induction n as [|n IH]; intros ss tl Hl Hs; [destruct ss; [done|simpl in Hl; lia]|].
  destruct ss as [|a [|b [|c [|d ss]]]]; simpl in Hl; try lia. apply Forall_cons in Hs as [Ha Hs]. apply Forall_cons in Hs as [Hb Hs].
  apply Forall_cons in Hs as [Hc Hs]. apply Forall_cons in Hs as [Hd Hs]. destruct (IH ss tl) as (E & L & B); [lia|done|]. cbn [decode_quads app].
  rewrite join1, join2, join3 by done. cbn [sextets_of length]. split; [|split; [lia|]].
  - rewrite E. f_equal; [divmod|f_equal; [divmod|f_equal; [divmod|f_equal; divmod]]].
  - repeat constructor; try done; divmod.
Qed.
Lemma quads_decode n : forall d, length d = (3 * n)%nat -> Forall byte_ok d ->
  length (sextets_of d) = (4 * n)%nat /\ Forall six (sextets_of d) /\ decode_quads (sextets_of d) = d /\
  forall tl, sextets_of (d ++ tl) = sextets_of d ++ sextets_of tl.
Proof.
  induction n as [|n IH]; intros d Hl Hd; [destruct d; [done|simpl in Hl; lia]|].
  destruct d as [|x [|y [|z d]]]; simpl in Hl; try lia. apply Forall_cons in Hd as [Hx Hd]. apply Forall_cons in Hd as [Hy Hd].
  apply Forall_cons in Hd as [Hz Hd]. destruct (IH d) as (L & S6 & D & A); [lia|done|].
  assert (six (x / 4) /\ six ((x mod 4) * 16 + y / 16) /\ six ((y mod 16) * 4 + z / 64) /\ six (z mod 64)) as (S1 & S2 & S3 & S4) by (repeat split; divmod).
  split; [simpl; lia|]. split; [cbn [sextets_of]; by do 4 (apply Forall_cons; split; [done|])|]. split.
  - cbn [sextets_of decode_quads]. rewrite join1, join2, join3 by done. rewrite D. f_equal; [divmod|f_equal; [divmod|f_equal; divmod]].
  - intros tl. cbn [app sextets_of]. by rewrite A.
Qed.

(** *** Strings as bytes *)
Lemma bytes_string_bytes l : Forall byte_ok l -> bytes_of_string (string_of_bytes l) = l.
Proof.
  unfold bytes_of_string, string_of_bytes. rewrite String.list_ascii_of_string_of_list_ascii.
  induction 1 as [|b l Hb _ IH]; [done|]. rewrite !fmap_cons, IH. f_equal. rewrite nat_ascii_embedding; unfold byte_ok in Hb; lia.
Qed.
Lemma string_bytes_string s : string_of_bytes (bytes_of_string s) = s.
Proof.
  unfold bytes_of_string, string_of_bytes. rewrite <- list_fmap_compose.
  rewrite (list_fmap_ext _ id); [by rewrite list_fmap_id, String.string_of_list_ascii_of_string|].
  intros i c _. simpl. by rewrite Nat2Z.id, ascii_nat_embedding.
Qed.
Lemma b64_byte v : six v -> byte_ok (b64 v).
Proof. unfold six, byte_ok, b64. intros ?. case_ifs; lia. Qed.

(** The signature decoder accepts exactly the canonical Base64 of 64 bytes and returns
    those bytes: every 64-byte signature has one accepted spelling, and no input panics. *)
Theorem decode_signature_exact s : decode_signature s <> Panic /\
  forall d, decode_signature s = Ok d <-> length d = 64%nat /\ Forall byte_ok d /\ s = base64 d.
Proof.
  split.
  - unfold decode_signature. destruct (_ || _) eqn:Hg; [done|]. apply orb_false_iff in Hg as [Hl%negb_false_iff%Nat.eqb_eq _].
    destruct (mapM sextet _) as [ss|] eqn:Hm; [|done]. apply length_mapM in Hm. rewrite length_take, Hl in Hm.
    assert (length (drop 84 ss) = 2%nat) as Hd by (rewrite length_drop; lia). destruct (drop 84 ss) as [|y [|z [|? ?]]]; try done. by destruct (negb _).
  - intros d. split.
    + unfold decode_signature. destruct (_ || _) eqn:Hg; [done|]. apply orb_false_iff in Hg as [Hl%negb_false_iff%Nat.eqb_eq He%negb_false_iff%bool_decide_eq_true].
      destruct (mapM sextet _) as [ss|] eqn:Hm; [|done]. pose proof (length_mapM _ _ _ Hm) as Hlen. rewrite length_take, Hl in Hlen. apply mapM_sextet_inv in Hm as [Hs Ht].
      destruct (drop 84 ss) as [|y [|z [|? ?]]] eqn:Hd; try done. destruct (Z.land z 15 =? 0) eqn:Hz; [|done]. intros [= <-]. apply Z.eqb_eq in Hz.
      assert (Forall six (take 84 ss) /\ six y /\ six z) as (S84 & Sy & Sz).
      { rewrite <- (take_drop 84 ss), Hd in Hs. apply Forall_app in Hs as [? Hs]. apply Forall_cons in Hs as [? Hs]. apply Forall_cons in Hs as [? _]. done. }
      rewrite low_bits in Hz by done. rewrite join1 by done. destruct (quads_encode 21 (take 84 ss) [y * 4 + z / 16]) as (E & L & B); [rewrite length_take; lia|done|].
      split; [rewrite length_app, L; simpl; lia|]. split; [apply Forall_app; split; [done|]; constructor; [divmod|constructor]|].
      unfold base64, padding. rewrite E, length_app, L. cbn [length]. change ((3 * 21 + 1) mod 3)%nat with 1%nat.
      assert (sextets_of [y * 4 + z / 16] = [y; z]) as Hyz by (cbn [sextets_of]; f_equal; [divmod|f_equal; divmod]).
      rewrite Hyz, <- Hd, take_drop, <- Ht, <- He, take_drop. by rewrite string_bytes_string.
    + intros (Hl & Hb & ->). assert (exists d' x, d = d' ++ [x] /\ length d' = (3 * 21)%nat) as (d' & x & -> & Hl').
      { destruct (@exists_last _ d) as (d' & x & ->); [by destruct d|]. exists d', x. split; [done|]. rewrite length_app in Hl. simpl in Hl. lia. }
      apply Forall_app in Hb as [Hb' [Hx _]%Forall_cons]. destruct (quads_decode 21 d') as (L & S6 & D & A); [done..|].
      assert (six (x / 4) /\ six ((x mod 4) * 16)) as [S1 S2] by (split; divmod).
      assert (bytes_of_string (base64 (d' ++ [x])) = (b64 <$> (sextets_of d' ++ [x / 4; (x mod 4) * 16])) ++ [61; 61]) as Henc.
      { unfold base64, padding. rewrite A, length_app, Hl'. cbn [length]. change ((3 * 21 + 1) mod 3)%nat with 1%nat. apply bytes_string_bytes.
        apply Forall_app. split; [|repeat constructor; unfold byte_ok; lia]. apply Forall_fmap. apply Forall_app. split; [|do 2 (apply Forall_cons; split; [by apply b64_byte|]); done].
        eapply Forall_impl; [exact S6|]. intros v Hv. by apply b64_byte. }
      unfold decode_signature. rewrite Henc. set (enc := b64 <$> (sextets_of d' ++ [x / 4; (x mod 4) * 16])).
      assert (length enc = 86%nat) as Le by (unfold enc; rewrite length_fmap, length_app, L; done).
      rewrite length_app, Le. rewrite (drop_app_length' _ _ 86), (take_app_length' _ _ 86) by done. rewrite bool_decide_true by done. simpl.
      unfold enc. rewrite mapM_sextet by (apply Forall_app; split; [done|]; do 2 (apply Forall_cons; split; [done|]); done).
      rewrite (drop_app_length' _ _ 84), (take_app_length' _ _ 84) by (rewrite L; done). rewrite low_bits, join1 by done.
      destruct (Z.eqb_spec ((x mod 4) * 16 mod 16) 0) as [_|Hn]; [|exfalso; divmod]. simpl. rewrite D. do 3 f_equal. divmod.
Qed.
End BundleFormat.
