(* ===== verification/BundleTrust.v ===== *)
(** * Policy bundles: trust and semantics (dambi-core/src/bundle: signature.rs, semantics.rs, policy_content.rs)

    Locally configured, role-scoped keys; acceptance of an authenticated bundle
    (scope, freshness, sequence); and the all-or-nothing validation of its
    policies, which ties a Cedar policy to the context fields its manifest
    declares. Cryptography, the Base64 codec of the keys, the derived
    deserializer of a manifest and the schema composer are parameters. *)
From Stdlib Require Import Ascii.
From stdpp Require Import base tactics numbers list strings gmap pretty.
From S2P Require Import Prelude Types Bytes SyncLive PolicyEngine PolicyRpc BundleFormat.
Import SyncLive.

Module BundleTrust.
Import PolicyEngine PolicyRpc BundleFormat.

(** ** Keys (signature.rs) *)
Inductive KeyRole := RolePolicy | RoleDecoder | RoleScam.
#[global] Instance KeyRole_eq_dec : EqDecision KeyRole.
Proof. solve_decision. Defined.
Record VerificationKey := mkVerificationKey { vk_key_id : string; vk_role : KeyRole; vk_public_key_spki_base64 : string }.
Inductive SignatureErrorKind := SeInvalidConfig | SeInvalidSignature | SeInvalidDecoderSnapshot | SeLimitExceeded.
Record SignatureError := mkSignatureError { se_kind : SignatureErrorKind; se_message : string }.

(** P-256 over SHA-256, and the codecs of the keys and signatures. *)
Class Crypto := {
  PublicKey : Type;
  PublicKey_eq_dec :: EqDecision PublicKey;
  Signature : Type;
  base64_decode : string -> option bytes;
  from_public_key_der : bytes -> option PublicKey;
  signature_from_slice : bytes -> option Signature;
  verify : PublicKey -> bytes -> Signature -> bool;
}.

Section Keys.
Context {K : Crypto}.
Record TrustedKey := mkTrustedKey { tk_key_id : string; tk_role : KeyRole; tk_public_key : PublicKey }.
Record SignatureVerifiedPolicyBundle := mkSignatureVerifiedPolicyBundle { sv_parsed : ParsedPolicyBundle; sv_signer_key_id : string }.

Definition invalid_config (message : string) : SignatureError := mkSignatureError SeInvalidConfig message.
Definition add_key (keys : list TrustedKey) (entry : VerificationKey) : result SignatureError (list TrustedKey) :=
  if String.eqb (vk_key_id entry) "" || existsb (fun key => String.eqb (tk_key_id key) (vk_key_id entry)) keys
  then Err (invalid_config "local key IDs must be non-empty and unique")
  else
    der ← ok_or (invalid_config "public key must be canonical standard Base64 DER SPKI") (base64_decode (vk_public_key_spki_base64 entry));
    public_key ← ok_or (invalid_config "public key must be a valid P-256 SPKI") (from_public_key_der der);
    if existsb (fun key => negb (bool_decide (tk_role key = vk_role entry)) && bool_decide (tk_public_key key = public_key)) keys
    then Err (invalid_config "different verification roles must use distinct public keys")
    else Ok (keys ++ [mkTrustedKey (vk_key_id entry) (vk_role entry) public_key]).
Definition keys_for_role (config : list VerificationKey) (required : KeyRole) : result SignatureError (list TrustedKey) :=
  keys ← foldM add_key config [];
  if existsb (fun key => bool_decide (tk_role key = required)) keys then Ok keys
  else Err (invalid_config "at least one locally trusted key of the required role is required").
Definition keys_new (config : list VerificationKey) : result SignatureError (list TrustedKey) := keys_for_role config RolePolicy.
Definition invalid_signature : SignatureError :=
  mkSignatureError SeInvalidSignature "signature does not verify with a locally trusted key of the required role".
Definition verify_bytes (keys : list TrustedKey) (role : KeyRole) (message signature_bytes : bytes) : result SignatureError string :=
  signature ← ok_or invalid_signature (signature_from_slice signature_bytes);
  match find_first (fun key => bool_decide (tk_role key = role) && verify (tk_public_key key) message signature) keys with
  | Some key => Ok (tk_key_id key)
  | None => Err invalid_signature
  end.
Definition verify_policy_bundle (keys : list TrustedKey) (parsed : ParsedPolicyBundle) : result SignatureError SignatureVerifiedPolicyBundle :=
  signer_key_id ← verify_bytes keys RolePolicy (pb_payload_bytes parsed) (pb_signature parsed);
  Ok (mkSignatureVerifiedPolicyBundle parsed signer_key_id).
Definition shares_key_with (keys other : list TrustedKey) : bool :=
  existsb (fun left => existsb (fun right => bool_decide (tk_public_key left = tk_public_key right)) other) keys.
End Keys.

(** ** Content (policy_content.rs) *)
Inductive PolicySemanticErrorKind :=
| SemInvalidConfig | SemInvalidPolicyBundle | SemUnsupportedRegistryRef | SemPolicyScopeMismatch | SemPolicyExpired
| SemPolicySequenceRejected | SemLimitExceeded.
Record PolicySemanticError := mkPolicySemanticError { sm_kind : PolicySemanticErrorKind; sm_path : string; sm_message : string }.

Definition invalid (path message : string) : PolicySemanticError := mkPolicySemanticError SemInvalidPolicyBundle path message.
Definition check_count (count maximum : nat) (path : string) : result PolicySemanticError () :=
  ensure (count <=? maximum)%nat (mkPolicySemanticError SemLimitExceeded path "item count {count} exceeds {maximum}").
Fixpoint refuse_fields (fs : list (string * Value)) (path : string) (allowed : list string) : result PolicySemanticError () :=
  match fs with
  | [] => Ok ()
  | (key, _) :: rest =>
      if bool_decide (key ∈ allowed) then refuse_fields rest path allowed
      else Err (invalid (child_path path key) "unsupported manifest field")
  end.
Definition closed_fields (v : Value) (path : string) (allowed : list string) : result PolicySemanticError (list (string * Value)) :=
  object ← ok_or (invalid path "expected an object") (as_object v);
  _ ← refuse_fields object path allowed;
  Ok object.
Definition closed_if_present (v : Value) (path key : string) (allowed : list string) : result PolicySemanticError () :=
  match value_get v key with
  | Some field => _ ← closed_fields field (path +:+ "/" +:+ key)%string allowed; Ok ()
  | None => Ok ()
  end.
Definition nested_output (path : string) (i : nat) (output : Value) : result PolicySemanticError () :=
  _ ← closed_fields output (at_index path i) ["kind"; "field"; "type"; "from"; "required"]%string; Ok ().
Definition nested_call (path : string) (i : nat) (call : Value) : result PolicySemanticError () :=
  let path := at_index path i in
  call ← closed_fields call path ["id"; "method"; "params"; "outputs"; "optional"]%string;
  match obj_get call "outputs" with
  | Some outputs =>
      let path := (path +:+ "/outputs")%string in
      outputs ← ok_or (invalid path "outputs must be an array") (as_array outputs);
      each_indexed (nested_output path) 0 outputs
  | None => Ok ()
  end.
Definition validate_nested_fields (manifest : Value) (path : string) : result PolicySemanticError () :=
  _ ← closed_if_present manifest path "trigger" ["scope"; "where"]%string;
  _ ← closed_if_present manifest path "custom_context" ["fields"]%string;
  match value_get manifest "policy_rpc" with
  | Some calls =>
      let path := (path +:+ "/policy_rpc")%string in
      calls ← ok_or (invalid path "policy_rpc must be an array") (as_array calls);
      each_indexed (nested_call path) 0 calls
  | None => Ok ()
  end.

Definition supported_type (name : string) : option string :=
  if bool_decide (name ∈ ["String"; "Long"; "Bool"; "Set<String>"]%string) then Some name
  else if bool_decide (name ∈ ["Decimal"; "decimal"]%string) then Some "decimal"%string
  else None.
Definition ident_start (c : ascii) : bool :=
  let n := Z.of_nat (nat_of_ascii c) in in_range 97 122 n || in_range 65 90 n || (n =? 95).
Definition ident_char (c : ascii) : bool := ident_start c || in_range 48 57 (Z.of_nat (nat_of_ascii c)).
Fixpoint all_ident (s : string) : bool := match s with EmptyString => true | String c rest => ident_char c && all_ident rest end.
Definition is_identifier (name : string) : bool :=
  match name with EmptyString => false | String c rest => ident_start c && all_ident rest end.

Definition validate_selector (selector : string) (output : bool) (path : string) : result PolicySemanticError () :=
  match strip_root selector with
  | None => Err (invalid path "selector must start with $.")
  | Some selector =>
      if has_unsupported selector then Err (invalid path "unsupported selector syntax")
      else
        let parts := split_dot selector in
        if existsb (fun part => String.eqb part "") parts then Err (invalid path "selector contains an empty segment")
        else match parts with
             | [] => Panic
             | first :: fields =>
                 if output then
                   if String.eqb first "result" then Ok () else Err (invalid path "output selector must use $.result")
                 else if String.eqb first "action" then Ok ()
                 else if String.eqb first "root" then
                   match fields with
                   | [] => Ok ()
                   | [field] =>
                       if bool_decide (field ∈ ["chain_id"; "from"; "to"]%string) then Ok ()
                       else Err (invalid path "unknown transaction root field")
                   | _ => Err (invalid path "unknown transaction root field")
                   end
                 else Err (invalid path "parameter selector must use $.root or $.action")
             end
  end.
Definition check_field (path : string) (field type_name : string) : result PolicySemanticError () :=
  let path := child_path (path +:+ "/custom_context/fields")%string field in
  if negb (is_identifier field) then Err (invalid path "custom field must be a Cedar identifier")
  else ensure (bool_decide (is_Some (supported_type type_name))) (invalid path "unsupported custom field type").
Definition check_param (path : string) (name : string) (value : Value) : result PolicySemanticError () :=
  match as_str value with
  | Some selector =>
      if String.prefix "$." selector then validate_selector selector false (child_path (path +:+ "/params")%string name) else Ok ()
  | None => Ok ()
  end.
Definition projection_name (t : ProjectionType) : option string :=
  match t with
  | PtString => Some "String" | PtLong => Some "Long" | PtBool => Some "Bool" | PtDecimal => Some "decimal"
  | PtSetString => Some "Set<String>" | PtUsdValuation | PtWindowStats => None
  end%string.
Definition check_output (fields : gmap string string) (path : string) (output : ContextProjection) : result PolicySemanticError () :=
  if negb (String.eqb (cp_kind output) "context") then Err (invalid (path +:+ "/kind")%string "projection kind must be context")
  else
    _ ← validate_selector (cp_from output) true (path +:+ "/from")%string;
    projection_type ← ok_or (invalid (path +:+ "/type")%string "legacy record projections are not supported by ManifestV2")
                        (projection_name (cp_type_name output));
    let declared := name ← fields !! cp_field output; supported_type name in
    ensure (bool_decide (declared = Some projection_type))
      (invalid (path +:+ "/type")%string "projection type must match its declared custom field type").
(** [for (index, x) in l.iter().enumerate() { f(index, x)?; }] *)
Fixpoint each {A} (f : nat -> A -> result PolicySemanticError ()) (i : nat) (l : list A) : result PolicySemanticError () :=
  match l with [] => Ok () | x :: rest => _ ← f i x; each f (S i) rest end.
Definition check_call (fields : gmap string string) (path : string) (i : nat) (call : PolicyRpcCallSpec) : result PolicySemanticError () :=
  let path := at_index (path +:+ "/policy_rpc")%string i in
  if String.eqb (cs_id call) "" then Err (invalid (path +:+ "/id")%string "call id must not be empty")
  else if String.eqb (cs_method call) "" then Err (invalid (path +:+ "/method")%string "method must not be empty")
  else
    _ ← each (fun _ kv => check_param path kv.1 kv.2) 0 (strings_in_order (cs_params call));
    _ ← check_count (length (cs_outputs call)) MAX_POLICY_RPC_V2_OUTPUTS_PER_CALL (path +:+ "/outputs")%string;
    each (fun i => check_output fields (at_index (path +:+ "/outputs")%string i)) 0 (cs_outputs call).
Definition validate_content (m : ManifestV2) (path : string) : result PolicySemanticError () :=
  _ ← check_count (length (mf_policy_rpc m)) MAX_POLICY_RPC_V2_CALL_SPECS (path +:+ "/policy_rpc")%string;
  _ ← check_count (size (mf_custom_context m)) MAX_POLICY_RPC_V2_CUSTOM_CONTEXT_FIELDS (path +:+ "/custom_context/fields")%string;
  _ ← each (fun _ kv => check_field path kv.1 kv.2) 0 (strings_in_order (mf_custom_context m));
  _ ← each (check_call (mf_custom_context m) path) 0 (mf_policy_rpc m);
  map_err (fun _ => invalid path "invalid ManifestV2: {error}") (validate_manifest m).

(** *** References to [context.custom] in a parsed policy *)
(** The two work lists have their last element first; the fuel is the size of what they hold. *)
Fixpoint value_size (v : Value) : nat :=
  match v with
  | VArray l => S (list_sum (value_size <$> l))
  | VObject fs => S (list_sum ((fun kv => S (value_size kv.2)) <$> fs))
  | _ => 1
  end.
Definition undeclared (m : ManifestV2) (fields : list string) : option string :=
  match fields with
  | custom :: field :: _ =>
      if String.eqb custom "custom" && bool_decide (mf_custom_context m !! field = None) then Some field else None
  | _ => None
  end.
(** The entries one step of the receiver loop pushes. *)
Definition receiver_push (current : Value) (fields : list string) : list (Value * list string) :=
  match value_get current "." with
  | Some access =>
      match as_str (value_index access "attr") with
      | Some field => [(value_index access "left", field :: fields)]
      | None => []
      end
  | None =>
      match value_get current "if-then-else" with
      | Some branches => [(value_index branches "else", fields); (value_index branches "then", fields)]
      | None =>
          match value_get current "Record" with
          | Some record =>
              match fields with
              | field :: rest => match value_get record field with Some value => [(value, rest)] | None => [] end
              | [] => []
              end
          | None => []
          end
      end
  end.
Definition is_context (current : Value) : bool := bool_decide (value_get current "Var" ≫= as_str = Some "context"%string).
Fixpoint receiver_loop (fuel : nat) (m : ManifestV2) (path : string) (pending : list (Value * list string))
    : option (result PolicySemanticError ()) :=
  match pending with
  | [] => Some (Ok ())
  | (current, fields) :: rest =>
      match fuel with
      | O => None
      | S fuel' =>
          if is_context current then
            match undeclared m fields with
            | Some _ => Some (Err (invalid path "undeclared custom context field {}"))
            | None => receiver_loop fuel' m path rest
            end
          else receiver_loop fuel' m path (receiver_push current fields ++ rest)
      end
  end.
Definition validate_receiver_refs (expression : Value) (fields : list string) (m : ManifestV2) (path : string)
    : option (result PolicySemanticError ()) :=
  receiver_loop (value_size expression) m path [(expression, fields)].
(** The fields an access or a [has] test names. *)
Definition operation_fields (operation : Value) : list string :=
  match value_index operation "attr" with
  | VString field => [field]
  | VArray attributes => omap as_str attributes
  | _ => []
  end.
Definition check_operator (m : ManifestV2) (path : string) (object : list (string * Value)) (operator : string)
    : option (result PolicySemanticError ()) :=
  match obj_get object operator with
  | Some operation => validate_receiver_refs (value_index operation "left") (operation_fields operation) m path
  | None => Some (Ok ())
  end.
Fixpoint refs_loop (fuel : nat) (m : ManifestV2) (path : string) (pending : list Value) : option (result PolicySemanticError ()) :=
  match pending with
  | [] => Some (Ok ())
  | value :: rest =>
      match fuel with
      | O => None
      | S fuel' =>
          match value with
          | VArray values => refs_loop fuel' m path (rev values ++ rest)
          | VObject object =>
              match check_operator m path object "." with
              | Some (Ok _) =>
                  match check_operator m path object "has" with
                  | Some (Ok _) => refs_loop fuel' m path (rev object.*2 ++ rest)
                  | r => r
                  end
              | r => r
              end
          | _ => refs_loop fuel' m path rest
          end
      end
  end.
Definition validate_custom_refs (est : Value) (m : ManifestV2) (path : string) : option (result PolicySemanticError ()) :=
  refs_loop (value_size est) m path [est].

(** What the validation uses of Cedar beyond the engine, of the derived deserializer of a
    manifest and of the schema composer. *)
Class PolicyTools (C0 : Cedar) := {
  ps_templates : PolicySet -> list Policy;
  pol_to_json : Policy -> result string Value;
  manifest_from_value : Value -> result string ManifestV2;
  compose_per_policy : ManifestV2 -> result string string;
}.

Section Content.
Context {C0 : Cedar} {T0 : PolicyTools C0}.
Definition claim_call_ids (m : ManifestV2) (path : string) (call_ids : gset string) : result PolicySemanticError (gset string) :=
  foldM (fun ids call =>
    let id := policy_rpc_call_id_v2 (mf_id m) (cs_id call) in
    if decide (id ∈ ids) then Err (invalid (path +:+ "/policy_rpc/{index}/id")%string "policy RPC call id collides with another manifest/spec pair")
    else Ok ({[id]} ∪ ids)) (mf_policy_rpc m) call_ids.
Definition one_policy (source path id : string) : result PolicySemanticError Policy :=
  set ← map_err (fun _ => invalid path "invalid Cedar policy: {error}") (ps_from_str source);
  _ ← ensure (bool_decide (length (ps_templates set) = 0%nat)) (invalid path "policy templates are not supported");
  match ps_policies set with
  | [] => Err (invalid path "entry must contain one static Cedar policy")
  | [policy] =>
      if bool_decide (pol_annotation policy "id" = Some id) then Ok policy
      else Err (invalid path "Cedar @id must equal its policy entry id")
  | _ => Err (invalid path "entry must contain exactly one static Cedar policy")
  end.
Record ContentState := mkContentState {
  cn_ids : gset string; cn_call_ids : gset string; cn_manifests : list ManifestV2; cn_compilations : list (string * string) }.
(** One entry of the bundle; [index] is the number of entries accepted so far. *)
Definition validate_entry (st : ContentState) (entry : Value) : result PolicySemanticError ContentState :=
  let path := at_index "$/policies" (length (cn_manifests st)) in
  id ← ok_or (invalid (path +:+ "/id")%string "policy id must be a string") (as_str (value_index entry "id"));
  if decide (id ∈ cn_ids st) then Err (invalid (path +:+ "/id")%string "duplicate policy id")
  else
    let manifest_path := (path +:+ "/manifest")%string in
    _ ← validate_nested_fields (value_index entry "manifest") manifest_path;
    manifest ← map_err (fun _ => invalid manifest_path "invalid ManifestV2: {error}") (manifest_from_value (value_index entry "manifest"));
    if negb (String.eqb (mf_id manifest) id) then Err (invalid (manifest_path +:+ "/id")%string "manifest id must equal its policy entry id")
    else
      _ ← validate_content manifest manifest_path;
      call_ids ← claim_call_ids manifest manifest_path (cn_call_ids st);
      let policy_path := (path +:+ "/policy")%string in
      source ← ok_or (invalid policy_path "policy must be Cedar text") (as_str (value_index entry "policy"));
      policy ← one_policy source policy_path id;
      est ← map_err (fun _ => invalid policy_path "cannot inspect Cedar policy: {error}") (pol_to_json policy);
      _ ← default Panic (validate_custom_refs est manifest policy_path);
      schema ← map_err (fun _ => invalid manifest_path "invalid policy schema: {error}") (compose_per_policy manifest);
      Ok (mkContentState ({[id]} ∪ cn_ids st) call_ids (cn_manifests st ++ [manifest]) (cn_compilations st ++ [(source, schema)])).
Definition validate_policies (payload : Value) : result PolicySemanticError (list ManifestV2) :=
  entries ← ok_or (invalid "$/policies" "policies must be an array") (as_array (value_index payload "policies"));
  _ ← ensure (negb (bool_decide (length entries = 0%nat))) (invalid "$/policies" "policies must not be empty");
  _ ← check_count (length entries) MAX_POLICY_RPC_V2_MANIFESTS "$/policies";
  st ← foldM validate_entry entries (mkContentState ∅ ∅ [] []);
  _ ← map_err (fun _ => invalid "$/policies" "policy compilation failed: {error}") (build_from_per_policy (cn_compilations st));
  Ok (cn_manifests st).
End Content.

(** ** Acceptance (semantics.rs) *)
Definition DEFAULT_MAX_BUNDLE_AGE_SEC : Z := 259200.
Record PolicyValidationConfig := mkPolicyValidationConfig {
  pv_env : string; pv_profile : string; pv_max_bundle_age_sec : option Z; pv_allowed_clock_skew_ms : Z }.
Inductive PolicyUpdate := Replace | Unchanged.
#[global] Instance PolicyUpdate_eq_dec : EqDecision PolicyUpdate.
Proof. solve_decision. Defined.
Record ValidatedPolicyBundle := mkValidatedPolicyBundle {
  vb_verified : SignatureVerifiedPolicyBundle; vb_manifests : list ManifestV2; vb_sequence : Z;
  vb_issued_at_ms : Z; vb_valid_until_ms : Z; vb_allowed_clock_skew_ms : Z }.
Definition vb_payload (b : ValidatedPolicyBundle) : Value := pb_payload (sv_parsed (vb_verified b)).
Definition vb_payload_bytes (b : ValidatedPolicyBundle) : bytes := pb_payload_bytes (sv_parsed (vb_verified b)).
(** [env] and [profile]: the accessors panic unless the member is a string. *)
Definition vb_env {E} (b : ValidatedPolicyBundle) : result E string := or_panic (as_str (value_index (vb_payload b) "env")).
Definition vb_profile {E} (b : ValidatedPolicyBundle) : result E string := or_panic (as_str (value_index (vb_payload b) "profile")).

Section Semantics.
Context {K : Crypto} {C0 : Cedar} {T0 : PolicyTools C0}.
(** Whether the build checks arithmetic overflow. *)
Context (ck : bool).
Definition u64_of {E} (z : Z) : result E Z :=
  if z <=? U64_MAX then Ok z else if ck then Panic else Ok (z mod (U64_MAX + 1)).

Definition check_clock (now_ms : Z) : result PolicySemanticError () :=
  ensure (now_ms <=? MAX_SAFE_INTEGER)
    (mkPolicySemanticError SemInvalidConfig "clock/now" "clock must return non-negative safe-integer Unix milliseconds").
Definition check_time (issued_at_ms valid_until_ms allowed_clock_skew_ms now_ms : Z) : result PolicySemanticError () :=
  _ ← check_clock now_ms;
  latest ← u64_of (now_ms + allowed_clock_skew_ms);
  if latest <? issued_at_ms
  then Err (mkPolicySemanticError SemInvalidPolicyBundle "$/issued_at" "policy issuance is beyond the allowed future clock skew")
  else if valid_until_ms <=? now_ms
  then Err (mkPolicySemanticError SemPolicyExpired "$/expires_at" "policy has reached its explicit expiry or maximum age")
  else Ok ().
Definition ensure_fresh (b : ValidatedPolicyBundle) (now_ms : Z) : result PolicySemanticError () :=
  check_time (vb_issued_at_ms b) (vb_valid_until_ms b) (vb_allowed_clock_skew_ms b) now_ms.
Definition check_update (b : ValidatedPolicyBundle) (previous : option ValidatedPolicyBundle) (now_ms : Z)
    : result PolicySemanticError PolicyUpdate :=
  _ ← ensure_fresh b now_ms;
  match previous with
  | None => Ok Replace
  | Some previous =>
      env ← vb_env b; previous_env ← vb_env previous;
      other_scope ←
        (if negb (String.eqb env previous_env) then Ok true
         else profile ← vb_profile b; previous_profile ← vb_profile previous; Ok (negb (String.eqb profile previous_profile)));
      if other_scope : bool then Err (mkPolicySemanticError SemPolicyScopeMismatch "$" "sequence comparison requires the same env/profile scope")
      else if vb_sequence previous <? vb_sequence b then Ok Replace
      else if (vb_sequence b =? vb_sequence previous) && bool_decide (vb_payload_bytes b = vb_payload_bytes previous) then Ok Unchanged
      else Err (mkPolicySemanticError SemPolicySequenceRejected "$/sequence" "sequence must increase, or repeat with the exact same B bytes")
  end.

Definition validate_policy_bundle (verified : SignatureVerifiedPolicyBundle) (config : PolicyValidationConfig) (now_ms : Z)
    : result PolicySemanticError ValidatedPolicyBundle :=
  let max_age := default DEFAULT_MAX_BUNDLE_AGE_SEC (pv_max_bundle_age_sec config) in
  if negb (String.eqb (pv_env config) "staging" || String.eqb (pv_env config) "production") || negb (String.eqb (pv_profile config) "default")
  then Err (mkPolicySemanticError SemInvalidConfig "config/trust" "env must be staging or production and profile must be default")
  else if negb ((1 <=? max_age) && (max_age <=? MAX_SAFE_INTEGER)) || (MAX_SAFE_INTEGER <? pv_allowed_clock_skew_ms config)
  then Err (mkPolicySemanticError SemInvalidConfig "config/limits" "maxBundleAgeSec must be positive and skew non-negative, both safe integers")
  else
    _ ← check_clock now_ms;
    let payload := pb_payload (sv_parsed verified) in
    if negb (bool_decide (as_str (value_index payload "env") = Some (pv_env config)))
       || negb (bool_decide (as_str (value_index payload "profile") = Some (pv_profile config)))
    then Err (mkPolicySemanticError SemPolicyScopeMismatch "$" "policy env/profile does not match local trust")
    else if negb (is_null (value_index payload "registry_ref"))
    then Err (mkPolicySemanticError SemUnsupportedRegistryRef "$/registry_ref" "v0.1 supports only a null registry_ref")
    else
      issued_at ← or_panic (as_u64 (value_index payload "issued_at"));
      let expires_at := as_u64 (value_index payload "expires_at") in
      if match expires_at with Some expiry => expiry <=? issued_at | None => false end
      then Err (mkPolicySemanticError SemInvalidPolicyBundle "$/expires_at" "expires_at must be later than issued_at")
      else
        age_deadline ← u64_of (issued_at + max_age);
        valid_until_ms ← u64_of (match expires_at with Some expiry => Z.min expiry age_deadline | None => age_deadline end * 1000);
        issued_at_ms ← u64_of (issued_at * 1000);
        _ ← check_time issued_at_ms valid_until_ms (pv_allowed_clock_skew_ms config) now_ms;
        sequence ← or_panic (as_u64 (value_index payload "sequence"));
        manifests ← validate_policies payload;
        Ok (mkValidatedPolicyBundle verified manifests sequence issued_at_ms valid_until_ms (pv_allowed_clock_skew_ms config)).
End Semantics.

(** ** The reference checks terminate and are exact *)
Lemma value_size_pos v : (1 <= value_size v)%nat.
Proof. destruct v; simpl; lia. Qed.
Definition fields_size (fs : list (string * Value)) : nat := list_sum ((fun kv => S (value_size kv.2)) <$> fs).
Lemma fields_size_cons k v fs : fields_size ((k, v) :: fs) = (S (value_size v) + fields_size fs)%nat.
Proof. done. Qed.
Lemma obj_get_size fs k v : obj_get fs k = Some v -> (S (value_size v) <= fields_size fs)%nat.
Proof.
  induction fs as [|[k' v'] fs IH]; [done|]. rewrite fields_size_cons. cbn [obj_get]. destruct (String.eqb k' k); [intros [= ->]; lia|].
  intros H%IH. lia.
Qed.
Lemma obj_get_size2 fs k k' v v' : k <> k' -> obj_get fs k = Some v -> obj_get fs k' = Some v' ->
  (S (value_size v) + S (value_size v') <= fields_size fs)%nat.
Proof.
  intros Hk. induction fs as [|[k1 v1] fs IH]; [done|]. rewrite fields_size_cons. cbn [obj_get].
  destruct (String.eqb_spec k1 k) as [H1|H1], (String.eqb_spec k1 k') as [H2|H2]; [congruence|..]; clear H1 H2.
  - intros [= ->] H%obj_get_size. lia.
  - intros H%obj_get_size [= ->]. lia.
  - intros H1 H2. specialize (IH H1 H2). lia.
Qed.
Lemma object_size fs : value_size (VObject fs) = S (fields_size fs).
Proof. done. Qed.
Lemma value_get_size v k x : value_get v k = Some x -> (S (S (value_size x)) <= value_size v)%nat.
Proof. destruct v; try done. rewrite object_size. intros H%obj_get_size. lia. Qed.
Lemma value_index_size v k : (value_size (value_index v k) <= value_size v)%nat.
Proof.
  unfold value_index. destruct (value_get v k) as [x|] eqn:H; simpl; [apply value_get_size in H; lia|apply value_size_pos].
Qed.
Lemma value_index_size2 v k k' : k <> k' -> (value_size (value_index v k) + value_size (value_index v k') <= S (value_size v))%nat.
Proof.
  intros Hk. unfold value_index. pose proof (value_size_pos v).
  destruct (value_get v k) as [x|] eqn:H1, (value_get v k') as [y|] eqn:H2; simpl; try (apply value_get_size in H1; lia);
    try (apply value_get_size in H2; lia); [|lia].
  destruct v as [| | | | |fs]; try done. pose proof (obj_get_size2 fs k k' x y Hk H1 H2) as H3. rewrite object_size. lia.
Qed.
Definition pending_size (l : list (Value * list string)) : nat := list_sum ((fun ef => value_size ef.1) <$> l).
Lemma pending_size_cons e fs l : pending_size ((e, fs) :: l) = (value_size e + pending_size l)%nat.
Proof. done. Qed.
Lemma pending_size_app l1 l2 : pending_size (l1 ++ l2) = (pending_size l1 + pending_size l2)%nat.
Proof. unfold pending_size. by rewrite fmap_app, list_sum_app. Qed.
Lemma receiver_push_size e fs : (pending_size (receiver_push e fs) < value_size e)%nat.
Proof.
  unfold receiver_push. pose proof (value_size_pos e). assert (pending_size [] = 0%nat) as H0 by done.
  destruct (value_get e ".") as [a|] eqn:Ha.
  { apply value_get_size in Ha. pose proof (value_index_size a "left"). destruct (as_str _); rewrite ?pending_size_cons; lia. }
  destruct (value_get e "if-then-else") as [b|] eqn:Hb.
  { apply value_get_size in Hb. pose proof (value_index_size2 b "else" "then" ltac:(done)). rewrite !pending_size_cons. lia. }
  destruct (value_get e "Record") as [r|] eqn:Hr; [|lia]. apply value_get_size in Hr.
  destruct fs as [|f rest]; [lia|]. destruct (value_get r f) as [x|] eqn:Hx; [|lia]. apply value_get_size in Hx. rewrite pending_size_cons. lia.
Qed.

(** The ways an expression can evaluate to [context] or to something found under it: through
    attribute accesses, either branch of a conditional, or a field of a record. *)
Inductive may_reach : Value -> list string -> list string -> Prop :=
| reach_context e fs : is_context e = true -> may_reach e fs fs
| reach_access e fs access field p :
    is_context e = false -> value_get e "." = Some access -> as_str (value_index access "attr") = Some field ->
    may_reach (value_index access "left") (field :: fs) p -> may_reach e fs p
| reach_branch e fs branches branch p :
    is_context e = false -> value_get e "." = None -> value_get e "if-then-else" = Some branches ->
    branch = "then"%string \/ branch = "else"%string -> may_reach (value_index branches branch) fs p -> may_reach e fs p
| reach_record e f fs record x p :
    is_context e = false -> value_get e "." = None -> value_get e "if-then-else" = None -> value_get e "Record" = Some record ->
    value_get record f = Some x -> may_reach x fs p -> may_reach e (f :: fs) p.
Lemma may_reach_push e fs p : is_context e = false ->
  (may_reach e fs p <-> exists e' fs', (e', fs') ∈ receiver_push e fs /\ may_reach e' fs' p).
Proof.
  intros Hc. unfold receiver_push. split.
  - intros H. destruct H as [|e fs a f p _ Ha Hf H|e fs b k p _ Ha Hb Hk H|e f fs r x p _ Ha Hb Hr Hx H]; [congruence| | |].
    + rewrite Ha, Hf. eexists _, _. split; [left|done].
    + rewrite Ha, Hb. destruct Hk as [-> | ->]; eexists _, _; (split; [|exact H]); [right; left|left].
    + rewrite Ha, Hb, Hr, Hx. eexists _, _. split; [left|done].
  - intros (e' & fs' & Hin & H). destruct (value_get e ".") as [a|] eqn:Ha.
    { destruct (as_str _) as [f|] eqn:Hf; [|by apply not_elem_of_nil in Hin]. apply list_elem_of_singleton in Hin as [= -> ->]. by eapply reach_access. }
    destruct (value_get e "if-then-else") as [b|] eqn:Hb.
    { rewrite !elem_of_cons in Hin. destruct Hin as [[= -> ->]|[[= -> ->]|[]%not_elem_of_nil]].
      - by apply (reach_branch e fs b "else"); [..|right|].
      - by apply (reach_branch e fs b "then"); [..|left|]. }
    destruct (value_get e "Record") as [r|] eqn:Hr; [|by apply not_elem_of_nil in Hin]. destruct fs as [|f rest]; [by apply not_elem_of_nil in Hin|].
    destruct (value_get r f) as [x|] eqn:Hx; [|by apply not_elem_of_nil in Hin]. apply list_elem_of_singleton in Hin as [= -> ->]. by eapply reach_record.
Qed.
Definition safe_receiver (m : ManifestV2) (ef : Value * list string) : Prop := forall p, may_reach ef.1 ef.2 p -> undeclared m p = None.
Lemma safe_receiver_push m e fs : is_context e = false ->
  (safe_receiver m (e, fs) <-> Forall (safe_receiver m) (receiver_push e fs)).
Proof.
  intros Hc. unfold safe_receiver. rewrite Forall_forall. simpl. setoid_rewrite (may_reach_push e fs _ Hc). split.
  - intros H [e' fs'] Hin p Hp. apply H. by exists e', fs'.
  - intros H p (e' & fs' & Hin & Hp). exact (H (e', fs') Hin p Hp).
Qed.
Lemma safe_receiver_context m e fs : is_context e = true -> (safe_receiver m (e, fs) <-> undeclared m fs = None).
Proof.
  intros Hc. unfold safe_receiver. simpl. split; [intros H; apply H; by constructor|]. intros H p Hp. destruct Hp; congruence.
Qed.
Lemma receiver_loop_spec m path fuel : forall pending, (pending_size pending <= fuel)%nat ->
  exists r, receiver_loop fuel m path pending = Some r /\ decides r (Forall (safe_receiver m) pending).
Proof.
  induction fuel as [|fuel IH]; intros [|[e fs] rest] Hf.
  - exists (Ok ()). split; [done|]. split; [|done]. split; [constructor|done].
  - rewrite pending_size_cons in Hf. pose proof (value_size_pos e). lia.
  - exists (Ok ()). split; [done|]. split; [|done]. split; [constructor|done].
  - rewrite pending_size_cons in Hf. cbn [receiver_loop].
    pose proof (value_size_pos e). setoid_rewrite Forall_cons. destruct (is_context e) eqn:Hc.
    + setoid_rewrite (safe_receiver_context m e fs Hc). destruct (undeclared m fs) as [f|] eqn:Hu.
      * eexists. split; [done|]. split; [|done]. split; [done|]. by intros [? _].
      * destruct (IH rest) as (r & Hr & Hd); [lia|]. exists r. split; [done|]. eapply decides_iff; [exact Hd|]. tauto.
    + setoid_rewrite (safe_receiver_push m e fs Hc). destruct (IH (receiver_push e fs ++ rest)) as (r & Hr & Hd).
      { pose proof (receiver_push_size e fs) as Hp. rewrite pending_size_app. lia. }
      exists r. split; [done|]. eapply decides_iff; [exact Hd|]. by rewrite Forall_app.
Qed.

Definition safe_operator (m : ManifestV2) (object : list (string * Value)) (operator : string) : Prop :=
  forall operation, obj_get object operator = Some operation ->
    safe_receiver m (value_index operation "left", operation_fields operation).
Lemma check_operator_spec m path object operator :
  exists r, check_operator m path object operator = Some r /\ decides r (safe_operator m object operator).
Proof.
  unfold check_operator, safe_operator. destruct (obj_get object operator) as [operation|].
  - unfold validate_receiver_refs.
    destruct (receiver_loop_spec m path (value_size (value_index operation "left")) [(value_index operation "left", operation_fields operation)]) as (r & Hr & Hd).
    { rewrite pending_size_cons. assert (pending_size [] = 0%nat) by done. lia. }
    exists r. split; [done|]. eapply decides_iff; [exact Hd|]. rewrite Forall_singleton. split; [by intros H ? [= <-]|]. intros H. by apply H.
  - exists (Ok ()). split; [done|]. split; [|done]. split; [done|done].
Qed.
(** Parts of a JSON value. *)
Inductive part_of : Value -> Value -> Prop :=
| part_refl v : part_of v v
| part_item v x l : x ∈ l -> part_of v x -> part_of v (VArray l)
| part_member v x fs : x ∈ fs.*2 -> part_of v x -> part_of v (VObject fs).
(** Every access and every [has] test in the value names declared fields only, wherever its
    receiver may come from. *)
Definition safe_refs (m : ManifestV2) (v : Value) : Prop :=
  forall object, part_of (VObject object) v -> safe_operator m object "." /\ safe_operator m object "has".
Definition values_size (l : list Value) : nat := list_sum (value_size <$> l).
Lemma values_size_cons v l : values_size (v :: l) = (value_size v + values_size l)%nat.
Proof. done. Qed.
Lemma values_size_app l1 l2 : values_size (l1 ++ l2) = (values_size l1 + values_size l2)%nat.
Proof. unfold values_size. by rewrite fmap_app, list_sum_app. Qed.
Lemma values_size_rev l : values_size (rev l) = values_size l.
Proof.
  induction l as [|v l IH]; [done|]. cbn [rev]. rewrite values_size_app, IH, !values_size_cons.
  change (values_size []) with 0%nat. lia.
Qed.
Lemma fields_values_size fs : (values_size fs.*2 <= fields_size fs)%nat.
Proof. induction fs as [|[k v] fs IH]; [done|]. rewrite fields_size_cons, fmap_cons, values_size_cons. cbn [snd]. lia. Qed.
Lemma safe_refs_array m l : safe_refs m (VArray l) <-> Forall (safe_refs m) l.
Proof.
  unfold safe_refs. rewrite Forall_forall. split; [intros H x Hx object Ho; apply H; by econstructor|].
  intros H object Ho. inversion Ho as [|? x ? Hx Hp|]; subst. by apply (H x).
Qed.
Lemma safe_refs_object m fs : safe_refs m (VObject fs) <->
  safe_operator m fs "." /\ safe_operator m fs "has" /\ Forall (safe_refs m) fs.*2.
Proof.
  unfold safe_refs. rewrite Forall_forall. split.
  - intros H. destruct (H fs) as [H1 H2]; [constructor|]. split; [done|]. split; [done|]. intros x Hx object Ho. apply H. by eapply part_member.
  - intros (H1 & H2 & H3) object Ho. inversion Ho as [| |? x ? Hx Hp]; subst; [done|]. by apply (H3 x).
Qed.
Lemma safe_refs_leaf m v : as_array v = None -> as_object v = None -> safe_refs m v.
Proof. intros Ha Ho object Hp. by inversion Hp; subst. Qed.
Lemma Forall_rev_iff {A} (P : A -> Prop) l : Forall P (rev l) <-> Forall P l.
Proof. rewrite !List.Forall_forall. by setoid_rewrite <- in_rev. Qed.
Lemma refs_loop_spec m path fuel : forall pending, (values_size pending <= fuel)%nat ->
  exists r, refs_loop fuel m path pending = Some r /\ decides r (Forall (safe_refs m) pending).
Proof.
  induction fuel as [|fuel IH]; intros [|v rest] Hf.
  - exists (Ok ()). split; [done|]. split; [|done]. split; [constructor|done].
  - rewrite values_size_cons in Hf. pose proof (value_size_pos v). lia.
  - exists (Ok ()). split; [done|]. split; [|done]. split; [constructor|done].
  - rewrite values_size_cons in Hf. pose proof (value_size_pos v). setoid_rewrite Forall_cons.
    assert (as_array v = None -> as_object v = None -> exists r, refs_loop fuel m path rest = Some r /\ decides r (safe_refs m v /\ Forall (safe_refs m) rest)) as Hleaf.
    { intros H1 H2. destruct (IH rest) as (r & Hr & Hd); [lia|]. exists r. split; [done|]. eapply decides_iff; [exact Hd|]. pose proof (safe_refs_leaf m v H1 H2). tauto. }
    destruct v as [|b|n|s|l|fs]; cbn [refs_loop]; try (by apply Hleaf).
    + destruct (IH (rev l ++ rest)) as (r & Hr & Hd).
      { rewrite values_size_app, values_size_rev. change (value_size (VArray l)) with (S (values_size l)) in Hf. lia. }
      exists r. split; [done|]. eapply decides_iff; [exact Hd|]. by rewrite Forall_app, safe_refs_array, Forall_rev_iff.
    + destruct (check_operator_spec m path fs ".") as (r1 & E1 & D1), (check_operator_spec m path fs "has") as (r2 & E2 & D2).
      rewrite E1, E2. setoid_rewrite (safe_refs_object m fs). destruct (IH (rev fs.*2 ++ rest)) as (r & Hr & Hd).
      { rewrite values_size_app, values_size_rev. pose proof (fields_values_size fs). rewrite object_size in Hf. lia. }
      exists (_ ← r1; _ ← r2; r). split; [destruct r1 as [[]|?|]; [destruct r2 as [[]|?|]; done|done..]|]. eapply decides_iff.
      * apply decides_and; [exact D1|intros _]. apply decides_and; [exact D2|intros _]. exact Hd.
      * rewrite Forall_app, Forall_rev_iff. tauto.
Qed.

(** C19: The scan of a parsed policy always ends, never panics, and accepts the policy exactly
    when every attribute access and every [has] test whose receiver may be [context] or a part
    of it, through conditionals and records, names declared custom fields only. *)
Theorem custom_refs_exact est m path :
  exists r, validate_custom_refs est m path = Some r /\ r <> Panic /\ (r = Ok () <-> safe_refs m est).
Proof.
  destruct (refs_loop_spec m path (value_size est) [est]) as (r & Hr & Hd & Hn).
  { rewrite values_size_cons. change (values_size []) with 0%nat. lia. }
  exists r. split; [done|]. split; [done|]. by rewrite Hd, Forall_singleton.
Qed.

(** ** Accepted policies *)
Definition call_ids_of (m : ManifestV2) : list string := (fun c => policy_rpc_call_id_v2 (mf_id m) (cs_id c)) <$> mf_policy_rpc m.
Section Accepted.
Context {C0 : Cedar} {T0 : PolicyTools C0}.
(** What acceptance of one entry establishes: the manifest is valid and of the entry's id, the
    text is one policy with that id, and the policy reads declared fields only. *)
Record accepted_entry (entry : Value) (m : ManifestV2) (compiled : string * string) : Prop := {
  ae_id : as_str (value_index entry "id") = Some (mf_id m);
  ae_manifest : manifest_from_value (value_index entry "manifest") = Ok m;
  ae_valid : valid_manifest m;
  ae_source : as_str (value_index entry "policy") = Some compiled.1;
  ae_schema : compose_per_policy m = Ok compiled.2;
  ae_policy : exists set policy est, ps_from_str compiled.1 = Ok set /\ ps_policies set = [policy] /\
    pol_annotation policy "id" = Some (mf_id m) /\ pol_to_json policy = Ok est /\ safe_refs m est;
}.
Lemma claim_call_ids_spec m path ids ids' : claim_call_ids m path ids = Ok ids' ->
  NoDup (call_ids_of m) /\ (forall x, x ∈ call_ids_of m -> x ∉ ids) /\ ids' = list_to_set (call_ids_of m) ∪ ids.
Proof.
  unfold claim_call_ids, call_ids_of. revert ids. induction (mf_policy_rpc m) as [|c l IH]; intros ids; cbn [foldM].
  { intros [= <-]. split; [constructor|]. split; [by intros x ?%elem_of_nil|]. simpl. set_solver. }
  set (id := policy_rpc_call_id_v2 (mf_id m) (cs_id c)). destruct (decide (id ∈ ids)) as [|Hid]; [done|].
  intros (Hn & Hd & ->)%IH. rewrite fmap_cons. fold id. split; [|split].
  - constructor; [|done]. intros Hx%Hd. set_solver.
  - intros x [->|Hx]%elem_of_cons; [done|]. apply Hd in Hx. set_solver.
  - cbn [list_to_set]. set_solver.
Qed.
Lemma one_policy_Ok source path id policy : one_policy source path id = Ok policy ->
  exists set, ps_from_str source = Ok set /\ ps_policies set = [policy] /\ pol_annotation policy "id" = Some id.
Proof.
  unfold one_policy. intros (set & Hs%map_err_Ok & (_ & _ & H)%bind_Ok_inv)%bind_Ok_inv. exists set.
  destruct (ps_policies set) as [|p [|? ?]]; try done. case_bool_decide; [|done]. injection H as <-. done.
Qed.
Lemma validate_content_Ok m path : validate_content m path = Ok () -> valid_manifest m.
Proof.
  unfold validate_content. intros (? & _ & (? & _ & (? & _ & (? & _ & H%map_err_Ok)%bind_Ok_inv)%bind_Ok_inv)%bind_Ok_inv)%bind_Ok_inv.
  by apply valid_by_check.
Qed.
Lemma validate_entry_Ok st entry st' : validate_entry st entry = Ok st' ->
  exists m compiled, accepted_entry entry m compiled /\ mf_id m ∉ cn_ids st /\
    NoDup (call_ids_of m) /\ (forall x, x ∈ call_ids_of m -> x ∉ cn_call_ids st) /\
    st' = mkContentState ({[mf_id m]} ∪ cn_ids st) (list_to_set (call_ids_of m) ∪ cn_call_ids st)
            (cn_manifests st ++ [m]) (cn_compilations st ++ [compiled]).
Proof.
  unfold validate_entry. intros (id & Hid & H)%bind_Ok_inv. destruct (decide (id ∈ cn_ids st)) as [|Hnew]; [done|].
  apply bind_Ok_inv in H as (_ & _ & H). apply bind_Ok_inv in H as (m & Hm%map_err_Ok & H).
  destruct (String.eqb_spec (mf_id m) id) as [<-|]; [|done]. cbn [negb] in H.
  apply bind_Ok_inv in H as ([] & Hv%validate_content_Ok & H). apply bind_Ok_inv in H as (ids & (Hn & Hd & ->)%claim_call_ids_spec & H).
  apply bind_Ok_inv in H as (source & Hsrc & H). apply bind_Ok_inv in H as (policy & (set & Hset & Hpol & Hann)%one_policy_Ok & H).
  apply bind_Ok_inv in H as (est & Hest%map_err_Ok & H). apply bind_Ok_inv in H as ([] & Hrefs & H). apply bind_Ok_inv in H as (schema & Hsch%map_err_Ok & H).
  injection H as <-. exists m, (source, schema). split; [|done].
  destruct (refs_loop_spec m (at_index "$/policies" (length (cn_manifests st)) +:+ "/policy")%string (value_size est) [est]) as (r & Hr & Hdec & _).
  { rewrite values_size_cons. change (values_size []) with 0%nat. lia. }
  unfold validate_custom_refs in Hrefs. rewrite Hr in Hrefs. simpl in Hrefs. apply Hdec in Hrefs. rewrite Forall_singleton in Hrefs.
  split; try done.
  - destruct (as_str (value_index entry "id")); simpl in Hid; [by injection Hid as ->|done].
  - destruct (as_str (value_index entry "policy")); simpl in Hsrc; [by injection Hsrc as ->|done].
  - by exists set, policy, est.
Qed.

Record content_inv (entries : list Value) (st : ContentState) : Prop := {
  ci_entries : Forall3 accepted_entry entries (cn_manifests st) (cn_compilations st);
  ci_ids : cn_ids st = list_to_set (mf_id <$> cn_manifests st);
  ci_nodup : NoDup (mf_id <$> cn_manifests st);
  ci_calls : cn_call_ids st = list_to_set (cn_manifests st ≫= call_ids_of);
  ci_calls_nodup : NoDup (cn_manifests st ≫= call_ids_of);
}.
Lemma validate_entries_inv entries : forall done_ st st', content_inv done_ st -> foldM validate_entry entries st = Ok st' ->
  content_inv (done_ ++ entries) st'.
Proof.
  induction entries as [|e es IH]; intros done_ st st' Hi; cbn [foldM]; [intros [= <-]; by rewrite app_nil_r|].
  destruct (validate_entry st e) as [st1|?|] eqn:He; [|done..]. intros H. replace (done_ ++ e :: es) with ((done_ ++ [e]) ++ es) by by rewrite <- app_assoc.
  eapply IH; [|exact H]. apply validate_entry_Ok in He as (m & c & Ha & Hid & Hn & Hd & ->). destruct Hi as [H1 H2 H3 H4 H5].
  split; cbn [cn_ids cn_call_ids cn_manifests cn_compilations].
  - apply Forall3_app; [done|]. constructor; [done|constructor].
  - rewrite fmap_app, list_to_set_app_L, H2. simpl. set_solver.
  - rewrite fmap_app. apply NoDup_app. split; [done|]. split; [|apply NoDup_singleton]. intros x Hx ->%list_elem_of_singleton.
    apply Hid. rewrite H2. by apply elem_of_list_to_set.
  - rewrite bind_app, list_to_set_app_L, H4, bind_singleton. set_solver.
  - rewrite bind_app, bind_singleton. apply NoDup_app. split; [done|]. split; [|done]. intros x Hx Hm%Hd. apply Hm. rewrite H4. by apply elem_of_list_to_set.
Qed.
(** What acceptance of a bundle's policies establishes. *)
Record accepted_policies (payload : Value) (ms : list ManifestV2) : Prop := {
  ap_entries : exists entries compiled engine, value_index payload "policies" = VArray entries /\
    Forall3 accepted_entry entries ms compiled /\ build_from_per_policy compiled = Ok engine;
  ap_count : (1 <= length ms <= 128)%nat;
  ap_ids : NoDup (mf_id <$> ms);
  ap_call_ids : NoDup (ms ≫= call_ids_of);
}.
Lemma validate_policies_Ok payload ms : validate_policies payload = Ok ms -> accepted_policies payload ms.
Proof.
  unfold validate_policies. intros (entries & He & H)%bind_Ok_inv. apply bind_Ok_inv in H as (? & Hne & H). apply bind_Ok_inv in H as (? & Hc & H).
  apply bind_Ok_inv in H as (st & Hst & H). apply bind_Ok_inv in H as (engine & Hb%map_err_Ok & [= <-]).
  apply (validate_entries_inv entries []) in Hst as [H1 H2 H3 H4 H5]; [|by split; try constructor].
  destruct (value_index payload "policies") as [| | | |l|] eqn:Hv; try done. injection He as ->. simpl in H1.
  split; [by exists entries, (cn_compilations st), engine| |done..].
  apply Forall3_length_lm in H1 as Hl. rewrite <- Hl. unfold check_count, ensure in Hc. unfold ensure in Hne.
  destruct (Nat.leb_spec (length entries) MAX_POLICY_RPC_V2_MANIFESTS) as [Hle|]; [|done]. unfold MAX_POLICY_RPC_V2_MANIFESTS in Hle.
  case_bool_decide; [done|]. lia.
Qed.
End Accepted.

(** *** From an accepted bundle to a policy's context *)
(** The paths under [context] that a parsed policy reads or tests. *)
Definition reads (est : Value) (p : list string) : Prop :=
  exists object operator operation, part_of (VObject object) est /\ (operator = "." \/ operator = "has")%string /\
    obj_get object operator = Some operation /\ may_reach (value_index operation "left") (operation_fields operation) p.
Lemma safe_refs_reads m est field rest : safe_refs m est -> reads est ("custom" :: field :: rest)%string -> field ∈ dom (mf_custom_context m).
Proof.
  intros Hs (object & op & operation & Hp & Hop & Ho & Hr). destruct (Hs object Hp) as [H1 H2].
  assert (undeclared m ("custom" :: field :: rest)%string = None) as Hu by (destruct Hop as [-> | ->]; [by apply (H1 operation)|by apply (H2 operation)]).
  unfold undeclared in Hu. rewrite String.eqb_refl in Hu. simpl in Hu. case_bool_decide as Hd; [done|].
  apply elem_of_dom. by destruct (mf_custom_context m !! field).
Qed.
Lemma calls_of_sublist ctx tx m : (pc_call_id <$> calls_of ctx tx m) `sublist_of` call_ids_of m.
Proof.
  unfold calls_of, call_ids_of. induction (mf_policy_rpc m) as [|s l IH]; [constructor|]. cbn [omap list_omap].
  destruct (resolved ctx tx s) as [ps|]; rewrite ?fmap_cons; [by apply sublist_skip|by apply sublist_cons].
Qed.
Lemma planned_sublist action_view ctx tx ms :
  (pc_call_id <$> (m ← List.filter (applies action_view tx) ms; calls_of ctx tx m)) `sublist_of` (ms ≫= call_ids_of).
Proof.
  induction ms as [|m ms IH]; [constructor|]. cbn [List.filter]. rewrite bind_cons.
  destruct (applies action_view tx m); [|by apply sublist_inserts_l]. rewrite bind_cons, fmap_app. apply sublist_app; [apply calls_of_sublist|done].
Qed.

(** A bundle whose policies are accepted cannot mix up facts. Every plan made from its
    manifests has distinct call ids, so one result never feeds two calls; and when the
    manifest of a policy applies and none of its calls is optional, a context materialized from
    the results holds every custom field the policy text reads or tests. *)
Theorem accepted_bundle_feeds_policies {C0 : Cedar} {T0 : PolicyTools C0} payload ms action_view context tx calls :
  validate_policies payload = Ok ms -> plan_policy_rpc_v2 ms action_view context tx = Ok calls ->
  NoDup (pc_call_id <$> calls) /\
  forall results context' m, materialize_v2 context calls results = Ok context' ->
    m ∈ ms -> applies action_view tx m = true -> Forall (fun s => cs_optional s = false) (mf_policy_rpc m) ->
    exists source set policy est, ps_from_str source = Ok set /\ ps_policies set = [policy] /\
      pol_annotation policy "id" = Some (mf_id m) /\ pol_to_json policy = Ok est /\
      forall field rest, reads est ("custom" :: field :: rest)%string -> is_Some (custom_field context' field).
Proof.
  intros Hv%validate_policies_Ok Hplan. split.
  - pose proof Hplan as Hp. unfold plan_policy_rpc_v2 in Hp. destruct (_ <? _)%nat; [done|].
    apply plan_manifests in Hp as (_ & -> & _); [|simpl; lia]. rewrite app_nil_l.
    eapply sublist_NoDup; [apply (ap_call_ids _ _ Hv)|apply planned_sublist].
  - intros results context' m Hmat Hm Ha Hopt. destruct (ap_entries _ _ Hv) as (entries & compiled & engine & _ & Hall & _).
    apply list_elem_of_lookup in Hm as [i Hi]. destruct (Forall3_lookup_m _ _ _ _ _ _ Hall Hi) as (entry & c & _ & _ & He).
    destruct (ae_policy _ _ _ He) as (set & policy & est & Hset & Hpol & Hann & Hest & Hsafe). exists c.1, set, policy, est.
    do 4 (split; [done|]). intros field rest Hr. eapply (declared_present ms action_view context tx calls results context' m); try done.
    + by eapply list_elem_of_lookup_2.
    + by eapply safe_refs_reads.
Qed.

(** ** Trust *)
Section Trust.
Context {K : Crypto}.
(** Key ids are unique and non-empty, and a public key has one role. *)
Record trust_ok (keys : list TrustedKey) : Prop := {
  to_ids : NoDup (tk_key_id <$> keys);
  to_named : Forall (fun k => tk_key_id k <> ""%string) keys;
  to_roles : forall k k', k ∈ keys -> k' ∈ keys -> tk_public_key k = tk_public_key k' -> tk_role k = tk_role k';
}.
Lemma existsb_false {A} (f : A -> bool) l : existsb f l = false -> forall x, x ∈ l -> f x = false.
Proof. intros H x Hx. destruct (f x) eqn:Hf; [|done]. rewrite <- H. symmetry. apply existsb_exists. exists x. by rewrite <- list_elem_of_In. Qed.
Lemma add_key_ok keys entry keys' : trust_ok keys -> add_key keys entry = Ok keys' -> trust_ok keys'.
Proof.
  intros [H1 H2 H3]. unfold add_key. destruct (_ || _) eqn:Hid; [done|]. apply orb_false_iff in Hid as [Hne Hfresh].
  intros (der & _ & (pk & _ & H)%bind_Ok_inv)%bind_Ok_inv. revert H. case_match eqn:Hdup; [done|]. intros [= <-].
  pose proof (existsb_false _ _ Hfresh) as Hf. pose proof (existsb_false _ _ Hdup) as Hd. split.
  - rewrite fmap_app. apply NoDup_app. split; [done|]. split; [|apply NoDup_singleton]. intros x (k & -> & Hk)%list_elem_of_fmap Hx%list_elem_of_singleton.
    apply Hf in Hk. simpl in Hx. rewrite Hx, String.eqb_refl in Hk. done.
  - apply Forall_app. split; [done|]. constructor; [|done]. simpl. by apply String.eqb_neq.
  - assert (forall k, k ∈ keys -> tk_public_key k = pk -> tk_role k = vk_role entry) as Hone.
    { intros k Hk Hpk. apply Hd in Hk. apply andb_false_iff in Hk as [Hk|Hk]; to_prop; [done|congruence]. }
    intros k k' [Hk|Hk%list_elem_of_singleton]%elem_of_app [Hk'|Hk'%list_elem_of_singleton]%elem_of_app Heq; subst; simpl in *; auto.
    symmetry. auto.
Qed.
Lemma keys_for_role_ok config required keys : keys_for_role config required = Ok keys ->
  trust_ok keys /\ exists k, k ∈ keys /\ tk_role k = required.
Proof.
  unfold keys_for_role. intros (ks & Hk & H)%bind_Ok_inv. destruct (existsb _ ks) eqn:He; [|done]. injection H as <-. split.
  - eapply (foldM_inv trust_ok (fun _ => True)); [|by apply Forall_true| |exact Hk].
    + intros ks0 x ks1 Hi _. by apply add_key_ok.
    + split; [constructor|constructor|by intros k k' ?%elem_of_nil].
  - apply existsb_exists in He as (k & Hin & Hr). exists k. rewrite list_elem_of_In. by case_bool_decide.
Qed.
Lemma find_first_spec {A} (p : A -> bool) l : match find_first p l with
  | Some x => x ∈ l /\ p x = true
  | None => forall x, x ∈ l -> p x = false
  end.
Proof.
  induction l as [|x l IH]; simpl; [by intros x ?%elem_of_nil|]. destruct (p x) eqn:Hp; [by split; [left|]|].
  destruct (find_first p l); [destruct IH; split; [by right|done]|]. intros y [->|?]%elem_of_cons; auto.
Qed.

(** Signatures are checked against local, role-scoped keys. A configuration that is accepted
    has distinct named keys and never one public key in two roles; a message verifies for a
    role exactly when a configured key of that role verifies it, the reported signer is such a
    key, and a key of another role never counts. *)
Theorem role_scoped_verification config required keys role message signature_bytes :
  keys_for_role config required = Ok keys ->
  trust_ok keys /\ (exists k, k ∈ keys /\ tk_role k = required) /\
  let verifies k := exists s, signature_from_slice signature_bytes = Some s /\ verify (tk_public_key k) message s = true in
  match verify_bytes keys role message signature_bytes with
  | Ok id => exists k, k ∈ keys /\ tk_role k = role /\ tk_key_id k = id /\ verifies k
  | Err e => se_kind e = SeInvalidSignature /\ forall k, k ∈ keys -> tk_role k = role -> ~ verifies k
  | Panic => False
  end.
Proof.
  intros [Ht Hr]%keys_for_role_ok. split; [done|]. split; [done|]. cbv zeta. unfold verify_bytes.
  destruct (signature_from_slice signature_bytes) as [s|]; simpl; [|split; [done|]; by intros k _ _ (? & ? & _)].
  pose proof (find_first_spec (fun key => bool_decide (tk_role key = role) && verify (tk_public_key key) message s) keys) as Hf.
  destruct (find_first _ keys) as [k|].
  - destruct Hf as [Hin [Hrole Hver]%andb_true_iff]. to_prop. exists k. repeat (split; [done|]). by exists s.
  - split; [done|]. intros k Hk Hrole (s' & [= <-] & Hver). specialize (Hf k Hk). simpl in Hf. rewrite Hver, bool_decide_true in Hf by done. done.
Qed.
End Trust.

(** ** Acceptance of a bundle *)
Section Acceptance.
Context {K : Crypto} {C0 : Cedar} {T0 : PolicyTools C0} (ck : bool).
Definition max_age (config : PolicyValidationConfig) : Z := default DEFAULT_MAX_BUNDLE_AGE_SEC (pv_max_bundle_age_sec config).
Definition config_ok (config : PolicyValidationConfig) : Prop :=
  (pv_env config = "staging" \/ pv_env config = "production")%string /\ pv_profile config = "default"%string /\
  1 <= max_age config <= MAX_SAFE_INTEGER /\ pv_allowed_clock_skew_ms config <= MAX_SAFE_INTEGER.
(** The second a bundle stops being valid: its own expiry or the local maximum age. *)
Definition deadline (config : PolicyValidationConfig) (issued : Z) (expires : option Z) : Z :=
  match expires with Some x => Z.min x (issued + max_age config) | None => issued + max_age config end.
(** In the window of time a bundle may be used in. *)
Definition fresh (issued_ms until_ms skew now : Z) : Prop := now <= MAX_SAFE_INTEGER /\ issued_ms <= now + skew /\ now < until_ms.

Lemma u64_of_small {E} z : z <= U64_MAX -> u64_of (E := E) ck z = Ok z.
Proof. intros H. unfold u64_of. by rewrite (proj2 (Z.leb_le _ _) H). Qed.
Lemma check_time_spec issued until_ skew now : 0 <= now -> 0 <= skew <= MAX_SAFE_INTEGER ->
  decides (check_time ck issued until_ skew now) (fresh issued until_ skew now).
Proof.
  intros Hn Hs. unfold check_time, check_clock, fresh, ensure. destruct (Z.leb_spec now MAX_SAFE_INTEGER) as [Hc|Hc]; simpl.
  2:{ split; [|done]. split; [done|]. lia. }
  rewrite u64_of_small by (unfold MAX_SAFE_INTEGER, U64_MAX in *; lia). simpl.
  destruct (Z.ltb_spec (now + skew) issued) as [H1|H1]; [split; [|done]; split; [done|lia]|].
  destruct (Z.leb_spec until_ now) as [H2|H2]; (split; [|done]); split; try done; lia.
Qed.
Lemma wire_index payload fs k v : payload = VObject fs -> obj_get fs k = Some v -> value_index payload k = v.
Proof. intros -> H. unfold value_index. simpl. by rewrite H. Qed.
Lemma wire_integer payload fs k lo : payload = VObject fs -> 0 <= lo -> int_field fs k lo ->
  exists n, as_u64 (value_index payload k) = Some n /\ lo <= n <= MAX_SAFE_INTEGER.
Proof.
  intros -> Hlo (n & Hn & Hr). exists n. split; [|done]. rewrite (wire_index _ _ _ _ eq_refl Hn). apply as_u64_spec. split; [done|].
  unfold MAX_SAFE_INTEGER, U64_MAX in *. lia.
Qed.
Lemma wire_expires payload fs : payload = VObject fs -> obj_get fs "expires_at" = Some VNull \/ int_field fs "expires_at" 0 ->
  match as_u64 (value_index payload "expires_at") with Some x => 0 <= x <= MAX_SAFE_INTEGER | None => True end.
Proof.
  intros -> [H|H]; [by rewrite (wire_index _ _ _ _ eq_refl H)|]. by destruct (wire_integer _ fs "expires_at" 0 eq_refl ltac:(lia) H) as (n & -> & Hn).
Qed.
Lemma config_checks config :
  negb (String.eqb (pv_env config) "staging" || String.eqb (pv_env config) "production") || negb (String.eqb (pv_profile config) "default") = false ->
  negb ((1 <=? max_age config) && (max_age config <=? MAX_SAFE_INTEGER)) || (MAX_SAFE_INTEGER <? pv_allowed_clock_skew_ms config) = false ->
  config_ok config.
Proof.
  intros H1 H2. apply orb_false_iff in H1 as [H1%negb_false_iff H3%negb_false_iff], H2 as [H2%negb_false_iff H4%Z.ltb_ge].
  apply andb_true_iff in H2 as [?%Z.leb_le ?%Z.leb_le]. apply orb_true_iff in H1. rewrite !String.eqb_eq in *. by repeat split.
Qed.
Lemma config_checks_inv config : config_ok config ->
  negb (String.eqb (pv_env config) "staging" || String.eqb (pv_env config) "production") || negb (String.eqb (pv_profile config) "default") = false /\
  negb ((1 <=? max_age config) && (max_age config <=? MAX_SAFE_INTEGER)) || (MAX_SAFE_INTEGER <? pv_allowed_clock_skew_ms config) = false.
Proof.
  intros (H1 & H2 & H3 & H4). rewrite H2. split.
  - destruct H1 as [-> | ->]; done.
  - rewrite (proj2 (Z.leb_le _ _) (proj1 H3)), (proj2 (Z.leb_le _ _) (proj2 H3)), (proj2 (Z.ltb_ge _ _) H4). done.
Qed.

(** C18: An authenticated bundle is accepted exactly when the local configuration is sane, the
    bundle's scope is the configured one, it names no registry, its expiry follows its
    issuance, the clock is inside its window, and its policies are accepted; the accepted
    bundle carries the signed sequence and the window in milliseconds. The conversions to
    milliseconds never overflow, whether or not the build checks for it. *)
Theorem bundle_accepted_exact verified config now b :
  let payload := pb_payload (sv_parsed verified) in let skew := pv_allowed_clock_skew_ms config in
  wire_payload payload -> 0 <= now -> 0 <= skew ->
  validate_policy_bundle ck verified config now = Ok b <->
  exists issued sequence ms, let expires := as_u64 (value_index payload "expires_at") in
    config_ok config /\ as_str (value_index payload "env") = Some (pv_env config) /\
    as_str (value_index payload "profile") = Some (pv_profile config) /\ value_index payload "registry_ref" = VNull /\
    as_u64 (value_index payload "issued_at") = Some issued /\ as_u64 (value_index payload "sequence") = Some sequence /\
    (forall x, expires = Some x -> issued < x) /\ fresh (issued * 1000) (deadline config issued expires * 1000) skew now /\
    validate_policies payload = Ok ms /\
    b = mkValidatedPolicyBundle verified ms sequence (issued * 1000) (deadline config issued expires * 1000) skew.
Proof.
  intros payload skew (fs & policies & Hfs & Hcl & Hpol & Hne & Hall & Hseq & Hiss & Hexp & Henv & Hprof & Hreg) Hnow Hskew.
  destruct (wire_integer _ fs "issued_at" 0 Hfs ltac:(lia) Hiss) as (issued & HI & RI).
  destruct (wire_integer _ fs "sequence" 1 Hfs ltac:(lia) Hseq) as (sequence & HS & RS).
  pose proof (wire_expires _ fs Hfs Hexp) as RE. unfold validate_policy_bundle. fold (max_age config) payload skew.
  match goal with |- (if ?c then _ else _) = _ <-> _ => destruct c eqn:H1 end.
  { split; [done|]. intros (? & ? & ? & [Hc1 _]%config_checks_inv & _). congruence. }
  match goal with |- (if ?c then _ else _) = _ <-> _ => destruct c eqn:H2 end.
  { split; [done|]. intros (? & ? & ? & [_ Hc2]%config_checks_inv & _). unfold skew in H2. congruence. }
  pose proof (config_checks config H1 H2) as Hcfg. destruct Hcfg as (_ & _ & RA & RK). fold skew in RK.
  unfold check_clock at 1, ensure. destruct (Z.leb_spec now MAX_SAFE_INTEGER) as [Hc|Hc]; cbn [mbind result_bind].
  2:{ split; [done|]. intros (? & ? & ? & Hx). destruct Hx as (_ & _ & _ & _ & _ & _ & _ & [Hf _] & _). lia. }
  match goal with |- (if ?c then _ else _) = _ <-> _ => destruct c eqn:H3 end.
  { split; [done|]. intros (? & ? & ? & _ & He & Hp & _). apply orb_true_iff in H3 as [H3|H3]; apply negb_true_iff, bool_decide_eq_false in H3; done. }
  apply orb_false_iff in H3 as [He%negb_false_iff%bool_decide_eq_true Hp%negb_false_iff%bool_decide_eq_true].
  destruct (is_null (value_index payload "registry_ref")) eqn:Hr; cbn [negb].
  2:{ split; [done|]. intros (? & ? & ? & _ & _ & _ & Hn & _). by rewrite Hn in Hr. }
  assert (value_index payload "registry_ref" = VNull) as Hreg0 by by destruct (value_index payload "registry_ref"). rewrite HI, HS. cbn [or_panic mbind result_bind].
  match goal with |- (if ?c then _ else _) = _ <-> _ => destruct c eqn:H4 end.
  { split; [done|]. intros (i & ? & ? & _ & _ & _ & _ & [= <-] & _ & Hx & _). destruct (as_u64 (value_index payload "expires_at")) as [y|]; [|done].
    specialize (Hx y eq_refl). apply Z.leb_le in H4. lia. }
  set (expires := as_u64 (value_index payload "expires_at")) in *.
  rewrite (u64_of_small (issued + max_age config)) by (unfold MAX_SAFE_INTEGER, U64_MAX in *; lia). cbn [mbind result_bind].
  match goal with |- u64_of ck (?e * 1000) ≫= _ = _ <-> _ => change e with (deadline config issued expires) end.
  assert (deadline config issued expires <= issued + max_age config) as RD by (unfold deadline; destruct expires; lia).
  rewrite !u64_of_small by (unfold MAX_SAFE_INTEGER, U64_MAX in *; lia). cbn [mbind result_bind].
  destruct (check_time_spec (issued * 1000) (deadline config issued expires * 1000) skew now Hnow (conj Hskew RK)) as [Ht Hnp].
  destruct (check_time ck (issued * 1000) (deadline config issued expires * 1000) skew now) as [[]|e|]; [| |done]; cbn [mbind result_bind].
  2:{ split; [done|]. intros (i & ? & ? & _ & _ & _ & _ & [= <-] & _ & _ & Hf & _). by apply Ht in Hf. }
  destruct (validate_policies payload) as [ms|e|] eqn:Hv; cbn [mbind result_bind]; [|split; [done|]; by intros (? & ? & ? & _ & _ & _ & _ & _ & _ & _ & _ & ? & _)..].
  split.
  - intros [= <-]. exists issued, sequence, ms. split; [by apply config_checks|]. do 5 (split; [done|]). split; [|split; [by apply Ht|done]].
    intros x Hx. rewrite Hx in H4. apply Z.leb_gt in H4. lia.
  - intros (i & q & m & _ & _ & _ & _ & [= <-] & [= <-] & _ & _ & [= <-] & ->). done.
Qed.
End Acceptance.

(** ** Small instances for the witnesses
    A key is one byte, which a signature repeats. A policy is a line of text that is its own
    id and reads [context.custom.price] or, if it is not [acme], [context.custom.age]. *)
Module Mini.
#[global] Instance crypto : Crypto := {|
  PublicKey := Z; PublicKey_eq_dec := _; Signature := bytes;
  base64_decode s := Some (bytes_of_string s); from_public_key_der l := head l;
  signature_from_slice l := Some l; verify k _ s := bool_decide (head s = Some k) |}.
Fixpoint lines (s : string) : list string :=
  match s with
  | EmptyString => [""%string]
  | String c rest =>
      if Ascii.eqb c (Ascii.ascii_of_nat 10) then ""%string :: lines rest
      else match lines rest with [] => [String c ""] | p :: ps => String c p :: ps end
  end.
#[global] Instance cedar : Cedar := {|
  Policy := string; PolicySet := list string; Schema := (); EntityUid := (); Entities := (); Context_ := (); Request := ();
  pol_id p := p; pol_annotation p k := if String.eqb k "id" then Some p else None; pol_new_id i _ := i;
  ps_new := []; ps_add ps p := Ok (p :: ps); ps_policies ps := ps;
  ps_from_str s := Ok (List.filter (fun l => negb (String.eqb l "")) (lines s));
  schema_from_str _ := Ok (); validate _ _ := mkValidationResult true [];
  uid_parse _ := Ok (); entities_from_json _ _ := Ok (); context_from_json _ _ := Ok ();
  request_new _ _ _ _ _ := Ok (); is_authorized _ _ _ := mkResponse Allow [] [] |}.
Definition access (left : Value) (attr : string) : Value :=
  VObject [("." , VObject [("left", left); ("attr", VString attr)])]%string.
Definition field_of (id : string) : string := if String.eqb id "acme" then "price" else "age".
Definition est (id : string) : Value := access (access (VObject [("Var", VString "context")]) "custom") (field_of id).
#[global] Instance tools : PolicyTools cedar := {|
  ps_templates _ := []; pol_to_json p := Ok (est p);
  manifest_from_value v :=
    match as_str (value_index v "id") with
    | Some id => Ok (demo_manifest id "call" ("oracle." +:+ field_of id) (field_of id))
    | None => Err "missing id"%string
    end;
  compose_per_policy _ := Ok ""%string |}.
End Mini.
Definition demo_entry (id : string) : Value :=
  VObject [("id", VString id); ("policy", VString id);
           ("manifest", VObject [("id", VString id); ("schema_version", VNumber (IntNum 2))])]%string.
Definition demo_payload (sequence issued : Z) : Value :=
  VObject [("policies", VArray [demo_entry "acme"; demo_entry "acme::two"]); ("sequence", VNumber (IntNum sequence));
           ("issued_at", VNumber (IntNum issued)); ("expires_at", VNull); ("env", VString "staging");
           ("profile", VString "default"); ("registry_ref", VNull)]%string.
Definition demo_keys : list VerificationKey :=
  [mkVerificationKey "main" RolePolicy "A"; mkVerificationKey "decoder" RoleDecoder "B"]%string.
Definition demo_verified (payload : Value) : SignatureVerifiedPolicyBundle :=
  mkSignatureVerifiedPolicyBundle (mkParsedPolicyBundle [] payload [65] None) "main".
Definition demo_config : PolicyValidationConfig := mkPolicyValidationConfig "staging" "default" None 1000.

Lemma demo_payload_wire : wire_payload (demo_payload 7 1000).
Proof. apply validate_payload_decides. vm_compute. done. Qed.
Lemma bundle_accepted_exact_witness : exists b,
  validate_policy_bundle (T0 := Mini.tools) true (demo_verified (demo_payload 7 1000)) demo_config 2000000 = Ok b /\
  vb_sequence b = 7 /\ vb_valid_until_ms b = (1000 + 259200) * 1000.
Proof.
  destruct (validate_policy_bundle (T0 := Mini.tools) true (demo_verified (demo_payload 7 1000)) demo_config 2000000) as [b|e|] eqn:H;
    [|by vm_compute in H..]. exists b. split; [done|].
  apply (bundle_accepted_exact (T0 := Mini.tools) true (demo_verified (demo_payload 7 1000)) demo_config 2000000 b) in H;
    [|exact demo_payload_wire|vm_compute; congruence..].
  destruct H as (issued & sequence & ms & _ & _ & _ & _ & Hi & Hs & _ & _ & _ & ->). vm_compute in Hi, Hs. injection Hi as <-. injection Hs as <-. done.
Defined.
Definition demo_trusted : list (TrustedKey (K := Mini.crypto)) :=
  [mkTrustedKey (K := Mini.crypto) "main" RolePolicy 65; mkTrustedKey (K := Mini.crypto) "decoder" RoleDecoder 66]%string.
Lemma role_scoped_verification_witness :
  keys_for_role (K := Mini.crypto) demo_keys RolePolicy = Ok demo_trusted /\ trust_ok (K := Mini.crypto) demo_trusted /\
  verify_bytes (K := Mini.crypto) demo_trusted RoleDecoder [1; 2] [66] = Ok "decoder"%string /\
  exists k, k ∈ demo_trusted /\ tk_role k = RoleDecoder /\ tk_key_id k = "decoder"%string.
Proof.
  assert (keys_for_role (K := Mini.crypto) demo_keys RolePolicy = Ok demo_trusted) as Hk by (vm_compute; reflexivity).
  assert (verify_bytes (K := Mini.crypto) demo_trusted RoleDecoder [1; 2] [66] = Ok "decoder"%string) as He by (vm_compute; reflexivity).
  destruct (role_scoped_verification (K := Mini.crypto) demo_keys RolePolicy demo_trusted RoleDecoder [1; 2] [66] Hk) as (Ht & _ & Hv).
  cbv zeta in Hv. rewrite He in Hv. destruct Hv as (k & H1 & H2 & H3 & _). split; [exact Hk|]. split; [exact Ht|]. split; [exact He|].
  exists k. split; [exact H1|]. split; [exact H2|exact H3].
Defined.
Definition demo_facts : gmap string Value :=
  {["acme::call" := VObject [("value", VString "42")]; "acme::two::call" := VObject [("value", VString "43")]]}%string.
Lemma accepted_bundle_feeds_policies_witness : exists ms calls context',
  validate_policies (T0 := Mini.tools) (demo_payload 7 1000) = Ok ms /\ plan_policy_rpc_v2 ms demo_view (VObject []) demo_tx_view = Ok calls /\
  length calls = 2%nat /\ NoDup (pc_call_id <$> calls) /\ materialize_v2 (VObject []) calls demo_facts = Ok context' /\
  exists m source set policy est, m ∈ ms /\ ps_from_str (Cedar := Mini.cedar) source = Ok set /\ ps_policies (Cedar := Mini.cedar) set = [policy] /\
    pol_to_json (PolicyTools := Mini.tools) policy = Ok est /\
    forall field rest, reads est ("custom" :: field :: rest)%string -> is_Some (custom_field context' field).
Proof.
  destruct (validate_policies (T0 := Mini.tools) (demo_payload 7 1000)) as [ms|e|] eqn:Hv; [|by vm_compute in Hv..].
  pose proof Hv as Hms. vm_compute in Hms. injection Hms as Hms.
  destruct (plan_policy_rpc_v2 ms demo_view (VObject []) demo_tx_view) as [calls|e|] eqn:Hp; [|by rewrite <- Hms in Hp; vm_compute in Hp..].
  pose proof Hp as Hcalls. rewrite <- Hms in Hcalls. vm_compute in Hcalls. injection Hcalls as Hcalls.
  destruct (materialize_v2 (VObject []) calls demo_facts) as [context'|e|] eqn:Hm; [|by rewrite <- Hcalls in Hm; vm_compute in Hm..].
  destruct (accepted_bundle_feeds_policies (T0 := Mini.tools) (demo_payload 7 1000) ms demo_view (VObject []) demo_tx_view calls Hv Hp) as [Hn Hf].
  exists ms, calls, context'. split; [done|]. split; [done|]. split; [by rewrite <- Hcalls|]. split; [done|]. split; [done|].
  destruct ms as [|m ms]; [done|]. destruct (Hf demo_facts context' m Hm) as (source & set & policy & est & H1 & H2 & _ & H4 & H5).
  - left.
  - injection Hms as <- _. reflexivity.
  - injection Hms as <- _. repeat constructor.
  - exists m, source, set, policy, est. split; [left|]. split; [exact H1|]. split; [exact H2|]. split; [exact H4|exact H5].
Defined.
End BundleTrust.
