(* ===== verification/SnapshotStore.v ===== *)
(** * The snapshot store (dambi-core/src/snapshot: store.rs, mod.rs)

    One store owns a fixed decoder and a replaceable, signed policy bundle. A
    refresh is staged: [begin_refresh] issues a ticket, [prepare_refresh]
    authenticates a candidate without touching the store, [commit_refresh]
    activates it if it is still the latest attempt and does not roll the sequence
    back. The lifecycle a store shares with its snapshots, tickets and candidates
    is an identifier; the identifiers of disposed stores are the shared state. A
    world of stores with the capabilities they issued is a transition system. The
    decoder and its preparation are parameters, instantiated in [DecoderSnapshot]. *)
From stdpp Require Import base tactics numbers list strings gmap relations.
From S2P Require Import Prelude Types Bytes SyncLive PolicyEngine PolicyRpc BundleFormat BundleTrust.
Import SyncLive.

Module SnapshotStore.
Import PolicyEngine PolicyRpc BundleFormat BundleTrust.

(** ** Data *)
Record SignedPolicyInput := mkSignedPolicyInput { si_payload : bytes; si_signature : string; si_key_id : option string }.
Inductive DecoderInput :=
| Pinned (artifact : bytes) (expected_digest : string)
| SignedBundle (bundle : bytes) (signature : string) (key_id : option string) (expected_bundle_digest : string).
Inductive SnapshotErrorKind :=
| SkInvalidConfig | SkInvalidPolicyBundle | SkInvalidSignature | SkUnsupportedRegistryRef | SkPolicyScopeMismatch | SkPolicyExpired
| SkPolicySequenceRejected | SkInvalidDecoderSnapshot | SkDecoderIntegrityMismatch | SkLimitExceeded | SkDisposed | SkAborted.
Record SnapshotError := mkSnapshotError { sk_kind : SnapshotErrorKind; sk_message : string }.

(** [From<PolicyParseError>], [From<SignatureError>], [From<PolicySemanticError>] *)
Definition of_parse_error (e : PolicyParseError) : SnapshotError :=
  mkSnapshotError
    match pe_kind e with
    | PeInvalidConfig => SkInvalidConfig
    | InputTooLarge | DepthLimit => SkLimitExceeded
    | _ => SkInvalidPolicyBundle
    end (pe_path e +:+ ": " +:+ pe_message e)%string.
Definition of_signature_error (e : SignatureError) : SnapshotError :=
  mkSnapshotError
    match se_kind e with
    | SeInvalidConfig => SkInvalidConfig
    | SeInvalidSignature => SkInvalidSignature
    | SeInvalidDecoderSnapshot => SkInvalidDecoderSnapshot
    | SeLimitExceeded => SkLimitExceeded
    end (se_message e).
Definition of_semantic_error (e : PolicySemanticError) : SnapshotError :=
  mkSnapshotError
    match sm_kind e with
    | SemInvalidConfig => SkInvalidConfig
    | SemInvalidPolicyBundle => SkInvalidPolicyBundle
    | SemUnsupportedRegistryRef => SkUnsupportedRegistryRef
    | SemPolicyScopeMismatch => SkPolicyScopeMismatch
    | SemPolicyExpired => SkPolicyExpired
    | SemPolicySequenceRejected => SkPolicySequenceRejected
    | SemLimitExceeded => SkLimitExceeded
    end (sm_path e +:+ ": " +:+ sm_message e)%string.

(** Lifecycles are compared by identity, as [Arc::ptr_eq] does. *)
Definition LifecycleId := nat.
Definition disposed_error : SnapshotError := mkSnapshotError SkDisposed "snapshot Store has been disposed".
Definition aborted_error : SnapshotError :=
  mkSnapshotError SkAborted "refresh attempt is foreign, superseded, cancelled, or already finished".

Section Store.
Context {J : StrictJson} {K : Crypto} {C0 : Cedar} {T0 : PolicyTools C0} (ck : bool).
(** The prepared decoder and its preparation. *)
Context {VerifiedDecoderSnapshot : Type}.
Context (prepare_decoder : DecoderInput -> list TrustedKey -> Z -> result SnapshotError VerifiedDecoderSnapshot).

Record SnapshotStoreConfig := mkSnapshotStoreConfig {
  sc_keys : list VerificationKey; sc_policy : PolicyValidationConfig; sc_max_policy_bytes : Z; sc_max_decoder_bytes : Z }.
Record Snapshot := mkSnapshot { sn_policy : ValidatedPolicyBundle; sn_decoder : VerifiedDecoderSnapshot; sn_lifecycle : LifecycleId }.
Record RefreshTicket := mkRefreshTicket { rt_owner : LifecycleId; rt_generation : Z }.
Record PreparedRefresh := mkPreparedRefresh { pr_owner : LifecycleId; pr_generation : Z; pr_policy : ValidatedPolicyBundle }.
Record StoreState := mkStoreState {
  ss_keys : list TrustedKey; ss_policy_config : PolicyValidationConfig; ss_max_policy_bytes : Z; ss_active : Snapshot }.
Record SnapshotStore := mkSnapshotStore {
  st_lifecycle : LifecycleId; st_generation : Z; st_pending : option Z; st_state : option StoreState }.

(** ** Operations. [dead] is the set of lifecycles whose [disposed] flag is set. *)
Definition ensure_live (dead : gset LifecycleId) (l : LifecycleId) : result SnapshotError () :=
  if decide (l ∈ dead) then Err disposed_error else Ok ().
Definition ensure_usable (dead : gset LifecycleId) (s : Snapshot) (now_ms : Z) : result SnapshotError () :=
  _ ← ensure_live dead (sn_lifecycle s);
  map_err of_semantic_error (ensure_fresh ck (sn_policy s) now_ms).
Definition check_byte_limit (limit : Z) (name : string) : result SnapshotError () :=
  if (limit =? 0) || (MAX_SAFE_INTEGER <? limit)
  then Err (mkSnapshotError SkInvalidConfig (name +:+ " must be a positive JS-safe integer")%string) else Ok ().
Definition validate_input (keys : list TrustedKey) (config : PolicyValidationConfig) (max_policy_bytes : Z) (input : SignedPolicyInput)
    (now_ms : Z) : result SnapshotError ValidatedPolicyBundle :=
  parsed ← map_err of_parse_error (parse_policy_bundle (si_payload input) (si_signature input) (si_key_id input) max_policy_bytes);
  verified ← map_err of_signature_error (verify_policy_bundle keys parsed);
  map_err of_semantic_error (validate_policy_bundle ck verified config now_ms).
(** [fresh_id] is the identity of the new lifecycle. *)
Definition store_new (fresh_id : LifecycleId) (config : SnapshotStoreConfig) (decoder_input : DecoderInput) (initial : SignedPolicyInput)
    (now_ms : Z) : result SnapshotError SnapshotStore :=
  _ ← check_byte_limit (sc_max_policy_bytes config) "maxPolicyBytes";
  _ ← check_byte_limit (sc_max_decoder_bytes config) "maxDecoderBytes";
  keys ← map_err of_signature_error (keys_new (sc_keys config));
  decoder ← prepare_decoder decoder_input keys (sc_max_decoder_bytes config);
  policy ← validate_input keys (sc_policy config) (sc_max_policy_bytes config) initial now_ms;
  Ok (mkSnapshotStore fresh_id 0 None
        (Some (mkStoreState keys (sc_policy config) (sc_max_policy_bytes config) (mkSnapshot policy decoder fresh_id)))).
Definition live_state (dead : gset LifecycleId) (st : SnapshotStore) : result SnapshotError StoreState :=
  _ ← ensure_live dead (st_lifecycle st);
  ok_or disposed_error (st_state st).
Definition current (dead : gset LifecycleId) (st : SnapshotStore) (now_ms : Z) : result SnapshotError Snapshot :=
  state ← live_state dead st;
  _ ← ensure_usable dead (ss_active state) now_ms;
  Ok (ss_active state).
Definition check_attempt (dead : gset LifecycleId) (st : SnapshotStore) (owner : LifecycleId) (generation : Z) : result SnapshotError () :=
  _ ← live_state dead st;
  if negb (owner =? st_lifecycle st)%nat || negb (bool_decide (st_pending st = Some generation)) then Err aborted_error else Ok ().
Definition begin_refresh (dead : gset LifecycleId) (st : SnapshotStore) : SnapshotStore * result SnapshotError RefreshTicket :=
  match live_state dead st with
  | Ok _ =>
      if U64_MAX <? st_generation st + 1 then (st, Err (mkSnapshotError SkInvalidConfig "refresh generation exhausted"))
      else
        let generation := st_generation st + 1 in
        (mkSnapshotStore (st_lifecycle st) generation (Some generation) (st_state st), Ok (mkRefreshTicket (st_lifecycle st) generation))
  | Err e => (st, Err e)
  | Panic => (st, Panic)
  end.
Definition prepare_refresh (dead : gset LifecycleId) (st : SnapshotStore) (ticket : RefreshTicket) (policy : SignedPolicyInput) (now_ms : Z)
    : result SnapshotError PreparedRefresh :=
  _ ← check_attempt dead st (rt_owner ticket) (rt_generation ticket);
  state ← live_state dead st;
  policy ← validate_input (ss_keys state) (ss_policy_config state) (ss_max_policy_bytes state) policy now_ms;
  Ok (mkPreparedRefresh (st_lifecycle st) (rt_generation ticket) policy).
Definition commit_refresh (dead : gset LifecycleId) (st : SnapshotStore) (prepared : PreparedRefresh) (now_ms : Z)
    : SnapshotStore * result SnapshotError PolicyUpdate :=
  match check_attempt dead st (pr_owner prepared) (pr_generation prepared) with
  | Ok _ =>
      let finished := mkSnapshotStore (st_lifecycle st) (st_generation st) None (st_state st) in
      match st_state st with
      | Some state =>
          match check_update ck (pr_policy prepared) (Some (sn_policy (ss_active state))) now_ms with
          | Ok Replace =>
              (mkSnapshotStore (st_lifecycle st) (st_generation st) None
                 (Some (mkStoreState (ss_keys state) (ss_policy_config state) (ss_max_policy_bytes state)
                    (mkSnapshot (pr_policy prepared) (sn_decoder (ss_active state)) (st_lifecycle st)))), Ok Replace)
          | Ok Unchanged => (finished, Ok Unchanged)
          | Err e => (finished, Err (of_semantic_error e))
          | Panic => (finished, Panic)
          end
      | None => (finished, Panic)
      end
  | Err e => (st, Err e)
  | Panic => (st, Panic)
  end.
Definition cancel_refresh (dead : gset LifecycleId) (st : SnapshotStore) (ticket : RefreshTicket) : SnapshotStore * result SnapshotError () :=
  match check_attempt dead st (rt_owner ticket) (rt_generation ticket) with
  | Ok _ => (mkSnapshotStore (st_lifecycle st) (st_generation st) None (st_state st), Ok ())
  | r => (st, r)
  end.
Definition dispose (dead : gset LifecycleId) (st : SnapshotStore) : gset LifecycleId * SnapshotStore :=
  ({[st_lifecycle st]} ∪ dead, mkSnapshotStore (st_lifecycle st) (st_generation st) None None).

(** ** A world of stores
    Stores are kept under their lifecycle; [w_tickets] and [w_prepared] are the capabilities
    the callers hold. A call may present any capability to any store, at any clock value. *)
Record World := mkWorld {
  w_dead : gset LifecycleId; w_stores : gmap LifecycleId SnapshotStore; w_tickets : list RefreshTicket; w_prepared : list PreparedRefresh }.
Definition initial_world : World := mkWorld ∅ ∅ [] [].
Inductive step : World -> World -> Prop :=
| step_new w id config decoder_input input now st :
    w_stores w !! id = None -> id ∉ w_dead w -> store_new id config decoder_input input now = Ok st ->
    step w (mkWorld (w_dead w) (<[id := st]> (w_stores w)) (w_tickets w) (w_prepared w))
| step_begin w id st st' ticket :
    w_stores w !! id = Some st -> begin_refresh (w_dead w) st = (st', Ok ticket) ->
    step w (mkWorld (w_dead w) (<[id := st']> (w_stores w)) (ticket :: w_tickets w) (w_prepared w))
| step_prepare w id st ticket input now prepared :
    w_stores w !! id = Some st -> ticket ∈ w_tickets w -> prepare_refresh (w_dead w) st ticket input now = Ok prepared ->
    step w (mkWorld (w_dead w) (w_stores w) (w_tickets w) (prepared :: w_prepared w))
| step_commit w id st st' pre prepared post now r :
    w_stores w !! id = Some st -> w_prepared w = pre ++ prepared :: post -> commit_refresh (w_dead w) st prepared now = (st', r) ->
    step w (mkWorld (w_dead w) (<[id := st']> (w_stores w)) (w_tickets w) (pre ++ post))
| step_cancel w id st st' ticket r :
    w_stores w !! id = Some st -> ticket ∈ w_tickets w -> cancel_refresh (w_dead w) st ticket = (st', r) ->
    step w (mkWorld (w_dead w) (<[id := st']> (w_stores w)) (w_tickets w) (w_prepared w))
| step_dispose w id st dead' st' :
    w_stores w !! id = Some st -> dispose (w_dead w) st = (dead', st') ->
    step w (mkWorld dead' (<[id := st']> (w_stores w)) (w_tickets w) (w_prepared w)).
Definition reachable (w : World) : Prop := rtc step initial_world w.

(** ** Authentic bundles *)
(** The bundle came through the store's own checks: from some input, at some time. *)
Definition authentic (keys : list TrustedKey) (config : PolicyValidationConfig) (max : Z) (b : ValidatedPolicyBundle) : Prop :=
  exists input now, validate_input keys config max input now = Ok b.
(** What those checks are worth. *)
Record genuine (keys : list TrustedKey) (config : PolicyValidationConfig) (max : Z) (b : ValidatedPolicyBundle) : Prop := {
  ge_signed : exists k s, k ∈ keys /\ tk_role k = RolePolicy /\ tk_key_id k = sv_signer_key_id (vb_verified b) /\
    signature_from_slice (pb_signature (sv_parsed (vb_verified b))) = Some s /\ verify (tk_public_key k) (vb_payload_bytes b) s = true;
  ge_size : Z.of_nat (length (vb_payload_bytes b)) <= max;
  ge_wire : wire_payload (vb_payload b);
  ge_env : as_str (value_index (vb_payload b) "env") = Some (pv_env config);
  ge_profile : as_str (value_index (vb_payload b) "profile") = Some (pv_profile config);
  ge_policies : validate_policies (vb_payload b) = Ok (vb_manifests b);
  ge_skew : vb_allowed_clock_skew_ms b <= MAX_SAFE_INTEGER;
}.
Lemma parse_Ok payload signature key_id max p : parse_policy_bundle payload signature key_id max = Ok p ->
  Z.of_nat (length (pb_payload_bytes p)) <= max /\ wire_payload (pb_payload p).
Proof.
  unfold parse_policy_bundle. intros (? & _ & H)%bind_Ok_inv. destruct (Z.ltb_spec max (Z.of_nat (length payload))) as [|Hl]; [done|].
  apply bind_Ok_inv in H as (text & _ & (value & _ & ([] & Hv & (sig & _ & [= <-])%bind_Ok_inv)%bind_Ok_inv)%bind_Ok_inv). cbn [pb_payload pb_payload_bytes].
  split; [done|]. by apply validate_payload_decides.
Qed.
Lemma validate_bundle_Ok verified config now b : validate_policy_bundle ck verified config now = Ok b ->
  let payload := pb_payload (sv_parsed verified) in
  vb_verified b = verified /\ as_str (value_index payload "env") = Some (pv_env config) /\
  as_str (value_index payload "profile") = Some (pv_profile config) /\ validate_policies payload = Ok (vb_manifests b) /\
  vb_allowed_clock_skew_ms b <= MAX_SAFE_INTEGER.
Proof.
  unfold validate_policy_bundle. intros H. case_match; [done|]. case_match eqn:Hk; [done|]. apply orb_false_iff in Hk as [_ Hk%Z.ltb_ge]. apply bind_Ok_inv in H as (? & _ & H). cbv zeta in H.
  case_match eqn:Hs; [done|]. apply orb_false_iff in Hs as [He%negb_false_iff%bool_decide_eq_true Hp%negb_false_iff%bool_decide_eq_true].
  case_match; [done|]. apply bind_Ok_inv in H as (i & _ & H). case_match; [done|]. apply bind_Ok_inv in H as (? & _ & H). apply bind_Ok_inv in H as (? & _ & H).
  apply bind_Ok_inv in H as (? & _ & H). apply bind_Ok_inv in H as (? & _ & H). apply bind_Ok_inv in H as (? & _ & H). apply bind_Ok_inv in H as (ms & Hms & [= <-]). done.
Qed.
Lemma authentic_genuine keys config max b : authentic keys config max b -> genuine keys config max b.
Proof.
  intros (input & now & (parsed & Hp%map_err_Ok%parse_Ok & (verified & Hv%map_err_Ok & Hb%map_err_Ok)%bind_Ok_inv)%bind_Ok_inv).
  unfold verify_policy_bundle in Hv. apply bind_Ok_inv in Hv as (signer & Hs & [= <-]). apply validate_bundle_Ok in Hb as (Hbv & He & Hpr & Hms & Hk).
  cbn [sv_parsed] in *. destruct Hp as [Hsize Hwire]. split; unfold vb_payload, vb_payload_bytes; rewrite ?Hbv; cbn [sv_parsed sv_signer_key_id]; try done.
  unfold verify_bytes in Hs. apply bind_Ok_inv in Hs as (s & Hs1 & Hs2). destruct (signature_from_slice _) as [s'|] eqn:Hsig; [|done]. injection Hs1 as ->.
  pose proof (find_first_spec (fun key => bool_decide (tk_role key = RolePolicy) && verify (tk_public_key key) (pb_payload_bytes parsed) s) keys) as Hf.
  destruct (find_first _ keys) as [k|]; [|done]. injection Hs2 as <-. destruct Hf as [Hin [Hr Hver]%andb_true_iff]. to_prop. by exists k, s.
Qed.
Lemma genuine_env {E} keys config max b : genuine keys config max b -> vb_env (E := E) b = Ok (pv_env config) /\ vb_profile (E := E) b = Ok (pv_profile config).
Proof. intros H. unfold vb_env, vb_profile. by rewrite (ge_env _ _ _ _ H), (ge_profile _ _ _ _ H). Qed.

Lemma ensure_fresh_total b now : vb_allowed_clock_skew_ms b <= MAX_SAFE_INTEGER -> ensure_fresh ck b now <> Panic.
Proof.
  intros Hk. unfold ensure_fresh, check_time, check_clock, ensure. destruct (Z.leb_spec now MAX_SAFE_INTEGER); [|done]. cbn [mbind result_bind].
  rewrite u64_of_small by (unfold MAX_SAFE_INTEGER, U64_MAX in *; lia). cbn [mbind result_bind]. by repeat case_match.
Qed.
(** For two bundles of one store an update replaces exactly on a greater sequence. *)
Lemma check_update_spec keys config max b prev now :
  genuine keys config max b -> genuine keys config max prev ->
  match check_update ck b (Some prev) now with
  | Ok Replace => ensure_fresh ck b now = Ok () /\ vb_sequence prev < vb_sequence b
  | Ok Unchanged => ensure_fresh ck b now = Ok () /\ vb_sequence b = vb_sequence prev /\ vb_payload_bytes b = vb_payload_bytes prev
  | Err e => ensure_fresh ck b now = Err e \/ (sm_kind e = SemPolicySequenceRejected /\ vb_sequence b <= vb_sequence prev)
  | Panic => False
  end.
Proof.
  intros Hb Hp. pose proof (ensure_fresh_total b now (ge_skew _ _ _ _ Hb)) as Hn. destruct (genuine_env (E := PolicySemanticError) _ _ _ _ Hb) as [Hb1 Hb2], (genuine_env (E := PolicySemanticError) _ _ _ _ Hp) as [Hp1 Hp2]. unfold check_update. destruct (ensure_fresh ck b now) as [[]|e|]; cbn [mbind result_bind]; [|by left|done].
  rewrite Hb1, Hp1. cbn [mbind result_bind]. rewrite String.eqb_refl. cbn [negb]. rewrite Hb2, Hp2. cbn [mbind result_bind]. rewrite String.eqb_refl. cbn [negb].
  destruct (Z.ltb_spec (vb_sequence prev) (vb_sequence b)) as [Hlt|Hge]; [done|].
  destruct (Z.eqb_spec (vb_sequence b) (vb_sequence prev)) as [Heq|Hne]; [|by right]. case_bool_decide as Hbytes; [done|by right].
Qed.

(** ** The invariant of the world *)
Record store_inv (dead : gset LifecycleId) (id : LifecycleId) (st : SnapshotStore) : Prop := {
  so_id : st_lifecycle st = id;
  so_generation : 0 <= st_generation st;
  so_pending : forall g, st_pending st = Some g -> g = st_generation st;
  so_dead : st_state st = None <-> id ∈ dead;
  so_active : forall s, st_state st = Some s -> sn_lifecycle (ss_active s) = id /\
    authentic (ss_keys s) (ss_policy_config s) (ss_max_policy_bytes s) (sn_policy (ss_active s));
}.
(** A capability belongs to a store of the world and to one of its attempts. *)
Definition issued_by (w : World) (owner : LifecycleId) (generation : Z) : Prop :=
  exists st, w_stores w !! owner = Some st /\ generation <= st_generation st.
Record world_inv (w : World) : Prop := {
  wi_stores : forall id st, w_stores w !! id = Some st -> store_inv (w_dead w) id st;
  wi_dead : forall id, id ∈ w_dead w -> is_Some (w_stores w !! id);
  wi_tickets : forall t, t ∈ w_tickets w -> issued_by w (rt_owner t) (rt_generation t);
  wi_prepared : forall p, p ∈ w_prepared w -> issued_by w (pr_owner p) (pr_generation p) /\
    forall st s, w_stores w !! pr_owner p = Some st -> st_state st = Some s ->
      authentic (ss_keys s) (ss_policy_config s) (ss_max_policy_bytes s) (pr_policy p);
}.

(** How one call may change a store: its identity and configuration stay, its generation and
    its active sequence never go back. *)
Record store_grows (st st' : SnapshotStore) : Prop := {
  gr_id : st_lifecycle st' = st_lifecycle st;
  gr_generation : st_generation st <= st_generation st';
  gr_state : forall s', st_state st' = Some s' -> exists s, st_state st = Some s /\
    ss_keys s' = ss_keys s /\ ss_policy_config s' = ss_policy_config s /\ ss_max_policy_bytes s' = ss_max_policy_bytes s /\
    sn_decoder (ss_active s') = sn_decoder (ss_active s) /\
    (ss_active s' = ss_active s \/ vb_sequence (sn_policy (ss_active s)) < vb_sequence (sn_policy (ss_active s')));
}.
Lemma store_grows_refl st : store_grows st st.
Proof. split; [done|lia|]. intros s' Hs. exists s'. do 5 (split; [done|]). by left. Qed.
Lemma store_grows_trans a b c : store_grows a b -> store_grows b c -> store_grows a c.
Proof.
  intros [H1 H2 H3] [G1 G2 G3]. split; [congruence|lia|]. intros s' Hs'. destruct (G3 s' Hs') as (s1 & Hs1 & ? & ? & ? & ? & Ho1).
  destruct (H3 s1 Hs1) as (s & Hs & ? & ? & ? & ? & Ho2). exists s. split; [done|]. do 4 (split; [congruence|]).
  destruct Ho1 as [Ho1|Ho1]; [rewrite Ho1; exact Ho2|]. destruct Ho2 as [Ho2|Ho2]; right; [by rewrite <- Ho2|lia].
Qed.
Lemma check_attempt_Ok dead st owner g : check_attempt dead st owner g = Ok () ->
  st_lifecycle st ∉ dead /\ is_Some (st_state st) /\ owner = st_lifecycle st /\ st_pending st = Some g.
Proof.
  unfold check_attempt, live_state, ensure_live. destruct (decide _) as [|Hl]; [done|]. cbn [mbind result_bind].
  destruct (st_state st) as [s|]; [|done]. cbn [ok_or mbind result_bind]. destruct (_ || _) eqn:Hc; [done|]. intros _.
  apply orb_false_iff in Hc as [H1%negb_false_iff%Nat.eqb_eq H2%negb_false_iff%bool_decide_eq_true]. by split; [|split; [eexists|]].
Qed.
Lemma check_attempt_Err dead st owner g : check_attempt dead st owner g <> Ok () ->
  check_attempt dead st owner g = Err disposed_error \/ check_attempt dead st owner g = Err aborted_error.
Proof.
  unfold check_attempt, live_state, ensure_live. destruct (decide _) as [|Hl]; [by left|]. cbn [mbind result_bind].
  destruct (st_state st) as [s|]; [|by left]. cbn [ok_or mbind result_bind]. destruct (_ || _); [by right|done].
Qed.

(** ** Each call respects the invariant *)
(** The effect of a commit: it is refused and changes nothing, or it finishes the latest
    attempt, activating the candidate exactly when that does not roll back. *)
Lemma commit_cases dead id st p now st' r :
  store_inv dead id st ->
  (forall s, st_state st = Some s -> authentic (ss_keys s) (ss_policy_config s) (ss_max_policy_bytes s) (pr_policy p)) ->
  commit_refresh dead st p now = (st', r) ->
  (st' = st /\ (r = Err disposed_error \/ r = Err aborted_error)) \/
  exists s, st_state st = Some s /\ id ∉ dead /\ pr_owner p = id /\ pr_generation p = st_generation st /\
    st_pending st = Some (st_generation st) /\ st_lifecycle st' = id /\ st_generation st' = st_generation st /\ st_pending st' = None /\
    let before := sn_policy (ss_active s) in
    match r with
    | Ok Replace => ensure_fresh ck (pr_policy p) now = Ok () /\ vb_sequence before < vb_sequence (pr_policy p) /\
        st_state st' = Some (mkStoreState (ss_keys s) (ss_policy_config s) (ss_max_policy_bytes s)
                               (mkSnapshot (pr_policy p) (sn_decoder (ss_active s)) id))
    | Ok Unchanged => ensure_fresh ck (pr_policy p) now = Ok () /\ vb_sequence (pr_policy p) = vb_sequence before /\
        vb_payload_bytes (pr_policy p) = vb_payload_bytes before /\ st_state st' = st_state st
    | Err e => st_state st' = st_state st
    | Panic => False
    end.
Proof.
  intros [Hid Hgen Hpend Hdead Hact] Hauth. unfold commit_refresh. destruct (check_attempt dead st (pr_owner p) (pr_generation p)) as [[]|e|] eqn:Hc.
  - apply check_attempt_Ok in Hc as (Hl & [s Hs] & Ho & Hp). rewrite Hs. pose proof (Hpend _ Hp) as Hg.
    destruct (Hact s Hs) as [Hlc Ha]. pose proof (check_update_spec _ _ _ _ _ now (authentic_genuine _ _ _ _ (Hauth s Hs)) (authentic_genuine _ _ _ _ Ha)) as Hu.
    intros H. right. exists s. do 5 (split; [congruence|]).
    destruct (check_update ck (pr_policy p) (Some (sn_policy (ss_active s))) now) as [[]|e|]; injection H as <- <-; cbn [st_lifecycle st_generation st_pending st_state];
      do 3 (split; [done|]); cbv zeta; [|naive_solver|done..]. destruct Hu as [? ?]. split; [done|]. split; [done|]. by rewrite Hid.
  - intros [= <- <-]. left. split; [done|]. destruct (check_attempt_Err dead st (pr_owner p) (pr_generation p)) as [H|H]; rewrite Hc in *; try done; [left|right]; congruence.
  - destruct (check_attempt_Err dead st (pr_owner p) (pr_generation p)) as [H|H]; rewrite Hc in *; done.
Qed.
Lemma commit_grows dead id st p now st' r :
  store_inv dead id st ->
  (forall s, st_state st = Some s -> authentic (ss_keys s) (ss_policy_config s) (ss_max_policy_bytes s) (pr_policy p)) ->
  commit_refresh dead st p now = (st', r) -> store_inv dead id st' /\ store_grows st st'.
Proof.
  intros Hi Ha H. destruct (commit_cases dead id st p now st' r Hi Ha H) as [[-> _]|(s & Hs & Hd & Ho & Hg & Hp & H1 & H2 & H3 & Hr)]; [split; [done|apply store_grows_refl]|].
  destruct Hi as [Hid Hgen Hpend Hdead Hact].
  assert (st_state st' = st_state st \/ vb_sequence (sn_policy (ss_active s)) < vb_sequence (pr_policy p) /\
    st_state st' = Some (mkStoreState (ss_keys s) (ss_policy_config s) (ss_max_policy_bytes s) (mkSnapshot (pr_policy p) (sn_decoder (ss_active s)) id))) as Hst
    by (cbv zeta in Hr; destruct r as [[]|e|]; [right|left|left|done]; naive_solver).
  split.
  - split; [done|lia|intros g; by rewrite H3| |].
    + destruct Hst as [-> |[_ ->]]; [done|]. split; [done|]. done.
    + intros s' Hs'. destruct Hst as [He|[_ He]]; rewrite He in Hs'; [by apply Hact|]. injection Hs' as <-. cbn. split; [done|]. by apply Ha.
  - split; [congruence|lia|]. intros s' Hs'. destruct Hst as [He|[Hlt He]]; rewrite He in Hs'.
    + exists s'. split; [done|]. do 4 (split; [done|]). by left.
    + injection Hs' as <-. exists s. split; [done|]. do 4 (split; [done|]). by right.
Qed.
Lemma finish_attempt dead id st : store_inv dead id st ->
  let st' := mkSnapshotStore (st_lifecycle st) (st_generation st) None (st_state st) in store_inv dead id st' /\ store_grows st st'.
Proof.
  intros [Hid Hgen Hpend Hdead Hact]. split; [by split|]. split; cbn; [done|lia|]. intros s' Hs'. exists s'. split; [done|]. do 4 (split; [done|]). by left.
Qed.
Lemma begin_grows dead id st st' t : store_inv dead id st -> begin_refresh dead st = (st', Ok t) ->
  store_inv dead id st' /\ store_grows st st' /\ rt_owner t = id /\ rt_generation t = st_generation st'.
Proof.
  intros [Hid Hgen Hpend Hdead Hact]. unfold begin_refresh. destruct (live_state dead st) as [s|e|]; [|done..]. destruct (U64_MAX <? _); [done|].
  intros [= <- <-]. cbn. split; [|split; [|done]].
  - split; cbn; [done|lia|by intros g [= <-]|done|done].
  - split; cbn; [done|lia|]. intros s' Hs'. exists s'. split; [done|]. do 4 (split; [done|]). by left.
Qed.
Lemma cancel_grows dead id st t st' r : store_inv dead id st -> cancel_refresh dead st t = (st', r) -> store_inv dead id st' /\ store_grows st st'.
Proof.
  intros Hi. unfold cancel_refresh. destruct (check_attempt _ _ _ _); intros [= <- <-]; [by apply finish_attempt|split; [done|apply store_grows_refl]..].
Qed.
Lemma dispose_grows dead id st dead' st' : store_inv dead id st -> dispose dead st = (dead', st') ->
  dead' = {[id]} ∪ dead /\ store_inv dead' id st' /\ store_grows st st'.
Proof.
  intros [Hid Hgen Hpend Hdead Hact] [= <- <-]. rewrite Hid. split; [done|]. split; [|by split; cbn; [by rewrite Hid|lia|]].
  split; cbn; try done. split; [|done]. intros _. set_solver.
Qed.
Lemma new_inv dead id config di input now st : id ∉ dead -> store_new id config di input now = Ok st ->
  store_inv dead id st.
Proof.
  intros Hd H. unfold store_new in H. apply bind_Ok_inv in H as (? & _ & H). apply bind_Ok_inv in H as (? & _ & H). apply bind_Ok_inv in H as (keys & _ & H).
  apply bind_Ok_inv in H as (dec & _ & H). apply bind_Ok_inv in H as (policy & Hp & [= <-]). split; cbn; try done.
  intros s [= <-]. cbn. split; [done|]. by exists input, now.
Qed.
Lemma prepare_Ok dead id st t input now p : store_inv dead id st -> prepare_refresh dead st t input now = Ok p ->
  pr_owner p = id /\ pr_generation p = rt_generation t /\ rt_owner t = id /\ rt_generation t = st_generation st /\
  exists s, st_state st = Some s /\ authentic (ss_keys s) (ss_policy_config s) (ss_max_policy_bytes s) (pr_policy p).
Proof.
  intros [Hid Hgen Hpend Hdead Hact] H. unfold prepare_refresh in H. apply bind_Ok_inv in H as ([] & (Hl & [s Hs] & Ho & Hp)%check_attempt_Ok & H).
  apply bind_Ok_inv in H as (s' & Hs' & H). unfold live_state in Hs'. apply bind_Ok_inv in Hs' as (? & _ & Hs'). rewrite Hs in Hs'. injection Hs' as <-.
  apply bind_Ok_inv in H as (policy & Hv & [= <-]). cbn. split; [done|]. split; [done|]. split; [congruence|]. split; [by apply Hpend|].
  exists s. split; [done|]. by exists input, now.
Qed.

(** ** The world *)
Lemma authentic_grows st st' s' b : store_grows st st' -> st_state st' = Some s' ->
  (forall s, st_state st = Some s -> authentic (ss_keys s) (ss_policy_config s) (ss_max_policy_bytes s) b) ->
  authentic (ss_keys s') (ss_policy_config s') (ss_max_policy_bytes s') b.
Proof. intros Hg Hs' Ha. destruct (gr_state _ _ Hg s' Hs') as (s & Hs & -> & -> & -> & _). by apply Ha. Qed.
(** Replacing one store by what a call made of it, with fewer or the same capabilities out. *)
Lemma inv_update w id st st' dead' prepared' :
  world_inv w -> w_stores w !! id = Some st -> store_grows st st' -> store_inv dead' id st' ->
  w_dead w ⊆ dead' -> dead' ⊆ {[id]} ∪ w_dead w -> (forall p, p ∈ prepared' -> p ∈ w_prepared w) ->
  world_inv (mkWorld dead' (<[id := st']> (w_stores w)) (w_tickets w) prepared').
Proof.
  intros [W1 W2 W3 W4] Hst Hg Hi Hsub Hsup Hpre.
  assert (forall owner g, issued_by w owner g -> issued_by (mkWorld dead' (<[id := st']> (w_stores w)) (w_tickets w) prepared') owner g) as Hiss.
  { intros owner g (st0 & H0 & Hle). unfold issued_by. cbn. destruct (decide (owner = id)) as [->|Hne].
    - exists st'. rewrite lookup_insert_eq. split; [done|]. assert (st0 = st) as -> by congruence. pose proof (gr_generation _ _ Hg). lia.
    - exists st0. by rewrite lookup_insert_ne. }
  split; cbn.
  - intros id0 st0. destruct (decide (id0 = id)) as [->|Hne]; [rewrite lookup_insert_eq; by intros [= <-]|]. rewrite lookup_insert_ne by done. intros H0.
    destruct (W1 id0 st0 H0) as [A1 A2 A3 A4 A5]. split; try done. rewrite A4. set_solver.
  - intros id0 Hin. destruct (decide (id0 = id)) as [->|Hne]; [rewrite lookup_insert_eq; by eexists|]. rewrite lookup_insert_ne by done. apply W2. set_solver.
  - intros t Ht. by apply Hiss, W3.
  - intros p Hp%Hpre. destruct (W4 p Hp) as [Hi1 Ha]. split; [by apply Hiss|]. intros st0 s. destruct (decide (pr_owner p = id)) as [He|Hne].
    + rewrite He, lookup_insert_eq. intros [= <-] Hs. eapply authentic_grows; [done..|]. intros s0 Hs0. apply (Ha st s0); [by rewrite He|done].
    + rewrite lookup_insert_ne by done. apply Ha.
Qed.
Lemma inv_initial : world_inv initial_world.
Proof. split; cbn; [done|set_solver|set_solver|set_solver]. Qed.
(** A commit of any candidate of the world at any of its stores. *)
Lemma commit_world w id st p now st' r : world_inv w -> w_stores w !! id = Some st -> p ∈ w_prepared w ->
  commit_refresh (w_dead w) st p now = (st', r) -> store_inv (w_dead w) id st' /\ store_grows st st'.
Proof.
  intros Hw Hst Hin Hc. pose proof (wi_stores _ Hw _ _ Hst) as Hinv. destruct (wi_prepared _ Hw p Hin) as [_ Ha].
  destruct (decide (pr_owner p = id)) as [He|Hne].
  - eapply commit_grows; [done| |exact Hc]. intros s Hs. apply (Ha st s); [by rewrite He|done].
  - unfold commit_refresh in Hc. destruct (check_attempt _ _ _ _) as [[]|e|] eqn:Hatt; [|injection Hc as <- _; split; [done|apply store_grows_refl]..].
    apply check_attempt_Ok in Hatt as (_ & _ & Ho & _). rewrite (so_id _ _ _ Hinv) in Ho. done.
Qed.
Lemma step_inv w w' : world_inv w -> step w w' -> world_inv w'.
Proof.
  intros Hw Hs. destruct Hs as [w id config di input now st Hn Hd Hnew|w id st st' t Hst Hb|w id st t input now p Hst Ht Hp|w id st st' pre p post now r Hst Hpre Hc|w id st st' t r Hst Ht Hc|w id st dead' st' Hst Hc].
  - destruct Hw as [W1 W2 W3 W4].
    assert (forall owner g, issued_by w owner g -> issued_by (mkWorld (w_dead w) (<[id:=st]> (w_stores w)) (w_tickets w) (w_prepared w)) owner g) as Hiss.
    { intros owner g (st0 & H0 & Hle). exists st0. cbn. rewrite lookup_insert_ne; [done|]. congruence. }
    split; cbn.
    + intros id0 st0. destruct (decide (id0 = id)) as [->|Hne]; [rewrite lookup_insert_eq; intros [= <-]; by eapply new_inv|]. rewrite lookup_insert_ne by done. apply W1.
    + intros id0 Hin. destruct (decide (id0 = id)) as [->|Hne]; [done|]. rewrite lookup_insert_ne by done. by apply W2.
    + intros t Ht. by apply Hiss, W3.
    + intros p Hp. destruct (W4 p Hp) as [Hi Ha]. split; [by apply Hiss|]. intros st0 s. destruct Hi as (st1 & H1 & _).
      rewrite lookup_insert_ne by congruence. apply Ha.
  - destruct (begin_grows _ _ _ _ _ (wi_stores _ Hw _ _ Hst) Hb) as (Hi & Hg & Ho & Hgen).
    pose proof (inv_update w id st st' (w_dead w) (w_prepared w) Hw Hst Hg Hi ltac:(done) ltac:(set_solver) ltac:(done)) as [U1 U2 U3 U4].
    split; [done..| |done]. intros t0 [->|Ht0]%elem_of_cons; [|by apply U3]. exists st'. cbn. rewrite Ho, lookup_insert_eq. split; [done|lia].
  - destruct (prepare_Ok _ _ _ _ _ _ _ (wi_stores _ Hw _ _ Hst) Hp) as (Ho & Hg & Hto & Htg & s & Hs & Ha). destruct Hw as [W1 W2 W3 W4].
    split; cbn; [done..|]. intros p0 [->|Hp0]%elem_of_cons; [|by apply W4]. split; [exists st; rewrite Ho; cbn; split; [done|lia]|].
    intros st0 s0. rewrite Ho, Hst. intros [= <-] Hs0. by replace s0 with s by congruence.
  - assert (p ∈ w_prepared w) as Hin by (rewrite Hpre; set_solver).
    destruct (commit_world _ _ _ _ _ _ _ Hw Hst Hin Hc) as [Hi' Hg].
    eapply (inv_update w id st st' (w_dead w)); try done; [set_solver|]. intros p0 Hp0. rewrite Hpre. set_solver.
  - destruct (cancel_grows _ _ _ _ _ _ (wi_stores _ Hw _ _ Hst) Hc) as [Hi Hg]. eapply (inv_update w id st st' (w_dead w)); try done. set_solver.
  - destruct (dispose_grows _ _ _ _ _ (wi_stores _ Hw _ _ Hst) Hc) as (-> & Hi & Hg). eapply (inv_update w id st st'); try done; set_solver.
Qed.
Lemma reachable_inv w : reachable w -> world_inv w.
Proof.
  intros H. assert (forall w0, world_inv w0 -> rtc step w0 w -> world_inv w) as Hr; [|by apply (Hr initial_world), H; apply inv_initial].
  clear H. intros w0 H0 H. induction H as [|x y z Hs _ IH]; [done|]. apply IH. by eapply step_inv.
Qed.
(** One call grows every store and only adds to the disposed ones. *)
Lemma step_grows w w' id st : world_inv w -> step w w' -> w_stores w !! id = Some st ->
  w_dead w ⊆ w_dead w' /\ exists st', w_stores w' !! id = Some st' /\ store_grows st st'.
Proof.
  intros Hw Hs Hid. pose proof (wi_stores _ Hw _ _ Hid) as Hinv.
  assert (forall id0 st0 st1, w_stores w !! id0 = Some st0 -> store_grows st0 st1 -> exists st', <[id0 := st1]> (w_stores w) !! id = Some st' /\ store_grows st st') as Hup.
  { intros id0 st0 st1 H0 Hg. destruct (decide (id0 = id)) as [->|Hne]; [rewrite lookup_insert_eq; exists st1; split; [done|]; by replace st with st0 by congruence|].
    exists st. rewrite lookup_insert_ne by done. split; [done|apply store_grows_refl]. }
  destruct Hs as [w id0 config di input now st0 Hn Hd Hnew|w id0 st0 st' t Hst Hb|w id0 st0 t input now p Hst Ht Hp|w id0 st0 st' pre p post now r Hst Hpre Hc|w id0 st0 st' t r Hst Ht Hc|w id0 st0 dead' st' Hst Hc]; cbn.
  - split; [done|]. exists st. rewrite lookup_insert_ne by congruence. split; [done|apply store_grows_refl].
  - split; [done|]. eapply Hup; [done|]. by eapply begin_grows; [apply (wi_stores _ Hw)|].
  - split; [done|]. exists st. split; [done|apply store_grows_refl].
  - split; [done|]. eapply Hup; [done|]. eapply commit_world; [done..| |exact Hc]. rewrite Hpre. set_solver.
  - split; [done|]. eapply Hup; [done|]. by eapply cancel_grows; [apply (wi_stores _ Hw)|].
  - destruct (dispose_grows _ _ _ _ _ (wi_stores _ Hw _ _ Hst) Hc) as (-> & _ & Hg). split; [set_solver|]. by eapply Hup.
Qed.
Lemma run_grows w w' id st : world_inv w -> rtc step w w' -> w_stores w !! id = Some st ->
  w_dead w ⊆ w_dead w' /\ exists st', w_stores w' !! id = Some st' /\ store_grows st st'.
Proof.
  intros Hw H. revert st. induction H as [|x y z Hs Hr IH]; intros st Hst; [split; [done|]; exists st; split; [done|apply store_grows_refl]|].
  destruct (step_grows _ _ _ _ Hw Hs Hst) as (Hd & st1 & H1 & Hg). destruct (IH (step_inv _ _ Hw Hs) st1 H1) as (Hd2 & st2 & H2 & Hg2).
  split; [set_solver|]. exists st2. split; [done|]. by eapply store_grows_trans.
Qed.

(** ** Properties *)
(** C15: In every reachable world, what a store holds active was signed over its exact bytes by
    one of that store's own policy keys, is within its size limit, has the wire structure and
    the configured scope, and its policies were accepted; and the current snapshot is handed
    out exactly while the store is live and the clock is inside the bundle's window. *)
Theorem active_policy_genuine w id st s :
  reachable w -> w_stores w !! id = Some st -> st_state st = Some s ->
  genuine (ss_keys s) (ss_policy_config s) (ss_max_policy_bytes s) (sn_policy (ss_active s)) /\
  forall now snap, 0 <= now -> 0 <= vb_allowed_clock_skew_ms (sn_policy (ss_active s)) ->
    current (w_dead w) st now = Ok snap <->
    snap = ss_active s /\ id ∉ w_dead w /\
    let b := sn_policy snap in fresh (vb_issued_at_ms b) (vb_valid_until_ms b) (vb_allowed_clock_skew_ms b) now.
Proof.
  intros Hw%reachable_inv Hst Hs. destruct (wi_stores _ Hw _ _ Hst) as [Hid Hgen Hpend Hdead Hact]. destruct (Hact s Hs) as [Hlc Ha%authentic_genuine].
  split; [done|]. intros now snap Hn Hk. assert (id ∉ w_dead w) as Hd by (intros Hd%Hdead; congruence).
  unfold current, live_state, ensure_usable, ensure_live. rewrite Hid, Hs. rewrite decide_False by done. cbn [mbind result_bind ok_or]. rewrite Hlc, decide_False by done.
  cbn [mbind result_bind]. destruct (check_time_spec ck (vb_issued_at_ms (sn_policy (ss_active s))) (vb_valid_until_ms (sn_policy (ss_active s)))
    (vb_allowed_clock_skew_ms (sn_policy (ss_active s))) now Hn (conj Hk (ge_skew _ _ _ _ Ha))) as [Ht Hp]. unfold ensure_fresh.
  destruct (check_time ck _ _ _ now) as [[]|e|]; cbn [map_err mbind result_bind]; [| |done].
  - split; [intros [= <-]; split; [done|]; split; [done|]; by apply Ht|]. by intros (-> & _ & _).
  - split; [done|]. intros (-> & _ & Hf). by apply Ht in Hf.
Qed.

(** C16: A store never rolls back. Along any run, as long as it is not disposed, a store keeps
    its keys, its configuration and its decoder, the scope of its policy does not change, and
    its active policy is either the same bundle or one with a greater sequence number. *)
Theorem sequence_never_rolls_back w w' id st st' s s' :
  reachable w -> rtc step w w' -> w_stores w !! id = Some st -> w_stores w' !! id = Some st' ->
  st_state st = Some s -> st_state st' = Some s' ->
  ss_keys s' = ss_keys s /\ ss_policy_config s' = ss_policy_config s /\ sn_decoder (ss_active s') = sn_decoder (ss_active s) /\
  (let scope b := (as_str (value_index (vb_payload b) "env"), as_str (value_index (vb_payload b) "profile")) in
   scope (sn_policy (ss_active s')) = scope (sn_policy (ss_active s))) /\
  (ss_active s' = ss_active s \/ vb_sequence (sn_policy (ss_active s)) < vb_sequence (sn_policy (ss_active s'))).
Proof.
  intros Hr Hrun Hst Hst' Hs Hs'. pose proof (reachable_inv _ Hr) as Hw. pose proof (reachable_inv w' ltac:(unfold reachable in *; by etrans)) as Hw'.
  destruct (run_grows _ _ _ _ Hw Hrun Hst) as (_ & st1 & H1 & Hg). assert (st1 = st') as -> by congruence.
  destruct (gr_state _ _ Hg s' Hs') as (s0 & Hs0 & Hk & Hc & _ & Hd & Hseq). assert (s0 = s) as -> by congruence. do 3 (split; [done|]). split; [|done].
  destruct (so_active _ _ _ (wi_stores _ Hw _ _ Hst) s Hs) as [_ A%authentic_genuine], (so_active _ _ _ (wi_stores _ Hw' _ _ Hst') s' Hs') as [_ A'%authentic_genuine].
  cbv beta zeta. rewrite (ge_env _ _ _ _ A), (ge_profile _ _ _ _ A), (ge_env _ _ _ _ A'), (ge_profile _ _ _ _ A'). by rewrite Hc.
Qed.

(** C17: The latest-begun refresh wins. Presented with any candidate of the world, a store either
    refuses it and stays as it is, or the candidate was prepared for this store in the attempt
    begun last; that attempt is then over for every ticket and candidate, and the candidate
    becomes active exactly when it is fresh and of a greater sequence. No commit panics. *)
Theorem latest_attempt_wins w id st p now st' r :
  reachable w -> w_stores w !! id = Some st -> p ∈ w_prepared w -> commit_refresh (w_dead w) st p now = (st', r) ->
  r <> Panic /\
  ((st' = st /\ (r = Err disposed_error \/ r = Err aborted_error)) \/
   (pr_owner p = id /\ pr_generation p = st_generation st /\ (forall owner g, check_attempt (w_dead w) st' owner g = Err aborted_error) /\
    exists s s', st_state st = Some s /\ st_state st' = Some s' /\
      (r = Ok Replace <-> ensure_fresh ck (pr_policy p) now = Ok () /\ vb_sequence (sn_policy (ss_active s)) < vb_sequence (pr_policy p)) /\
      sn_policy (ss_active s') = match r with Ok Replace => pr_policy p | _ => sn_policy (ss_active s) end)).
Proof.
  intros Hw%reachable_inv Hst Hp Hc. pose proof (wi_stores _ Hw _ _ Hst) as Hinv. destruct (wi_prepared _ Hw p Hp) as [_ Hauth].
  assert (forall s, pr_owner p = id -> st_state st = Some s -> authentic (ss_keys s) (ss_policy_config s) (ss_max_policy_bytes s) (pr_policy p)) as Ha
    by (intros s He Hs; apply (Hauth st s); [by rewrite He|done]).
  destruct (decide (pr_owner p = id)) as [He|Hne].
  - destruct (commit_cases _ _ _ _ _ _ _ Hinv (fun s Hs => Ha s He Hs) Hc) as [[-> Hr]|(s & Hs & Hd & Ho & Hg & Hpe & H1 & H2 & H3 & Hr)]; [by split; [naive_solver|left]|].
    assert (exists s', st_state st' = Some s') as [s' Hs'] 
      by (cbv zeta in Hr; destruct r as [[]|e|]; [destruct Hr as (_ & _ & ->); eauto|destruct Hr as (_ & _ & _ & ->); eauto|rewrite Hr; eauto|done]).
    split; [by intros ->|]. right. split; [done|]. split; [done|]. split.
    { intros owner g. unfold check_attempt, live_state, ensure_live. rewrite H1, decide_False, Hs', H3 by done. cbn [mbind result_bind ok_or].
      rewrite orb_true_r. done. }
    exists s, s'. split; [done|]. split; [done|]. pose proof (so_active _ _ _ Hinv s Hs) as [_ Hact%authentic_genuine].
    pose proof (check_update_spec _ _ _ _ _ now (authentic_genuine _ _ _ _ (Ha s He Hs)) Hact) as Hu. unfold commit_refresh in Hc.
    destruct (check_attempt _ _ _ _) as [[]|e|] eqn:Hatt; [|injection Hc as <- <-; congruence..]. rewrite Hs in Hc.
    destruct (check_update ck (pr_policy p) (Some (sn_policy (ss_active s))) now) as [[]|e|]; injection Hc as <- <-; cbn [st_state] in Hs'; [| | |done].
    + injection Hs' as <-. done.
    + assert (s' = s) as -> by congruence. split; [|done]. split; [done|]. intros [_ Hlt]. destruct Hu as (_ & Heq & _). lia.
    + assert (s' = s) as -> by congruence. split; [|done]. split; [done|]. intros [Hf Hlt]. destruct Hu as [Hu|[_ Hu]]; [congruence|lia].
  - unfold commit_refresh in Hc. destruct (check_attempt _ _ _ _) as [[]|e|] eqn:Hatt.
    + apply check_attempt_Ok in Hatt as (_ & _ & Ho & _). rewrite (so_id _ _ _ Hinv) in Ho. done.
    + injection Hc as <- <-. split; [done|]. left. split; [done|]. destruct (check_attempt_Err (w_dead w) st (pr_owner p) (pr_generation p)) as [H|H]; rewrite Hatt in *; [done| |]; [left|right]; congruence.
    + destruct (check_attempt_Err (w_dead w) st (pr_owner p) (pr_generation p)) as [H|H]; rewrite Hatt in *; done.
Qed.

(** Disposal is final. Once a store is disposed, then whatever is done later in the world,
    every call on it fails as disposed and changes nothing, and no snapshot it ever handed out
    is usable again. *)
Theorem disposal_is_final w w' id :
  reachable w -> id ∈ w_dead w -> rtc step w w' -> exists st, w_stores w' !! id = Some st /\ st_state st = None /\
    (forall now, current (w_dead w') st now = Err disposed_error) /\
    begin_refresh (w_dead w') st = (st, Err disposed_error) /\
    (forall t input now, prepare_refresh (w_dead w') st t input now = Err disposed_error) /\
    (forall p now, commit_refresh (w_dead w') st p now = (st, Err disposed_error)) /\
    (forall t, cancel_refresh (w_dead w') st t = (st, Err disposed_error)) /\
    (forall snap now, sn_lifecycle snap = id -> ensure_usable (w_dead w') snap now = Err disposed_error).
Proof.
  intros Hr Hd Hrun. pose proof (reachable_inv _ Hr) as Hw. destruct (wi_dead _ Hw id Hd) as [st0 Hst0].
  destruct (run_grows _ _ _ _ Hw Hrun Hst0) as (Hsub & st & Hst & _). exists st. split; [done|].
  pose proof (reachable_inv w' ltac:(unfold reachable in *; by etrans)) as Hw'. assert (id ∈ w_dead w') as Hd' by set_solver.
  destruct (wi_stores _ Hw' _ _ Hst) as [Hid _ _ Hdead _]. split; [by apply Hdead|].
  assert (forall A (f : StoreState -> result SnapshotError A), live_state (w_dead w') st ≫= f = Err disposed_error) as Hl
    by (intros A f; unfold live_state, ensure_live; by rewrite Hid, decide_True).
  assert (live_state (w_dead w') st = Err disposed_error) as Hl0 by (unfold live_state, ensure_live; by rewrite Hid, decide_True).
  assert (forall o g, check_attempt (w_dead w') st o g = Err disposed_error) as Hc by (intros; unfold check_attempt; apply Hl).
  split; [intros; apply Hl|]. split; [unfold begin_refresh; by rewrite Hl0|]. split; [intros; unfold prepare_refresh; by rewrite Hc|].
  split; [intros; unfold commit_refresh; by rewrite Hc|]. split; [intros; unfold cancel_refresh; by rewrite Hc|].
  intros snap now <-. unfold ensure_usable, ensure_live. by rewrite decide_True.
Qed.
End Store.

(** ** A run for the witnesses
    A payload is a number of bytes, which is its sequence; the decoder is a unit. One store is
    created with sequence 1, a refresh is begun, and sequence 2 is prepared and committed. *)
Module MiniRun.
#[global] Instance json : StrictJson := {|
  RawValue := string; raw_len s := Z.of_nat (String.length s); object_members _ _ := Ok []; raw_string r _ := Ok r;
  strict_parse text := Ok (demo_payload (Z.of_nat (String.length text)) 1000) |}.
Definition decoder : DecoderInput -> list (TrustedKey (K := Mini.crypto)) -> Z -> result SnapshotError () := fun _ _ _ => Ok tt.
Definition input (n : nat) : SignedPolicyInput := mkSignedPolicyInput (replicate n 65) (base64 (replicate 64 65)) None.
Definition config : SnapshotStoreConfig := mkSnapshotStoreConfig demo_keys demo_config 100 100.
Definition now : Z := 2000000.
Notation Store := (SnapshotStore (K := Mini.crypto) (VerifiedDecoderSnapshot := ())).
Definition created : Store :=
  match store_new (J := json) (K := Mini.crypto) (T0 := Mini.tools) true decoder 0%nat config (Pinned [] "") (input 1) now with
  | Ok st => st | _ => mkSnapshotStore 0%nat 0 None None
  end.
Definition ticket : RefreshTicket := mkRefreshTicket 0%nat 1.
Definition begun : Store := (begin_refresh (K := Mini.crypto) ∅ created).1.
Definition candidate : PreparedRefresh :=
  match prepare_refresh (J := json) (K := Mini.crypto) (T0 := Mini.tools) true ∅ begun ticket (input 2) now with
  | Ok p => p | _ => mkPreparedRefresh 0%nat 0 (mkValidatedPolicyBundle (demo_verified VNull) [] 0 0 0 0)
  end.
Definition committed : Store := (commit_refresh (K := Mini.crypto) true ∅ begun candidate now).1.
Notation world dead st tickets prepared := (mkWorld (K := Mini.crypto) (VerifiedDecoderSnapshot := ()) dead {[0%nat := st]} tickets prepared).
Notation stepped := (step (J := json) (K := Mini.crypto) (T0 := Mini.tools) true decoder).
Notation reached := (reachable (J := json) (K := Mini.crypto) (T0 := Mini.tools) true decoder).
Lemma created_reached : reached (world ∅ created [] []).
Proof.
  eapply rtc_l; [|apply rtc_refl]. eapply (step_new _ _ (initial_world (K := Mini.crypto)) 0%nat config (Pinned [] "") (input 1) now); [done|set_solver|].
  vm_compute. reflexivity.
Qed.
Lemma begun_reached : reached (world ∅ begun [ticket] []).
Proof.
  eapply rtc_r; [apply created_reached|].
  refine (eq_rect _ (stepped _) (step_begin _ _ (world ∅ created [] []) 0%nat created begun ticket (lookup_singleton_eq _ _) _) _ _);
    [vm_compute; reflexivity|]. cbn. by rewrite insert_singleton_eq.
Qed.
Lemma candidate_reached : reached (world ∅ begun [ticket] [candidate]).
Proof.
  eapply rtc_r; [apply begun_reached|].
  refine (step_prepare (J := json) (K := Mini.crypto) (T0 := Mini.tools) true decoder (world ∅ begun [ticket] []) 0%nat begun ticket (input 2) now candidate
    (lookup_singleton_eq _ _) _ _); [left|vm_compute; reflexivity].
Qed.
Lemma commit_result : commit_refresh (K := Mini.crypto) true ∅ begun candidate now = (committed, Ok Replace).
Proof. vm_compute. reflexivity. Qed.
Lemma committed_step : stepped (world ∅ begun [ticket] [candidate]) (world ∅ committed [ticket] []).
Proof.
  refine (eq_rect _ (stepped _) (step_commit _ _ (world ∅ begun [ticket] [candidate]) 0%nat begun committed [] candidate [] now _
    (lookup_singleton_eq _ _) eq_refl commit_result) _ _). cbn. by rewrite insert_singleton_eq.
Qed.
Lemma disposed_step : stepped (world ∅ begun [ticket] [candidate])
  (world {[0%nat]} (mkSnapshotStore (K := Mini.crypto) 0%nat 1 None None) [ticket] [candidate]).
Proof.
  refine (eq_rect _ (stepped _) (step_dispose _ _ (world ∅ begun [ticket] [candidate]) 0%nat begun _ _ (lookup_singleton_eq _ _) eq_refl) _ _).
  cbn. rewrite insert_singleton_eq. f_equal.
Qed.
Definition sequence_of (st : Store) : option Z := (fun s => vb_sequence (sn_policy (ss_active s))) <$> st_state st.
Lemma sequence_of_Some st z : sequence_of st = Some z -> exists s, st_state st = Some s /\ vb_sequence (sn_policy (ss_active s)) = z.
Proof. unfold sequence_of. destruct (st_state st) as [s|]; [|done]. intros [= <-]. by exists s. Qed.
Lemma begun_sequence : exists s, st_state begun = Some s /\ vb_sequence (sn_policy (ss_active s)) = 1.
Proof. apply sequence_of_Some. vm_compute. reflexivity. Qed.
Lemma committed_sequence : exists s, st_state committed = Some s /\ vb_sequence (sn_policy (ss_active s)) = 2.
Proof. apply sequence_of_Some. vm_compute. reflexivity. Qed.
End MiniRun.

Lemma active_policy_genuine_witness : exists s, st_state MiniRun.begun = Some s /\
  genuine (K := Mini.crypto) (T0 := Mini.tools) (ss_keys s) (ss_policy_config s) (ss_max_policy_bytes s) (sn_policy (ss_active s)).
Proof.
  destruct MiniRun.begun_sequence as (s & Hs & _). exists s. split; [exact Hs|].
  exact (proj1 (active_policy_genuine (J := MiniRun.json) (K := Mini.crypto) (T0 := Mini.tools) true MiniRun.decoder _ 0%nat _ s
    MiniRun.begun_reached (lookup_singleton_eq _ _) Hs)).
Defined.
Lemma sequence_never_rolls_back_witness : exists s s', st_state MiniRun.begun = Some s /\ st_state MiniRun.committed = Some s' /\
  vb_sequence (sn_policy (ss_active s)) = 1 /\ vb_sequence (sn_policy (ss_active s')) = 2 /\
  (ss_active s' = ss_active s \/ vb_sequence (sn_policy (ss_active s)) < vb_sequence (sn_policy (ss_active s'))).
Proof.
  destruct MiniRun.begun_sequence as (s & Hs & H1), MiniRun.committed_sequence as (s' & Hs' & H2). exists s, s'.
  split; [exact Hs|]. split; [exact Hs'|]. split; [exact H1|]. split; [exact H2|].
  exact (proj2 (proj2 (proj2 (proj2 (sequence_never_rolls_back (J := MiniRun.json) (K := Mini.crypto) (T0 := Mini.tools) true MiniRun.decoder _ _ 0%nat _ _ s s'
    MiniRun.candidate_reached (rtc_once _ _ MiniRun.committed_step) (lookup_singleton_eq _ _) (lookup_singleton_eq _ _) Hs Hs'))))).
Defined.
Lemma latest_attempt_wins_witness : pr_generation MiniRun.candidate = st_generation MiniRun.begun /\
  forall owner g, check_attempt (K := Mini.crypto) ∅ MiniRun.committed owner g = Err aborted_error.
Proof.
  destruct (latest_attempt_wins (J := MiniRun.json) (K := Mini.crypto) (T0 := Mini.tools) true MiniRun.decoder _ 0%nat _ MiniRun.candidate MiniRun.now _ _
    MiniRun.candidate_reached (lookup_singleton_eq _ _) ltac:(left) MiniRun.commit_result) as [_ [[_ [H|H]]|(_ & H1 & H2 & _)]]; [discriminate H..|].
  split; [exact H1|exact H2].
Defined.
Lemma disposal_is_final_witness : exists st, st_state st = None /\
  forall now, current (K := Mini.crypto) (VerifiedDecoderSnapshot := ()) true {[0%nat]} st now = Err disposed_error.
Proof.
  destruct (disposal_is_final (J := MiniRun.json) (K := Mini.crypto) (T0 := Mini.tools) true MiniRun.decoder _ _ 0%nat
    (rtc_r _ _ _ MiniRun.candidate_reached MiniRun.disposed_step) ltac:(apply elem_of_singleton; reflexivity) (rtc_refl _ _)) as (st & _ & H1 & H2 & _).
  exists st. split; [exact H1|exact H2].
Defined.
End SnapshotStore.
