(* ===== verification/ActionViews.v ===== *)
(** * What a policy trigger sees of an action (asset-model/action: view.rs, the [action_tag],
    [venue_name] and [name] methods of the domains)

    The projection of an action body to its domain, its tag and its venue: the
    strings a manifest's trigger is matched against. *)
From stdpp Require Import base tactics list strings.
From S2P Require Import Prelude Types TokenEffect AmmTypes LendingTypes StaticDomains Airdrop Launchpad Hyperliquid PerpMath Apply PolicyRpc.

Module ActionViews.
Import PolicyRpc.

Definition token_venue (a : TokenAction) : option string := None.
Definition airdrop_action_tag (a : Airdrop.AirdropAction) : string :=
  match a with
  | Airdrop.Claim _ => "claim"
  | Airdrop.Delegate _ => "delegate"
  end%string.
Definition airdrop_venue (a : Airdrop.AirdropAction) : option string := None.
Definition launchpad_action_tag (a : Launchpad.LaunchpadAction) : string :=
  match a with
  | Launchpad.Commit _ => "commit"
  | Launchpad.ClaimAllocation _ => "claim_allocation"
  | Launchpad.ClaimVested _ => "claim_vested"
  | Launchpad.Refund _ => "refund"
  | Launchpad.WithdrawCommit _ => "withdraw_commit"
  end%string.
Definition launchpad_venue (a : Launchpad.LaunchpadAction) : option string := None.
Definition perp_venue_name (v : Perp.PerpVenue) : string :=
  match v with
  | Perp.Hyperliquid _ => "hyperliquid"
  | Perp.GmxV2 _ => "gmx_v2"
  | Perp.DyDxV4 _ => "dy_dx_v4"
  | Perp.Vertex _ => "vertex"
  | Perp.Aevo _ => "aevo"
  | Perp.Drift _ => "drift"
  | Perp.JupiterPerps _ => "jupiter_perps"
  | Perp.Synthetix _ => "synthetix"
  | Perp.Generic _ _ => "generic"
  end%string.
Definition perp_action_tag (a : Perp.PerpAction) : string :=
  match a with
  | Perp.OpenPosition _ => "open_position"
  | Perp.ClosePosition _ => "close_position"
  | Perp.IncreasePosition _ => "increase_position"
  | Perp.DecreasePosition _ => "decrease_position"
  | Perp.AdjustMargin _ => "adjust_margin"
  | Perp.ChangeLeverage _ => "change_leverage"
  | Perp.ChangeMarginMode _ => "change_margin_mode"
  | Perp.PlaceOrder _ => "place_order"
  | Perp.CancelOrder _ => "cancel_order"
  | Perp.ClaimFunding _ => "claim_funding"
  end%string.
Definition perp_venue (a : Perp.PerpAction) : option string :=
  match a with
  | Perp.OpenPosition a => Some (perp_venue_name (Perp.op_venue a))
  | Perp.ClosePosition a => Some (perp_venue_name (Perp.cp_venue a))
  | Perp.IncreasePosition a => Some (perp_venue_name (Perp.ip_venue a))
  | Perp.DecreasePosition a => Some (perp_venue_name (Perp.dp_venue a))
  | Perp.AdjustMargin a => Some (perp_venue_name (Perp.am_venue a))
  | Perp.ChangeLeverage a => Some (perp_venue_name (Perp.chl_venue a))
  | Perp.ChangeMarginMode a => Some (perp_venue_name (Perp.cmm_venue a))
  | Perp.PlaceOrder a => Some (perp_venue_name (Perp.plo_venue a))
  | Perp.CancelOrder a => Some (perp_venue_name (Perp.pco_venue a))
  | Perp.ClaimFunding a => Some (perp_venue_name (Perp.cfu_venue a))
  end.
Definition liquid_staking_venue_name (v : LiquidStaking.StakingVenue) : string :=
  match v with
  | LiquidStaking.Lido _ => "lido"
  end%string.
Definition liquid_staking_action_tag (a : LiquidStaking.LiquidStakingAction) : string :=
  match a with
  | LiquidStaking.Stake _ => "stake"
  | LiquidStaking.Wrap _ => "wrap"
  | LiquidStaking.Unwrap _ => "unwrap"
  | LiquidStaking.RequestWithdrawal _ => "request_withdrawal"
  | LiquidStaking.ClaimWithdrawal _ => "claim_withdrawal"
  | LiquidStaking.TransferShares _ => "transfer_shares"
  end%string.
Definition liquid_staking_venue (a : LiquidStaking.LiquidStakingAction) : option string :=
  match a with
  | LiquidStaking.Stake a => Some (liquid_staking_venue_name (LiquidStaking.sa_venue a))
  | LiquidStaking.Wrap a => Some (liquid_staking_venue_name (LiquidStaking.wa_venue a))
  | LiquidStaking.Unwrap a => Some (liquid_staking_venue_name (LiquidStaking.ua_venue a))
  | LiquidStaking.RequestWithdrawal a => Some (liquid_staking_venue_name (LiquidStaking.rwa_venue a))
  | LiquidStaking.ClaimWithdrawal a => Some (liquid_staking_venue_name (LiquidStaking.cwa_venue a))
  | LiquidStaking.TransferShares a => Some (liquid_staking_venue_name (LiquidStaking.tsa_venue a))
  end.
Definition permission_action_tag (a : Permission.PermissionAction) : string :=
  match a with
  | Permission.ProtocolAuthorization _ => "protocol_authorization"
  end%string.
Definition permission_venue (a : Permission.PermissionAction) : option string :=
  match a with Permission.ProtocolAuthorization a => Some (Permission.paa_protocol_name a) end.
Definition yield_venue_name (v : Yield.YieldVenue) : string :=
  match v with
  | Yield.PendleV2 _ => "pendle_v2"
  end%string.
Definition yield_action_tag (a : Yield.YieldAction) : string :=
  match a with
  | Yield.PtSwap _ => "pt_swap"
  | Yield.YtSwap _ => "yt_swap"
  | Yield.AddMarketLiquidity _ => "add_market_liquidity"
  | Yield.RemoveMarketLiquidity _ => "remove_market_liquidity"
  | Yield.MintPy _ => "mint_py"
  | Yield.RedeemPy _ => "redeem_py"
  | Yield.MintSy _ => "mint_sy"
  | Yield.RedeemSy _ => "redeem_sy"
  | Yield.ClaimYield _ => "claim_yield"
  | Yield.SignLimitOrder _ => "sign_limit_order"
  | Yield.CancelLimitOrder _ => "cancel_limit_order"
  end%string.
Definition yield_venue (a : Yield.YieldAction) : option string :=
  match a with
  | Yield.PtSwap a => Some (yield_venue_name (Yield.psa_venue a))
  | Yield.YtSwap a => Some (yield_venue_name (Yield.ysa_venue a))
  | Yield.AddMarketLiquidity a => Some (yield_venue_name (Yield.amla_venue a))
  | Yield.RemoveMarketLiquidity a => Some (yield_venue_name (Yield.rmla_venue a))
  | Yield.MintPy a => Some (yield_venue_name (Yield.mpa_venue a))
  | Yield.RedeemPy a => Some (yield_venue_name (Yield.rpa_venue a))
  | Yield.MintSy a => Some (yield_venue_name (Yield.msa_venue a))
  | Yield.RedeemSy a => Some (yield_venue_name (Yield.rsa_venue a))
  | Yield.ClaimYield a => Some (yield_venue_name (Yield.cya_venue a))
  | Yield.SignLimitOrder a => Some (yield_venue_name (Yield.sloa_venue a))
  | Yield.CancelLimitOrder a => Some (yield_venue_name (Yield.cloa_venue a))
  end.
Definition restaking_venue_name (v : Restaking.RestakingVenue) : string :=
  match v with
  | Restaking.EigenLayer _ => "eigenlayer"
  end%string.
Definition restaking_action_tag (a : Restaking.RestakingAction) : string :=
  match a with
  | Restaking.DelegateTo _ => "delegate_to"
  | Restaking.Redelegate _ => "redelegate"
  | Restaking.Undelegate _ => "undelegate"
  | Restaking.Deposit _ => "deposit"
  | Restaking.QueueWithdrawal _ => "queue_withdrawal"
  | Restaking.CompleteWithdrawal _ => "complete_withdrawal"
  | Restaking.RegisterOperator _ => "register_operator"
  end%string.
Definition restaking_venue (a : Restaking.RestakingAction) : option string :=
  match a with
  | Restaking.DelegateTo a => Some (restaking_venue_name (Restaking.dta_venue a))
  | Restaking.Redelegate a => Some (restaking_venue_name (Restaking.ra_venue a))
  | Restaking.Undelegate a => Some (restaking_venue_name (Restaking.ua_venue a))
  | Restaking.Deposit a => Some (restaking_venue_name (Restaking.da_venue a))
  | Restaking.QueueWithdrawal a => Some (restaking_venue_name (Restaking.qwa_venue a))
  | Restaking.CompleteWithdrawal a => Some (restaking_venue_name (Restaking.cwa_venue a))
  | Restaking.RegisterOperator a => Some (restaking_venue_name (Restaking.roa_venue a))
  end.
Definition staking_venue_name (v : Staking.StakeVenue) : string :=
  match v with
  | Staking.CurveVotingEscrow _ _ => "curve_voting_escrow"
  | Staking.CurveMinter _ _ => "curve_minter"
  | Staking.CurveGaugeController _ _ => "curve_gauge_controller"
  | Staking.CurveGauge _ _ => "curve_gauge"
  | Staking.CurveFeeDistributor _ _ => "curve_fee_distributor"
  | Staking.AaveSafetyModule _ _ => "aave_safety_module"
  | Staking.AaveUmbrellaStakeToken _ _ => "aave_umbrella_stake_token"
  | Staking.AaveUmbrellaRewardsController _ _ => "aave_umbrella_rewards_controller"
  | Staking.AaveUmbrellaBatchHelper _ _ => "aave_umbrella_batch_helper"
  | Staking.AaveSavingsGho _ _ => "aave_savings_gho"
  | Staking.EthenaStakedUsde _ _ => "ethena_staked_usde"
  end%string.
Definition staking_action_tag (a : Staking.StakingAction) : string :=
  match a with
  | Staking.Lock _ => "lock"
  | Staking.IncreaseLockAmount _ => "increase_lock_amount"
  | Staking.IncreaseLockTime _ => "increase_lock_time"
  | Staking.Unlock _ => "unlock"
  | Staking.ClaimRewards _ => "claim_rewards"
  | Staking.VoteForGauge _ => "vote_for_gauge"
  | Staking.GaugeDeposit _ => "gauge_deposit"
  | Staking.GaugeWithdraw _ => "gauge_withdraw"
  | Staking.Stake _ => "stake"
  | Staking.Cooldown _ => "cooldown"
  | Staking.Redeem _ => "redeem"
  end%string.
Definition staking_venue (a : Staking.StakingAction) : option string :=
  match a with
  | Staking.Lock a => Some (staking_venue_name (Staking.la_venue a))
  | Staking.IncreaseLockAmount a => Some (staking_venue_name (Staking.ilaa_venue a))
  | Staking.IncreaseLockTime a => Some (staking_venue_name (Staking.ilta_venue a))
  | Staking.Unlock a => Some (staking_venue_name (Staking.ua_venue a))
  | Staking.ClaimRewards a => Some (staking_venue_name (Staking.cra_venue a))
  | Staking.VoteForGauge a => Some (staking_venue_name (Staking.vfga_venue a))
  | Staking.GaugeDeposit a => Some (staking_venue_name (Staking.gda_venue a))
  | Staking.GaugeWithdraw a => Some (staking_venue_name (Staking.gwa_venue a))
  | Staking.Stake a => Some (staking_venue_name (Staking.sa_venue a))
  | Staking.Cooldown a => Some (staking_venue_name (Staking.ca_venue a))
  | Staking.Redeem a => Some (staking_venue_name (Staking.ra_venue a))
  end.
Definition governance_venue_name (v : Governance.GovernanceVenue) : string :=
  match v with
  | Governance.AaveGovernanceV3 _ _ => "aave_governance_v3"
  | Governance.AaveVotingMachine _ _ => "aave_voting_machine"
  | Governance.GovernanceToken _ _ => "governance_token"
  end%string.
Definition governance_action_tag (a : Governance.GovernanceAction) : string :=
  match a with
  | Governance.Delegate _ => "delegate"
  | Governance.Vote _ => "vote"
  | Governance.Propose _ => "propose"
  | Governance.Cancel _ => "cancel"
  | Governance.ActivateVoting _ => "activate_voting"
  | Governance.Queue _ => "queue"
  | Governance.Execute _ => "execute"
  | Governance.StartVote _ => "start_vote"
  | Governance.CloseVote _ => "close_vote"
  | Governance.RedeemCancellationFee _ => "redeem_cancellation_fee"
  | Governance.UpdateRepresentative _ => "update_representative"
  end%string.
Definition governance_venue (a : Governance.GovernanceAction) : option string :=
  match a with
  | Governance.Delegate a => Some (governance_venue_name (Governance.gda_venue a))
  | Governance.Vote a => Some (governance_venue_name (Governance.gva_venue a))
  | Governance.Propose a => Some (governance_venue_name (Governance.gpa_venue a))
  | Governance.Cancel a => Some (governance_venue_name (Governance.gpra_venue a))
  | Governance.ActivateVoting a => Some (governance_venue_name (Governance.gpra_venue a))
  | Governance.Queue a => Some (governance_venue_name (Governance.gpra_venue a))
  | Governance.Execute a => Some (governance_venue_name (Governance.gpra_venue a))
  | Governance.StartVote a => Some (governance_venue_name (Governance.gpra_venue a))
  | Governance.CloseVote a => Some (governance_venue_name (Governance.gpra_venue a))
  | Governance.RedeemCancellationFee a => Some (governance_venue_name (Governance.grcfa_venue a))
  | Governance.UpdateRepresentative a => Some (governance_venue_name (Governance.gura_venue a))
  end.
Definition hyperliquid_core_action_tag (a : Hyperliquid.HyperliquidCoreAction) : string :=
  match a with
  | Hyperliquid.CoreLimitOrder _ => "hl_core_limit_order"
  | Hyperliquid.Withdraw _ => "hl_withdraw"
  | Hyperliquid.UsdSend _ => "hl_usd_send"
  | Hyperliquid.SpotSend _ => "hl_spot_send"
  | Hyperliquid.UsdClassTransfer _ => "hl_usd_class_transfer"
  | Hyperliquid.SendAsset _ => "hl_send_asset"
  | Hyperliquid.SendToEvmWithData _ => "hl_send_to_evm_with_data"
  | Hyperliquid.CDeposit _ => "hl_c_deposit"
  | Hyperliquid.CWithdraw _ => "hl_c_withdraw"
  | Hyperliquid.VaultTransfer _ => "hl_vault_transfer"
  | Hyperliquid.SubAccountTransfer _ => "hl_sub_account_transfer"
  | Hyperliquid.TokenDelegate _ => "hl_token_delegate"
  | Hyperliquid.Unknown _ => "hl_unknown"
  end%string.
Definition hyperliquid_core_venue (a : Hyperliquid.HyperliquidCoreAction) : option string := Some "hyperliquid"%string.
Definition marketplace_venue_name (v : Marketplace.MarketplaceVenue) : string :=
  match v with
  | Marketplace.Seaport _ _ => "seaport"
  end%string.
Definition marketplace_action_tag (a : Marketplace.MarketplaceAction) : string :=
  match a with
  | Marketplace.SignOrder _ => "sign_order"
  | Marketplace.FulfillOrder _ => "fulfill_order"
  | Marketplace.CancelOrder _ => "cancel_order"
  end%string.
Definition marketplace_venue (a : Marketplace.MarketplaceAction) : option string :=
  match a with
  | Marketplace.SignOrder a => Some (marketplace_venue_name (Marketplace.soa_venue a))
  | Marketplace.FulfillOrder a => Some (marketplace_venue_name (Marketplace.foa_venue a))
  | Marketplace.CancelOrder a => Some (marketplace_venue_name (Marketplace.coa_venue a))
  end.
Definition bridge_venue_name (v : Bridge.BridgeVenue) : string :=
  match v with
  | Bridge.AcrossSpokePool => "across_spoke_pool"
  | Bridge.LiFiDiamond => "lifi_diamond"
  end%string.
Definition bridge_action_tag (a : Bridge.BridgeAction) : string :=
  match a with
  | Bridge.Send _ => "send"
  end%string.
Definition bridge_venue (a : Bridge.BridgeAction) : option string :=
  match a with
  | Bridge.Send a => Some (bridge_venue_name (Bridge.bsa_venue a))
  end.
Definition view (body : ActionBody) : ActionView :=
  match body with
  | BodyToken a => mkActionView "token" (Some (token_action_tag a)) (token_venue a)
  | BodyAmm a => mkActionView "amm" (Some (amm_action_tag a)) (amm_action_venue_name a)
  | BodyLending a => mkActionView "lending" (Some (lending_action_tag a)) (lending_action_venue_name a)
  | BodyAirdrop a => mkActionView "airdrop" (Some (airdrop_action_tag a)) (airdrop_venue a)
  | BodyLaunchpad a => mkActionView "launchpad" (Some (launchpad_action_tag a)) (launchpad_venue a)
  | BodyPerp a => mkActionView "perp" (Some (perp_action_tag a)) (perp_venue a)
  | BodyLiquidStaking a => mkActionView "liquid_staking" (Some (liquid_staking_action_tag a)) (liquid_staking_venue a)
  | BodyPermission a => mkActionView "permission" (Some (permission_action_tag a)) (permission_venue a)
  | BodyYield a => mkActionView "yield" (Some (yield_action_tag a)) (yield_venue a)
  | BodyRestaking a => mkActionView "restaking" (Some (restaking_action_tag a)) (restaking_venue a)
  | BodyStaking a => mkActionView "staking" (Some (staking_action_tag a)) (staking_venue a)
  | BodyGovernance a => mkActionView "governance" (Some (governance_action_tag a)) (governance_venue a)
  | BodyHyperliquidCore a => mkActionView "hyperliquid_core" (Some (hyperliquid_core_action_tag a)) (hyperliquid_core_venue a)
  | BodyMarketplace a => mkActionView "marketplace" (Some (marketplace_action_tag a)) (marketplace_venue a)
  | BodyBridge a => mkActionView "bridge" (Some (bridge_action_tag a)) (bridge_venue a)
  | Multicall _ => mkActionView "multicall" None None
  | UnknownCall _ _ _ _ => mkActionView "unknown" None None
  end%string.

(** ** The view tells batches from leaves *)
Lemma view_multicall body : av_domain (view body) = "multicall"%string <-> exists actions, body = Multicall actions.
Proof. split; [|by intros [actions ->]]. destruct body; simpl; try done. by eexists. Qed.
Lemma view_tag body : av_action_tag (view body) = None <-> (exists actions, body = Multicall actions) \/ (exists t c d v, body = UnknownCall t c d v).
Proof. split; [|by intros [[actions ->]|(t & c & d & v & ->)]]. destruct body; simpl; try done; [by left; eexists|right; by do 4 eexists]. Qed.
(** A policy fires at one position of a batch: on the batch itself or on its parts, never on both. *)
Lemma scope_one_position scope actions child : (forall l, child <> Multicall l) ->
  scope_matches_position scope (view (Multicall actions)) = negb (scope_matches_position scope (view child)).
Proof.
  intros Hc. unfold scope_matches_position. simpl. destruct (String.eqb_spec (av_domain (view child)) "multicall") as [He|He].
  - apply view_multicall in He as [l ->]. by destruct (Hc l).
  - by destruct scope.
Qed.
End ActionViews.
