(* ===== verification/PolicyRuntime.v ===== *)
(** * Planning and evaluating an action (dambi-core/src/runtime: mod.rs, dto.rs, json.rs)

    [plan_action] lowers an action and plans the enrichment calls of the manifests
    that apply to it; [evaluate_action] plans again from the bundles themselves,
    materializes each bundle's own context from the host's results, evaluates its
    policy and combines the verdicts, quarantining a bundle that is broken. The
    lowering of actions (lowering_v2) and the derived JSON decoding of the inputs
    are parameters. *)
From stdpp Require Import base tactics numbers list strings gmap pretty.
From S2P Require Import Prelude Types Fixtures Apply SyncLive PolicyEngine PolicyRpc BundleFormat BundleTrust ActionViews.
Import SyncLive.

Module PolicyRuntime.
Import PolicyEngine PolicyRpc BundleFormat BundleTrust ActionViews.

(** ** Data (dto.rs, json.rs) *)
Record EngineErrorDto := mkEngineErrorDto { ee_kind : string; ee_message : string }.
Definition ascii_lower (c : Ascii.ascii) : Ascii.ascii :=
  let n := Ascii.nat_of_ascii c in if (65 <=? n)%nat && (n <=? 90)%nat then Ascii.ascii_of_nat (n + 32) else c.
Fixpoint to_ascii_lowercase (s : string) : string :=
  match s with EmptyString => EmptyString | String c rest => String (ascii_lower c) (to_ascii_lowercase rest) end.
(** Routing fields, their addresses in lower case. *)
Record TxInput := mkTxInput { ti_chain_id : string; ti_from : string; ti_to : string }.
Definition tx_new (chain_id from to : string) : TxInput := mkTxInput chain_id (to_ascii_lowercase from) (to_ascii_lowercase to).
Record BundleInput := mkBundleInput { bi_policy : string; bi_manifest : ManifestV2 }.
Record PlannedCallDto := mkPlannedCallDto {
  pd_manifest_id : string; pd_call_id : string; pd_method : string; pd_params : Value; pd_outputs : list Value; pd_optional : bool }.

(** [Display] of the two error types. *)
Definition rpc_error_display (e : PolicyRpcError) : string :=
  match e with
  | InvalidManifest m => "invalid manifest: " +:+ m
  | SelectorError m => "selector error: " +:+ m
  | RpcResult m => "rpc result error: " +:+ m
  | SchemaError m => "schema error: " +:+ m
  | SystemFail call_id reason => "rpc unavailable for required requirement `" +:+ call_id +:+ "`: " +:+ reason
  end%string.
Definition policy_error_display (e : PolicyError) : string :=
  match e with
  | EParse m => "failed to parse Cedar policy: " +:+ m
  | ESchema m => "failed to parse Cedar schema: " +:+ m
  | EValidation m => "failed to validate Cedar policy set against schema: " +:+ m
  | ERequest m => "failed to build Cedar request: " +:+ m
  | EContext m => "failed to build Cedar context: " +:+ m
  | EEntities m => "failed to build Cedar entities: " +:+ m
  | EEntityUid m => "invalid entity uid: " +:+ m
  | ELowering m => "lowering failed: " +:+ m
  end%string.
(** [serde_json::to_value] of an output projection. *)
Definition projection_type_name (t : ProjectionType) : string :=
  match t with
  | PtString => "String" | PtLong => "Long" | PtBool => "Bool" | PtDecimal => "Decimal"
  | PtUsdValuation => "UsdValuation" | PtWindowStats => "WindowStats" | PtSetString => "Set<String>"
  end%string.
Definition projection_to_value (o : ContextProjection) : Value :=
  VObject [("kind", VString (cp_kind o)); ("field", VString (cp_field o)); ("type", VString (projection_type_name (cp_type_name o)));
           ("from", VString (cp_from o)); ("required", VBool (cp_required o))]%string.
Definition planned_to_dto (call : PlannedCallV2) : PlannedCallDto :=
  mkPlannedCallDto (pc_manifest_id call) (pc_call_id call) (pc_method call) (pc_params call)
    (map projection_to_value (pc_outputs call)) (pc_optional call).

(** ** Lowering *)
Record LoweredAction := mkLoweredAction { la_principal : string; la_action_uid : string; la_resource : string; la_context : Value }.
(** [lower_action_enriched]: the action and its metadata, the routing addresses, per-token
    decimals, per-asset leverage and the order enrichment. *)
Class Lowering := {
  OrderEnrichment : Type;
  default_enrichment : OrderEnrichment;
  lower_action_enriched : ActionBody -> ActionMeta -> string -> string -> gmap string Z -> gmap string Z -> OrderEnrichment
    -> result string LoweredAction;
}.

Section Runtime.
Context {C0 : Cedar} {T0 : PolicyTools C0} {L0 : Lowering}.
(** The order in which a [HashSet] of policy ids is walked. *)
Context (iter : gset string -> list string).

Record PlanActionInput := mkPlanActionInput {
  pi_manifests : list ManifestV2; pi_action : ActionBody; pi_meta : ActionMeta; pi_tx : TxInput;
  pi_token_decimals : gmap string Z; pi_account_leverage : gmap string Z; pi_order_enrichment : OrderEnrichment }.
Record EvaluateActionInput := mkEvaluateActionInput {
  ei_action : ActionBody; ei_meta : ActionMeta; ei_tx : TxInput; ei_bundles : list BundleInput; ei_results : gmap string Value;
  ei_token_decimals : gmap string Z; ei_account_leverage : gmap string Z; ei_order_enrichment : OrderEnrichment }.

(** ** Helpers *)
Definition check_manifest_count (count : nat) (entry : string) : result EngineErrorDto () :=
  if (MAX_POLICY_RPC_V2_MANIFESTS <? count)%nat
  then Err (mkEngineErrorDto "input_too_large"
         (entry +:+ " manifest/bundle count " +:+ pretty count +:+ " exceeds " +:+ pretty MAX_POLICY_RPC_V2_MANIFESTS +:+ " item limit")%string)
  else Ok ().
Definition lower (action : ActionBody) (meta : ActionMeta) (tx : TxInput) (decimals leverage : gmap string Z) (enrichment : OrderEnrichment)
    : result EngineErrorDto LoweredAction :=
  map_err (mkEngineErrorDto "unsupported_action") (lower_action_enriched action meta (ti_from tx) (ti_to tx) decimals leverage enrichment).
Definition tx_view (tx : TxInput) : TxView := mkTxView (ti_chain_id tx) (ti_from tx) (ti_to tx).
Definition plan (manifests : list ManifestV2) (action : ActionBody) (lowered : LoweredAction) (tx : TxInput)
    : result EngineErrorDto (list PlannedCallV2) :=
  map_err (fun e => mkEngineErrorDto "plan_failed" (rpc_error_display e))
    (plan_policy_rpc_v2 manifests (view action) (la_context lowered) (tx_view tx)).
(** The position and trigger gate, and the structural validity of a manifest. *)
Definition manifest_matches (m : ManifestV2) (action : ActionBody) (tx : TxInput) : bool :=
  scope_matches_position (tg_scope (mf_trigger m)) (view action) && evaluate_trigger (mf_trigger m) (view action) (tx_view tx).
Definition is_ok {E A} (r : result E A) : bool := match r with Ok _ => true | _ => false end.
Definition keep_manifest (action : ActionBody) (tx : TxInput) (st : gset string * list ManifestV2) (m : ManifestV2)
    : result EngineErrorDto (gset string * list ManifestV2) :=
  if negb (manifest_matches m action tx) || negb (is_ok (validate_manifest m)) then Ok st
  else if decide (mf_id m ∈ st.1)
  then Err (mkEngineErrorDto "duplicate_manifest_id"
         ("matching policy-rpc manifest id `" +:+ mf_id m +:+ "` appears more than once")%string)
  else Ok ({[mf_id m]} ∪ st.1, st.2 ++ [m]).
Definition matching_valid_manifests (manifests : list ManifestV2) (action : ActionBody) (tx : TxInput)
    : result EngineErrorDto (list ManifestV2) :=
  st ← foldM (keep_manifest action tx) manifests (∅, []); Ok st.2.

(** ** Planning *)
Definition plan_action (input : PlanActionInput) : result EngineErrorDto (list PlannedCallDto) :=
  _ ← check_manifest_count (length (pi_manifests input)) "plan_action_rpc_v2_json";
  lowered ← lower (pi_action input) (pi_meta input) (pi_tx input) (pi_token_decimals input) (pi_account_leverage input) (pi_order_enrichment input);
  manifests ← matching_valid_manifests (pi_manifests input) (pi_action input) (pi_tx input);
  planned ← plan manifests (pi_action input) lowered (pi_tx input);
  Ok (map planned_to_dto planned).

(** ** Evaluation *)
Definition entities_for_tx (tx : TxInput) : Value :=
  VArray [
    VObject [("uid", VObject [("type", VString "Wallet"); ("id", VString (ti_from tx))]);
             ("attrs", VObject [("address", VString (ti_from tx))]); ("parents", VArray [])];
    VObject [("uid", VObject [("type", VString "Protocol"); ("id", VString (ti_to tx))]);
             ("attrs", VObject []); ("parents", VArray [])]]%string.
Definition quarantine_verdict (error : EngineErrorDto) : Verdict :=
  let policy_id := ("__engine::quarantine::" +:+ ee_kind error)%string in
  let reason := if String.eqb (ee_message error) "" then policy_id else ee_message error in
  VWarn [mkMatchedPolicy policy_id (Some reason) Warn OriginAction].
(** The closure run for one bundle: no verdict when it does not apply, an error when it is broken. *)
Definition bundle_outcome (action : ActionBody) (tx : TxInput) (lowered : LoweredAction) (planned : list PlannedCallV2)
    (results : gmap string Value) (bundle : BundleInput) : result EngineErrorDto (option Verdict) :=
  let m := bi_manifest bundle in
  if negb (scope_matches_position (tg_scope (mf_trigger m)) (view action)) then Ok None
  else if negb (evaluate_trigger (mf_trigger m) (view action) (tx_view tx)) then Ok None
  else
    _ ← map_err (fun e => mkEngineErrorDto "invalid_manifest" (rpc_error_display e)) (validate_manifest m);
    let bundle_planned := List.filter (fun call => String.eqb (pc_manifest_id call) (mf_id m)) planned in
    match materialize_v2 (la_context lowered) bundle_planned results with
    | Err error =>
        match system_fail_verdict error with
        | Some verdict => Ok (Some verdict)
        | None => Err (mkEngineErrorDto "projection_failed" (rpc_error_display error))
        end
    | Panic => Panic
    | Ok context =>
        schema ← map_err (mkEngineErrorDto "schema_failed") (compose_per_policy m);
        engine ← map_err (fun e => mkEngineErrorDto "install_failed" (policy_error_display e)) (build_from_per_policy [(bi_policy bundle, schema)]);
        verdict ← map_err (fun e => mkEngineErrorDto "policy" (policy_error_display e))
          (evaluate iter engine (la_principal lowered) (la_action_uid lowered) (la_resource lowered) (entities_for_tx tx) context);
        Ok (Some verdict)
    end.
(** What the bundle pushes on the list of verdicts. *)
Definition bundle_verdict (outcome : result EngineErrorDto (option Verdict)) : result EngineErrorDto (option Verdict) :=
  match outcome with Err error => Ok (Some (quarantine_verdict error)) | r => r end.
Definition evaluate_matching_bundles (bundles : list BundleInput) (action : ActionBody) (tx : TxInput) (lowered : LoweredAction)
    (planned : list PlannedCallV2) (results : gmap string Value) : result EngineErrorDto Verdict :=
  verdicts ← foldM (fun verdicts bundle =>
    verdict ← bundle_verdict (bundle_outcome action tx lowered planned results bundle);
    Ok (verdicts ++ match verdict with Some v => [v] | None => [] end)) bundles [];
  Ok (aggregate verdicts).
Definition evaluate_action (input : EvaluateActionInput) : result EngineErrorDto Verdict :=
  _ ← check_manifest_count (length (ei_bundles input)) "evaluate_action_v2_json";
  lowered ← lower (ei_action input) (ei_meta input) (ei_tx input) (ei_token_decimals input) (ei_account_leverage input) (ei_order_enrichment input);
  manifests ← matching_valid_manifests (map bi_manifest (ei_bundles input)) (ei_action input) (ei_tx input);
  planned ← plan manifests (ei_action input) lowered (ei_tx input);
  evaluate_matching_bundles (ei_bundles input) (ei_action input) (ei_tx input) lowered planned (ei_results input).

(** ** Diagnostics *)
(** A context whose materialization failed keeps the calls written before the failure. *)
Fixpoint materialize_partial (context : Value) (planned : list PlannedCallV2) (results : gmap string Value) : Value :=
  match planned with
  | [] => context
  | call :: rest =>
      match materialize_call results context call with
      | Ok context' => materialize_partial context' rest results
      | _ =>
          match results !! pc_call_id call with
          | Some payload =>
              (fix outputs (context : Value) (l : list ContextProjection) : Value :=
                 match l with
                 | [] => context
                 | o :: l' => match apply_output call payload context o with Ok context' => outputs context' l' | _ => context end
                 end) context (pc_outputs call)
          | None => context
          end
      end
  end.
Definition debug_lowered_context (input : EvaluateActionInput) : result EngineErrorDto Value :=
  _ ← check_manifest_count (length (ei_bundles input)) "debug_lowered_context_v2_json";
  lowered ← lower (ei_action input) (ei_meta input) (ei_tx input) (ei_token_decimals input) (ei_account_leverage input) (ei_order_enrichment input);
  manifests ← matching_valid_manifests (map bi_manifest (ei_bundles input)) (ei_action input) (ei_tx input);
  let context := match plan manifests (ei_action input) lowered (ei_tx input) with
                 | Ok planned => materialize_partial (la_context lowered) planned (ei_results input)
                 | _ => la_context lowered
                 end in
  Ok (VObject [("principal", VString (la_principal lowered)); ("actionUid", VString (la_action_uid lowered));
               ("resource", VString (la_resource lowered)); ("context", context)])%string.
Definition materialized_context (action : ActionBody) (meta : ActionMeta) (tx : TxInput) (bundles : list BundleInput)
    (results : gmap string Value) (decimals leverage : gmap string Z) (enrichment : OrderEnrichment)
    : result EngineErrorDto (LoweredAction * Value) :=
  lowered ← lower action meta tx decimals leverage enrichment;
  manifests ← matching_valid_manifests (map bi_manifest bundles) action tx;
  planned ← plan manifests action lowered tx;
  match materialize_v2 (la_context lowered) planned results with
  | Ok context => Ok (lowered, context)
  | Err error =>
      match system_fail_verdict error with
      | Some _ => Err (mkEngineErrorDto "system_fail" (rpc_error_display error))
      | None => Err (mkEngineErrorDto "projection_failed" (rpc_error_display error))
      end
  | Panic => Panic
  end.

(** ** Planning picks the matching, valid manifests *)
Definition kept (action : ActionBody) (tx : TxInput) (m : ManifestV2) : bool := manifest_matches m action tx && is_ok (validate_manifest m).
Lemma keep_all action tx ms : forall seen out st,
  foldM (keep_manifest action tx) ms (seen, out) = Ok st <->
  let ks := List.filter (kept action tx) ms in
  NoDup (mf_id <$> ks) /\ (forall m, m ∈ ks -> mf_id m ∉ seen) /\ st = (list_to_set (mf_id <$> ks) ∪ seen, out ++ ks).
Proof.
  induction ms as [|m ms IH]; intros seen out st; cbn [foldM].
  { simpl. rewrite app_nil_r, (left_id_L ∅ (∪)). split; [intros [= <-]; split; [constructor|]; split; [set_solver|done]|]. by intros (_ & _ & ->). }
  assert (keep_manifest action tx (seen, out) m = if kept action tx m
    then (if decide (mf_id m ∈ seen) then Err (mkEngineErrorDto "duplicate_manifest_id"
            ("matching policy-rpc manifest id `" +:+ mf_id m +:+ "` appears more than once")%string)
          else Ok ({[mf_id m]} ∪ seen, out ++ [m])) else Ok (seen, out)) as ->.
  { unfold keep_manifest, kept. by destruct (manifest_matches m action tx), (is_ok (validate_manifest m)). }
  simpl. destruct (kept action tx m); simpl; [|apply IH].
  rewrite NoDup_cons. case_decide as Hd; simpl.
  - split; [done|]. intros (_ & Hs & _). destruct (Hs m); [left|done].
  - rewrite IH. cbv zeta. rewrite <- app_assoc. simpl. split.
    + intros (Hn & Hs & ->). split; [split; [|done]|].
      * rewrite list_elem_of_fmap. intros (k & He & Hk). apply (Hs k Hk). set_solver.
      * split; [|f_equal; set_solver]. intros k [->|Hk]%elem_of_cons; [done|]. specialize (Hs k Hk). set_solver.
    + intros ((Hm & Hn) & Hs & ->). split; [done|]. split; [|f_equal; set_solver]. intros k Hk.
      assert (mf_id k ∉ seen) by (apply Hs; by right). rewrite list_elem_of_fmap in Hm.
      assert (mf_id k <> mf_id m); [|set_solver]. intros He. apply Hm. by exists k.
Qed.
Lemma matching_spec ms action tx ks : matching_valid_manifests ms action tx = Ok ks <->
  ks = List.filter (kept action tx) ms /\ NoDup (mf_id <$> ks).
Proof.
  unfold matching_valid_manifests. split.
  - intros (st & Hst & [= <-])%bind_Ok_inv. apply keep_all in Hst as (Hn & _ & ->). done.
  - intros [-> Hn]. assert (foldM (keep_manifest action tx) ms (∅, []) = Ok (list_to_set (mf_id <$> List.filter (kept action tx) ms) ∪ ∅, List.filter (kept action tx) ms)) as ->.
    { apply keep_all. split; [done|]. split; [set_solver|done]. }
    done.
Qed.
Lemma calls_of_id ctx tx m call : call ∈ calls_of ctx tx m -> pc_manifest_id call = mf_id m.
Proof. unfold calls_of. rewrite list_elem_of_omap. intros (s & _ & Hs). destruct (resolved ctx tx s); [|done]. by injection Hs as <-. Qed.
Lemma filter_id (id : string) (calls : list PlannedCallV2) :
  (forall c, c ∈ calls -> pc_manifest_id c = id) -> List.filter (fun c => String.eqb (pc_manifest_id c) id) calls = calls.
Proof.
  induction calls as [|c calls IH]; intros H; [done|]. simpl. rewrite (H c), String.eqb_refl by left. f_equal. apply IH. intros x Hx. apply H. by right.
Qed.
Lemma filter_not_id (id : string) (calls : list PlannedCallV2) :
  (forall c, c ∈ calls -> pc_manifest_id c <> id) -> List.filter (fun c => String.eqb (pc_manifest_id c) id) calls = [].
Proof.
  induction calls as [|c calls IH]; intros H; [done|]. simpl. destruct (String.eqb_spec (pc_manifest_id c) id) as [He|]; [by destruct (H c); [left|]|].
  apply IH. intros x Hx. apply H. by right.
Qed.
Lemma own_calls ctx tx ks m : NoDup (mf_id <$> ks) -> m ∈ ks ->
  List.filter (fun c => String.eqb (pc_manifest_id c) (mf_id m)) (k ← ks; calls_of ctx tx k) = calls_of ctx tx m.
Proof.
  induction ks as [|k ks IH]; [by intros _ ?%elem_of_nil|]. rewrite fmap_cons, NoDup_cons. intros [Hk Hn] [->|Hm]%elem_of_cons; rewrite bind_cons, List.filter_app.
  - rewrite filter_id by apply calls_of_id. rewrite filter_not_id; [apply app_nil_r|].
    intros c (k' & Hc & Hk')%list_elem_of_bind. rewrite (calls_of_id _ _ _ _ Hc). intros He. apply Hk, list_elem_of_fmap. by exists k'.
  - rewrite filter_not_id; [by apply IH|]. intros c Hc. rewrite (calls_of_id _ _ _ _ Hc). intros He. apply Hk, list_elem_of_fmap. by exists m.
Qed.

(** ** Bundles do not interfere *)
Lemma aggregate_aggregate (vss : list (list Verdict)) : aggregate (aggregate <$> vss) = aggregate (concat vss).
Proof.
  rewrite !aggregate_eq.
  assert (existsb is_failure (aggregate <$> vss) = existsb is_failure (concat vss)) as ->.
  { induction vss as [|vs vss IH]; [done|]. rewrite fmap_cons. simpl. by rewrite existsb_app, aggregate_failure, IH. }
  assert (forallb passes (aggregate <$> vss) = forallb passes (concat vss)) as ->.
  { induction vss as [|vs vss IH]; [done|]. rewrite fmap_cons. simpl. by rewrite forallb_app, aggregate_passes, IH. }
  assert (concat (matched <$> (aggregate <$> vss)) = concat (matched <$> concat vss)) as ->; [|done].
  induction vss as [|vs vss IH]; [done|]. rewrite !fmap_cons. simpl. by rewrite aggregate_matched, IH, fmap_app, concat_app.
Qed.
Definition pushed (v : option Verdict) : list Verdict := match v with Some v => [v] | None => [] end.
Lemma collect_spec (f : BundleInput -> result EngineErrorDto (option Verdict)) bundles : forall acc vs,
  foldM (fun verdicts bundle => verdict ← f bundle; Ok (verdicts ++ match verdict with Some v => [v] | None => [] end)) bundles acc = Ok vs ->
  exists os, Forall2 (fun b o => f b = Ok o) bundles os /\ vs = acc ++ concat (pushed <$> os).
Proof.
  induction bundles as [|b bundles IH]; intros acc vs; cbn [foldM]; [intros [= <-]; exists []; split; [constructor|by rewrite app_nil_r]|].
  intros (acc' & (o & Ho & [= <-])%bind_Ok_inv & H)%bind_Ok_inv. destruct (IH _ _ H) as (os & Hos & ->).
  exists (o :: os). split; [by constructor|]. rewrite fmap_cons. simpl. by rewrite <- app_assoc.
Qed.
Definition with_bundles (input : EvaluateActionInput) (bundles : list BundleInput) : EvaluateActionInput :=
  mkEvaluateActionInput (ei_action input) (ei_meta input) (ei_tx input) bundles (ei_results input)
    (ei_token_decimals input) (ei_account_leverage input) (ei_order_enrichment input).
Definition lower_input (input : EvaluateActionInput) : result EngineErrorDto LoweredAction :=
  lower (ei_action input) (ei_meta input) (ei_tx input) (ei_token_decimals input) (ei_account_leverage input) (ei_order_enrichment input).
(** A successful evaluation, taken apart: the plan covers the calls of the kept manifests. *)
Lemma evaluate_action_inv input v : evaluate_action input = Ok v ->
  exists lowered os,
    let ks := List.filter (kept (ei_action input) (ei_tx input)) (map bi_manifest (ei_bundles input)) in
    let planned := k ← ks; calls_of (la_context lowered) (tx_view (ei_tx input)) k in
    lower_input input = Ok lowered /\ NoDup (mf_id <$> ks) /\ (length planned <= 64)%nat /\
    Forall (plannable (la_context lowered) (tx_view (ei_tx input))) ks /\
    Forall2 (fun b o => bundle_verdict (bundle_outcome (ei_action input) (ei_tx input) lowered planned (ei_results input) b) = Ok o) (ei_bundles input) os /\
    v = aggregate (concat (pushed <$> os)).
Proof.
  unfold evaluate_action. intros (? & _ & H)%bind_Ok_inv. apply bind_Ok_inv in H as (lowered & Hl & H).
  apply bind_Ok_inv in H as (ks & (-> & Hn)%matching_spec & H). apply bind_Ok_inv in H as (planned & Hp%map_err_Ok & H).
  unfold evaluate_matching_bundles in H. apply bind_Ok_inv in H as (vs & Hvs & [= <-]). apply collect_spec in Hvs as (os & Hos & ->).
  apply plan_exact in Hp as (_ & Hlen & Hall & Hpl).
  assert (forall ms, List.filter (applies (view (ei_action input)) (tx_view (ei_tx input))) (List.filter (kept (ei_action input) (ei_tx input)) ms)
    = List.filter (kept (ei_action input) (ei_tx input)) ms) as Hf.
  { intros ms. induction ms as [|m ms IH]; [done|]. simpl. destruct (kept _ _ m) eqn:Hk; [|done]. simpl.
    unfold kept in Hk. apply andb_true_iff in Hk as [Hk _]. unfold manifest_matches in Hk. unfold applies at 1. rewrite Hk. by rewrite IH. }
  rewrite Hf in Hpl. subst planned. exists lowered, os. cbv zeta. split; [done|]. split; [done|]. split; [done|]. split; [|done].
  rewrite Forall_forall in *. intros m Hm. apply Hall; [done|]. apply list_elem_of_In, filter_In in Hm as [_ Hk].
  by apply andb_true_iff in Hk as [Hk _].
Qed.
Lemma kept_cases action tx lowered planned results b :
  bundle_outcome action tx lowered planned results b =
  bundle_outcome action tx lowered (if kept action tx (bi_manifest b) then List.filter (fun c => String.eqb (pc_manifest_id c) (mf_id (bi_manifest b))) planned else []) results b.
Proof.
  unfold bundle_outcome, kept, manifest_matches. destruct (scope_matches_position _ _); [|done]. destruct (evaluate_trigger _ _ _); [|done]. simpl.
  destruct (validate_manifest (bi_manifest b)); [|done..]. simpl.
  assert (forall l, List.filter (fun c => String.eqb (pc_manifest_id c) (mf_id (bi_manifest b))) (List.filter (fun c => String.eqb (pc_manifest_id c) (mf_id (bi_manifest b))) l)
    = List.filter (fun c => String.eqb (pc_manifest_id c) (mf_id (bi_manifest b))) l) as ->; [|done].
  intros l. induction l as [|c l IH]; [done|]. simpl. destruct (String.eqb _ _) eqn:He; [|done]. simpl. by rewrite He, IH.
Qed.
Lemma bind_part {A B} (f : A -> list B) (l : list A) x : x ∈ l -> (length (f x) <= length (l ≫= f))%nat.
Proof.
  induction l as [|y l IH]; [by intros ?%elem_of_nil|]. rewrite bind_cons, length_app. intros [->|H]%elem_of_cons; [lia|]. specialize (IH H). lia.
Qed.
Lemma evaluate_alone input lowered b o :
  let action := ei_action input in let tx := ei_tx input in
  let ks := List.filter (kept action tx) (map bi_manifest (ei_bundles input)) in
  let planned := k ← ks; calls_of (la_context lowered) (tx_view tx) k in
  lower_input input = Ok lowered -> NoDup (mf_id <$> ks) -> (length planned <= 64)%nat ->
  Forall (plannable (la_context lowered) (tx_view tx)) ks -> b ∈ ei_bundles input ->
  bundle_verdict (bundle_outcome action tx lowered planned (ei_results input) b) = Ok o ->
  evaluate_action (with_bundles input [b]) = Ok (aggregate (pushed o)).
Proof.
  intros action tx ks planned Hl Hn Hlen Hall Hb Ho. set (m := bi_manifest b) in *.
  assert (kept action tx m = true -> m ∈ ks) as Hm.
  { intros Hk. apply list_elem_of_In, filter_In. split; [|done]. apply in_map. by apply list_elem_of_In. }
  set (mine := List.filter (kept action tx) [m]). set (calls := k ← mine; calls_of (la_context lowered) (tx_view tx) k).
  assert (matching_valid_manifests [m] action tx = Ok mine) as Hmatch.
  { apply matching_spec. split; [done|]. subst mine. simpl. destruct (kept action tx m); [apply NoDup_singleton|constructor]. }
  assert (plan mine action lowered tx = Ok calls) as Hplan.
  { unfold plan. assert (plan_policy_rpc_v2 mine (view action) (la_context lowered) (tx_view tx) = Ok calls) as ->; [|done].
    apply plan_exact. subst calls mine. simpl. destruct (kept action tx m) eqn:Hk; simpl.
    - specialize (Hm eq_refl). rewrite app_nil_r. split; [lia|]. split.
      + etrans; [apply (bind_part (calls_of (la_context lowered) (tx_view tx)) _ _ Hm)|done].
      + unfold kept in Hk. apply andb_true_iff in Hk as [Hk _]. unfold manifest_matches in Hk. unfold applies. rewrite Hk. simpl. rewrite app_nil_r.
        split; [|done]. apply Forall_singleton. intros _. rewrite Forall_forall in Hall. by apply Hall.
    - split; [lia|]. split; [lia|]. split; [constructor|done]. }
  unfold evaluate_action. cbn [with_bundles ei_bundles ei_action ei_meta ei_tx ei_results ei_token_decimals ei_account_leverage ei_order_enrichment].
  unfold lower_input in Hl. unfold check_manifest_count. cbn [length map]. rewrite Hl. simpl. fold action tx m. rewrite Hmatch. simpl. rewrite Hplan. simpl.
  unfold evaluate_matching_bundles. cbn [foldM]. rewrite (kept_cases _ _ _ calls). rewrite (kept_cases _ _ _ planned) in Ho. fold m in Ho |- *.
  assert ((if kept action tx m then List.filter (fun c => String.eqb (pc_manifest_id c) (mf_id m)) calls else []) =
          (if kept action tx m then List.filter (fun c => String.eqb (pc_manifest_id c) (mf_id m)) planned else [])) as ->.
  { destruct (kept action tx m) eqn:Hk; [|done]. specialize (Hm eq_refl). unfold planned. rewrite own_calls by done.
    unfold calls, mine. simpl. rewrite Hk. simpl. rewrite app_nil_r. apply filter_id, calls_of_id. }
  rewrite Ho. done.
Qed.

(** C14: Bundles do not interfere. The verdict of a set of bundles is the deny-overrides combination
    of the verdicts each bundle gets when it is evaluated alone on the same action and results:
    a broken bundle, or one that does not apply, changes nothing for the others. *)
Theorem evaluation_isolated input v : evaluate_action input = Ok v ->
  exists vs, Forall2 (fun b vb => evaluate_action (with_bundles input [b]) = Ok vb) (ei_bundles input) vs /\ v = aggregate vs.
Proof.
  intros (lowered & os & Hl & Hn & Hlen & Hall & Hos & ->)%evaluate_action_inv. cbv zeta in *.
  exists ((fun o => aggregate (pushed o)) <$> os). split.
  - apply Forall2_fmap_r. apply Forall2_same_length_lookup in Hos as [Hlo Hos]. apply Forall2_same_length_lookup. split; [done|].
    intros i b o Hb Ho. eapply evaluate_alone; try done; [by eapply list_elem_of_lookup_2|]. by eapply Hos.
  - by rewrite <- aggregate_aggregate, <- list_fmap_compose.
Qed.

(** ** Missing facts fail closed *)
(** What materialization relies on: every lowering builds an object and leaves [custom] out. *)
Class LoweringLaws := {
  lowered_context_open action meta from to decimals leverage enrichment lowered :
    lower_action_enriched action meta from to decimals leverage enrichment = Ok lowered ->
    exists fs, la_context lowered = VObject fs /\ obj_get fs "custom" = None;
}.
(** A context that custom fields can be written to. *)
Definition writable (context : Value) : Prop :=
  exists fs, context = VObject fs /\ (obj_get fs "custom" = None \/ exists custom, obj_get fs "custom" = Some (VObject custom)).
Lemma insert_writable context field value : writable context -> custom_field context field = None ->
  exists context', insert_custom_field context field value = Ok context' /\ writable context'.
Proof.
  intros (fs & -> & Hc). unfold custom_field, insert_custom_field. cbn [value_get]. destruct Hc as [Hc|[custom Hc]]; rewrite Hc; simpl.
  - intros _. eexists. split; [done|]. eexists. split; [done|]. right. rewrite obj_get_insert. by eexists.
  - intros ->. eexists. split; [done|]. eexists. split; [done|]. right. rewrite obj_get_insert. by eexists.
Qed.
Definition output_fields (call : PlannedCallV2) : list string := cp_field <$> pc_outputs call.
Lemma outputs_err call payload outputs : forall context,
  writable context -> Forall (fun o => cp_kind o = "context"%string) outputs -> NoDup (cp_field <$> outputs) ->
  Forall (fun o => custom_field context (cp_field o) = None) outputs ->
  match foldM (apply_output call payload) outputs context with
  | Ok context' => writable context' /\ forall k, k ∉ cp_field <$> outputs -> custom_field context' k = custom_field context k
  | Err e => exists reason, e = SystemFail (pc_call_id call) reason
  | Panic => True
  end.
Proof.
  induction outputs as [|o outputs IH]; intros context Hw Hk Hn Hf; cbn [foldM]; [done|].
  rewrite Forall_cons in Hk. destruct Hk as [Hk Hks]. rewrite fmap_cons, NoDup_cons in Hn. destruct Hn as [Hno Hn].
  rewrite Forall_cons in Hf. destruct Hf as [Hfo Hf]. unfold apply_output at 2. rewrite Hk. simpl.
  destruct (project payload o) as [v|e|] eqn:Hp; simpl; [|destruct (pc_optional call); simpl; [|by eexists]|done].
  - destruct (insert_writable context (cp_field o) v Hw Hfo) as (c1 & Hi & Hw1). rewrite Hi. simpl.
    pose proof (insert_custom_spec _ _ _ _ Hi) as (_ & _ & Hother & _).
    assert (Forall (fun o' => custom_field c1 (cp_field o') = None) outputs) as Hf1.
    { rewrite Forall_forall in *. intros o' Ho'. rewrite Hother; [by apply Hf|]. intros He. apply Hno. rewrite list_elem_of_fmap. by exists o'. }
    specialize (IH c1 Hw1 Hks Hn Hf1). destruct (foldM _ outputs c1) as [c2|e|]; [|done..]. destruct IH as [Hw2 Hsame]. split; [done|].
    intros k Hk'. rewrite not_elem_of_cons in Hk'. destruct Hk' as [Hk1 Hk2]. rewrite Hsame by done. by apply Hother.
  - specialize (IH context Hw Hks Hn Hf). destruct (foldM _ outputs context) as [c2|e'|]; [|done..]. destruct IH as [Hw2 Hsame]. split; [done|].
    intros k Hk'. rewrite not_elem_of_cons in Hk'. destruct Hk' as [_ Hk2]. by apply Hsame.
Qed.
Lemma materialize_err results calls : forall context e,
  writable context -> Forall (fun c => Forall (fun o => cp_kind o = "context"%string) (pc_outputs c)) calls -> NoDup (calls ≫= output_fields) ->
  (forall k, k ∈ calls ≫= output_fields -> custom_field context k = None) ->
  materialize_v2 context calls results = Err e -> exists call_id reason, e = SystemFail call_id reason.
Proof.
  unfold materialize_v2. induction calls as [|call calls IH]; intros context e Hw Hk Hn Hf; cbn [foldM]; [done|].
  rewrite bind_cons in Hn, Hf. apply NoDup_app in Hn as (Hn1 & Hdis & Hn2). rewrite Forall_cons in Hk. destruct Hk as [Hk Hks].
  unfold materialize_call at 2. destruct (results !! pc_call_id call) as [payload|].
  - assert (Forall (fun o => custom_field context (cp_field o) = None) (pc_outputs call)) as Hfo.
    { rewrite Forall_forall. intros o Ho. apply Hf, elem_of_app. left. apply list_elem_of_fmap. by exists o. }
    pose proof (outputs_err call payload (pc_outputs call) context Hw Hk Hn1 Hfo) as Ho.
    destruct (foldM (apply_output call payload) (pc_outputs call) context) as [c1|e1|]; simpl; [|intros [= <-]; destruct Ho as [r ->]; by do 2 eexists|done].
    destruct Ho as [Hw1 Hsame]. apply IH; try done. intros k Hin. rewrite Hsame; [apply Hf, elem_of_app; by right|]. intros Hx. by apply (Hdis k).
  - destruct (pc_optional call); simpl; [|intros [= <-]; by do 2 eexists]. apply IH; try done. intros k Hin. apply Hf, elem_of_app. by right.
Qed.
Lemma calls_fields_sublist ctx tx m : (calls_of ctx tx m ≫= output_fields) `sublist_of` produced_fields m.
Proof.
  unfold calls_of, produced_fields. induction (mf_policy_rpc m) as [|s l IH]; [constructor|]. cbn [omap list_omap]. rewrite bind_cons.
  destruct (resolved ctx tx s) as [ps|]; simpl; [by apply sublist_app|by apply sublist_inserts_l].
Qed.
Lemma calls_of_kinds ctx tx m : Forall (fun s => Forall (fun o => cp_kind o = "context"%string) (cs_outputs s)) (mf_policy_rpc m) ->
  Forall (fun c => Forall (fun o => cp_kind o = "context"%string) (pc_outputs c)) (calls_of ctx tx m).
Proof.
  rewrite !Forall_forall. intros H c (s & Hs & Hc)%list_elem_of_omap. destruct (resolved ctx tx s); [|done]. injection Hc as <-. by apply H.
Qed.
Lemma pushed_failure (os : list (option Verdict)) o v : o ∈ os -> o = Some v -> is_failure v = true -> is_failure (aggregate (concat (pushed <$> os))) = true.
Proof.
  intros Ho -> Hv. rewrite aggregate_failure, existsb_exists. exists v. split; [|done]. apply in_concat.
  exists [v]. split; [|by left]. apply list_elem_of_In, list_elem_of_fmap. by exists (Some v).
Qed.

(** Missing facts fail closed. If a set of bundles is not judged a failure, then for every bundle
    that applies to the action, with a valid manifest that projects into the context, the host
    supplied a result for each required call, and each of its outputs could be selected and
    coerced to its declared type. *)
Theorem unfailed_verdict_has_facts {L1 : LoweringLaws} input v lowered b call :
  evaluate_action input = Ok v -> is_failure v = false -> lower_input input = Ok lowered ->
  b ∈ ei_bundles input -> manifest_matches (bi_manifest b) (ei_action input) (ei_tx input) = true -> validate_manifest (bi_manifest b) = Ok () ->
  Forall (fun s => Forall (fun o => cp_kind o = "context"%string) (cs_outputs s)) (mf_policy_rpc (bi_manifest b)) ->
  call ∈ calls_of (la_context lowered) (tx_view (ei_tx input)) (bi_manifest b) -> pc_optional call = false ->
  exists payload, ei_results input !! pc_call_id call = Some payload /\ Forall (fun o => exists w, project payload o = Ok w) (pc_outputs call).
Proof.
  intros (lowered' & os & Hl' & Hn & _ & _ & Hos & ->)%evaluate_action_inv Hv Hl Hb Hm Hval Hkind Hcall Hopt. cbv zeta in *.
  rewrite Hl' in Hl. injection Hl as ->. set (m := bi_manifest b) in *.
  assert (kept (ei_action input) (ei_tx input) m = true) as Hk by (unfold kept; by rewrite Hm, Hval).
  assert (m ∈ List.filter (kept (ei_action input) (ei_tx input)) (map bi_manifest (ei_bundles input))) as Hin.
  { apply list_elem_of_In, filter_In. split; [apply in_map; by apply list_elem_of_In|done]. }
  apply list_elem_of_lookup in Hb as [i Hi]. destruct (Forall2_lookup_l _ _ _ _ _ Hos Hi) as (o & Hoi & Ho).
  apply list_elem_of_lookup_2 in Hoi. unfold bundle_outcome in Ho. fold m in Ho.
  unfold manifest_matches in Hm. apply andb_true_iff in Hm as [Hs Ht]. rewrite Hs, Ht in Ho. simpl in Ho. rewrite Hval in Ho. simpl in Ho.
  rewrite own_calls in Ho by done. unfold lower_input, lower in Hl'. apply map_err_Ok in Hl'. apply lowered_context_open in Hl' as (fs & Hfs & Hc).
  set (calls := calls_of (la_context lowered) (tx_view (ei_tx input)) m) in *.
  destruct (materialize_v2 (la_context lowered) calls (ei_results input)) as [context|e|] eqn:Hmat; [| |done].
  - apply materialize_spec in Hmat as (_ & Hd & _). rewrite Forall_forall in Hd. specialize (Hd call Hcall). unfold call_done in Hd.
    destruct (_ !! pc_call_id call) as [payload|]; [|congruence]. exists payload. split; [done|].
    eapply Forall_impl; [exact Hd|]. intros x [_ Hx]. destruct (project payload x) as [w|?|]; [by exists w|congruence..].
  - exfalso. apply materialize_err in Hmat as (id & reason & ->).
    + simpl in Ho. injection Ho as <-. erewrite pushed_failure in Hv; [done|exact Hoi|done|done].
    + exists fs. split; [done|]. by left.
    + by apply calls_of_kinds.
    + eapply sublist_NoDup; [|apply calls_fields_sublist]. apply va_produced. by apply valid_by_check.
    + intros k _. rewrite Hfs. unfold custom_field. cbn [value_get]. by rewrite Hc.
Qed.
End Runtime.

(** ** A small runtime
    Contexts are empty objects; a policy is one character ([MiniCedar]). *)
#[global] Instance mini_tools : PolicyTools MiniCedar.cedar := {|
  ps_templates _ := []; pol_to_json _ := Ok VNull; manifest_from_value _ := Err "unused"%string; compose_per_policy _ := Ok ""%string |}.
#[global] Instance mini_lowering : Lowering := {|
  OrderEnrichment := (); default_enrichment := ();
  lower_action_enriched _ _ _ _ _ _ _ := Ok (mkLoweredAction "Wallet::me" "Action::call" "Protocol::it" (VObject [])) |}%string.
#[global] Instance mini_lowering_laws : LoweringLaws.
Proof. split. intros. injection H as <-. by eexists. Defined.
Definition demo_bundle_input (policy id : string) (scope : TriggerScope) : BundleInput :=
  mkBundleInput policy (mkManifestV2 id 2 (mkTrigger scope []) [demo_spec "call" "oracle.price" "price"] {["price" := "String"]})%string.
(** A warning, a policy that does not parse, one for batches only, and a denial. *)
Definition demo_input (bundles : list BundleInput) : EvaluateActionInput :=
  mkEvaluateActionInput (UnknownCall demo_addr demo_chain "0x" 0) Apply.demo_meta (tx_new "eip155:1" "0xAA" "0xbb")
    bundles {["a::call" := VObject [("value", VString "1")]; "b::call" := VObject [("value", VString "2")]; "d::call" := VObject [("value", VString "3")]]}
    ∅ ∅ ()%string.
Definition demo_bundles : list BundleInput :=
  [demo_bundle_input "w" "a" Inner; demo_bundle_input "?" "b" Inner; demo_bundle_input "d" "c" Outer; demo_bundle_input "d" "d" Inner]%string.
Lemma evaluation_isolated_witness : exists v vs,
  evaluate_action (T0 := mini_tools) elements (demo_input demo_bundles) = Ok v /\
  Forall2 (fun b vb => evaluate_action (T0 := mini_tools) elements (demo_input [b]) = Ok vb) demo_bundles vs /\ v = aggregate vs /\ is_failure v = true.
Proof.
  destruct (evaluate_action (T0 := mini_tools) elements (demo_input demo_bundles)) as [v|e|] eqn:H; [|by vm_compute in H..].
  destruct (evaluation_isolated (T0 := mini_tools) elements (demo_input demo_bundles) v H) as (vs & Hvs & Hv).
  exists v, vs. split; [done|]. split; [exact Hvs|]. split; [exact Hv|]. vm_compute in H. by injection H as <-.
Defined.
Lemma unfailed_verdict_has_facts_witness : exists v lowered call payload,
  evaluate_action (T0 := mini_tools) elements (demo_input (take 3 demo_bundles)) = Ok v /\ lower_input (demo_input (take 3 demo_bundles)) = Ok lowered /\
  calls_of (la_context lowered) (tx_view (ei_tx (demo_input []))) (bi_manifest (demo_bundle_input "w" "a" Inner)) = [call] /\
  ei_results (demo_input []) !! pc_call_id call = Some payload /\ Forall (fun o => exists w, project payload o = Ok w) (pc_outputs call).
Proof.
  destruct (evaluate_action (T0 := mini_tools) elements (demo_input (take 3 demo_bundles))) as [v|e|] eqn:H; [|by vm_compute in H..].
  destruct (lower_input (demo_input (take 3 demo_bundles))) as [lowered|e|] eqn:Hl; [|by vm_compute in Hl..].
  assert (exists call, calls_of (la_context lowered) (tx_view (ei_tx (demo_input []))) (bi_manifest (demo_bundle_input "w" "a" Inner)) = [call] /\ pc_optional call = false)
    as (call & Hc & Ho) by (vm_compute in Hl; injection Hl as <-; eexists; split; [vm_compute; reflexivity|done]).
  assert (is_failure v = false) as Hv by (vm_compute in H; by injection H as <-).
  destruct (unfailed_verdict_has_facts (T0 := mini_tools) elements (demo_input (take 3 demo_bundles)) v lowered (demo_bundle_input "w" "a" Inner) call H Hv Hl) as (payload & Hp & Hf).
  - left.
  - reflexivity.
  - reflexivity.
  - repeat constructor.
  - change (ei_tx (demo_input (take 3 demo_bundles))) with (ei_tx (demo_input [])). rewrite Hc. left.
  - exact Ho.
  - exists v, lowered, call, payload. split; [done|]. split; [done|]. split; [done|]. split; [exact Hp|exact Hf].
Defined.
End PolicyRuntime.
