(* ===== verification/SessionInput.v ===== *)
(** * What a session is given (dambi-core/src/session: config.rs, request.rs, facts.rs)

    The configuration and its limits, the signed policy wrapper, the decoding of a
    request into actions and the provenance checks on one fact. The strict JSON
    reader and the derived deserializers, the canonical form of a request and its
    digest, and the decoder registry are parameters. *)
From Stdlib Require Import Ascii.
From stdpp Require Import base tactics numbers list strings gmap pretty.
From S2P Require Import Prelude Types Apply Bytes SyncLive PolicyEngine PolicyRpc BundleFormat BundleTrust SnapshotStore.
Import SyncLive.

Module SessionInput.
Import PolicyEngine PolicyRpc BundleFormat BundleTrust SnapshotStore.

(** ** Errors *)
Record SessionError := mkSessionError { er_code : string; er_message : string }.
Definition snapshot_code (k : SnapshotErrorKind) : string :=
  match k with
  | SkInvalidConfig => "INVALID_CONFIG"
  | SkInvalidPolicyBundle => "INVALID_POLICY_BUNDLE"
  | SkInvalidSignature => "INVALID_SIGNATURE"
  | SkUnsupportedRegistryRef => "UNSUPPORTED_REGISTRY_REF"
  | SkPolicyScopeMismatch => "POLICY_SCOPE_MISMATCH"
  | SkPolicyExpired => "POLICY_EXPIRED"
  | SkPolicySequenceRejected => "POLICY_SEQUENCE_REJECTED"
  | SkInvalidDecoderSnapshot => "INVALID_DECODER_SNAPSHOT"
  | SkDecoderIntegrityMismatch => "DECODER_INTEGRITY_MISMATCH"
  | SkLimitExceeded => "LIMIT_EXCEEDED"
  | SkDisposed => "DISPOSED"
  | SkAborted => "ABORTED"
  end%string.
Definition of_snapshot_error (e : SnapshotError) : SessionError := mkSessionError (snapshot_code (sk_kind e)) (sk_message e).
Definition clock (now_ms : Z) : result SessionError () :=
  if MAX_SAFE_INTEGER <? now_ms
  then Err (mkSessionError "INVALID_CONFIG" "clock must return a nonnegative safe integer in milliseconds") else Ok ().
Definition parse_json {J : StrictJson} (input code : string) : result SessionError Value :=
  map_err (fun e => mkSessionError code (pe_path e +:+ ": " +:+ pe_message e)%string) (strict_parse input).
Definition byte_len (s : string) : Z := Z.of_nat (String.length s).
(** [u64::saturating_mul], [u64::saturating_add]. *)
Definition sat_mul (a b : Z) : Z := Z.min (a * b) U64_MAX.
Definition sat_add (a b : Z) : Z := Z.min (a + b) U64_MAX.

(** ** Configuration (config.rs) *)
Record SessionLimits := mkSessionLimits {
  li_max_bundle_age_sec : option Z; li_allowed_clock_skew_ms : Z; li_max_policy_bytes : Z; li_max_decoder_bytes : Z;
  li_max_request_bytes : Z; li_max_fact_bytes : Z; li_max_plan_calls : Z; li_plan_ttl_ms : Z; li_max_pending_plans : Z;
  li_max_fact_age_ms : Z; li_fact_timeout_ms : Z; li_policy_timeout_ms : Z }.
Record TrustKey := mkTrustKey { ky_key_id : string; ky_role : string; ky_public_key_spki_base64 : string }.
Record Trust := mkTrust { tr_env : string; tr_profile : string; tr_keys : list TrustKey }.
Record DecoderPin := mkDecoderPin { dp_artifact : string; dp_expected_digest : string }.
Record PolicyWrapper := mkPolicyWrapper { pw_payload : string; pw_signature : string; pw_key_id : option string }.
Definition limit_values (l : SessionLimits) : list (string * Z) :=
  [("maxPolicyBytes", li_max_policy_bytes l); ("maxDecoderBytes", li_max_decoder_bytes l); ("maxRequestBytes", li_max_request_bytes l);
   ("maxFactBytes", li_max_fact_bytes l); ("maxPlanCalls", li_max_plan_calls l); ("planTtlMs", li_plan_ttl_ms l);
   ("maxPendingPlans", li_max_pending_plans l); ("maxFactAgeMs", li_max_fact_age_ms l); ("factTimeoutMs", li_fact_timeout_ms l);
   ("policyTimeoutMs", li_policy_timeout_ms l)]%string.
Definition check_positive (nv : string * Z) : result SessionError () :=
  if (nv.2 =? 0) || (MAX_SAFE_INTEGER <? nv.2)
  then Err (mkSessionError "INVALID_CONFIG" (nv.1 +:+ " must be a positive safe integer")%string) else Ok ().
Definition limits_validate (l : SessionLimits) : result SessionError () :=
  _ ← foldM (fun _ nv => check_positive nv) (limit_values l) ();
  if (MAX_SAFE_INTEGER <? li_allowed_clock_skew_ms l)
     || match li_max_bundle_age_sec l with Some age => (age =? 0) || (MAX_SAFE_INTEGER <? age) | None => false end
  then Err (mkSessionError "INVALID_CONFIG" "invalid policy age or clock skew") else Ok ().

(** The scam part of a configuration: its type and its own checks are the scam module's. *)
Class ScamSettings := {
  ScamConfig : Type;
  scam_validate : ScamConfig -> result SessionError ();
  scam_validate_separate_keys : ScamConfig -> list VerificationKey -> result SessionError ();
}.
Section Config.
Context {J : StrictJson} {S0 : ScamSettings}.
(** The width of [usize]. *)
Context (w : Z).
Record Config := mkConfig {
  co_decoder_snapshot : DecoderPin; co_trust : Trust; co_limits : SessionLimits; co_enforcement : string; co_scam : option ScamConfig }.
(** The derived deserializers. *)
Context (config_from_value : Value -> result string Config) (wrapper_from_value : Value -> result string PolicyWrapper).

Definition key_of (k : TrustKey) : result SessionError VerificationKey :=
  if String.eqb (ky_role k) "policy" then Ok (mkVerificationKey (ky_key_id k) RolePolicy (ky_public_key_spki_base64 k))
  else if String.eqb (ky_role k) "decoder" then Ok (mkVerificationKey (ky_key_id k) RoleDecoder (ky_public_key_spki_base64 k))
  else Err (mkSessionError "INVALID_CONFIG" "unknown verification key role").
Definition store_config (c : Config) : result SessionError SnapshotStoreConfig :=
  keys ← foldM (fun ks k => vk ← key_of k; Ok (ks ++ [vk])) (tr_keys (co_trust c)) [];
  let l := co_limits c in
  Ok (mkSnapshotStoreConfig keys
        (mkPolicyValidationConfig (tr_env (co_trust c)) (tr_profile (co_trust c)) (li_max_bundle_age_sec l) (li_allowed_clock_skew_ms l))
        (Z.min (li_max_policy_bytes l) (2 ^ w - 1)) (Z.min (li_max_decoder_bytes l) (2 ^ w - 1))).
Definition is_null_at (v : option Value) : bool := match v with Some VNull => true | _ => false end.
Definition config_parse (input : string) : result SessionError Config :=
  value ← parse_json input "INVALID_CONFIG";
  if is_null_at (value_get value "scam") then Err (mkSessionError "INVALID_CONFIG" "scam cannot be null")
  else if is_null_at (limits ← value_get value "limits"; value_get limits "maxBundleAgeSec")
  then Err (mkSessionError "INVALID_CONFIG" "maxBundleAgeSec may be omitted but cannot be null")
  else
    config ← map_err (mkSessionError "INVALID_CONFIG") (config_from_value value);
    if negb (String.eqb (co_enforcement config) "advisory" || String.eqb (co_enforcement config) "enforcing")
    then Err (mkSessionError "INVALID_CONFIG" "invalid enforcement")
    else
      _ ← limits_validate (co_limits config);
      _ ← match co_scam config with
          | Some scam =>
              _ ← scam_validate scam;
              store ← store_config config;
              scam_validate_separate_keys scam (sc_keys store)
          | None => Ok ()
          end;
      Ok config.
Definition policy_parse (input : string) (max_bytes : Z) : result SessionError PolicyWrapper :=
  if sat_add (sat_mul max_bytes 6) 4096 <? byte_len input
  then Err (mkSessionError "LIMIT_EXCEEDED" "policy wrapper is too large")
  else
    value ← parse_json input "INVALID_POLICY_BUNDLE";
    if match value_get value "keyId" with Some (VString _) | None => false | Some _ => true end
    then Err (mkSessionError "INVALID_POLICY_BUNDLE" "keyId must be a string when present")
    else map_err (mkSessionError "INVALID_POLICY_BUNDLE") (wrapper_from_value value).
Definition policy_input (p : PolicyWrapper) : SignedPolicyInput :=
  mkSignedPolicyInput (bytes_of_string (pw_payload p)) (pw_signature p) (pw_key_id p).
End Config.

(** ** Requests (request.rs) *)
Definition invalid (message : string) : SessionError := mkSessionError "INVALID_REQUEST" message.
Definition unsupported (message : string) : SessionError := mkSessionError "UNSUPPORTED_REQUEST" message.
Definition required (object : list (string * Value)) (key : string) : result SessionError Value :=
  ok_or (invalid ("missing " +:+ key)%string) (obj_get object key).
Definition must_be_string (key : string) (v : Value) : result SessionError string :=
  ok_or (invalid (key +:+ " must be a string")%string) (as_str v).
Definition text (object : list (string * Value)) (key : string) : result SessionError string :=
  v ← required object key; must_be_string key v.
Definition optional_text (object : list (string * Value)) (key : string) : result SessionError (option string) :=
  match obj_get object key with Some v => s ← must_be_string key v; Ok (Some s) | None => Ok None end.
Definition char_in (lo hi : nat) (c : Ascii.ascii) : bool := let n := Ascii.nat_of_ascii c in (lo <=? n)%nat && (n <=? hi)%nat.
Definition is_digit (c : Ascii.ascii) : bool := char_in 48 57 c.
Definition is_hexdigit (c : Ascii.ascii) : bool := is_digit c || char_in 65 70 c || char_in 97 102 c.
Fixpoint all_chars (p : Ascii.ascii -> bool) (s : string) : bool :=
  match s with EmptyString => true | String c rest => p c && all_chars p rest end.
(** [str::strip_prefix] *)
Fixpoint strip_prefix (prefix s : string) : option string :=
  match prefix, s with
  | EmptyString, _ => Some s
  | String a p, String b rest => if Ascii.eqb a b then strip_prefix p rest else None
  | String _ _, EmptyString => None
  end.
Definition address (value : Value) (field : string) : result SessionError string :=
  s ← ok_or (invalid (field +:+ " must be an address")%string) (as_str value);
  if negb (String.length s =? 42)%nat || negb (match strip_prefix "0x" s with Some digits => all_chars is_hexdigit digits | None => false end)
  then Err (invalid (field +:+ " must be a 20-byte hex address")%string) else Ok s.
(** The value of a string of decimal digits. *)
Fixpoint digits_value (acc : Z) (s : string) : option Z :=
  match s with
  | EmptyString => Some acc
  | String c rest => if is_digit c then digits_value (10 * acc + (Z.of_nat (Ascii.nat_of_ascii c) - 48)) rest else None
  end.
(** [str::parse::<u64>]: a leading [+] is accepted. *)
Definition parse_u64 (s : string) : option Z :=
  let digits := match s with String "+"%char rest => rest | _ => s end in
  if String.eqb digits "" then None
  else v ← digits_value 0 digits; if v <=? U64_MAX then Some v else None.
Definition chain_number (chain : string) : result SessionError Z :=
  digits ← ok_or (unsupported "only eip155 chains are supported") (strip_prefix "eip155:" chain);
  value ← ok_or (invalid "invalid CAIP-2 chainId") (parse_u64 digits);
  if (value =? 0) || (MAX_SAFE_INTEGER <? value) || negb (String.eqb (pretty value) digits)
  then Err (invalid "chainId must contain a positive canonical safe integer") else Ok value.

Inductive DecodingStatus := StatusFull | StatusPartial.
#[global] Instance DecodingStatus_eq_dec : EqDecision DecodingStatus.
Proof. solve_decision. Defined.
Record RouteError := mkRouteError { de_kind : string; de_message : string }.
(** The decoder registry of a prepared snapshot, the canonical JSON of RFC 8785 and SHA-256.
    A registry is asked with the JSON value whose text the code passes. *)
Class RequestDecoder := {
  VerifiedDecoder : Type;
  route_request : VerifiedDecoder -> Value -> result RouteError (list Action * option DecodingStatus);
  route_typed_data_v4 : VerifiedDecoder -> Value -> result RouteError (list Action * string);
  canonical_json : Value -> result string bytes;
  sha256_hex : bytes -> string;
}.
Record Request := mkRequest {
  rq_original : Value; rq_digest : string; rq_chain : string; rq_from : string; rq_to : string; rq_actions : list Action; rq_partial : bool }.
Definition transaction_code (kind : string) : string :=
  (if String.eqb kind "no_declarative_v3_mapper" || String.eqb kind "route_failed" then "UNSUPPORTED_REQUEST"
   else if String.eqb kind "input_too_large" then "LIMIT_EXCEEDED" else "INVALID_REQUEST")%string.
Definition typed_data_code (kind : string) : string :=
  (if String.eqb kind "no_typed_data_mapper" || String.eqb kind "unsupported_typed_data_contract" then "UNSUPPORTED_REQUEST"
   else if String.eqb kind "input_too_large" then "LIMIT_EXCEEDED" else "INVALID_REQUEST")%string.

Section Requests.
Context {J : StrictJson} {D0 : RequestDecoder}.
(** The fields a request of this kind is made of; the two other kinds are checked and refused. *)
Definition request_fields (object : list (string * Value)) (kind : string) : result SessionError (list string) :=
  if String.eqb kind "transaction" then Ok ["kind"; "chainId"; "from"; "to"; "data"; "value"]%string
  else if String.eqb kind "typed_signature" then Ok ["kind"; "chainId"; "from"; "typedData"]%string
  else if String.eqb kind "untyped_signature" then
    _ ← text object "message";
    _ ← match obj_get object "from" with Some from => address from "from" | None => Ok ""%string end;
    Err (unsupported "untyped signatures are not implemented")
  else if String.eqb kind "venue_order" then
    from ← required object "from";
    _ ← address from "from";
    _ ← required object "order";
    Err (unsupported "venue orders are not implemented")
  else Err (unsupported "unsupported request kind").
Definition pick_fields (object : list (string * Value)) (fields : list string) : list (string * Value) :=
  omap (fun k => (fun v => (k, v)) <$> obj_get object k) fields.
(** The selector of calldata: its first ten characters. *)
Definition selector_of (data : string) : string :=
  if (10 <=? String.length data)%nat then String.substring 0 10 data else "0x00000000".
Definition decode_transaction (decoder : VerifiedDecoder) (object : list (string * Value)) (chain_id : Z) (from : string) (now_ms : Z)
    : result SessionError (string * list Action * bool) :=
  data ← optional_text object "data";
  let data := default "0x"%string data in
  if negb (match strip_prefix "0x" data with Some digits => (String.length data mod 2 =? 0)%nat && all_chars is_hexdigit digits | None => false end)
  then Err (invalid "data must be even-length 0x hexadecimal bytes")
  else
    value ← optional_text object "value";
    let value := default "0"%string value in
    if String.eqb value "" || negb (all_chars is_digit value) then Err (invalid "value must be a decimal uint256 string")
    else
      _ ← ok_or (invalid "value exceeds the uint256 range") (v ← digits_value 0 value; if v <=? U256_MAX then Some v else None);
      to ← match obj_get object "to" with
           | Some to => address to "to"
           | None => Err (unsupported "contract creation is not supported")
           end;
      if (2 <? String.length data)%nat && (String.length data <? 10)%nat then Err (invalid "calldata is shorter than a selector")
      else
        let wire := VObject [("chain_id", VNumber (IntNum chain_id)); ("to", VString to); ("selector", VString (selector_of data));
                             ("calldata", VString data); ("value", VString value); ("submitter", VString from);
                             ("submitted_at", VNumber (IntNum (now_ms / 1000)))]%string in
        decoded ← map_err (fun e => mkSessionError (transaction_code (de_kind e)) (de_message e)) (route_request decoder wire);
        Ok (to, decoded.1, bool_decide (decoded.2 = Some StatusPartial)).
Definition decode_typed_data (decoder : VerifiedDecoder) (object : list (string * Value)) (chain_id : Z) (from : string) (now_ms : Z)
    : result SessionError (string * list Action * bool) :=
  typed_data ← required object "typedData";
  _ ← match as_str typed_data with Some encoded => _ ← parse_json encoded "INVALID_REQUEST"; Ok () | None => Ok () end;
  let wire := VObject [("typed_data", typed_data); ("requested_signer", VString from); ("submitter", VString from);
                       ("submitted_at", VNumber (IntNum (now_ms / 1000))); ("routing", VObject [("chain_id", VNumber (IntNum chain_id))])]%string in
  decoded ← map_err (fun e => mkSessionError (typed_data_code (de_kind e)) (de_message e)) (route_typed_data_v4 decoder wire);
  Ok (decoded.2, decoded.1, false).
Definition request_decode (input : string) (decoder : VerifiedDecoder) (now_ms max_bytes : Z) : result SessionError Request :=
  if sat_add (sat_mul max_bytes 6) 1024 <? byte_len input then Err (mkSessionError "LIMIT_EXCEEDED" "request exceeds input size limit")
  else
    raw ← parse_json input "INVALID_REQUEST";
    object ← ok_or (invalid "request must be an object") (as_object raw);
    kind ← text object "kind";
    fields ← request_fields object kind;
    let original := VObject (pick_fields object fields) in
    canonical ← map_err invalid (canonical_json (VObject [("domain", VString "dambi.core.request.v1"); ("request", original)]%string));
    if max_bytes <? Z.of_nat (length canonical) then Err (mkSessionError "LIMIT_EXCEEDED" "canonical request exceeds maxRequestBytes")
    else
      let digest := ("0x" +:+ sha256_hex canonical)%string in
      chain ← text object "chainId";
      chain_id ← chain_number chain;
      from ← required object "from";
      from ← address from "from";
      decoded ← (if String.eqb kind "transaction" then decode_transaction decoder object chain_id from now_ms
                 else decode_typed_data decoder object chain_id from now_ms);
      let '(to, actions, partial) := decoded in
      match actions with
      | [] => Err (unsupported "decoder emitted no actions")
      | _ => Ok (mkRequest original digest chain from to actions partial)
      end.
End Requests.

(** ** Facts (facts.rs) *)
(** [s.trim().is_empty()], over the UTF-8 bytes of [s]. *)
Fixpoint blank (l : bytes) : bool :=
  match l with
  | [] => true
  | b :: r =>
      if in_range 9 13 b || (b =? 32) then blank r
      else match r with
           | c :: r1 =>
               if (b =? 194) && ((c =? 133) || (c =? 160)) then blank r1
               else match r1 with
                    | d :: r2 =>
                        if (b =? 225) && (c =? 154) && (d =? 128)
                           || (b =? 226) && (c =? 128) && (in_range 128 138 d || (d =? 168) || (d =? 169) || (d =? 175))
                           || (b =? 226) && (c =? 129) && (d =? 159) || (b =? 227) && (c =? 128) && (d =? 128)
                        then blank r2 else false
                    | [] => false
                    end
           | [] => false
           end
  end.
Definition FactError : Type := string * string.
Definition fact_string (object : list (string * Value)) (key : string) : result FactError string :=
  ok_or ("invalid_fact", "Fact provenance field must be a string")%string (v ← obj_get object key; as_str v).
Definition FACT_KEYS : list string := ["value"; "source"; "observedAt"; "blockNumber"]%string.
Definition in_keys (keys : list string) (k : string) : bool := existsb (String.eqb k) keys.
Definition validate_result (value : Value) (limits : SessionLimits) (now_ms : Z) : result FactError Value :=
  object ← ok_or ("invalid_fact", "FactResult must be an object")%string (as_object value);
  if existsb (fun kv => negb (in_keys FACT_KEYS kv.1)) object then Err ("invalid_fact", "unknown FactResult field")%string
  else
    raw ← ok_or ("invalid_fact", "missing FactResult.value")%string (obj_get object "value");
    source ← fact_string object "source";
    if blank (bytes_of_string source) then Err ("invalid_fact", "source must be non-empty")%string
    else
      observed ← ok_or ("invalid_fact", "observedAt must be a nonnegative safe integer in milliseconds")%string
        (v ← obj_get object "observedAt"; n ← as_u64 v; if n <=? MAX_SAFE_INTEGER then Some n else None);
      if now_ms + li_allowed_clock_skew_ms limits <? observed then Err ("invalid_fact", "Fact observation is in the future")%string
      else if li_max_fact_age_ms limits <? Z.max 0 (now_ms - observed) then Err ("fact_stale", "Fact observation exceeds maxFactAgeMs")%string
      else match obj_get object "blockNumber" with
           | None => Ok raw
           | Some _ =>
               block ← fact_string object "blockNumber";
               if String.eqb block "" || negb (all_chars is_digit block) then Err ("invalid_fact", "blockNumber must be a decimal integer string")%string
               else Ok raw
           end.

(** ** Chain identifiers are canonical *)
Lemma digit_char (x : N) : (x < 10)%N -> is_digit (pretty_N_char x) = true /\ Z.of_nat (nat_of_ascii (pretty_N_char x)) - 48 = Z.of_N x.
Proof.
  intros Hx. assert (x = 0 \/ x = 1 \/ x = 2 \/ x = 3 \/ x = 4 \/ x = 5 \/ x = 6 \/ x = 7 \/ x = 8 \/ x = 9)%N as H by lia.
  repeat (destruct H as [->|H]; [done|]). by subst.
Qed.
Lemma digits_pretty_go x s : digits_value 0 (pretty_N_go x s) = digits_value (Z.of_N x) s.
Proof.
  revert s. induction (N.lt_wf_0 x) as [x _ IH]; intros s. destruct (decide (0 < x)%N) as [Hx|Hx].
  - rewrite pretty_N_go_step by done. rewrite IH by (apply N.div_lt; lia).
    cbn [digits_value]. destruct (digit_char (x mod 10)) as [-> ->]; [by apply N.mod_lt|]. f_equal.
    rewrite N2Z.inj_div, N2Z.inj_mod. pose proof (Z.div_mod (Z.of_N x) 10). lia.
  - assert (x = 0)%N as -> by lia. by rewrite pretty_N_go_0.
Qed.
Lemma pretty_pos z : 0 < z -> pretty z = pretty_N_go (Z.to_N z) "".
Proof. intros Hz. destruct z as [|p|p]; [lia| |lia]. reflexivity. Qed.
Lemma digits_pretty z : 0 < z -> digits_value 0 (pretty z) = Some z.
Proof. intros Hz. rewrite pretty_pos, digits_pretty_go by done. simpl. f_equal. lia. Qed.
Lemma digits_first acc s v : digits_value acc s = Some v -> match s with String c _ => is_digit c = true | EmptyString => True end.
Proof. destruct s as [|c s]; [done|]. simpl. by destruct (is_digit c). Qed.
Lemma parse_pretty z : 0 < z <= U64_MAX -> parse_u64 (pretty z) = Some z.
Proof.
  intros Hz. pose proof (digits_pretty z ltac:(lia)) as Hd. unfold parse_u64. pose proof (digits_first _ _ _ Hd) as Hf.
  destruct (pretty z) as [|c s] eqn:Hp; [simpl in Hd; injection Hd; lia|].
  assert (match String c s with String "+"%char rest => rest | _ => String c s end = String c s) as ->.
  { destruct c as [[] [] [] [] [] [] [] []]; done. }
  destruct (String.eqb_spec (String c s) ""); [done|]. rewrite Hd. cbn [mbind option_bind]. destruct (Z.leb_spec z U64_MAX); [done|lia].
Qed.
Lemma strip_prefix_Some p s rest : strip_prefix p s = Some rest <-> s = (p +:+ rest)%string.
Proof.
  revert s. induction p as [|a p IH]; intros s; [split; [by intros [= ->]|by intros ->]|]. rewrite append_cons. destruct s as [|b s]; [done|].
  cbn [strip_prefix]. destruct (Ascii.eqb_spec a b) as [->|Hne]; [rewrite IH; split; [by intros ->|by intros [= ->]]|].
  split; [done|]. intros [= ->]. done.
Qed.
(** A chain id names one chain: it is accepted exactly when it is [eip155:] followed by the
    canonical decimal of a positive safe integer, and then decodes to that integer. *)
Theorem chain_number_exact chain v :
  chain_number chain = Ok v <-> 0 < v <= MAX_SAFE_INTEGER /\ chain = ("eip155:" +:+ pretty v)%string.
Proof.
  split.
  - unfold chain_number. intros (digits & Hd & H)%bind_Ok_inv. apply bind_Ok_inv in H as (value & Hv & H).
    destruct (Z.eqb_spec value 0) as [|Hz]; [done|]. destruct (Z.ltb_spec MAX_SAFE_INTEGER value) as [|Hm]; [done|].
    destruct (String.eqb_spec (pretty value) digits) as [<-|]; [|done]. simpl in H. injection H as <-.
    assert (0 <= value) as Hpos.
    { destruct (parse_u64 (pretty value)) eqn:Hp; [|done]. injection Hv as ->. destruct (Z.leb_spec 0 value); [done|].
      exfalso. destruct value as [|p|p]; [lia|lia|]. unfold pretty, pretty_Z in Hp. by vm_compute in Hp. }
    split; [lia|]. apply strip_prefix_Some. by destruct (strip_prefix "eip155:" chain); [injection Hd as ->|].
  - intros [Hv ->]. unfold chain_number. rewrite (proj2 (strip_prefix_Some _ _ _) eq_refl). simpl. rewrite parse_pretty by (unfold MAX_SAFE_INTEGER, U64_MAX in *; lia). simpl.
    destruct (Z.eqb_spec v 0); [lia|]. destruct (Z.ltb_spec MAX_SAFE_INTEGER v); [lia|]. by rewrite String.eqb_refl.
Qed.

(** ** Accepted facts are attributed and fresh *)
Record fresh_object (limits : SessionLimits) (now : Z) (object : list (string * Value)) (raw : Value) : Prop := {
  ff_closed : forall k v, (k, v) ∈ object -> k ∈ FACT_KEYS;
  ff_raw : obj_get object "value" = Some raw;
  ff_source : exists source, obj_get object "source" = Some (VString source) /\ blank (bytes_of_string source) = false;
  ff_observed : exists t, obj_get object "observedAt" = Some (VNumber (IntNum t)) /\ 0 <= t <= MAX_SAFE_INTEGER /\
    t <= now + li_allowed_clock_skew_ms limits /\ now - t <= li_max_fact_age_ms limits;
  ff_block : obj_get object "blockNumber" = None \/
    exists block, obj_get object "blockNumber" = Some (VString block) /\ block <> ""%string /\ all_chars is_digit block = true;
}.
Definition fresh_fact (limits : SessionLimits) (now : Z) (value raw : Value) : Prop :=
  exists object, value = VObject object /\ fresh_object limits now object raw.
Lemma in_keys_spec keys k : in_keys keys k = true <-> k ∈ keys.
Proof. unfold in_keys. rewrite existsb_exists. setoid_rewrite String.eqb_eq. setoid_rewrite <- list_elem_of_In. naive_solver. Qed.
Lemma fact_keys_closed object : existsb (fun kv => negb (in_keys FACT_KEYS kv.1)) object = false <-> (forall (k : string) (v : Value), (k, v) ∈ object -> k ∈ FACT_KEYS).
Proof.
  rewrite <- not_true_iff_false, existsb_exists. setoid_rewrite <- list_elem_of_In. split.
  - intros H k v Hkv. apply in_keys_spec. destruct (in_keys FACT_KEYS k) eqn:Hk; [done|]. exfalso. apply H. exists (k, v). split; [done|]. cbn [fst]. by rewrite Hk.
  - intros H ([k v] & Hkv & Hn). cbn [fst] in Hn. by rewrite (proj2 (in_keys_spec FACT_KEYS k) (H k v Hkv)) in Hn.
Qed.
Lemma fact_string_spec object k s : fact_string object k = Ok s <-> obj_get object k = Some (VString s).
Proof. unfold fact_string. destruct (obj_get object k) as [[]|]; simpl; split; try done; by intros [= ->]. Qed.
Lemma observed_spec object t :
  (v ← obj_get object "observedAt"; n ← as_u64 v; if n <=? MAX_SAFE_INTEGER then Some n else None) = Some t <->
  obj_get object "observedAt" = Some (VNumber (IntNum t)) /\ 0 <= t <= MAX_SAFE_INTEGER.
Proof.
  destruct (obj_get object "observedAt") as [v|]; simpl; [|naive_solver]. split.
  - destruct (as_u64 v) as [n|] eqn:Hv; simpl; [|done]. apply as_u64_spec in Hv as [-> Hn]. destruct (Z.leb_spec n MAX_SAFE_INTEGER); [|done].
    intros [= <-]. split; [done|lia].
  - intros [[= ->] Ht]. assert (as_u64 (VNumber (IntNum t)) = Some t) as -> by (apply as_u64_spec; split; [done|unfold U64_MAX, MAX_SAFE_INTEGER in *; lia]).
    simpl. destruct (Z.leb_spec t MAX_SAFE_INTEGER); [done|lia].
Qed.
Lemma block_spec object (raw : Value) :
  match obj_get object "blockNumber" return result FactError Value with
  | None => Ok raw
  | Some _ => block ← fact_string object "blockNumber";
              if String.eqb block "" || negb (all_chars is_digit block) then Err ("invalid_fact", "blockNumber must be a decimal integer string")%string else Ok raw
  end = Ok raw <->
  (obj_get object "blockNumber" = None \/
    exists block, obj_get object "blockNumber" = Some (VString block) /\ block <> ""%string /\ all_chars is_digit block = true).
Proof.
  unfold fact_string. destruct (obj_get object "blockNumber") as [v|]; [|split; [by left|done]].
  destruct v as [| | |s| |]; simpl; try (split; [done|intros [?|(? & ? & _)]; done]).
  destruct (String.eqb_spec s "") as [->|Hs]; simpl; [split; [done|]; intros [?|(? & [= <-] & ? & _)]; done|].
  destruct (all_chars is_digit s) eqn:Hd; simpl; [split; [|done]; intros _; right; by exists s|].
  split; [done|]. intros [?|(? & [= <-] & _ & ?)]; [done|congruence].
Qed.
Lemma validate_result_spec value limits now raw : 0 <= li_max_fact_age_ms limits ->
  validate_result value limits now = Ok raw <-> fresh_fact limits now value raw.
Proof.
  intros Hage. split.
  - unfold validate_result. intros (object & Ho & H)%bind_Ok_inv. destruct value as [| | | | |fs]; try done. injection Ho as ->.
    destruct (existsb _ object) eqn:Hk; [done|]. apply bind_Ok_inv in H as (raw' & Hr & H). destruct (obj_get object "value") as [r|] eqn:Hraw; [|done].
    injection Hr as ->. apply bind_Ok_inv in H as (source & Hs & H). apply fact_string_spec in Hs. destruct (blank _) eqn:Hb; [done|].
    apply bind_Ok_inv in H as (t & Ht & H). destruct (v ← obj_get object "observedAt"; _) as [t'|] eqn:Hobs; [|done]. injection Ht as ->.
    apply observed_spec in Hobs as [Hobs Hrange]. destruct (Z.ltb_spec (now + li_allowed_clock_skew_ms limits) t) as [|Hfut]; [done|].
    destruct (Z.ltb_spec (li_max_fact_age_ms limits) (Z.max 0 (now - t))) as [|Hold]; [done|].
    assert (raw' = raw) as ->.
    { destruct (obj_get object "blockNumber"); [|by injection H]. apply bind_Ok_inv in H as (block & _ & H). destruct (_ || _) in H; [done|by injection H]. }
    exists object. split; [done|]. split; [by apply fact_keys_closed|done| | |exact (proj1 (block_spec object raw) H)].
    + by exists source.
    + exists t. split; [done|]. lia.
  - intros (object & -> & [Hc Hr (source & Hs & Hb) (t & Ht & Hrange & Hfut & Hold) Hbl]). unfold validate_result. cbn [as_object ok_or mbind result_bind].
    rewrite (proj2 (fact_keys_closed object) Hc), Hr. cbn [ok_or mbind result_bind]. rewrite (proj2 (fact_string_spec object _ source) Hs). cbn [mbind result_bind].
    rewrite Hb, (proj2 (observed_spec object t) (conj Ht Hrange)). cbn [ok_or mbind result_bind].
    destruct (Z.ltb_spec (now + li_allowed_clock_skew_ms limits) t); [lia|]. destruct (Z.ltb_spec (li_max_fact_age_ms limits) (Z.max 0 (now - t))); [lia|].
    exact (proj2 (block_spec object raw) Hbl).
Qed.
Lemma validate_result_total value limits now : validate_result value limits now <> Panic.
Proof.
  unfold validate_result, fact_string, ok_or. repeat (case_match; simpl; try done).
Qed.

(** ** Limits *)
Lemma limits_validate_spec l : limits_validate l = Ok () -> Forall (fun nv => nv.2 <> 0 /\ nv.2 <= MAX_SAFE_INTEGER) (limit_values l).
Proof.
  unfold limits_validate. intros (u & H & _)%bind_Ok_inv. revert u H. generalize (). induction (limit_values l) as [|nv nvs IH]; intros u0 u; [constructor|].
  cbn [foldM]. intros (u1 & Hc & H)%bind_Ok_inv. unfold check_positive in Hc. destruct (Z.eqb_spec nv.2 0); [done|]. destruct (Z.ltb_spec MAX_SAFE_INTEGER nv.2); [done|].
  constructor; [done|]. by eapply IH.
Qed.
End SessionInput.
