(* ===== verification/SessionReport.v ===== *)
(** * Reports of a session (dambi-core/src/session: mod.rs, facts.rs, scam.rs)

    The nodes of a decoded action tree with the calls planned for them, the report
    an evaluation accumulates, the acceptance of the host's facts and the
    evaluation of the nodes under a pinned snapshot. *)
From stdpp Require Import base tactics numbers list strings gmap pretty.
From S2P Require Import Prelude Types Apply Bytes SyncLive PolicyEngine PolicyRpc BundleFormat BundleTrust SnapshotStore.
From S2P Require Import ActionViews PolicyRuntime SessionInput.
Import SyncLive.

Module SessionReport.
Import PolicyEngine PolicyRpc BundleFormat BundleTrust SnapshotStore ActionViews PolicyRuntime SessionInput.

(** ** Plans *)
Definition MAX_ACTION_NODES : nat := 256.
Record Call := mkCall { cl_id : string; cl_runtime : PlannedCallDto }.
Record Node := mkNode {
  nd_path : list nat; nd_action : ActionBody; nd_meta : ActionMeta; nd_tx : TxInput; nd_calls : list Call;
  nd_planning_error : option SessionError; nd_matched : bool }.
Definition path_json (path : list nat) : Value := VArray (map (fun i => VNumber (IntNum (Z.of_nat i))) path).

(** The scam module: its state, the plans it pins and what it reports. Its evaluation may read
    the session's clock and nothing else: it is a tree of clock readings. *)
Inductive Reads (A : Type) := Done (a : A) | ReadClock (k : Z -> Reads A).
Arguments Done {A} a.
Arguments ReadClock {A} k.
Class ScamModule (S0 : ScamSettings) := {
  ScamState : Type; ScamPlan : Type;
  scam_new : ScamConfig -> result SessionError ScamState;
  scam_set_settings : ScamState -> string -> ScamState * result SessionError ();
  scam_install_signed : ScamState -> string -> Z -> ScamState * result SessionError ();
  scam_pin : ScamState -> list Node -> string -> Z -> ScamPlan;
  scam_plan_calls : ScamPlan -> list Value;
  scam_no_time_budget : ScamPlan -> Value;
  scam_evaluate : ScamPlan -> string -> option string -> Z -> option Z -> Z -> Reads Value;
}.

(** ** Reports *)
Record Report := mkReport {
  rp_rank : Z; rp_failed : bool; rp_reasons : list Value; rp_facts : list Value; rp_diagnostics : list Value }.
Definition empty_report : Report := mkReport 0 false [] [] [].
Definition report_diagnostic (r : Report) (code message : string) (call : option string) (path : option (list nat)) : Report :=
  let value := [("code", VString code); ("message", VString message)]%string
    ++ match call with Some c => [("callId"%string, VString c)] | None => [] end
    ++ match path with Some p => [("nodePath"%string, path_json p)] | None => [] end in
  mkReport (rp_rank r) (rp_failed r) (rp_reasons r) (rp_facts r) (rp_diagnostics r ++ [VObject value]).
Definition engine_reason (id message severity : string) : Value :=
  VObject [("policyId", VString id); ("reason", VString message); ("severity", VString severity); ("origin", VString "engine_error")]%string.
Definition report_fail (r : Report) (code message : string) (call : option string) (path : option (list nat)) : Report :=
  report_diagnostic
    (mkReport 2 true (rp_reasons r ++ [engine_reason ("__engine::" +:+ code)%string message "deny"]) (rp_facts r) (rp_diagnostics r))
    code message call path.
Definition report_partial (r : Report) (message : string) (path : list nat) : Report :=
  report_diagnostic
    (mkReport (Z.max (rp_rank r) 1) (rp_failed r) (rp_reasons r ++ [engine_reason "__engine::partial_decode" message "warn"]) (rp_facts r) (rp_diagnostics r))
    "partial_decode" message None (Some path).
Definition report_fact (r : Report) (value : Value) : Report :=
  mkReport (rp_rank r) (rp_failed r) (rp_reasons r) (rp_facts r ++ [value]) (rp_diagnostics r).
Definition verdict_rank (v : Verdict) : Z := match v with VPass => 0 | VWarn _ => 1 | VFail _ => 2 end.
Definition reason_json (m : MatchedPolicy) : Value :=
  VObject [("policyId", VString (mp_policy_id m)); ("reason", match mp_reason m with Some r => VString r | None => VNull end);
           ("severity", VString match mp_severity m with Deny => "deny" | Warn => "warn" end);
           ("origin", VString match mp_origin m with OriginAction => "action" | OriginTx => "tx" end)]%string.
Definition report_match (node : Node) (accepted : gmap string Value) (r : Report) (m : MatchedPolicy) : Report :=
  let r1 :=
    if String.eqb (mp_policy_id m) "__system__" then
      let r := mkReport (rp_rank r) true (rp_reasons r) (rp_facts r) (rp_diagnostics r) in
      let original := reason ← mp_reason m; strip_prefix "rpc-unavailable: " reason in
      match find (fun call => bool_decide (Some (pd_call_id (cl_runtime call)) = original)) (nd_calls node) with
      | Some call =>
          match accepted !! cl_id call with
          | Some _ => report_diagnostic r "projection_failed" "required Fact projection failed" (Some (cl_id call)) (Some (nd_path node))
          | None => r
          end
      | None => report_diagnostic r "engine_error" "runtime reported an unbound required Fact failure" None (Some (nd_path node))
      end
    else if String.prefix "__engine::quarantine::" (mp_policy_id m) then
      report_diagnostic r "bundle_quarantined" (default "policy bundle quarantined"%string (mp_reason m)) None (Some (nd_path node))
    else r in
  mkReport (rp_rank r1) (rp_failed r1) (rp_reasons r1 ++ [reason_json m]) (rp_facts r1) (rp_diagnostics r1).
Definition report_engine (r : Report) (verdict : Verdict) (node : Node) (accepted : gmap string Value) : Report :=
  fold_left (report_match node accepted) (matched verdict)
    (mkReport (Z.max (rp_rank r) (verdict_rank verdict)) (rp_failed r) (rp_reasons r) (rp_facts r) (rp_diagnostics r)).
(** [engine_version] is the crate's version, fixed at compile time. *)
Definition plan_metadata (engine_version digest : string) (policy_sequence : Z) : Value :=
  VObject [("status", VString "available"); ("requestDigest", VString digest); ("policyVersion", VString (pretty policy_sequence));
           ("engineVersion", VString ("policy-engine/" +:+ engine_version))]%string.
Definition report_finish (r : Report) (enforcement : string) (metadata : Value) : Value :=
  VObject [("decision", VString (if (rp_rank r =? 0)%Z then "allow" else if (rp_rank r =? 1)%Z then "warn" else "deny"));
           ("source", VString (if rp_failed r then "fail_closed" else "evaluated")); ("enforcement", VString enforcement);
           ("reasons", VArray (rp_reasons r)); ("facts", VArray (rp_facts r)); ("diagnostics", VArray (rp_diagnostics r));
           ("metadata", metadata)]%string.

(** [compose] (scam.rs): a scam warning can only lower an allow to a warning. *)
Definition is_string (v : Value) (s : string) : bool := match v with VString t => String.eqb t s | _ => false end.
Definition set_member (v : Value) (k : string) (x : Value) : Value :=
  match v with VObject fs => VObject (obj_insert fs k x) | _ => v end.
Definition scam_reason : Value :=
  VObject [("policyId", VString "__scam::risk"); ("reason", VString "scam risk pattern observed"); ("severity", VString "warn"); ("origin", VString "scam")]%string.
Definition compose (policy : Value) (scam : option Value) : Value :=
  match scam with
  | Some scam =>
      let policy :=
        if is_string (value_index scam "status") "warn" then
          let policy := if is_string (value_index policy "decision") "allow" then set_member policy "decision" (VString "warn") else policy in
          match value_index policy "reasons" with
          | VArray reasons => set_member policy "reasons" (VArray (reasons ++ [scam_reason]))
          | _ => policy
          end
        else policy in
      set_member policy "scam" scam
  | None => policy
  end.
(** [policy_fact_deadline] (scam.rs): when the host's facts run out, if all are dated. *)
Definition policy_fact_deadline {J : StrictJson} (input : string) (max_bytes max_age : Z) : option Z :=
  if max_bytes <? byte_len input then None
  else
    match strict_parse input with
    | Ok value =>
        results ← value_get value "results"; fields ← as_object results;
        fold_left (fun deadline kv =>
          deadline ← deadline; v ← value_get kv.2 "observedAt"; observed ← as_u64 v;
          if observed <=? MAX_SAFE_INTEGER then Some (Z.min deadline (Z.min (sat_add observed max_age) MAX_SAFE_INTEGER)) else None)
          fields (Some MAX_SAFE_INTEGER)
    | _ => None
    end.

(** ** Accepting facts (facts.rs) *)
Definition BATCH_KEYS : list string := ["planId"; "results"]%string.
(** Every call of a plan, with the path of its node, in order. *)
Definition plan_calls (nodes : list Node) : list (list nat * Call) := node ← nodes; call ← nd_calls node; [(nd_path node, call)].
(** The last branch is not taken: [validate_result_total]. *)
Definition accept_call (limits : SessionLimits) (now_ms : Z) (results : list (string * Value)) (st : Report * gmap string Value) (pc : list nat * Call)
    : Report * gmap string Value :=
  let '(report, accepted) := st in
  let '(path, call) := pc in
  match obj_get results (cl_id call) with
  | None => st
  | Some value =>
      match validate_result value limits now_ms with
      | Ok raw => (report_fact report value, <[cl_id call := raw]> accepted)
      | Err (code, message) => (report_fail report code message (Some (cl_id call)) (Some path), accepted)
      | Panic => st
      end
  end.
Definition facts_validate {J : StrictJson} (input plan_id : string) (nodes : list Node) (limits : SessionLimits) (now_ms : Z) (report : Report)
    : result SessionError (Report * gmap string Value) :=
  if li_max_fact_bytes limits <? byte_len input
  then Ok (report_fail report "limit_exceeded" "FactBatch exceeds maxFactBytes" None None, ∅)
  else
    match parse_json input "INVALID_REQUEST" with
    | Ok value =>
        match as_object value with
        | None => Ok (report_fail report "invalid_fact" "FactBatch must be an object" None None, ∅)
        | Some batch =>
            let report := if existsb (fun kv => negb (in_keys BATCH_KEYS kv.1)) batch
                          then report_fail report "invalid_fact" "unknown FactBatch field" None None else report in
            if negb (bool_decide ((v ← obj_get batch "planId"; as_str v) = Some plan_id))
            then Ok (report_fail report "fact_plan_mismatch" "FactBatch belongs to a different plan" None None, ∅)
            else
              match (v ← obj_get batch "results"; as_object v) with
              | None => Ok (report_fail report "invalid_fact" "FactBatch.results must be an object" None None, ∅)
              | Some results =>
                  let known := map (fun pc => cl_id pc.2) (plan_calls nodes) in
                  let report := fold_left (fun report kv =>
                    if in_keys known kv.1 then report
                    else report_fail report "unknown_fact_call" "Fact result has no call in this plan" (Some kv.1) None) results report in
                  Ok (fold_left (accept_call limits now_ms results) (plan_calls nodes) (report, ∅))
              end
        end
    | Err e => Ok (report_fail report "invalid_fact" (er_message e) None None, ∅)
    | Panic => Panic
    end.

(** ** Evaluating the nodes (mod.rs) *)
Definition policy_bundles (b : ValidatedPolicyBundle) : result SessionError (list BundleInput) :=
  policies ← ok_or (mkSessionError "ENGINE_ERROR" "validated policies are unavailable") (as_array (value_index (vb_payload b) "policies"));
  foldM (fun bundles em =>
    policy ← ok_or (mkSessionError "ENGINE_ERROR" "validated Cedar source is unavailable") (as_str (value_index em.1 "policy"));
    Ok (bundles ++ [mkBundleInput policy em.2])) (zip policies (vb_manifests b)) [].
Definition is_unknown (action : ActionBody) : bool := match action with UnknownCall _ _ _ _ => true | _ => false end.
(** The results the runtime is given for a node, by the runtime's own call ids. *)
Definition node_results (accepted : gmap string Value) (node : Node) (report : Report) : Report * gmap string Value :=
  fold_left (fun st call =>
    let '(report, results) := st in
    match accepted !! cl_id call with
    | Some value => (report, <[pd_call_id (cl_runtime call) := value]> results)
    | None =>
        if pd_optional (cl_runtime call) then st
        else (report_fail report "required_fact_missing" "required Fact is unavailable" (Some (cl_id call)) (Some (nd_path node)), results)
    end) (nd_calls node) (report, ∅).
Section Evaluate.
Context {C0 : Cedar} {T0 : PolicyTools C0} {L0 : Lowering} (iter : gset string -> list string).
Definition node_input (node : Node) (bundles : list BundleInput) (results : gmap string Value) : EvaluateActionInput :=
  mkEvaluateActionInput (nd_action node) (nd_meta node) (nd_tx node) bundles results ∅ ∅ default_enrichment.
Definition evaluate_node (b : ValidatedPolicyBundle) (accepted : gmap string Value) (report : Report) (node : Node) : result SessionError Report :=
  let report := if is_unknown (nd_action node) then report_partial report "action could not be interpreted" (nd_path node) else report in
  match nd_planning_error node with
  | Some error => Ok (report_fail report "engine_error" (er_message error) None (Some (nd_path node)))
  | None =>
      let '(report, results) := node_results accepted node report in
      let report := if nd_matched node then report
        else report_diagnostic report "no_matching_policy" "no policy trigger matches this action" None (Some (nd_path node)) in
      match policy_bundles b with
      | Err error => Ok (report_fail report "engine_error" (er_message error) None (Some (nd_path node)))
      | Panic => Panic
      | Ok bundles =>
          match evaluate_action iter (node_input node bundles results) with
          | Ok verdict => Ok (report_engine report verdict node accepted)
          | Err error => Ok (report_fail report "engine_error" (ee_message error) None (Some (nd_path node)))
          | Panic => Panic
          end
      end
  end.

(** ** A report is clear only if every node passes *)
Definition required_facts (accepted : gmap string Value) (node : Node) : Prop :=
  forall call, call ∈ nd_calls node -> pd_optional (cl_runtime call) = false -> is_Some (accepted !! cl_id call).
(** The results of a node, whatever the report. *)
Definition results_of (accepted : gmap string Value) (node : Node) : gmap string Value := (node_results accepted node empty_report).2.
Definition node_clear (b : ValidatedPolicyBundle) (accepted : gmap string Value) (node : Node) : Prop :=
  is_unknown (nd_action node) = false /\ nd_planning_error node = None /\ required_facts accepted node /\
  exists bundles, policy_bundles b = Ok bundles /\ evaluate_action iter (node_input node bundles (results_of accepted node)) = Ok VPass.
Lemma diagnostic_rank r code message call path : rp_rank (report_diagnostic r code message call path) = rp_rank r.
Proof. done. Qed.
Lemma fail_rank r code message call path : rp_rank (report_fail r code message call path) = 2.
Proof. done. Qed.
Lemma match_rank node accepted r m : rp_rank (report_match node accepted r m) = rp_rank r.
Proof. unfold report_match. cbn [rp_rank]. repeat case_match; done. Qed.
Lemma engine_rank r verdict node accepted : rp_rank (report_engine r verdict node accepted) = Z.max (rp_rank r) (verdict_rank verdict).
Proof.
  unfold report_engine. set (r0 := mkReport _ _ _ _ _). change (Z.max (rp_rank r) (verdict_rank verdict)) with (rp_rank r0). generalize r0. clear r0.
  induction (matched verdict) as [|m l IH]; intros r0; [done|]. simpl. by rewrite IH, match_rank.
Qed.
Lemma node_results_spec accepted node : forall report, 0 <= rp_rank report ->
  let '(report', results) := node_results accepted node report in
  results = results_of accepted node /\ 0 <= rp_rank report' /\ (rp_rank report' = 0 <-> rp_rank report = 0 /\ required_facts accepted node).
Proof.
  unfold results_of, node_results, required_facts. generalize (∅ : gmap string Value). generalize empty_report.
  induction (nd_calls node) as [|call calls IH]; intros r0 results report Hr; simpl.
  { split; [done|]. split; [done|]. split; [|tauto]. intros H. split; [done|]. by intros call ?%elem_of_nil. }
  destruct (accepted !! cl_id call) as [v|] eqn:Ha; [|destruct (pd_optional (cl_runtime call)) eqn:Ho].
  - specialize (IH r0 (<[pd_call_id (cl_runtime call):=v]> results) report Hr). destruct (fold_left _ calls (report, _)) as [report' results'].
    destruct IH as (H1 & H2 & H3). split; [done|]. split; [done|]. rewrite H3. split; intros [Hz Hq]; (split; [done|]).
    + intros c [->|Hc]%elem_of_cons Hoc; [by rewrite Ha|by apply Hq].
    + intros c Hc. apply Hq. by right.
  - specialize (IH r0 results report Hr). destruct (fold_left _ calls (report, _)) as [report' results'].
    destruct IH as (H1 & H2 & H3). split; [done|]. split; [done|]. rewrite H3. split; intros [Hz Hq]; (split; [done|]).
    + intros c [->|Hc]%elem_of_cons Hoc; [congruence|by apply Hq].
    + intros c Hc. apply Hq. by right.
  - specialize (IH (report_fail r0 "required_fact_missing" "required Fact is unavailable" (Some (cl_id call)) (Some (nd_path node))) results
      (report_fail report "required_fact_missing" "required Fact is unavailable" (Some (cl_id call)) (Some (nd_path node))) ltac:(rewrite fail_rank; lia)).
    destruct (fold_left _ calls (report_fail report _ _ _ _, _)) as [report' results'].
    destruct IH as (H1 & H2 & H3). split; [done|]. split; [done|]. rewrite H3, fail_rank. split; [intros [? _]; lia|].
    intros [_ Hq]. destruct (Hq call) as [v Hv]; [left|done|congruence].
Qed.
Lemma evaluate_node_clear b accepted report node report' : 0 <= rp_rank report -> evaluate_node b accepted report node = Ok report' ->
  0 <= rp_rank report' /\ (rp_rank report' = 0 <-> rp_rank report = 0 /\ node_clear b accepted node).
Proof.
  intros Hr. unfold evaluate_node, node_clear. set (r1 := if is_unknown _ then _ else _).
  assert (0 <= rp_rank r1 /\ (rp_rank r1 = 0 <-> rp_rank report = 0 /\ is_unknown (nd_action node) = false)) as [Hr1 Hz1].
  { subst r1. destruct (is_unknown (nd_action node)); [cbn [report_partial report_diagnostic rp_rank]; split; [lia|]; split; [lia|by intros [_ ?]]|].
    split; [done|]. split; [done|by intros [? _]]. }
  destruct (nd_planning_error node) as [e|]; [intros [= <-]; rewrite fail_rank; split; [lia|]; split; [lia|]; by intros (_ & _ & ? & _)|].
  pose proof (node_results_spec accepted node r1 Hr1) as Hn. destruct (node_results accepted node r1) as [r2 results]. destruct Hn as (-> & Hr2 & Hz2).
  set (r3 := if nd_matched node then _ else _). assert (rp_rank r3 = rp_rank r2) as H3 by (subst r3; by destruct (nd_matched node)).
  assert (forall P, rp_rank r3 = 0 /\ P <-> rp_rank report = 0 /\ is_unknown (nd_action node) = false /\ @None SessionError = None /\ required_facts accepted node /\ P) as Hall.
  { intros P. rewrite H3, Hz2, Hz1. tauto. }
  destruct (policy_bundles b) as [bundles|e|]; [|intros [= <-]; rewrite fail_rank; split; [lia|]; split; [lia|]; by intros (_ & _ & _ & _ & ? & ? & _)|done].
  destruct (evaluate_action iter (node_input node bundles (results_of accepted node))) as [verdict|e|] eqn:He; intros [= <-].
  - rewrite engine_rank. split; [lia|]. rewrite <- Hall. split.
    + intros Hm. assert (rp_rank r3 = 0 /\ verdict_rank verdict = 0) as [? Hv] by (destruct verdict; simpl in *; lia). split; [done|].
      exists bundles. split; [done|]. by destruct verdict.
    + intros (Hz & bs & [= <-] & Hp). rewrite He in Hp. injection Hp as ->. simpl. lia.
  - rewrite fail_rank. split; [lia|]. split; [lia|]. intros (_ & _ & _ & _ & bs & [= <-] & Hp). congruence.
Qed.
Lemma evaluate_nodes_clear b accepted nodes : forall report report', 0 <= rp_rank report -> foldM (evaluate_node b accepted) nodes report = Ok report' ->
  0 <= rp_rank report' /\ (rp_rank report' = 0 <-> rp_rank report = 0 /\ Forall (node_clear b accepted) nodes).
Proof.
  induction nodes as [|node nodes IH]; intros report report' Hr; cbn [foldM]; [intros [= <-]; split; [done|]; split; [by split|by intros [? _]]|].
  intros (r1 & H1 & H2)%bind_Ok_inv. apply evaluate_node_clear in H1 as [Hr1 Hz1]; [|done]. apply IH in H2 as [Hr2 Hz2]; [|done].
  split; [done|]. rewrite Hz2, Hz1, Forall_cons. tauto.
Qed.
End Evaluate.

(** ** Accepted facts *)
Definition call_ids (nodes : list Node) : list string := map (fun pc => cl_id pc.2) (plan_calls nodes).
(** The host's result for a call, checked. *)
Definition supplied (limits : SessionLimits) (now : Z) (results : list (string * Value)) (id : string) (raw : Value) : Prop :=
  exists value, obj_get results id = Some value /\ validate_result value limits now = Ok raw.
Lemma supplied_fun limits now results id raw raw' : supplied limits now results id raw -> supplied limits now results id raw' -> raw = raw'.
Proof. intros (v & Hv & H) (v' & Hv' & H'). congruence. Qed.
Definition all_valid (limits : SessionLimits) (now : Z) (results : list (string * Value)) (ids : list string) : Prop :=
  forall id value, id ∈ ids -> obj_get results id = Some value -> exists raw, validate_result value limits now = Ok raw.
Lemma all_valid_cons limits now results id ids : all_valid limits now results (id :: ids) <->
  (forall value, obj_get results id = Some value -> exists raw, validate_result value limits now = Ok raw) /\ all_valid limits now results ids.
Proof.
  unfold all_valid. split; [intros H; split; [intros value; apply H; left|intros i value Hi; apply H; by right]|].
  intros [H1 H2] i value [->|Hi]%elem_of_cons; [apply H1|by apply H2].
Qed.
(** What a batch of facts for a plan contains. *)
Definition batch_results {J : StrictJson} (input plan_id : string) (limits : SessionLimits) (results : list (string * Value)) : Prop :=
  byte_len input <= li_max_fact_bytes limits /\
  exists batch, strict_parse input = Ok (VObject batch) /\ obj_get batch "planId" = Some (VString plan_id) /\
    obj_get batch "results" = Some (VObject results).
(** A batch without a fault: no member but these two, a result only for a call of the plan, and
    every such result fresh. *)
Definition batch_clear {J : StrictJson} (input plan_id : string) (nodes : list Node) (limits : SessionLimits) (now : Z) : Prop :=
  exists results batch, byte_len input <= li_max_fact_bytes limits /\ strict_parse input = Ok (VObject batch) /\
    (forall (k : string) (v : Value), (k, v) ∈ batch -> k ∈ BATCH_KEYS) /\
    obj_get batch "planId" = Some (VString plan_id) /\ obj_get batch "results" = Some (VObject results) /\
    (forall (k : string) (v : Value), (k, v) ∈ results -> k ∈ call_ids nodes) /\
    all_valid limits now results (call_ids nodes).
Lemma obj_get_In fs k (v : Value) : obj_get fs k = Some v -> (k, v) ∈ fs.
Proof.
  induction fs as [|[k' v'] fs IH]; simpl; [done|]. destruct (String.eqb_spec k' k) as [->|]; [intros [= ->]; left|]. intros H. right. by apply IH.
Qed.
Lemma unknown_rank known results : forall report, 0 <= rp_rank report ->
  let report' := fold_left (fun report kv => if in_keys known kv.1 then report
    else report_fail report "unknown_fact_call" "Fact result has no call in this plan" (Some kv.1) None) results report in
  0 <= rp_rank report' /\ (rp_rank report' = 0 <-> rp_rank report = 0 /\ forall (k : string) (v : Value), (k, v) ∈ results -> k ∈ known).
Proof.
  induction results as [|[k v] results IH]; intros report Hr; cbn [fold_left]; [split; [done|]; split; [intros H; split; [done|]; by intros ? ? ?%elem_of_nil|by intros [? _]]|].
  cbn [fst]. destruct (in_keys known k) eqn:Hk.
  - destruct (IH report Hr) as [H1 H2]. split; [done|]. rewrite H2. apply in_keys_spec in Hk. split; intros [Hz Hq]; (split; [done|]).
    + intros k' v' [[= -> ->]|H]%elem_of_cons; [done|by eapply Hq].
    + intros k' v' H. apply (Hq k' v'). by right.
  - destruct (IH (report_fail report "unknown_fact_call" "Fact result has no call in this plan" (Some k) None) ltac:(rewrite fail_rank; lia)) as [H1 H2].
    split; [done|]. rewrite H2, fail_rank. split; [intros [? _]; lia|]. intros [_ Hq].
    assert (in_keys known k = true) by (apply in_keys_spec, (Hq k v); left). congruence.
Qed.
Lemma accept_spec limits now results calls : forall report accepted, 0 <= rp_rank report ->
  (forall id raw, accepted !! id = Some raw -> supplied limits now results id raw) ->
  let ids := map (fun pc => cl_id pc.2) calls in
  let '(report', accepted') := fold_left (accept_call limits now results) calls (report, accepted) in
  0 <= rp_rank report' /\ (rp_rank report' = 0 <-> rp_rank report = 0 /\ all_valid limits now results ids) /\
  forall id raw, accepted' !! id = Some raw <-> (id ∈ ids /\ supplied limits now results id raw) \/ accepted !! id = Some raw.
Proof.
  induction calls as [|[path call] calls IH]; intros report accepted Hr Ha ids; subst ids; cbn [fold_left map].
  { split; [done|]. split; [split; [intros H; split; [done|]; by intros ? ? ?%elem_of_nil|by intros [? _]]|].
    intros id raw. split; [by right|]. by intros [[?%elem_of_nil _]|?]. }
  unfold accept_call at 2. cbn [snd]. destruct (obj_get results (cl_id call)) as [value|] eqn:Hv.
  2:{ specialize (IH report accepted Hr Ha). cbv zeta in IH. destruct (fold_left _ calls _) as [report' accepted']. destruct IH as (H1 & H2 & H3). split; [done|]. split.
      - rewrite H2, all_valid_cons, Hv. split; [intros [? ?]; split; [done|]; by split|by intros (? & _ & ?)].
      - intros id raw. rewrite H3. split; [intros [[? ?]|?]; [left; split; [by right|done]|by right]|].
        intros [[[->|?]%elem_of_cons Hs]|?]; [|by left|by right]. destruct Hs as (v & Hv' & _). congruence. }
  pose proof (validate_result_total value limits now) as Hnp. destruct (validate_result value limits now) as [raw|[code message]|] eqn:Hres; [| |done].
  - assert (supplied limits now results (cl_id call) raw) as Hsup by by exists value.
    assert (forall id raw0, <[cl_id call := raw]> accepted !! id = Some raw0 -> supplied limits now results id raw0) as Ha'.
    { intros id raw0. destruct (decide (id = cl_id call)) as [->|Hne]; [rewrite lookup_insert_eq; by intros [= <-]|rewrite lookup_insert_ne by done; apply Ha]. }
    specialize (IH (report_fact report value) (<[cl_id call := raw]> accepted) Hr Ha'). cbv zeta in IH. destruct (fold_left _ calls _) as [report' accepted'].
    destruct IH as (H1 & H2 & H3). split; [done|]. split.
    + rewrite H2, all_valid_cons, Hv. cbn [report_fact rp_rank]. split; [intros [? ?]; split; [done|]; split; [|done]; intros v [= <-]; by exists raw|by intros (? & _ & ?)].
    + intros id raw0. rewrite H3. destruct (decide (id = cl_id call)) as [->|Hne].
      * rewrite lookup_insert_eq. split.
        -- intros [[_ Hs]|[= <-]]; (left; split; [by left|done]).
        -- intros [[_ Hs]|Hs%Ha]; right; f_equal; by eapply supplied_fun.
      * rewrite lookup_insert_ne by done. rewrite elem_of_cons. split; [intros [[? ?]|?]; [left; split; [by right|done]|by right]|].
        intros [[[?|?] ?]|?]; [done|by left|by right].
  - specialize (IH (report_fail report code message (Some (cl_id call)) (Some path)) accepted ltac:(rewrite fail_rank; lia) Ha). cbv zeta in IH.
    destruct (fold_left _ calls _) as [report' accepted']. destruct IH as (H1 & H2 & H3). split; [done|]. split.
    + rewrite H2, fail_rank, all_valid_cons, Hv. split; [intros [? _]; lia|]. intros (_ & Hq & _). destruct (Hq value eq_refl) as [raw Hraw]. congruence.
    + intros id raw0. rewrite H3, elem_of_cons. split; [intros [[? ?]|?]; [left; split; [by right|done]|by right]|].
      intros [[[->|?] (v & Hv' & Hv2)]|?]; [congruence|left; split; [done|by exists v]|by right].
Qed.
Lemma plan_id_spec batch (plan_id : string) : (v ← obj_get batch "planId"; as_str v) = Some plan_id <-> obj_get batch "planId" = Some (VString plan_id).
Proof. destruct (obj_get batch "planId") as [[]|]; simpl; split; try done; by intros [= ->]. Qed.
Lemma results_spec batch fs : (v ← obj_get batch "results"; as_object v) = Some fs <-> obj_get batch "results" = Some (VObject fs).
Proof. destruct (obj_get batch "results") as [[]|]; simpl; split; try done; by intros [= ->]. Qed.
Lemma batch_keys_closed (batch : list (string * Value)) : existsb (fun kv => negb (in_keys BATCH_KEYS kv.1)) batch = false <->
  (forall (k : string) (v : Value), (k, v) ∈ batch -> k ∈ BATCH_KEYS).
Proof.
  rewrite <- not_true_iff_false, existsb_exists. setoid_rewrite <- list_elem_of_In. split.
  - intros H k v Hkv. apply in_keys_spec. destruct (in_keys BATCH_KEYS k) eqn:Hk; [done|]. exfalso. apply H. exists (k, v). split; [done|]. cbn [fst]. by rewrite Hk.
  - intros H ([k v] & Hkv & Hn). cbn [fst] in Hn. by rewrite (proj2 (in_keys_spec BATCH_KEYS k) (H k v Hkv)) in Hn.
Qed.
(** What acceptance of a batch establishes: the facts taken are exactly the fresh results of the
    plan's own calls, and the report stays clear only if the batch has no fault at all. *)
Lemma facts_validate_spec {J : StrictJson} input plan_id nodes limits now report report' accepted : 0 <= rp_rank report ->
  facts_validate input plan_id nodes limits now report = Ok (report', accepted) ->
  0 <= rp_rank report' /\ (rp_rank report' = 0 <-> rp_rank report = 0 /\ batch_clear input plan_id nodes limits now) /\
  forall id raw, accepted !! id = Some raw <->
    exists results, batch_results input plan_id limits results /\ id ∈ call_ids nodes /\ supplied limits now results id raw.
Proof.
  intros Hr. unfold facts_validate, batch_results, batch_clear.
  assert (forall (P Q : Prop) (R : string -> Value -> Prop) r, 2 <= rp_rank r -> (Q -> False) -> (forall id raw, R id raw -> False) ->
    0 <= rp_rank r /\ (rp_rank r = 0 <-> P /\ Q) /\ forall id raw, (∅ : gmap string Value) !! id = Some raw <-> R id raw) as Hbad.
  { intros P Q R r H HQ HR. split; [lia|]. split; [split; [lia|by intros [_ ?%HQ]]|]. intros id raw. rewrite lookup_empty. split; [done|by intros ?%HR]. }
  destruct (Z.ltb_spec (li_max_fact_bytes limits) (byte_len input)) as [Hlen|Hlen].
  { intros [= <- <-]. apply Hbad; [rewrite fail_rank; lia|intros (? & ? & ? & _); lia|intros id raw (? & (? & _) & _); lia]. }
  unfold parse_json. destruct (strict_parse input) as [value|e|]; cbn [map_err]; [| |done].
  2:{ intros [= <- <-]. apply Hbad; [rewrite fail_rank; lia|by intros (? & ? & ? & ? & _)|by intros id raw (? & (? & ? & ? & _) & _)]. }
  destruct value as [| | | | |batch]; cbn [as_object];
    try (intros [= <- <-]; apply Hbad; [rewrite fail_rank; lia|by intros (? & ? & ? & ? & _)|by intros id raw (? & (? & ? & ? & _) & _)]).
  set (r1 := if existsb _ batch then _ else _).
  assert (0 <= rp_rank r1 /\ (rp_rank r1 = 0 <-> rp_rank report = 0 /\ forall (k : string) (v : Value), (k, v) ∈ batch -> k ∈ BATCH_KEYS)) as [Hr1 Hz1].
  { subst r1. rewrite <- batch_keys_closed. destruct (existsb _ batch); [rewrite fail_rank; split; [lia|]; split; [lia|by intros [_ ?]]|]. split; [done|]. split; [done|by intros [? _]]. }
  case_bool_decide as Hid; cbn [negb].
  2:{ intros [= <- <-]. apply Hbad; [rewrite fail_rank; lia|intros (? & ? & _ & [= <-] & _ & ?%plan_id_spec & _); done|
        intros id raw (? & (_ & ? & [= <-] & ?%plan_id_spec & _) & _); done]. }
  apply plan_id_spec in Hid. destruct (v ← obj_get batch "results"; as_object v) as [results|] eqn:Hres.
  2:{ intros [= <- <-]. apply Hbad; [rewrite fail_rank; lia|intros (? & ? & _ & [= <-] & _ & _ & ?%results_spec & _); congruence|
        intros id raw (? & (_ & ? & [= <-] & _ & ?%results_spec) & _); congruence]. }
  apply results_spec in Hres. intros [= H]. fold (call_ids nodes) in H.
  destruct (unknown_rank (call_ids nodes) results r1 Hr1) as [Hr2 Hz2]. set (r2 := fold_left _ results r1) in *.
  pose proof (accept_spec limits now results (plan_calls nodes) r2 ∅ Hr2 ltac:(intros ? ?; by rewrite lookup_empty)) as Hacc. cbv zeta in Hacc.
  rewrite H in Hacc. destruct Hacc as (H1 & H2 & H3). fold (call_ids nodes) in H2, H3. split; [done|]. split.
  - rewrite H2, Hz2, Hz1. split.
    + intros (((Hz & Hk) & Hu) & Hv). split; [done|]. exists results, batch. done.
    + intros (Hz & rs & bt & _ & [= <-] & Hk & _ & Hrs & Hu & Hv). assert (rs = results) as -> by congruence. done.
  - intros id raw. rewrite H3, lookup_empty. split.
    + intros [[Hi Hs]|?]; [|done]. exists results. split; [|done]. split; [done|]. by exists batch.
    + intros (rs & (_ & bt & [= <-] & _ & Hrs) & Hi & Hs). assert (rs = results) as -> by congruence. by left.
Qed.
End SessionReport.
