(* ===== verification/Session.v ===== *)
(** * The plan/evaluate session (dambi-core/src/session/mod.rs)

    A session owns decoded plans and the snapshot each was made under. A plan is
    issued once, evaluated at most once, expires, and leaves a bounded tombstone; a
    host returns facts and cannot change a plan. [Globals] are the statics shared by
    all sessions. Sessions that share them form a transition system whose events
    are the plans issued and evaluated. *)
From stdpp Require Import base tactics numbers list strings gmap pretty relations.
From S2P Require Import Prelude Types Apply Bytes SyncLive PolicyEngine PolicyRpc BundleFormat BundleTrust SnapshotStore.
From S2P Require Import ActionViews PolicyRuntime SessionInput SessionReport.
Import SyncLive.

Module Session.
Import PolicyEngine PolicyRpc BundleFormat BundleTrust SnapshotStore ActionViews PolicyRuntime SessionInput SessionReport.

(** [NEXT_SESSION], [NEXT_REFRESH] and the lifecycles of disposed stores. *)
Record Globals := mkGlobals { gl_dead : gset LifecycleId; gl_next_session : Z; gl_next_refresh : Z }.
Definition initial_globals : Globals := mkGlobals ∅ 1 1.

Section Session.
Context {J : StrictJson} {K : Crypto} {C0 : Cedar} {T0 : PolicyTools C0} {L0 : Lowering} {S0 : ScamSettings} {M0 : ScamModule S0} {D0 : RequestDecoder}.
(** Whether arithmetic is checked, the width of [usize], the walk of a [HashSet], the crate version. *)
Context (ck : bool) (w : Z) (iter : gset string -> list string) (engine_version : string).
Context (prepare_decoder : DecoderInput -> list TrustedKey -> Z -> result SnapshotError VerifiedDecoder).
Context (config_from_value : Value -> result string Config) (wrapper_from_value : Value -> result string PolicyWrapper).

(** ** State *)
Record PendingPlan := mkPendingPlan {
  pp_request : Value; pp_digest : string; pp_snapshot : Snapshot (VerifiedDecoderSnapshot := VerifiedDecoder); pp_expires_at : Z;
  pp_nodes : list Node; pp_partial : bool; pp_scam : option ScamPlan }.
Record CoreSession := mkCoreSession {
  cs_store : SnapshotStore (VerifiedDecoderSnapshot := VerifiedDecoder); cs_limits : SessionLimits; cs_enforcement : string; cs_owner : Z;
  cs_next_plan : Z; cs_refresh : option (Z * RefreshTicket); cs_scam_refresh : option Z; cs_plans : gmap string PendingPlan;
  cs_retired : list (string * string); cs_scam : option ScamState }.
Definition set_store (s : CoreSession) (x : SnapshotStore (VerifiedDecoderSnapshot := VerifiedDecoder)) : CoreSession :=
  mkCoreSession x (cs_limits s) (cs_enforcement s) (cs_owner s) (cs_next_plan s) (cs_refresh s) (cs_scam_refresh s) (cs_plans s) (cs_retired s) (cs_scam s).
Definition set_refresh (s : CoreSession) (x : option (Z * RefreshTicket)) : CoreSession :=
  mkCoreSession (cs_store s) (cs_limits s) (cs_enforcement s) (cs_owner s) (cs_next_plan s) x (cs_scam_refresh s) (cs_plans s) (cs_retired s) (cs_scam s).
Definition set_scam_refresh (s : CoreSession) (x : option Z) : CoreSession :=
  mkCoreSession (cs_store s) (cs_limits s) (cs_enforcement s) (cs_owner s) (cs_next_plan s) (cs_refresh s) x (cs_plans s) (cs_retired s) (cs_scam s).
Definition set_plans (s : CoreSession) (plans : gmap string PendingPlan) (retired : list (string * string)) : CoreSession :=
  mkCoreSession (cs_store s) (cs_limits s) (cs_enforcement s) (cs_owner s) (cs_next_plan s) (cs_refresh s) (cs_scam_refresh s) plans retired (cs_scam s).
Definition set_scam (s : CoreSession) (x : option ScamState) : CoreSession :=
  mkCoreSession (cs_store s) (cs_limits s) (cs_enforcement s) (cs_owner s) (cs_next_plan s) (cs_refresh s) (cs_scam_refresh s) (cs_plans s) (cs_retired s) x.

Definition live (g : Globals) (s : CoreSession) : result SessionError () :=
  if decide (st_lifecycle (cs_store s) ∈ gl_dead g) then Err (mkSessionError "DISPOSED" "Core session is disposed") else Ok ().
(** [push_back], then [pop_front] while there are more than [max_pending_plans]. *)
Definition push_retired (limits : SessionLimits) (retired : list (string * string)) (id code : string) : list (string * string) :=
  let l := retired ++ [(id, code)] in drop (length l - Z.to_nat (li_max_pending_plans limits)) l.
Definition retire (s : CoreSession) (id code : string) : CoreSession := set_plans s (cs_plans s) (push_retired (cs_limits s) (cs_retired s) id code).
Definition evict_expired (s : CoreSession) (now_ms : Z) : CoreSession :=
  let expired := omap (fun kv => if pp_expires_at kv.2 <=? now_ms then Some kv.1 else None) (strings_in_order (cs_plans s)) in
  fold_left (fun s id => retire (set_plans s (delete id (cs_plans s)) (cs_retired s)) id "PLAN_EXPIRED") expired s.

(** ** Creation *)
(** [fresh_id] is the identity of the new store's lifecycle. *)
Definition core_new (g : Globals) (fresh_id : LifecycleId) (config_json policy_json : string) (now_ms : Z) : Globals * result SessionError CoreSession :=
  match
    _ ← clock now_ms;
    config ← config_parse w config_from_value config_json;
    policy ← policy_parse wrapper_from_value policy_json (li_max_policy_bytes (co_limits config));
    store_config ← store_config w config;
    store ← map_err of_snapshot_error (store_new ck prepare_decoder fresh_id store_config
      (Pinned (bytes_of_string (dp_artifact (co_decoder_snapshot config))) (dp_expected_digest (co_decoder_snapshot config)))
      (policy_input policy) now_ms);
    if 2 ^ w - 1 <? gl_next_session g + 1 then Err (mkSessionError "LIMIT_EXCEEDED" "session identifier space exhausted")
    else Ok (config, store)
  with
  | Ok (config, store) =>
      let g' := mkGlobals (gl_dead g) (gl_next_session g + 1) (gl_next_refresh g) in
      (g', scam ← match co_scam config with Some c => st ← scam_new c; Ok (Some st) | None => Ok None end;
           Ok (mkCoreSession store (co_limits config) (co_enforcement config) (gl_next_session g) 0 None None ∅ [] scam))
  | Err e => (g, Err e)
  | Panic => (g, Panic)
  end.

(** ** Planning *)
Definition plan_id (owner number : Z) : string := ("p" +:+ pretty owner +:+ "-" +:+ pretty number)%string.
Definition public_call (id : string) (call : PlannedCallDto) : Value :=
  VObject [("manifestId", VString (pd_manifest_id call)); ("callId", VString id); ("method", VString (pd_method call)); ("params", pd_params call);
           ("outputs", VArray (pd_outputs call)); ("optional", VBool (pd_optional call))]%string.
(** The calls of one node, numbered after the calls planned before. *)
Fixpoint number_calls (id : string) (n : nat) (planned : list PlannedCallDto) : list Call :=
  match planned with
  | [] => []
  | call :: rest => mkCall (id +:+ "-c" +:+ pretty n)%string call :: number_calls id (S n) rest
  end.
Definition plan_node (action : ActionBody) (meta : ActionMeta) (path : list nat) (request : Request) (b : ValidatedPolicyBundle)
    (id : string) (st : list Node * list Value) (max_calls : Z) : result SessionError (list Node * list Value) :=
  let '(nodes, public_calls) := st in
  let tx := tx_new (rq_chain request) (rq_from request) (rq_to request) in
  let matched := existsb (fun m => manifest_matches m action tx) (vb_manifests b) in
  match plan_action (mkPlanActionInput (vb_manifests b) action meta tx ∅ ∅ default_enrichment) with
  | Ok planned =>
      if max_calls <? Z.of_nat (length public_calls + length planned)
      then Err (mkSessionError "LIMIT_EXCEEDED" "plan exceeds maxPlanCalls")
      else
        let calls := number_calls id (length public_calls) planned in
        Ok (nodes ++ [mkNode path action meta tx calls None matched],
            public_calls ++ map (fun c => public_call (cl_id c) (cl_runtime c)) calls)
  | Err error => Ok (nodes ++ [mkNode path action meta tx [] (Some (mkSessionError "ENGINE_ERROR" (ee_message error))) matched], public_calls)
  | Panic => Panic
  end.
Fixpoint append_node (action : ActionBody) (meta : ActionMeta) (path : list nat) (request : Request) (b : ValidatedPolicyBundle)
    (id : string) (max_calls : Z) (st : list Node * list Value) : result SessionError (list Node * list Value) :=
  if (MAX_ACTION_NODES <=? length st.1)%nat then Err (mkSessionError "LIMIT_EXCEEDED" "decoded action tree exceeds node limit")
  else
    st ← plan_node action meta path request b id st max_calls;
    match action with
    | Multicall actions =>
        (fix children (index : nat) (l : list ActionBody) (st : list Node * list Value) : result SessionError (list Node * list Value) :=
           match l with
           | [] => Ok st
           | child :: rest =>
               st ← append_node child meta (path ++ [index]) request b id max_calls st;
               children (S index) rest st
           end) 0%nat actions st
    | _ => Ok st
    end.
Fixpoint append_roots (roots index : nat) (actions : list Action) (request : Request) (b : ValidatedPolicyBundle) (id : string) (max_calls : Z)
    (st : list Node * list Value) : result SessionError (list Node * list Value) :=
  match actions with
  | [] => Ok st
  | action :: rest =>
      st ← append_node (ac_body action) (ac_meta action) (if (roots =? 1)%nat then [] else [index]) request b id max_calls st;
      append_roots roots (S index) rest request b id max_calls st
  end.
Definition snapshot_metadata (digest : string) (snapshot : Snapshot (VerifiedDecoderSnapshot := VerifiedDecoder)) : Value :=
  plan_metadata engine_version digest (vb_sequence (sn_policy snapshot)).
(** From the eviction to the insertion: the new plan, its number, its id and what the host is told. *)
Definition make_plan (g : Globals) (s : CoreSession) (request_json : string) (now_ms : Z) : result SessionError (string * Z * PendingPlan * Value) :=
  if li_max_pending_plans (cs_limits s) <=? Z.of_nat (size (cs_plans s))
  then Err (mkSessionError "LIMIT_EXCEEDED" "maxPendingPlans reached; consume a plan or wait for expiry")
  else
    snapshot ← map_err of_snapshot_error (current ck (gl_dead g) (cs_store s) now_ms);
    request ← request_decode request_json (sn_decoder snapshot) now_ms (li_max_request_bytes (cs_limits s));
    let expires_at := now_ms + li_plan_ttl_ms (cs_limits s) in
    if MAX_SAFE_INTEGER <? expires_at then Err (mkSessionError "INVALID_CONFIG" "plan expiry exceeds safe integer time")
    else
      let number := cs_next_plan s + 1 in
      if MAX_SAFE_INTEGER <? number then Err (mkSessionError "LIMIT_EXCEEDED" "plan identifier space exhausted")
      else
        let id := plan_id (cs_owner s) number in
        st ← append_roots (length (rq_actions request)) 0 (rq_actions request) request (sn_policy snapshot) id (li_max_plan_calls (cs_limits s)) ([], []);
        let '(nodes, calls) := st in
        match nodes with
        | [node] => match nd_planning_error node with Some error => Err error | None => Ok () end
        | _ => Ok ()
        end ≫= fun _ =>
        let scam := (fun state => scam_pin state nodes id now_ms) <$> cs_scam s in
        let result := [("planId", VString id); ("calls", VArray calls); ("expiresAt", VNumber (IntNum expires_at));
                       ("metadata", snapshot_metadata (rq_digest request) snapshot)]%string
          ++ match scam with
             | Some plan => [("scamCalls", VArray (scam_plan_calls plan));
                             ("policyPlanDeadlineMs", VNumber (IntNum (Z.min expires_at (vb_valid_until_ms (sn_policy snapshot)))))]%string
             | None => []
             end in
        Ok (id, number, mkPendingPlan (rq_original request) (rq_digest request) snapshot expires_at nodes (rq_partial request) scam, VObject result).
Definition core_plan (g : Globals) (s : CoreSession) (request_json : string) (now_ms : Z) : CoreSession * result SessionError Value :=
  match (_ ← live g s; clock now_ms) with
  | Ok _ =>
      let s := evict_expired s now_ms in
      match make_plan g s request_json now_ms with
      | Ok (id, number, plan, result) =>
          (mkCoreSession (cs_store s) (cs_limits s) (cs_enforcement s) (cs_owner s) number (cs_refresh s) (cs_scam_refresh s)
             (<[id := plan]> (cs_plans s)) (cs_retired s) (cs_scam s), Ok result)
      | Err e => (s, Err e)
      | Panic => (s, Panic)
      end
  | Err e => (s, Err e)
  | Panic => (s, Panic)
  end.

(** ** Evaluation *)
(** The host's clock, read in order; without one every reading is [now_ms]. *)
Record ClockState := mkClockState { ct_index : nat; ct_previous : Z; ct_invalid : bool }.
Definition read_clock (current_time : option (nat -> Z)) (now_ms : Z) (c : ClockState) : Z * ClockState :=
  let value := match current_time with Some f => f (ct_index c) | None => now_ms end in
  if (MAX_SAFE_INTEGER <? value) || (value <? ct_previous c)
  then (MAX_SAFE_INTEGER + 1, mkClockState (S (ct_index c)) (ct_previous c) true)
  else (value, mkClockState (S (ct_index c)) value (ct_invalid c)).
Fixpoint run_reads {A} (current_time : option (nat -> Z)) (now_ms : Z) (m : Reads A) (c : ClockState) : A * ClockState :=
  match m with
  | Done a => (a, c)
  | ReadClock k => let '(value, c) := read_clock current_time now_ms c in run_reads current_time now_ms (k value) c
  end.
Definition failure_message (code : string) : string :=
  (if String.eqb code "aborted" then "check was cancelled"
   else if String.eqb code "timeout" then "Fact fetch timed out"
   else if String.eqb code "fact_fetch_failed" then "Fact provider failed"
   else if String.eqb code "invalid_fact" then "Fact response could not be copied safely"
   else if String.eqb code "limit_exceeded" then "Fact response exceeds the configured limit"
   else "check could not complete")%string.
(** [check_failure] filtered to a non-empty code. *)
Definition failure_code (check_failure : option string) : option string :=
  match check_failure with Some code => if String.eqb code "" then None else Some code | None => None end.
Definition finish (s : CoreSession) (plan : PendingPlan) (report : Report) : Value :=
  report_finish report (cs_enforcement s) (snapshot_metadata (pp_digest plan) (pp_snapshot plan)).
(** The outcome of a plan found after its expiry. *)
Definition expired_outcome (s : CoreSession) (plan : PendingPlan) (check_failure : option string) : result SessionError Value :=
  match check_failure with
  | Some code =>
      let report := report_fail empty_report "timeout" "plan expired before check completed" None None in
      let report := if negb (String.eqb code "") && negb (String.eqb code "timeout")
                    then report_fail report code "check could not complete" None None else report in
      Ok (compose (finish s plan report) (scam_no_time_budget <$> pp_scam plan))
  | None => Err (mkSessionError "PLAN_EXPIRED" "plan TTL has expired")
  end.
Definition scam_phase (s : CoreSession) (plan : PendingPlan) (id facts_json : string) (now_ms : Z) (check_failure scam_input : option string)
    (current_time : option (nat -> Z)) : option Value * Z * ClockState :=
  let c := mkClockState 0 now_ms false in
  let deadline := (fun facts => Z.min (Z.min facts (pp_expires_at plan)) (vb_valid_until_ms (sn_policy (pp_snapshot plan))))
    <$> policy_fact_deadline facts_json (li_max_fact_bytes (cs_limits s)) (li_max_fact_age_ms (cs_limits s)) in
  let '(scam_result, c) :=
    match pp_scam plan with
    | None => (None, c)
    | Some scam =>
        match failure_code check_failure with
        | Some _ => (Some (scam_no_time_budget scam), c)
        | None =>
            let '(value, c) := run_reads current_time now_ms
              (scam_evaluate scam id scam_input now_ms deadline (li_allowed_clock_skew_ms (cs_limits s))) c in
            (Some value, c)
        end
    end in
  let '(evaluated_at, c) := read_clock current_time now_ms c in
  (scam_result, evaluated_at, c).
(** From consumption on: the evaluation proper of a live plan. *)
Definition evaluate_plan (g : Globals) (s : CoreSession) (plan : PendingPlan) (id facts_json : string) (now_ms : Z)
    (check_failure scam_input : option string) (current_time : option (nat -> Z)) : result SessionError Value :=
  let '(scam_result, evaluated_at, c) := scam_phase s plan id facts_json now_ms check_failure scam_input current_time in
  let report := match failure_code check_failure with
                | Some code => report_fail empty_report code (failure_message code) None None
                | None => empty_report
                end in
  if ct_invalid c
  then Ok (compose (finish s plan (report_fail report "engine_error" "evaluation clock is invalid or moved backwards" None None)) scam_result)
  else if pp_expires_at plan <=? evaluated_at
  then Ok (compose (finish s plan (report_fail report "timeout" "plan expired during evaluation" None None)) scam_result)
  else
    match ensure_usable ck (gl_dead g) (pp_snapshot plan) evaluated_at with
    | Err error => Ok (compose (finish s plan (report_fail report "trust_expired" (sk_message error) None None)) scam_result)
    | Panic => Panic
    | Ok _ =>
        checked ← facts_validate facts_json id (pp_nodes plan) (cs_limits s) evaluated_at report;
        let '(report, accepted) := checked in
        let report := if pp_partial plan then report_partial report "transaction decoder reported partial interpretation" [] else report in
        report ← foldM (evaluate_node iter (sn_policy (pp_snapshot plan)) accepted) (pp_nodes plan) report;
        Ok (compose (finish s plan report) scam_result)
    end.
Definition evaluate_inner (g : Globals) (s : CoreSession) (id facts_json : string) (now_ms : Z) (check_failure scam_input : option string)
    (current_time : option (nat -> Z)) : CoreSession * result SessionError Value :=
  match (_ ← live g s; clock now_ms) with
  | Ok _ =>
      match cs_plans s !! id with
      | None =>
          let code := match find (fun r => String.eqb r.1 id) (rev (cs_retired s)) with Some r => r.2 | None => "INVALID_PLAN"%string end in
          (s, Err (mkSessionError code "plan is foreign, unknown or no longer usable"))
      | Some plan =>
          let s := set_plans s (delete id (cs_plans s)) (cs_retired s) in
          if pp_expires_at plan <=? now_ms
          then let s := retire s id "PLAN_EXPIRED" in (s, expired_outcome s plan check_failure)
          else let s := retire s id "PLAN_CONSUMED" in (s, evaluate_plan g s plan id facts_json now_ms check_failure scam_input current_time)
      end
  | Err e => (s, Err e)
  | Panic => (s, Panic)
  end.
Definition FAILURE_CATEGORIES : list string :=
  [""; "aborted"; "timeout"; "fact_fetch_failed"; "invalid_fact"; "limit_exceeded"; "engine_error"]%string.
Definition core_evaluate (g : Globals) (s : CoreSession) (id facts_json : string) (now_ms : Z) : CoreSession * result SessionError Value :=
  evaluate_inner g s id facts_json now_ms None None None.
Definition core_evaluate_check (g : Globals) (s : CoreSession) (id facts_json : string) (now_ms : Z) (failure : string)
    : CoreSession * result SessionError Value :=
  if in_keys FAILURE_CATEGORIES failure then evaluate_inner g s id facts_json now_ms (Some failure) None None
  else (s, Err (mkSessionError "ENGINE_ERROR" "invalid check failure category")).
Definition core_evaluate_scam (g : Globals) (s : CoreSession) (id facts_json scam_input_json : string) (now_ms : Z) (now : nat -> Z)
    : CoreSession * result SessionError Value :=
  evaluate_inner g s id facts_json now_ms None (Some scam_input_json) (Some now).
Definition core_evaluate_check_scam (g : Globals) (s : CoreSession) (id facts_json scam_input_json : string) (now_ms : Z) (failure : string) (now : nat -> Z)
    : CoreSession * result SessionError Value :=
  if in_keys FAILURE_CATEGORIES failure then evaluate_inner g s id facts_json now_ms (Some failure) (Some scam_input_json) (Some now)
  else (s, Err (mkSessionError "ENGINE_ERROR" "invalid check failure category")).

(** ** Refresh, settings and disposal *)
Definition not_configured : SessionError := mkSessionError "INVALID_CONFIG" "scam is not configured".
Definition core_set_scam_settings (g : Globals) (s : CoreSession) (settings_json : string) : CoreSession * result SessionError () :=
  match live g s with
  | Ok _ =>
      match cs_scam s with
      | Some state => let '(state, r) := scam_set_settings state settings_json in (set_scam s (Some state), r)
      | None => (s, Err not_configured)
      end
  | r => (s, r)
  end.
(** [NEXT_REFRESH.fetch_update]: the id and the next value. *)
Definition next_refresh (g : Globals) : result SessionError (Z * Globals) :=
  let id := gl_next_refresh g in
  if (2 ^ w - 1 <? id + 1) || (MAX_SAFE_INTEGER <? id + 1) then Err (mkSessionError "LIMIT_EXCEEDED" "refresh identifier space exhausted")
  else Ok (id, mkGlobals (gl_dead g) (gl_next_session g) (id + 1)).
Definition core_begin_refresh (g : Globals) (s : CoreSession) : Globals * CoreSession * result SessionError Z :=
  match (_ ← live g s; next_refresh g) with
  | Ok (id, g') =>
      match begin_refresh (gl_dead g) (cs_store s) with
      | (store, Ok ticket) => (g', set_refresh (set_store s store) (Some (id, ticket)), Ok id)
      | (store, Err e) => (g', set_store s store, Err (of_snapshot_error e))
      | (store, Panic) => (g', set_store s store, Panic)
      end
  | Err e => (g, s, Err e)
  | Panic => (g, s, Panic)
  end.
Definition core_begin_scam_refresh (g : Globals) (s : CoreSession) : Globals * CoreSession * result SessionError Z :=
  match (_ ← live g s; _ ← (match cs_scam s with Some _ => Ok () | None => Err not_configured end); next_refresh g) with
  | Ok (id, g') => (g', set_scam_refresh s (Some id), Ok id)
  | Err e => (g, s, Err e)
  | Panic => (g, s, Panic)
  end.
Definition stale_scam : SessionError := mkSessionError "ABORTED" "scam refresh ticket is stale or foreign".
Definition core_commit_scam_refresh (g : Globals) (s : CoreSession) (ticket : Z) (envelope_json : string) (now_ms : Z)
    : CoreSession * result SessionError () :=
  match (_ ← live g s; clock now_ms) with
  | Ok _ =>
      if negb (bool_decide (cs_scam_refresh s = Some ticket)) then (s, Err stale_scam)
      else
        let s := set_scam_refresh s None in
        match cs_scam s with
        | Some state => let '(state, r) := scam_install_signed state envelope_json now_ms in (set_scam s (Some state), r)
        | None => (s, Err not_configured)
        end
  | r => (s, r)
  end.
Definition core_cancel_scam_refresh (g : Globals) (s : CoreSession) (ticket : Z) : CoreSession * result SessionError () :=
  match live g s with
  | Ok _ => if negb (bool_decide (cs_scam_refresh s = Some ticket)) then (s, Err stale_scam) else (set_scam_refresh s None, Ok ())
  | r => (s, r)
  end.
Definition stale_refresh : SessionError := mkSessionError "ABORTED" "refresh ticket is stale or foreign".
(** The closure of [commit_refresh]: parse, prepare and commit against the store. *)
Definition try_commit (g : Globals) (s : CoreSession) (ticket : RefreshTicket) (policy_json : string) (now_ms : Z)
    : SnapshotStore (VerifiedDecoderSnapshot := VerifiedDecoder) * result SessionError () :=
  match
    policy ← policy_parse wrapper_from_value policy_json (li_max_policy_bytes (cs_limits s));
    map_err of_snapshot_error (prepare_refresh ck (gl_dead g) (cs_store s) ticket (policy_input policy) now_ms)
  with
  | Ok prepared =>
      let '(store, r) := commit_refresh ck (gl_dead g) (cs_store s) prepared now_ms in
      (store, _ ← map_err of_snapshot_error r; Ok ())
  | Err e => (cs_store s, Err e)
  | Panic => (cs_store s, Panic)
  end.
Definition core_commit_refresh (g : Globals) (s : CoreSession) (ticket : Z) (policy_json : string) (now_ms : Z) : CoreSession * result SessionError () :=
  match (_ ← live g s; clock now_ms) with
  | Ok _ =>
      match cs_refresh s with
      | Some (id, store_ticket) =>
          if negb (id =? ticket) then (s, Err stale_refresh)
          else
            let s := set_refresh s None in
            match try_commit g s store_ticket policy_json now_ms with
            | (store, Err e) => (set_store s (cancel_refresh (gl_dead g) store store_ticket).1, Err e)
            | (store, r) => (set_store s store, r)
            end
      | None => (s, Err stale_refresh)
      end
  | r => (s, r)
  end.
Definition core_cancel_refresh (g : Globals) (s : CoreSession) (ticket : Z) : CoreSession * result SessionError () :=
  match live g s with
  | Ok _ =>
      match cs_refresh s with
      | Some (id, store_ticket) =>
          if negb (id =? ticket) then (s, Err stale_refresh)
          else
            let s := set_refresh s None in
            let '(store, r) := cancel_refresh (gl_dead g) (cs_store s) store_ticket in
            (set_store s store, map_err of_snapshot_error r)
      | None => (s, Err stale_refresh)
      end
  | r => (s, r)
  end.
Definition core_dispose (g : Globals) (s : CoreSession) : Globals * CoreSession :=
  let '(dead, store) := dispose (gl_dead g) (cs_store s) in
  (mkGlobals dead (gl_next_session g) (gl_next_refresh g),
   mkCoreSession store (cs_limits s) (cs_enforcement s) (cs_owner s) (cs_next_plan s) None None ∅ [] None).

(** ** When a plan is allowed *)
Definition decision (v : Value) : Value := value_index v "decision".
Definition scam_warns (scam : option Value) : bool := match scam with Some v => is_string (value_index v "status") "warn" | None => false end.
Lemma compose_allow r enforcement metadata scam :
  decision (compose (report_finish r enforcement metadata) scam) = VString "allow" <-> rp_rank r = 0 /\ scam_warns scam = false.
Proof.
  unfold report_finish. destruct scam as [v|]; simpl.
  - destruct (is_string (value_index v "status") "warn"); destruct (Z.eqb_spec (rp_rank r) 0) as [Hr|Hr]; simpl; [by split; [|intros [_ ?]]| |done|].
    + destruct (rp_rank r =? 1); simpl; split; try done; by intros [? _].
    + destruct (rp_rank r =? 1); simpl; split; try done; by intros [? _].
  - destruct (Z.eqb_spec (rp_rank r) 0) as [Hr|Hr]; [done|]. destruct (rp_rank r =? 1); split; try done; by intros [? _].
Qed.
Lemma read_clock_valid time now c v c' : read_clock time now c = (v, c') -> ct_invalid c' = false ->
  ct_invalid c = false /\ ct_previous c <= v <= MAX_SAFE_INTEGER /\ ct_previous c' = v.
Proof.
  unfold read_clock. destruct (Z.ltb_spec MAX_SAFE_INTEGER (match time with Some f => f (ct_index c) | None => now end)) as [|Hm]; simpl; [by intros [= <- <-]|].
  destruct (Z.ltb_spec (match time with Some f => f (ct_index c) | None => now end) (ct_previous c)) as [|Hp]; [by intros [= <- <-]|].
  intros [= <- <-]. simpl. done.
Qed.
Lemma run_reads_valid {A} time now (m : Reads A) : forall c a c', run_reads time now m c = (a, c') -> ct_invalid c' = false ->
  ct_invalid c = false /\ ct_previous c <= ct_previous c'.
Proof.
  induction m as [a0|k IH]; intros c a c'; cbn [run_reads]; [intros [= <- <-]; split; [done|lia]|].
  destruct (read_clock time now c) as [v c1] eqn:Hr. intros H Hi. destruct (IH v c1 a c' H Hi) as [H1 H2].
  destruct (read_clock_valid _ _ _ _ _ Hr H1) as (H3 & H4 & H5). split; [done|lia].
Qed.
Lemma scam_phase_valid s plan id facts now failure scam_input time r at_ c :
  scam_phase s plan id facts now failure scam_input time = (r, at_, c) -> ct_invalid c = false -> now <= at_ <= MAX_SAFE_INTEGER.
Proof.
  unfold scam_phase. set (start := match pp_scam plan with None => _ | Some _ => _ end). destruct start as [r0 c0] eqn:Hs.
  destruct (read_clock time now c0) as [v c1] eqn:Hr. intros [= <- <- <-] Hi. destruct (read_clock_valid _ _ _ _ _ Hr Hi) as (Hi0 & Hv & _).
  assert (now <= ct_previous c0); [|lia]. subst start. destruct (pp_scam plan) as [scam|]; [|injection Hs as <- <-; simpl; lia].
  destruct (failure_code failure); [injection Hs as <- <-; simpl; lia|].
  destruct (run_reads time now _ _) as [x c2] eqn:Hrun in Hs. injection Hs as <- <-. by apply run_reads_valid in Hrun as [_ Hm].
Qed.
(** The facts an evaluation works with: the fresh results the batch holds for the plan's calls. *)
Definition is_accepted (limits : SessionLimits) (plan : PendingPlan) (id facts_json : string) (at_ : Z) (accepted : gmap string Value) : Prop :=
  forall k raw, accepted !! k = Some raw <->
    exists results, batch_results facts_json id limits results /\ k ∈ call_ids (pp_nodes plan) /\ supplied limits at_ results k raw.
Lemma is_accepted_unique limits plan id facts at_ a b : is_accepted limits plan id facts at_ a -> is_accepted limits plan id facts at_ b -> a = b.
Proof.
  intros Ha Hb. apply map_eq. intros k. apply option_eq. intros raw. by rewrite (Ha k raw), (Hb k raw).
Qed.
(** Everything that has to hold for a plan to be allowed. *)
Record allowed (g : Globals) (limits : SessionLimits) (plan : PendingPlan) (id facts_json : string) (at_ : Z) : Prop := {
  aw_live : at_ < pp_expires_at plan;
  aw_trusted : ensure_usable ck (gl_dead g) (pp_snapshot plan) at_ = Ok ();
  aw_batch : batch_clear facts_json id (pp_nodes plan) limits at_;
  aw_decoded : pp_partial plan = false;
  aw_nodes : exists accepted, is_accepted limits plan id facts_json at_ accepted /\
    Forall (node_clear iter (sn_policy (pp_snapshot plan)) accepted) (pp_nodes plan);
}.
Lemma evaluate_plan_allow g s plan id facts now failure scam_input time v : evaluate_plan g s plan id facts now failure scam_input time = Ok v ->
  let '(scam, at_, c) := scam_phase s plan id facts now failure scam_input time in
  decision v = VString "allow" <-> failure_code failure = None /\ ct_invalid c = false /\ scam_warns scam = false /\ allowed g (cs_limits s) plan id facts at_.
Proof.
  unfold evaluate_plan. destruct (scam_phase s plan id facts now failure scam_input time) as [[scam at_] c].
  set (r0 := match failure_code failure with Some _ => _ | None => _ end).
  assert (0 <= rp_rank r0 /\ (rp_rank r0 = 0 <-> failure_code failure = None)) as [Hr0 Hz0].
  { subst r0. destruct (failure_code failure); [rewrite fail_rank; split; [lia|]; split; [lia|done]|done]. }
  destruct (ct_invalid c); [intros [= <-]; unfold finish; rewrite compose_allow, fail_rank; split; [lia|by intros (_ & ? & _)]|].
  destruct (Z.leb_spec (pp_expires_at plan) at_) as [He|He].
  { intros [= <-]. unfold finish. rewrite compose_allow, fail_rank. split; [lia|]. intros (_ & _ & _ & [H _ _ _ _]). lia. }
  destruct (ensure_usable ck (gl_dead g) (pp_snapshot plan) at_) as [[]|e|] eqn:Hu; [| |done].
  2:{ intros [= <-]. unfold finish. rewrite compose_allow, fail_rank. split; [lia|]. intros (_ & _ & _ & [_ H _ _ _]). congruence. }
  intros ((r1 & accepted) & Hf & H)%bind_Ok_inv. apply facts_validate_spec in Hf as (Hr1 & Hz1 & Hacc); [|done].
  set (r2 := if pp_partial plan then _ else _) in H.
  assert (0 <= rp_rank r2 /\ (rp_rank r2 = 0 <-> rp_rank r1 = 0 /\ pp_partial plan = false)) as [Hr2 Hz2].
  { subst r2. destruct (pp_partial plan); [cbn [report_partial report_diagnostic rp_rank]; split; [lia|]; split; [lia|by intros [_ ?]]|]. split; [done|]. split; [done|by intros [? _]]. }
  apply bind_Ok_inv in H as (r3 & Hn & [= <-]). apply evaluate_nodes_clear in Hn as [Hr3 Hz3]; [|done].
  unfold finish. rewrite compose_allow, Hz3, Hz2, Hz1, Hz0. split.
  - intros ((((Hc & Hb) & Hp) & Hnodes) & Hs). split; [done|]. split; [done|]. split; [done|]. split; try done. exists accepted. split; done.
  - intros (Hc & _ & Hs & [_ _ Hb Hp (a & Ha & Hnodes)]). assert (a = accepted) as -> by (by eapply is_accepted_unique). done.
Qed.

(** C11: An evaluation allows a plan exactly when nothing was left out: the plan is pending and not
    expired when it is taken and when it is judged, the host reported no failure, the clock never
    ran backwards, the pinned policy is still trusted, the batch of facts is faultless and fresh,
    the decoder understood the whole transaction, and every node of the action tree has its
    required facts and passes its policies; and the scam analysis does not warn. *)
Theorem allow_exact g s id facts now failure scam_input time s' v :
  evaluate_inner g s id facts now failure scam_input time = (s', Ok v) ->
  decision v = VString "allow" <->
  exists plan, cs_plans s !! id = Some plan /\ now < pp_expires_at plan /\
    let '(scam, at_, c) := scam_phase s plan id facts now failure scam_input time in
    now <= at_ /\ failure_code failure = None /\ ct_invalid c = false /\ scam_warns scam = false /\ allowed g (cs_limits s) plan id facts at_.
Proof.
  unfold evaluate_inner. destruct (_ ← live g s; clock now) as [[]|e|]; [|done..]. destruct (cs_plans s !! id) as [plan|]; [|done].
  destruct (Z.leb_spec (pp_expires_at plan) now) as [He|He].
  - intros [= <- H]. unfold expired_outcome in H. destruct failure as [code|]; [|done]. injection H as <-. unfold finish. rewrite compose_allow.
    split; [|intros (p & [= <-] & ? & _); lia]. intros [Hr _]. destruct (_ && _) in Hr; rewrite fail_rank in Hr; lia.
  - intros [= <- H]. apply evaluate_plan_allow in H. change (scam_phase (retire _ _ _)) with (scam_phase s) in H. cbn [retire set_plans cs_limits] in H.
    destruct (scam_phase s plan id facts now failure scam_input time) as [[scam at_] c] eqn:Hp. rewrite H. split.
    + intros (Hc & Hi & Hs & Ha). exists plan. rewrite Hp. split; [done|]. split; [done|].
      destruct (scam_phase_valid _ _ _ _ _ _ _ _ _ _ _ Hp Hi). done.
    + intros (p & [= <-] & _ & Hx). rewrite Hp in Hx. by destruct Hx as (_ & ?).
Qed.
End Session.
End Session.
