(* ===== verification/SessionRun.v ===== *)
(** * Runs of sessions (dambi-core/src/session/mod.rs over dambi-core/src/snapshot)

    Any number of sessions under one set of statics, called in any order with any
    arguments at any clock value. The events of a run are the plans issued and
    judged. Every run of sessions is a run of their snapshot stores. *)
From stdpp Require Import base tactics numbers list strings gmap pretty relations.
From S2P Require Import Prelude Types AmmTypes AmmSwap Apply Bytes SyncLive SyncRefresh PolicyEngine PolicyRpc BundleFormat BundleTrust SnapshotStore.
From S2P Require Import ActionViews PolicyRuntime SessionInput SessionReport Session.
Import SyncLive.

Module SessionRun.
Import PolicyEngine PolicyRpc BundleFormat BundleTrust SnapshotStore ActionViews PolicyRuntime SessionInput SessionReport Session.

(** ** Plan identifiers *)
Fixpoint no_dash (s : string) : bool :=
  match s with EmptyString => true | String c rest => negb (Ascii.eqb c (Ascii.ascii_of_nat 45)) && no_dash rest end.
Lemma digits_no_dash s : forall acc v, digits_value acc s = Some v -> no_dash s = true.
Proof.
  induction s as [|c s IH]; intros acc v; [done|]. cbn [digits_value no_dash]. destruct (is_digit c) eqn:Hd; [|done]. intros H. rewrite (IH _ _ H), andb_true_r.
  destruct (Ascii.eqb_spec c (Ascii.ascii_of_nat 45)) as [->|]; [done|done].
Qed.
Lemma dash_split a b s t : no_dash a = true -> no_dash b = true ->
  (a +:+ "-" +:+ s)%string = (b +:+ "-" +:+ t)%string -> a = b /\ s = t.
Proof.
  revert b. induction a as [|c a IH]; intros [|d b] Ha Hb; cbn [String.append].
  - intros H. by injection H as H.
  - intros H. injection H as H _. rewrite <- H in Hb. by cbn in Hb.
  - intros H. injection H as H _. rewrite H in Ha. by cbn in Ha.
  - intros H. injection H as -> H. cbn [no_dash] in Ha, Hb. apply andb_true_iff in Ha as [_ Ha], Hb as [_ Hb]. destruct (IH b Ha Hb H) as [-> ->]. done.
Qed.
Lemma plan_id_inj o n o' n' : 0 < o -> 0 < o' -> plan_id o n = plan_id o' n' -> o = o' /\ n = n'.
Proof.
  intros Ho Ho' H. unfold plan_id in H. cbn [String.append] in H. injection H as H.
  apply dash_split in H as [H1 H2]; [|eapply digits_no_dash; by apply digits_pretty..]. split; by apply (inj pretty).
Qed.

Section Runs.
Context {J : StrictJson} {K : Crypto} {C0 : Cedar} {T0 : PolicyTools C0} {L0 : Lowering} {S0 : ScamSettings} {M0 : ScamModule S0} {D0 : RequestDecoder}.
Context (ck : bool) (w : Z) (iter : gset string -> list string) (engine_version : string).
Context (prepare_decoder : DecoderInput -> list TrustedKey -> Z -> result SnapshotError VerifiedDecoder).
Context (config_from_value : Value -> result string Config) (wrapper_from_value : Value -> result string PolicyWrapper).
#[local] Notation core_plan := (core_plan ck engine_version).
#[local] Notation evaluate_inner := (evaluate_inner ck iter engine_version).
#[local] Notation core_new := (core_new ck w prepare_decoder config_from_value wrapper_from_value).

(** ** Steps *)
(** Calls that leave the plans of a session alone. *)
Inductive serves (g : Globals) (s : CoreSession) : Globals -> CoreSession -> Prop :=
| sv_begin g' s' r : core_begin_refresh w g s = (g', s', r) -> serves g s g' s'
| sv_commit ticket policy now s' r : core_commit_refresh ck wrapper_from_value g s ticket policy now = (s', r) -> serves g s g s'
| sv_cancel ticket s' r : core_cancel_refresh g s ticket = (s', r) -> serves g s g s'
| sv_begin_scam g' s' r : core_begin_scam_refresh w g s = (g', s', r) -> serves g s g' s'
| sv_commit_scam ticket envelope now s' r : core_commit_scam_refresh g s ticket envelope now = (s', r) -> serves g s g s'
| sv_cancel_scam ticket s' r : core_cancel_scam_refresh g s ticket = (s', r) -> serves g s g s'
| sv_settings settings s' r : core_set_scam_settings g s settings = (s', r) -> serves g s g s'.
Record SessionWorld := mkSessionWorld { sw_globals : Globals; sw_sessions : gmap LifecycleId CoreSession }.
Inductive Event := Issued (id : string) | Judged (id : string) (result : Value) | Quiet.
(** The four [evaluate] entry points are [evaluate_inner] with some of its last arguments fixed. *)
Inductive session_step : SessionWorld -> Event -> SessionWorld -> Prop :=
| ss_new g ss l config policy now g' s : ss !! l = None -> l ∉ gl_dead g -> core_new g l config policy now = (g', Ok s) ->
    session_step (mkSessionWorld g ss) Quiet (mkSessionWorld g' (<[l := s]> ss))
| ss_not_new g ss l config policy now g' e : core_new g l config policy now = (g', Err e) ->
    session_step (mkSessionWorld g ss) Quiet (mkSessionWorld g' ss)
| ss_plan g ss l s request now s' v id : ss !! l = Some s -> core_plan g s request now = (s', Ok v) -> value_get v "planId" = Some (VString id) ->
    session_step (mkSessionWorld g ss) (Issued id) (mkSessionWorld g (<[l := s']> ss))
| ss_not_planned g ss l s request now s' e : ss !! l = Some s -> core_plan g s request now = (s', Err e) ->
    session_step (mkSessionWorld g ss) Quiet (mkSessionWorld g (<[l := s']> ss))
| ss_judge g ss l s id facts now failure scam_input time s' v : ss !! l = Some s ->
    evaluate_inner g s id facts now failure scam_input time = (s', Ok v) ->
    session_step (mkSessionWorld g ss) (Judged id v) (mkSessionWorld g (<[l := s']> ss))
| ss_not_judged g ss l s id facts now failure scam_input time s' e : ss !! l = Some s ->
    evaluate_inner g s id facts now failure scam_input time = (s', Err e) ->
    session_step (mkSessionWorld g ss) Quiet (mkSessionWorld g (<[l := s']> ss))
| ss_serve g ss l s g' s' : ss !! l = Some s -> serves g s g' s' ->
    session_step (mkSessionWorld g ss) Quiet (mkSessionWorld g' (<[l := s']> ss))
| ss_dispose g ss l s g' s' : ss !! l = Some s -> core_dispose g s = (g', s') ->
    session_step (mkSessionWorld g ss) Quiet (mkSessionWorld g' (<[l := s']> ss)).
Inductive runs : SessionWorld -> list Event -> SessionWorld -> Prop :=
| runs_refl W : runs W [] W
| runs_step W log W1 e W2 : runs W log W1 -> session_step W1 e W2 -> runs W (log ++ [e]) W2.
Definition initial_sessions : SessionWorld := mkSessionWorld initial_globals ∅.
Definition issued_in (log : list Event) (id : string) : Prop := Issued id ∈ log.
Definition judged_in (log : list Event) (id : string) : Prop := exists v, Judged id v ∈ log.

(** ** What the calls change *)
(** The part of a session that plans depend on. *)
Definition same_plans (s s' : CoreSession) : Prop :=
  cs_plans s' = cs_plans s /\ cs_retired s' = cs_retired s /\ cs_owner s' = cs_owner s /\ cs_next_plan s' = cs_next_plan s /\ cs_limits s' = cs_limits s.
Lemma serves_same g s g' s' : serves g s g' s' -> same_plans s s' /\ gl_dead g' = gl_dead g /\ gl_next_session g' = gl_next_session g.
Proof.
  unfold same_plans. destruct 1 as [g' s' r H|ticket policy now s' r H|ticket s' r H|g' s' r H|ticket envelope now s' r H|ticket s' r H|settings s' r H].
  - unfold core_begin_refresh in H. destruct (_ ← live g s; next_refresh w g) as [[id g1]|e|] eqn:Hn; [|by injection H as <- <- _..].
    apply bind_Ok_inv in Hn as (? & _ & Hn). unfold next_refresh in Hn. destruct (_ || _) in Hn; [done|]. injection Hn as _ <-.
    destruct (begin_refresh _ _) as [store [t|e|]]; by injection H as <- <- _.
  - unfold core_commit_refresh in H. destruct (_ ← live g s; clock now); [|by injection H as <- _..]. destruct (cs_refresh s) as [[id t]|]; [|by injection H as <- _].
    destruct (negb _); [by injection H as <- _|]. destruct (try_commit _ _ _ _ _ _ _) as [store [?|?|]]; by injection H as <- _.
  - unfold core_cancel_refresh in H. destruct (live g s); [|by injection H as <- _..]. destruct (cs_refresh s) as [[id t]|]; [|by injection H as <- _].
    destruct (negb _); [by injection H as <- _|]. destruct (cancel_refresh _ _ _) as [store r0]. by injection H as <- _.
  - unfold core_begin_scam_refresh in H. destruct (_ ← live g s; _ ← _; next_refresh w g) as [[id g1]|e|] eqn:Hn; [|by injection H as <- <- _..].
    apply bind_Ok_inv in Hn as (? & _ & Hn). apply bind_Ok_inv in Hn as (? & _ & Hn). unfold next_refresh in Hn. destruct (_ || _) in Hn; [done|]. injection Hn as _ <-.
    by injection H as <- <- _.
  - unfold core_commit_scam_refresh in H. destruct (_ ← live g s; clock now); [|by injection H as <- _..]. destruct (negb _); [by injection H as <- _|].
    cbn [set_scam_refresh cs_scam] in H. destruct (cs_scam s) as [st|]; [|by injection H as <- _]. destruct (scam_install_signed st envelope now) as [st' r0]. by injection H as <- _.
  - unfold core_cancel_scam_refresh in H. destruct (live g s); [|by injection H as <- _..]. destruct (negb _); by injection H as <- _.
  - unfold core_set_scam_settings in H. destruct (live g s); [|by injection H as <- _..]. destruct (cs_scam s) as [st|]; [|by injection H as <- _].
    destruct (scam_set_settings st settings) as [st' r0]. by injection H as <- _.
Qed.
Lemma push_retired_bound limits retired id code : 1 <= li_max_pending_plans limits ->
  Z.of_nat (length (push_retired limits retired id code)) <= li_max_pending_plans limits.
Proof. intros H. unfold push_retired. rewrite length_drop. lia. Qed.
(** Eviction: the expired plans go, the others stay, the tombstones stay bounded. *)
Lemma evict_spec s now : let s' := evict_expired s now in
  cs_store s' = cs_store s /\ cs_limits s' = cs_limits s /\ cs_owner s' = cs_owner s /\ cs_next_plan s' = cs_next_plan s /\ cs_refresh s' = cs_refresh s /\
  (forall id p, cs_plans s' !! id = Some p <-> cs_plans s !! id = Some p /\ now < pp_expires_at p) /\
  (1 <= li_max_pending_plans (cs_limits s) -> Z.of_nat (length (cs_retired s)) <= li_max_pending_plans (cs_limits s) ->
   Z.of_nat (length (cs_retired s')) <= li_max_pending_plans (cs_limits s)).
Proof.
  unfold evict_expired. set (expired := omap _ _).
  assert (forall id, id ∈ expired <-> exists p, cs_plans s !! id = Some p /\ pp_expires_at p <= now) as He.
  { intros id. unfold expired. rewrite list_elem_of_omap. split.
    - intros ([k p] & Hk%SyncRefresh.strings_in_order_elem & Hi). cbn in Hi. destruct (Z.leb_spec (pp_expires_at p) now); [|done]. injection Hi as <-. by exists p.
    - intros (p & Hp & Hx). exists (id, p). split; [by apply SyncRefresh.strings_in_order_elem|]. cbn. by destruct (Z.leb_spec (pp_expires_at p) now); [|lia]. }
  assert (forall l s0, let s' := fold_left (fun s id => retire (set_plans s (delete id (cs_plans s)) (cs_retired s)) id "PLAN_EXPIRED") l s0 in
    cs_store s' = cs_store s0 /\ cs_limits s' = cs_limits s0 /\ cs_owner s' = cs_owner s0 /\ cs_next_plan s' = cs_next_plan s0 /\ cs_refresh s' = cs_refresh s0 /\
    (forall id p, cs_plans s' !! id = Some p <-> cs_plans s0 !! id = Some p /\ id ∉ l) /\
    (1 <= li_max_pending_plans (cs_limits s0) -> Z.of_nat (length (cs_retired s0)) <= li_max_pending_plans (cs_limits s0) ->
     Z.of_nat (length (cs_retired s')) <= li_max_pending_plans (cs_limits s0))) as Hfold.
  { induction l as [|x l IH]; intros s0; [cbn; do 5 (split; [done|]); split; [|done]; intros id p; split; [intros H; split; [done|by intros ?%elem_of_nil]|by intros [? _]]|].
    cbn [fold_left]. destruct (IH (retire (set_plans s0 (delete x (cs_plans s0)) (cs_retired s0)) x "PLAN_EXPIRED")) as (H1 & H2 & H3 & H4 & H5 & H6 & H7).
    do 5 (split; [done|]). split.
    - intros id p. rewrite H6. cbn [retire set_plans cs_plans]. rewrite lookup_delete_Some, not_elem_of_cons. naive_solver.
    - intros Hm _. apply H7; [done|]. by apply push_retired_bound. }
  destruct (Hfold expired s) as (H1 & H2 & H3 & H4 & H5 & H6 & H7). do 5 (split; [done|]). split; [|done].
  intros id p. rewrite H6, He. split; (intros [Hp Hx]; split; [done|]).
  - destruct (Z.lt_ge_cases now (pp_expires_at p)); [done|]. exfalso. apply Hx. by exists p.
  - intros (p' & Hp' & ?). assert (p' = p) by congruence. subst. lia.
Qed.
Lemma core_plan_cases g s request now s' r : core_plan g s request now = (s', r) ->
  ((s' = s \/ s' = evict_expired s now) /\ forall v, r <> Ok v) \/
  exists id plan v, let e := evict_expired s now in
    id = plan_id (cs_owner e) (cs_next_plan e + 1) /\
    Z.of_nat (size (cs_plans e)) < li_max_pending_plans (cs_limits e) /\ r = Ok v /\ value_get v "planId" = Some (VString id) /\
    current ck (gl_dead g) (cs_store e) now = Ok (pp_snapshot plan) /\
    s' = mkCoreSession (cs_store e) (cs_limits e) (cs_enforcement e) (cs_owner e) (cs_next_plan e + 1) (cs_refresh e) (cs_scam_refresh e)
           (<[id := plan]> (cs_plans e)) (cs_retired e) (cs_scam e).
Proof.
  unfold Session.core_plan. destruct (_ ← live g s; clock now) as [[]|e|]; [|intros [= <- <-]; left; split; [by left|done]..]. set (e := evict_expired s now).
  destruct (make_plan ck engine_version g e request now) as [[[[id number] plan] v]|x|] eqn:Hm; [|intros [= <- <-]; left; split; [by right|done]..].
  intros [= <- <-]. right. unfold make_plan in Hm. destruct (Z.leb_spec (li_max_pending_plans (cs_limits e)) (Z.of_nat (size (cs_plans e)))) as [|Hs]; [done|].
  apply bind_Ok_inv in Hm as (snapshot & Hc%map_err_Ok & Hm). apply bind_Ok_inv in Hm as (rq & _ & Hm). destruct (_ <? _) in Hm; [done|]. destruct (_ <? _) in Hm; [done|].
  apply bind_Ok_inv in Hm as ([nodes calls] & _ & Hm). apply bind_Ok_inv in Hm as (? & _ & Hm). injection Hm as <- <- <- <-.
  eexists _, _, _. cbv zeta. do 2 (split; [done|]). split; [reflexivity|]. split; [reflexivity|]. split; [|reflexivity]. exact Hc.
Qed.
Lemma evaluate_cases g s id facts now failure scam_input time s' r : evaluate_inner g s id facts now failure scam_input time = (s', r) ->
  (s' = s /\ exists e, r = Err e) \/
  exists p code, cs_plans s !! id = Some p /\ s' = retire (set_plans s (delete id (cs_plans s)) (cs_retired s)) id code.
Proof.
  assert ((_ ← live g s; clock now) <> Panic) as Hn.
  { unfold live, clock. destruct (decide _); [done|]. cbn. by destruct (_ <? _). }
  unfold Session.evaluate_inner. destruct (_ ← live g s; clock now) as [[]|e|]; [|intros [= <- <-]; left; split; [done|by eexists]|done].
  destruct (cs_plans s !! id) as [p|] eqn:Hp; [|intros [= <- <-]; left; split; [done|by eexists]]. intros H. right. exists p.
  destruct (pp_expires_at p <=? now); injection H as <- _; by eexists.
Qed.

(** ** The ledger of plans *)
Record session_ok (g : Globals) (log : list Event) (s : CoreSession) : Prop := {
  so_owner : 0 < cs_owner s < gl_next_session g;
  so_next : 0 <= cs_next_plan s;
  so_limit : 1 <= li_max_pending_plans (cs_limits s);
  so_pending : Z.of_nat (size (cs_plans s)) <= li_max_pending_plans (cs_limits s);
  so_retired : Z.of_nat (length (cs_retired s)) <= li_max_pending_plans (cs_limits s);
  so_plans : forall id p, cs_plans s !! id = Some p ->
    (exists n, id = plan_id (cs_owner s) n /\ 0 < n <= cs_next_plan s) /\ issued_in log id /\ ~ judged_in log id;
}.
Record ledger (W : SessionWorld) (log : list Event) : Prop := {
  le_next : 0 < gl_next_session (sw_globals W);
  le_sessions : forall l s, sw_sessions W !! l = Some s -> session_ok (sw_globals W) log s;
  le_owners : forall l l' s s', sw_sessions W !! l = Some s -> sw_sessions W !! l' = Some s' -> cs_owner s = cs_owner s' -> l = l';
  le_issued : forall id, issued_in log id -> exists o n, id = plan_id o n /\ 0 < o < gl_next_session (sw_globals W) /\ 0 < n /\
    forall l s, sw_sessions W !! l = Some s -> cs_owner s = o -> n <= cs_next_plan s;
  le_judged : forall id, judged_in log id -> issued_in log id;
}.
Lemma issued_snoc log e id : issued_in (log ++ [e]) id <-> issued_in log id \/ e = Issued id.
Proof. unfold issued_in. rewrite elem_of_app, list_elem_of_singleton. naive_solver. Qed.
Lemma judged_snoc log e id : judged_in (log ++ [e]) id <-> judged_in log id \/ exists v, e = Judged id v.
Proof. unfold judged_in. setoid_rewrite elem_of_app. setoid_rewrite list_elem_of_singleton. naive_solver. Qed.
Lemma ledger_initial : ledger initial_sessions [].
Proof. split; cbn; try done. - intros id H. by apply elem_of_nil in H. - intros id [v H]. by apply elem_of_nil in H. Qed.
(** One session replaced by what a call made of it. *)
Lemma ledger_insert g ss log l s s' g' e :
  ledger (mkSessionWorld g ss) log -> ss !! l = Some s -> cs_owner s' = cs_owner s -> cs_next_plan s <= cs_next_plan s' ->
  gl_next_session g' = gl_next_session g -> session_ok g' (log ++ [e]) s' ->
  (forall id, e = Issued id -> exists n, id = plan_id (cs_owner s) n /\ 0 < n <= cs_next_plan s') ->
  (forall id v, e = Judged id v -> is_Some (cs_plans s !! id)) ->
  ledger (mkSessionWorld g' (<[l := s']> ss)) (log ++ [e]).
Proof.
  intros [L0' L1 L2 L3 L4] Hs Ho Hn Hg Hok Hi Hj. pose proof (L1 l s Hs) as Hsok. cbn in *.
  split; cbn.
  - lia.
  - intros l0 s0. destruct (decide (l0 = l)) as [->|Hne]; [rewrite lookup_insert_eq; by intros [= <-]|]. rewrite lookup_insert_ne by done. intros H0.
    destruct (L1 l0 s0 H0) as [A1 A2 A3 A4 A5 A6]. split; try done; [by rewrite Hg|]. intros id p Hp. destruct (A6 id p Hp) as ((n & -> & Hn0) & Hiss & Hju).
    split; [by exists n|]. split; [apply issued_snoc; by left|]. rewrite judged_snoc. intros [?|[v Hv]]; [done|].
    destruct (Hj _ _ Hv) as [p' Hp']. destruct (so_plans _ _ _ Hsok _ _ Hp') as ((n' & He & _) & _).
    apply plan_id_inj in He as [He _]; [|lia|pose proof (so_owner _ _ _ Hsok); lia]. by apply Hne, (L2 l0 l s0 s).
  - intros l1 l2 s1 s2. destruct (decide (l1 = l)) as [->|H1], (decide (l2 = l)) as [->|H2]; rewrite ?lookup_insert_eq, ?lookup_insert_ne by done.
    + done.
    + intros [= <-] H Heq. rewrite Ho in Heq. by apply (L2 l l2 s s2).
    + intros H [= <-] Heq. rewrite Ho in Heq. by apply (L2 l1 l s1 s).
    + apply L2.
  - intros id [Hid|Hid]%issued_snoc.
    + destruct (L3 id Hid) as (o & n & -> & Ho' & Hn' & Hle). exists o, n. split; [done|]. split; [lia|]. split; [done|].
      intros l0 s0. destruct (decide (l0 = l)) as [->|Hne]; [rewrite lookup_insert_eq; intros [= <-] <-; rewrite Ho in Hle; specialize (Hle l s Hs eq_refl); lia|].
      rewrite lookup_insert_ne by done. apply Hle.
    + destruct (Hi id Hid) as (n & -> & Hn'). exists (cs_owner s), n. split; [done|]. pose proof (so_owner _ _ _ Hsok). split; [lia|]. split; [lia|].
      intros l0 s0. destruct (decide (l0 = l)) as [->|Hne]; [rewrite lookup_insert_eq; intros [= <-]; lia|]. rewrite lookup_insert_ne by done.
      intros H0 Heq. exfalso. by apply Hne, (L2 l0 l s0 s).
  - intros id [Hid|[v Hid]]%judged_snoc; apply issued_snoc; left; [by apply L4|]. destruct (Hj _ _ Hid) as [p Hp]. by apply (so_plans _ _ _ Hsok) in Hp as (_ & ? & _).
Qed.
Lemma session_ok_quiet g g' log s s' : session_ok g log s -> same_plans s s' -> gl_next_session g' = gl_next_session g -> session_ok g' (log ++ [Quiet]) s'.
Proof.
  intros [A1 A2 A3 A4 A5 A6] (H1 & H2 & H3 & H4 & H5) Hg. split; rewrite ?H1, ?H2, ?H3, ?H4, ?H5, ?Hg; try done.
  intros id p Hp. destruct (A6 id p Hp) as (? & ? & ?). split; [done|]. rewrite issued_snoc, judged_snoc. split; [by left|]. intros [?|[v ?]]; done.
Qed.
Lemma session_ok_evict g log s now : session_ok g log s -> session_ok g log (evict_expired s now).
Proof.
  intros [A1 A2 A3 A4 A5 A6]. destruct (evict_spec s now) as (_ & H2 & H3 & H4 & _ & H6 & H7). split; rewrite ?H2, ?H3, ?H4; try done; [|by apply H7|].
  - assert (cs_plans (evict_expired s now) ⊆ cs_plans s) as Hsub; [|pose proof (map_subseteq_size _ _ Hsub); lia].
    apply map_subseteq_spec. intros id p Hp. by apply H6 in Hp as [? _].
  - intros id p Hp%H6. apply (A6 id p). tauto.
Qed.
Lemma session_ok_retire g log s id code e : session_ok g log s -> (forall k, e <> Issued k) -> (forall k v, e = Judged k v -> k = id) ->
  session_ok g (log ++ [e]) (retire (set_plans s (delete id (cs_plans s)) (cs_retired s)) id code).
Proof.
  intros [A1 A2 A3 A4 A5 A6] Hi Hj. split; cbn; try done; [|by apply push_retired_bound|].
  - assert (delete id (cs_plans s) ⊆ cs_plans s) as Hsub by apply delete_subseteq. pose proof (map_subseteq_size _ _ Hsub). lia.
  - intros k p [Hne Hp]%lookup_delete_Some. destruct (A6 k p Hp) as (? & ? & ?). split; [done|]. rewrite issued_snoc, judged_snoc. split; [by left|].
    intros [?|[v Hv]]; [done|]. by apply Hj in Hv.
Qed.
Lemma same_plans_refl s : same_plans s s.
Proof. done. Qed.
Lemma evict_ledger g ss log l s now : ledger (mkSessionWorld g ss) log -> ss !! l = Some s ->
  ledger (mkSessionWorld g (<[l := evict_expired s now]> ss)) (log ++ [Quiet]).
Proof.
  intros HL Hs. destruct (evict_spec s now) as (_ & _ & H3 & H4 & _). eapply (ledger_insert g ss log l s); try done; [by rewrite H4|].
  eapply session_ok_quiet; [apply session_ok_evict, (le_sessions _ _ HL l s Hs)|apply same_plans_refl|done].
Qed.
(** The numbers of a configuration are deserialized as [u64]. *)
Definition u64_limits (l : SessionLimits) : Prop := Forall (fun nv => 0 <= nv.2 <= U64_MAX) (limit_values l).
Context (Hconfig : forall v c, config_from_value v = Ok c -> u64_limits (co_limits c)).
Lemma core_new_spec g l config policy now g' r : core_new g l config policy now = (g', r) ->
  gl_dead g' = gl_dead g /\ gl_next_session g <= gl_next_session g' /\
  forall s, r = Ok s -> gl_next_session g' = gl_next_session g + 1 /\ cs_owner s = gl_next_session g /\ cs_next_plan s = 0 /\ cs_plans s = ∅ /\
    cs_retired s = [] /\ cs_refresh s = None /\ 1 <= li_max_pending_plans (cs_limits s) /\
    exists sc pin input, store_new ck prepare_decoder l sc pin input now = Ok (cs_store s).
Proof.
  unfold Session.core_new. match goal with |- context [match ?x with Ok _ => _ | Err _ => _ | Panic => _ end] => destruct x as [[cfg store]|e|] eqn:Hx end;
    [|intros [= <- <-]; split; [done|]; split; [lia|done]..].
  intros [= <- <-]. split; [done|]. split; [cbn; lia|]. intros s Hs. apply bind_Ok_inv in Hs as (scam & _ & [= <-]). cbn.
  apply bind_Ok_inv in Hx as (? & _ & Hx). apply bind_Ok_inv in Hx as (config' & Hcfg & Hx). apply bind_Ok_inv in Hx as (pw & _ & Hx).
  apply bind_Ok_inv in Hx as (sc & _ & Hx). apply bind_Ok_inv in Hx as (st & Hst%map_err_Ok & Hx). destruct (_ <? _) in Hx; [done|]. injection Hx as -> ->.
  do 6 (split; [done|]). split; [|by eexists _, _, _]. unfold config_parse in Hcfg. apply bind_Ok_inv in Hcfg as (value & _ & Hcfg).
  destruct (is_null_at _) in Hcfg; [done|]. destruct (is_null_at _) in Hcfg; [done|]. apply bind_Ok_inv in Hcfg as (c & Hc%map_err_Ok%Hconfig & Hcfg). destruct (negb _) in Hcfg; [done|].
  apply bind_Ok_inv in Hcfg as ([] & Hl & Hcfg). apply bind_Ok_inv in Hcfg as (? & _ & [= ->]). apply limits_validate_spec in Hl.
  unfold u64_limits in Hc. rewrite Forall_forall in Hl, Hc. assert (("maxPendingPlans"%string, li_max_pending_plans (co_limits cfg)) ∈ limit_values (co_limits cfg)) as Hin by (unfold limit_values; set_solver).
  specialize (Hl _ Hin). specialize (Hc _ Hin). cbn in Hl, Hc. lia.
Qed.
Lemma step_ledger W e W' log : ledger W log -> session_step W e W' ->
  ledger W' (log ++ [e]) /\
  match e with Issued id => ~ issued_in log id | Judged id _ => issued_in log id /\ ~ judged_in log id | Quiet => True end.
Proof.
  intros HL Hs. destruct Hs as [g ss l config policy now g' s Hl Hd Hnew|g ss l config policy now g' e Hnew|g ss l s request now s' v id Hl Hp Hid|g ss l s request now s' e Hl Hp
    |g ss l s id facts now failure scam_input time s' v Hl He|g ss l s id facts now failure scam_input time s' e Hl He|g ss l s g' s' Hl Hv|g ss l s g' s' Hl Hd].
  - split; [|done]. destruct (core_new_spec _ _ _ _ _ _ _ Hnew) as (_ & _ & Hsp). destruct (Hsp s eq_refl) as (Hg & Ho & Hn & Hpl & Hr & _ & Hm & _).
    destruct HL as [N0 L1 L2 L3 L4]. cbn in *. split; cbn.
    + lia.
    + intros l0 s0. destruct (decide (l0 = l)) as [->|Hne].
      * rewrite lookup_insert_eq. intros [= <-]. split; rewrite ?Ho, ?Hn, ?Hpl, ?Hr, ?map_size_empty; cbn; try lia. done.
      * rewrite lookup_insert_ne by done. intros H0. destruct (session_ok_quiet g g log s0 s0 (L1 l0 s0 H0) (same_plans_refl s0) eq_refl). split; try done. lia.
    + intros l1 l2 s1 s2. destruct (decide (l1 = l)) as [->|H1], (decide (l2 = l)) as [->|H2]; rewrite ?lookup_insert_eq, ?lookup_insert_ne by done; [done| | |apply L2].
      * intros [= <-] H Heq. pose proof (so_owner _ _ _ (L1 l2 s2 H)). lia.
      * intros H [= <-] Heq. pose proof (so_owner _ _ _ (L1 l1 s1 H)). lia.
    + intros id [Hid|?]%issued_snoc; [|done]. destruct (L3 id Hid) as (o & n & -> & Ho' & Hn' & Hle). exists o, n. split; [done|]. split; [lia|]. split; [done|].
      intros l0 s0. destruct (decide (l0 = l)) as [->|Hne]; [rewrite lookup_insert_eq; intros [= <-]; lia|]. rewrite lookup_insert_ne by done. apply Hle.
    + intros id [Hid|[v ?]]%judged_snoc; [|done]. apply issued_snoc. left. by apply L4.
  - split; [|done]. destruct (core_new_spec _ _ _ _ _ _ _ Hnew) as (_ & Hg & _). destruct HL as [N0 L1 L2 L3 L4]. cbn in *. split; cbn; [lia| |done| |].
    + intros l0 s0 H0. destruct (session_ok_quiet g g log s0 s0 (L1 l0 s0 H0) (same_plans_refl s0) eq_refl). split; try done. lia.
    + intros id [Hid|?]%issued_snoc; [|done]. destruct (L3 id Hid) as (o & n & -> & Ho' & Hn' & Hle). exists o, n. split; [done|]. split; [lia|done].
    + intros id [Hid|[v ?]]%judged_snoc; [|done]. apply issued_snoc. left. by apply L4.
  - pose proof (session_ok_evict g log s now (le_sessions _ _ HL l s Hl)) as [A1 A2 A3 A4 A5 A6]. destruct (evict_spec s now) as (_ & _ & E3 & E4 & _).
    assert (exists plan, id = plan_id (cs_owner s) (cs_next_plan s + 1) /\ Z.of_nat (size (cs_plans (evict_expired s now))) < li_max_pending_plans (cs_limits (evict_expired s now)) /\
      cs_owner s' = cs_owner s /\ cs_next_plan s' = cs_next_plan s + 1 /\ cs_limits s' = cs_limits (evict_expired s now) /\ cs_retired s' = cs_retired (evict_expired s now) /\
      cs_plans s' = <[id := plan]> (cs_plans (evict_expired s now))) as (plan & Hx & Hsz & Ho' & Hn' & Hlim & Hret & Hpl).
    { destruct (core_plan_cases _ _ _ _ _ _ Hp) as [[_ Hno]|(id' & plan & v' & Hx & Hsz & [= <-] & Hv & _ & ->)]; [by destruct (Hno v)|].
      assert (id' = id) as -> by congruence. exists plan. cbn. rewrite Hx, E3, E4. done. }
    assert (~ issued_in log id) as Hfresh.
    { intros Hi. destruct (le_issued _ _ HL id Hi) as (o & n & He & Hoo & Hnn & Hle). rewrite Hx in He. apply plan_id_inj in He as [<- <-]; [|lia..].
      specialize (Hle l s Hl eq_refl). lia. }
    assert (~ judged_in log id) as Hnj by (intros Hj; by apply Hfresh, (le_judged _ _ HL)). split; [|done].
    eapply (ledger_insert g ss log l s); try done; [by rewrite Hn'; lia| |intros k [= <-]; exists (cs_next_plan s + 1); split; [done|lia]].
    split; rewrite ?Ho', ?Hn', ?Hlim, ?Hret, ?Hpl; try lia.
    + rewrite map_size_insert. destruct (cs_plans (evict_expired s now) !! id); cbn; lia.
    + intros k p. rewrite issued_snoc, judged_snoc, lookup_insert_Some. intros [[<- <-]|[Hne Hkp]].
      * split; [exists (cs_next_plan s + 1); split; [done|lia]|]. split; [by right|]. intros [?|[? ?]]; done.
      * destruct (A6 k p Hkp) as ((n & -> & Hn0) & Hi & Hj). split; [exists n; rewrite E3; split; [done|lia]|]. split; [by left|]. intros [?|[? ?]]; done.
  - split; [|done]. destruct (core_plan_cases _ _ _ _ _ _ Hp) as [[[->| ->] _]|(id' & plan & v' & _ & _ & ? & _)]; [|by apply evict_ledger|done].
    eapply (ledger_insert g ss log l s); try done; try lia. eapply session_ok_quiet; [apply (le_sessions _ _ HL l s Hl)|done|done].
  - pose proof (le_sessions _ _ HL l s Hl) as Hok. destruct (evaluate_cases _ _ _ _ _ _ _ _ _ _ He) as [[_ [x ?]]|(p & code & Hp & ->)]; [done|].
    destruct (so_plans _ _ _ Hok id p Hp) as (_ & Hi & Hj). split; [|done].
    eapply (ledger_insert g ss log l s); try done; try (cbn; lia); [|intros k v0 [= <- _]; by exists p]. apply session_ok_retire; [done|done|by intros k v0 [= <- _]].
  - split; [|done]. pose proof (le_sessions _ _ HL l s Hl) as Hok. destruct (evaluate_cases _ _ _ _ _ _ _ _ _ _ He) as [[-> _]|(p & code & Hp & ->)].
    + eapply (ledger_insert g ss log l s); try done; try lia. by eapply session_ok_quiet.
    + eapply (ledger_insert g ss log l s); try done; try (cbn; lia). by apply session_ok_retire.
  - split; [|done]. destruct (serves_same _ _ _ _ Hv) as (Hsame & _ & Hg). pose proof Hsame as (_ & _ & Ho & Hn & _).
    eapply (ledger_insert g ss log l s); try done; try lia. eapply session_ok_quiet; [apply (le_sessions _ _ HL l s Hl)|done|done].
  - split; [|done]. pose proof (le_sessions _ _ HL l s Hl) as [A1 A2 A3 A4 A5 A6]. unfold core_dispose in Hd. injection Hd as <- <-.
    eapply (ledger_insert g ss log l s); try done; try (cbn; lia). split; cbn; try done; rewrite ?map_size_empty; lia.
Qed.
Lemma runs_ledger log W : runs initial_sessions log W -> ledger W log.
Proof.
  intros H. remember initial_sessions as W0 eqn:HW. induction H as [W|W log W1 e W2 _ IH Hs]; [subst; apply ledger_initial|]. by apply (step_ledger W1 e W2 log (IH HW)).
Qed.

(** C12: A plan is judged at most once, and only after it was issued. In every run of sessions,
    whatever the host calls, in any order and at any time: an issued plan id is new, and a
    plan that is judged was issued before and has not been judged before. *)
Theorem plan_used_once log W pre e post : runs initial_sessions log W -> log = pre ++ e :: post ->
  match e with
  | Issued id => ~ issued_in pre id
  | Judged id _ => issued_in pre id /\ ~ judged_in pre id
  | Quiet => True
  end.
Proof.
  intros H. remember initial_sessions as W0 eqn:HW. revert pre e post. induction H as [W|W log W1 e0 W2 Hr IH Hs]; intros pre e post Heq; [by destruct pre|].
  destruct post as [|x post _] using rev_ind.
  - apply app_inj_tail in Heq as [-> ->]. subst W. apply runs_ledger in Hr. by apply (step_ledger W1 e W2 pre Hr) in Hs as [_ ?].
  - rewrite app_comm_cons, app_assoc in Heq. apply app_inj_tail in Heq as [-> _]. by apply (IH HW _ _ post).
Qed.

(** What sessions retain is bounded: in every run each session holds at most [maxPendingPlans]
    pending plans and at most as many tombstones, whatever the history. *)
Theorem pending_bounded log W l s : runs initial_sessions log W -> sw_sessions W !! l = Some s ->
  Z.of_nat (size (cs_plans s)) <= li_max_pending_plans (cs_limits s) /\ Z.of_nat (length (cs_retired s)) <= li_max_pending_plans (cs_limits s).
Proof. intros H Hl. apply runs_ledger in H. by destruct (le_sessions _ _ H l s Hl). Qed.

(** ** Runs of sessions are runs of stores *)
#[local] Notation store_step := (step ck prepare_decoder).
#[local] Notation store_world := (World (VerifiedDecoderSnapshot := VerifiedDecoder)).
(** The stores behind a world of sessions; every ticket a session keeps was issued by its store. *)
Record simulates (W : SessionWorld) (Ws : store_world) : Prop := {
  si_dead : w_dead Ws = gl_dead (sw_globals W);
  si_stores : w_stores Ws = cs_store <$> sw_sessions W;
  si_tickets : forall l s n t, sw_sessions W !! l = Some s -> cs_refresh s = Some (n, t) -> t ∈ w_tickets Ws;
}.
(** What a call does to the store of its session, as steps of the store's own world. *)
Definition store_moves (l : LifecycleId) (s s' : CoreSession) (Ws Ws' : store_world) : Prop :=
  rtc store_step Ws Ws' /\ w_dead Ws' = w_dead Ws /\ w_stores Ws' = <[l := cs_store s']> (w_stores Ws) /\ w_tickets Ws ⊆ w_tickets Ws' /\
  forall n t, cs_refresh s' = Some (n, t) -> t ∈ w_tickets Ws'.
Lemma store_stays l s s' (Ws : store_world) : w_stores Ws !! l = Some (cs_store s) -> cs_store s' = cs_store s ->
  (forall n t, cs_refresh s' = Some (n, t) -> t ∈ w_tickets Ws) -> store_moves l s s' Ws Ws.
Proof. intros Hl He Ht. split; [done|]. split; [done|]. rewrite He, insert_id by done. done. Qed.
Lemma begin_stays dead (st : SnapshotStore (VerifiedDecoderSnapshot := VerifiedDecoder)) st' r : begin_refresh dead st = (st', r) -> (forall t, r <> Ok t) -> st' = st.
Proof.
  unfold begin_refresh. destruct (live_state dead st); [|by intros [= <- <-]..]. destruct (_ <? _); [by intros [= <- <-]|]. intros [= <- <-] H. by destruct (H _ eq_refl).
Qed.
Lemma cancel_moves l g t (Ws : store_world) st : w_dead Ws = gl_dead g -> w_stores Ws !! l = Some st -> t ∈ w_tickets Ws ->
  store_step Ws (mkWorld (w_dead Ws) (<[l := (cancel_refresh (gl_dead g) st t).1]> (w_stores Ws)) (w_tickets Ws) (w_prepared Ws)).
Proof.
  intros Hd Hl Ht. destruct (cancel_refresh (gl_dead g) st t) as [st' r] eqn:Hc. rewrite <- Hd in Hc. by eapply step_cancel.
Qed.
Lemma serves_moves g s g' s' l (Ws : store_world) : w_dead Ws = gl_dead g -> w_stores Ws !! l = Some (cs_store s) ->
  (forall n t, cs_refresh s = Some (n, t) -> t ∈ w_tickets Ws) -> serves g s g' s' -> exists Ws', store_moves l s s' Ws Ws'.
Proof.
  intros Hd Hl Ht Hsv. destruct Hsv as [g' s' r H|ticket policy now s' r H|ticket s' r H|g' s' r H|ticket envelope now s' r H|ticket s' r H|settings s' r H].
  - unfold core_begin_refresh in H. destruct (_ ← live g s; next_refresh w g) as [[id g1]|e|]; [|injection H as _ <- _; exists Ws; by apply store_stays..].
    destruct (begin_refresh (gl_dead g) (cs_store s)) as [store [t|e|]] eqn:Hb.
    + injection H as _ <- _. rewrite <- Hd in Hb. eexists. split; [apply rtc_once; by eapply step_begin|]. cbn. split; [done|]. split; [done|]. split; [set_solver|].
      intros n t' [= _ <-]. left.
    + injection H as _ <- _. apply begin_stays in Hb as ->; [|done]. exists Ws. by apply store_stays.
    + injection H as _ <- _. apply begin_stays in Hb as ->; [|done]. exists Ws. by apply store_stays.
  - unfold core_commit_refresh in H. destruct (_ ← live g s; clock now); [|injection H as <- _; exists Ws; by apply store_stays..].
    destruct (cs_refresh s) as [[id t]|] eqn:Hr; [|injection H as <- _; exists Ws; apply store_stays; [done|done|by rewrite Hr]].
    destruct (negb _); [injection H as <- _; exists Ws; apply store_stays; [done|done|by rewrite Hr]|]. specialize (Ht id t eq_refl).
    unfold try_commit in H. cbn [set_refresh cs_limits cs_store] in H.
    destruct (policy ← policy_parse _ _ _; _) as [prepared|e|] eqn:Hp.
    + apply bind_Ok_inv in Hp as (pw & _ & Hp%map_err_Ok). rewrite <- Hd in Hp.
      destruct (commit_refresh ck (gl_dead g) (cs_store s) prepared now) as [store rc] eqn:Hc. rewrite <- Hd in Hc.
      set (W1 := mkWorld (w_dead Ws) (w_stores Ws) (w_tickets Ws) (prepared :: w_prepared Ws)).
      set (W2 := mkWorld (w_dead Ws) (<[l := store]> (w_stores Ws)) (w_tickets Ws) (w_prepared Ws)).
      assert (rtc store_step Ws W2) as Hsteps.
      { eapply rtc_l; [by eapply step_prepare|]. apply rtc_once. by apply (step_commit ck prepare_decoder W1 l (cs_store s) store [] prepared (w_prepared Ws) now rc). }
      destruct rc as [u|e|]; cbn in H.
      * injection H as <- _. by exists W2.
      * injection H as <- _. exists (mkWorld (w_dead W2) (<[l := (cancel_refresh (gl_dead g) store t).1]> (w_stores W2)) (w_tickets W2) (w_prepared W2)).
        split; [eapply rtc_r; [exact Hsteps|]; apply (cancel_moves l g t W2 store); [done|by apply lookup_insert_eq|done]|]. cbn. split; [done|]. by rewrite insert_insert_eq.
      * injection H as <- _. by exists W2.
    + injection H as <- _. exists (mkWorld (w_dead Ws) (<[l := (cancel_refresh (gl_dead g) (cs_store s) t).1]> (w_stores Ws)) (w_tickets Ws) (w_prepared Ws)).
      split; [apply rtc_once; by apply (cancel_moves l g t Ws (cs_store s))|]. done.
    + injection H as <- _. exists Ws. by apply store_stays.
  - unfold core_cancel_refresh in H. destruct (live g s); [|injection H as <- _; exists Ws; by apply store_stays..].
    destruct (cs_refresh s) as [[id t]|] eqn:Hr; [|injection H as <- _; exists Ws; apply store_stays; [done|done|by rewrite Hr]].
    destruct (negb _); [injection H as <- _; exists Ws; apply store_stays; [done|done|by rewrite Hr]|]. specialize (Ht id t eq_refl).
    cbn [set_refresh cs_store] in H. pose proof (cancel_moves l g t Ws (cs_store s) Hd Hl Ht) as Hc. destruct (cancel_refresh (gl_dead g) (cs_store s) t) as [store rc].
    injection H as <- _. eexists. split; [apply rtc_once; exact Hc|]. done.
  - unfold core_begin_scam_refresh in H. destruct (_ ← live g s; _ ← _; next_refresh w g) as [[id g1]|e|]; injection H as _ <- _; exists Ws; by apply store_stays.
  - unfold core_commit_scam_refresh in H. destruct (_ ← live g s; clock now); [|injection H as <- _; exists Ws; by apply store_stays..].
    destruct (negb _); [injection H as <- _; exists Ws; by apply store_stays|]. cbn [set_scam_refresh cs_scam] in H.
    destruct (cs_scam s) as [st|]; [destruct (scam_install_signed st envelope now)|]; injection H as <- _; exists Ws; by apply store_stays.
  - unfold core_cancel_scam_refresh in H. destruct (live g s); [|injection H as <- _; exists Ws; by apply store_stays..].
    destruct (negb _); injection H as <- _; exists Ws; by apply store_stays.
  - unfold core_set_scam_settings in H. destruct (live g s); [|injection H as <- _; exists Ws; by apply store_stays..].
    destruct (cs_scam s) as [st|]; [destruct (scam_set_settings st settings)|]; injection H as <- _; exists Ws; by apply store_stays.
Qed.
Lemma simulates_lookup W Ws l s : simulates W Ws -> sw_sessions W !! l = Some s -> w_stores Ws !! l = Some (cs_store s).
Proof. intros HS Hl. by rewrite (si_stores _ _ HS), lookup_fmap, Hl. Qed.
(** Replacing one session after its store moved. *)
Lemma simulates_insert g ss Ws l s s' g' Ws' : simulates (mkSessionWorld g ss) Ws -> ss !! l = Some s -> gl_dead g' = gl_dead g ->
  store_moves l s s' Ws Ws' -> simulates (mkSessionWorld g' (<[l := s']> ss)) Ws'.
Proof.
  intros [H1 H2 H3] Hl Hg (_ & M1 & M2 & M3 & M4). cbn in *. split; cbn; [congruence|by rewrite M2, H2, fmap_insert|].
  intros l0 s0 n t. destruct (decide (l0 = l)) as [->|Hne]; [rewrite lookup_insert_eq; intros [= <-]; apply M4|]. rewrite lookup_insert_ne by done.
  intros H0 Hr. by apply M3, (H3 l0 s0 n t).
Qed.
Lemma simulates_same g ss Ws l s s' g' : simulates (mkSessionWorld g ss) Ws -> ss !! l = Some s -> gl_dead g' = gl_dead g ->
  cs_store s' = cs_store s -> cs_refresh s' = cs_refresh s -> simulates (mkSessionWorld g' (<[l := s']> ss)) Ws.
Proof.
  intros HS Hl Hg Hst Hr. eapply simulates_insert; [done..|]. apply store_stays; [by apply (simulates_lookup _ _ _ _ HS)|done|].
  rewrite Hr. intros n t. by apply (si_tickets _ _ HS l s).
Qed.
Lemma step_simulates W e W' Ws : simulates W Ws -> session_step W e W' -> exists Ws', rtc store_step Ws Ws' /\ simulates W' Ws'.
Proof.
  intros HS Hs. destruct Hs as [g ss l config policy now g' s Hl Hd Hnew|g ss l config policy now g' e Hnew|g ss l s request now s' v id Hl Hp Hid|g ss l s request now s' e Hl Hp
    |g ss l s id facts now failure scam_input time s' v Hl He|g ss l s id facts now failure scam_input time s' e Hl He|g ss l s g' s' Hl Hv|g ss l s g' s' Hl Hd].
  - destruct (core_new_spec _ _ _ _ _ _ _ Hnew) as (Hg & _ & Hsp). destruct (Hsp s eq_refl) as (_ & _ & _ & _ & _ & Hr & _ & sc & pin & input & Hst).
    destruct HS as [H1 H2 H3]. cbn in *. eexists. split; [apply rtc_once; eapply (step_new ck prepare_decoder Ws l); [by rewrite H2, lookup_fmap, Hl|by rewrite H1|exact Hst]|].
    split; cbn; [congruence|by rewrite H2, fmap_insert|]. intros l0 s0 n t. destruct (decide (l0 = l)) as [->|Hne]; [rewrite lookup_insert_eq; intros [= <-]; by rewrite Hr|].
    rewrite lookup_insert_ne by done. apply H3.
  - destruct (core_new_spec _ _ _ _ _ _ _ Hnew) as (Hg & _ & _). exists Ws. split; [done|]. destruct HS as [H1 H2 H3]. split; cbn in *; [congruence|done|done].
  - exists Ws. split; [done|]. destruct (evict_spec s now) as (E1 & _ & _ & _ & E5 & _).
    destruct (core_plan_cases _ _ _ _ _ _ Hp) as [[_ Hno]|(id' & plan & v' & _ & _ & _ & _ & _ & ->)]; [by destruct (Hno v)|]. by eapply simulates_same.
  - exists Ws. split; [done|]. destruct (evict_spec s now) as (E1 & _ & _ & _ & E5 & _).
    destruct (core_plan_cases _ _ _ _ _ _ Hp) as [[[->| ->] _]|(id' & plan & v' & _ & _ & ? & _)]; [by eapply simulates_same..|done].
  - exists Ws. split; [done|]. destruct (evaluate_cases _ _ _ _ _ _ _ _ _ _ He) as [[-> _]|(p & code & Hp & ->)]; by eapply simulates_same.
  - exists Ws. split; [done|]. destruct (evaluate_cases _ _ _ _ _ _ _ _ _ _ He) as [[-> _]|(p & code & Hp & ->)]; by eapply simulates_same.
  - destruct (serves_same _ _ _ _ Hv) as (_ & Hg & _). destruct (serves_moves g s g' s' l Ws) as (Ws' & Hm); [by rewrite (si_dead _ _ HS)|
      by apply (simulates_lookup _ _ _ _ HS)|intros n t; by apply (si_tickets _ _ HS l s)|done|].
    exists Ws'. split; [by destruct Hm|]. by eapply simulates_insert.
  - unfold core_dispose in Hd. destruct (dispose (gl_dead g) (cs_store s)) as [dead store] eqn:Hdis. injection Hd as <- <-. destruct HS as [H1 H2 H3]. cbn in *.
    eexists. split; [apply rtc_once; eapply (step_dispose ck prepare_decoder Ws l (cs_store s) dead store); [by rewrite H2, lookup_fmap, Hl|by rewrite H1]|].
    split; cbn; [done|by rewrite H2, fmap_insert|]. intros l0 s0 n t. destruct (decide (l0 = l)) as [->|Hne]; [rewrite lookup_insert_eq; by intros [= <-]|].
    rewrite lookup_insert_ne by done. apply H3.
Qed.

(** ** Pinned policies *)
(** A pending plan belongs to a live session, and its policy passed the checks of that session's store. *)
Definition pinned (W : SessionWorld) : Prop :=
  forall l s id p, sw_sessions W !! l = Some s -> cs_plans s !! id = Some p ->
    l ∉ gl_dead (sw_globals W) /\
    forall st, st_state (cs_store s) = Some st -> authentic ck (ss_keys st) (ss_policy_config st) (ss_max_policy_bytes st) (sn_policy (pp_snapshot p)).
(** A session that keeps some of its plans, under a store that only grew. *)
Lemma pinned_insert g ss l s s' g' : pinned (mkSessionWorld g ss) -> ss !! l = Some s -> gl_dead g' = gl_dead g -> store_grows (cs_store s) (cs_store s') ->
  (forall id p, cs_plans s' !! id = Some p -> cs_plans s !! id = Some p \/
     (l ∉ gl_dead g /\ forall st, st_state (cs_store s) = Some st -> authentic ck (ss_keys st) (ss_policy_config st) (ss_max_policy_bytes st) (sn_policy (pp_snapshot p)))) ->
  pinned (mkSessionWorld g' (<[l := s']> ss)).
Proof.
  intros HP Hl Hg Hgr Hpl l0 s0 id p. cbn. rewrite Hg. destruct (decide (l0 = l)) as [->|Hne]; [|rewrite lookup_insert_ne by done; apply HP].
  rewrite lookup_insert_eq. intros [= <-] Hp. assert (l ∉ gl_dead g /\ forall st, st_state (cs_store s) = Some st ->
    authentic ck (ss_keys st) (ss_policy_config st) (ss_max_policy_bytes st) (sn_policy (pp_snapshot p))) as [Hd Ha].
  { destruct (Hpl id p Hp) as [Hp'|?]; [by apply (HP l s id p)|done]. }
  split; [done|]. intros st Hst. by eapply authentic_grows.
Qed.
Lemma step_pinned W e W' Ws Ws' : simulates W Ws -> world_inv ck Ws -> simulates W' Ws' -> rtc store_step Ws Ws' -> pinned W -> session_step W e W' -> pinned W'.
Proof.
  intros HS HI HS' Hrun HP Hs.
  assert (forall l s s', sw_sessions W !! l = Some s -> sw_sessions W' !! l = Some s' -> store_grows (cs_store s) (cs_store s')) as Hgrow.
  { intros l s s' H H'. destruct (run_grows ck prepare_decoder Ws Ws' l (cs_store s) HI Hrun) as (_ & st' & Hst' & Hg); [by rewrite (si_stores _ _ HS), lookup_fmap, H|].
    rewrite (si_stores _ _ HS'), lookup_fmap, H' in Hst'. by injection Hst' as <-. }
  assert (forall l s, sw_sessions W !! l = Some s -> store_inv ck (w_dead Ws) l (cs_store s)) as Hinv.
  { intros l s H. apply (wi_stores _ _ HI). by rewrite (si_stores _ _ HS), lookup_fmap, H. }
  destruct Hs as [g ss l config policy now g' s Hl Hd Hnew|g ss l config policy now g' e Hnew|g ss l s request now s' v id Hl Hp Hid|g ss l s request now s' e Hl Hp
    |g ss l s id facts now failure scam_input time s' v Hl He|g ss l s id facts now failure scam_input time s' e Hl He|g ss l s g' s' Hl Hv|g ss l s g' s' Hl Hd]; cbn in Hgrow, Hinv.
  - destruct (core_new_spec _ _ _ _ _ _ _ Hnew) as (Hg & _ & Hsp). destruct (Hsp s eq_refl) as (_ & _ & _ & Hpl & _). intros l0 s0 id p. cbn. rewrite Hg.
    destruct (decide (l0 = l)) as [->|Hne]; [rewrite lookup_insert_eq; intros [= <-]; by rewrite Hpl|]. rewrite lookup_insert_ne by done. apply HP.
  - destruct (core_new_spec _ _ _ _ _ _ _ Hnew) as (Hg & _). intros l0 s0 id p. cbn. rewrite Hg. apply HP.
  - eapply pinned_insert; [done|done|done|apply (Hgrow l); [done|by rewrite lookup_insert_eq]|]. destruct (evict_spec s now) as (E1 & _ & _ & _ & _ & E6 & _).
    destruct (core_plan_cases _ _ _ _ _ _ Hp) as [[_ Hno]|(id' & plan & v' & _ & _ & _ & _ & Hc & ->)]; [by destruct (Hno v)|]. cbn.
    intros k p [[_ <-]|[_ Hk%E6]]%lookup_insert_Some; [right|left; tauto]. rewrite E1 in Hc. unfold current in Hc. apply bind_Ok_inv in Hc as (st & Hst & Hc).
    apply bind_Ok_inv in Hc as (? & _ & [= Hc]). unfold live_state in Hst. apply bind_Ok_inv in Hst as (? & Hlive & Hst). unfold ensure_live in Hlive.
    destruct (decide _) as [|Hnd] in Hlive; [done|]. pose proof (Hinv l s Hl) as Hi. rewrite (SnapshotStore.so_id _ _ _ _ Hi) in Hnd. split; [done|].
    intros st' Hst'. rewrite Hst' in Hst. injection Hst as <-. destruct (so_active _ _ _ _ Hi st' Hst') as [_ Ha]. by rewrite <- Hc.
  - eapply pinned_insert; [done|done|done|apply (Hgrow l); [done|by rewrite lookup_insert_eq]|]. destruct (evict_spec s now) as (_ & _ & _ & _ & _ & E6 & _).
    destruct (core_plan_cases _ _ _ _ _ _ Hp) as [[[->| ->] _]|(id' & plan & v' & _ & _ & ? & _)]; [by left|intros k p Hk%E6; left; tauto|done].
  - eapply pinned_insert; [done|done|done|apply (Hgrow l); [done|by rewrite lookup_insert_eq]|].
    destruct (evaluate_cases _ _ _ _ _ _ _ _ _ _ He) as [[-> _]|(p & code & Hp & ->)]; [by left|]. intros k q Hq. left. cbn in Hq. by apply lookup_delete_Some in Hq as [_ ?].
  - eapply pinned_insert; [done|done|done|apply (Hgrow l); [done|by rewrite lookup_insert_eq]|].
    destruct (evaluate_cases _ _ _ _ _ _ _ _ _ _ He) as [[-> _]|(p & code & Hp & ->)]; [by left|]. intros k q Hq. left. cbn in Hq. by apply lookup_delete_Some in Hq as [_ ?].
  - destruct (serves_same _ _ _ _ Hv) as ((Hpl & _) & Hg & _). eapply pinned_insert; [done|done|done|apply (Hgrow l); [done|by rewrite lookup_insert_eq]|].
    intros k p Hk. left. by rewrite <- Hpl.
  - unfold core_dispose in Hd. destruct (dispose (gl_dead g) (cs_store s)) as [dead store] eqn:Hdis. injection Hd as <- <-. unfold dispose in Hdis. injection Hdis as <- <-.
    intros l0 s0 id p. cbn. destruct (decide (l0 = l)) as [->|Hne]; [rewrite lookup_insert_eq; by intros [= <-]|]. rewrite lookup_insert_ne by done. intros H0 Hp.
    destruct (HP l0 s0 id p H0 Hp) as [Hd0 Ha]. split; [|done]. rewrite (SnapshotStore.so_id _ _ _ _ (Hinv l s Hl)). set_solver.
Qed.
Lemma runs_refine log W : runs initial_sessions log W -> exists Ws, reachable ck prepare_decoder Ws /\ simulates W Ws /\ pinned W.
Proof.
  intros H. remember initial_sessions as W0 eqn:HW. induction H as [W|W log W1 e W2 _ IH Hs].
  - subst. exists initial_world. split; [apply rtc_refl|]. split; [|intros l s id p H; cbn in H; by rewrite lookup_empty in H]. split; cbn; [done|by rewrite fmap_empty|done].
  - destruct (IH HW) as (Ws & Hr & HS & HP). destruct (step_simulates _ _ _ _ HS Hs) as (Ws' & Hrun & HS'). exists Ws'. split; [unfold reachable in *; by etrans|]. split; [done|].
    eapply step_pinned; [exact HS|by apply (reachable_inv ck prepare_decoder)|done..].
Qed.

(** C13: Sessions are sound over their stores. Every run of sessions is a run of the snapshot stores
    behind them, and the policy a pending plan is pinned to is genuine for its session's store:
    signed over its exact bytes by a trusted policy key, in the configured scope, well formed,
    with policies that were all accepted. *)
Theorem sessions_refine_stores log W : runs initial_sessions log W ->
  (exists Ws, reachable ck prepare_decoder Ws /\ w_dead Ws = gl_dead (sw_globals W) /\ w_stores Ws = cs_store <$> sw_sessions W) /\
  forall l s id p, sw_sessions W !! l = Some s -> cs_plans s !! id = Some p -> exists st, st_state (cs_store s) = Some st /\
    genuine (ss_keys st) (ss_policy_config st) (ss_max_policy_bytes st) (sn_policy (pp_snapshot p)).
Proof.
  intros (Ws & Hr & HS & HP)%runs_refine. split; [exists Ws; split; [done|]; split; [apply HS|apply HS]|]. intros l s id p Hl Hp.
  destruct (HP l s id p Hl Hp) as [Hd Ha]. pose proof (reachable_inv ck prepare_decoder Ws Hr) as HI.
  assert (store_inv ck (w_dead Ws) l (cs_store s)) as Hi by (apply (wi_stores _ _ HI); by apply (simulates_lookup _ _ _ _ HS)).
  destruct (st_state (cs_store s)) as [st|] eqn:Hst; [exists st; split; [done|]; by eapply authentic_genuine, Ha|].
  exfalso. apply Hd. rewrite <- (si_dead _ _ HS). by apply (so_dead _ _ _ _ Hi).
Qed.
End Runs.

(** ** A run for the witnesses
    JSON texts are single letters; the decoder reads every transaction as one swap. A session is
    created, a plan is issued for a swap that two policies ask a fact each for, and the host's
    facts are judged. *)
Module MiniSession.
Definition fact (v : string) : Value :=
  VObject [("value", VObject [("value", VString v)]); ("source", VString "oracle"); ("observedAt", VNumber (IntNum 1999000))]%string.
#[global] Instance json : StrictJson := {|
  RawValue := string; raw_len s := Z.of_nat (String.length s); object_members _ _ := Ok []; raw_string r _ := Ok r;
  strict_parse text :=
    if String.eqb text "request" then
      Ok (VObject [("kind", VString "transaction"); ("chainId", VString "eip155:1");
                   ("from", VString "0x1111111111111111111111111111111111111111"); ("to", VString "0x2222222222222222222222222222222222222222")]%string)
    else if String.eqb text "facts" then
      Ok (VObject [("planId", VString "p1-1"); ("results", VObject [("p1-1-c0", fact "42"); ("p1-1-c1", fact "43")])]%string)
    else Ok (demo_payload (Z.of_nat (String.length text)) 1000) |}.
#[global] Instance settings : ScamSettings := {| ScamConfig := (); scam_validate _ := Ok (); scam_validate_separate_keys _ _ := Ok () |}.
#[global] Instance scam : ScamModule settings := {|
  ScamState := (); ScamPlan := (); scam_new _ := Ok tt; scam_set_settings st _ := (st, Ok tt); scam_install_signed st _ _ := (st, Ok tt);
  scam_pin _ _ _ _ := tt; scam_plan_calls _ := []; scam_no_time_budget _ := VObject [("status", VString "insufficient")]%string;
  scam_evaluate _ _ _ _ _ _ := ReadClock (fun _ => Done (VObject [("status", VString "clear")]%string)) |}.
Definition swap : ActionBody := BodyAmm (Swap AmmSwap.demo_plain).
#[global] Instance decoder : RequestDecoder := {|
  VerifiedDecoder := (); route_request _ _ := Ok ([mkAction Apply.demo_meta swap], Some StatusFull);
  route_typed_data_v4 _ _ := Err (mkRouteError "no_typed_data_mapper" ""); canonical_json _ := Ok []; sha256_hex _ := "00"%string |}.
Definition prepare_unit : DecoderInput -> list (TrustedKey (K := Mini.crypto)) -> Z -> result SnapshotError VerifiedDecoder := fun _ _ _ => Ok tt.
Definition limits : SessionLimits := mkSessionLimits None 1000 100 100 1000 1000 10 60000 2 5000 1000 1000.
Definition config : Config := mkConfig (mkDecoderPin "" "") (mkTrust "staging" "default" [mkTrustKey "main" "policy" "A"]) limits "enforcing" (Some tt)%string.
Definition config_from_value : Value -> result string Config := fun _ => Ok config.
Definition wrapper : PolicyWrapper := mkPolicyWrapper "A" (base64 (replicate 64 65)) None.
Definition wrapper_from_value : Value -> result string PolicyWrapper := fun _ => Ok wrapper.
Lemma config_u64 v c : config_from_value v = Ok c -> u64_limits (co_limits c).
Proof. intros [= <-]. unfold u64_limits, limit_values, U64_MAX. cbn. repeat constructor; cbn; lia. Qed.
Definition now : Z := 2000000.
Notation make := (core_new (J := json) (K := Mini.crypto) (T0 := Mini.tools) (D0 := decoder) (M0 := scam) true 64 prepare_unit config_from_value wrapper_from_value).
Notation Sess := (CoreSession (K := Mini.crypto) (D0 := decoder) (M0 := scam)).
Definition fallback : Sess := mkCoreSession (mkSnapshotStore 0%nat 0 None None) limits "" 0 0 None None ∅ [] None.
Definition g1 : Globals := (make initial_globals 0%nat "config" "wrapper" now).1.
Definition s1 : Sess := match (make initial_globals 0%nat "config" "wrapper" now).2 with Ok s => s | _ => fallback end.
Notation planned := (core_plan (J := json) (K := Mini.crypto) (D0 := decoder) (M0 := scam) (L0 := mini_lowering) true "1.0.0" g1 s1 "request" now).
Definition s2 : Sess := planned.1.
Definition issued : Value := match planned.2 with Ok v => v | _ => VNull end.
Notation judged := (evaluate_inner (J := json) (K := Mini.crypto) (T0 := Mini.tools) (D0 := decoder) (M0 := scam) (L0 := mini_lowering)
  true elements "1.0.0" g1 s2 "p1-1" "facts" now None (Some ""%string) (Some (fun n => now + Z.of_nat n))).
Definition s3 : Sess := judged.1.
Definition verdict : Value := match judged.2 with Ok v => v | _ => VNull end.
Notation ran := (runs (J := json) (K := Mini.crypto) (T0 := Mini.tools) (D0 := decoder) (M0 := scam) (L0 := mini_lowering)
  true 64 elements "1.0.0" prepare_unit config_from_value wrapper_from_value).
Notation World2 := (mkSessionWorld (K := Mini.crypto) (D0 := decoder) (M0 := scam) g1 (<[0%nat := s2]> (<[0%nat := s1]> ∅))).
Notation World3 := (mkSessionWorld (K := Mini.crypto) (D0 := decoder) (M0 := scam) g1 (<[0%nat := s3]> (<[0%nat := s2]> (<[0%nat := s1]> ∅)))).
Lemma made : make initial_globals 0%nat "config" "wrapper" now = (g1, Ok s1).
Proof. vm_compute. reflexivity. Qed.
Lemma planned_ok : planned = (s2, Ok issued).
Proof. vm_compute. reflexivity. Qed.
Lemma judged_ok : judged = (s3, Ok verdict).
Proof. vm_compute. reflexivity. Qed.
Lemma issued_id : value_get issued "planId" = Some (VString "p1-1").
Proof. vm_compute. reflexivity. Qed.
Lemma verdict_allows : decision verdict = VString "allow".
Proof. vm_compute. reflexivity. Qed.
Lemma ran_two : ran (initial_sessions (K := Mini.crypto) (D0 := decoder) (M0 := scam)) [Quiet; Issued "p1-1"] World2.
Proof.
  apply (runs_step _ _ _ _ _ _ _ _ [Quiet] (mkSessionWorld g1 (<[0%nat := s1]> ∅))).
  - apply (runs_step _ _ _ _ _ _ _ _ [] (initial_sessions (K := Mini.crypto) (D0 := decoder) (M0 := scam))); [constructor|]. eapply ss_new; [done|set_solver|exact made].
  - eapply ss_plan; [apply lookup_insert_eq|exact planned_ok|exact issued_id].
Qed.
Lemma ran_three : ran (initial_sessions (K := Mini.crypto) (D0 := decoder) (M0 := scam)) [Quiet; Issued "p1-1"; Judged "p1-1" verdict] World3.
Proof.
  apply (runs_step _ _ _ _ _ _ _ _ [Quiet; Issued "p1-1"] World2 _ _ ran_two). eapply ss_judge; [apply lookup_insert_eq|exact judged_ok].
Qed.
Lemma plan_pending : is_Some (cs_plans s2 !! "p1-1"%string).
Proof. vm_compute. by eexists. Qed.
End MiniSession.

Lemma allow_exact_witness : decision MiniSession.verdict = VString "allow" /\
  exists plan at_, cs_plans MiniSession.s2 !! "p1-1"%string = Some plan /\ MiniSession.now < pp_expires_at plan /\
    batch_clear (J := MiniSession.json) "facts" "p1-1" (pp_nodes plan) (cs_limits MiniSession.s2) at_.
Proof.
  split; [exact MiniSession.verdict_allows|].
  destruct (proj1 (allow_exact (T0 := Mini.tools) (L0 := mini_lowering) true elements "1.0.0" MiniSession.g1 MiniSession.s2 "p1-1" "facts" MiniSession.now None (Some ""%string)
    (Some (fun n => MiniSession.now + Z.of_nat n)) MiniSession.s3 MiniSession.verdict MiniSession.judged_ok) MiniSession.verdict_allows) as (plan & Hp & He & H).
  destruct (scam_phase _ _ _ _ _ _ _ _) as [[sc at_] c]. destruct H as (_ & _ & _ & _ & H). exists plan, at_. split; [exact Hp|]. split; [exact He|]. exact (aw_batch _ _ _ _ _ _ _ _ H).
Defined.
Lemma plan_used_once_witness : issued_in [Quiet; Issued "p1-1"] "p1-1" /\ ~ judged_in [Quiet; Issued "p1-1"] "p1-1".
Proof.
  exact (plan_used_once (J := MiniSession.json) (K := Mini.crypto) (T0 := Mini.tools) (D0 := MiniSession.decoder) (M0 := MiniSession.scam) (L0 := mini_lowering)
    true 64 elements "1.0.0" MiniSession.prepare_unit MiniSession.config_from_value MiniSession.wrapper_from_value MiniSession.config_u64
    _ _ [Quiet; Issued "p1-1"] (Judged "p1-1" MiniSession.verdict) [] MiniSession.ran_three eq_refl).
Defined.
Lemma pending_bounded_witness : is_Some (cs_plans MiniSession.s2 !! "p1-1"%string) /\
  Z.of_nat (size (cs_plans MiniSession.s2)) <= li_max_pending_plans (cs_limits MiniSession.s2).
Proof.
  split; [exact MiniSession.plan_pending|].
  exact (proj1 (pending_bounded (J := MiniSession.json) (K := Mini.crypto) (T0 := Mini.tools) (D0 := MiniSession.decoder) (M0 := MiniSession.scam) (L0 := mini_lowering)
    true 64 elements "1.0.0" MiniSession.prepare_unit MiniSession.config_from_value MiniSession.wrapper_from_value MiniSession.config_u64
    _ _ 0%nat MiniSession.s2 MiniSession.ran_two (lookup_insert_eq _ _ _))).
Defined.
Lemma sessions_refine_stores_witness : exists p st, cs_plans MiniSession.s2 !! "p1-1"%string = Some p /\ st_state (cs_store MiniSession.s2) = Some st /\
  genuine (K := Mini.crypto) (T0 := Mini.tools) (ss_keys st) (ss_policy_config st) (ss_max_policy_bytes st) (sn_policy (pp_snapshot p)).
Proof.
  destruct MiniSession.plan_pending as [p Hp]. exists p.
  destruct (proj2 (sessions_refine_stores (J := MiniSession.json) (K := Mini.crypto) (T0 := Mini.tools) (D0 := MiniSession.decoder) (M0 := MiniSession.scam) (L0 := mini_lowering)
    true 64 elements "1.0.0" MiniSession.prepare_unit MiniSession.config_from_value MiniSession.wrapper_from_value MiniSession.config_u64
    _ _ MiniSession.ran_two) 0%nat MiniSession.s2 "p1-1"%string p (lookup_insert_eq _ _ _) Hp) as (st & Hst & Hg).
  exists st. split; [exact Hp|]. split; [exact Hst|exact Hg].
Defined.
End SessionRun.
