(* ===== verification/MapperText.v ===== *)
(** * Text and the JSON view of decoded arguments (adapters/mappers/src/declarative/args_json.rs)

    The operations of [str] the declarative mapper uses, on strings of UTF-8
    bytes; the parsers and printers of alloy, hex and Keccak as the class
    [AlloyText] with their laws; and the conversion of decoded ABI values to the
    JSON arguments a manifest refers to, typed by the ABI type of each value. *)
From Stdlib Require Import Ascii.
From stdpp Require Import base tactics numbers list strings gmap pretty.
From S2P Require Import Prelude Types Bytes AbiDecode SyncLive PolicyEngine PolicyRpc BundleFormat SessionInput.
Import SyncLive.

Module MapperText.
Import AbiDecode PolicyEngine PolicyRpc BundleFormat SessionInput.

(** ** Operations of [str] *)
Fixpoint str_take (n : nat) (s : string) : string :=
  match n, s with S n', String c rest => String c (str_take n' rest) | _, _ => "" end%string.
Fixpoint str_drop (n : nat) (s : string) : string :=
  match n, s with S n', String _ rest => str_drop n' rest | _, _ => s end.
(** [str::find(char)] and [str::rfind(char)]: the byte offset. *)
Fixpoint find_char (c : ascii) (s : string) : option nat :=
  match s with
  | EmptyString => None
  | String a rest => if Ascii.eqb a c then Some 0%nat else S <$> find_char c rest
  end.
Fixpoint rfind_char (c : ascii) (s : string) : option nat :=
  match s with
  | EmptyString => None
  | String a rest =>
      match rfind_char c rest with
      | Some n => Some (S n)
      | None => if Ascii.eqb a c then Some 0%nat else None
      end
  end.
Definition strip_suffix (suffix s : string) : option string :=
  String.rev <$> strip_prefix (String.rev suffix) (String.rev s).
(** Whether a byte offset is a character boundary: the byte there starts a character. *)
Definition is_char_boundary (n : nat) (s : string) : bool :=
  match str_drop n s with
  | EmptyString => (n <=? String.length s)%nat
  | String c _ => negb (char_in 128 191 c)
  end.
(** [&s[n..]] and [&s[..n]]: a panic off the end or inside a character. *)
Definition slice_from {X} (n : nat) (s : string) : result X string :=
  if is_char_boundary n s then Ok (str_drop n s) else Panic.
Definition slice_to {X} (n : nat) (s : string) : result X string :=
  if is_char_boundary n s then Ok (str_take n s) else Panic.

(** The characters of the Unicode property White_Space, in UTF-8. *)
Definition WHITE_SPACE : list string :=
  string_of_bytes <$> ([[9]; [10]; [11]; [12]; [13]; [32]; [0xc2; 0x85]; [0xc2; 0xa0]; [0xe1; 0x9a; 0x80]]
    ++ ((fun k => [0xe2; 0x80; k]) <$> (seqZ 0x80 11 ++ [0xa8; 0xa9; 0xaf])) ++ [[0xe2; 0x81; 0x9f]; [0xe3; 0x80; 0x80]]).
Fixpoint first_stripped (prefixes : list string) (s : string) : option string :=
  match prefixes with
  | [] => None
  | p :: rest => match strip_prefix p s with Some r => Some r | None => first_stripped rest s end
  end.
(** One character is dropped a round, so the length of the text bounds the rounds. *)
Fixpoint trim_loop (prefixes : list string) (fuel : nat) (s : string) : string :=
  match fuel with
  | O => s
  | S fuel' => match first_stripped prefixes s with Some rest => trim_loop prefixes fuel' rest | None => s end
  end.
Definition trim_start (s : string) : string := trim_loop WHITE_SPACE (String.length s) s.
Definition trim_end (s : string) : string :=
  String.rev (trim_loop (String.rev <$> WHITE_SPACE) (String.length s) (String.rev s)).
Definition trim (s : string) : string := trim_end (trim_start s).

(** [str::parse::<u32>] and [str::parse::<i64>]. *)
Definition parse_u32 (s : string) : option Z := v ← parse_u64 s; if v <? 2 ^ 32 then Some v else None.
Definition parse_i64 (s : string) : option Z :=
  match s with
  | String "-"%char digits =>
      if String.eqb digits "" then None
      else v ← digits_value 0 digits; if v <=? 2 ^ 63 then Some (- v) else None
  | _ => v ← parse_u64 s; if v <? 2 ^ 63 then Some v else None
  end.
Definition all_digits (s : string) : bool := all_chars is_digit s.
(** [hex::encode] *)
Definition hex_encode (l : bytes) : string := fold_right (fun b acc => (hex_digits 2 b +:+ acc)%string) ""%string l.

(** ** alloy, ruint, hex and Keccak *)
Class AlloyText := {
  (** [U256::from_str_radix(text, radix)] *)
  u256_from_str_radix : string -> Z -> option Z;
  (** [Address::from_str], and [Display], the checksummed form *)
  address_from_str : string -> option Address;
  address_display : Address -> string;
  keccak256 : bytes -> bytes;
  hex_decode : string -> option bytes;
}.
(** What the mapper relies on: parsers are in range and read back what is printed. *)
Class AlloyTextLaws (T : AlloyText) : Prop := {
  radix_range s r z : u256_from_str_radix s r = Some z -> u256 z;
  radix_decimal u : u256 u -> u256_from_str_radix (pretty u) 10 = Some u;
  address_range s a : address_from_str s = Some a -> addr160 a;
  address_lowercase a : addr160 a -> address_from_str (lowercase_hex a) = Some a;
  keccak_length b : length (keccak256 b) = 32%nat;
  hex_range s b : hex_decode s = Some b -> Forall byte_ok b;
  hex_round_trip b : Forall byte_ok b -> hex_decode (hex_encode b) = Some b;
}.

(** ** args_json.rs *)
Definition uint_bits (abi_type : string) : option Z :=
  digits ← strip_prefix "uint" (trim abi_type);
  if String.eqb digits "" then Some 256 else if all_digits digits then parse_u32 digits else None.
Definition int_bits (abi_type : string) : option Z :=
  digits ← strip_prefix "int" (trim abi_type);
  if String.eqb digits "" then Some 256 else if all_digits digits then parse_u32 digits else None.
Definition uint_to_json (value : Z) (abi_type : string) : Value :=
  match uint_bits abi_type with
  | Some bits => if (bits <=? 64) && (value <=? U64_MAX) then VNumber (IntNum value) else VString (pretty value)
  | None => VString (pretty value)
  end.
Definition int_to_json (value : Z) (abi_type : string) : Value :=
  match int_bits abi_type with
  | Some bits => if (bits <=? 64) && (- 2 ^ 63 <=? value) && (value <? 2 ^ 63) then VNumber (IntNum value) else VString (pretty value)
  | None => VString (pretty value)
  end.
Definition array_element_type (abi_type : string) : option string :=
  let t := trim_end abi_type in
  match strip_suffix "]" t with
  | None => None
  | Some _ => open ← rfind_char "["%char t; Some (str_take open t)
  end.
(** The loop of [tuple_component_types]: [current] is the text since the last top-level
    comma. The depth is bounded by the length of the text. *)
Fixpoint component_loop (s : string) (depth : Z) (current : string) : list string :=
  match s with
  | EmptyString => [trim current]
  | String ch rest =>
      if Ascii.eqb ch "("%char || Ascii.eqb ch "["%char then component_loop rest (depth + 1) (current +:+ String ch "")%string
      else if Ascii.eqb ch ")"%char || Ascii.eqb ch "]"%char then component_loop rest (depth - 1) (current +:+ String ch "")%string
      else if Ascii.eqb ch ","%char && (depth =? 0) then trim current :: component_loop rest depth ""%string
      else component_loop rest depth (current +:+ String ch "")%string
  end.
Definition tuple_component_types (abi_type : string) : option (list string) :=
  t ← strip_prefix "(" (trim abi_type);
  inner ← strip_suffix ")" t;
  if String.eqb inner "" then Some [] else Some (component_loop inner 0 "").

(** The address of a decoded value prints in lower case (policy_engine::action::Address). *)
Fixpoint decoded_value_to_json (value : DecodedValue) : Value :=
  match value with
  | DvAddress a => VString (lowercase_hex a)
  | DvUint u => VString (pretty u)
  | DvInt i => VString (pretty i)
  | DvBool b => VBool b
  | DvBytes b => VString ("0x" +:+ hex_encode b)%string
  | DvString s => VString s
  | DvArray values | DvTuple values => VArray (map decoded_value_to_json values)
  end.
Fixpoint decoded_value_to_json_typed (value : DecodedValue) (abi_type : string) : Value :=
  match value with
  | DvAddress a => VString (lowercase_hex a)
  | DvUint u => uint_to_json u abi_type
  | DvInt i => int_to_json i abi_type
  | DvBool b => VBool b
  | DvBytes b => VString ("0x" +:+ hex_encode b)%string
  | DvString s => VString s
  | DvArray values =>
      let elem_type := default ""%string (array_element_type abi_type) in
      VArray (map (fun v => decoded_value_to_json_typed v elem_type) values)
  | DvTuple values =>
      let component_types := tuple_component_types abi_type in
      let fix go (i : nat) (l : list DecodedValue) : list Value :=
        match l with
        | [] => []
        | v :: rest =>
            decoded_value_to_json_typed v (default ""%string (cs ← component_types; cs !! i)) :: go (S i) rest
        end in
      VArray (go 0%nat values)
  end.
Definition args_to_json (decoded : MappedCall) : Value :=
  VObject (fold_left (fun obj arg => obj_insert obj (ma_name arg) (decoded_value_to_json_typed (ma_value arg) (ma_abi_type arg)))
    (mc_args decoded) []).

Example uint_bits_1 : uint_bits " uint48 " = Some 48 /\ uint_bits "uint" = Some 256 /\ uint_bits "uint8[]" = None /\ int_bits "uint8" = None.
Proof. done. Qed.
Example components_1 : tuple_component_types "(address, (uint256,int24[2]),bytes)" = Some ["address"; "(uint256,int24[2])"; "bytes"]%string.
Proof. done. Qed.
Example element_1 : array_element_type "address[][2]" = Some "address[]"%string.
Proof. done. Qed.

(** ** Lemmas on strings *)
Lemma app_nil_str s : (s +:+ "")%string = s.
Proof. induction s as [|c s IH]; [done|]. by rewrite append_cons, IH. Qed.
Lemma app_assoc_str a b c : ((a +:+ b) +:+ c)%string = (a +:+ (b +:+ c))%string.
Proof. induction a as [|x a IH]; [done|]. by rewrite !append_cons, IH. Qed.
Lemma length_app_str a b : String.length (a +:+ b)%string = (String.length a + String.length b)%nat.
Proof. induction a as [|x a IH]; [done|]. rewrite append_cons. simpl. by rewrite IH. Qed.
Lemma rev_app_alt a b : String.rev_app a b = (String.rev a +:+ b)%string.
Proof.
  unfold String.rev. revert b. induction a as [|c a IH]; intros b; [done|]. cbn [String.rev_app]. rewrite IH, (IH (String c "")), app_assoc_str. done.
Qed.
Lemma rev_cons_str c s : String.rev (String c s) = (String.rev s +:+ String c "")%string.
Proof. unfold String.rev at 1. cbn [String.rev_app]. apply rev_app_alt. Qed.
Lemma rev_append_str a b : String.rev (a +:+ b)%string = (String.rev b +:+ String.rev a)%string.
Proof. induction a as [|c a IH]; [by rewrite app_nil_str|]. by rewrite append_cons, !rev_cons_str, IH, app_assoc_str. Qed.
Lemma rev_involutive_str s : String.rev (String.rev s) = s.
Proof. induction s as [|c s IH]; [done|]. by rewrite rev_cons_str, rev_append_str, IH. Qed.
Lemma length_rev_str s : String.length (String.rev s) = String.length s.
Proof. induction s as [|c s IH]; [done|]. rewrite rev_cons_str, length_app_str, IH. simpl. lia. Qed.
Lemma all_chars_app p a b : all_chars p (a +:+ b)%string = all_chars p a && all_chars p b.
Proof. induction a as [|c a IH]; [done|]. rewrite append_cons. simpl. by rewrite IH, andb_assoc. Qed.
Lemma all_chars_rev p s : all_chars p (String.rev s) = all_chars p s.
Proof. induction s as [|c s IH]; [done|]. rewrite rev_cons_str, all_chars_app, IH. simpl. rewrite andb_true_r. apply andb_comm. Qed.
Lemma all_chars_impl (p q : ascii -> bool) s : (forall c, p c = true -> q c = true) -> all_chars p s = true -> all_chars q s = true.
Proof. intros Hpq. induction s as [|c s IH]; [done|]. simpl. rewrite !andb_true_iff. naive_solver. Qed.
Lemma str_take_app a b : str_take (String.length a) (a +:+ b)%string = a.
Proof. induction a as [|c a IH]; [by destruct b|]. rewrite append_cons. simpl. by rewrite IH. Qed.
Lemma str_drop_app n a b : str_drop (String.length a + n) (a +:+ b)%string = str_drop n b.
Proof. induction a as [|c a IH]; [done|]. rewrite append_cons. simpl. done. Qed.
Definition no_char (c : ascii) (s : string) : bool := all_chars (fun x => negb (Ascii.eqb x c)) s.
Lemma find_char_app c a b : no_char c a = true -> find_char c (a +:+ b)%string = (fun n => (String.length a + n)%nat) <$> find_char c b.
Proof.
  intros Ha. induction a as [|x a IH]; [change (""%string +:+ b)%string with b; by destruct (find_char c b)|]. rewrite append_cons. simpl in *.
  apply andb_true_iff in Ha as [Hx Ha]. apply negb_true_iff in Hx. rewrite Hx, IH by done. by destruct (find_char c b).
Qed.
Lemma find_char_None c a : no_char c a = true -> find_char c a = None.
Proof. intros Ha. rewrite <- (app_nil_str a), find_char_app by done. done. Qed.
Lemma rfind_char_None c a : no_char c a = true -> rfind_char c a = None.
Proof.
  induction a as [|x a IH]; [done|]. intros [Hx Ha]%andb_true_iff. apply negb_true_iff in Hx. cbn [rfind_char]. by rewrite (IH Ha), Hx.
Qed.
Lemma rfind_char_app c a b : no_char c b = true -> rfind_char c (a +:+ String c b)%string = Some (String.length a).
Proof.
  intros Hb. induction a as [|x a IH].
  - change (""%string +:+ String c b)%string with (String c b). cbn [rfind_char]. by rewrite rfind_char_None, Ascii.eqb_refl.
  - rewrite append_cons. simpl. by rewrite IH.
Qed.
Lemma strip_prefix_app p s : strip_prefix p (p +:+ s)%string = Some s.
Proof. by apply strip_prefix_Some. Qed.
Lemma strip_suffix_app p s : strip_suffix p (s +:+ p)%string = Some s.
Proof. unfold strip_suffix. rewrite rev_append_str, strip_prefix_app. simpl. by rewrite rev_involutive_str. Qed.

(** ** Trimming leaves visible text alone *)
Definition graphic (c : ascii) : bool := char_in 33 126 c.
Definition first_char (s : string) : option ascii := match s with String c _ => Some c | EmptyString => None end.
Lemma first_stripped_None ps s c : forallb (fun p => match first_char p with Some a => negb (graphic a) | None => false end) ps = true ->
  first_char s = Some c -> graphic c = true -> first_stripped ps s = None.
Proof.
  intros Hp Hc Hg. induction ps as [|p ps IH]; [done|]. simpl in *. apply andb_true_iff in Hp as [Hp Hps].
  destruct p as [|a p]; [done|]. destruct s as [|b s]; [done|]. injection Hc as ->. simpl in *.
  destruct (Ascii.eqb_spec a c) as [->|]; [by rewrite Hg in Hp|]. by apply IH.
Qed.
Lemma trim_loop_graphic ps n s : forallb (fun p => match first_char p with Some a => negb (graphic a) | None => false end) ps = true ->
  all_chars graphic s = true -> trim_loop ps n s = s.
Proof.
  intros Hp Hs. destruct n as [|n]; [done|]. simpl. destruct s as [|c s].
  - assert (first_stripped ps "" = None) as ->; [|done]. clear n Hs. induction ps as [|p ps IH]; [done|]. simpl in *.
    apply andb_true_iff in Hp as [Hp Hps]. destruct p; [done|]. simpl. by apply IH.
  - simpl in Hs. apply andb_true_iff in Hs as [Hc _]. by rewrite (first_stripped_None ps (String c s) c).
Qed.
Lemma trim_start_graphic s : all_chars graphic s = true -> trim_start s = s.
Proof. apply trim_loop_graphic. vm_compute. done. Qed.
Lemma trim_end_graphic s : all_chars graphic s = true -> trim_end s = s.
Proof. intros Hs. unfold trim_end. rewrite trim_loop_graphic; [apply rev_involutive_str|vm_compute; done|by rewrite all_chars_rev]. Qed.
Lemma trim_graphic s : all_chars graphic s = true -> trim s = s.
Proof. intros Hs. unfold trim. by rewrite trim_start_graphic, trim_end_graphic. Qed.

(** ** Printed integers *)
Lemma digits_pretty_nonneg z : 0 <= z -> digits_value 0 (pretty z) = Some z.
Proof. intros Hz. destruct (decide (z = 0)) as [->|]; [done|]. apply digits_pretty. lia. Qed.
Lemma digits_all acc s v : digits_value acc s = Some v -> all_digits s = true.
Proof. revert acc. induction s as [|c s IH]; intros acc; [done|]. cbn [digits_value]. destruct (is_digit c) eqn:Hc; [|done]. intros H%IH. unfold all_digits in *. simpl. by rewrite Hc. Qed.
Lemma all_digits_pretty z : 0 <= z -> all_digits (pretty z) = true.
Proof. intros Hz. by eapply digits_all, digits_pretty_nonneg. Qed.
Lemma digit_graphic c : is_digit c = true -> graphic c = true.
Proof. unfold is_digit, graphic, char_in. rewrite !andb_true_iff, !Nat.leb_le. lia. Qed.
Lemma digits_graphic s : all_digits s = true -> all_chars graphic s = true.
Proof. apply all_chars_impl, digit_graphic. Qed.
Lemma pretty_nonempty z : 0 <= z -> pretty z <> ""%string.
Proof.
  intros Hz He. destruct (decide (z = 0)) as [->|]; [done|]. pose proof (digits_pretty_nonneg z Hz) as H. rewrite He in H. injection H. lia.
Qed.
Lemma pretty_neg z : z < 0 -> pretty z = String "-" (pretty (- z)).
Proof. intros Hz. destruct z as [|p|p]; [lia|lia|]. reflexivity. Qed.
Lemma digits_no_x s : all_digits s = true -> strip_prefix "0x" s = None.
Proof.
  unfold all_digits. destruct s as [|a [|b s]]; [done|cbn [strip_prefix]; by destruct (Ascii.eqb "0" a)|]. cbn [strip_prefix]. destruct (Ascii.eqb "0" a); [|done].
  destruct (Ascii.eqb_spec "x" b) as [<-|]; [|done]. simpl. by rewrite andb_false_r.
Qed.
Lemma digit_not c d : is_digit d = true -> is_digit c = false -> Ascii.eqb c d = false.
Proof. intros Hd Hc. destruct (Ascii.eqb_spec c d) as [->|]; [congruence|done]. Qed.
Lemma parse_u64_pretty z : 0 <= z <= U64_MAX -> parse_u64 (pretty z) = Some z.
Proof. intros Hz. destruct (decide (z = 0)) as [->|]; [done|]. apply parse_pretty. lia. Qed.

(** ** Type strings round-trip *)
(** The types of an ABI and their canonical text. *)
Inductive AbiTy := TyAtom (name : string) | TyArray (element : AbiTy) (size : string) | TyTuple (components : list AbiTy).
Fixpoint print_ty (t : AbiTy) : string :=
  match t with
  | TyAtom name => name
  | TyArray element size => (print_ty element +:+ "[" +:+ size +:+ "]")%string
  | TyTuple components => ("(" +:+ String.concat "," (map print_ty components) +:+ ")")%string
  end.
Definition plain (c : ascii) : bool := graphic c && negb (existsb (Ascii.eqb c) ["("; ")"; "["; "]"; ","]%char).
Fixpoint ty_ok (t : AbiTy) : bool :=
  match t with
  | TyAtom name => all_chars plain name && negb (String.eqb name "")
  | TyArray element size => ty_ok element && all_chars plain size
  | TyTuple components => forallb ty_ok components
  end.
Lemma concat_cons2 a b l : String.concat "," (a :: b :: l) = (a +:+ "," +:+ String.concat "," (b :: l))%string.
Proof. done. Qed.
Lemma plain_graphic c : plain c = true -> graphic c = true.
Proof. unfold plain. by intros [? _]%andb_true_iff. Qed.
Lemma plain_not c x : plain c = true -> existsb (Ascii.eqb x) ["("; ")"; "["; "]"; ","]%char = true -> Ascii.eqb c x = false.
Proof.
  unfold plain. intros [_ Hc]%andb_true_iff Hx. apply negb_true_iff in Hc. destruct (Ascii.eqb_spec c x) as [->|]; [congruence|done].
Qed.
Lemma nil_app_str s : (""%string +:+ s)%string = s.
Proof. done. Qed.
Ltac str_norm := repeat (rewrite app_assoc_str || rewrite append_cons || rewrite nil_app_str).
Lemma component_plain s rest d cur : all_chars plain s = true -> component_loop (s +:+ rest)%string d cur = component_loop rest d (cur +:+ s)%string.
Proof.
  revert cur. induction s as [|c s IH]; intros cur Hs; [by rewrite app_nil_str|]. rewrite append_cons. cbn [component_loop].
  apply andb_true_iff in Hs as [Hc Hs]. rewrite !(plain_not c) by done. simpl. rewrite IH by done. by str_norm.
Qed.
Lemma component_print t : forall rest d cur, ty_ok t = true -> 0 <= d ->
  component_loop (print_ty t +:+ rest)%string d cur = component_loop rest d (cur +:+ print_ty t)%string.
Proof.
  revert t. fix IH 1. intros [name|element size|components] rest d cur Hok Hd; cbn [ty_ok print_ty] in *.
  - apply andb_true_iff in Hok as [Hok _]. by apply component_plain.
  - apply andb_true_iff in Hok as [He Hs]. rewrite app_assoc_str, IH by done. str_norm. cbn [component_loop]. simpl.
    rewrite component_plain by done. cbn [component_loop]. simpl. replace (d + 1 - 1) with d by lia. by str_norm.
  - assert (forall rest cur, component_loop (String.concat "," (map print_ty components) +:+ rest)%string (d + 1) cur =
      component_loop rest (d + 1) (cur +:+ String.concat "," (map print_ty components))%string) as Hj.
    { clear rest cur. induction components as [|t [|t' l] IHl]; intros rest cur; [by rewrite app_nil_str|..].
      - cbn [forallb] in Hok. apply andb_true_iff in Hok as [Ht _]. apply IH; [done|lia].
      - cbn [forallb] in Hok. apply andb_true_iff in Hok as [Ht Hl]. change (map print_ty (t :: t' :: l)) with (print_ty t :: print_ty t' :: map print_ty l).
        rewrite concat_cons2. str_norm. rewrite IH by (done || lia). cbn [component_loop]. simpl andb. simpl orb. cbv iota.
        destruct (Z.eqb_spec (d + 1) 0); [lia|]. cbv iota. change (print_ty t' :: map print_ty l) with (map print_ty (t' :: l)).
        rewrite IHl by done. by str_norm. }
    str_norm. cbn [component_loop]. simpl orb. cbv iota. rewrite Hj. cbn [component_loop]. simpl orb. cbv iota.
    replace (d + 1 - 1) with d by lia. by str_norm.
Qed.
Lemma print_graphic t : ty_ok t = true -> all_chars graphic (print_ty t) = true.
Proof.
  revert t. fix IH 1. intros [name|element size|components] Hok; cbn [ty_ok print_ty] in *.
  - apply andb_true_iff in Hok as [Hok _]. by eapply all_chars_impl; [apply plain_graphic|].
  - apply andb_true_iff in Hok as [He Hs]. rewrite !all_chars_app, IH by done. simpl. rewrite (all_chars_impl _ _ _ plain_graphic Hs). done.
  - rewrite !all_chars_app. simpl. rewrite andb_true_r.
    induction components as [|t [|t' l] IHl]; [done|..]; cbn [forallb] in Hok; apply andb_true_iff in Hok as [Ht Hl]; [by apply IH|].
    change (map print_ty (t :: t' :: l)) with (print_ty t :: print_ty t' :: map print_ty l).
    rewrite concat_cons2, !all_chars_app, IH by done. simpl. by apply IHl.
Qed.
Lemma print_nonempty t : ty_ok t = true -> print_ty t <> ""%string.
Proof.
  destruct t as [name|element size|components]; cbn [ty_ok print_ty].
  - intros [_ H]%andb_true_iff. apply negb_true_iff, String.eqb_neq in H. done.
  - intros _ H. apply (f_equal String.length) in H. rewrite !length_app_str in H. simpl in H. lia.
  - intros _ H. by rewrite append_cons in H.
Qed.
Lemma component_top t l : forallb ty_ok (t :: l) = true -> component_loop (String.concat "," (map print_ty (t :: l))) 0 "" = map print_ty (t :: l).
Proof.
  revert t. induction l as [|t' l IH]; intros t [Ht Hl]%andb_true_iff.
  - cbn [map String.concat]. rewrite <- (app_nil_str (print_ty t)), component_print by done. cbn [component_loop].
    rewrite nil_app_str. by rewrite trim_graphic, app_nil_str by by apply print_graphic.
  - change (map print_ty (t :: t' :: l)) with (print_ty t :: map print_ty (t' :: l)) at 1. change (map print_ty (t' :: l)) with (print_ty t' :: map print_ty l) at 1.
    rewrite concat_cons2, component_print by done. str_norm. cbn [component_loop]. simpl andb. simpl orb. cbv iota.
    change (print_ty t' :: map print_ty l) with (map print_ty (t' :: l)). rewrite IH by done.
    rewrite trim_graphic by by apply print_graphic. done.
Qed.
(** The type scanner reads the canonical text of a type back: the components of a tuple,
    in order and however nested, and the element of an array; and nothing else is taken for
    a tuple or for a small integer. *)
Theorem abi_type_round_trip t : ty_ok t = true ->
  match t with
  | TyTuple components => tuple_component_types (print_ty t) = Some (map print_ty components)
  | TyArray element size => array_element_type (print_ty t) = Some (print_ty element) /\ uint_bits (print_ty t) = None
  | TyAtom name => tuple_component_types name = None /\ array_element_type name = None
  end.
Proof.
  intros Hok. pose proof (print_graphic _ Hok) as Hg. destruct t as [name|element size|components]; cbn [print_ty ty_ok] in *.
  - apply andb_true_iff in Hok as [Hp Hn]. unfold tuple_component_types, array_element_type. rewrite trim_graphic, trim_end_graphic by done. split.
    + destruct name as [|c name]; [done|]. apply andb_true_iff in Hp as [Hc _]. cbn [strip_prefix].
      assert (Ascii.eqb "(" c = false) as ->; [|done]. rewrite Ascii.eqb_sym. by apply plain_not.
    + destruct (strip_suffix "]" name) as [x|] eqn:Hx; [|done]. unfold strip_suffix in Hx. rewrite <- all_chars_rev in Hp. change (String.rev "]") with "]"%string in Hx.
      destruct (String.rev name) as [|c r]; [done|]. apply andb_true_iff in Hp as [Hc _]. cbn [strip_prefix] in Hx.
      assert (Ascii.eqb "]" c = false) as He; [|by rewrite He in Hx]. rewrite Ascii.eqb_sym. by apply plain_not.
  - apply andb_true_iff in Hok as [He Hs]. split.
    + unfold array_element_type. rewrite trim_end_graphic by done. rewrite <- !app_assoc_str, strip_suffix_app, !app_assoc_str.
      change ("[" +:+ (size +:+ "]"))%string with (String "[" (size +:+ "]")). rewrite rfind_char_app; [simpl; by rewrite str_take_app|].
      unfold no_char. rewrite all_chars_app. simpl. rewrite andb_true_r. eapply all_chars_impl; [|exact Hs]. intros c Hc. apply negb_true_iff. by apply plain_not.
    + unfold uint_bits. rewrite trim_graphic by done. destruct (strip_prefix "uint" _) as [digits|] eqn:Hd; [|done]. cbn [mbind option_bind].
      apply strip_prefix_Some in Hd. assert (all_digits digits = false) as ->.
      { assert (all_chars (fun c => negb (Ascii.eqb c "]")) digits = false) as Hf.
        { apply not_true_is_false. intros Ha. apply (f_equal (all_chars (fun c => negb (Ascii.eqb c "]")))) in Hd.
          rewrite !all_chars_app, Ha in Hd. simpl in Hd. by rewrite !andb_false_r in Hd. }
        apply not_true_is_false. intros Ha. apply not_true_iff_false in Hf. apply Hf. eapply all_chars_impl; [|exact Ha].
        intros c Hc. apply negb_true_iff. rewrite Ascii.eqb_sym. by apply digit_not. }
      destruct (String.eqb_spec digits "") as [->|]; [|done]. rewrite app_nil_str in Hd. apply (f_equal (all_chars (fun c => negb (Ascii.eqb c "]")))) in Hd.
      rewrite !all_chars_app in Hd. simpl in Hd. by rewrite !andb_false_r in Hd.
  - unfold tuple_component_types. rewrite trim_graphic by done. rewrite strip_prefix_app. cbn [mbind option_bind]. rewrite strip_suffix_app. cbn [mbind option_bind].
    destruct components as [|t l]; [done|]. destruct (String.eqb_spec (String.concat "," (map print_ty (t :: l))) "") as [He|_]; [|by rewrite component_top].
    exfalso. apply andb_true_iff in Hok as [Ht _]. destruct l as [|t' l]; [by apply (print_nonempty t)|].
    change (map print_ty (t :: t' :: l)) with (print_ty t :: print_ty t' :: map print_ty l) in He. rewrite concat_cons2 in He.
    apply (f_equal String.length) in He. rewrite !length_app_str in He. simpl in He. lia.
Qed.
Definition demo_ty : AbiTy := TyTuple [TyAtom "address"; TyArray (TyTuple [TyAtom "uint256"; TyAtom "int24"]) "2"; TyAtom "bytes"].
Lemma abi_type_round_trip_witness : tuple_component_types "(address,(uint256,int24)[2],bytes)" = Some ["address"; "(uint256,int24)[2]"; "bytes"]%string.
Proof. exact (abi_type_round_trip demo_ty eq_refl). Defined.
End MapperText.
