(* ===== verification/MapperFn.v ===== *)
(** * The functions of the mapper language (adapters/mappers/src/declarative/builtin_fn.rs)

    Every executor of a [$fn] call, from the substituted JSON arguments to the JSON
    value spliced into the template, and the dispatch by name. An arity check
    followed by indexing is a match on the argument list; an [expect] or a slice
    off a character boundary is a panic. [usize] is the 64-bit one. *)
From Stdlib Require Import Ascii.
From stdpp Require Import base tactics numbers list strings gmap pretty.
From S2P Require Import Prelude Types Bytes AbiDecode SyncLive PolicyEngine PolicyRpc BundleFormat PolicyRuntime SessionInput AmmLiquidity MapperText.
Import SyncLive.

Module MapperFn.
Import AbiDecode PolicyEngine PolicyRpc BundleFormat PolicyRuntime SessionInput MapperText.
Local Notation outcome A := (result string A).

(** ** Reading arguments *)
Section Readers.
Context {T0 : AlloyText}.
Definition json_hex_bytes (value : Value) (label : string) : outcome bytes :=
  s ← ok_or (label +:+ " is not a hex string")%string (as_str value);
  ok_or (label +:+ " is not valid hex: {e}")%string (hex_decode (default s (strip_prefix "0x" s))).
Definition json_bytes32 (value : Value) (label : string) : outcome bytes :=
  b ← json_hex_bytes value label;
  if (length b =? 32)%nat then Ok b else Err (label +:+ " must be exactly 32 bytes, got {len}")%string.
Definition left_padded_bytes32_address (b : bytes) (label : string) : outcome Address :=
  if existsb (fun x => negb (x =? 0)) (take 12 b) then Err (label +:+ " is not a left-padded EVM address (high 96 bits are non-zero)")%string
  else Ok (from_be (drop 12 b)).
Definition json_u256 (value : Value) (label : string) : outcome Z :=
  match value with
  | VNumber _ => ok_or (label +:+ " is not a non-negative integer: {n}")%string (as_u64 value)
  | VString s =>
      let trimmed := trim s in
      match strip_prefix "0x" trimmed with
      | Some hex => ok_or (label +:+ " is not a valid hex uint ({s}): {e}")%string (u256_from_str_radix hex 16)
      | None => ok_or (label +:+ " is not a valid decimal uint ({s}): {e}")%string (u256_from_str_radix trimmed 10)
      end
  | _ => Err (label +:+ " is not a uint: {other}")%string
  end.
Definition json_address (value : Value) (label : string) : outcome Address :=
  s ← ok_or (label +:+ " is not an address string")%string (as_str value);
  ok_or (label +:+ " is not an address ({s}): {e}")%string (address_from_str s).
Definition json_bool (value : Value) (label : string) : outcome bool :=
  match value with
  | VBool b => Ok b
  | VString s =>
      if String.eqb (to_ascii_lowercase s) "true" then Ok true
      else if String.eqb (to_ascii_lowercase s) "false" then Ok false else Err (label +:+ " is not a bool: {other}")%string
  | _ => Err (label +:+ " is not a bool: {other}")%string
  end.
Record JsonSignedInt := mkJsonSignedInt { si_negative : bool; si_abs_decimal : string }.
Definition signed_of (negative : bool) (abs_decimal : string) : JsonSignedInt :=
  mkJsonSignedInt (negative && negb (String.eqb abs_decimal "0")) abs_decimal.
Definition json_signed_int (value : Value) (label : string) : outcome JsonSignedInt :=
  match value with
  | VNumber n =>
      match number_as_i64 n with
      | Some v => Ok (signed_of (v <? 0) (pretty (Z.abs v)))
      | None =>
          match as_u64 value with
          | Some v => Ok (mkJsonSignedInt false (pretty v))
          | None => Err (label +:+ " must be an integer, got {number}")%string
          end
      end
  | VString raw =>
      let trimmed := trim raw in
      if String.eqb trimmed "" then Err (label +:+ " is empty")%string
      else
        let '(negative, digits) :=
          match strip_prefix "-" trimmed with
          | Some rest => (true, rest)
          | None => (false, default trimmed (strip_prefix "+" trimmed))
          end in
        if String.eqb digits "" || negb (all_digits digits) then Err (label +:+ " is not a decimal integer: {raw}")%string
        else
          let abs := trim_loop ["0"%string] (String.length digits) digits in
          Ok (signed_of negative (if String.eqb abs "" then "0"%string else abs))
  | _ => Err (label +:+ " is not an integer: {other}")%string
  end.
Definition is_zero_address (v : Value) : bool :=
  match as_str v with
  | Some s =>
      match address_from_str s with
      | Some a => a =? 0
      | None => all_chars (fun c => Ascii.eqb c "0"%char) (trim_loop ["0x"%string] (String.length s) s)
      end
  | None => false
  end.
Definition json_to_u64 (v : Value) : option Z :=
  match v with VNumber _ => as_u64 v | VString s => parse_u64 s | _ => None end.
End Readers.

Definition address_hex (a : Address) : Value := VString (lowercase_hex a).
Definition uint_string (u : Z) : Value := VString (pretty u).
Definition word_hex (b : bytes) : Value := VString ("0x" +:+ hex_encode b)%string.
(** A loop over rows with their index. *)
Fixpoint each_row {A} (f : nat -> A -> outcome Value) (i : nat) (l : list A) : outcome (list Value) :=
  match l with
  | [] => Ok []
  | x :: rest => v ← f i x; vs ← each_row f (S i) rest; Ok (v :: vs)
  end.

Section Executors.
Context {T0 : AlloyText} {A0 : Alloy}.

(** ** Curve, route identities, addresses in words *)
Fixpoint last_hop (route : list Value) (n i : nat) (last : option nat) : option nat :=
  match n with
  | O => last
  | S n' =>
      match route !! (2 * i + 1)%nat with
      | Some v => if is_zero_address v then last else last_hop route n' (S i) (Some i)
      | None => last
      end
  end.
Definition curve_route_last_token (args : list Value) : outcome Value :=
  match args with
  | [r; p] =>
      route ← ok_or "curve_route_last_token: route arg is not an array"%string (as_array r);
      swap_params ← ok_or "curve_route_last_token: swap_params arg is not an array"%string (as_array p);
      i ← ok_or "curve_route_last_token: empty route (no non-zero pool slot)"%string (last_hop route 5 0 None);
      swap_type_val ← ok_or "curve_route_last_token: missing swap_params[{i}][2]"%string
        (row ← swap_params !! i; inner ← as_array row; inner !! 2%nat);
      out_idx ←
        match json_to_u64 swap_type_val with
        | Some t =>
            if bool_decide (t ∈ [1; 2; 3; 6; 7]) then Ok (2 * i + 2)%nat
            else if bool_decide (t ∈ [4; 5; 8; 9]) then Ok (2 * i + 1)%nat
            else Err "curve_route_last_token: unknown swap_type {swap_type_val} at hop {i}"%string
        | None => Err "curve_route_last_token: unknown swap_type {swap_type_val} at hop {i}"%string
        end;
      ok_or "curve_route_last_token: route[{out_idx}] out of bounds (len {})"%string (route !! out_idx)
  | _ => Err "curve_route_last_token expects 2 args (route, swap_params), got {}"%string
  end.
Fixpoint route_bytes (l : list Value) : outcome bytes :=
  match l with
  | [] => Ok []
  | v :: rest =>
      s ← ok_or "route_hash: route[{idx}] is not a string address"%string (as_str v);
      a ← ok_or "route_hash: route[{idx}] is not an address ({s}): {e}"%string (address_from_str s);
      b ← route_bytes rest; Ok (to_be 20 a ++ b)
  end.
Definition route_hash (args : list Value) : outcome Value :=
  match args with
  | [r] =>
      route ← ok_or "route_hash: route arg is not an array"%string (as_array r);
      b ← route_bytes route; Ok (word_hex (keccak256 b))
  | _ => Err "route_hash expects 1 arg (route), got {}"%string
  end.
Fixpoint dex_bytes (l : list Value) : outcome bytes :=
  match l with
  | [] => Ok []
  | v :: rest => packed ← json_u256 v "unoswap_route_hash: dex[{idx}]"; b ← dex_bytes rest; Ok (to_be 32 packed ++ b)
  end.
Definition unoswap_route_hash (args : list Value) : outcome Value :=
  if (length args =? 0)%nat || (3 <? length args)%nat then Err "unoswap_route_hash expects 1..=3 dex words, got {}"%string
  else b ← dex_bytes args; Ok (word_hex (keccak256 b)).
Definition keccak256_hex (args : list Value) : outcome Value :=
  match args with
  | [d] => b ← json_hex_bytes d "keccak256: data"; Ok (word_hex (keccak256 b))
  | _ => Err "keccak256 expects 1 arg (data), got {}"%string
  end.
Definition address_from_uint256 (args : list Value) : outcome Value :=
  match args with
  | [p] => packed ← json_u256 p "address_from_uint256: packed"; Ok (address_hex (from_be (drop 12 (to_be 32 packed))))
  | _ => Err "address_from_uint256 expects 1 arg (packed uint256), got {}"%string
  end.
Definition address_from_left_padded_bytes32 (args : list Value) : outcome Value :=
  match args with
  | [word] =>
      b ← json_bytes32 word "address_from_left_padded_bytes32: word";
      a ← left_padded_bytes32_address b "address_from_left_padded_bytes32: word"; Ok (address_hex a)
  | _ => Err "address_from_left_padded_bytes32 expects 1 arg (bytes32), got {}"%string
  end.
Definition is_left_padded (arg : Value) : bool :=
  match (b ← json_bytes32 arg "left_padded_bytes32_shape: word"; left_padded_bytes32_address b "") with Ok _ => true | _ => false end.
Definition left_padded_bytes32_shape (args : list Value) : outcome Value :=
  if (length args =? 0)%nat then Err "left_padded_bytes32_shape expects at least 1 arg"%string
  else Ok (VString (if forallb is_left_padded args then "left_padded" else "unsupported")).
Definition bytes_nonempty (args : list Value) : outcome Value :=
  match args with
  | [d] => b ← json_hex_bytes d "bytes_nonempty: data"; Ok (VBool (negb (length b =? 0)%nat))
  | _ => Err "bytes_nonempty expects 1 arg (bytes), got {}"%string
  end.
Definition maker_traits_expiry (args : list Value) : outcome Value :=
  match args with
  | [t] =>
      traits ← json_u256 t "maker_traits_expiry: makerTraits";
      let mask := 0xffffffffff in
      let expiry := Z.land (Z.shiftr traits 80) mask in
      let expiry := if expiry =? 0 then mask else expiry in
      if expiry <=? U64_MAX then Ok (VNumber (IntNum expiry)) else Err "maker_traits_expiry: expiry does not fit u64"%string
  | _ => Err "maker_traits_expiry expects 1 arg (makerTraits), got {}"%string
  end.
Definition coalesce_address (args : list Value) : outcome Value :=
  match args with
  | [x; fallback] =>
      addr ← json_address x "coalesce_address: addr";
      chosen ← (if addr =? 0 then json_address fallback "coalesce_address: fallback" else Ok addr);
      Ok (address_hex chosen)
  | _ => Err "coalesce_address expects 2 args (addr, fallback), got {}"%string
  end.

(** ** Token keys and recipients *)
Definition NATIVE_SENTINEL : string := "0xeeeeeeeeeeeeeeeeeeeeeeeeeeeeeeeeeeeeeeee".
Definition native_key (chain : string) : Value := VObject [("standard", VString "native"); ("chain", VString chain)]%string.
Definition erc20_key (chain : string) (a : Address) : Value :=
  VObject [("standard", VString "erc20"); ("chain", VString chain); ("address", address_hex a)]%string.
Definition token_key_or_native (args : list Value) : outcome Value :=
  match args with
  | [x; c] =>
      addr ← json_address x "token_key_or_native: address";
      chain ← ok_or "token_key_or_native: chain arg is not a string"%string (as_str c);
      Ok (if String.eqb (lowercase_hex addr) NATIVE_SENTINEL then native_key chain else erc20_key chain addr)
  | _ => Err "token_key_or_native expects 2 args (address, chain), got {}"%string
  end.
Definition token_key_or_native_zero (args : list Value) : outcome Value :=
  match args with
  | [x; c] =>
      addr ← json_address x "token_key_or_native_zero: address";
      chain ← ok_or "token_key_or_native_zero: chain arg is not a string"%string (as_str c);
      Ok (if (addr =? 0) || String.eqb (lowercase_hex addr) NATIVE_SENTINEL then native_key chain else erc20_key chain addr)
  | _ => Err "token_key_or_native_zero expects 2 args (address, chain), got {}"%string
  end.
Definition map_recipient (args : list Value) : outcome Value :=
  match args with
  | [r; f; t] =>
      recipient ← json_address r "map_recipient: recipient";
      from ← json_address f "map_recipient: from";
      to ← json_address t "map_recipient: to";
      let text := lowercase_hex recipient in
      Ok (address_hex
        (if String.eqb text "0x0000000000000000000000000000000000000001" then from
         else if String.eqb text "0x0000000000000000000000000000000000000002" then to else recipient))
  | _ => Err "map_recipient expects 3 args (recipient, from, to), got {}"%string
  end.
Definition NON_EVM_SENTINEL : string := "0x11f111f111f111f111f111f111f111f111f111f1".
Definition bridge_recipient (args : list Value) : outcome Value :=
  match args with
  | [e; raw] =>
      evm ← json_address e "bridge_recipient: evm_receiver";
      if String.eqb (lowercase_hex evm) NON_EVM_SENTINEL
      then b ← json_bytes32 raw "bridge_recipient: bytes32_receiver"; Ok (VObject [("kind", VString "raw"); ("bytes32", word_hex b)]%string)
      else Ok (VObject [("kind", VString "evm"); ("address", address_hex evm)]%string)
  | _ => Err "bridge_recipient expects 2 args (evm_receiver, bytes32_receiver), got {}"%string
  end.
Definition bridge_recipient_from_bytes32 (args : list Value) : outcome Value :=
  match args with
  | [word] =>
      b ← json_bytes32 word "bridge_recipient_from_bytes32: word";
      match left_padded_bytes32_address b "bridge_recipient_from_bytes32: word" with
      | Ok a => Ok (VObject [("kind", VString "evm"); ("address", address_hex a)]%string)
      | _ => Ok (VObject [("kind", VString "raw"); ("bytes32", word_hex b)]%string)
      end
  | _ => Err "bridge_recipient_from_bytes32 expects 1 arg (bytes32), got {}"%string
  end.

(** ** Uniswap *)
Definition uniswap_v3_pool_swap_field (args : list Value) : outcome Value :=
  match args with
  | [am; z; t0; t1; f] =>
      amount ← json_signed_int am "amountSpecified";
      zero_for_one ← json_bool z "zeroForOne";
      a0 ← json_address t0 "token0";
      a1 ← json_address t1 "token1";
      field ← ok_or "uniswap_v3_pool_swap_field: field arg is not a string"%string (as_str f);
      let '(token_in, token_out) := if zero_for_one : bool then (address_display a0, address_display a1) else (address_display a1, address_display a0) in
      let exact_output := si_negative amount in
      if String.eqb field "token_in" then Ok (VString token_in)
      else if String.eqb field "token_out" then Ok (VString token_out)
      else if String.eqb field "direction_kind" then Ok (VString (if exact_output then "exact_output" else "exact_input"))
      else if String.eqb field "amount_in" then Ok (VString (if exact_output then "0"%string else si_abs_decimal amount))
      else if String.eqb field "min_amount_out" then Ok (VString "0")
      else if String.eqb field "max_amount_in" then Ok (VString (if exact_output then pretty U256_MAX else "0"%string))
      else if String.eqb field "amount_out" then Ok (VString (if exact_output then si_abs_decimal amount else "0"%string))
      else Err "uniswap_v3_pool_swap_field: unsupported field '{field}'"%string
  | _ => Err "uniswap_v3_pool_swap_field expects 5 args (amountSpecified, zeroForOne, token0, token1, field), got {}"%string
  end.
Definition uniswapx_json_output_field_index (field : string) : option nat :=
  if String.eqb field "token" then Some 0%nat
  else if String.eqb field "startAmount" || String.eqb field "amount" then Some 1%nat
  else if String.eqb field "endAmount" then Some 2%nat
  else if String.eqb field "recipient" then Some 3%nat
  else if String.eqb field "minAmount" then Some 4%nat else None.
Definition uniswapx_json_output_field (output : Value) (field label : string) : outcome Value :=
  value ←
    match output with
    | VObject fs => ok_or (label +:+ ": output missing field '{field}'")%string (obj_get fs field)
    | VArray items =>
        idx ← ok_or (label +:+ ": unsupported output field '{field}'")%string (uniswapx_json_output_field_index field);
        ok_or (label +:+ ": output missing field '{field}' at index {idx}")%string (items !! idx)
    | _ => Err (label +:+ ": output is not object/array: {other}")%string
    end;
  if bool_decide (field ∈ ["token"; "recipient"]%string) then a ← json_address value (label +:+ ": output.{field}"); Ok (address_hex a)
  else if bool_decide (field ∈ ["startAmount"; "endAmount"; "minAmount"; "amount"]%string)
  then amount ← json_u256 value (label +:+ ": output.{field}"); Ok (uint_string amount)
  else Err (label +:+ ": unsupported output field '{field}'")%string.
Definition uniswapx_single_output_field (args : list Value) : outcome Value :=
  match args with
  | [o; f] =>
      outputs ← ok_or "uniswapx_single_output_field: outputs arg is not an array"%string (as_array o);
      match outputs with
      | [output] =>
          field ← ok_or "uniswapx_single_output_field: field arg is not a string"%string (as_str f);
          uniswapx_json_output_field output field "uniswapx_single_output_field"
      | _ => Err "uniswapx_single_output_field: expected exactly 1 output, got {}"%string
      end
  | _ => Err "uniswapx_single_output_field expects 2 args (outputs, field), got {}"%string
  end.
Inductive UniswapXOrderFamily := ExclusiveDutch | V2Dutch | V3Dutch | Priority.
Definition for_reactor (reactor : Address) : outcome UniswapXOrderFamily :=
  let lower := to_ascii_lowercase (address_display reactor) in
  if String.eqb lower "0x6000da47483062a0d734ba3dc7576ce6a0b645c4" then Ok ExclusiveDutch
  else if bool_decide (lower ∈ ["0x00000011f84b9aa48e5f8aa8b9897600006289be"; "0x1bd1aadc8a99fe9c48cffd9a5718b67f83cd4c08"]%string) then Ok V2Dutch
  else if bool_decide (lower ∈ ["0x0000000015757c461808ea25eb309638b62681cf"; "0x000000008a8330b5e401f8d6b6f4d82e9e6fef4a";
    "0x000000000923439a00000cfd2e0c5e60fef971c4"; "0xb274d5f4b833b61b340b654d600a864fb604a87c"]%string) then Ok V3Dutch
  else if String.eqb lower "0x000000001ec5656dcdb24d90dfa42742738de729" then Ok Priority
  else Err "uniswapx_reactor_order_field: unsupported reactor {lower}"%string.
Definition synthetic_decode_signature (family : UniswapXOrderFamily) : string :=
  match family with
  | ExclusiveDutch => "decode(((address,address,uint256,uint256,address,bytes),uint256,uint256,address,uint256,(address,uint256,uint256),(address,uint256,uint256,address)[]))"
  | V2Dutch => "decode(((address,address,uint256,uint256,address,bytes),address,(address,uint256,uint256),(address,uint256,uint256,address)[],(uint256,uint256,address,uint256,uint256,uint256[]),bytes))"
  | V3Dutch => "decode(((address,address,uint256,uint256,address,bytes),address,uint256,(address,uint256,(uint256,int256[]),uint256,uint256),(address,uint256,(uint256,int256[]),address,uint256,uint256)[],(uint256,address,uint256,uint256,uint256[]),bytes))"
  | Priority => "decode(((address,address,uint256,uint256,address,bytes),address,uint256,uint256,(address,uint256,uint256),(address,uint256,uint256,address)[],(uint256),bytes))"
  end.
Record DecodedUniswapXOrder := mkDecodedUniswapXOrder {
  ux_swapper : Value; ux_sell_token : Value; ux_buy_token : Value; ux_sell_amount : Value; ux_buy_min : Value;
  ux_order_kind : Value; ux_recipient : Value; ux_deadline : Value; ux_nonce : Value }.
Definition order_field (o : DecodedUniswapXOrder) (field : string) : option Value :=
  if String.eqb field "swapper" then Some (ux_swapper o)
  else if String.eqb field "sell_token" then Some (ux_sell_token o)
  else if String.eqb field "buy_token" then Some (ux_buy_token o)
  else if String.eqb field "sell_amount" then Some (ux_sell_amount o)
  else if String.eqb field "buy_min" then Some (ux_buy_min o)
  else if String.eqb field "order_kind" then Some (ux_order_kind o)
  else if String.eqb field "recipient" then Some (ux_recipient o)
  else if String.eqb field "deadline" || String.eqb field "valid_until" then Some (ux_deadline o)
  else if String.eqb field "nonce" || String.eqb field "order_nonce" then Some (ux_nonce o)
  else None.
Definition synthetic_selector (signature : string) : bytes := take 4 (keccak256 (bytes_of_string signature)).
Definition tuple_items (value : DynSolValue) (path : string) : outcome (list DynSolValue) :=
  match value with SvTuple items => Ok items | _ => Err "uniswapx order decode: {path} expected tuple, got {}"%string end.
Definition tuple_get (items : list DynSolValue) (idx : nat) (path : string) : outcome DynSolValue :=
  ok_or "uniswapx order decode: missing {path} at tuple index {idx}"%string (items !! idx).
Definition tuple_at (items : list DynSolValue) (idx : nat) (path : string) : outcome (list DynSolValue) :=
  v ← tuple_get items idx path; tuple_items v path.
Definition single_tuple_array_item (order : list DynSolValue) (idx : nat) (path : string) : outcome (list DynSolValue) :=
  value ← tuple_get order idx path;
  match value with
  | SvArray items | SvFixedArray items =>
      match items with
      | [item] => tuple_items item (path +:+ "[0]")
      | _ => Err "uniswapx order decode: {path} expected exactly 1 output, got {}"%string
      end
  | _ => Err "uniswapx order decode: {path} expected array, got {}"%string
  end.
Definition address_value (value : DynSolValue) : outcome Address :=
  match value with SvAddress a => Ok a | _ => Err "uniswapx order decode: expected address, got {}"%string end.
Definition address_json (value : DynSolValue) : outcome Value := a ← address_value value; Ok (VString (address_display a)).
Definition uint_from_value (value : DynSolValue) : outcome Z :=
  match value with SvUint u _ => Ok u | _ => Err "uniswapx order decode: expected uint, got {}"%string end.
Definition uint_string_json (value : DynSolValue) : outcome Value := u ← uint_from_value value; Ok (uint_string u).
Definition uint_u64_json (value : DynSolValue) : outcome Value :=
  u ← uint_from_value value;
  if u <=? U64_MAX then Ok (VNumber (IntNum u)) else Err "uniswapx order decode: uint {value} does not fit u64"%string.
(** The amount the cosigner set, or the start amount of the input where it set none. *)
Definition cosigned_amount (input cosigner_data : list DynSolValue) (idx : nat) : outcome DynSolValue :=
  v ← tuple_get cosigner_data idx "order.cosignerData.inputAmount";
  cosigner_input_amount ← uint_from_value v;
  if cosigner_input_amount =? 0 then tuple_get input 1 "order.baseInput.startAmount"
  else tuple_get cosigner_data idx "order.cosignerData.inputAmount".
Definition decode_uniswapx_order (family : UniswapXOrderFamily) (order_bytes : bytes) (expected_reactor : Address)
    : outcome DecodedUniswapXOrder :=
  let signature := synthetic_decode_signature family in
  decoded ← map_err (fun _ => "uniswapx order ABI decode failed: {e}"%string)
    (decode_with_signature signature (synthetic_selector signature ++ order_bytes));
  arg ← ok_or "uniswapx order ABI decode returned no args"%string (head (dc_args decoded));
  order ← tuple_items (da_value arg) "order";
  info ← tuple_at order 0 "order.info";
  r ← tuple_get info 0 "order.info.reactor";
  embedded_reactor ← address_value r;
  if negb (embedded_reactor =? expected_reactor)
  then Err "uniswapx order decode: order.info.reactor {embedded_reactor:#x} does not match target reactor {expected_reactor:#x}"%string
  else
    sw ← tuple_get info 1 "order.info.swapper"; swapper ← address_json sw;
    nv ← tuple_get info 2 "order.info.nonce"; nonce ← uint_string_json nv;
    dv ← tuple_get info 3 "order.info.deadline"; deadline ← uint_u64_json dv;
    (* The fields are read in the order the struct is built. *)
    let make (input output : list DynSolValue) (sell : outcome DynSolValue) (min_idx : nat) (kind : string) : outcome DecodedUniswapXOrder :=
      st ← tuple_get input 0 "order.input.token"; sell_token ← address_json st;
      bt ← tuple_get output 0 "order.outputs[0].token"; buy_token ← address_json bt;
      sa ← sell; sell_amount ← uint_string_json sa;
      bm ← tuple_get output min_idx "order.outputs[0].endAmount"; buy_min ← uint_string_json bm;
      rc ← tuple_get output 3 "order.outputs[0].recipient"; recipient ← address_json rc;
      Ok (mkDecodedUniswapXOrder swapper sell_token buy_token sell_amount buy_min (VString kind) recipient deadline nonce) in
    match family with
    | ExclusiveDutch =>
        input ← tuple_at order 5 "order.input"; output ← single_tuple_array_item order 6 "order.outputs";
        make input output (tuple_get input 1 "order.input.startAmount") 2%nat "dutch"%string
    | V2Dutch =>
        input ← tuple_at order 2 "order.baseInput"; output ← single_tuple_array_item order 3 "order.baseOutputs";
        cosigner_data ← tuple_at order 4 "order.cosignerData";
        sell ← cosigned_amount input cosigner_data 4; make input output (Ok sell) 2%nat "dutch"%string
    | V3Dutch =>
        input ← tuple_at order 3 "order.baseInput"; output ← single_tuple_array_item order 4 "order.baseOutputs";
        cosigner_data ← tuple_at order 5 "order.cosignerData";
        sell ← cosigned_amount input cosigner_data 3; make input output (Ok sell) 4%nat "dutch"%string
    | Priority =>
        input ← tuple_at order 4 "order.input"; output ← single_tuple_array_item order 5 "order.outputs";
        make input output (tuple_get input 1 "order.input.amount") 1%nat "limit"%string
    end.
Definition uniswapx_reactor_order_field (args : list Value) : outcome Value :=
  match args with
  | [o; r; f] =>
      order_bytes ← json_hex_bytes o "order_bytes";
      reactor ← json_address r "reactor";
      field ← ok_or "uniswapx_reactor_order_field: field arg is not a string"%string (as_str f);
      family ← for_reactor reactor;
      order ← decode_uniswapx_order family order_bytes reactor;
      ok_or "uniswapx_reactor_order_field: unsupported field '{field}' for {:?}"%string (order_field order field)
  | _ => Err "uniswapx_reactor_order_field expects 3 args (order_bytes, reactor, field), got {}"%string
  end.

(** ** Balancer *)
Definition token_amount (chain : string) (token amount : Value) (token_label amount_label : string) : outcome Value :=
  addr ← json_address token token_label;
  amount_u256 ← json_u256 amount amount_label;
  Ok (VArray [VObject [("key", erc20_key chain addr)]%string; uint_string amount_u256]).
Definition zip_amounts (chain : string) (tokens amounts : list Value) (token_label amount_label : string) : outcome (list Value) :=
  each_row (fun _ ta => token_amount chain ta.1 ta.2 token_label amount_label) 0 (zip tokens amounts).
Definition matched_nonempty (tokens amounts : list Value) : bool :=
  negb (length tokens =? 0)%nat && (length tokens =? length amounts)%nat.
Definition shape_field (f : Value) (label : string) (supported : bool) (yes : string) : outcome Value :=
  field ← ok_or (label +:+ ": field arg is not a string")%string (as_str f);
  if negb (String.eqb field "shape") then Err (label +:+ ": unsupported field '{field}'")%string
  else Ok (VString (if supported then yes else "unsupported"%string)).
Definition balancer_zip_token_amounts (args : list Value) : outcome Value :=
  match args with
  | c :: asv :: amv :: field =>
      if (1 <? length field)%nat then Err "balancer_zip_token_amounts expects 3 or 4 args (chain, assets, amounts[, field]), got {}"%string
      else
        chain ← ok_or "balancer_zip_token_amounts: chain arg is not a string"%string (as_str c);
        assets ← ok_or "balancer_zip_token_amounts: assets arg is not an array"%string (as_array asv);
        amounts ← ok_or "balancer_zip_token_amounts: amounts arg is not an array"%string (as_array amv);
        match field with
        | f :: _ => shape_field f "balancer_zip_token_amounts" (matched_nonempty assets amounts) "matched_nonempty"
        | [] =>
            if negb (matched_nonempty assets amounts)
            then Err "balancer_zip_token_amounts: assets/amounts length mismatch or empty (assets={}, amounts={})"%string
            else pairs ← zip_amounts chain assets amounts "balancer_zip_token_amounts: assets[{i}]" "balancer_zip_token_amounts: amounts[{i}]";
                 Ok (VArray pairs)
        end
  | _ => Err "balancer_zip_token_amounts expects 3 or 4 args (chain, assets, amounts[, field]), got {}"%string
  end.
Definition balancer_v3_zip_pool_tokens (args : list Value) : outcome Value :=
  match args with
  | c :: p :: amv :: mv :: field =>
      if (1 <? length field)%nat
      then Err "balancer_v3_zip_pool_tokens expects 4 or 5 args (chain, pool, amounts, pool_token_map[, field]), got {}"%string
      else
        chain ← ok_or "balancer_v3_zip_pool_tokens: chain arg is not a string"%string (as_str c);
        pool ← json_address p "balancer_v3_zip_pool_tokens: pool";
        amounts ← ok_or "balancer_v3_zip_pool_tokens: amounts arg is not an array"%string (as_array amv);
        fs ← ok_or "balancer_v3_zip_pool_tokens: pool_token_map arg is not an object"%string (as_object mv);
        let tokens_opt := v ← obj_get fs (lowercase_hex pool); as_array v in
        match field with
        | f :: _ =>
            shape_field f "balancer_v3_zip_pool_tokens"
              (match tokens_opt with Some tokens => matched_nonempty tokens amounts | None => false end) "matched_nonempty"
        | [] =>
            tokens ← ok_or "balancer_v3_zip_pool_tokens: pool {pool_key} not in baked pool_token_map (deferred long-tail or post-snapshot pool: fail-closed)"%string tokens_opt;
            if negb (matched_nonempty tokens amounts)
            then Err "balancer_v3_zip_pool_tokens: pool token/amount length mismatch or empty (tokens={}, amounts={})"%string
            else pairs ← zip_amounts chain tokens amounts "balancer_v3_zip_pool_tokens: pool_token_map[{pool_key}][{i}]" "balancer_v3_zip_pool_tokens: amounts[{i}]";
                 Ok (VArray pairs)
        end
  | _ => Err "balancer_v3_zip_pool_tokens expects 4 or 5 args (chain, pool, amounts, pool_token_map[, field]), got {}"%string
  end.
(** The slice [&body[..40]] panics when byte 40 is inside a character. *)
Definition balancer_pool_id_to_address (args : list Value) : outcome Value :=
  match args with
  | [p] =>
      s ← ok_or "balancer_pool_id_to_address: pool_id is not a hex string"%string (as_str p);
      let body := default s (strip_prefix "0x" s) in
      if negb (String.length body =? 64)%nat then Err "balancer_pool_id_to_address: pool_id must be 32 bytes (64 hex chars), got {}"%string
      else
        leading ← slice_to 40 body;
        a ← ok_or "balancer_pool_id_to_address: leading 20 bytes not an address: {e}"%string (address_from_str ("0x" +:+ leading));
        Ok (address_hex a)
  | _ => Err "balancer_pool_id_to_address expects 1 arg (pool_id bytes32), got {}"%string
  end.

(** The JSON of an ABI parameter list; the layout of the source text is white space. *)
Definition quoted (s : string) : string := String (ascii_of_nat 34) (s +:+ String (ascii_of_nat 34) "").
Definition abi_json (params : list (string * string)) : string :=
  ("[" +:+ String.concat "," ((fun p => "{" +:+ quoted "name" +:+ ":" +:+ quoted p.1 +:+ "," +:+ quoted "type" +:+ ":" +:+ quoted p.2 +:+ "}")%string <$> params) +:+ "]")%string.
Definition BALANCER_V2_JOIN_KIND : EnumTable := mkEnumTable "Balancer V2 JoinKind"
  [mkEnumEntry 0 "INIT" (abi_json [("kind", "uint256"); ("amountsIn", "uint256[]")]);
   mkEnumEntry 1 "EXACT_TOKENS_IN_FOR_BPT_OUT" (abi_json [("kind", "uint256"); ("amountsIn", "uint256[]"); ("minBPTAmountOut", "uint256")]);
   mkEnumEntry 2 "TOKEN_IN_FOR_EXACT_BPT_OUT" (abi_json [("kind", "uint256"); ("bptAmountOut", "uint256"); ("tokenIndex", "uint256")]);
   mkEnumEntry 3 "ALL_TOKENS_IN_FOR_EXACT_BPT_OUT" (abi_json [("kind", "uint256"); ("bptAmountOut", "uint256")])]%string.
Definition BALANCER_V2_EXIT_KIND_WEIGHTED : EnumTable := mkEnumTable "Balancer V2 ExitKind (Weighted)"
  [mkEnumEntry 0 "EXACT_BPT_IN_FOR_ONE_TOKEN_OUT" (abi_json [("kind", "uint256"); ("bptAmountIn", "uint256"); ("tokenIndex", "uint256")]);
   mkEnumEntry 1 "EXACT_BPT_IN_FOR_TOKENS_OUT" (abi_json [("kind", "uint256"); ("bptAmountIn", "uint256")]);
   mkEnumEntry 2 "BPT_IN_FOR_EXACT_TOKENS_OUT" (abi_json [("kind", "uint256"); ("amountsOut", "uint256[]"); ("maxBPTAmountIn", "uint256")])]%string.
Definition BALANCER_V2_EXIT_KIND_STABLE : EnumTable := mkEnumTable "Balancer V2 ExitKind (Stable)"
  [mkEnumEntry 0 "EXACT_BPT_IN_FOR_ONE_TOKEN_OUT" (abi_json [("kind", "uint256"); ("bptAmountIn", "uint256"); ("tokenIndex", "uint256")]);
   mkEnumEntry 1 "BPT_IN_FOR_EXACT_TOKENS_OUT" (abi_json [("kind", "uint256"); ("amountsOut", "uint256[]"); ("maxBPTAmountIn", "uint256")]);
   mkEnumEntry 2 "EXACT_BPT_IN_FOR_ALL_TOKENS_OUT" (abi_json [("kind", "uint256"); ("bptAmountIn", "uint256")])]%string.
Definition balancer_bpt_scalar (decoded : DecodedEnum) : Z :=
  let as_u256 (idx : nat) : option Z :=
    match da_value <$> de_args decoded !! idx with Some (SvUint v _) => Some v | _ => None end in
  match as_u256 1%nat with Some v => v | None => default 0 (as_u256 2%nat) end.
Definition balancer_v2_userdata_field (args : list Value) : outcome Value :=
  match args with
  | [u; c; f] =>
      user_data ← json_hex_bytes u "balancer_v2_userdata_field: userData";
      class ← ok_or "balancer_v2_userdata_field: class arg is not a string"%string (as_str c);
      field ← ok_or "balancer_v2_userdata_field: field arg is not a string"%string (as_str f);
      if negb (bool_decide (field ∈ ["shape"; "min_bpt"; "bpt_in"]%string))
      then Err "balancer_v2_userdata_field: unsupported field '{field}' (shape | min_bpt | bpt_in)"%string
      else
        decoded ←
          (if String.eqb class "join" then Ok (enum_dispatch user_data BALANCER_V2_JOIN_KIND)
           else if String.eqb class "exit" then Ok (try_dispatch user_data [BALANCER_V2_EXIT_KIND_WEIGHTED; BALANCER_V2_EXIT_KIND_STABLE])
           else Err "balancer_v2_userdata_field: unknown class '{other}' (join | exit)"%string);
        if String.eqb field "shape" then Ok (VString (match decoded with Some _ => "supported" | None => "unsupported" end))
        else
          d ← ok_or "balancer_v2_userdata_field: unsupported or undecodable userData kind"%string decoded;
          Ok (uint_string (balancer_bpt_scalar d))
  | _ => Err "balancer_v2_userdata_field expects 3 args (userData, class, field), got {}"%string
  end.
Definition asset_index (idx_val : option Value) : option nat :=
  v ← idx_val; u ← res_ok (json_u256 v "idx"); Z.to_nat <$> usize_checked u.
Definition index_in_bounds (assets : list Value) (idx_val : option Value) : bool :=
  match asset_index idx_val with Some i => (i <? length assets)%nat | None => false end.
Definition single_step_supported (kind : option Z) (swaps assets : list Value) : bool :=
  match kind with Some k => (k =? 0) || (k =? 1) | None => false end
  && (length swaps =? 1)%nat
  && match (x ← head swaps; as_array x) with
     | Some s => negb (length s =? 0)%nat && bool_decide (is_Some (s !! 3%nat)) && index_in_bounds assets (s !! 1%nat) && index_in_bounds assets (s !! 2%nat)
     | None => false
     end.
Definition asset_at (assets : list Value) (idx_val : option Value) (label : string) : outcome Value :=
  idx ← ok_or "balancer_v2_batch_swap_field: {label} index is invalid"%string (asset_index idx_val);
  ok_or "balancer_v2_batch_swap_field: {label} index out of range"%string (assets !! idx).
Definition balancer_v2_batch_swap_field (args : list Value) : outcome Value :=
  match args with
  | [k; sv; av; f] =>
      let kind := json_to_u64 k in
      swaps ← ok_or "balancer_v2_batch_swap_field: swaps arg is not an array"%string (as_array sv);
      assets ← ok_or "balancer_v2_batch_swap_field: assets arg is not an array"%string (as_array av);
      field ← ok_or "balancer_v2_batch_swap_field: field arg is not a string"%string (as_str f);
      let supported := single_step_supported kind swaps assets in
      if String.eqb field "shape" then Ok (VString (if supported then "single_step" else "unsupported"))
      else if negb (bool_decide (field ∈ ["token_in"; "token_out"; "pool_id"; "amount"; "direction_kind"]%string))
      then Err "balancer_v2_batch_swap_field: unsupported field '{field}'"%string
      else if negb supported then Err "balancer_v2_batch_swap_field: unsupported batchSwap shape for scalar field"%string
      else
        first ← or_panic (x ← head swaps; as_array x);
        if String.eqb field "token_in" then asset_at assets (first !! 1%nat) "assetInIndex"
        else if String.eqb field "token_out" then asset_at assets (first !! 2%nat) "assetOutIndex"
        else if String.eqb field "pool_id" then or_panic (head first)
        else if String.eqb field "amount" then or_panic (first !! 3%nat)
        else
          match kind with
          | Some 0 => Ok (VString "exact_input")
          | Some 1 => Ok (VString "exact_output")
          | _ => Err "balancer_v2_batch_swap_field: unsupported kind {other:?}"%string
          end
  | _ => Err "balancer_v2_batch_swap_field expects 4 args (kind, swaps, assets, field), got {}"%string
  end.
Definition row_item (row : option Value) (i : nat) : option Value := r ← row; l ← as_array r; l !! i.
Definition single_nonempty_supported (paths : list Value) : bool :=
  (length paths =? 1)%nat
  && match (x ← head paths; as_array x) with
     | Some p =>
         match (x ← p !! 1%nat; as_array x) with
         | Some steps =>
             negb (length steps =? 0)%nat && negb (length p =? 0)%nat && bool_decide (is_Some (p !! 2%nat)) && bool_decide (is_Some (p !! 3%nat))
             && bool_decide (is_Some (row_item (head steps) 0)) && bool_decide (is_Some (row_item (last steps) 1))
         | None => false
         end
     | None => false
     end.
Definition balancer_v3_swap_path_field (args : list Value) : outcome Value :=
  match args with
  | [pv; f] =>
      paths ← ok_or "balancer_v3_swap_path_field: paths arg is not an array"%string (as_array pv);
      field ← ok_or "balancer_v3_swap_path_field: field arg is not a string"%string (as_str f);
      let p0 := x ← head paths; as_array x in
      let steps := p ← p0; x ← p !! 1%nat; as_array x in
      let supported := single_nonempty_supported paths in
      if String.eqb field "shape" then Ok (VString (if supported then "single_nonempty" else "unsupported"))
      else if negb (bool_decide (field ∈ ["token_in"; "token_out"; "pool"; "amount_in"; "min_out"]%string))
      then Err "balancer_v3_swap_path_field: unsupported field '{field}'"%string
      else if negb supported then Err "balancer_v3_swap_path_field: unsupported swap path shape for scalar field"%string
      else
        p0 ← or_panic p0; steps ← or_panic steps;
        if String.eqb field "token_in" then or_panic (head p0)
        else if String.eqb field "token_out" then or_panic (row_item (last steps) 1)
        else if String.eqb field "pool" then or_panic (row_item (head steps) 0)
        else if String.eqb field "amount_in" then or_panic (p0 !! 2%nat)
        else or_panic (p0 !! 3%nat)
  | _ => Err "balancer_v3_swap_path_field expects 2 args (paths, field), got {}"%string
  end.

(** ** Scalars and arrays *)
Definition uint_to_string (args : list Value) : outcome Value :=
  match args with
  | [v] => u ← json_u256 v "uint_to_string: value"; Ok (uint_string u)
  | _ => Err "uint_to_string expects 1 arg, got {}"%string
  end.
Definition u64_saturating (args : list Value) : outcome Value :=
  match args with
  | [v] =>
      n ←
        match v with
        | VNumber _ => ok_or "u64_saturating: number is not a uint: {n}"%string (as_u64 v)
        | VString s =>
            if String.eqb s "" || negb (all_digits s) then Err "u64_saturating: string is not a uint: {s:?}"%string
            else Ok (default U64_MAX (parse_u64 s))
        | _ => Err "u64_saturating: argument is not a uint-like value: {other}"%string
        end;
      Ok (VNumber (IntNum n))
  | _ => Err "u64_saturating expects 1 arg, got {}"%string
  end.
Definition array_len (args : list Value) : outcome Value :=
  match args with
  | [v] => l ← ok_or "array_len: argument is not an array"%string (as_array v); Ok (uint_string (Z.of_nat (length l)))
  | _ => Err "array_len expects 1 arg, got {}"%string
  end.
Definition tuple_array_field (args : list Value) : outcome Value :=
  match args with
  | [v; ix] =>
      arr ← ok_or "tuple_array_field: first argument is not an array"%string (as_array v);
      index ← ok_or "tuple_array_field: index is not a uint"%string (n ← json_to_u64 ix; Z.to_nat <$> usize_checked n);
      out ← each_row (fun _ row =>
        tuple ← ok_or "tuple_array_field: row {row_idx} is not a tuple array"%string (as_array row);
        ok_or "tuple_array_field: row {row_idx} index {index} out of bounds"%string (tuple !! index)) 0 arr;
      Ok (VArray out)
  | _ => Err "tuple_array_field expects 2 args (array, index), got {}"%string
  end.

(** ** Seaport *)
Definition seaport_item_field (elem : Value) (pos : nat) (name : string) : option Value :=
  match elem with VArray a => a !! pos | VObject o => obj_get o name | _ => None end.
Definition seaport_item_kind (item_type : Z) : outcome (string * bool * bool) :=
  match item_type with
  | 0 => Ok ("native", false, false)
  | 1 => Ok ("erc20", false, false)
  | 2 => Ok ("erc721", true, false)
  | 3 => Ok ("erc1155", true, false)
  | 4 => Ok ("erc721_criteria", false, true)
  | 5 => Ok ("erc1155_criteria", false, true)
  | _ => Err "seaport: unknown ItemType {other}"
  end%string.
Definition seaport_build_item (elem : Value) (idx : nat) (read_recipient : bool) (label : string) : outcome Value :=
  item_type ← ok_or (label +:+ ": missing/non-uint itemType")%string (v ← seaport_item_field elem 0 "itemType"; json_to_u64 v);
  '(kind, carries_token_id, is_criteria) ← seaport_item_kind item_type;
  token ←
    (if item_type =? 0 then Ok []
     else t ← ok_or (label +:+ ": missing token")%string (seaport_item_field elem 1 "token");
          addr ← json_address t (label +:+ ": token"); Ok [("token", address_hex addr)]%string);
  identifier ← ok_or (label +:+ ": missing identifierOrCriteria")%string (seaport_item_field elem 2 "identifierOrCriteria");
  id_u256 ← json_u256 identifier (label +:+ ": identifierOrCriteria");
  let id_field :=
    if is_criteria : bool then [("criteria_root", word_hex (to_be 32 id_u256))]%string
    else if carries_token_id : bool then [("token_id", uint_string id_u256)]%string else [] in
  start ← ok_or (label +:+ ": missing startAmount")%string (seaport_item_field elem 3 "startAmount");
  start_u256 ← json_u256 start (label +:+ ": startAmount");
  end_ ← ok_or (label +:+ ": missing endAmount")%string (seaport_item_field elem 4 "endAmount");
  end_u256 ← json_u256 end_ (label +:+ ": endAmount");
  recipient ←
    (if read_recipient : bool then
       r ← ok_or (label +:+ ": consideration item missing recipient")%string (seaport_item_field elem 5 "recipient");
       addr ← json_address r (label +:+ ": recipient"); Ok [("recipient", address_hex addr)]%string
     else Ok []);
  Ok (VObject ([("idx", VNumber (IntNum (Z.of_nat idx))); ("kind", VString kind)]%string ++ token ++ id_field
    ++ [("start_amount", uint_string start_u256); ("end_amount", uint_string end_u256)]%string ++ recipient)).
Definition seaport_role (value : Value) (label : string) : outcome bool :=
  match as_str value with
  | Some s => if String.eqb s "consideration" then Ok true else if String.eqb s "offer" then Ok false
              else Err (label +:+ ": role must be offer|consideration, got {other:?}")%string
  | None => Err (label +:+ ": role must be offer|consideration, got {other:?}")%string
  end.
Definition seaport_items (args : list Value) : outcome Value :=
  match args with
  | [iv; role] =>
      items ← ok_or "seaport_items: items arg is not an array"%string (as_array iv);
      read_recipient ← seaport_role role "seaport_items";
      out ← each_row (fun i elem => seaport_build_item elem i read_recipient "seaport_items[{i}]") 0 items;
      Ok (VArray out)
  | _ => Err "seaport_items expects 2 args (items, role), got {}"%string
  end.
Fixpoint aggregate_orders (read_recipient : bool) (slot idx : nat) (orders : list Value) : outcome (list Value) :=
  match orders with
  | [] => Ok []
  | order :: rest =>
      params ← ok_or "seaport_aggregate_items: order[{oi}] has no OrderParameters tuple"%string (o ← as_array order; x ← head o; as_array x);
      items ← ok_or "seaport_aggregate_items: order[{oi}].parameters[{slot}] not an array"%string (x ← params !! slot; as_array x);
      out ← each_row (fun i elem => seaport_build_item elem i read_recipient "seaport_aggregate_items: order[{oi}]") idx items;
      more ← aggregate_orders read_recipient slot (idx + length items) rest;
      Ok (out ++ more)
  end.
Definition seaport_aggregate_items (args : list Value) : outcome Value :=
  match args with
  | [ov; role] =>
      orders ← ok_or "seaport_aggregate_items: orders arg is not an array"%string (as_array ov);
      read_recipient ← seaport_role role "seaport_aggregate_items";
      out ← aggregate_orders read_recipient (if read_recipient : bool then 3 else 2)%nat 0 orders;
      Ok (VArray out)
  | _ => Err "seaport_aggregate_items expects 2 args (orders, role), got {}"%string
  end.
Definition seaport_basic_item (idx : nat) (kind : string) (token token_id : option Value) (amount : Value) (recipient : option Value) : outcome Value :=
  t ← match token with
      | Some t => a ← json_address t "seaport_basic_order: token"; Ok [("token", address_hex a)]%string
      | None => Ok []
      end;
  tid ← match token_id with
        | Some x => u ← json_u256 x "seaport_basic_order: tokenId"; Ok [("token_id", uint_string u)]%string
        | None => Ok []
        end;
  amt ← json_u256 amount "seaport_basic_order: amount";
  r ← match recipient with
      | Some x => a ← json_address x "seaport_basic_order: recipient"; Ok [("recipient", address_hex a)]%string
      | None => Ok []
      end;
  Ok (VObject ([("idx", VNumber (IntNum (Z.of_nat idx))); ("kind", VString kind)]%string ++ t ++ tid
    ++ [("start_amount", uint_string amt); ("end_amount", uint_string amt)]%string ++ r)).
Definition basic_get (p : list Value) (i : nat) : outcome Value :=
  ok_or "seaport_basic_order: missing basicParams[{i}] ({what})"%string (p !! i).
Definition invalid_route {A} : outcome A := Err "seaport_basic_order: invalid route {other}"%string.
Definition basic_offer (p : list Value) (route : Z) : outcome Value :=
  kind ← (if (route =? 0) || (route =? 2) then Ok "erc721"%string
          else if (route =? 1) || (route =? 3) then Ok "erc1155"%string
          else if (route =? 4) || (route =? 5) then Ok "erc20"%string else invalid_route);
  token_id ← (if route <=? 3 then x ← basic_get p 6; Ok (Some x) else Ok None);
  token ← basic_get p 5;
  amount ← basic_get p 7;
  item ← seaport_basic_item 0 kind (Some token) token_id amount None;
  Ok (VArray [item]).
Definition basic_consideration (p : list Value) (route : Z) : outcome Value :=
  cons_token ← basic_get p 0;
  '(primary_kind, primary_token, primary_token_id) ←
    (if (route =? 0) || (route =? 1) then Ok ("native"%string, None, None)
     else if (route =? 2) || (route =? 3) then Ok ("erc20"%string, Some cons_token, None)
     else if route =? 4 then x ← basic_get p 1; Ok ("erc721"%string, Some cons_token, Some x)
     else if route =? 5 then x ← basic_get p 1; Ok ("erc1155"%string, Some cons_token, Some x)
     else invalid_route);
  amount ← basic_get p 2;
  offerer ← basic_get p 3;
  primary ← seaport_basic_item 0 primary_kind primary_token primary_token_id amount (Some offerer);
  '(add_kind, add_token) ←
    (if (route =? 0) || (route =? 1) then Ok ("native"%string, None)
     else if (route =? 2) || (route =? 3) then Ok ("erc20"%string, Some cons_token)
     else if (route =? 4) || (route =? 5) then x ← basic_get p 5; Ok ("erc20"%string, Some x)
     else invalid_route);
  av ← basic_get p 16;
  additional ← ok_or "seaport_basic_order: additionalRecipients is not an array"%string (as_array av);
  out ← each_row (fun i ar =>
    am ← ok_or "seaport_basic_order: additionalRecipient missing amount"%string (seaport_item_field ar 0 "amount");
    rc ← ok_or "seaport_basic_order: additionalRecipient missing recipient"%string (seaport_item_field ar 1 "recipient");
    seaport_basic_item (i + 1) add_kind add_token None am (Some rc)) 0 additional;
  Ok (VArray (primary :: out)).
Definition seaport_basic_order (args : list Value) : outcome Value :=
  match args with
  | [pv; f] =>
      p ← ok_or "seaport_basic_order: basicParams is not a tuple array"%string (as_array pv);
      field ← ok_or "seaport_basic_order: field is not a string"%string (as_str f);
      tv ← basic_get p 8;
      basic_order_type ← ok_or "seaport_basic_order: basicOrderType is not a uint"%string (json_to_u64 tv);
      let route := basic_order_type / 4 in
      if String.eqb field "offer" then basic_offer p route
      else if String.eqb field "consideration" then basic_consideration p route
      else Err "seaport_basic_order: field must be offer|consideration, got {other}"%string
  | _ => Err "seaport_basic_order expects 2 args (basicParams, field), got {}"%string
  end.

(** ** Dispatch *)
Definition WHITELIST : list string :=
  ["curve_route_last_token"; "route_hash"; "unoswap_route_hash"; "keccak256"; "address_from_uint256"; "address_from_left_padded_bytes32";
   "left_padded_bytes32_shape"; "maker_traits_expiry"; "coalesce_address"; "token_key_or_native"; "uniswap_v3_pool_swap_field";
   "uniswapx_single_output_field"; "uniswapx_reactor_order_field"; "balancer_zip_token_amounts"; "balancer_pool_id_to_address";
   "balancer_v2_userdata_field"; "balancer_v2_batch_swap_field"; "balancer_v3_zip_pool_tokens"; "balancer_v3_swap_path_field";
   "seaport_items"; "seaport_aggregate_items"; "seaport_basic_order"; "tuple_array_field"; "array_len"; "uint_to_string";
   "u64_saturating"; "bytes_nonempty"; "token_key_or_native_zero"; "bridge_recipient"; "bridge_recipient_from_bytes32"; "map_recipient"]%string.
(** The arms of [dispatch]. *)
Definition executors : list (string * (list Value -> outcome Value)) :=
  [("curve_route_last_token", curve_route_last_token); ("route_hash", route_hash); ("unoswap_route_hash", unoswap_route_hash);
   ("keccak256", keccak256_hex); ("address_from_uint256", address_from_uint256);
   ("address_from_left_padded_bytes32", address_from_left_padded_bytes32); ("left_padded_bytes32_shape", left_padded_bytes32_shape);
   ("maker_traits_expiry", maker_traits_expiry); ("coalesce_address", coalesce_address); ("token_key_or_native", token_key_or_native);
   ("uniswap_v3_pool_swap_field", uniswap_v3_pool_swap_field); ("uniswapx_single_output_field", uniswapx_single_output_field);
   ("uniswapx_reactor_order_field", uniswapx_reactor_order_field); ("balancer_zip_token_amounts", balancer_zip_token_amounts);
   ("balancer_pool_id_to_address", balancer_pool_id_to_address); ("balancer_v2_userdata_field", balancer_v2_userdata_field);
   ("balancer_v2_batch_swap_field", balancer_v2_batch_swap_field); ("balancer_v3_zip_pool_tokens", balancer_v3_zip_pool_tokens);
   ("balancer_v3_swap_path_field", balancer_v3_swap_path_field); ("seaport_items", seaport_items);
   ("seaport_aggregate_items", seaport_aggregate_items); ("seaport_basic_order", seaport_basic_order); ("tuple_array_field", tuple_array_field);
   ("array_len", array_len); ("uint_to_string", uint_to_string); ("u64_saturating", u64_saturating); ("bytes_nonempty", bytes_nonempty);
   ("token_key_or_native_zero", token_key_or_native_zero); ("bridge_recipient", bridge_recipient);
   ("bridge_recipient_from_bytes32", bridge_recipient_from_bytes32); ("map_recipient", map_recipient)]%string.
Fixpoint executor (l : list (string * (list Value -> outcome Value))) (name : string) : option (list Value -> outcome Value) :=
  match l with
  | [] => None
  | (k, f) :: rest => if String.eqb name k then Some f else executor rest name
  end.
Definition dispatch (name : string) (args : list Value) : outcome Value :=
  match executor executors name with
  | Some f => f args
  | None => Err "unknown $fn '{name}' (whitelist: {})"%string
  end.
End Executors.

(** ** Arguments are read back as they were decoded *)
Lemma pretty_go_first x acc : (0 < x)%N -> exists c r, pretty_N_go x acc = String c r /\ Ascii.eqb "0" c = false.
Proof.
  revert acc. induction (N.lt_wf_0 x) as [x _ IH]; intros acc Hx. rewrite pretty_N_go_step by done. destruct (N.eq_0_gt_0_cases (x / 10)) as [Hz|Hq].
  2: { apply IH; [apply N.div_lt; lia|done]. }
  - rewrite Hz, pretty_N_go_0. eexists _, _. split; [done|].
    assert (x < 10)%N by (apply N.div_small_iff in Hz; [done|done]). rewrite N.mod_small by done.
    assert (x = 1 \/ x = 2 \/ x = 3 \/ x = 4 \/ x = 5 \/ x = 6 \/ x = 7 \/ x = 8 \/ x = 9)%N as H' by lia. repeat (destruct H' as [->|H']; [done|]). by subst.
Qed.
Lemma pretty_first z : 0 < z -> exists c r, pretty z = String c r /\ Ascii.eqb "0" c = false.
Proof. intros Hz. rewrite pretty_pos by done. apply pretty_go_first. lia. Qed.
Lemma pretty_not_zero z : 0 < z -> String.eqb (pretty z) "0" = false.
Proof. intros Hz. destruct (pretty_first z Hz) as (c & r & -> & Hc). cbn [String.eqb]. rewrite Ascii.eqb_sym in Hc. by rewrite Hc. Qed.
Lemma strip_zeros_pretty z n : 0 <= z -> (let abs := trim_loop ["0"%string] (S n) (pretty z) in if String.eqb abs "" then "0"%string else abs) = pretty z.
Proof.
  intros Hz. destruct (decide (z = 0)) as [->|]; [by destruct n|]. destruct (pretty_first z ltac:(lia)) as (c & r & -> & Hc).
  cbn [trim_loop first_stripped strip_prefix]. by rewrite Hc.
Qed.

Section Lossless.
Context {T0 : AlloyText} {L0 : AlloyTextLaws T0}.
Lemma json_u256_pretty u l : u256 u -> json_u256 (VString (pretty u)) l = Ok u.
Proof.
  intros Hu. pose proof (all_digits_pretty u (proj1 Hu)) as Hd. unfold json_u256. rewrite trim_graphic by by apply digits_graphic.
  rewrite digits_no_x by done. by rewrite radix_decimal.
Qed.
Lemma json_u256_typed u ty l : u256 u -> json_u256 (uint_to_json u ty) l = Ok u.
Proof.
  intros Hu. unfold uint_to_json. destruct (uint_bits ty) as [bits|]; [|by apply json_u256_pretty].
  destruct ((bits <=? 64) && (u <=? U64_MAX)) eqn:Hb; [|by apply json_u256_pretty]. apply andb_true_iff in Hb as [_ Hb]. unfold json_u256, as_u64.
  destruct Hu as [Hu _]. by rewrite (proj2 (Z.leb_le _ _) Hu), Hb.
Qed.
Lemma signed_of_abs i : signed_of (i <? 0) (pretty (Z.abs i)) = mkJsonSignedInt (i <? 0) (pretty (Z.abs i)).
Proof. unfold signed_of. destruct (Z.ltb_spec i 0); [|done]. by rewrite pretty_not_zero by lia. Qed.
Lemma json_signed_pretty i l : json_signed_int (VString (pretty i)) l = Ok (mkJsonSignedInt (i <? 0) (pretty (Z.abs i))).
Proof.
  rewrite <- signed_of_abs. unfold json_signed_int. pose proof (all_digits_pretty (Z.abs i) ltac:(lia)) as Hd.
  pose proof (pretty_nonempty (Z.abs i) ltac:(lia)) as Hn. destruct (Z.ltb_spec i 0) as [Hi|Hi].
  - assert (pretty i = String "-" (pretty (Z.abs i))) as -> by (rewrite pretty_neg by done; do 2 f_equal; lia).
    rewrite trim_graphic by (simpl; by apply digits_graphic). cbn [String.eqb strip_prefix Ascii.eqb Bool.eqb]. cbv iota beta zeta.
    rewrite (proj2 (String.eqb_neq _ _) Hn), Hd. simpl orb. cbv iota. destruct (pretty (Z.abs i)) as [|c r] eqn:Hp; [done|]. cbn [String.length].
    rewrite <- Hp, strip_zeros_pretty by lia. done.
  - rewrite Z.abs_eq in * by lia. rewrite trim_graphic by by apply digits_graphic. rewrite (proj2 (String.eqb_neq _ _) Hn).
    destruct (pretty i) as [|c r] eqn:Hp; [done|]. assert (is_digit c = true) as Hc by by apply andb_true_iff in Hd as [? _].
    cbn [strip_prefix]. rewrite !(digit_not _ c) by done. cbn [default]. cbv iota beta zeta. rewrite Hd, (proj2 (String.eqb_neq _ _) Hn). simpl orb. cbv iota.
    cbn [String.length]. rewrite <- Hp, strip_zeros_pretty by lia. done.
Qed.
Lemma json_signed_typed i ty l : json_signed_int (int_to_json i ty) l = Ok (mkJsonSignedInt (i <? 0) (pretty (Z.abs i))).
Proof.
  unfold int_to_json. destruct (int_bits ty) as [bits|]; [|apply json_signed_pretty].
  destruct ((bits <=? 64) && (- 2 ^ 63 <=? i) && (i <? 2 ^ 63)) eqn:Hb; [|apply json_signed_pretty].
  apply andb_true_iff in Hb as [[_ Hl]%andb_true_iff Hr]. unfold json_signed_int, number_as_i64. rewrite Hl, Hr. simpl. by rewrite signed_of_abs.
Qed.

(** What the readers of the executors find in the JSON of a decoded value. *)
Inductive reads : DecodedValue -> Value -> Prop :=
| reads_address a j : (forall l, json_address j l = Ok a) -> reads (DvAddress a) j
| reads_uint u j : (forall l, json_u256 j l = Ok u) -> reads (DvUint u) j
| reads_int i j : (forall l, json_signed_int j l = Ok (mkJsonSignedInt (i <? 0) (pretty (Z.abs i)))) -> reads (DvInt i) j
| reads_bool b j : (forall l, json_bool j l = Ok b) -> reads (DvBool b) j
| reads_bytes b j : (forall l, json_hex_bytes j l = Ok b) -> reads (DvBytes b) j
| reads_string s j : as_str j = Some s -> reads (DvString s) j
| reads_array vs js : Forall2 reads vs js -> reads (DvArray vs) (VArray js)
| reads_tuple vs js : Forall2 reads vs js -> reads (DvTuple vs) (VArray js).
Fixpoint dv_ok (v : DecodedValue) : Prop :=
  match v with
  | DvAddress a => addr160 a
  | DvUint u => u256 u
  | DvBytes b => Forall byte_ok b
  | DvArray vs | DvTuple vs => foldr (fun v acc => dv_ok v /\ acc) True vs
  | _ => True
  end.
Lemma hex_reads b l : Forall byte_ok b -> json_hex_bytes (VString ("0x" +:+ hex_encode b)%string) l = Ok b.
Proof. intros Hb. unfold json_hex_bytes. simpl as_str. cbn [ok_or mbind result_bind]. rewrite strip_prefix_app. simpl. by rewrite hex_round_trip. Qed.
Lemma address_reads a l : addr160 a -> json_address (VString (lowercase_hex a)) l = Ok a.
Proof. intros Ha. unfold json_address. simpl. by rewrite address_lowercase. Qed.

(** Nothing is lost between the decoder and the functions of a manifest: whatever type text
    a value is converted under, right or wrong, the reader of its kind finds the address,
    the unsigned or signed integer, the bytes that were decoded, and arrays and tuples keep
    their elements in order. *)
Theorem decoded_args_lossless v ty : dv_ok v -> reads v (decoded_value_to_json_typed v ty) /\ reads v (decoded_value_to_json v).
Proof.
  revert v ty. fix IH 1. intros [a|u|i|b|b|s|vs|vs] ty Hok; cbn [dv_ok decoded_value_to_json_typed decoded_value_to_json] in *.
  - split; constructor; intros l; by apply address_reads.
  - split; constructor; intros l; [by apply json_u256_typed|by apply json_u256_pretty].
  - split; constructor; intros l; [apply json_signed_typed|apply json_signed_pretty].
  - split; by constructor.
  - split; constructor; intros l; by apply hex_reads.
  - split; by constructor.
  - split; constructor; generalize (default ""%string (array_element_type ty)); intros e; induction vs as [|v vs IHv]; constructor; try (apply IHv, Hok);
      apply (IH v e (proj1 Hok)).
  - split; constructor.
    + generalize (tuple_component_types ty); intros cs. generalize 0%nat. induction vs as [|v vs IHv]; intros n; constructor; [apply IH, Hok|apply IHv, Hok].
    + induction vs as [|v vs IHv]; constructor; [apply (IH v ""%string), Hok|apply IHv, Hok].
Qed.

(** ** Fields of packed words *)
Lemma to_be_split a b z : to_be (a + b) z = to_be a (z / 256 ^ Z.of_nat b) ++ to_be b z.
Proof.
  revert z. induction b as [|b IH]; intros z; [by rewrite Nat.add_0_r, Z.div_1_r, app_nil_r|]. rewrite Nat.add_succ_r. cbn [to_be].
  rewrite IH, <- app_assoc. do 2 f_equal. rewrite Nat2Z.inj_succ, Z.pow_succ_r, Z.div_div by lia. done.
Qed.
Lemma to_be_mod n z : to_be n z = to_be n (z mod 256 ^ Z.of_nat n).
Proof.
  revert z. induction n as [|n IH]; intros z; [done|]. cbn [to_be]. rewrite IH, (IH (_ / 256)). rewrite Nat2Z.inj_succ, Z.pow_succ_r by lia.
  assert (0 < 256 ^ Z.of_nat n) by lia. rewrite Z.rem_mul_r by lia. f_equal.
  - f_equal. rewrite Z.add_comm, Z.mul_comm, Z.div_add_l by lia. rewrite (Z.div_small (z mod 256)) by (apply Z.mod_pos_bound; lia).
    by rewrite Z.add_0_r, Z.mod_mod by lia.
  - f_equal. by rewrite Z.mul_comm, Z.mod_add, Z.mod_mod by lia.
Qed.
Lemma low_address w : 0 <= w -> from_be (drop 12 (to_be 32 w)) = w mod 2 ^ 160.
Proof.
  intros Hw. rewrite (to_be_split 12 20), drop_app_length' by by rewrite to_be_length. rewrite to_be_mod, from_to_be; [done|].
  change (256 ^ Z.of_nat 20) with (2 ^ 160). apply Z.mod_pos_bound. lia.
Qed.
Lemma nonzero_bytes l : existsb (fun x => negb (x =? 0)) l = false -> from_be l = 0.
Proof.
  induction l as [|b l IH] using rev_ind; [done|]. rewrite existsb_app, orb_false_iff, from_be_snoc. intros [Hl Hb]. rewrite IH by done.
  simpl in Hb. destruct (Z.eqb_spec b 0); [lia|done].
Qed.
Lemma zero_bytes n : existsb (fun x => negb (x =? 0)) (to_be n 0) = false.
Proof. induction n as [|n IH]; [done|]. cbn [to_be]. rewrite existsb_app. change (0 / 256) with 0. by rewrite IH. Qed.
Lemma high_bytes w : u256 w -> existsb (fun x => negb (x =? 0)) (take 12 (to_be 32 w)) = negb (w <? 2 ^ 160).
Proof.
  intros Hw. assert (256 ^ Z.of_nat 20 = 2 ^ 160) as Hp by done. rewrite (to_be_split 12 20), take_app_length' by by rewrite to_be_length. rewrite Hp.
  destruct (Z.ltb_spec w (2 ^ 160)) as [Hlt|Hge]; simpl negb.
  - rewrite Z.div_small by (unfold u256 in Hw; lia). apply zero_bytes.
  - apply not_false_iff_true. intros H%nonzero_bytes. rewrite from_to_be in H.
    + apply Z.div_small_iff in H; [unfold u256, U256_MAX in Hw; lia|lia].
    + split; [apply Z.div_pos; unfold u256 in Hw; lia|]. apply Z.div_lt_upper_bound; [lia|]. unfold u256, U256_MAX in Hw. change (256 ^ Z.of_nat 12) with (2 ^ 96). lia.
Qed.
Lemma word_reads w l : json_bytes32 (word_hex (to_be 32 w)) l = Ok (to_be 32 w).
Proof. unfold json_bytes32, word_hex. rewrite hex_reads by apply to_be_ok. cbn [mbind result_bind]. by rewrite to_be_length. Qed.

(** The packed fields of a word: an address is its low 160 bits; the strict reader accepts
    exactly the words whose high bits are clear, and a bridge recipient that is no address is
    kept whole; the expiry is bits 80 to 119, and the never-expiring zero is the latest time. *)
Theorem word_fields_exact w : u256 w ->
  address_from_uint256 [uint_string w] = Ok (address_hex (w mod 2 ^ 160)) /\
  maker_traits_expiry [uint_string w] = Ok (VNumber (IntNum (let e := (w / 2 ^ 80) mod 2 ^ 40 in if e =? 0 then 2 ^ 40 - 1 else e))) /\
  (forall a, address_from_left_padded_bytes32 [word_hex (to_be 32 w)] = Ok a <-> w < 2 ^ 160 /\ a = address_hex w) /\
  bridge_recipient_from_bytes32 [word_hex (to_be 32 w)] =
    Ok (VObject (if w <? 2 ^ 160 then [("kind", VString "evm"); ("address", address_hex w)]%string
                 else [("kind", VString "raw"); ("bytes32", word_hex (to_be 32 w))]%string)).
Proof.
  intros Hw. assert (0 <= w) as H0 by apply Hw. unfold address_from_uint256, maker_traits_expiry, uint_string. rewrite !json_u256_pretty by done. cbn [mbind result_bind].
  split; [by rewrite low_address|]. split; [|split].
  - rewrite Z.shiftr_div_pow2 by lia. change 0xffffffffff with (Z.ones 40). rewrite Z.land_ones by lia. change (Z.ones 40) with (2 ^ 40 - 1). cbv zeta.
    pose proof (Z.mod_pos_bound (w / 2 ^ 80) (2 ^ 40)). destruct (_ =? 0); [done|]. by rewrite (proj2 (Z.leb_le _ _)) by (unfold U64_MAX; lia).
  - intros a. unfold address_from_left_padded_bytes32. rewrite word_reads. cbn [mbind result_bind]. unfold left_padded_bytes32_address.
    rewrite high_bytes, low_address by done. destruct (Z.ltb_spec w (2 ^ 160)); cbn [negb mbind result_bind]; [|split; [done|lia]].
    rewrite Z.mod_small by lia. split; [by intros [= <-]|by intros [_ ->]].
  - unfold bridge_recipient_from_bytes32. rewrite word_reads. cbn [mbind result_bind]. unfold left_padded_bytes32_address.
    rewrite high_bytes, low_address by done. destruct (Z.ltb_spec w (2 ^ 160)); cbn [negb mbind result_bind]; [|done]. by rewrite Z.mod_small by lia.
Qed.
End Lossless.

(** ** Which calls panic *)
Definition no_panic {E A} (r : result E A) : Prop := r <> Panic.
Lemma np_ok {E A} (a : A) : no_panic (E := E) (Ok a).
Proof. done. Qed.
Lemma np_err {E A} (e : E) : no_panic (A := A) (Err e).
Proof. done. Qed.
Lemma np_bind {E A B} (m : result E A) (f : A -> result E B) : no_panic m -> (forall a, m = Ok a -> no_panic (f a)) -> no_panic (m ≫= f).
Proof. destruct m; [|done|done]. simpl. intros _ H. by apply H. Qed.
Lemma np_ok_or {E A} (e : E) (o : option A) : no_panic (ok_or e o).
Proof. by destruct o. Qed.
Lemma np_map_err {E F A} (f : E -> F) (r : result E A) : no_panic r -> no_panic (map_err f r).
Proof. by destruct r. Qed.
Lemma np_lift_err {E F A} (f : E -> F) (r : E + A) : no_panic (lift_err f r).
Proof. by destruct r. Qed.
Lemma np_each_row {A} (f : nat -> A -> outcome Value) i l : (forall i x, no_panic (f i x)) -> no_panic (each_row f i l).
Proof. intros Hf. revert i. induction l as [|x l IH]; intros i; cbn [each_row]; [done|]. apply np_bind; [done|intros v _]. by apply np_bind. Qed.
Create HintDb nopanic.
#[export] Hint Resolve np_ok np_err np_ok_or np_map_err np_lift_err : nopanic.
(** Walks a computation: every bind, test and match of it. *)
Ltac np :=
  repeat first
    [ progress intros
    | solve [eauto with nopanic]
    | apply np_bind
    | apply np_each_row
    | match goal with
      | |- no_panic (let _ := _ in _) => cbv zeta
      | |- no_panic (if ?b then _ else _) => destruct b
      | |- no_panic (match ?x with _ => _ end) => destruct x
      end ].

Section Panics.
Context {T0 : AlloyText} {A0 : Alloy}.
Lemma np_json_hex_bytes v l : no_panic (json_hex_bytes v l).
Proof. unfold json_hex_bytes. np. Qed.
#[local] Hint Resolve np_json_hex_bytes : nopanic.
Lemma np_json_bytes32 v l : no_panic (json_bytes32 v l).
Proof. unfold json_bytes32. np. Qed.
Lemma np_left_padded b l : no_panic (left_padded_bytes32_address b l).
Proof. unfold left_padded_bytes32_address. np. Qed.
Lemma np_json_u256 v l : no_panic (json_u256 v l).
Proof. unfold json_u256. np. Qed.
Lemma np_json_address v l : no_panic (json_address v l).
Proof. unfold json_address. np. Qed.
Lemma np_json_bool v l : no_panic (json_bool v l).
Proof. unfold json_bool. np. Qed.
Lemma np_json_signed_int v l : no_panic (json_signed_int v l).
Proof. unfold json_signed_int. np. Qed.
#[local] Hint Resolve np_json_bytes32 np_left_padded np_json_u256 np_json_address np_json_bool np_json_signed_int : nopanic.
Lemma np_route_bytes l : no_panic (route_bytes l).
Proof. induction l; cbn [route_bytes]; np. Qed.
Lemma np_dex_bytes l : no_panic (dex_bytes l).
Proof. induction l; cbn [dex_bytes]; np. Qed.
Lemma np_output_field o f l : no_panic (uniswapx_json_output_field o f l).
Proof. unfold uniswapx_json_output_field. np. Qed.
Lemma np_for_reactor r : no_panic (for_reactor r).
Proof. unfold for_reactor. np. Qed.
Lemma np_decode_with_signature sig b : no_panic (decode_with_signature sig b).
Proof. unfold decode_with_signature, decode_with_function. np. Qed.
Lemma np_tuple_items v p : no_panic (tuple_items v p).
Proof. unfold tuple_items. np. Qed.
Lemma np_tuple_get l i p : no_panic (tuple_get l i p).
Proof. unfold tuple_get. np. Qed.
#[local] Hint Resolve np_route_bytes np_dex_bytes np_output_field np_for_reactor np_decode_with_signature np_tuple_items np_tuple_get : nopanic.
Lemma np_tuple_at l i p : no_panic (tuple_at l i p).
Proof. unfold tuple_at. np. Qed.
Lemma np_single_item l i p : no_panic (single_tuple_array_item l i p).
Proof. unfold single_tuple_array_item. np. Qed.
Lemma np_address_json v : no_panic (address_json v).
Proof. unfold address_json, address_value. np. Qed.
Lemma np_address_value v : no_panic (address_value v).
Proof. unfold address_value. np. Qed.
Lemma np_uint_from_value v : no_panic (uint_from_value v).
Proof. unfold uint_from_value. np. Qed.
#[local] Hint Resolve np_tuple_at np_single_item np_address_json np_address_value np_uint_from_value : nopanic.
Lemma np_uint_string_json v : no_panic (uint_string_json v).
Proof. unfold uint_string_json. np. Qed.
Lemma np_uint_u64_json v : no_panic (uint_u64_json v).
Proof. unfold uint_u64_json. np. Qed.
Lemma np_cosigned a b i : no_panic (cosigned_amount a b i).
Proof. unfold cosigned_amount. np. Qed.
#[local] Hint Resolve np_uint_string_json np_uint_u64_json np_cosigned : nopanic.
Lemma np_decode_order f b r : no_panic (decode_uniswapx_order f b r).
Proof. unfold decode_uniswapx_order. np. Qed.
Lemma np_token_amount c t a l1 l2 : no_panic (token_amount c t a l1 l2).
Proof. unfold token_amount. np. Qed.
#[local] Hint Resolve np_decode_order np_token_amount : nopanic.
Lemma np_zip_amounts c t a l1 l2 : no_panic (zip_amounts c t a l1 l2).
Proof. unfold zip_amounts. np. Qed.
Lemma np_shape_field f l b y : no_panic (shape_field f l b y).
Proof. unfold shape_field. np. Qed.
Lemma np_asset_at a i l : no_panic (asset_at a i l).
Proof. unfold asset_at. np. Qed.
Lemma np_item_kind t : no_panic (seaport_item_kind t).
Proof. unfold seaport_item_kind. np. Qed.
Lemma np_role v l : no_panic (seaport_role v l).
Proof. unfold seaport_role. np. Qed.
#[local] Hint Resolve np_zip_amounts np_shape_field np_asset_at np_item_kind np_role : nopanic.
Lemma np_build_item e i r l : no_panic (seaport_build_item e i r l).
Proof. unfold seaport_build_item. np. Qed.
Lemma np_basic_item i k t d a r : no_panic (seaport_basic_item i k t d a r).
Proof. unfold seaport_basic_item. np. Qed.
Lemma np_basic_get p i : no_panic (basic_get p i).
Proof. unfold basic_get. np. Qed.
#[local] Hint Resolve np_build_item np_basic_item np_basic_get : nopanic.
Lemma np_aggregate r slot i l : no_panic (aggregate_orders r slot i l).
Proof. revert i. induction l; intros i; cbn [aggregate_orders]; np. Qed.
Lemma np_basic_offer p r : no_panic (basic_offer p r).
Proof. unfold basic_offer, invalid_route. np. Qed.
Lemma np_basic_consideration p r : no_panic (basic_consideration p r).
Proof. unfold basic_consideration, invalid_route. np. Qed.
#[local] Hint Resolve np_aggregate np_basic_offer np_basic_consideration : nopanic.
(** The [expect]s of the two swap readers are covered by the shape test before them. *)
Lemma np_batch_swap args : no_panic (balancer_v2_batch_swap_field args).
Proof.
  unfold balancer_v2_batch_swap_field. destruct args as [|k [|sv [|av [|f [|]]]]]; try done. cbv zeta. apply np_bind; [np|intros swaps _].
  apply np_bind; [np|intros assets _]. apply np_bind; [np|intros field _]. destruct (String.eqb field "shape"); [done|]. case_match; [done|].
  destruct (single_step_supported (json_to_u64 k) swaps assets) eqn:Hs; [|done]. simpl negb. cbv iota. unfold single_step_supported in Hs.
  apply andb_true_iff in Hs as [_ Hs]. destruct (x ← head swaps; as_array x) as [first|]; [|done]. simpl. rewrite !andb_true_iff in Hs.
  destruct Hs as [[[Hne H3%bool_decide_eq_true] _] _]. destruct first as [|x first]; [done|]. destruct H3 as [y H3]. rewrite H3. cbn [head or_panic]. np.
Qed.
Lemma np_swap_path args : no_panic (balancer_v3_swap_path_field args).
Proof.
  unfold balancer_v3_swap_path_field. destruct args as [|pv [|f [|]]]; try done. cbv zeta. apply np_bind; [np|intros paths _].
  apply np_bind; [np|intros field _]. destruct (String.eqb field "shape"); [done|]. case_match; [done|].
  destruct (single_nonempty_supported paths) eqn:Hs; [|done]. simpl negb. cbv iota. unfold single_nonempty_supported in Hs.
  apply andb_true_iff in Hs as [_ Hs]. destruct (x ← head paths; as_array x) as [p|]; [|done]. cbn [mbind option_bind or_panic result_bind].
  destruct (x ← p !! 1%nat; as_array x) as [steps|]; [|done]. cbn [or_panic mbind result_bind]. rewrite !andb_true_iff in Hs.
  destruct Hs as [[[[[_ Hne] H2%bool_decide_eq_true] H3%bool_decide_eq_true] H4%bool_decide_eq_true] H5%bool_decide_eq_true].
  destruct p as [|x p]; [done|]. destruct H2 as [? ->], H3 as [? ->], H4 as [? ->], H5 as [? ->]. cbn [head or_panic]. np.
Qed.
Definition pool_id : string := "balancer_pool_id_to_address".
Lemma np_curve_route_last_token args : no_panic (curve_route_last_token args).
Proof. unfold curve_route_last_token. np. Qed.
Lemma np_route_hash args : no_panic (route_hash args).
Proof. unfold route_hash. np. Qed.
Lemma np_unoswap_route_hash args : no_panic (unoswap_route_hash args).
Proof. unfold unoswap_route_hash. np. Qed.
Lemma np_keccak256_hex args : no_panic (keccak256_hex args).
Proof. unfold keccak256_hex. np. Qed.
Lemma np_address_from_uint256 args : no_panic (address_from_uint256 args).
Proof. unfold address_from_uint256. np. Qed.
Lemma np_address_from_left_padded_bytes32 args : no_panic (address_from_left_padded_bytes32 args).
Proof. unfold address_from_left_padded_bytes32. np. Qed.
Lemma np_left_padded_bytes32_shape args : no_panic (left_padded_bytes32_shape args).
Proof. unfold left_padded_bytes32_shape. np. Qed.
Lemma np_maker_traits_expiry args : no_panic (maker_traits_expiry args).
Proof. unfold maker_traits_expiry. np. Qed.
Lemma np_coalesce_address args : no_panic (coalesce_address args).
Proof. unfold coalesce_address. np. Qed.
Lemma np_token_key_or_native args : no_panic (token_key_or_native args).
Proof. unfold token_key_or_native. np. Qed.
Lemma np_uniswap_v3_pool_swap_field args : no_panic (uniswap_v3_pool_swap_field args).
Proof. unfold uniswap_v3_pool_swap_field. np. Qed.
Lemma np_uniswapx_single_output_field args : no_panic (uniswapx_single_output_field args).
Proof. unfold uniswapx_single_output_field. np. Qed.
Lemma np_uniswapx_reactor_order_field args : no_panic (uniswapx_reactor_order_field args).
Proof. unfold uniswapx_reactor_order_field. np. Qed.
Lemma np_balancer_zip_token_amounts args : no_panic (balancer_zip_token_amounts args).
Proof. unfold balancer_zip_token_amounts. np. Qed.
Lemma np_balancer_v2_userdata_field args : no_panic (balancer_v2_userdata_field args).
Proof. unfold balancer_v2_userdata_field. np. Qed.
Lemma np_balancer_v3_zip_pool_tokens args : no_panic (balancer_v3_zip_pool_tokens args).
Proof. unfold balancer_v3_zip_pool_tokens. np. Qed.
Lemma np_seaport_items args : no_panic (seaport_items args).
Proof. unfold seaport_items. np. Qed.
Lemma np_seaport_aggregate_items args : no_panic (seaport_aggregate_items args).
Proof. unfold seaport_aggregate_items. np. Qed.
Lemma np_seaport_basic_order args : no_panic (seaport_basic_order args).
Proof. unfold seaport_basic_order. np. Qed.
Lemma np_tuple_array_field args : no_panic (tuple_array_field args).
Proof. unfold tuple_array_field. np. Qed.
Lemma np_array_len args : no_panic (array_len args).
Proof. unfold array_len. np. Qed.
Lemma np_uint_to_string args : no_panic (uint_to_string args).
Proof. unfold uint_to_string. np. Qed.
Lemma np_u64_saturating args : no_panic (u64_saturating args).
Proof. unfold u64_saturating. np. Qed.
Lemma np_bytes_nonempty args : no_panic (bytes_nonempty args).
Proof. unfold bytes_nonempty. np. Qed.
Lemma np_token_key_or_native_zero args : no_panic (token_key_or_native_zero args).
Proof. unfold token_key_or_native_zero. np. Qed.
Lemma np_bridge_recipient args : no_panic (bridge_recipient args).
Proof. unfold bridge_recipient. np. Qed.
Lemma np_bridge_recipient_from_bytes32 args : no_panic (bridge_recipient_from_bytes32 args).
Proof. unfold bridge_recipient_from_bytes32. np. Qed.
Lemma np_map_recipient args : no_panic (map_recipient args).
Proof. unfold map_recipient. np. Qed.
#[local] Hint Resolve np_curve_route_last_token np_route_hash np_unoswap_route_hash np_keccak256_hex
  np_address_from_uint256 np_address_from_left_padded_bytes32 np_left_padded_bytes32_shape np_maker_traits_expiry
  np_coalesce_address np_token_key_or_native np_uniswap_v3_pool_swap_field np_uniswapx_single_output_field
  np_uniswapx_reactor_order_field np_balancer_zip_token_amounts np_balancer_v2_userdata_field
  np_balancer_v3_zip_pool_tokens np_seaport_items np_seaport_aggregate_items np_seaport_basic_order np_tuple_array_field
  np_array_len np_uint_to_string np_u64_saturating np_bytes_nonempty np_token_key_or_native_zero np_bridge_recipient
  np_bridge_recipient_from_bytes32 np_map_recipient np_batch_swap np_swap_path : nopanic.
Lemma executors_no_panic : Forall (fun kf => kf.1 <> pool_id -> forall args, no_panic (kf.2 args)) executors.
Proof.
  unfold executors. repeat (apply Forall_cons; split; [intros Hk args; cbn [fst snd] in *; first [by exfalso; apply Hk|solve [auto with nopanic]]|]).
  constructor.
Qed.
Lemma executor_pool_id : executor executors pool_id = Some balancer_pool_id_to_address.
Proof. reflexivity. Qed.
Lemma executor_in l name f : executor l name = Some f -> (name, f) ∈ l.
Proof.
  induction l as [|[k g] l IH]; [done|]. cbn [executor]. destruct (String.eqb_spec name k) as [->|]; [intros [= ->]; left|right; auto].
Qed.
Lemma executor_known l name : is_Some (executor l name) <-> name ∈ l.*1.
Proof.
  induction l as [|[k g] l IH]; cbn [executor fmap list_fmap fst].
  - split; [by intros []|by intros ?%elem_of_nil].
  - rewrite elem_of_cons. destruct (String.eqb_spec name k) as [->|]; [split; eauto|]. rewrite IH. naive_solver.
Qed.

(** C33: A manifest can call exactly the whitelisted functions, and a call always returns a value
    or an error, with one exception: reading the address out of a pool identifier cuts the
    text after forty bytes, and panics when that is inside a character. *)
Theorem fn_dispatch_total name args :
  (is_Some (executor executors name) <-> name ∈ WHITELIST) /\
  (dispatch name args = Panic <->
   name = pool_id /\ exists s, args = [VString s] /\
     let body := default s (strip_prefix "0x" s) in String.length body = 64%nat /\ is_char_boundary 40 body = false).
Proof.
  split; [by rewrite executor_known|]. unfold dispatch. destruct (executor executors name) as [f|] eqn:Hf.
  - destruct (decide (name = pool_id)) as [->|Hn].
    + rewrite executor_pool_id in Hf. injection Hf as <-. unfold balancer_pool_id_to_address. split.
      * intros H. split; [done|]. destruct args as [|v [|]]; try done. destruct v; try done. exists s. split; [done|]. cbn [as_str ok_or mbind result_bind] in H. cbv zeta in *.
        set (body := default s (strip_prefix "0x" s)) in *. destruct (Nat.eqb_spec (String.length body) 64) as [He|]; [|done]. split; [done|].
        unfold slice_to in H. destruct (is_char_boundary 40 body); [|done]. cbn [mbind result_bind negb] in H. by destruct (address_from_str _).
      * intros (_ & s & -> & Hl & Hb). cbn [as_str ok_or mbind result_bind]. cbv zeta in *. rewrite Hl. cbn [Nat.eqb negb]. unfold slice_to. by rewrite Hb.
    + split; [|by intros [-> _]]. intros H. exfalso. apply executor_in in Hf. pose proof executors_no_panic as Hp.
      rewrite Forall_forall in Hp. by apply (Hp _ Hf Hn args).
  - split; [done|]. intros [-> _]. by rewrite executor_pool_id in Hf.
Qed.
End Panics.

(** ** An instance of the text interface *)
Fixpoint hex_pairs (l : list ascii) : option bytes :=
  match l with
  | [] => Some []
  | c0 :: c1 :: rest =>
      hi ← res_ok (hex_nibble c0); lo ← res_ok (hex_nibble c1); bs ← hex_pairs rest; Some (16 * hi + lo :: bs)
  | _ => None
  end.
Definition demo_text : AlloyText := {|
  u256_from_str_radix s radix :=
    if radix =? 10 then v ← digits_value 0 s; if v <=? U256_MAX then Some v else None else None;
  address_from_str s :=
    digits ← strip_prefix "0x" s;
    if (String.length digits =? 40)%nat then a ← res_ok (pool_id_bytes 20 (String.list_ascii_of_string digits) 0);
      if (0 <=? a) && (a <? 2 ^ 160) then Some a else None else None;
  address_display := lowercase_hex;
  keccak256 b := to_be 32 (from_be b);
  hex_decode s := bs ← hex_pairs (String.list_ascii_of_string s); if forallb (fun b => (0 <=? b) && (b <? 256)) bs then Some bs else None;
|}.
Lemma digits_value_nonneg acc s v : 0 <= acc -> digits_value acc s = Some v -> 0 <= v.
Proof.
  revert acc. induction s as [|c s IH]; intros acc Ha; cbn [digits_value]; [intros [= <-]; done|]. destruct (is_digit c) eqn:Hc; [|done].
  apply IH. unfold is_digit, char_in in Hc. apply andb_true_iff in Hc as [H _]. apply Nat.leb_le in H. lia.
Qed.
Lemma byte_range b : (0 <=? b) && (b <? 256) = true <-> byte_ok b.
Proof. unfold byte_ok. rewrite andb_true_iff, Z.leb_le, Z.ltb_lt. done. Qed.
Lemma hex_pairs_encode bs : Forall byte_ok bs -> hex_pairs (String.list_ascii_of_string (hex_encode bs)) = Some bs.
Proof.
  induction 1 as [|b bs Hb Hbs IH]; [done|]. unfold byte_ok in Hb. cbn [hex_encode fold_right hex_digits]. rewrite !list_ascii_app.
  destruct (hex_digit_nibble (b / 16 mod 16)) as (c0 & E0 & N0); [apply Z.mod_pos_bound; lia|].
  destruct (hex_digit_nibble (b mod 16)) as (c1 & E1 & N1); [apply Z.mod_pos_bound; lia|].
  rewrite E0, E1. change (fold_right _ _ bs) with (hex_encode bs). cbn [app String.list_ascii_of_string hex_pairs]. rewrite N0, N1. cbn [res_ok mbind option_bind]. rewrite IH. cbn [mbind option_bind]. do 2 f_equal.
  rewrite (Z.mod_small (b / 16)) by (split; [apply Z.div_pos; lia|apply Z.div_lt_upper_bound; lia]). symmetry. apply Z.div_mod. lia.
Qed.
#[global] Instance demo_text_laws : AlloyTextLaws demo_text.
Proof.
  constructor.
  - intros s r z. simpl. destruct (r =? 10); [|done]. destruct (digits_value 0 s) as [v|] eqn:Hv; [|done]. simpl.
    destruct (Z.leb_spec v U256_MAX); [|done]. intros [= <-]. split; [|done]. by eapply digits_value_nonneg.
  - intros u Hu. simpl. rewrite digits_pretty_nonneg by apply Hu. simpl. by rewrite (proj2 (Z.leb_le _ _) (proj2 Hu)).
  - intros s a. cbn [address_from_str demo_text]. destruct (strip_prefix "0x" s) as [d|]; [|done]. cbn [mbind option_bind]. destruct (_ =? _)%nat; [|done].
    destruct (res_ok _) as [v|]; [|done]. cbn [mbind option_bind]. destruct ((0 <=? v) && (v <? 2 ^ 160)) eqn:Hr; [|done]. intros [= <-].
    apply andb_true_iff in Hr as [?%Z.leb_le ?%Z.ltb_lt]. done.
  - intros a Ha. unfold lowercase_hex. cbn [address_from_str demo_text]. rewrite strip_prefix_app. cbn [mbind option_bind]. rewrite hex_digits_length. cbn [Nat.eqb].
    rewrite <- (app_nil_r (String.list_ascii_of_string _)). change 40%nat with (2 * 20)%nat. rewrite pool_id_bytes_hex by apply Ha. cbn [res_ok mbind option_bind].
    destruct Ha as [H1 H2]. by rewrite (proj2 (Z.leb_le _ _) H1), (proj2 (Z.ltb_lt _ _) H2).
  - intros b. apply to_be_length.
  - intros s b. cbn [hex_decode demo_text]. destruct (hex_pairs _) as [bs|]; [|done]. cbn [mbind option_bind]. destruct (forallb _ bs) eqn:Hb; [|done]. intros [= <-].
    apply Forall_forall. intros x Hx. rewrite forallb_forall in Hb. apply byte_range, Hb, list_elem_of_In, Hx.
  - intros b Hb. cbn [hex_decode demo_text]. rewrite hex_pairs_encode by done. cbn [mbind option_bind]. rewrite (proj2 (forallb_forall _ _)); [done|]. intros x Hx. apply byte_range.
    rewrite Forall_forall in Hb. apply Hb. by apply list_elem_of_In.
Qed.
Definition demo_value : DecodedValue := DvTuple [DvAddress 255; DvArray [DvUint 7; DvUint (2 ^ 200)]; DvInt (-3); DvBytes [1; 254]].
Lemma decoded_args_lossless_witness :
  reads (T0 := demo_text) demo_value (decoded_value_to_json_typed demo_value "(address,uint64[],int24,bytes)").
Proof.
  apply (decoded_args_lossless (T0 := demo_text) demo_value "(address,uint64[],int24,bytes)").
  cbn. unfold addr160, u256, byte_ok, U256_MAX. split; [lia|]. split; [split; [lia|split; [lia|done]]|]. split; [done|]. split; [|done].
  repeat constructor; unfold byte_ok; lia.
Defined.
Lemma word_fields_exact_witness :
  maker_traits_expiry (T0 := demo_text) [uint_string (5 * 2 ^ 80 + 9)] = Ok (VNumber (IntNum 5)).
Proof. apply (word_fields_exact (T0 := demo_text) (5 * 2 ^ 80 + 9)). unfold u256, U256_MAX. lia. Defined.
End MapperFn.
