(* ===== verification/MapperBuild.v ===== *)
(** * Building actions from manifest templates (adapters/mappers/src/declarative/action_builder.rs)

    The placeholder language of [emit.body] (references into the call, value-maps,
    function calls), the flattening of the nested body, the injection of live
    inputs, the typed decode that refuses fields nobody consumes, and the two
    multicall builders. The derived serialization of an action body is the class
    [ActionSerde]. Objects keep their insertion order, as serde_json does with
    [preserve_order], so removing a member moves the last one into its place. *)
From Stdlib Require Import Ascii.
From stdpp Require Import base tactics numbers list strings gmap pretty sorting.
From S2P Require Import Prelude Types Bytes AbiDecode Apply SyncLive PolicyEngine PolicyRpc BundleFormat BundleTrust SessionInput MapperText MapperFn.
Import SyncLive.

Module MapperBuild.
Import AbiDecode PolicyEngine PolicyRpc BundleFormat BundleTrust SessionInput MapperText MapperFn.

(** ** Errors and context *)
Inductive UnknownOpcodePolicy := PolicyWarn | PolicyDeny | PolicySkip.
Inductive V3BuildError :=
| UnresolvedPlaceholder (what : string)
| InvalidArgPath (path args : string)
| SerdeFromValue (e : string)
| UnknownActionBodyFields (domain action : option string) (fields : string)
| UnknownOpcodeByte (opcode : Z) (policy : UnknownOpcodePolicy)
| UnknownPlaceholder (what : string)
| ArraySourceNotArray (source : string)
| ParallelSourceNotArray (name placeholder : string)
| ParallelSourceLengthMismatch (name : string) (array_len parallel_len : nat)
| ArraySourceTooLarge (source : string) (max actual : nat)
| ValueMapNoMatch (matched : string)
| ValueMapMalformed (what : string)
| FnCall (function reason : string).
Local Notation built A := (result V3BuildError A).
Record V3MapContext := mkV3MapContext {
  mx_chain : string; mx_tx_to : Address; mx_tx_from : Address; mx_value : U256; mx_submitted_at : Z;
  mx_args_json : Value; mx_raw_calldata : string;
  mx_resolved : gmap string Value; mx_derived : gmap string Value; mx_inputs : option Value }.

Inductive FallbackType := FbAddress | FbU32 | FbU256 | FbBytes32.
Definition placeholder_type_lookup (rest : string) : option FallbackType :=
  if bool_decide (rest ∈ ["weth"; "factory"; "pool"; "pool_manager"; "v3_path_first_token"; "v3_path_last_token"; "v4_token_in";
    "v4_token_out"; "v4_hooks"; "v4_recipient"; "metamorpho_underlying"]%string) then Some FbAddress
  else if bool_decide (rest ∈ ["fee_tier_bp"; "slippage_bp"]%string) then Some FbU32
  else if bool_decide (rest ∈ ["v4_amount_in"; "v4_amount_out_min"; "min_lp_out"]%string) then Some FbU256
  else if String.eqb rest "v4_pool_id" then Some FbBytes32 else None.
Definition ZERO_ADDRESS : string := "0x0000000000000000000000000000000000000000".
Definition zero_value_for (t : FallbackType) : Value :=
  match t with
  | FbAddress => VString ZERO_ADDRESS
  | FbU32 => VNumber (IntNum 0)
  | FbU256 => VString "0"
  | FbBytes32 => VString "0x0000000000000000000000000000000000000000000000000000000000000000"
  end.

(** ** Paths *)
(** The loop of [parse_segment]: every round consumes a bracket pair, so the length of the
    text bounds the rounds. *)
Fixpoint index_loop (fuel : nat) (remainder : string) : result string (list Z) :=
  if String.eqb remainder "" then Ok []
  else
    match fuel with
    | O => Panic
    | S fuel' =>
        match remainder with
        | String c _ =>
            if negb (Ascii.eqb c "["%char) then Err "expected '[' after previous bracket in {full_path:?}, got {remainder:?}"%string
            else
              close ← ok_or "unterminated '[' in {full_path:?}"%string (find_char "]"%char remainder);
              idx ← ok_or "invalid index {idx_str:?} in {full_path:?}"%string (parse_i64 (str_drop 1 (str_take close remainder)));
              rest ← index_loop fuel' (str_drop (close + 1) remainder);
              Ok (idx :: rest)
        | EmptyString => Ok []
        end
    end.
Definition parse_segment (segment : string) : result string (string * list Z) :=
  match find_char "["%char segment with
  | Some start =>
      indices ← index_loop (String.length segment) (str_drop start segment);
      Ok (str_take start segment, indices)
  | None => Ok (segment, [])
  end.
Definition resolve_index (idx : Z) (len : nat) : option nat :=
  if 0 <=? idx then (if idx <? Z.of_nat len then Some (Z.to_nat idx) else None)
  else if (- 2 ^ 63 <? idx) && (- idx <=? Z.of_nat len) then Some (len - Z.to_nat (- idx))%nat else None.
Definition index_step (cursor : Value) (idx : Z) : result string Value :=
  arr ← ok_or "indexed access on non-array at {name:?}[{idx}] in {path:?}"%string (as_array cursor);
  resolved ← ok_or "index {idx} out of bounds (len={})"%string (resolve_index idx (length arr));
  or_panic (arr !! resolved).
Definition walk_segment (cursor : Value) (raw_segment : string) : result string Value :=
  if String.eqb raw_segment "" then Err "empty path segment in {path:?}"%string
  else
    '(name, indices) ← parse_segment raw_segment;
    cursor ← (if String.eqb name "" then Ok cursor else ok_or "missing field {name:?} in {path:?}"%string (value_get cursor name));
    foldM index_step indices cursor.
Definition walk_json_path (root : Value) (path : string) : result string Value := foldM walk_segment (split_dot path) root.

(** ** Placeholders *)
(** The root token ends at the first dot, which is dropped, or bracket, which is kept. *)
Definition split_root (body : string) : string * string :=
  match find_char "."%char body, find_char "["%char body with
  | None, Some b => (str_take b body, str_drop b body)
  | Some d, Some b => if (b <? d)%nat then (str_take b body, str_drop b body) else (str_take d body, str_drop (d + 1) body)
  | Some d, None => (str_take d body, str_drop (d + 1) body)
  | None, None => (body, ""%string)
  end.
Definition walk_from (root : Value) (rest : string) : built Value :=
  map_err (fun e => InvalidArgPath rest (e +:+ ": {}")) (walk_json_path root rest).
Definition resolve_placeholder (ctx : V3MapContext) (raw : string) : built Value :=
  body ← slice_from 1 raw;
  let '(root, rest) := split_root body in
  if String.eqb root "chain" then Ok (VString (mx_chain ctx))
  else if String.eqb root "to" then Ok (address_hex (mx_tx_to ctx))
  else if String.eqb root "calldata" then
    (if String.eqb rest "" then Ok (VString (mx_raw_calldata ctx))
     else Err (UnresolvedPlaceholder "$calldata takes no path suffix (got {raw:?})"))
  else if String.eqb root "tx" then
    (if String.eqb rest "from" then Ok (address_hex (mx_tx_from ctx))
     else if String.eqb rest "to" then Ok (address_hex (mx_tx_to ctx))
     else if String.eqb rest "value" then Ok (uint_string (mx_value ctx))
     else if String.eqb rest "chain" then Ok (VString (mx_chain ctx))
     else Err (UnresolvedPlaceholder "$tx.{other}"))
  else if String.eqb root "args" then
    (if String.eqb rest "" then Err (UnresolvedPlaceholder raw) else walk_from (mx_args_json ctx) rest)
  else if String.eqb root "resolved" || String.eqb root "derived" then
    match (if String.eqb root "resolved" then mx_resolved ctx else mx_derived ctx) !! rest with
    | Some v => Ok v
    | None =>
        match placeholder_type_lookup rest with
        | Some ty => Ok (zero_value_for ty)
        | None => Err (UnknownPlaceholder "{root}.{rest}")
        end
    end
  else if String.eqb root "inputs" then
    inputs ← ok_or (UnresolvedPlaceholder raw) (mx_inputs ctx);
    if String.eqb rest "" then Ok inputs else walk_from inputs rest
  else Err (UnresolvedPlaceholder "${other} (rest={rest:?})").

Definition starts_with_dollar (s : string) : bool := match s with String c _ => Ascii.eqb c "$"%char | EmptyString => false end.
Definition has_key (fs : list (string * Value)) (k : string) : bool := bool_decide (is_Some (obj_get fs k)).
(** The lookup key a matched value collapses to. *)
Definition case_key (v : Value) : option string :=
  match v with
  | VString s => Some s
  | VNumber n => Some (number_to_string n)
  | VBool b => Some (if b then "true" else "false")%string
  | _ => None
  end.
(** [substituted k] is the substituted member [k] of the map, [case k] the substituted case. *)
Definition resolve_value_map (fs : list (string * Value)) (substituted case : string -> option (built Value)) : built Value :=
  if negb (forallb (fun kv => bool_decide (kv.1 ∈ ["$match"; "$cases"; "$default"]%string)) fs)
  then Err (ValueMapMalformed "unexpected key '{k}' in value-map (allowed: $match, $cases, $default)")
  else
    matched ← default (Err (ValueMapMalformed "$match key missing")) (substituted "$match"%string);
    key ← ok_or (ValueMapMalformed "$match resolved to a non-keyable type: {other}") (case_key matched);
    _ ← ok_or (ValueMapMalformed "$cases missing or not a JSON object") (v ← obj_get fs "$cases"; as_object v);
    match case key with
    | Some r => r
    | None => default (Err (ValueMapNoMatch key)) (substituted "$default"%string)
    end.

Section Substitute.
Context {T0 : AlloyText} {A0 : Alloy}.
(** [args] is the substituted [$args]: [None] without one, [Some None] where it is no array. *)
Definition resolve_fn_call (fs : list (string * Value)) (args : option (option (built (list Value)))) : built Value :=
  if negb (forallb (fun kv => bool_decide (kv.1 ∈ ["$fn"; "$args"]%string)) fs)
  then Err (FnCall "<malformed>" "unexpected key '{k}' in $fn call (allowed: $fn, $args)")
  else
    name ← ok_or (FnCall "<malformed>" "$fn must be a string function name") (v ← obj_get fs "$fn"; as_str v);
    resolved_args ←
      match args with
      | Some (Some r) => r
      | None => Ok []
      | Some None => Err (FnCall name "$args must be a JSON array")
      end;
    map_err (FnCall name) (dispatch name resolved_args).
Fixpoint substitute_placeholders (ctx : V3MapContext) (template : Value) : built Value :=
  let fix sub_list (l : list Value) : built (list Value) :=
    match l with
    | [] => Ok []
    | v :: rest => x ← substitute_placeholders ctx v; xs ← sub_list rest; Ok (x :: xs)
    end in
  let fix sub_fields (fs : list (string * Value)) : built (list (string * Value)) :=
    match fs with
    | [] => Ok []
    | (k, v) :: rest => x ← substitute_placeholders ctx v; xs ← sub_fields rest; Ok ((k, x) :: xs)
    end in
  let fix member (fs : list (string * Value)) (k : string) : option (built Value) :=
    match fs with
    | [] => None
    | (k', v) :: rest => if String.eqb k' k then Some (substitute_placeholders ctx v) else member rest k
    end in
  let fix cases (fs : list (string * Value)) (k : string) : option (built Value) :=
    match fs with
    | [] => None
    | (k', v) :: rest => if String.eqb k' "$cases" then match v with VObject cs => member cs k | _ => None end else cases rest k
    end in
  let fix args (fs : list (string * Value)) : option (option (built (list Value))) :=
    match fs with
    | [] => None
    | (k', v) :: rest => if String.eqb k' "$args" then match v with VArray l => Some (Some (sub_list l)) | _ => Some None end else args rest
    end in
  match template with
  | VString s => if starts_with_dollar s then resolve_placeholder ctx s else Ok template
  | VArray l => xs ← sub_list l; Ok (VArray xs)
  | VObject fs =>
      if has_key fs "$match" then resolve_value_map fs (member fs) (cases fs)
      else if has_key fs "$fn" then resolve_fn_call fs (args fs)
      else xs ← sub_fields fs; Ok (VObject xs)
  | _ => Ok template
  end.
End Substitute.

(** ** Flattening and live inputs *)
(** [Map::remove]: the last entry takes the place of the removed one. *)
Fixpoint swap_out (fs : list (string * Value)) (k : string) (last : string * Value) : list (string * Value) :=
  match fs with
  | [] => []
  | (k', v) :: rest => if String.eqb k' k then last :: rest else (k', v) :: swap_out rest k last
  end.
Definition obj_remove (fs : list (string * Value)) (k : string) : list (string * Value) * option Value :=
  match obj_get fs k with
  | None => (fs, None)
  | Some v =>
      match last fs with
      | Some (k', w) => (if String.eqb k' k then removelast fs else swap_out (removelast fs) k (k', w), Some v)
      | None => (fs, None)
      end
  end.
Definition strip_inline_live_inputs (body : Value) : Value * option Value :=
  match body with
  | VObject obj =>
      match (v ← obj_get obj "domain"; as_str v) with
      | None => (body, None)
      | Some domain =>
          match obj_get obj domain with
          | Some (VObject d) =>
              match (v ← obj_get d "action"; as_str v) with
              | None => (body, None)
              | Some action_name =>
                  match obj_get d action_name with
                  | Some (VObject payload) =>
                      let '(payload', removed) := obj_remove payload "live_inputs" in
                      (VObject (obj_insert obj domain (VObject (obj_insert d action_name (VObject payload')))), removed)
                  | _ => (body, None)
                  end
              end
          | _ => (body, None)
          end
      end
  | _ => (body, None)
  end.
Inductive LiveInputLayout := Nested | Inline | Unsupported.
#[global] Instance LiveInputLayout_eq_dec : EqDecision LiveInputLayout.
Proof. solve_decision. Defined.
Definition INLINE_ACTIONS : list (string * list string) :=
  [("token", ["erc20_permit"; "permit2_sign_allowance"; "permit2_sign_transfer"; "permit2_transfer_from"])]%string.
Definition NESTED_ACTIONS : list (string * list string) :=
  [("amm", ["swap"; "add_liquidity"; "remove_liquidity"; "collect_fees"; "sign_intent_order"]);
   ("airdrop", ["claim"; "delegate"]);
   ("lending", ["supply"; "withdraw"; "borrow"; "repay"; "swap_rate_mode"; "set_e_mode"; "enable_collateral"; "disable_collateral"; "liquidate"]);
   ("launchpad", ["commit"; "claim_allocation"; "claim_vested"; "refund"; "withdraw_commit"]);
   ("perp", ["open_position"; "close_position"; "increase_position"; "decrease_position"; "adjust_margin"; "change_leverage";
             "change_margin_mode"; "place_order"; "claim_funding"]);
   ("liquid_staking", ["wrap"; "unwrap"; "transfer_shares"]);
   ("yield", ["pt_swap"; "yt_swap"; "add_market_liquidity"; "remove_market_liquidity"]);
   ("governance", ["delegate"])]%string.
Definition in_table (t : list (string * list string)) (domain action : string) : bool :=
  existsb (fun row => String.eqb row.1 domain && bool_decide (action ∈ row.2)) t.
Definition live_input_layout (domain action : option string) : LiveInputLayout :=
  match domain, action with
  | Some d, Some a => if in_table INLINE_ACTIONS d a then Inline else if in_table NESTED_ACTIONS d a then Nested else Unsupported
  | _, _ => Unsupported
  end.
Definition copy_into (out fs : list (string * Value)) : list (string * Value) := fold_left (fun o kv => obj_insert o kv.1 kv.2) fs out.
Definition flatten_body (body : Value) : built (list (string * Value)) :=
  obj ← ok_or (UnresolvedPlaceholder "body must be a JSON object") (as_object body);
  domain_val ← ok_or (UnresolvedPlaceholder "body.domain missing") (obj_get obj "domain");
  domain ← ok_or (UnresolvedPlaceholder "body.domain not a string") (as_str domain_val);
  if String.eqb domain "multicall" || String.eqb domain "unknown" then
    match (v ← obj_get obj domain; as_object v) with
    | Some nested => Ok (copy_into [("domain", VString domain)]%string nested)
    | None => Ok (copy_into [("domain", VString domain)]%string (List.filter (fun kv => negb (String.eqb kv.1 "domain")) obj))
    end
  else
    inner ← ok_or (UnresolvedPlaceholder "body.{domain} missing or not an object") (v ← obj_get obj domain; as_object v);
    action_val ← ok_or (UnresolvedPlaceholder "body.{domain}.action missing") (obj_get inner "action");
    action ← ok_or (UnresolvedPlaceholder "body.{domain}.action not a string") (as_str action_val);
    payload ← ok_or (UnresolvedPlaceholder "body.{domain}.{action} payload missing or not an object") (v ← obj_get inner action; as_object v);
    Ok (copy_into [("domain", VString domain); ("action", VString action)]%string payload).
Definition extract_tags (flat : list (string * Value)) : option string * option string :=
  (v ← obj_get flat "domain"; as_str v, v ← obj_get flat "action"; as_str v).

(** ** Default values of live inputs *)
Definition num0 : Value := VNumber (IntNum 0).
Definition str0 : Value := VString "0".
Definition lending_reserve_state_skeleton : Value :=
  VObject [("total_supply", str0); ("total_borrow", str0); ("utilization_bp", num0); ("ltv_bp", num0); ("liquidation_threshold_bp", num0);
           ("liquidation_bonus_bp", num0); ("reserve_factor_bp", num0); ("is_frozen", VBool false); ("is_paused", VBool false)]%string.
Definition lending_user_state_skeleton : Value :=
  VObject [("health_factor", str0); ("total_collat_usd", str0); ("total_debt_usd", str0); ("available_borrow_usd", str0)]%string.
Definition lending_emode_config_skeleton : Value :=
  VObject [("ltv_bp", num0); ("liquidation_threshold_bp", num0); ("liquidation_bonus_bp", num0); ("assets_in_category", VArray [])]%string.
Definition launchpad_sale_state_skeleton : Value :=
  VObject [("is_active", VBool false); ("total_committed", str0); ("sale_window", VArray [num0; num0])]%string.
Definition zero_token_ref : Value :=
  VObject [("key", VObject [("standard", VString "erc20"); ("chain", VString "eip155:1"); ("address", VString ZERO_ADDRESS)])]%string.
Definition xy_constant_skeleton : Value :=
  VObject [("kind", VString "xy_constant"); ("reserve_in", str0); ("reserve_out", str0); ("fee_bp", num0)]%string.
(** The arms of [live_input_default]: domain, actions, fields, value. *)
Definition LIVE_INPUT_DEFAULTS : list (string * list string * list string * Value) :=
  [("amm", ["swap"], ["route"], VObject [("paths", VArray [])]);
   ("amm", ["swap"], ["expected_amount_out"], str0);
   ("amm", ["swap"], ["price_impact_bp"], num0);
   ("amm", ["swap"], ["gas_estimate"], str0);
   ("amm", ["add_liquidity"; "remove_liquidity"], ["pool_state"], xy_constant_skeleton);
   ("amm", ["add_liquidity"], ["current_price"], str0);
   ("amm", ["remove_liquidity"], ["fees_owed"], VArray []);
   ("amm", ["collect_fees"], ["fees_owed"], VArray []);
   ("amm", ["sign_intent_order"], ["expected_fill_price"], str0);
   ("amm", ["sign_intent_order"], ["competing_orders"], num0);
   ("airdrop", ["claim"], ["is_still_claimable"], VBool false);
   ("airdrop", ["claim"], ["actual_amount"], str0);
   ("airdrop", ["claim"], ["claim_token"], zero_token_ref);
   ("airdrop", ["delegate"], ["voting_power"], str0);
   ("token", ["erc20_permit"; "permit2_approve"], ["nonce"], str0);
   ("token", ["permit2_sign_allowance"; "permit2_sign_transfer"; "permit2_transfer_from"], ["nonce"], VArray [str0; num0]);
   ("lending", ["supply"], ["reserve_state"], lending_reserve_state_skeleton);
   ("lending", ["supply"], ["supply_apy"; "a_token_price_usd"], str0);
   ("lending", ["supply"], ["eligible_as_collat"], VBool false);
   ("lending", ["supply"], ["user_state_before"], lending_user_state_skeleton);
   ("lending", ["borrow"], ["reserve_state"], lending_reserve_state_skeleton);
   ("lending", ["borrow"], ["user_state_before"], lending_user_state_skeleton);
   ("lending", ["borrow"], ["asset_price_usd"; "current_borrow_rate"; "available_liquidity"], str0);
   ("lending", ["withdraw"], ["reserve_state"], lending_reserve_state_skeleton);
   ("lending", ["withdraw"], ["available_to_withdraw"], str0);
   ("lending", ["withdraw"], ["user_state_before"], lending_user_state_skeleton);
   ("lending", ["repay"], ["reserve_state"], lending_reserve_state_skeleton);
   ("lending", ["repay"], ["current_debt"], str0);
   ("lending", ["repay"], ["user_state_before"], lending_user_state_skeleton);
   ("lending", ["liquidate"], ["victim_state"], lending_user_state_skeleton);
   ("lending", ["liquidate"], ["liquidation_bonus"], num0);
   ("lending", ["liquidate"], ["debt_asset_price"; "collat_asset_price"], str0);
   ("lending", ["set_e_mode"], ["category_config"], lending_emode_config_skeleton);
   ("lending", ["set_e_mode"], ["user_state_before"], lending_user_state_skeleton);
   ("lending", ["swap_rate_mode"], ["current_debts"; "rates"], VArray [str0; str0]);
   ("lending", ["enable_collateral"; "disable_collateral"], ["reserve_state"], lending_reserve_state_skeleton);
   ("lending", ["enable_collateral"; "disable_collateral"], ["user_state_before"], lending_user_state_skeleton);
   ("liquid_staking", ["wrap"], ["expected_wsteth"], str0);
   ("liquid_staking", ["unwrap"], ["expected_steth"], str0);
   ("liquid_staking", ["transfer_shares"], ["pooled_eth"], str0);
   ("yield", ["pt_swap"; "yt_swap"; "add_market_liquidity"; "remove_market_liquidity"], ["sy"; "pt"; "yt"], VString ZERO_ADDRESS);
   ("yield", ["pt_swap"; "yt_swap"; "add_market_liquidity"; "remove_market_liquidity"], ["maturity"], str0);
   ("launchpad", ["commit"], ["sale_state"], launchpad_sale_state_skeleton);
   ("launchpad", ["commit"], ["user_cap"; "user_committed"], str0);
   ("launchpad", ["claim_allocation"], ["allocated"], VArray [zero_token_ref; str0]);
   ("launchpad", ["claim_allocation"], ["refund_due"], str0);
   ("launchpad", ["claim_allocation"], ["is_claimable"], VBool false)]%string.
Definition live_input_default (domain action : option string) (field : string) : Value :=
  match domain, action with
  | Some d, Some a =>
      match find (fun row => let '(rd, ra, rf, _) := row in String.eqb rd d && bool_decide (a ∈ ra) && bool_decide (field ∈ rf)) LIVE_INPUT_DEFAULTS with
      | Some (_, _, _, v) => v
      | None => VNull
      end
  | _, _ => VNull
  end.

Section Inject.
Context {T0 : AlloyText}.
Definition u256_from_json (value : Value) : option Z :=
  match value with
  | VString s => u256_from_str_radix s 10
  | VNumber n => u256_from_str_radix (number_to_string n) 10
  | _ => None
  end.
Definition permit2_nonce_tuple_default (value : Value) : option Value :=
  nonce ← u256_from_json value;
  bit ← to_be 32 nonce !! 31%nat;
  Some (VArray [uint_string (nonce / 256); VNumber (IntNum bit)]).
Definition is_permit2_nonce (domain action : option string) (field : string) : bool :=
  bool_decide (domain = Some "token"%string)
  && match action with Some a => bool_decide (a ∈ ["permit2_sign_allowance"; "permit2_sign_transfer"; "permit2_transfer_from"]%string) | None => false end
  && String.eqb field "nonce".
Definition live_input_default_with_override (domain action : option string) (field : string) (override : option Value) : Value :=
  match override with
  | None => live_input_default domain action field
  | Some value =>
      if is_permit2_nonce domain action field
      then default (live_input_default domain action field) (permit2_nonce_tuple_default value) else value
  end.
Definition wrap_live_field (ctx : V3MapContext) (domain action : option string) (field : string) (src_payload : Value)
    (override : option Value) : Value :=
  VObject ([("value", live_input_default_with_override domain action field override)]%string
    ++ match as_object src_payload with
       | Some obj =>
           match obj_get obj "source" with Some src => [("source", src)]%string | None => [] end
           ++ match obj_get obj "ttl_s" with Some ttl => [("ttl", ttl)]%string | None => [] end
       | None => [("source", src_payload)]%string
       end
    ++ [("synced_at", VNumber (IntNum (mx_submitted_at ctx)))]%string).
Definition is_swap_route (domain action : option string) (field : string) : bool :=
  bool_decide (domain = Some "amm"%string) && bool_decide (action = Some "swap"%string) && String.eqb field "route".
Definition inject_nested (ctx : V3MapContext) (domain action : option string) (live : list (string * Value)) (flat : list (string * Value))
    : list (string * Value) :=
  let wrap (kv : string * Value) : Value :=
    wrap_live_field ctx domain action kv.1 kv.2 (if is_swap_route domain action kv.1 then value_get kv.2 "value" else None) in
  obj_insert flat "live_inputs" (VObject (fold_left (fun o kv => obj_insert o kv.1 (wrap kv)) live [])).
Definition inject_inline (ctx : V3MapContext) (domain action : option string) (live : list (string * Value)) (flat : list (string * Value))
    : list (string * Value) :=
  fold_left (fun flat kv => obj_insert flat kv.1 (wrap_live_field ctx domain action kv.1 kv.2 (obj_get flat kv.1))) live flat.
Definition coerce_decimal_string_to_u64 (value : Value) : Value :=
  match value with
  | VString s =>
      let trimmed := trim s in
      if String.eqb trimmed "" || negb (all_digits trimmed) then value
      else VNumber (IntNum (default U64_MAX (parse_u64 trimmed)))
  | _ => value
  end.
Definition TIME_FIELDS : list string := ["deadline"; "expires_at"; "sig_deadline"; "valid_until"]%string.
Definition coerce_time_like_fields (flat : list (string * Value)) : list (string * Value) :=
  fold_left (fun flat field =>
    match obj_get flat field with Some v => obj_insert flat field (coerce_decimal_string_to_u64 v) | None => flat end) TIME_FIELDS flat.
End Inject.

(** ** Building a body *)
(** The derived serialization of [ActionBody]. *)
Class ActionSerde := {
  action_from_value : Value -> string + ActionBody;
  action_to_value : ActionBody -> string + Value;
}.
Section Build.
Context {T0 : AlloyText} {A0 : Alloy} {S0 : ActionSerde}.
Definition unknown_fields (flat serialized_obj : list (string * Value)) : list string :=
  fst <$> List.filter (fun kv => negb (is_null kv.2) && negb (has_key serialized_obj kv.1)) flat.
Definition reject_unknown_action_body_fields (flat : list (string * Value)) (action : ActionBody) : built () :=
  serialized ← lift_err SerdeFromValue (action_to_value action);
  match as_object serialized with
  | None => Ok ()
  | Some serialized_obj =>
      match unknown_fields flat serialized_obj with
      | [] => Ok ()
      | unknown =>
          let '(domain, action) := extract_tags flat in
          Err (UnknownActionBodyFields domain action (String.concat ", " (merge_sort String.le unknown)))
      end
  end.
(** The flattened body with its live inputs, before the typed decode. *)
Definition prepare_body (ctx : V3MapContext) (body_template : Value) (live_inputs_template : option Value) : built (list (string * Value)) :=
  let '(stripped_body, inline_live) := strip_inline_live_inputs body_template in
  substituted ← substitute_placeholders ctx stripped_body;
  flat ← flatten_body substituted;
  let '(domain, action) := extract_tags flat in
  let layout := live_input_layout domain action in
  let live_source :=
    match layout with
    | Unsupported => None
    | Nested | Inline => match live_inputs_template with Some t => Some t | None => inline_live end
    end in
  flat ←
    match live_source with
    | None => Ok flat
    | Some live_template =>
        live_substituted ← substitute_placeholders ctx live_template;
        Ok match as_object live_substituted with
           | None => flat
           | Some live =>
               match layout with
               | Nested => inject_nested ctx domain action live flat
               | Inline => inject_inline ctx domain action live flat
               | Unsupported => flat
               end
           end
    end;
  Ok (coerce_time_like_fields flat).
Definition build_action_body (ctx : V3MapContext) (body_template : Value) (live_inputs_template : option Value) : built ActionBody :=
  flat ← prepare_body ctx body_template live_inputs_template;
  action ← lift_err SerdeFromValue (action_from_value (VObject flat));
  _ ← reject_unknown_action_body_fields flat action;
  Ok action.

(** ** Multicalls *)
Definition with_inputs (ctx : V3MapContext) (inputs : option Value) : V3MapContext :=
  mkV3MapContext (mx_chain ctx) (mx_tx_to ctx) (mx_tx_from ctx) (mx_value ctx) (mx_submitted_at ctx) (mx_args_json ctx)
    (mx_raw_calldata ctx) (mx_resolved ctx) (mx_derived ctx) inputs.
Definition opcode_key (opcode : Z) : string := ("0x" +:+ hex_digits 2 opcode)%string.
Fixpoint opcode_loop (ctx : V3MapContext) (per_opcode_body : list (string * Value)) (commands : bytes) (inputs : list Value) (mask : Z)
    (policy : UnknownOpcodePolicy) (i : nat) : built (list ActionBody) :=
  match commands with
  | [] => Ok []
  | raw_byte :: rest =>
      let opcode := Z.land raw_byte mask in
      match obj_get per_opcode_body (opcode_key opcode) with
      | None =>
          match policy with
          | PolicyDeny => Err (UnknownOpcodeByte opcode policy)
          | PolicyWarn | PolicySkip => opcode_loop ctx per_opcode_body rest inputs mask policy (S i)
          end
      | Some entry =>
          body_template ← ok_or (UnresolvedPlaceholder "{opcode_key}.body missing") (value_get entry "body");
          child ← build_action_body (with_inputs ctx (inputs !! i)) body_template None;
          actions ← opcode_loop ctx per_opcode_body rest inputs mask policy (S i);
          Ok (child :: actions)
      end
  end.
Definition build_multicall_from_opcode_stream (ctx : V3MapContext) (per_opcode_body : list (string * Value)) (decoded_commands : bytes)
    (decoded_inputs_array : list Value) (mask allow_revert_bit : Z) (unknown_policy : UnknownOpcodePolicy) : built ActionBody :=
  actions ← opcode_loop ctx per_opcode_body decoded_commands decoded_inputs_array mask unknown_policy 0;
  Ok (Multicall actions).
Fixpoint parallel_loop (ctx : V3MapContext) (len : nat) (sources : list (string * Value)) : built (list (string * list Value)) :=
  match sources with
  | [] => Ok []
  | (name, source_value) :: rest =>
      source ← ok_or (UnresolvedPlaceholder "array_emit.parallel_sources.{name} must be a placeholder string") (as_str source_value);
      parallel_val ← resolve_placeholder ctx source;
      parallel_arr ← ok_or (ParallelSourceNotArray name source) (as_array parallel_val);
      if negb (length parallel_arr =? len)%nat then Err (ParallelSourceLengthMismatch name len (length parallel_arr))
      else more ← parallel_loop ctx len rest; Ok ((name, parallel_arr) :: more)
  end.
Definition item_inputs (parallels : list (string * list Value)) (index : nat) (element : Value) : built Value :=
  if (length parallels =? 0)%nat then Ok element
  else
    obj ← foldM (fun o nv => v ← or_panic (nv.2 !! index); Ok (obj_insert o nv.1 v)) parallels [("element", element)]%string;
    Ok (VObject obj).
Fixpoint array_loop (ctx : V3MapContext) (parallels : list (string * list Value)) (per_item_body : Value) (per_item_live_inputs : option Value)
    (index : nat) (arr : list Value) : built (list ActionBody) :=
  match arr with
  | [] => Ok []
  | element :: rest =>
      inputs ← item_inputs parallels index element;
      child ← build_action_body (with_inputs ctx (Some inputs)) per_item_body per_item_live_inputs;
      actions ← array_loop ctx parallels per_item_body per_item_live_inputs (S index) rest;
      Ok (child :: actions)
  end.
Definition build_array_emit (ctx : V3MapContext) (array_source : string) (parallel_sources : option Value) (per_item_body : Value)
    (per_item_live_inputs : option Value) (max_elements : option nat) : built ActionBody :=
  array_val ← resolve_placeholder ctx array_source;
  arr ← ok_or (ArraySourceNotArray array_source) (as_array array_val);
  if match max_elements with Some max => (max <? length arr)%nat | None => false end
  then Err (ArraySourceTooLarge array_source (default 0%nat max_elements) (length arr))
  else
    parallels ←
      match parallel_sources with
      | None => Ok []
      | Some ps =>
          sources ← ok_or (UnresolvedPlaceholder "array_emit.parallel_sources must be an object") (as_object ps);
          parallel_loop ctx (length arr) sources
      end;
    actions ← array_loop ctx parallels per_item_body per_item_live_inputs 0 arr;
    Ok (Multicall actions).
End Build.

(** ** Paths mean navigation *)
(** A path as steps: a member name, possibly empty, and indices, negative ones from the end. *)
Definition render_indices (l : list Z) : string := foldr (fun i acc => ("[" +:+ pretty i +:+ "]" +:+ acc)%string) ""%string l.
Definition render_segment (s : string * list Z) : string := (s.1 +:+ render_indices s.2)%string.
Definition render_path (p : list (string * list Z)) : string := String.concat "." (render_segment <$> p).
Definition i64 (i : Z) : Prop := - 2 ^ 63 < i < 2 ^ 63.
Definition segment_ok (s : string * list Z) : Prop :=
  no_char "." s.1 = true /\ no_char "[" s.1 = true /\ (s.1 <> ""%string \/ s.2 <> []) /\ Forall i64 s.2.
Definition nav_index (v : Value) (i : Z) : option Value :=
  arr ← as_array v;
  if 0 <=? i then arr !! Z.to_nat i
  else if - i <=? Z.of_nat (length arr) then arr !! (length arr - Z.to_nat (- i))%nat else None.
Definition nav_segment (v : Value) (s : string * list Z) : option Value :=
  v ← (if String.eqb s.1 "" then Some v else value_get v s.1);
  foldl (fun acc i => v ← acc; nav_index v i) (Some v) s.2.
Definition navigate (root : Value) (p : list (string * list Z)) : option Value :=
  foldl (fun acc s => v ← acc; nav_segment v s) (Some root) p.

Lemma parse_i64_pretty i : i64 i -> parse_i64 (pretty i) = Some i.
Proof.
  unfold i64. intros Hi. destruct (decide (i < 0)) as [Hn|Hn].
  - rewrite pretty_neg by done. cbn [parse_i64]. rewrite (proj2 (String.eqb_neq _ _) (pretty_nonempty (- i) ltac:(lia))).
    rewrite digits_pretty_nonneg by lia. cbn [mbind option_bind]. rewrite (proj2 (Z.leb_le _ _)) by lia. f_equal. lia.
  - pose proof (all_digits_pretty i ltac:(lia)) as Hd. assert (parse_i64 (pretty i) = (v ← parse_u64 (pretty i); if v <? 2 ^ 63 then Some v else None)) as ->.
    { destruct (pretty i) as [|c r]; [done|]. unfold parse_i64. apply andb_true_iff in Hd as [Hc _]. destruct c as [[] [] [] [] [] [] [] []]; done. }
    rewrite parse_u64_pretty by (unfold U64_MAX; lia). cbn [mbind option_bind]. by rewrite (proj2 (Z.ltb_lt _ _)) by lia.
Qed.
Lemma pretty_no_char c (i : Z) : is_digit c = false -> Ascii.eqb "-" c = false -> no_char c (pretty i) = true.
Proof.
  intros Hc Hm. assert (forall j, 0 <= j -> no_char c (pretty j) = true) as Hp.
  { intros j Hj. eapply all_chars_impl; [|by apply (all_digits_pretty j)]. intros x Hx. apply negb_true_iff. rewrite Ascii.eqb_sym. by apply digit_not. }
  destruct (decide (i < 0)); [|apply Hp; lia]. rewrite pretty_neg by done. unfold no_char in *. cbn [all_chars]. rewrite Hm, Hp by lia. done.
Qed.
Lemma index_loop_render l fuel : Forall i64 l -> (String.length (render_indices l) <= fuel)%nat -> index_loop fuel (render_indices l) = Ok l.
Proof.
  intros Hl. revert fuel. induction Hl as [|i l Hi Hl IH]; intros fuel Hf; [by destruct fuel|]. cbn [render_indices foldr] in *.
  change (foldr _ _ l) with (render_indices l) in *. set (rest := render_indices l) in *. rewrite !length_app_str in Hf. simpl in Hf.
  destruct fuel as [|fuel]; [lia|]. rewrite append_cons, nil_app_str. cbn [index_loop String.eqb Ascii.eqb Bool.eqb negb].
  assert (find_char "]" (String "[" (pretty i +:+ "]" +:+ rest)) = Some (S (String.length (pretty i)))) as ->.
  { cbn [find_char Ascii.eqb Bool.eqb]. rewrite find_char_app by by apply pretty_no_char. rewrite append_cons. cbn [find_char Ascii.eqb Bool.eqb fmap option_fmap option_map].
    by rewrite Nat.add_0_r. }
  cbn [ok_or mbind result_bind str_take str_drop Nat.add]. rewrite str_take_app, parse_i64_pretty by done. cbn [ok_or mbind result_bind].
  rewrite str_drop_app, append_cons, nil_app_str. cbn [str_drop]. destruct rest; rewrite IH by (simpl in *; lia); done.
Qed.
Lemma render_indices_first l : l <> [] -> exists r, render_indices l = String "[" r.
Proof. destruct l as [|i l]; [done|]. intros _. cbn [render_indices foldr]. rewrite append_cons. eauto. Qed.
Lemma parse_render s : segment_ok s -> parse_segment (render_segment s) = Ok s.
Proof.
  destruct s as [name l]. intros (_ & Hb & _ & Hl). unfold parse_segment, render_segment. cbn [fst snd] in *. destruct (decide (l = [])) as [->|Hne].
  - rewrite app_nil_str, find_char_None by done. done.
  - rewrite find_char_app by done. destruct (render_indices_first l Hne) as [r Hr]. rewrite Hr at 1. cbn [find_char Ascii.eqb Bool.eqb fmap option_fmap option_map].
    rewrite str_drop_app. cbn [str_drop]. rewrite Nat.add_0_r, str_take_app. destruct (render_indices l) as [|c t] eqn:Hc; [done|].
    rewrite <- Hc, index_loop_render by (done || (rewrite length_app_str; lia)). done.
Qed.
Lemma render_nonempty s : segment_ok s -> render_segment s <> ""%string.
Proof.
  destruct s as [name l]. intros (_ & _ & Hne & _) H. unfold render_segment in H. cbn [fst snd] in *. destruct name as [|c name]; [|by rewrite append_cons in H].
  destruct Hne as [|Hne]; [done|]. destruct (render_indices_first l Hne) as [r Hr]. by rewrite Hr in H.
Qed.
Lemma render_no_dot s : segment_ok s -> no_char "." (render_segment s) = true.
Proof.
  destruct s as [name l]. intros (Hd & _ & _ & _). unfold render_segment, no_char in *. cbn [fst snd] in *. rewrite all_chars_app, Hd. simpl.
  induction l as [|i l IH]; [done|]. cbn [render_indices foldr]. rewrite !all_chars_app. change (foldr _ _ l) with (render_indices l). rewrite IH.
  simpl. rewrite !andb_true_r. by apply pretty_no_char.
Qed.
Lemma split_dot_app a b : no_char "." a = true -> split_dot (a +:+ "." +:+ b) = a :: split_dot b.
Proof.
  induction a as [|c a IH]; [done|]. intros [Hc Ha]%andb_true_iff. apply negb_true_iff in Hc. rewrite append_cons. cbn [split_dot]. by rewrite Hc, IH.
Qed.
Lemma split_dot_one a : no_char "." a = true -> split_dot a = [a].
Proof. induction a as [|c a IH]; [done|]. intros [Hc Ha]%andb_true_iff. apply negb_true_iff in Hc. cbn [split_dot]. by rewrite Hc, IH. Qed.
Lemma split_render p : p <> [] -> Forall segment_ok p -> split_dot (render_path p) = render_segment <$> p.
Proof.
  intros Hne Hp. destruct p as [|s p]; [done|]. clear Hne. revert s Hp. induction p as [|s' p IH]; intros s [Hs Hp]%Forall_cons.
  - by apply split_dot_one, render_no_dot.
  - change (render_path (s :: s' :: p)) with (render_segment s +:+ "." +:+ render_path (s' :: p))%string. rewrite split_dot_app by by apply render_no_dot. by rewrite IH.
Qed.
Lemma index_step_nav v i w : i64 i -> index_step v i = Ok w <-> nav_index v i = Some w.
Proof.
  unfold i64. intros Hi. unfold index_step, nav_index. destruct (as_array v) as [arr|]; [|done]. cbn [ok_or mbind result_bind option_bind]. unfold resolve_index.
  destruct (Z.leb_spec 0 i).
  - destruct (Z.ltb_spec i (Z.of_nat (length arr))); cbn [ok_or mbind result_bind].
    + destruct (arr !! Z.to_nat i); simpl; naive_solver.
    + rewrite lookup_ge_None_2 by lia. done.
  - rewrite (proj2 (Z.ltb_lt _ _)) by lia. simpl andb. destruct (Z.leb_spec (- i) (Z.of_nat (length arr))); cbn [ok_or mbind result_bind]; [|done].
    destruct (arr !! _); simpl; naive_solver.
Qed.
Lemma foldl_None {A B} (f : B -> A -> option B) l : foldl (fun acc x => v ← acc; f v x) None l = None.
Proof. by induction l. Qed.
(** A loop of fallible steps is the same loop on options, step by step. *)
Lemma foldM_option {E A B} (f : B -> A -> result E B) (g : B -> A -> option B) l v w :
  Forall (fun x => forall v w, f v x = Ok w <-> g v x = Some w) l ->
  foldM f l v = Ok w <-> foldl (fun acc x => v ← acc; g v x) (Some v) l = Some w.
Proof.
  intros Hl. revert v. induction Hl as [|x l Hx _ IH]; intros v; [simpl; naive_solver|]. cbn [foldM foldl mbind option_bind].
  destruct (f v x) as [u|e|] eqn:Hf; cbn [result_bind mbind]; rewrite ?(proj1 (Hx v u) Hf); [apply IH|..];
    (destruct (g v x) as [u|] eqn:Hg; [apply Hx in Hg; congruence|]); by rewrite foldl_None.
Qed.
Lemma walk_segment_nav v s w : segment_ok s -> walk_segment v (render_segment s) = Ok w <-> nav_segment v s = Some w.
Proof.
  intros Hs. unfold walk_segment. rewrite (proj2 (String.eqb_neq _ _) (render_nonempty s Hs)), parse_render by done. cbn [mbind result_bind].
  destruct s as [name l]. unfold nav_segment. cbn [fst snd]. destruct Hs as (_ & _ & _ & Hl). cbn [snd] in Hl.
  assert (forall u, foldM index_step l u = Ok w <-> foldl (fun acc i => v ← acc; nav_index v i) (Some u) l = Some w) as H.
  { intros u. apply foldM_option. eapply Forall_impl; [exact Hl|]. intros i Hi u' w'. by apply index_step_nav. }
  destruct (String.eqb name ""); [apply H|]. destruct (value_get v name); [apply H|done].
Qed.
Lemma walk_nav root p v : p <> [] -> Forall segment_ok p -> walk_json_path root (render_path p) = Ok v <-> navigate root p = Some v.
Proof.
  intros Hne Hp. unfold walk_json_path. rewrite split_render by done. unfold navigate.
  assert (forall u, foldM walk_segment (render_segment <$> p) u = foldM (fun v s => walk_segment v (render_segment s)) p u) as ->.
  { clear. induction p as [|s p IH]; intros u; [done|]. cbn [fmap list_fmap foldM]. destruct (walk_segment u (render_segment s)); [apply IH|done..]. }
  apply foldM_option. eapply Forall_impl; [exact Hp|]. intros s Hs u w. by apply walk_segment_nav.
Qed.
Lemma map_err_Ok_iff {E F A} (f : E -> F) (r : result E A) a : map_err f r = Ok a <-> r = Ok a.
Proof. destruct r; simpl; naive_solver. Qed.
Lemma split_root_dot root rest : no_char "." root = true -> no_char "[" root = true -> split_root (root +:+ "." +:+ rest) = (root, rest).
Proof.
  intros Hd Hb. unfold split_root. rewrite find_char_app by done. rewrite append_cons, nil_app_str. cbn [find_char Ascii.eqb Bool.eqb fmap option_fmap option_map].
  rewrite find_char_app by done. cbn [find_char Ascii.eqb Bool.eqb]. rewrite Nat.add_0_r.
  assert (str_take (String.length root) (root +:+ String "." rest) = root /\ str_drop (String.length root + 1) (root +:+ String "." rest) = rest) as [H1 H2].
  { split; [apply str_take_app|]. rewrite str_drop_app. by destruct rest. }
  destruct (find_char "[" rest) as [n|]; cbn [fmap option_fmap option_map]; rewrite ?H1, ?H2; [|done]. by rewrite (proj2 (Nat.ltb_ge _ _)) by lia.
Qed.

(** A placeholder is a path. The text of any path of member names and indices, under [$args]
    or [$inputs], resolves exactly when the path can be followed in the decoded arguments,
    and then to the value there, taken as it is: what the caller put in the call is never
    read as a template. *)
Theorem placeholder_is_navigation ctx p v : p <> [] -> Forall segment_ok p ->
  (resolve_placeholder ctx ("$args." +:+ render_path p) = Ok v <-> navigate (mx_args_json ctx) p = Some v) /\
  (resolve_placeholder ctx ("$inputs." +:+ render_path p) = Ok v <-> exists inputs, mx_inputs ctx = Some inputs /\ navigate inputs p = Some v).
Proof.
  intros Hne Hp. assert (render_path p <> ""%string) as Hr.
  { destruct p as [|s p]; [done|]. apply Forall_cons in Hp as [Hs _]. intros H. apply (render_nonempty s Hs). destruct p as [|s' p]; [done|].
    change (render_path (s :: s' :: p)) with (render_segment s +:+ "." +:+ render_path (s' :: p))%string in H.
    apply (f_equal String.length) in H. rewrite !length_app_str in H. simpl in H. lia. }
  unfold resolve_placeholder. split.
  - change ("$args." +:+ render_path p)%string with (String "$" ("args" +:+ "." +:+ render_path p)). unfold slice_from.
    change (is_char_boundary 1 _) with true. cbn [mbind result_bind str_drop]. rewrite split_root_dot by done. cbn [String.eqb Ascii.eqb Bool.eqb].
    rewrite (proj2 (String.eqb_neq _ _) Hr). unfold walk_from. by rewrite map_err_Ok_iff, walk_nav.
  - change ("$inputs." +:+ render_path p)%string with (String "$" ("inputs" +:+ "." +:+ render_path p)). unfold slice_from.
    change (is_char_boundary 1 _) with true. cbn [mbind result_bind str_drop]. rewrite split_root_dot by done. cbn [String.eqb Ascii.eqb Bool.eqb orb].
    destruct (mx_inputs ctx) as [inputs|]; cbn [ok_or mbind result_bind]; [|naive_solver].
    rewrite (proj2 (String.eqb_neq _ _) Hr). unfold walk_from. rewrite map_err_Ok_iff, walk_nav by done. naive_solver.
Qed.

(** ** Substitution is the evaluation of templates *)
Section Expansion.
Context {T0 : AlloyText} {A0 : Alloy}.
Lemma resolve_value_map_ext fs f f' g g' : (forall k, f k = f' k) -> (forall k, g k = g' k) -> resolve_value_map fs f g = resolve_value_map fs f' g'.
Proof.
  intros Hf Hg. unfold resolve_value_map. rewrite !Hf. destruct (negb _); [done|]. destruct (default _ (f' "$match"%string)) as [m|e|]; try done.
  cbn [mbind result_bind]. destruct (ok_or _ (case_key m)) as [key|e|]; try done. cbn [mbind result_bind]. destruct (ok_or _ _); try done.
  cbn [mbind result_bind]. by rewrite Hg.
Qed.
(** The recursion of [substitute_placeholders], member by member. *)
Lemma substitute_array ctx l : substitute_placeholders ctx (VArray l) = (xs ← collectM (substitute_placeholders ctx) l; Ok (VArray xs)).
Proof. cbn [substitute_placeholders]. f_equal. induction l as [|v l IH]; [done|]. cbn [collectM]. by rewrite <- IH. Qed.
Lemma substitute_object ctx fs : substitute_placeholders ctx (VObject fs) =
  if has_key fs "$match" then
    resolve_value_map fs (fun k => substitute_placeholders ctx <$> obj_get fs k)
      (fun k => match obj_get fs "$cases" with Some (VObject cs) => substitute_placeholders ctx <$> obj_get cs k | _ => None end)
  else if has_key fs "$fn" then
    resolve_fn_call fs
      match obj_get fs "$args" with
      | None => None
      | Some (VArray l) => Some (Some (collectM (substitute_placeholders ctx) l))
      | Some _ => Some None
      end
  else xs ← collectM (fun kv => x ← substitute_placeholders ctx kv.2; Ok (kv.1, x)) fs; Ok (VObject xs).
Proof.
  cbn [substitute_placeholders]. destruct (has_key fs "$match"); [|destruct (has_key fs "$fn")].
  - apply resolve_value_map_ext; intros k.
    + induction fs as [|[k' v] fs IH]; [done|]. cbn [obj_get]. by destruct (String.eqb k' k).
    + induction fs as [|[k' v] fs IH]; [done|]. cbn [obj_get]. destruct (String.eqb k' "$cases"); [|exact IH]. destruct v as [| | | | |cs]; try done. clear IH.
      induction cs as [|[k'' c] cs IH]; [done|]. cbn [obj_get]. by destruct (String.eqb k'' k).
  - f_equal. induction fs as [|[k' v] fs IH]; [done|]. cbn [obj_get]. destruct (String.eqb k' "$args"); [|exact IH]. destruct v as [| | | |l|]; try done. do 2 f_equal.
    clear IH. induction l as [|v l IH]; [done|]. cbn [collectM]. by rewrite <- IH.
  - f_equal. induction fs as [|[k v] fs IH]; [done|]. cbn [collectM fst snd]. destruct (substitute_placeholders ctx v); try done.
    cbn [mbind result_bind]. by rewrite <- IH.
Qed.

(** The meaning of a template, rule by rule. *)
Definition is_scalar (v : Value) : bool :=
  match v with VString s => negb (starts_with_dollar s) | VArray _ | VObject _ => false | _ => true end.
Definition keys_among (allowed : list string) (fs : list (string * Value)) : Prop := Forall (fun kv => kv.1 ∈ allowed) fs.
Inductive Expands (ctx : V3MapContext) : Value -> Value -> Prop :=
| expands_scalar v : is_scalar v = true -> Expands ctx v v
| expands_placeholder s v : starts_with_dollar s = true -> resolve_placeholder ctx s = Ok v -> Expands ctx (VString s) v
| expands_array ts vs : Forall2 (Expands ctx) ts vs -> Expands ctx (VArray ts) (VArray vs)
| expands_object fs vs : obj_get fs "$match" = None -> obj_get fs "$fn" = None ->
    Forall2 (fun kt kv => kt.1 = kv.1 /\ Expands ctx kt.2 kv.2) fs vs -> Expands ctx (VObject fs) (VObject vs)
| expands_case fs t m key cases c v : keys_among ["$match"; "$cases"; "$default"]%string fs ->
    obj_get fs "$match" = Some t -> Expands ctx t m -> case_key m = Some key -> obj_get fs "$cases" = Some (VObject cases) ->
    obj_get cases key = Some c -> Expands ctx c v -> Expands ctx (VObject fs) v
| expands_default fs t m key cases d v : keys_among ["$match"; "$cases"; "$default"]%string fs ->
    obj_get fs "$match" = Some t -> Expands ctx t m -> case_key m = Some key -> obj_get fs "$cases" = Some (VObject cases) ->
    obj_get cases key = None -> obj_get fs "$default" = Some d -> Expands ctx d v -> Expands ctx (VObject fs) v
| expands_fn fs name ts vs v : obj_get fs "$match" = None -> keys_among ["$fn"; "$args"]%string fs -> obj_get fs "$fn" = Some (VString name) ->
    (obj_get fs "$args" = Some (VArray ts) \/ (obj_get fs "$args" = None /\ ts = [])) ->
    Forall2 (Expands ctx) ts vs -> dispatch name vs = Ok v -> Expands ctx (VObject fs) v.

Lemma collectM_Forall2 {E A B} (f : A -> result E B) (R : A -> B -> Prop) l xs :
  (forall a, a ∈ l -> forall b, f a = Ok b <-> R a b) -> collectM f l = Ok xs <-> Forall2 R l xs.
Proof.
  revert xs. induction l as [|a l IH]; intros xs Hf; cbn [collectM].
  - split; [by intros [= <-]|]. intros H. by inversion H.
  - destruct (f a) as [b|e|] eqn:Ha; cbn [mbind result_bind].
    + pose proof (proj1 (Hf a ltac:(left) b) Ha) as HR. specialize (IH). destruct (collectM f l) as [ys|e|] eqn:Hl; cbn [mbind result_bind].
      * split; [intros [= <-]; constructor; [done|]; apply IH; [intros; apply Hf; by right|done]|].
        intros H. inversion H as [|a' b' l' ys' Hb Hys]; subst. apply IH in Hys; [|intros; apply Hf; by right]. injection Hys as ->.
        apply (Hf a ltac:(left)) in Hb. congruence.
      * split; [done|]. intros H. inversion H as [|a' b' l' ys' Hb Hys]; subst. apply IH in Hys; [done|intros; apply Hf; by right].
      * split; [done|]. intros H. inversion H as [|a' b' l' ys' Hb Hys]; subst. apply IH in Hys; [done|intros; apply Hf; by right].
    + split; [done|]. intros H. inversion H as [|a' b' l' ys' Hb Hys]; subst. apply (Hf a ltac:(left)) in Hb. congruence.
    + split; [done|]. intros H. inversion H as [|a' b' l' ys' Hb Hys]; subst. apply (Hf a ltac:(left)) in Hb. congruence.
Qed.
Lemma keys_among_spec allowed fs : forallb (fun kv : string * Value => bool_decide (kv.1 ∈ allowed)) fs = true <-> keys_among allowed fs.
Proof.
  unfold keys_among. rewrite forallb_forall, Forall_forall. split; intros H x Hx; [apply list_elem_of_In, H, bool_decide_eq_true in Hx; done|].
  apply bool_decide_eq_true, H, list_elem_of_In, Hx.
Qed.
Lemma has_key_spec fs k : has_key fs k = false <-> obj_get fs k = None.
Proof. unfold has_key. rewrite bool_decide_eq_false, <- eq_None_not_Some. done. Qed.
Lemma elem_size_array v l : v ∈ l -> (value_size v < value_size (VArray l))%nat.
Proof. intros Hv. apply list_elem_of_split in Hv as (l1 & l2 & ->). cbn [value_size]. rewrite fmap_app, list_sum_app. cbn [fmap list_fmap list_sum]. simpl. lia. Qed.
Lemma elem_size_object kv fs : kv ∈ fs -> (value_size kv.2 < value_size (VObject fs))%nat.
Proof. intros Hv. apply list_elem_of_split in Hv as (l1 & l2 & ->). cbn [value_size]. rewrite fmap_app, list_sum_app. simpl. lia. Qed.
Lemma obj_get_in fs k v : obj_get fs k = Some v -> (k, v) ∈ fs.
Proof.
  induction fs as [|[k' w] fs IH]; [done|]. cbn [obj_get]. destruct (String.eqb_spec k' k) as [->|]; [intros [= ->]; left|right; auto].
Qed.
Lemma member_size fs k v : obj_get fs k = Some v -> (value_size v < value_size (VObject fs))%nat.
Proof. intros H%obj_get_in. apply (elem_size_object (k, v)), H. Qed.
Lemma value_map_expands ctx fs v :
  (forall t w, (value_size t < value_size (VObject fs))%nat -> substitute_placeholders ctx t = Ok w <-> Expands ctx t w) -> has_key fs "$match" = true ->
  substitute_placeholders ctx (VObject fs) = Ok v <-> Expands ctx (VObject fs) v.
Proof.
  intros IH Hm. rewrite substitute_object, Hm. unfold resolve_value_map. apply bool_decide_eq_true in Hm as [t Ht]. rewrite Ht. cbn [fmap option_fmap option_map from_option id]. split.
  - destruct (forallb _ fs) eqn:Hk; cbn [negb]; [|done]. apply keys_among_spec in Hk. destruct (substitute_placeholders ctx t) as [m|e|] eqn:Hs; [|done..]. cbn [mbind result_bind].
    apply IH in Hs; [|by eapply member_size]. destruct (case_key m) as [key|] eqn:Hkey; cbn [ok_or mbind result_bind option_bind]; [|done].
    destruct (obj_get fs "$cases") as [cv|] eqn:Hc; cbn [mbind option_bind ok_or result_bind]; [|done].
    destruct cv as [| | | | |cases]; cbn [as_object ok_or mbind result_bind]; try done.
    pose proof (member_size _ _ _ Hc) as Hcs. destruct (obj_get cases key) as [c|] eqn:Hcase; cbn [fmap option_fmap option_map].
    + intros Hv. apply IH in Hv; [by eapply expands_case|]. pose proof (member_size _ _ _ Hcase). lia.
    + destruct (obj_get fs "$default") as [d|] eqn:Hd; cbn [fmap option_fmap option_map from_option id]; [|done]. intros Hv. apply IH in Hv; [by eapply expands_default|by eapply member_size].
  - intros H. inversion H as [x Hx|s w Hd|ts vs|fs' vs Hn|fs' t' m key cases c w Hk Ht' Hm Hkey Hc Hcase Hv|fs' t' m key cases d w Hk Ht' Hm Hkey Hc Hcase Hd Hv|fs' nm ts vs w Hn]; subst; try congruence; try done.
    + rewrite (proj2 (keys_among_spec _ _) Hk). cbn [negb]. assert (t' = t) as -> by congruence. apply IH in Hm; [|by eapply member_size]. rewrite Hm. cbn [mbind result_bind].
      rewrite Hkey, Hc. cbn [ok_or mbind result_bind option_bind as_object]. rewrite Hcase. cbn [fmap option_fmap option_map]. apply IH; [|done].
      pose proof (member_size _ _ _ Hc). pose proof (member_size _ _ _ Hcase). lia.
    + rewrite (proj2 (keys_among_spec _ _) Hk). cbn [negb]. assert (t' = t) as -> by congruence. apply IH in Hm; [|by eapply member_size]. rewrite Hm. cbn [mbind result_bind].
      rewrite Hkey, Hc. cbn [ok_or mbind result_bind option_bind as_object]. rewrite Hcase, Hd. cbn [fmap option_fmap option_map from_option id]. apply IH; [|done]. by eapply member_size.
Qed.
Lemma fn_call_expands ctx fs v :
  (forall t w, (value_size t < value_size (VObject fs))%nat -> substitute_placeholders ctx t = Ok w <-> Expands ctx t w) ->
  has_key fs "$match" = false -> has_key fs "$fn" = true ->
  substitute_placeholders ctx (VObject fs) = Ok v <-> Expands ctx (VObject fs) v.
Proof.
  intros IH Hm Hf. rewrite substitute_object, Hm, Hf. apply has_key_spec in Hm. apply bool_decide_eq_true in Hf as [nv Hf]. unfold resolve_fn_call.
  assert (forall l vs, obj_get fs "$args" = Some (VArray l) -> collectM (substitute_placeholders ctx) l = Ok vs <-> Forall2 (Expands ctx) l vs) as Hargs.
  { intros l vs Ha. apply collectM_Forall2. intros t Ht w. apply IH. pose proof (member_size _ _ _ Ha). pose proof (elem_size_array _ _ Ht). lia. }
  split.
  - destruct (forallb _ fs) eqn:Hk; cbn [negb]; [|done]. apply keys_among_spec in Hk. rewrite Hf. cbn [mbind option_bind]. destruct nv as [| | |name| |]; cbn [as_str ok_or mbind result_bind]; try done.
    destruct (obj_get fs "$args") as [av|] eqn:Ha.
    + destruct av as [| | | |l|]; cbn [mbind result_bind]; try done. destruct (collectM _ l) as [vs|e|] eqn:Hl; try done. cbn [mbind result_bind]. rewrite map_err_Ok_iff. intros Hd.
      eapply expands_fn; eauto. by apply Hargs.
    + cbn [mbind result_bind]. rewrite map_err_Ok_iff. intros Hd. eapply (expands_fn _ _ _ []); eauto.
  - intros H. inversion H as [x Hx|s w Hd|ts vs|fs' vs Hn|fs' t' m key cases c w Hk Ht'|fs' t' m key cases d w Hk Ht'|fs' nm ts vs w Hn Hk Hname Ha HF Hd]; subst; try congruence; try done.
    rewrite (proj2 (keys_among_spec _ _) Hk), Hname. cbn [negb mbind option_bind as_str ok_or result_bind]. destruct Ha as [Ha|[Ha ->]].
    + rewrite Ha. apply (Hargs _ _ Ha) in HF. rewrite HF. cbn [mbind result_bind]. by apply map_err_Ok_iff.
    + rewrite Ha. inversion HF; subst. cbn [mbind result_bind]. by apply map_err_Ok_iff.
Qed.
Lemma object_expands ctx fs v :
  (forall t w, (value_size t < value_size (VObject fs))%nat -> substitute_placeholders ctx t = Ok w <-> Expands ctx t w) ->
  has_key fs "$match" = false -> has_key fs "$fn" = false ->
  substitute_placeholders ctx (VObject fs) = Ok v <-> Expands ctx (VObject fs) v.
Proof.
  intros IH Hm Hf. rewrite substitute_object, Hm, Hf. apply has_key_spec in Hm, Hf.
  assert (forall vs, collectM (fun kv => x ← substitute_placeholders ctx kv.2; Ok (kv.1, x)) fs = Ok vs <->
    Forall2 (fun kt kv => kt.1 = kv.1 /\ Expands ctx kt.2 kv.2) fs vs) as Hfs.
  { intros vs. apply collectM_Forall2. intros [k t] Hk [k' w]. cbn [fst snd]. specialize (IH t). pose proof (elem_size_object _ _ Hk) as Hs. cbn [snd] in Hs.
    rewrite <- IH by done. destruct (substitute_placeholders ctx t); cbn [mbind result_bind]; naive_solver. }
  split.
  - destruct (collectM _ fs) as [vs|e|] eqn:Hc; [|done..]. cbn [mbind result_bind]. intros [= <-]. apply expands_object; [done..|]. by apply Hfs.
  - intros H. inversion H as [x Hx|s w Hd|ts vs|fs' vs Hn Hn' HF|fs' t' m key cases c w Hk Ht'|fs' t' m key cases d w Hk Ht'|fs' nm ts vs w Hn Hk Hname]; subst; try congruence; try done.
    apply Hfs in HF. by rewrite HF.
Qed.
Lemma expands_iff ctx t v : substitute_placeholders ctx t = Ok v <-> Expands ctx t v.
Proof.
  revert v. induction t as [t IH] using (well_founded_ind (Wf_nat.well_founded_ltof _ value_size)). unfold Wf_nat.ltof in IH. intros v.
  destruct t as [|b|n|s|l|fs].
  - cbn. split; [intros [= <-]; by constructor|intros H; by inversion H].
  - cbn. split; [intros [= <-]; by constructor|intros H; by inversion H].
  - cbn. split; [intros [= <-]; by constructor|intros H; by inversion H].
  - cbn [substitute_placeholders]. destruct (starts_with_dollar s) eqn:Hs; (split; [|intros H; inversion H as [x Hx| | | | | |]; subst; cbn in *; rewrite ?Hs in *; simpl in *; congruence]).
    + intros H. by apply expands_placeholder.
    + intros [= <-]. apply expands_scalar. cbn. by rewrite Hs.
  - rewrite substitute_array. assert (forall xs, collectM (substitute_placeholders ctx) l = Ok xs <-> Forall2 (Expands ctx) l xs) as Hl.
    { intros xs. apply collectM_Forall2. intros t Ht w. apply IH. by apply elem_size_array. }
    split.
    + destruct (collectM _ l) as [xs|e|] eqn:Hc; [|done..]. intros [= <-]. apply expands_array. by apply Hl.
    + intros H. inversion H; subst; [done|]. rewrite (proj2 (Hl _)) by done. done.
  - destruct (has_key fs "$match") eqn:Hm; [apply value_map_expands; [intros t w Ht; by apply IH|done]|].
    destruct (has_key fs "$fn") eqn:Hf; [apply fn_call_expands|apply object_expands]; try done; intros t w Ht; by apply IH.
Qed.

Lemma expands_unique ctx t v w : Expands ctx t v -> Expands ctx t w -> v = w.
Proof. intros Hv%expands_iff Hw%expands_iff. congruence. Qed.

(** C32: The substitution computes the meaning of templates: it succeeds exactly when the rules
    give the template a value, with that value, which is unique. Literals stand for
    themselves, a placeholder for what it resolves to, a value-map for the case its matched
    value names or its default, a function call for the result on the substituted arguments,
    and containers are substituted member by member; a stray key in a reserved form is
    refused. *)
Theorem substitution_exact ctx t v :
  (substitute_placeholders ctx t = Ok v <-> Expands ctx t v) /\ (forall w, Expands ctx t v -> Expands ctx t w -> v = w).
Proof.
  split; [apply expands_iff|]. intros w. apply expands_unique.
Qed.
End Expansion.

(** ** Every field of a template reaches the action *)
Definition present (fs : list (string * Value)) (k : string) : Prop := exists w, obj_get fs k = Some w /\ w <> VNull.
Lemma obj_get_None_in fs k : obj_get fs k = None <-> k ∉ fs.*1.
Proof.
  induction fs as [|[k' v] fs IH]; cbn [obj_get fmap list_fmap fst]; [split; [by intros _ ?%elem_of_nil|done]|].
  rewrite not_elem_of_cons. destruct (String.eqb_spec k' k) as [->|]; [naive_solver|]. rewrite IH. naive_solver.
Qed.
Lemma obj_insert_present fs k k' v : present fs k -> v <> VNull -> present (obj_insert fs k' v) k.
Proof. intros (w & Hw & Hn) Hv. unfold present. rewrite obj_get_insert. destruct (String.eqb k' k); eauto. Qed.
Lemma obj_get_copy out fs k : NoDup fs.*1 -> obj_get (copy_into out fs) k = match obj_get fs k with Some v => Some v | None => obj_get out k end.
Proof.
  unfold copy_into. revert out. induction fs as [|[k' v] fs IH]; intros out Hn; [done|]. cbn [fold_left fst snd obj_get]. apply NoDup_cons in Hn as [Hk Hn].
  rewrite IH, obj_get_insert by done. destruct (String.eqb_spec k' k) as [->|]; [|done]. apply obj_get_None_in in Hk. cbn [fst] in Hk. by rewrite Hk.
Qed.
Lemma obj_get_app l1 l2 k : obj_get (l1 ++ l2) k = match obj_get l1 k with Some v => Some v | None => obj_get l2 k end.
Proof. induction l1 as [|[k' v] l1 IH]; [done|]. cbn [app obj_get]. by destruct (String.eqb k' k). Qed.
Lemma swap_out_get l k kl w k' : k <> k' -> kl ∉ l.*1 -> k ∈ l.*1 ->
  obj_get (swap_out l k (kl, w)) k' = if String.eqb kl k' then Some w else obj_get l k'.
Proof.
  intros Hk. induction l as [|[x v] l IH]; cbn [fmap list_fmap fst]; [by intros _ ?%elem_of_nil|]. rewrite not_elem_of_cons, elem_of_cons. intros [Hx Hl] Hin.
  cbn [swap_out]. destruct (String.eqb_spec x k) as [->|Hxk]; cbn [obj_get].
  - rewrite (proj2 (String.eqb_neq k k')) by done. done.
  - destruct Hin as [->|Hin]; [done|]. rewrite IH by done. destruct (String.eqb_spec x k') as [->|]; [|done]. by rewrite (proj2 (String.eqb_neq kl k')).
Qed.
Lemma obj_remove_get fs k k' : NoDup fs.*1 -> k <> k' -> obj_get (obj_remove fs k).1 k' = obj_get fs k'.
Proof.
  intros Hn Hk. unfold obj_remove. destruct (obj_get fs k) as [v|] eqn:Hg; [|done]. destruct fs as [|[kl w] l _] using rev_ind; [done|].
  rewrite last_snoc, removelast_last. rewrite fmap_app in Hn. apply NoDup_app in Hn as (Hn & Hd & _). cbn [fst fmap list_fmap] in *.
  assert (kl ∉ l.*1) as Hkl by (intros H; by apply (Hd _ H); left). rewrite obj_get_app. cbn [obj_get]. destruct (String.eqb_spec kl k) as [->|Hne]; cbn [fst].
  - destruct (obj_get l k'); [done|]. by rewrite (proj2 (String.eqb_neq k k')).
  - rewrite swap_out_get; [|done|done|].
    + destruct (String.eqb_spec kl k') as [->|]; [|by destruct (obj_get l k')]. by rewrite (proj2 (obj_get_None_in _ _) Hkl).
    + rewrite obj_get_app in Hg. cbn [obj_get] in Hg. rewrite (proj2 (String.eqb_neq kl k) Hne) in Hg. destruct (obj_get l k) eqn:Hl; [|done].
      apply obj_get_in in Hl. apply list_elem_of_fmap. by exists (k, v0).
Qed.
Lemma swap_out_keys l k kl w : swap_out l k (kl, w) = l \/ exists l1 l2 v, l = l1 ++ (k, v) :: l2 /\ swap_out l k (kl, w) = l1 ++ (kl, w) :: l2.
Proof.
  induction l as [|[x v] l IH]; [by left|]. cbn [swap_out]. destruct (String.eqb_spec x k) as [->|].
  - right. by exists [], l, v.
  - destruct IH as [->|(l1 & l2 & v' & -> & ->)]; [by left|]. right. by exists ((x, v) :: l1), l2, v'.
Qed.
Lemma obj_remove_NoDup fs k : NoDup fs.*1 -> NoDup (obj_remove fs k).1.*1.
Proof.
  intros Hn. unfold obj_remove. destruct (obj_get fs k) as [v|]; [|done]. destruct fs as [|[kl w] l _] using rev_ind; [done|].
  rewrite last_snoc, removelast_last. pose proof Hn as Hn'. rewrite fmap_app in Hn'. apply NoDup_app in Hn' as (Hl & _ & _). destruct (String.eqb kl k); [done|]. cbn [fst].
  destruct (swap_out_keys l k kl w) as [->|(l1 & l2 & v' & -> & ->)]; [done|]. rewrite !fmap_app in *. cbn [fmap list_fmap fst] in *.
  rewrite <- app_assoc in Hn. cbn [app] in Hn. apply (NoDup_Permutation_proper _ (kl :: l1.*1 ++ l2.*1)); [by rewrite Permutation_middle|].
  apply (NoDup_Permutation_proper (l1.*1 ++ k :: l2.*1 ++ [kl]) (k :: kl :: l1.*1 ++ l2.*1)) in Hn; [by apply NoDup_cons in Hn as [_ ?]|].
  rewrite <- Permutation_middle. f_equiv. rewrite app_assoc. by rewrite Permutation_app_comm.
Qed.

Section Fields.
Context {T0 : AlloyText} {A0 : Alloy} {S0 : ActionSerde}.
Lemma coerce_present flat k : present flat k -> present (coerce_time_like_fields flat) k.
Proof.
  unfold coerce_time_like_fields. generalize TIME_FIELDS. intros l. revert flat. induction l as [|f l IH]; intros flat Hp; [done|]. cbn [fold_left]. apply IH.
  destruct (obj_get flat f) as [v|] eqn:Hf; [|done]. destruct (is_null v) eqn:Hv.
  - destruct v; try done. destruct Hp as (w & Hw & Hn). unfold present. rewrite obj_get_insert. destruct (String.eqb_spec f k) as [->|]; [congruence|eauto].
  - apply obj_insert_present; [done|]. unfold coerce_decimal_string_to_u64. destruct v; try done. by destruct (_ || _).
Qed.
Lemma inject_inline_present ctx d a live flat k : present flat k -> present (inject_inline ctx d a live flat) k.
Proof. unfold inject_inline. revert flat. induction live as [|kv live IH]; intros flat Hp; [done|]. cbn [fold_left]. by apply IH, obj_insert_present. Qed.
Lemma prepare_present ctx template live flat : prepare_body ctx template live = Ok flat ->
  exists body flat0, substitute_placeholders ctx (strip_inline_live_inputs template).1 = Ok body /\ flatten_body body = Ok flat0 /\
    forall k, present flat0 k -> present flat k.
Proof.
  unfold prepare_body. destruct (strip_inline_live_inputs template) as [stripped inline_live]. cbn [fst].
  destruct (substitute_placeholders ctx stripped) as [body|e|] eqn:Hs; [|done..]. cbn [mbind result_bind].
  destruct (flatten_body body) as [flat0|e|] eqn:Hf; [|done..]. cbn [mbind result_bind]. destruct (extract_tags flat0) as [domain action].
  intros H. exists body, flat0. split; [done|]. split; [done|]. intros k Hp.
  destruct (match live_input_layout domain action with Unsupported => None | _ => _ end) as [lt|]; cbn [mbind result_bind] in H; [|injection H as <-; by apply coerce_present].
  destruct (substitute_placeholders ctx lt) as [lv|e|]; cbn [mbind result_bind] in H; [|done..]. injection H as <-. apply coerce_present.
  destruct (as_object lv) as [lo|]; [|done]. destruct (live_input_layout domain action); [by apply obj_insert_present|by apply inject_inline_present|done].
Qed.
Lemma expands_member ctx fs vs k t : Forall2 (fun kt kv => kt.1 = kv.1 /\ Expands ctx kt.2 kv.2) fs vs -> obj_get fs k = Some t ->
  exists v, obj_get vs k = Some v /\ Expands ctx t v.
Proof.
  induction 1 as [|[k1 t1] [k2 v2] fs vs [Hk Hv] _ IH]; [done|]. cbn [fst snd] in *. subst k2. cbn [obj_get]. destruct (String.eqb k1 k); [intros [= <-]; eauto|done].
Qed.
Lemma expands_keys ctx (fs vs : list (string * Value)) : Forall2 (fun kt kv => kt.1 = kv.1 /\ Expands ctx kt.2 kv.2) fs vs -> vs.*1 = fs.*1.
Proof. induction 1 as [|kt kv fs vs [Hk _] _ IH]; [done|]. cbn [fmap list_fmap]. by f_equal. Qed.
Lemma expands_plain ctx fs v : obj_get fs "$match" = None -> obj_get fs "$fn" = None -> Expands ctx (VObject fs) v ->
  exists vs, v = VObject vs /\ Forall2 (fun kt kv => kt.1 = kv.1 /\ Expands ctx kt.2 kv.2) fs vs.
Proof. intros Hm Hf H. inversion H; subst; try congruence; try done. eauto. Qed.
Lemma expands_literal ctx s v : starts_with_dollar s = false -> Expands ctx (VString s) v -> v = VString s.
Proof. intros Hs H. inversion H; subst; [done|congruence]. Qed.

(** A manifest body [{domain: d, d: {action: a, a: payload}}] of a domain with actions. *)
Record action_template (obj inner payload : list (string * Value)) (d a : string) : Prop := {
  at_domain : obj_get obj "domain" = Some (VString d);
  at_inner : obj_get obj d = Some (VObject inner);
  at_action : obj_get inner "action" = Some (VString a);
  at_payload : obj_get inner a = Some (VObject payload);
  at_tags : starts_with_dollar d = false /\ starts_with_dollar a = false /\ d <> "multicall"%string /\ d <> "unknown"%string;
  at_plain : Forall (fun fs => obj_get fs "$match" = None /\ obj_get fs "$fn" = None) [obj; inner; payload];
  at_keys : NoDup payload.*1;
}.
Lemma obj_get_update fs k v k' : k <> k' -> obj_get (obj_insert fs k v) k' = obj_get fs k'.
Proof. intros Hk. by rewrite obj_get_insert, (proj2 (String.eqb_neq _ _) Hk). Qed.
Lemma flatten_template ctx obj inner payload d a body flat k t v : action_template obj inner payload d a ->
  substitute_placeholders ctx (strip_inline_live_inputs (VObject obj)).1 = Ok body -> flatten_body body = Ok flat ->
  obj_get payload k = Some t -> k <> "live_inputs"%string -> Expands ctx t v -> obj_get flat k = Some v.
Proof.
  intros [Hd Hi Ha Hp (Hld & Hla & Hm & Hu) Hplain Hnd] Hs Hflat Hk Hkl Hv.
  apply Forall_cons in Hplain as [[Hom Hof] [[Him Hif] [[Hpm Hpf] _]%Forall_cons]%Forall_cons].
  assert (forall n, d = n -> obj_get obj n <> Some (VObject inner) -> False) as Hdn by naive_solver.
  unfold strip_inline_live_inputs in Hs. rewrite Hd in Hs. cbn [mbind option_bind as_str] in Hs. rewrite Hi, Ha in Hs. cbn [mbind option_bind as_str] in Hs. rewrite Hp in Hs.
  pose proof (obj_remove_get payload "live_inputs") as Hget. pose proof (obj_remove_NoDup payload "live_inputs" Hnd) as Hnd'.
  destruct (obj_remove payload "live_inputs") as [payload' removed]. cbn [fst] in *. apply expands_iff in Hs.
  apply expands_plain in Hs as (vs & -> & HF); [|rewrite obj_get_update; [done|]..]; [|by intros ->; congruence..].
  destruct (expands_member _ _ _ "domain" (VString d) HF) as (dv & Hdv & Edv); [rewrite obj_get_update; [done|by intros ->; congruence]|].
  apply expands_literal in Edv as ->; [|done].
  destruct (expands_member _ _ _ d (VObject (obj_insert inner a (VObject payload'))) HF) as (iv & Hiv & Eiv); [by rewrite obj_get_insert, String.eqb_refl|].
  apply expands_plain in Eiv as (ivs & -> & HFi); [|rewrite obj_get_update; [done|]..]; [|by intros ->; congruence..].
  destruct (expands_member _ _ _ "action" (VString a) HFi) as (av & Hav & Eav); [rewrite obj_get_update; [done|by intros ->; congruence]|].
  apply expands_literal in Eav as ->; [|done].
  destruct (expands_member _ _ _ a (VObject payload') HFi) as (pv & Hpv & Epv); [by rewrite obj_get_insert, String.eqb_refl|].
  apply expands_plain in Epv as (pvs & -> & HFp); [|by rewrite Hget..].
  destruct (expands_member _ _ _ k t HFp) as (v' & Hv' & Ev'); [by rewrite Hget|].
  assert (v' = v) as -> by (by eapply expands_unique).
  unfold flatten_body in Hflat. cbn [as_object ok_or mbind result_bind] in Hflat. rewrite Hdv in Hflat. cbn [as_str ok_or mbind result_bind] in Hflat.
  rewrite (proj2 (String.eqb_neq _ _) Hm), (proj2 (String.eqb_neq _ _) Hu) in Hflat. cbn [orb] in Hflat. rewrite Hiv in Hflat. cbn [as_object ok_or mbind result_bind option_bind] in Hflat.
  rewrite Hav in Hflat. cbn [as_str ok_or mbind result_bind] in Hflat. rewrite Hpv in Hflat. cbn [as_object ok_or mbind result_bind option_bind] in Hflat.
  injection Hflat as <-. rewrite obj_get_copy by by rewrite (expands_keys _ _ _ HFp). by rewrite Hv'.
Qed.

(** A field that is neither a live input nor a time keeps its value. *)
Lemma coerce_get flat k : k ∉ TIME_FIELDS -> obj_get (coerce_time_like_fields flat) k = obj_get flat k.
Proof.
  unfold coerce_time_like_fields. generalize TIME_FIELDS. intros l. revert flat. induction l as [|f l IH]; intros flat Hl; [done|]. apply not_elem_of_cons in Hl as [Hkf Hl].
  cbn [fold_left]. rewrite IH by done. destruct (obj_get flat f); [|done]. by rewrite obj_get_update by congruence.
Qed.
Lemma inject_inline_get ctx d a live flat k : k ∉ live.*1 -> obj_get (inject_inline ctx d a live flat) k = obj_get flat k.
Proof.
  unfold inject_inline. revert flat. induction live as [|kv live IH]; intros flat Hk; [done|]. apply not_elem_of_cons in Hk as [Hne Hk]. cbn [fold_left].
  rewrite IH by done. by rewrite obj_get_update by congruence.
Qed.
Lemma prepare_passes ctx template lf flat k : prepare_body ctx template (Some (VObject lf)) = Ok flat ->
  obj_get lf "$match" = None -> obj_get lf "$fn" = None -> k ∉ lf.*1 -> k ∉ "live_inputs"%string :: TIME_FIELDS ->
  exists body flat0, substitute_placeholders ctx (strip_inline_live_inputs template).1 = Ok body /\ flatten_body body = Ok flat0 /\ obj_get flat k = obj_get flat0 k.
Proof.
  unfold prepare_body. intros H Hm Hn Hk [Hli Hl]%not_elem_of_cons. destruct (strip_inline_live_inputs template) as [stripped inline_live]. cbn [fst].
  destruct (substitute_placeholders ctx stripped) as [body|e|]; [|done..]. cbn [mbind result_bind] in H.
  destruct (flatten_body body) as [flat0|e|] eqn:Hf; [|done..]. cbn [mbind result_bind] in H. destruct (extract_tags flat0) as [domain action].
  exists body, flat0. split; [done|]. split; [done|].
  destruct (live_input_layout domain action); cbn [mbind result_bind] in H; [| |injection H as <-; by apply coerce_get];
    (destruct (substitute_placeholders ctx (VObject lf)) as [lv|e|] eqn:Hs; cbn [mbind result_bind] in H; [|done..]); injection H as <-; rewrite coerce_get by done;
    apply expands_iff, expands_plain in Hs as (vs & -> & HF); try done; cbn [as_object].
  - unfold inject_nested. by rewrite obj_get_update by congruence.
  - apply inject_inline_get. by rewrite (expands_keys _ _ _ HF).
Qed.
(** A payload field of a template arrives as what its template expands to. *)
Lemma template_field_value ctx obj inner payload d a lf flat k t v : action_template obj inner payload d a -> prepare_body ctx (VObject obj) (Some (VObject lf)) = Ok flat ->
  obj_get lf "$match" = None -> obj_get lf "$fn" = None -> k ∉ lf.*1 -> k ∉ "live_inputs"%string :: TIME_FIELDS ->
  obj_get payload k = Some t -> Expands ctx t v -> obj_get flat k = Some v.
Proof.
  intros Ht Hp Hm Hf Hk Hl Hpk Hv. destruct (prepare_passes _ _ _ _ k Hp Hm Hf Hk Hl) as (body & flat0 & Hs & Hflat & ->). apply not_elem_of_cons in Hl as [Hli _].
  by eapply flatten_template.
Qed.
Lemma build_inv ctx body live action : build_action_body ctx body live = Ok action ->
  exists flat, prepare_body ctx body live = Ok flat /\ action_from_value (VObject flat) = inr action /\ reject_unknown_action_body_fields flat action = Ok ().
Proof.
  unfold build_action_body. intros Hb. destruct (prepare_body ctx body live) as [flat|e|]; [|done..]. cbn [mbind result_bind] in Hb.
  destruct (action_from_value (VObject flat)) as [e|act] eqn:Ha; cbn [lift_err mbind result_bind] in Hb; [done|].
  destruct (reject_unknown_action_body_fields flat act) as [[]|e|] eqn:Hr; [|done..]. injection Hb as ->. by exists flat.
Qed.
Lemma reject_keys flat action serialized k w : reject_unknown_action_body_fields flat action = Ok () -> action_to_value action = inr (VObject serialized) ->
  (k, w) ∈ flat -> w <> VNull -> is_Some (obj_get serialized k).
Proof.
  unfold reject_unknown_action_body_fields. intros Hr Hser Hw Hwn. rewrite Hser in Hr. cbn [lift_err mbind result_bind as_object] in Hr.
  destruct (unknown_fields flat serialized) as [|u us] eqn:Hu; [|by destruct (extract_tags flat)]. unfold unknown_fields in Hu. apply fmap_nil_inv in Hu.
  destruct (obj_get serialized k) as [x|] eqn:Hx; [eauto|]. exfalso. apply list_elem_of_In in Hw.
  assert (In (k, w) (List.filter (fun kv => negb (is_null kv.2) && negb (has_key serialized kv.1)) flat)) as Hin; [|by rewrite Hu in Hin].
  apply filter_In. split; [done|]. cbn [fst snd]. rewrite (proj2 (has_key_spec _ _) Hx). by destruct w.
Qed.

(** C31: A manifest cannot set a top-level field the typed action ignores. A body that is built
    is decoded from the flat object its template prepares to, live inputs included, and every
    entry of that object that is not null is a field the action serializes, whatever the
    template looks like. In particular, when the template names its domain and action
    literally, a payload field whose value is not null is in the object and is serialized.
    Only the names at the top are checked: what an object below a field holds is not
    ([nested_fields_unchecked]). *)
Theorem template_fields_consumed ctx template live action serialized :
  build_action_body ctx template live = Ok action -> action_to_value action = inr (VObject serialized) ->
  exists flat, prepare_body ctx template live = Ok flat /\ action_from_value (VObject flat) = inr action /\
    (forall k w, (k, w) ∈ flat -> w <> VNull -> is_Some (obj_get serialized k)) /\
    (forall obj inner payload d a k t v, template = VObject obj -> action_template obj inner payload d a ->
       obj_get payload k = Some t -> k <> "live_inputs"%string -> Expands ctx t v -> v <> VNull -> present flat k /\ is_Some (obj_get serialized k)).
Proof.
  intros (flat & Hp & Ha & Hr)%build_inv Hser. exists flat. split; [done|]. split; [done|]. split; [intros k w; by eapply reject_keys|].
  intros obj inner payload d a k t v -> Ht Hk Hkl Hv Hn. apply prepare_present in Hp as (body & flat0 & Hs & Hf & Hpres).
  assert (present flat k) as Hpk by (apply Hpres; exists v; split; [by eapply flatten_template|done]). split; [done|].
  destruct Hpk as (w & Hw%obj_get_in & Hwn). by eapply reject_keys.
Qed.
(** The check reads the names of the top-level fields and which of them are null, and nothing
    else: two bodies that agree on these are refused or accepted alike, so a misspelt name
    inside a field is not noticed. *)
Theorem nested_fields_unchecked flat flat' action : (fun kv => (kv.1, is_null kv.2)) <$> flat = (fun kv => (kv.1, is_null kv.2)) <$> flat' ->
  reject_unknown_action_body_fields flat action = Ok () <-> reject_unknown_action_body_fields flat' action = Ok ().
Proof.
  intros Hf. unfold reject_unknown_action_body_fields. destruct (action_to_value action) as [e|serialized]; [done|]. cbn [lift_err mbind result_bind].
  destruct (as_object serialized) as [obj|]; [|done]. assert (unknown_fields flat obj = unknown_fields flat' obj) as ->.
  - clear -Hf. unfold unknown_fields. revert flat' Hf. induction flat as [|[k v] flat IH]; intros [|[k' v'] flat'] Hf; try done. cbn [fmap list_fmap fst snd] in Hf.
    injection Hf as <- Hv Hf. cbn [List.filter fst snd]. rewrite Hv. destruct (_ && _); cbn [fmap list_fmap fst]; [f_equal|]; by apply IH.
  - destruct (unknown_fields flat' obj); [done|]. destruct (extract_tags flat), (extract_tags flat'). by split.
Qed.
End Fields.
(** ** Multicalls are built child by child *)
(** The parallel arrays of an array emit, each resolved and as long as the array. *)
Definition Aligned (ctx : V3MapContext) (n : nat) (ps : option Value) (parallels : list (string * list Value)) : Prop :=
  match ps with
  | None => parallels = []
  | Some ps => exists sources, ps = VObject sources /\
      Forall2 (fun s p => s.1 = p.1 /\ exists src, s.2 = VString src /\ resolve_placeholder ctx src = Ok (VArray p.2) /\ length p.2 = n) sources parallels
  end.
(** The value an item's template sees under a name: the parallel cell of that name, or the element. *)
Definition cell (parallels : list (string * list Value)) (index : nat) (element : Value) (name : string) : option Value :=
  match find (fun p => String.eqb p.1 name) parallels with
  | Some p => p.2 !! index
  | None => if String.eqb "element" name then Some element else None
  end.
Lemma parallel_loop_iff ctx n sources ps : parallel_loop ctx n sources = Ok ps <->
  Forall2 (fun s p => s.1 = p.1 /\ exists src, s.2 = VString src /\ resolve_placeholder ctx src = Ok (VArray p.2) /\ length p.2 = n) sources ps.
Proof.
  revert ps. induction sources as [|[name sv] sources IH]; intros ps; cbn [parallel_loop].
  - split; [by intros [= <-]|]. intros H. by inversion H.
  - split.
    + destruct sv as [| | |src| |]; cbn [as_str ok_or mbind result_bind]; try done. destruct (resolve_placeholder ctx src) as [pv|e|] eqn:Hr; [|done..]. cbn [mbind result_bind].
      destruct pv as [| | | |arr|]; cbn [as_array ok_or mbind result_bind]; try done. destruct (Nat.eqb_spec (length arr) n) as [Hn|]; cbn [negb]; [|done].
      destruct (parallel_loop ctx n sources) as [more|e|]; [|done..]. intros [= <-]. constructor; [naive_solver|]. by apply IH.
    + intros H. inversion H as [|s p sources' ps' (Hk & src & Hs & Hr & Hn) HF]; subst. destruct p as [name' arr]. cbn [fst snd] in *. subst.
      cbn [as_str ok_or mbind result_bind]. rewrite Hr. cbn [mbind result_bind as_array ok_or]. rewrite Nat.eqb_refl. cbn [negb]. by rewrite (proj2 (IH _) HF).
Qed.
Section Emit.
Context {T0 : AlloyText} {A0 : Alloy} {S0 : ActionSerde}.
Lemma array_loop_iff ctx ps body live k arr cs : array_loop ctx ps body live k arr = Ok cs <->
  length cs = length arr /\ forall i element, arr !! i = Some element -> exists inputs child, item_inputs ps (k + i) element = Ok inputs /\
    build_action_body (with_inputs ctx (Some inputs)) body live = Ok child /\ cs !! i = Some child.
Proof.
  revert k cs. induction arr as [|element arr IH]; intros k cs; cbn [array_loop].
  - split; [by intros [= <-]|]. intros [Hl _]. by destruct cs.
  - split.
    + destruct (item_inputs ps k element) as [inputs|e|] eqn:Hi; [|done..]. cbn [mbind result_bind].
      destruct (build_action_body _ body live) as [child|e|] eqn:Hb; [|done..]. cbn [mbind result_bind].
      destruct (array_loop ctx ps body live (S k) arr) as [rest|e|] eqn:Hr; [|done..]. intros [= <-]. apply IH in Hr as [Hl Hr].
      split; [cbn [length]; lia|]. intros [|i] el; cbn [lookup list_lookup]; [intros [= <-]; rewrite Nat.add_0_r; eauto|]. rewrite Nat.add_succ_r. apply Hr.
    + intros [Hl H]. destruct cs as [|c cs]; [done|]. injection Hl as Hl. destruct (H 0%nat element eq_refl) as (inputs & child & Hi & Hb & Hc). rewrite Nat.add_0_r in Hi.
      injection Hc as ->. rewrite Hi. cbn [mbind result_bind]. rewrite Hb. cbn [mbind result_bind]. rewrite (proj2 (IH (S k) cs)); [done|]. split; [done|].
      intros i el Hel. specialize (H (S i) el Hel). by rewrite Nat.add_succ_r in H.
Qed.
Lemma item_fold parallels index o : Forall (fun p => (index < length p.2)%nat) parallels ->
  exists o', foldM (fun o nv => v ← or_panic (nv.2 !! index); Ok (obj_insert o nv.1 v)) parallels o = Ok (E := V3BuildError) o' /\
    (NoDup parallels.*1 -> forall name, obj_get o' name = match find (fun p => String.eqb p.1 name) parallels with Some p => p.2 !! index | None => obj_get o name end).
Proof.
  intros Hp. revert o. induction Hp as [|[name arr] ps Hl _ IH]; intros o; [by exists o|]. cbn [foldM fst snd]. destruct (lookup_lt_is_Some_2 arr index Hl) as [v Hv].
  rewrite Hv. cbn [or_panic mbind result_bind]. destruct (IH (obj_insert o name v)) as (o' & Ho' & Hg). exists o'. split; [done|].
  intros [Hn Hnd]%NoDup_cons name'. rewrite Hg by done. cbn [find fst]. destruct (String.eqb_spec name name') as [<-|Hne].
  - destruct (find _ ps) as [p|] eqn:Hf; [|rewrite obj_get_insert, String.eqb_refl; cbn [snd]; by rewrite Hv]. apply find_some in Hf as [Hin He]. apply String.eqb_eq in He. exfalso. apply Hn.
    apply list_elem_of_fmap. exists p. split; [done|]. by apply list_elem_of_In.
  - destruct (find _ ps); [done|]. by rewrite obj_get_insert, (proj2 (String.eqb_neq _ _) Hne).
Qed.
Lemma aligned_keys ctx n ps parallels : Aligned ctx n ps parallels ->
  Forall (fun p => length p.2 = n) parallels /\ (forall sources, ps = Some (VObject sources) -> parallels.*1 = sources.*1).
Proof.
  unfold Aligned. destruct ps as [ps|]; [|by intros ->]. intros (sources & -> & HF). split.
  - induction HF as [|s p sources parallels (_ & src & _ & _ & Hl) _ IH]; by constructor.
  - intros sources' [= <-]. induction HF as [|s p sources parallels (Hk & _) _ IH]; [done|]. cbn [fmap list_fmap]. by f_equal.
Qed.

(** An array emit is one child per element. It succeeds exactly when its source resolves to
    an array within the cap, its parallel sources to arrays of the same length, and every
    child builds; the children come in the order of the elements, none skipped. The template
    of child [i] sees the element itself, or with parallel sources an object whose members are
    cell [i] of each of them and the element: indexing never runs out of range. *)
Theorem array_emit_exact ctx src ps body live max b :
  (build_array_emit ctx src ps body live max = Ok b <->
   exists arr parallels children, resolve_placeholder ctx src = Ok (VArray arr) /\ (forall m, max = Some m -> (length arr <= m)%nat) /\
     Aligned ctx (length arr) ps parallels /\ b = Multicall children /\ length children = length arr /\
     forall i element, arr !! i = Some element -> exists inputs child, item_inputs parallels i element = Ok inputs /\
       build_action_body (with_inputs ctx (Some inputs)) body live = Ok child /\ children !! i = Some child) /\
  (forall n parallels i element, Aligned ctx n ps parallels -> (i < n)%nat -> exists inputs, item_inputs parallels i element = Ok inputs /\
     if (length parallels =? 0)%nat then inputs = element
     else NoDup parallels.*1 -> forall name, value_get inputs name = cell parallels i element name).
Proof.
  split.
  - unfold build_array_emit. split.
    + destruct (resolve_placeholder ctx src) as [av|e|]; [|done..]. cbn [mbind result_bind]. destruct av as [| | | |arr|]; cbn [as_array ok_or mbind result_bind]; try done.
      destruct (match max with Some m => (m <? length arr)%nat | None => false end) eqn:Hm; [done|].
      destruct (match ps with None => Ok [] | Some ps => _ end) as [parallels|e|] eqn:Hps; [|done..]. cbn [mbind result_bind].
      destruct (array_loop ctx parallels body live 0 arr) as [cs|e|] eqn:Hl; [|done..]. intros [= <-]. apply array_loop_iff in Hl as [Hlen Hcs].
      exists arr, parallels, cs. split_and!; try done.
      * intros m ->. by apply Nat.ltb_ge in Hm.
      * unfold Aligned. destruct ps as [ps|]; [|by injection Hps as <-]. destruct ps as [| | | | |sources]; cbn [as_object ok_or mbind result_bind] in Hps; try done.
        exists sources. split; [done|]. by apply parallel_loop_iff.
    + intros (arr & parallels & cs & Hr & Hm & Ha & -> & Hlen & Hcs). rewrite Hr. cbn [mbind result_bind as_array ok_or].
      assert (match max with Some m => (m <? length arr)%nat | None => false end = false) as ->.
      { destruct max as [m|]; [|done]. apply Nat.ltb_ge. by apply Hm. }
      assert (match ps with None => Ok [] | Some ps => sources ← ok_or (UnresolvedPlaceholder "array_emit.parallel_sources must be an object") (as_object ps);
        parallel_loop ctx (length arr) sources end = Ok parallels) as ->.
      { unfold Aligned in Ha. destruct ps as [ps|]; [|by subst]. destruct Ha as (sources & -> & HF). cbn [as_object ok_or mbind result_bind]. by apply parallel_loop_iff. }
      cbn [mbind result_bind]. by rewrite (proj2 (array_loop_iff _ _ _ _ 0 _ cs)).
  - intros n parallels i element Ha Hi. unfold item_inputs. destruct (Nat.eqb_spec (length parallels) 0); [eauto|]. apply aligned_keys in Ha as [Hl _].
    destruct (item_fold parallels i [("element"%string, element)]) as (o & Ho & Hg); [eapply Forall_impl; [exact Hl|]; naive_solver lia|].
    rewrite Ho. cbn [mbind result_bind]. eexists. split; [done|]. intros Hnd name. cbn [value_get]. by rewrite Hg.
Qed.

(** *** Opcode streams *)
Definition entry_of (table : list (string * Value)) (mask byte : Z) : option Value := obj_get table (opcode_key (Z.land byte mask)).
Definition steps_from (k : nat) (commands : bytes) : list (nat * Z) := imap (fun i b => ((k + i)%nat, b)) commands.
Definition known_step (table : list (string * Value)) (mask : Z) (step : nat * Z) : bool := bool_decide (is_Some (entry_of table mask step.2)).
Definition StepBuilds (ctx : V3MapContext) (table : list (string * Value)) (mask : Z) (inputs : list Value) (step : nat * Z) (child : ActionBody) : Prop :=
  exists entry template, entry_of table mask step.2 = Some entry /\ value_get entry "body" = Some template /\
    build_action_body (with_inputs ctx (inputs !! step.1)) template None = Ok child.
Lemma steps_cons k b commands : steps_from k (b :: commands) = (k, b) :: steps_from (S k) commands.
Proof. unfold steps_from. cbn [imap]. rewrite Nat.add_0_r. f_equal. apply imap_ext. intros i x _. cbn. f_equal. lia. Qed.
Lemma opcode_loop_iff ctx table commands inputs mask policy k children : opcode_loop ctx table commands inputs mask policy k = Ok children <->
  Forall2 (StepBuilds ctx table mask inputs) (List.filter (known_step table mask) (steps_from k commands)) children /\
  (policy = PolicyDeny -> Forall (fun s => known_step table mask s = true) (steps_from k commands)).
Proof.
  revert k children. induction commands as [|b commands IH]; intros k children; cbn [opcode_loop].
  - split; [by intros [= <-]|]. intros [H _]. by inversion H.
  - rewrite steps_cons. cbn [List.filter]. unfold known_step at 1. cbn [snd]. fold (entry_of table mask b). destruct (entry_of table mask b) as [entry|] eqn:He.
    + rewrite bool_decide_true by eauto. split.
      * destruct (value_get entry "body") as [t|] eqn:Ht; cbn [ok_or mbind result_bind]; [|done]. destruct (build_action_body _ t None) as [child|e|] eqn:Hb; [|done..].
        cbn [mbind result_bind]. destruct (opcode_loop _ _ _ _ _ _ (S k)) as [cs|e|] eqn:Hl; [|done..]. intros [= <-]. apply IH in Hl as [HF Hd]. split.
        -- constructor; [|done]. by exists entry, t.
        -- intros Hp. constructor; [|by apply Hd]. unfold known_step. cbn [snd]. rewrite He. by apply bool_decide_true.
      * intros [HF Hd]. inversion HF as [|s c ss cs (entry' & t & He' & Ht & Hb) HF']; subst. cbn [fst snd] in *. assert (entry' = entry) as -> by congruence.
        rewrite Ht. cbn [ok_or mbind result_bind]. rewrite Hb. cbn [mbind result_bind]. rewrite (proj2 (IH (S k) cs)); [done|]. split; [done|].
        intros Hp. by apply Forall_cons in Hd as [_ ?].
    + rewrite bool_decide_false by (intros [? ?]; congruence). destruct policy.
      * rewrite IH. naive_solver.
      * split; [done|]. intros [_ Hd]. specialize (Hd eq_refl). apply Forall_cons in Hd as [Hk _]. unfold known_step in Hk. cbn [snd] in Hk. rewrite He in Hk.
        apply bool_decide_eq_true in Hk as [? ?]. done.
      * rewrite IH. naive_solver.
Qed.

(** An opcode stream is one child per known opcode. It is built exactly when every opcode of
    the stream that the table knows, after masking, has a body that builds with the inputs at
    its own position, and the children come in the order of the stream. Unknown opcodes are
    left out, except under the deny policy, which refuses the whole stream: a call accepted
    under it has a child for every command. *)
Theorem opcode_stream_exact ctx table commands inputs mask bit policy b :
  (build_multicall_from_opcode_stream ctx table commands inputs mask bit policy = Ok b <->
   exists children, b = Multicall children /\
     Forall2 (StepBuilds ctx table mask inputs) (List.filter (known_step table mask) (steps_from 0 commands)) children /\
     (policy = PolicyDeny -> Forall (fun s => known_step table mask s = true) (steps_from 0 commands))) /\
  (forall children, policy = PolicyDeny -> build_multicall_from_opcode_stream ctx table commands inputs mask bit policy = Ok (Multicall children) ->
     length children = length commands /\ forall i c, commands !! i = Some c -> exists child, children !! i = Some child /\ StepBuilds ctx table mask inputs (i, c) child).
Proof.
  assert (forall b, build_multicall_from_opcode_stream ctx table commands inputs mask bit policy = Ok b <->
    exists children, b = Multicall children /\ opcode_loop ctx table commands inputs mask policy 0 = Ok children) as Hm.
  { intros b'. unfold build_multicall_from_opcode_stream. destruct (opcode_loop _ _ _ _ _ _ _); cbn [mbind result_bind]; naive_solver. }
  split.
  - rewrite Hm. split; intros (cs & -> & H); exists cs; (split; [done|]); by apply opcode_loop_iff.
  - intros children Hp Hb. apply Hm in Hb as (cs & [= <-] & Hl). apply opcode_loop_iff in Hl as [HF Hd]. specialize (Hd Hp).
    assert (List.filter (known_step table mask) (steps_from 0 commands) = steps_from 0 commands) as Heq.
    { clear -Hd. induction Hd as [|s ss Hs _ IH]; [done|]. cbn [List.filter]. by rewrite Hs, IH. }
    rewrite Heq in HF. split; [by rewrite <- (Forall2_length _ _ _ HF); unfold steps_from; rewrite length_imap|].
    intros i c Hc. destruct (Forall2_lookup_l _ _ _ i (i, c) HF) as (child & ? & ?); [|eauto]. unfold steps_from. by rewrite list_lookup_imap, Hc.
Qed.
End Emit.
(** ** Witnesses *)
Module Demo.
#[local] Instance text : AlloyText := demo_text.
(** One action with an amount. *)
#[local] Instance serde : ActionSerde := {|
  action_from_value v :=
    match (a ← value_get v "amount"; u256_from_json a) with
    | Some n => inr (UnknownCall 0 "eip155:1"%string ""%string n)
    | None => inl "missing field `amount`"%string
    end;
  action_to_value a :=
    match a with
    | UnknownCall _ _ _ n => inr (VObject [("domain", VString "token"); ("action", VString "unwrap_native"); ("amount", uint_string n)])%string
    | _ => inl "unsupported"%string
    end;
|}.
Definition ctx : V3MapContext :=
  mkV3MapContext "eip155:1" 17 18 0 1000
    (VObject [("amounts", VArray [VString "7"; VString "9"]); ("spenders", VArray [VString "a"; VString "b"])])%string "0x" ∅ ∅ None.
Definition payload : list (string * Value) := [("amount", VString "$args.amounts[-1]")]%string.
Definition inner : list (string * Value) := [("action", VString "unwrap_native"); ("unwrap_native", VObject payload)]%string.
Definition body : list (string * Value) := [("domain", VString "token"); ("token", VObject inner)]%string.
Definition item (placeholder : string) : Value :=
  VObject [("domain", VString "token"); ("token", VObject [("action", VString "unwrap_native"); ("unwrap_native", VObject [("amount", VString placeholder)])])]%string.
End Demo.
Lemma placeholder_is_navigation_witness : resolve_placeholder Demo.ctx ("$args." +:+ render_path [("amounts", [-1])]) = Ok (VString "9").
Proof.
  apply (placeholder_is_navigation Demo.ctx [("amounts"%string, [-1])] (VString "9")); [done| |reflexivity].
  apply Forall_singleton. split_and!; [done|done|by left|apply Forall_singleton; unfold i64; cbn; lia].
Defined.
Lemma template_fields_consumed_witness : exists flat serialized,
  action_to_value (ActionSerde := Demo.serde) (UnknownCall 0 "eip155:1"%string ""%string 9) = inr (VObject serialized) /\
  present flat "amount" /\ is_Some (obj_get serialized "amount").
Proof.
  destruct (template_fields_consumed (T0 := demo_text) (A0 := AbiDecode.MiniAlloy.alloy) (S0 := Demo.serde) Demo.ctx (VObject Demo.body) None
    (UnknownCall 0 "eip155:1"%string ""%string 9)
    [("domain", VString "token"); ("action", VString "unwrap_native"); ("amount", uint_string 9)]%string) as (flat & _ & _ & _ & H); [reflexivity..|].
  exists flat. eexists. split; [reflexivity|].
  apply (H Demo.body Demo.inner Demo.payload "token"%string "unwrap_native"%string "amount"%string (VString "$args.amounts[-1]") (VString "9")); try done.
  - constructor; try done. + repeat constructor. + by apply NoDup_singleton.
  - by apply expands_placeholder.
Defined.
(** A misspelt name in the token of a payload passes. *)
Example nested_typo_accepted (token : list (string * Value)) :
  reject_unknown_action_body_fields (S0 := Demo.serde) [("amount", VObject token)]%string (UnknownCall 0 "eip155:1"%string ""%string 9) = Ok ().
Proof.
  apply (nested_fields_unchecked (S0 := Demo.serde) [("amount", VString "9")]%string); reflexivity.
Qed.
Lemma array_emit_exact_witness : exists children, length children = 2%nat /\
  build_array_emit (T0 := demo_text) (A0 := AbiDecode.MiniAlloy.alloy) (S0 := Demo.serde) Demo.ctx "$args.amounts"
    (Some (VObject [("spender", VString "$args.spenders")]))%string (Demo.item "$inputs.element") None (Some 2%nat) = Ok (Multicall children).
Proof.
  destruct (build_array_emit (T0 := demo_text) (A0 := AbiDecode.MiniAlloy.alloy) (S0 := Demo.serde) Demo.ctx "$args.amounts"
    (Some (VObject [("spender", VString "$args.spenders")]))%string (Demo.item "$inputs.element") None (Some 2%nat)) as [b|e|] eqn:Hb; [|by vm_compute in Hb..].
  destruct (proj1 (proj1 (array_emit_exact (T0 := demo_text) (A0 := AbiDecode.MiniAlloy.alloy) (S0 := Demo.serde) _ _ _ _ _ _ b)) Hb)
    as (arr & parallels & children & Hr & _ & _ & -> & Hl & _).
  exists children. split; [|done]. rewrite Hl. vm_compute in Hr. by injection Hr as <-.
Defined.
Lemma opcode_stream_exact_witness : exists children, length children = 2%nat /\
  build_multicall_from_opcode_stream (T0 := demo_text) (A0 := AbiDecode.MiniAlloy.alloy) (S0 := Demo.serde) Demo.ctx
    [("0x0b", VObject [("body", Demo.item "$inputs.amount")])]%string [0x0b; 0x8b]
    [VObject [("amount", VString "3")]; VObject [("amount", VString "4")]]%string 0x3f 0x80 PolicyDeny = Ok (Multicall children).
Proof.
  pose proof (opcode_stream_exact (T0 := demo_text) (A0 := AbiDecode.MiniAlloy.alloy) (S0 := Demo.serde) Demo.ctx
    [("0x0b", VObject [("body", Demo.item "$inputs.amount")])]%string [0x0b; 0x8b]
    [VObject [("amount", VString "3")]; VObject [("amount", VString "4")]]%string 0x3f 0x80 PolicyDeny) as H.
  destruct (build_multicall_from_opcode_stream _ _ _ _ _ _ _) as [b|e|] eqn:Hb; [|by vm_compute in Hb..].
  destruct (proj1 (proj1 (H b)) eq_refl) as (children & -> & _). exists children. split; [|done].
  by destruct (proj2 (H (Multicall children)) children eq_refl eq_refl) as [-> _].
Defined.
(** The source of an array emit is not checked to be a placeholder: empty text panics, and a
    first character other than the dollar sign is dropped. *)
Example empty_array_source : resolve_placeholder Demo.ctx "" = Panic.
Proof. reflexivity. Qed.
Example unmarked_array_source : resolve_placeholder Demo.ctx "#args.amounts[0]" = resolve_placeholder Demo.ctx "$args.amounts[0]".
Proof. reflexivity. Qed.
End MapperBuild.
