(* ===== verification/DecodeDerive.v ===== *)
(** * Static and derived values of a call (dambi-core/src/decode: mod.rs, metamorpho_underlying.rs)

    What the router adds to a decoded call before a template is built: addresses
    that are fixed by chain and target, identifiers that are hashes of decoded
    fields (Uniswap V4 pools, Morpho markets), pools at CREATE2 addresses and the
    end points of a packed path. *)
From Stdlib Require Import Ascii.
From stdpp Require Import base tactics numbers list strings gmap pretty.
From S2P Require Import Prelude Types Bytes AbiDecode Apply PackedPayloads SyncLive PolicyEngine PolicyRpc BundleFormat BundleTrust SessionInput PolicyRuntime MapperText MapperFn MapperBuild.
Import SyncLive.

Module DecodeDerive.
Import AbiDecode PackedPayloads PolicyEngine PolicyRpc BundleFormat BundleTrust SessionInput PolicyRuntime MapperText MapperFn MapperBuild.

(** ** Tables keyed by chain and target *)
Definition table_lookup (t : list (Z * string * string)) (chain_id : Z) (target : string) : option string :=
  snd <$> find (fun row => (row.1.1 =? chain_id) && String.eqb row.1.2 target) t.
Definition AAVE_GATEWAYS : list (Z * string * string) :=
  [(1, "0xd01607c3c5ecaba394d8be377a08590149325722", "0x87870bca3f3fd6335c3f4ce8392d69350b4fa4e2");
   (10, "0x5f2508cae9923b02316254026cd43d7902866725", "0x794a61358d6845594f94dc1db02a252b5b4814ad");
   (8453, "0xa0d9c1e9e48ca30c8d8c3b5d69ff5dc1f6dffc24", "0xa238dd80c259a72e81d7e4664a9801593f98d1c5");
   (42161, "0x5283beced7adf6d003225c13896e536f2d4264ff", "0x794a61358d6845594f94dc1db02a252b5b4814ad")]%string.
Definition COMPOUND_V2_MARKETS : list (Z * string * string) :=
  [(1, "0x6c8c6b02e7b2be14d4fa6022dfd6d75921d90e4e", "0x0d8775f648430679a709e98d2b0cb6250d2887ef");
   (1, "0x5d3a536e4d6dbd6114cc1ead35777bab948e3643", "0x6b175474e89094c44da98b954eedeac495271d0f");
   (1, "0x158079ee67fce2f58472a96584a73c7ab9ac95c1", "0x1985365e9f78359a9b6ad760e32412f4a445e862");
   (1, "0x39aa39c021dfbae8fac545936693ac917d5e7563", "0xa0b86991c6218b36c1d19d4a2e9eb0ce3606eb48");
   (1, "0xf650c3d88d12db855b8bf7d11be6c55a4e07dcc9", "0xdac17f958d2ee523a2206206994597c13d831ec7");
   (1, "0xc11b1268c1a384e55c48c2391d8d480264a3a7f4", "0x2260fac5e5542a773aa44fbcfedf7c193bc2c599");
   (1, "0xb3319f5d18bc0d84dd1b4825dcde5d5f7266d407", "0xe41d2489571d322189246dafa5ebde1f4699f498");
   (1, "0xf5dce57282a584d2746faf1593d3121fcac444dc", "0x89d24a6b4ccb1b6faa2625fe562bdd9a23260359");
   (1, "0x35a18000230da775cac24873d00ff85bccded550", "0x1f9840a85d5af5bf1d1762f925bdaddc4201f984");
   (1, "0x70e36f6bf80a52b3b46b3af8e106cc0ed743e8e4", "0xc00e94cb662c3520282e6f5717214004a7f26888");
   (1, "0xccf4429db6322d5c611ee964527d42e5d685dd6a", "0x2260fac5e5542a773aa44fbcfedf7c193bc2c599");
   (1, "0x12392f67bdf24fae0af363c24ac620a2f67dad86", "0x0000000000085d4780b73119b644ae5ecd22b376");
   (1, "0xface851a4921ce59e912d19329929ce6da6eb0c7", "0x514910771af9ca656af840dff83e8264ecf986ca");
   (1, "0x95b4ef2869ebd94beb4eee400a99824bf5dc325b", "0x9f8f72aa9304c8b593d555f12ef6589cc3a579a2");
   (1, "0x4b0181102a0112a2ef11abee5563bb4a3176c9d7", "0x6b3595068778dd592e39a122f4f5a5cf09c90fe2");
   (1, "0xe65cdb6479bac1e22340e4e755fae7e509ecd06c", "0x7fc66500c84a76ad7e9c93437bfc5ac33e2ddae9");
   (1, "0x80a2ae356fc9ef4305676f7a3e2ed04e12c33946", "0x0bc529c00c6401aef6d220be8c6ea1667f6ad93e");
   (1, "0x041171993284df560249b57358f931d9eb7b925d", "0x8e870d67f660d95d5be530380d0ec0bd388289e1");
   (1, "0x7713dd9ca933848f6819f38b8352d9a15ea73f67", "0x956f47f50a910163d8bf957cf5846d573e7f87ca");
   (1, "0x4ddc2d193948926d02f9b1fe9e1daa0718270ed5", "0x0000000000000000000000000000000000000000")]%string.
Definition COMPOUND_V3_MARKETS : list (Z * string * string) :=
  [(1, "0xc3d688b66703497daa19211eedff47f25384cdc3", "0xa0b86991c6218b36c1d19d4a2e9eb0ce3606eb48");
   (1, "0xa17581a9e3356d9a858b789d68b4d866e593ae94", "0xc02aaa39b223fe8d0a0e5c4f27ead9083c756cc2");
   (1, "0x5d409e56d886231adaf00c8775665ad0f9897b56", "0xdc035d45d973e3ec169d2276ddab16f1e407384f");
   (1, "0x3afdc9bca9213a35503b077a6072f3d0d5ab0840", "0xdac17f958d2ee523a2206206994597c13d831ec7");
   (1, "0xe85dc543813b8c2cfeaac371517b925a166a9293", "0x2260fac5e5542a773aa44fbcfedf7c193bc2c599");
   (1, "0x3d0bb1ccab520a66e607822fc55bc921738fafe3", "0x7f39c581f595b53c5cb19bd0b3f8da6c935e2ca0");
   (137, "0xf25212e676d1f7f89cd72ffee66158f541246445", "0x2791bca1f2de4661ed88a30c99a7a9449aa84174");
   (137, "0xaeb318360f27748acb200ce616e389a6c9409a07", "0xc2132d05d31c914a87c6611c10748aeb04b58e8f");
   (5000, "0x606174f62cd968d8e684c645080fa694c1d7786e", "0x5d3a1ff2b6bab83b63cd9ad0787074081a52ef34");
   (59144, "0x8d38a3d6b3c3b7d96d6536da7eef94a9d7dbc991", "0x176211869ca2b568f2a7d4ee941e073a821ee1ff");
   (59144, "0x60f2058379716a64a7a5d29219397e79bc552194", "0xe5d7c2a44ffddf6b295a15c148167daaaf5cf34f");
   (534352, "0xb2f97c1bd3bf02f5e74d13f02e3e26f93d77ce44", "0x06efdbff2a14a7c8e15944d1f4a48f9f95f663a4");
   (2020, "0x4006ed4097ee51c09a04c3b0951d28ccf19e6dfe", "0xc99a6a985ed2cac1ef41640596c5a5f9f4e19ef5");
   (2020, "0xc0afdbd1ceb621ef576ba969ce9d4cef78dbc0c0", "0xe514d9deb7966c8be0ca922de8a064264ea6bcd4");
   (130, "0x2c7118c4c88b9841fcf839074c26ae8f035f2921", "0x078d782b760474a361dda0af3839290b0ef57ad6");
   (130, "0x6c987dde50db1dcdd32cd4175778c2a291978e2a", "0x4200000000000000000000000000000000000006");
   (8453, "0x784efeb622244d2348d4f2522f8860b96fbece89", "0x940181a94a35a4569e4529a3cdfb74e38fd98631");
   (8453, "0x9c4ec768c28520b50860ea7a15bd7213a9ff58bf", "0xd9aaec86b65d86f6a7b5b1b0c42ffa531710b6ca");
   (8453, "0xb125e6687d4313864e53df431d5425969c15eb2f", "0x833589fcd6edb6e08f4c7c32d4f71b54bda02913");
   (8453, "0x2c776041ccfe903071af44aa147368a9c8eea518", "0x820c137fa70c8691f0e44dc420a5e53c168921dc");
   (8453, "0x46e6b214b524310239732d51387075e0e70970bf", "0x4200000000000000000000000000000000000006");
   (10, "0x2e44e174f7d53f0212823acc11c01a11d58c5bcb", "0x0b2c639c533813f4aa9d7837caf62653d097ff85");
   (10, "0x995e394b8b2437ac8ce61ee0bc610d617962b214", "0x94b008aa00579c1307b0ef2c499ad98a8ce58e58");
   (10, "0xe36a30d249f7761327fd973001a32010b521b6fd", "0x4200000000000000000000000000000000000006");
   (42161, "0xa5edbdd9646f8dff606d7448e414884c7d905dca", "0xff970a61a04b1ca14834a43f5de4533ebddb5cc8");
   (42161, "0x9c4ec768c28520b50860ea7a15bd7213a9ff58bf", "0xaf88d065e77c8cc2239327c5edb3a432268e5831");
   (42161, "0xd98be00b5d27fc98112bde293e487f8d4ca57d07", "0xfd086bc7cd5c481dcc9c85ebe478a1c0b69fcbb9");
   (42161, "0x6f7d514bbd4aff3bcd1140b7344b32f063dee486", "0x82af49447d8a07e3bd95bd0d56f35241523fbab1")]%string.
Definition aave_weth_gateway_pool (chain_id : Z) (target : string) : option string := table_lookup AAVE_GATEWAYS chain_id target.
Definition compound_v2_underlying (chain_id : Z) (target : string) : option string :=
  table_lookup COMPOUND_V2_MARKETS chain_id (to_ascii_lowercase target).
Definition compound_v3_base_asset (chain_id : Z) (target : string) : option string :=
  table_lookup COMPOUND_V3_MARKETS chain_id (to_ascii_lowercase target).
Definition resolve_named (chain_id : Z) (name addr : string) : option string :=
  if String.eqb name "compound_v3_base_asset" then compound_v3_base_asset chain_id addr
  else if String.eqb name "compound_v2_underlying" then compound_v2_underlying chain_id addr
  else None.
Definition weth_address (chain_id : Z) : option string :=
  if chain_id =? 1 then Some "0xc02aaa39b223fe8d0a0e5c4f27ead9083c756cc2"%string
  else if (chain_id =? 8453) || (chain_id =? 10) then Some "0x4200000000000000000000000000000000000006"%string
  else if chain_id =? 42161 then Some "0x82af49447d8a07e3bd95bd0d56f35241523fbab1"%string
  else None.
Definition v4_pool_manager (chain_id : Z) : option string :=
  if chain_id =? 1 then Some "0x000000000004444c5dc75cb358380d2e3de08a90"%string
  else if chain_id =? 8453 then Some "0x498581ff718922c3f8e6a244956af099b2652b2b"%string
  else if chain_id =? 10 then Some "0x9a13f98cb987694c9f086b1f5eb990eea8264ec3"%string
  else if chain_id =? 42161 then Some "0x360e68faccca8ca495c1b759fd9eee466db9fb32"%string
  else None.
Definition uniswap_v3_factory (chain_id : Z) : option string :=
  if bool_decide (chain_id ∈ [1; 10; 42161; 137]) then Some "0x1f98431c8ad98523631ae4a59f267346ea31f984"%string
  else if chain_id =? 8453 then Some "0x33128a8fc17869897dce68ed026d694621f6fdfd"%string else None.
Definition uniswap_v2_factory (chain_id : Z) : option string :=
  if chain_id =? 1 then Some "0x5c69bee701ef814a2b6a3edd4b1652cb9cc5aa6f"%string else None.
Definition UNISWAP_V3_POOL_INIT_HASH : string := "0xe34f199b19b2b4f47f68442619d555527d244f78a3297ea89325f843f87b8b54".
Definition UNISWAP_V2_PAIR_INIT_HASH : string := "0x96e8ac4277198ff8b6f785478aa9a39f403cb768dd02cbee326c3e7da348845f".

(** ** MetaMorpho vaults *)
Definition METAMORPHO_UNDERLYING : list (string * string) :=
  [("0x0b2d98bbf3e38df1d1b7be7343732e32e8b1f818", "0xa0b86991c6218b36c1d19d4a2e9eb0ce3606eb48");
   ("0x19b3cd7032b8c062e8d44eacad661a0970dd8c55", "0x6c3ea9036406852006290770bedfcaba0e23a0e8");
   ("0x2371e134e3455e0593363cbf89d3b6cf53740618", "0xc02aaa39b223fe8d0a0e5c4f27ead9083c756cc2");
   ("0x2c25f6c25770ffec5959d34b94bf898865e5d6b1", "0xdac17f958d2ee523a2206206994597c13d831ec7");
   ("0x2c793f5cb25b35a99648783c01e6cccc200d2096", "0x6c3ea9036406852006290770bedfcaba0e23a0e8");
   ("0x2ed10624315b74a78f11fabedaa1a228c198aefb", "0x1abaea1f7c830bd89acc67ec4af516284b1bc33c");
   ("0x2f1abb81ed86be95bcf8178ba62c8e72d6834775", "0x2260fac5e5542a773aa44fbcfedf7c193bc2c599");
   ("0x31a5684983eee865d943a696aac155363ba024f9", "0xc02aaa39b223fe8d0a0e5c4f27ead9083c756cc2");
   ("0x34ece536d2ae03192b06c0a67030d1faf4c0ba43", "0x5f7827fdeb7c20b443265fc2f40845b715385ff2");
   ("0x443df5eee3196e9b2dd77cabd3ea76c3dee8f9b2", "0x2260fac5e5542a773aa44fbcfedf7c193bc2c599");
   ("0x47fe8ab9ee47dd65c24df52324181790b9f47efc", "0xc02aaa39b223fe8d0a0e5c4f27ead9083c756cc2");
   ("0x4881ef0bf6d2365d3dd6499ccd7532bcdbce0658", "0xc02aaa39b223fe8d0a0e5c4f27ead9083c756cc2");
   ("0x4d52545235a3df246a8928c583e47ae7eec4acfe", "0xfa2b947eec368f42195f24f36d2af29f7c24cec2");
   ("0x4f460bb11cf958606c69a963b4a17f9daeeea8b6", "0xa0b86991c6218b36c1d19d4a2e9eb0ce3606eb48");
   ("0x4ff4186188f8406917293a9e01a1ca16d3cf9e59", "0xa0b86991c6218b36c1d19d4a2e9eb0ce3606eb48");
   ("0x500331c9ff24d9d11aee6b07734aa72343ea74a5", "0x6b175474e89094c44da98b954eedeac495271d0f");
   ("0x56a76b428244a50513ec81e225a293d128fd581d", "0xa0b86991c6218b36c1d19d4a2e9eb0ce3606eb48");
   ("0x62fe596d59fb077c2df736df212e0affb522dc78", "0xa0b86991c6218b36c1d19d4a2e9eb0ce3606eb48");
   ("0x64964e162aa18d32f91ea5b24a09529f811aeb8e", "0xa0b86991c6218b36c1d19d4a2e9eb0ce3606eb48");
   ("0x6859b34a9379122d25a9fa46f0882d434fee36c3", "0xab5eb14c09d416f0ac63661e57edb7aecdb9befa");
   ("0x68aea7b82df6ccdf76235d46445ed83f85f845a3", "0xa0b86991c6218b36c1d19d4a2e9eb0ce3606eb48");
   ("0x6c26793c7f1e2785c09b460676e797b716f0bc8e", "0xa0b86991c6218b36c1d19d4a2e9eb0ce3606eb48");
   ("0x6d6d386c4855d9b604d7e14c70526407f6272394", "0xc02aaa39b223fe8d0a0e5c4f27ead9083c756cc2");
   ("0x701907283a57ff77e255c3f1aad790466b8ce4ef", "0xc02aaa39b223fe8d0a0e5c4f27ead9083c756cc2");
   ("0x711a68a82dd80cb0435b281af76b0b80804efab9", "0xa0b86991c6218b36c1d19d4a2e9eb0ce3606eb48");
   ("0x71cb2f8038b2c5d65ddc740b2f3268890cd2a89c", "0x8292bb45bf1ee4d140127049757c2e0ff06317ed");
   ("0x739d8a60ed4b14e4cb6dcaeaf79d2ec0ca092237", "0xc02aaa39b223fe8d0a0e5c4f27ead9083c756cc2");
   ("0x75741a12b36d181f44f389e0c6b1e0210311e3ff", "0x5f7827fdeb7c20b443265fc2f40845b715385ff2");
   ("0x777791c4d6dc2ce140d00d2828a7c93503c67777", "0xa0b86991c6218b36c1d19d4a2e9eb0ce3606eb48");
   ("0x78b18e07dc43017fceaabad0751d6464c0f56b25", "0x64351fc9810adad17a690e4e1717df5e7e085160");
   ("0x78fc2c2ed1a4cdb5402365934ae5648adad094d0", "0xc02aaa39b223fe8d0a0e5c4f27ead9083c756cc2");
   ("0x79fd640000f8563a866322483524a4b48f1ed702", "0xdac17f958d2ee523a2206206994597c13d831ec7");
   ("0x812b2c6ab3f4471c0e43d4bb61098a9211017427", "0x2260fac5e5542a773aa44fbcfedf7c193bc2c599");
   ("0x833adaef212c5cd3f78906b44bbfb18258f238f0", "0x7f39c581f595b53c5cb19bd0b3f8da6c935e2ca0");
   ("0x888883f0eddf69ca4bfd00af93714ff97f188888", "0xdac17f958d2ee523a2206206994597c13d831ec7");
   ("0x8cb3649114051ca5119141a34c200d65dc0faa73", "0xdac17f958d2ee523a2206206994597c13d831ec7");
   ("0x8eb67a509616cd6a7c1b3c8c21d48ff57df3d458", "0xa0b86991c6218b36c1d19d4a2e9eb0ce3606eb48");
   ("0x95eef579155cd2c5510f312c8fa39208c3be01a8", "0xdac17f958d2ee523a2206206994597c13d831ec7");
   ("0x965ec3552427b8258bd0a0c7baa234618fc98d01", "0xdac17f958d2ee523a2206206994597c13d831ec7");
   ("0x974c8fbf4fd795f66b85b73ebc988a51f1a040a9", "0xa0b86991c6218b36c1d19d4a2e9eb0ce3606eb48");
   ("0x9a8bc3b04b7f3d87cfc09ba407dced575f2d61d8", "0xc02aaa39b223fe8d0a0e5c4f27ead9083c756cc2");
   ("0x9b7cca326004967f9d2b7cf5f2328d82cf65b302", "0x00000000efe302beaa2b3e6e1b18d08d69a9012a");
   ("0xa02f5e93f783baf150aa1f8b341ae90fe0a772f7", "0xcbb7c0000ab88b473b1f5afd9ef808440eed33bf");
   ("0xa0804346780b4c2e3be118ac957d1db82f9d7484", "0xdac17f958d2ee523a2206206994597c13d831ec7");
   ("0xa1ff9c28ebc160c1dcde4b9aa9551f617880c6fb", "0xa0b86991c6218b36c1d19d4a2e9eb0ce3606eb48");
   ("0xa3fc33543beee52bc60babc80af3d29789637b6d", "0xc02aaa39b223fe8d0a0e5c4f27ead9083c756cc2");
   ("0xa71d08a159258553a5ac190d60fa919425ff02ea", "0xdac17f958d2ee523a2206206994597c13d831ec7");
   ("0xa8875aaebc4f830524e35d57f9772ffacbdd6c45", "0xa0b86991c6218b36c1d19d4a2e9eb0ce3606eb48");
   ("0xb0f05e4de970a1aaf77f8c2f823953a367504ba9", "0xa0b86991c6218b36c1d19d4a2e9eb0ce3606eb48");
   ("0xbdd4859050468fbc11dec07113a6e633608a1372", "0xdac17f958d2ee523a2206206994597c13d831ec7");
   ("0xbeef01735c132ada46aa9aa4c54623caa92a64cb", "0xa0b86991c6218b36c1d19d4a2e9eb0ce3606eb48");
   ("0xbeef02e5e13584ab96848af90261f0c8ee04722a", "0x6c3ea9036406852006290770bedfcaba0e23a0e8");
   ("0xbeef047a543e45807105e51a8bbefcc5950fcfba", "0xdac17f958d2ee523a2206206994597c13d831ec7");
   ("0xbeef050ecd6a16c4e7bffbb52ebba7846c4b8cd4", "0xc02aaa39b223fe8d0a0e5c4f27ead9083c756cc2");
   ("0xbeef1f5bd88285e5b239b6aacb991d38cca23ac9", "0xa0b86991c6218b36c1d19d4a2e9eb0ce3606eb48");
   ("0xbeef2b5fd3d94469b7782aebe6364e6e6fb1b709", "0xa0b86991c6218b36c1d19d4a2e9eb0ce3606eb48");
   ("0xbeef346d7099865208ff331e4f648f4154ddaa05", "0xa0b86991c6218b36c1d19d4a2e9eb0ce3606eb48");
   ("0xbeef96b330ef1fe7ebe41ece0bd4a41a94bc03dc", "0xa0b86991c6218b36c1d19d4a2e9eb0ce3606eb48");
   ("0xbeefb9f61cc44895d8aec381373555a64191a9c4", "0xa0b86991c6218b36c1d19d4a2e9eb0ce3606eb48");
   ("0xbeefc1cdafc5b4a649b54d07afc6bf0f75c6f4e2", "0xc139190f447e929f090edeb554d95abb8b18ac1c");
   ("0xbeefff209270748ddd194831b3fa287a5386f5bc", "0xa0b86991c6218b36c1d19d4a2e9eb0ce3606eb48");
   ("0xbeefff68cc520d68f82641eff84330c631e2490e", "0x6b175474e89094c44da98b954eedeac495271d0f");
   ("0xbeeffff0629438ad198c47f80d66fa4be5c0caf6", "0x00000000efe302beaa2b3e6e1b18d08d69a9012a");
   ("0xc080f56504e0278828a403269db945f6c6d6e014", "0xa0d69e286b938e21cbf7e51d71f6a4c8918f482f");
   ("0xc54b4e08c1dcc199fdd35c6b5ab589ffd3428a8d", "0xdac17f958d2ee523a2206206994597c13d831ec7");
   ("0xcdaea3dde6ce5969aa1414a82a3a681ced51ce72", "0xa0b86991c6218b36c1d19d4a2e9eb0ce3606eb48");
   ("0xd41830d88dfd08678b0b886e0122193d54b02acc", "0xa0b86991c6218b36c1d19d4a2e9eb0ce3606eb48");
   ("0xd63070114470f685b75b74d60eec7c1113d33a3d", "0xa0b86991c6218b36c1d19d4a2e9eb0ce3606eb48");
   ("0xdc94785959b73f7a168452b3654e44fec6a750e4", "0x8236a87084f8b84306f72007f36f2618a5634494");
   ("0xdd0f28e19c1780eb6396170735d45153d261490d", "0xa0b86991c6218b36c1d19d4a2e9eb0ce3606eb48");
   ("0xe0c98605f279e4d7946d25b75869c69802823763", "0x2260fac5e5542a773aa44fbcfedf7c193bc2c599");
   ("0xe89371eaaac6d46d4c3ed23453241987916224fc", "0xc02aaa39b223fe8d0a0e5c4f27ead9083c756cc2");
   ("0xf9bddd4a9b3a45f980e11fdde96e16364ddbec49", "0xa0b86991c6218b36c1d19d4a2e9eb0ce3606eb48")]%string.
(** [slice::binary_search_by] for a key: [size] rows from [left] are still possible, and at
    least one of them is dropped a round. *)
Fixpoint binary_search (rows : list (string * string)) (key : string) (fuel left right : nat) : option nat :=
  match fuel with
  | O => None
  | S fuel' =>
      if (left <? right)%nat then
        let mid := (left + (right - left) / 2)%nat in
        match rows !! mid with
        | Some row =>
            match String.compare row.1 key with
            | Lt => binary_search rows key fuel' (S mid) right
            | Gt => binary_search rows key fuel' left mid
            | Eq => Some mid
            end
        | None => None
        end
      else None
  end.
Definition underlying_of (vault_lc : string) : option string :=
  i ← binary_search METAMORPHO_UNDERLYING vault_lc (S (length METAMORPHO_UNDERLYING)) 0 (length METAMORPHO_UNDERLYING);
  row ← METAMORPHO_UNDERLYING !! i;
  Some row.2.

Section Derive.
Context {T0 : AlloyText}.
(** ** Words *)
Definition hex_body (s : string) : string := default s (strip_prefix "0x" s).
Definition write_address_word (addr_hex : string) : option bytes :=
  b ← hex_decode (hex_body addr_hex);
  if (length b =? 20)%nat then Some (repeat 0 12 ++ b) else None.
Definition write_u256_word (value : Value) : option bytes :=
  v ← match value with
      | VString s => u256_from_str_radix s 10
      | VNumber _ => as_u64 value
      | _ => None
      end;
  Some (to_be 32 v).
Definition as_i64 (v : Value) : option Z := match v with VNumber n => number_as_i64 n | _ => None end.
(** [u64::to_be_bytes] and [i64::to_be_bytes]; [to_be] is two's complement. *)
Definition low3 (z : Z) : bytes := drop 5 (to_be 8 z).
Definition hex32 (b : bytes) : string := ("0x" +:+ hex_encode (keccak256 b))%string.
Definition compute_v4_pool_id (currency0 currency1 : string) (fee tick_spacing : Value) (hooks : string) : option string :=
  c0 ← write_address_word currency0;
  c1 ← write_address_word currency1;
  fee_u ← as_u64 fee;
  spacing_i ← as_i64 tick_spacing;
  h ← write_address_word hooks;
  Some (hex32 (c0 ++ c1 ++ (repeat 0 29 ++ low3 fee_u) ++ (repeat (if spacing_i <? 0 then 0xff else 0) 29 ++ low3 spacing_i) ++ h)).
Definition pool_id_from_obj (src : list (string * Value)) : option string :=
  c0 ← (v ← obj_get src "currency0"; as_str v);
  c1 ← (v ← obj_get src "currency1"; as_str v);
  fee ← obj_get src "fee";
  spacing ← obj_get src "tickSpacing";
  hooks ← (v ← obj_get src "hooks"; as_str v);
  compute_v4_pool_id c0 c1 fee spacing hooks.
Definition pool_id_from_arr (arr : list Value) : option string :=
  c0 ← (v ← arr !! 0%nat; as_str v);
  c1 ← (v ← arr !! 1%nat; as_str v);
  fee ← arr !! 2%nat;
  spacing ← arr !! 3%nat;
  hooks ← (v ← arr !! 4%nat; as_str v);
  compute_v4_pool_id c0 c1 fee spacing hooks.
Definition first_some {A} (a b : option A) : option A := match a with Some _ => a | None => b end.
Definition maybe_inject_v4_pool_id (decoded : Value) : Value :=
  match decoded with
  | VObject obj =>
      match first_some (pool_id_from_obj obj)
              (first_some (v ← obj_get obj "poolKey"; arr ← as_array v; pool_id_from_arr arr)
                 (v ← obj_get obj "params"; params ← as_array v; p ← head params; pool_key ← as_array p; pool_id_from_arr pool_key)) with
      | Some pool_id => VObject (obj_insert obj "pool_id" (VString pool_id))
      | None => decoded
      end
  | _ => decoded
  end.
Definition compute_morpho_market_id (market_params : list Value) : option string :=
  loan ← (v ← market_params !! 0%nat; s ← as_str v; write_address_word s);
  collateral ← (v ← market_params !! 1%nat; s ← as_str v; write_address_word s);
  oracle ← (v ← market_params !! 2%nat; s ← as_str v; write_address_word s);
  irm ← (v ← market_params !! 3%nat; s ← as_str v; write_address_word s);
  lltv ← (v ← market_params !! 4%nat; write_u256_word v);
  Some (hex32 (loan ++ collateral ++ oracle ++ irm ++ lltv)).

(** ** Derived placeholders *)
Definition Derived : Type := gmap string Value.
Definition maybe_inject_morpho_market_id (args_json : Value) (derived : Derived) : Derived :=
  match (v ← value_get args_json "marketParams"; as_array v) with
  | Some mp =>
      if negb (length mp =? 5)%nat then derived
      else match compute_morpho_market_id mp with Some id => <["morpho_market_id" := VString id]> derived | None => derived end
  | None => derived
  end.
(** The full Unicode lower case agrees with the ASCII one where the result is a key of the table. *)
Definition maybe_inject_metamorpho_underlying (args_json : Value) (derived : Derived) : Derived :=
  match (v ← value_get args_json "vault"; as_str v) with
  | Some vault =>
      match underlying_of (to_ascii_lowercase vault) with
      | Some underlying => <["metamorpho_underlying" := VString underlying]> derived
      | None => derived
      end
  | None => derived
  end.
(** A path whose decoding panics is not distinguished from one that decodes to nothing:
    [decode_v3_path] never panics ([v3_path_round_trip]). *)
Definition maybe_inject_uniswap_v3_path (args_json : Value) (derived : Derived) : Derived :=
  match (v ← value_get args_json "path"; path ← as_str v; b ← hex_decode (hex_body path); res_ok (decode_v3_path b)) with
  | Some (tokens, fees) =>
      match head tokens, last tokens with
      | Some first, Some last_token =>
          let derived := <["v3_path_first_token" := VString (lowercase_hex first)]> derived in
          let derived := <["v3_path_last_token" := VString (lowercase_hex last_token)]> derived in
          match head fees with Some fee => <["fee_tier_bp" := VNumber (IntNum fee)]> derived | None => derived end
      | _, _ => derived
      end
  | None => derived
  end.
Definition inject_all (args_json : Value) (derived : Derived) : Derived :=
  maybe_inject_uniswap_v3_path args_json (maybe_inject_metamorpho_underlying args_json (maybe_inject_morpho_market_id args_json derived)).
Definition rederive_for_child (parent : Derived) (inputs : option Value) : Derived :=
  match inputs with Some i => inject_all i parent | None => parent end.

(** ** CREATE2 pools *)
Definition parse_fixed (n : nat) (s : string) : option bytes :=
  b ← hex_decode (hex_body s); if (length b =? n)%nat then Some b else None.
Definition parse_addr20 (s : string) : option bytes := parse_fixed 20 s.
Definition parse_bytes32 (s : string) : option bytes := parse_fixed 32 s.
Definition create2_address (deployer salt init_hash : bytes) : string :=
  ("0x" +:+ hex_encode (drop 12 (keccak256 ([0xff] ++ deployer ++ salt ++ init_hash))))%string.
(** Arrays of one length compare as the numbers they spell. *)
Definition sort_pair (a b : bytes) : bytes * bytes := if from_be a <=? from_be b then (a, b) else (b, a).
Definition compute_uniswap_v3_pool (chain_id : Z) (token_a token_b : string) (fee : Z) : option string :=
  factory ← (f ← uniswap_v3_factory chain_id; parse_addr20 f);
  init ← parse_bytes32 UNISWAP_V3_POOL_INIT_HASH;
  a ← parse_addr20 token_a;
  b ← parse_addr20 token_b;
  let '(t0, t1) := sort_pair a b in
  Some (create2_address factory (keccak256 (repeat 0 12 ++ t0 ++ repeat 0 12 ++ t1 ++ repeat 0 24 ++ to_be 8 fee)) init).
Definition compute_uniswap_v2_pair (chain_id : Z) (token_a token_b : string) : option string :=
  factory ← (f ← uniswap_v2_factory chain_id; parse_addr20 f);
  init ← parse_bytes32 UNISWAP_V2_PAIR_INIT_HASH;
  a ← parse_addr20 token_a;
  b ← parse_addr20 token_b;
  let '(t0, t1) := sort_pair a b in
  Some (create2_address factory (keccak256 (t0 ++ t1)) init).
Definition hex_value (c : ascii) : Z :=
  let n := Z.of_nat (nat_of_ascii c) in if n <? 58 then n - 48 else if n <? 71 then n - 55 else n - 87.
(** [uN::from_str_radix(s, 16)], a leading plus sign allowed. *)
Definition from_hex_radix (bound : Z) (s : string) : option Z :=
  let digits := match s with String "+"%char rest => rest | _ => s end in
  if String.eqb digits "" || negb (all_chars is_hexdigit digits) then None
  else
    let v := fold_left (fun acc c => acc * 16 + hex_value c) (String.list_ascii_of_string digits) 0 in
    if v <=? bound then Some v else None.
Definition json_value_to_u64 (v : Value) : option Z :=
  match v with
  | VNumber _ => as_u64 v
  | VString s => first_some (parse_u64 s) (h ← strip_prefix "0x" s; from_hex_radix U64_MAX h)
  | _ => None
  end.
Definition str_arg (args : Value) (name : string) : option string := v ← value_get args name; as_str v.
Definition zip_opt {A B} (a : option A) (b : option B) : option (A * B) := x ← a; y ← b; Some (x, y).
Definition maybe_compute_uniswap_pool (chain_id : Z) (args : Value) : option string :=
  match first_some (zip_opt (str_arg args "token0") (str_arg args "token1")) (zip_opt (str_arg args "tokenIn") (str_arg args "tokenOut")) with
  | Some (t0, t1) => fee ← (v ← value_get args "fee"; json_value_to_u64 v); compute_uniswap_v3_pool chain_id t0 t1 fee
  | None =>
      match str_arg args "tokenA", str_arg args "tokenB" with
      | Some ta, Some tb => compute_uniswap_v2_pair chain_id ta tb
      | _, _ => None
      end
  end.
(** The [resolved] map of a call, in the order the router fills it. *)
Definition put_some (k : string) (v : option string) (m : Derived) : Derived := match v with Some s => <[k := VString s]> m | None => m end.
Definition resolved_of_call (chain_id : Z) (to_lower : string) (args_json : Value) : Derived :=
  let m := put_some "compound_v2_underlying" (compound_v2_underlying chain_id to_lower)
            (put_some "compound_v3_base_asset" (compound_v3_base_asset chain_id to_lower)
              (put_some "pool" (aave_weth_gateway_pool chain_id to_lower)
                (put_some "pool_manager" (v4_pool_manager chain_id)
                  (put_some "weth" (weth_address chain_id) ∅)))) in
  match m !! "pool"%string with Some _ => m | None => put_some "pool" (maybe_compute_uniswap_pool chain_id args_json) m end.
End Derive.
(** ** The table of vaults *)
Lemma ascii_compare_lt a b c : Ascii.compare a b = Lt -> Ascii.compare b c = Lt -> Ascii.compare a c = Lt.
Proof. unfold Ascii.compare. rewrite !N.compare_lt_iff. lia. Qed.
Lemma ascii_compare_eq a b : Ascii.compare a b = Eq -> a = b.
Proof. unfold Ascii.compare. intros H%N.compare_eq. apply (f_equal ascii_of_N) in H. by rewrite !ascii_N_embedding in H. Qed.
Lemma compare_trans a b c : String.compare a b = Lt -> String.compare b c = Lt -> String.compare a c = Lt.
Proof.
  revert b c. induction a as [|x a IH]; intros [|y b] [|z c]; cbn [String.compare]; try done.
  destruct (Ascii.compare x y) eqn:Hxy; try done.
  - apply ascii_compare_eq in Hxy as ->. intros Hab. destruct (Ascii.compare y z); try done. by apply IH.
  - intros _. destruct (Ascii.compare y z) eqn:Hyz; try done; [apply ascii_compare_eq in Hyz as ->; by rewrite Hxy|]. intros _. by rewrite (ascii_compare_lt _ _ _ Hxy Hyz).
Qed.
Lemma compare_irrefl s : String.compare s s <> Lt.
Proof. intros H. pose proof (String.compare_antisym s s) as Ha. by rewrite H in Ha. Qed.
Lemma compare_gt a b : String.compare a b = Gt -> String.compare b a = Lt.
Proof. intros H. rewrite String.compare_antisym, H. done. Qed.
Definition rows_sorted (rows : list (string * string)) : Prop :=
  forall i j r s, (i < j)%nat -> rows !! i = Some r -> rows !! j = Some s -> String.compare r.1 s.1 = Lt.
Fixpoint sorted_b (rows : list (string * string)) : bool :=
  match rows with
  | r :: (s :: _) as rest => match String.compare r.1 s.1 with Lt => sorted_b rest | _ => false end
  | _ => true
  end.
Lemma sorted_b_spec rows : sorted_b rows = true -> rows_sorted rows.
Proof.
  induction rows as [|r rows IH]; [by intros _ i j|]. destruct rows as [|s rows].
  - intros _ i j a b Hij Ha Hb. apply lookup_lt_Some in Hb. simpl in Hb. lia.
  - cbn [sorted_b]. destruct (String.compare r.1 s.1) eqn:Hrs; try done. intros Hs. specialize (IH Hs). intros [|i] [|j] a b Hij Ha Hb; [lia| |lia|by eapply (IH i j); [lia|..]].
    injection Ha as <-. destruct j as [|j]; [by injection Hb as <-|]. eapply compare_trans; [exact Hrs|]. apply (IH 0%nat (S j)); [lia|done|done].
Qed.
Lemma binary_search_spec rows key fuel left right : rows_sorted rows -> (right <= length rows)%nat -> (right - left < fuel)%nat ->
  (forall i r, rows !! i = Some r -> r.1 = key -> (left <= i < right)%nat) ->
  match binary_search rows key fuel left right with
  | Some i => exists r, rows !! i = Some r /\ r.1 = key
  | None => forall i r, rows !! i = Some r -> r.1 <> key
  end.
Proof.
  intros Hs. revert left right. induction fuel as [|fuel IH]; intros left right Hr Hf Hin; [lia|]. cbn [binary_search]. destruct (Nat.ltb_spec left right) as [Hlt|Hge].
  - set (mid := (left + (right - left) / 2)%nat). assert (left <= mid < right)%nat as Hmid.
    { unfold mid. pose proof (Nat.div_lt (right - left) 2 ltac:(lia) ltac:(lia)). lia. }
    destruct (lookup_lt_is_Some_2 rows mid ltac:(lia)) as [row Hrow]. rewrite Hrow. destruct (String.compare row.1 key) eqn:Hc.
    + apply String.compare_eq_iff in Hc. eauto.
    + apply IH; [done|lia|]. intros i r Hi Hk. split; [|by apply (Hin i r)]. subst key. destruct (decide (S mid <= i)%nat); [done|]. exfalso.
      destruct (decide (i = mid)) as [->|Hne]; [assert (r = row) as -> by congruence; by apply compare_irrefl in Hc|].
      eapply compare_irrefl, compare_trans; [exact (Hs i mid r row ltac:(lia) Hi Hrow)|exact Hc].
    + apply IH; [lia|lia|]. intros i r Hi Hk. split; [by apply (Hin i r)|]. subst key. destruct (decide (i < mid)%nat); [done|]. exfalso. apply compare_gt in Hc.
      destruct (decide (i = mid)) as [->|Hne]; [assert (r = row) as -> by congruence; by apply compare_irrefl in Hc|].
      eapply compare_irrefl, compare_trans; [exact (Hs mid i row r ltac:(lia) Hrow Hi)|exact Hc].
  - intros i r Hi Hk. specialize (Hin i r Hi Hk). lia.
Qed.
Lemma vaults_sorted : rows_sorted METAMORPHO_UNDERLYING.
Proof. apply sorted_b_spec. by vm_compute. Qed.

(** The lookup of a vault by binary search finds exactly the rows of the table, one underlying
    asset a vault. *)
Theorem underlying_of_exact vault asset : underlying_of vault = Some asset <-> (vault, asset) ∈ METAMORPHO_UNDERLYING.
Proof.
  pose proof vaults_sorted as Hs. unfold underlying_of. revert Hs. generalize METAMORPHO_UNDERLYING. intros rows Hs.
  pose proof (binary_search_spec rows vault (S (length rows)) 0 (length rows) Hs ltac:(lia) ltac:(lia)) as H.
  destruct (binary_search _ _ _ _ _) as [i|]; cbn [mbind option_bind].
  - destruct H as ([v a] & Hi & Hv); [intros i' r Hr _; apply lookup_lt_Some in Hr; lia|]. cbn [fst] in Hv. subst v. rewrite Hi. cbn [mbind option_bind snd]. split.
    + intros [= ->]. by eapply list_elem_of_lookup_2.
    + intros [j Hj]%list_elem_of_lookup_1. destruct (decide (i = j)) as [->|Hne]; [congruence|]. exfalso.
      assert (String.compare vault vault = Lt) as Hc.
      { destruct (decide (i < j)%nat); [apply (Hs i j (vault, a) (vault, asset)); done|apply (Hs j i (vault, asset) (vault, a)); [lia|done|done]]. }
      by apply compare_irrefl in Hc.
  - split; [done|]. intros [j Hj]%list_elem_of_lookup_1. exfalso. by apply (H ltac:(intros i' r Hr _; apply lookup_lt_Some in Hr; lia) j _ Hj).
Qed.

(** ** Identifiers are hashes of ABI words *)
Lemma hex_encode_app a b : hex_encode (a ++ b) = (hex_encode a +:+ hex_encode b)%string.
Proof. induction a as [|x a IH]; [done|]. cbn [app hex_encode fold_right]. change (fold_right _ _ (a ++ b)) with (hex_encode (a ++ b)). by rewrite IH, app_assoc_str. Qed.
Lemma hex_digits_mod2 z : hex_digits 2 (z mod 256) = hex_digits 2 z.
Proof.
  cbn [hex_digits]. assert ((z mod 256) mod 16 = z mod 16) as -> by (symmetry; apply Znumtheory.Zmod_div_mod; [lia|lia|by exists 16]).
  assert ((z mod 256) / 16 mod 16 = z / 16 mod 16) as ->; [|done]. rewrite (Z.mod_eq z 256) by lia.
  replace (z - 256 * (z / 256)) with (z + (- (16 * (z / 256))) * 16) by lia. rewrite Z.div_add by lia.
  replace (z / 16 + - (16 * (z / 256))) with (z / 16 + (- (z / 256)) * 16) by lia. by rewrite Z.mod_add.
Qed.
Lemma hex_encode_to_be n z : hex_encode (to_be n z) = hex_digits (2 * n) z.
Proof.
  revert z. induction n as [|n IH]; intros z; [done|]. cbn [to_be]. rewrite hex_encode_app, IH. replace (2 * S n)%nat with (S (S (2 * n))) by lia. cbn [hex_digits hex_encode fold_right].
  rewrite app_nil_str. pose proof (hex_digits_mod2 z) as H. cbn [hex_digits] in H. rewrite !nil_app_str in *. rewrite H, Z.div_div by lia. change (16 * 16) with 256. by rewrite app_assoc_str.
Qed.
Lemma to_be_zero n : to_be n 0 = repeat 0 n.
Proof. induction n as [|n IH]; [done|]. cbn [to_be]. change (0 / 256) with 0. rewrite IH. change (0 mod 256) with 0. by rewrite <- repeat_cons. Qed.
Lemma to_be_minus_one n : to_be n (-1) = repeat 0xff n.
Proof. induction n as [|n IH]; [done|]. cbn [to_be]. change (-1 / 256) with (-1). rewrite IH. change (-1 mod 256) with 0xff. by rewrite <- repeat_cons. Qed.
Lemma drop_to_be m n z : drop m (to_be (m + n) z) = to_be n z.
Proof. rewrite to_be_split. apply drop_app_length'. by rewrite to_be_length. Qed.
Section Words.
Context {T0 : AlloyText} {L0 : AlloyTextLaws T0}.
Lemma decode_address a : hex_decode (hex_body (lowercase_hex a)) = Some (to_be 20 a).
Proof.
  unfold hex_body, lowercase_hex. rewrite strip_prefix_app. cbn [from_option id]. change 40%nat with (2 * 20)%nat. rewrite <- hex_encode_to_be.
  apply hex_round_trip, to_be_ok.
Qed.
Lemma address_word a : addr160 a -> write_address_word (lowercase_hex a) = Some (to_be 32 a).
Proof.
  intros [H0 H1]. unfold write_address_word. rewrite decode_address. cbn [mbind option_bind]. rewrite to_be_length. cbn [Nat.eqb].
  change (to_be 32 a) with (to_be (12 + 20) a). rewrite to_be_split. change (256 ^ Z.of_nat 20) with (2 ^ 160). by rewrite Z.div_small, to_be_zero by lia.
Qed.
Lemma low3_eq z : low3 z = to_be 3 z.
Proof. exact (drop_to_be 5 3 z). Qed.
Lemma word_low3 z : to_be 32 z = to_be 29 (z / 2 ^ 24) ++ low3 z.
Proof. rewrite low3_eq. exact (to_be_split 29 3 z). Qed.
Lemma fee_word z : 0 <= z < 2 ^ 24 -> repeat 0 29 ++ low3 z = to_be 32 z.
Proof. intros Hz. by rewrite word_low3, Z.div_small, to_be_zero by lia. Qed.
Lemma spacing_word z : - 2 ^ 23 <= z < 2 ^ 23 -> repeat (if z <? 0 then 0xff else 0) 29 ++ low3 z = to_be 32 z.
Proof.
  intros Hz. destruct (Z.ltb_spec z 0); [|apply fee_word; lia]. rewrite word_low3. assert (z / 2 ^ 24 = -1) as ->; [|by rewrite to_be_minus_one].
  symmetry. apply Z.div_unique with (z + 2 ^ 24); lia.
Qed.

(** Identifiers are the hash of the ABI encoding. For decoded addresses, a 24-bit fee and a
    signed 24-bit tick spacing the pool id is the Keccak digest of the five words of the
    pool key, the spacing in two's complement; the id of a Morpho market is the digest of
    its five parameters. *)
Theorem hashed_ids_abi a b c d fee spacing lltv :
  addr160 a -> addr160 b -> addr160 c -> addr160 d -> 0 <= fee < 2 ^ 24 -> - 2 ^ 23 <= spacing < 2 ^ 23 -> u256 lltv ->
  compute_v4_pool_id (lowercase_hex a) (lowercase_hex b) (VNumber (IntNum fee)) (VNumber (IntNum spacing)) (lowercase_hex c)
    = Some (hex32 (to_be 32 a ++ to_be 32 b ++ to_be 32 fee ++ to_be 32 spacing ++ to_be 32 c)) /\
  compute_morpho_market_id [VString (lowercase_hex a); VString (lowercase_hex b); VString (lowercase_hex c); VString (lowercase_hex d); uint_string lltv]
    = Some (hex32 (to_be 32 a ++ to_be 32 b ++ to_be 32 c ++ to_be 32 d ++ to_be 32 lltv)).
Proof.
  intros Ha Hb Hc Hd Hf Hs Hl. split.
  - unfold compute_v4_pool_id. rewrite !address_word by done. cbn [mbind option_bind as_u64 as_i64 number_as_i64].
    rewrite (proj2 (Z.leb_le 0 fee)), (proj2 (Z.leb_le fee U64_MAX)) by (unfold U64_MAX; lia). cbn [andb mbind option_bind].
    rewrite (proj2 (Z.leb_le _ spacing)), (proj2 (Z.ltb_lt spacing _)) by lia. cbn [andb mbind option_bind]. by rewrite fee_word, spacing_word.
  - unfold compute_morpho_market_id. cbn [lookup list_lookup mbind option_bind as_str]. rewrite !address_word by done. cbn [mbind option_bind]. unfold write_u256_word, uint_string.
    by rewrite radix_decimal.
Qed.

(** The derived pool does not depend on the order of the two tokens. *)
Lemma sort_pair_comm a b : Forall byte_ok a -> Forall byte_ok b -> length a = length b -> sort_pair a b = sort_pair b a.
Proof.
  intros Ha Hb Hl. unfold sort_pair. destruct (Z.leb_spec (from_be a) (from_be b)), (Z.leb_spec (from_be b) (from_be a)); try done; try lia.
  assert (from_be a = from_be b) as He by lia. apply to_from_be in Ha, Hb. rewrite He, Hl, Hb in Ha. by subst.
Qed.
Lemma parse_fixed_ok n s b : parse_fixed n s = Some b -> Forall byte_ok b /\ length b = n.
Proof.
  unfold parse_fixed. destruct (hex_decode _) as [x|] eqn:Hx; [|done]. cbn [mbind option_bind]. destruct (Nat.eqb_spec (length x) n); [|done]. intros [= <-].
  split; [by eapply hex_range|done].
Qed.
Theorem pool_order_irrelevant chain_id ta tb fee :
  compute_uniswap_v3_pool chain_id ta tb fee = compute_uniswap_v3_pool chain_id tb ta fee /\
  compute_uniswap_v2_pair chain_id ta tb = compute_uniswap_v2_pair chain_id tb ta.
Proof.
  unfold compute_uniswap_v3_pool, compute_uniswap_v2_pair, parse_addr20. split.
  all: match goal with |- (f ← ?x; _) = _ => destruct x; [|done] end; cbn [mbind option_bind]; destruct (parse_bytes32 _); [|done]; cbn [mbind option_bind].
  all: destruct (parse_fixed 20 ta) as [a|] eqn:Ha, (parse_fixed 20 tb) as [b|] eqn:Hb; try done; cbn [mbind option_bind].
  all: apply parse_fixed_ok in Ha as [Ha La], Hb as [Hb Lb]; by rewrite (sort_pair_comm a b) by (done || congruence).
Qed.
End Words.
Lemma hashed_ids_abi_witness :
  compute_v4_pool_id (T0 := demo_text) (lowercase_hex 1) (lowercase_hex 2) (VNumber (IntNum 3000)) (VNumber (IntNum (-60))) (lowercase_hex 0)
    = Some (hex32 (T0 := demo_text) (to_be 32 1 ++ to_be 32 2 ++ to_be 32 3000 ++ to_be 32 (-60) ++ to_be 32 0)).
Proof.
  apply (hashed_ids_abi (T0 := demo_text) (L0 := demo_text_laws) 1 2 0 0 3000 (-60) 0); unfold addr160, u256, U256_MAX; lia.
Defined.
End DecodeDerive.
