(* ===== verification/DecodeStream.v ===== *)
(** * Streams and tagged batches (dambi-core/src/decode/mod.rs)

    The emit strategies that read a payload piece by piece: opcode streams with
    nested streams, one tagged action, and parallel arrays of tags and data. A
    nested stream is read by the same routine against the table its entry holds;
    the recursion is bounded by the manifest, so the size of the table is enough
    fuel. *)
From Stdlib Require Import Ascii.
From stdpp Require Import base tactics numbers list strings gmap pretty.
From S2P Require Import Prelude Types Bytes AbiDecode Apply PackedPayloads SyncLive PolicyEngine PolicyRpc BundleFormat BundleTrust SessionInput PolicyRuntime MapperText MapperFn MapperBuild DecodeDerive.
Import SyncLive.

Module DecodeStream.
Import AbiDecode PackedPayloads PolicyEngine PolicyRpc BundleFormat BundleTrust SessionInput PolicyRuntime MapperText MapperFn MapperBuild DecodeDerive.

Notation routed A := (result EngineErrorDto A).
Definition build_failed (message : string) : EngineErrorDto := mkEngineErrorDto "build_multicall_failed" message.
Definition invalid_bundle (message : string) : EngineErrorDto := mkEngineErrorDto "invalid_bundle" message.
(** A string member of an object, and one with a default. *)
Definition str_member (v : Value) (k : string) : option string := x ← value_get v k; as_str x.
Definition str_or (v : Value) (k d : string) : string := default d (str_member v k).
Definition parse_hex_u8 (raw field : string) : routed Z :=
  ok_or (invalid_bundle "invalid {field} hex u8 {raw:?}: {error}") (from_hex_radix 255 (hex_body raw)).
Definition policy_of (v : Value) : UnknownOpcodePolicy :=
  let p := str_or v "unknown_opcode_policy" "warn" in
  if String.eqb p "deny" then PolicyDeny else if String.eqb p "skip" then PolicySkip else PolicyWarn.
Definition unknown_leg (target : Address) (chain calldata : string) (value : U256) : ActionBody := UnknownCall target chain calldata value.
Definition ctx_unknown (ctx : V3MapContext) : ActionBody := unknown_leg (mx_tx_to ctx) (mx_chain ctx) (mx_raw_calldata ctx) (mx_value ctx).
Fixpoint body_has_unknown (b : ActionBody) : bool :=
  match b with
  | UnknownCall _ _ _ _ => true
  | Multicall actions => existsb body_has_unknown actions
  | _ => false
  end.

Section Stream.
Context {T0 : AlloyText} {A0 : Alloy} {S0 : ActionSerde}.
Definition parse_v3_address (raw field : string) : routed Address :=
  ok_or (mkEngineErrorDto "invalid_input_json" "invalid {field} address {raw:?}: {error}") (address_from_str raw).
Definition parse_v3_u256 (raw field : string) : routed U256 :=
  if String.eqb raw "" then Ok 0
  else ok_or (mkEngineErrorDto "invalid_input_json" "invalid {field} decimal {raw:?}: {error}") (u256_from_str_radix raw 10).
Definition unknown_child_leg (chain_id : Z) (target calldata value context : string) : routed ActionBody :=
  target ← map_err (fun e => build_failed (ee_message e)) (parse_v3_address target context);
  value ← map_err (fun e => build_failed (ee_message e)) (parse_v3_u256 value context);
  Ok (unknown_leg target ("eip155:" +:+ pretty chain_id)%string calldata value).

(** ** Inputs of one opcode *)
Definition decode_inputs_abi_tuple (inputs_abi : string) (input_bytes : bytes) : result string Value :=
  f ← lift_err (fun _ => "parse {inputs_abi:?}: {error}"%string) (fn_parse ("step" +:+ inputs_abi)%string);
  decoded ← map_err (fun _ => "decode {inputs_abi:?}: {error}"%string) (decode_with_function f (fn_selector f ++ input_bytes));
  obj ← foldM (fun o arg =>
    converted ← map_err (fun _ => "convert {inputs_abi:?}.{}: {error}"%string) (convert_arg arg);
    Ok (obj_insert o (ma_name converted) (decoded_value_to_json_typed (ma_value converted) (ma_abi_type converted)))) (dc_args decoded) [];
  Ok (VObject obj).
(** A panic of a decoder is a panic of the lookup. *)
Fixpoint first_decoded (sigs : list string) (input_bytes : bytes) : routed (option Value) :=
  match sigs with
  | [] => Ok None
  | sig :: rest =>
      match decode_inputs_abi_tuple sig input_bytes with
      | Ok v => Ok (Some v)
      | Err _ => first_decoded rest input_bytes
      | Panic => Panic
      end
  end.
Definition decode_inputs_for_opcode_entry (entry : Value) (input_bytes : bytes) : routed (option Value) :=
  let primary := str_member entry "inputs_abi" in
  let alternatives := default [] (v ← value_get entry "inputs_abi_alternatives"; as_array v) in
  first_decoded (option_list primary ++ omap as_str alternatives) input_bytes.
(** [insert(name, index)] of a member of [params], nothing when it is missing. *)
Definition mirror (params : list Value) (obj : list (string * Value)) (ni : string * nat) : list (string * Value) :=
  match params !! ni.2 with Some v => obj_insert obj ni.1 v | None => obj end.
Definition mirror_last (params : list Value) (name : string) (obj : list (string * Value)) : list (string * Value) :=
  match last params with Some v => obj_insert obj name v | None => obj end.
Definition maybe_normalize_v4_swap_params (decoded : Value) (opcode_key : string) : Value :=
  match decoded with
  | VObject obj =>
      match (v ← obj_get obj "params"; as_array v) with
      | Some params =>
          let put := fold_left (mirror params) in
          let has_min_hop := (length params =? 5)%nat in
          VObject
            (if String.eqb opcode_key "0x06" then
               mirror_last params "hookData" (put [("poolKey", 0); ("zeroForOne", 1); ("amountIn", 2); ("amountOutMinimum", 3)]%nat obj)
             else if String.eqb opcode_key "0x07" then
               if has_min_hop
               then put [("currencyIn", 0); ("path", 1); ("minHopPriceX36", 2); ("amountIn", 3); ("amountOutMinimum", 4)]%nat obj
               else put [("currencyIn", 0); ("path", 1); ("amountIn", 2); ("amountOutMinimum", 3)]%nat obj
             else if String.eqb opcode_key "0x08" then
               mirror_last params "hookData" (put [("poolKey", 0); ("zeroForOne", 1); ("amountOut", 2); ("amountInMaximum", 3)]%nat obj)
             else if String.eqb opcode_key "0x09" then
               if has_min_hop
               then put [("currencyOut", 0); ("path", 1); ("minHopPriceX36", 2); ("amountOut", 3); ("amountInMaximum", 4)]%nat obj
               else put [("currencyOut", 0); ("path", 1); ("amountOut", 2); ("amountInMaximum", 3)]%nat obj
             else obj)
      | None => decoded
      end
  | _ => decoded
  end.
Fixpoint decode_stream_loop (table : list (string * Value)) (commands : bytes) (mask : Z) (i : nat) (inputs : list Value) : routed (list Value) :=
  match inputs with
  | [] => Ok []
  | input_hex :: rest =>
      input_hex_str ← ok_or (mkEngineErrorDto "invalid_inputs" "inputs[{i}] not string") (as_str input_hex);
      input_bytes ← ok_or (mkEngineErrorDto "invalid_inputs_hex" "inputs[{i}]: {error}") (hex_decode (hex_body input_hex_str));
      opcode_byte ← ok_or (mkEngineErrorDto "invalid_commands" "commands shorter than inputs at {i}") (commands !! i);
      let key := opcode_key (Z.land opcode_byte mask) in
      decoded ← match obj_get table key with
                | Some entry => decode_inputs_for_opcode_entry entry input_bytes
                | None => Ok None
                end;
      let decoded := maybe_inject_v4_pool_id (maybe_normalize_v4_swap_params (default VNull decoded) key) in
      more ← decode_stream_loop table commands mask (S i) rest;
      Ok (decoded :: more)
  end.
Definition decode_stream_inputs (table : list (string * Value)) (commands : bytes) (inputs : list Value) (mask : Z) : routed (list Value) :=
  decode_stream_loop table commands mask 0 inputs.

(** ** Opcode streams *)
Definition child_ctx (ctx : V3MapContext) (inputs : option Value) : V3MapContext :=
  mkV3MapContext (mx_chain ctx) (mx_tx_to ctx) (mx_tx_from ctx) (mx_value ctx) (mx_submitted_at ctx) (mx_args_json ctx)
    (mx_raw_calldata ctx) (mx_resolved ctx) (rederive_for_child (mx_derived ctx) inputs) inputs.
(** What a stream is read against. *)
Record StreamSpec := mkStreamSpec {
  st_table : list (string * Value); st_commands : bytes; st_inputs : list Value; st_mask : Z; st_policy : UnknownOpcodePolicy }.
(** The inner stream of a nested entry, from the decoded input of its opcode. *)
Definition nested_stream (nested : Value) (parent_input : option Value) : routed StreamSpec :=
  inner_per_opcode ← ok_or (invalid_bundle "{opcode_key}.nested missing per_opcode_body") (v ← value_get nested "per_opcode_body"; as_object v);
  inner_mask ← parse_hex_u8 (str_or nested "mask" "0xff") "nested.mask";
  _ ← parse_hex_u8 (str_or nested "allow_revert_bit" "0x00") "nested.allow_revert_bit";
  let inner_policy := policy_of nested in
  let actions_field := default "actions"%string (strip_prefix "$inputs." (str_or nested "inner_actions_source" "$inputs.actions")) in
  let params_field := default "params"%string (strip_prefix "$inputs." (str_or nested "inner_params_source" "$inputs.params")) in
  parent_obj ← ok_or (mkEngineErrorDto "invalid_nested_input" "{opcode_key}.nested: parent input did not abi-decode to an object") (p ← parent_input; as_object p);
  actions_hex ← ok_or (mkEngineErrorDto "invalid_nested_input" "{opcode_key}.nested: missing inner action bytes `{actions_field}`")
    (v ← obj_get parent_obj actions_field; as_str v);
  inner_commands ← ok_or (mkEngineErrorDto "invalid_nested_input" "{opcode_key}.nested: inner actions not hex: {error}") (hex_decode (hex_body actions_hex));
  inner_params ← ok_or (mkEngineErrorDto "invalid_nested_input" "{opcode_key}.nested: missing inner param array `{params_field}`")
    (v ← obj_get parent_obj params_field; as_array v);
  inner_decoded ← decode_stream_inputs inner_per_opcode inner_commands inner_params inner_mask;
  Ok (mkStreamSpec inner_per_opcode inner_commands inner_decoded inner_mask inner_policy).
(** One command: no leg for a skipped opcode. [dispatch] reads an inner stream. *)
Definition stream_leg (dispatch : StreamSpec -> routed ActionBody) (ctx : V3MapContext) (table : list (string * Value)) (inputs : list Value)
    (mask : Z) (policy : UnknownOpcodePolicy) (i : nat) (raw_byte : Z) : routed (option ActionBody) :=
  match obj_get table (opcode_key (Z.land raw_byte mask)) with
  | None =>
      match policy with
      | PolicyDeny => Err (build_failed "unknown opcode 0x{opcode:02x} (policy: deny)")
      | PolicyWarn => Ok (Some (ctx_unknown ctx))
      | PolicySkip => Ok None
      end
  | Some entry =>
      let inputs_for_this := inputs !! i in
      match value_get entry "nested" with
      | Some nested => inner ← nested_stream nested inputs_for_this; child ← dispatch inner; Ok (Some child)
      | None =>
          body_template ← ok_or (build_failed "{opcode_key}.body missing") (value_get entry "body");
          child ← map_err (fun _ => build_failed "{error}") (build_action_body (child_ctx ctx inputs_for_this) body_template None);
          Ok (Some child)
      end
  end.
Fixpoint stream_loop (leg : nat -> Z -> routed (option ActionBody)) (i : nat) (commands : bytes) : routed (list ActionBody) :=
  match commands with
  | [] => Ok []
  | raw_byte :: rest => l ← leg i raw_byte; more ← stream_loop leg (S i) rest; Ok (option_list l ++ more)
  end.
Definition wrap_actions (ctx : V3MapContext) (actions : list ActionBody) : ActionBody :=
  match actions with [] => ctx_unknown ctx | _ => Multicall actions end.
(** The depth is a [u32]; it counts the nested entries above, a fuel round each. *)
Fixpoint dispatch_stream (fuel : nat) (ctx : V3MapContext) (depth max_depth : Z) (s : StreamSpec) : routed ActionBody :=
  match fuel with
  | O => Panic
  | S fuel =>
      if max_depth <? depth then Err (mkEngineErrorDto "max_depth_exceeded" "opcode_stream recursion exceeded max_depth={max_depth} at depth={depth}")
      else
        actions ← stream_loop (stream_leg (dispatch_stream fuel ctx (depth + 1) max_depth) ctx (st_table s) (st_inputs s) (st_mask s) (st_policy s)) 0 (st_commands s);
        Ok (wrap_actions ctx actions)
  end.
Definition stream_fuel (s : StreamSpec) : nat := S (fields_size (st_table s)).
Definition dispatch_opcode_stream (ctx : V3MapContext) (s : StreamSpec) (depth max_depth : Z) : routed ActionBody :=
  dispatch_stream (stream_fuel s) ctx depth max_depth s.
(** [build_nested_multicall], one level deeper. *)
Definition build_nested_multicall (ctx : V3MapContext) (nested : Value) (parent_input : option Value) (depth max_depth : Z) : routed ActionBody :=
  inner ← nested_stream nested parent_input;
  dispatch_opcode_stream ctx inner (depth + 1) max_depth.
Definition decode_v4_unlock_data (ctx : V3MapContext) (src : string) : result string (bytes * list Value) :=
  unlock_hex ← map_err (fun _ => "resolve {src:?}: {error}"%string) (substitute_placeholders ctx (VString src));
  unlock_str ← ok_or "{src:?} did not resolve to a bytes hex string"%string (as_str unlock_hex);
  unlock_bytes ← ok_or "unlockData not hex: {error}"%string (hex_decode (hex_body unlock_str));
  decoded ← decode_inputs_abi_tuple "(bytes actions, bytes[] params)" unlock_bytes;
  actions_str ← ok_or "decoded unlockData missing `actions` bytes"%string (v ← value_get decoded "actions"; as_str v);
  actions_bytes ← ok_or "actions not hex: {error}"%string (hex_decode (hex_body actions_str));
  params ← ok_or "decoded unlockData missing `params` array"%string (v ← value_get decoded "params"; as_array v);
  if negb (length actions_bytes =? length params)%nat then Err "InputLengthMismatch: {} actions vs {} params"%string
  else Ok (actions_bytes, params).

(** ** Tagged actions *)
Definition UNKNOWN_TEMPLATE : Value :=
  VObject [("domain", VString "unknown");
           ("unknown", VObject [("target", VString "$to"); ("chain", VString "$chain"); ("calldata", VString "$calldata"); ("value", VString "$tx.value")])]%string.
Definition action_failed (e : V3BuildError) : EngineErrorDto := mkEngineErrorDto "build_action_body_failed" "{error}".
(** [data.get(start..end)] on 64-bit indices. *)
Definition get_range (data : bytes) (from to : Z) : option bytes :=
  if (from <=? to) && (to <=? Z.of_nat (length data)) then Some (take (Z.to_nat (to - from)) (drop (Z.to_nat from) data)) else None.
Definition decoded_or_null (sig : option string) (input : bytes) : routed Value :=
  match sig with
  | None => Ok VNull
  | Some sig => match decode_inputs_abi_tuple sig input with Ok v => Ok v | Err _ => Ok VNull | Panic => Panic end
  end.
Definition tag_value (tag : bytes) : Z := fold_left (fun acc b => Z.lor (Z.shiftl acc 8 mod 2 ^ 64) b) tag 0.
Definition tagged_fallback (ctx : V3MapContext) (per_action_body : list (string * Value)) : routed ActionBody :=
  match obj_get per_action_body "default" with
  | Some default_entry =>
      body_template ← ok_or (invalid_bundle "emit.per_action_body.default missing body") (value_get default_entry "body");
      map_err action_failed (build_action_body ctx body_template (value_get default_entry "live_inputs"))
  | None => map_err action_failed (build_action_body ctx UNKNOWN_TEMPLATE None)
  end.
Definition usize_member (v : Value) (k : string) (d : Z) : Z := default d (x ← value_get v k; as_u64 x).
Definition build_tagged_dispatch (ctx : V3MapContext) (emit : Value) : routed ActionBody :=
  per_action_body ← ok_or (invalid_bundle "missing emit.per_action_body") (v ← value_get emit "per_action_body"; as_object v);
  bytes_source ← ok_or (invalid_bundle "missing emit.bytes_source") (str_member emit "bytes_source");
  bytes_hex_val ← map_err (fun _ => mkEngineErrorDto "invalid_bytes_source" "{error}") (substitute_placeholders ctx (VString bytes_source));
  bytes_hex ← ok_or (mkEngineErrorDto "invalid_bytes_source" "emit.bytes_source {bytes_source:?} did not resolve to a hex string") (as_str bytes_hex_val);
  data ← ok_or (mkEngineErrorDto "invalid_bytes_source" "emit.bytes_source not hex: {error}") (hex_decode (hex_body bytes_hex));
  version_byte ← parse_hex_u8 (str_or emit "version_byte" "0x01") "emit.version_byte";
  let tag_offset := usize_member emit "tag_offset" 1 in
  let tag_size := usize_member emit "tag_size" 3 in
  if negb match head data with Some v => v =? version_byte | None => false end then tagged_fallback ctx per_action_body
  else
    let tag_end := Z.min (tag_offset + tag_size) U64_MAX in
    match get_range data tag_offset tag_end with
    | None => tagged_fallback ctx per_action_body
    | Some tag_bytes =>
        if (tag_size =? 0) || (8 <? tag_size) then Err (invalid_bundle "emit.tag_size must be 1..=8, got {tag_size}")
        else
          match obj_get per_action_body (pretty (tag_value tag_bytes)) with
          | None => tagged_fallback ctx per_action_body
          | Some action_entry =>
              body_template ← ok_or (invalid_bundle "emit.per_action_body.{action_key} missing body") (value_get action_entry "body");
              decoded ← decoded_or_null (str_member action_entry "inputs_abi") (default [] (get_range data tag_end (Z.of_nat (length data))));
              map_err action_failed (build_action_body (child_ctx ctx (Some decoded)) body_template (value_get action_entry "live_inputs"))
          end
    end.

(** ** Parallel tags *)
Definition trim_zeros (b : bytes) : bytes := fold_right (fun x acc => match acc with [] => if x =? 0 then [] else [x] | _ => x :: acc end) [] b.
Definition derive_tag_key (tag : Value) (encoding : string) : result string string :=
  if String.eqb encoding "bytes32_ascii" then
    s ← ok_or "bytes32_ascii tag must be a hex string, got {tag}"%string (as_str tag);
    b ← ok_or "bytes32_ascii tag {s:?} not hex: {error}"%string (hex_decode (hex_body s));
    let text := trim_zeros b in
    if utf8_valid text then Ok (string_of_bytes text) else Err "bytes32_ascii tag {s:?} not UTF-8: {error}"%string
  else if String.eqb encoding "bytes32_hex" then
    s ← ok_or "bytes32_hex tag must be a hex string, got {tag}"%string (as_str tag);
    Ok ("0x" +:+ to_ascii_lowercase (hex_body s))%string
  else if String.eqb encoding "uint" then
    match tag with
    | VNumber n => Ok (number_to_string n)
    | VString s =>
        let s := trim s in
        match strip_prefix "0x" s with
        | Some hex => v ← ok_or "uint tag {s:?} not hex/in-range: {error}"%string (from_hex_radix U128_MAX hex); Ok (pretty v)
        | None => Ok s
        end
    | _ => Err "uint tag must be a number or string, got {other}"%string
    end
  else Err "unknown tag_encoding {other:?} (expected bytes32_ascii|bytes32_hex|uint)"%string.
Definition resolve_field (chain_id : Z) (decoded : Value) (m : Derived) (rf : string * string) : Derived :=
  match (addr ← str_member decoded rf.2; resolve_named chain_id rf.1 addr) with
  | Some asset => <[rf.1 := VString asset]> m
  | None => m
  end.
Definition element_ctx (ctx : V3MapContext) (chain_id : Z) (resolve_from_inputs : list (string * string)) (decoded : Value) : V3MapContext :=
  mkV3MapContext (mx_chain ctx) (mx_tx_to ctx) (mx_tx_from ctx) (mx_value ctx) (mx_submitted_at ctx) (mx_args_json ctx) (mx_raw_calldata ctx)
    (fold_left (resolve_field chain_id decoded) resolve_from_inputs (mx_resolved ctx)) (rederive_for_child (mx_derived ctx) (Some decoded)) (Some decoded).
Definition tag_entry (per_tag : list (string * Value)) (key : string) : option Value := first_some (obj_get per_tag key) (obj_get per_tag "default").
Definition tagged_element (ctx : V3MapContext) (chain_id : Z) (per_tag : list (string * Value)) (tag_encoding : string) (deny_unknown : bool)
    (resolve_from_inputs : list (string * string)) (tag_val data_item : Value) : routed ActionBody :=
  key ← map_err (fun _ => mkEngineErrorDto "invalid_tag" "parallel_tagged_dispatch element #{index}: {error}") (derive_tag_key tag_val tag_encoding);
  match tag_entry per_tag key with
  | None =>
      if deny_unknown
      then Err (mkEngineErrorDto "unknown_tag" "parallel_tagged_dispatch element #{index}: tag {key:?} absent from per_tag (unknown_tag_policy=deny)")
      else map_err action_failed (build_action_body ctx UNKNOWN_TEMPLATE None)
  | Some entry =>
      body_template ← ok_or (invalid_bundle "parallel_tagged_dispatch per_tag {key:?} missing body") (value_get entry "body");
      data_hex ← ok_or (mkEngineErrorDto "invalid_data_source" "parallel_tagged_dispatch element #{index}: data not a hex string") (as_str data_item);
      data_bytes ← ok_or (mkEngineErrorDto "invalid_data_source" "parallel_tagged_dispatch element #{index}: data not hex: {error}") (hex_decode (hex_body data_hex));
      decoded ← decoded_or_null (str_member entry "inputs_abi") data_bytes;
      map_err action_failed (build_action_body (element_ctx ctx chain_id resolve_from_inputs decoded) body_template (value_get entry "live_inputs"))
  end.
Definition DEFAULT_MAX_ELEMENTS : Z := 32.
Definition HARD_MAX_ELEMENTS : Z := 64.
Definition build_parallel_tagged_dispatch (ctx : V3MapContext) (emit : Value) (chain_id : Z) : routed ActionBody :=
  per_tag ← ok_or (invalid_bundle "missing emit.per_tag") (v ← value_get emit "per_tag"; as_object v);
  actions_source ← ok_or (invalid_bundle "missing emit.actions_source") (str_member emit "actions_source");
  data_source ← ok_or (invalid_bundle "missing emit.data_source") (str_member emit "data_source");
  tag_encoding ← ok_or (invalid_bundle "missing emit.tag_encoding") (str_member emit "tag_encoding");
  let max_elements := usize_member emit "max_elements" DEFAULT_MAX_ELEMENTS in
  if (max_elements =? 0) || (HARD_MAX_ELEMENTS <? max_elements) then Err (invalid_bundle "emit.max_elements must be 1..={HARD_MAX_ELEMENTS}, got {max_elements}")
  else
    let deny_unknown := bool_decide (str_member emit "unknown_tag_policy" = Some "deny"%string) in
    let resolve_from_inputs :=
      omap (fun kv => s ← as_str kv.2; Some (kv.1, s)) (default [] (v ← value_get emit "resolve_from_inputs"; as_object v)) in
    tags_val ← map_err (fun _ => mkEngineErrorDto "invalid_actions_source" "{error}") (substitute_placeholders ctx (VString actions_source));
    tags ← ok_or (mkEngineErrorDto "invalid_actions_source" "emit.actions_source {actions_source:?} did not resolve to an array") (as_array tags_val);
    data_val ← map_err (fun _ => mkEngineErrorDto "invalid_data_source" "{error}") (substitute_placeholders ctx (VString data_source));
    data ← ok_or (mkEngineErrorDto "invalid_data_source" "emit.data_source {data_source:?} did not resolve to an array") (as_array data_val);
    if negb (length tags =? length data)%nat then Err (invalid_bundle "parallel_tagged_dispatch: actions[] len {} != data[] len {}")
    else if max_elements <? Z.of_nat (length tags) then Err (invalid_bundle "parallel_tagged_dispatch: element count {} exceeds cap {max_elements}")
    else
      actions ← collectM (fun td => tagged_element ctx chain_id per_tag tag_encoding deny_unknown resolve_from_inputs td.1 td.2) (zip tags data);
      Ok (Multicall actions).
End Stream.

(** ** Reading a stream, as a relation *)
Section Reads.
Context {T0 : AlloyText} {A0 : Alloy} {S0 : ActionSerde}.
Definition entry_at (s : StreamSpec) (byte : Z) : option Value := entry_of (st_table s) (st_mask s) byte.
(** [StreamReads depth s b]: the stream reads as the body; [LegReads] gives what one command
    contributes. *)
Inductive StreamReads (ctx : V3MapContext) (max_depth : Z) : Z -> StreamSpec -> ActionBody -> Prop :=
| stream_reads depth s legs : depth <= max_depth ->
    Forall2 (fun step leg => LegReads ctx max_depth depth s step leg) (steps_from 0 (st_commands s)) legs ->
    StreamReads ctx max_depth depth s (wrap_actions ctx (omap id legs))
with LegReads (ctx : V3MapContext) (max_depth : Z) : Z -> StreamSpec -> nat * Z -> option ActionBody -> Prop :=
| leg_unmapped depth s step : entry_at s step.2 = None -> st_policy s = PolicyWarn -> LegReads ctx max_depth depth s step (Some (ctx_unknown ctx))
| leg_skipped depth s step : entry_at s step.2 = None -> st_policy s = PolicySkip -> LegReads ctx max_depth depth s step None
| leg_built depth s step entry template child : entry_at s step.2 = Some entry -> value_get entry "nested" = None -> value_get entry "body" = Some template ->
    build_action_body (child_ctx ctx (st_inputs s !! step.1)) template None = Ok child -> LegReads ctx max_depth depth s step (Some child)
| leg_nested depth s step entry nested inner child : entry_at s step.2 = Some entry -> value_get entry "nested" = Some nested ->
    nested_stream nested (st_inputs s !! step.1) = Ok inner -> StreamReads ctx max_depth (depth + 1) inner child ->
    LegReads ctx max_depth depth s step (Some child).

Lemma map_err_ok {E F A} (f : E -> F) (r : result E A) a : map_err f r = Ok a <-> r = Ok a.
Proof. destruct r; cbn; naive_solver. Qed.
Lemma nested_table nested inp inner : nested_stream nested inp = Ok inner -> value_get nested "per_opcode_body" = Some (VObject (st_table inner)).
Proof.
  unfold nested_stream. intros H. apply bind_Ok_inv in H as (fs & Ht & H). repeat apply bind_Ok_inv in H as (? & _ & H). injection H as <-. cbn [st_table].
  destruct (value_get nested "per_opcode_body") as [v|]; [|done]. destruct v; try done. by injection Ht as ->.
Qed.
Lemma nested_smaller s byte entry nested inp inner : entry_at s byte = Some entry -> value_get entry "nested" = Some nested ->
  nested_stream nested inp = Ok inner -> (fields_size (st_table inner) < fields_size (st_table s))%nat.
Proof.
  intros He Hn Hs. apply nested_table in Hs. apply obj_get_size in He. destruct entry as [| | | | |efs]; try done. apply obj_get_size in Hn.
  destruct nested as [| | | | |nfs]; try done. apply obj_get_size in Hs. rewrite !object_size in *. lia.
Qed.
Lemma stream_loop_ext leg leg' k commands : (forall i b, leg i b = leg' i b) -> stream_loop leg k commands = stream_loop leg' k commands.
Proof. intros H. revert k. induction commands as [|b commands IH]; intros k; [done|]. cbn [stream_loop]. by rewrite H, IH. Qed.
Lemma stream_loop_iff leg k commands actions : stream_loop leg k commands = Ok actions <->
  exists legs, Forall2 (fun step l => leg step.1 step.2 = Ok l) (steps_from k commands) legs /\ actions = omap id legs.
Proof.
  revert k actions. induction commands as [|b commands IH]; intros k actions; cbn [stream_loop].
  - split; [intros [= <-]; by exists []|]. intros (legs & H & ->). by inversion H.
  - rewrite steps_cons. split.
    + destruct (leg k b) as [l|e|] eqn:Hl; [|done..]. cbn [mbind result_bind]. destruct (stream_loop leg (S k) commands) as [more|e|] eqn:Hm; [|done..].
      intros [= <-]. apply IH in Hm as (legs & HF & ->). exists (l :: legs). split; [by constructor|]. by destruct l.
    + intros (legs & HF & ->). inversion HF as [|? l ? legs' Hl HF']; subst. cbn [fst snd] in Hl. rewrite Hl. cbn [mbind result_bind].
      rewrite (proj2 (IH (S k) (omap id legs'))) by eauto. by destruct l.
Qed.
Lemma stream_leg_ext d d' ctx s i byte :
  (forall entry nested inner, entry_at s byte = Some entry -> value_get entry "nested" = Some nested -> nested_stream nested (st_inputs s !! i) = Ok inner -> d inner = d' inner) ->
  stream_leg d ctx (st_table s) (st_inputs s) (st_mask s) (st_policy s) i byte = stream_leg d' ctx (st_table s) (st_inputs s) (st_mask s) (st_policy s) i byte.
Proof.
  intros H. unfold stream_leg. fold (entry_of (st_table s) (st_mask s) byte). fold (entry_at s byte). destruct (entry_at s byte) as [entry|]; [|done].
  destruct (value_get entry "nested") as [nested|] eqn:Hn; [|done]. destruct (nested_stream nested _) as [inner|e|] eqn:Hs; [|done..]. cbn [mbind result_bind].
  by rewrite (H entry nested inner).
Qed.
Lemma dispatch_fuel ctx max_depth f : forall g depth s, (fields_size (st_table s) < f)%nat -> (fields_size (st_table s) < g)%nat ->
  dispatch_stream f ctx depth max_depth s = dispatch_stream g ctx depth max_depth s.
Proof.
  induction f as [|f IH]; intros [|g] depth s Hf Hg; [lia..|]. cbn [dispatch_stream]. destruct (max_depth <? depth); [done|].
  erewrite stream_loop_ext; [done|]. intros i b. cbn beta. apply stream_leg_ext. intros entry nested inner He Hn Hs. pose proof (nested_smaller s b entry nested _ inner He Hn Hs). apply IH; lia.
Qed.
Lemma leg_reads d ctx max_depth depth s step leg :
  (forall entry nested inner child, entry_at s step.2 = Some entry -> value_get entry "nested" = Some nested -> nested_stream nested (st_inputs s !! step.1) = Ok inner ->
    (d inner = Ok child <-> StreamReads ctx max_depth (depth + 1) inner child)) ->
  stream_leg d ctx (st_table s) (st_inputs s) (st_mask s) (st_policy s) step.1 step.2 = Ok leg <-> LegReads ctx max_depth depth s step leg.
Proof.
  intros H. unfold stream_leg. fold (entry_of (st_table s) (st_mask s) step.2). fold (entry_at s step.2). destruct (entry_at s step.2) as [entry|] eqn:He.
  - destruct (value_get entry "nested") as [nested|] eqn:Hn.
    + split.
      * destruct (nested_stream nested _) as [inner|e|] eqn:Hs; [|done..]. cbn [mbind result_bind]. destruct (d inner) as [child|e|] eqn:Hd; [|done..]. intros [= <-].
        eapply leg_nested; [done..|]. by eapply H.
      * intros Hl. inversion Hl as [? ? ? He' ?|? ? ? He' ?|? ? ? entry' ? ? He' Hn'|? ? ? entry' nested' inner child He' Hn' Hs Hr]; subst; rewrite He in He'; try done; injection He' as <-; rewrite Hn in Hn'; [done|].
        injection Hn' as <-. rewrite Hs. cbn [mbind result_bind]. by rewrite (proj2 (H entry nested inner child eq_refl Hn Hs) Hr).
    + split.
      * destruct (value_get entry "body") as [t|] eqn:Ht; cbn [ok_or mbind result_bind]; [|done]. destruct (build_action_body _ t None) as [child|e|] eqn:Hb; [|done..]. intros [= <-].
        by eapply leg_built.
      * intros Hl. inversion Hl as [? ? ? He' ?|? ? ? He' ?|? ? ? entry' t child He' Hn' Ht Hb|? ? ? entry' nested' inner child He' Hn' Hs Hr]; subst; rewrite He in He'; try done; injection He' as <-; [|congruence].
        rewrite Ht. cbn [ok_or mbind result_bind]. by rewrite Hb.
  - split.
    + destruct (st_policy s) eqn:Hp; [|done|]; intros [= <-]; [by apply leg_unmapped|by apply leg_skipped].
    + intros Hl. inversion Hl as [? ? ? He' Hp|? ? ? He' Hp|? ? ? entry' t child He'|? ? ? entry' ? ? ? He']; subst; try congruence; by rewrite Hp.
Qed.
Lemma Forall2_iff {A B} (P Q : A -> B -> Prop) l k : (forall x y, P x y <-> Q x y) -> Forall2 P l k <-> Forall2 Q l k.
Proof. intros H. split; intros HF; (eapply Forall2_impl; [exact HF|]); intros x y; apply H. Qed.
Lemma dispatch_reads ctx max_depth f : forall depth s b, (fields_size (st_table s) < f)%nat ->
  dispatch_stream f ctx depth max_depth s = Ok b <-> StreamReads ctx max_depth depth s b.
Proof.
  induction f as [|f IH]; intros depth s b Hf; [lia|]. cbn [dispatch_stream].
  assert (forall step leg, stream_leg (dispatch_stream f ctx (depth + 1) max_depth) ctx (st_table s) (st_inputs s) (st_mask s) (st_policy s) step.1 step.2 = Ok leg <->
    LegReads ctx max_depth depth s step leg) as Hleg.
  { intros step leg. apply leg_reads. intros entry nested inner child He Hn Hs. apply IH. pose proof (nested_smaller s _ entry nested _ inner He Hn Hs). lia. }
  destruct (Z.ltb_spec max_depth depth) as [Hd|Hd].
  - split; [done|]. intros Hr. inversion Hr. lia.
  - split.
    + destruct (stream_loop _ 0 (st_commands s)) as [actions|e|] eqn:Hl; [|done..]. intros [= <-]. apply stream_loop_iff in Hl as (legs & HF & ->).
      constructor; [done|]. by rewrite <- Forall2_iff.
    + intros Hr. inversion Hr as [? ? legs Hle HF]; subst. rewrite <- Forall2_iff in HF by exact Hleg.
      by rewrite (proj2 (stream_loop_iff _ _ _ (omap id legs))) by eauto.
Qed.

(** C26: Reading a stream terminates and is exact. With the size of its table as fuel, or with
    more, the dispatch gives one answer, and the body it gives is the one the reading relation
    gives: every command contributes, in its order, the body of its entry built on its own
    input, the body of the inner stream of a nested entry one level deeper, an Unknown leg or
    nothing as the policy says of an unmapped opcode. *)
Theorem stream_exact ctx s depth max_depth b :
  (dispatch_opcode_stream ctx s depth max_depth = Ok b <-> StreamReads ctx max_depth depth s b) /\
  (forall fuel, (stream_fuel s <= fuel)%nat -> dispatch_stream fuel ctx depth max_depth s = dispatch_opcode_stream ctx s depth max_depth).
Proof.
  unfold dispatch_opcode_stream, stream_fuel. split; [apply dispatch_reads; lia|]. intros fuel Hf. apply dispatch_fuel; lia.
Qed.

(** An opcode with no entry under the warn policy, at any level the reading reaches. *)
Inductive Unmapped : StreamSpec -> Prop :=
| unmapped_here s i byte : st_commands s !! i = Some byte -> entry_at s byte = None -> st_policy s = PolicyWarn -> Unmapped s
| unmapped_inner s i byte entry nested inner : st_commands s !! i = Some byte -> entry_at s byte = Some entry -> value_get entry "nested" = Some nested ->
    nested_stream nested (st_inputs s !! i) = Ok inner -> Unmapped inner -> Unmapped s.
Lemma wrap_unknown ctx actions : existsb body_has_unknown actions = true -> body_has_unknown (wrap_actions ctx actions) = true.
Proof. by destruct actions. Qed.
Lemma omap_id_in {A} (legs : list (option A)) x : Some x ∈ legs -> x ∈ omap id legs.
Proof. intros H. apply list_elem_of_omap. exists (Some x). by split. Qed.
Lemma wrap_leg ctx legs child : Some child ∈ legs -> body_has_unknown child = true -> body_has_unknown (wrap_actions ctx (omap id legs)) = true.
Proof. intros Hin Hu. apply wrap_unknown. apply existsb_exists. exists child. split; [|done]. by apply list_elem_of_In, omap_id_in. Qed.
Lemma reads_unmapped ctx max_depth s : Unmapped s -> forall depth b, StreamReads ctx max_depth depth s b -> body_has_unknown b = true.
Proof.
  induction 1 as [s i byte Hi He Hp|s i byte entry nested inner Hi He Hn Hs _ IH]; intros depth b Hr; inversion Hr as [? ? legs Hle HF]; subst;
    (destruct (Forall2_lookup_l _ _ _ i (i, byte) HF) as (leg & Hleg & HL); [unfold steps_from; by rewrite list_lookup_imap, Hi|]);
    apply list_elem_of_lookup_2 in Hleg;
    inversion HL as [? ? ? He' ?|? ? ? He' Hp'|? ? ? entry' t child He' Hn' Ht Hb|? ? ? entry' nested' inner' child He' Hn' Hs' Hr']; subst; cbn [fst snd] in *; try congruence.
  - by eapply wrap_leg.
  - rewrite He in He'. injection He' as <-. rewrite Hn in Hn'. injection Hn' as <-. rewrite Hs in Hs'. injection Hs' as <-. eapply wrap_leg; [done|]. by eapply IH.
Qed.
Lemma full_legs {A} (legs : list (option A)) : Forall (fun l => is_Some l) legs -> length (omap id legs) = length legs.
Proof. induction 1 as [|l legs [x ->] _ IH]; [done|]. cbn. by rewrite <- IH. Qed.

(** C27: A stream that is read hides no command. Its body is never an empty batch; unless the
    policy is to skip, a batch has a child for every command, in order; and when an opcode the
    reading reaches, in the stream or in a nested one, has no entry under the warn policy, the
    body contains an Unknown call, which no policy passes in silence. (Two comments of the
    source still describe warn as skipping; only the skip policy skips.) *)
Theorem stream_fail_closed ctx s depth max_depth b : dispatch_opcode_stream ctx s depth max_depth = Ok b ->
  b <> Multicall [] /\
  (st_commands s = [] -> b = ctx_unknown ctx) /\
  (st_policy s <> PolicySkip -> st_commands s <> [] -> exists children, b = Multicall children /\ length children = length (st_commands s)) /\
  (Unmapped s -> body_has_unknown b = true).
Proof.
  unfold dispatch_opcode_stream, stream_fuel. rewrite dispatch_reads by lia. intros Hr. split_and!; [| | |by intros H; eapply reads_unmapped].
  all: inversion Hr as [? ? legs Hle HF]; subst.
  - unfold wrap_actions. by destruct (omap id legs).
  - intros Hc. rewrite Hc in HF. by inversion HF.
  - intros Hp Hc. assert (length (omap id legs) = length (st_commands s)) as Hl.
    { rewrite full_legs, <- (Forall2_length _ _ _ HF); [unfold steps_from; by rewrite length_imap|].
      clear -HF Hp. induction HF as [|step leg steps legs HL _ IH]; constructor; [|done]. inversion HL; subst; eauto. done. }
    exists (omap id legs). split; [|done]. unfold wrap_actions. destruct (omap id legs); [|done]. by destruct (st_commands s).
Qed.

(** ** Tagged payloads *)
Lemma tag_value_be tag : Forall byte_ok tag -> (length tag <= 8)%nat -> tag_value tag = from_be tag.
Proof.
  induction tag as [|b tag IH] using rev_ind; [done|]. rewrite Forall_app, Forall_singleton, length_app. intros [Ht Hb] Hl. cbn [length] in Hl.
  unfold tag_value. rewrite fold_left_app. cbn [fold_left]. fold (tag_value tag). rewrite IH, from_be_snoc by (done || lia).
  pose proof (from_be_range tag Ht) as [H0 H1]. assert (from_be tag < 256 ^ 7).
  { eapply Z.lt_le_trans; [exact H1|]. apply Z.pow_le_mono_r; lia. }
  rewrite Z.mod_small; [apply lor_shift; [lia|exact Hb]|]. rewrite Z.shiftl_mul_pow2 by lia. lia.
Qed.
Lemma get_range_app a b c : get_range (a ++ b ++ c) (Z.of_nat (length a)) (Z.of_nat (length a + length b)) = Some b.
Proof.
  unfold get_range. rewrite !length_app, !(proj2 (Z.leb_le _ _)) by lia. cbn [andb]. replace (Z.to_nat (Z.of_nat (length a + length b) - Z.of_nat (length a))) with (length b) by lia.
  by rewrite Nat2Z.id, drop_app_length, take_app_length.
Qed.

(** A tagged payload selects the entry of its action id. For an envelope of a version byte,
    a prefix, an [n]-byte big-endian id and the encoded arguments, where the manifest gives
    that version, offset and size, the entry is the one keyed by the id in decimal, its
    inputs are decoded from exactly the bytes after the tag, and an id with no entry falls
    back; another version byte, or an empty payload, falls back whatever follows. *)
Theorem tagged_envelope_exact ctx emit table src text version prefix n id args :
  value_get emit "per_action_body" = Some (VObject table) -> str_member emit "bytes_source" = Some src ->
  substitute_placeholders ctx (VString src) = Ok (VString text) -> parse_hex_u8 (str_or emit "version_byte" "0x01") "emit.version_byte" = Ok version ->
  let data := version :: prefix ++ to_be n id ++ args in
  (hex_decode (hex_body text) = Some data -> usize_member emit "tag_offset" 1 = Z.of_nat (S (length prefix)) -> usize_member emit "tag_size" 3 = Z.of_nat n ->
   (1 <= n <= 8)%nat -> 0 <= id < 256 ^ Z.of_nat n -> Z.of_nat (length data) <= U64_MAX ->
   build_tagged_dispatch ctx emit =
     match obj_get table (pretty id) with
     | None => tagged_fallback ctx table
     | Some entry =>
         template ← ok_or (invalid_bundle "emit.per_action_body.{action_key} missing body") (value_get entry "body");
         decoded ← decoded_or_null (str_member entry "inputs_abi") args;
         map_err action_failed (build_action_body (child_ctx ctx (Some decoded)) template (value_get entry "live_inputs"))
     end) /\
  (forall other, hex_decode (hex_body text) = Some other -> head other <> Some version -> build_tagged_dispatch ctx emit = tagged_fallback ctx table).
Proof.
  intros Ht Hsrc Hsub Hv data. split.
  - intros Hd Ho Hn Hn8 Hid Hlen. unfold build_tagged_dispatch. rewrite Ht, Hsrc. cbn [mbind option_bind as_object ok_or result_bind]. rewrite Hsub. cbn [map_err mbind result_bind as_str ok_or].
    rewrite Hd. cbn [ok_or mbind result_bind]. rewrite Hv. cbn [mbind result_bind]. unfold data at 1. cbn [head]. rewrite Z.eqb_refl. cbn [negb].
    assert (length data = S (length prefix) + n + length args)%nat as Hl by (unfold data; cbn [length]; rewrite !length_app, to_be_length; lia).
    rewrite Ho, Hn, Z.min_l by lia. replace (Z.of_nat (S (length prefix)) + Z.of_nat n) with (Z.of_nat (length (version :: prefix) + length (to_be n id))) by (cbn [length]; rewrite to_be_length; lia).
    change (Z.of_nat (S (length prefix))) with (Z.of_nat (length (version :: prefix))). change data with ((version :: prefix) ++ to_be n id ++ args) at 1.
    rewrite get_range_app. rewrite (proj2 (Z.eqb_neq (Z.of_nat n) 0)), (proj2 (Z.ltb_ge 8 (Z.of_nat n))) by lia. cbn [orb].
    rewrite tag_value_be, from_to_be by (done || apply to_be_ok || rewrite to_be_length; lia). destruct (obj_get table (pretty id)) as [entry|]; [|done].
    assert (get_range data (Z.of_nat (length (version :: prefix) + length (to_be n id))) (Z.of_nat (length data)) = Some args) as ->; [|done].
    pose proof (get_range_app ((version :: prefix) ++ to_be n id) args []) as Hr. rewrite app_nil_r, <- app_assoc, length_app in Hr. rewrite <- Hr. f_equal.
    rewrite Hl. cbn [length]. rewrite to_be_length. lia.
  - intros other Hd Hh. unfold build_tagged_dispatch. rewrite Ht, Hsrc. cbn [mbind option_bind as_object ok_or result_bind]. rewrite Hsub. cbn [map_err mbind result_bind as_str ok_or].
    rewrite Hd. cbn [ok_or mbind result_bind]. rewrite Hv. cbn [mbind result_bind]. destruct (head other) as [v|]; [|done].
    destruct (Z.eqb_spec v version); [congruence|done].
Qed.

(** A batch of parallel tags is one child per tag. It succeeds exactly when both sources
    resolve to arrays of one length, within the cap the manifest gives and never more than 64,
    and every element builds; the children are in the order of the tags, none skipped. *)
Theorem parallel_tags_exact ctx emit chain_id b : build_parallel_tagged_dispatch ctx emit chain_id = Ok b ->
  exists per_tag encoding policy fields tags data children, b = Multicall children /\
    value_get emit "per_tag" = Some (VObject per_tag) /\ str_member emit "tag_encoding" = Some encoding /\
    (exists src, str_member emit "actions_source" = Some src /\ substitute_placeholders ctx (VString src) = Ok (VArray tags)) /\
    (exists src, str_member emit "data_source" = Some src /\ substitute_placeholders ctx (VString src) = Ok (VArray data)) /\
    length tags = length data /\ Z.of_nat (length children) <= Z.min HARD_MAX_ELEMENTS (usize_member emit "max_elements" DEFAULT_MAX_ELEMENTS) /\
    (policy = true <-> str_member emit "unknown_tag_policy" = Some "deny"%string) /\
    length children = length tags /\
    forall i tag item, tags !! i = Some tag -> data !! i = Some item ->
      exists child, children !! i = Some child /\ tagged_element ctx chain_id per_tag encoding policy fields tag item = Ok child.
Proof.
  unfold build_parallel_tagged_dispatch. intros H.
  apply bind_Ok_inv in H as (per_tag & Hp & H). apply bind_Ok_inv in H as (asrc & Ha & H). apply bind_Ok_inv in H as (dsrc & Hd & H). apply bind_Ok_inv in H as (enc & He & H).
  destruct ((_ =? 0) || _) eqn:Hm; [done|]. apply orb_false_iff in Hm as [_ Hm%Z.ltb_ge].
  apply bind_Ok_inv in H as (tv & Htv & H). apply bind_Ok_inv in H as (tags & Ht & H). apply bind_Ok_inv in H as (dv & Hdv & H). apply bind_Ok_inv in H as (data & Hdt & H).
  destruct (Nat.eqb_spec (length tags) (length data)) as [Hl|]; [|done]. cbn [negb] in H. destruct (Z.ltb_spec (usize_member emit "max_elements" DEFAULT_MAX_ELEMENTS) (Z.of_nat (length tags))); [done|].
  apply bind_Ok_inv in H as (children & Hc & [= <-]). apply collectM_lookup in Hc. pose proof (Forall2_length _ _ _ Hc) as Hlc. rewrite length_zip in Hlc.
  exists per_tag, enc, (bool_decide (str_member emit "unknown_tag_policy" = Some "deny"%string)). eexists. exists tags, data, children. split; [done|].
  apply map_err_ok in Htv, Hdv. split_and!.
  - destruct (value_get emit "per_tag") as [v|]; [|done]. destruct v; try done. by injection Hp as ->.
  - by destruct (str_member emit "tag_encoding"); [injection He as ->|].
  - exists asrc. split; [by destruct (str_member emit "actions_source"); [injection Ha as ->|]|]. rewrite Htv. destruct tv; try done. by injection Ht as ->.
  - exists dsrc. split; [by destruct (str_member emit "data_source"); [injection Hd as ->|]|]. rewrite Hdv. destruct dv; try done. by injection Hdt as ->.
  - done.
  - lia.
  - by rewrite bool_decide_eq_true.
  - lia.
  - intros i tag item Hi Hx. destruct (Forall2_lookup_l _ _ _ i (tag, item) Hc) as (child & ? & ?); [|eauto]. apply lookup_zip_Some. done.
Qed.
End Reads.

(** ** Witnesses *)
Definition demo_stream : StreamSpec :=
  mkStreamSpec [("0x0b", VObject [("body", Demo.item "$inputs.amount")])]%string [0x0b; 0x90] [VObject [("amount", VString "3")]; VNull]%string 0x3f PolicyWarn.
Lemma stream_fail_closed_witness : exists b,
  dispatch_opcode_stream (T0 := demo_text) (A0 := AbiDecode.MiniAlloy.alloy) (S0 := Demo.serde) Demo.ctx demo_stream 0 3 = Ok b /\ body_has_unknown b = true.
Proof.
  destruct (dispatch_opcode_stream (T0 := demo_text) (A0 := AbiDecode.MiniAlloy.alloy) (S0 := Demo.serde) Demo.ctx demo_stream 0 3) as [b|e|] eqn:Hb; [|by vm_compute in Hb..].
  exists b. split; [done|]. apply (stream_fail_closed (T0 := demo_text) (A0 := AbiDecode.MiniAlloy.alloy) (S0 := Demo.serde) _ _ _ _ _ Hb).
  by apply (unmapped_here demo_stream 1 0x90).
Defined.
(** A stream whose every opcode is skipped reads as an Unknown call too, not only one with no
    command. *)
Example skipped_stream : dispatch_opcode_stream (T0 := demo_text) (A0 := AbiDecode.MiniAlloy.alloy) (S0 := Demo.serde) Demo.ctx
  (mkStreamSpec [] [0x90] [VNull] 0x3f PolicySkip) 0 3 = Ok (ctx_unknown Demo.ctx).
Proof. reflexivity. Qed.
End DecodeStream.
