(* ===== verification/DecodeRoute.v ===== *)
(** * The decoder registry and transaction routing (dambi-core/src/decode: mod.rs, dto.rs)

    Installed manifests and the three tables that route calls to them, and the
    router of a transaction: it decodes the call against the manifest of its
    target and selector, builds the body by the manifest's strategy and follows
    multicalls and callbacks into their inner calls. The traversal, a budget of
    nodes and the diagnostics, is shared by the whole request and survives the
    error of an inner call, so the router is a function of it in a state and
    error monad. *)
From Stdlib Require Import Ascii.
From stdpp Require Import base tactics numbers list strings gmap pretty.
From S2P Require Import Prelude Types Bytes AbiDecode LendingTypes Apply PackedPayloads SyncLive PolicyEngine PolicyRpc BundleFormat BundleTrust SessionInput PolicyRuntime MapperText MapperFn MapperBuild DecodeDerive DecodeStream.
Import SyncLive.

Module DecodeRoute.
Import AbiDecode PackedPayloads PolicyEngine PolicyRpc BundleFormat BundleTrust SessionInput PolicyRuntime MapperText MapperFn MapperBuild DecodeDerive DecodeStream.

(** ** Data (dto.rs) *)
Record RouteInput := mkRouteInput {
  ri_chain_id : Z; ri_to : string; ri_selector : string; ri_calldata : string; ri_value : string; ri_gas_limit : string; ri_gas_price : string;
  ri_submitter : string; ri_submitted_at : Z; ri_nonce : Z; ri_block_timestamp : option Z }.
Inductive CallPath := SelfCall (index : nat) | CallAt (index : nat) | Callback.
Inductive DiagnosticCode := DepthLimit | ChildLimit | NodeLimit | UnregisteredCall | ShortCalldata | RouteNotApplicable | UninterpretedAction.
Record Diagnostic := mkDiagnostic { dg_code : DiagnosticCode; dg_path : list CallPath; dg_decoder_id : option string }.
Inductive TransactionStatus := Complete | Partial.
Record TransactionDecoding := mkTransactionDecoding { td_status : TransactionStatus; td_diagnostics : list Diagnostic }.
Record RouteResult := mkRouteResult {
  rr_actions : list Action; rr_decoder_id : string; rr_reenter_callback : option string; rr_decoding : option TransactionDecoding }.
Record InstallResult := mkInstallResult { in_decoder_id : string; in_bundle_id : string }.
(** [BundleMatch] (mappers, types.rs); a [BTreeMap] iterates in the order of its keys. *)
Record BundleMatch := mkBundleMatch {
  bm_chain_to_addresses : list (Z * list string); bm_chain_ids : list Z; bm_to : list string; bm_address_agnostic : bool; bm_selector : string }.
Definition match_entries (m : BundleMatch) : list (Z * string) :=
  match bm_chain_to_addresses m with
  | [] => c ← bm_chain_ids m; (fun a => (c, a)) <$> bm_to m
  | l => ca ← l; (fun a => (ca.1, a)) <$> ca.2
  end.
(** Parsers of serde_json and the derived deserializers. *)
Class DecodeSerde := {
  value_from_str : string -> string + Value;
  route_input_from_str : string -> string + RouteInput;
  match_from_value : Value -> string + BundleMatch;
  function_from_value : Value -> string + AbiFunction;
}.

(** ** The registry *)
Notation BridgeKey := (Z * string * string)%type.
Notation SelectorKey := (Z * string)%type.
Notation TypedDataBridgeKey := (Z * string * string * option string)%type.
Record DecoderRegistry := mkDecoderRegistry {
  dr_bridge : gmap BridgeKey string; dr_bundles : gmap string Value;
  dr_typed_data_bridge : gmap TypedDataBridgeKey string; dr_selector_bridge : gmap SelectorKey string }.
Definition empty_registry : DecoderRegistry := mkDecoderRegistry ∅ ∅ ∅ ∅.
Definition clear (reg : DecoderRegistry) : DecoderRegistry := empty_registry.
Definition AGNOSTIC_SELECTOR_ALLOWLIST : list string := ["0xa22cb465"]%string.
Definition MAX_WASM_INPUT_JSON_LEN : Z := 4 * 1024 * 1024.
Definition check_input_size (input_json entry : string) : routed () :=
  if MAX_WASM_INPUT_JSON_LEN <? Z.of_nat (String.length input_json)
  then Err (mkEngineErrorDto "input_too_large" "{entry} input json length {} exceeds {} byte limit") else Ok ().
Definition typed_data_route (match_value : Value) : option (string * string * option string) :=
  td ← (v ← value_get match_value "typed_data"; as_object v);
  vc ← (v ← obj_get td "verifying_contract"; as_str v);
  pt ← (v ← obj_get td "primary_type"; as_str v);
  Some (to_ascii_lowercase vc, pt, (v ← obj_get td "witness_type"; as_str v)).
Definition insert_all {K V} `{Countable K} (keys : list K) (v : V) (m : gmap K V) : gmap K V := fold_left (fun m k => <[k := v]> m) keys m.

Section Install.
Context {E0 : DecodeSerde}.
Definition install (reg : DecoderRegistry) (bundle_json : string) : routed (InstallResult * DecoderRegistry) :=
  _ ← check_input_size bundle_json "declarative_install_v3_json";
  bundle_value ← lift_err (fun _ => mkEngineErrorDto "invalid_bundle_json" "invalid bundle json: {error}") (value_from_str bundle_json);
  bundle_id ← ok_or (mkEngineErrorDto "missing_id" "bundle.id missing or not a string") (str_member bundle_value "id");
  match_value ← ok_or (mkEngineErrorDto "invalid_match" "bundle.match missing") (value_get bundle_value "match");
  bundle_match ← lift_err (fun _ => mkEngineErrorDto "invalid_match" "bundle.match parse failed: {error}") (match_from_value match_value);
  let selector := to_ascii_lowercase (bm_selector bundle_match) in
  if bm_address_agnostic bundle_match && negb (bool_decide (selector ∈ AGNOSTIC_SELECTOR_ALLOWLIST))
  then Err (mkEngineErrorDto "agnostic_selector_not_allowed" "address-agnostic install refused for selector {selector}")
  else
    let entries := match_entries bundle_match in
    let bridge := insert_all ((fun e => (e.1, to_ascii_lowercase e.2, selector)) <$> entries) bundle_id (dr_bridge reg) in
    let typed_data_bridge :=
      match typed_data_route match_value with
      | Some (vc, pt, wt) => insert_all ((fun e => (e.1, vc, pt, wt)) <$> entries) bundle_id (dr_typed_data_bridge reg)
      | None => dr_typed_data_bridge reg
      end in
    let selector_bridge :=
      if bm_address_agnostic bundle_match
      then insert_all ((fun c => (c, selector)) <$> bm_chain_ids bundle_match) bundle_id (dr_selector_bridge reg)
      else dr_selector_bridge reg in
    Ok (mkInstallResult bundle_id bundle_id,
        mkDecoderRegistry bridge (<[bundle_id := bundle_value]> (dr_bundles reg)) typed_data_bridge selector_bridge).
End Install.
(** The manifest of a call: the exact key first, then the selector alone. *)
Definition lookup_bundle (reg : DecoderRegistry) (chain_id : Z) (to selector : string) : option (string * Value) :=
  bundle_id ← first_some (dr_bridge reg !! (chain_id, to, selector)) (dr_selector_bridge reg !! (chain_id, selector));
  b ← dr_bundles reg !! bundle_id;
  Some (bundle_id, b).

(** ** Frames and the traversal *)
Definition MAX_TRANSACTION_DEPTH : nat := 4.
Definition MAX_TRANSACTION_NODES : nat := 256.
Definition MAX_MULTICALL_CHILDREN : nat := 64.
Definition NATIVE_TRANSFER_SELECTOR : string := "0x00000000".
Record Frame := mkFrame { fr_path : list CallPath; fr_depth_limit : nat }.
Definition root_frame : Frame := mkFrame [] MAX_TRANSACTION_DEPTH.
Definition child_frame (f : Frame) (segment : CallPath) : Frame := mkFrame (fr_path f ++ [segment]) (fr_depth_limit f).
Definition with_manifest (f : Frame) (emit : Value) : Frame :=
  let remaining := Z.to_nat (Z.min (usize_member emit "max_depth" (Z.of_nat MAX_TRANSACTION_DEPTH)) (Z.of_nat MAX_TRANSACTION_DEPTH)) in
  mkFrame (fr_path f) (Nat.min (fr_depth_limit f) (length (fr_path f) + remaining)).
Record Traversal := mkTraversal { tv_nodes : nat; tv_active : bool; tv_diagnostics : list Diagnostic }.
Definition new_traversal : Traversal := mkTraversal 1 false [].
Definition finish (t : Traversal) : TransactionDecoding :=
  mkTransactionDecoding (match tv_diagnostics t with [] => Complete | _ => Partial end) (tv_diagnostics t).

(** The router's effects: the traversal is kept when a call fails. *)
Definition walk (A : Type) : Type := Traversal -> routed A * Traversal.
#[global] Instance walk_ret : MRet walk := fun _ a t => (Ok a, t).
#[global] Instance walk_bind : MBind walk := fun _ _ k m t =>
  match m t with (Ok a, t') => k a t' | (Err e, t') => (Err e, t') | (Panic, t') => (Panic, t') end.
Definition lift {A} (r : routed A) : walk A := fun t => (r, t).
Definition enter (f : Frame) : walk (option DiagnosticCode) := fun t =>
  if (fr_depth_limit f <? length (fr_path f))%nat then (Ok (Some DepthLimit), t)
  else if (MAX_TRANSACTION_NODES <=? tv_nodes t)%nat then (Ok (Some NodeLimit), t)
  else (Ok None, mkTraversal (S (tv_nodes t)) (tv_active t) (tv_diagnostics t)).
Definition record (f : Frame) (code : DiagnosticCode) (decoder_id : option string) : walk () := fun t =>
  (Ok (), mkTraversal (tv_nodes t) (tv_active t) (tv_diagnostics t ++ [mkDiagnostic code (fr_path f) decoder_id])).
Definition activate : walk () := fun t => (Ok (), mkTraversal (tv_nodes t) true (tv_diagnostics t)).
Definition is_active : walk bool := fun t => (Ok (tv_active t), t).
(** [match self.route_transaction(..)]: the error as a value. *)
Definition try_walk {A} (m : walk A) : walk (EngineErrorDto + A) := fun t =>
  match m t with (Ok a, t') => (Ok (inr a), t') | (Err e, t') => (Ok (inl e), t') | (Panic, t') => (Panic, t') end.

(** ** Inner calls *)
Definition child_transaction (chain_id : Z) (to calldata value submitter : string) (submitted_at : Z) : RouteInput :=
  mkRouteInput chain_id to "" calldata value "0" "0" submitter submitted_at 0 None.
Definition with_selector (i : RouteInput) (selector : string) : RouteInput :=
  mkRouteInput (ri_chain_id i) (ri_to i) selector (ri_calldata i) (ri_value i) (ri_gas_limit i) (ri_gas_price i) (ri_submitter i) (ri_submitted_at i)
    (ri_nonce i) (ri_block_timestamp i).
Definition is_unresolved_metamorpho_underlying (body : ActionBody) : bool :=
  match body with
  | BodyLending action =>
      match (match action with Supply a => Some (su_venue a, su_asset a) | Withdraw a => Some (wd_venue a, wd_asset a) | _ => None end) with
      | Some (MetaMorpho _ _, asset) => match key_contract (tr_key asset) with Some addr => addr =? 0 | None => false end
      | _ => false
      end
  | _ => false
  end.
Definition array_values (obj : list (string * Value)) : list Value :=
  List.filter (fun v => match v with VArray _ => true | _ => false end) (snd <$> obj).
(** The argument a multicall recurses into: named by the manifest, or the only array. *)
Definition recurse_argument (args_json emit : Value) : routed (list Value) :=
  v ← match str_member emit "recurse_arg" with
      | Some recurse_arg => ok_or (build_failed "recurse_arg {recurse_arg:?} not found") (value_get args_json recurse_arg)
      | None =>
          match as_object args_json with
          | None => Err (build_failed "no array argument")
          | Some obj =>
              match array_values obj with
              | [single] => Ok single
              | [] => Err (build_failed "no array argument")
              | _ => Err (build_failed "ambiguous (multiple array arguments)")
              end
          end
      end;
  ok_or (build_failed "selected argument is not an array") (as_array v).
(** [mapM] over inner calls, with their index. *)
Fixpoint walk_calls {A} (f : nat -> A -> walk (list ActionBody)) (i : nat) (l : list A) : walk (list ActionBody) :=
  match l with
  | [] => mret []
  | x :: rest => a ← f i x; more ← walk_calls f (S i) rest; mret (a ++ more)
  end.

Section Route.
Context {T0 : AlloyText} {A0 : Alloy} {S0 : ActionSerde} {E0 : DecodeSerde}.
Definition opaque_call (input : RouteInput) (f : Frame) (code : DiagnosticCode) (decoder_id : option string) : walk ActionBody :=
  body ← lift (unknown_child_leg (ri_chain_id input) (ri_to input) (ri_calldata input) (ri_value input) "multicall child target");
  _ ← record f code decoder_id;
  mret body.
Definition decode_reenter_call_array (callback_hex : string) : routed (option (list Value)) :=
  let stripped := hex_body callback_hex in
  if String.eqb stripped "" then Ok None
  else
    data_bytes ← ok_or (build_failed "reenter callback: data not hex: {error}") (hex_decode stripped);
    bundle ← map_err (fun _ => build_failed "reenter callback: Call[] decode failed: {error}")
      (decode_inputs_abi_tuple "((address,bytes,uint256,bool,bytes32)[] bundle)" data_bytes);
    Ok match (v ← value_get bundle "bundle"; as_array v) with Some (_ :: _ as legs) => Some legs | _ => None end.
Definition decode_with_json_abi (abi_json : Value) (calldata : bytes) : routed MappedCall :=
  let failed := mkEngineErrorDto "decode_failed" "calldata decode failed: {error}" in
  let patched :=
    match abi_json with
    | VObject obj =>
        let entry o k v := match obj_get o k with Some _ => o | None => obj_insert o k v end in
        VObject (entry (entry obj "outputs"%string (VArray [])) "stateMutability"%string (VString "nonpayable"))
    | v => v
    end in
  f ← lift_err (fun _ => failed) (function_from_value patched);
  legacy ← map_err (fun _ => failed) (decode_with_function f calldata);
  if (length calldata <? 4)%nat then Err failed else map_err (fun _ => failed) (convert_legacy_call legacy (take 4 calldata)).

(** *** Strategies that stay in the call *)
Definition DEFAULT_ARRAY_EMIT_MAX_ELEMENTS : Z := 64.
Definition HARD_ARRAY_EMIT_MAX_ELEMENTS : Z := 64.
Definition parse_array_emit_max_elements (emit : Value) (field_path : string) : routed (option nat) :=
  match value_get emit "max_elements" with
  | None => Ok (Some (Z.to_nat DEFAULT_ARRAY_EMIT_MAX_ELEMENTS))
  | Some value =>
      raw ← ok_or (invalid_bundle "{field_path}.max_elements must be a positive integer") (as_u64 value);
      if raw =? 0 then Err (invalid_bundle "{field_path}.max_elements must be >= 1")
      else if HARD_ARRAY_EMIT_MAX_ELEMENTS <? raw then Err (invalid_bundle "{field_path}.max_elements must be <= {HARD_ARRAY_EMIT_MAX_ELEMENTS}, got {max}")
      else Ok (Some (Z.to_nat raw))
  end.
Definition emit_single (ctx : V3MapContext) (emit : Value) : routed ActionBody :=
  body_template ← ok_or (invalid_bundle "missing emit.body") (value_get emit "body");
  map_err action_failed (build_action_body ctx body_template (value_get emit "live_inputs")).
Definition emit_opcode_stream (ctx : V3MapContext) (args_json emit : Value) : routed ActionBody :=
  table ← ok_or (invalid_bundle "missing emit.per_opcode_body") (v ← value_get emit "per_opcode_body"; as_object v);
  mask ← parse_hex_u8 (str_or emit "mask" "0xff") "emit.mask";
  _ ← parse_hex_u8 (str_or emit "allow_revert_bit" "0x00") "emit.allow_revert_bit";
  ci ← match str_member emit "unlock_data_source" with
       | Some src => map_err (mkEngineErrorDto "invalid_unlock_data") (decode_v4_unlock_data ctx src)
       | None =>
           commands_str ← ok_or (mkEngineErrorDto "invalid_args" "missing args.commands") (str_member args_json "commands");
           commands_bytes ← ok_or (mkEngineErrorDto "invalid_commands" "commands not hex: {error}") (hex_decode (hex_body commands_str));
           inputs_array ← ok_or (mkEngineErrorDto "invalid_args" "missing args.inputs") (v ← value_get args_json "inputs"; as_array v);
           Ok (commands_bytes, inputs_array)
       end;
  decoded ← decode_stream_inputs table ci.1 ci.2 mask;
  let max_depth := match (v ← value_get emit "max_depth"; as_u64 v) with Some v => Z.min v (2 ^ 32 - 1) | None => 3 end in
  dispatch_opcode_stream ctx (mkStreamSpec table ci.1 decoded mask (policy_of emit)) 0 max_depth.
Definition emit_array (ctx : V3MapContext) (emit body_template : Value) (field_path : string) : routed ActionBody :=
  array_source ← ok_or (invalid_bundle "missing array_source") (str_member emit "array_source");
  max_elements ← parse_array_emit_max_elements emit field_path;
  map_err (fun _ => mkEngineErrorDto "build_array_emit_failed" "{error}")
    (build_array_emit ctx array_source (value_get emit "parallel_sources") body_template (value_get emit "live_inputs") max_elements).
Definition composite_part (ctx : V3MapContext) (part : Value) : routed (list ActionBody) :=
  part_strategy ← ok_or (invalid_bundle "composite_emit part missing strategy") (str_member part "strategy");
  body_template ← ok_or (invalid_bundle "composite_emit part missing body") (value_get part "body");
  if String.eqb part_strategy "single_emit" then
    b ← map_err action_failed (build_action_body ctx body_template (value_get part "live_inputs")); Ok [b]
  else if String.eqb part_strategy "array_emit" then
    m ← emit_array ctx part body_template "composite_emit part";
    Ok match m with Multicall inner => inner | _ => [m] end
  else Err (mkEngineErrorDto "unsupported_strategy" "composite_emit part strategy unsupported: {other}").
Definition emit_composite (ctx : V3MapContext) (emit : Value) : routed ActionBody :=
  parts ← ok_or (invalid_bundle "missing emit.parts") (v ← value_get emit "parts"; as_array v);
  actions ← collectM (composite_part ctx) parts;
  Ok (Multicall (concat actions)).
Definition emit_local (ctx : V3MapContext) (chain_id : Z) (args_json emit : Value) (strategy : string) : routed ActionBody :=
  if String.eqb strategy "single_emit" then emit_single ctx emit
  else if String.eqb strategy "opcode_stream_dispatch" then emit_opcode_stream ctx args_json emit
  else if String.eqb strategy "array_emit" then
    _ ← ok_or (invalid_bundle "missing emit.array_source") (str_member emit "array_source");
    per_item_body ← ok_or (invalid_bundle "missing emit.body") (value_get emit "body");
    emit_array ctx emit per_item_body "emit"
  else if String.eqb strategy "tagged_dispatch" then build_tagged_dispatch ctx emit
  else if String.eqb strategy "parallel_tagged_dispatch" then build_parallel_tagged_dispatch ctx emit chain_id
  else if String.eqb strategy "composite_emit" then emit_composite ctx emit
  else Err (mkEngineErrorDto "unsupported_strategy" "unsupported emit.strategy: {other}").

(** *** The call, decoded against its manifest *)
Record Decoded := mkDecoded {
  dd_meta : ActionMeta; dd_ctx : V3MapContext; dd_args : Value; dd_emit : Value; dd_strategy : string; dd_bundle_id : string }.
Definition decode_call (reg : DecoderRegistry) (input : RouteInput) : routed Decoded :=
  submitter ← parse_v3_address (ri_submitter input) "submitter";
  target ← parse_v3_address (ri_to input) "to";
  value ← parse_v3_u256 (ri_value input) "value";
  gas_limit ← parse_v3_u256 (ri_gas_limit input) "gas_limit";
  gas_price ← parse_v3_u256 (ri_gas_price input) "gas_price";
  let chain := ("eip155:" +:+ pretty (ri_chain_id input))%string in
  let submitted_at := ri_submitted_at input in
  let gas_price_live := mkLiveField gas_price (OracleFeed Pyth ("gas/eip155:" +:+ pretty (ri_chain_id input))%string) submitted_at None None in
  let meta := mkActionMeta submitted_at submitter (OnchainTx chain (ri_nonce input) gas_limit gas_price_live value) in
  calldata_bytes ← ok_or (mkEngineErrorDto "invalid_calldata" "calldata is not valid hex: {error}") (hex_decode (hex_body (ri_calldata input)));
  let is_native_transfer := (length calldata_bytes =? 0)%nat in
  let lookup_selector := if is_native_transfer then NATIVE_TRANSFER_SELECTOR else to_ascii_lowercase (ri_selector input) in
  let to_lower := to_ascii_lowercase (ri_to input) in
  found ← ok_or (mkEngineErrorDto "no_declarative_v3_mapper" "no v3 mapper bridged for chain_id={} to={} selector={lookup_selector}")
    (lookup_bundle reg (ri_chain_id input) to_lower lookup_selector);
  let '(bundle_id, bundle_value) := found in
  args_json ←
    (if is_native_transfer then Ok (VObject [])
     else
       abi_json ← ok_or (invalid_bundle "missing abi_fragment.abi") (v ← value_get bundle_value "abi_fragment"; value_get v "abi");
       decoded ← decode_with_json_abi abi_json calldata_bytes;
       Ok (args_to_json decoded));
  emit ← ok_or (invalid_bundle "missing emit") (value_get bundle_value "emit");
  strategy ← ok_or (invalid_bundle "missing emit.strategy") (str_member emit "strategy");
  let resolved := resolved_of_call (ri_chain_id input) to_lower args_json in
  let derived := inject_all args_json ∅ in
  Ok (mkDecoded meta (mkV3MapContext chain target submitter value submitted_at args_json (ri_calldata input) resolved derived None)
        args_json emit strategy bundle_id).

(** *** The traversal. [rec] routes an inner call. *)
Section Step.
Context (rec : RouteInput -> Frame -> walk RouteResult).
(** The first calls of a batch may be entered; a later one is over the limit of children. *)
Definition gate (f : Frame) (index : nat) : walk (option DiagnosticCode) :=
  if (MAX_MULTICALL_CHILDREN <=? index)%nat then mret (Some ChildLimit) else enter f.
Definition process_multicall_child (input : RouteInput) (f : Frame) (index : nat) (call_array : bool) : walk (list ActionBody) :=
  limit ← gate f index;
  match limit with
  | Some code => b ← opaque_call input f code None; mret [b]
  | None =>
      b ← lift (ok_or (build_failed "{label} #{index} not hex: {error}") (hex_decode (hex_body (ri_calldata input))));
      if (length b <? 4)%nat then
        if negb call_array then lift (Err (build_failed "multicall child #{index} calldata < 4 bytes"))
        else o ← opaque_call input f ShortCalldata None; mret [o]
      else
        let selector := ("0x" +:+ hex_encode (take 4 b))%string in
        let child := with_selector (child_transaction (ri_chain_id input) (ri_to input) (ri_calldata input) (ri_value input) (ri_submitter input) (ri_submitted_at input)) selector in
        outcome ← try_walk (rec child f);
        match outcome with
        | inl error =>
            if String.eqb (ee_kind error) "no_declarative_v3_mapper" then o ← opaque_call input f UnregisteredCall None; mret [o]
            else if String.eqb (ee_kind error) "route_failed" then o ← opaque_call input f RouteNotApplicable None; mret [o]
            else lift (Err (build_failed "{label} #{index} ({selector}): {}: {}"))
        | inr result =>
            let bodies := ac_body <$> rr_actions result in
            if call_array && existsb is_unresolved_metamorpho_underlying bodies
            then lift (Err (build_failed "multicall_call_array leg #{index}: MetaMorpho vault underlying unresolved"))
            else mret bodies
        end
  end.
Definition call_leg (chain_id : Z) (submitter : string) (submitted_at : Z) (f : Frame) (index : nat) (leg : Value) : walk (list ActionBody) :=
  fields ← lift (ok_or (build_failed "multicall_call_array leg #{index} is not a Call tuple array") (as_array leg));
  to ← lift (ok_or (build_failed "multicall_call_array leg #{index} missing tuple field 0 (to)") (v ← fields !! 0%nat; as_str v));
  data ← lift (ok_or (build_failed "multicall_call_array leg #{index} missing tuple field 1 (data)") (v ← fields !! 1%nat; as_str v));
  let value := default "0"%string (v ← fields !! 2%nat; as_str v) in
  process_multicall_child (child_transaction chain_id to data value submitter submitted_at) (child_frame f (CallAt index)) index true.
Definition process_call_legs (chain_id : Z) (submitter : string) (submitted_at : Z) (legs : list Value) (f : Frame) : walk (list ActionBody) :=
  walk_calls (call_leg chain_id submitter submitted_at f) 0 legs.
Definition process_reenter_callback (input : RouteInput) (callback decoder_id : string) (f : Frame) : walk (list ActionBody) :=
  if String.eqb (hex_body callback) "" then mret []
  else
    let callback_frame := child_frame f Callback in
    limit ← enter callback_frame;
    match limit with
    | Some code =>
        let opaque := child_transaction (ri_chain_id input) (ri_to input) callback (ri_value input) (ri_submitter input) (ri_submitted_at input) in
        o ← opaque_call opaque callback_frame code (Some decoder_id); mret [o]
    | None =>
        legs ← lift (decode_reenter_call_array callback);
        match legs with
        | Some legs => process_call_legs (ri_chain_id input) (ri_submitter input) (ri_submitted_at input) legs callback_frame
        | None => mret []
        end
    end.
Definition self_call (input : RouteInput) (f : Frame) (index : nat) (item : Value) : walk (list ActionBody) :=
  inner_hex ← lift (ok_or (build_failed "multicall child #{index} is not a hex string") (as_str item));
  process_multicall_child (child_transaction (ri_chain_id input) (ri_to input) inner_hex "0" (ri_submitter input) (ri_submitted_at input))
    (child_frame f (SelfCall index)) index false.
Definition batch_of (actions : list ActionBody) : routed ActionBody :=
  match actions with [] => Err (build_failed "no inner leg produced a policy-visible action") | _ => Ok (Multicall actions) end.
Definition build_multicall_recurse_body_with_context (input : RouteInput) (args_json emit : Value) (f : Frame) : walk ActionBody :=
  if negb (String.eqb (str_or emit "recurse_rule_id" "") "self_array_bytes_last_arg")
  then lift (Err (build_failed "unsupported multicall recurse_rule_id {recurse_rule_id:?} (only self_array_bytes_last_arg)"))
  else
    inner_calls ← lift (recurse_argument args_json emit);
    actions ← walk_calls (self_call input f) 0 inner_calls;
    lift (batch_of actions).
Definition build_multicall_call_array_body_with_context (input : RouteInput) (args_json emit : Value) (f : Frame) : walk ActionBody :=
  legs ← lift (recurse_argument args_json emit);
  actions ← process_call_legs (ri_chain_id input) (ri_submitter input) (ri_submitted_at input) legs f;
  lift (batch_of actions).
Definition is_recursive (strategy : string) : bool := String.eqb strategy "multicall_recurse" || String.eqb strategy "multicall_call_array".
Definition callback_arg (emit : Value) : option string := str_member emit "reenter_callback_arg".
Definition tracked (d : Decoded) : bool :=
  is_recursive (dd_strategy d) || bool_decide (is_Some (callback_arg (dd_emit d))) || String.eqb (dd_strategy d) "reenter_only".
(** The body of the manifest's strategy; an empty batch reads as the call it came from. *)
Definition strategy_body (input : RouteInput) (d : Decoded) (f : Frame) : walk ActionBody :=
  if String.eqb (dd_strategy d) "multicall_recurse" then build_multicall_recurse_body_with_context input (dd_args d) (dd_emit d) f
  else if String.eqb (dd_strategy d) "multicall_call_array" then build_multicall_call_array_body_with_context input (dd_args d) (dd_emit d) f
  else lift (emit_local (dd_ctx d) (ri_chain_id input) (dd_args d) (dd_emit d) (dd_strategy d)).
Definition call_bodies (input : RouteInput) (d : Decoded) (f : Frame) : walk (list ActionBody) :=
  if String.eqb (dd_strategy d) "reenter_only" then mret []
  else
    body ← strategy_body input d f;
    let body := match body with Multicall [] => ctx_unknown (dd_ctx d) | _ => body end in
    active ← is_active;
    _ ← (if active && negb (is_recursive (dd_strategy d)) && body_has_unknown body
         then record f UninterpretedAction (Some (dd_bundle_id d)) else mret ());
    mret [body].
Definition route_bodies (input : RouteInput) (d : Decoded) (f : Frame) : walk (list ActionBody) :=
  bodies ← call_bodies input d f;
  more ← match (arg ← callback_arg (dd_emit d); str_member (dd_args d) arg) with
         | Some callback => process_reenter_callback input callback (dd_bundle_id d) f
         | None => mret []
         end;
  let bodies := bodies ++ more in
  if String.eqb (dd_strategy d) "reenter_only" && (length bodies =? 0)%nat then
    _ ← record f UninterpretedAction (Some (dd_bundle_id d));
    leg ← lift (unknown_child_leg (ri_chain_id input) (ri_to input) (ri_calldata input) (ri_value input) "reenter_only target");
    mret [leg]
  else mret bodies.
(** A callback at the root is one batch; elsewhere the bodies are siblings. *)
Definition route_actions (d : Decoded) (f : Frame) (bodies : list ActionBody) : list Action :=
  if (length (fr_path f) =? 0)%nat && (bool_decide (is_Some (callback_arg (dd_emit d))) || String.eqb (dd_strategy d) "reenter_only")
  then [mkAction (dd_meta d) (Multicall bodies)]
  else mkAction (dd_meta d) <$> bodies.
Definition route_step (reg : DecoderRegistry) (input : RouteInput) (f : Frame) : walk RouteResult :=
  d ← lift (decode_call reg input);
  _ ← (if tracked d then activate else mret ());
  let f := if tracked d then with_manifest f (dd_emit d) else f in
  bodies ← route_bodies input d f;
  mret (mkRouteResult (route_actions d f bodies) (dd_bundle_id d) (arg ← callback_arg (dd_emit d); str_member (dd_args d) arg) None).
End Step.
(** A call is routed only at a depth within the limit of its frame, so the rounds of a root
    call are the depths from zero to the limit. *)
Fixpoint route_loop (fuel : nat) (reg : DecoderRegistry) (input : RouteInput) (f : Frame) : walk RouteResult :=
  match fuel with
  | O => lift Panic
  | S fuel => route_step (route_loop fuel reg) reg input f
  end.
Definition route_transaction (reg : DecoderRegistry) (input : RouteInput) (f : Frame) : walk RouteResult :=
  route_loop (S MAX_TRANSACTION_DEPTH) reg input f.
Definition with_decoding (r : RouteResult) (d : TransactionDecoding) : RouteResult :=
  mkRouteResult (rr_actions r) (rr_decoder_id r) (rr_reenter_callback r) (Some d).
Definition route_input (reg : DecoderRegistry) (input : RouteInput) : routed RouteResult :=
  match route_transaction reg input root_frame new_traversal with
  | (Ok result, traversal) => Ok (if tv_active traversal then with_decoding result (finish traversal) else result)
  | (Err e, _) => Err e
  | (Panic, _) => Panic
  end.
Definition route_request (reg : DecoderRegistry) (input_json : string) : routed RouteResult :=
  _ ← check_input_size input_json "declarative_route_request_v3_json";
  input ← lift_err (fun _ => mkEngineErrorDto "invalid_input_json" "invalid input json: {error}") (route_input_from_str input_json);
  route_input reg input.
End Route.

(** ** Laws of the traversal *)
Lemma walk_bind_run {A B} (k : A -> walk B) (m : walk A) t :
  (m ≫= k) t = match m t with (Ok a, t') => k a t' | (Err e, t') => (Err e, t') | (Panic, t') => (Panic, t') end.
Proof. reflexivity. Qed.
(** [keeps P m]: the traversal satisfies [P] after [m], whatever its outcome. *)
Definition keeps {A} (P : Traversal -> Prop) (m : walk A) : Prop := forall t, P t -> P (m t).2.
Section Keeps.
Context (P : Traversal -> Prop).
Lemma keeps_ret {A} (a : A) : keeps P (mret a).
Proof. by intros t. Qed.
Lemma keeps_lift {A} (r : routed A) : keeps P (lift r).
Proof. by intros t. Qed.
Lemma keeps_active : keeps P is_active.
Proof. by intros t. Qed.
Lemma keeps_bind {A B} (m : walk A) (k : A -> walk B) : keeps P m -> (forall a, keeps P (k a)) -> keeps P (m ≫= k).
Proof. intros Hm Hk t Ht. rewrite walk_bind_run. specialize (Hm t Ht). destruct (m t) as [[a|e|] t']; [by apply Hk|done..]. Qed.
Lemma keeps_try {A} (m : walk A) : keeps P m -> keeps P (try_walk m).
Proof. intros Hm t Ht. unfold try_walk. specialize (Hm t Ht). by destruct (m t) as [[a|e|] t']. Qed.
Lemma keeps_calls {A} (f : nat -> A -> walk (list ActionBody)) i l : (forall i x, keeps P (f i x)) -> keeps P (walk_calls f i l).
Proof.
  intros Hf. revert i. induction l as [|x l IH]; intros i; [apply keeps_ret|]. cbn [walk_calls].
  apply keeps_bind; [apply Hf|]. intros a. apply keeps_bind; [apply IH|]. intros. apply keeps_ret.
Qed.
End Keeps.
Create HintDb walks.
#[export] Hint Resolve keeps_ret keeps_lift keeps_active keeps_bind keeps_try keeps_calls : walks.

(** The budget of a request. *)
Record within_budget (t : Traversal) : Prop := {
  wb_nodes : (tv_nodes t <= MAX_TRANSACTION_NODES)%nat;
  wb_paths : Forall (fun d => (length (dg_path d) <= S MAX_TRANSACTION_DEPTH)%nat) (tv_diagnostics t) }.
Definition frame_ok (f : Frame) : Prop := (fr_depth_limit f <= MAX_TRANSACTION_DEPTH)%nat.
Definition entered (f : Frame) : Prop := frame_ok f /\ (length (fr_path f) <= fr_depth_limit f)%nat.
Definition reported (f : Frame) : Prop := (length (fr_path f) <= S MAX_TRANSACTION_DEPTH)%nat.
Lemma record_budget f code id : reported f -> keeps within_budget (record f code id).
Proof. intros Hf t [Hn Hp]. constructor; [done|]. cbn. apply Forall_app. split; [done|]. by apply Forall_singleton. Qed.
Lemma enter_budget f : keeps within_budget (enter f).
Proof.
  intros t [Hn Hp]. unfold enter. destruct (_ <? _)%nat; [done|]. destruct (Nat.leb_spec MAX_TRANSACTION_NODES (tv_nodes t)); [done|]. constructor; [cbn; lia|done].
Qed.
Lemma activate_budget : keeps within_budget activate.
Proof. by intros t [Hn Hp]. Qed.
#[export] Hint Resolve record_budget enter_budget activate_budget : walks.
Lemma child_limit f segment : fr_depth_limit (child_frame f segment) = fr_depth_limit f.
Proof. done. Qed.
Lemma child_length f segment : length (fr_path (child_frame f segment)) = S (length (fr_path f)).
Proof. cbn. rewrite length_app. cbn. lia. Qed.
Lemma child_reported f segment : entered f -> reported (child_frame f segment).
Proof. unfold entered, frame_ok, reported. rewrite child_length. lia. Qed.
Lemma entered_reported f : entered f -> reported f.
Proof. unfold entered, frame_ok, reported. lia. Qed.
Lemma manifest_entered f emit : entered f -> entered (with_manifest f emit).
Proof. unfold entered, frame_ok. cbn. lia. Qed.
(** An inner call is routed only from a frame it may enter. *)
Definition gated (f : Frame) (m : walk (option DiagnosticCode)) : Prop := forall t t', m t = (Ok None, t') -> (length (fr_path f) <= fr_depth_limit f)%nat.
Lemma enter_gated f : gated f (enter f).
Proof. intros t t'. unfold enter. destruct (Nat.ltb_spec (fr_depth_limit f) (length (fr_path f))); [done|]. by intros _. Qed.
Lemma gate_gated f index : gated f (gate f index).
Proof. unfold gate. destruct (_ <=? _)%nat; [by intros t t'|apply enter_gated]. Qed.
Lemma gate_budget f index : keeps within_budget (gate f index).
Proof. unfold gate. destruct (_ <=? _)%nat; eauto with walks. Qed.
#[export] Hint Resolve enter_gated gate_gated gate_budget : walks.

Section RouteLaws.
Context {T0 : AlloyText} {A0 : Alloy} {S0 : ActionSerde} {E0 : DecodeSerde}.
Lemma opaque_budget input f code id : reported f -> keeps within_budget (opaque_call input f code id).
Proof. intros Hf. unfold opaque_call. eauto with walks. Qed.
Hint Resolve opaque_budget : walks.
Lemma keeps_gated {A} P f m (k : option DiagnosticCode -> walk A) : gated f m -> keeps P m -> (forall code, keeps P (k (Some code))) ->
  ((length (fr_path f) <= fr_depth_limit f)%nat -> keeps P (k None)) -> keeps P (m ≫= k).
Proof.
  intros Hg He Hs Hn t Ht. rewrite walk_bind_run. specialize (He t Ht). destruct (m t) as [[[code|]|e|] t'] eqn:Hr; [by apply Hs| |done..].
  apply Hg in Hr. by apply Hn.
Qed.
(** *** Budget *)
Section Budget.
Context (rec : RouteInput -> Frame -> walk RouteResult) (Hrec : forall input f, entered f -> keeps within_budget (rec input f)).
Hint Resolve Hrec : walks.
Lemma child_budget input f index call_array : frame_ok f -> reported f -> keeps within_budget (process_multicall_child rec input f index call_array).
Proof.
  intros Hf Hr. unfold process_multicall_child.
  assert (forall code, keeps within_budget (b ← opaque_call input f code None; mret [b])) as Ho by eauto with walks.
  apply (keeps_gated _ f); [eauto with walks..|apply Ho|].
  intros Hle. assert (entered f) by done. apply keeps_bind; [eauto with walks|]. intros b. destruct (_ <? 4)%nat; [destruct call_array; cbn [negb]; eauto with walks|].
  apply keeps_bind; [eauto with walks|]. intros [error|result].
  - destruct (String.eqb (ee_kind error) _); [apply Ho|]. destruct (String.eqb (ee_kind error) _); [apply Ho|eauto with walks].
  - cbn zeta. destruct (_ && _); eauto with walks.
Qed.
Lemma legs_budget chain_id submitter at_ legs f : entered f -> keeps within_budget (process_call_legs rec chain_id submitter at_ legs f).
Proof.
  intros Hf. apply keeps_calls. intros i leg. unfold call_leg. do 3 (apply keeps_bind; [eauto with walks|intros ?]). apply child_budget; [apply Hf|by apply child_reported].
Qed.
Lemma callback_budget input callback id f : entered f -> keeps within_budget (process_reenter_callback rec input callback id f).
Proof.
  intros Hf. unfold process_reenter_callback. destruct (String.eqb _ _); [eauto with walks|]. apply (keeps_gated _ (child_frame f Callback)); [eauto with walks..| |].
  - intros code. apply keeps_bind; [|eauto with walks]. apply opaque_budget. by apply child_reported.
  - intros Hle. apply keeps_bind; [eauto with walks|]. intros [legs|]; [|eauto with walks]. apply legs_budget. split; [apply Hf|done].
Qed.
Lemma body_budget input d f : entered f -> keeps within_budget (strategy_body rec input d f).
Proof.
  intros Hf. unfold strategy_body, build_multicall_recurse_body_with_context, build_multicall_call_array_body_with_context.
  repeat case_match; eauto with walks.
  - apply keeps_bind; [eauto with walks|]. intros calls. apply keeps_bind; [|eauto with walks]. apply keeps_calls. intros i item. unfold self_call.
    apply keeps_bind; [eauto with walks|]. intros hex. apply child_budget; [apply Hf|by apply child_reported].
  - apply keeps_bind; [eauto with walks|]. intros legs. apply keeps_bind; [by apply legs_budget|eauto with walks].
Qed.
Lemma bodies_budget input d f : entered f -> keeps within_budget (route_bodies rec input d f).
Proof.
  intros Hf. pose proof (entered_reported f Hf). unfold route_bodies. apply keeps_bind.
  - unfold call_bodies. destruct (String.eqb _ _); [eauto with walks|]. apply keeps_bind; [by apply body_budget|]. intros body. cbn zeta. apply keeps_bind; [eauto with walks|]. intros active.
    apply keeps_bind; [|eauto with walks]. destruct (_ && _); eauto with walks.
  - intros bodies. apply keeps_bind; [destruct (callback_arg _ ≫= _); [by apply callback_budget|eauto with walks]|]. intros more. cbn zeta. destruct (_ && _); eauto with walks.
Qed.
Lemma step_budget reg input f : entered f -> keeps within_budget (route_step rec reg input f).
Proof.
  intros Hf. unfold route_step. apply keeps_bind; [eauto with walks|]. intros d. apply keeps_bind; [destruct (tracked d); eauto with walks|]. intros []. cbn zeta.
  apply keeps_bind; [|eauto with walks]. apply bodies_budget. destruct (tracked d); [by apply manifest_entered|done].
Qed.
End Budget.
Lemma route_budget fuel reg input f : entered f -> keeps within_budget (route_loop fuel reg input f).
Proof. revert input f. induction fuel as [|fuel IH]; intros input f Hf; [apply keeps_lift|]. cbn [route_loop]. by apply step_budget. Qed.

(** *** Rounds *)
Section Rounds.
Context (rec rec' : RouteInput -> Frame -> walk RouteResult) (n : nat)
  (Hrec : forall input f t, entered f -> (n < length (fr_path f))%nat -> rec input f t = rec' input f t).
Lemma bind_ext {A B} (m m' : walk A) (k k' : A -> walk B) t : m t = m' t -> (forall a t', m t = (Ok a, t') -> k a t' = k' a t') -> (m ≫= k) t = (m' ≫= k') t.
Proof. rewrite !walk_bind_run. intros <- Hk. destruct (m t) as [[a|e|] t'] eqn:Hm; [by apply Hk|done..]. Qed.
Lemma calls_ext {A} (f g : nat -> A -> walk (list ActionBody)) i l t : (forall i x t, f i x t = g i x t) -> walk_calls f i l t = walk_calls g i l t.
Proof.
  intros Hf. revert i t. induction l as [|x l IH]; intros i t; [done|]. cbn [walk_calls]. apply bind_ext; [done|]. intros a t' _. apply bind_ext; [done|]. done.
Qed.
Lemma child_ext input f index call_array t : frame_ok f -> (n < length (fr_path f))%nat ->
  process_multicall_child rec input f index call_array t = process_multicall_child rec' input f index call_array t.
Proof.
  intros Hf Hn. unfold process_multicall_child. apply bind_ext; [done|]. intros [code|] t' Hg; [done|]. apply gate_gated in Hg. apply bind_ext; [done|]. intros b t'' _.
  destruct (_ <? 4)%nat; [done|]. apply bind_ext; [|done]. unfold try_walk. by rewrite Hrec.
Qed.
Lemma legs_ext chain_id submitter at_ legs f t : frame_ok f -> (n <= length (fr_path f))%nat ->
  process_call_legs rec chain_id submitter at_ legs f t = process_call_legs rec' chain_id submitter at_ legs f t.
Proof.
  intros Hf Hn. apply calls_ext. intros i leg t'. unfold call_leg. do 3 (apply bind_ext; [done|intros ? ? _]). apply child_ext; [done|]. rewrite child_length. lia.
Qed.
Lemma callback_ext input callback id f t : frame_ok f -> (n <= length (fr_path f))%nat ->
  process_reenter_callback rec input callback id f t = process_reenter_callback rec' input callback id f t.
Proof.
  intros Hf Hn. unfold process_reenter_callback. destruct (String.eqb _ _); [done|]. apply bind_ext; [done|]. intros [code|] t' _; [done|]. apply bind_ext; [done|].
  intros [legs|] t'' _; [|done]. apply legs_ext; [done|]. rewrite child_length. lia.
Qed.
Lemma body_ext input d f t : frame_ok f -> (n <= length (fr_path f))%nat -> strategy_body rec input d f t = strategy_body rec' input d f t.
Proof.
  intros Hf Hn. unfold strategy_body, build_multicall_recurse_body_with_context, build_multicall_call_array_body_with_context. repeat case_match; try done.
  - apply bind_ext; [done|]. intros calls t' _. apply bind_ext; [|done]. apply calls_ext. intros i item t''. unfold self_call. apply bind_ext; [done|]. intros hex t3 _.
    apply child_ext; [done|]. rewrite child_length. lia.
  - apply bind_ext; [done|]. intros legs t' _. apply bind_ext; [|done]. by apply legs_ext.
Qed.
Lemma step_ext reg input f t : frame_ok f -> (n <= length (fr_path f))%nat -> route_step rec reg input f t = route_step rec' reg input f t.
Proof.
  intros Hf Hn. unfold route_step. apply bind_ext; [done|]. intros d t1 _. apply bind_ext; [done|]. intros [] t2 _. cbn zeta. apply bind_ext; [|done].
  set (f' := if tracked d then with_manifest f (dd_emit d) else f). assert (frame_ok f' /\ (n <= length (fr_path f'))%nat) as [Hf' Hn'].
  { unfold f', frame_ok in *. destruct (tracked d); [cbn|done]. lia. }
  unfold route_bodies. apply bind_ext.
  - unfold call_bodies. destruct (String.eqb _ _); [done|]. apply bind_ext; [by apply body_ext|done].
  - intros bodies t3 _. apply bind_ext; [|done]. destruct (callback_arg _ ≫= _); [by apply callback_ext|done].
Qed.
End Rounds.
Lemma route_rounds fuel fuel' reg input f t : frame_ok f -> (MAX_TRANSACTION_DEPTH < length (fr_path f) + fuel)%nat -> (MAX_TRANSACTION_DEPTH < length (fr_path f) + fuel')%nat ->
  (length (fr_path f) <= MAX_TRANSACTION_DEPTH)%nat -> route_loop fuel reg input f t = route_loop fuel' reg input f t.
Proof.
  revert fuel' input f t. induction fuel as [|fuel IH]; intros [|fuel'] input f t Hf H1 H2 Hl; [lia..|]. cbn [route_loop].
  apply (step_ext _ _ (length (fr_path f))); [|done|done]. intros input' f' t' [Hf' He] Hlt. unfold frame_ok in *. apply IH; lia.
Qed.

(** C23: Routing a transaction is bounded. From the root five rounds are enough: more fuel gives
    the same result, so no call is refused for lack of it; and at the end, on success or
    failure, no more than 256 calls and callbacks were entered and every diagnostic is at a
    depth of at most five. *)
Theorem route_bounded reg input :
  (forall fuel, (S MAX_TRANSACTION_DEPTH <= fuel)%nat -> route_loop fuel reg input root_frame new_traversal = route_transaction reg input root_frame new_traversal) /\
  within_budget (route_transaction reg input root_frame new_traversal).2.
Proof.
  split.
  - intros fuel Hf. apply route_rounds; unfold frame_ok; cbn; lia.
  - apply route_budget; [split; unfold frame_ok; cbn; lia|]. constructor; [unfold MAX_TRANSACTION_NODES; cbn; lia|done].
Qed.

(** *** Diagnostics follow the unknown bodies *)
(** On an active traversal, [m] adds diagnostics exactly when [g] holds of its result, where
    [base] says whether something before it was unknown. *)
Definition tracks_from {A} (base : bool) (g : A -> bool) (m : walk A) : Prop := forall t, tv_active t = true ->
  tv_active (m t).2 = true /\ exists new, tv_diagnostics (m t).2 = tv_diagnostics t ++ new /\ forall a, (m t).1 = Ok a -> (new = [] /\ base = false <-> g a = false).
Definition tracks {A} (g : A -> bool) (m : walk A) : Prop := tracks_from false g m.
Definition returns {A} (Q : A -> Prop) (m : walk A) : Prop := forall t a, (m t).1 = Ok a -> Q a.
Definition hidden (bodies : list ActionBody) : bool := existsb body_has_unknown bodies.
Lemma tracks_lift {A} base (g : A -> bool) r : (forall a, r = Ok a -> g a = base) -> tracks_from base g (lift r).
Proof. intros H t Ht. split; [done|]. exists []. split; [cbn; by rewrite app_nil_r|]. intros a Ha. cbn in Ha. rewrite (H a Ha). naive_solver. Qed.
Lemma tracks_ret {A} base (g : A -> bool) a : g a = base -> tracks_from base g (mret a).
Proof. intros H. apply (tracks_lift base g (Ok a)). by intros ? [= <-]. Qed.
Lemma tracks_bind_if {A B} base g (Q : A -> Prop) (m : walk A) h (k : A -> walk B) : tracks_from base g m -> returns Q m ->
  (forall a, Q a -> tracks_from (g a) h (k a)) -> tracks_from base h (m ≫= k).
Proof.
  intros Hm HQ Hk t Ht. rewrite walk_bind_run. destruct (Hm t Ht) as (Ha & new & Hd & Hg). specialize (HQ t). destruct (m t) as [[a|e|] t1]; [|split; [done|]; exists new; by split..].
  cbn [fst snd] in *. destruct (Hk a (HQ a eq_refl) t1 Ha) as (Ha2 & new2 & Hd2 & Hh). split; [done|]. exists (new ++ new2). split; [by rewrite Hd2, Hd, app_assoc|].
  intros b Hb. rewrite <- (Hh b Hb), <- (Hg a eq_refl). split; [intros [[-> ->]%app_nil ->]; done|]. by intros [-> [-> ->]].
Qed.
Lemma tracks_bind {A B} base g (m : walk A) h (k : A -> walk B) : tracks_from base g m -> (forall a, tracks_from (g a) h (k a)) -> tracks_from base h (m ≫= k).
Proof. intros Hm Hk. by apply (tracks_bind_if base g (fun _ => True)). Qed.
Lemma tracks_frame {A} base (g : A -> bool) m : tracks g m -> tracks_from base (fun a => base || g a) m.
Proof.
  intros Hm t Ht. destruct (Hm t Ht) as (Ha & new & Hd & Hg). split; [done|]. exists new. split; [done|]. intros a Hr. rewrite orb_false_iff, <- (Hg a Hr). naive_solver.
Qed.
Lemma tracks_record base f code id : tracks_from base (fun _ => true) (record f code id).
Proof. intros t Ht. split; [done|]. eexists. split; [done|]. intros _ _. naive_solver. Qed.
Lemma tracks_enter base f : tracks_from base (fun _ => base) (enter f).
Proof.
  intros t Ht. unfold enter. destruct (_ <? _)%nat; [|destruct (_ <=? _)%nat]; (split; [done|]); exists []; cbn; (split; [by rewrite app_nil_r|]); naive_solver.
Qed.
Lemma tracks_gate base f index : tracks_from base (fun _ => base) (gate f index).
Proof. unfold gate. destruct (_ <=? _)%nat; [by apply tracks_ret|apply tracks_enter]. Qed.
Lemma tracks_is_active {A} base h (k : bool -> walk A) : tracks_from base h (k true) -> tracks_from base h (is_active ≫= k).
Proof. intros Hk t Ht. rewrite walk_bind_run. cbn. rewrite Ht. by apply Hk. Qed.
Lemma tracks_try {A B} (g : A -> bool) (m : walk A) h (k : EngineErrorDto + A -> walk B) : tracks g m ->
  (forall a, tracks_from (g a) h (k (inr a))) -> (forall e base, tracks_from base h (k (inl e))) -> tracks h (try_walk m ≫= k).
Proof.
  intros Hm Hr Hl t Ht. rewrite walk_bind_run. unfold try_walk. destruct (Hm t Ht) as (Ha & new & Hd & Hg). destruct (m t) as [[a|e|] t1]; cbn [fst snd] in *.
  - destruct (Hr a t1 Ha) as (Ha2 & new2 & Hd2 & Hh). split; [done|]. exists (new ++ new2). split; [by rewrite Hd2, Hd, app_assoc|].
    intros b Hb. rewrite <- (Hh b Hb), <- (Hg a eq_refl). split; [intros [[-> ->]%app_nil _]; done|]. by intros [-> [-> _]].
  - destruct (Hl e true t1 Ha) as (Ha2 & new2 & Hd2 & Hh). split; [done|]. exists (new ++ new2). split; [by rewrite Hd2, Hd, app_assoc|].
    intros b Hb. destruct (Hl e false t1 Ha) as (_ & new3 & Hd3 & Hh3). rewrite Hd2 in Hd3. apply app_inv_head in Hd3 as <-. specialize (Hh b Hb). specialize (Hh3 b Hb).
    split; [intros [[-> ->]%app_nil _]; by apply Hh3|]. intros H. by apply Hh in H as [_ ?].
  - split; [done|]. exists new. by split.
Qed.
Lemma tracks_calls {A} (f : nat -> A -> walk (list ActionBody)) i l : (forall i x, tracks hidden (f i x)) -> tracks hidden (walk_calls f i l).
Proof.
  intros Hf. revert i. induction l as [|x l IH]; intros i; [by apply tracks_ret|]. cbn [walk_calls]. eapply tracks_bind; [apply Hf|]. intros a. cbn beta.
  eapply tracks_bind; [apply tracks_frame, IH|]. intros more. apply tracks_ret. unfold hidden. by rewrite existsb_app.
Qed.
Lemma unknown_leg_unknown chain_id target calldata value context b : unknown_child_leg chain_id target calldata value context = Ok b -> body_has_unknown b = true.
Proof. unfold unknown_child_leg. intros H. apply bind_Ok_inv in H as (? & _ & H). apply bind_Ok_inv in H as (? & _ & H). by injection H as <-. Qed.
Lemma tracks_opaque base input f code id : tracks_from base hidden (b ← opaque_call input f code id; mret [b]).
Proof.
  unfold opaque_call. apply (tracks_bind_if base body_has_unknown (fun b => body_has_unknown b = true)).
  - eapply (tracks_bind_if base (fun _ => base) (fun b => body_has_unknown b = true)); [by apply tracks_lift|intros t a; apply unknown_leg_unknown|].
    intros a Ha. eapply tracks_bind; [apply tracks_record|]. intros []. by apply tracks_ret.
  - intros t a. rewrite walk_bind_run. cbn. destruct (unknown_child_leg _ _ _ _ _) as [b|e|] eqn:Hb; [|done..]. cbn. intros [= <-]. by eapply unknown_leg_unknown.
  - intros b Hb. apply tracks_ret. unfold hidden. cbn. by rewrite Hb.
Qed.
Definition result_hidden (r : RouteResult) : bool := hidden (ac_body <$> rr_actions r).
Section Tracks.
Context (rec : RouteInput -> Frame -> walk RouteResult) (Hrec : forall input f, tracks result_hidden (rec input f)).
Lemma child_tracks input f index call_array : tracks hidden (process_multicall_child rec input f index call_array).
Proof.
  unfold process_multicall_child. eapply tracks_bind; [apply tracks_gate|]. intros [code|]; [apply tracks_opaque|]. eapply tracks_bind; [by apply (tracks_lift false (fun _ => false))|].
  intros b. cbn beta. destruct (_ <? 4)%nat; [destruct call_array; [apply tracks_opaque|by apply tracks_lift]|]. eapply tracks_try; [apply Hrec| |].
  - intros r. cbn zeta. destruct (_ && _); [by apply tracks_lift|by apply tracks_ret].
  - intros e base. cbn beta. destruct (String.eqb (ee_kind e) _); [apply tracks_opaque|]. destruct (String.eqb (ee_kind e) _); [apply tracks_opaque|by apply tracks_lift].
Qed.
Lemma legs_tracks chain_id submitter at_ legs f : tracks hidden (process_call_legs rec chain_id submitter at_ legs f).
Proof.
  apply tracks_calls. intros i leg. unfold call_leg. do 3 (eapply tracks_bind; [by apply (tracks_lift false (fun _ => false))|intros ?; cbn beta]). apply child_tracks.
Qed.
Lemma callback_tracks input callback id f : tracks hidden (process_reenter_callback rec input callback id f).
Proof.
  unfold process_reenter_callback. destruct (String.eqb _ _); [by apply tracks_ret|]. eapply tracks_bind; [apply tracks_enter|]. intros [code|]; [apply tracks_opaque|].
  eapply tracks_bind; [by apply (tracks_lift false (fun _ => false))|]. intros [legs|]; [apply legs_tracks|by apply tracks_ret].
Qed.
Lemma batch_tracks actions : tracks_from (hidden actions) body_has_unknown (lift (batch_of actions)).
Proof. apply tracks_lift. intros b. unfold batch_of. destruct actions; [done|]. by intros [= <-]. Qed.
Lemma recursive_tracks input d f : is_recursive (dd_strategy d) = true -> tracks body_has_unknown (strategy_body rec input d f).
Proof.
  unfold is_recursive, strategy_body, build_multicall_recurse_body_with_context, build_multicall_call_array_body_with_context.
  destruct (String.eqb _ "multicall_recurse").
  - intros _. destruct (negb _); [by apply tracks_lift|]. eapply tracks_bind; [by apply (tracks_lift false (fun _ => false))|]. intros calls. eapply tracks_bind; [|apply batch_tracks].
    apply tracks_calls. intros i item. unfold self_call. eapply tracks_bind; [by apply (tracks_lift false (fun _ => false))|]. intros hex. apply child_tracks.
  - cbn [orb]. intros ->. eapply tracks_bind; [by apply (tracks_lift false (fun _ => false))|]. intros legs. eapply tracks_bind; [apply legs_tracks|apply batch_tracks].
Qed.
Lemma returns_bind {A B} Q (m : walk A) (k : A -> walk B) : (forall a, returns Q (k a)) -> returns Q (m ≫= k).
Proof. intros Hk t b. rewrite walk_bind_run. destruct (m t) as [[a|e|] t1]; [apply Hk|done..]. Qed.
Lemma recursive_batch input d f : is_recursive (dd_strategy d) = true -> returns (fun b => b <> Multicall []) (strategy_body rec input d f).
Proof.
  assert (forall actions, returns (fun b => b <> Multicall []) (lift (batch_of actions))) as Hb.
  { intros actions t b. cbn. unfold batch_of. destruct actions; [done|]. by intros [= <-]. }
  unfold is_recursive, strategy_body, build_multicall_recurse_body_with_context, build_multicall_call_array_body_with_context.
  destruct (String.eqb _ "multicall_recurse"); [intros _; destruct (negb _); [done|]|cbn [orb]; intros ->]; (apply returns_bind; intros ?; apply returns_bind; intros ?; apply Hb).
Qed.
Lemma bodies_tracks input d f : tracks hidden (route_bodies rec input d f).
Proof.
  unfold route_bodies. eapply tracks_bind.
  - unfold call_bodies. destruct (String.eqb _ "reenter_only"); [by apply (tracks_ret false hidden)|]. destruct (is_recursive (dd_strategy d)) eqn:Hr.
    + eapply tracks_bind_if; [by apply recursive_tracks|by apply recursive_batch|]. intros body Hb. cbn zeta. apply tracks_is_active. cbn [andb negb].
      eapply tracks_bind; [by apply (tracks_ret _ (fun _ => body_has_unknown body))|]. intros []. apply tracks_ret. unfold hidden. cbn [existsb]. rewrite orb_false_r.
      by destruct body as [| | | | | | | | | | | | | | |[|x l]|].
    + eapply (tracks_bind _ (fun _ => false)); [unfold strategy_body; apply orb_false_iff in Hr as [-> ->]; by apply tracks_lift|]. intros body. cbn zeta.
      set (b := match body with Multicall [] => ctx_unknown (dd_ctx d) | _ => body end). apply tracks_is_active. cbn [andb negb].
      eapply (tracks_bind _ (fun _ => body_has_unknown b)); [destruct (body_has_unknown b); [apply tracks_record|by apply tracks_ret]|]. intros []. apply tracks_ret.
      unfold hidden. cbn [existsb]. apply orb_false_r.
  - intros bodies. cbn beta. eapply (tracks_bind _ (fun more => hidden bodies || hidden more)).
    + apply (tracks_frame _ hidden). destruct (callback_arg _ ≫= _); [apply callback_tracks|by apply tracks_ret].
    + intros more. cbn zeta. destruct (_ && _); [|apply tracks_ret; unfold hidden; apply existsb_app].
      eapply tracks_bind; [apply tracks_record|]. intros []. cbn beta. eapply (tracks_bind_if _ (fun _ => true) (fun b => body_has_unknown b = true)); [by apply tracks_lift|intros t a; apply unknown_leg_unknown|].
      intros leg Hl. apply tracks_ret. unfold hidden. cbn. by rewrite Hl.
Qed.
Lemma actions_hidden d f bodies : hidden (ac_body <$> route_actions d f bodies) = hidden bodies.
Proof.
  unfold route_actions. destruct (_ && _); [cbn; apply orb_false_r|]. f_equal. rewrite <- list_fmap_compose. apply list_fmap_id.
Qed.
Lemma step_tracks reg input f : tracks result_hidden (route_step rec reg input f).
Proof.
  unfold route_step. eapply tracks_bind; [by apply (tracks_lift false (fun _ => false))|]. intros d. cbn beta.
  eapply (tracks_bind _ (fun _ => false)).
  - destruct (tracked d); [|by apply tracks_ret]. intros t Ht. split; [done|]. exists []. cbn. split; [by rewrite app_nil_r|]. naive_solver.
  - intros []. cbn zeta. eapply tracks_bind; [apply bodies_tracks|]. intros bodies. apply tracks_ret. apply actions_hidden.
Qed.
(** A call with no batch, callback or re-entry leaves an inactive traversal alone. *)
Lemma untracked_bodies input d f t : tracked d = false -> tv_active t = false -> (route_bodies rec input d f t).2 = t.
Proof.
  unfold tracked. rewrite !orb_false_iff, bool_decide_eq_false. intros [[Hr Hc] Ho] Ht. unfold route_bodies, call_bodies, strategy_body. rewrite Ho.
  unfold is_recursive in Hr. apply orb_false_iff in Hr as [-> ->]. destruct (callback_arg (dd_emit d)) as [arg|]; [by exfalso; apply Hc|].
  rewrite !walk_bind_run. unfold lift. destruct (emit_local _ _ _ _ _) as [b|e|]; [|done..]. cbn. rewrite walk_bind_run. unfold is_active. by rewrite Ht.
Qed.
End Tracks.
Lemma route_tracks fuel reg input f : tracks result_hidden (route_loop fuel reg input f).
Proof. revert input f. induction fuel as [|fuel IH]; intros input f; [by apply tracks_lift|]. cbn [route_loop]. by apply step_tracks. Qed.

Lemma route_status reg input r : route_input reg input = Ok r ->
  exists d, decode_call reg input = Ok d /\
    (rr_decoding r = None <-> tracked d = false) /\
    forall decoding, rr_decoding r = Some decoding ->
      (td_status decoding = Complete <-> Forall (fun a => body_has_unknown (ac_body a) = false) (rr_actions r)) /\
      (td_status decoding = Complete <-> td_diagnostics decoding = []).
Proof.
  unfold route_input, route_transaction. cbn [route_loop]. set (rec := route_loop _ reg).
  assert (forall input f, tracks result_hidden (rec input f)) as Hrec by (intros; apply route_tracks). clearbody rec. unfold route_step. rewrite walk_bind_run. unfold lift at 1. cbn [fst snd].
  destruct (decode_call reg input) as [d|e|]; [|done..]. intros H. exists d. split; [done|]. rewrite walk_bind_run in H. destruct (tracked d) eqn:Htr.
  - cbn in H. set (t := mkTraversal 1 true []) in H. set (f := with_manifest root_frame (dd_emit d)) in H.
    destruct (bodies_tracks rec Hrec input d f t eq_refl) as (Ha & new & Hd & Hg).
    rewrite walk_bind_run in H. destruct (route_bodies rec input d f t) as [[bodies|e|] t']; [|done..]. cbn in H, Ha, Hd, Hg. rewrite Ha in H. injection H as <-. cbn [rr_decoding with_decoding rr_actions].
    split; [naive_solver|]. intros decoding [= <-]. cbn [finish td_status td_diagnostics]. rewrite Hd. specialize (Hg bodies eq_refl).
    rewrite <- actions_hidden with (d := d) (f := f) in Hg. unfold hidden in Hg.
    assert (existsb body_has_unknown (ac_body <$> route_actions d f bodies) = false <-> Forall (fun a => body_has_unknown (ac_body a) = false) (route_actions d f bodies)) as He.
    { clear. induction (route_actions d f bodies) as [|a l IH]; [by split|]. cbn [fmap list_fmap existsb]. by rewrite orb_false_iff, Forall_cons, <- IH. }
    rewrite <- He, <- Hg. destruct new; naive_solver.
  - cbn in H. rewrite walk_bind_run in H. pose proof (untracked_bodies rec input d root_frame new_traversal Htr eq_refl) as Ht.
    destruct (route_bodies rec input d root_frame new_traversal) as [[bodies|e|] t']; [|done..]. cbn in Ht. subst t'. injection H as <-. by split.
Qed.

(** C21: The decoding status is exact. A request reports a status exactly when its manifest
    recurses, names a callback argument or only re-enters; the status is Complete exactly when
    no action of the result contains an Unknown call, however deep, and then there are no
    diagnostics. An inner call is never left uninterpreted without a diagnostic, and no
    diagnostic is reported of a request whose calls were all interpreted. *)
Theorem decoding_status_exact reg input r : route_input reg input = Ok r ->
  exists d, decode_call reg input = Ok d /\
    (rr_decoding r = None <-> tracked d = false) /\
    forall decoding, rr_decoding r = Some decoding ->
      (td_status decoding = Complete <-> Forall (fun a => body_has_unknown (ac_body a) = false) (rr_actions r)) /\
      (td_status decoding = Complete <-> td_diagnostics decoding = []).
Proof. apply route_status. Qed.

(** *** Every inner call is visible *)
Lemma returns_bind_if {A B} (Q1 : A -> Prop) Q (m : walk A) (k : A -> walk B) : returns Q1 m -> (forall a, Q1 a -> returns Q (k a)) -> returns Q (m ≫= k).
Proof. intros Hm Hk t b. rewrite walk_bind_run. specialize (Hm t). destruct (m t) as [[a|e|] t1]; [|done..]. apply Hk. by apply Hm. Qed.
Lemma returns_ret {A} (Q : A -> Prop) a : Q a -> returns Q (mret a).
Proof. intros H t b [= <-]. done. Qed.
Lemma returns_opaque input f code id : returns (fun l : list ActionBody => l <> []) (b ← opaque_call input f code id; mret [b]).
Proof. apply returns_bind. intros b. by apply returns_ret. Qed.
Definition visible_result (r : RouteResult) : Prop := rr_actions r <> [].
Lemma step_visible rec reg input f : returns visible_result (route_step rec reg input f).
Proof.
  unfold route_step. do 2 (apply returns_bind; intros ?). cbn zeta. apply (returns_bind_if (fun l => l <> [])).
  - unfold route_bodies, call_bodies. destruct (String.eqb _ "reenter_only") eqn:Ho.
    + apply (returns_bind_if (fun l => l = [])); [by apply returns_ret|]. intros ? ->. apply returns_bind. intros more. cbn [app andb]. destruct more; cbn [length Nat.eqb]; [|by apply returns_ret].
      do 2 (apply returns_bind; intros ?). by apply returns_ret.
    + apply (returns_bind_if (fun l => l <> [])); [do 3 (apply returns_bind; intros ?; cbn zeta); by apply returns_ret|]. intros bodies Hb. apply returns_bind. intros more. cbn [andb].
      apply returns_ret. by destruct bodies.
  - intros bodies Hb. apply returns_ret. unfold visible_result, route_actions. cbn [rr_actions]. destruct (_ && _); [done|]. by destruct bodies.
Qed.
Lemma route_visible fuel reg input f : returns visible_result (route_loop fuel reg input f).
Proof. destruct fuel; [done|]. apply step_visible. Qed.
(** *** How one inner call of a batch is read *)
(** The inner call an element of the argument stands for: calldata for the target itself, or a
    tuple of target, calldata and value. *)
Definition inner_call (self : bool) (input : RouteInput) (call : Value) : option RouteInput :=
  if self then
    hex ← as_str call;
    Some (child_transaction (ri_chain_id input) (ri_to input) hex "0" (ri_submitter input) (ri_submitted_at input))
  else
    fields ← as_array call;
    to ← (v ← fields !! 0%nat; as_str v);
    data ← (v ← fields !! 1%nat; as_str v);
    Some (child_transaction (ri_chain_id input) to data (default "0"%string (v ← fields !! 2%nat; as_str v)) (ri_submitter input) (ri_submitted_at input)).
(** The Unknown call that stands for a call: its own target, calldata and value. *)
Definition stands_for (call : RouteInput) (b : ActionBody) : Prop :=
  exists target value, parse_v3_address (ri_to call) "multicall child target" = Ok target /\ parse_v3_u256 (ri_value call) "multicall child target" = Ok value /\
    b = UnknownCall target ("eip155:" +:+ pretty (ri_chain_id call)) (ri_calldata call) value.
Lemma opaque_stands_for call f code id t b t' : opaque_call call f code id t = (Ok b, t') ->
  stands_for call b /\ t' = mkTraversal (tv_nodes t) (tv_active t) (tv_diagnostics t ++ [mkDiagnostic code (fr_path f) id]).
Proof.
  unfold opaque_call, unknown_child_leg. rewrite walk_bind_run. cbn. destruct (parse_v3_address _ _) as [target|e|] eqn:Ha; [|done..]. cbn.
  destruct (parse_v3_u256 _ _) as [value|e|] eqn:Hv; [|done..]. cbn. intros [= <- <-]. split; [|done]. by exists target, value.
Qed.
Lemma walk_bind_Ok {A B} (m : walk A) (k : A -> walk B) t b t' : (m ≫= k) t = (Ok b, t') -> exists a t1, m t = (Ok a, t1) /\ k a t1 = (Ok b, t').
Proof. rewrite walk_bind_run. destruct (m t) as [[a|e|] t1]; [|done..]. eauto. Qed.
Lemma ok_or_inv {E A} (e : E) (o : option A) a : ok_or e o = Ok a -> o = Some a.
Proof. destruct o; [by intros [= ->]|done]. Qed.
Lemma lift_Ok_inv {A} (r : routed A) t a t' : lift r t = (Ok a, t') -> r = Ok a /\ t' = t.
Proof. by intros [= -> ->]. Qed.

Section Reading.
Context (rec : RouteInput -> Frame -> walk RouteResult) (self : bool).
(** A call that may be entered: within the children, the depth and the nodes of the request. *)
Definition may_enter (f : Frame) (i : nat) (t : Traversal) : Prop :=
  (i < MAX_MULTICALL_CHILDREN)%nat /\ (length (fr_path f) <= fr_depth_limit f)%nat /\ (tv_nodes t < MAX_TRANSACTION_NODES)%nat.
Definition counted (t : Traversal) : Traversal := mkTraversal (S (tv_nodes t)) (tv_active t) (tv_diagnostics t).
Definition noted (f : Frame) (code : DiagnosticCode) (t : Traversal) : Traversal :=
  mkTraversal (tv_nodes t) (tv_active t) (tv_diagnostics t ++ [mkDiagnostic code (fr_path f) None]).
Definition selected (call : RouteInput) (data : bytes) : RouteInput := with_selector call ("0x" +:+ hex_encode (take 4 data)).
(** Why a call is not followed. *)
Inductive NotFollowed (call : RouteInput) (f : Frame) (i : nat) (t : Traversal) : DiagnosticCode -> Traversal -> Prop :=
| over_children : (MAX_MULTICALL_CHILDREN <= i)%nat -> NotFollowed call f i t ChildLimit t
| too_deep : (i < MAX_MULTICALL_CHILDREN)%nat -> (fr_depth_limit f < length (fr_path f))%nat -> NotFollowed call f i t DepthLimit t
| over_nodes : (i < MAX_MULTICALL_CHILDREN)%nat -> (length (fr_path f) <= fr_depth_limit f)%nat -> (MAX_TRANSACTION_NODES <= tv_nodes t)%nat -> NotFollowed call f i t NodeLimit t
| too_short data : may_enter f i t -> self = false -> hex_decode (hex_body (ri_calldata call)) = Some data -> (length data < 4)%nat -> NotFollowed call f i t ShortCalldata (counted t)
| not_routed data e code t1 : may_enter f i t -> hex_decode (hex_body (ri_calldata call)) = Some data -> (4 <= length data)%nat ->
    rec (selected call data) f (counted t) = (Err e, t1) ->
    (ee_kind e, code) = ("no_declarative_v3_mapper"%string, UnregisteredCall) \/ (ee_kind e, code) = ("route_failed"%string, RouteNotApplicable) ->
    NotFollowed call f i t code t1.
(** The bodies one call is read as: the actions of its own route, or one Unknown call that
    stands for it, with a diagnostic that says why. *)
Inductive CallRead (call : RouteInput) (f : Frame) (i : nat) (t : Traversal) : list ActionBody -> Traversal -> Prop :=
| read_followed data r t1 : may_enter f i t -> hex_decode (hex_body (ri_calldata call)) = Some data -> (4 <= length data)%nat ->
    rec (selected call data) f (counted t) = (Ok r, t1) -> CallRead call f i t (ac_body <$> rr_actions r) t1
| read_opaque code b t1 : NotFollowed call f i t code t1 -> stands_for call b -> CallRead call f i t [b] (noted f code t1).
Lemma gate_run f i t limit t1 : gate f i t = (Ok limit, t1) ->
  match limit with Some code => forall call, NotFollowed call f i t code t1 | None => may_enter f i t /\ t1 = counted t end.
Proof.
  unfold gate, enter. destruct (Nat.leb_spec MAX_MULTICALL_CHILDREN i); [intros [= <- <-] ?; by constructor|]. destruct (Nat.ltb_spec (fr_depth_limit f) (length (fr_path f))); [intros [= <- <-] ?; by constructor|].
  destruct (Nat.leb_spec MAX_TRANSACTION_NODES (tv_nodes t)); [intros [= <- <-] ?; by constructor|]. intros [= <- <-]. done.
Qed.
Lemma opaque_read call f i t code t1 id l t2 : NotFollowed call f i t code t1 -> id = None ->
  (b ← opaque_call call f code id; mret [b]) t1 = (Ok l, t2) -> CallRead call f i t l t2.
Proof. intros Hn -> (b & t3 & Ho & [= <- <-])%walk_bind_Ok. apply opaque_stands_for in Ho as [Hs ->]. by apply read_opaque. Qed.
Lemma child_read c to data value sub at_ f i t l t' :
  let call := child_transaction c to data value sub at_ in process_multicall_child rec call f i (negb self) t = (Ok l, t') -> CallRead call f i t l t'.
Proof.
  intros call. unfold process_multicall_child. intros (limit & t1 & Hg%gate_run & H)%walk_bind_Ok. destruct limit as [code|]; [by eapply opaque_read|]. destruct Hg as [Ha ->].
  apply walk_bind_Ok in H as (b & t1 & [Hb ->]%lift_Ok_inv & H). apply ok_or_inv in Hb. destruct (Nat.ltb_spec (length b) 4).
  - destruct self eqn:Hself; [done|]. eapply opaque_read; [by eapply too_short|done|exact H].
  - apply walk_bind_Ok in H as ([e|r] & t1 & Ht & H); unfold try_walk in Ht; destruct (rec _ f _) as [[r'|e'|] t2] eqn:Hr; try done; injection Ht as ? ?; subst.
    + destruct (String.eqb_spec (ee_kind e) "no_declarative_v3_mapper"); [eapply (opaque_read _ _ _ _ UnregisteredCall); [eapply not_routed; eauto; left; congruence|done|exact H]|].
      destruct (String.eqb_spec (ee_kind e) "route_failed"); [eapply (opaque_read _ _ _ _ RouteNotApplicable); [eapply not_routed; eauto; right; congruence|done|exact H]|done].
    + destruct (_ && _); [done|]. injection H as <- <-. by eapply read_followed.
Qed.
End Reading.
(** The calls of a batch are read one after the other, each from the traversal the one before
    it left. *)
Inductive InTurn {A} (R : nat -> A -> Traversal -> list ActionBody -> Traversal -> Prop) : nat -> list A -> Traversal -> list (list ActionBody) -> Traversal -> Prop :=
| turn_end i t : InTurn R i [] t [] t
| turn_next i x l t part t1 parts t2 : R i x t part t1 -> InTurn R (S i) l t1 parts t2 -> InTurn R i (x :: l) t (part :: parts) t2.
Lemma calls_in_turn {A} (f : nat -> A -> walk (list ActionBody)) R i l t out t' : (forall i x t part t1, f i x t = (Ok part, t1) -> R i x t part t1) ->
  walk_calls f i l t = (Ok out, t') -> exists parts, out = concat parts /\ InTurn R i l t parts t'.
Proof.
  intros Hf. revert i t out. induction l as [|x l IH]; intros i t out.
  - intros [= <- <-]. exists []. split; [done|constructor].
  - cbn [walk_calls]. intros (a & t1 & Ha & (more & t2 & Hm & [= <- <-])%walk_bind_Ok)%walk_bind_Ok. apply IH in Hm as (parts & -> & Hp). exists (a :: parts). split; [done|]. econstructor; eauto.
Qed.
Lemma in_turn_parts {A} (R : nat -> A -> Traversal -> list ActionBody -> Traversal -> Prop) (Q : list ActionBody -> Prop) i l t parts t' :
  (forall i x t part t1, R i x t part t1 -> Q part) -> InTurn R i l t parts t' -> length parts = length l /\ Forall Q parts.
Proof. intros HR. induction 1 as [|i x l t part t1 parts t2 Hx _ [Hl Hq]]; [done|]. cbn [length]. split; [lia|]. constructor; eauto. Qed.

Section Visible.
Context (rec : RouteInput -> Frame -> walk RouteResult).
(** Reading the element of the argument at an index. *)
Definition element_read (self : bool) (input : RouteInput) (f : Frame) (i : nat) (item : Value) (t : Traversal) (part : list ActionBody) (t' : Traversal) : Prop :=
  exists call, inner_call self input item = Some call /\ CallRead rec self call (child_frame f ((if self then SelfCall else CallAt) i)) i t part t'.
Lemma self_call_read input f i item t l t' : self_call rec input f i item t = (Ok l, t') -> element_read true input f i item t l t'.
Proof.
  unfold self_call. intros (hex & t1 & [Hx ->]%lift_Ok_inv & H)%walk_bind_Ok. apply ok_or_inv in Hx. unfold element_read, inner_call. rewrite Hx. cbn. eexists. split; [done|]. by apply child_read.
Qed.
Lemma call_leg_read input f i item t l t' : call_leg rec (ri_chain_id input) (ri_submitter input) (ri_submitted_at input) f i item t = (Ok l, t') -> element_read false input f i item t l t'.
Proof.
  unfold call_leg. intros (fields & t1 & [Hx%ok_or_inv ->]%lift_Ok_inv & H)%walk_bind_Ok. apply walk_bind_Ok in H as (to & t1 & [Ht%ok_or_inv ->]%lift_Ok_inv & H).
  apply walk_bind_Ok in H as (data & t1 & [Hd%ok_or_inv ->]%lift_Ok_inv & H). unfold element_read, inner_call. rewrite Hx. cbn [mbind option_bind]. rewrite Ht. cbn [mbind option_bind]. rewrite Hd.
  eexists. split; [done|]. by apply child_read.
Qed.
Definition is_self (d : Decoded) : bool := String.eqb (dd_strategy d) "multicall_recurse".
Lemma recursive_read input d f t body t' : is_recursive (dd_strategy d) = true -> strategy_body rec input d f t = (Ok body, t') ->
  exists calls parts, recurse_argument (dd_args d) (dd_emit d) = Ok calls /\ body = Multicall (concat parts) /\ InTurn (element_read (is_self d) input f) 0 calls t parts t'.
Proof.
  unfold is_recursive, is_self, strategy_body, build_multicall_recurse_body_with_context, build_multicall_call_array_body_with_context, process_call_legs.
  assert (forall parts t1, lift (batch_of (concat parts)) t1 = (Ok body, t') -> body = Multicall (concat parts) /\ t1 = t') as Hb.
  { intros parts t1 [Hb ->]%lift_Ok_inv. unfold batch_of in Hb. destruct (concat parts); [done|]. by injection Hb as <-. }
  destruct (String.eqb _ "multicall_recurse"); [intros _; destruct (negb _); [done|]|cbn [orb]; intros ->];
    intros (calls & t1 & [Hc ->]%lift_Ok_inv & (out & t2 & Hw & H)%walk_bind_Ok)%walk_bind_Ok.
  - apply (calls_in_turn _ _ _ _ _ _ _ (self_call_read input f)) in Hw as (parts & -> & Hp). apply Hb in H as [-> ->]. by exists calls, parts.
  - apply (calls_in_turn _ _ _ _ _ _ _ (call_leg_read input f)) in Hw as (parts & -> & Hp). apply Hb in H as [-> ->]. by exists calls, parts.
Qed.
Lemma element_visible self input f i item t part t' : (forall input f, returns visible_result (rec input f)) -> element_read self input f i item t part t' -> part <> [].
Proof.
  intros Hrec (call & _ & [data r t1 _ _ _ Hr|code b t1 _ _]); [|done]. apply (f_equal fst) in Hr. apply Hrec in Hr. unfold visible_result in Hr. by destruct (rr_actions r).
Qed.
End Visible.

(** C22: No inner call vanishes. When a multicall is read, the argument the manifest recurses into
    is an array and the batch is the concatenation of one part an element, in their order. Each
    element is an inner call, read at its own path from the traversal the elements before it
    left, and its part is what that call is read as ([CallRead]): the actions of its own route,
    of which there is at least one; or a single Unknown call with its target, calldata and
    value, recorded with the reason: over the children, depth or node limit, calldata without
    a selector, no manifest registered, or a manifest that does not apply. *)
Theorem no_call_vanishes fuel reg input d f t body t' : is_recursive (dd_strategy d) = true ->
  strategy_body (route_loop fuel reg) input d f t = (Ok body, t') ->
  exists calls parts, recurse_argument (dd_args d) (dd_emit d) = Ok calls /\ body = Multicall (concat parts) /\
    InTurn (element_read (route_loop fuel reg) (is_self d) input f) 0 calls t parts t' /\
    length parts = length calls /\ Forall (fun p => p <> []) parts.
Proof.
  intros Hr Hb. apply recursive_read in Hb as (calls & parts & Hc & -> & Hp); [|done]. exists calls, parts. split; [done|]. split; [done|]. split; [done|].
  eapply in_turn_parts; [|exact Hp]. intros i x u part u'. apply element_visible. apply route_visible.
Qed.
End RouteLaws.

(** ** The routing tables *)
Lemma insert_all_lookup {K V} `{Countable K} (keys : list K) (v : V) m k : insert_all keys v m !! k = if bool_decide (k ∈ keys) then Some v else m !! k.
Proof.
  unfold insert_all. revert m. induction keys as [|k' keys IH]; intros m; [done|]. cbn [fold_left]. rewrite IH. repeat case_bool_decide; try done.
  - by exfalso; apply H1; right.
  - assert (k = k') as -> by by apply elem_of_cons in H1 as [?|?]. by rewrite lookup_insert_eq.
  - rewrite lookup_insert_ne; [done|]. intros ->. by apply H1; left.
Qed.
Record registry_ok (reg : DecoderRegistry) : Prop := {
  ok_bridge k id : dr_bridge reg !! k = Some id -> is_Some (dr_bundles reg !! id);
  ok_typed k id : dr_typed_data_bridge reg !! k = Some id -> is_Some (dr_bundles reg !! id);
  ok_selector c selector id : dr_selector_bridge reg !! (c, selector) = Some id -> is_Some (dr_bundles reg !! id) /\ selector ∈ AGNOSTIC_SELECTOR_ALLOWLIST;
  ok_id id v : dr_bundles reg !! id = Some v -> str_member v "id" = Some id }.
Lemma empty_ok : registry_ok empty_registry.
Proof. constructor; cbn; intros *; rewrite lookup_empty; done. Qed.
Section Installed.
Context {E0 : DecodeSerde}.
(** What an accepted install did. *)
Lemma install_inv reg json r reg' : install reg json = Ok (r, reg') -> exists value id mv m,
  value_from_str json = inr value /\ str_member value "id" = Some id /\ value_get value "match" = Some mv /\ match_from_value mv = inr m /\
  (bm_address_agnostic m = true -> to_ascii_lowercase (bm_selector m) ∈ AGNOSTIC_SELECTOR_ALLOWLIST) /\
  r = mkInstallResult id id /\
  dr_bundles reg' = <[id := value]> (dr_bundles reg) /\
  dr_bridge reg' = insert_all ((fun e => (e.1, to_ascii_lowercase e.2, to_ascii_lowercase (bm_selector m))) <$> match_entries m) id (dr_bridge reg) /\
  dr_typed_data_bridge reg' = match typed_data_route mv with
    | Some (vc, pt, wt) => insert_all ((fun e => (e.1, vc, pt, wt)) <$> match_entries m) id (dr_typed_data_bridge reg) | None => dr_typed_data_bridge reg end /\
  dr_selector_bridge reg' = (if bm_address_agnostic m
    then insert_all ((fun c => (c, to_ascii_lowercase (bm_selector m))) <$> bm_chain_ids m) id (dr_selector_bridge reg) else dr_selector_bridge reg).
Proof.
  unfold install. intros H. apply bind_Ok_inv in H as (_ & _ & H). apply bind_Ok_inv in H as (value & Hv & H). apply bind_Ok_inv in H as (id & Hid & H).
  apply bind_Ok_inv in H as (mv & Hmv & H). apply bind_Ok_inv in H as (m & Hm & H). destruct (_ && _) eqn:Ha; [done|]. injection H as <- <-. exists value, id, mv, m.
  destruct (value_from_str json); [done|]. injection Hv as ->. destruct (str_member value "id"); [|done]. injection Hid as ->. destruct (value_get value "match"); [|done]. injection Hmv as ->.
  destruct (match_from_value mv); [done|]. injection Hm as ->. split_and!; try done. intros Hag. rewrite Hag in Ha. cbn [andb] in Ha. by apply negb_false_iff, bool_decide_eq_true in Ha.
Qed.
Lemma insert_bundle bundles id value id' : is_Some (bundles !! id') \/ id' = id -> is_Some ((<[id := value]> bundles : gmap string Value) !! id').
Proof. destruct (decide (id = id')) as [->|Hne]; [rewrite lookup_insert_eq; eauto|]. rewrite lookup_insert_ne by done. naive_solver. Qed.
Lemma install_ok reg json r reg' : registry_ok reg -> install reg json = Ok (r, reg') -> registry_ok reg'.
Proof.
  intros [H1 H2 H3 H4] Hi. apply install_inv in Hi as (value & id & mv & m & _ & Hid & _ & _ & Hal & _ & Hb & Hbr & Ht & Hs). constructor.
  - intros k id'. rewrite Hbr, Hb, insert_all_lookup. intros H. apply insert_bundle. case_bool_decide; [right; congruence|left; eauto].
  - intros k id'. rewrite Ht, Hb. intros H. apply insert_bundle. destruct (typed_data_route mv) as [[[vc pt] wt]|]; [|eauto]. rewrite insert_all_lookup in H. case_bool_decide; [right; congruence|left; eauto].
  - intros c selector id'. rewrite Hs, Hb. destruct (bm_address_agnostic m) eqn:Hag.
    + rewrite insert_all_lookup. case_bool_decide as Hk.
      * intros [= <-]. split; [apply insert_bundle; by right|]. apply list_elem_of_fmap in Hk as (? & [= -> ->] & _). by apply Hal.
      * intros H%H3. split; [apply insert_bundle; naive_solver|naive_solver].
    + intros H%H3. split; [apply insert_bundle; naive_solver|naive_solver].
  - intros id' v. rewrite Hb. destruct (decide (id = id')) as [->|Hne]; [rewrite lookup_insert_eq; congruence|]. rewrite lookup_insert_ne by done. apply H4.
Qed.
(** The registries a program can hold. *)
Inductive Installed : DecoderRegistry -> Prop :=
| installed_empty : Installed empty_registry
| installed_next reg json r reg' : Installed reg -> install reg json = Ok (r, reg') -> Installed reg'
| installed_clear reg : Installed reg -> Installed (clear reg).
Lemma installed_ok reg : Installed reg -> registry_ok reg.
Proof. induction 1; [apply empty_ok|by eapply install_ok|apply empty_ok]. Qed.

(** Routing is bound to addresses. In every registry installs can build, a key of a table
    leads to an installed manifest, whose own id is the one it is routed by; a call finds the
    manifest installed for its chain, target and selector when there is one, and otherwise
    finds a manifest only if its selector is the one that may be installed for any contract. *)
Theorem routes_bound reg chain_id to selector : Installed reg ->
  (forall id, dr_bridge reg !! (chain_id, to, selector) = Some id ->
     exists v, lookup_bundle reg chain_id to selector = Some (id, v) /\ str_member v "id" = Some id) /\
  (forall id v, lookup_bundle reg chain_id to selector = Some (id, v) ->
     str_member v "id" = Some id /\
     (dr_bridge reg !! (chain_id, to, selector) = Some id \/
      dr_bridge reg !! (chain_id, to, selector) = None /\ dr_selector_bridge reg !! (chain_id, selector) = Some id /\ selector ∈ AGNOSTIC_SELECTOR_ALLOWLIST)).
Proof.
  intros [H1 H2 H3 H4]%installed_ok. unfold lookup_bundle. split.
  - intros id Hid. rewrite Hid. cbn [first_some mbind option_bind]. destruct (H1 _ _ Hid) as [v Hv]. rewrite Hv. cbn. exists v. split; [done|]. by apply H4.
  - intros id v. destruct (dr_bridge reg !! _) as [id'|] eqn:Hb; cbn [first_some].
    + cbn [mbind option_bind]. destruct (dr_bundles reg !! id') as [v'|] eqn:Hv; [|done]. cbn. intros [= -> ->]. split; [by apply H4|by left].
    + destruct (dr_selector_bridge reg !! _) as [id'|] eqn:Hs; [|done]. cbn [mbind option_bind]. destruct (dr_bundles reg !! id') as [v'|] eqn:Hv; [|done]. cbn. intros [= -> ->].
      split; [by apply H4|]. right. split; [done|]. split; [done|]. by eapply H3.
Qed.
End Installed.

(** ** Witnesses: one manifest that reads its calldata as an array of one call *)
Module RouteDemo.
#[local] Instance alloy : Alloy := {|
  fn_selector _ := [1; 2; 3; 4];
  fn_signature f := fn_name f;
  fn_parse s := inr (mkAbiFunction s []);
  abi_decode_input _ _ _ := inr [SvArray [SvTuple [SvAddress 5; SvBytes [9; 9; 9; 9]; SvUint 0 256]]];
  params_from_json _ := inl "not json"%string;
  type_from_str _ := Some StBytes;
  minimum_words _ := 1;
  selector_type p := pa_ty p;
  execute_decode_raw _ := inl "execute"%string;
  execute_deadline_decode_raw _ := inl "deadline"%string;
  sel_hex _ := "selector"%string |}.
Definition target : string := "0x0000000000000000000000000000000000000011".
Definition emit : Value := VObject [("strategy", VString "multicall_call_array")]%string.
Definition manifest : Value :=
  VObject [("id", VString "demo/batch@1"); ("match", VObject []); ("abi_fragment", VObject [("abi", VObject [])]); ("emit", emit)]%string.
Definition input : RouteInput := mkRouteInput 1 target "0x01020304" "0x01020304" "0" "0" "0" target 1000 0 None.
#[local] Instance serde : DecodeSerde := {|
  value_from_str _ := inr manifest;
  route_input_from_str _ := inr input;
  match_from_value _ := inr (mkBundleMatch [] [1] [target] false "0x01020304");
  function_from_value _ := inr (mkAbiFunction "batch" [mkParam "calls" "(address,bytes,uint256)[]" []]) |}.
Definition registry : DecoderRegistry :=
  match install empty_registry "" with Ok (_, reg) => reg | _ => empty_registry end.
Definition decoded : Decoded :=
  mkDecoded (mkActionMeta 1000 17 (OnchainTx "eip155:1"%string 0 0 (mkLiveField 0 (OracleFeed Pyth "gas"%string) 1000 None None) 0)) Demo.ctx
    (VObject [("calls", VArray [VArray [VString target; VString "0x09090909"; VString "0"]; VArray [VString target; VString "0x"]])])%string emit
    "multicall_call_array" "demo/batch@1".
End RouteDemo.
Lemma decoding_status_exact_witness : exists r decoding,
  route_input (T0 := demo_text) (A0 := RouteDemo.alloy) (S0 := Demo.serde) (E0 := RouteDemo.serde) RouteDemo.registry RouteDemo.input = Ok r /\
  rr_decoding r = Some decoding /\ td_status decoding = Partial /\ ~ Forall (fun a => body_has_unknown (ac_body a) = false) (rr_actions r).
Proof.
  destruct (route_input (T0 := demo_text) (A0 := RouteDemo.alloy) (S0 := Demo.serde) (E0 := RouteDemo.serde) RouteDemo.registry RouteDemo.input) as [r|e|] eqn:Hr; [|by vm_compute in Hr..].
  destruct (decoding_status_exact (T0 := demo_text) (A0 := RouteDemo.alloy) (S0 := Demo.serde) (E0 := RouteDemo.serde) _ _ _ Hr) as (d & _ & _ & H).
  assert (exists decoding, rr_decoding r = Some decoding /\ td_status decoding = Partial) as (decoding & Hd & Hs).
  { vm_compute in Hr. injection Hr as <-. eexists. split; reflexivity. }
  exists r, decoding. split; [done|]. split; [done|]. split; [done|]. rewrite <- (proj1 (H decoding Hd)), Hs. done.
Defined.
Definition demo_rec : RouteInput -> Frame -> walk RouteResult :=
  route_loop (T0 := demo_text) (A0 := RouteDemo.alloy) (S0 := Demo.serde) (E0 := RouteDemo.serde) 1 empty_registry.
(** An unregistered call and one without a selector: two parts, each the call's own. *)
Lemma no_call_vanishes_witness : exists body t' calls parts,
  strategy_body (T0 := demo_text) (A0 := RouteDemo.alloy) (S0 := Demo.serde) demo_rec RouteDemo.input RouteDemo.decoded root_frame new_traversal = (Ok body, t') /\
  body = Multicall (concat parts) /\ length parts = 2%nat /\
  InTurn (element_read (T0 := demo_text) demo_rec false RouteDemo.input root_frame) 0 calls new_traversal parts t' /\ Forall (fun p => p <> []) parts.
Proof.
  destruct (strategy_body (T0 := demo_text) (A0 := RouteDemo.alloy) (S0 := Demo.serde) demo_rec RouteDemo.input RouteDemo.decoded root_frame new_traversal) as [[body|e|] t'] eqn:Hb; [|by vm_compute in Hb..].
  destruct (no_call_vanishes (T0 := demo_text) (A0 := RouteDemo.alloy) (S0 := Demo.serde) (E0 := RouteDemo.serde) 1 empty_registry RouteDemo.input RouteDemo.decoded root_frame
    new_traversal body t' eq_refl Hb) as (calls & parts & Hc & -> & Hp & Hl & Hn).
  exists (Multicall (concat parts)), t', calls, parts. split; [done|]. split; [done|]. split; [|by split]. rewrite Hl. vm_compute in Hc. by injection Hc as <-.
Defined.
Lemma routes_bound_witness : exists v, lookup_bundle RouteDemo.registry 1 RouteDemo.target "0x01020304" = Some ("demo/batch@1"%string, v) /\
  str_member v "id" = Some "demo/batch@1"%string.
Proof.
  apply (routes_bound (E0 := RouteDemo.serde) RouteDemo.registry 1 RouteDemo.target "0x01020304"); [|reflexivity].
  eapply (installed_next (E0 := RouteDemo.serde) empty_registry ""); [apply installed_empty|]. unfold RouteDemo.registry. reflexivity.
Defined.
End DecodeRoute.
