(* ===== verification/DecodeTyped.v ===== *)
(** * Typed-data routing (dambi-core/src/decode: mod.rs, dto.rs, typed_data_validation.rs)

    The two routes of EIP-712 signatures: the legacy one, which reshapes the
    message into the arguments of the manifest, and the strict one of ERC-20
    permits, which checks the envelope, the graph of declared types, the domain
    and the message against the manifest before it builds the action. *)
From Stdlib Require Import Ascii.
From stdpp Require Import base tactics numbers list strings gmap pretty.
From S2P Require Import Prelude Types Bytes AbiDecode TokenEffect Apply PackedPayloads SyncLive PolicyEngine PolicyRpc BundleFormat BundleTrust SessionInput PolicyRuntime MapperText MapperFn MapperBuild DecodeDerive DecodeStream DecodeRoute.
Import SyncLive.

Module DecodeTyped.
Import AbiDecode PackedPayloads PolicyEngine PolicyRpc BundleFormat BundleTrust SessionInput PolicyRuntime MapperText MapperFn MapperBuild DecodeDerive DecodeStream DecodeRoute.

(** ** Inputs and results (dto.rs) *)
Record TypedInput := mkTypedInput {
  ty_chain_id : Z; ty_verifying_contract : string; ty_primary_type : string; ty_witness_type : option string; ty_domain_name : option string;
  ty_message : Value; ty_submitter : string; ty_submitted_at : Z }.
Record TypedDataRouting := mkTypedDataRouting { rt_chain_id : Z; rt_verifying_contract : string; rt_primary_type : string; rt_witness_type : option string }.
Record TypedDataValidated := mkTypedDataValidated {
  vl_owner : string; vl_requested_signer : string; vl_submitter : string; vl_signed_nonce : string; vl_deadline_seconds : string }.
Record TypedDataRequest := mkTypedDataRequest {
  rq_original : Value; rq_routing : TypedDataRouting; rq_validated : TypedDataValidated; rq_signature_verification : string }.
Record TypedResult := mkTypedResult { tr_actions : list Action; tr_decoder_id : string; tr_request : TypedDataRequest }.
(** The derived deserializer, [serde_json::to_string], and [char::to_lowercase] on the first
    character of a text. *)
Class TypedSerde := {
  typed_input_from_str : string -> string + TypedInput;
  value_to_string : Value -> string;
  lowercase_first : string -> string;
}.

(** ** Validation (typed_data_validation.rs) *)
Record TypedDataError := mkTypedDataError { te_kind : string; te_message : string; te_path : option string }.
Notation checked A := (result TypedDataError A).
Definition td_invalid (path message : string) : TypedDataError := mkTypedDataError "invalid_typed_data" message (Some path).
Definition bundle_error (e : TypedDataError) : TypedDataError := mkTypedDataError "invalid_bundle" (te_message e) (te_path e).
Definition td_object (value : Value) (path : string) : checked (list (string * Value)) := ok_or (td_invalid path "must be an object") (as_object value).
Definition td_required (values : list (string * Value)) (key path : string) : checked Value := ok_or (td_invalid path "required field is missing") (obj_get values key).
Definition td_string (value : Value) (path : string) : checked string := ok_or (td_invalid path "must be a string") (as_str value).
(** [0x] and hexadecimal digits, [n] characters in all. *)
Definition hex_text (n : nat) (raw : string) : bool :=
  (String.length raw =? n)%nat && match strip_prefix "0x" raw with Some digits => all_chars is_hexdigit digits | None => false end.
Definition td_address (value : Value) (path : string) : checked string :=
  raw ← td_string value path;
  if hex_text 42 raw then Ok (to_ascii_lowercase raw) else Err (td_invalid path "must be 0x followed by 40 hexadecimal digits").
Definition is_route_char (c : ascii) : bool :=
  is_digit c || char_in 65 90 c || char_in 97 122 c || Ascii.eqb c "_"%char || Ascii.eqb c ":"%char.
Definition valid_route_name (raw : string) : bool := negb (String.eqb raw "") && (String.length raw <=? 128)%nat && all_chars is_route_char raw.
Definition route_name (value : Value) (path : string) : checked string :=
  raw ← td_string value path;
  if valid_route_name raw then Ok raw else Err (td_invalid path "must contain 1 to 128 ASCII letters, digits, underscores, or colons").
Definition safe_number (value : Value) (path : string) : checked Z :=
  match as_u64 value with
  | Some integer => if integer <=? MAX_SAFE_INTEGER then Ok integer else Err (td_invalid path "must be a nonnegative JS-safe integer JSON number")
  | None => Err (td_invalid path "must be a nonnegative JS-safe integer JSON number")
  end.

(** *** Types *)
Record TypeField := mkTypeField { tf_name : string; tf_type : string; tf_reference : option string }.
(** The array suffixes of a type, one bracket pair a round. *)
Fixpoint array_suffixes (fuel : nat) (suffix path : string) : checked () :=
  match suffix with
  | EmptyString => Ok ()
  | _ =>
      match fuel with
      | O => Panic
      | S fuel =>
          match strip_prefix "[" suffix with
          | None => Err (td_invalid path "malformed array type")
          | Some after_open =>
              match find_char "]"%char after_open with
              | None => Err (td_invalid path "malformed array type")
              | Some close =>
                  let size := str_take close after_open in
                  if negb (String.eqb size "") &&
                     (negb (all_chars is_digit size) || bool_decide (is_Some (strip_prefix "0" size)) || bool_decide (parse_u64 size = None))
                  then Err (td_invalid path "array length must be a positive integer")
                  else array_suffixes fuel (str_drop (close + 1) after_open) path
              end
          end
      end
  end.
Definition SCALAR_WIDTHS : list (string * Z * Z) := [("uint", 256, 8); ("int", 256, 8); ("bytes", 32, 1)]%string.
Definition parse_u16 (s : string) : option Z := v ← parse_u64 s; if v <? 2 ^ 16 then Some v else None.
Definition valid_width (max step : Z) (width : string) : bool :=
  match parse_u16 width with
  | Some w => (0 <? w) && (w <=? max) && (w mod step =? 0) && negb (bool_decide (is_Some (strip_prefix "0" width)))
  | None => false
  end.
(** The first prefix whose rest is empty or digits decides; [None] where no prefix does. *)
Fixpoint scalar_width (widths : list (string * Z * Z)) (base : string) : option bool :=
  match widths with
  | [] => None
  | (prefix, max, step) :: rest =>
      match strip_prefix prefix base with
      | Some width => if all_chars is_digit width then Some (valid_width max step width) else scalar_width rest base
      | None => scalar_width rest base
      end
  end.
Definition type_reference (raw path : string) : checked (option string) :=
  let end_ := default (String.length raw) (find_char "["%char raw) in
  let base := str_take end_ raw in
  _ ← array_suffixes (String.length raw) (str_drop end_ raw) path;
  if bool_decide (base ∈ ["address"; "bool"; "string"; "bytes"]%string) then Ok None
  else
    match scalar_width SCALAR_WIDTHS base with
    | Some true => Ok None
    | Some false => Err (td_invalid path "invalid EIP-712 scalar width")
    | None => if valid_route_name base then Ok (Some base) else Err (td_invalid path "invalid scalar or struct type")
    end.
Fixpoint fields_loop (path : string) (names : list string) (index : nat) (definitions : list Value) : checked (list TypeField) :=
  match definitions with
  | [] => Ok []
  | definition :: rest =>
      let path' := (path +:+ "." +:+ pretty index)%string in
      definition ← td_object definition path';
      let name_path := (path' +:+ ".name")%string in
      name ← (v ← td_required definition "name" name_path; td_string v name_path);
      if negb (valid_route_name name) || bool_decide (name ∈ names) then Err (td_invalid name_path "invalid or duplicate struct field name")
      else
        let type_path := (path' +:+ ".type")%string in
        field_type ← (v ← td_required definition "type" type_path; td_string v type_path);
        reference ← type_reference field_type type_path;
        more ← fields_loop path (name :: names) (S index) rest;
        Ok (mkTypeField name field_type reference :: more)
  end.
Definition fields (value : Value) (path : string) : checked (list TypeField) :=
  definitions ← ok_or (td_invalid path "struct declaration must be an array") (as_array value);
  fields_loop path [] 0 definitions.

(** A [BTreeMap], its entries in the order of the keys. *)
Notation Graph := (list (string * list TypeField)).
Fixpoint btree_get (g : Graph) (k : string) : option (list TypeField) :=
  match g with [] => None | (k', v) :: rest => if String.eqb k' k then Some v else btree_get rest k end.
Fixpoint btree_insert (g : Graph) (k : string) (v : list TypeField) : Graph :=
  match g with
  | [] => [(k, v)]
  | (k', v') :: rest =>
      match String.compare k k' with
      | Lt => (k, v) :: g
      | Eq => (k, v) :: rest
      | Gt => (k', v') :: btree_insert rest k v
      end
  end.
Definition references (fs : list TypeField) : list string := omap tf_reference fs.
(** The references are checked from the last field to the first. *)
Definition missing_reference (types : list (string * Value)) (fs : list TypeField) : option (nat * string) :=
  find (fun ir => negb (has_key types ir.2)) (rev (omap (fun i => f ← fs !! i; r ← tf_reference f; Some (i, r)) (seq 0 (length fs)))).
(** The stack, its top first; an exiting entry closes the type whose references are above it. *)
Fixpoint graph_loop (fuel : nat) (types : list (string * Value)) (prefix : string) (graph : Graph) (active complete : gset string)
    (stack : list (string * bool)) : checked Graph :=
  match stack with
  | [] => Ok graph
  | (name, exiting) :: rest =>
      match fuel with
      | O => Panic
      | S fuel =>
          if (exiting : bool) then graph_loop fuel types prefix graph (active ∖ {[name]}) ({[name]} ∪ complete) rest
          else if bool_decide (name ∈ complete) then graph_loop fuel types prefix graph active complete rest
          else
            let path := (prefix +:+ "." +:+ name)%string in
            if bool_decide (name ∈ active) then Err (td_invalid path "cyclic type references are not supported")
            else
              declaration ← td_required types name path;
              fs ← fields declaration path;
              match missing_reference types fs with
              | Some (index, reference) => Err (td_invalid (path +:+ "." +:+ pretty index +:+ ".type")%string ("missing referenced struct " +:+ reference)%string)
              | None =>
                  graph_loop fuel types prefix (btree_insert graph name fs) ({[name]} ∪ active) complete
                    (map (fun r => (r, false)) (references fs) ++ (name, true) :: rest)
              end
      end
  end.
Definition type_graph (types : list (string * Value)) (primary_type prefix : string) : checked Graph :=
  graph_loop (S (fields_size types)) types prefix [] ∅ ∅ [(primary_type, false)].

(** *** The envelope *)
Record PreparedTypedData := mkPreparedTypedData {
  pp_original : Value; pp_typed_data : Value; pp_chain_id : Z; pp_verifying_contract : string; pp_primary_type : string; pp_witness_type : option string;
  pp_requested_signer : string; pp_submitter : string; pp_submitted_at : Z }.
Record ValidatedPermit := mkValidatedPermit { vp_owner : string; vp_signed_nonce : string; vp_deadline_seconds : Z; vp_message : Value }.
Definition PERMIT_FIELDS : list (string * string) :=
  [("owner", "address"); ("spender", "address"); ("value", "uint256"); ("nonce", "uint256"); ("deadline", "uint256")]%string.
Definition PERMIT_BUNDLE : string := "standard/erc20/permit@1.0.0".
Definition index_or_null (v : Value) (k : string) : Value := default VNull (value_get v k).
Definition is_permit_fields (fs : list TypeField) : bool :=
  (length fs =? length PERMIT_FIELDS)%nat && forallb (fun ae => String.eqb (tf_name ae.1) ae.2.1 && String.eqb (tf_type ae.1) ae.2.2) (zip fs PERMIT_FIELDS).
Definition domain_field_type (name : string) : option string :=
  if String.eqb name "name" || String.eqb name "version" then Some "string"%string
  else if String.eqb name "chainId" then Some "uint256"%string
  else if String.eqb name "verifyingContract" then Some "address"%string
  else if String.eqb name "salt" then Some "bytes32"%string
  else None.
Definition unsafe_number (n : JsonNumber) : bool :=
  match as_u64 (VNumber n), number_as_i64 n with
  | Some v, _ => MAX_SAFE_INTEGER <? v
  | None, Some v => v <? - MAX_SAFE_INTEGER
  | None, None => true
  end.
(** The paths of the stack of [validate_preserved_numbers]. *)
Definition child_path (path name : string) : string := (if String.eqb path "" then name else path +:+ "." +:+ name)%string.
Fixpoint numbers_loop (fuel : nat) (stack : list (string * Value)) : checked () :=
  match stack with
  | [] => Ok ()
  | (path, value) :: rest =>
      match fuel with
      | O => Panic
      | S fuel =>
          match value with
          | VObject values => numbers_loop fuel (rev (map (fun kv => (child_path path kv.1, kv.2)) values) ++ rest)
          | VArray values => numbers_loop fuel (rev (imap (fun i v => ((path +:+ "." +:+ pretty i)%string, v)) values) ++ rest)
          | VNumber n =>
              if unsafe_number n then Err (td_invalid path "raw JSON numbers must be signed JS-safe integer lexemes; use a string")
              else numbers_loop fuel rest
          | _ => numbers_loop fuel rest
          end
      end
  end.
Definition validate_preserved_numbers (original : Value) : checked () := numbers_loop (value_size original) [(""%string, original)].

Section Validate.
Context {T0 : AlloyText} {E0 : DecodeSerde}.
Definition uint256 (value : Value) (path : string) : checked Z :=
  match value with
  | VNumber _ => safe_number value path
  | _ =>
      raw ← td_string value path;
      let '(digits, radix) := match strip_prefix "0x" raw with Some hex => (hex, 16) | None => (raw, 10) end in
      if String.eqb digits "" || negb (all_chars (if radix =? 16 then is_hexdigit else is_digit) digits)
      then Err (td_invalid path "must be whole decimal digits or 0x-prefixed hexadecimal digits")
      else ok_or (td_invalid path "integer is outside the uint256 range") (u256_from_str_radix digits radix)
  end.
Definition td_chain (value : Value) (path : string) : checked Z :=
  parsed ← uint256 value path;
  if (parsed =? 0) || (MAX_SAFE_INTEGER <? parsed) then Err (td_invalid path "chain ID must be a positive JS-safe integer") else Ok parsed.
Fixpoint witness_loop (primary_type : string) (index : nat) (witness : option string) (defs : list Value) : checked (option string) :=
  match defs with
  | [] => Ok witness
  | field :: rest =>
      if bool_decide (str_member field "name" = Some "witness"%string) then
        let path := ("typed_data.types." +:+ primary_type +:+ "." +:+ pretty index +:+ ".type")%string in
        w ← route_name (index_or_null field "type") path;
        match witness with
        | Some _ => Err (td_invalid path "duplicate witness routing field")
        | None => witness_loop primary_type (S index) (Some w) rest
        end
      else witness_loop primary_type (S index) witness rest
  end.
(** One external routing value: checked, and the first that differs is kept. *)
Definition routing_check {A} `{EqDecision A} (routing : list (string * Value)) (key path : string) (read : Value -> string -> checked A) (expected : A)
    (mismatch : option string) : checked (option string) :=
  match obj_get routing key with
  | None => Ok mismatch
  | Some value => v ← read value path; Ok (if bool_decide (v = expected) then mismatch else first_some mismatch (Some path))
  end.
Definition prepare (input : Value) : checked PreparedTypedData :=
  envelope ← td_object input "input";
  if has_key envelope "typed_data_json" then Err (td_invalid "typed_data_json" "reserved for preserving the original typed_data JSON string")
  else
    requested_signer ← (v ← td_required envelope "requested_signer" "requested_signer"; td_address v "requested_signer");
    submitter ← match obj_get envelope "submitter" with Some value => td_address value "submitter" | None => Ok requested_signer end;
    submitted_at ← (v ← td_required envelope "submitted_at" "submitted_at"; safe_number v "submitted_at");
    raw_typed_data ← td_required envelope "typed_data" "typed_data";
    typed_data ← match raw_typed_data with
                 | VString raw => lift_err (fun _ => td_invalid "typed_data" "invalid typed-data JSON: {error}") (value_from_str raw)
                 | value => Ok value
                 end;
    typed ← td_object typed_data "typed_data";
    domain ← (v ← td_required typed "domain" "typed_data.domain"; td_object v "typed_data.domain");
    types ← (v ← td_required typed "types" "typed_data.types"; td_object v "typed_data.types");
    _ ← (v ← td_required typed "message" "typed_data.message"; td_object v "typed_data.message");
    primary_type ← (v ← td_required typed "primaryType" "typed_data.primaryType"; route_name v "typed_data.primaryType");
    chain_id ← (v ← td_required domain "chainId" "typed_data.domain.chainId"; td_chain v "typed_data.domain.chainId");
    verifying_contract ← (v ← td_required domain "verifyingContract" "typed_data.domain.verifyingContract"; td_address v "typed_data.domain.verifyingContract");
    witness_type ← match (v ← obj_get types primary_type; as_array v) with
                   | Some defs => witness_loop primary_type 0 None defs
                   | None => Ok None
                   end;
    _ ← match obj_get envelope "routing" with
        | None => Ok ()
        | Some value =>
            routing ← td_object value "routing";
            m ← routing_check routing "chain_id" "routing.chain_id" td_chain chain_id None;
            m ← routing_check routing "verifying_contract" "routing.verifying_contract" td_address verifying_contract m;
            m ← routing_check routing "primary_type" "routing.primary_type" route_name primary_type m;
            m ← routing_check routing "witness_type" "routing.witness_type" (fun v p => w ← route_name v p; Ok (Some w)) witness_type m;
            match m with
            | Some path => Err (mkTypedDataError "typed_routing_mismatch" "external routing value conflicts with the typed-data request" (Some path))
            | None => Ok ()
            end
        end;
    let original := match raw_typed_data with VString raw => obj_insert envelope "typed_data_json" (VString raw) | _ => envelope end in
    Ok (mkPreparedTypedData (VObject (obj_insert original "typed_data" typed_data)) typed_data chain_id verifying_contract primary_type witness_type
          requested_signer submitter submitted_at).

(** *** Against the manifest *)
Definition compare_field (path : string) (index : nat) (actual expected : TypeField) : checked () :=
  if negb (String.eqb (tf_name actual) (tf_name expected))
  then Err (td_invalid (path +:+ "." +:+ pretty index +:+ ".name")%string "field name or field declaration order differs from the manifest")
  else if negb (String.eqb (tf_type actual) (tf_type expected))
  then Err (td_invalid (path +:+ "." +:+ pretty index +:+ ".type")%string "field type differs from the manifest declaration")
  else Ok ().
Definition compare_type (requested : Graph) (u : ()) (ne : string * list TypeField) : checked () :=
  let path := ("typed_data.types." +:+ ne.1)%string in
  actual ← ok_or (td_invalid path "required manifest struct is missing") (btree_get requested ne.1);
  if negb (length actual =? length ne.2)%nat then Err (td_invalid path "field count differs from the manifest declaration")
  else _ ← collectM (fun iae => compare_field path iae.1 iae.2.1 iae.2.2) (imap (fun i ae => (i, ae)) (zip actual ne.2)); Ok ().
Definition validate_types (input : PreparedTypedData) (typed_match : list (string * Value)) : checked () :=
  let bundle_path := "bundle.match.typed_data.types"%string in
  expected_types ← map_err bundle_error (v ← td_required typed_match "types" bundle_path; td_object v bundle_path);
  expected ← map_err bundle_error (type_graph expected_types (pp_primary_type input) bundle_path);
  expected_fields ← ok_or (bundle_error (td_invalid bundle_path "missing primary type declaration")) (btree_get expected (pp_primary_type input));
  if negb (String.eqb (pp_primary_type input) "Permit") || negb (is_permit_fields expected_fields)
  then Err (bundle_error (td_invalid bundle_path "supported ERC-2612 bundle must declare the five canonical Permit fields"))
  else
    requested_types ← td_object (index_or_null (pp_typed_data input) "types") "typed_data.types";
    requested ← type_graph requested_types (pp_primary_type input) "typed_data.types";
    foldM (compare_type requested) expected ().
Definition check_domain_field (nv : string * Value) : checked () :=
  let path := ("typed_data.domain." +:+ nv.1)%string in
  match domain_field_type nv.1 with
  | None => Err (td_invalid path "unknown EIP-712 domain field")
  | Some ty =>
      if String.eqb ty "string" then _ ← td_string nv.2 path; Ok ()
      else if String.eqb ty "bytes32" then
        salt ← td_string nv.2 path;
        if hex_text 66 salt then Ok () else Err (td_invalid path "salt must be a 0x-prefixed bytes32 value")
      else Ok ()
  end.
Definition check_declared_field (domain : list (string * Value)) (path : string) (i_f : nat * TypeField) : checked () :=
  let '(index, field) := i_f in
  if negb (bool_decide (domain_field_type (tf_name field) = Some (tf_type field)))
  then Err (td_invalid (path +:+ "." +:+ pretty index +:+ ".type")%string "EIP712Domain field has an invalid type")
  else if negb (has_key domain (tf_name field))
  then Err (td_invalid ("typed_data.domain." +:+ tf_name field)%string "field declared by EIP712Domain is missing")
  else Ok ().
Definition validate_domain (input : PreparedTypedData) (bundle_match typed_match : list (string * Value)) : checked () :=
  expected_contract ← map_err bundle_error
    (v ← td_required typed_match "verifying_contract" "bundle.match.typed_data.verifying_contract"; td_address v "bundle.match.typed_data.verifying_contract");
  expected_primary ← map_err bundle_error
    (v ← td_required typed_match "primary_type" "bundle.match.typed_data.primary_type"; route_name v "bundle.match.typed_data.primary_type");
  let chain_path := "bundle.match.chain_to_addresses"%string in
  chain_addresses ← map_err bundle_error (v ← td_required bundle_match "chain_to_addresses" chain_path; td_object v chain_path);
  addresses ← ok_or (bundle_error (td_invalid chain_path "matched chain must declare addresses")) (v ← obj_get chain_addresses (pretty (pp_chain_id input)); as_array v);
  values ← map_err bundle_error (collectM (fun iv => td_address iv.2 (chain_path +:+ "." +:+ pretty (pp_chain_id input) +:+ "." +:+ pretty iv.1)%string) (imap (fun i v => (i, v)) addresses));
  let matches_address := existsb (String.eqb (pp_verifying_contract input)) values in
  if negb (String.eqb expected_contract (pp_verifying_contract input)) || negb (String.eqb expected_primary (pp_primary_type input)) || negb matches_address
  then Err (bundle_error (td_invalid "bundle.match" "typed bridge conflicts with the bundle's chain, contract, or primary type"))
  else
    domain ← td_object (index_or_null (pp_typed_data input) "domain") "typed_data.domain";
    _ ← collectM check_domain_field domain;
    expected_name ← map_err bundle_error
      (v ← td_required typed_match "domain_name" "bundle.match.typed_data.domain_name"; td_string v "bundle.match.typed_data.domain_name");
    actual_name ← (v ← td_required domain "name" "typed_data.domain.name"; td_string v "typed_data.domain.name");
    if negb (String.eqb actual_name expected_name)
    then Err (mkTypedDataError "typed_domain_mismatch" "domain name must exactly match the manifest declaration" (Some "typed_data.domain.name"%string))
    else
      match value_get (index_or_null (pp_typed_data input) "types") "EIP712Domain" with
      | None => Ok ()
      | Some declaration =>
          let path := "typed_data.types.EIP712Domain"%string in
          declared ← fields declaration path;
          _ ← collectM (check_declared_field domain path) (imap (fun i f => (i, f)) declared);
          match find (fun nv => negb (bool_decide (nv.1 ∈ tf_name <$> declared))) domain with
          | Some (name, _) => Err (td_invalid path ("domain field " +:+ name +:+ " is not declared")%string)
          | None => Ok ()
          end
      end.
Definition message_member {A} (message : list (string * Value)) (key : string) (read : Value -> string -> checked A) : checked A :=
  let path := ("typed_data.message." +:+ key)%string in v ← td_required message key path; read v path.
Definition validate_manifest (input : PreparedTypedData) (bundle : Value) : checked ValidatedPermit :=
  bundle_match ← map_err bundle_error (td_object (index_or_null bundle "match") "bundle.match");
  typed_match ← map_err bundle_error (v ← td_required bundle_match "typed_data" "bundle.match.typed_data"; td_object v "bundle.match.typed_data");
  _ ← validate_types input typed_match;
  _ ← validate_domain input bundle_match typed_match;
  message ← td_object (index_or_null (pp_typed_data input) "message") "typed_data.message";
  owner ← message_member message "owner" td_address;
  spender ← message_member message "spender" td_address;
  value ← message_member message "value" uint256;
  nonce ← message_member message "nonce" uint256;
  deadline ← message_member message "deadline" uint256;
  match find (fun nv => negb (bool_decide (nv.1 ∈ PERMIT_FIELDS.*1))) message with
  | Some (name, _) => Err (td_invalid ("typed_data.message." +:+ name)%string "message field is not declared by the supported Permit type")
  | None =>
      _ ← validate_preserved_numbers (pp_original input);
      if negb (String.eqb owner (pp_requested_signer input))
      then Err (mkTypedDataError "typed_requested_signer_mismatch" "owner differs from requested_signer; this is request consistency, not signature recovery"
                  (Some "typed_data.message.owner"%string))
      else if MAX_SAFE_INTEGER <? deadline
      then Err (mkTypedDataError "typed_deadline_out_of_range" "deadline is uint256 but cannot be represented as a JS-safe Action/meta timestamp"
                  (Some "typed_data.message.deadline"%string))
      else
        Ok (mkValidatedPermit owner (pretty nonce) deadline
              (VObject [("owner", VString owner); ("spender", VString spender); ("value", uint_string value); ("nonce", uint_string nonce);
                        ("deadline", uint_string deadline)])%string)
  end.
End Validate.

(** ** The message as arguments (mod.rs) *)
Definition text_or_empty (v : Value) (k : string) : string := default ""%string (str_member v k).
Definition starts_with (p s : string) : bool := bool_decide (is_Some (strip_prefix p s)).
Definition ends_with (p s : string) : bool := bool_decide (is_Some (strip_suffix p s)).
Definition contains (pattern s : string) : bool := bool_decide (is_Some (String.index 0 pattern s)).
(** One tuple, given for each component its name and the reshaping of its values. *)
Definition reshape_tuple (components : option (list (string * (Value -> Value)))) (value : Value) : Value :=
  match components with
  | None => value
  | Some components =>
      match value with
      | VObject obj => VArray (map (fun c => match obj_get obj c.1 with Some v => c.2 v | None => VNull end) components)
      | VArray arr => VArray (imap (fun i c => match arr !! i with Some v => c.2 v | None => VNull end) components)
      | _ => value
      end
  end.
(** The components of a type node, [f] of each. *)
Definition find_components (f : Value -> string * (Value -> Value)) : list (string * Value) -> option (list (string * (Value -> Value))) :=
  fix get (fs : list (string * Value)) :=
    match fs with
    | [] => None
    | (k, v) :: rest => if String.eqb k "components" then match v with VArray cs => Some (map f cs) | _ => None end else get rest
    end.
(** [reshape_named_to_positional], the type node first: the recursion is on its components. *)
Fixpoint reshape_named_to_positional (node value : Value) : Value :=
  let ty := text_or_empty node "type" in
  let components :=
    match node with VObject fs => find_components (fun c => (text_or_empty c "name", reshape_named_to_positional c)) fs | _ => None end in
  if starts_with "tuple" ty && ends_with "]" ty then
    match value with VArray arr => VArray (map (reshape_tuple components) arr) | _ => value end
  else if String.eqb ty "tuple" then reshape_tuple components value
  else value.
(** The text after the last colon. *)
Definition after_last_colon (s : string) : string := match rfind_char ":"%char s with Some i => str_drop (S i) s | None => s end.
Definition is_signature_param (v : Value) : bool :=
  match str_member v "name" with Some n => bool_decide (n ∈ ["owner"; "signature"; "v"; "r"; "s"]%string) | None => false end.
Definition message_u64 (message : Value) (field : string) : option Z :=
  v ← value_get message field;
  match as_u64 v with Some n => Some n | None => s ← as_str v; parse_u64 s end.

Section TypedRoutes.
Context {T0 : AlloyText} {A0 : Alloy} {S0 : ActionSerde} {E0 : DecodeSerde} {Y0 : TypedSerde}.
Definition emit_indexes_root_positionally (emit_body : option Value) (root : string) : bool :=
  if String.eqb root "" then false
  else match emit_body with Some body => contains ("$args." +:+ root +:+ "[")%string (value_to_string body) | None => false end.
Definition primary_type_to_lower_camel (primary_type : string) : string := lowercase_first (after_last_colon primary_type).
Definition build_typed_data_args_json (abi : option Value) (primary_type : string) (message : Value) (emit_body : option Value) : Value :=
  let payload := List.filter (fun i => negb (is_signature_param i)) (default [] (a ← abi; v ← value_get a "inputs"; as_array v)) in
  match payload with
  | [only] =>
      let name := text_or_empty only "name" in
      if starts_with "tuple" (text_or_empty only "type") then
        if emit_indexes_root_positionally emit_body name
        then VObject [(name, reshape_named_to_positional only message)]
        else VObject [(name, message)]
      else message
  | _ :: _ => message
  | [] => VObject [(primary_type_to_lower_camel primary_type, message)]
  end.
Definition lookup_typed (reg : DecoderRegistry) (chain_id : Z) (contract primary_type : string) (witness : option string) : option (string * Value) :=
  bundle_id ← dr_typed_data_bridge reg !! (chain_id, contract, primary_type, witness);
  b ← dr_bundles reg !! bundle_id;
  Some (bundle_id, b).
Definition abi_of (bundle : Value) : option Value := v ← value_get bundle "abi_fragment"; value_get v "abi".
Definition route_typed_input (reg : DecoderRegistry) (input : TypedInput) : routed RouteResult :=
  submitter ← parse_v3_address (ty_submitter input) "submitter";
  verifying_contract ← parse_v3_address (ty_verifying_contract input) "verifying_contract";
  let chain := ("eip155:" +:+ pretty (ty_chain_id input))%string in
  let contract_lower := to_ascii_lowercase (ty_verifying_contract input) in
  found ← ok_or (mkEngineErrorDto "no_typed_data_mapper" "no typed-data mapper bridged for chain_id={} verifying_contract={} primary_type={} witness_type={:?}")
    (lookup_typed reg (ty_chain_id input) contract_lower (ty_primary_type input) (ty_witness_type input));
  let '(bundle_id, bundle_value) := found in
  emit ← ok_or (invalid_bundle "missing emit") (value_get bundle_value "emit");
  strategy ← ok_or (invalid_bundle "missing emit.strategy") (str_member emit "strategy");
  if negb (String.eqb strategy "single_emit") && negb (String.eqb strategy "array_emit")
  then Err (mkEngineErrorDto "unsupported_strategy_for_typed_data" "emit.strategy {strategy:?} is calldata-only; typed-data routing supports single_emit / array_emit only")
  else
    let args_json := build_typed_data_args_json (abi_of bundle_value) (ty_primary_type input) (ty_message input) (value_get emit "body") in
    let resolved := put_some "compound_v3_base_asset" (compound_v3_base_asset (ty_chain_id input) contract_lower)
                      (put_some "weth" (weth_address (ty_chain_id input)) ∅) in
    let ctx := mkV3MapContext chain verifying_contract submitter 0 (ty_submitted_at input) args_json "" resolved ∅ None in
    body ←
      (if String.eqb strategy "array_emit" then
         _ ← ok_or (invalid_bundle "missing emit.array_source") (str_member emit "array_source");
         per_item_body ← ok_or (invalid_bundle "missing emit.body") (value_get emit "body");
         emit_array ctx emit per_item_body "emit"
       else emit_single ctx emit);
    let body := match body with Multicall [] => ctx_unknown ctx | _ => body end in
    let deadline_secs := default 0 (first_some (message_u64 (ty_message input) "sigDeadline") (message_u64 (ty_message input) "deadline")) in
    let meta := mkActionMeta (ty_submitted_at input) submitter
      (OffchainSig (mkEip712Domain (default ""%string (ty_domain_name input)) None (Some (ty_chain_id input)) (Some verifying_contract) None) deadline_secs None) in
    Ok (mkRouteResult [mkAction meta body] bundle_id None None).
Definition route_typed_data_v3 (reg : DecoderRegistry) (input_json : string) : routed RouteResult :=
  _ ← check_input_size input_json "declarative_route_typed_data_v3_json";
  input ← lift_err (fun _ => mkEngineErrorDto "invalid_input_json" "invalid input json: {error}") (typed_input_from_str input_json);
  route_typed_input reg input.

(** ** The strict route of permits *)
Definition interpretation_failed (message : string) : TypedDataError := mkTypedDataError "typed_interpretation_failed" message None.
Definition route_prepared (reg : DecoderRegistry) (input : PreparedTypedData) : checked TypedResult :=
  found ← ok_or (mkTypedDataError "no_typed_data_mapper" "no installed typed-data mapper for this routing key; detailed validation not performed" None)
    (lookup_typed reg (pp_chain_id input) (pp_verifying_contract input) (pp_primary_type input) (pp_witness_type input));
  let '(bundle_id, bundle_value) := found in
  if negb (String.eqb bundle_id PERMIT_BUNDLE)
  then Err (mkTypedDataError "unsupported_typed_data_contract" "installed typed-data contract is outside strict Permit support; detailed validation not performed" None)
  else
    validated ← validate_manifest input bundle_value;
    emit ← ok_or (mkTypedDataError "invalid_bundle" "missing emit" (Some "emit"%string)) (value_get bundle_value "emit");
    if negb (bool_decide (str_member emit "strategy" = Some "single_emit"%string))
    then Err (mkTypedDataError "invalid_bundle" "strict Permit requires single_emit" (Some "emit.strategy"%string))
    else
      body_template ← ok_or (mkTypedDataError "invalid_bundle" "missing emit.body object" (Some "emit.body"%string))
        (b ← value_get emit "body"; match b with VObject _ => Some b | _ => None end);
      verifying_contract ← map_err (fun e => interpretation_failed (ee_message e)) (parse_v3_address (pp_verifying_contract input) "verifying_contract");
      submitter ← map_err (fun e => interpretation_failed (ee_message e)) (parse_v3_address (pp_submitter input) "submitter");
      let chain := ("eip155:" +:+ pretty (pp_chain_id input))%string in
      let deadline := vp_deadline_seconds validated in
      let args_json := build_typed_data_args_json (abi_of bundle_value) (pp_primary_type input) (vp_message validated) (Some body_template) in
      let ctx := mkV3MapContext chain verifying_contract submitter 0 (pp_submitted_at input) args_json "" ∅ ∅ None in
      body ← map_err (fun _ => mkTypedDataError "typed_interpretation_failed" "decoder {bundle_id}: {error}" (Some "emit.body"%string))
        (build_action_body ctx body_template (value_get emit "live_inputs"));
      _ ← match body with
          | BodyToken (TaErc20Permit permit) => if ep_deadline permit =? deadline then Ok () else
              Err (mkTypedDataError "typed_interpretation_failed" "manifest did not emit an ERC-20 Permit with the validated deadline" (Some "emit.body"%string))
          | _ => Err (mkTypedDataError "typed_interpretation_failed" "manifest did not emit an ERC-20 Permit with the validated deadline" (Some "emit.body"%string))
          end;
      let domain := index_or_null (pp_typed_data input) "domain" in
      let meta := mkActionMeta (pp_submitted_at input) submitter
        (OffchainSig (mkEip712Domain (text_or_empty domain "name") (str_member domain "version") (Some (pp_chain_id input)) (Some verifying_contract) (str_member domain "salt"))
           deadline None) in
      Ok (mkTypedResult [mkAction meta body] bundle_id
            (mkTypedDataRequest (pp_original input)
               (mkTypedDataRouting (pp_chain_id input) (pp_verifying_contract input) (pp_primary_type input) (pp_witness_type input))
               (mkTypedDataValidated (vp_owner validated) (pp_requested_signer input) (pp_submitter input) (vp_signed_nonce validated) (pretty deadline))
               "not_performed")).
Definition route_typed_data_v4 (reg : DecoderRegistry) (input_json : string) : checked TypedResult :=
  _ ← map_err (fun e => mkTypedDataError (ee_kind e) (ee_message e) None) (check_input_size input_json "declarative_route_typed_data_v4_json");
  input ← lift_err (fun _ => mkTypedDataError "invalid_input_json" "invalid input json: {error}" None) (value_from_str input_json);
  prepared ← prepare input;
  route_prepared reg prepared.
End TypedRoutes.

(** ** The graph of types *)
Lemma btree_get_insert g k v k' : btree_get (btree_insert g k v) k' = if String.eqb k k' then Some v else btree_get g k'.
Proof.
  induction g as [|[k1 v1] g IH]; cbn [btree_insert btree_get]; [done|]. destruct (String.compare k k1) eqn:Hc; cbn [btree_get].
  - apply String.compare_eq_iff in Hc as <-. by destruct (String.eqb k k').
  - done.
  - rewrite IH. destruct (String.eqb_spec k1 k') as [<-|]; [|done]. destruct (String.eqb_spec k k1) as [->|]; [|done].
    by apply compare_gt, compare_irrefl in Hc.
Qed.
Lemma str_drop_length n s : (String.length (str_drop n s) <= String.length s)%nat.
Proof. revert n. induction s as [|c s IH]; intros [|n]; cbn; [lia..|]. specialize (IH n). lia. Qed.
Lemma suffixes_total fuel suffix path : (String.length suffix <= fuel)%nat -> array_suffixes fuel suffix path <> Panic.
Proof.
  revert suffix. induction fuel as [|fuel IH]; intros [|c suffix] Hf; [done|cbn in Hf; lia|done|]. cbn [array_suffixes]. destruct (strip_prefix "[" _) as [after|] eqn:Hs; [|done].
  destruct (find_char _ after) as [close|]; [|done]. cbn zeta. destruct (_ && _); [done|]. apply IH. apply strip_prefix_Some in Hs. rewrite Hs, length_app_str in Hf. cbn [String.length] in Hf.
  pose proof (str_drop_length (close + 1) after). lia.
Qed.
Lemma reference_total raw path : type_reference raw path <> Panic.
Proof.
  unfold type_reference. set (e := default _ _). pose proof (suffixes_total (String.length raw) (str_drop e raw) path (str_drop_length e raw)).
  destruct (array_suffixes _ _ _); [|done..]. cbn [mbind result_bind]. case_bool_decide; [done|]. destruct (scalar_width _ _) as [[]|]; [done..|]. by destruct (valid_route_name _).
Qed.
Lemma fields_loop_total path names index defs : fields_loop path names index defs <> Panic.
Proof.
  revert names index. induction defs as [|d defs IH]; intros names index; [done|]. cbn [fields_loop]. unfold td_object, td_required, td_string.
  destruct (as_object d); [|done]. cbn [ok_or mbind result_bind]. destruct (obj_get _ "name"); [|done]. cbn [ok_or mbind result_bind]. destruct (as_str _) as [name|]; [|done]. cbn [ok_or mbind result_bind].
  destruct (negb _ || _); [done|]. destruct (obj_get _ "type"); [|done]. cbn [ok_or mbind result_bind]. destruct (as_str _) as [ty|]; [|done]. cbn [ok_or mbind result_bind].
  destruct (type_reference _ _) as [r|e|] eqn:Hr; [|done|by apply reference_total in Hr]. cbn [mbind result_bind].
  specialize (IH (name :: names) (S index)). by destruct (fields_loop _ _ _ _).
Qed.
Lemma fields_length path names index defs fs : fields_loop path names index defs = Ok fs -> length fs = length defs.
Proof.
  revert names index fs. induction defs as [|d defs IH]; intros names index fs; cbn [fields_loop]; [by intros [= <-]|]. intros H.
  apply bind_Ok_inv in H as (o & _ & H). apply bind_Ok_inv in H as (name & _ & H). destruct (_ || _); [done|]. apply bind_Ok_inv in H as (ty & _ & H). apply bind_Ok_inv in H as (r & _ & H).
  apply bind_Ok_inv in H as (more & Hm & [= <-]). cbn [length]. f_equal. by eapply IH.
Qed.
Lemma fields_size_bound v path fs : fields v path = Ok fs -> (S (length fs) <= value_size v)%nat.
Proof.
  unfold fields. destruct v as [| | | |l|]; try done. cbn [as_array ok_or mbind result_bind]. intros H%fields_length. rewrite H. change (value_size (VArray l)) with (S (values_size l)).
  enough (length l <= values_size l)%nat by lia. clear. induction l as [|x l IH]; [done|]. rewrite values_size_cons. cbn [length]. pose proof (value_size_pos x). lia.
Qed.

Section Graphs.
Context (types : list (string * Value)) (prefix primary : string).
Definition declared (name : string) : option (list TypeField) := d ← obj_get types name; res_ok (fields d (prefix +:+ "." +:+ name)%string).
(** [edge a b]: the declaration of [a] has a field of the struct type [b]. *)
Definition edge (a b : string) : Prop := exists fs, declared a = Some fs /\ b ∈ references fs.
Definition exits (stack : list (string * bool)) : list string := omap (fun e => if (e.2 : bool) then Some e.1 else None) stack.
(** Every entry was pushed by the exiting entry below it. *)
Fixpoint chained (stack : list (string * bool)) : Prop :=
  match stack with
  | [] => True
  | (n, _) :: post => match head (exits post) with None => n = primary | Some p => edge p n end /\ chained post
  end.
(** The references of an exiting entry are complete or above it. *)
Fixpoint covered (complete : gset string) (above : list string) (stack : list (string * bool)) : Prop :=
  match stack with
  | [] => True
  | (e, exiting) :: post => (exiting = true -> forall r, edge e r -> r ∈ complete \/ r ∈ above) /\ covered complete (e :: above) post
  end.
Record dfs_inv (graph : Graph) (active complete : gset string) (stack : list (string * bool)) : Prop := {
  di_chained : chained stack;
  di_active : active = list_to_set (exits stack);
  di_nodup : NoDup (exits stack);
  di_fresh n : n ∈ exits stack -> n ∉ complete;
  di_covered : covered complete [] stack;
  di_closed c r : c ∈ complete -> edge c r -> r ∈ complete;
  di_acyclic c : c ∈ complete -> ~ tc edge c c;
  di_graph n fs : btree_get graph n = Some fs <-> (n ∈ exits stack \/ n ∈ complete) /\ declared n = Some fs;
  di_declared n : n ∈ exits stack \/ n ∈ complete -> is_Some (declared n);
  di_reach n : n ∈ stack.*1 \/ n ∈ complete -> rtc edge primary n;
  di_primary : primary ∈ complete \/ primary ∈ stack.*1 }.
Lemma covered_mono C A C' A' stack : covered C A stack -> (forall r, r ∈ C \/ r ∈ A -> r ∈ C' \/ r ∈ A') -> covered C' A' stack.
Proof.
  revert A A'. induction stack as [|[e b] stack IH]; intros A A'; [done|]. cbn [covered]. intros [H1 H2] Hm. split; [eauto|]. eapply IH; [exact H2|].
  intros r [Hr|Hr]; [destruct (Hm r (or_introl Hr)); [by left|by right; right]|]. apply elem_of_cons in Hr as [->|Hr]; [right; left|]. destruct (Hm r (or_intror Hr)); [by left|by right; right].
Qed.
Lemma covered_pushed C A l stack : covered C (rev l ++ A) stack -> covered C A (map (fun r => (r, false)) l ++ stack).
Proof.
  revert A. induction l as [|x l IH]; intros A; [done|]. cbn [map app covered rev]. intros H. split; [done|]. apply IH. by rewrite <- app_assoc in H.
Qed.
Lemma exits_pushed l stack : exits (map (fun r => (r, false)) l ++ stack) = exits stack.
Proof. induction l as [|x l IH]; [done|]. exact IH. Qed.
Lemma chained_pushed name l stack : (forall r, r ∈ l -> edge name r) -> chained ((name, true) :: stack) -> chained (map (fun r => (r, false)) l ++ (name, true) :: stack).
Proof.
  intros Hl Hs. induction l as [|x l IH]; [done|]. cbn [map app chained]. rewrite exits_pushed. split; [cbn; apply Hl; by left|]. apply IH. intros r Hr. apply Hl. by right.
Qed.
Lemma chain_path stack p es : chained stack -> exits stack = p :: es -> forall n, n ∈ p :: es -> rtc edge n p.
Proof.
  revert p es. induction stack as [|[m b] post IH]; intros p es; [done|]. cbn [chained]. intros [Hp Hc] He n Hn. destruct b.
  - change (exits ((m, true) :: post)) with (m :: exits post) in He. injection He as <- <-. apply elem_of_cons in Hn as [->|Hn]; [done|].
    destruct (exits post) as [|p es] eqn:Hpost; [by apply elem_of_nil in Hn|]. cbn in Hp. eapply rtc_r; [|exact Hp]. by eapply IH.
  - by eapply IH.
Qed.
Lemma sum_cons n l : list_sum (n :: l) = (n + list_sum l)%nat.
Proof. done. Qed.
Definition unvisited (visited : gset string) : nat := list_sum (map (fun kv => if bool_decide (kv.1 ∈ visited) then 0 else S (value_size kv.2))%nat types).
Lemma unvisited_sub l visited name d : obj_get l name = Some d -> name ∉ visited ->
  (list_sum (map (fun kv => if bool_decide (kv.1 ∈ ({[name]} ∪ visited : gset string)) then 0 else S (value_size kv.2)) l) + S (value_size d)
   <= list_sum (map (fun kv => if bool_decide (kv.1 ∈ visited) then 0 else S (value_size kv.2)) l))%nat.
Proof.
  intros Hg Hn. assert (forall l, list_sum (map (fun kv => if bool_decide (kv.1 ∈ ({[name]} ∪ visited : gset string)) then 0 else S (value_size kv.2)) l) <=
    list_sum (map (fun kv => if bool_decide (kv.1 ∈ visited) then 0 else S (value_size kv.2)) l))%nat as Hle.
  { clear. induction l as [|[k v] l IH]; [done|]. rewrite !map_cons, !sum_cons. cbn [fst snd]. case_bool_decide; case_bool_decide; try lia. exfalso. set_solver. }
  induction l as [|[k v] l IH]; [done|]. cbn [obj_get] in Hg. rewrite !map_cons, !sum_cons. cbn [fst snd]. specialize (Hle l). destruct (String.eqb_spec k name) as [->|Hne].
  - injection Hg as ->. rewrite bool_decide_true by set_solver. rewrite bool_decide_false by done. cbn in Hle. lia.
  - specialize (IH Hg). cbn in IH. repeat case_bool_decide; try lia; set_solver.
Qed.
Lemma references_length fs : (length (references fs) <= length fs)%nat.
Proof. unfold references. induction fs as [|f fs IH]; [done|]. cbn. destruct (tf_reference f); cbn; cbn in IH; lia. Qed.
Lemma missing_reference_spec fs i r : missing_reference types fs = Some (i, r) -> r ∈ references fs /\ declared r = None.
Proof.
  unfold missing_reference. intros H. apply find_some in H as [Hin Hk]. cbn [snd] in Hk. split.
  - apply in_rev, list_elem_of_In, list_elem_of_omap in Hin as (j & _ & Hj). destruct (fs !! j) as [f|] eqn:Hf; [|done]. cbn in Hj. destruct (tf_reference f) as [r'|] eqn:Hr; [|done].
    injection Hj as <- <-. apply list_elem_of_omap. exists f. split; [by eapply list_elem_of_lookup_2|done].
  - unfold declared, has_key in *. apply negb_true_iff, bool_decide_eq_false in Hk. destruct (obj_get types r); [by exfalso; apply Hk|done].
Qed.
Lemma exit_step graph active complete name rest : dfs_inv graph active complete ((name, true) :: rest) ->
  dfs_inv graph (active ∖ {[name]}) ({[name]} ∪ complete) rest.
Proof.
  intros [Hch Hac Hnd Hfr Hco Hcl Hcy Hgr Hde Hre Hpr]. change (exits ((name, true) :: rest)) with (name :: exits rest) in *. cbn [chained covered fmap list_fmap fst] in *.
  apply NoDup_cons in Hnd as [Hn Hnd]. destruct Hch as [_ Hch]. destruct Hco as [Hex Hco]. constructor; try done.
  - subst active. cbn [list_to_set]. set_solver.
  - intros n Hin [->%elem_of_singleton|Hc]%elem_of_union; [done|]. by apply (Hfr n); [right|].
  - eapply covered_mono; [exact Hco|]. intros r [Hr|Hr]; [set_solver|]. left. apply list_elem_of_singleton in Hr as ->. set_solver.
  - intros c r [->%elem_of_singleton|Hc]%elem_of_union He; apply elem_of_union_r; [|by eapply Hcl]. destruct (Hex eq_refl r He) as [|[]%elem_of_nil]; done.
  - assert (forall a b, tc edge a b -> a ∈ complete -> b ∈ complete) as Htc by (induction 1; eauto).
    intros c [->%elem_of_singleton|Hc]%elem_of_union; [|by apply Hcy]. intros Ht. assert (name ∉ complete) as Hnc by (apply Hfr; by left).
    inversion Ht as [? ? He|? r ? He Ht']; subst; (destruct (Hex eq_refl _ He) as [Hr|[]%elem_of_nil]); [done|]. apply Hnc. by eapply Htc.
  - intros n fs. rewrite Hgr. set_solver.
  - intros n Hin. apply Hde. set_solver.
  - intros n [Hin|[->%elem_of_singleton|Hin]%elem_of_union]; apply Hre; [left; by right|left; left|by right].
  - destruct Hpr as [|[->|]%elem_of_cons]; set_solver.
Qed.
Lemma skip_step graph active complete name rest : name ∈ complete -> dfs_inv graph active complete ((name, false) :: rest) -> dfs_inv graph active complete rest.
Proof.
  intros Hn [Hch Hac Hnd Hfr Hco Hcl Hcy Hgr Hde Hre Hpr]. change (exits ((name, false) :: rest)) with (exits rest) in *. cbn [chained covered fmap list_fmap fst] in *.
  constructor; try done.
  - by destruct Hch.
  - eapply covered_mono; [exact (proj2 Hco)|]. intros r [Hr|Hr]; [by left|]. apply list_elem_of_singleton in Hr as ->. by left.
  - intros n [Hin|Hin]; apply Hre; [left; by right|by right].
  - destruct Hpr as [|[->|]%elem_of_cons]; auto.
Qed.
Lemma expand_step graph active complete name fs rest : name ∉ complete -> name ∉ active -> declared name = Some fs ->
  dfs_inv graph active complete ((name, false) :: rest) ->
  dfs_inv (btree_insert graph name fs) ({[name]} ∪ active) complete (map (fun r => (r, false)) (references fs) ++ (name, true) :: rest).
Proof.
  intros Hnc Hna Hd [Hch Hac Hnd Hfr Hco Hcl Hcy Hgr Hde Hre Hpr]. change (exits ((name, false) :: rest)) with (exits rest) in *.
  cbn [chained covered] in *. assert (exits (map (fun r => (r, false)) (references fs) ++ (name, true) :: rest) = name :: exits rest) as He by apply exits_pushed.
  assert (forall r, r ∈ references fs -> edge name r) as Hed by (intros r Hr; by exists fs).
  assert ((map (fun r => (r, false)) (references fs) ++ (name, true) :: rest).*1 = references fs ++ name :: rest.*1) as Hst.
  { rewrite fmap_app. f_equal. clear. induction (references fs) as [|x l IH]; [done|]. cbn. by f_equal. }
  constructor; rewrite ?He, ?Hst.
  - by apply chained_pushed.
  - subst active. done.
  - apply NoDup_cons. split; [|done]. intros Hin. apply Hna. subst active. by apply elem_of_list_to_set.
  - intros n [->|Hin]%elem_of_cons; [done|]. by apply Hfr.
  - apply covered_pushed. cbn [covered]. split.
    + intros _ r (fs' & Hd' & Hr). right. rewrite Hd in Hd'. injection Hd' as <-. rewrite app_nil_r. apply list_elem_of_In, in_rev. rewrite rev_involutive. by apply list_elem_of_In.
    + eapply covered_mono; [exact (proj2 Hco)|]. intros r [Hr|Hr]; [by left|]. apply list_elem_of_singleton in Hr as ->. right. left.
  - done.
  - done.
  - intros n fs'. rewrite btree_get_insert. destruct (String.eqb_spec name n) as [<-|Hne]; [|rewrite Hgr; set_solver].
    split; [intros [= <-]; split; [left; left|done]|]. intros [_ H]. congruence.
  - intros n [[->|Hin]%elem_of_cons|Hin]; [by eexists|apply Hde; by left|apply Hde; by right].
  - assert (rtc edge primary name) as Hrn by (apply Hre; left; left). intros n [[Hin|[->|Hin]%elem_of_cons]%elem_of_app|Hin]; [|done|apply Hre; left; by right|apply Hre; by right].
    eapply rtc_r; [exact Hrn|]. by apply Hed.
  - destruct Hpr as [|[->|]%elem_of_cons]; set_solver.
Qed.
(** The graph covers what is reachable, and nothing in it reaches itself. *)
Record graph_ok (graph : Graph) : Prop := {
  gk_nodes n fs : btree_get graph n = Some fs <-> rtc edge primary n /\ declared n = Some fs;
  gk_total n : rtc edge primary n -> is_Some (declared n);
  gk_acyclic n : rtc edge primary n -> ~ tc edge n n }.
Definition bad_node (n : string) : Prop := rtc edge primary n /\ (declared n = None \/ tc edge n n).
Lemma graph_loop_spec fuel : forall graph active complete stack, dfs_inv graph active complete stack ->
  (length stack + unvisited (active ∪ complete) <= fuel)%nat ->
  match graph_loop fuel types prefix graph active complete stack with
  | Ok g => graph_ok g
  | Err _ => exists n, bad_node n
  | Panic => False
  end.
Proof.
  induction fuel as [|fuel IH]; intros graph active complete [|[name b] rest] Hi Hf; [| |cbn [graph_loop]|].
  1,3: destruct Hi as [_ _ _ _ _ Hcl Hcy Hgr Hde Hre [Hpr|[]%elem_of_nil]]; cbn [graph_loop]; assert (forall n, rtc edge primary n <-> n ∈ complete) as Hc;
    [intros n; split; [|intros; apply Hre; by right]; intros Hr; revert Hpr; clear -Hr Hcl; induction Hr; eauto|];
    (constructor; [intros n fs; rewrite Hgr, Hc; set_solver|intros n Hn%Hc; apply Hde; by right|intros n Hn%Hc; by apply Hcy]).
  - cbn in Hf. lia.
  - cbn [graph_loop]. cbn [length] in Hf. destruct b.
    + apply IH; [by apply exit_step|]. pose proof (di_active _ _ _ _ Hi) as Ha. change (exits ((name, true) :: rest)) with (name :: exits rest) in Ha.
      replace (active ∖ {[name]} ∪ ({[name]} ∪ complete)) with (active ∪ complete); [lia|]. apply leibniz_equiv. cbn [list_to_set] in Ha.
      intros x. destruct (decide (x = name)); set_solver.
    + case_bool_decide as Hc; [apply IH; [by eapply skip_step|lia]|]. assert (rtc edge primary name) as Hr by (apply (di_reach _ _ _ _ Hi); left; left). case_bool_decide as Ha.
      * exists name. split; [done|]. right. rewrite (di_active _ _ _ _ Hi) in Ha. apply elem_of_list_to_set in Ha. change (exits ((name, false) :: rest)) with (exits rest) in Ha.
        destruct (di_chained _ _ _ _ Hi) as [Hp Hch]. destruct (exits rest) as [|p es] eqn:He; [by apply elem_of_nil in Ha|]. cbn in Hp.
        eapply tc_rtc_l; [eapply chain_path; [exact Hch|exact He|exact Ha]|by apply tc_once].
      * unfold td_required. destruct (obj_get types name) as [d|] eqn:Hd; cbn [ok_or mbind result_bind]; [|exists name; split; [done|]; left; unfold declared; by rewrite Hd].
        destruct (fields d _) as [fs|e|] eqn:Hfs; cbn [mbind result_bind].
        -- assert (declared name = Some fs) as Hdec by (unfold declared; rewrite Hd; cbn [mbind option_bind]; by rewrite Hfs).
           destruct (missing_reference types fs) as [[i r]|] eqn:Hm.
           ++ apply missing_reference_spec in Hm as [Hin Hnone]. exists r. split; [|by left]. eapply rtc_r; [exact Hr|]. by exists fs.
           ++ apply IH; [by apply expand_step|]. rewrite length_app, length_map. cbn [length].
              pose proof (references_length fs). apply fields_size_bound in Hfs. pose proof (unvisited_sub types (active ∪ complete) name d Hd ltac:(set_solver)) as Hu.
              unfold unvisited in *. rewrite <- (assoc_L (∪)). lia.
        -- exists name. split; [done|]. left. unfold declared. rewrite Hd. cbn [mbind option_bind]. by rewrite Hfs.
        -- unfold fields in Hfs. destruct (as_array d); [|done]. by apply fields_loop_total in Hfs.
Qed.

(** C28: The check of the declared types is exact and always ends. It accepts exactly when every
    struct type reachable from the primary type is declared and well formed and none contains
    itself, however the declarations share their parts; the graph it returns then has exactly
    the reachable types, with their declared fields. *)
Theorem type_graph_exact :
  match type_graph types primary prefix with
  | Ok graph => graph_ok graph
  | Err _ => exists n, bad_node n
  | Panic => False
  end.
Proof.
  unfold type_graph. apply graph_loop_spec.
  - constructor; try (cbn; done); try (cbn; set_solver). constructor.
  - cbn [length]. enough (unvisited (∅ ∪ ∅) <= fields_size types)%nat by lia. unfold unvisited, fields_size. clear. induction types as [|[k v] l IH]; [done|].
    rewrite map_cons, fmap_cons, !sum_cons. cbn [fst snd]. case_bool_decide; [set_solver|]. lia.
Qed.
End Graphs.

(** ** Named and positional messages *)
Definition component_nodes (node : Value) : option (list Value) := v ← value_get node "components"; as_array v.
Definition component_of (c : Value) : string * (Value -> Value) := (text_or_empty c "name", reshape_named_to_positional c).
Lemma reshape_eq node value : reshape_named_to_positional node value =
  let ty := text_or_empty node "type" in
  let components := map component_of <$> component_nodes node in
  if starts_with "tuple" ty && ends_with "]" ty then match value with VArray arr => VArray (map (reshape_tuple components) arr) | _ => value end
  else if String.eqb ty "tuple" then reshape_tuple components value else value.
Proof.
  destruct node as [| | | | |fs]; try done. cbn [reshape_named_to_positional]. unfold component_nodes. cbn [value_get].
  change (fun c => (text_or_empty c "name", reshape_named_to_positional c)) with component_of.
  assert (find_components component_of fs = map component_of <$> (v ← obj_get fs "components"; as_array v)) as ->; [|done].
  induction fs as [|[k v] fs IH]; [done|]. cbn [obj_get find_components]. destruct (String.eqb k "components"); [by destruct v|]. exact IH.
Qed.
Lemma component_size node cs c : component_nodes node = Some cs -> c ∈ cs -> (value_size c < value_size node)%nat.
Proof.
  unfold component_nodes. destruct node as [| | | | |fs]; try done. cbn [value_get]. destruct (obj_get fs "components") as [v|] eqn:Hv; [|done]. cbn [mbind option_bind].
  destruct v as [| | | |l|]; try done. intros [= <-] Hc. apply obj_get_size in Hv. rewrite object_size. change (value_size (VArray l)) with (S (values_size l)) in Hv.
  enough (value_size c <= values_size l)%nat by lia. clear Hv. induction l as [|x l IH]; [by apply elem_of_nil in Hc|]. rewrite values_size_cons. apply elem_of_cons in Hc as [->|Hc]; [lia|]. specialize (IH Hc). lia.
Qed.
Definition settled (f : Value -> Value) : Prop := f VNull = VNull /\ forall v, f (f v) = f v.
Lemma imap_map_lookup {A} (f : A -> Value) (g : nat -> A -> Value) (l : list A) : (forall i c, l !! i = Some c -> g i c = f c) -> imap g l = map f l.
Proof.
  revert g. induction l as [|x l IH]; intros g H; [done|]. cbn [imap map]. rewrite (H 0%nat x eq_refl). f_equal. apply IH. intros i c Hc. exact (H (S i) c Hc).
Qed.
Lemma tuple_settled cs : (forall c, c ∈ cs -> settled c.2) -> settled (reshape_tuple (Some cs)).
Proof.
  intros Hs. split; [done|]. intros v. destruct v as [| | | |arr|obj]; try done; cbn [reshape_tuple]; f_equal.
  - apply list_eq. intros i. rewrite !list_lookup_imap. destruct (cs !! i) as [c|] eqn:Hc; [|done]. cbn [fmap option_fmap option_map].
    destruct (Hs c (list_elem_of_lookup_2 _ _ _ Hc)) as [Hn Hi]. f_equal. destruct (arr !! i) as [w|]; [by rewrite Hi|by rewrite Hn].
  - apply imap_map_lookup. intros i c Hc. rewrite list_lookup_fmap, Hc. cbn [fmap option_fmap option_map].
    destruct (Hs c (list_elem_of_lookup_2 _ _ _ Hc)) as [Hn Hi]. destruct (obj_get obj c.1) as [w|]; [by rewrite Hi|by rewrite Hn].
Qed.
Lemma reshape_settled n : forall node, (value_size node < n)%nat -> settled (reshape_named_to_positional node).
Proof.
  induction n as [|n IH]; intros node Hn; [lia|]. assert (settled (reshape_tuple (map component_of <$> component_nodes node))) as Ht.
  { destruct (component_nodes node) as [cs|] eqn:Hc; [|by split]. cbn [fmap option_fmap option_map]. apply tuple_settled. intros c Hin.
    apply list_elem_of_In, in_map_iff in Hin as (x & <- & Hx%list_elem_of_In). cbn [component_of snd]. apply IH. pose proof (component_size node cs x Hc Hx). lia. }
  split; [|intros v]; rewrite !reshape_eq; cbn zeta; destruct (_ && _); [done| | |]; try (destruct (String.eqb _ _); [apply Ht|done]).
  destruct v as [| | | |arr|]; try done. f_equal. rewrite map_map. apply map_ext. intros x. apply Ht.
Qed.

(** Signed messages and calldata reach a template in one layout. A named message of a tuple
    type becomes the array of its components, in the order the ABI declares them and not in
    that of the message, null where one is missing; the reshaping of a message that is
    already positional, or already reshaped, changes nothing, at any depth. *)
Theorem reshape_positional node :
  (forall v, reshape_named_to_positional node (reshape_named_to_positional node v) = reshape_named_to_positional node v) /\
  (forall cs obj, text_or_empty node "type" = "tuple"%string -> component_nodes node = Some cs ->
     reshape_named_to_positional node (VObject obj) =
       VArray (map (fun c => match obj_get obj (text_or_empty c "name") with Some v => reshape_named_to_positional c v | None => VNull end) cs)).
Proof.
  split; [apply (reshape_settled (S (value_size node))); lia|]. intros cs obj Hty Hcs. rewrite reshape_eq, Hty, Hcs. cbn. f_equal. by rewrite map_map.
Qed.

(** ** Preserved numbers *)
(** Every number of a value is a JavaScript-safe integer. *)
Fixpoint safe_value (v : Value) : Prop :=
  match v with
  | VNumber n => unsafe_number n = false
  | VArray l => fold_right (fun x P => safe_value x /\ P) True l
  | VObject fs => fold_right (fun kv P => safe_value kv.2 /\ P) True fs
  | _ => True
  end.
Lemma fold_and {A} (P : A -> Prop) l : fold_right (fun x Q => P x /\ Q) True l <-> Forall P l.
Proof. induction l as [|x l IH]; cbn; [by split|]. by rewrite IH, Forall_cons. Qed.
Lemma unsafe_number_spec n : unsafe_number n = false <-> exists z, n = IntNum z /\ - MAX_SAFE_INTEGER <= z <= MAX_SAFE_INTEGER.
Proof.
  unfold unsafe_number, as_u64, number_as_i64, MAX_SAFE_INTEGER, U64_MAX. destruct n as [z|t]; [|by split; [|intros (? & ? & _)]].
  transitivity (- 9007199254740991 <= z <= 9007199254740991); [|naive_solver].
  destruct (Z.leb_spec 0 z), (Z.leb_spec z 18446744073709551615); cbn [andb]; [rewrite Z.ltb_ge; lia|..];
    (destruct (Z.leb_spec (- 2 ^ 63) z), (Z.ltb_spec z (2 ^ 63)); cbn [andb]; rewrite ?Z.ltb_ge; split; intros; try done; lia).
Qed.
Lemma snd_rev {A B} (l : list (A * B)) : (rev l).*2 = rev l.*2.
Proof. exact (map_rev snd l). Qed.
Lemma numbers_loop_spec fuel : forall stack, (values_size stack.*2 <= fuel)%nat ->
  match numbers_loop fuel stack with Ok _ => Forall safe_value stack.*2 | Err _ => ~ Forall safe_value stack.*2 | Panic => False end.
Proof.
  induction fuel as [|fuel IH]; intros [|[path v] rest] Hf; [by constructor| |by constructor|].
  { cbn [fmap list_fmap snd] in Hf. rewrite values_size_cons in Hf. pose proof (value_size_pos v). lia. }
  rewrite fmap_cons in *. cbn [snd] in *. rewrite values_size_cons in Hf. pose proof (value_size_pos v).
  assert (match numbers_loop fuel rest with Ok _ => Forall safe_value rest.*2 | Err _ => ~ Forall safe_value rest.*2 | Panic => False end) as Hrest by (apply IH; lia).
  assert (forall pushed, (values_size pushed.*2 < value_size v)%nat -> (safe_value v <-> Forall safe_value pushed.*2) ->
    match numbers_loop fuel (pushed ++ rest) with Ok _ => Forall safe_value (v :: rest.*2) | Err _ => ~ Forall safe_value (v :: rest.*2) | Panic => False end) as Hpush.
  { intros pushed Hs Hv. specialize (IH (pushed ++ rest)). rewrite fmap_app, values_size_app in IH. specialize (IH ltac:(lia)).
    pose proof (Forall_app safe_value pushed.*2 rest.*2). pose proof (Forall_cons safe_value v rest.*2). destruct (numbers_loop fuel _); tauto. }
  destruct v as [|b|n|s|l|fs]; cbn [numbers_loop]; try by apply (Hpush []); [cbn; lia|split; constructor].
  - destruct (unsafe_number n) eqn:Hn; [intros Hall; apply Forall_cons in Hall as [H1 _]; cbn in H1; congruence|]. by apply (Hpush []); [cbn; lia|split; [constructor|done]].
  - assert ((imap (fun i v => ((path +:+ "." +:+ pretty i)%string, v)) l).*2 = l) as Hi.
    { clear. apply list_eq. intros i. rewrite list_lookup_fmap, list_lookup_imap. by destruct (l !! i). }
    apply Hpush; rewrite snd_rev, Hi; [rewrite values_size_rev; change (value_size (VArray l)) with (S (values_size l)); lia|]. cbn [safe_value]. by rewrite fold_and, Forall_rev_iff.
  - assert ((map (fun kv => (child_path path kv.1, kv.2)) fs).*2 = fs.*2) as Hi.
    { clear. induction fs as [|[k v] fs IH]; [done|]. cbn. by f_equal. }
    apply Hpush; rewrite snd_rev, Hi; [rewrite values_size_rev; pose proof (fields_values_size fs); rewrite object_size; lia|]. cbn [safe_value].
    rewrite (fold_and (fun kv => safe_value kv.2)), Forall_rev_iff. by rewrite Forall_fmap.
Qed.
Lemma preserved_numbers v : match validate_preserved_numbers v with Ok _ => safe_value v | Err _ => ~ safe_value v | Panic => False end.
Proof.
  unfold validate_preserved_numbers. pose proof (numbers_loop_spec (value_size v) [(""%string, v)]) as H. cbn [fmap list_fmap snd] in H. rewrite values_size_cons in H. specialize (H ltac:(cbn; lia)).
  pose proof (Forall_singleton safe_value v). destruct (numbers_loop _ _); tauto.
Qed.

(** ** What an accepted permit says *)
Lemma td_string_inv v path s : td_string v path = Ok s -> v = VString s.
Proof. unfold td_string. intros H%ok_or_inv. destruct v; try done. by injection H as ->. Qed.
Lemma td_object_inv v path fs : td_object v path = Ok fs -> v = VObject fs.
Proof. unfold td_object. intros H%ok_or_inv. destruct v; try done. by injection H as ->. Qed.
Lemma td_address_inv v path a : td_address v path = Ok a -> exists s, v = VString s /\ a = to_ascii_lowercase s /\ hex_text 42 s = true.
Proof. unfold td_address. intros H. apply bind_Ok_inv in H as (s & Hs%td_string_inv & H). destruct (hex_text 42 s) eqn:Hh; [|done]. injection H as <-. eauto. Qed.
Lemma index_object v k fs path : td_object (index_or_null v k) path = Ok fs -> value_get v k = Some (VObject fs).
Proof. intros H%td_object_inv. unfold index_or_null in H. destruct (value_get v k); [by cbn in H; subst|done]. Qed.
Lemma foldM_each {E A} (f : () -> A -> result E ()) l u x : foldM f l u = Ok tt -> x ∈ l -> f tt x = Ok tt.
Proof.
  revert u. induction l as [|y l IH]; intros [] H Hx; [by apply elem_of_nil in Hx|]. cbn [foldM] in H. apply bind_Ok_inv in H as ([] & Hy & H).
  apply elem_of_cons in Hx as [->|Hx]; [done|]. by eapply IH.
Qed.
Definition signature_of (fs : list TypeField) : list (string * string) := (fun f => (tf_name f, tf_type f)) <$> fs.
Lemma permit_fields_inv fs : is_permit_fields fs = true -> signature_of fs = PERMIT_FIELDS.
Proof.
  unfold is_permit_fields, signature_of. rewrite andb_true_iff. intros [Hl%Nat.eqb_eq Hf]. revert Hl Hf. generalize PERMIT_FIELDS. induction fs as [|f fs IH]; intros [|[n t] l] Hl Hf; try done.
  cbn in Hf. rewrite !andb_true_iff in Hf. destruct Hf as [[Hn%String.eqb_eq Ht%String.eqb_eq] Hf]. cbn. rewrite Hn, Ht. f_equal. apply IH; [by injection Hl|done].
Qed.
Lemma compare_fields_inv path actual expected k us : length actual = length expected ->
  collectM (fun iae => compare_field path iae.1 iae.2.1 iae.2.2) (imap (fun i ae => ((k + i)%nat, ae)) (zip actual expected)) = Ok us -> signature_of actual = signature_of expected.
Proof.
  revert expected k us. induction actual as [|a actual IH]; intros [|e expected] k us Hl; try done. intros H. cbn [zip zip_with imap collectM] in H.
  apply bind_Ok_inv in H as (u & Hu & H). apply bind_Ok_inv in H as (us' & Hus & _). cbn [signature_of fmap list_fmap]. unfold compare_field in Hu. cbn [fst snd] in Hu.
  destruct (String.eqb_spec (tf_name a) (tf_name e)) as [->|]; [|done]. cbn [negb] in Hu. destruct (String.eqb_spec (tf_type a) (tf_type e)) as [->|]; [|done]. unfold signature_of. cbn. f_equal.
  apply (IH expected (S k) us'); [by injection Hl|]. rewrite <- Hus. f_equal. apply imap_ext. intros i x _. cbn. f_equal. lia.
Qed.
Lemma btree_get_in g k v : btree_get g k = Some v -> (k, v) ∈ g.
Proof. induction g as [|[k' v'] g IH]; [done|]. cbn [btree_get]. destruct (String.eqb_spec k' k) as [->|]; [intros [= ->]; left|]. intros H%IH. by right. Qed.
Section PermitLaws.
Context {T0 : AlloyText} {A0 : Alloy} {S0 : ActionSerde} {E0 : DecodeSerde} {Y0 : TypedSerde}.
Lemma validate_types_inv input tm : validate_types input tm = Ok tt -> pp_primary_type input = "Permit"%string /\
  exists types graph fs, value_get (pp_typed_data input) "types" = Some (VObject types) /\ type_graph types "Permit" "typed_data.types" = Ok graph /\
    btree_get graph "Permit" = Some fs /\ signature_of fs = PERMIT_FIELDS.
Proof.
  unfold validate_types. intros H. apply bind_Ok_inv in H as (etypes & _ & H). apply bind_Ok_inv in H as (expected & _ & H). apply bind_Ok_inv in H as (efs & He%ok_or_inv & H).
  destruct (String.eqb_spec (pp_primary_type input) "Permit") as [Hp|]; [|done]. cbn [negb orb] in H. destruct (is_permit_fields efs) eqn:Hf; [|done]. cbn [negb] in H.
  apply bind_Ok_inv in H as (types & Ht%index_object & H). apply bind_Ok_inv in H as (graph & Hg & H). rewrite Hp in *. split; [done|].
  apply btree_get_in in He. pose proof (foldM_each _ _ _ _ H He) as Hc. unfold compare_type in Hc. cbn [fst snd] in Hc. apply bind_Ok_inv in Hc as (fs & Hfs%ok_or_inv & Hc).
  destruct (Nat.eqb_spec (length fs) (length efs)) as [Hl|]; [|done]. cbn [negb] in Hc. apply bind_Ok_inv in Hc as (us & Hus & _).
  exists types, graph, fs. split_and!; [done..|]. rewrite <- (permit_fields_inv efs Hf). by eapply (compare_fields_inv _ _ _ 0).
Qed.
Lemma validate_domain_inv input bm tm : validate_domain input bm tm = Ok tt -> exists domain name contract,
  value_get (pp_typed_data input) "domain" = Some (VObject domain) /\ obj_get domain "name" = Some (VString name) /\ obj_get tm "domain_name" = Some (VString name) /\
  obj_get tm "verifying_contract" = Some (VString contract) /\ to_ascii_lowercase contract = pp_verifying_contract input.
Proof.
  unfold validate_domain. intros H. apply bind_Ok_inv in H as (contract & Hc & H). apply bind_Ok_inv in H as (primary & _ & H). apply bind_Ok_inv in H as (addresses & _ & H).
  apply bind_Ok_inv in H as (values & _ & H). apply bind_Ok_inv in H as (lowered & _ & H). destruct (String.eqb_spec contract (pp_verifying_contract input)) as [Heq|]; [|done].
  cbn [negb orb] in H. destruct (negb _ || negb _); [done|]. apply bind_Ok_inv in H as (domain & Hd%index_object & H). apply bind_Ok_inv in H as (us & _ & H).
  apply bind_Ok_inv in H as (expected & He & H). apply bind_Ok_inv in H as (actual & Ha & H). destruct (String.eqb_spec actual expected) as [->|]; [|done].
  apply map_err_ok in Hc, He. apply bind_Ok_inv in Hc as (vc & Hvc%ok_or_inv & (s & -> & -> & _)%td_address_inv). apply bind_Ok_inv in He as (ve & Hve%ok_or_inv & ->%td_string_inv).
  apply bind_Ok_inv in Ha as (va & Hva%ok_or_inv & ->%td_string_inv). exists domain, expected, s. by split_and!.
Qed.
(** The five fields of a validated message, as the manifest's template sees them. *)
Definition signed_message (owner spender : string) (value nonce deadline : Z) : Value :=
  VObject [("owner", VString owner); ("spender", VString spender); ("value", uint_string value); ("nonce", uint_string nonce); ("deadline", uint_string deadline)]%string.
Lemma validate_manifest_inv input bundle vp : validate_manifest input bundle = Ok vp -> exists tm message owner spender vv value nonce dv,
  value_get bundle "match" ≫= (fun m => value_get m "typed_data") = Some (VObject tm) /\ validate_types input tm = Ok tt /\ (exists bm, validate_domain input bm tm = Ok tt) /\
  value_get (pp_typed_data input) "message" = Some (VObject message) /\ Forall (fun nv => nv.1 ∈ PERMIT_FIELDS.*1) message /\
  obj_get message "owner" = Some (VString owner) /\ to_ascii_lowercase owner = pp_requested_signer input /\
  obj_get message "spender" = Some (VString spender) /\ obj_get message "value" = Some vv /\ uint256 vv "typed_data.message.value" = Ok value /\
  vp_message vp = signed_message (to_ascii_lowercase owner) (to_ascii_lowercase spender) value nonce (vp_deadline_seconds vp) /\
  obj_get message "deadline" = Some dv /\ uint256 dv "typed_data.message.deadline" = Ok (vp_deadline_seconds vp) /\ vp_deadline_seconds vp <= MAX_SAFE_INTEGER /\
  safe_value (pp_original input).
Proof.
  unfold validate_manifest, message_member. intros H. apply bind_Ok_inv in H as (bm & Hbm & H). apply bind_Ok_inv in H as (tm & Htm & H). apply bind_Ok_inv in H as ([] & Hty & H).
  apply bind_Ok_inv in H as ([] & Hdo & H). apply bind_Ok_inv in H as (message & Hm%index_object & H). apply bind_Ok_inv in H as (owner & Ho & H). apply bind_Ok_inv in H as (spender & Hsp & H).
  apply bind_Ok_inv in H as (value & Hva & H). apply bind_Ok_inv in H as (nonce & _ & H). apply bind_Ok_inv in H as (deadline & Hd & H). destruct (find _ message) as [[]|] eqn:Hf; [done|].
  pose proof (preserved_numbers (pp_original input)) as Hn. destruct (validate_preserved_numbers (pp_original input)); [|done..]. cbn [mbind result_bind] in H.
  destruct (String.eqb_spec owner (pp_requested_signer input)) as [<-|]; [|done]. cbn [negb] in H. destruct (Z.ltb_spec MAX_SAFE_INTEGER deadline); [done|]. injection H as <-. cbn [vp_deadline_seconds vp_message].
  apply bind_Ok_inv in Ho as (ov & Hov%ok_or_inv & (o & -> & -> & _)%td_address_inv). apply bind_Ok_inv in Hsp as (sv & Hsv%ok_or_inv & (s & -> & -> & _)%td_address_inv).
  apply bind_Ok_inv in Hva as (vv & Hvv%ok_or_inv & Hvu). apply bind_Ok_inv in Hd as (dv & Hdv%ok_or_inv & Hdu).
  exists tm, message, o, s, vv, value, nonce, dv. apply map_err_ok in Hbm, Htm. apply index_object in Hbm. apply bind_Ok_inv in Htm as (tv & Htv%ok_or_inv & ->%td_object_inv). split_and!; try done; [|by exists bm|].
  - rewrite Hbm. exact Htv.
  - apply Forall_forall. intros nv Hin. pose proof (find_none _ _ Hf nv (proj1 (list_elem_of_In _ _) Hin)) as Hk. by apply negb_false_iff, bool_decide_eq_true in Hk.
Qed.

(** A manifest that reads the message field by field: several arguments besides those of the
    signature, and a literal permit template whose token is the verifying contract and whose
    spender and amount are the message's. The permit manifest of the decoder snapshot is one
    ([shipped_reads]). *)
Definition permit_token (chain address : Value) : Value :=
  VObject [("key", VObject [("standard", VString "erc20"); ("chain", chain); ("address", address)])]%string.
Record reads_message (bundle emit : Value) (obj inner payload live : list (string * Value)) : Prop := {
  rm_args : (2 <= length (List.filter (fun i => negb (is_signature_param i)) (default [] (a ← abi_of bundle; v ← value_get a "inputs"; as_array v))))%nat;
  rm_body : value_get emit "body" = Some (VObject obj);
  rm_template : action_template obj inner payload "token" "erc20_permit";
  rm_token : obj_get payload "token" = Some (permit_token (VString "$chain") (VString "$tx.to"));
  rm_spender : obj_get payload "spender" = Some (VString "$args.spender");
  rm_amount : obj_get payload "amount" = Some (VString "$args.value");
  rm_live : value_get emit "live_inputs" = Some (VObject live);
  rm_names : live.*1 = ["nonce"%string];
}.
(** What the derived deserializer of a permit does: it reads each field from the member of its
    name, an address from its text and an amount from its decimal digits. *)
Class PermitSerdeLaws : Prop := {
  permit_token_read flat p chain address : action_from_value (VObject flat) = inr (BodyToken (TaErc20Permit p)) ->
    obj_get flat "token" = Some (permit_token (VString chain) (VString address)) ->
    exists a, address_from_str address = Some a /\ ep_token p = mkTokenRef (Erc20 chain a);
  permit_spender_read flat p spender : action_from_value (VObject flat) = inr (BodyToken (TaErc20Permit p)) ->
    obj_get flat "spender" = Some (VString spender) -> address_from_str spender = Some (ep_spender p);
  permit_amount_read flat p n : action_from_value (VObject flat) = inr (BodyToken (TaErc20Permit p)) -> u256 n ->
    obj_get flat "amount" = Some (uint_string n) -> ep_amount p = n;
}.
Lemma uint256_range {L : AlloyTextLaws T0} v path n : uint256 v path = Ok n -> u256 n.
Proof.
  unfold uint256. destruct v; try done.
  - unfold safe_number, as_u64. repeat case_match; try done. intros [= <-]. simplify_eq. apply andb_true_iff in H1 as [?%Z.leb_le ?%Z.leb_le].
    unfold u256, U64_MAX, U256_MAX in *. lia.
  - intros H. apply bind_Ok_inv in H as (raw & _ & H). revert H. destruct (strip_prefix "0x" raw) as [hex|]; cbn beta iota zeta; case_match; try done; intros Hr%ok_or_inv; by eapply radix_range.
Qed.
Lemma args_flat abi primary message body : (2 <= length (List.filter (fun i => negb (is_signature_param i)) (default [] (a ← abi; v ← value_get a "inputs"; as_array v))))%nat ->
  build_typed_data_args_json abi primary message body = message.
Proof. unfold build_typed_data_args_json. destruct (List.filter _ _) as [|x [|y l]]; cbn [length]; [lia|lia|done]. Qed.
(** The context a permit is built in. *)
Definition permit_context (input : PreparedTypedData) (bundle template : Value) (contract submitter : Address) (message : Value) : V3MapContext :=
  mkV3MapContext ("eip155:" +:+ pretty (pp_chain_id input)) contract submitter 0 (pp_submitted_at input)
    (build_typed_data_args_json (abi_of bundle) (pp_primary_type input) message (Some template)) "" ∅ ∅ None.
Lemma permit_reads {L : AlloyTextLaws T0} {P : PermitSerdeLaws} input bundle emit obj inner payload live contract submitter owner spender value nonce deadline permit :
  reads_message bundle emit obj inner payload live -> addr160 contract -> u256 value ->
  build_action_body (permit_context input bundle (VObject obj) contract submitter (signed_message owner spender value nonce deadline)) (VObject obj) (Some (VObject live))
    = Ok (BodyToken (TaErc20Permit permit)) ->
  ep_token permit = mkTokenRef (Erc20 ("eip155:" +:+ pretty (pp_chain_id input)) contract) /\ address_from_str spender = Some (ep_spender permit) /\ ep_amount permit = value.
Proof.
  intros [Hargs _ Ht Htok Hsp Ham _ Hn] Hc Hv (flat & Hp & Ha & _)%build_inv. unfold permit_context in Hp. rewrite args_flat in Hp by done.
  destruct live as [|[k lv] [|]]; try done. injection Hn as ->. set (ctx := mkV3MapContext _ _ _ _ _ _ _ _ _ _) in Hp.
  assert (forall k t v, obj_get payload k = Some t -> k ∉ "nonce"%string :: "live_inputs"%string :: TIME_FIELDS -> substitute_placeholders ctx t = Ok v -> obj_get flat k = Some v) as Hfield.
  { intros k t v Hk [Hkn Hkl]%not_elem_of_cons Hs%expands_iff. eapply template_field_value; try done. cbn. by intros ?%list_elem_of_singleton. }
  split_and!.
  - eapply (Hfield _ _ (permit_token (VString _) (VString (lowercase_hex contract)))) in Htok; [|set_solver|reflexivity].
    destruct (permit_token_read _ _ _ _ Ha Htok) as (a & Haddr & ->). rewrite address_lowercase in Haddr by done. by injection Haddr as ->.
  - eapply (Hfield _ _ (VString spender)) in Hsp; [|set_solver|reflexivity]. by eapply permit_spender_read.
  - eapply (Hfield _ _ (uint_string value)) in Ham; [|set_solver|reflexivity]. by eapply permit_amount_read.
Qed.

(** C29: An accepted permit is read from what was signed. When the strict route accepts a request
    its only action is an ERC-20 permit that the installed permit manifest builds from the five
    validated fields of the signed message: its deadline, and that of the signature, is the
    deadline of the message; if the manifest's template names the message's spender and value
    and the verifying contract, as the one in the snapshot does, the permit's spender and amount
    are the message's and its token is the contract that verifies the signature, on the chain
    of the domain. The owner of the message is the requested signer; the message has no field
    but the five of the permit, and the request declares exactly these, with their types and
    in their order; the domain has the name and the contract of the manifest; and no number of
    the request lost precision. *)
Theorem permit_route_sound {L : AlloyTextLaws T0} {P : PermitSerdeLaws} reg json res : route_typed_data_v4 reg json = Ok res ->
  exists wire input bundle tm permit meta message domain owner spender vv value nonce name contract dv,
  value_from_str json = inr wire /\ prepare wire = Ok input /\ tr_decoder_id res = PERMIT_BUNDLE /\ dr_bundles reg !! PERMIT_BUNDLE = Some bundle /\
  value_get bundle "match" ≫= (fun m => value_get m "typed_data") = Some (VObject tm) /\
  tr_actions res = [mkAction meta (BodyToken (TaErc20Permit permit))] /\
  value_get (pp_typed_data input) "message" = Some (VObject message) /\ Forall (fun nv => nv.1 ∈ PERMIT_FIELDS.*1) message /\
  (obj_get message "owner" = Some (VString owner) /\ to_ascii_lowercase owner = pp_requested_signer input) /\
  (obj_get message "spender" = Some (VString spender) /\ obj_get message "value" = Some vv /\ uint256 vv "typed_data.message.value" = Ok value) /\
  (obj_get message "deadline" = Some dv /\ uint256 dv "typed_data.message.deadline" = Ok (ep_deadline permit) /\ ep_deadline permit <= MAX_SAFE_INTEGER) /\
  (exists emit template token submitter, value_get bundle "emit" = Some emit /\ value_get emit "body" = Some template /\ address_from_str (pp_verifying_contract input) = Some token /\
     build_action_body
       (permit_context input bundle template token submitter (signed_message (to_ascii_lowercase owner) (to_ascii_lowercase spender) value nonce (ep_deadline permit)))
       template (value_get emit "live_inputs") = Ok (BodyToken (TaErc20Permit permit)) /\
     forall obj inner payload live, reads_message bundle emit obj inner payload live ->
       ep_token permit = mkTokenRef (Erc20 ("eip155:" +:+ pretty (pp_chain_id input)) token) /\
       address_from_str (to_ascii_lowercase spender) = Some (ep_spender permit) /\ ep_amount permit = value) /\
  (exists d, me_nature meta = OffchainSig d (ep_deadline permit) None /\ ed_name d = name /\ ed_chain_id d = Some (pp_chain_id input)) /\
  (value_get (pp_typed_data input) "domain" = Some (VObject domain) /\ obj_get domain "name" = Some (VString name) /\ obj_get tm "domain_name" = Some (VString name)) /\
  (obj_get tm "verifying_contract" = Some (VString contract) /\ to_ascii_lowercase contract = pp_verifying_contract input) /\
  (exists types graph fs, value_get (pp_typed_data input) "types" = Some (VObject types) /\ type_graph types "Permit" "typed_data.types" = Ok graph /\
     btree_get graph "Permit" = Some fs /\ signature_of fs = PERMIT_FIELDS) /\
  safe_value (pp_original input).
Proof.
  unfold route_typed_data_v4. intros H. apply bind_Ok_inv in H as (_ & _ & H). apply bind_Ok_inv in H as (wire & Hw & H). apply bind_Ok_inv in H as (input & Hp & H).
  unfold route_prepared in H. apply bind_Ok_inv in H as ([id bundle] & Hl%ok_or_inv & H). destruct (String.eqb_spec id PERMIT_BUNDLE) as [->|]; [|done]. cbn [negb] in H.
  apply bind_Ok_inv in H as (vp & Hvp & H). apply bind_Ok_inv in H as (emit & Hemit%ok_or_inv & H). destruct (negb _); [done|]. apply bind_Ok_inv in H as (template & Hte%ok_or_inv & H).
  apply bind_Ok_inv in H as (vc & Hvc%map_err_ok & H). apply ok_or_inv in Hvc. apply bind_Ok_inv in H as (submitter & _ & H). cbn zeta in H. apply bind_Ok_inv in H as (body & Hbody%map_err_ok & H).
  apply bind_Ok_inv in H as ([] & Hb & [= <-]).
  destruct body as [[] | | | | | | | | | | | | | | | | ]; try done. destruct (Z.eqb_spec (ep_deadline a) (vp_deadline_seconds vp)) as [Hd|]; [|done].
  apply validate_manifest_inv in Hvp as (tm & message & owner & spender & vv & value & nonce & dv & Htm & (_ & Hty)%validate_types_inv &
    (bm & (domain & name & contract & Hdo & Hn & Hn' & Hc & Hc')%validate_domain_inv) & Hm & Hall & Ho & Ho' & Hsp & Hvv & Hvu & Hmsg & Hdv & Hdu & Hle & Hs).
  assert (value_get emit "body" = Some template) as Hte' by (destruct (value_get emit "body") as [[]|]; done).
  exists wire, input, bundle, tm, a. eexists. exists message, domain, owner, spender, vv, value, nonce, name, contract, dv. cbn [tr_actions tr_decoder_id]. rewrite Hd. split_and!; try done.
  - destruct (value_from_str json); [done|]. by injection Hw as ->.
  - unfold lookup_typed in Hl. destruct (dr_typed_data_bridge reg !! _) as [id|]; [|done]. cbn [mbind option_bind] in Hl. destruct (dr_bundles reg !! id) as [b|] eqn:Hbb; [|done]. cbn [mbind option_bind] in Hl. by injection Hl as -> ->.
  - rewrite Hmsg in Hbody. exists emit, template, vc, submitter. split; [done|]. split; [done|]. split; [done|]. split; [exact Hbody|]. intros obj inner payload live Hr.
    pose proof (rm_body _ _ _ _ _ _ Hr) as Hob. rewrite Hte' in Hob. injection Hob as ->. rewrite (rm_live _ _ _ _ _ _ Hr) in Hbody.
    eapply permit_reads; [done|by eapply address_range|by eapply uint256_range|exact Hbody].
  - eexists. split; [reflexivity|]. cbn [ed_name ed_chain_id]. split; [|done]. unfold text_or_empty, str_member, index_or_null. rewrite Hdo. cbn [from_option id value_get]. by rewrite Hn.
Qed.
End PermitLaws.

(** ** The decoder of a session *)
(** The registry behind the interface the session is written against. *)
Section SessionDecoder.
Context {T0 : AlloyText} {A0 : Alloy} {S0 : ActionSerde} {E0 : DecodeSerde} {Y0 : TypedSerde}.
Context (canonical : Value -> result string bytes) (sha256 : bytes -> string).
Definition session_status (d : TransactionDecoding) : DecodingStatus := match td_status d with Complete => StatusFull | Partial => StatusPartial end.
Definition registry_decoder : RequestDecoder := {|
  VerifiedDecoder := DecoderRegistry;
  SessionInput.route_request reg wire :=
    map_err (fun e => mkRouteError (ee_kind e) (ee_message e))
      (r ← route_request reg (value_to_string wire); Ok (rr_actions r, session_status <$> rr_decoding r));
  SessionInput.route_typed_data_v4 reg wire :=
    map_err (fun e => mkRouteError (te_kind e) (te_message e))
      (r ← route_typed_data_v4 reg (value_to_string wire); Ok (tr_actions r, rt_verifying_contract (rq_routing (tr_request r))));
  canonical_json := canonical;
  sha256_hex := sha256 |}.

(** C30: A session is told of what it cannot read. Over the decoder registry, a transaction a
    session accepts, forwarded with the chain, target and sender of its request, has at least
    one action, and it is marked partial exactly when its
    manifest follows inner calls and one of its actions, at some depth, is an Unknown call:
    the mark the verdict of the session reports is never missing and never spurious. *)
Theorem session_partial_exact (reg : DecoderRegistry) object chain_id from now to actions partial :
  decode_transaction (D0 := registry_decoder) reg object chain_id from now = Ok (to, actions, partial) ->
  actions <> [] /\
  exists wire input d, (value_get wire "chain_id" = Some (VNumber (IntNum chain_id)) /\ value_get wire "to" = Some (VString to) /\ value_get wire "submitter" = Some (VString from)) /\
    route_input_from_str (value_to_string wire) = inr input /\ decode_call reg input = Ok d /\
    (partial = true <-> tracked d = true /\ Exists (fun a => body_has_unknown (ac_body a) = true) actions).
Proof.
  unfold decode_transaction. intros H. apply bind_Ok_inv in H as (data & _ & H). cbn zeta in H. destruct (negb _); [done|]. apply bind_Ok_inv in H as (value & _ & H).
  destruct (_ || _); [done|]. apply bind_Ok_inv in H as (v & _ & H). apply bind_Ok_inv in H as (to' & _ & H). destruct (_ && _); [done|]. apply bind_Ok_inv in H as ([acts status] & Hr & H).
  injection H as -> -> <-. apply map_err_ok in Hr. cbn [SessionInput.route_request registry_decoder] in Hr. apply map_err_ok in Hr. apply bind_Ok_inv in Hr as (r & Hr & [= <- <-]).
  unfold route_request in Hr. apply bind_Ok_inv in Hr as (_ & _ & Hr). apply bind_Ok_inv in Hr as (input & Hi & Hr). split.
  - unfold route_input in Hr. pose proof (route_visible (S MAX_TRANSACTION_DEPTH) reg input root_frame new_traversal) as Hv. unfold route_transaction in Hr.
    destruct (route_loop _ reg input root_frame new_traversal) as [[r'|e|] t]; [|done..]. injection Hr as <-. specialize (Hv r' eq_refl). unfold visible_result in Hv. by destruct (tv_active t).
  - destruct (route_status reg input r Hr) as (d & Hd & Hn & Hs). eexists _, input, d. split; [|split; [by destruct (route_input_from_str _) as [|i] eqn:Hj; [|injection Hi as <-]|split; [done|]]]; [done|]. rewrite bool_decide_eq_true. destruct (rr_decoding r) as [decoding|]; cbn [fmap option_fmap option_map snd].
    + destruct (Hs decoding eq_refl) as [H1 _]. assert (tracked d = true) as -> by (destruct (tracked d); [done|]; by assert (Some decoding = None) by by apply Hn).
      assert (Exists (fun a => body_has_unknown (ac_body a) = true) (rr_actions r) <-> ~ Forall (fun a => body_has_unknown (ac_body a) = false) (rr_actions r)) as ->.
      { clear. induction (rr_actions r) as [|a l IH]; [split; [by inversion 1|intros H; exfalso; apply H; constructor]|]. rewrite Exists_cons, Forall_cons, IH. destruct (body_has_unknown (ac_body a)); intuition congruence. }
      rewrite <- H1. unfold session_status. destruct (td_status decoding); naive_solver.
    + assert (tracked d = false) as -> by by apply Hn. naive_solver.
Qed.
End SessionDecoder.

(** ** Witnesses *)
Module TypedDemo.
Definition signer : string := "0x0000000000000000000000000000000000000022".
Definition contract : string := "0x0000000000000000000000000000000000000011".
Definition usdc : string := "0xa0b86991c6218b36c1d19d4a2e9eb0ce3606eb48".
Definition permit_types : Value :=
  VObject [("Permit", VArray (map (fun nt => VObject [("name", VString nt.1); ("type", VString nt.2)]) PERMIT_FIELDS))]%string.
Definition typed_data : Value :=
  VObject [("domain", VObject [("name", VString "USD Coin"); ("chainId", VNumber (IntNum 1)); ("verifyingContract", VString usdc)]);
           ("types", permit_types); ("primaryType", VString "Permit");
           ("message", VObject [("owner", VString signer); ("spender", VString contract); ("value", VString "5"); ("nonce", VNumber (IntNum 0)); ("deadline", VString "2000")])]%string.
Definition wire : Value := VObject [("typed_data", typed_data); ("requested_signer", VString signer); ("submitted_at", VNumber (IntNum 1000))]%string.
(** The permit manifest of the decoder snapshot, in the members routing reads. *)
Definition param (name type : string) : Value := VObject [("name", VString name); ("type", VString type)]%string.
Definition payload : list (string * Value) :=
  [("token", permit_token (VString "$chain") (VString "$tx.to")); ("spender", VString "$args.spender"); ("amount", VString "$args.value"); ("deadline", VString "$args.deadline")]%string.
Definition inner : list (string * Value) := [("action", VString "erc20_permit"); ("erc20_permit", VObject payload)]%string.
Definition body : list (string * Value) := [("domain", VString "token"); ("token", VObject inner)]%string.
Definition nonce_input : list (string * Value) :=
  [("nonce", VObject [("source", VObject [("kind", VString "onchain_view"); ("chain", VString "$chain"); ("contract", VString usdc); ("function", VString "nonces(address)");
                                          ("decoder_id", VString "erc20_permit_nonce")]);
                      ("ttl_s", VNumber (IntNum 12))])]%string.
Definition emit : Value := VObject [("strategy", VString "single_emit"); ("body", VObject body); ("live_inputs", VObject nonce_input)]%string.
Definition bundle : Value :=
  VObject [("id", VString PERMIT_BUNDLE);
           ("match", VObject [("selector", VString "0xd505accf"); ("chain_to_addresses", VObject [("1", VArray [VString usdc])]);
                              ("typed_data", VObject [("domain_name", VString "USD Coin"); ("verifying_contract", VString usdc); ("primary_type", VString "Permit"); ("types", permit_types)])]);
           ("abi_fragment", VObject [("function_name", VString "permit");
              ("abi", VObject [("name", VString "permit"); ("type", VString "function");
                 ("inputs", VArray [param "owner" "address"; param "spender" "address"; param "value" "uint256"; param "deadline" "uint256"; param "v" "uint8"; param "r" "bytes32"; param "s" "bytes32"])])]);
           ("emit", emit)]%string.
Definition registry : DecoderRegistry :=
  mkDecoderRegistry ∅ {[PERMIT_BUNDLE := bundle]} {[(1, usdc, "Permit"%string, None) := PERMIT_BUNDLE]} ∅.
#[local] Instance text : AlloyText := demo_text.
Definition token_of (v : Value) : option TokenRef :=
  match v with
  | VObject [("key", VObject [("standard", VString standard); ("chain", VString c); ("address", VString s)])] =>
      if String.eqb standard "erc20" then a ← address_from_str s; Some (mkTokenRef (Erc20 c a)) else None
  | _ => None
  end%string.
Definition permit_of (v : Value) : option Erc20PermitAction :=
  token ← (m ← value_get v "token"; token_of m);
  spender ← (m ← value_get v "spender"; s ← as_str m; address_from_str s);
  amount ← (m ← value_get v "amount"; s ← as_str m; u256_from_str_radix s 10);
  deadline ← (m ← value_get v "deadline"; as_u64 m);
  Some (mkErc20PermitAction token spender amount deadline (mkLiveField 0 (OracleFeed Pyth "nonce"%string) 0 None None)).
#[local] Instance serde : ActionSerde := {|
  action_from_value v := match permit_of v with Some p => inr (BodyToken (TaErc20Permit p)) | None => inl "not a permit"%string end;
  action_to_value _ := inr (VObject ((fun k => (k, VNull)) <$> ["domain"; "action"; "token"; "spender"; "amount"; "deadline"; "nonce"])%string) |}.
#[local] Instance parsers : DecodeSerde := {|
  value_from_str _ := inr wire; route_input_from_str _ := inl "transaction"%string; match_from_value _ := inl "match"%string; function_from_value _ := inl "function"%string |}.
#[local] Instance texts : TypedSerde := {| typed_input_from_str _ := inl "input"%string; value_to_string _ := ""%string; lowercase_first s := s |}.
Definition request : list (string * Value) := [("to", VString contract); ("data", VString "0x01020304")]%string.
Lemma permit_of_inv flat p : action_from_value (VObject flat) = inr (BodyToken (TaErc20Permit p)) -> permit_of (VObject flat) = Some p.
Proof. unfold action_from_value, serde. destruct (permit_of (VObject flat)); [|done]. by intros [= ->]. Qed.
#[local] Instance laws : PermitSerdeLaws.
Proof.
  split; intros flat p; unfold permit_of.
  - intros c s H%permit_of_inv Ht. unfold permit_of in H. cbn [value_get] in H. rewrite Ht in H. cbn [mbind option_bind token_of permit_token String.eqb Ascii.eqb Bool.eqb] in H.
    destruct (address_from_str s) as [a|]; [|done]. exists a. split; [done|]. cbn [mbind option_bind] in H. repeat (case_match; try done). by simplify_option_eq.
  - intros s H%permit_of_inv Hs. unfold permit_of in H. cbn [value_get] in H. rewrite Hs in H. by simplify_option_eq.
  - intros n H%permit_of_inv Hn Ha. unfold permit_of in H. cbn [value_get] in H. rewrite Ha in H. cbn [mbind option_bind as_str uint_string] in H. rewrite radix_decimal in H by done. by simplify_option_eq.
Qed.
(** The manifest of the snapshot reads the message field by field. *)
Lemma shipped_reads : reads_message bundle emit body inner payload nonce_input.
Proof. constructor; try reflexivity; [apply Nat.leb_le; vm_compute; reflexivity|]. constructor; try done; [by repeat constructor|]. cbn. repeat constructor; set_solver. Qed.
End TypedDemo.
Definition demo_permit_route : checked TypedResult :=
  route_typed_data_v4 (T0 := demo_text) (A0 := AbiDecode.MiniAlloy.alloy) (S0 := TypedDemo.serde) (E0 := TypedDemo.parsers) (Y0 := TypedDemo.texts) TypedDemo.registry "".
(** With the shipped manifest the permit is the one signed: 5 USDC to the spender. *)
Lemma permit_route_sound_witness : exists res permit meta, demo_permit_route = Ok res /\ tr_actions res = [mkAction meta (BodyToken (TaErc20Permit permit))] /\
  address_from_str (AlloyText := demo_text) TypedDemo.contract = Some (ep_spender permit) /\ ep_amount permit = 5.
Proof.
  destruct demo_permit_route as [res|e|] eqn:Hr; [|by vm_compute in Hr..]. unfold demo_permit_route in Hr.
  destruct (permit_route_sound (T0 := demo_text) (A0 := AbiDecode.MiniAlloy.alloy) (S0 := TypedDemo.serde) (E0 := TypedDemo.parsers) (Y0 := TypedDemo.texts) (L := demo_text_laws) (P := TypedDemo.laws) _ _ _ Hr)
    as (wire & input & bundle & tm & permit & meta & message & domain & owner & spender & vv & value & nonce & name & contract & dv & Hw & Hp & _ & Hb & _ & Ha & Hm & _ & _ & (Hsp & Hvv & Hu) & _ &
        (emit & template & token & submitter & He & _ & _ & _ & Hf) & _).
  exists res, permit, meta. split; [exact eq_refl|]. split; [exact Ha|].
  injection Hw as <-. apply (f_equal (fun r => match r with Ok i => value_get (pp_typed_data i) "message" | _ => None end)) in Hp. rewrite Hm in Hp. vm_compute in Hp. injection Hp as <-.
  injection Hsp as <-. injection Hvv as <-. injection Hu as <-. injection Hb as <-. injection He as <-.
  destruct (Hf _ _ _ _ TypedDemo.shipped_reads) as (_ & Hs & Hv). split; [exact Hs|exact Hv].
Defined.
Lemma session_partial_exact_witness : exists to actions,
  decode_transaction
    (D0 := registry_decoder (T0 := demo_text) (A0 := RouteDemo.alloy) (S0 := Demo.serde) (E0 := RouteDemo.serde) (Y0 := TypedDemo.texts) (fun _ => Ok []) (fun _ => ""%string))
    RouteDemo.registry TypedDemo.request 1 TypedDemo.signer 1000000 = Ok (to, actions, true) /\ actions <> [].
Proof.
  destruct (decode_transaction
    (D0 := registry_decoder (T0 := demo_text) (A0 := RouteDemo.alloy) (S0 := Demo.serde) (E0 := RouteDemo.serde) (Y0 := TypedDemo.texts) (fun _ => Ok []) (fun _ => ""%string))
    RouteDemo.registry TypedDemo.request 1 TypedDemo.signer 1000000) as [[[to actions] partial]|e|] eqn:Hr; [|by vm_compute in Hr..].
  destruct (session_partial_exact (T0 := demo_text) (A0 := RouteDemo.alloy) (S0 := Demo.serde) (E0 := RouteDemo.serde) (Y0 := TypedDemo.texts) (fun _ => Ok []) (fun _ => ""%string)
    RouteDemo.registry _ _ _ _ _ _ _ Hr) as [Ha _].
  exists to, actions. split; [|exact Ha]. assert (partial = true) as -> by (vm_compute in Hr; congruence). exact eq_refl.
Defined.
End DecodeTyped.
