(* ===== verification/DecoderSnapshot.v ===== *)
(** * The decoder snapshot (dambi-core/src/snapshot/decoder.rs, bundle/decoder_signature.rs)

    The gate in front of the registry of a store: an artifact pinned by its digest,
    or a manifest signed by a decoder key, is authenticated, every manifest in it is
    checked (routes, ABI, strategies, dispatch tables, templates, dependencies), and
    the manifests are installed into a fresh registry, in which no two of them own
    the same route. SHA-256 and the canonical serialization of JSON are parameters. *)
From Stdlib Require Import Ascii.
From stdpp Require Import base tactics numbers list strings gmap pretty.
From S2P Require Import Prelude Types Bytes AbiDecode PackedPayloads SyncLive PolicyEngine PolicyRpc BundleFormat BundleTrust SnapshotStore SessionInput PolicyRuntime MapperText MapperFn MapperBuild DecodeDerive DecodeStream DecodeRoute DecodeTyped.
Import SyncLive.

Module DecoderSnapshot.
Import AbiDecode PolicyEngine PolicyRpc BundleFormat BundleTrust SnapshotStore SessionInput PolicyRuntime MapperText MapperFn MapperBuild DecodeDerive DecodeStream DecodeRoute DecodeTyped.

Notation snap := (result SnapshotError).

(** ** Data *)
Definition MAX_ROUTING_ENTRIES : Z := 65536.
Definition MAX_ROUTING_STRING_BYTES : Z := 32 * 1024 * 1024.
Inductive DecoderTrust := PinnedArtifact | SignedBy (signer_key_id : string).
Record VerifiedDecoderSnapshot := mkVerifiedDecoderSnapshot {
  vd_registry : DecoderRegistry; vd_digest : string; vd_bundle_ids : list string; vd_bundle_digests : list string; vd_trust : DecoderTrust }.
Record SignatureVerifiedDecoderBundle := mkSignatureVerifiedDecoderBundle {
  sv_bundle : Value; sv_canonical_bytes : bytes; sv_signer_key_id : string; sv_key_id : option string }.
Record Routes := mkRoutes {
  rs_exact : gset (Z * string * string); rs_typed : gset (Z * string * string * option string); rs_agnostic : gset (Z * string);
  rs_entries : Z; rs_string_bytes : Z }.
Definition no_routes : Routes := mkRoutes ∅ ∅ ∅ 0 0.

(** ** Readers *)
Definition ds_invalid (path message : string) : SnapshotError := mkSnapshotError SkInvalidDecoderSnapshot (path +:+ ": " +:+ message)%string.
Definition ds_object (value : Value) (path : string) (allowed : list string) : snap (list (string * Value)) :=
  map ← ok_or (ds_invalid path "must be an object") (as_object value);
  match find (fun kv => negb (bool_decide (kv.1 ∈ allowed))) map with
  | Some _ => Err (ds_invalid path "unsupported field {key:?}")
  | None => Ok map
  end.
Definition ds_required (map : list (string * Value)) (key path : string) : snap Value := ok_or (ds_invalid path ("missing " +:+ key)%string) (obj_get map key).
Definition ds_string (value : Value) (path : string) : snap string :=
  ok_or (ds_invalid path "must be a nonempty string") (s ← as_str value; if String.eqb s "" then None else Some s).
Definition field (map : list (string * Value)) (key path : string) : snap string :=
  v ← ds_required map key path; ds_string v (path +:+ "/" +:+ key)%string.
Definition ds_array (value : Value) (path : string) : snap (list Value) := ok_or (ds_invalid path "must be an array") (as_array value).
Definition is_hex (value : string) (n : nat) : bool :=
  (String.length value =? 2 + n * 2)%nat && match strip_prefix "0x" value with Some digits => all_chars is_hexdigit digits | None => false end.
(** [for x in l { f(x)?; }] *)
Definition each {E A} (f : A -> result E ()) : list A -> result E () :=
  fix go l := match l with [] => Ok () | x :: rest => _ ← f x; go rest end.
(** [if let Some(value) = map.get(key) { f(value)?; }]; the value is reached structurally. *)
Definition on_member {E} (f : Value -> result E ()) (key : string) : list (string * Value) -> result E () :=
  fix go fs := match fs with [] => Ok () | (k, v) :: rest => if String.eqb k key then f v else go rest end.
Definition each_key {E} (f : string -> Value -> result E ()) (map : list (string * Value)) (keys : list string) : result E () :=
  each (fun key => on_member (f key) key map) keys.

(** ** Digests and signatures *)
Class SnapshotTools := {
  (** [serde_json_canonicalizer::to_vec] and [Sha256::digest] *)
  jcs_to_vec : Value -> string + bytes;
  sha256_digest : bytes -> bytes;
}.
Definition is_lower_hex (c : ascii) : bool := is_digit c || char_in 97 102 c.
Definition validate_digest (digest : string) : snap () :=
  ensure ((String.length digest =? 66)%nat && match strip_prefix "0x" digest with Some digits => all_chars is_lower_hex digits | None => false end)
    (mkSnapshotError SkInvalidConfig "expected decoder digest must be 0x followed by 64 lowercase hex characters").
Definition require_digest (actual expected : string) : snap () :=
  ensure (String.eqb actual expected) (mkSnapshotError SkDecoderIntegrityMismatch "decoder digest does not match the locally supplied pin").
Definition routing_limit (path : string) : SnapshotError :=
  mkSnapshotError SkLimitExceeded (path +:+ ": decoder snapshot exceeds the routing installation entries or routing string bytes")%string.

Section Signed.
Context {J : StrictJson} {K : Crypto} {G : SnapshotTools}.
Definition verify_decoder_bundle (keys : list TrustedKey) (bundle_json : bytes) (signature_b64 : string) (key_id : option string) (max_decoder_bytes : Z)
    : result SignatureError SignatureVerifiedDecoderBundle :=
  if max_decoder_bytes =? 0 then Err (mkSignatureError SeInvalidConfig "maxDecoderBytes must be positive")
  else if max_decoder_bytes <? Z.of_nat (length bundle_json) then Err (mkSignatureError SeLimitExceeded "decoder JSON exceeds maxDecoderBytes")
  else
    input ← map_err (fun _ => mkSignatureError SeInvalidDecoderSnapshot "decoder JSON is not valid UTF-8") (utf8 bundle_json);
    bundle ← map_err (fun e => mkSignatureError match pe_kind e with InputTooLarge | BundleFormat.DepthLimit => SeLimitExceeded | _ => SeInvalidDecoderSnapshot end
                                 ("invalid decoder JSON at " +:+ pe_path e +:+ ": " +:+ pe_message e)%string) (strict_parse input);
    match bundle with
    | VObject _ =>
        signature ← map_err (fun e => mkSignatureError SeInvalidSignature (pe_message e)) (decode_signature signature_b64);
        canonical_bytes ← lift_err (fun _ => mkSignatureError SeInvalidDecoderSnapshot "decoder JSON canonicalization failed: {error}") (jcs_to_vec bundle);
        signer_key_id ← verify_bytes keys RoleDecoder canonical_bytes signature;
        Ok (mkSignatureVerifiedDecoderBundle bundle canonical_bytes signer_key_id key_id)
    | _ => Err (mkSignatureError SeInvalidDecoderSnapshot "decoder JSON must be an object")
    end.
End Signed.

(** ** Routes *)
Section Routes.
(** The width of [usize]. *)
Context (w : Z).
Definition checked_usize (z : Z) : option Z := if z <? 2 ^ w then Some z else None.
Definition reserve (r : Routes) (entries : Z) (typed : bool) (string_bytes_per_entry : Z) (path : string) : snap Routes :=
  total_entries ← ok_or (routing_limit path)
    (n ← checked_usize (entries * (if typed then 2 else 1)); n ← checked_usize (rs_entries r + n); if n <=? MAX_ROUTING_ENTRIES then Some n else None);
  total_string_bytes ← ok_or (routing_limit path)
    (n ← checked_usize (entries * string_bytes_per_entry); n ← checked_usize (rs_string_bytes r + n); if n <=? MAX_ROUTING_STRING_BYTES then Some n else None);
  Ok (mkRoutes (rs_exact r) (rs_typed r) (rs_agnostic r) total_entries total_string_bytes).
Definition str_len (s : string) : Z := Z.of_nat (String.length s).
Definition witness_of (typed : list (string * Value)) (path : string) : snap (option string) :=
  match obj_get typed "witness_type" with None => Ok None | Some v => s ← ds_string v path; Ok (Some s) end.
Definition routing_string_bytes (matcher : list (string * Value)) (id selector : string) (agnostic : bool) (path : string) : snap Z :=
  n ← ok_or (routing_limit path) (n ← checked_usize (str_len id + str_len selector); checked_usize (n + (if agnostic then 0 else 42)));
  match obj_get matcher "typed_data" with
  | None => Ok n
  | Some typed =>
      typed ← ok_or (ds_invalid path "typed_data must be an object") (as_object typed);
      contract ← field typed "verifying_contract" path;
      primary ← field typed "primary_type" path;
      witness ← witness_of typed path;
      ok_or (routing_limit path)
        (n ← checked_usize (n + str_len id); n ← checked_usize (n + str_len contract); n ← checked_usize (n + str_len primary);
         checked_usize (n + match witness with Some s => str_len s | None => 0 end))
  end.
(** [iter().map(..).collect()] of distinct values. *)
Definition distinct {A} `{EqDecision A} (read : Value -> snap A) (duplicate : SnapshotError) (l : list Value) : snap (list A) :=
  foldM (fun seen v => x ← read v; if bool_decide (x ∈ seen) then Err duplicate else Ok (seen ++ [x])) l [].
Definition chain_id_of (path : string) (v : Value) : snap Z :=
  ok_or (ds_invalid path "chain_ids must contain positive JS-safe integers")
    (n ← as_u64 v; if (0 <? n) && (n <=? MAX_SAFE_INTEGER) then Some n else None).
Definition chain_ids (value : Value) (path : string) : snap (list Z) :=
  l ← ds_array value path;
  if (length l =? 0)%nat then Err (ds_invalid path "chain_ids must not be empty")
  else distinct (chain_id_of path) (ds_invalid path "duplicate chain id") l.
Definition address_of (path : string) (v : Value) : snap string :=
  address ← ds_string v path;
  if is_hex address 20 then Ok (to_ascii_lowercase address) else Err (ds_invalid path "invalid address").
Definition address_list (value : Value) (path : string) : snap (list string) :=
  l ← ds_array value path;
  if (length l =? 0)%nat then Err (ds_invalid path "address lists must not be empty")
  else distinct (address_of path) (ds_invalid path "duplicate address") l.
(** [BTreeMap<u64, Vec<String>>] *)
Fixpoint chain_insert (l : list (Z * list string)) (k : Z) (v : list string) : list (Z * list string) :=
  match l with
  | [] => [(k, v)]
  | (k', v') :: rest => if k <? k' then (k, v) :: l else if k =? k' then (k, v) :: rest else (k', v') :: chain_insert rest k v
  end.
Definition chain_key (path chain : string) : snap Z :=
  ok_or (ds_invalid path "chain keys must be canonical positive JS-safe integers")
    (n ← parse_u64 chain; if (0 <? n) && (n <=? MAX_SAFE_INTEGER) && String.eqb (pretty n) chain then Some n else None).
(** The two address forms. *)
Definition map_entries (map : list (string * Value)) (path : string) : snap (list (Z * list string)) :=
  foldM (fun entries kv => n ← chain_key path kv.1; l ← address_list kv.2 path; Ok (chain_insert entries n l)) map [].
Definition count_addresses (map : list (string * Value)) (path : string) : snap Z :=
  foldM (fun total kv => l ← ds_array kv.2 path; ok_or (routing_limit path) (checked_usize (total + Z.of_nat (length l)))) map 0.
Definition exact_entries (matcher : list (string * Value)) (string_bytes : Z) (path : string) (r : Routes) : snap (list (Z * list string) * Routes) :=
  let typed := has_key matcher "typed_data" in
  match obj_get matcher "chain_to_addresses" with
  | Some v =>
      if has_key matcher "chain_ids" || has_key matcher "to" then Err (ds_invalid path "exact routing must use one resolved address form")
      else
        map ← ok_or (ds_invalid path "chain_to_addresses must be a nonempty object") (fs ← as_object v; if (length fs =? 0)%nat then None else Some fs);
        route_count ← count_addresses map path;
        r ← reserve r route_count typed string_bytes path;
        entries ← map_entries map path;
        Ok (entries, r)
  | None =>
      chains ← ds_required matcher "chain_ids" path;
      addresses ← ds_required matcher "to" path;
      lc ← ds_array chains path;
      la ← ds_array addresses path;
      route_count ← ok_or (routing_limit path) (checked_usize (Z.of_nat (length lc) * Z.of_nat (length la)));
      r ← reserve r route_count typed string_bytes path;
      chains ← chain_ids chains path;
      addresses ← address_list addresses path;
      Ok (fold_left (fun entries chain => chain_insert entries chain addresses) chains [], r)
  end.
Definition claim_exact (path selector : string) (r : Routes) (key : Z * string) : snap Routes :=
  let k := (key.1, key.2, selector) in
  if bool_decide (k ∈ rs_exact r) then Err (ds_invalid path "duplicate exact calldata route")
  else Ok (mkRoutes ({[k]} ∪ rs_exact r) (rs_typed r) (rs_agnostic r) (rs_entries r) (rs_string_bytes r)).
Definition claim_agnostic (path selector : string) (r : Routes) (chain : Z) : snap Routes :=
  if bool_decide ((chain, selector) ∈ rs_agnostic r) then Err (ds_invalid path "duplicate address-agnostic route")
  else Ok (mkRoutes (rs_exact r) (rs_typed r) ({[(chain, selector)]} ∪ rs_agnostic r) (rs_entries r) (rs_string_bytes r)).
Definition claim_typed (path contract primary : string) (witness : option string) (r : Routes) (entry : Z * list string) : snap Routes :=
  let k := (entry.1, contract, primary, witness) in
  if negb (bool_decide (contract ∈ entry.2)) then Err (ds_invalid path "typed verifying_contract must belong to each declared chain")
  else if bool_decide (k ∈ rs_typed r) then Err (ds_invalid path "duplicate typed-data route")
  else Ok (mkRoutes (rs_exact r) ({[k]} ∪ rs_typed r) (rs_agnostic r) (rs_entries r) (rs_string_bytes r)).
Definition validate_type_fields (path : string) (nf : string * Value) : snap () :=
  if String.eqb nf.1 "" then Err (ds_invalid path "typed-data type names must be nonempty")
  else
    l ← ds_array nf.2 path;
    _ ← foldM (fun names item =>
          item ← ds_object item path ["name"; "type"]%string;
          name ← field item "name" path;
          if bool_decide (name ∈ names) then Err (ds_invalid path "duplicate typed-data field")
          else _ ← field item "type" path; Ok (name :: names)) l [];
    Ok ().
Definition validate_typed_route (entries : list (Z * list string)) (value : Value) (path : string) (r : Routes) : snap Routes :=
  typed ← ds_object value path ["domain_name"; "verifying_contract"; "primary_type"; "witness_type"; "types"]%string;
  contract ← field typed "verifying_contract" path;
  let contract := to_ascii_lowercase contract in
  if negb (is_hex contract 20) then Err (ds_invalid path "typed verifying_contract must be an address")
  else
    primary ← field typed "primary_type" path;
    witness ← witness_of typed path;
    if String.eqb primary "PermitWitnessTransferFrom" && bool_decide (witness = None)
    then Err (ds_invalid path "PermitWitnessTransferFrom requires witness_type")
    else
      _ ← on_member (fun name => _ ← ds_string name path; Ok ()) "domain_name" typed;
      types ← ds_required typed "types" path;
      types ← ok_or (ds_invalid path "typed_data.types must be an object") (as_object types);
      if negb (has_key types primary) then Err (ds_invalid path "typed_data.types must declare primary_type")
      else
        _ ← each (validate_type_fields path) types;
        foldM (claim_typed path contract primary witness) entries r.
Definition AGNOSTIC_SELECTOR : string := "0xa22cb465".
Definition flat_entries (entries : list (Z * list string)) : list (Z * string) := ca ← entries; (fun a => (ca.1, a)) <$> ca.2.
Definition validate_routes (matcher : list (string * Value)) (id selector path : string) (r : Routes) : snap Routes :=
  agnostic ← match obj_get matcher "address_agnostic" with
             | Some (VBool b) => Ok b
             | None => Ok false
             | Some _ => Err (ds_invalid path "address_agnostic must be a boolean")
             end;
  if agnostic : bool then
    if negb (String.eqb selector AGNOSTIC_SELECTOR) || existsb (has_key matcher) ["chain_to_addresses"; "to"; "typed_data"]%string
    then Err (ds_invalid path "address-agnostic routing is restricted to setApprovalForAll without exact or typed routing")
    else
      chains ← ds_required matcher "chain_ids" path;
      string_bytes ← routing_string_bytes matcher id selector true path;
      l ← ds_array chains path;
      r ← reserve r (Z.of_nat (length l)) false string_bytes path;
      chains ← chain_ids chains path;
      foldM (claim_agnostic path selector) chains r
  else
    string_bytes ← routing_string_bytes matcher id selector false path;
    er ← exact_entries matcher string_bytes path r;
    r ← foldM (claim_exact path selector) (flat_entries er.1) er.2;
    match obj_get matcher "typed_data" with
    | Some value => validate_typed_route er.1 value path r
    | None => Ok r
    end.
End Routes.

(** ** The ABI fragment *)
Fixpoint validate_abi_params (value : Value) (path : string) : snap () :=
  match value with
  | VArray params =>
      each (fun param =>
        match param with
        | VObject fs => _ ← ds_object param path ["name"; "type"; "components"; "internalType"]%string;
                        on_member (fun components => validate_abi_params components path) "components" fs
        | _ => Err (ds_invalid path "must be an object")
        end) params
  | _ => Err (ds_invalid path "must be an array")
  end.
(** [entry(key).or_insert_with(..)] *)
Definition or_insert (fs : list (string * Value)) (k : string) (v : Value) : list (string * Value) :=
  match obj_get fs k with Some _ => fs | None => obj_insert fs k v end.

Section Manifests.
Context {A0 : Alloy} {E0 : DecodeSerde} (w : Z).
Definition validate_abi (value : Value) (selector : string) (typed : bool) (path : string) : snap () :=
  fragment ← ds_object value path ["function_name"; "abi"]%string;
  name ← field fragment "function_name" path;
  abi ← ds_required fragment "abi" path;
  object ← ds_object abi path ["type"; "name"; "inputs"; "outputs"; "stateMutability"; "constant"; "payable"]%string;
  kind ← field object "type" path;
  if negb (String.eqb kind "function") then Err (ds_invalid path "abi_fragment must describe a function")
  else
    _ ← each_key (fun _ params => validate_abi_params params path) object ["inputs"; "outputs"]%string;
    let patched := or_insert (or_insert object "outputs" (VArray [])) "stateMutability" (VString "nonpayable") in
    function ← lift_err (fun _ => ds_invalid path "invalid ABI function: {error}") (function_from_value (VObject patched));
    if negb (String.eqb (fn_name function) name) then Err (ds_invalid path "abi function name differs from function_name")
    else if negb typed && negb (String.eqb selector "0x00000000")
              && negb (String.eqb ("0x" +:+ hex_encode (fn_selector function))%string (to_ascii_lowercase selector))
    then Err (ds_invalid path "match.selector differs from the ABI function selector")
    else Ok ().

(** ** Dispatch tables *)
Definition integer_in (lo hi : Z) (v : Value) : bool := match as_u64 v with Some n => (lo <=? n) && (n <=? hi) | None => false end.
Definition optional_integer (map : list (string * Value)) (key : string) (max : Z) (path : string) : snap () :=
  on_member (fun v => ensure (integer_in 1 max v) (ds_invalid path (key +:+ " must be an integer in 1..={max}")%string)) key map.
Definition text_value (path : string) (v : Value) : snap () := _ ← ds_string v path; Ok ().
Definition hex_byte (path message : string) (v : Value) : snap () := s ← ds_string v path; ensure (is_hex s 1) (ds_invalid path message).
Definition one_of (options : list string) (path message : string) (v : Value) : snap () :=
  s ← ds_string v path; ensure (bool_decide (s ∈ options)) (ds_invalid path message).
Definition object_value (path message : string) (v : Value) : snap () := match v with VObject _ => Ok () | _ => Err (ds_invalid path message) end.
Definition validate_dispatch_abi (value : Value) (path : string) : snap () :=
  s ← ds_string value path;
  _ ← lift_err (fun _ => ds_invalid path "invalid dispatch inputs_abi: {error}") (fn_parse ("step" +:+ s)%string);
  Ok ().
Definition valid_entry_key (opcode : bool) (key : string) : bool :=
  negb (String.eqb key "") && negb (opcode && (negb (is_hex key 1) || negb (String.eqb key (to_ascii_lowercase key)))).
Definition alternatives_path (path : string) : string := (path +:+ "/inputs_abi_alternatives")%string.
Definition validate_alternatives (path : string) (opcode : bool) (alternatives : Value) : snap () :=
  if negb opcode then Err (ds_invalid (alternatives_path path) "ABI alternatives are only supported by opcode dispatch")
  else
    l ← ds_array alternatives (alternatives_path path);
    each_indexed (fun index signature => validate_dispatch_abi signature (alternatives_path path +:+ "/" +:+ pretty index)%string) 0 l.
(** The fields of an entry before its body. *)
Definition entry_fields (path : string) (opcode : bool) (entry : Value) : snap (list (string * Value)) :=
  fs ← ds_object entry path ["body"; "live_inputs"; "inputs_abi"; "inputs_abi_alternatives"; "nested"; "name"; "_note"]%string;
  _ ← each_key (fun _ => text_value path) fs ["name"; "_note"]%string;
  _ ← on_member (fun s => validate_dispatch_abi s (path +:+ "/inputs_abi")%string) "inputs_abi" fs;
  _ ← on_member (validate_alternatives path opcode) "inputs_abi_alternatives" fs;
  Ok fs.
(** The fields of a nested stream before its table. *)
Definition nested_fields (path : string) (nested : Value) : snap () :=
  fs ← ds_object nested path ["mask"; "allow_revert_bit"; "unknown_opcode_policy"; "inner_actions_source"; "inner_params_source"; "per_opcode_body"; "_note"]%string;
  _ ← each_key (fun _ => hex_byte path "nested mask must be one hex byte") fs ["mask"; "allow_revert_bit"]%string;
  _ ← each_key (fun _ => text_value path) fs ["inner_actions_source"; "inner_params_source"; "_note"]%string;
  _ ← on_member (one_of ["deny"; "warn"; "skip"]%string path "unknown nested opcode policy") "unknown_opcode_policy" fs;
  _ ← ds_required fs "per_opcode_body" path;
  Ok ().
Fixpoint validate_dispatch (value : Value) (path : string) (opcode : bool) : snap () :=
  match value with
  | VObject entries =>
      each (fun ke =>
        let '(key, entry) := ke in
        if negb (valid_entry_key opcode key) then Err (ds_invalid path "invalid dispatch table key")
        else
          _ ← entry_fields path opcode entry;
          match entry with
          | VObject fs =>
              _ ← (if has_key fs "nested" then
                     if negb opcode || has_key fs "body" then Err (ds_invalid path "nested opcode must not also declare a body")
                     else on_member (fun nested =>
                            _ ← nested_fields path nested;
                            match nested with
                            | VObject nfs => on_member (fun table => validate_dispatch table path true) "per_opcode_body" nfs
                            | _ => Ok ()
                            end) "nested" fs
                   else body ← ds_required fs "body" path; object_value path "dispatch body must be an object template" body);
              on_member (object_value path "live_inputs must be an object template") "live_inputs" fs
          | _ => Ok ()
          end) entries
  | _ => Err (ds_invalid path "dispatch table must be an object")
  end.

(** ** Strategies *)
Definition strategy_fields (strategy : string) (part : bool) : option (list string) :=
  if String.eqb strategy "single_emit" then Some ["body"; "live_inputs"]
  else if String.eqb strategy "array_emit" then Some ["array_source"; "parallel_sources"; "max_elements"; "body"; "live_inputs"; "per_item_body"]
  else if part then None
  else if String.eqb strategy "opcode_stream_dispatch"
  then Some ["dispatcher_id"; "mask"; "allow_revert_bit"; "unknown_opcode_policy"; "per_opcode_body"; "max_depth"; "unlock_data_source"]
  else if String.eqb strategy "tagged_dispatch" then Some ["bytes_source"; "version_byte"; "tag_offset"; "tag_size"; "per_action_body"]
  else if String.eqb strategy "parallel_tagged_dispatch"
  then Some ["actions_source"; "data_source"; "tag_encoding"; "max_elements"; "unknown_tag_policy"; "resolve_from_inputs"; "per_tag"]
  else if String.eqb strategy "multicall_recurse" then Some ["recurse_rule_id"; "recurse_arg"; "max_depth"]
  else if String.eqb strategy "multicall_call_array" then Some ["recurse_arg"; "max_depth"]
  else if String.eqb strategy "composite_emit" then Some ["parts"]
  else if String.eqb strategy "reenter_only" then Some []
  else None%string.
Definition COMMON_FIELDS : list string := ["strategy"; "_note"; "reenter_callback_arg"]%string.
Definition RESOLVERS : list string := ["compound_v3_base_asset"; "compound_v2_underlying"]%string.
Definition named_source (path key : string) (ns : string * Value) : snap () :=
  if String.eqb ns.1 "" then Err (ds_invalid path (key +:+ " names must be nonempty")%string)
  else
    _ ← ds_string ns.2 path;
    ensure (negb (String.eqb key "resolve_from_inputs") || bool_decide (ns.1 ∈ RESOLVERS)) (ds_invalid path "unsupported named input resolver").
Definition source_map (path key : string) (v : Value) : snap () :=
  map ← ok_or (ds_invalid path (key +:+ " must be an object")%string) (as_object v);
  each (named_source path key) map.
Definition tag_bound (path key : string) (v : Value) : snap () :=
  ensure (if String.eqb key "tag_size" then integer_in 1 8 v else integer_in 0 (2 ^ 32 - 1) v)
    (ds_invalid path "tag_offset must be in 0..=u32::MAX and tag_size in 1..=8").
(** The fields of an emit rule, whatever its strategy. *)
Definition emit_fields (emit : list (string * Value)) (path : string) : snap () :=
  _ ← each_key (fun _ => text_value path) emit
        ["dispatcher_id"; "array_source"; "bytes_source"; "actions_source"; "data_source"; "unlock_data_source"; "recurse_arg"; "reenter_callback_arg"; "_note"]%string;
  _ ← each_key (fun key => object_value path (key +:+ " must be an object template")%string) emit ["body"; "live_inputs"; "per_item_body"]%string;
  _ ← each_key (source_map path) emit ["parallel_sources"; "resolve_from_inputs"]%string;
  _ ← optional_integer emit "max_elements" 64 path;
  _ ← optional_integer emit "max_depth" (2 ^ 32 - 1) path;
  _ ← each_key (fun key => hex_byte path (key +:+ " must be one hex byte")%string) emit ["mask"; "allow_revert_bit"; "version_byte"]%string;
  _ ← on_member (one_of ["deny"; "warn"; "skip"]%string path "unknown opcode policy") "unknown_opcode_policy" emit;
  on_member (one_of ["deny"; "warn"]%string path "unknown tag policy") "unknown_tag_policy" emit.
(** What each strategy needs; [validate_part] is the check of the parts of a composite. *)
Definition strategy_checks (validate_part : Value -> snap ()) (emit : list (string * Value)) (strategy path : string) : snap () :=
  if String.eqb strategy "single_emit" || String.eqb strategy "array_emit" then
    _ ← ds_required emit "body" path;
    if String.eqb strategy "array_emit" then _ ← field emit "array_source" path; Ok () else Ok ()
  else if String.eqb strategy "opcode_stream_dispatch" then
    table ← ds_required emit "per_opcode_body" path; validate_dispatch table path true
  else if String.eqb strategy "tagged_dispatch" then
    _ ← field emit "bytes_source" path;
    _ ← each_key (tag_bound path) emit ["tag_offset"; "tag_size"]%string;
    table ← ds_required emit "per_action_body" path; validate_dispatch table path false
  else if String.eqb strategy "parallel_tagged_dispatch" then
    _ ← field emit "actions_source" path;
    _ ← field emit "data_source" path;
    encoding ← field emit "tag_encoding" path;
    _ ← ensure (bool_decide (encoding ∈ ["bytes32_ascii"; "bytes32_hex"; "uint"]%string)) (ds_invalid path "unsupported tag encoding");
    table ← ds_required emit "per_tag" path; validate_dispatch table path false
  else if String.eqb strategy "multicall_recurse" then
    rule ← field emit "recurse_rule_id" path;
    ensure (String.eqb rule "self_array_bytes_last_arg") (ds_invalid path "unsupported multicall recurse rule")
  else if String.eqb strategy "reenter_only" then _ ← field emit "reenter_callback_arg" path; Ok ()
  else if String.eqb strategy "composite_emit" then
    parts ← ds_required emit "parts" path;
    parts ← ds_array parts path;
    if (length parts =? 0)%nat then Err (ds_invalid path "composite emit must contain at least one part") else each validate_part parts
  else Ok ().
Definition emit_checks (validate_part : Value -> snap ()) (value : Value) (path : string) (part : bool) : snap () :=
  emit ← ok_or (ds_invalid path "emit must be an object") (as_object value);
  strategy ← field emit "strategy" path;
  fields ← ok_or (ds_invalid path "unsupported emit strategy") (strategy_fields strategy part);
  _ ← ensure (forallb (fun kv => bool_decide (kv.1 ∈ fields) || bool_decide (kv.1 ∈ COMMON_FIELDS)) emit) (ds_invalid path "unsupported emit field {key:?}");
  _ ← emit_fields emit path;
  strategy_checks validate_part emit strategy path.
(** A part is no composite, so the recursion is one level deep. *)
Definition validate_part (path : string) (value : Value) : snap () := emit_checks (fun _ => Panic) value path true.
Definition validate_emit (value : Value) (path : string) (part : bool) : snap () := emit_checks (validate_part path) value path part.

(** ** Templates *)
(** One node of the stack: what it pushes, the last pushed first. *)
Definition template_node (path : string) (value : Value) : snap (list Value) :=
  match value with
  | VObject map =>
      match obj_get map "$fn" with
      | Some function =>
          _ ← ds_object value path ["$fn"; "$args"]%string;
          name ← ds_string function path;
          _ ← ensure (bool_decide (name ∈ WHITELIST)) (ds_invalid path "unsupported template $fn");
          match obj_get map "$args" with Some args => l ← ds_array args path; Ok (rev l) | None => Ok [] end
      | None =>
          match obj_get map "$match" with
          | Some matched =>
              _ ← ds_object value path ["$match"; "$cases"; "$default"]%string;
              cases ← ds_required map "$cases" path;
              cases ← ok_or (ds_invalid path "template $cases must be an object") (as_object cases);
              Ok (match obj_get map "$default" with Some d => [d] | None => [] end ++ rev cases.*2 ++ [matched])
          | None => Ok (rev (List.filter (fun kv => negb (String.eqb kv.1 "_note") && negb (String.eqb kv.1 "note")) map).*2)
          end
      end
  | VArray l => Ok (rev l)
  | VString s =>
      if String.eqb s "$source" || starts_with "$source." s
      then Err (ds_invalid path "unresolved $source template; supply a fully materialized bundle") else Ok []
  | _ => Ok []
  end.
(** [None] is a loop that has run out of fuel. *)
Fixpoint templates_loop (fuel : nat) (path : string) (pending : list Value) : option (snap ()) :=
  match pending with
  | [] => Some (Ok ())
  | value :: rest =>
      match fuel with
      | O => None
      | S fuel =>
          match template_node path value with
          | Ok pushed => templates_loop fuel path (pushed ++ rest)
          | Err e => Some (Err e)
          | Panic => Some Panic
          end
      end
  end.
Definition validate_templates (value : Value) (path : string) : option (snap ()) := templates_loop (value_size value) path [value].

(** ** Dependencies *)
Definition supported_dependency (strategy dependency : string) : bool :=
  if String.eqb dependency "multicall-recurse@^1.0" then String.eqb strategy "multicall_recurse"
  else if bool_decide (dependency ∈ ["universal-router-dispatcher@^1.0"; "universal-router-dispatcher@^2.0"; "uniswap-v4-actions-dispatcher@^1.0"]%string)
  then String.eqb strategy "opcode_stream_dispatch"
  else if String.eqb dependency "core-writer-dispatcher@^1.0" then String.eqb strategy "tagged_dispatch"
  else false.
Definition dependency_list (strategy path key : string) (v : Value) : snap () :=
  l ← ds_array v path;
  _ ← foldM (fun seen v =>
        dependency ← ds_string v path;
        if bool_decide (dependency ∈ seen) then Err (ds_invalid path "duplicate dependency declaration")
        else if String.eqb key "imperative" && negb (supported_dependency strategy dependency)
        then Err (ds_invalid path "unsupported imperative dependency for this strategy")
        else Ok (dependency :: seen)) l [];
  Ok ().
Definition validate_requires (value : Value) (strategy path : string) : snap () :=
  requires ← ds_object value path ["imperative"; "adapter_capabilities"; "host_capabilities"; "extension"]%string;
  _ ← each_key (dependency_list strategy path) requires ["imperative"; "adapter_capabilities"; "host_capabilities"]%string;
  on_member (text_value path) "extension" requires.
Definition validate_recurse (path : string) (value : Value) : snap () :=
  recurse ← ds_object value path ["strategy"; "commands_path"; "inputs_path"; "max_depth"]%string;
  strategy ← field recurse "strategy" path;
  if negb (String.eqb strategy "commands_and_inputs_paired") then Err (ds_invalid path "unsupported recurse descriptor")
  else
    _ ← field recurse "commands_path" path;
    _ ← field recurse "inputs_path" path;
    optional_integer recurse "max_depth" (2 ^ 32 - 1) path.

(** ** A manifest *)
Definition BUNDLE_FIELDS : list string :=
  ["type"; "id"; "schema_version"; "publisher"; "match"; "abi_fragment"; "emit"; "requires"; "recurse"; "note"; "_note"; "_note_addresses"; "_note_mapping"]%string.
Definition MATCH_FIELDS : list string := ["selector"; "chain_to_addresses"; "chain_ids"; "to"; "address_agnostic"; "typed_data"]%string.
Definition any_string (path key : string) (v : Value) : snap () := match v with VString _ => Ok () | _ => Err (ds_invalid path (key +:+ " must be a string")%string) end.
Definition typed_strategy (emit : Value) : bool := bool_decide (str_member emit "strategy" ∈ [Some "single_emit"; Some "array_emit"]%string).
Definition validate_bundle (value : Value) (path : string) (routes : Routes) : snap (string * Routes) :=
  bundle ← ds_object value path BUNDLE_FIELDS;
  kind ← field bundle "type" path;
  supported ← (if negb (String.eqb kind "adapter_action") then Ok false else v ← field bundle "schema_version" path; Ok (String.eqb v "3"));
  if negb supported then Err (ds_invalid path "only full resolved adapter_action V3 bundles are supported")
  else
    id ← field bundle "id" path;
    _ ← each_key (any_string path) bundle ["publisher"; "note"; "_note"; "_note_addresses"; "_note_mapping"]%string;
    matcher ← ds_required bundle "match" path;
    matcher ← ds_object matcher (path +:+ "/match")%string MATCH_FIELDS;
    selector ← field matcher "selector" path;
    if negb (is_hex selector 4) then Err (ds_invalid path "match.selector must be a four-byte hex string")
    else
      let typed := has_key matcher "typed_data" in
      routes ← validate_routes w matcher id (to_ascii_lowercase selector) path routes;
      fragment ← ds_required bundle "abi_fragment" path;
      _ ← validate_abi fragment selector typed path;
      emit ← ds_required bundle "emit" path;
      _ ← validate_emit emit (path +:+ "/emit")%string false;
      if typed && negb (typed_strategy emit) then Err (ds_invalid path "typed-data routes support only single_emit or array_emit")
      else
        _ ← default Panic (validate_templates emit path);
        _ ← on_member (fun requires => validate_requires requires (str_or emit "strategy" "") path) "requires" bundle;
        _ ← on_member (validate_recurse path) "recurse" bundle;
        Ok (id, routes).
End Manifests.

(** ** The snapshot *)
Section Prepare.
Context {J : StrictJson} {K : Crypto} {A0 : Alloy} {E0 : DecodeSerde} {Y0 : TypedSerde} {G : SnapshotTools} (w : Z).
Definition sha256 (b : bytes) : string := ("0x" +:+ hex_encode (sha256_digest b))%string.
Record Installing := mkInstalling { ig_registry : DecoderRegistry; ig_routes : Routes; ig_ids : list string; ig_digests : list string }.
Definition install_bundle (st : Installing) (ib : nat * Value) : snap Installing :=
  let '(index, bundle) := ib in
  let path := ("$/bundles/" +:+ pretty index)%string in
  ir ← validate_bundle w bundle path (ig_routes st);
  if bool_decide (ir.1 ∈ ig_ids st) then Err (ds_invalid path "duplicate bundle id")
  else
    canonical ← lift_err (fun _ => ds_invalid path "JCS serialization failed: {error}") (jcs_to_vec bundle);
    installed ← map_err (fun e => mkSnapshotError (if String.eqb (ee_kind e) "input_too_large" then SkLimitExceeded else SkInvalidDecoderSnapshot)
                                    (path +:+ ": " +:+ ee_message e)%string)
                  (install (ig_registry st) (value_to_string bundle));
    Ok (mkInstalling installed.2 ir.2 (ig_ids st ++ [ir.1]) (ig_digests st ++ [sha256 canonical])).
Definition install_all (bundles : list Value) : snap Installing :=
  foldM install_bundle (imap pair bundles) (mkInstalling empty_registry no_routes [] []).
(** The authenticated manifests with the digest and the trust. *)
Definition pinned_bundles (artifact : bytes) (expected_digest : string) (max_bytes : Z) : snap (list Value * string) :=
  _ ← validate_digest expected_digest;
  if max_bytes <? Z.of_nat (length artifact) then Err (mkSnapshotError SkLimitExceeded "decoder artifact exceeds maxDecoderBytes")
  else
    let digest := sha256 artifact in
    _ ← require_digest digest expected_digest;
    input ← map_err (fun _ => ds_invalid "$" "decoder artifact is not valid UTF-8") (utf8 artifact);
    container ← map_err (fun e => mkSnapshotError match pe_kind e with InputTooLarge | BundleFormat.DepthLimit => SkLimitExceeded | _ => SkInvalidDecoderSnapshot end
                                    (pe_path e +:+ ": " +:+ pe_message e)%string) (strict_parse input);
    container ← ds_object container "$" ["schema_version"; "bundles"]%string;
    if negb (bool_decide ((v ← obj_get container "schema_version"; as_u64 v) = Some 1)) then Err (ds_invalid "$/schema_version" "must be integer 1")
    else
      bundles ← ds_required container "bundles" "$";
      bundles ← ds_array bundles "$/bundles";
      if (length bundles =? 0)%nat then Err (ds_invalid "$/bundles" "must contain at least one full V3 bundle") else Ok (bundles, digest).
Definition signed_bundles (keys : list TrustedKey) (bundle : bytes) (signature : string) (key_id : option string) (expected_bundle_digest : string) (max_bytes : Z)
    : snap (list Value * string * string) :=
  _ ← validate_digest expected_bundle_digest;
  verified ← map_err of_signature_error (verify_decoder_bundle keys bundle signature key_id max_bytes);
  let digest := sha256 (sv_canonical_bytes verified) in
  _ ← require_digest digest expected_bundle_digest;
  Ok ([sv_bundle verified], digest, sv_signer_key_id verified).
Definition authenticate (input : DecoderInput) (keys : list TrustedKey) (max_bytes : Z) : snap (list Value * string * DecoderTrust) :=
  match input with
  | Pinned artifact expected_digest => bd ← pinned_bundles artifact expected_digest max_bytes; Ok (bd.1, bd.2, PinnedArtifact)
  | SignedBundle bundle signature key_id expected =>
      bd ← signed_bundles keys bundle signature key_id expected max_bytes; Ok (bd.1.1, bd.1.2, SignedBy bd.2)
  end.
Definition prepare_decoder (input : DecoderInput) (keys : list TrustedKey) (max_bytes : Z) : snap VerifiedDecoderSnapshot :=
  if max_bytes =? 0 then Err (mkSnapshotError SkInvalidConfig "maxDecoderBytes must be positive")
  else
    a ← authenticate input keys max_bytes;
    let '(bundles, digest, trust) := a in
    st ← install_all bundles;
    Ok (mkVerifiedDecoderSnapshot (ig_registry st) digest (ig_ids st) (ig_digests st) trust).
End Prepare.

(** ** Templates, declaratively *)
Definition closed_keys (fs : list (string * Value)) (allowed : list string) : Prop := forall k, k ∈ fs.*1 -> k ∈ allowed.
Definition names_source (s : string) : Prop := s = "$source"%string \/ starts_with "$source." s = true.
Definition is_note (k : string) : Prop := k = "_note"%string \/ k = "note"%string.
(** A template with no unresolved source in it, whose calls name built-in functions and whose
    calls and value-maps have no other field; notes are not read. *)
Inductive TemplateOk : Value -> Prop :=
| template_call fs name args : obj_get fs "$fn" = Some (VString name) -> name ∈ WHITELIST -> closed_keys fs ["$fn"; "$args"]%string ->
    obj_get fs "$args" = None /\ args = [] \/ obj_get fs "$args" = Some (VArray args) -> Forall TemplateOk args -> TemplateOk (VObject fs)
| template_match fs matched cases : obj_get fs "$fn" = None -> obj_get fs "$match" = Some matched -> closed_keys fs ["$match"; "$cases"; "$default"]%string ->
    obj_get fs "$cases" = Some (VObject cases) -> TemplateOk matched -> Forall (fun kv => TemplateOk kv.2) cases ->
    (forall d, obj_get fs "$default" = Some d -> TemplateOk d) -> TemplateOk (VObject fs)
| template_object fs : obj_get fs "$fn" = None -> obj_get fs "$match" = None -> (forall kv, kv ∈ fs -> ~ is_note kv.1 -> TemplateOk kv.2) -> TemplateOk (VObject fs)
| template_array l : Forall TemplateOk l -> TemplateOk (VArray l)
| template_text s : ~ names_source s -> TemplateOk (VString s)
| template_null : TemplateOk VNull
| template_bool b : TemplateOk (VBool b)
| template_number n : TemplateOk (VNumber n).

Lemma ds_object_spec v path allowed fs : ds_object v path allowed = Ok fs <-> v = VObject fs /\ closed_keys fs allowed.
Proof.
  unfold ds_object, closed_keys. destruct v; cbn [as_object ok_or mbind result_bind]; try (split; [done|by intros [? _]]).
  destruct (find _ _) as [kv|] eqn:Hf.
  - split; [done|]. intros [[= <-] H]. apply find_some in Hf as [Hin Hk]. apply list_elem_of_In in Hin. apply negb_true_iff, bool_decide_eq_false in Hk.
    exfalso. apply Hk, H. by apply list_elem_of_fmap_2.
  - split; [|by intros [[= <-] _]]. intros [= <-]. split; [done|]. intros k (kv & -> & Hin)%list_elem_of_fmap.
    pose proof (find_none _ _ Hf kv (proj1 (list_elem_of_In _ _) Hin)) as Hk. by apply negb_false_iff, bool_decide_eq_true in Hk.
Qed.
Lemma ds_object_total v path allowed : ds_object v path allowed <> Panic.
Proof. unfold ds_object. destruct v; cbn; try done. by destruct (find _ _). Qed.
Lemma ds_string_spec v path s : ds_string v path = Ok s <-> v = VString s /\ s <> ""%string.
Proof.
  unfold ds_string. destruct v as [| | |s'| |]; cbn; try (split; [done|by intros [? _]]). destruct (String.eqb_spec s' ""%string) as [->|Hne]; cbn.
  - split; [done|]. intros [[= <-] H]. done.
  - split; [intros [= <-]; done|]. by intros [[= <-] _].
Qed.
Lemma ds_string_total v path : ds_string v path <> Panic.
Proof. unfold ds_string. destruct v; cbn; try done. by destruct (String.eqb _ _). Qed.
Lemma whitelist_nonempty name : name ∈ WHITELIST -> name <> ""%string.
Proof. intros H ->. revert H. apply (bool_decide_unpack (""%string ∉ WHITELIST)). by vm_compute. Qed.

Lemma list_sum_rev l : list_sum (rev l) = list_sum l.
Proof. induction l as [|x l IH]; [done|]. cbn [rev]. rewrite list_sum_app, IH. simpl. lia. Qed.
Lemma sizes_snd fs : (list_sum (value_size <$> fs.*2) <= fields_size fs)%nat.
Proof. unfold fields_size. induction fs as [|[k v] fs IH]; [done|]. rewrite !fmap_cons, !sum_cons. cbn [snd]. lia. Qed.
Lemma sizes_filter (p : string * Value -> bool) fs : (list_sum (value_size <$> (List.filter p fs).*2) <= fields_size fs)%nat.
Proof. unfold fields_size. induction fs as [|kv fs IH]; [done|]. cbn [List.filter]. rewrite (fmap_cons (fun kv => S (value_size kv.2))), sum_cons. destruct (p kv); rewrite ?fmap_cons, ?sum_cons; lia. Qed.
Lemma sizes_rev l : list_sum (value_size <$> rev l) = list_sum (value_size <$> l).
Proof. change (list_sum (map value_size (rev l)) = list_sum (map value_size l)). by rewrite map_rev, list_sum_rev. Qed.
(** Members under different keys are disjoint parts of an object. *)
Definition member_size (fs : list (string * Value)) (k : string) : nat := match obj_get fs k with Some v => S (value_size v) | None => 0 end.
Lemma member_sizes fs ks : NoDup ks -> (list_sum (member_size fs <$> ks) <= fields_size fs)%nat.
Proof.
  intros Hk. induction fs as [|[k0 v0] fs IH]; [clear Hk; induction ks as [|k ks IHk]; [done|]; rewrite fmap_cons, sum_cons; exact IHk|]. rewrite fields_size_cons.
  enough (list_sum (member_size ((k0, v0) :: fs) <$> ks) <= (if bool_decide (k0 ∈ ks) then S (value_size v0) else 0) + list_sum (member_size fs <$> ks))%nat as H
    by (case_bool_decide; lia).
  clear IH. induction Hk as [|k ks Hn Hk IH]; [cbn; lia|]. rewrite !fmap_cons, !sum_cons. unfold member_size at 1 3. cbn [obj_get].
  destruct (String.eqb_spec k0 k) as [->|Hne].
  - rewrite bool_decide_false in IH by done. rewrite bool_decide_true by left. destruct (obj_get fs k); simpl in *; lia.
  - rewrite (bool_decide_ext (k0 ∈ k :: ks) (k0 ∈ ks)) by set_solver. simpl in *. lia.
Qed.
(** What a node pushes is smaller than the node. *)
Lemma template_node_size path v pushed : template_node path v = Ok pushed -> (S (list_sum (value_size <$> pushed)) <= value_size v)%nat.
Proof.
  destruct v as [| | |s|l|fs]; cbn [template_node]; try (intros [= <-]; cbn; lia).
  - destruct (_ || _); [done|]. intros [= <-]. cbn. lia.
  - intros [= <-]. rewrite sizes_rev. simpl. lia.
  - rewrite object_size. destruct (obj_get fs "$fn") as [f|].
    + intros H. apply bind_Ok_inv in H as (_ & _ & H). apply bind_Ok_inv in H as (name & _ & H). apply bind_Ok_inv in H as (_ & _ & H).
      destruct (obj_get fs "$args") as [a|] eqn:Ha; [|injection H as <-; cbn; lia]. apply bind_Ok_inv in H as (l & Hl & [= <-]). rewrite sizes_rev.
      destruct a as [| | | |l'|]; try done. injection Hl as ->. apply obj_get_size in Ha. simpl in Ha. lia.
    + destruct (obj_get fs "$match") as [m|] eqn:Hm; [|intros [= <-]; rewrite sizes_rev; pose proof (sizes_filter (fun kv => negb (String.eqb kv.1 "_note") && negb (String.eqb kv.1 "note")) fs); lia].
      intros H. apply bind_Ok_inv in H as (_ & _ & H). apply bind_Ok_inv in H as (c & Hc & H). apply bind_Ok_inv in H as (cases & Hcs & [= <-]).
      apply ok_or_inv in Hc, Hcs. destruct c as [| | | | |cfs]; try done. injection Hcs as ->.
      pose proof (member_sizes fs ["$match"; "$cases"; "$default"]%string ltac:(repeat constructor; set_solver)) as Hs. unfold member_size in Hs. rewrite !fmap_cons, !sum_cons in Hs.
      rewrite Hm, Hc in Hs. rewrite !fmap_app, !list_sum_app, sizes_rev. rewrite object_size in Hs. pose proof (sizes_snd cases).
      destruct (obj_get fs "$default"); simpl in *; lia.
Qed.
Lemma Forall_rev_equiv {A} (P : A -> Prop) l : Forall P (rev l) <-> Forall P l.
Proof. split; intros H; [rewrite <- (rev_involutive l)|]; by apply Forall_rev. Qed.
Lemma filter_In_elem {A} (p : A -> bool) l x : x ∈ List.filter p l <-> x ∈ l /\ p x = true.
Proof. rewrite !list_elem_of_In. apply filter_In. Qed.
Lemma source_text s : String.eqb s "$source" || starts_with "$source." s = true <-> names_source s.
Proof. unfold names_source. rewrite orb_true_iff, String.eqb_eq. done. Qed.
(** A node is accepted exactly when the values it pushes are. *)
Lemma call_node path fs f : obj_get fs "$fn" = Some f ->
  match template_node path (VObject fs) with Ok pushed => TemplateOk (VObject fs) <-> Forall TemplateOk pushed | Err _ => ~ TemplateOk (VObject fs) | Panic => False end.
Proof.
  intros Hf. cbn [template_node]. rewrite Hf. pose proof (ds_object_spec (VObject fs) path ["$fn"; "$args"]%string) as Ho. pose proof (ds_object_total (VObject fs) path ["$fn"; "$args"]%string).
  assert (forall fs', TemplateOk (VObject fs') -> obj_get fs' "$fn" = Some f -> exists name args, f = VString name /\ name ∈ WHITELIST /\ closed_keys fs' ["$fn"; "$args"]%string /\
    (obj_get fs' "$args" = None /\ args = [] \/ obj_get fs' "$args" = Some (VArray args)) /\ Forall TemplateOk args) as Hinv.
  { intros fs' Ht Hf'. inversion Ht; subst; simplify_eq; naive_solver. }
  destruct (ds_object _ _ _) as [fs'|e|]; [|intros Ht; destruct (Hinv _ Ht Hf) as (? & ? & _ & _ & Hc & _); by assert (Err e = Ok fs) by by apply Ho|done].
  destruct (proj1 (Ho fs') eq_refl) as [[= <-] Hc]. cbn [mbind result_bind]. pose proof (ds_string_spec f path) as Hs. pose proof (ds_string_total f path).
  destruct (ds_string f path) as [name|e|]; [|intros Ht; destruct (Hinv _ Ht Hf) as (n & ? & -> & Hn & _);
    assert (Err e = Ok n) by (apply Hs; split; [done|by apply whitelist_nonempty]); done|done].
  destruct (proj1 (Hs name) eq_refl) as [-> _]. cbn [mbind result_bind]. unfold ensure. case_bool_decide as Hw; cbn [mbind result_bind];
    [|intros Ht; destruct (Hinv _ Ht Hf) as (n & ? & [= <-] & Hn & _); done].
  destruct (obj_get fs "$args") as [a|] eqn:Ha.
  - destruct a as [| | | |l|]; unfold ds_array; cbn [as_array ok_or mbind result_bind]; try (intros Ht; destruct (Hinv _ Ht Hf) as (? & ? & _ & _ & _ & [[? _]|?] & _); congruence).
    rewrite Forall_rev_equiv. split; [intros Ht; destruct (Hinv _ Ht Hf) as (n & args & _ & _ & _ & [[? _]|?] & HF); simplify_eq; done|].
    intros HF. by eapply (template_call fs name l); [..|right|].
  - split; [constructor|]. intros _. eapply (template_call fs name []); [done..|by left|constructor].
Qed.
Lemma match_node path fs m : obj_get fs "$fn" = None -> obj_get fs "$match" = Some m ->
  match template_node path (VObject fs) with Ok pushed => TemplateOk (VObject fs) <-> Forall TemplateOk pushed | Err _ => ~ TemplateOk (VObject fs) | Panic => False end.
Proof.
  intros Hf Hm. cbn [template_node]. rewrite Hf, Hm. pose proof (ds_object_spec (VObject fs) path ["$match"; "$cases"; "$default"]%string) as Ho.
  pose proof (ds_object_total (VObject fs) path ["$match"; "$cases"; "$default"]%string).
  assert (TemplateOk (VObject fs) -> exists cases, closed_keys fs ["$match"; "$cases"; "$default"]%string /\ obj_get fs "$cases" = Some (VObject cases) /\ TemplateOk m /\
    Forall (fun kv => TemplateOk kv.2) cases /\ (forall d, obj_get fs "$default" = Some d -> TemplateOk d)) as Hinv.
  { intros Ht. inversion Ht; subst; simplify_eq; naive_solver. }
  destruct (ds_object _ _ _) as [fs'|e|]; [|intros (? & Hc & _)%Hinv; by assert (Err e = Ok fs) by by apply Ho|done].
  destruct (proj1 (Ho fs') eq_refl) as [[= <-] Hc]. cbn [mbind result_bind]. unfold ds_required.
  destruct (obj_get fs "$cases") as [c|] eqn:Hcs; cbn [ok_or mbind result_bind]; [|intros (? & _ & ? & _)%Hinv; congruence].
  destruct c as [| | | | |cases]; cbn [as_object ok_or mbind result_bind]; try (intros (? & _ & ? & _)%Hinv; congruence).
  rewrite !Forall_app, Forall_rev_equiv, Forall_fmap, Forall_singleton. split.
  - intros (cs & _ & [= <-] & H1 & H2 & H3)%Hinv. split_and!; try done. destruct (obj_get fs "$default") as [d|]; [|constructor]. by apply Forall_singleton, H3.
  - intros (H3 & H2 & H1). eapply template_match; try done. intros d Hd. rewrite Hd in H3. by inversion H3.
Qed.
Lemma template_node_ok path v :
  match template_node path v with Ok pushed => TemplateOk v <-> Forall TemplateOk pushed | Err _ => ~ TemplateOk v | Panic => False end.
Proof.
  destruct v as [|b|n|s|l|fs]; try (cbn [template_node]; split; constructor).
  - cbn [template_node]. pose proof (source_text s) as Hs. destruct (_ || _).
    + intros Ht. inversion Ht; subst. by apply H0, Hs.
    + split; [constructor|]. intros _. constructor. intros H. by apply Hs in H.
  - cbn [template_node]. rewrite Forall_rev_equiv. split; [by inversion 1|by constructor].
  - destruct (obj_get fs "$fn") as [f|] eqn:Hf; [by eapply call_node|]. destruct (obj_get fs "$match") as [m|] eqn:Hm; [by eapply match_node|].
    cbn [template_node]. rewrite Hf, Hm, Forall_rev_equiv, Forall_fmap, Forall_forall. unfold compose. split.
    + intros Ht kv [Hin Hk]%filter_In_elem. apply andb_true_iff in Hk as [H1%negb_true_iff%String.eqb_neq H2%negb_true_iff%String.eqb_neq].
      inversion Ht; subst; simplify_eq. unfold is_note in *. naive_solver.
    + intros HF. apply template_object; [done..|]. intros kv Hin Hk. apply HF, filter_In_elem. split; [done|]. unfold is_note in Hk.
      by rewrite (proj2 (String.eqb_neq kv.1 "_note")), (proj2 (String.eqb_neq kv.1 "note")) by tauto.
Qed.
Lemma templates_loop_exact fuel path : forall pending, (list_sum (value_size <$> pending) <= fuel)%nat ->
  exists r, templates_loop fuel path pending = Some r /\ r <> Panic /\ (r = Ok () <-> Forall TemplateOk pending).
Proof.
  induction fuel as [|fuel IH]; intros [|v rest] Hs.
  - by exists (Ok ()).
  - rewrite fmap_cons, sum_cons in Hs. pose proof (value_size_pos v). lia.
  - by exists (Ok ()).
  - cbn [templates_loop]. pose proof (template_node_ok path v) as Hn. pose proof (template_node_size path v) as Hl. rewrite fmap_cons, sum_cons in Hs.
    destruct (template_node path v) as [pushed|e|]; [|exists (Err e); split_and!; try done; rewrite Forall_cons; naive_solver|done].
    destruct (IH (pushed ++ rest)) as (r & Hr & Hp & Hok); [rewrite fmap_app, list_sum_app; specialize (Hl _ eq_refl); lia|].
    exists r. split_and!; try done. by rewrite Hok, Forall_app, Forall_cons, Hn.
Qed.

(** The check of a manifest's templates always ends, never panics, and accepts exactly the
    templates in which nothing is unresolved and every call is to a built-in function. *)
Theorem templates_exact emit path :
  exists r, validate_templates emit path = Some r /\ r <> Panic /\ (r = Ok () <-> TemplateOk emit).
Proof.
  unfold validate_templates. destruct (templates_loop_exact (value_size emit) path [emit]) as (r & Hr & Hp & Hok); [rewrite fmap_cons, sum_cons; cbn; lia|].
  exists r. by rewrite Hok, Forall_singleton.
Qed.

(** ** Routes, as the registry reads them *)
(** The fields of [BundleMatch] in a matcher: named members with their defaults. *)
Definition read_list {A} (read : Value -> option A) (fs : list (string * Value)) (k : string) : option (list A) :=
  match obj_get fs k with None => Some [] | Some v => l ← as_array v; mapM read l end.
Definition read_chain (kv : string * Value) : option (Z * list string) :=
  n ← parse_u64 kv.1;
  l ← (l ← as_array kv.2; mapM as_str l);
  if String.eqb (pretty n) kv.1 then Some (n, l) else None.
Fixpoint read_chains (acc : list (Z * list string)) (fs : list (string * Value)) : option (list (Z * list string)) :=
  match fs with [] => Some acc | kv :: rest => nl ← read_chain kv; read_chains (chain_insert acc nl.1 nl.2) rest end.
Definition read_match (fs : list (string * Value)) : option BundleMatch :=
  selector ← (v ← obj_get fs "selector"; as_str v);
  chain_to_addresses ← match obj_get fs "chain_to_addresses" with None => Some [] | Some v => o ← as_object v; read_chains [] o end;
  chain_ids ← read_list as_u64 fs "chain_ids";
  to ← read_list as_str fs "to";
  agnostic ← match obj_get fs "address_agnostic" with None => Some false | Some (VBool b) => Some b | _ => None end;
  Some (mkBundleMatch chain_to_addresses chain_ids to agnostic selector).
(** What the registry relies on of the derived deserializer. *)
Class MatchSerde (E0 : DecodeSerde) : Prop := {
  match_of_fields fs m : read_match fs = Some m -> match_from_value (VObject fs) = inr m;
}.
Definition call_key (m : BundleMatch) (k : Z * string * string) : Prop :=
  exists e, e ∈ match_entries m /\ k = (e.1, to_ascii_lowercase e.2, to_ascii_lowercase (bm_selector m)).
Definition typed_key (rt : option (string * string * option string)) (m : BundleMatch) (k : Z * string * string * option string) : Prop :=
  exists vc pt wt e, rt = Some (vc, pt, wt) /\ e ∈ match_entries m /\ k = (e.1, vc, pt, wt).
Definition any_key (m : BundleMatch) (k : Z * string) : Prop :=
  bm_address_agnostic m = true /\ exists c, c ∈ bm_chain_ids m /\ k = (c, to_ascii_lowercase (bm_selector m)).

(** *** Lists of chains and addresses *)
Lemma distinct_spec {A} `{EqDecision A} (read : Value -> snap A) dup l : forall seen out, NoDup seen ->
  foldM (fun seen v => x ← read v; if bool_decide (x ∈ seen) then Err dup else Ok (seen ++ [x])) l seen = Ok out ->
  exists xs, out = seen ++ xs /\ Forall2 (fun v x => read v = Ok x) l xs /\ NoDup out.
Proof.
  induction l as [|v l IH]; intros seen out Hs H; cbn [foldM] in H.
  - injection H as <-. exists []. rewrite app_nil_r. done.
  - apply bind_Ok_inv in H as (seen' & H' & H). apply bind_Ok_inv in H' as (x & Hx & H'). case_bool_decide as Hn; [done|]. injection H' as <-.
    apply IH in H as (xs & -> & HF & Hd); [|apply NoDup_app; split_and!; [done| |apply NoDup_singleton]; set_solver].
    exists (x :: xs). rewrite <- app_assoc in *. split_and!; [done|by constructor|done].
Qed.
Lemma chain_ids_spec v path cs : chain_ids v path = Ok cs -> exists l, v = VArray l /\ mapM as_u64 l = Some cs /\ length cs = length l.
Proof.
  unfold chain_ids, ds_array. intros H. apply bind_Ok_inv in H as (l & Hl & H). destruct v as [| | | |l'|]; try done. injection Hl as ->. destruct (_ =? _)%nat; [done|].
  apply distinct_spec in H as (xs & -> & HF & _); [|constructor]. exists l. split; [done|]. cbn [app]. split; [|by symmetry; eapply Forall2_length].
  apply mapM_Some_2. eapply Forall2_impl; [exact HF|]. unfold chain_id_of. intros v x Hx. apply ok_or_inv in Hx. destruct (as_u64 v) as [n|]; [|done]. cbn in Hx.
  by destruct (_ && _); [injection Hx as ->|].
Qed.
Lemma address_list_spec v path out : address_list v path = Ok out ->
  exists l raw, v = VArray l /\ mapM as_str l = Some raw /\ out = to_ascii_lowercase <$> raw /\ length out = length l /\ out <> [].
Proof.
  unfold address_list, ds_array. intros H. apply bind_Ok_inv in H as (l & Hl & H). destruct v as [| | | |l'|]; try done. injection Hl as ->.
  destruct (length l =? 0)%nat eqn:Hz; [done|]. apply Nat.eqb_neq in Hz. apply distinct_spec in H as (xs & -> & HF & _); [|constructor]. cbn [app].
  pose proof (Forall2_length _ _ _ HF) as Hlen. assert (exists raw, Forall2 (fun v s => as_str v = Some s) l raw /\ xs = to_ascii_lowercase <$> raw) as (raw & Hr & ->).
  { clear Hz Hlen. induction HF as [|v x l xs Hx HF (raw & Hr & ->)]; [by exists []|]. unfold address_of in Hx. apply bind_Ok_inv in Hx as (a & [-> _]%ds_string_spec & Hx).
    destruct (is_hex a 20); [|done]. injection Hx as <-. exists (a :: raw). split; [by constructor|done]. }
  exists l, raw. split_and!; [done|by apply mapM_Some_2|done|done|]. intros He. rewrite He in Hlen. cbn in Hlen. lia.
Qed.
Definition lower_chain (ca : Z * list string) : Z * list string := (ca.1, to_ascii_lowercase <$> ca.2).
Lemma chain_insert_fmap l k v : lower_chain <$> chain_insert l k v = chain_insert (lower_chain <$> l) k (to_ascii_lowercase <$> v).
Proof. induction l as [|[k' v'] l IH]; [done|]. cbn. destruct (k <? k'); [done|]. destruct (k =? k'); [done|]. by rewrite fmap_cons, IH. Qed.
Lemma flat_cons ca l : flat_entries (ca :: l) = ((fun a => (ca.1, a)) <$> ca.2) ++ flat_entries l.
Proof. done. Qed.
Lemma flat_insert_length l k v : (length (flat_entries (chain_insert l k v)) <= length (flat_entries l) + length v)%nat.
Proof.
  induction l as [|[k' v'] l IH]; [cbn [chain_insert]; rewrite flat_cons, length_app, length_fmap; cbn; lia|]. cbn [chain_insert].
  destruct (k <? k'); [|destruct (k =? k')]; rewrite !flat_cons, !length_app, !length_fmap; cbn [fst snd]; lia.
Qed.
Lemma flat_elem l c a : (c, a) ∈ flat_entries l <-> exists addrs, (c, addrs) ∈ l /\ a ∈ addrs.
Proof.
  unfold flat_entries. rewrite list_elem_of_bind. split.
  - intros ([c' addrs] & (a' & [= -> ->] & Ha)%list_elem_of_fmap & Hin). eauto.
  - intros (addrs & Hin & Ha). exists (c, addrs). split; [|done]. apply list_elem_of_fmap. eauto.
Qed.
Lemma chain_insert_nonempty l k v : chain_insert l k v <> [].
Proof. destruct l as [|[k' v'] l]; [done|]. cbn. destruct (k <? k'); [done|]. by destruct (k =? k'). Qed.
Lemma chain_insert_elem l k v e : e ∈ chain_insert l k v -> e = (k, v) \/ e ∈ l.
Proof.
  induction l as [|[k' v'] l IH]; cbn; [set_solver|]. destruct (k <? k'); [set_solver|]. destruct (k =? k'); [set_solver|]. intros [->|H%IH]%elem_of_cons; set_solver.
Qed.
(** *** The addresses of a matcher *)
Definition addressed (l : list (Z * list string)) : Prop := Forall (fun e => e.2 <> []) l.
Lemma chain_insert_addressed l k v : addressed l -> v <> [] -> addressed (chain_insert l k v).
Proof. unfold addressed. rewrite !Forall_forall. intros H Hv e [->|He]%chain_insert_elem; [done|by apply H]. Qed.
Lemma map_entries_spec map path : forall acc entries,
  foldM (fun entries kv => n ← chain_key path kv.1; l ← address_list kv.2 path; Ok (chain_insert entries n l)) map (lower_chain <$> acc) = Ok entries ->
  addressed (lower_chain <$> acc) -> exists raw, read_chains acc map = Some raw /\ entries = lower_chain <$> raw /\ addressed entries /\ (map <> [] \/ acc <> [] -> raw <> []).
Proof.
  induction map as [|kv map IH]; intros acc entries H Ha; cbn [foldM] in H.
  - injection H as <-. exists acc. split_and!; try done. by intros [?|?].
  - apply bind_Ok_inv in H as (st & Hst & H). apply bind_Ok_inv in Hst as (n & Hn & Hst). apply bind_Ok_inv in Hst as (l & Hl & [= <-]).
    apply address_list_spec in Hl as (l' & raw & Hv & Hr & -> & _ & Hne). unfold chain_key in Hn. apply ok_or_inv in Hn.
    destruct (parse_u64 kv.1) as [n'|] eqn:Hp; [|done]. cbn in Hn. destruct (_ && _) eqn:Hc; [|done]. injection Hn as ->. apply andb_true_iff in Hc as [_ Hc].
    rewrite <- chain_insert_fmap in H. apply IH in H as (out & Ho & -> & Hout & Hx); [|rewrite chain_insert_fmap; by apply chain_insert_addressed].
    exists out. split_and!; try done; [|intros _; apply Hx; right; apply chain_insert_nonempty]. cbn [read_chains]. unfold read_chain. rewrite Hp, Hv. cbn [mbind option_bind as_array].
    by rewrite Hr, Hc.
Qed.
Section RouteLaws.
Context (w : Z).
Lemma checked_usize_inv z n : checked_usize w z = Some n -> n = z.
Proof. unfold checked_usize. destruct (z <? 2 ^ w); [|done]. by intros [= ->]. Qed.
Lemma map_count map path : forall acc entries total n,
  foldM (fun entries kv => n ← chain_key path kv.1; l ← address_list kv.2 path; Ok (chain_insert entries n l)) map acc = Ok entries ->
  foldM (fun total kv => l ← ds_array kv.2 path; ok_or (routing_limit path) (checked_usize w (total + Z.of_nat (length l)))) map total = Ok n ->
  Z.of_nat (length (flat_entries acc)) <= total -> Z.of_nat (length (flat_entries entries)) <= n.
Proof.
  induction map as [|kv map IH]; intros acc entries total n H1 H2 Hl; cbn [foldM] in H1, H2; [by simplify_eq|].
  apply bind_Ok_inv in H1 as (st & Hst & H1). apply bind_Ok_inv in Hst as (c & _ & Hst). apply bind_Ok_inv in Hst as (addrs & Ha & [= <-]).
  apply address_list_spec in Ha as (l & raw & Hv & _ & _ & Hlen & _). apply bind_Ok_inv in H2 as (t & Ht & H2). rewrite Hv in Ht. cbn in Ht. apply ok_or_inv, checked_usize_inv in Ht as ->.
  eapply IH; [exact H1|exact H2|]. pose proof (flat_insert_length acc c addrs). lia.
Qed.
Lemma product_entries chains addresses : forall acc,
  (forall c a, (c, a) ∈ flat_entries (fold_left (fun entries chain => chain_insert entries chain addresses) chains acc) ->
     (c ∈ chains /\ a ∈ addresses) \/ (c, a) ∈ flat_entries acc) /\
  (length (flat_entries (fold_left (fun entries chain => chain_insert entries chain addresses) chains acc)) <= length (flat_entries acc) + length chains * length addresses)%nat /\
  (addresses <> [] -> addressed acc -> addressed (fold_left (fun entries chain => chain_insert entries chain addresses) chains acc)).
Proof.
  induction chains as [|c chains IH]; intros acc; [cbn [fold_left length]; split_and!; [by right|lia|done]|]. cbn [fold_left]. destruct (IH (chain_insert acc c addresses)) as (H1 & H2 & H3). split_and!.
  - intros c' a [[? ?]|Hin]%H1; [left; split; [by right|done]|]. apply flat_elem in Hin as (addrs & [[= -> ->]|He]%chain_insert_elem & Ha); [left; by split; [left|]|].
    right. apply flat_elem. eauto.
  - pose proof (flat_insert_length acc c addresses) as Hl. cbn [length]. rewrite Nat.mul_succ_l. etrans; [exact H2|]. lia.
  - intros Hne Ha. apply H3; [done|]. by apply chain_insert_addressed.
Qed.
Lemma chain_insert_same l k v : (k, v) ∈ chain_insert l k v.
Proof. induction l as [|[k' v'] l IH]; cbn; [left|]. destruct (k <? k'); [left|]. destruct (k =? k'); [left|]. by right. Qed.
Lemma chain_insert_keep l k k' v v' : (k, v) ∈ l -> k' <> k -> (k, v) ∈ chain_insert l k' v'.
Proof.
  induction l as [|[k0 v0] l IH]; cbn; [set_solver|]. intros Hin Hne. destruct (k' <? k0); [by right|]. destruct (Z.eqb_spec k' k0) as [->|].
  - apply elem_of_cons in Hin as [[= -> ->]|Hin]; [done|by right].
  - apply elem_of_cons in Hin as [[= -> ->]|Hin]; [left|right; by apply IH].
Qed.
Lemma product_all chains addresses c a : forall acc, a ∈ addresses -> c ∈ chains \/ (c, addresses) ∈ acc ->
  (c, a) ∈ flat_entries (fold_left (fun entries chain => chain_insert entries chain addresses) chains acc).
Proof.
  induction chains as [|c' chains IH]; intros acc Ha Hc; [destruct Hc as [?%elem_of_nil|?]; [done|]; apply flat_elem; eauto|]. cbn [fold_left]. apply IH; [done|].
  destruct (decide (c' = c)) as [->|Hne]; [right; apply chain_insert_same|]. destruct Hc as [[?|?]%elem_of_cons|?]; [done|by left|]. right. by apply chain_insert_keep.
Qed.
Lemma read_addresses l raw fs : obj_get fs "to" = Some (VArray l) -> mapM as_str l = Some raw -> read_list as_str fs "to" = Some raw.
Proof. unfold read_list. by intros -> Hr. Qed.
(** What [exact_entries] reads is what the registry reads. *)
Lemma exact_entries_spec fs sb path r entries r' : exact_entries w fs sb path r = Ok (entries, r') -> exists cta ids tos n,
  match obj_get fs "chain_to_addresses" with None => Some [] | Some v => o ← as_object v; read_chains [] o end = Some cta /\
  read_list as_u64 fs "chain_ids" = Some ids /\ read_list as_str fs "to" = Some tos /\
  (forall ag sel c a, (c, a) ∈ flat_entries entries <-> exists a0, (c, a0) ∈ match_entries (mkBundleMatch cta ids tos ag sel) /\ a = to_ascii_lowercase a0) /\
  addressed entries /\ Z.of_nat (length (flat_entries entries)) <= n /\ reserve w r n (has_key fs "typed_data") sb path = Ok r'.
Proof.
  unfold exact_entries. destruct (obj_get fs "chain_to_addresses") as [v|] eqn:Hv.
  - destruct (has_key fs "chain_ids") eqn:H1; [done|]. destruct (has_key fs "to") eqn:H2; [done|]. apply has_key_spec in H1, H2. cbn [orb]. intros H.
    apply bind_Ok_inv in H as (map & Hm & H). apply bind_Ok_inv in H as (n & Hn & H). apply bind_Ok_inv in H as (r1 & Hr & H). apply bind_Ok_inv in H as (es & He & [= <- <-]).
    apply ok_or_inv in Hm. destruct v as [| | | | |o]; try done. cbn in Hm. destruct (length o =? 0)%nat eqn:Hz; [done|]. injection Hm as ->.
    pose proof (map_count _ _ [] es 0 n He Hn ltac:(cbn; lia)) as Hlen. apply (map_entries_spec map path []) in He as (raw & Hraw & -> & Ha & Hne); [|constructor].
    assert (raw <> []) as Hraw' by (apply Hne; left; by intros ->). exists raw, [], [], n. unfold read_list. rewrite H1, H2. split_and!; try done.
    intros ag sel c a. unfold match_entries. cbn [bm_chain_to_addresses]. destruct raw as [|e raw]; [done|]. change (_ ← e :: raw; _) with (flat_entries (e :: raw)). rewrite flat_elem. split.
    + intros (addrs & ([c' l] & [= -> ->] & Hin)%list_elem_of_fmap & (a0 & -> & Ha0)%list_elem_of_fmap). exists a0. split; [|done]. apply flat_elem. eauto.
    + intros (a0 & (l & Hin & Ha0)%flat_elem & ->). exists (to_ascii_lowercase <$> l). split; [|by apply list_elem_of_fmap_2]. by apply (list_elem_of_fmap_2 lower_chain _ (c, l)).
  - intros H. apply bind_Ok_inv in H as (chains & Hc & H). apply bind_Ok_inv in H as (addresses & Ha & H). apply bind_Ok_inv in H as (lc & Hlc & H). apply bind_Ok_inv in H as (la & Hla & H).
    apply bind_Ok_inv in H as (n & Hn & H). apply bind_Ok_inv in H as (r1 & Hr & H). apply bind_Ok_inv in H as (cs & Hcs & H). apply bind_Ok_inv in H as (addrs & Had & [= <- <-]).
    apply ok_or_inv in Hc, Ha, Hn. apply checked_usize_inv in Hn as ->. apply chain_ids_spec in Hcs as (l1 & -> & Hm1 & Hl1). apply address_list_spec in Had as (l2 & raw & -> & Hm2 & -> & Hl2 & Hne).
    injection Hlc as ->. injection Hla as ->. exists [], cs, raw, (Z.of_nat (length lc) * Z.of_nat (length la)). unfold read_list at 1. rewrite Hc.
    destruct (product_entries cs (to_ascii_lowercase <$> raw) []) as (P1 & P2 & P3). split_and!; try done; [by eapply read_addresses| |by apply P3; [|constructor]|rewrite Hl1, Hl2 in P2; cbn in P2; lia].
    intros ag sel c a. unfold match_entries. cbn [bm_chain_to_addresses bm_chain_ids bm_to]. split.
    + intros [[Hin (a0 & -> & Ha0)%list_elem_of_fmap]|Hin]%P1; [|by apply elem_of_nil in Hin]. exists a0. split; [|done]. apply list_elem_of_bind. exists c. split; [|done]. apply list_elem_of_fmap. eauto.
    + intros (a0 & (c' & (a1 & [= -> ->] & Ha1)%list_elem_of_fmap & Hc')%list_elem_of_bind & ->). apply product_all; [by apply list_elem_of_fmap_2|by left].
Qed.

(** *** Claims *)
Definition route_count (r : Routes) : Z := Z.of_nat (size (rs_exact r)) + Z.of_nat (size (rs_typed r)) + Z.of_nat (size (rs_agnostic r)).
Lemma claims_all {A K} `{Countable K} (claim : Routes -> A -> snap Routes) (get : Routes -> gset K) (key : A -> K) l :
  (forall r a r', claim r a = Ok r' -> key a ∉ get r /\ get r' = {[key a]} ∪ get r) -> forall r r', foldM claim l r = Ok r' ->
  (forall k, k ∈ get r' <-> (exists e, e ∈ l /\ k = key e) \/ k ∈ get r) /\ (forall e, e ∈ l -> key e ∉ get r) /\ (size (get r') = length l + size (get r))%nat.
Proof.
  intros Hclaim. induction l as [|e l IH]; intros r r' H0; cbn [foldM] in H0; [injection H0 as <-; split_and!; try done; set_solver|].
  apply bind_Ok_inv in H0 as (r1 & Hc & H0). apply Hclaim in Hc as [Hk Hg]. apply IH in H0 as (H1 & H2 & Hs). rewrite Hg in *.
  split_and!; [|intros e' [->|Hin]%elem_of_cons; [done|]; specialize (H2 _ Hin); set_solver|rewrite Hs, size_union by set_solver; rewrite size_singleton; cbn; lia].
  intros k. rewrite H1, elem_of_union, elem_of_singleton. split; [|set_solver]. intros [(e' & He & ->)|[->|?]]; [|left; exists e; split; [left|done]|by right]. left. exists e'. split; [by right|done].
Qed.
Lemma claims_frame {A B} (claim : Routes -> A -> snap Routes) (get : Routes -> B) l : (forall r a r', claim r a = Ok r' -> get r' = get r) ->
  forall r r', foldM claim l r = Ok r' -> get r' = get r.
Proof.
  intros Hc. induction l as [|e l IH]; intros r r' H; cbn [foldM] in H; [by injection H as <-|]. apply bind_Ok_inv in H as (r1 & H1 & H). by rewrite (IH _ _ H), (Hc _ _ _ H1).
Qed.
Lemma reserve_inv r n typed sb path r' : reserve w r n typed sb path = Ok r' ->
  rs_exact r' = rs_exact r /\ rs_typed r' = rs_typed r /\ rs_agnostic r' = rs_agnostic r /\
  rs_entries r' = rs_entries r + n * (if typed then 2 else 1) /\ rs_entries r' <= MAX_ROUTING_ENTRIES.
Proof.
  unfold reserve. intros H. apply bind_Ok_inv in H as (a & Ha & H). apply bind_Ok_inv in H as (b & _ & [= <-]). apply ok_or_inv in Ha.
  destruct (checked_usize w (n * _)) as [x|] eqn:Hx; [|done]. cbn [mbind option_bind] in Ha. apply checked_usize_inv in Hx as ->.
  destruct (checked_usize w (rs_entries r + _)) as [y|] eqn:Hy; [|done]. cbn [mbind option_bind] in Ha. apply checked_usize_inv in Hy as ->.
  destruct (Z.leb_spec (rs_entries r + n * (if typed then 2 else 1)) MAX_ROUTING_ENTRIES); [|done]. injection Ha as <-. done.
Qed.
(** The routes a matcher takes are new, and they are within what was reserved for it. *)
Record claims_of (m : BundleMatch) (rt : option (string * string * option string)) (r r' : Routes) : Prop := {
  cl_exact k : k ∈ rs_exact r' <-> call_key m k \/ k ∈ rs_exact r;
  cl_exact_new k : call_key m k -> k ∉ rs_exact r;
  cl_typed k : k ∈ rs_typed r' <-> typed_key rt m k \/ k ∈ rs_typed r;
  cl_typed_new k : typed_key rt m k -> k ∉ rs_typed r;
  cl_any k : k ∈ rs_agnostic r' <-> any_key m k \/ k ∈ rs_agnostic r;
  cl_any_new k : any_key m k -> k ∉ rs_agnostic r;
  cl_count : route_count r' - route_count r <= rs_entries r' - rs_entries r;
  cl_limit : rs_entries r' <= MAX_ROUTING_ENTRIES }.
Lemma field_inv fs k path s : field fs k path = Ok s -> obj_get fs k = Some (VString s) /\ s <> ""%string.
Proof. unfold field. intros H. apply bind_Ok_inv in H as (v & Hv & [-> Hs]%ds_string_spec). by apply ok_or_inv in Hv. Qed.
Lemma typed_route_inv fs entries v path r r' : obj_get fs "typed_data" = Some v -> validate_typed_route entries v path r = Ok r' ->
  exists vc pt wt, typed_data_route (VObject fs) = Some (vc, pt, wt) /\ foldM (claim_typed path vc pt wt) entries r = Ok r'.
Proof.
  intros Hv. unfold validate_typed_route. intros H. apply bind_Ok_inv in H as (td & [-> _]%ds_object_spec & H). apply bind_Ok_inv in H as (vc & [Hvc _]%field_inv & H).
  cbn zeta in H. destruct (negb _); [done|]. apply bind_Ok_inv in H as (pt & [Hpt _]%field_inv & H). apply bind_Ok_inv in H as (wt & Hwt & H). destruct (_ && _); [done|].
  apply bind_Ok_inv in H as (_ & _ & H). apply bind_Ok_inv in H as (types & _ & H). apply bind_Ok_inv in H as (tfs & _ & H). destruct (negb _); [done|]. apply bind_Ok_inv in H as (_ & _ & H).
  exists (to_ascii_lowercase vc), pt, wt. split; [|done]. unfold typed_data_route. cbn [value_get]. rewrite Hv. cbn [mbind option_bind as_object]. rewrite Hvc, Hpt. cbn [mbind option_bind as_str].
  unfold witness_of in Hwt. destruct (obj_get td "witness_type") as [x|]; [|by injection Hwt as <-]. apply bind_Ok_inv in Hwt as (s & [-> _]%ds_string_spec & [= <-]). done.
Qed.
(** The keys the lowercased addresses give are the keys of the registry. *)
Lemma call_keys m entries : (forall c a, (c, a) ∈ flat_entries entries <-> exists a0, (c, a0) ∈ match_entries m /\ a = to_ascii_lowercase a0) ->
  forall k, (exists e, e ∈ flat_entries entries /\ k = (e.1, e.2, to_ascii_lowercase (bm_selector m))) <-> call_key m k.
Proof.
  intros Hflat k. unfold call_key. split; [intros ([c a] & (a0 & Hin & ->)%Hflat & ->); by exists (c, a0)|]. intros ([c a0] & Hin & ->).
  exists (c, to_ascii_lowercase a0). split; [apply Hflat; eauto|done].
Qed.
Lemma typed_keys m entries vc pt wt : (forall c a, (c, a) ∈ flat_entries entries <-> exists a0, (c, a0) ∈ match_entries m /\ a = to_ascii_lowercase a0) -> addressed entries ->
  forall k, (exists e, e ∈ entries /\ k = (e.1, vc, pt, wt)) <-> typed_key (Some (vc, pt, wt)) m k.
Proof.
  intros Hflat Ha k. unfold typed_key. split.
  - intros ([c l] & Hin & ->). unfold addressed in Ha. rewrite Forall_forall in Ha. specialize (Ha _ Hin). destruct l as [|a l]; [done|].
    destruct (proj1 (Hflat c a)) as (a0 & Hin0 & _); [apply flat_elem; exists (a :: l); split; [done|left]|]. exists vc, pt, wt, (c, a0). done.
  - intros (? & ? & ? & [c a0] & [= <- <- <-] & Hin & ->). destruct (proj1 (flat_elem entries c (to_ascii_lowercase a0))) as (l & Hl & _); [apply Hflat; eauto|]. by exists (c, l).
Qed.
Lemma addressed_length entries : addressed entries -> (length entries <= length (flat_entries entries))%nat.
Proof. induction 1 as [|e l He Ha IH]; [done|]. rewrite flat_cons, length_app, length_fmap. destruct (e.2); [done|]. cbn. lia. Qed.
Lemma exact_routes fs id sel path r r' : obj_get fs "selector" = Some (VString sel) -> (obj_get fs "address_agnostic" = None \/ obj_get fs "address_agnostic" = Some (VBool false)) ->
  (string_bytes ← routing_string_bytes w fs id (to_ascii_lowercase sel) false path;
   er ← exact_entries w fs string_bytes path r;
   r ← foldM (claim_exact path (to_ascii_lowercase sel)) (flat_entries er.1) er.2;
   match obj_get fs "typed_data" with Some value => validate_typed_route er.1 value path r | None => Ok r end) = Ok r' ->
  exists m, read_match fs = Some m /\ claims_of m (typed_data_route (VObject fs)) r r'.
Proof.
  intros Hsel Hag H. apply bind_Ok_inv in H as (sb & _ & H). apply bind_Ok_inv in H as ([entries r1] & He & H). apply bind_Ok_inv in H as (r2 & Hc & H). cbn [fst snd] in *.
  apply exact_entries_spec in He as (cta & ids & tos & n & H1 & H2 & H3 & Hflat & Ha & Hlen & Hres). apply reserve_inv in Hres as (E1 & E2 & E3 & E4 & E5).
  exists (mkBundleMatch cta ids tos false sel). split; [unfold read_match; rewrite Hsel; cbn [mbind option_bind as_str]; rewrite H1; cbn [mbind option_bind]; rewrite H2; cbn [mbind option_bind];
    rewrite H3; cbn [mbind option_bind]; by destruct Hag as [-> | ->]|]. specialize (Hflat false sel). set (m := mkBundleMatch cta ids tos false sel) in *.
  assert (rs_typed r2 = rs_typed r1 /\ rs_agnostic r2 = rs_agnostic r1 /\ rs_entries r2 = rs_entries r1) as (F1 & F2 & F3).
  { split_and!; eapply (claims_frame _ _ _); [|exact Hc| |exact Hc| |exact Hc]; unfold claim_exact; intros r0 a r0'; case_bool_decide; [done| |done| |done|]; by intros [= <-]. }
  apply (claims_all _ rs_exact (fun e => (e.1, e.2, to_ascii_lowercase sel))) in Hc as (C1 & C2 & C3); [|unfold claim_exact; intros r0 a r0'; case_bool_decide; [done|]; by intros [= <-]].
  rewrite E1 in *. pose proof (call_keys m entries Hflat) as Hkey. change (bm_selector m) with sel in Hkey.
  assert (forall k, ~ any_key m k) as Hany by by intros k [? _].
  destruct (obj_get fs "typed_data") as [v|] eqn:Htd.
  - assert (has_key fs "typed_data" = true) as Hk by (unfold has_key; rewrite Htd; by apply bool_decide_eq_true). rewrite Hk in *.
    destruct (typed_route_inv _ _ _ _ _ _ Htd H) as (vc & pt & wt & Hrt & Hct). rewrite Hrt.
    assert (rs_exact r' = rs_exact r2 /\ rs_agnostic r' = rs_agnostic r2 /\ rs_entries r' = rs_entries r2) as (G1 & G2 & G3).
    { split_and!; eapply (claims_frame _ _ _); [|exact Hct| |exact Hct| |exact Hct]; unfold claim_typed; intros r0 a r0'; (destruct (negb _); [done|]); case_bool_decide; [done| |done| |done|]; by intros [= <-]. }
    apply (claims_all _ rs_typed (fun e => (e.1, vc, pt, wt))) in Hct as (T1 & T2 & T3);
      [|unfold claim_typed; intros r0 a r0'; destruct (negb _); [done|]; case_bool_decide; [done|]; by intros [= <-]].
    pose proof (typed_keys m entries vc pt wt Hflat Ha) as Htk. pose proof (addressed_length entries Ha) as Hle.
    constructor; rewrite ?G1, ?G2, ?F1, ?F2, ?E2, ?E3 in *; [intros k; by rewrite C1, Hkey|intros k (e & He & ->)%Hkey; by apply C2|intros k; by rewrite T1, Htk|intros k (e & He & ->)%Htk; by apply T2
      |intros k; specialize (Hany k); tauto|intros k Hk'; by destruct (Hany k)| |lia].
    unfold route_count. rewrite ?G1, ?G2, ?C3, ?T3, ?G3, ?F3, ?E4. lia.
  - assert (has_key fs "typed_data" = false) as Hk by by apply has_key_spec. rewrite Hk in *. injection H as <-.
    assert (typed_data_route (VObject fs) = None) as -> by (unfold typed_data_route; cbn [value_get]; by rewrite Htd).
    constructor; rewrite ?F1, ?F2, ?E2, ?E3 in *; [intros k; by rewrite C1, Hkey|intros k (e & He & ->)%Hkey; by apply C2|intros k; split; [by right|]; intros [(? & ? & ? & ? & ? & _)|?]; done
      |by intros k (? & ? & ? & ? & ? & _)|intros k; specialize (Hany k); tauto|intros k Hk'; by destruct (Hany k)| |lia].
    unfold route_count. rewrite ?F1, ?F2, ?C3, ?F3, ?E4. lia.
Qed.
Lemma validate_routes_spec fs id sel path r r' : obj_get fs "selector" = Some (VString sel) -> validate_routes w fs id (to_ascii_lowercase sel) path r = Ok r' ->
  exists m, read_match fs = Some m /\ claims_of m (typed_data_route (VObject fs)) r r'.
Proof.
  intros Hsel H. unfold validate_routes in H. apply bind_Ok_inv in H as (agnostic & Hag & H). destruct agnostic; cycle 1.
  { eapply exact_routes; [exact Hsel| |exact H]. destruct (obj_get fs "address_agnostic") as [[]|]; simplify_eq; auto. }
  destruct (negb _); [done|]. cbn [orb] in H. destruct (existsb _ _) eqn:Hex; [done|]. cbn [existsb] in Hex. apply orb_false_iff in Hex as [H1%has_key_spec Hex].
  apply orb_false_iff in Hex as [H2%has_key_spec Hex]. apply orb_false_iff in Hex as [H3%has_key_spec _].
  apply bind_Ok_inv in H as (chains & Hc & H). apply bind_Ok_inv in H as (sb & _ & H). apply bind_Ok_inv in H as (l & Hl & H). apply bind_Ok_inv in H as (r1 & Hr & H).
  apply bind_Ok_inv in H as (cs & Hcs & H). apply ok_or_inv in Hc. apply chain_ids_spec in Hcs as (l' & -> & Hm & Hlen). injection Hl as ->. apply reserve_inv in Hr as (E1 & E2 & E3 & E4 & E5).
  exists (mkBundleMatch [] cs [] true sel). split.
  { unfold read_match, read_list. rewrite Hsel, H1, H2, Hc. cbn [mbind option_bind as_str as_array]. rewrite Hm. cbn [mbind option_bind].
    by destruct (obj_get fs "address_agnostic") as [[]|]; simplify_eq. }
  assert (typed_data_route (VObject fs) = None) as -> by (unfold typed_data_route; cbn [value_get]; by rewrite H3).
  assert (rs_typed r' = rs_typed r1 /\ rs_exact r' = rs_exact r1 /\ rs_entries r' = rs_entries r1) as (F1 & F2 & F3).
  { split_and!; eapply (claims_frame _ _ _); [|exact H| |exact H| |exact H]; unfold claim_agnostic; intros r0 a r0'; case_bool_decide; [done| |done| |done|]; by intros [= <-]. }
  apply (claims_all _ rs_agnostic (fun c => (c, to_ascii_lowercase sel))) in H as (C1 & C2 & C3); [|unfold claim_agnostic; intros r0 a r0'; case_bool_decide; [done|]; by intros [= <-]].
  assert (match_entries (mkBundleMatch [] cs [] true sel) = []) as Hme by (cbn; clear; induction cs; [done|]; cbn in *; done).
  assert (forall k, ~ call_key (mkBundleMatch [] cs [] true sel) k) as Hno by (intros k (e & He & _); rewrite Hme in He; by apply elem_of_nil in He).
  constructor; rewrite ?F1, ?F2, ?E1, ?E2, ?E3 in *.
  - intros k. specialize (Hno k). tauto.
  - intros k Hk. by destruct (Hno k).
  - intros k. split; [by right|]. intros [(? & ? & ? & ? & ? & _)|?]; done.
  - by intros k (? & ? & ? & ? & ? & _).
  - intros k. rewrite C1. unfold any_key. cbn. naive_solver.
  - intros k [_ (c & Hin & ->)]. by apply C2.
  - unfold route_count. rewrite ?F1, ?F2, ?C3, ?F3, ?E4. lia.
  - lia.
Qed.
End RouteLaws.

(** ** The registry of a snapshot *)
Definition bundle_id (b : Value) : option string := str_member b "id".
Definition matcher_of (b : Value) : option BundleMatch := v ← value_get b "match"; fs ← as_object v; read_match fs.
(** The routes a manifest declares. *)
Definition owns_call (b : Value) (k : Z * string * string) : Prop := exists m, matcher_of b = Some m /\ call_key m k.
Definition owns_typed (b : Value) (k : Z * string * string * option string) : Prop :=
  exists v m, value_get b "match" = Some v /\ matcher_of b = Some m /\ typed_key (typed_data_route v) m k.
Definition owns_any (b : Value) (k : Z * string) : Prop := exists m, matcher_of b = Some m /\ any_key m k.
(** [table] routes exactly what the manifests [bs] own. *)
Definition routes_exactly {K} `{Countable K} (owns : Value -> K -> Prop) (bs : list Value) (table : gmap K string) : Prop :=
  forall k id, table !! k = Some id <-> exists b, b ∈ bs /\ bundle_id b = Some id /\ owns b k.

Lemma table_step {K} `{Countable K} (owns : Value -> K -> Prop) bs b id keys (table : gmap K string) (claimed claimed' : gset K) :
  routes_exactly owns bs table -> dom table = claimed -> bundle_id b = Some id -> (forall k, k ∈ keys <-> owns b k) ->
  (forall k, owns b k -> k ∉ claimed) -> (forall k, k ∈ claimed' <-> owns b k \/ k ∈ claimed) ->
  routes_exactly owns (bs ++ [b]) (insert_all keys id table) /\ dom (insert_all keys id table) = claimed'.
Proof.
  intros Ht Hd Hid Hkeys Hnew Hc. split.
  - intros k i. rewrite insert_all_lookup. case_bool_decide as Hk.
    + apply Hkeys in Hk. split; [intros [= <-]; exists b; split_and!; [set_solver|done|done]|]. intros (b' & Hb & Hi & Ho). apply elem_of_app in Hb as [Hb|Hb%list_elem_of_singleton]; [|congruence].
      exfalso. apply (Hnew k Hk). rewrite <- Hd. apply elem_of_dom_2 with i. apply Ht. eauto.
    + rewrite (Ht k i). split; [intros (b' & Hb & Hr); exists b'; set_solver|]. intros (b' & Hb & Hi & Ho). apply elem_of_app in Hb as [Hb|Hb%list_elem_of_singleton]; [eauto|]. subst b'. by apply Hkeys in Ho.
  - apply set_eq. intros k. rewrite elem_of_dom, insert_all_lookup, Hc. rewrite <- Hkeys. case_bool_decide as Hk; [naive_solver|]. rewrite <- elem_of_dom, Hd. naive_solver.
Qed.

Lemma Forall2_impl_elem {A B} (P Q : A -> B -> Prop) l k : Forall2 P l k -> (forall x y, y ∈ k -> P x y -> Q x y) -> Forall2 Q l k.
Proof. induction 1 as [|x y l k Hxy HF IH]; intros H; constructor; [apply H; [left|done]|]. apply IH. intros x' y' Hy. apply H. by right. Qed.
Section SnapshotLaws.
Context {J : StrictJson} {K : Crypto} {A0 : Alloy} {E0 : DecodeSerde} {Y0 : TypedSerde} {G : SnapshotTools} (w : Z).
Lemma validate_bundle_inv b path r id r' : validate_bundle w b path r = Ok (id, r') -> exists fs mfs m,
  b = VObject fs /\ bundle_id b = Some id /\ value_get b "match" = Some (VObject mfs) /\ read_match mfs = Some m /\ claims_of m (typed_data_route (VObject mfs)) r r'.
Proof.
  unfold validate_bundle. intros H. apply bind_Ok_inv in H as (fs & [-> _]%ds_object_spec & H). apply bind_Ok_inv in H as (kind & _ & H). apply bind_Ok_inv in H as (sup & _ & H).
  destruct (negb sup); [done|]. apply bind_Ok_inv in H as (id' & [Hid _]%field_inv & H). apply bind_Ok_inv in H as (_ & _ & H). apply bind_Ok_inv in H as (mv & Hmv & H).
  apply bind_Ok_inv in H as (mfs & [-> _]%ds_object_spec & H). apply bind_Ok_inv in H as (sel & [Hsel _]%field_inv & H). destruct (negb (is_hex sel 4)); [done|]. cbn zeta in H.
  apply bind_Ok_inv in H as (r1 & Hr & H). assert (id' = id /\ r1 = r') as [-> ->].
  { apply bind_Ok_inv in H as (v1 & _ & H). apply bind_Ok_inv in H as (_ & _ & H). apply bind_Ok_inv in H as (v2 & _ & H). apply bind_Ok_inv in H as (_ & _ & H). destruct (_ && _); [done|].
    apply bind_Ok_inv in H as (_ & _ & H). apply bind_Ok_inv in H as (_ & _ & H). apply bind_Ok_inv in H as (_ & _ & H). by injection H as <- <-. }
  apply ok_or_inv in Hmv. destruct (validate_routes_spec w _ _ _ _ _ _ Hsel Hr) as (m & Hm & Hcl). exists fs, mfs, m. split_and!; try done. unfold bundle_id, str_member. cbn [value_get]. by rewrite Hid.
Qed.
Record snapshot_inv (bs : list Value) (st : Installing) : Prop := {
  iv_ids : Forall2 (fun b id => bundle_id b = Some id /\ dr_bundles (ig_registry st) !! id = Some b) bs (ig_ids st);
  iv_nodup : NoDup (ig_ids st);
  iv_digests : Forall2 (fun b d => exists c, jcs_to_vec b = inr c /\ d = sha256 c) bs (ig_digests st);
  iv_calls : routes_exactly owns_call bs (dr_bridge (ig_registry st)) /\ dom (dr_bridge (ig_registry st)) = rs_exact (ig_routes st);
  iv_typed : routes_exactly owns_typed bs (dr_typed_data_bridge (ig_registry st)) /\ dom (dr_typed_data_bridge (ig_registry st)) = rs_typed (ig_routes st);
  iv_any : routes_exactly owns_any bs (dr_selector_bridge (ig_registry st)) /\ dom (dr_selector_bridge (ig_registry st)) = rs_agnostic (ig_routes st);
  iv_count : route_count (ig_routes st) <= rs_entries (ig_routes st) <= MAX_ROUTING_ENTRIES }.
Context {L0 : MatchSerde E0}.
Lemma install_bundle_inv bs st i b st' : snapshot_inv bs st -> value_from_str (value_to_string b) = inr b -> install_bundle w st (i, b) = Ok st' -> snapshot_inv (bs ++ [b]) st'.
Proof.
  intros [Hids Hnd Hdg Hc Ht Ha Hn] Hround H. unfold install_bundle in H. apply bind_Ok_inv in H as ([id r'] & Hv & H). cbn [fst snd] in H. case_bool_decide as Hnew; [done|].
  apply bind_Ok_inv in H as (canonical & Hj & H). apply bind_Ok_inv in H as ([res reg'] & Hin & [= <-]). apply map_err_ok in Hin.
  apply validate_bundle_inv in Hv as (fs & mfs & m & Hb & Hid & Hmv & Hm & Hcl). apply install_inv in Hin as (value & id' & mv & m' & Hval & Hid' & Hmv' & Hm' & _ & _ & Ib & Ic & It & Is).
  rewrite Hround in Hval. injection Hval as <-. rewrite Hmv in Hmv'. injection Hmv' as <-. rewrite (match_of_fields mfs m Hm) in Hm'. injection Hm' as <-.
  unfold bundle_id in Hid. rewrite Hid in Hid'. injection Hid' as <-.
  assert (matcher_of b = Some m) as Hmo by (unfold matcher_of; by rewrite Hmv). destruct Hcl as [C1 C2 T1 T2 S1 S2 Hcount Hlim].
  assert (forall k, owns_call b k <-> call_key m k) as Oc by (intros k; unfold owns_call; rewrite Hmo; naive_solver).
  assert (forall k, owns_typed b k <-> typed_key (typed_data_route (VObject mfs)) m k) as Ot by (intros k; unfold owns_typed; rewrite Hmo, Hmv; naive_solver).
  assert (forall k, owns_any b k <-> any_key m k) as Oa by (intros k; unfold owns_any; rewrite Hmo; naive_solver).
  constructor; cbn.
  - apply Forall2_app; [|constructor; [|constructor]; split; [done|rewrite Ib; by apply lookup_insert_eq]]. rewrite Ib. eapply Forall2_impl_elem; [exact Hids|].
    intros b' i' Hin' [Hb' Hl]. split; [done|]. rewrite lookup_insert_ne; [done|]. by intros <-.
  - apply NoDup_app. split_and!; [done| |apply NoDup_singleton]. set_solver.
  - apply Forall2_app; [done|]. constructor; [|constructor]. destruct (jcs_to_vec b) as [|c] eqn:Hjc; [done|]. injection Hj as ->. eauto.
  - rewrite Ic. eapply table_step; [exact (proj1 Hc)|exact (proj2 Hc)|done| |intros k ?%Oc; by apply C2|intros k; by rewrite C1, Oc].
    intros k. rewrite Oc. unfold call_key. rewrite list_elem_of_fmap. naive_solver.
  - rewrite It. assert (match typed_data_route (VObject mfs) with Some (vc, pt, wt) => insert_all ((fun e => (e.1, vc, pt, wt)) <$> match_entries m) id (dr_typed_data_bridge (ig_registry st))
        | None => dr_typed_data_bridge (ig_registry st) end = insert_all match typed_data_route (VObject mfs) with Some (vc, pt, wt) => (fun e => (e.1, vc, pt, wt)) <$> match_entries m | None => [] end
        id (dr_typed_data_bridge (ig_registry st))) as -> by by destruct (typed_data_route _) as [[[? ?] ?]|].
    eapply table_step; [exact (proj1 Ht)|exact (proj2 Ht)|done| |intros k ?%Ot; by apply T2|intros k; by rewrite T1, Ot].
    intros k. rewrite Ot. unfold typed_key. destruct (typed_data_route _) as [[[vc pt] wt]|]; [rewrite list_elem_of_fmap; naive_solver|]. split; [by intros ?%elem_of_nil|naive_solver].
  - rewrite Is. assert ((if bm_address_agnostic m then insert_all ((fun c => (c, to_ascii_lowercase (bm_selector m))) <$> bm_chain_ids m) id (dr_selector_bridge (ig_registry st))
        else dr_selector_bridge (ig_registry st)) = insert_all (if bm_address_agnostic m then (fun c => (c, to_ascii_lowercase (bm_selector m))) <$> bm_chain_ids m else [])
        id (dr_selector_bridge (ig_registry st))) as -> by by destruct (bm_address_agnostic m).
    eapply table_step; [exact (proj1 Ha)|exact (proj2 Ha)|done| |intros k ?%Oa; by apply S2|intros k; by rewrite S1, Oa].
    intros k. rewrite Oa. unfold any_key. destruct (bm_address_agnostic m); [rewrite list_elem_of_fmap; naive_solver|]. split; [by intros ?%elem_of_nil|naive_solver].
  - lia.
Qed.
Lemma install_all_inv bundles st : (forall b, b ∈ bundles -> value_from_str (value_to_string b) = inr b) -> install_all w bundles = Ok st -> snapshot_inv bundles st.
Proof.
  intros Hr. unfold install_all. enough (forall l n done_ st0, snapshot_inv done_ st0 -> (forall b, b ∈ l -> value_from_str (value_to_string b) = inr b) ->
    foldM (install_bundle w) (imap (fun i b => ((n + i)%nat, b)) l) st0 = Ok st -> snapshot_inv (done_ ++ l) st) as H.
  { intros Hf. apply (H bundles 0%nat [] _) in Hf; [done| |done]. constructor; cbn; try constructor; try done; try (intros k id; rewrite lookup_empty; split; [done|]; intros (? & ?%elem_of_nil & _); done). }
  clear bundles Hr. induction l as [|b l IH]; intros n done_ st0 Hinv Hr H; cbn [imap foldM] in H.
  - injection H as <-. by rewrite app_nil_r.
  - apply bind_Ok_inv in H as (st1 & H1 & H). apply (install_bundle_inv done_) in H1; [|done|apply Hr; left]. change (b :: l) with ([b] ++ l). rewrite app_assoc.
    apply (IH (S n) _ st1); [done|by intros b' Hb'; apply Hr; right|]. rewrite <- H. f_equal. apply imap_ext. intros i x _. cbn. f_equal. lia.
Qed.

(** C24: A snapshot routes what its manifests declare. When a decoder is accepted, its registry
    holds exactly the authenticated manifests, under distinct ids; each of the three tables
    routes exactly the keys the manifests declare, each to the manifest that declares it, so
    that none of them takes over a route of another; and the tables have no more than 65,536
    entries together. *)
Theorem snapshot_routes_exact input keys max_bytes s bundles digest trust :
  prepare_decoder w input keys max_bytes = Ok s -> authenticate input keys max_bytes = Ok (bundles, digest, trust) ->
  (forall b, b ∈ bundles -> value_from_str (value_to_string b) = inr b) ->
  let reg := vd_registry s in
  Forall2 (fun b id => bundle_id b = Some id /\ dr_bundles reg !! id = Some b) bundles (vd_bundle_ids s) /\ NoDup (vd_bundle_ids s) /\
  routes_exactly owns_call bundles (dr_bridge reg) /\ routes_exactly owns_typed bundles (dr_typed_data_bridge reg) /\ routes_exactly owns_any bundles (dr_selector_bridge reg) /\
  Z.of_nat (size (dr_bridge reg)) + Z.of_nat (size (dr_typed_data_bridge reg)) + Z.of_nat (size (dr_selector_bridge reg)) <= MAX_ROUTING_ENTRIES.
Proof.
  unfold prepare_decoder. intros H Ha Hr. destruct (max_bytes =? 0); [done|]. rewrite Ha in H. cbn [mbind result_bind] in H. apply bind_Ok_inv in H as (st & Hst & [= <-]). cbn.
  destruct (install_all_inv _ _ Hr Hst) as [H1 H2 _ [H3 D3] [H4 D4] [H5 D5] H6]. split_and!; try done. rewrite <- !size_dom, D3, D4, D5. unfold route_count in H6. lia.
Qed.
End SnapshotLaws.

(** ** Genuine decoders *)
Section Genuine.
Context {J : StrictJson} {K : Crypto} {A0 : Alloy} {E0 : DecodeSerde} {Y0 : TypedSerde} {G : SnapshotTools} (w : Z).
(** The input the manifests [bundles] of a decoder were read from: the pinned bytes, or bytes
    whose canonical form a decoder key signed. *)
Definition vouched (input : DecoderInput) (keys : list TrustedKey) (max_bytes : Z) (d : VerifiedDecoderSnapshot) (bundles : list Value) : Prop :=
  match input with
  | Pinned artifact expected => exists text container,
      vd_trust d = PinnedArtifact /\ Z.of_nat (length artifact) <= max_bytes /\ sha256 artifact = expected /\ vd_digest d = expected /\
      utf8 artifact = Ok text /\ strict_parse text = Ok (VObject container) /\ obj_get container "bundles" = Some (VArray bundles)
  | SignedBundle bytes_ signature key_id expected => exists text b canonical signature_bytes s k,
      vd_trust d = SignedBy (tk_key_id k) /\ Z.of_nat (length bytes_) <= max_bytes /\ sha256 canonical = expected /\ vd_digest d = expected /\
      utf8 bytes_ = Ok text /\ strict_parse text = Ok b /\ bundles = [b] /\ jcs_to_vec b = inr canonical /\
      decode_signature signature = Ok signature_bytes /\ signature_from_slice signature_bytes = Some s /\
      k ∈ keys /\ tk_role k = RoleDecoder /\ verify (tk_public_key k) canonical s = true
  end.
Definition genuine_decoder (keys : list TrustedKey) (max_bytes : Z) (d : VerifiedDecoderSnapshot) : Prop := exists input bundles,
  vouched input keys max_bytes d bundles /\ bundles <> [] /\
  Forall2 (fun b id => bundle_id b = Some id) bundles (vd_bundle_ids d) /\ NoDup (vd_bundle_ids d) /\
  Forall2 (fun b digest => exists c, jcs_to_vec b = inr c /\ digest = sha256 c) bundles (vd_bundle_digests d) /\
  Forall (fun b => exists emit, value_get b "emit" = Some emit /\ TemplateOk emit) bundles.
Lemma require_digest_inv a e u : require_digest a e = Ok u -> a = e.
Proof. unfold require_digest, ensure. by destruct (String.eqb_spec a e). Qed.
Lemma authenticate_vouched input keys max_bytes bundles digest trust reg ids digests : authenticate input keys max_bytes = Ok (bundles, digest, trust) ->
  bundles <> [] /\ vouched input keys max_bytes (mkVerifiedDecoderSnapshot reg digest ids digests trust) bundles.
Proof.
  unfold authenticate. destruct input as [artifact expected|b sig kid expected]; intros H.
  - apply bind_Ok_inv in H as ([bs dg] & H & [= <- <- <-]). unfold pinned_bundles in H. apply bind_Ok_inv in H as (_ & _ & H). destruct (Z.ltb_spec max_bytes (Z.of_nat (length artifact))); [done|].
    cbn zeta in H. apply bind_Ok_inv in H as (u & Hd%require_digest_inv & H). apply bind_Ok_inv in H as (text & Ht%map_err_ok & H). apply bind_Ok_inv in H as (v & Hv%map_err_ok & H).
    apply bind_Ok_inv in H as (container & [-> _]%ds_object_spec & H). destruct (negb _); [done|]. apply bind_Ok_inv in H as (bv & Hb & H). apply ok_or_inv in Hb.
    apply bind_Ok_inv in H as (l & Hl & H). destruct bv as [| | | |l'|]; try done. injection Hl as ->. destruct (length l =? 0)%nat eqn:Hz; [done|]. injection H as <- <-. cbn.
    split; [by intros ->|]. exists text, container. by split_and!.
  - apply bind_Ok_inv in H as ([[bs dg] signer] & H & [= <- <- <-]). unfold signed_bundles in H. apply bind_Ok_inv in H as (_ & _ & H). apply bind_Ok_inv in H as (ver & Hver%map_err_ok & H).
    cbn zeta in H. apply bind_Ok_inv in H as (u & Hd%require_digest_inv & [= <- <- <-]). unfold verify_decoder_bundle in Hver. destruct (max_bytes =? 0); [done|].
    destruct (Z.ltb_spec max_bytes (Z.of_nat (length b))); [done|]. apply bind_Ok_inv in Hver as (text & Ht%map_err_ok & Hver). apply bind_Ok_inv in Hver as (v & Hv%map_err_ok & Hver).
    destruct v as [| | | | |fs]; try done. apply bind_Ok_inv in Hver as (sb & Hs%map_err_ok & Hver). apply bind_Ok_inv in Hver as (canonical & Hc & Hver). apply bind_Ok_inv in Hver as (signer & Hsig & [= <-]).
    destruct (jcs_to_vec (VObject fs)) as [|c] eqn:Hj; [done|]. injection Hc as ->. unfold verify_bytes in Hsig. apply bind_Ok_inv in Hsig as (s & Hs1 & Hs2). apply ok_or_inv in Hs1.
    pose proof (find_first_spec (fun key => bool_decide (tk_role key = RoleDecoder) && verify (tk_public_key key) canonical s) keys) as Hf.
    destruct (find_first _ keys) as [k|]; [|done]. injection Hs2 as <-. destruct Hf as [Hin [Hr%bool_decide_eq_true Hver]%andb_true_iff]. split; [done|].
    exists text, (VObject fs), canonical, sb, s, k. by split_and!.
Qed.
Lemma bundle_templates b path r id r' : validate_bundle w b path r = Ok (id, r') -> bundle_id b = Some id /\ exists emit, value_get b "emit" = Some emit /\ TemplateOk emit.
Proof.
  intros H. split; [by apply validate_bundle_inv in H as (? & ? & ? & _ & ? & _)|]. revert H. unfold validate_bundle. intros H.
  apply bind_Ok_inv in H as (fs & [-> _]%ds_object_spec & H). apply bind_Ok_inv in H as (? & _ & H). apply bind_Ok_inv in H as (sup & _ & H). destruct (negb sup); [done|].
  apply bind_Ok_inv in H as (? & _ & H). apply bind_Ok_inv in H as (? & _ & H). apply bind_Ok_inv in H as (? & _ & H). apply bind_Ok_inv in H as (? & _ & H). apply bind_Ok_inv in H as (? & _ & H).
  destruct (negb _); [done|]. cbn zeta in H. apply bind_Ok_inv in H as (? & _ & H). apply bind_Ok_inv in H as (? & _ & H). apply bind_Ok_inv in H as (? & _ & H).
  apply bind_Ok_inv in H as (emit & He & H). apply bind_Ok_inv in H as (? & _ & H). destruct (_ && _); [done|]. apply bind_Ok_inv in H as ([] & Ht & _). apply ok_or_inv in He. exists emit.
  split; [done|]. destruct (templates_loop_exact (value_size emit) path [emit]) as (r0 & Hr & _ & Hok); [rewrite fmap_cons, sum_cons; cbn; lia|].
  unfold validate_templates in Ht. rewrite Hr in Ht. cbn in Ht. by apply Forall_singleton, Hok.
Qed.
Lemma imap_pair_snd {A} (l : list A) : (imap pair l).*2 = l.
Proof. apply list_eq. intros i. rewrite list_lookup_fmap, list_lookup_imap. by destruct (l !! i). Qed.
Lemma install_all_ids bundles st : install_all w bundles = Ok st ->
  Forall2 (fun b id => bundle_id b = Some id) bundles (ig_ids st) /\ NoDup (ig_ids st) /\
  Forall2 (fun b digest => exists c, jcs_to_vec b = inr c /\ digest = sha256 c) bundles (ig_digests st) /\
  Forall (fun b => exists emit, value_get b "emit" = Some emit /\ TemplateOk emit) bundles.
Proof.
  unfold install_all. enough (forall l st0 st1, foldM (install_bundle w) l st0 = Ok st1 -> NoDup (ig_ids st0) -> exists ids digests,
    ig_ids st1 = ig_ids st0 ++ ids /\ ig_digests st1 = ig_digests st0 ++ digests /\ NoDup (ig_ids st1) /\ Forall2 (fun b id => bundle_id b = Some id) l.*2 ids /\
    Forall2 (fun b digest => exists c, jcs_to_vec b = inr c /\ digest = sha256 c) l.*2 digests /\ Forall (fun b => exists emit, value_get b "emit" = Some emit /\ TemplateOk emit) l.*2) as H.
  { intros (ids & dgs & H1 & H2 & H3 & H4 & H5 & H6)%H; [|constructor]. cbn in H1, H2. subst. rewrite imap_pair_snd in *. done. }
  induction l as [|[i b] l IH]; intros st0 st1 H Hn; cbn [foldM] in H; [injection H as <-; exists [], []; rewrite !app_nil_r; by split_and!|].
  apply bind_Ok_inv in H as (st2 & Hi & H). unfold install_bundle in Hi. apply bind_Ok_inv in Hi as ([id r'] & Hv & Hi). cbn [fst snd] in Hi. case_bool_decide as Hnew; [done|].
  apply bind_Ok_inv in Hi as (c & Hc & Hi). apply bind_Ok_inv in Hi as (reg' & _ & [= <-]). apply bundle_templates in Hv as [Hid Ht].
  apply IH in H as (ids & dgs & H1 & H2 & H3 & H4 & H5 & H6); [|cbn; apply NoDup_app; split_and!; [done|set_solver|apply NoDup_singleton]].
  destruct (jcs_to_vec b) as [|c'] eqn:Hj; [done|]. injection Hc as ->. cbn in H1, H2. rewrite <- app_assoc in H1, H2. exists (id :: ids), (sha256 c :: dgs). rewrite H1, H2 in *.
  split_and!; try done; constructor; eauto.
Qed.
Lemma prepare_genuine input keys max_bytes d : prepare_decoder w input keys max_bytes = Ok d -> genuine_decoder keys max_bytes d.
Proof.
  unfold prepare_decoder. destruct (max_bytes =? 0); [done|]. intros H. apply bind_Ok_inv in H as ([[bundles digest] trust] & Ha & H). apply bind_Ok_inv in H as (st & Hst & [= <-]).
  exists input, bundles. destruct (authenticate_vouched _ _ _ _ _ _ (ig_registry st) (ig_ids st) (ig_digests st) Ha) as [Hne Hv]. apply install_all_ids in Hst as (H1 & H2 & H3 & H4). by split_and!.
Qed.

Context {C0 : Cedar} {T0 : PolicyTools C0} (ck : bool).
(** C25: Stores hand out genuine decoders only. In every world that stores over this preparation
    can reach, the decoder of a live store was pinned by its digest or signed by a decoder key
    the store was configured with; its manifests are all of those of the artifact, with
    distinct ids and their digests, and none of them has an unresolved template or a call to
    a function that is not built in. *)
Theorem decoders_genuine world id st s : reachable ck (prepare_decoder w) world -> w_stores world !! id = Some st -> st_state st = Some s ->
  exists max_bytes, genuine_decoder (ss_keys s) max_bytes (sn_decoder (ss_active s)).
Proof.
  intros Hr. revert id st s. pattern world. refine (rtc_ind_r _ _ _ _ world Hr); clear world Hr; [intros id st s Hst; cbn in Hst; by rewrite lookup_empty in Hst|].
  intros w1 w2 Hr Hs IH id st s Hst Hs'.
  assert (world_inv ck w1) as Hw by by eapply reachable_inv. destruct (w_stores w1 !! id) as [st0|] eqn:H0.
  - destruct (step_grows ck _ _ _ _ _ Hw Hs H0) as (_ & st' & Hst' & Hg). rewrite Hst in Hst'. injection Hst' as <-. destruct (gr_state _ _ Hg s Hs') as (s0 & Hs0 & -> & _ & _ & -> & _). by eapply IH.
  - destruct Hs as [w0 id0 config di input now st0 Hn Hd Hnew|w0 id0 st0 st1 t Hl _|w0 id0 st0 t i now p Hl|w0 id0 st0 st1 pre p post now r Hl _ _|w0 id0 st0 st1 t r Hl _ _|w0 id0 st0 dd st1 Hl _]; cbn in Hst;
      try (destruct (decide (id0 = id)) as [->|]; [by rewrite H0 in Hl|rewrite lookup_insert_ne in Hst by done; congruence]); [|congruence].
    destruct (decide (id0 = id)) as [->|]; [|rewrite lookup_insert_ne in Hst by done; congruence]. rewrite lookup_insert_eq in Hst. injection Hst as ->.
    unfold store_new in Hnew. apply bind_Ok_inv in Hnew as (_ & _ & Hnew). apply bind_Ok_inv in Hnew as (_ & _ & Hnew). apply bind_Ok_inv in Hnew as (keys & _ & Hnew).
    apply bind_Ok_inv in Hnew as (d & Hdec & Hnew). apply bind_Ok_inv in Hnew as (p & _ & [= <-]). injection Hs' as <-. exists (sc_max_decoder_bytes config). by eapply prepare_genuine.
Qed.
End Genuine.

(** ** Witnesses *)
Module SnapshotDemo.
Definition target : string := "0x00000000000000000000000000000000000000Aa".
Definition manifest : Value :=
  VObject [("type", VString "adapter_action"); ("id", VString "demo/batch@1"); ("schema_version", VString "3");
           ("match", VObject [("selector", VString "0x01020304"); ("chain_to_addresses", VObject [("1", VArray [VString target])])]);
           ("abi_fragment", VObject [("function_name", VString "batch"); ("abi", VObject [("type", VString "function"); ("name", VString "batch")])]);
           ("emit", VObject [("strategy", VString "single_emit"); ("body", VObject [("to", VObject [("$fn", VString "keccak256"); ("$args", VArray [VString "$args.data"])])])])]%string.
Definition container : Value := VObject [("schema_version", VNumber (IntNum 1)); ("bundles", VArray [manifest])]%string.
#[local] Instance json : StrictJson := {|
  RawValue := string; raw_len s := Z.of_nat (String.length s); object_members _ _ := Ok []; raw_string r _ := Ok r;
  strict_parse text := if String.eqb text "B" then Ok container else Ok (demo_payload (Z.of_nat (String.length text)) 1000) |}.
#[local] Instance serde : DecodeSerde := {|
  value_from_str _ := inr manifest; route_input_from_str _ := inl "transaction"%string;
  match_from_value v := match v with VObject fs => match read_match fs with Some m => inr m | None => inl "match"%string end | _ => inl "match"%string end;
  function_from_value _ := inr (mkAbiFunction "batch" []) |}.
#[local] Instance laws : MatchSerde serde.
Proof. constructor. intros fs m H. cbn. by rewrite H. Qed.
#[local] Instance tools : SnapshotTools := {| jcs_to_vec _ := inr [1]; sha256_digest _ := repeat 0 32 |}.
Definition pin : string := ("0x" +:+ hex_encode (repeat 0 32))%string.
Definition input : DecoderInput := Pinned [66] pin.
Notation prepared := (prepare_decoder (J := json) (K := Mini.crypto) (A0 := MiniAlloy.alloy) (E0 := serde) (Y0 := TypedDemo.texts) (G := tools) 64).
Notation run := (reachable (J := json) (K := Mini.crypto) (T0 := Mini.tools) true prepared).
Notation demo_store := (SnapshotStore (K := Mini.crypto) (VerifiedDecoderSnapshot := VerifiedDecoderSnapshot)).
Notation created := (store_new (J := json) (K := Mini.crypto) (T0 := Mini.tools) true prepared 0%nat MiniRun.config input (MiniRun.input 1) MiniRun.now).
Definition store : demo_store := match created with Ok st => st | _ => mkSnapshotStore 0%nat 0 None None end.
Lemma created_live : match created with Ok st => match st_state st with Some _ => true | None => false end | _ => false end = true.
Proof. vm_compute. reflexivity. Qed.
Lemma created_store : created = Ok store.
Proof. pose proof created_live as H. unfold store. destruct created; [reflexivity|discriminate H..]. Qed.
Lemma store_created : run (mkWorld (K := Mini.crypto) (VerifiedDecoderSnapshot := VerifiedDecoderSnapshot) ∅ {[0%nat := store]} [] []).
Proof.
  eapply rtc_l; [|apply rtc_refl].
  exact (step_new (J := json) (K := Mini.crypto) (T0 := Mini.tools) true prepared (initial_world (K := Mini.crypto)) 0%nat MiniRun.config input (MiniRun.input 1) MiniRun.now store eq_refl
    (not_elem_of_empty _) created_store).
Qed.
Definition call : Z * string * string := (1, "0x00000000000000000000000000000000000000aa"%string, "0x01020304"%string).
Lemma prepared_routes :
  match prepared input [] 100 with Ok s => bool_decide (dr_bridge (vd_registry s) !! call = Some "demo/batch@1"%string) | _ => false end = true.
Proof. vm_compute. reflexivity. Qed.
End SnapshotDemo.
Lemma snapshot_routes_exact_witness : exists s,
  prepare_decoder (J := SnapshotDemo.json) (K := Mini.crypto) (A0 := MiniAlloy.alloy) (E0 := SnapshotDemo.serde) (Y0 := TypedDemo.texts) (G := SnapshotDemo.tools) 64 SnapshotDemo.input [] 100 = Ok s /\
  routes_exactly owns_call [SnapshotDemo.manifest] (dr_bridge (vd_registry s)) /\
  dr_bridge (vd_registry s) !! SnapshotDemo.call = Some "demo/batch@1"%string.
Proof.
  pose proof SnapshotDemo.prepared_routes as Hok.
  destruct (prepare_decoder (J := SnapshotDemo.json) (K := Mini.crypto) (A0 := MiniAlloy.alloy) (E0 := SnapshotDemo.serde) (Y0 := TypedDemo.texts) (G := SnapshotDemo.tools) 64 SnapshotDemo.input [] 100)
    as [s|e|] eqn:Hp; [|discriminate Hok..].
  destruct (snapshot_routes_exact (J := SnapshotDemo.json) (K := Mini.crypto) (A0 := MiniAlloy.alloy) (E0 := SnapshotDemo.serde) (Y0 := TypedDemo.texts) (G := SnapshotDemo.tools) (L0 := SnapshotDemo.laws)
    64 SnapshotDemo.input [] 100 s [SnapshotDemo.manifest] SnapshotDemo.pin PinnedArtifact Hp) as (_ & _ & Hr & _); [vm_compute; reflexivity|intros b Hb; apply list_elem_of_singleton in Hb as ->; exact eq_refl|].
  exists s. split; [exact eq_refl|]. split; [exact Hr|exact (bool_decide_eq_true_1 _ Hok)].
Defined.
Lemma decoders_genuine_witness : exists s max_bytes, st_state SnapshotDemo.store = Some s /\
  genuine_decoder (J := SnapshotDemo.json) (G := SnapshotDemo.tools) (ss_keys s) max_bytes (sn_decoder (ss_active s)).
Proof.
  pose proof SnapshotDemo.created_live as Hl. rewrite SnapshotDemo.created_store in Hl.
  destruct (st_state SnapshotDemo.store) as [s|] eqn:Hs; [|discriminate Hl].
  destruct (decoders_genuine (J := SnapshotDemo.json) (K := Mini.crypto) (A0 := MiniAlloy.alloy) (E0 := SnapshotDemo.serde) (Y0 := TypedDemo.texts) (G := SnapshotDemo.tools) 64 (T0 := Mini.tools) true
    _ 0%nat SnapshotDemo.store s SnapshotDemo.store_created (lookup_singleton_eq _ _) Hs) as [max Hg].
  exists s, max. split; [exact eq_refl|exact Hg].
Defined.

End DecoderSnapshot.
